(* ===== verification/_CoqProject ===== *)
-Q . S2P
Prelude.v
ByteArray.v
Double.v
Lua.v
LuafanText.v
Stream.v
LuaState.v
ObjectBuf.v
ObjectWire.v
ObjectTrip.v
ObjectSafe.v
JsonEncode.v
JsonDecode.v
Evhttp.v
Registry.v
Httpd.v
WebSocket.v
TcpdConfig.v
Loop.v
Fifo.v
Popen.v
PopenLife.v
PopenProps.v
TcpdSsl.v
Tcpd.v
TcpdServer.v
TcpdLife.v
TcpdProps.v
TcpdListen.v
UdpdAddr.v
UdpdConfig.v
Udpd.v
UdpdLife.v
UdpdProps.v
UdpdMake.v
EventMgr.v
Holds.v
HttpHeader.v
HttpOptions.v
HttpClient.v
HttpLife.v
HttpProps.v
MariadbData.v
Mariadb.v
MariadbLife.v
MariadbSteps.v
MariadbProps.v
MariadbSame.v
Tracker.v
HttpSockets.v
