(* ===== verification/Prelude.v ===== *)
(** * luafan: a verification development of the C core of the library

    luafan binds an event loop (libevent), TCP with TLS, UDP, an HTTP server with
    WebSocket, an HTTP client (libcurl), a database client (MariaDB), and three
    codecs to Lua.  This development translates the parts of src/src/ that carry
    logic of their own into executable Rocq definitions and proves what makes them
    correct.  This file is the root: this overview, then
    the vocabulary every other file uses.

    How the program is put together

    Scripts call C functions registered in Lua modules; libevent calls C callbacks
    when sockets are ready, and these call back into scripts.  Data crosses
    between the two as Lua strings, byte buffers (BYTEARRAY), and the evbuffers of
    libevent.  References that C code keeps to Lua values live in the registry.

    Files and what they model

    - Prelude: machine integers, blocks of memory with checked accesses, [malloc]
      as the class [Allocator] (whose answer may be [None]), and [outcome], what a
      call does: return, raise a Lua error, or something undefined ([UB]).
    - ByteArray: bytearray.c and bytearray.h, the growable buffer.
    - Double: the number conversions of the C library that json.c and the others
      call, on IEEE patterns.
    - Lua, LuaState: the values scripts exchange with the bindings, the conversions
      of the C API (class [LuaAPI]), tables by reference (class [LuaTable]), the
      registry and the call stack.  Lua is not under src/: both classes state what
      its manual promises, and both have instances.
    - Stream: stream_ffi.c and the methods of stream.c, over ByteArray.
    - JsonEncode, JsonDecode: json.c.
    - ObjectBuf, ObjectWire, ObjectTrip, ObjectSafe: objectbuf.c; the program, its
      wire format, the round trip, and arbitrary input.
    - Evhttp: evbuffers (class [Evbuffer]) and the string comparisons of libc.
    - Httpd: httpd_request.c, httpd_metrics.c and the settings and the dispatcher of
      httpd.c: one request from its arrival to its last byte.
    - WebSocket: httpd_websocket.c, over Httpd for the upgrade.
    - Registry: what the Lua registry holds under the references of the TCP and UDP
      connections, and whose they are.
    - Loop: what an object holds of the registry, the descriptors and the event base,
      as one predicate ([owns]), and how a callback is called (utlua.c, utlua.h);
      the class [Object] is what a component offers to have its callbacks called.
    - LuafanText: the hexadecimal and UTF-8 functions of luafan.c.
    - Fifo: fifo.c, an instance of [Object].
    - Popen: popen.c, another instance; PopenLife, PopenProps: what every step keeps,
      and the theorems.
    - EventMgr: event_mgr.c, the event bases, the resolvers, the workers and their
      ending.
    - Holds: registry references and who holds them, for values of any type; the HTTP
      client and the database bindings use it.
    - HttpHeader, HttpOptions, HttpClient: http.c: the header lines of a response, the
      table of a request as it is read into settings of libcurl, and the requests in
      flight; HttpLife, HttpProps: the list in flight with what every step keeps, and
      the theorems.  HttpSockets: the sockets and timers libcurl has watched.
    - Tracker: thread_tracker.c, the counters of debug builds.
    - MariadbData, Mariadb: luamariadb.c and mariadb/*.c: the values between the
      database and Lua; connections, cursors and statements with their waits.
      MariadbLife, MariadbSteps: the invariant and what every call and every callback
      does to it; MariadbProps, MariadbSame: the theorems.
    - TcpdConfig: tcpd_config.c, conn_config.h, tcpd_error.c.
    - TcpdSsl: tcpd_ssl.c, the cache of TLS contexts; its keys are built in a
      BYTEARRAY.
    - Tcpd: a TCP connection: tcpd_event.c, tcpd.c and the accepted connections of
      tcpd_server.c; TcpdServer: the listener and the server object.
    - TcpdLife, TcpdProps, TcpdListen: the invariant and the steps of a connection,
      the theorems about connections, the theorems about servers.
    - UdpdAddr: udpd_dest.c and the address functions of udpd_utils.c, over the bytes
      of socket addresses; UdpdConfig: udpd_config.c; Udpd: a UDP connection
      (udpd_event.c, udpd.c, the resolver part of udpd_dns.c); UdpdMake: make_dest
      and make_dests with their resolver requests.
    - UdpdLife, UdpdProps: the invariant and the steps of a UDP connection, and the
      theorems about it.

    Definitions have the names of the C functions; a C structure is a record whose
    fields have the names of its members.  A function that may raise, fail or touch
    memory is in the [outcome] monad and threads the objects it changes.

    What the theorems show

    - Buffers: every operation the write/read protocol admits is memory safe, keeps
      the buffer well formed and implements a byte queue; capacities are the least
      sufficient powers of two; emptying a marked buffer leaves a stale mark.
    - Streams: what one stream packs another unpacks, field for field; a read on
      incomplete input changes nothing and says how much to wait for; reading
      hostile bytes stays inside the block.
    - JSON: [json.encode] writes the text of the tree a value stands for or raises,
      and refuses cycles; [json.decode] always answers, inverts printing, and what
      it makes of the text of a tree whose keys are distinct, whose numbers 14 digits
      identify and whose nulls Lua can hold encodes to the same tree; the helpers and
      the opening of the module keep the state well formed.
    - Object graphs: decoding what was encoded gives an isomorphic copy, with
      sharing and cycles; decoding any string shorter than 2^31 bytes ends safely,
      unless it says that it has 2^32-1 tables, where a loop never ends; functions,
      and symbols at the top, are lost.
    - HTTP: under every interleaving of the script, the return of its handler, the
      peer and libevent the reply follows the protocol of evhttp, and a request that
      libevent has freed is used only by a read after a complete reply or once the
      handler has returned; the body is delivered once and whole; what the metrics
      count.
    - WebSocket: frames round trip; as long as the server object lives, nothing that
      scripts, peer, event loop and collector do touches a connection, bufferevent,
      request or queued frame that was freed; delivery is in order however the
      network cuts the stream; closing and release.
    - TCP: under any order of method calls, callbacks and scripts inside callbacks a
      connection returns from every step (but for the address of a UNIX socket, and
      for a script that lets go of the connection in its own callback), its
      bufferevent lives exactly as long as it is needed, and its references and its
      TLS context are given back exactly once; bytes are delivered whole and in order
      both ways; contexts are counted; a server, with TLS or without, has at most one
      live listener, on the address it is set to.  Where the code does something else
      than it means to (letting go of a connection while the end of its stream is
      delivered, a server with TLS whose context the script does not keep) a theorem
      says what.
    - UDP: the same safety (for scripts that do not let go of the connection while
      they run) and the same complete ending for UDP connections, with
      their socket, events and resolver request; a datagram reaches the script once,
      with its bytes and a destination that leads back to its sender; destinations
      round trip through text and are equal exactly when port and address are;
      coroutines that ask for destinations by name are resumed once, with all of
      them; what a script gets of a connection it asked for by name.
    - Text: [is_valid_utf8] is the definition of UTF-8, [sanitize_utf8] always
      answers it, and hexadecimal text round trips.
    - Named pipes: every step but a failing read is safe, what a pipe holds is exact
      and is given back; data arrives once; what becomes of errors.
    - The event manager: in any order of calls and callbacks nothing is used after it
      is freed, everything is given back at the end, and only a worker that is not in
      its loop can make a call wait for ever; what misuse leads to.
    - Child processes: the environment and the descriptors a child is given; safety
      and complete release, with no signal to a process that is not the child and no
      dead child left; what a script is told of output and exit.
    - The HTTP client: headers are kept value by value; settings go to libcurl with the
      types it documents, but for a list of constants given as [int] and the two
      verification settings given as doubles, and a request is refused
      for the first thing that is wrong with it; in any order of requests that can be
      read, callbacks,
      completions and cleanups nothing is used after it is given back, everything is
      given back at the end, and a response has what libcurl gave, once; what is lost
      when a request is refused, cannot wait, or comes after the cleanup.  Each socket
      libcurl watches has one live event, for exactly what it asked.
    - The reference tracker knows exactly the references that are alive as long as they
      fit; its counts drift by one, for ever, with every one that does not.
    - The database: rows and parameters arrive as what they are, or what becomes of
      them is said (64-bit bounds, booleans, cached parameters); with one operation at
      a time on a connection, and nothing closed or collected under a wait or before
      what uses it, no object, connection or coroutine is used after it is gone, the
      count of waits on an object is exact and the registry ends empty; a coroutine
      that waits is resumed once, with what it would have got without waiting, but a
      close of a connection that waits is never resumed; the other uses the code does
      not withstand are run ([mariadb_misuse]).

    Fuel

    Recursion that is not structural takes fuel, and the definitions that use it
    supply it: two more than the number of tables for [json.encode] and for the
    packer of object graphs (neither enters a table twice), a little more than twice
    the length of the text for [json.decode] ([json_decode_total]), the length of the
    input for the loops that take at least one byte each time, the size in bits for
    decimal printing, the number of tables for the loop of objectbuf.c that creates them
    (whose one endless case is a result of its own).  The totality theorems say that it
    never runs out.

    Not modelled

    - The Lua value stack, and Lua's own failures to allocate; the scripts are
      arguments, as functions, trees of calls or sequences of steps.
    - libevent, OpenSSL, evdns, libcurl, the MariaDB client and the system calls:
      third-party code, present as classes with the documented laws where the
      models need it (evbuffers, SHA-1 and base64, allocation, the text of addresses), as
      recorded actions, or as arguments for what a call answers.
    - Worker threads and the lock around a connection (a connection on the main
      event base is modelled; misuse of its mutex is recorded, in [t_misuse]
      and [x_misuse]),
      timeouts, the host name and error text of TLS, the unlinking of socket files.
    - httpd.c around the requests (server start, TLS setup, accept loops), evdns.c, the rest of luafan.c, the POSIX
      bindings and the Lua modules.
    - Of the database bindings: opening the module, what the client library keeps in a
      connection but whether it has been closed, the blocking call for the next result set, the limit of the Lua stack
      and yields outside a coroutine.
    - Of http.c: [debug_callback], the share handle and its lock, the setters of paths,
      escaping (libcurl's), and the part for Apple systems. *)

From stdpp Require Export base numbers list strings gmap.
From Stdlib Require Export ZArith Lia.
#[global] Open Scope Z_scope.

(** ** Outcomes of a C function called from Lua *)

(** A call returns normally, leaves through [lua_error] with a message, or
    performs an access the C standard gives no meaning to. *)
Inductive outcome (A : Type) : Type :=
  | Ret (a : A)
  | Raise (msg : list Z)
  | UB.
Arguments Ret {A} a.
Arguments Raise {A} msg.
Arguments UB {A}.

#[export] Instance outcome_ret : MRet outcome := fun A a => Ret a.
#[export] Instance outcome_bind : MBind outcome := fun A B f m =>
  match m with
  | Ret a => f a
  | Raise e => Raise e
  | UB => UB
  end.

(** Bytes of a string literal. *)
Fixpoint lit (s : string) : list Z :=
  match s with
  | EmptyString => []
  | String c s' => Z.of_N (Ascii.N_of_ascii c) :: lit s'
  end.

(** ** Machine integers *)

Definition u8 (z : Z) : Z := z mod 2 ^ 8.
Definition u16 (z : Z) : Z := z mod 2 ^ 16.
Definition u32 (z : Z) : Z := z mod 2 ^ 32.
Definition u64 (z : Z) : Z := z mod 2 ^ 64.
(** Conversion to [int] (two's complement, as every supported compiler does). *)
Definition s32 (z : Z) : Z := (z + 2 ^ 31) mod 2 ^ 32 - 2 ^ 31.
Definition s64 (z : Z) : Z := (z + 2 ^ 63) mod 2 ^ 64 - 2 ^ 63.
(** C truth value of an [int]. *)
Definition c_true (z : Z) : bool := negb (z =? 0).
Definition c_bool (b : bool) : Z := if b then 1 else 0.

Definition is_byte (z : Z) : Prop := 0 <= z < 256.
Definition bytes_ok (l : list Z) : Prop := Forall is_byte l.

#[export] Instance is_byte_dec z : Decision (is_byte z).
Proof. unfold is_byte; apply _. Defined.
#[export] Instance bytes_ok_dec l : Decision (bytes_ok l).
Proof. unfold bytes_ok; apply _. Defined.

Definition Zlen {A} (l : list A) : Z := Z.of_nat (length l).
#[global] Arguments Zlen {A} l : simpl never.
Definition ztake {A} (n : Z) (l : list A) : list A := take (Z.to_nat n) l.
Definition zdrop {A} (n : Z) (l : list A) : list A := drop (Z.to_nat n) l.
#[global] Arguments ztake {A} n l : simpl never.
#[global] Arguments zdrop {A} n l : simpl never.

(** Unsigned integers of [n] bytes in memory, least significant byte first. *)
Fixpoint le_bytes (n : nat) (z : Z) : list Z :=
  match n with
  | O => []
  | S n' => z mod 256 :: le_bytes n' (z / 256)
  end.
Fixpoint le_val (l : list Z) : Z :=
  match l with
  | [] => 0
  | b :: l' => b + 256 * le_val l'
  end.
(** The same in network byte order. *)
Definition be_bytes (n : nat) (z : Z) : list Z := rev (le_bytes n z).
Definition be_val (l : list Z) : Z := le_val (rev l).

(** Decimal digits, as [%d] and [%lu] print them.  A number has no more digits
    than its binary logarithm plus one, which is the fuel. *)
Fixpoint dec_digits (fuel : nat) (n : Z) : list Z :=
  match fuel with
  | O => []
  | S fuel => if n <? 10 then [48 + n] else dec_digits fuel (n / 10) ++ [48 + n mod 10]
  end.
Definition dec_of_nonneg (n : Z) : list Z := dec_digits (S (Z.to_nat (Z.log2 n))) n.
Definition dec_of_Z (n : Z) : list Z :=
  if n <? 0 then 45 :: dec_of_nonneg (- n) else dec_of_nonneg n.

(** The C string at the front of a block, and what [snprintf] leaves of a text in
    a buffer of [n] bytes. *)
Fixpoint cstr (s : list Z) : list Z :=
  match s with
  | [] => []
  | c :: s => if c =? 0 then [] else c :: cstr s
  end.
Definition snprintf (n : Z) (s : list Z) : list Z := ztake (n - 1) s.

(** ** C memory blocks *)

(** [memcpy] out of / into the block a pointer designates: defined inside the
    block only.  Copying no bytes touches nothing. *)
Definition mem_load (buf : option (list Z)) (off n : Z) : outcome (list Z) :=
  if n =? 0 then Ret [] else
  match buf with
  | None => UB
  | Some b =>
      if (0 <=? off) && (0 <=? n) && (off + n <=? Zlen b)
      then Ret (ztake n (zdrop off b)) else UB
  end.

Definition mem_store (buf : option (list Z)) (off : Z) (data : list Z)
  : outcome (option (list Z)) :=
  if Zlen data =? 0 then Ret buf else
  match buf with
  | None => UB
  | Some b =>
      if (0 <=? off) && (off + Zlen data <=? Zlen b)
      then Ret (Some (ztake off b ++ data ++ zdrop (off + Zlen data) b)) else UB
  end.

(** The C allocator.  [malloc n] is a null pointer or a block of [n] bytes with
    contents the program did not choose; no object exceeds [PTRDIFF_MAX]. *)
Class Allocator : Type := {
  malloc : Z -> option (list Z);
  malloc_len : forall n b, 0 <= n -> malloc n = Some b -> Zlen b = n;
  malloc_bytes : forall n b, malloc n = Some b -> bytes_ok b;
  malloc_max : forall n b, malloc n = Some b -> n < 2 ^ 63
}.

(** [realloc p n]: a null pointer leaves the old block alone; otherwise the new
    block starts with the old contents. *)
Definition realloc `{Allocator} (old : option (list Z)) (n : Z) : option (list Z) :=
  match malloc n with
  | None => None
  | Some fresh =>
      let o := default [] old in
      Some (ztake n o ++ zdrop (Zlen o) fresh)
  end.

Definition malloc_ok `{Allocator} (n : Z) : bool := match malloc n with Some _ => true | None => false end.
Definition strdup `{Allocator} (s : list Z) : option (list Z) := if malloc_ok (Zlen (cstr s) + 1) then Some (cstr s) else None.

(** The allocator that always succeeds below [PTRDIFF_MAX], with zeroed blocks,
    and one that never does: the two instances the witnesses run on. *)
Definition zero_block (n : Z) : option (list Z) :=
  if n <? 2 ^ 63 then Some (replicate (Z.to_nat n) 0) else None.

Lemma zero_block_len n b : 0 <= n -> zero_block n = Some b -> Zlen b = n.
Proof.
  unfold zero_block, Zlen. intros Hn H. case_match; [|done].
  injection H as <-. rewrite length_replicate. lia.
Qed.
Lemma zero_block_bytes n b : zero_block n = Some b -> bytes_ok b.
Proof.
  unfold zero_block. intros H. case_match; [|done]. injection H as <-.
  apply Forall_replicate. unfold is_byte. lia.
Qed.
Lemma zero_block_max n b : zero_block n = Some b -> n < 2 ^ 63.
Proof. unfold zero_block. destruct (Z.ltb_spec n (2 ^ 63)); done. Qed.

Definition zero_alloc : Allocator := {|
  malloc := zero_block;
  malloc_len := zero_block_len;
  malloc_bytes := zero_block_bytes;
  malloc_max := zero_block_max
|}.

(** Allocation succeeds up to [M] bytes. *)
Definition mem_upto `{Allocator} (M : Z) : Prop := forall n, 0 <= n <= M -> malloc n <> None.

Lemma malloc_upto `{Allocator} M n : mem_upto M -> 0 <= n <= M -> malloc_ok n = true.
Proof. intros HM Hn. unfold malloc_ok. destruct (malloc n) eqn:E; [done|]. by apply HM in E. Qed.

Definition null_alloc : Allocator.
Proof. refine {| malloc := fun _ => None |}; done. Defined.

Lemma zero_alloc_upto : @mem_upto zero_alloc (2 ^ 40).
Proof. intros n Hn. cbn. unfold zero_block. by destruct (Z.ltb_spec n (2 ^ 63)); [|lia]. Qed.

(** ** Calls that return or raise, and what they return *)

Definition safe {A} (r : outcome A) (P : A -> Prop) : Prop :=
  match r with Ret x => P x | Raise _ => True | UB => False end.
Lemma safe_bind {A B} (r : outcome A) (f : A -> outcome B) (P : A -> Prop) Q :
  safe r P -> (forall x, P x -> safe (f x) Q) -> safe (r ≫= f) Q.
Proof. destruct r as [x| |]; cbn; auto. Qed.
Lemma safe_mono {A} (r : outcome A) (P Q : A -> Prop) : safe r P -> (forall x, P x -> Q x) -> safe r Q.
Proof. destruct r as [x| |]; cbn; auto. Qed.
(** Calls that return. *)
Definition returns {A} (r : outcome A) (P : A -> Prop) : Prop :=
  match r with Ret x => P x | _ => False end.
Lemma returns_bind {A B} (r : outcome A) (f : A -> outcome B) (P : A -> Prop) Q :
  returns r P -> (forall x, P x -> returns (f x) Q) -> returns (r ≫= f) Q.
Proof. destruct r as [x| |]; cbn; auto. Qed.
(** Taking apart a successful sequence of calls. *)
Lemma bind_ret {A B} (m : outcome A) (k : A -> outcome B) b : m ≫= k = Ret b -> exists a, m = Ret a /\ k a = Ret b.
Proof. destruct m; [eauto|done|done]. Qed.
Lemma returns_mono {A} (r : outcome A) (P Q : A -> Prop) : returns r P -> (forall x, P x -> Q x) -> returns r Q.
Proof. destruct r as [x| |]; cbn; auto. Qed.
Lemma returns_inv {A} (r : outcome A) P : returns r P -> exists x, r = Ret x /\ P x.
Proof. destruct r as [x| |]; cbn; [|done..]. by exists x. Qed.

(** ** Lemmas: integers *)

(** [lia] with the defining equations of the divisions and remainders. *)
Ltac dmlia := Z.to_euclidean_division_equations; lia.

Lemma s64_small z : - 2 ^ 63 <= z < 2 ^ 63 -> s64 z = z.
Proof. intros Hz. unfold s64. rewrite Z.mod_small by lia. lia. Qed.
Lemma u8_range z : 0 <= u8 z < 256.
Proof. apply Z.mod_pos_bound. lia. Qed.
Lemma u16_range z : 0 <= u16 z < 2 ^ 16.
Proof. apply Z.mod_pos_bound. lia. Qed.
Lemma u32_range z : 0 <= u32 z < 2 ^ 32.
Proof. apply Z.mod_pos_bound. lia. Qed.
Lemma u64_range z : 0 <= u64 z < 2 ^ 64.
Proof. apply Z.mod_pos_bound. lia. Qed.
Lemma u8_small z : 0 <= z < 256 -> u8 z = z.
Proof. apply Z.mod_small. Qed.
Lemma u16_small z : 0 <= z < 2 ^ 16 -> u16 z = z.
Proof. apply Z.mod_small. Qed.
Lemma u32_small z : 0 <= z < 2 ^ 32 -> u32 z = z.
Proof. apply Z.mod_small. Qed.
Lemma u64_small z : 0 <= z < 2 ^ 64 -> u64 z = z.
Proof. apply Z.mod_small. Qed.
Lemma s32_small z : - 2 ^ 31 <= z < 2 ^ 31 -> s32 z = z.
Proof. unfold s32. intros ?. rewrite Z.mod_small; lia. Qed.

Lemma testbit_high x w i : 0 <= x < 2 ^ w -> w <= i -> Z.testbit x i = false.
Proof.
  intros Hx Hi. destruct (Z.lt_ge_cases w 0).
  { rewrite Z.pow_neg_r in Hx; lia. }
  destruct (Z.eq_dec x 0) as [->|]; [apply Z.bits_0|].
  apply Z.bits_above_log2; [lia|]. apply Z.log2_lt_pow2; [lia|].
  assert (2 ^ w <= 2 ^ i) by (apply Z.pow_le_mono_r; lia). lia.
Qed.

(** Masking out the [k] low bits of a [w]-bit number. *)
Lemma land_high x k w :
  0 <= k <= w -> 0 <= x < 2 ^ w -> Z.land x (Z.ldiff (Z.ones w) (Z.ones k)) = 2 ^ k * (x / 2 ^ k).
Proof.
  intros Hk Hx. transitivity (Z.ldiff x (Z.ones k)).
  - apply Z.bits_inj'. intros i Hi. rewrite Z.land_spec, !Z.ldiff_spec, Z.testbit_ones by lia.
    replace (0 <=? i) with true by lia. cbn [andb].
    destruct (Z.ltb_spec i w); [by destruct (Z.testbit x i)|].
    by rewrite (testbit_high x w i).
  - rewrite Z.ldiff_ones_r, Z.shiftl_mul_pow2, Z.shiftr_div_pow2 by lia. lia.
Qed.

Lemma lor_range a b w : 0 <= a < 2 ^ w -> 0 <= b < 2 ^ w -> 0 <= Z.lor a b < 2 ^ w.
Proof.
  intros Ha Hb. assert (0 <= w). { destruct (Z.lt_ge_cases w 0); [rewrite Z.pow_neg_r in Ha; lia|done]. }
  split; [apply Z.lor_nonneg; lia|]. apply Z.lt_nge. intros Hge.
  assert (Hl : w <= Z.log2 (Z.lor a b)) by (by apply Z.log2_le_pow2; [lia|]).
  assert (Z.lor a b <> 0) by lia.
  pose proof (Z.bit_log2 (Z.lor a b) ltac:(lia)) as Hbit. rewrite Z.lor_spec in Hbit.
  rewrite (testbit_high a w), (testbit_high b w) in Hbit by done. done.
Qed.

(** Disjoint bit fields: [or] is addition. *)
Lemma lor_shiftl a b k : 0 <= k -> 0 <= a < 2 ^ k -> Z.lor a (Z.shiftl b k) = a + b * 2 ^ k.
Proof.
  intros Hk Ha. rewrite <- Z.add_nocarry_lor; [by rewrite Z.shiftl_mul_pow2 by lia|].
  apply Z.bits_inj'. intros i Hi. rewrite Z.land_spec, Z.bits_0.
  destruct (Z.lt_ge_cases i k).
  - by rewrite Z.shiftl_spec_low, andb_false_r by lia.
  - by rewrite (testbit_high a k i).
Qed.

(** ** Lemmas: bytes in memory *)

Lemma length_le_bytes n z : length (le_bytes n z) = n.
Proof. revert z; induction n; intros; simpl; auto. Qed.
Lemma Zlen_le_bytes n z : Zlen (le_bytes n z) = Z.of_nat n.
Proof. unfold Zlen. by rewrite length_le_bytes. Qed.
Lemma le_bytes_ok n z : bytes_ok (le_bytes n z).
Proof.
  revert z; induction n as [|n IH]; intros z; simpl; constructor; [|apply IH].
  unfold is_byte. dmlia.
Qed.
Lemma le_val_bytes n z : le_val (le_bytes n z) = z mod 2 ^ (8 * Z.of_nat n).
Proof.
  revert z; induction n as [|n IH]; intros z; [by rewrite Z.mod_1_r|].
  cbn [le_bytes le_val]. rewrite IH.
  replace (8 * Z.of_nat (S n)) with (8 + 8 * Z.of_nat n) by lia.
  rewrite Z.pow_add_r by lia. change (2 ^ 8) with 256.
  rewrite Z.rem_mul_r by lia. done.
Qed.
Lemma le_bytes_mod n w z : 8 * Z.of_nat n <= w -> le_bytes n (z mod 2 ^ w) = le_bytes n z.
Proof.
  revert w z. induction n as [|n IH]; intros w z Hw; [done|]. cbn [le_bytes].
  replace w with (8 + (w - 8)) by lia. rewrite Z.pow_add_r by lia. change (2 ^ 8) with 256.
  rewrite Z.rem_mul_r by lia. rewrite (Z.mul_comm 256), Z.mod_add, Z.mod_mod, Z.div_add by lia.
  rewrite (Z.div_small (z mod 256)) by dmlia. f_equal. apply IH. lia.
Qed.
Lemma le_bytes_val l : bytes_ok l -> le_bytes (length l) (le_val l) = l.
Proof.
  induction 1 as [|b l Hb Hl IH]; [done|]. cbn [length le_val le_bytes].
  unfold is_byte in Hb. f_equal.
  - rewrite (Z.mul_comm 256), Z.mod_add by lia. by apply Z.mod_small.
  - rewrite (Z.mul_comm 256), Z.div_add by lia. rewrite (Z.div_small b) by lia. done.
Qed.
Lemma le_val_range l : bytes_ok l -> 0 <= le_val l < 2 ^ (8 * Zlen l).
Proof.
  unfold Zlen. induction 1 as [|b l Hb Hl IH]; [done|].
  cbn [length le_val]. unfold is_byte in Hb.
  replace (8 * Z.of_nat (S (length l))) with (8 + 8 * Z.of_nat (length l)) by lia.
  rewrite Z.pow_add_r by lia. change (2 ^ 8) with 256. nia.
Qed.

(** ** Lemmas: lists indexed by [Z] *)

Lemma Zlen_nonneg {A} (l : list A) : 0 <= Zlen l.
Proof. unfold Zlen; lia. Qed.
Lemma Zlen_app {A} (l k : list A) : Zlen (l ++ k) = Zlen l + Zlen k.
Proof. unfold Zlen. rewrite length_app. lia. Qed.
Lemma Zlen_cons {A} (x : A) l : Zlen (x :: l) = 1 + Zlen l.
Proof. unfold Zlen. cbn [length]. lia. Qed.
Lemma Zlen_map {A B} (f : A -> B) l : Zlen (map f l) = Zlen l.
Proof. unfold Zlen. by rewrite length_map. Qed.
Lemma Zlen_nil {A} : Zlen (@nil A) = 0.
Proof. done. Qed.
Lemma Zlen_ztake {A} n (l : list A) : 0 <= n <= Zlen l -> Zlen (ztake n l) = n.
Proof. unfold Zlen, ztake. rewrite length_take. lia. Qed.
Lemma Zlen_zdrop {A} n (l : list A) : 0 <= n <= Zlen l -> Zlen (zdrop n l) = Zlen l - n.
Proof. unfold Zlen, zdrop. rewrite length_drop. lia. Qed.
Lemma Zlen_zero {A} (l : list A) : Zlen l = 0 <-> l = [].
Proof. unfold Zlen. destruct l; cbn [length]; split; intros; (done || lia). Qed.
Lemma ztake_zdrop {A} n (l : list A) : ztake n l ++ zdrop n l = l.
Proof. apply take_drop. Qed.
Lemma ztake_all {A} n (l : list A) : Zlen l <= n -> ztake n l = l.
Proof. unfold Zlen, ztake. intros. apply take_ge. lia. Qed.
Lemma zdrop_all {A} n (l : list A) : Zlen l <= n -> zdrop n l = [].
Proof. unfold Zlen, zdrop. intros. apply drop_ge. lia. Qed.
Lemma ztake_0 {A} (l : list A) : ztake 0 l = [].
Proof. done. Qed.
Lemma zdrop_0 {A} (l : list A) : zdrop 0 l = l.
Proof. done. Qed.
Lemma ztake_app_l {A} n (l k : list A) : n <= Zlen l -> ztake n (l ++ k) = ztake n l.
Proof. unfold Zlen, ztake. intros. apply take_app_le. lia. Qed.
Lemma ztake_app_r {A} n (l k : list A) :
  Zlen l <= n -> ztake n (l ++ k) = l ++ ztake (n - Zlen l) k.
Proof. unfold Zlen, ztake. intros. rewrite take_app_ge by lia. do 2 f_equal. lia. Qed.
Lemma zdrop_app_l {A} n (l k : list A) : n <= Zlen l -> zdrop n (l ++ k) = zdrop n l ++ k.
Proof. unfold Zlen, zdrop. intros. apply drop_app_le. lia. Qed.
Lemma zdrop_app_r {A} n (l k : list A) :
  Zlen l <= n -> zdrop n (l ++ k) = zdrop (n - Zlen l) k.
Proof. unfold Zlen, zdrop. intros. rewrite drop_app_ge by lia. f_equal. lia. Qed.
Lemma ztake_app_exact {A} (l k : list A) n : n = Zlen l -> ztake n (l ++ k) = l.
Proof. intros ->. rewrite ztake_app_l by lia. apply ztake_all. lia. Qed.
Lemma zdrop_app_exact {A} (l k : list A) n : n = Zlen l -> zdrop n (l ++ k) = k.
Proof. intros ->. rewrite zdrop_app_l by lia. by rewrite zdrop_all by lia. Qed.
Lemma zdrop_zdrop {A} n m (l : list A) :
  0 <= n -> 0 <= m -> zdrop n (zdrop m l) = zdrop (m + n) l.
Proof. intros. unfold zdrop. rewrite drop_drop. f_equal. lia. Qed.
Lemma ztake_ztake {A} n m (l : list A) : n <= m -> ztake n (ztake m l) = ztake n l.
Proof. intros. unfold ztake. rewrite take_take. f_equal. lia. Qed.
Lemma zdrop_ztake {A} n m (l : list A) :
  0 <= n <= m -> zdrop n (ztake m l) = ztake (m - n) (zdrop n l).
Proof. intros. unfold zdrop, ztake. rewrite skipn_firstn_comm. f_equal. lia. Qed.
Lemma bytes_ok_app l k : bytes_ok (l ++ k) <-> bytes_ok l /\ bytes_ok k.
Proof. apply Forall_app. Qed.
Lemma bytes_ok_ztake n l : bytes_ok l -> bytes_ok (ztake n l).
Proof. apply Forall_take. Qed.
Lemma bytes_ok_zdrop n l : bytes_ok l -> bytes_ok (zdrop n l).
Proof. apply Forall_drop. Qed.

(** A property of each element of a literal list. *)
Ltac forall_done := repeat (apply Forall_cons; split; [done|]); apply Forall_nil.

(** Computes the lengths of appended, consed and empty lists everywhere. *)
Ltac zlen :=
  repeat progress (rewrite ?Zlen_app, ?Zlen_cons in *);
  repeat match goal with
  | |- context [Zlen (@nil ?A)] => change (Zlen (@nil A)) with 0
  | H : context [Zlen (@nil ?A)] |- _ => change (Zlen (@nil A)) with 0 in H
  end.

Lemma forallb_Forall {A} (f : A -> bool) l : forallb f l = true -> Forall (fun x => f x = true) l.
Proof.
  induction l as [|x l IH]; [by intros _; apply Forall_nil|]. cbn [forallb]. rewrite andb_true_iff.
  intros [Hx Hl]. apply Forall_cons. auto.
Qed.

Create HintDb fan.
Create Rewrite HintDb fan.
#[export] Hint Resolve le_bytes_ok bytes_ok_ztake bytes_ok_zdrop : fan.
#[export] Hint Resolve u8_range u16_range u32_range u64_range Zlen_nonneg : fan.
#[export] Hint Rewrite @Zlen_app @Zlen_cons @Zlen_nil Zlen_le_bytes : fan.

(** ** Lemmas: C strings, network byte order, decimal digits *)

Lemma cstr_id w : Forall (fun c => c <> 0) w -> cstr w = w.
Proof. induction 1 as [|c w Hc _ IH]; [done|]. cbn. destruct (Z.eqb_spec c 0); [done|]. by rewrite IH. Qed.
Lemma cstr_no_nul s : 0 ∉ cstr s.
Proof.
  induction s as [|c s IH]; cbn [cstr]; [by apply not_elem_of_nil|]. destruct (Z.eqb_spec c 0); [by apply not_elem_of_nil|].
  apply not_elem_of_cons. by split.
Qed.
Lemma cstr_app_nul l r : 0 ∉ l -> cstr (l ++ 0 :: r) = l.
Proof.
  induction l as [|c l IH]; intros Hl; [done|]. apply not_elem_of_cons in Hl as [Hc Hl]. cbn [cstr app].
  destruct (Z.eqb_spec c 0); [congruence|]. by rewrite IH.
Qed.
Lemma Zlen_be_bytes n z : Zlen (be_bytes n z) = Z.of_nat n.
Proof. unfold be_bytes, Zlen. by rewrite length_rev, length_le_bytes. Qed.
Lemma be_val_bytes n z : be_val (be_bytes n z) = z mod 2 ^ (8 * Z.of_nat n).
Proof. unfold be_val, be_bytes. rewrite rev_involutive. apply le_val_bytes. Qed.

Lemma dec_digits_short fuel n k : 0 < k -> 0 <= n < 10 ^ k -> Zlen (dec_digits fuel n) <= k.
Proof.
  revert n k. induction fuel as [|fuel IH]; intros n k Hk Hn; [cbn; zlen; lia|]. cbn [dec_digits].
  destruct (Z.ltb_spec n 10); [zlen; lia|]. zlen.
  destruct (Z.eq_dec k 1) as [->|]; [lia|].
  replace k with (1 + (k - 1)) in Hn by lia. rewrite Z.pow_add_r in Hn by lia.
  specialize (IH (n / 10) (k - 1) ltac:(lia) ltac:(dmlia)). lia.
Qed.

Lemma dec_digits_range fuel n : 0 <= n -> Forall (fun c => 48 <= c <= 57) (dec_digits fuel n).
Proof.
  revert n. induction fuel as [|fuel IH]; intros n Hn; [by apply Forall_nil|]. cbn [dec_digits].
  destruct (Z.ltb_spec n 10); [by repeat constructor; lia|]. apply Forall_app. split; [apply IH; dmlia|].
  repeat constructor; dmlia.
Qed.
Lemma dec_of_Z_no_nul n : 0 <= n -> Forall (fun c => c <> 0) (dec_of_Z n).
Proof.
  intros Hn. unfold dec_of_Z. replace (n <? 0) with false by lia. eapply Forall_impl; [by apply dec_digits_range|]. cbn. lia.
Qed.

(** ** Lemmas: memory *)

Lemma mem_load_in b off n :
  0 <= off -> 0 <= n -> off + n <= Zlen b ->
  mem_load (Some b) off n = Ret (ztake n (zdrop off b)).
Proof.
  intros. unfold mem_load. case_match; [by replace n with 0 by lia|].
  replace ((0 <=? off) && (0 <=? n) && (off + n <=? Zlen b)) with true; [done|lia].
Qed.

Lemma mem_store_in b off data :
  0 <= off -> off + Zlen data <= Zlen b ->
  mem_store (Some b) off data =
  Ret (Some (ztake off b ++ data ++ zdrop (off + Zlen data) b)).
Proof.
  intros. unfold mem_store. destruct (Z.eqb_spec (Zlen data) 0) as [E|_].
  - apply Zlen_zero in E as ->. rewrite Zlen_nil, Z.add_0_r.
    simpl. by rewrite ztake_zdrop.
  - replace ((0 <=? off) && (off + Zlen data <=? Zlen b)) with true; [done|lia].
Qed.

(** The elements of a list without repetitions are apart. *)
Ltac apart Hn := repeat (apply NoDup_cons in Hn as [?Hnot Hn]); repeat match goal with H : _ ∉ _ :: _ |- _ => apply not_elem_of_cons in H as [? H] end.

(** Case analysis on a boolean test of the goal, recording it as arithmetic. *)
Ltac case_bool :=
  match goal with
  | |- context [if ?b then _ else _] => destruct b eqn:?
  | |- context [match (if ?b then _ else _) with _ => _ end] => destruct b eqn:?
  end.
