(* ===== verification/ByteArray.v ===== *)
(** * src/bytearray.c: the growable byte buffer under every codec

    A [BYTEARRAY] is in writing mode ([reading = false]: [offset] is the end of
    the data, [total] the capacity) or in reading mode ([offset] is the read
    position, [total] the end of the data).  [ba] is the object the C pointer
    designates; the [ba == NULL] guards of the source are about the pointer and
    have no counterpart here.  Memory accesses go through [mem_load] and
    [mem_store], so an access outside the block is the outcome [UB]. *)

From S2P Require Import Prelude.

Record BYTEARRAY : Type := mk_ba {
  ba_offset : Z;
  ba_total : Z;
  ba_mark : Z;
  ba_buffer : option (list Z);
  ba_buflen : Z;
  ba_reading : bool;
  ba_wrapbuffer : bool
}.

(** Field assignments. *)
Definition set_offset (o : Z) (ba : BYTEARRAY) : BYTEARRAY :=
  mk_ba o (ba_total ba) (ba_mark ba) (ba_buffer ba) (ba_buflen ba) (ba_reading ba) (ba_wrapbuffer ba).
Definition set_buffer (b : option (list Z)) (ba : BYTEARRAY) : BYTEARRAY :=
  mk_ba (ba_offset ba) (ba_total ba) (ba_mark ba) b (ba_buflen ba) (ba_reading ba) (ba_wrapbuffer ba).

Definition MIN_CAPACITY : Z := 128.
Definition MAX_PREALLOC : Z := 4096.
Definition CACHE_LINE_SIZE : Z := 64.

Definition next_power_of_2 (n : Z) : Z :=
  if n <=? MIN_CAPACITY then MIN_CAPACITY else
  let n := u64 (n - 1) in
  let n := Z.lor n (Z.shiftr n 1) in
  let n := Z.lor n (Z.shiftr n 2) in
  let n := Z.lor n (Z.shiftr n 4) in
  let n := Z.lor n (Z.shiftr n 8) in
  let n := Z.lor n (Z.shiftr n 16) in
  let n := Z.lor n (Z.shiftr n 32) in
  u64 (n + 1).

(** The size [ensure_capacity_optimized] asks [realloc] for. *)
Definition growth_size (needed : Z) : Z :=
  if needed <=? MAX_PREALLOC then next_power_of_2 needed
  else
    let new_size := u64 (needed + Z.shiftr needed 2) in
    Z.land (u64 (new_size + CACHE_LINE_SIZE - 1)) (u64 (- CACHE_LINE_SIZE)).

Section Ops.
Context `{Allocator}.

Definition ensure_capacity_optimized (ba : BYTEARRAY) (required_size : Z) : bool * BYTEARRAY :=
  let available := u64 (ba_total ba - ba_offset ba) in
  if required_size <=? available then (true, ba)
  else if ba_wrapbuffer ba then (false, ba)
  else
    let needed := u64 (ba_offset ba + required_size) in
    let new_size := growth_size needed in
    match realloc (ba_buffer ba) new_size with
    | None => (false, ba)
    | Some new_buffer =>
        (true, mk_ba (ba_offset ba) new_size (ba_mark ba) (Some new_buffer) new_size
                 (ba_reading ba) (ba_wrapbuffer ba))
    end.

(** [memcpy(ba->buffer + ba->offset, value, size); ba->offset += size;] *)
Definition put_bytes (ba : BYTEARRAY) (value : list Z) : outcome BYTEARRAY :=
  buf ← mem_store (ba_buffer ba) (ba_offset ba) value;
  mret (set_offset (u64 (ba_offset ba + Zlen value)) (set_buffer buf ba)).

Definition write_value_optimized (ba : BYTEARRAY) (value : list Z) : outcome (bool * BYTEARRAY) :=
  let size := Zlen value in
  if size <=? u64 (ba_total ba - ba_offset ba) then
    ba' ← put_bytes ba value; mret (true, ba')
  else
    let '(ok, ba) := ensure_capacity_optimized ba size in
    if negb ok then mret (false, ba)
    else ba' ← put_bytes ba value; mret (true, ba').

(** The value read, or [None] when the function returns false. *)
Definition read_value_optimized (ba : BYTEARRAY) (size : Z) : outcome (option (list Z) * BYTEARRAY) :=
  if size <=? u64 (ba_total ba - ba_offset ba) then
    value ← mem_load (ba_buffer ba) (ba_offset ba) size;
    mret (Some value, set_offset (u64 (ba_offset ba + size)) ba)
  else mret (None, ba).

Definition bytearray_write8 (ba : BYTEARRAY) (value : Z) : outcome (bool * BYTEARRAY) :=
  if ba_offset ba <? ba_total ba then
    ba' ← put_bytes ba [u8 value]; mret (true, ba')
  else write_value_optimized ba [u8 value].

Definition bytearray_write16 (ba : BYTEARRAY) (value : Z) : outcome (bool * BYTEARRAY) :=
  write_value_optimized ba (le_bytes 2 value).
Definition bytearray_write32 (ba : BYTEARRAY) (value : Z) : outcome (bool * BYTEARRAY) :=
  write_value_optimized ba (le_bytes 4 value).
Definition bytearray_write64 (ba : BYTEARRAY) (value : Z) : outcome (bool * BYTEARRAY) :=
  write_value_optimized ba (le_bytes 8 value).
(** A [double] is the 64-bit pattern that [memcpy] moves. *)
Definition bytearray_write64d (ba : BYTEARRAY) (value : Z) : outcome (bool * BYTEARRAY) :=
  write_value_optimized ba (le_bytes 8 value).
Definition bytearray_writebuffer (ba : BYTEARRAY) (buff : list Z) : outcome (bool * BYTEARRAY) :=
  write_value_optimized ba buff.

Definition bytearray_alloc (ba : BYTEARRAY) (length : Z) : bool * BYTEARRAY :=
  let length := u32 length in
  let length := if length =? 0 then MIN_CAPACITY else length in
  match malloc length with
  | None => (false, set_buffer None ba)
  | Some b => (true, mk_ba 0 length 0 (Some b) length false false)
  end.

End Ops.

(** The operations that allocate nothing. *)

Definition read_number (size : Z) (ba : BYTEARRAY) : outcome (option Z * BYTEARRAY) :=
  '(v, ba) ← read_value_optimized ba size; mret (fmap (M:=option) le_val v, ba).

Definition bytearray_read8 (ba : BYTEARRAY) : outcome (option Z * BYTEARRAY) :=
  if ba_offset ba <? ba_total ba then
    value ← mem_load (ba_buffer ba) (ba_offset ba) 1;
    mret (Some (le_val value), set_offset (u64 (ba_offset ba + 1)) ba)
  else mret (None, ba).
Definition bytearray_read16 (ba : BYTEARRAY) : outcome (option Z * BYTEARRAY) := read_number 2 ba.
Definition bytearray_read32 (ba : BYTEARRAY) : outcome (option Z * BYTEARRAY) := read_number 4 ba.
Definition bytearray_read64 (ba : BYTEARRAY) : outcome (option Z * BYTEARRAY) := read_number 8 ba.
Definition bytearray_read64d (ba : BYTEARRAY) : outcome (option Z * BYTEARRAY) := read_number 8 ba.

(** [buff = NULL] (here [copy = false]) only moves the offset. *)
Definition bytearray_readbuffer (ba : BYTEARRAY) (copy : bool) (length : Z)
  : outcome (option (list Z) * BYTEARRAY) :=
  let length := u32 length in
  if length <=? u64 (ba_total ba - ba_offset ba) then
    data ← (if copy then mem_load (ba_buffer ba) (ba_offset ba) length else Ret []);
    mret (Some data, set_offset (u64 (ba_offset ba + length)) ba)
  else mret (None, ba).

Definition bytearray_dealloc (ba : BYTEARRAY) : bool * BYTEARRAY :=
  let buf := if negb (ba_wrapbuffer ba) then None else ba_buffer ba in
  (true, mk_ba 0 0 (ba_mark ba) buf 0 (ba_reading ba) (ba_wrapbuffer ba)).

Definition bytearray_wrap_buffer (ba : BYTEARRAY) (buff : option (list Z)) (length : Z)
  : bool * BYTEARRAY :=
  let length := u32 length in
  (true, mk_ba 0 length (ba_mark ba) buff length true true).

Definition is_null (buf : option (list Z)) : bool :=
  match buf with None => true | Some _ => false end.

Definition bytearray_read_ready (ba : BYTEARRAY) : bool * BYTEARRAY :=
  if is_null (ba_buffer ba) || ba_reading ba then (false, ba)
  else (true, mk_ba 0 (ba_offset ba) (ba_mark ba) (ba_buffer ba) (ba_buflen ba) true (ba_wrapbuffer ba)).

Definition bytearray_read_available (ba : BYTEARRAY) : Z :=
  if is_null (ba_buffer ba) || negb (ba_reading ba) then 0
  else u64 (ba_total ba - ba_offset ba).

Definition bytearray_mark (ba : BYTEARRAY) : bool * BYTEARRAY :=
  if is_null (ba_buffer ba) || negb (ba_reading ba) then (false, ba)
  else (true, mk_ba (ba_offset ba) (ba_total ba) (ba_offset ba) (ba_buffer ba) (ba_buflen ba)
                (ba_reading ba) (ba_wrapbuffer ba)).

Definition bytearray_reset (ba : BYTEARRAY) : bool * BYTEARRAY :=
  if is_null (ba_buffer ba) || negb (ba_reading ba) then (false, ba)
  else (true, set_offset (ba_mark ba) ba).

Definition bytearray_empty (ba : BYTEARRAY) : bool * BYTEARRAY :=
  (true, mk_ba 0 0 (ba_mark ba) (ba_buffer ba) (ba_buflen ba) (ba_reading ba) (ba_wrapbuffer ba)).

Definition bytearray_write_ready (ba : BYTEARRAY) : outcome (bool * BYTEARRAY) :=
  if negb (ba_reading ba) || is_null (ba_buffer ba) then mret (false, ba)
  else
    ba' ← (if 0 <? ba_offset ba then
             let unreadleft := u64 (ba_total ba - ba_offset ba) in
             moved ← mem_load (ba_buffer ba) (ba_offset ba) unreadleft;
             buf ← mem_store (ba_buffer ba) 0 moved;
             mret (set_offset unreadleft (set_buffer buf ba))
           else mret (set_offset (ba_total ba) ba));
    mret (true, mk_ba (ba_offset ba') (ba_buflen ba') 0 (ba_buffer ba') (ba_buflen ba') false
                  (ba_wrapbuffer ba')).

(** ** Well-formedness *)

Record wf (ba : BYTEARRAY) : Prop := {
  wf_offset : 0 <= ba_offset ba <= ba_total ba;
  wf_total : ba_total ba <= ba_buflen ba;
  wf_buflen : ba_buflen ba < 2 ^ 63;
  wf_mark : if ba_reading ba then 0 <= ba_mark ba <= ba_total ba else ba_mark ba = 0;
  wf_buffer : exists b, ba_buffer ba = Some b /\ ba_buflen ba <= Zlen b /\ bytes_ok b
}.

(** ** The abstract byte queue a [BYTEARRAY] implements *)

(** [q_done] is what was written (writing mode) or already consumed (reading
    mode), [q_todo] what is still to be read. *)
Record queue : Type := mk_queue {
  q_reading : bool;
  q_done : list Z;
  q_todo : list Z;
  q_mark : Z
}.

Definition contents (ba : BYTEARRAY) : list Z := default [] (ba_buffer ba).

Definition abs (ba : BYTEARRAY) : queue := {|
  q_reading := ba_reading ba;
  q_done := ztake (ba_offset ba) (contents ba);
  q_todo := if ba_reading ba then ztake (ba_total ba - ba_offset ba) (zdrop (ba_offset ba) (contents ba))
            else [];
  q_mark := ba_mark ba
|}.

Inductive op : Type :=
  | OWrite (data : list Z)
  | OWrite8 (v : Z)
  | ORead (n : Z)
  | ORead8
  | OReadbuffer (copy : bool) (n : Z)
  | OReadReady
  | OWriteReady
  | OMark
  | OReset
  | OEmpty
  | OAvailable.

Inductive obs : Type :=
  | Bool (b : bool)
  | Bytes (r : option (list Z))
  | Size (n : Z).

Section Exec.
Context `{Allocator}.

Definition exec (o : op) (ba : BYTEARRAY) : outcome (obs * BYTEARRAY) :=
  match o with
  | OWrite d => '(b, ba) ← write_value_optimized ba d; mret (Bool b, ba)
  | OWrite8 v => '(b, ba) ← bytearray_write8 ba v; mret (Bool b, ba)
  | ORead n => '(r, ba) ← read_value_optimized ba n; mret (Bytes r, ba)
  | ORead8 => '(r, ba) ← bytearray_read8 ba; mret (Bytes (fmap (M:=option) (fun v => [v]) r), ba)
  | OReadbuffer c n => '(r, ba) ← bytearray_readbuffer ba c n; mret (Bytes r, ba)
  | OReadReady => let '(b, ba) := bytearray_read_ready ba in mret (Bool b, ba)
  | OWriteReady => '(b, ba) ← bytearray_write_ready ba; mret (Bool b, ba)
  | OMark => let '(b, ba) := bytearray_mark ba in mret (Bool b, ba)
  | OReset => let '(b, ba) := bytearray_reset ba in mret (Bool b, ba)
  | OEmpty => let '(b, ba) := bytearray_empty ba in mret (Bool b, ba)
  | OAvailable => mret (Size (bytearray_read_available ba), ba)
  end.
End Exec.

(** The protocol a client keeps: write in writing mode, read in reading mode,
    and empty a buffer only when no mark is set.  Outside of it the code does
    what [empty_keeps_mark] and [read_while_writing] show. *)
Definition allowed (q : queue) (o : op) : Prop :=
  match o with
  | OWrite d => q_reading q = false /\ bytes_ok d /\ Zlen (q_done q) + Zlen d < 2 ^ 63
  | OWrite8 _ => q_reading q = false /\ Zlen (q_done q) + 1 < 2 ^ 63
  | ORead n | OReadbuffer _ n => q_reading q = true /\ 0 <= n < 2 ^ 32
  | ORead8 => q_reading q = true
  | OEmpty => q_mark q = 0
  | _ => True
  end.

(** What each operation does to the queue.  Writing may fail for lack of
    memory, leaving the queue as it was. *)
Inductive spec_step : queue -> op -> obs -> queue -> Prop :=
  | spec_write d l m :
      spec_step (mk_queue false l [] m) (OWrite d) (Bool true) (mk_queue false (l ++ d) [] m)
  | spec_write_fail d q : spec_step q (OWrite d) (Bool false) q
  | spec_write8 v l m :
      spec_step (mk_queue false l [] m) (OWrite8 v) (Bool true) (mk_queue false (l ++ [u8 v]) [] m)
  | spec_write8_fail v q : spec_step q (OWrite8 v) (Bool false) q
  | spec_read l d t m n :
      Zlen d = n ->
      spec_step (mk_queue true l (d ++ t) m) (ORead n) (Bytes (Some d)) (mk_queue true (l ++ d) t m)
  | spec_read_short l t m n :
      Zlen t < n -> spec_step (mk_queue true l t m) (ORead n) (Bytes None) (mk_queue true l t m)
  | spec_read8 l x t m :
      spec_step (mk_queue true l (x :: t) m) ORead8 (Bytes (Some [x])) (mk_queue true (l ++ [x]) t m)
  | spec_read8_short l m :
      spec_step (mk_queue true l [] m) ORead8 (Bytes None) (mk_queue true l [] m)
  | spec_readbuffer (copy : bool) l d t m n :
      Zlen d = n ->
      spec_step (mk_queue true l (d ++ t) m) (OReadbuffer copy n)
        (Bytes (Some (if copy then d else []))) (mk_queue true (l ++ d) t m)
  | spec_readbuffer_short copy l t m n :
      Zlen t < n -> spec_step (mk_queue true l t m) (OReadbuffer copy n) (Bytes None) (mk_queue true l t m)
  | spec_read_ready l m :
      spec_step (mk_queue false l [] m) OReadReady (Bool true) (mk_queue true [] l m)
  | spec_read_ready_no l t m :
      spec_step (mk_queue true l t m) OReadReady (Bool false) (mk_queue true l t m)
  | spec_write_ready l t m :
      spec_step (mk_queue true l t m) OWriteReady (Bool true) (mk_queue false t [] 0)
  | spec_write_ready_no l t m :
      spec_step (mk_queue false l t m) OWriteReady (Bool false) (mk_queue false l t m)
  | spec_mark l t m n :
      Zlen l = n ->
      spec_step (mk_queue true l t m) OMark (Bool true) (mk_queue true l t n)
  | spec_mark_no l t m :
      spec_step (mk_queue false l t m) OMark (Bool false) (mk_queue false l t m)
  | spec_reset l t m :
      spec_step (mk_queue true l t m) OReset (Bool true)
        (mk_queue true (ztake m (l ++ t)) (zdrop m (l ++ t)) m)
  | spec_reset_no l t m :
      spec_step (mk_queue false l t m) OReset (Bool false) (mk_queue false l t m)
  | spec_empty l t m r : spec_step (mk_queue r l t m) OEmpty (Bool true) (mk_queue r [] [] m)
  | spec_available l t m n :
      Zlen t = n ->
      spec_step (mk_queue true l t m) OAvailable (Size n) (mk_queue true l t m)
  | spec_available_no l t m :
      spec_step (mk_queue false l t m) OAvailable (Size 0) (mk_queue false l t m).

(** ** Growth *)

(** Smearing: after the shifts, bit [i] is set iff one of the [w] bits from [i]
    up was. *)
Definition smeared (n0 n : Z) (w : Z) : Prop :=
  forall i, 0 <= i -> Z.testbit n i = true <-> exists j, 0 <= j < w /\ Z.testbit n0 (i + j) = true.

Lemma smear_step n0 n w w' :
  0 < w -> w' = 2 * w -> smeared n0 n w -> smeared n0 (Z.lor n (Z.shiftr n w)) w'.
Proof.
  intros Hw -> Hs i Hi. rewrite Z.lor_spec, Z.shiftr_spec by lia.
  rewrite orb_true_iff, (Hs i Hi), (Hs (i + w)) by lia. split.
  - intros [(j & ? & ?)|(j & ? & Hj)]; [exists j; split; [lia|done]|].
    exists (w + j). split; [lia|]. by replace (i + (w + j)) with (i + w + j) by lia.
  - intros (j & ? & Hj). destruct (Z.lt_ge_cases j w); [left; exists j; split; [lia|done]|right].
    exists (j - w). split; [lia|]. by replace (i + w + (j - w)) with (i + j) by lia.
Qed.

Lemma smeared_ones n0 n k :
  smeared n0 n 64 -> 0 <= n -> 0 < n0 -> Z.log2 n0 = k -> k < 64 -> n = Z.ones (k + 1).
Proof.
  intros Hs Hn Hn0 Hk Hk64. pose proof (Z.log2_nonneg n0). apply Z.bits_inj'. intros i Hi.
  destruct (Z.lt_ge_cases i (k + 1)) as [Hlt|Hge].
  - rewrite Z.ones_spec_low by lia. apply Hs; [done|].
    exists (k - i). split; [lia|]. replace (i + (k - i)) with k by lia.
    subst k. by apply Z.bit_log2.
  - rewrite Z.ones_spec_high by lia. apply not_true_is_false. intros Ht.
    apply Hs in Ht as (j & ? & Hj); [|done].
    rewrite Z.bits_above_log2 in Hj by lia. done.
Qed.

Lemma next_power_of_2_spec n :
  128 < n <= 2 ^ 63 ->
  next_power_of_2 n = 2 ^ (Z.log2 (n - 1) + 1).
Proof.
  intros Hn. unfold next_power_of_2, MIN_CAPACITY.
  destruct (Z.leb_spec n 128); [lia|]. cbv zeta. rewrite (u64_small (n - 1)) by lia.
  set (n0 := n - 1). set (k := Z.log2 n0).
  assert (Hk : k < 63).
  { unfold k. apply Z.log2_lt_pow2; unfold n0; lia. }
  assert (H0 : smeared n0 n0 1).
  { intros i Hi. split; [exists 0; rewrite Z.add_0_r; split; [lia|done]|].
    intros (j & ? & Hj). by replace j with 0 in Hj by lia; rewrite Z.add_0_r in Hj. }
  apply (smear_step _ _ _ 2) in H0; [|lia..]. apply (smear_step _ _ _ 4) in H0; [|lia..].
  apply (smear_step _ _ _ 8) in H0; [|lia..]. apply (smear_step _ _ _ 16) in H0; [|lia..].
  apply (smear_step _ _ _ 32) in H0; [|lia..]. apply (smear_step _ _ _ 64) in H0; [|lia..].
  apply (smeared_ones _ _ k) in H0 as ->.
  - rewrite Z.ones_equiv. replace (Z.pred (2 ^ (k + 1)) + 1) with (2 ^ (k + 1)) by lia.
    apply u64_small. pose proof (Z.log2_nonneg n0).
    split; [apply Z.pow_nonneg; lia|]. apply Z.pow_lt_mono_r; lia.
  - repeat (apply Z.lor_nonneg; split; [|apply Z.shiftr_nonneg]); unfold n0; lia.
  - unfold n0; lia.
  - done.
  - lia.
Qed.

(** The allocation size is at least what is needed, and at most a quarter more
    plus one cache line. *)
(** Rounding down to a cache line: [x & ~63]. *)
Lemma land_align x :
  0 <= x < 2 ^ 64 -> Z.land x (u64 (- CACHE_LINE_SIZE)) = 64 * (x / 64).
Proof.
  intros Hx. change (u64 (- CACHE_LINE_SIZE)) with (Z.ldiff (Z.ones 64) (Z.ones 6)).
  by rewrite land_high by lia.
Qed.

Lemma growth_size_spec needed :
  0 < needed < 2 ^ 63 -> needed <= growth_size needed < 2 ^ 64.
Proof.
  intros Hn. unfold growth_size, MAX_PREALLOC. destruct (Z.leb_spec needed 4096) as [Hle|Hgt].
  - destruct (Z.le_gt_cases needed 128).
    { unfold next_power_of_2, MIN_CAPACITY. case_bool; lia. }
    rewrite next_power_of_2_spec by lia.
    pose proof (Z.log2_spec (needed - 1) ltac:(lia)) as [_ Hlt].
    rewrite <- Z.add_1_r in Hlt. split; [lia|].
    apply Z.pow_lt_mono_r; [lia|lia|].
    assert (Z.log2 (needed - 1) < 12); [|lia].
    apply Z.log2_lt_pow2; lia.
  - rewrite land_align by apply u64_range. rewrite Z.shiftr_div_pow2 by lia. change (2 ^ 2) with 4.
    unfold CACHE_LINE_SIZE. rewrite !u64_small by (rewrite ?u64_small by dmlia; dmlia). dmlia.
Qed.

(** ** The operations implement the queue *)

Section Refinement.
Context `{Allocator}.

Lemma realloc_spec old n b m :
  bytes_ok old -> 0 <= m <= n -> m <= Zlen old -> realloc (Some old) n = Some b ->
  Zlen b = n /\ bytes_ok b /\ ztake m b = ztake m old /\ n < 2 ^ 63.
Proof.
  unfold realloc. intros Hok Hm Hle Hr. destruct (malloc n) as [fresh|] eqn:Em; [|done].
  injection Hr as <-. simpl.
  assert (Hl : Zlen fresh = n) by (apply malloc_len; [lia|done]).
  pose proof (malloc_bytes _ _ Em) as Hb. pose proof (Zlen_nonneg old). repeat split.
  - rewrite Zlen_app. destruct (Z.le_ge_cases (Zlen old) n).
    + rewrite ztake_all, Zlen_zdrop by lia. lia.
    + rewrite Zlen_ztake, zdrop_all, Zlen_nil by lia. lia.
  - apply bytes_ok_app. auto with fan.
  - destruct (Z.le_ge_cases (Zlen old) n).
    + rewrite (ztake_all n old) by lia. by rewrite ztake_app_l by lia.
    + rewrite ztake_app_l by (rewrite Zlen_ztake; lia). apply ztake_ztake. lia.
  - by eapply malloc_max.
Qed.

(** Storing [v] at the offset of a block that has room for it. *)
Definition stored (ba : BYTEARRAY) (b v : list Z) : BYTEARRAY :=
  set_offset (ba_offset ba + Zlen v)
    (set_buffer (Some (ztake (ba_offset ba) b ++ v ++ zdrop (ba_offset ba + Zlen v) b)) ba).

Lemma put_bytes_spec ba b v :
  ba_buffer ba = Some b -> 0 <= ba_offset ba -> ba_offset ba + Zlen v <= Zlen b ->
  ba_offset ba + Zlen v < 2 ^ 63 -> put_bytes ba v = Ret (stored ba b v).
Proof.
  intros Hb H0 Hle Hmax. unfold put_bytes. rewrite Hb, mem_store_in by done. simpl.
  pose proof (Zlen_nonneg v). rewrite u64_small by lia. done.
Qed.

Lemma available_wf ba : wf ba -> u64 (ba_total ba - ba_offset ba) = ba_total ba - ba_offset ba.
Proof. intros [? ? ? _ _]. apply u64_small. lia. Qed.

Lemma stored_wf ba b v :
  wf ba -> ba_reading ba = false -> ba_buffer ba = Some b -> bytes_ok v ->
  ba_offset ba + Zlen v <= ba_total ba ->
  wf (stored ba b v) /\ abs (stored ba b v) = mk_queue false (q_done (abs ba) ++ v) [] (ba_mark ba).
Proof.
  intros [Ho Ht Hbl Hm (b' & Hb' & Hlen & Hbok)] Hr Hb Hv Hfit.
  rewrite Hb in Hb'. injection Hb' as <-. rewrite Hr in Hm. pose proof (Zlen_nonneg v). split.
  - constructor; cbn; try lia; [by rewrite Hr|].
    eexists; split; [reflexivity|]. rewrite !Zlen_app, Zlen_ztake, Zlen_zdrop by lia.
    split; [lia|]. rewrite !bytes_ok_app. auto with fan.
  - unfold abs, contents. cbn. rewrite Hr, Hb. cbn. f_equal.
    rewrite app_assoc, ztake_app_exact; [done|]. rewrite Zlen_app, Zlen_ztake by lia. lia.
Qed.

(** Why a write of [v] may fail. *)
Definition no_room (ba : BYTEARRAY) (v : list Z) : Prop :=
  ba_wrapbuffer ba = true \/ malloc (growth_size (ba_offset ba + Zlen v)) = None.

(** The only excuse a write has for answering false. *)
Definition excuse (ba : BYTEARRAY) (o : op) : Prop :=
  match o with
  | OWrite d => no_room ba d
  | OWrite8 v => no_room ba [u8 v]
  | _ => True
  end.

(** Growing the block keeps the data and leaves room. *)
Lemma ensure_capacity_spec ba (v : list Z) :
  wf ba -> ba_reading ba = false -> ba_offset ba + Zlen v < 2 ^ 63 ->
  ba_total ba < ba_offset ba + Zlen v ->
  exists ok ba', ensure_capacity_optimized ba (Zlen v) = (ok, ba') /\
    if (ok : bool) then
      wf ba' /\ ba_reading ba' = false /\ ba_offset ba' + Zlen v <= ba_total ba' /\
      abs ba' = abs ba /\ ba_offset ba' = ba_offset ba /\ ba_mark ba' = ba_mark ba /\
      ba_wrapbuffer ba' = ba_wrapbuffer ba
    else ba' = ba /\ no_room ba v.
Proof.
  intros Hwf Hr Hfit Hfull. pose proof Hwf as [Ho Ht Hbl Hm (b & Hb & Hlen & Hbok)].
  rewrite Hr in Hm. pose proof (Zlen_nonneg v).
  unfold ensure_capacity_optimized. rewrite available_wf by done.
  destruct (Z.leb_spec (Zlen v) (ba_total ba - ba_offset ba)); [lia|].
  destruct (ba_wrapbuffer ba) eqn:Hwb.
  { eexists false, ba. split; [done|]. split; [done|]. by left. }
  rewrite (u64_small (ba_offset ba + Zlen v)) by lia.
  destruct (growth_size_spec (ba_offset ba + Zlen v)) as [Hg _]; [lia|].
  set (n := growth_size (ba_offset ba + Zlen v)) in *.
  destruct (realloc (ba_buffer ba) n) as [nb|] eqn:Er.
  2: { eexists false, ba. split; [done|]. split; [done|]. right. rewrite Hb in Er.
       unfold realloc in Er. destruct (malloc n) eqn:E; [done|exact E]. }
  rewrite Hb in Er. apply (realloc_spec _ _ _ (ba_offset ba)) in Er as (Hl & Hok & Htk & Hmax); [|done|lia|lia].
  eexists true, _. split; [reflexivity|]. repeat split; cbn; try done; try lia.
  - by rewrite Hr.
  - eexists; split; [reflexivity|]. split; [lia|done].
  - unfold abs, contents. cbn. rewrite Hb, Hr. cbn. by rewrite Htk.
Qed.

Lemma write_value_refines ba v :
  wf ba -> ba_reading ba = false -> bytes_ok v -> ba_offset ba + Zlen v < 2 ^ 63 ->
  exists ok ba', write_value_optimized ba v = Ret (ok, ba') /\ wf ba' /\
    ba_wrapbuffer ba' = ba_wrapbuffer ba /\
    (if (ok : bool) then abs ba' = mk_queue false (q_done (abs ba) ++ v) [] (ba_mark ba)
     else ba' = ba /\ no_room ba v).
Proof.
  intros Hwf Hr Hv Hfit. pose proof Hwf as [Ho Ht Hbl Hm (b & Hb & Hlen & Hbok)].
  unfold write_value_optimized. rewrite available_wf by done.
  destruct (Z.leb_spec (Zlen v) (ba_total ba - ba_offset ba)) as [Hroom|Hfull].
  { rewrite (put_bytes_spec _ b) by (done || lia). simpl.
    destruct (stored_wf ba b v) as [Hw Ha]; [done || lia..|]. by eexists true, _. }
  destruct (ensure_capacity_spec ba v) as (ok & ba1 & -> & H1); [done|done|lia|lia|].
  destruct ok; cbn; [|destruct H1 as [-> ?]; by exists false, ba].
  destruct H1 as (Hwf1 & Hr1 & Hfit1 & Habs & Hoff & Hmark & Hwb).
  pose proof Hwf1 as [Ho1 Ht1 Hbl1 _ (b1 & Hb1 & Hlen1 & _)].
  rewrite (put_bytes_spec _ b1) by (done || lia).
  destruct (stored_wf ba1 b1 v) as [Hw Ha]; [done || lia..|]. rewrite Habs, Hmark in Ha.
  by eexists true, _.
Qed.

Lemma write8_refines ba v :
  wf ba -> ba_reading ba = false -> ba_offset ba + 1 < 2 ^ 63 ->
  exists ok ba', bytearray_write8 ba v = Ret (ok, ba') /\ wf ba' /\
    ba_wrapbuffer ba' = ba_wrapbuffer ba /\
    (if (ok : bool) then abs ba' = mk_queue false (q_done (abs ba) ++ [u8 v]) [] (ba_mark ba)
     else ba' = ba /\ no_room ba [u8 v]).
Proof.
  intros Hwf Hr Hfit. assert (Hv : bytes_ok [u8 v]).
  { constructor; [apply u8_range|constructor]. }
  unfold bytearray_write8. destruct (Z.ltb_spec (ba_offset ba) (ba_total ba)).
  - pose proof Hwf as [Ho Ht Hbl Hm (b & Hb & Hlen & Hbok)].
    rewrite (put_bytes_spec _ b) by (done || (rewrite ?Zlen_cons, ?Zlen_nil; lia)).
    destruct (stored_wf ba b [u8 v]) as [Hw Ha]; [done || (rewrite ?Zlen_cons, ?Zlen_nil; lia)..|].
    by eexists true, _.
  - apply write_value_refines; try done.
Qed.

(** Moving the read position over the next [n] bytes. *)
Lemma advance_wf ba n b :
  wf ba -> ba_reading ba = true -> ba_buffer ba = Some b -> 0 <= n <= ba_total ba - ba_offset ba ->
  let d := ztake n (zdrop (ba_offset ba) b) in
  let t := zdrop n (ztake (ba_total ba - ba_offset ba) (zdrop (ba_offset ba) b)) in
  Zlen d = n /\ bytes_ok d /\ wf (set_offset (ba_offset ba + n) ba) /\
  abs ba = mk_queue true (ztake (ba_offset ba) b) (d ++ t) (ba_mark ba) /\
  abs (set_offset (ba_offset ba + n) ba) = mk_queue true (ztake (ba_offset ba) b ++ d) t (ba_mark ba).
Proof.
  intros [Ho Ht Hbl Hm (b' & Hb' & Hlen & Hbok)] Hr Hb Hn. cbv zeta.
  rewrite Hb in Hb'. injection Hb' as <-. rewrite Hr in Hm. repeat split; cbn; try lia.
  - rewrite Zlen_ztake; [done|]. rewrite Zlen_zdrop; lia.
  - auto with fan.
  - rewrite Hr. lia.
  - eauto.
  - unfold abs, contents. rewrite Hr, Hb. cbn. f_equal.
    rewrite <- (ztake_ztake n (ba_total ba - ba_offset ba)) by lia. by rewrite ztake_zdrop.
  - unfold abs, contents. cbn. rewrite Hr, Hb. cbn. f_equal.
    + unfold ztake, zdrop. rewrite Z2Nat.inj_add by lia.
      rewrite <- take_take_drop. done.
    + rewrite zdrop_ztake by lia. rewrite zdrop_zdrop by lia. f_equal; lia.
Qed.

Lemma read_value_refines ba n :
  wf ba -> ba_reading ba = true -> 0 <= n < 2 ^ 63 ->
  exists r ba', read_value_optimized ba n = Ret (r, ba') /\ wf ba' /\
    spec_step (abs ba) (ORead n) (Bytes r) (abs ba') /\
    (r = None -> ba' = ba) /\ (forall d, r = Some d -> Zlen d = n /\ bytes_ok d).
Proof.
  intros Hwf Hr Hn. pose proof Hwf as [Ho Ht Hbl Hm (b & Hb & Hlen & Hbok)].
  unfold read_value_optimized. rewrite available_wf by done.
  destruct (Z.leb_spec n (ba_total ba - ba_offset ba)) as [Hle|Hgt].
  - rewrite Hb, mem_load_in by lia. simpl. rewrite u64_small by lia.
    destruct (advance_wf ba n b) as (Hd & Hdok & Hwf' & Ha & Ha'); [done || lia..|].
    eexists _, _. split; [reflexivity|]. split; [done|]. split; [|split; [done|by intros ? [= <-]]].
    rewrite Ha, Ha'. by constructor.
  - simpl. eexists _, _. split; [reflexivity|]. split; [done|]. split; [|done].
    unfold abs, contents. rewrite Hr, Hb. cbn. constructor.
    rewrite Zlen_ztake; [lia|]. rewrite Zlen_zdrop; lia.
Qed.

Lemma readbuffer_refines ba copy n :
  wf ba -> ba_reading ba = true -> 0 <= n < 2 ^ 32 ->
  exists r ba', bytearray_readbuffer ba copy n = Ret (r, ba') /\ wf ba' /\
    spec_step (abs ba) (OReadbuffer copy n) (Bytes r) (abs ba').
Proof.
  intros Hwf Hr Hn. pose proof Hwf as [Ho Ht Hbl Hm (b & Hb & Hlen & Hbok)].
  unfold bytearray_readbuffer. rewrite available_wf, u32_small by (done || lia).
  destruct (Z.leb_spec n (ba_total ba - ba_offset ba)) as [Hle|Hgt].
  - rewrite Hb, mem_load_in by lia.
    destruct (advance_wf ba n b) as (Hd & Hdok & Hwf' & Ha & Ha'); [done || lia..|].
    exists (Some (if copy then ztake n (zdrop (ba_offset ba) b) else [])), (set_offset (ba_offset ba + n) ba).
    split; [destruct copy; simpl; by rewrite u64_small by lia|]. split; [done|].
    rewrite Ha, Ha'. by constructor.
  - simpl. eexists _, _. split; [reflexivity|]. split; [done|].
    unfold abs, contents. rewrite Hr, Hb. cbn. constructor.
    rewrite Zlen_ztake; [lia|]. rewrite Zlen_zdrop; lia.
Qed.

Lemma read8_refines ba :
  wf ba -> ba_reading ba = true ->
  exists r ba', bytearray_read8 ba = Ret (r, ba') /\ wf ba' /\
    spec_step (abs ba) ORead8 (Bytes (fmap (M:=option) (fun v => [v]) r)) (abs ba').
Proof.
  intros Hwf Hr. pose proof Hwf as [Ho Ht Hbl Hm (b & Hb & Hlen & Hbok)].
  unfold bytearray_read8. destruct (Z.ltb_spec (ba_offset ba) (ba_total ba)) as [Hlt|Hge].
  - destruct (advance_wf ba 1 b) as (Hd & Hdok & Hwf' & Ha & Ha'); [done || lia..|].
    rewrite Hb, mem_load_in by lia. simpl. rewrite u64_small by lia.
    destruct (ztake 1 (zdrop (ba_offset ba) b)) as [|x [|? ?]];
      [done| |rewrite !Zlen_cons in Hd; pose proof (Zlen_nonneg l); lia].
    eexists _, _. split; [reflexivity|]. split; [done|]. rewrite Ha, Ha'. simpl.
    rewrite Z.mul_0_r, Z.add_0_r. constructor.
  - simpl. eexists _, _. split; [reflexivity|]. split; [done|].
    unfold abs, contents. rewrite Hr, Hb. cbn. replace (ba_total ba - ba_offset ba) with 0 by lia.
    constructor.
Qed.

Lemma read_ready_refines ba :
  wf ba -> exists r ba', bytearray_read_ready ba = (r, ba') /\ wf ba' /\
    spec_step (abs ba) OReadReady (Bool r) (abs ba').
Proof.
  intros Hwf. pose proof Hwf as [Ho Ht Hbl Hm (b & Hb & Hlen & Hbok)].
  unfold bytearray_read_ready. rewrite Hb. simpl. destruct (ba_reading ba) eqn:Hr.
  - eexists _, _. split; [reflexivity|]. split; [done|]. unfold abs. rewrite Hr. constructor.
  - eexists _, _. split; [reflexivity|]. split.
    + constructor; cbn; try lia. eauto.
    + unfold abs, contents. rewrite Hr, Hb. cbn.
      rewrite Z.sub_0_r, zdrop_0, ztake_0. constructor.
Qed.

Lemma write_ready_refines ba :
  wf ba -> exists r ba', bytearray_write_ready ba = Ret (r, ba') /\ wf ba' /\
    spec_step (abs ba) OWriteReady (Bool r) (abs ba').
Proof.
  intros Hwf. pose proof Hwf as [Ho Ht Hbl Hm (b & Hb & Hlen & Hbok)].
  unfold bytearray_write_ready. rewrite available_wf by done. destruct (ba_reading ba) eqn:Hr; simpl.
  2: { eexists _, _. split; [reflexivity|]. split; [done|]. unfold abs. rewrite Hr. constructor. }
  rewrite Hb. cbn [is_null]. set (n := ba_total ba - ba_offset ba).
  destruct (Z.ltb_spec 0 (ba_offset ba)).
  - rewrite mem_load_in by lia. cbn [mbind outcome_bind].
    set (t := ztake n (zdrop (ba_offset ba) b)).
    assert (Zlen t = n) by (unfold t, n; rewrite Zlen_ztake; [done|]; rewrite Zlen_zdrop; lia).
    rewrite mem_store_in by lia. simpl. eexists _, _. split; [reflexivity|]. split.
    + constructor; cbn; try lia. eexists; split; [reflexivity|].
      rewrite Zlen_app, Zlen_zdrop by lia. split; [lia|]. rewrite bytes_ok_app. unfold t. auto with fan.
    + unfold abs, contents. rewrite Hr, Hb. cbn. fold n. rewrite ztake_app_exact by done. constructor.
  - simpl. eexists _, _. split; [reflexivity|]. split.
    + constructor; cbn; try lia. eauto.
    + unfold abs, contents. rewrite Hr, Hb. cbn. fold n. replace (ba_offset ba) with 0 by lia.
      rewrite zdrop_0. replace (ba_total ba) with n by lia. constructor.
Qed.

Lemma reading_abs ba b :
  ba_reading ba = true -> ba_buffer ba = Some b ->
  abs ba = mk_queue true (ztake (ba_offset ba) b)
             (ztake (ba_total ba - ba_offset ba) (zdrop (ba_offset ba) b)) (ba_mark ba).
Proof. intros Hr Hb. unfold abs, contents. by rewrite Hr, Hb. Qed.

Lemma mark_refines ba :
  wf ba -> exists r ba', bytearray_mark ba = (r, ba') /\ wf ba' /\
    spec_step (abs ba) OMark (Bool r) (abs ba').
Proof.
  intros Hwf. pose proof Hwf as [Ho Ht Hbl Hm (b & Hb & Hlen & Hbok)].
  unfold bytearray_mark. rewrite Hb. simpl. destruct (ba_reading ba) eqn:Hr; simpl.
  - eexists _, _. split; [reflexivity|]. split.
    + constructor; cbn; try lia. eauto.
    + rewrite (reading_abs ba b) by done. unfold abs, contents. cbn. constructor. apply Zlen_ztake. lia.
  - eexists _, _. split; [reflexivity|]. split; [done|]. unfold abs. rewrite Hr. constructor.
Qed.

Lemma reset_refines ba :
  wf ba -> exists r ba', bytearray_reset ba = (r, ba') /\ wf ba' /\
    spec_step (abs ba) OReset (Bool r) (abs ba').
Proof.
  intros Hwf. pose proof Hwf as [Ho Ht Hbl Hm (b & Hb & Hlen & Hbok)].
  unfold bytearray_reset. rewrite Hb. simpl. destruct (ba_reading ba) eqn:Hr; simpl.
  - eexists _, _. split; [reflexivity|]. split.
    + constructor; cbn; try lia; [by rewrite Hr|eauto].
    + assert (Hall : ztake (ba_offset ba) b ++ ztake (ba_total ba - ba_offset ba) (zdrop (ba_offset ba) b)
        = ztake (ba_total ba) b).
      { unfold ztake, zdrop. rewrite take_take_drop. f_equal. lia. }
      rewrite (reading_abs ba b), (reading_abs _ b) by done. cbn.
      pose proof (spec_reset (ztake (ba_offset ba) b)
        (ztake (ba_total ba - ba_offset ba) (zdrop (ba_offset ba) b)) (ba_mark ba)) as Hs.
      rewrite Hall, ztake_ztake, zdrop_ztake in Hs by lia. exact Hs.
  - eexists _, _. split; [reflexivity|]. split; [done|]. unfold abs. rewrite Hr. constructor.
Qed.

Lemma empty_refines ba :
  wf ba -> ba_mark ba = 0 -> exists r ba', bytearray_empty ba = (r, ba') /\ wf ba' /\
    spec_step (abs ba) OEmpty (Bool r) (abs ba').
Proof.
  intros Hwf Hm0. pose proof Hwf as [Ho Ht Hbl Hm (b & Hb & Hlen & Hbok)].
  unfold bytearray_empty. eexists _, _. split; [reflexivity|]. split.
  - constructor; cbn; try lia; [|eauto]. destruct (ba_reading ba); lia.
  - unfold abs, contents. cbn. rewrite Hb. cbn. destruct (ba_reading ba) eqn:Hr; constructor.
Qed.

Lemma available_refines ba :
  wf ba -> spec_step (abs ba) OAvailable (Size (bytearray_read_available ba)) (abs ba).
Proof.
  intros Hwf. pose proof Hwf as [Ho Ht Hbl Hm (b & Hb & Hlen & Hbok)].
  unfold bytearray_read_available. rewrite Hb, available_wf by done. simpl. destruct (ba_reading ba) eqn:Hr; simpl.
  - rewrite (reading_abs ba b) by done.
    constructor. rewrite Zlen_ztake; [done|]. rewrite Zlen_zdrop; lia.
  - unfold abs. rewrite Hr. constructor.
Qed.

Lemma alloc_wf ba len ba' :
  bytearray_alloc ba len = (true, ba') -> wf ba' /\ abs ba' = mk_queue false [] [] 0.
Proof.
  unfold bytearray_alloc. set (n := if u32 len =? 0 then MIN_CAPACITY else u32 len).
  assert (Hn : 0 <= n < 2 ^ 32).
  { unfold n, MIN_CAPACITY. case_match; [lia|apply u32_range]. }
  destruct (malloc n) as [b|] eqn:Em; [|done]. intros [= <-]. split.
  - constructor; cbn; try lia. eexists; split; [done|].
    rewrite (malloc_len n b) by (done || lia). split; [lia|]. by eapply malloc_bytes.
  - done.
Qed.

Lemma q_done_offset ba : wf ba -> Zlen (q_done (abs ba)) = ba_offset ba.
Proof.
  intros [Ho Ht Hbl Hm (b & Hb & Hlen & Hbok)]. unfold abs, contents. cbn. rewrite Hb. cbn.
  apply Zlen_ztake. lia.
Qed.

Lemma writing_abs ba : ba_reading ba = false -> abs ba = mk_queue false (q_done (abs ba)) [] (ba_mark ba).
Proof. intros Hr. unfold abs. by rewrite Hr. Qed.

(** C1: Refinement: from a well-formed buffer every operation of bytearray.c the
    protocol [allowed] admits stays inside its memory block (no [UB]), keeps the
    buffer well formed, and does to the stored bytes exactly what the abstract
    byte queue does; a write fails only on a wrapped buffer that is full or for
    lack of memory, and then changes nothing. *)
Theorem bytearray_refines_queue ba o :
  wf ba -> allowed (abs ba) o ->
  exists r ba', exec o ba = Ret (r, ba') /\ wf ba' /\ spec_step (abs ba) o r (abs ba') /\
    (r = Bool false -> excuse ba o).
Proof.
  intros Hwf Ha. destruct o; cbn [allowed exec] in *; rewrite ?q_done_offset in Ha by done.
  - destruct Ha as (Hr & Hd & Hfit).
    destruct (write_value_refines ba data) as (ok & ba' & -> & Hwf' & _ & Habs); [done..|].
    eexists _, _. split; [reflexivity|]. split; [done|].
    destruct ok; [|destruct Habs as [-> ?]; split; [constructor|done]].
    rewrite Habs. rewrite writing_abs at 1 by done. split; [constructor|done].
  - destruct Ha as (Hr & Hfit).
    destruct (write8_refines ba v) as (ok & ba' & -> & Hwf' & _ & Habs); [done..|].
    eexists _, _. split; [reflexivity|]. split; [done|].
    destruct ok; [|destruct Habs as [-> ?]; split; [constructor|done]].
    rewrite Habs. rewrite writing_abs at 1 by done. split; [constructor|done].
  - destruct Ha as [Hr Hn].
    destruct (read_value_refines ba n) as (r & ba' & -> & Hwf' & Hs & _); [done || lia..|].
    by eexists _, _.
  - destruct (read8_refines ba) as (r & ba' & -> & Hwf' & Hs); [done..|]. by eexists _, _.
  - destruct Ha as [Hr Hn].
    destruct (readbuffer_refines ba copy n) as (r & ba' & -> & Hwf' & Hs); [done..|]. by eexists _, _.
  - destruct (read_ready_refines ba) as (r & ba' & -> & Hwf' & Hs); [done|]. by eexists _, _.
  - destruct (write_ready_refines ba) as (r & ba' & -> & Hwf' & Hs); [done|]. by eexists _, _.
  - destruct (mark_refines ba) as (r & ba' & -> & Hwf' & Hs); [done|]. by eexists _, _.
  - destruct (reset_refines ba) as (r & ba' & -> & Hwf' & Hs); [done|]. by eexists _, _.
  - destruct (empty_refines ba) as (r & ba' & E & Hwf' & Hs); [done..|]. rewrite E. by eexists _, _.
  - eexists _, _. split; [reflexivity|]. split; [done|]. split; [by apply available_refines|done].
Qed.

End Refinement.

(** A buffer holding [1; 2; 3] in writing mode, allocated for 4 bytes. *)
Definition ba_123 : BYTEARRAY := mk_ba 3 4 0 (Some [1; 2; 3; 0]) 4 false false.

Lemma ba_123_wf : wf ba_123.
Proof.
  constructor; cbn; try lia. eexists; split; [reflexivity|]. split; [done|].
  apply (bool_decide_unpack _). by vm_compute.
Qed.

Lemma bytearray_refines_queue_witness :
  exists r ba', exec (H := zero_alloc) (OWrite [4; 5; 6]) ba_123 = Ret (r, ba') /\ wf ba' /\
    spec_step (abs ba_123) (OWrite [4; 5; 6]) r (abs ba') /\
    (r = Bool false -> excuse (H := zero_alloc) ba_123 (OWrite [4; 5; 6])).
Proof.
  apply (bytearray_refines_queue (H := zero_alloc) ba_123 (OWrite [4; 5; 6]) ba_123_wf).
  split; [reflexivity|]. split; [|reflexivity]. apply (bool_decide_unpack _). vm_compute. exact I.
Defined.

(** [next_power_of_2] returns the least power of two not below its argument
    (and at least [MIN_CAPACITY]), for every size up to [2^63]. *)
Theorem next_power_of_2_least n :
  0 <= n <= 2 ^ 63 ->
  exists k, 0 <= k /\ next_power_of_2 n = 2 ^ k /\ n <= 2 ^ k /\
    forall j, 7 <= j -> n <= 2 ^ j -> k <= j.
Proof.
  intros Hn. destruct (Z.le_gt_cases n 128) as [Hle|Hgt].
  { exists 7. unfold next_power_of_2, MIN_CAPACITY. destruct (Z.leb_spec n 128); [|lia].
    repeat split; (done || lia). }
  exists (Z.log2 (n - 1) + 1). rewrite next_power_of_2_spec by lia.
  pose proof (Z.log2_spec (n - 1) ltac:(lia)) as [Hlo Hhi]. rewrite <- Z.add_1_r in Hhi.
  pose proof (Z.log2_nonneg (n - 1)). repeat split; try lia.
  intros j Hj Hnj. destruct (Z.lt_ge_cases j (Z.log2 (n - 1) + 1)); [|lia].
  assert (2 ^ j <= 2 ^ Z.log2 (n - 1)) by (apply Z.pow_le_mono_r; lia). lia.
Qed.

Lemma next_power_of_2_least_witness :
  exists k, 0 <= k /\ next_power_of_2 1000 = 2 ^ k /\ 1000 <= 2 ^ k /\
    forall j, 7 <= j -> 1000 <= 2 ^ j -> k <= j.
Proof. apply (next_power_of_2_least 1000). lia. Defined.

(** [bytearray_empty] forgets to clear the mark: on a reading buffer with a
    positive mark, [empty] then [reset] moves the read position past the end of
    the (now empty) data; the available size wraps around to [2^64 - mark] and a
    read beyond the block is performed. *)
Theorem empty_keeps_mark ba b n :
  wf ba -> ba_reading ba = true -> ba_buffer ba = Some b -> 0 < ba_mark ba ->
  let ba2 := snd (bytearray_reset (snd (bytearray_empty ba))) in
  bytearray_read_available ba2 = 2 ^ 64 - ba_mark ba /\ ~ wf ba2 /\
  (Zlen b - ba_mark ba < n <= 2 ^ 64 - ba_mark ba -> read_value_optimized ba2 n = UB).
Proof.
  intros [Ho Ht Hbl Hm (b' & Hb' & Hlen & Hbok)] Hr Hb Hmk. rewrite Hb in Hb'. injection Hb' as <-.
  rewrite Hr in Hm. cbv zeta. unfold bytearray_empty, bytearray_reset. cbn. rewrite Hb, Hr. cbn.
  assert (Hw : u64 (0 - ba_mark ba) = 2 ^ 64 - ba_mark ba).
  { unfold u64. rewrite <- (Z.mod_add _ 1) by done. rewrite Z.mod_small by lia. lia. }
  split; [|split].
  - unfold bytearray_read_available. cbn. apply Hw.
  - intros [Ho' _ _ _ _]. cbn in Ho'. lia.
  - intros Hn. unfold read_value_optimized. cbn. rewrite Hw.
    destruct (Z.leb_spec n (2 ^ 64 - ba_mark ba)); [|lia]. unfold mem_load.
    destruct (Z.eqb_spec n 0); [lia|].
    destruct (Z.leb_spec (ba_mark ba + n) (Zlen b)); [lia|]. by rewrite andb_false_r.
Qed.

Definition ba_marked : BYTEARRAY := mk_ba 2 3 2 (Some [1; 2; 3; 0]) 4 true false.

Lemma ba_marked_wf : wf ba_marked.
Proof.
  constructor; cbn; try lia. eexists; split; [reflexivity|]. split; [done|].
  apply (bool_decide_unpack _). by vm_compute.
Qed.

Lemma empty_keeps_mark_witness :
  read_value_optimized (snd (bytearray_reset (snd (bytearray_empty ba_marked)))) 4 = UB.
Proof.
  apply (empty_keeps_mark ba_marked [1; 2; 3; 0] 4 ba_marked_wf eq_refl eq_refl); vm_compute; split; congruence.
Defined.

(** ** The client's view: a writer has written [l], a reader has [t] left *)

Definition writer (ba : BYTEARRAY) (l : list Z) : Prop :=
  wf ba /\ ba_reading ba = false /\ ba_wrapbuffer ba = false /\ q_done (abs ba) = l.
Definition reader (ba : BYTEARRAY) (t : list Z) : Prop :=
  wf ba /\ ba_reading ba = true /\ q_todo (abs ba) = t.

Lemma growth_size_le n : 0 <= n < 2 ^ 63 -> 0 <= growth_size n <= 2 * n + 128.
Proof.
  intros Hn. destruct (Z.eq_dec n 0) as [->|]; [done|].
  pose proof (growth_size_spec n ltac:(lia)) as [Hg _]. split; [lia|].
  unfold growth_size, MAX_PREALLOC. destruct (Z.leb_spec n 4096).
  - destruct (Z.le_gt_cases n 128).
    { unfold next_power_of_2, MIN_CAPACITY. case_bool; lia. }
    rewrite next_power_of_2_spec, Z.pow_add_r by (lia || apply Z.log2_nonneg).
    pose proof (Z.log2_spec (n - 1) ltac:(lia)) as [? _]. lia.
  - rewrite land_align by apply u64_range. rewrite Z.shiftr_div_pow2 by lia. change (2 ^ 2) with 4.
    unfold CACHE_LINE_SIZE. rewrite !u64_small by (rewrite ?u64_small by dmlia; dmlia). dmlia.
Qed.

Section Clients.
Context `{Allocator}.

Lemma writer_offset ba l : writer ba l -> ba_offset ba = Zlen l /\ abs ba = mk_queue false l [] (ba_mark ba).
Proof.
  intros (Hwf & Hr & _ & Hl). rewrite <- Hl, q_done_offset by done. split; [done|]. by apply writing_abs.
Qed.

(** A write that has the memory it may need appends. *)
Lemma writer_intro ba ba' l v (ok : bool) M :
  writer ba l -> mem_upto M -> 2 * (Zlen l + Zlen v) + 128 <= M -> M < 2 ^ 62 ->
  wf ba' -> ba_wrapbuffer ba' = ba_wrapbuffer ba ->
  (if ok then abs ba' = mk_queue false (q_done (abs ba) ++ v) [] (ba_mark ba)
   else ba' = ba /\ no_room ba v) ->
  ok = true /\ writer ba' (l ++ v).
Proof.
  intros Hw HM Hfit HM2 Hwf Hwb Hok. destruct (writer_offset _ _ Hw) as [Ho Ha].
  destruct Hw as (Hwf0 & Hr & Hwb0 & Hl). pose proof (Zlen_nonneg l). pose proof (Zlen_nonneg v).
  destruct ok.
  - split; [done|]. rewrite Hl in Hok. split; [done|]. split; [|split; [congruence|by rewrite Hok]].
    by apply (f_equal q_reading) in Hok.
  - destruct Hok as [_ [Hbad|Hbad]]; [congruence|]. rewrite Ho in Hbad.
    exfalso. eapply HM; [|exact Hbad]. pose proof (growth_size_le (Zlen l + Zlen v) ltac:(lia)). lia.
Qed.

Lemma write_append M ba l v :
  mem_upto M -> writer ba l -> bytes_ok v -> 2 * (Zlen l + Zlen v) + 128 <= M -> M < 2 ^ 62 ->
  exists ba', write_value_optimized ba v = Ret (true, ba') /\ writer ba' (l ++ v).
Proof.
  intros HM Hw Hv Hfit HM2. destruct (writer_offset _ _ Hw) as [Ho _]. pose proof Hw as (Hwf & Hr & _).
  pose proof (Zlen_nonneg l). pose proof (Zlen_nonneg v).
  destruct (write_value_refines ba v) as (ok & ba' & E & Hwf' & Hwb & Hok); [done || lia..|].
  destruct (writer_intro _ _ _ _ _ _ Hw HM Hfit HM2 Hwf' Hwb Hok) as [-> Hw']. eauto.
Qed.

Lemma write8_append M ba l x :
  mem_upto M -> writer ba l -> 2 * (Zlen l + 1) + 128 <= M -> M < 2 ^ 62 ->
  exists ba', bytearray_write8 ba x = Ret (true, ba') /\ writer ba' (l ++ [u8 x]).
Proof.
  intros HM Hw Hfit HM2. destruct (writer_offset _ _ Hw) as [Ho _]. pose proof Hw as (Hwf & Hr & _).
  pose proof (Zlen_nonneg l).
  destruct (write8_refines ba x) as (ok & ba' & E & Hwf' & Hwb & Hok); [done || lia..|].
  destruct (writer_intro _ _ _ [u8 x] _ _ Hw HM Hfit HM2 Hwf' Hwb Hok) as [-> Hw']. eauto.
Qed.

Lemma alloc_writer M ba len :
  mem_upto M -> 2 ^ 32 <= M -> exists ba', bytearray_alloc ba len = (true, ba') /\ writer ba' [].
Proof.
  intros HM HM2. destruct (bytearray_alloc ba len) as [ok ba'] eqn:E. assert (ok = true) as ->.
  { unfold bytearray_alloc in E. set (n := if u32 len =? 0 then MIN_CAPACITY else u32 len) in E.
    assert (0 <= n < 2 ^ 32) by (unfold n, MIN_CAPACITY; destruct (Z.eqb_spec (u32 len) 0); [lia|apply u32_range]).
    specialize (HM n). destruct (malloc n); [congruence|]. exfalso. apply HM; [lia|done]. }
  exists ba'. split; [done|]. assert (Hwb : ba_wrapbuffer ba' = false).
  { unfold bytearray_alloc in E. by case_match; simplify_eq. }
  apply alloc_wf in E as [Hwf Ha]. repeat split; try apply Hwf; try done; [|by rewrite Ha].
  by apply (f_equal q_reading) in Ha.
Qed.
End Clients.

Lemma writer_read_ready ba l :
  writer ba l -> exists ba', bytearray_read_ready ba = (true, ba') /\ reader ba' l /\
    ba_offset ba' = 0 /\ ba_total ba' = Zlen l /\
    mem_load (ba_buffer ba') 0 (Zlen l) = Ret l.
Proof.
  intros Hw. destruct (writer_offset _ _ Hw) as [Ho _]. destruct Hw as (Hwf & Hr & Hwb & Hl).
  destruct (read_ready_refines ba Hwf) as (r & ba' & E & Hwf' & Hs). pose proof E as E'.
  unfold bytearray_read_ready in E'. pose proof Hwf as [Ho' Ht Hbl Hm (b & Hb & Hlen & Hbok)].
  rewrite Hb, Hr in E'. injection E' as <- <-. eexists. split; [exact E|].
  split; [split; [done|split; [done|]]|].
  - rewrite writing_abs, Hl in Hs by done. by inversion Hs.
  - cbn. split; [done|]. split; [done|]. rewrite mem_load_in by lia. rewrite zdrop_0.
    rewrite <- Ho. unfold abs, contents in Hl. cbn in Hl. rewrite Hb in Hl. cbn in Hl. by rewrite Hl.
Qed.

Lemma reader_abs ba t :
  reader ba t -> abs ba = mk_queue true (q_done (abs ba)) t (ba_mark ba).
Proof. intros (Hwf & Hr & <-). unfold abs. by rewrite Hr. Qed.

Lemma reader_of_abs ba l t m : wf ba -> abs ba = mk_queue true l t m -> reader ba t.
Proof.
  intros Hwf Ha. split; [done|]. split; [by apply (f_equal q_reading) in Ha|by rewrite Ha].
Qed.

Lemma reader_available ba t : reader ba t -> bytearray_read_available ba = Zlen t.
Proof.
  intros Hrd. pose proof (reader_abs _ _ Hrd) as Ha. destruct Hrd as (Hwf & Hr & _).
  pose proof (available_refines ba Hwf) as Hs. rewrite Ha in Hs. by inversion Hs.
Qed.

(** Inversion of a queue step that leads to the abstraction of [ba]. *)
Ltac inv_step Hs ba :=
  let q := fresh "q" in let Hq := fresh "Hq" in
  remember (abs ba) as q eqn:Hq; symmetry in Hq; inversion Hs; subst; clear Hs.

(** Two splits of one list at the same place. *)
Ltac split_apps :=
  match goal with
  | H : ?a ++ ?b = ?c ++ ?d |- _ =>
      apply app_inj_1 in H as [? ?]; [subst|unfold Zlen in *; lia]
  end.

Lemma reader_read ba d t n :
  reader ba (d ++ t) -> Zlen d = n -> n < 2 ^ 63 ->
  exists ba', read_value_optimized ba n = Ret (Some d, ba') /\ reader ba' t.
Proof.
  intros Hrd Hd Hn. pose proof (reader_abs _ _ Hrd) as Ha. destruct Hrd as (Hwf & Hr & _).
  destruct (read_value_refines ba n Hwf Hr) as (r & ba' & E & Hwf' & Hs & _); [pose proof (Zlen_nonneg d); lia|].
  rewrite Ha in Hs. inv_step Hs ba'.
  - split_apps. exists ba'. split; [done|]. by eapply reader_of_abs.
  - unfold Zlen in *. rewrite ?length_app in *. lia.
Qed.

Lemma reader_read_short ba t n :
  reader ba t -> Zlen t < n < 2 ^ 63 -> read_value_optimized ba n = Ret (None, ba).
Proof.
  intros Hrd Hn. pose proof (reader_abs _ _ Hrd) as Ha. destruct Hrd as (Hwf & Hr & _).
  destruct (read_value_refines ba n Hwf Hr) as (r & ba' & E & Hwf' & Hs & Hnone & _);
    [pose proof (Zlen_nonneg t); lia|].
  rewrite Ha in Hs. inv_step Hs ba'.
  - unfold Zlen in *. rewrite ?length_app in *. lia.
  - by rewrite Hnone in E.
Qed.

Lemma reader_read8 ba x t :
  reader ba (x :: t) -> exists ba', bytearray_read8 ba = Ret (Some x, ba') /\ reader ba' t.
Proof.
  intros Hrd. pose proof (reader_abs _ _ Hrd) as Ha. destruct Hrd as (Hwf & Hr & _).
  destruct (read8_refines ba Hwf Hr) as (r & ba' & E & Hwf' & Hs).
  rewrite Ha in Hs. destruct r; inv_step Hs ba'.
  exists ba'. split; [done|]. by eapply reader_of_abs.
Qed.

Lemma reader_read8_short ba : reader ba [] -> exists ba', bytearray_read8 ba = Ret (None, ba') /\ reader ba' [].
Proof.
  intros Hrd. pose proof (reader_abs _ _ Hrd) as Ha. destruct Hrd as (Hwf & Hr & _).
  destruct (read8_refines ba Hwf Hr) as (r & ba' & E & Hwf' & Hs).
  rewrite Ha in Hs. destruct r; inv_step Hs ba'.
  exists ba'. split; [done|]. by eapply reader_of_abs.
Qed.

Lemma reader_readbuffer ba (copy : bool) d t n :
  reader ba (d ++ t) -> Zlen d = n -> n < 2 ^ 32 ->
  exists ba', bytearray_readbuffer ba copy n = Ret (Some (if copy then d else []), ba') /\ reader ba' t.
Proof.
  intros Hrd Hd Hn. pose proof (reader_abs _ _ Hrd) as Ha. destruct Hrd as (Hwf & Hr & _).
  destruct (readbuffer_refines ba copy n Hwf Hr) as (r & ba' & E & Hwf' & Hs); [pose proof (Zlen_nonneg d); lia|].
  rewrite Ha in Hs. inv_step Hs ba'.
  - split_apps. exists ba'. split; [done|]. by eapply reader_of_abs.
  - unfold Zlen in *. rewrite ?length_app in *. lia.
Qed.

Lemma reader_readbuffer_short ba copy t n :
  reader ba t -> Zlen t < n < 2 ^ 32 ->
  exists ba', bytearray_readbuffer ba copy n = Ret (None, ba') /\ reader ba' t.
Proof.
  intros Hrd Hn. pose proof (reader_abs _ _ Hrd) as Ha. destruct Hrd as (Hwf & Hr & _).
  destruct (readbuffer_refines ba copy n Hwf Hr) as (r & ba' & E & Hwf' & Hs); [pose proof (Zlen_nonneg t); lia|].
  rewrite Ha in Hs. inv_step Hs ba'.
  - unfold Zlen in *. rewrite ?length_app in *. lia.
  - exists ba'. split; [done|]. by eapply reader_of_abs.
Qed.

Lemma reader_load ba d t n :
  reader ba (d ++ t) -> Zlen d = n -> is_null (ba_buffer ba) = false /\
  mem_load (ba_buffer ba) (ba_offset ba) n = Ret d.
Proof.
  intros (Hwf & Hr & Ht) Hd. pose proof Hwf as [Ho Htt Hbl Hm (b & Hb & Hlen & Hbok)].
  rewrite Hb. split; [done|]. unfold abs, contents in Ht. cbn in Ht. rewrite Hr, Hb in Ht. cbn in Ht.
  pose proof (f_equal Zlen Ht) as HL. rewrite Zlen_app, Zlen_ztake in HL by (rewrite Zlen_zdrop; lia).
  pose proof (Zlen_nonneg d). pose proof (Zlen_nonneg t).
  rewrite mem_load_in by lia. f_equal.
  rewrite <- (ztake_ztake n (ba_total ba - ba_offset ba)) by lia. rewrite Ht. by apply ztake_app_exact.
Qed.

(** Reads change nothing but the offset. *)
Lemma read8_offset ba r ba' : bytearray_read8 ba = Ret (r, ba') -> exists k, ba' = set_offset k ba.
Proof.
  unfold bytearray_read8. case_bool; [|intros [= <- <-]; exists (ba_offset ba); by destruct ba].
  destruct (mem_load _ _ _); [intros [= <- <-]; eauto|intros [=]..].
Qed.
