(* ===== verification/Double.v ===== *)
(** * The C library's number conversions the program calls

    A [double] is its 64-bit IEEE pattern.  [snprintf("%.14g")] and [strtod] are
    what json.c needs of the C library; they are written here as executable
    functions on exact rationals, with round-half-even, in the "C" locale. *)

From S2P Require Import Prelude.

(** ** Patterns *)

Definition d_neg (d : Z) : bool := Z.testbit d 63.
Definition d_exp (d : Z) : Z := Z.land (Z.shiftr d 52) 2047.
Definition d_frac (d : Z) : Z := Z.land d (Z.ones 52).
Definition d_isnan (d : Z) : bool := (d_exp d =? 2047) && negb (d_frac d =? 0).
Definition d_isinf (d : Z) : bool := (d_exp d =? 2047) && (d_frac d =? 0).
Definition d_iszero (d : Z) : bool := (d_exp d =? 0) && (d_frac d =? 0).
Definition d_inf : Z := 2047 * 2 ^ 52.
Definition d_nan : Z := 2047 * 2 ^ 52 + 2 ^ 51.
Definition d_signed (neg : bool) (d : Z) : Z := if neg then d + 2 ^ 63 else d.

(** The magnitude of a finite double is [d_mant * 2 ^ d_pow]. *)
Definition d_mant (d : Z) : Z := if d_exp d =? 0 then d_frac d else d_frac d + 2 ^ 52.
Definition d_pow (d : Z) : Z := if d_exp d =? 0 then -1074 else d_exp d - 1075.

(** The integer a double is equal to, when there is one: [floor (d) == d]. *)
Definition d_int (d : Z) : option Z :=
  if d_exp d =? 2047 then None
  else
    let sign := if d_neg d then -1 else 1 in
    if 0 <=? d_pow d then Some (sign * (d_mant d * 2 ^ d_pow d))
    else if d_mant d mod 2 ^ (- d_pow d) =? 0 then Some (sign * (d_mant d / 2 ^ (- d_pow d)))
    else None.

(** ** Rounding *)

(** [n / d] to the nearest integer, ties to even. *)
Definition rdiv (n d : Z) : Z :=
  let q := n / d in
  let r := 2 * (n mod d) in
  if (r <? d) || ((r =? d) && Z.even q) then q else q + 1.

(** [b ^ e] as a fraction, for any sign of [e]. *)
Definition zpow_num (b e : Z) : Z := if 0 <=? e then b ^ e else 1.
Definition zpow_den (b e : Z) : Z := if 0 <=? e then 1 else b ^ (- e).

(** The exponent [e] such that [n / d] is [2 ^ 52 .. 2 ^ 53] times [2 ^ e], or
    the least exponent of a double. *)
Definition d_scale (n d : Z) : Z :=
  let e := Z.log2 n - Z.log2 d - 52 in
  let e := if n * zpow_den 2 e <? 2 ^ 52 * d * zpow_num 2 e then e - 1 else e in
  Z.max e (-1074).

(** The double nearest to [n / d], both positive; too large rounds to infinity.
    Adding the mantissa to the exponent field also handles the carry. *)
Definition d_round (n d : Z) : Z :=
  let e := d_scale n d in
  Z.min d_inf ((e + 1074) * 2 ^ 52 + rdiv (n * zpow_den 2 e) (d * zpow_num 2 e)).

Definition d_of_Z (z : Z) : Z :=
  if z =? 0 then 0 else d_signed (z <? 0) (d_round (Z.abs z) 1).

(** ** [snprintf("%.14g")] *)

(** The decimal exponent of [n / d]: [10 ^ x <= n / d < 10 ^ (x + 1)].  The
    smallest positive double is above [10 ^ -324]. *)
Fixpoint small_exp10 (fuel : nat) (n d k : Z) : Z :=
  match fuel with
  | O => k
  | S fuel => if d <=? n * 10 ^ k then k else small_exp10 fuel n d (k + 1)
  end.
Definition exp10 (n d : Z) : Z :=
  if d <=? n then Zlen (dec_of_nonneg (n / d)) - 1 else - small_exp10 330 n d 1.

Fixpoint strip_zeros (l : list Z) : list Z :=
  match l with
  | [] => []
  | c :: l =>
      match strip_zeros l with
      | [] => if c =? 48 then [] else [c]
      | l => c :: l
      end
  end.

(** [n] in exactly [k] digits. *)
Fixpoint pad_digits (k : nat) (n : Z) : list Z :=
  match k with
  | O => []
  | S k => pad_digits k (n / 10) ++ [48 + n mod 10]
  end.

Definition point_frac (l : list Z) : list Z :=
  match strip_zeros l with
  | [] => []
  | l => 46 :: l
  end.

(** [digits] are the 14 significant digits of a number with exponent [x]. *)
Definition fmt_digits (digits x : Z) : list Z :=
  if (-4 <=? x) && (x <? 14) then
    dec_of_nonneg (digits / 10 ^ (13 - x)) ++
    point_frac (pad_digits (Z.to_nat (13 - x)) (digits mod 10 ^ (13 - x)))
  else
    [48 + digits / 10 ^ 13] ++ point_frac (pad_digits 13 (digits mod 10 ^ 13)) ++
    [101; if x <? 0 then 45 else 43] ++
    (if Z.abs x <? 10 then pad_digits 2 (Z.abs x) else dec_of_nonneg (Z.abs x)).

Definition fmt_pos (n d : Z) : list Z :=
  let x := exp10 n d in
  let digits := rdiv (n * zpow_num 10 (13 - x)) (d * zpow_den 10 (13 - x)) in
  if digits =? 10 ^ 14 then fmt_digits (10 ^ 13) (x + 1) else fmt_digits digits x.

Definition fmt_14g (v : Z) : list Z :=
  if d_isnan v then (if d_neg v then lit "-nan" else lit "nan")
  else
    (if d_neg v then [45] else []) ++
    (if d_isinf v then lit "inf"
     else if d_iszero v then [48]
     else fmt_pos (d_mant v * zpow_num 2 (d_pow v)) (zpow_den 2 (d_pow v))).

(** ** [strtod] *)

Definition is_digit (c : Z) : bool := (48 <=? c) && (c <=? 57).
Definition hex_digit (c : Z) : option Z :=
  if is_digit c then Some (c - 48)
  else if (97 <=? c) && (c <=? 102) then Some (c - 87)
  else if (65 <=? c) && (c <=? 70) then Some (c - 55)
  else None.
Definition digit_of (base : Z) (c : Z) : option Z :=
  match hex_digit c with
  | Some v => if v <? base then Some v else None
  | None => None
  end.

(** A run of digits: the value accumulated, how many there were, the rest. *)
Fixpoint take_digits (base : Z) (acc n : Z) (s : list Z) : Z * Z * list Z :=
  match s with
  | c :: s' =>
      match digit_of base c with
      | Some v => take_digits base (base * acc + v) (n + 1) s'
      | None => (acc, n, s)
      end
  | [] => (acc, n, [])
  end.

(** The mantissa: digits, optionally a point and more digits; [None] without any
    digit.  The result is the value as an integer and the number of digits after
    the point. *)
Definition take_mantissa (base : Z) (s : list Z) : option (Z * Z * list Z) :=
  let '(a, n, s1) := take_digits base 0 0 s in
  match s1 with
  | 46 :: s2 =>
      let '(b, k, s3) := take_digits base a 0 s2 in
      if n + k =? 0 then None else Some (b, k, s3)
  | _ => if n =? 0 then None else Some (a, 0, s1)
  end.

(** An exponent part is taken only when it has digits. *)
Definition take_exponent (marks : list Z) (s : list Z) : Z * list Z :=
  match s with
  | c :: s1 =>
      if bool_decide (c ∈ marks) then
        let '(neg, s2) := match s1 with 45 :: r => (true, r) | 43 :: r => (false, r) | _ => (false, s1) end in
        let '(v, n, s3) := take_digits 10 0 0 s2 in
        if n =? 0 then (0, s) else ((if neg : bool then - v else v), s3)
      else (0, s)
  | [] => (0, s)
  end.

(** [m * b ^ e], rounded. *)
Definition scaled (m b e : Z) : Z := if m =? 0 then 0 else d_round (m * zpow_num b e) (zpow_den b e).

Definition lower (c : Z) : Z := if (65 <=? c) && (c <=? 90) then c + 32 else c.
Fixpoint prefix_ci (w s : list Z) : option (list Z) :=
  match w, s with
  | [], _ => Some s
  | a :: w, c :: s => if lower c =? a then prefix_ci w s else None
  | _ :: _, [] => None
  end.

Definition nan_char (c : Z) : bool :=
  is_digit c || ((97 <=? lower c) && (lower c <=? 122)) || (c =? 95).
(** [nan] may be followed by a parenthesised word. *)
Fixpoint nan_tail (s : list Z) : option (list Z) :=
  match s with
  | 41 :: s => Some s
  | c :: s => if nan_char c then nan_tail s else None
  | [] => None
  end.

(** The magnitude at the front of [s], and what follows it. *)
Definition strtod_magnitude (s : list Z) : option (Z * list Z) :=
  let decimal :=
    match take_mantissa 10 s with
    | Some (m, k, s1) => let '(e, s2) := take_exponent [101; 69] s1 in Some (scaled m 10 (e - k), s2)
    | None => None
    end in
  match prefix_ci (lit "infinity") s, prefix_ci (lit "inf") s, prefix_ci (lit "nan") s, prefix_ci (lit "0x") s with
  | Some s1, _, _, _ => Some (d_inf, s1)
  | _, Some s1, _, _ => Some (d_inf, s1)
  | _, _, Some s1, _ =>
      match s1 with
      | 40 :: s2 => Some (d_nan, default s1 (nan_tail s2))
      | _ => Some (d_nan, s1)
      end
  | _, _, _, Some s1 =>
      match take_mantissa 16 s1 with
      | Some (m, k, s2) => let '(e, s3) := take_exponent [112; 80] s2 in Some (scaled m 2 (e - 4 * k), s3)
      | None => decimal
      end
  | _, _, _, _ => decimal
  end.

(** Value and unconverted rest; [strtod] converts nothing (and returns 0) when
    there is no number.  The strings it is given have no leading blanks. *)
Definition strtod (s : list Z) : Z * list Z :=
  let '(neg, s1) := match s with 45 :: r => (true, r) | 43 :: r => (false, r) | _ => (false, s) end in
  match strtod_magnitude s1 with
  | Some (v, r) => (d_signed neg v, r)
  | None => (0, s)
  end.

(** ** Ranges *)

Lemma zpow_num_pos b e : 0 < b -> 0 < zpow_num b e.
Proof. intros. unfold zpow_num. destruct (Z.leb_spec 0 e); [apply Z.pow_pos_nonneg; lia|done]. Qed.
Lemma zpow_den_pos b e : 0 < b -> 0 < zpow_den b e.
Proof. intros. unfold zpow_den. destruct (Z.leb_spec 0 e); [done|apply Z.pow_pos_nonneg; lia]. Qed.

Lemma rdiv_nonneg n d : 0 <= n -> 0 < d -> 0 <= rdiv n d.
Proof. intros. unfold rdiv. pose proof (Z.div_pos n d). case_bool; lia. Qed.
Lemma rdiv_exact n d : 0 < d -> rdiv (n * d) d = n.
Proof.
  intros. unfold rdiv. rewrite Z.div_mul, Z.mod_mul by lia.
  destruct (Z.ltb_spec (2 * 0) d); [done|lia].
Qed.

Lemma d_round_range n d : 0 <= n -> 0 < d -> 0 <= d_round n d <= d_inf.
Proof.
  intros Hn Hd. unfold d_round. assert (-1074 <= d_scale n d) by (unfold d_scale; lia).
  pose proof (rdiv_nonneg (n * zpow_den 2 (d_scale n d)) (d * zpow_num 2 (d_scale n d))) as Hr.
  pose proof (zpow_num_pos 2 (d_scale n d)). pose proof (zpow_den_pos 2 (d_scale n d)). unfold d_inf.
  assert (0 <= rdiv (n * zpow_den 2 (d_scale n d)) (d * zpow_num 2 (d_scale n d))) by (apply Hr; nia). lia.
Qed.

Lemma d_of_Z_range z : 0 <= d_of_Z z < 2 ^ 64.
Proof.
  unfold d_of_Z. case_bool; [done|]. pose proof (d_round_range (Z.abs z) 1 ltac:(lia) ltac:(lia)).
  unfold d_signed, d_inf in *. case_bool; lia.
Qed.

(** ** Decimal digits *)

Definition dval (acc : Z) (l : list Z) : Z := fold_left (fun a c => 10 * a + (c - 48)) l acc.

Lemma dval_app acc l k : dval acc (l ++ k) = dval (dval acc l) k.
Proof. apply fold_left_app. Qed.

Lemma is_digit_spec v : 0 <= v < 10 -> is_digit (48 + v) = true.
Proof. unfold is_digit. lia. Qed.

(** [dec_digits] writes [n] in decimal, without leading zeros. *)
Lemma dec_digits_spec fuel : forall n,
  (0 < fuel)%nat -> 0 <= n < 10 ^ Z.of_nat fuel ->
  let l := dec_digits fuel n in
  Forall (fun c => is_digit c = true) l /\ dval 0 l = n /\
  1 <= Zlen l /\ n < 10 ^ Zlen l /\ (n = 0 /\ Zlen l = 1 \/ 10 ^ (Zlen l - 1) <= n).
Proof.
  induction fuel as [|fuel IH]; intros n Hf Hn; [lia|]. cbn [dec_digits].
  destruct (Z.ltb_spec n 10) as [Hlt|Hge]; cbv zeta.
  - split; [apply Forall_singleton, is_digit_spec; lia|]. split; [cbn; lia|]. zlen.
    change (1 + 0) with 1. split; [lia|]. split; [lia|]. change (10 ^ (1 - 1)) with 1. lia.
  - rewrite Nat2Z.inj_succ, Z.pow_succ_r in Hn by lia.
    destruct fuel as [|fuel]; [change (10 ^ Z.of_nat 0) with 1 in Hn; lia|].
    destruct (IH (n / 10)) as (Hd & Hv & Hl & Hhi & Hlo); [lia|dmlia|].
    split; [apply Forall_app; split; [done|]; apply Forall_singleton, is_digit_spec; dmlia|].
    split; [rewrite dval_app, Hv; cbn; dmlia|]. zlen. set (k := Zlen (dec_digits (S fuel) (n / 10))) in *.
    replace (k + (1 + 0)) with (k + 1) by lia. rewrite Z.pow_add_r by lia. change (10 ^ 1) with 10.
    split; [lia|]. split; [dmlia|]. right. destruct Hlo as [[H0 _]|Hlo]; [dmlia|].
    replace (k + 1 - 1) with (k - 1 + 1) by lia. rewrite Z.pow_add_r by lia. change (10 ^ 1) with 10. dmlia.
Qed.

Lemma dec_of_nonneg_spec n :
  0 <= n ->
  let l := dec_of_nonneg n in
  Forall (fun c => is_digit c = true) l /\ dval 0 l = n /\
  1 <= Zlen l /\ n < 10 ^ Zlen l /\ (n = 0 /\ Zlen l = 1 \/ 10 ^ (Zlen l - 1) <= n).
Proof.
  intros Hn. apply dec_digits_spec; [lia|]. split; [done|].
  rewrite Nat2Z.inj_succ, Z2Nat.id by apply Z.log2_nonneg.
  destruct (Z.eq_dec n 0) as [->|]; [done|]. pose proof (Z.log2_spec n ltac:(lia)) as [_ Hlt].
  pose proof (Z.log2_nonneg n). eapply Z.lt_le_trans; [exact Hlt|]. apply Z.pow_le_mono_l. lia.
Qed.

Lemma dec_len n k : 0 <= n < 10 ^ k -> 1 <= k -> Zlen (dec_of_nonneg n) <= k.
Proof.
  intros Hn Hk. destruct (dec_of_nonneg_spec n) as (_ & _ & Hl & _ & [[_ ->]|Hlo]); [lia|lia|].
  apply Z.lt_succ_r. apply Z.nle_gt. intros Hgt.
  assert (10 ^ k <= 10 ^ (Zlen (dec_of_nonneg n) - 1)) by (apply Z.pow_le_mono_r; lia). lia.
Qed.

(** The length is determined by the value. *)
Lemma dec_len_eq n k : 10 ^ (k - 1) <= n < 10 ^ k -> 1 <= k -> Zlen (dec_of_nonneg n) = k.
Proof.
  intros Hn Hk. assert (0 < 10 ^ (k - 1)) by (apply Z.pow_pos_nonneg; lia).
  assert (Zlen (dec_of_nonneg n) <= k) by (apply dec_len; lia).
  destruct (dec_of_nonneg_spec n) as (_ & _ & Hl & Hhi & _); [lia|].
  apply Z.le_antisymm; [done|]. apply Z.lt_pred_le. apply (Z.pow_lt_mono_r_iff 10); [lia|lia|].
  replace (Z.pred k) with (k - 1) by lia. lia.
Qed.

Lemma Zlen_pad_digits k n : Zlen (pad_digits k n) = Z.of_nat k.
Proof. revert n. induction k as [|k IH]; intros n; [done|]. cbn [pad_digits]. zlen. rewrite IH. lia. Qed.
Lemma pad_digits_digits k n : Forall (fun c => is_digit c = true) (pad_digits k n).
Proof.
  revert n. induction k as [|k IH]; intros n; [by apply Forall_nil|]. cbn [pad_digits].
  apply Forall_app. split; [apply IH|]. apply Forall_singleton, is_digit_spec. dmlia.
Qed.
Lemma strip_zeros_incl l : Zlen (strip_zeros l) <= Zlen l /\ (forall P : Z -> Prop, Forall P l -> Forall P (strip_zeros l)).
Proof.
  induction l as [|c l [IH1 IH2]]; [done|]. cbn [strip_zeros].
  destruct (strip_zeros l) eqn:E; [case_bool|]; zlen; pose proof (Zlen_nonneg l); split; try lia;
    intros P Hp; inversion Hp; subst; auto; constructor; auto.
Qed.

(** ** [%.14g]: size and alphabet *)

(** [n / d] lies between two powers of ten. *)
Definition exp10_ok (n d x : Z) : Prop :=
  d * zpow_num 10 x <= n * zpow_den 10 x /\ n * zpow_den 10 (x + 1) < d * zpow_num 10 (x + 1).

Lemma small_exp10_spec fuel : forall n d k,
  0 < n < d -> 1 <= k -> n * 10 ^ (k - 1) < d -> d <= n * 10 ^ (k + Z.of_nat fuel) ->
  let r := small_exp10 fuel n d k in
  k <= r <= k + Z.of_nat fuel /\ d <= n * 10 ^ r /\ n * 10 ^ (r - 1) < d.
Proof.
  induction fuel as [|fuel IH]; intros n d k Hn Hk Hlt Hge; cbn [small_exp10].
  - change (Z.of_nat 0) with 0 in *. rewrite Z.add_0_r in *. lia.
  - destruct (Z.leb_spec d (n * 10 ^ k)); [lia|].
    destruct (IH n d (k + 1)) as (? & ? & ?); try lia.
    + by replace (k + 1 - 1) with k by lia.
    + by replace (k + 1 + Z.of_nat fuel) with (k + Z.of_nat (S fuel)) by lia.
Qed.

Lemma exp10_spec n d : 0 < n -> 0 < d <= n * 10 ^ 331 -> exp10_ok n d (exp10 n d) /\ -331 <= exp10 n d.
Proof.
  intros Hn Hd. unfold exp10, exp10_ok. destruct (Z.leb_spec d n) as [Hle|Hgt].
  - assert (1 <= n / d) by (apply Z.div_le_lower_bound; lia).
    destruct (dec_of_nonneg_spec (n / d)) as (_ & _ & Hl & Hhi & [[? _]|Hlo]); [lia|lia|].
    set (k := Zlen (dec_of_nonneg (n / d))) in *. replace (k - 1 + 1) with k by lia. split; [|lia].
    unfold zpow_num, zpow_den. destruct (Z.leb_spec 0 (k - 1)), (Z.leb_spec 0 k); try lia.
    rewrite !Z.mul_1_r. split.
    + etransitivity; [apply Z.mul_le_mono_nonneg_l; [lia|exact Hlo]|]. apply Z.mul_div_le. lia.
    + pose proof (Z.mul_succ_div_gt n d ltac:(lia)). nia.
  - destruct (small_exp10_spec 330 n d 1) as (? & ? & ?); [lia|lia|rewrite Z.mul_1_r; lia|apply Hd|].
    set (r := small_exp10 330 n d 1) in *. clearbody r. split; [|lia]. unfold zpow_num, zpow_den.
    destruct (Z.leb_spec 0 (- r)); [lia|]. rewrite Z.opp_involutive, Z.mul_1_r. split; [done|].
    destruct (Z.leb_spec 0 (- r + 1)).
    + replace (- r + 1) with 0 by lia. lia.
    + replace (- (- r + 1)) with (r - 1) by lia. lia.
Qed.

Lemma rdiv_le n d k : 0 <= n -> 0 < d -> n <= k * d -> rdiv n d <= k.
Proof.
  intros Hn Hd Hk. unfold rdiv. assert (n / d <= k) by (apply Z.div_le_upper_bound; lia).
  case_bool; [done|]. assert (n / d <> k); [|lia]. intros E. pose proof (Z.div_mod n d ltac:(lia)) as Hdm.
  pose proof (Z.mod_pos_bound n d Hd). rewrite E in *. assert (n mod d = 0) by nia. lia.
Qed.
Lemma rdiv_ge n d k : 0 < d -> k * d <= n -> k <= rdiv n d.
Proof. intros Hd Hk. unfold rdiv. assert (k <= n / d) by (apply Z.div_le_lower_bound; lia). case_bool; lia. Qed.

(** Scaling by [10 ^ (13 - x)] gives 14 digits before rounding. *)
Lemma scale_14 n d x :
  0 < n -> 0 < d -> exp10_ok n d x ->
  10 ^ 13 * (d * zpow_den 10 (13 - x)) <= n * zpow_num 10 (13 - x) < 10 ^ 14 * (d * zpow_den 10 (13 - x)).
Proof.
  intros Hn Hd [Hlo Hhi]. unfold zpow_num, zpow_den in *.
  destruct (Z.leb_spec 0 x), (Z.leb_spec 0 (x + 1)), (Z.leb_spec 0 (13 - x)); try lia; rewrite ?Z.mul_1_r in *.
  - assert (10 ^ 13 = 10 ^ x * 10 ^ (13 - x)) as E by (rewrite <- Z.pow_add_r by lia; f_equal; lia).
    assert (10 ^ 14 = 10 ^ (x + 1) * 10 ^ (13 - x)) as -> by (rewrite <- Z.pow_add_r by lia; f_equal; lia).
    rewrite E. assert (0 < 10 ^ (13 - x)) by (apply Z.pow_pos_nonneg; lia). nia.
  - replace (- (13 - x)) with (x - 13) by lia.
    assert (10 ^ x = 10 ^ 13 * 10 ^ (x - 13)) as Ex by (rewrite <- Z.pow_add_r by lia; f_equal; lia).
    assert (10 ^ (x + 1) = 10 ^ 14 * 10 ^ (x - 13)) as Ex1 by (rewrite <- Z.pow_add_r by lia; f_equal; lia).
    rewrite Ex in Hlo. rewrite Ex1 in Hhi. nia.
  - assert (x = -1) as -> by lia. change (- -1) with 1 in Hlo. change (-1 + 1) with 0 in Hhi. change (13 - -1) with 14. lia.
  - assert (10 ^ (13 - x) = 10 ^ 13 * 10 ^ (- x)) as -> by (rewrite <- Z.pow_add_r by lia; f_equal; lia).
    assert (10 ^ (- x) = 10 * 10 ^ (- (x + 1))) as E.
    { rewrite <- (Z.pow_1_r 10) at 2. rewrite <- Z.pow_add_r by lia. f_equal. lia. }
    rewrite E in *. nia.
Qed.

Lemma exp10_high n d : 0 < n < d * 10 ^ 331 -> 0 < d -> exp10 n d <= 331.
Proof.
  intros Hn Hd. unfold exp10. destruct (Z.leb_spec d n).
  - assert (0 <= n / d < 10 ^ 331) by (split; [apply Z.div_pos; lia|apply Z.div_lt_upper_bound; lia]).
    pose proof (dec_len (n / d) 331 ltac:(lia) ltac:(lia)). lia.
  - assert (forall fuel k, 0 <= k -> 0 <= small_exp10 fuel n d k) as Hs; [|specialize (Hs 330%nat 1); lia].
    induction fuel as [|fuel IH]; intros k Hk; cbn [small_exp10]; [done|]. case_bool; [done|]. apply IH. lia.
Qed.

Lemma fmt_pos_digits n d :
  0 < n < d * 10 ^ 331 -> 0 < d <= n * 10 ^ 331 ->
  exists digits x, fmt_pos n d = fmt_digits digits x /\ 10 ^ 13 <= digits < 10 ^ 14 /\ -331 <= x <= 332.
Proof.
  intros Hn Hd. pose proof (exp10_high n d Hn ltac:(lia)). destruct (exp10_spec n d) as [Hx Hlow]; [lia..|]. unfold fmt_pos. set (x := exp10 n d) in *.
  apply scale_14 in Hx as [Hlo Hhi]; [|lia..].
  pose proof (zpow_num_pos 10 (13 - x) ltac:(lia)). pose proof (zpow_den_pos 10 (13 - x) ltac:(lia)).
  assert (10 ^ 13 <= rdiv (n * zpow_num 10 (13 - x)) (d * zpow_den 10 (13 - x))) by (apply rdiv_ge; nia).
  assert (rdiv (n * zpow_num 10 (13 - x)) (d * zpow_den 10 (13 - x)) <= 10 ^ 14) by (apply rdiv_le; nia).
  case_bool; [exists (10 ^ 13), (x + 1); split; [done|lia]|eexists _, x; split; [reflexivity|]; lia].
Qed.

(** Digits and the four other characters of a number. *)
Definition num_char (c : Z) : bool := is_digit c || bool_decide (c ∈ [46; 101; 43; 45]).

Definition num_text (l : list Z) : Prop := Forall (fun c => num_char c = true) l.

Lemma digits_text l : Forall (fun c => is_digit c = true) l -> num_text l.
Proof. intros Hl. eapply Forall_impl; [exact Hl|]. intros c Hc. unfold num_char. by rewrite Hc. Qed.
Lemma point_frac_text l :
  Forall (fun c => is_digit c = true) l -> num_text (point_frac l) /\ Zlen (point_frac l) <= 1 + Zlen l.
Proof.
  intros Hl. destruct (strip_zeros_incl l) as [Hlen Hin]. specialize (Hin _ Hl). unfold point_frac.
  destruct (strip_zeros l); [split; [by apply Forall_nil|zlen; pose proof (Zlen_nonneg l); lia]|]. split; [|zlen; lia].
  apply Forall_cons. split; [done|by apply digits_text].
Qed.

Lemma dec_text n : 0 <= n -> num_text (dec_of_nonneg n).
Proof. intros Hn. by apply digits_text, dec_of_nonneg_spec. Qed.

Lemma fmt_digits_text digits x :
  10 ^ 13 <= digits < 10 ^ 14 -> -331 <= x <= 10 ^ 9 ->
  num_text (fmt_digits digits x) /\ Zlen (fmt_digits digits x) <= 40 /\
  exists c r, fmt_digits digits x = c :: r /\ is_digit c = true.
Proof.
  intros Hd Hx. unfold fmt_digits. destruct (Z.leb_spec (-4) x) as [Hx1|Hx1], (Z.ltb_spec x 14) as [Hx2|Hx2]; cbn [andb].
  1:{ set (p := 10 ^ (13 - x)). assert (0 < p) by (apply Z.pow_pos_nonneg; lia).
      assert (0 <= digits / p < 10 ^ 14) by (split; [apply Z.div_pos; lia|apply Z.div_lt_upper_bound; nia]).
      pose proof (dec_len (digits / p) 14 ltac:(lia) ltac:(lia)).
      destruct (dec_of_nonneg_spec (digits / p)) as (Hdig & _ & Hl & _); [lia|].
      destruct (point_frac_text (pad_digits (Z.to_nat (13 - x)) (digits mod p))) as [Ht Hlen]; [apply pad_digits_digits|].
      rewrite Zlen_pad_digits, Z2Nat.id in Hlen by lia. split; [|split].
      - apply Forall_app. split; [by apply digits_text|done].
      - zlen. lia.
      - destruct (dec_of_nonneg (digits / p)) as [|c r]; [zlen; lia|]. inversion Hdig; subst. by eexists c, _. }
  all: assert (H9 : 1 <= digits / 10 ^ 13 < 10) by (split; [apply Z.div_le_lower_bound; lia|apply Z.div_lt_upper_bound; lia]).
  all: destruct (point_frac_text (pad_digits 13 (digits mod 10 ^ 13))) as [Ht Hlen]; [apply pad_digits_digits|].
  all: rewrite Zlen_pad_digits in Hlen.
  all: assert (He : num_text (if Z.abs x <? 10 then pad_digits 2 (Z.abs x) else dec_of_nonneg (Z.abs x)) /\
      Zlen (if Z.abs x <? 10 then pad_digits 2 (Z.abs x) else dec_of_nonneg (Z.abs x)) <= 10)
    by (case_bool; (split; [by apply digits_text, pad_digits_digits || apply dec_text; lia|]);
        [rewrite Zlen_pad_digits; lia|apply dec_len; lia]).
  all: destruct He as [He1 He2]; split; [|split].
  all: try (eexists _, _; split; [reflexivity|]; apply is_digit_spec; lia).
  all: try (zlen; lia).
  all: apply Forall_app; split; [apply Forall_singleton; unfold num_char; by rewrite is_digit_spec by lia|].
  all: apply Forall_app; split; [done|]; apply Forall_app; split; [|done].
  all: apply Forall_cons; split; [done|]; apply Forall_singleton; by case_bool.
Qed.

Lemma d_frac_range v : 0 <= d_frac v < 2 ^ 52.
Proof. unfold d_frac. rewrite Z.land_ones by lia. apply Z.mod_pos_bound. lia. Qed.
Lemma d_exp_range v : 0 <= d_exp v < 2048.
Proof. unfold d_exp. change 2047 with (Z.ones 11). rewrite Z.land_ones by lia. apply Z.mod_pos_bound. lia. Qed.

(** The fraction a finite non-zero double stands for is within range. *)
Lemma finite_bounds v :
  d_isnan v = false -> d_isinf v = false -> d_iszero v = false ->
  let n := d_mant v * zpow_num 2 (d_pow v) in
  let d := zpow_den 2 (d_pow v) in
  0 < n < d * 10 ^ 331 /\ 0 < d <= n * 10 ^ 331.
Proof.
  intros Hnan Hinf Hz. unfold d_isnan, d_isinf, d_iszero in *. pose proof (d_frac_range v). pose proof (d_exp_range v).
  assert (d_exp v <> 2047). { intros E. rewrite E in *. by destruct (d_frac v =? 0). }
  assert (Hm : 0 < d_mant v < 2 ^ 53).
  { unfold d_mant. destruct (Z.eqb_spec (d_exp v) 0); [|lia]. destruct (Z.eqb_spec (d_frac v) 0); [done|lia]. }
  assert (Hp : -1074 <= d_pow v <= 971).
  { unfold d_pow. destruct (Z.eqb_spec (d_exp v) 0); lia. }
  assert (2 ^ 1074 <= 10 ^ 331) by (by apply Z.leb_le; vm_compute). assert (2 ^ 53 * 2 ^ 971 <= 10 ^ 331) by (by apply Z.leb_le; vm_compute).
  assert (2 ^ 53 <= 10 ^ 331) by (by apply Z.leb_le; vm_compute).
  set (K := 10 ^ 331) in *. clearbody K. cbv zeta.
  unfold zpow_num, zpow_den. destruct (Z.leb_spec 0 (d_pow v)).
  - assert (2 ^ d_pow v <= 2 ^ 971) by (apply Z.pow_le_mono_r; lia).
    assert (0 < 2 ^ d_pow v) by (apply Z.pow_pos_nonneg; lia). set (P := 2 ^ d_pow v) in *. set (Q := 2 ^ 971) in *.
    clearbody P Q. nia.
  - assert (2 ^ (- d_pow v) <= 2 ^ 1074) by (apply Z.pow_le_mono_r; lia).
    assert (0 < 2 ^ (- d_pow v)) by (apply Z.pow_pos_nonneg; lia). set (P := 2 ^ (- d_pow v)) in *. set (Q := 2 ^ 1074) in *.
    clearbody P Q. nia.
Qed.

(** A finite double prints as an optional minus sign and a text starting with a
    digit, of at most 41 characters from the number alphabet. *)
Lemma fmt_14g_text v :
  d_isnan v = false -> d_isinf v = false ->
  num_text (fmt_14g v) /\ Zlen (fmt_14g v) <= 41 /\
  exists c r, fmt_14g v = (if d_neg v then [45] else []) ++ c :: r /\ is_digit c = true.
Proof.
  intros Hnan Hinf. unfold fmt_14g. rewrite Hnan, Hinf.
  assert (num_text (if d_iszero v then [48] else fmt_pos (d_mant v * zpow_num 2 (d_pow v)) (zpow_den 2 (d_pow v))) /\
    Zlen (if d_iszero v then [48] else fmt_pos (d_mant v * zpow_num 2 (d_pow v)) (zpow_den 2 (d_pow v))) <= 40 /\
    exists c r, (if d_iszero v then [48] else fmt_pos (d_mant v * zpow_num 2 (d_pow v)) (zpow_den 2 (d_pow v))) = c :: r /\
      is_digit c = true) as (Ht & Hl & c & r & E & Hc).
  { destruct (d_iszero v) eqn:Hz.
    - split; [by apply Forall_singleton|]. split; [done|]. by exists 48, [].
    - destruct (fmt_pos_digits (d_mant v * zpow_num 2 (d_pow v)) (zpow_den 2 (d_pow v))) as (digits & x & -> & Hd & Hx);
        [by apply finite_bounds..|]. apply fmt_digits_text; lia. }
  split; [|split].
  - apply Forall_app. split; [|done]. destruct (d_neg v); [by apply Forall_singleton|by apply Forall_nil].
  - rewrite Zlen_app. destruct (d_neg v); zlen; lia.
  - exists c, r. by rewrite E.
Qed.

(** ** Integers of up to 14 digits are exact *)

(** The double of a positive integer below [2 ^ 53]. *)
Lemma d_of_small z :
  0 < z < 2 ^ 53 ->
  let k := 52 - Z.log2 z in
  0 <= k <= 52 /\ 2 ^ 52 <= z * 2 ^ k < 2 ^ 53 /\ d_round z 1 = (1074 - k) * 2 ^ 52 + z * 2 ^ k.
Proof.
  intros Hz k. pose proof (Z.log2_spec z ltac:(lia)) as [Hlo Hhi]. pose proof (Z.log2_nonneg z).
  assert (Hk : 0 <= k <= 52). { unfold k. assert (Z.log2 z < 53) by (apply Z.log2_lt_pow2; lia). lia. }
  assert (E52 : 2 ^ 52 = 2 ^ Z.log2 z * 2 ^ k) by (rewrite <- Z.pow_add_r by lia; f_equal; unfold k; lia).
  assert (E53 : 2 ^ 53 = 2 ^ Z.succ (Z.log2 z) * 2 ^ k) by (rewrite <- Z.pow_add_r by lia; f_equal; unfold k; lia).
  assert (0 < 2 ^ k) by (apply Z.pow_pos_nonneg; lia).
  assert (Hm : 2 ^ 52 <= z * 2 ^ k < 2 ^ 53) by (rewrite E52, E53; nia). split; [done|]. split; [done|].
  assert (Ek : Z.log2 z - 0 - 52 = - k) by (unfold k; lia). clearbody k.
  assert (Hs : d_scale z 1 = - k).
  { unfold d_scale. change (Z.log2 1) with 0. rewrite Ek. unfold zpow_num, zpow_den. rewrite Z.opp_involutive.
    destruct (Z.leb_spec 0 (- k)).
    - assert (k = 0) as -> by lia. change (2 ^ (- 0)) with 1. change (2 ^ 0) with 1 in *.
      destruct (Z.ltb_spec (z * 1) (2 ^ 52 * 1 * 1)); lia.
    - rewrite Z.mul_1_r. destruct (Z.ltb_spec (z * 2 ^ k) (2 ^ 52 * 1)); lia. }
  unfold d_round. rewrite Hs. unfold zpow_num, zpow_den. rewrite Z.opp_involutive.
  assert (Hr : rdiv (z * 2 ^ k) 1 = z * 2 ^ k) by (rewrite <- (Z.mul_1_r (z * 2 ^ k)) at 1; by apply rdiv_exact).
  assert (rdiv (z * (if 0 <=? - k then 1 else 2 ^ k)) (1 * (if 0 <=? - k then 2 ^ (- k) else 1)) = z * 2 ^ k) as ->.
  { destruct (Z.leb_spec 0 (- k)) as [Hk0|Hk0]; [|by rewrite Z.mul_1_r].
    assert (k = 0) as -> by lia. exact Hr. }
  unfold d_inf. lia.
Qed.

(** The fields of that double. *)
Lemma d_of_small_fields z k :
  0 <= k <= 52 -> 2 ^ 52 <= z * 2 ^ k < 2 ^ 53 ->
  let v := (1074 - k) * 2 ^ 52 + z * 2 ^ k in
  d_exp v = 1075 - k /\ d_frac v = z * 2 ^ k - 2 ^ 52 /\ d_neg v = false /\
  d_exp (v + 2 ^ 63) = 1075 - k /\ d_frac (v + 2 ^ 63) = z * 2 ^ k - 2 ^ 52 /\ d_neg (v + 2 ^ 63) = true.
Proof.
  intros Hk Hm v. set (m := z * 2 ^ k) in *. clearbody m. assert (Hv : v = (1075 - k) * 2 ^ 52 + (m - 2 ^ 52)) by (unfold v; lia).
  assert (E : forall w, d_exp w = (w / 2 ^ 52) mod 2 ^ 11).
  { intros w. unfold d_exp. rewrite Z.shiftr_div_pow2 by lia. change 2047 with (Z.ones 11). by rewrite Z.land_ones. }
  assert (F : forall w, d_frac w = w mod 2 ^ 52) by (intros w; unfold d_frac; by rewrite Z.land_ones).
  assert (G : forall w, 0 <= w < 2 ^ 64 -> d_neg w = (2 ^ 63 <=? w)).
  { intros w Hw. unfold d_neg. apply eq_true_iff_eq. rewrite Z.leb_le, Z.testbit_true by lia. dmlia. }
  rewrite !E, !F, !G by (rewrite Hv; lia). rewrite Hv. repeat split; dmlia.
Qed.

Lemma strip_pad_zero k : strip_zeros (pad_digits k 0) = [].
Proof.
  assert (H : Forall (fun c => c = 48) (pad_digits k 0)).
  { induction k as [|k IH]; [by apply Forall_nil|]. cbn [pad_digits]. apply Forall_app. split; [exact IH|by apply Forall_singleton]. }
  induction H as [|c l -> _ IH]; [done|]. cbn [strip_zeros]. by rewrite IH.
Qed.

Lemma fmt_pos_int z d : 0 < z < 10 ^ 14 -> 0 < d -> fmt_pos (z * d) d = dec_of_nonneg z.
Proof.
  intros Hz Hd. unfold fmt_pos, exp10. destruct (Z.leb_spec d (z * d)); [|nia]. rewrite Z.div_mul by lia.
  destruct (dec_of_nonneg_spec z) as (_ & _ & Hl & Hhi & _); [lia|]. pose proof (dec_len z 14 ltac:(lia) ltac:(lia)).
  set (x := Zlen (dec_of_nonneg z) - 1). assert (Hx : 0 <= x <= 13) by (unfold x; lia).
  unfold zpow_num, zpow_den. destruct (Z.leb_spec 0 (13 - x)); [|lia]. rewrite Z.mul_1_r.
  replace (z * d * 10 ^ (13 - x)) with (z * 10 ^ (13 - x) * d) by lia. rewrite rdiv_exact by lia.
  assert (Hp : 0 < 10 ^ (13 - x)) by (apply Z.pow_pos_nonneg; lia).
  assert (E14 : 10 ^ 14 = 10 ^ Zlen (dec_of_nonneg z) * 10 ^ (13 - x)) by (rewrite <- Z.pow_add_r by lia; f_equal; unfold x; lia).
  destruct (Z.eqb_spec (z * 10 ^ (13 - x)) (10 ^ 14)) as [E|_]; [rewrite E14 in E; nia|].
  unfold fmt_digits. destruct (Z.leb_spec (-4) x), (Z.ltb_spec x 14); try lia. cbn [andb].
  rewrite Z.div_mul, Z.mod_mul by lia. unfold point_frac. rewrite strip_pad_zero. apply app_nil_r.
Qed.

Lemma take_digits_all l : forall acc n,
  Forall (fun c => is_digit c = true) l -> take_digits 10 acc n l = (dval acc l, n + Zlen l, []).
Proof.
  induction l as [|c l IH]; intros acc n Hl; cbn [take_digits]; [zlen; by rewrite Z.add_0_r|].
  apply Forall_cons in Hl as [Hc Hl]. unfold digit_of, hex_digit. rewrite Hc. unfold is_digit in Hc.
  destruct (Z.ltb_spec (c - 48) 10); [|lia]. rewrite IH by done. zlen. by replace (n + 1 + Zlen l) with (n + (1 + Zlen l)) by lia.
Qed.

Lemma strtod_magnitude_dec z : 0 < z -> strtod_magnitude (dec_of_nonneg z) = Some (d_round z 1, []).
Proof.
  intros Hz. destruct (dec_of_nonneg_spec z) as (Hd & Hv & Hl & Hhi & Hlo); [lia|].
  assert (Hm : take_mantissa 10 (dec_of_nonneg z) = Some (z, 0, [])).
  { unfold take_mantissa. rewrite take_digits_all by done. rewrite Hv, Z.add_0_l.
    destruct (Z.eqb_spec (Zlen (dec_of_nonneg z)) 0); [lia|done]. }
  assert (Hs : scaled z 10 (0 - 0) = d_round z 1).
  { unfold scaled. destruct (Z.eqb_spec z 0); [lia|]. by rewrite Z.mul_1_r. }
  unfold strtod_magnitude. rewrite Hm. cbn [take_exponent]. rewrite Hs.
  destruct (dec_of_nonneg z) as [|c r] eqn:E; [done|]. apply Forall_cons in Hd as [Hc Hr]. unfold is_digit in Hc.
  assert (Hlow : forall c, (48 <=? c) && (c <=? 57) = true -> lower c = c) by (intros x Hx; unfold lower; case_bool; lia).
  assert (Hw : forall a w, a <> c -> prefix_ci (a :: w) (c :: r) = None).
  { intros a w Hne. cbn [prefix_ci]. rewrite Hlow by done. by destruct (Z.eqb_spec c a). }
  change (lit "infinity") with (105 :: lit "nfinity"). change (lit "inf") with (105 :: lit "nf").
  change (lit "nan") with (110 :: lit "an"). rewrite !Hw by lia.
  assert (prefix_ci (lit "0x") (c :: r) = None) as ->; [|done].
  change (lit "0x") with [48; 120]. destruct (Z.eq_dec c 48) as [->|Hc0]; [|by rewrite Hw by lia].
  cbn [prefix_ci]. destruct r as [|c' r']; [done|]. apply Forall_cons in Hr as [Hc' _]. unfold is_digit in Hc'.
  change (lower 48 =? 48) with true. cbn beta iota. rewrite Hlow by done. by destruct (Z.eqb_spec c' 120); [lia|].
Qed.

(** [%.14g] prints an integer of up to 14 digits as [%d] would, and [strtod]
    reads it back exactly. *)
Lemma small_int_text z :
  - 10 ^ 14 < z < 10 ^ 14 ->
  fmt_14g (d_of_Z z) = dec_of_Z z /\ strtod (dec_of_Z z) = (d_of_Z z, []) /\
  d_isnan (d_of_Z z) = false /\ d_isinf (d_of_Z z) = false /\ (d_iszero (d_of_Z z) = true -> z = 0).
Proof.
  intros Hz. destruct (Z.eq_dec z 0) as [->|Hne]; [by vm_compute|]. set (a := Z.abs z).
  assert (Ha : 0 < a < 10 ^ 14) by (unfold a; lia).
  pose proof (d_of_small a ltac:(lia)) as (Hk & Hm & Hr). set (k := 52 - Z.log2 a) in *. clearbody k.
  destruct (d_of_small_fields a k Hk Hm) as (E1 & F1 & N1 & E2 & F2 & N2). rewrite <- Hr in *.
  assert (Hd : d_of_Z z = d_signed (z <? 0) (d_round a 1)) by (unfold d_of_Z; by destruct (Z.eqb_spec z 0)).
  assert (Hfields : d_exp (d_of_Z z) = 1075 - k /\ d_frac (d_of_Z z) = a * 2 ^ k - 2 ^ 52 /\ d_neg (d_of_Z z) = (z <? 0))
    by (rewrite Hd; by destruct (z <? 0)).
  destruct Hfields as (E & F & N).
  assert (Hnan : d_isnan (d_of_Z z) = false) by (unfold d_isnan; rewrite E; destruct (Z.eqb_spec (1075 - k) 2047); [lia|done]).
  assert (Hinf : d_isinf (d_of_Z z) = false) by (unfold d_isinf; rewrite E; destruct (Z.eqb_spec (1075 - k) 2047); [lia|done]).
  assert (Hzero : d_iszero (d_of_Z z) = false) by (unfold d_iszero; rewrite E; destruct (Z.eqb_spec (1075 - k) 0); [lia|done]).
  assert (Hmant : d_mant (d_of_Z z) = a * 2 ^ k) by (unfold d_mant; rewrite E, F; destruct (Z.eqb_spec (1075 - k) 0); lia).
  assert (Hpow : d_pow (d_of_Z z) = - k) by (unfold d_pow; rewrite E; destruct (Z.eqb_spec (1075 - k) 0); lia).
  assert (Hfmt : fmt_pos (d_mant (d_of_Z z) * zpow_num 2 (d_pow (d_of_Z z))) (zpow_den 2 (d_pow (d_of_Z z))) = dec_of_nonneg a).
  { rewrite Hmant, Hpow. unfold zpow_num, zpow_den. rewrite Z.opp_involutive. destruct (Z.leb_spec 0 (- k)).
    - assert (k = 0) as -> by lia. change (2 ^ (- 0)) with 1. change (2 ^ 0) with 1. rewrite Z.mul_1_r. by apply fmt_pos_int.
    - rewrite Z.mul_1_r. apply fmt_pos_int; [done|]. apply Z.pow_pos_nonneg; lia. }
  split; [|split; [|split; [done|split; [done|congruence]]]].
  - unfold fmt_14g. rewrite Hnan, Hinf, Hzero, N, Hfmt. unfold dec_of_Z, a. destruct (Z.ltb_spec z 0); cbn [app];
      [by rewrite Z.abs_neq by lia|by rewrite Z.abs_eq by lia].
  - rewrite Hd. unfold dec_of_Z, strtod. destruct (Z.ltb_spec z 0).
    + rewrite <- (Z.abs_neq z) by lia. fold a. by rewrite strtod_magnitude_dec by lia.
    + rewrite <- (Z.abs_eq z) by lia. fold a. pose proof (strtod_magnitude_dec a ltac:(lia)) as Hs.
      destruct (dec_of_nonneg_spec a) as (Hdig & _ & Hl & _); [lia|].
      destruct (dec_of_nonneg a) as [|c r]; [by zlen|]. apply Forall_cons in Hdig as [Hc _]. unfold is_digit in Hc.
      assert (Hs45 : forall (A : Type) (x y w : A), match c with 45 => x | 43 => y | _ => w end = w).
      { intros A x y w. repeat case_match; done || lia. }
      rewrite Hs45, Hs. done.
Qed.

(** Integers up to [2 ^ 53] are doubles. *)
Lemma d_int_of_Z z : - 2 ^ 53 <= z <= 2 ^ 53 -> d_int (d_of_Z z) = Some z.
Proof.
  intros Hz. destruct (decide (z = 0)) as [->|Hz0]; [reflexivity|].
  destruct (decide (Z.abs z = 2 ^ 53)) as [He|He].
  { assert (z = 2 ^ 53 \/ z = - 2 ^ 53) as [-> | ->] by lia; vm_compute; reflexivity. }
  destruct (d_of_small (Z.abs z)) as (Hk & Hm & Er); [lia|].
  unfold d_of_Z. replace (z =? 0) with false by lia. rewrite Er.
  set (k := 52 - Z.log2 (Z.abs z)) in *. clearbody k.
  destruct (d_of_small_fields (Z.abs z) k Hk Hm) as (E1 & F1 & N1 & E2 & F2 & N2).
  assert (Hp : 0 < 2 ^ k) by (apply Z.pow_pos_nonneg; lia).
  assert (Hgo : forall v, d_exp v = 1075 - k -> d_frac v = Z.abs z * 2 ^ k - 2 ^ 52 ->
    d_int v = Some ((if d_neg v then -1 else 1) * Z.abs z)).
  { intros v Ev Fv. unfold d_int, d_pow, d_mant. rewrite Ev, Fv.
    replace (1075 - k =? 2047) with false by lia. replace (1075 - k =? 0) with false by lia.
    replace (Z.abs z * 2 ^ k - 2 ^ 52 + 2 ^ 52) with (Z.abs z * 2 ^ k) by lia.
    replace (1075 - k - 1075) with (- k) by lia. rewrite Z.opp_involutive.
    destruct (Z.leb_spec 0 (- k)).
    - assert (k = 0) as -> by lia. do 2 f_equal. rewrite !Z.mul_1_r. done.
    - rewrite Z.mod_mul, Z.div_mul by lia. done. }
  unfold d_signed. destruct (Z.ltb_spec z 0).
  - rewrite (Hgo _ E2 F2), N2. f_equal. lia.
  - rewrite (Hgo _ E1 F1), N1. f_equal. lia.
Qed.
