(* ===== verification/Lua.v ===== *)
(** * The Lua values the C code exchanges with scripts

    Lua itself is not under src/.  What the bindings rely on is an interface: the
    value type below, and the conversions of the C API as a class [LuaAPI] with
    the documented laws as fields.  Theorems hold for every instance;
    [plain_lua] is a concrete one for the witnesses. *)

From S2P Require Import Prelude Double.

(** A float is its 64-bit IEEE pattern; tables, functions and userdata are
    references, compared by identity. *)
Inductive lua_value : Type :=
  | LNil
  | LBool (b : bool)
  | LInt (n : Z)
  | LFlt (d : Z)
  | LStr (s : list Z)
  | LTable (a : positive)
  | LFun (a : positive)
  | LUserdata (a : positive).

#[export] Instance lua_value_eq_dec : EqDecision lua_value.
Proof. solve_decision. Defined.

Definition lua_isnil (v : lua_value) : bool := match v with LNil => true | _ => false end.
Definition lua_isboolean (v : lua_value) : bool := match v with LBool _ => true | _ => false end.
Definition lua_isfunction (v : lua_value) : bool := match v with LFun _ => true | _ => false end.
Definition lua_istable (v : lua_value) : bool := match v with LTable _ => true | _ => false end.
(** [lua_toboolean]: everything but [nil] and [false] is true. *)
Definition lua_toboolean (v : lua_value) : bool :=
  match v with LNil => false | LBool b => b | _ => true end.
Definition is_number (v : lua_value) : bool :=
  match v with LInt _ | LFlt _ => true | _ => false end.
Definition is_string (v : lua_value) : bool := match v with LStr _ => true | _ => false end.

Definition lua_typename (v : lua_value) : list Z :=
  match v with
  | LNil => lit "nil"
  | LBool _ => lit "boolean"
  | LInt _ | LFlt _ => lit "number"
  | LStr _ => lit "string"
  | LTable _ => lit "table"
  | LFun _ => lit "function"
  | LUserdata _ => lit "userdata"
  end.

(** The conversions of the Lua C API.  [lua_tointegerx] is [None] where the API
    reports that the value has no integer representation. *)
Class LuaAPI : Type := {
  lua_tointegerx : lua_value -> option Z;
  lua_tonumberx : lua_value -> option Z;
  lua_tolstring : lua_value -> option (list Z);
  lua_argerror : lua_value -> list Z;
  lua_tointegerx_int : forall n, lua_tointegerx (LInt n) = Some n;
  lua_tointegerx_range : forall v n, v <> LInt n -> lua_tointegerx v = Some n -> - 2 ^ 63 <= n < 2 ^ 63;
  lua_tonumberx_flt : forall d, lua_tonumberx (LFlt d) = Some d;
  lua_tonumberx_int : forall n, lua_tonumberx (LInt n) = Some (d_of_Z n);
  lua_tonumberx_range : forall v d, v <> LFlt d -> lua_tonumberx v = Some d -> 0 <= d < 2 ^ 64;
  lua_tointegerx_flt : forall d n, d_int d = Some n -> - 2 ^ 63 <= n < 2 ^ 63 -> lua_tointegerx (LFlt d) = Some n;
  lua_tonumberx_other : forall v, is_number v = false -> is_string v = false -> lua_tonumberx v = None;
  lua_tointegerx_other : forall v, is_number v = false -> is_string v = false -> lua_tointegerx v = None;
  lua_tolstring_str : forall s, lua_tolstring (LStr s) = Some s
}.

Section Conversions.
Context `{LuaAPI}.

(** [lua_tointeger] is 0 when the conversion fails. *)
Definition lua_tointeger (v : lua_value) : Z := default 0 (lua_tointegerx v).
Definition lua_isnumber (v : lua_value) : bool :=
  match lua_tonumberx v with Some _ => true | None => false end.
Definition lua_isstring (v : lua_value) : bool := is_string v || is_number v.

(** A [char *] handed to a C function ends at its first NUL. *)
Definition lua_tostring (v : lua_value) : option (list Z) := fmap (M:=option) cstr (lua_tolstring v).
Definition luaL_checkinteger (v : lua_value) : outcome Z :=
  match lua_tointegerx v with
  | Some n => Ret n
  | None => Raise (lua_argerror v)
  end.
Definition luaL_checknumber (v : lua_value) : outcome Z :=
  match lua_tonumberx v with
  | Some d => Ret d
  | None => Raise (lua_argerror v)
  end.
Definition luaL_checklstring (v : lua_value) : outcome (list Z) :=
  match lua_tolstring v with
  | Some s => Ret s
  | None => Raise (lua_argerror v)
  end.
Definition luaL_optinteger (v : lua_value) (d : Z) : outcome Z :=
  if lua_isnil v then Ret d else luaL_checkinteger v.
Definition luaL_optlstring (v : lua_value) : outcome (option (list Z)) :=
  if lua_isnil v then Ret None else s ← luaL_checklstring v; mret (Some s).

Lemma luaL_checkinteger_int n : luaL_checkinteger (LInt n) = Ret n.
Proof. unfold luaL_checkinteger. by rewrite lua_tointegerx_int. Qed.
Lemma luaL_checknumber_flt d : luaL_checknumber (LFlt d) = Ret d.
Proof. unfold luaL_checknumber. by rewrite lua_tonumberx_flt. Qed.
Lemma luaL_checklstring_str s : luaL_checklstring (LStr s) = Ret s.
Proof. unfold luaL_checklstring. by rewrite lua_tolstring_str. Qed.
End Conversions.

(** The value at stack index [i] (from 1) of a call; absent arguments read as
    [nil], which is all the bindings distinguish. *)
Definition arg (args : list lua_value) (i : nat) : lua_value := nth (i - 1) args LNil.

(** An instance without the string/number coercions. *)
Definition plain_lua : LuaAPI.
Proof.
  refine {|
    lua_tointegerx := fun v =>
      match v with
      | LInt n => Some n
      | LFlt d =>
          match d_int d with
          | Some n => if (- 2 ^ 63 <=? n) && (n <? 2 ^ 63) then Some n else None
          | None => None
          end
      | _ => None
      end;
    lua_tonumberx := fun v => match v with LFlt d => Some d | LInt n => Some (d_of_Z n) | _ => None end;
    lua_tolstring := fun v => match v with LStr s => Some s | _ => None end;
    lua_argerror := fun _ => lit "bad argument" |}; try done.
  - intros v n Hne Hv. destruct v; simplify_eq. repeat case_match; simplify_eq. lia.
  - intros v n Hne Hv. destruct v; simplify_eq. apply d_of_Z_range.
  - intros d n E Hn. rewrite E. by replace ((- 2 ^ 63 <=? n) && (n <? 2 ^ 63)) with true by lia.
  - by intros [].
  - by intros [].
Defined.
