(* ===== verification/LuafanText.v ===== *)
(** * src/luafan.c: hexadecimal and UTF-8

    [fan.data2hex], [fan.hex2data], [fan.is_valid_utf8] and [fan.sanitize_utf8],
    byte by byte as the C loops go, with checked accesses to the bytes of the
    argument and to the blocks the functions allocate.  The reference for UTF-8 is
    the encoding of the Unicode scalar values. *)

From S2P Require Import Prelude Lua Double.

(** ** UTF-8 *)

(** [p[i]], where the bytes from [p] to [end] are [l]. *)
Definition load (l : list Z) (i : Z) : outcome Z :=
  match zdrop i l with b :: _ => Ret b | [] => UB end.
Definition continuation (b : Z) : bool := Z.land b 0xC0 =? 0x80.
Definition between (lo hi b : Z) : bool := negb ((b <? lo) || (hi <? b)).

(** The number of bytes the character at the front takes, or 0. *)
Definition utf8_decode_one (l : list Z) : outcome Z :=
  b ← load l 0;
  if b <? 0x80 then Ret 1
  else if b <? 0xC2 then Ret 0
  else if b <? 0xE0 then
    if Zlen l <? 2 then Ret 0
    else
      b2 ← load l 1;
      Ret (if continuation b2 then 2 else 0)
  else if b <? 0xF0 then
    if Zlen l <? 3 then Ret 0
    else
      b2 ← load l 1;
      if negb (if b =? 0xE0 then between 0xA0 0xBF b2
               else if b =? 0xED then between 0x80 0x9F b2
               else continuation b2)
      then Ret 0
      else
        b3 ← load l 2;
        Ret (if continuation b3 then 3 else 0)
  else if b <? 0xF5 then
    if Zlen l <? 4 then Ret 0
    else
      b2 ← load l 1;
      if negb (if b =? 0xF0 then between 0x90 0xBF b2
               else if b =? 0xF4 then between 0x80 0x8F b2
               else continuation b2)
      then Ret 0
      else
        b3 ← load l 2;
        if negb (continuation b3) then Ret 0
        else
          b4 ← load l 3;
          Ret (if continuation b4 then 4 else 0)
  else Ret 0.

(** The loop over the valid characters: what is left where it stops.  Each turn
    takes at least one byte. *)
Fixpoint utf8_scan (fuel : nat) (l : list Z) : outcome (list Z) :=
  match fuel, l with
  | S fuel, _ :: _ =>
      n ← utf8_decode_one l;
      if n =? 0 then Ret l else utf8_scan fuel (zdrop n l)
  | _, _ => Ret l
  end.

Section Utf8.
Context `{LuaAPI} `{Allocator}.

(** [luaL_optlstring] with the empty string as default. *)
Definition opt_text (v : lua_value) : outcome (list Z) := o ← luaL_optlstring v; mret (default [] o).

Definition luafan_is_valid_utf8 (args : list lua_value) : outcome (list lua_value) :=
  s ← opt_text (arg args 1);
  rest ← utf8_scan (length s) s;
  mret [LBool (bool_decide (rest = []))].

(** The new text, and the capacity of its block. *)
Definition REPLACEMENT : list Z := [0xEF; 0xBF; 0xBD].
Definition no_memory : outcome (list Z * Z) := Raise (lit "out of memory in sanitize_utf8").
(** Room for [n] more bytes, and the bytes. *)
Definition sanitize_put (bytes : list Z) (out : list Z * Z) : outcome (list Z * Z) :=
  let '(text, cap) := out in
  let need := u64 (Zlen text + Zlen bytes) in
  '(text, cap) ← (if cap <? need then
                    let cap := u64 (need * 2) in
                    if negb (malloc_ok cap) then no_memory else Ret (text, cap)
                  else Ret (text, cap));
  if Zlen text + Zlen bytes <=? cap then Ret (text ++ bytes, cap) else UB.
Fixpoint sanitize_loop (fuel : nat) (l : list Z) (out : list Z * Z) : outcome (list Z * Z) :=
  match fuel, l with
  | S fuel, _ :: _ =>
      n ← utf8_decode_one l;
      if 0 <? n then out ← sanitize_put (ztake n l) out; sanitize_loop fuel (zdrop n l) out
      else out ← sanitize_put REPLACEMENT out; sanitize_loop fuel (zdrop 1 l) out
  | _, _ => Ret out
  end.

(** A number given as argument has become a string. *)
Definition luafan_sanitize_utf8 (args : list lua_value) : outcome (list lua_value) :=
  s ← opt_text (arg args 1);
  rest ← utf8_scan (length s) s;
  match rest with
  | [] => mret [if lua_isnil (arg args 1) then LNil else LStr s]
  | _ =>
      let cap := u64 (Zlen s + 16) in
      if negb (malloc_ok cap) then Raise (lit "out of memory in sanitize_utf8")
      else
        let outlen := Zlen s - Zlen rest in
        if cap <? outlen then UB
        else
          '(text, _) ← sanitize_loop (length rest) rest (ztake outlen s, cap);
          mret [LStr text]
  end.
End Utf8.

(** ** Hexadecimal *)

Definition hexdigits : list Z := lit "0123456789ABCDEF".
Definition hexdigit (n : Z) : Z := nth (Z.to_nat n) hexdigits 0.

(** [strtol] in base 16: white space, a sign, [0x], digits. *)
Definition is_space (c : Z) : bool := (c =? 32) || ((9 <=? c) && (c <=? 13)).
Definition digit16 (c : Z) : option Z :=
  if (48 <=? c) && (c <=? 57) then Some (c - 48)
  else if (65 <=? c) && (c <=? 70) then Some (c - 55)
  else if (97 <=? c) && (c <=? 102) then Some (c - 87)
  else None.
Fixpoint digits16 (acc : Z) (s : list Z) : Z :=
  match s with
  | c :: s => match digit16 c with Some d => digits16 (16 * acc + d) s | None => acc end
  | [] => acc
  end.
Fixpoint skip_spaces (s : list Z) : list Z :=
  match s with
  | c :: t => if is_space c then skip_spaces t else s
  | [] => []
  end.
Definition after_sign (s : list Z) : bool * list Z :=
  match s with
  | c :: t => if c =? 45 then (true, t) else if c =? 43 then (false, t) else (false, s)
  | [] => (false, [])
  end.
Definition after_prefix (s : list Z) : list Z :=
  match s with
  | z :: x :: d :: t =>
      if (z =? 48) && ((x =? 120) || (x =? 88)) && (match digit16 d with Some _ => true | None => false end) then d :: t else s
  | _ => s
  end.
Definition strtol16 (s : list Z) : Z :=
  let '(neg, s) := after_sign (skip_spaces (cstr s)) in
  let v := digits16 0 (after_prefix s) in
  if neg : bool then - v else v.

Definition strToChar (a b : Z) : Z := u8 (strtol16 [a; b]).

Section Hex.
Context `{LuaAPI} `{Allocator}.

(** The bytes written, up to the first NUL or the last whole pair. *)
Fixpoint hex_pairs (s : list Z) : list Z :=
  match s with
  | a :: (b :: s) => if (a =? 0) || (b =? 0) then [] else strToChar a b :: hex_pairs s
  | _ => []
  end.
(** The result is as long as the argument promises: after a NUL it is what the
    block held, up to the terminator written. *)
Definition hex2data (args : list lua_value) : outcome (list lua_value) :=
  if negb (lua_isstring (arg args 1)) then Ret []
  else
    match lua_tolstring (arg args 1) with
    | None => UB
    | Some bytes =>
        match malloc (u64 (Zlen bytes / 2 + 1)) with
        | None => Raise (lit "Memory allocation failure")
        | Some r =>
            let data := hex_pairs bytes in
            block ← mem_store (Some r) 0 (data ++ [0]);
            out ← mem_load block 0 (Zlen bytes / 2);
            mret [LStr out]
        end
    end.

(** The counter of the loop is an [int]. *)
Definition data2hex (args : list lua_value) : outcome (list lua_value) :=
  if negb (lua_isstring (arg args 1)) then Ret []
  else
    match lua_tolstring (arg args 1) with
    | None => UB
    | Some bytes =>
        if negb (malloc_ok (u64 (Zlen bytes * 2 + 1))) then Raise (lit "Memory allocation failure")
        else if 2 ^ 31 <=? Zlen bytes then UB
        else mret [LStr (flat_map (fun c => [hexdigit (Z.land (Z.shiftr c 4) 15); hexdigit (Z.land c 15)]) bytes)]
    end.
End Hex.

(** ** The reference: Unicode scalar values and their encoding *)

Definition scalar (c : Z) : Prop := 0 <= c < 0xD800 \/ 0xE000 <= c < 0x110000.
Definition utf8 (c : Z) : list Z :=
  if c <? 0x80 then [c]
  else if c <? 0x800 then [0xC0 + c / 64; 0x80 + c mod 64]
  else if c <? 0x10000 then [0xE0 + c / 4096; 0x80 + c / 64 mod 64; 0x80 + c mod 64]
  else [0xF0 + c / 262144; 0x80 + c / 4096 mod 64; 0x80 + c / 64 mod 64; 0x80 + c mod 64].
Definition utf8_text (l : list Z) : list Z := flat_map utf8 l.

Lemma continuation_spec b : is_byte b -> continuation b = (0x80 <=? b) && (b <? 0xC0).
Proof.
  intros Hb. assert (Hall : forallb (fun b => Bool.eqb (continuation b) ((0x80 <=? b) && (b <? 0xC0))) (seqZ 0 256) = true) by (vm_compute; reflexivity).
  rewrite forallb_forall in Hall. apply Bool.eqb_prop, Hall, list_elem_of_In, elem_of_seqZ. exact Hb.
Qed.
Lemma continuation_cases b : is_byte b -> (continuation b = true /\ 0x80 <= b < 0xC0) \/ (continuation b = false /\ ~ 0x80 <= b < 0xC0).
Proof.
  intros Hb. rewrite (continuation_spec b Hb). destruct ((0x80 <=? b) && (b <? 0xC0)) eqn:E; [left|right]; (split; [done|]); lia.
Qed.
Lemma between_spec lo hi b : between lo hi b = true <-> lo <= b <= hi.
Proof. unfold between. lia. Qed.

Lemma utf8_short c : scalar c -> 1 <= Zlen (utf8 c) <= 4.
Proof. intros _. unfold utf8. repeat case_match; zlen; lia. Qed.
Lemma utf8_bytes c : scalar c -> bytes_ok (utf8 c).
Proof.
  unfold scalar, utf8, bytes_ok, is_byte. intros Hc.
  repeat case_match; repeat (apply Forall_cons; split; [dmlia|]); by apply Forall_nil.
Qed.

Lemma is_byte_cont n : 0 <= n < 64 -> continuation (0x80 + n) = true.
Proof. intros Hn. rewrite continuation_spec; [lia|unfold is_byte; lia]. Qed.

Ltac first_byte := cbn [load zdrop app]; change (Z.to_nat 0) with 0%nat; cbn [drop mbind outcome_bind].
Lemma load_cons b l : load (b :: l) 0 = Ret b.
Proof. done. Qed.
Lemma load_next b l i : 0 <= i -> load (b :: l) (i + 1) = load l i.
Proof. intros Hi. unfold load, zdrop. by replace (Z.to_nat (i + 1)) with (S (Z.to_nat i)) by lia. Qed.

(** What is encoded is decoded, whatever follows. *)
Lemma decode_encode c k : scalar c -> utf8_decode_one (utf8 c ++ k) = Ret (Zlen (utf8 c)).
Proof.
  intros Hc. unfold scalar in Hc. pose proof (Zlen_nonneg k) as Hk. unfold utf8, utf8_decode_one.
  destruct (Z.ltb_spec c 0x80) as [H1'|H1']; [cbn [app]; rewrite load_cons; cbn; by replace (c <? 128) with true by lia|].
  destruct (Z.ltb_spec c 0x800) as [H2'|H2']; [|destruct (Z.ltb_spec c 0x10000) as [H3'|H3']]; cbn [app]; rewrite load_cons; cbn [mbind outcome_bind].
  - set (b := 0xC0 + c / 64). assert (Hb : 0xC2 <= b < 0xE0) by (unfold b; dmlia).
    replace (b <? 0x80) with false by lia. replace (b <? 0xC2) with false by lia. replace (b <? 0xE0) with true by lia.
    replace (Zlen (_ :: _ :: k) <? 2) with false by (zlen; lia). change 1 with (0 + 1) at 1. rewrite load_next, load_cons by lia. cbn [mbind outcome_bind].
    rewrite is_byte_cont by dmlia. done.
  - set (b := 0xE0 + c / 4096). assert (Hb : 0xE0 <= b < 0xF0) by (unfold b; dmlia).
    replace (b <? 0x80) with false by lia. replace (b <? 0xC2) with false by lia. replace (b <? 0xE0) with false by lia. replace (b <? 0xF0) with true by lia.
    replace (Zlen (_ :: _ :: _ :: k) <? 3) with false by (zlen; lia).
    change 1 with (0 + 1) at 1. rewrite load_next, load_cons by lia. cbn [mbind outcome_bind].
    assert (Hmid : (if b =? 0xE0 then between 0xA0 0xBF (0x80 + c / 64 mod 64) else if b =? 0xED then between 0x80 0x9F (0x80 + c / 64 mod 64)
      else continuation (0x80 + c / 64 mod 64)) = true).
    { unfold b. destruct (Z.eqb_spec (0xE0 + c / 4096) 0xE0); [apply between_spec; dmlia|].
      destruct (Z.eqb_spec (0xE0 + c / 4096) 0xED); [apply between_spec; dmlia|]. apply is_byte_cont. dmlia. }
    rewrite Hmid. cbn [negb]. change 2 with (0 + 1 + 1) at 1. rewrite !load_next, load_cons by lia. cbn [mbind outcome_bind].
    rewrite is_byte_cont by dmlia. done.
  - set (b := 0xF0 + c / 262144). assert (Hb : 0xF0 <= b < 0xF5) by (unfold b; dmlia).
    replace (b <? 0x80) with false by lia. replace (b <? 0xC2) with false by lia. replace (b <? 0xE0) with false by lia.
    replace (b <? 0xF0) with false by lia. replace (b <? 0xF5) with true by lia.
    replace (Zlen (_ :: _ :: _ :: _ :: k) <? 4) with false by (zlen; lia).
    change 1 with (0 + 1) at 1. rewrite load_next, load_cons by lia. cbn [mbind outcome_bind].
    assert (Hmid : (if b =? 0xF0 then between 0x90 0xBF (0x80 + c / 4096 mod 64) else if b =? 0xF4 then between 0x80 0x8F (0x80 + c / 4096 mod 64)
      else continuation (0x80 + c / 4096 mod 64)) = true).
    { unfold b. destruct (Z.eqb_spec (0xF0 + c / 262144) 0xF0); [apply between_spec; dmlia|].
      destruct (Z.eqb_spec (0xF0 + c / 262144) 0xF4); [apply between_spec; dmlia|]. apply is_byte_cont. dmlia. }
    rewrite Hmid. cbn [negb]. change 2 with (0 + 1 + 1) at 1. rewrite !load_next, load_cons by lia. cbn [mbind outcome_bind].
    rewrite is_byte_cont by dmlia. cbn [negb]. change 3 with (0 + 1 + 1 + 1) at 1. rewrite !load_next, load_cons by lia. cbn [mbind outcome_bind].
    rewrite is_byte_cont by dmlia. done.
Qed.

(** What the decoder says of bytes: a character is there, and its length. *)
Definition decoded (l : list Z) (n : Z) : Prop := 0 <= n /\ (0 < n -> exists c k, scalar c /\ l = utf8 c ++ k /\ Zlen (utf8 c) = n).

Lemma utf8_2 b b2 : 0xC2 <= b < 0xE0 -> 0x80 <= b2 < 0xC0 -> exists c, scalar c /\ utf8 c = [b; b2].
Proof.
  intros Hb H2. exists ((b - 0xC0) * 64 + (b2 - 0x80)). split; [unfold scalar; lia|]. unfold utf8.
  replace (_ <? 0x80) with false by lia. replace (_ <? 0x800) with true by lia. f_equal; [dmlia|f_equal; dmlia].
Qed.
Lemma utf8_3 b b2 b3 : 0xE0 <= b < 0xF0 -> 0x80 <= b2 < 0xC0 -> 0x80 <= b3 < 0xC0 -> (b = 0xE0 -> 0xA0 <= b2) -> (b = 0xED -> b2 < 0xA0) ->
  exists c, scalar c /\ utf8 c = [b; b2; b3].
Proof.
  intros Hb H2 H3 Hlo Hhi. exists ((b - 0xE0) * 4096 + (b2 - 0x80) * 64 + (b3 - 0x80)). split; [unfold scalar; lia|]. unfold utf8.
  replace (_ <? 0x80) with false by lia. replace (_ <? 0x800) with false by lia. replace (_ <? 0x10000) with true by lia.
  f_equal; [dmlia|f_equal; [dmlia|f_equal; dmlia]].
Qed.
Lemma utf8_4 b b2 b3 b4 : 0xF0 <= b < 0xF5 -> 0x80 <= b2 < 0xC0 -> 0x80 <= b3 < 0xC0 -> 0x80 <= b4 < 0xC0 -> (b = 0xF0 -> 0x90 <= b2) -> (b = 0xF4 -> b2 < 0x90) ->
  exists c, scalar c /\ utf8 c = [b; b2; b3; b4].
Proof.
  intros Hb H2 H3 H4 Hlo Hhi. exists ((b - 0xF0) * 262144 + (b2 - 0x80) * 4096 + (b3 - 0x80) * 64 + (b4 - 0x80)). split; [unfold scalar; lia|]. unfold utf8.
  replace (_ <? 0x80) with false by lia. replace (_ <? 0x800) with false by lia. replace (_ <? 0x10000) with false by lia.
  f_equal; [dmlia|f_equal; [dmlia|f_equal; [dmlia|f_equal; dmlia]]].
Qed.

Lemma decoded_0 l : decoded l 0.
Proof. split; [lia|lia]. Qed.
Lemma decoded_front l k n c : l = utf8 c ++ k -> scalar c -> Zlen (utf8 c) = n -> decoded l n.
Proof. intros -> Hc <-. split; [apply Zlen_nonneg|]. intros _. by exists c, k. Qed.

(** Every read is inside the argument. *)
Lemma decode_sound l : l <> [] -> bytes_ok l -> returns (utf8_decode_one l) (decoded l).
Proof.
  intros Hne Hok. destruct l as [|b l]; [done|]. apply Forall_cons in Hok as [Hb Hok]. unfold utf8_decode_one. rewrite load_cons. cbn [mbind outcome_bind].
  unfold is_byte in Hb. destruct (Z.ltb_spec b 0x80) as [L1|L1].
  { cbn. apply (decoded_front _ l 1 b); unfold scalar, utf8; replace (b <? 128) with true by lia; (done || lia). }
  destruct (Z.ltb_spec b 0xC2) as [L2|L2]; [apply decoded_0|].
  destruct (Z.ltb_spec b 0xE0) as [L3|L3]; [|destruct (Z.ltb_spec b 0xF0) as [L4|L4]; [|destruct (Z.ltb_spec b 0xF5) as [L5|L5]; [|apply decoded_0]]].
  - destruct l as [|b2 l]; [apply decoded_0|]. apply Forall_cons in Hok as [H2 Hok]. replace (Zlen (b :: b2 :: l) <? 2) with false by (zlen; pose proof (Zlen_nonneg l); lia).
    change 1 with (0 + 1). rewrite load_next, load_cons by lia. cbn [mbind outcome_bind returns].
    destruct (continuation_cases b2 H2) as [[-> R2]|[-> R2]]; [|apply decoded_0]. destruct (utf8_2 b b2) as (c & Hc & E); [lia..|].
    apply (decoded_front _ l 2 c); by rewrite ?E.
  - destruct l as [|b2 [|b3 l]]; [apply decoded_0..|]. apply Forall_cons in Hok as [H2 Hok]. apply Forall_cons in Hok as [H3 Hok].
    replace (Zlen (b :: b2 :: b3 :: l) <? 3) with false by (zlen; pose proof (Zlen_nonneg l); lia).
    change 1 with (0 + 1). rewrite load_next, load_cons by lia. cbn [mbind outcome_bind].
    destruct (negb _) eqn:En; [apply decoded_0|]. apply negb_false_iff in En. change 2 with (0 + 1 + 1). rewrite !load_next, load_cons by lia. cbn [mbind outcome_bind returns].
    destruct (continuation_cases b3 H3) as [[-> R3]|[-> R3]]; [|apply decoded_0].
    assert (R2 : 0x80 <= b2 < 0xC0 /\ (b = 0xE0 -> 0xA0 <= b2) /\ (b = 0xED -> b2 < 0xA0)).
    { destruct (Z.eqb_spec b 0xE0); [apply between_spec in En; lia|]. destruct (Z.eqb_spec b 0xED); [apply between_spec in En; lia|].
      destruct (continuation_cases b2 H2) as [[_ ?]|[? _]]; [lia|congruence]. }
    destruct R2 as (R2 & Hlo & Hhi). destruct (utf8_3 b b2 b3) as (c & Hc & E); [lia|done..|]. apply (decoded_front _ l 3 c); by rewrite ?E.
  - destruct l as [|b2 [|b3 [|b4 l]]]; [apply decoded_0..|]. apply Forall_cons in Hok as [H2 Hok]. apply Forall_cons in Hok as [H3 Hok]. apply Forall_cons in Hok as [H4 Hok].
    replace (Zlen (b :: b2 :: b3 :: b4 :: l) <? 4) with false by (zlen; pose proof (Zlen_nonneg l); lia).
    change 1 with (0 + 1). rewrite load_next, load_cons by lia. cbn [mbind outcome_bind].
    destruct (negb _) eqn:En; [apply decoded_0|]. apply negb_false_iff in En. change 2 with (0 + 1 + 1). rewrite !load_next, load_cons by lia. cbn [mbind outcome_bind].
    destruct (continuation_cases b3 H3) as [[-> R3]|[-> R3]]; [|apply decoded_0]. cbn [negb]. change 3 with (0 + 1 + 1 + 1). rewrite !load_next, load_cons by lia. cbn [mbind outcome_bind returns].
    destruct (continuation_cases b4 H4) as [[-> R4]|[-> R4]]; [|apply decoded_0].
    assert (R2 : 0x80 <= b2 < 0xC0 /\ (b = 0xF0 -> 0x90 <= b2) /\ (b = 0xF4 -> b2 < 0x90)).
    { destruct (Z.eqb_spec b 0xF0); [apply between_spec in En; lia|]. destruct (Z.eqb_spec b 0xF4); [apply between_spec in En; lia|].
      destruct (continuation_cases b2 H2) as [[_ ?]|[? _]]; [lia|congruence]. }
    destruct R2 as (R2 & Hlo & Hhi). destruct (utf8_4 b b2 b3 b4) as (c & Hc & E); [lia|done..|]. apply (decoded_front _ l 4 c); by rewrite ?E.
Qed.

(** A character at the front, or none. *)
Lemma decode_cases l : l <> [] -> bytes_ok l ->
  (exists c k, scalar c /\ l = utf8 c ++ k /\ utf8_decode_one l = Ret (Zlen (utf8 c))) \/
  ((forall c k, scalar c -> l <> utf8 c ++ k) /\ utf8_decode_one l = Ret 0).
Proof.
  intros Hne Hok. destruct (returns_inv _ _ (decode_sound l Hne Hok)) as (n & E & Hn & Hd). rewrite E.
  destruct (decide (n = 0)) as [->|Hnz].
  - right. split; [|done]. intros c k Hc ->. rewrite decode_encode in E by done. injection E as E. pose proof (utf8_short c Hc). lia.
  - left. destruct Hd as (c & k & Hc & -> & <-); [lia|]. by exists c, k.
Qed.

(** The scan stops behind the longest text of whole characters at the front. *)
Lemma scan_spec fuel : forall l, bytes_ok l -> (length l <= fuel)%nat -> exists cs rest,
  utf8_scan fuel l = Ret rest /\ l = utf8_text cs ++ rest /\ Forall scalar cs /\
  (rest = [] \/ (rest <> [] /\ forall c k, scalar c -> rest <> utf8 c ++ k)).
Proof.
  induction fuel as [|fuel IH]; intros l Hok Hl.
  - destruct l; [|cbn in Hl; lia]. exists [], []. cbn. auto.
  - destruct l as [|b l]; [exists [], []; cbn; auto|]. cbn [utf8_scan].
    destruct (decode_cases (b :: l)) as [(c & k & Hc & El & ->)|[Hno ->]]; [done|done| |].
    + cbn [mbind outcome_bind]. pose proof (utf8_short c Hc) as Hs. replace (Zlen (utf8 c) =? 0) with false by lia.
      rewrite El, zdrop_app_exact by done. rewrite El in Hok, Hl. apply Forall_app in Hok as [_ Hok]. rewrite length_app in Hl. unfold Zlen in Hs.
      destruct (IH k Hok ltac:(lia)) as (cs & rest & -> & -> & Hcs & Hend). exists (c :: cs), rest. split; [done|]. split; [by rewrite app_assoc|]. split; [by constructor|done].
    + cbn. exists [], (b :: l). split; [done|]. split; [done|]. split; [done|]. by right.
Qed.
Lemma utf8_text_app l k : utf8_text (l ++ k) = utf8_text l ++ utf8_text k.
Proof. apply flat_map_app. Qed.
Lemma utf8_text_rest cs ds rest : Forall scalar cs -> Forall scalar ds -> utf8_text cs = utf8_text ds ++ rest ->
  (rest = [] \/ (rest <> [] /\ forall c k, scalar c -> rest <> utf8 c ++ k)) -> rest = [].
Proof.
  intros Hcs Hds. revert cs Hcs. induction Hds as [|d ds Hd Hds IH]; intros cs Hcs E Hend.
  - cbn in E. destruct Hend as [|[Hne Hno]]; [done|]. destruct Hcs as [|c cs Hc Hcs]; [done|]. cbn in E. by destruct (Hno c (utf8_text cs) Hc).
  - destruct Hcs as [|c cs Hc Hcs]; cbn in E.
    + exfalso. pose proof (utf8_short d Hd) as Hs. apply (f_equal length) in E. rewrite !length_app in E. cbn in E. unfold Zlen in Hs. lia.
    + change (utf8 c ++ utf8_text cs = (utf8 d ++ utf8_text ds) ++ rest) in E. assert (Hp : utf8 c = utf8 d).
      { pose proof (decode_encode c (utf8_text cs) Hc) as E1. rewrite E, <- app_assoc, decode_encode in E1 by done. injection E1 as E1.
        apply (f_equal (ztake (Zlen (utf8 c)))) in E. rewrite ztake_app_exact in E by done. by rewrite <- app_assoc, ztake_app_exact in E by done. }
      rewrite Hp, <- app_assoc in E. apply app_inv_head in E. by apply (IH cs).
Qed.

(** The repair of a text: whole characters stay, and every other byte at which no
    character starts becomes a replacement character. *)
Inductive repaired : list Z -> list Z -> Prop :=
  | rep_nil : repaired [] []
  | rep_char c s out : scalar c -> repaired s out -> repaired (utf8 c ++ s) (utf8 c ++ out)
  | rep_byte b s out : (forall c k, scalar c -> b :: s <> utf8 c ++ k) -> repaired s out -> repaired (b :: s) (REPLACEMENT ++ out).

Lemma replacement_char : scalar 0xFFFD /\ utf8 0xFFFD = REPLACEMENT.
Proof. split; [unfold scalar; lia|reflexivity]. Qed.
Lemma repaired_text s out : repaired s out -> exists cs, Forall scalar cs /\ out = utf8_text cs.
Proof.
  induction 1 as [|c s out Hc _ (cs & Hcs & ->)|b s out _ _ (cs & Hcs & ->)].
  - by exists [].
  - exists (c :: cs). split; [by constructor|done].
  - exists (0xFFFD :: cs). split; [constructor; [apply replacement_char|done]|]. done.
Qed.
Lemma repaired_valid cs s out : Forall scalar cs -> repaired s out -> repaired (utf8_text cs ++ s) (utf8_text cs ++ out).
Proof. intros Hcs Hr. induction Hcs as [|c cs Hc Hcs IH]; [done|]. cbn [utf8_text flat_map]. rewrite <- !app_assoc. by constructor. Qed.

Section Sanitize.
Context `{Allocator}.

(** Some allocation of at most [B] bytes fails. *)
Definition short_of (B : Z) : Prop := exists n, 0 <= n <= B /\ malloc n = None.
Definition or_short {A} (B : Z) (r : outcome A) (P : A -> Prop) : Prop :=
  match r with Ret x => P x | Raise _ => short_of B | UB => False end.
Lemma or_short_bind {A C} B (r : outcome A) (f : A -> outcome C) P Q :
  or_short B r P -> (forall x, P x -> or_short B (f x) Q) -> or_short B (r ≫= f) Q.
Proof. destruct r; cbn; auto. Qed.
Lemma or_short_mono {A} B (r : outcome A) (P Q : A -> Prop) : or_short B r P -> (forall x, P x -> Q x) -> or_short B r Q.
Proof. destruct r; cbn; auto. Qed.

Lemma put_spec B bytes text cap : Zlen text <= cap -> 0 < Zlen bytes -> 2 * (Zlen text + Zlen bytes) <= B -> B < 2 ^ 62 ->
  or_short B (sanitize_put bytes (text, cap)) (fun '(t, c) => t = text ++ bytes /\ Zlen t <= c).
Proof.
  intros Hc Hb HB HB2. pose proof (Zlen_nonneg text). unfold sanitize_put. rewrite u64_small by lia.
  destruct (Z.ltb_spec cap (Zlen text + Zlen bytes)).
  - rewrite u64_small by lia. unfold malloc_ok. destruct (malloc _) as [blk|] eqn:E; cbn [mbind outcome_bind negb].
    + replace (_ <=? _) with true by lia. cbn. split; [done|]. zlen. lia.
    + cbn. exists ((Zlen text + Zlen bytes) * 2). split; [lia|done].
  - cbn [mbind outcome_bind]. replace (_ <=? _) with true by lia. cbn. split; [done|]. zlen. lia.
Qed.
Lemma sanitize_loop_spec B fuel : forall l text cap, bytes_ok l -> (length l <= fuel)%nat -> Zlen text <= cap -> 2 * (Zlen text + 3 * Zlen l) <= B -> B < 2 ^ 62 ->
  or_short B (sanitize_loop fuel l (text, cap)) (fun '(t, _) => exists out, t = text ++ out /\ repaired l out).
Proof.
  induction fuel as [|fuel IH]; intros l text cap Hok Hl Hc HB HB2.
  - destruct l; [|cbn in Hl; lia]. cbn. exists []. rewrite app_nil_r. split; [done|constructor].
  - destruct l as [|b l]; [cbn; exists []; rewrite app_nil_r; split; [done|constructor]|]. cbn [sanitize_loop].
    destruct (decode_cases (b :: l)) as [(c & k & Hs & El & ->)|[Hno ->]]; [done|done| |]; cbn [mbind outcome_bind].
    + pose proof (utf8_short c Hs) as Hu. replace (0 <? Zlen (utf8 c)) with true by lia. rewrite El in *. rewrite ztake_app_exact, zdrop_app_exact by done.
      apply Forall_app in Hok as [_ Hok]. rewrite length_app in Hl. rewrite Zlen_app in HB. pose proof (Zlen_nonneg k).
      eapply or_short_bind; [apply (put_spec B); lia|]. intros [t c'] [-> Hc']. unfold Zlen in Hu.
      eapply or_short_mono; [apply IH; [done|lia|done|rewrite Zlen_app; unfold Zlen in *; lia|done]|].
      intros [t _] (out & -> & Hr). exists (utf8 c ++ out). rewrite <- app_assoc. split; [done|]. by constructor.
    + cbn [Z.ltb Z.compare]. change (zdrop 1 (b :: l)) with l. apply Forall_cons in Hok as [_ Hok]. rewrite Zlen_cons in HB. pose proof (Zlen_nonneg l).
      eapply or_short_bind; [apply (put_spec B); [done|done| |done]; change (Zlen REPLACEMENT) with 3; lia|]. intros [t c'] [-> Hc'].
      eapply or_short_mono; [apply IH; [done|cbn in Hl; lia|done|rewrite Zlen_app; change (Zlen REPLACEMENT) with 3; lia|done]|].
      intros [t _] (out & -> & Hr). exists (REPLACEMENT ++ out). rewrite <- app_assoc. split; [done|]. by constructor.
Qed.
End Sanitize.

Section Theorems.
Context `{LuaAPI} `{Allocator}.

Lemma opt_text_str s : opt_text (LStr s) = Ret s.
Proof. unfold opt_text, luaL_optlstring. cbn [lua_isnil]. by rewrite luaL_checklstring_str. Qed.

Lemma valid_iff s : bytes_ok s -> exists b, luafan_is_valid_utf8 [LStr s] = Ret [LBool b] /\ (b = true <-> exists cs, Forall scalar cs /\ s = utf8_text cs).
Proof.
  intros Hok. unfold luafan_is_valid_utf8. cbn [arg nth Nat.sub]. rewrite opt_text_str. cbn [mbind outcome_bind].
  destruct (scan_spec (length s) s Hok ltac:(lia)) as (cs & rest & -> & -> & Hcs & Hend). cbn. eexists. split; [done|].
  rewrite bool_decide_eq_true. split.
  - intros ->. exists cs. by rewrite app_nil_r.
  - intros (ds & Hds & E). symmetry in E. by apply (utf8_text_rest ds cs rest Hds Hcs E).
Qed.

(** C22: [fan.is_valid_utf8] is equivalent to the definition of UTF-8: it answers
    [true] exactly for the encodings of sequences of Unicode scalar values, so
    overlong forms, surrogates, values beyond 10FFFF, stray and missing
    continuation bytes are all refused; it reads no byte outside its argument. *)
Theorem is_valid_utf8_iff s : bytes_ok s ->
  exists b, luafan_is_valid_utf8 [LStr s] = Ret [LBool b] /\ (b = true <-> exists cs, Forall scalar cs /\ s = utf8_text cs).
Proof. apply valid_iff. Qed.

(** [fan.sanitize_utf8] answers valid UTF-8 for every string: the whole
    characters of its argument, in order, with a replacement character U+FFFD in
    place of each byte at which none starts; a valid text is returned unchanged,
    and so is the result when it is sanitized again.  It stays inside its blocks
    whatever [realloc] answers, and raises an error only for lack of memory. *)
Theorem sanitize_utf8_repairs s : bytes_ok s -> 6 * Zlen s + 16 < 2 ^ 62 ->
  or_short (6 * Zlen s + 16) (luafan_sanitize_utf8 [LStr s]) (fun r => exists out, r = [LStr out] /\ repaired s out /\
    (exists cs, Forall scalar cs /\ out = utf8_text cs) /\
    ((exists cs, Forall scalar cs /\ s = utf8_text cs) -> out = s) /\
    luafan_sanitize_utf8 [LStr out] = Ret [LStr out]).
Proof.
  assert (Hvalid : forall cs, Forall scalar cs -> luafan_sanitize_utf8 [LStr (utf8_text cs)] = Ret [LStr (utf8_text cs)]).
  { intros cs Hcs. assert (Hok : bytes_ok (utf8_text cs)) by (induction Hcs as [|c cs Hc Hcs IH]; [by apply Forall_nil|apply Forall_app; split; [by apply utf8_bytes|done]]).
    unfold luafan_sanitize_utf8. cbn [arg nth Nat.sub]. rewrite opt_text_str. cbn [mbind outcome_bind].
    destruct (scan_spec (length (utf8_text cs)) (utf8_text cs) Hok ltac:(lia)) as (ds & rest & -> & E & Hds & Hend).
    by rewrite (utf8_text_rest cs ds rest Hcs Hds E Hend). }
  intros Hok HB. pose proof (Zlen_nonneg s) as Hs. unfold luafan_sanitize_utf8 at 1. cbn [arg nth Nat.sub]. rewrite opt_text_str. cbn [mbind outcome_bind lua_isnil].
  destruct (scan_spec (length s) s Hok ltac:(lia)) as (cs & rest & -> & E & Hcs & Hend). cbn [mbind outcome_bind].
  destruct rest as [|b rest].
  { cbn. rewrite app_nil_r in E. subst s. exists (utf8_text cs). split; [done|]. split; [|split; [by exists cs|split; [done|by apply Hvalid]]].
    rewrite <- (app_nil_r (utf8_text cs)) at 1 2. apply repaired_valid; [done|constructor]. }
  destruct Hend as [|[Hne Hno]]; [done|]. rewrite u64_small by lia. unfold malloc_ok. destruct (malloc (Zlen s + 16)) eqn:Em; cbn [negb]; [|cbn; exists (Zlen s + 16); split; [lia|done]].
  assert (Hlen : Zlen s - Zlen (b :: rest) = Zlen (utf8_text cs)) by (rewrite E, Zlen_app; lia). rewrite Hlen.
  assert (Hle : Zlen (utf8_text cs) + Zlen (b :: rest) = Zlen s) by lia. pose proof (Zlen_nonneg (b :: rest)). pose proof (Zlen_nonneg (utf8_text cs)).
  replace (_ <? _) with false by lia. assert (Ht : ztake (Zlen (utf8_text cs)) s = utf8_text cs) by (rewrite E; by apply ztake_app_exact). rewrite Ht. assert (Hok2 : bytes_ok (b :: rest)) by (rewrite E in Hok; by apply Forall_app in Hok as [_ ?]).
  eapply or_short_bind; [apply (sanitize_loop_spec (6 * Zlen s + 16)); [done|lia|lia|lia|lia]|]. intros [t c] (out & -> & Hr). cbn.
  exists (utf8_text cs ++ out). split; [done|]. assert (Hall : repaired s (utf8_text cs ++ out)) by (rewrite E; by apply repaired_valid).
  split; [done|]. destruct (repaired_text _ _ Hall) as (ds & Hds & Eo). split; [by exists ds|]. split; [|rewrite Eo; by apply Hvalid].
  intros (es & Hes & Es). exfalso. rewrite E in Es. symmetry in Es.
  pose proof (utf8_text_rest es cs (b :: rest) Hes Hcs Es ltac:(by right)). done.
Qed.

(** ** Hexadecimal *)

Definition hex_of (s : list Z) : list Z := flat_map (fun c => [hexdigit (Z.land (Z.shiftr c 4) 15); hexdigit (Z.land c 15)]) s.

Lemma byte_pair c : is_byte c -> let a := hexdigit (Z.land (Z.shiftr c 4) 15) in let b := hexdigit (Z.land c 15) in
  strToChar a b = c /\ a <> 0 /\ b <> 0.
Proof.
  intros Hc. assert (Hall : forallb (fun c => let a := hexdigit (Z.land (Z.shiftr c 4) 15) in let b := hexdigit (Z.land c 15) in
    (strToChar a b =? c) && negb (a =? 0) && negb (b =? 0)) (seqZ 0 256) = true) by (vm_compute; reflexivity).
  rewrite forallb_forall in Hall. specialize (Hall c). cbn zeta in Hall |- *. assert (Hin : In c (seqZ 0 256)) by (by apply list_elem_of_In, elem_of_seqZ).
  apply Hall in Hin. apply andb_true_iff in Hin as [Hin H3]. apply andb_true_iff in Hin as [H1' H2'].
  apply Z.eqb_eq in H1'. apply negb_true_iff, Z.eqb_neq in H2', H3. done.
Qed.
Lemma hex_pairs_back s t : bytes_ok s -> hex_pairs (hex_of s ++ t) = s ++ hex_pairs t.
Proof.
  intros Hok. induction Hok as [|c s Hc Hok IH]; [done|]. destruct (byte_pair c Hc) as (E & Ha & Hb). apply Z.eqb_neq in Ha, Hb. cbn [hex_of flat_map app hex_pairs].
  rewrite Ha, Hb. cbn [orb]. rewrite E. f_equal. apply IH.
Qed.
Lemma hex_of_len s : Zlen (hex_of s) = 2 * Zlen s.
Proof. induction s as [|c s IH]; [done|]. change (hex_of (c :: s)) with ([hexdigit (Z.land (Z.shiftr c 4) 15); hexdigit (Z.land c 15)] ++ hex_of s). zlen. lia. Qed.

(** What [hex2data] makes of any string, in the block it is given. *)
Lemma hex2data_block b r : Zlen b < 2 ^ 62 -> Zlen (hex_pairs b) <= Zlen b / 2 -> malloc (Zlen b / 2 + 1) = Some r ->
  hex2data [LStr b] = Ret [LStr (ztake (Zlen b / 2) (hex_pairs b ++ [0] ++ zdrop (Zlen (hex_pairs b) + 1) r))].
Proof.
  intros Hb Hp Hr. pose proof (Zlen_nonneg b). pose proof (Zlen_nonneg (hex_pairs b)). unfold hex2data. cbn [arg nth Nat.sub lua_isstring is_string orb negb].
  rewrite lua_tolstring_str. rewrite u64_small by dmlia. rewrite Hr. assert (Hl : Zlen r = Zlen b / 2 + 1) by (apply malloc_len; [dmlia|done]).
  assert (Hz : Zlen (hex_pairs b ++ [0]) = Zlen (hex_pairs b) + 1) by (zlen; lia).
  unfold mem_store. rewrite Hz. replace (_ =? 0) with false by lia. cbn [Z.leb Z.compare andb]. rewrite Z.add_0_l. replace (_ <=? Zlen r) with true by lia.
  cbn [mbind outcome_bind]. rewrite ztake_0. cbn [app]. rewrite <- app_assoc. set (blk := hex_pairs b ++ [0] ++ _).
  assert (Hblk : Zlen blk = Zlen b / 2 + 1) by (unfold blk; rewrite !Zlen_app, Zlen_zdrop by lia; change (Zlen [0]) with 1; lia).
  unfold mem_load. destruct (Z.eqb_spec (Zlen b / 2) 0) as [->|Hn]; [by rewrite ztake_0|]. cbn [Z.leb Z.compare andb]. rewrite Z.add_0_l, Hblk.
  replace (0 <=? Zlen b / 2) with true by (symmetry; apply Z.leb_le; dmlia). replace (Zlen b / 2 <=? Zlen b / 2 + 1) with true by lia. cbn. by rewrite zdrop_0.
Qed.

(** Hexadecimal text round trips: for every string below 2 GiB [fan.data2hex]
    gives two digits per byte, in upper case, and [fan.hex2data] of them the string
    again.  When text contains a NUL, [fan.hex2data] stops there but still answers
    half as many bytes as the text has: behind the terminator they are what the
    allocated memory held before. *)
Theorem hex_roundtrip M s : mem_upto M -> bytes_ok s -> Zlen s < 2 ^ 31 ->
  (2 * Zlen s + 1 <= M -> data2hex [LStr s] = Ret [LStr (hex_of s)] /\ hex2data [LStr (hex_of s)] = Ret [LStr s]) /\
  (forall q r, Zlen q < 2 ^ 31 -> malloc (Zlen (hex_of s ++ 0 :: q) / 2 + 1) = Some r ->
     hex2data [LStr (hex_of s ++ 0 :: q)] = Ret [LStr (ztake (Zlen (hex_of s ++ 0 :: q) / 2) (s ++ [0] ++ zdrop (Zlen s + 1) r))]).
Proof.
  intros HM Hok Hl. pose proof (Zlen_nonneg s). split.
  - intros Hm. split.
    + unfold data2hex. cbn [arg nth Nat.sub lua_isstring is_string orb negb]. rewrite lua_tolstring_str, u64_small by lia.
      unfold malloc_ok. destruct (malloc (Zlen s * 2 + 1)) eqn:E; cbn [negb]; [|by destruct (HM (Zlen s * 2 + 1)); [lia|]]. by replace (_ <=? _) with false by lia.
    + assert (Hhalf : Zlen (hex_of s) / 2 = Zlen s) by (rewrite hex_of_len; dmlia). pose proof (hex_pairs_back s [] Hok) as Hp. rewrite !app_nil_r in Hp.
      destruct (malloc (Zlen s + 1)) as [r|] eqn:E; [|by destruct (HM (Zlen s + 1)); [lia|]].
      rewrite (hex2data_block (hex_of s) r); [|rewrite hex_of_len; lia|rewrite Hp, Hhalf; lia|by rewrite Hhalf]. rewrite Hp, Hhalf. by rewrite ztake_app_exact.
  - intros q r Hq Hr. pose proof (hex_pairs_back s (0 :: q) Hok) as Hp. assert (H0' : hex_pairs (0 :: q) = []) by (by destruct q).
    rewrite H0', app_nil_r in Hp. pose proof (Zlen_nonneg q).
    assert (Hb : Zlen (hex_of s ++ 0 :: q) = 2 * Zlen s + 1 + Zlen q) by (rewrite Zlen_app, Zlen_cons, hex_of_len; lia).
    rewrite (hex2data_block _ r); [by rewrite Hp|lia|rewrite Hp, Hb; dmlia|done].
Qed.
End Theorems.

Module TextSample.
#[export] Existing Instances plain_lua zero_alloc.
End TextSample.

Import TextSample.

(** The euro sign, and a surrogate. *)
Lemma is_valid_utf8_iff_witness : luafan_is_valid_utf8 [LStr [0xE2; 0x82; 0xAC]] = Ret [LBool true] /\
  luafan_is_valid_utf8 [LStr [0xED; 0xA0; 0x80]] = Ret [LBool false].
Proof.
  destruct (is_valid_utf8_iff [0xE2; 0x82; 0xAC]) as (b & E & Hb); [repeat constructor; discriminate|].
  destruct (is_valid_utf8_iff [0xED; 0xA0; 0x80]) as (b' & E' & _); [repeat constructor; discriminate|]. split.
  - rewrite E. do 2 f_equal. f_equal. apply Hb. exists [0x20AC]. split; [repeat constructor; unfold scalar; lia|reflexivity].
  - rewrite E'. vm_compute in E'. injection E' as <-. reflexivity.
Defined.
Lemma sanitize_utf8_repairs_witness : luafan_sanitize_utf8 [LStr [65; 0xFF; 66]] = Ret [LStr [65; 0xEF; 0xBF; 0xBD; 66]].
Proof.
  pose proof (sanitize_utf8_repairs [65; 0xFF; 66]) as Hs. specialize (Hs ltac:(repeat constructor; discriminate) ltac:(vm_compute; reflexivity)).
  destruct (luafan_sanitize_utf8 [LStr [65; 0xFF; 66]]) as [r| |] eqn:E; [|vm_compute in E; discriminate|destruct Hs].
  destruct Hs as (out & -> & _). vm_compute in E. injection E as <-. reflexivity.
Defined.
Lemma hex_roundtrip_witness : data2hex [LStr [0; 255]] = Ret [LStr (lit "00FF")] /\ hex2data [LStr (lit "00FF")] = Ret [LStr [0; 255]].
Proof.
  destruct (hex_roundtrip (2 ^ 40) [0; 255] zero_alloc_upto) as [Hr _]; [repeat constructor; discriminate|vm_compute; reflexivity|].
  destruct Hr as [H1 H2]; [vm_compute; discriminate|]. split; [exact H1|exact H2].
Defined.
