(* ===== verification/Stream.v ===== *)
(** * src/stream_ffi.c and src/stream.c: typed reads and writes

    First the [ffi_stream_*] functions over a [BYTEARRAY]; then the Lua methods
    of stream.c around them; then the theorems: round trips of every encoding
    and of whole messages, and the restart behaviour on incomplete input. *)

From S2P Require Import Prelude ByteArray Lua.

Section Write.
Context `{Allocator}.

Definition ffi_stream_new (ba : BYTEARRAY) (data : option (list Z)) : outcome BYTEARRAY :=
  match data with
  | Some ((_ :: _) as d) =>
      let '(_, ba) := bytearray_alloc ba (Zlen d) in
      '(_, ba) ← bytearray_writebuffer ba d;
      let '(_, ba) := bytearray_read_ready ba in
      mret ba
  | _ => let '(_, ba) := bytearray_alloc ba 0 in mret ba
  end.

Definition ffi_stream_add_u8 (ba : BYTEARRAY) (value : Z) : outcome BYTEARRAY :=
  '(_, ba) ← bytearray_write8 ba value; mret ba.

Definition ffi_stream_add_u16 (ba : BYTEARRAY) (value : Z) : outcome BYTEARRAY :=
  '(_, ba) ← bytearray_write16 ba value; mret ba.

(** The byte one round of the [do] loop writes: [u & ~0x7f] is non-zero iff a
    bit from 7 up is set. *)
Definition u30_byte (u : Z) : Z :=
  Z.lor (if negb (Z.land u (Z.lxor (2 ^ 32 - 1) 127) =? 0) then 128 else 0) (Z.land u 127).

(** A 32-bit value takes at most 5 rounds ([add_u30_rounds] below). *)
Fixpoint add_u30_loop (fuel : nat) (ba : BYTEARRAY) (u : Z) : outcome BYTEARRAY :=
  match fuel with
  | O => UB
  | S fuel =>
      '(_, ba) ← bytearray_write8 ba (u30_byte u);
      let u := Z.shiftr u 7 in
      if negb (u =? 0) then add_u30_loop fuel ba u else mret ba
  end.

Definition ffi_stream_add_u30 (ba : BYTEARRAY) (u : Z) : outcome BYTEARRAY :=
  add_u30_loop 5 ba (u32 u).

Definition ffi_stream_add_u24 (ba : BYTEARRAY) (u : Z) : outcome BYTEARRAY :=
  let u := u32 u in
  '(_, ba) ← bytearray_writebuffer ba
    [Z.land u 255; Z.land (Z.shiftr u 8) 255; Z.land (Z.shiftr u 16) 255];
  mret ba.

Definition ffi_stream_add_d64 (ba : BYTEARRAY) (value : Z) : outcome BYTEARRAY :=
  '(_, ba) ← bytearray_write64d ba value; mret ba.

Definition ffi_stream_add_string (ba : BYTEARRAY) (data : list Z) : outcome BYTEARRAY :=
  ba ← ffi_stream_add_u30 ba (Zlen data);
  '(_, ba) ← bytearray_writebuffer ba data;
  mret ba.

Definition ffi_stream_add_bytes (ba : BYTEARRAY) (data : list Z) : outcome BYTEARRAY :=
  '(_, ba) ← bytearray_writebuffer ba data; mret ba.

End Write.

Definition ffi_stream_gc (ba : BYTEARRAY) : BYTEARRAY := snd (bytearray_dealloc ba).
Definition ffi_stream_available (ba : BYTEARRAY) : Z := bytearray_read_available ba.

Definition ffi_stream_get_u8 (ba : BYTEARRAY) : outcome (option Z * BYTEARRAY) := bytearray_read8 ba.
Definition ffi_stream_get_u16 (ba : BYTEARRAY) : outcome (option Z * BYTEARRAY) := bytearray_read16 ba.
Definition ffi_stream_get_u32 (ba : BYTEARRAY) : outcome (option Z * BYTEARRAY) := bytearray_read32 ba.

(** [value |= ((b & 127) << shift)]: the shift is done on an [int] and the
    result kept modulo 2^32.  The loop leaves after at most 5 bytes, when
    [shift] is 35; [fuel] is never exhausted ([get_u30_total]). *)
Fixpoint get_u30_loop (fuel : nat) (value shift : Z) (ba : BYTEARRAY) : outcome (option Z * BYTEARRAY) :=
  match fuel with
  | O => UB
  | S fuel =>
      '(b, ba) ← bytearray_read8 ba;
      match b with
      | None => mret (None, ba)
      | Some b =>
          let value := Z.lor value (u32 (Z.shiftl (Z.land b 127) shift)) in
          let shift := u8 (shift + 7) in
          if (Z.land b 128 =? 0) || (30 <? shift) then mret (Some value, ba)
          else get_u30_loop fuel value shift ba
      end
  end.

Definition ffi_stream_get_u30 (ba : BYTEARRAY) : outcome (option Z * BYTEARRAY) :=
  get_u30_loop 5 0 0 ba.

(** [value[2] << 16 | value[1] << 8 | value[0]] *)
Definition value24 (v : list Z) : Z :=
  Z.lor (Z.lor (Z.shiftl (nth 2 v 0) 16) (Z.shiftl (nth 1 v 0) 8)) (nth 0 v 0).

Definition ffi_stream_get_s24 (ba : BYTEARRAY) : outcome (option Z * BYTEARRAY) :=
  '(v, ba) ← bytearray_readbuffer ba true 3;
  match v with
  | None => mret (None, ba)
  | Some value =>
      if negb (Z.land (nth 2 value 0) 128 =? 0)
      then mret (Some (-1 - Z.lxor (value24 value) 0xffffff), ba)
      else mret (Some (value24 value), ba)
  end.

Definition ffi_stream_get_u24 (ba : BYTEARRAY) : outcome (option Z * BYTEARRAY) :=
  '(v, ba) ← bytearray_readbuffer ba true 3;
  match v with
  | None => mret (None, ba)
  | Some value => mret (Some (value24 value), ba)
  end.

Definition ffi_stream_get_d64 (ba : BYTEARRAY) : outcome (option Z * BYTEARRAY) := bytearray_read64d ba.
Definition ffi_stream_mark (ba : BYTEARRAY) : bool * BYTEARRAY := bytearray_mark ba.
Definition ffi_stream_reset (ba : BYTEARRAY) : bool * BYTEARRAY := bytearray_reset ba.

(** The [len] bytes at the pointer [ba->buffer + ba->offset], which is null when
    the buffer is. *)
Definition bytes_at_offset (ba : BYTEARRAY) (len : Z) : outcome (option (list Z)) :=
  if is_null (ba_buffer ba) then mret None
  else d ← mem_load (ba_buffer ba) (ba_offset ba) len; mret (Some d).

(** Result: the bytes [*buff] designates ([None] for a null pointer) and
    [*buflen]. *)
Definition ffi_stream_get_string (ba : BYTEARRAY) : outcome (option (list Z) * Z * BYTEARRAY) :=
  let offset := ba_offset ba in
  '(len, ba) ← ffi_stream_get_u30 ba;
  match len with
  | None =>
      let ba := set_offset offset ba in
      mret (None, u64 (bytearray_read_available ba + 1), ba)
  | Some len =>
      let available := bytearray_read_available ba in
      if available <? len then
        let diff := u64 (ba_offset ba - offset) in
        mret (None, u64 (len + diff), set_offset offset ba)
      else
        d ← bytes_at_offset ba len;
        '(_, ba) ← bytearray_readbuffer ba false len;
        mret (d, len, ba)
  end.

(** A positive request is cut down to what is available; zero asks for all. *)
Definition clamp_len (buflen available : Z) : Z :=
  u32 (if 0 <? buflen then (if available <? buflen then available else buflen) else available).

Definition ffi_stream_get_bytes (ba : BYTEARRAY) (buflen : Z) : outcome (option (list Z) * Z * BYTEARRAY) :=
  let len := clamp_len buflen (bytearray_read_available ba) in
  d ← bytes_at_offset ba len;
  '(_, ba) ← bytearray_readbuffer ba false len;
  mret (d, len, ba).

Definition ffi_stream_test_bytes (ba : BYTEARRAY) (buflen : Z) : outcome (option (list Z) * Z) :=
  let len := clamp_len buflen (bytearray_read_available ba) in
  d ← bytes_at_offset ba len; mret (d, len).

Definition ffi_stream_package (ba : BYTEARRAY) : outcome (list Z * BYTEARRAY) :=
  let '(_, ba) := bytearray_read_ready ba in
  d ← mem_load (ba_buffer ba) 0 (ba_total ba);
  mret (d, ba).

Definition ffi_stream_prepare_get (ba : BYTEARRAY) : bool * BYTEARRAY := bytearray_read_ready ba.
Definition ffi_stream_prepare_add (ba : BYTEARRAY) : outcome (bool * BYTEARRAY) := bytearray_write_ready ba.
Definition ffi_stream_empty (ba : BYTEARRAY) : bool * BYTEARRAY := bytearray_empty ba.

(** ** The Lua methods of stream.c

    [ba] is the userdata at stack index 1 ([luaL_checkudata] has accepted it);
    the result is the list of values pushed, with the userdata after the call. *)

Definition opt_integer (r : option Z) : list lua_value :=
  match r with Some n => [LInt n] | None => [] end.

Definition luafan_stream_gc (ba : BYTEARRAY) : outcome (list lua_value * BYTEARRAY) :=
  mret ([], ffi_stream_gc ba).
Definition luafan_stream_available (ba : BYTEARRAY) : outcome (list lua_value * BYTEARRAY) :=
  mret ([LInt (ffi_stream_available ba)], ba).
Definition luafan_stream_get_u8 (ba : BYTEARRAY) : outcome (list lua_value * BYTEARRAY) :=
  '(r, ba) ← ffi_stream_get_u8 ba; mret (opt_integer r, ba).
Definition luafan_stream_get_u16 (ba : BYTEARRAY) : outcome (list lua_value * BYTEARRAY) :=
  '(r, ba) ← ffi_stream_get_u16 ba; mret (opt_integer r, ba).
Definition luafan_stream_get_u32 (ba : BYTEARRAY) : outcome (list lua_value * BYTEARRAY) :=
  '(r, ba) ← ffi_stream_get_u32 ba; mret (opt_integer r, ba).
Definition luafan_stream_get_u30 (ba : BYTEARRAY) : outcome (list lua_value * BYTEARRAY) :=
  '(r, ba) ← ffi_stream_get_u30 ba; mret (opt_integer r, ba).
Definition luafan_stream_get_s24 (ba : BYTEARRAY) : outcome (list lua_value * BYTEARRAY) :=
  '(r, ba) ← ffi_stream_get_s24 ba; mret (opt_integer r, ba).
Definition luafan_stream_get_u24 (ba : BYTEARRAY) : outcome (list lua_value * BYTEARRAY) :=
  '(r, ba) ← ffi_stream_get_u24 ba; mret (opt_integer r, ba).
Definition luafan_stream_get_d64 (ba : BYTEARRAY) : outcome (list lua_value * BYTEARRAY) :=
  '(r, ba) ← ffi_stream_get_d64 ba;
  mret (match r with Some d => [LFlt d] | None => [] end, ba).
Definition luafan_stream_get_string (ba : BYTEARRAY) : outcome (list lua_value * BYTEARRAY) :=
  '(buff, buflen, ba) ← ffi_stream_get_string ba;
  mret (match buff with Some d => [LStr d] | None => [LNil; LInt buflen] end, ba).
Definition luafan_stream_mark (ba : BYTEARRAY) : outcome (list lua_value * BYTEARRAY) :=
  let '(ok, ba) := ffi_stream_mark ba in mret (if (ok : bool) then [LBool true] else [], ba).
Definition luafan_stream_reset (ba : BYTEARRAY) : outcome (list lua_value * BYTEARRAY) :=
  let '(ok, ba) := ffi_stream_reset ba in mret (if (ok : bool) then [LBool true] else [], ba).
Definition luafan_stream_package (ba : BYTEARRAY) : outcome (list lua_value * BYTEARRAY) :=
  '(d, ba) ← ffi_stream_package ba; mret ([LStr d], ba).
Definition luafan_stream_prepare_get (ba : BYTEARRAY) : outcome (list lua_value * BYTEARRAY) :=
  let '(ok, ba) := ffi_stream_prepare_get ba in mret ([LBool ok], ba).
Definition luafan_stream_prepare_add (ba : BYTEARRAY) : outcome (list lua_value * BYTEARRAY) :=
  '(ok, ba) ← ffi_stream_prepare_add ba; mret ([LBool ok], ba).
Definition luafan_stream_empty (ba : BYTEARRAY) : outcome (list lua_value * BYTEARRAY) :=
  let '(ok, ba) := ffi_stream_empty ba in mret ([LBool ok], ba).
(** ["<fan.stream available=%d>"]: the size is printed as an [int]. *)
Definition luafan_stream_tostring (ba : BYTEARRAY) : outcome (list lua_value * BYTEARRAY) :=
  mret ([LStr (lit "<fan.stream available=" ++ dec_of_Z (s32 (bytearray_read_available ba)) ++ lit ">")], ba).

Section Methods.
Context `{Allocator} `{LuaAPI}.

(** The metatable is set before the buffer exists; [ba0] is the raw userdata. *)
Definition luafan_stream_new (ba0 : BYTEARRAY) (args : list lua_value) : outcome BYTEARRAY :=
  data ← luaL_optlstring (arg args 1); ffi_stream_new ba0 data.

Definition luafan_stream_add_u8 (ba : BYTEARRAY) (args : list lua_value) : outcome (list lua_value * BYTEARRAY) :=
  value ← luaL_checkinteger (arg args 2); ba ← ffi_stream_add_u8 ba (u8 value); mret ([], ba).
Definition luafan_stream_add_u16 (ba : BYTEARRAY) (args : list lua_value) : outcome (list lua_value * BYTEARRAY) :=
  value ← luaL_checkinteger (arg args 2); ba ← ffi_stream_add_u16 ba (u16 value); mret ([], ba).
Definition luafan_stream_add_u30 (ba : BYTEARRAY) (args : list lua_value) : outcome (list lua_value * BYTEARRAY) :=
  value ← luaL_checkinteger (arg args 2); ba ← ffi_stream_add_u30 ba (u32 value); mret ([], ba).
Definition luafan_stream_add_u24 (ba : BYTEARRAY) (args : list lua_value) : outcome (list lua_value * BYTEARRAY) :=
  u ← luaL_checkinteger (arg args 2); ba ← ffi_stream_add_u24 ba (u32 u); mret ([], ba).
Definition luafan_stream_add_d64 (ba : BYTEARRAY) (args : list lua_value) : outcome (list lua_value * BYTEARRAY) :=
  value ← luaL_checknumber (arg args 2); ba ← ffi_stream_add_d64 ba value; mret ([], ba).
Definition luafan_stream_add_string (ba : BYTEARRAY) (args : list lua_value) : outcome (list lua_value * BYTEARRAY) :=
  data ← luaL_checklstring (arg args 2); ba ← ffi_stream_add_string ba data; mret ([], ba).
Definition luafan_stream_add_bytes (ba : BYTEARRAY) (args : list lua_value) : outcome (list lua_value * BYTEARRAY) :=
  data ← luaL_checklstring (arg args 2); ba ← ffi_stream_add_bytes ba data; mret ([], ba).

(** [if (buff && buflen > 0)] push the bytes, else nothing. *)
Definition opt_bytes (buff : option (list Z)) (buflen : Z) : list lua_value :=
  match buff with
  | Some d => if 0 <? buflen then [LStr d] else []
  | None => []
  end.

Definition luafan_stream_get_bytes (ba : BYTEARRAY) (args : list lua_value) : outcome (list lua_value * BYTEARRAY) :=
  n ← luaL_optinteger (arg args 2) (-1);
  let buflen := u64 n in
  if buflen =? 0 then mret ([], ba)
  else '(buff, buflen, ba) ← ffi_stream_get_bytes ba buflen; mret (opt_bytes buff buflen, ba).

Definition luafan_stream_test_bytes (ba : BYTEARRAY) (args : list lua_value) : outcome (list lua_value * BYTEARRAY) :=
  n ← luaL_optinteger (arg args 2) (-1);
  let buflen := u64 n in
  if buflen =? 0 then mret ([], ba)
  else '(buff, buflen) ← ffi_stream_test_bytes ba buflen; mret (opt_bytes buff buflen, ba).

End Methods.

(** ** Messages: a list of typed fields, added by one stream, read by another *)

Inductive field : Type :=
  | FU8 (v : Z)
  | FU16 (v : Z)
  | FU24 (v : Z)
  | FS24 (v : Z)
  | FU30 (v : Z)
  | FD64 (d : Z)
  | FString (s : list Z)
  | FBytes (s : list Z).

(** The value a script passes in and gets back. *)
Definition field_value (f : field) : lua_value :=
  match f with
  | FU8 v | FU16 v | FU24 v | FS24 v | FU30 v => LInt v
  | FD64 d => LFlt d
  | FString s | FBytes s => LStr s
  end.

Definition field_ok (f : field) : Prop :=
  match f with
  | FU8 v => 0 <= v < 2 ^ 8
  | FU16 v => 0 <= v < 2 ^ 16
  | FU24 v => 0 <= v < 2 ^ 24
  | FS24 v => - 2 ^ 23 <= v < 2 ^ 23
  | FU30 v => 0 <= v < 2 ^ 32
  | FD64 d => 0 <= d < 2 ^ 64
  | FString s => bytes_ok s /\ Zlen s < 2 ^ 32
  | FBytes s => bytes_ok s /\ 0 < Zlen s < 2 ^ 32
  end.

(** The encoding: seven bits a byte, the top bit saying that more follow. *)
Fixpoint u30_wire (fuel : nat) (u : Z) : list Z :=
  match fuel with
  | O => []
  | S fuel => if u <? 128 then [u] else (128 + u mod 128) :: u30_wire fuel (u / 128)
  end.

Definition wire (f : field) : list Z :=
  match f with
  | FU8 v => [v]
  | FU16 v => le_bytes 2 v
  | FU24 v | FS24 v => le_bytes 3 v
  | FU30 v => u30_wire 5 v
  | FD64 d => le_bytes 8 d
  | FString s => u30_wire 5 (Zlen s) ++ s
  | FBytes s => s
  end.
Definition wire_all (fs : list field) : list Z := concat (map wire fs).

Section Messages.
Context `{Allocator} `{LuaAPI}.

Definition send (ba : BYTEARRAY) (f : field) : outcome BYTEARRAY :=
  let args := [LUserdata 1; field_value f] in
  '(_, ba) ← match f with
             | FU8 _ => luafan_stream_add_u8 ba args
             | FU16 _ => luafan_stream_add_u16 ba args
             | FU24 _ | FS24 _ => luafan_stream_add_u24 ba args
             | FU30 _ => luafan_stream_add_u30 ba args
             | FD64 _ => luafan_stream_add_d64 ba args
             | FString _ => luafan_stream_add_string ba args
             | FBytes _ => luafan_stream_add_bytes ba args
             end;
  mret ba.

Definition recv (ba : BYTEARRAY) (f : field) : outcome (list lua_value * BYTEARRAY) :=
  match f with
  | FU8 _ => luafan_stream_get_u8 ba
  | FU16 _ => luafan_stream_get_u16 ba
  | FU24 _ => luafan_stream_get_u24 ba
  | FS24 _ => luafan_stream_get_s24 ba
  | FU30 _ => luafan_stream_get_u30 ba
  | FD64 _ => luafan_stream_get_d64 ba
  | FString _ => luafan_stream_get_string ba
  | FBytes s => luafan_stream_get_bytes ba [LUserdata 1; LInt (Zlen s)]
  end.

Fixpoint send_all (ba : BYTEARRAY) (fs : list field) : outcome BYTEARRAY :=
  match fs with
  | [] => mret ba
  | f :: fs => ba ← send ba f; send_all ba fs
  end.
Fixpoint recv_all (ba : BYTEARRAY) (fs : list field) : outcome (list lua_value * BYTEARRAY) :=
  match fs with
  | [] => mret ([], ba)
  | f :: fs => '(v, ba) ← recv ba f; '(vs, ba) ← recv_all ba fs; mret (v ++ vs, ba)
  end.

(** One script packs the fields, another unpacks the string it is given and
    asks what is left. *)
Definition exchange (ba1 ba2 : BYTEARRAY) (fs : list field) : outcome (list lua_value * list lua_value) :=
  ba ← luafan_stream_new ba1 [];
  ba ← send_all ba fs;
  '(p, _) ← luafan_stream_package ba;
  ba ← luafan_stream_new ba2 p;
  '(vs, ba) ← recv_all ba fs;
  '(rest, _) ← luafan_stream_available ba;
  mret (vs, rest).
End Messages.

(** ** The variable-length integers *)

Lemma u30_byte_spec u :
  0 <= u < 2 ^ 32 -> u30_byte u = if u <? 128 then u else 128 + u mod 128.
Proof.
  intros Hu. unfold u30_byte. change (Z.lxor (2 ^ 32 - 1) 127) with (Z.ldiff (Z.ones 32) (Z.ones 7)).
  rewrite land_high by lia. change 127 with (Z.ones 7). rewrite Z.land_ones by lia. change (2 ^ 7) with 128.
  destruct (Z.ltb_spec u 128).
  - rewrite (Z.div_small u 128), Z.mod_small by lia. done.
  - destruct (Z.eqb_spec (128 * (u / 128)) 0); [dmlia|]. cbn [negb].
    rewrite Z.lor_comm. change 128 with (Z.shiftl 1 7) at 2. rewrite lor_shiftl by dmlia. lia.
Qed.

(** What a reader makes of one such byte. *)
Lemma u30_digit u :
  0 <= u ->
  let b := if u <? 128 then u else 128 + u mod 128 in
  is_byte b /\ Z.land b 127 = u mod 128 /\ (Z.land b 128 =? 0) = (u <? 128).
Proof.
  intros Hu b. assert (Hb : is_byte b) by (unfold b, is_byte; case_bool; dmlia).
  split; [done|]. unfold is_byte in Hb. change 127 with (Z.ones 7). rewrite Z.land_ones by lia.
  change 128 with (Z.ldiff (Z.ones 8) (Z.ones 7)) at 2. rewrite land_high by lia. change (2 ^ 7) with 128.
  unfold b in *. destruct (Z.ltb_spec u 128); split; dmlia.
Qed.

Lemma u30_wire_ok fuel u : 0 <= u -> bytes_ok (u30_wire fuel u) /\ Zlen (u30_wire fuel u) <= Z.of_nat fuel.
Proof.
  revert u. induction fuel as [|fuel IH]; intros u Hu; [by split; [apply Forall_nil|]|].
  cbn [u30_wire]. destruct (u30_digit u Hu) as [Hb _]. destruct (Z.ltb_spec u 128).
  - split; [by apply Forall_singleton|unfold Zlen; simpl; lia].
  - destruct (IH (u / 128)) as [? ?]; [dmlia|]. split; [by constructor|rewrite Zlen_cons; lia].
Qed.

#[local] Arguments ffi_stream_add_u30 : simpl never.

Section Sending.
Context `{Allocator} `{LuaAPI}.
Context (M : Z) (HM : mem_upto M) (HM2 : 2 ^ 32 <= M < 2 ^ 62).

(** Memory for [n] bytes, growth included. *)
Definition fits (n : Z) : Prop := 2 * n + 128 <= M.

Lemma add_u30_loop_append fuel u ba l :
  writer ba l -> 0 <= u < 2 ^ 32 -> u < 128 ^ Z.of_nat fuel -> (0 < fuel)%nat ->
  fits (Zlen l + Zlen (u30_wire fuel u)) ->
  exists ba', add_u30_loop fuel ba u = Ret ba' /\ writer ba' (l ++ u30_wire fuel u).
Proof.
  revert u ba l. induction fuel as [|fuel IH]; intros u ba l Hw Hu Hf Hpos Hfit; [lia|].
  unfold fits in *. cbn [add_u30_loop u30_wire] in *. rewrite u30_byte_spec, Z.shiftr_div_pow2 by lia. change (2 ^ 7) with 128.
  destruct (u30_digit u) as [Hb _]; [lia|].
  edestruct (write8_append M ba l (if u <? 128 then u else 128 + u mod 128)) as (ba1 & -> & Hw1); [done..| |lia|].
  { destruct (u <? 128); rewrite Zlen_cons, ?Zlen_nil in Hfit; pose proof (Zlen_nonneg (u30_wire fuel (u / 128))); lia. }
  cbn. rewrite u8_small in Hw1 by apply Hb. destruct (Z.ltb_spec u 128) as [Hlt|Hge].
  - rewrite (Z.div_small u) by lia. eauto.
  - destruct (Z.eqb_spec (u / 128) 0); [dmlia|]. cbn [negb].
    destruct (IH (u / 128) ba1 (l ++ [128 + u mod 128])) as (ba2 & -> & Hw2); try done.
    + dmlia.
    + rewrite Nat2Z.inj_succ, Z.pow_succ_r in Hf by lia. dmlia.
    + destruct fuel; [|lia]. simpl in Hf. lia.
    + rewrite Zlen_app in *. rewrite Zlen_cons in *. rewrite Zlen_nil. lia.
    + rewrite <- app_assoc in Hw2. eauto.
Qed.

Lemma add_u30_append ba l u :
  writer ba l -> 0 <= u < 2 ^ 32 -> fits (Zlen l + Zlen (u30_wire 5 u)) ->
  exists ba', ffi_stream_add_u30 ba u = Ret ba' /\ writer ba' (l ++ u30_wire 5 u).
Proof.
  intros. unfold ffi_stream_add_u30. rewrite u32_small by done.
  apply add_u30_loop_append; [done..|simpl; lia|lia|done].
Qed.

Lemma value24_bytes u :
  [Z.land u 255; Z.land (Z.shiftr u 8) 255; Z.land (Z.shiftr u 16) 255] = le_bytes 3 u.
Proof.
  change 255 with (Z.ones 8). rewrite !Z.land_ones, !Z.shiftr_div_pow2 by lia. cbn [le_bytes].
  rewrite Z.div_div by lia. done.
Qed.

(** [send] appends the encoding. *)
Lemma send_append ba l f :
  writer ba l -> field_ok f -> fits (Zlen l + Zlen (wire f)) ->
  exists ba', send ba f = Ret ba' /\ writer ba' (l ++ wire f).
Proof.
  intros Hw Hok Hfit.
  assert (Hwr : forall v, bytes_ok v -> v = wire f ->
    exists ba', write_value_optimized ba v = Ret (true, ba') /\ writer ba' (l ++ wire f)).
  { intros v Hv ->. apply (write_append M); [done..|apply Hfit|lia]. }
  destruct f; cbn [field_ok wire field_value] in *; unfold send,
    luafan_stream_add_u8, luafan_stream_add_u16, luafan_stream_add_u24, luafan_stream_add_u30,
    luafan_stream_add_d64, luafan_stream_add_string, luafan_stream_add_bytes, arg; cbn;
    rewrite ?luaL_checkinteger_int, ?luaL_checknumber_flt, ?luaL_checklstring_str; cbn.
  - destruct (write8_append M ba l (u8 v)) as (ba' & E & Hw'); [done..|apply Hfit|lia|].
    unfold ffi_stream_add_u8. rewrite E. rewrite !u8_small in Hw' by (rewrite ?u8_small; lia). eauto.
  - destruct (Hwr (le_bytes 2 v)) as (ba' & E & Hw'); [auto with fan..|].
    unfold ffi_stream_add_u16, bytearray_write16. rewrite u16_small, E by done. eauto.
  - destruct (Hwr (le_bytes 3 v)) as (ba' & E & Hw'); [auto with fan..|].
    unfold ffi_stream_add_u24, bytearray_writebuffer. rewrite value24_bytes, !u32_small, E by (rewrite ?u32_small; lia). eauto.
  - destruct (Hwr (le_bytes 3 v)) as (ba' & E & Hw'); [auto with fan..|].
    unfold ffi_stream_add_u24, bytearray_writebuffer. rewrite value24_bytes.
    assert (le_bytes 3 (u32 (u32 v)) = le_bytes 3 v) as ->.
    { unfold u32. by rewrite Z.mod_mod, le_bytes_mod by lia. }
    rewrite E. eauto.
  - destruct (add_u30_append ba l v) as (ba' & E & Hw'); [done..|]. rewrite u32_small, E by done. eauto.
  - destruct (Hwr (le_bytes 8 d)) as (ba' & E & Hw'); [auto with fan..|].
    unfold ffi_stream_add_d64, bytearray_write64d. rewrite E. eauto.
  - destruct Hok as [Hs Hlen]. pose proof (Zlen_nonneg s). unfold fits in *. rewrite Zlen_app in Hfit.
    destruct (add_u30_append ba l (Zlen s)) as (ba1 & E & Hw1); [done|lia|unfold fits; lia|].
    unfold ffi_stream_add_string. rewrite E. cbn.
    destruct (write_append M ba1 _ s HM Hw1 Hs) as (ba2 & E2 & Hw2); [rewrite Zlen_app; lia|lia|].
    unfold bytearray_writebuffer. rewrite E2. rewrite <- app_assoc in Hw2. eauto.
  - destruct (Hwr s) as (ba' & E & Hw'); [apply Hok|done|].
    unfold ffi_stream_add_bytes, bytearray_writebuffer. rewrite E. eauto.
Qed.

Lemma send_all_append fs : forall ba l,
  writer ba l -> Forall field_ok fs -> fits (Zlen l + Zlen (wire_all fs)) ->
  exists ba', send_all ba fs = Ret ba' /\ writer ba' (l ++ wire_all fs).
Proof.
  induction fs as [|f fs IH]; intros ba l Hw Hok Hfit; cbn [send_all].
  - exists ba. unfold wire_all. simpl. by rewrite app_nil_r.
  - inversion Hok as [|? ? Hf Hfs]; subst. unfold wire_all, fits in *. cbn [map concat] in *.
    rewrite Zlen_app in Hfit. pose proof (Zlen_nonneg (concat (map wire fs))).
    destruct (send_append ba l f) as (ba1 & -> & Hw1); [done..|unfold fits; lia|]. cbn.
    destruct (IH ba1 (l ++ wire f)) as (ba2 & -> & Hw2); [done..|rewrite Zlen_app; lia|].
    rewrite <- app_assoc in Hw2. eauto.
Qed.
End Sending.

(** ** Receiving *)

Lemma reader_left ba t : reader ba t -> ba_total ba - ba_offset ba = Zlen t.
Proof.
  intros Hr. rewrite <- (reader_available _ _ Hr). destruct Hr as (Hwf & Hrd & _).
  pose proof Hwf as [Ho Ht Hbl Hm (b & Hb & ? & ?)]. unfold bytearray_read_available.
  rewrite Hb, Hrd. cbn. rewrite u64_small; lia.
Qed.

Lemma set_offset_id ba k : set_offset (ba_offset ba) (set_offset k ba) = ba.
Proof. by destruct ba. Qed.

(** One byte of the loop: it is read, and its seven bits land above [value]. *)
Lemma get_u30_step fuel value shift ba u t :
  reader ba ((if u <? 128 then u else 128 + u mod 128) :: t) ->
  0 <= u -> u * 2 ^ shift < 2 ^ 32 -> 0 <= value < 2 ^ shift -> 0 <= shift <= 28 ->
  exists ba', reader ba' t /\ (exists k, ba' = set_offset k ba) /\
    get_u30_loop (S fuel) value shift ba =
      if (u <? 128) || (30 <? shift + 7) then Ret (Some (value + u mod 128 * 2 ^ shift), ba')
      else get_u30_loop fuel (value + u mod 128 * 2 ^ shift) (shift + 7) ba'.
Proof.
  intros Hr Hu Hlt Hv Hs. destruct (reader_read8 _ _ _ Hr) as (ba' & E & Hr').
  exists ba'. split; [done|]. split; [by eapply read8_offset|]. cbn [get_u30_loop]. rewrite E. cbn.
  destruct (u30_digit u Hu) as (_ & -> & ->). rewrite u8_small by lia.
  assert (0 < 2 ^ shift) by (apply Z.pow_pos_nonneg; lia).
  assert (Hm : u mod 128 * 2 ^ shift <= u * 2 ^ shift) by (apply Z.mul_le_mono_nonneg_r; dmlia).
  rewrite (u32_small (Z.shiftl _ _)) by (rewrite Z.shiftl_mul_pow2 by lia; dmlia).
  by rewrite lor_shiftl by lia.
Qed.

(** The state after one byte that is not the last. *)
Lemma u30_carry u value shift :
  128 <= u -> u * 2 ^ shift < 2 ^ 32 -> 0 <= value < 2 ^ shift -> 0 <= shift ->
  let value' := value + u mod 128 * 2 ^ shift in
  shift < 25 /\ u / 128 * 2 ^ (shift + 7) < 2 ^ 32 /\ 0 <= value' < 2 ^ (shift + 7) /\
  value' + u / 128 * 2 ^ (shift + 7) = value + u * 2 ^ shift.
Proof.
  intros Hu Hlt Hv Hs. cbv zeta. rewrite Z.pow_add_r by lia. change (2 ^ 7) with 128.
  assert (shift < 25). { apply (Z.pow_lt_mono_r_iff 2); [lia..|]. nia. }
  assert (0 <= u mod 128 < 128) by dmlia. pose proof (Z.div_mod u 128 ltac:(lia)) as E.
  set (P := 2 ^ shift) in *. set (q := u / 128) in *. set (r := u mod 128) in *. clearbody P q r. subst u.
  repeat split; nia.
Qed.

Lemma get_u30_loop_wire fuel : forall u value shift ba t,
  reader ba (u30_wire fuel u ++ t) -> 0 <= u -> u * 2 ^ shift < 2 ^ 32 -> 0 <= value < 2 ^ shift ->
  shift = 7 * (5 - Z.of_nat fuel) -> (0 < fuel <= 5)%nat ->
  exists ba', get_u30_loop fuel value shift ba = Ret (Some (value + u * 2 ^ shift), ba') /\ reader ba' t /\
    exists k, ba' = set_offset k ba.
Proof.
  induction fuel as [|fuel IH]; intros u value shift ba t Hr Hu Hlt Hv Hs Hf; [lia|].
  destruct (get_u30_step fuel value shift ba u (if u <? 128 then t else u30_wire fuel (u / 128) ++ t))
    as (ba' & Hr' & [k ->] & ->); try done; try lia.
  { revert Hr. cbn [u30_wire]. by destruct (u <? 128). }
  destruct (Z.ltb_spec u 128); cbn [orb].
  { rewrite Z.mod_small by lia. eauto. }
  destruct (u30_carry u value shift) as (? & ? & ? & Hval); [lia..|].
  destruct (Z.ltb_spec 30 (shift + 7)); [lia|].
  destruct (IH (u / 128) (value + u mod 128 * 2 ^ shift) (shift + 7) (set_offset k ba) t) as (ba2 & -> & Hr2 & [k2 ->]);
    try done; try lia; [dmlia|]. rewrite Hval. eexists. split; [done|]. split; [done|]. by exists k2.
Qed.

Lemma get_u30_loop_short fuel : forall u value shift ba p q,
  u30_wire fuel u = p ++ q -> q <> [] -> reader ba p -> 0 <= u -> u * 2 ^ shift < 2 ^ 32 ->
  0 <= value < 2 ^ shift -> shift = 7 * (5 - Z.of_nat fuel) -> (0 < fuel <= 5)%nat ->
  exists ba', get_u30_loop fuel value shift ba = Ret (None, ba') /\ exists k, ba' = set_offset k ba.
Proof.
  induction fuel as [|fuel IH]; intros u value shift ba p q Hw Hq Hr Hu Hlt Hv Hs Hf; [lia|].
  destruct p as [|b p].
  { destruct (reader_read8_short _ Hr) as (ba' & E & _). exists ba'. cbn [get_u30_loop]. rewrite E. cbn.
    split; [done|by eapply read8_offset]. }
  cbn [u30_wire] in Hw. destruct (Z.ltb_spec u 128) as [Hsm|Hbig]; injection Hw as <- Hw.
  { by destruct p, q. }
  destruct (get_u30_step fuel value shift ba u p) as (ba' & Hr' & [k ->] & ->); try done; try lia.
  { destruct (Z.ltb_spec u 128); [lia|done]. }
  destruct (u30_carry u value shift) as (? & ? & ? & _); [lia..|].
  destruct (Z.ltb_spec u 128), (Z.ltb_spec 30 (shift + 7)); [lia..|]. cbn [orb].
  destruct (IH (u / 128) (value + u mod 128 * 2 ^ shift) (shift + 7) (set_offset k ba) p q)
    as (ba2 & -> & [k2 ->]); try done; try lia; [dmlia|]. eexists. split; [done|]. by exists k2.
Qed.

Lemma get_u30_wire ba u t :
  reader ba (u30_wire 5 u ++ t) -> 0 <= u < 2 ^ 32 ->
  exists ba', ffi_stream_get_u30 ba = Ret (Some u, ba') /\ reader ba' t /\ exists k, ba' = set_offset k ba.
Proof.
  intros Hr Hu. destruct (get_u30_loop_wire 5 u 0 0 ba t) as (ba' & E & Hr'); [done || lia..|].
  exists ba'. split; [|done]. unfold ffi_stream_get_u30. rewrite E. do 3 f_equal. lia.
Qed.

(** The two byte-moving ways of getting bytes out, on a reader that has them. *)
Lemma take_bytes ba d t :
  reader ba (d ++ t) -> Zlen d < 2 ^ 32 ->
  bytes_at_offset ba (Zlen d) = Ret (Some d) /\
  exists ba', bytearray_readbuffer ba false (Zlen d) = Ret (Some [], ba') /\ reader ba' t.
Proof.
  intros Hr Hd. split.
  - unfold bytes_at_offset. by destruct (reader_load _ _ _ _ Hr eq_refl) as [-> ->].
  - by destruct (reader_readbuffer ba false d t (Zlen d)) as (ba' & E & Hr'); [|done|done|eauto].
Qed.

Lemma value24_le u : 0 <= u < 2 ^ 24 -> value24 (le_bytes 3 u) = u /\
  Z.land (nth 2 (le_bytes 3 u) 0) 128 = 128 * (u / 2 ^ 23).
Proof.
  intros Hu. unfold value24. cbn [le_bytes nth]. split.
  - rewrite (Z.lor_comm (Z.lor _ _)), (Z.lor_comm (Z.shiftl _ 16)), Z.lor_assoc.
    rewrite (lor_shiftl _ _ 8) by dmlia. rewrite lor_shiftl by dmlia. dmlia.
  - change 128 with (Z.ldiff (Z.ones 8) (Z.ones 7)) at 1. rewrite land_high by dmlia. dmlia.
Qed.

Lemma lxor_ones x k : 0 <= k -> 0 <= x < 2 ^ k -> Z.lxor x (Z.ones k) = Z.ones k - x.
Proof.
  intros Hk Hx. transitivity (Z.ldiff (Z.ones k) x).
  - apply Z.bits_inj'. intros i Hi. rewrite Z.lxor_spec, Z.ldiff_spec, Z.testbit_ones by lia.
    replace (0 <=? i) with true by lia. cbn [andb].
    destruct (Z.ltb_spec i k); [by destruct (Z.testbit x i)|]. by rewrite (testbit_high x k i).
  - symmetry. apply Z.sub_nocarry_ldiff. apply Z.bits_inj'. intros i Hi.
    rewrite Z.ldiff_spec, Z.testbit_ones, Z.bits_0 by lia. replace (0 <=? i) with true by lia. cbn [andb].
    destruct (Z.ltb_spec i k); [by rewrite andb_false_r|]. by rewrite (testbit_high x k i).
Qed.

Lemma get_s24_value v :
  - 2 ^ 23 <= v < 2 ^ 23 ->
  (if negb (Z.land (nth 2 (le_bytes 3 v) 0) 128 =? 0)
   then -1 - Z.lxor (value24 (le_bytes 3 v)) 0xffffff else value24 (le_bytes 3 v)) = v.
Proof.
  intros Hv. rewrite <- (le_bytes_mod 3 24) by lia.
  destruct (value24_le (v mod 2 ^ 24)) as [-> ->]; [dmlia|]. change 0xffffff with (Z.ones 24).
  rewrite lxor_ones, Z.ones_equiv by dmlia. destruct (Z.eqb_spec (128 * (v mod 2 ^ 24 / 2 ^ 23)) 0); cbn [negb]; dmlia.
Qed.

Section Receiving.
Context `{LuaAPI}.

Lemma get_number n k ba t (z : Z) :
  k = Z.of_nat n -> reader ba (le_bytes n z ++ t) -> (n < 9)%nat -> 0 <= z < 2 ^ (8 * Z.of_nat n) ->
  exists ba', read_number k ba = Ret (Some z, ba') /\ reader ba' t.
Proof.
  intros -> Hr Hn Hz. destruct (reader_read _ _ _ (Z.of_nat n) Hr) as (ba' & E & Hr'); [apply Zlen_le_bytes|lia|].
  exists ba'. unfold read_number. rewrite E. cbn. by rewrite le_val_bytes, Z.mod_small.
Qed.

Lemma get_bytes3 ba v t :
  reader ba (le_bytes 3 v ++ t) ->
  exists ba', bytearray_readbuffer ba true 3 = Ret (Some (le_bytes 3 v), ba') /\ reader ba' t.
Proof. intros Hr. by apply (reader_readbuffer ba true _ _ 3 Hr). Qed.

Lemma get_string_wire ba s t :
  reader ba (wire (FString s) ++ t) -> Zlen s < 2 ^ 32 ->
  exists ba', ffi_stream_get_string ba = Ret (Some s, Zlen s, ba') /\ reader ba' t.
Proof.
  intros Hr Hs. pose proof (Zlen_nonneg s). cbn [wire] in Hr. rewrite <- app_assoc in Hr.
  destruct (get_u30_wire ba (Zlen s) (s ++ t)) as (ba1 & E & Hr1 & _); [done|lia|].
  unfold ffi_stream_get_string. rewrite E. cbn. rewrite (reader_available _ _ Hr1), Zlen_app.
  destruct (Z.ltb_spec (Zlen s + Zlen t) (Zlen s)); [pose proof (Zlen_nonneg t); lia|].
  destruct (take_bytes ba1 s t) as [-> (ba2 & E2 & Hr2)]; [done..|]. cbn. rewrite E2. eauto.
Qed.

Lemma get_bytes_wire ba s t :
  reader ba (s ++ t) -> 0 < Zlen s < 2 ^ 32 ->
  exists ba', luafan_stream_get_bytes ba [LUserdata 1; LInt (Zlen s)] = Ret ([LStr s], ba') /\ reader ba' t.
Proof.
  intros Hr Hs. unfold luafan_stream_get_bytes, luaL_optinteger, arg. cbn [nth Nat.sub lua_isnil].
  rewrite luaL_checkinteger_int. cbn. rewrite u64_small by lia. destruct (Z.eqb_spec (Zlen s) 0); [lia|].
  unfold ffi_stream_get_bytes. rewrite (reader_available _ _ Hr), Zlen_app.
  assert (clamp_len (Zlen s) (Zlen s + Zlen t) = Zlen s) as ->.
  { unfold clamp_len. pose proof (Zlen_nonneg t). destruct (Z.ltb_spec 0 (Zlen s)), (Z.ltb_spec (Zlen s + Zlen t) (Zlen s)); try lia.
    by rewrite u32_small by lia. }
  destruct (take_bytes ba s t) as [-> (ba2 & E2 & Hr2)]; [done|lia|]. cbn. rewrite E2. cbn.
  destruct (Z.ltb_spec 0 (Zlen s)); [|lia]. eauto.
Qed.

(** [recv] takes the encoding off the front and gives the value back. *)
Lemma recv_wire ba f t :
  reader ba (wire f ++ t) -> field_ok f ->
  exists ba', recv ba f = Ret ([field_value f], ba') /\ reader ba' t.
Proof.
  intros Hr Hok. destruct f; cbn [recv field_ok field_value] in *.
  - destruct (reader_read8 _ _ _ Hr) as (ba' & E & Hr'). exists ba'.
    unfold luafan_stream_get_u8, ffi_stream_get_u8. by rewrite E.
  - destruct (get_number 2 2 ba t v) as (ba' & E & Hr'); [done|done|lia|done|]. exists ba'.
    unfold luafan_stream_get_u16, ffi_stream_get_u16, bytearray_read16. by rewrite E.
  - destruct (get_bytes3 _ _ _ Hr) as (ba' & E & Hr'). exists ba'.
    unfold luafan_stream_get_u24, ffi_stream_get_u24. rewrite E. cbn -[le_bytes].
    by destruct (value24_le v) as [-> _].
  - destruct (get_bytes3 _ _ _ Hr) as (ba' & E & Hr'). exists ba'. split; [|done].
    unfold luafan_stream_get_s24, ffi_stream_get_s24. rewrite E. cbn -[le_bytes nth].
    pose proof (get_s24_value v Hok) as Hv. destruct (negb _); cbn -[le_bytes nth]; by rewrite Hv.
  - destruct (get_u30_wire ba v t) as (ba' & E & Hr' & _); [done..|]. exists ba'.
    unfold luafan_stream_get_u30. by rewrite E.
  - destruct (get_number 8 8 ba t d) as (ba' & E & Hr'); [done|done|lia|done|]. exists ba'.
    unfold luafan_stream_get_d64, ffi_stream_get_d64, bytearray_read64d. by rewrite E.
  - destruct (get_string_wire ba s t) as (ba' & E & Hr'); [done|apply Hok|]. exists ba'.
    unfold luafan_stream_get_string. by rewrite E.
  - apply get_bytes_wire; [done|apply Hok].
Qed.

Lemma recv_all_wire fs : forall ba t,
  reader ba (wire_all fs ++ t) -> Forall field_ok fs ->
  exists ba', recv_all ba fs = Ret (map field_value fs, ba') /\ reader ba' t.
Proof.
  induction fs as [|f fs IH]; intros ba t Hr Hok; cbn [recv_all].
  { by exists ba. }
  inversion Hok as [|? ? Hf Hfs]; subst. unfold wire_all in Hr. cbn [map concat] in Hr. rewrite <- app_assoc in Hr.
  destruct (recv_wire ba f _ Hr Hf) as (ba1 & -> & Hr1). cbn.
  destruct (IH ba1 t Hr1 Hfs) as (ba2 & -> & Hr2). by exists ba2.
Qed.
End Receiving.

Lemma wire_nonempty f : field_ok f -> wire f <> [].
Proof.
  destruct f; cbn [wire field_ok]; intros Hok; try done.
  - cbn [u30_wire]. by destruct (v <? 128).
  - cbn [u30_wire]. by destruct (Zlen s <? 128).
  - intros ->. destruct Hok as [_ [Hpos _]]. change (0 < 0) in Hpos. lia.
Qed.

#[local] Arguments luafan_stream_new {_ _} : simpl never.

Section Exchange.
Context `{Allocator} `{LuaAPI}.
Context (M : Z) (HM : mem_upto M) (HM2 : 2 ^ 32 <= M < 2 ^ 62).

Lemma new_writer ba : exists ba', luafan_stream_new ba [] = Ret ba' /\ writer ba' [].
Proof.
  destruct (alloc_writer M ba 0) as (ba' & E & Hw); [done|lia|]. exists ba'.
  unfold luafan_stream_new, luaL_optlstring, arg. cbn [nth Nat.sub lua_isnil]. cbn. by rewrite E.
Qed.

Lemma new_reader ba d :
  d <> [] -> bytes_ok d -> fits M (Zlen d) ->
  exists ba', luafan_stream_new ba [LStr d] = Ret ba' /\ reader ba' d.
Proof.
  intros Hd Hok Hfit. unfold luafan_stream_new, luaL_optlstring, arg. cbn [nth Nat.sub lua_isnil].
  rewrite luaL_checklstring_str. cbn. destruct d as [|x d]; [done|].
    destruct (alloc_writer M ba (Zlen (x :: d))) as (ba1 & -> & Hw1); [done|lia|].
  destruct (write_append M ba1 [] (x :: d)) as (ba2 & E2 & Hw2); [done..|rewrite Zlen_nil; unfold fits in *; lia|lia|].
  unfold bytearray_writebuffer. rewrite E2. cbn.
  destruct (writer_read_ready _ _ Hw2) as (ba3 & -> & Hr & _). by exists ba3.
Qed.
End Exchange.

Lemma wire_all_ok fs : Forall field_ok fs -> bytes_ok (wire_all fs).
Proof.
  unfold wire_all. induction 1 as [|f fs Hf _ IH]; [by apply Forall_nil|]. cbn [map concat].
  apply bytes_ok_app. split; [|done]. destruct f; cbn [wire field_ok] in *; auto with fan.
  - by apply Forall_singleton.
  - apply u30_wire_ok. lia.
  - apply bytes_ok_app. split; [apply u30_wire_ok, Zlen_nonneg|apply Hf].
  - apply Hf.
Qed.

(** C2: A message of typed fields survives the trip: what one stream packs with
    the [Add*] methods, a second stream built on the packed string gives back
    with the matching [Get*] methods, value for value and in order, and nothing
    is left to read.  Unsigned 8/16/24-bit, signed 24-bit, variable-length 30-bit
    (in fact any 32-bit) integers, doubles bit for bit, length-prefixed strings
    and raw bytes; the allocator is any that serves the bytes needed. *)
Theorem stream_exchange `{Allocator} `{LuaAPI} M ba1 ba2 fs :
  mem_upto M -> 2 ^ 32 <= M < 2 ^ 62 -> Forall field_ok fs -> fits M (Zlen (wire_all fs)) ->
  exchange ba1 ba2 fs = Ret (map field_value fs, [LInt 0]).
Proof.
  intros HM HM2 Hok Hfit. unfold exchange.
  destruct (new_writer M HM HM2 ba1) as (b1 & -> & Hw1). cbn.
  destruct (send_all_append M HM HM2 fs b1 []) as (b2 & -> & Hw2); [done..|]. cbn.
  destruct (writer_read_ready _ _ Hw2) as (b3 & Er & _ & _ & Ht & El).
  unfold luafan_stream_package, ffi_stream_package. rewrite Er, Ht, El. cbn.
  destruct fs as [|f fs].
  - unfold luafan_stream_new, luaL_optlstring, arg. cbn [nth Nat.sub lua_isnil].
    rewrite luaL_checklstring_str. cbn.
    destruct (alloc_writer M ba2 0) as (b4 & -> & Hw4); [done|lia|]. cbn.
    unfold luafan_stream_available, ffi_stream_available, bytearray_read_available.
    destruct Hw4 as (_ & -> & _). by rewrite orb_true_r.
  - destruct (new_reader M HM HM2 ba2 (wire_all (f :: fs))) as (b4 & -> & Hr4); [|by apply wire_all_ok|done|].
    { inversion Hok; subst. unfold wire_all. cbn. intros [Hnil _]%app_eq_nil. by apply (wire_nonempty f). }
    cbn [mbind outcome_bind]. destruct (recv_all_wire (f :: fs) b4 []) as (b5 & -> & Hr5); [by rewrite app_nil_r|done|].
    cbn. unfold luafan_stream_available, ffi_stream_available. by rewrite (reader_available _ _ Hr5).
Qed.

Definition sample_message : list field :=
  [FU8 200; FS24 (-70000); FU30 4000000000; FString [104; 105]; FD64 4607182418800017408; FU16 513; FBytes [0; 255]].

Lemma stream_exchange_witness :
  @exchange zero_alloc plain_lua (mk_ba 0 0 0 None 0 false false) (mk_ba 7 7 7 None 0 true false) sample_message =
  Ret (map field_value sample_message, [LInt 0]).
Proof.
  apply (@stream_exchange zero_alloc plain_lua (2 ^ 40)); [apply zero_alloc_upto|lia| |vm_compute; congruence].
  repeat constructor; cbn; try lia; unfold is_byte; lia.
Defined.

(** ** Incomplete and hostile input *)

Lemma get_string_no_header ba u p k :
  u30_wire 5 u = p ++ k -> k <> [] -> 0 <= u < 2 ^ 32 -> reader ba p -> Zlen p < 2 ^ 32 ->
  ffi_stream_get_string ba = Ret (None, Zlen p + 1, ba).
Proof.
  intros Hw Hk Hu Hr Hp. destruct (get_u30_loop_short 5 u 0 0 ba p k) as (ba1 & E & [j ->]); [done || lia..|].
  unfold ffi_stream_get_string, ffi_stream_get_u30. rewrite E. cbn [mbind outcome_bind].
  rewrite set_offset_id, (reader_available _ _ Hr). pose proof (Zlen_nonneg p). by rewrite u64_small by lia.
Qed.

Lemma get_string_no_body ba u p :
  0 <= u < 2 ^ 32 -> reader ba (u30_wire 5 u ++ p) -> Zlen p < u ->
  ffi_stream_get_string ba = Ret (None, Zlen (u30_wire 5 u) + u, ba).
Proof.
  intros Hu Hr Hp. destruct (get_u30_wire ba u p) as (ba1 & E & Hr1 & [j ->]); [done..|].
  unfold ffi_stream_get_string. rewrite E. cbn [mbind outcome_bind]. rewrite (reader_available _ _ Hr1).
  destruct (Z.ltb_spec (Zlen p) u); [|lia]. rewrite set_offset_id.
  pose proof (reader_left _ _ Hr) as Hl. pose proof (reader_left _ _ Hr1) as Hl1. rewrite Zlen_app in Hl. cbn in Hl1 |- *.
  pose proof (u30_wire_ok 5 u ltac:(lia)) as [_ Hw]. pose proof (Zlen_nonneg (u30_wire 5 u)).
  replace (j - ba_offset ba) with (Zlen (u30_wire 5 u)) by lia.
  rewrite (u64_small (Zlen _)), u64_small by lia. by rewrite Z.add_comm.
Qed.

(** Asking for a string before all of it has arrived loses nothing: on any
    proper prefix of an encoded string [luafan_stream_get_string] leaves the
    stream exactly as it was and answers [nil] with a size to wait for that is
    more than what is there, never more than the whole encoding, and exactly
    the whole encoding once the length prefix is complete. *)
Theorem get_string_restart `{LuaAPI} ba s p q :
  wire (FString s) = p ++ q -> q <> [] -> Zlen s < 2 ^ 32 -> reader ba p ->
  exists n, luafan_stream_get_string ba = Ret ([LNil; LInt n], ba) /\
    Zlen p < n <= Zlen (wire (FString s)) /\
    (Zlen (u30_wire 5 (Zlen s)) <= Zlen p -> n = Zlen (wire (FString s))).
Proof.
  intros Hpq Hq Hs Hr. pose proof (Zlen_nonneg s). cbn [wire] in *. unfold luafan_stream_get_string.
  assert (0 < Zlen q) by (pose proof (Zlen_nonneg q); assert (Zlen q <> 0) by (by intros ?%Zlen_zero); lia).
  assert ((exists k, k <> [] /\ u30_wire 5 (Zlen s) = p ++ k) \/ (exists k, p = u30_wire 5 (Zlen s) ++ k /\ s = k ++ q))
    as [(k & Hne & Hk)|(k & -> & Hk)].
  { apply app_eq_inv in Hpq as [(k & Hp & Hk)|(k & Hp & Hk)]; [|right; by exists k].
    destruct k as [|x k]; [|left; by exists (x :: k)]. right. exists []. rewrite app_nil_r in Hp.
    rewrite app_nil_r. by subst. }
  - pose proof (u30_wire_ok 5 (Zlen s) ltac:(done)) as [_ Hw]. rewrite Hk, Zlen_app in Hw.
    assert (0 < Zlen k) by (pose proof (Zlen_nonneg k); assert (Zlen k <> 0) by (by intros ?%Zlen_zero); lia).
    rewrite (get_string_no_header ba (Zlen s) p k) by (done || lia). exists (Zlen p + 1).
    rewrite !Zlen_app, Hk, Zlen_app. split; [done|lia].
  - assert (Zlen s = Zlen k + Zlen q) by (rewrite Hk at 1; apply Zlen_app).
    rewrite (get_string_no_body ba (Zlen s) k) by (done || lia). exists (Zlen (u30_wire 5 (Zlen s)) + Zlen s).
    rewrite !Zlen_app. split; [done|lia].
Qed.

Definition half_string : BYTEARRAY := mk_ba 0 3 0 (Some [5; 104; 101]) 3 true false.
Lemma half_string_reader : reader half_string [5; 104; 101].
Proof.
  split; [|done]. constructor; cbn; try lia. eexists; split; [reflexivity|]. split; [done|].
  apply (bool_decide_unpack _). by vm_compute.
Qed.

Lemma get_string_restart_witness :
  exists n, luafan_stream_get_string half_string = Ret ([LNil; LInt n], half_string) /\
    3 < n <= 6 /\ (1 <= 3 -> n = 6).
Proof.
  apply (@get_string_restart plain_lua half_string [104; 101; 108; 108; 111] [5; 104; 101] [108; 108; 111]);
    [reflexivity|discriminate|reflexivity|apply half_string_reader].
Defined.

(** A call that only moves the read position: it returns, and what is left to
    read is a suffix of what was. *)
Definition consumes {A} (ba : BYTEARRAY) (m : outcome (A * BYTEARRAY)) (t : list Z) : Prop :=
  exists a k t', m = Ret (a, set_offset k ba) /\ reader (set_offset k ba) t' /\ t' `suffix_of` t.

Lemma consumes_bind {A B} ba (m : outcome (A * BYTEARRAY)) (f : A * BYTEARRAY -> outcome (B * BYTEARRAY)) t :
  consumes ba m t ->
  (forall a k t', m = Ret (a, set_offset k ba) -> reader (set_offset k ba) t' -> t' `suffix_of` t ->
    consumes (set_offset k ba) (f (a, set_offset k ba)) t') ->
  consumes ba (m ≫= f) t.
Proof.
  intros (a & k & t1 & -> & Hr & Hs) Hk. destruct (Hk a k t1 eq_refl Hr Hs) as (b & k2 & t2 & E & Hr2 & Hs2).
  exists b, k2, t2. split; [done|]. split; [done|]. by etransitivity.
Qed.
Lemma consumes_ret {A} (a : A) ba t : reader ba t -> consumes ba (mret (a, ba)) t.
Proof. intros Hr. exists a, (ba_offset ba), t. by destruct ba. Qed.
Lemma consumes_intro {A} ba (m : outcome (A * BYTEARRAY)) a ba' d t :
  m = Ret (a, ba') -> (exists k, ba' = set_offset k ba) -> reader ba' t -> consumes ba m (d ++ t).
Proof. intros -> [k ->] Hr. exists a, k, t. split; [done|]. split; [done|]. by exists d. Qed.

Lemma same_offset ba : exists k, ba = set_offset k ba.
Proof. exists (ba_offset ba). by destruct ba. Qed.
Lemma readbuffer_offset ba copy n r ba' :
  bytearray_readbuffer ba copy n = Ret (r, ba') -> exists k, ba' = set_offset k ba.
Proof.
  unfold bytearray_readbuffer. case_bool; [|intros [= <- <-]; apply same_offset].
  destruct (if copy then _ else _); [intros [= <- <-]; eauto|intros [=]..].
Qed.
Lemma read_number_offset ba n r ba' :
  read_number n ba = Ret (r, ba') -> exists k, ba' = set_offset k ba.
Proof.
  unfold read_number, read_value_optimized. case_bool; [|intros [= <- <-]; apply same_offset].
  destruct (mem_load _ _ _); [intros [= <- <-]; eauto|intros [=]..].
Qed.

Lemma split_at (t : list Z) n : 0 <= n <= Zlen t -> exists d t', t = d ++ t' /\ Zlen d = n.
Proof. intros Hn. exists (ztake n t), (zdrop n t). by rewrite ztake_zdrop, Zlen_ztake. Qed.

Lemma read8_consumes ba t : reader ba t -> consumes ba (bytearray_read8 ba) t.
Proof.
  intros Hr. destruct t as [|x t].
  - destruct (reader_read8_short _ Hr) as (ba' & E & Hr').
    by apply (consumes_intro _ _ _ _ [] [] E (read8_offset _ _ _ E)).
  - destruct (reader_read8 _ _ _ Hr) as (ba' & E & Hr').
    by apply (consumes_intro _ _ _ _ [x] t E (read8_offset _ _ _ E)).
Qed.

Lemma number_consumes ba t n : reader ba t -> 0 <= n < 2 ^ 63 -> consumes ba (read_number n ba) t.
Proof.
  intros Hr Hn. destruct (Z.le_gt_cases n (Zlen t)).
  - destruct (split_at t n) as (d & t' & -> & Hd); [lia|].
    destruct (reader_read ba d t' n) as (ba' & E & Hr'); [done..|lia|].
    assert (En : read_number n ba = Ret (Some (le_val d), ba')) by (unfold read_number; by rewrite E).
    by apply (consumes_intro _ _ _ _ d t' En (read_number_offset _ _ _ _ En)).
  - unfold read_number. rewrite (reader_read_short ba t n) by (done || lia). by apply consumes_ret.
Qed.

Lemma readbuffer_consumes ba t copy n :
  reader ba t -> 0 <= n < 2 ^ 32 -> consumes ba (bytearray_readbuffer ba copy n) t.
Proof.
  intros Hr Hn. destruct (Z.le_gt_cases n (Zlen t)).
  - destruct (split_at t n) as (d & t' & -> & Hd); [lia|].
    destruct (reader_readbuffer ba copy d t' n) as (ba' & E & Hr'); [done..|lia|].
    by apply (consumes_intro _ _ _ _ d t' E (readbuffer_offset _ _ _ _ _ E)).
  - destruct (reader_readbuffer_short ba copy t n) as (ba' & E & Hr'); [done|lia|].
    by apply (consumes_intro _ _ _ _ [] t E (readbuffer_offset _ _ _ _ _ E)).
Qed.

Lemma u30_loop_consumes fuel : forall value shift ba t,
  reader ba t -> shift = 7 * (5 - Z.of_nat fuel) -> (0 < fuel <= 5)%nat ->
  consumes ba (get_u30_loop fuel value shift ba) t.
Proof.
  induction fuel as [|fuel IH]; intros value shift ba t Hr Hs Hf; [lia|]. cbn [get_u30_loop].
  apply consumes_bind; [by apply read8_consumes|]. intros [b|] k t1 E Hr1 Hsuf; [|by apply consumes_ret].
  rewrite u8_small by lia. destruct (_ || _) eqn:Hb; [by apply consumes_ret|].
  apply orb_false_iff in Hb as [_ Hb]. apply IH; [done|lia|lia].
Qed.

(** The bytes a [len <= available] guard lets through are there to be read. *)
Lemma bytes_at_offset_ok ba t n :
  reader ba t -> 0 <= n <= Zlen t -> exists d, bytes_at_offset ba n = Ret (Some d).
Proof.
  intros Hr Hn. destruct (split_at t n) as (d & t' & -> & Hd); [lia|]. unfold bytes_at_offset.
  destruct (reader_load _ _ _ _ Hr Hd) as [-> ->]. by exists d.
Qed.

Lemma clamp_len_ok n (t : list Z) :
  0 <= n -> 0 <= clamp_len n (Zlen t) <= Zlen t /\ clamp_len n (Zlen t) < 2 ^ 32.
Proof.
  intros Hn. unfold clamp_len. pose proof (Zlen_nonneg t). split; [|apply u32_range]. split; [apply u32_range|].
  unfold u32. etransitivity; [apply Z.mod_le; repeat case_bool; lia|]. repeat case_bool; lia.
Qed.

Lemma get_u30_loop_range fuel : forall value shift ba v ba',
  get_u30_loop fuel value shift ba = Ret (Some v, ba') -> 0 <= value < 2 ^ 32 -> 0 <= v < 2 ^ 32.
Proof.
  induction fuel as [|fuel IH]; intros value shift ba v ba' E Hv; cbn [get_u30_loop] in E; [done|].
  destruct (bytearray_read8 ba) as [[[b|] ba1]| |]; cbn -[Z.pow] in E; [|done..].
  assert (0 <= Z.lor value (u32 (Z.shiftl (Z.land b 127) shift)) < 2 ^ 32)
    by (apply lor_range; [done|apply u32_range]).
  destruct (_ || _); [by injection E as <- _|]. by apply IH in E.
Qed.

Lemma get_string_consumes `{LuaAPI} ba t : reader ba t -> consumes ba (luafan_stream_get_string ba) t.
Proof.
  intros Hr. unfold luafan_stream_get_string. apply consumes_bind.
  - unfold ffi_stream_get_string, ffi_stream_get_u30.
    destruct (u30_loop_consumes 5 0 0 ba t) as (r & k & t1 & E & Hr1 & Hsuf); [done..|lia|].
    rewrite E. cbn [mbind outcome_bind]. destruct r as [len|]; [|rewrite set_offset_id; by apply consumes_ret].
    destruct (Z.ltb_spec (bytearray_read_available (set_offset k ba)) len) as [|Hle].
    { rewrite set_offset_id. by apply consumes_ret. }
    apply get_u30_loop_range in E; [|lia]. rewrite (reader_available _ _ Hr1) in Hle.
    destruct (bytes_at_offset_ok _ _ len Hr1) as [d ->]; [lia|]. cbn [mbind outcome_bind].
    destruct (readbuffer_consumes _ _ false len Hr1) as (r & k2 & t2 & -> & Hr2 & Hsuf2); [lia|].
    exists (Some d, len), k2, t2. split; [done|]. split; [done|]. by etransitivity.
  - intros [[buff|] n] k t' _ Hr' _; by apply consumes_ret.
Qed.

Lemma get_bytes_consumes `{LuaAPI} ba t n : reader ba t -> consumes ba (luafan_stream_get_bytes ba [LUserdata 1; LInt n]) t.
Proof.
  intros Hr. unfold luafan_stream_get_bytes, luaL_optinteger, arg. cbn [nth Nat.sub lua_isnil].
  rewrite luaL_checkinteger_int. cbn [mbind outcome_bind]. case_bool; [by apply consumes_ret|].
  unfold ffi_stream_get_bytes. rewrite (reader_available _ _ Hr).
  destruct (clamp_len_ok (u64 n) t) as [Hc1 Hc2]; [apply u64_range|].
  destruct (bytes_at_offset_ok _ _ _ Hr Hc1) as [d ->]. cbn [mbind outcome_bind].
  destruct (readbuffer_consumes _ _ false _ Hr (conj (proj1 Hc1) Hc2)) as (r & k2 & t2 & -> & Hr2 & Hsuf2).
  eexists _, k2, t2. split; [reflexivity|]. done.
Qed.

(** The methods that read. *)
Inductive getter : Type := GU8 | GU16 | GU24 | GS24 | GU30 | GU32 | GD64 | GString | GBytes (n : Z).
Definition get `{LuaAPI} (g : getter) (ba : BYTEARRAY) : outcome (list lua_value * BYTEARRAY) :=
  match g with
  | GU8 => luafan_stream_get_u8 ba
  | GU16 => luafan_stream_get_u16 ba
  | GU24 => luafan_stream_get_u24 ba
  | GS24 => luafan_stream_get_s24 ba
  | GU30 => luafan_stream_get_u30 ba
  | GU32 => luafan_stream_get_u32 ba
  | GD64 => luafan_stream_get_d64 ba
  | GString => luafan_stream_get_string ba
  | GBytes n => luafan_stream_get_bytes ba [LUserdata 1; LInt n]
  end.
Fixpoint get_all `{LuaAPI} (ba : BYTEARRAY) (gs : list getter) : outcome (list lua_value * BYTEARRAY) :=
  match gs with
  | [] => mret ([], ba)
  | g :: gs => '(v, ba) ← get g ba; '(vs, ba) ← get_all ba gs; mret (v ++ vs, ba)
  end.

Lemma get_consumes `{LuaAPI} g ba t : reader ba t -> consumes ba (get g ba) t.
Proof.
  intros Hr. destruct g; cbn [get]; try by apply get_string_consumes || apply get_bytes_consumes.
  1,2,6,7: apply consumes_bind; [by apply read8_consumes || (apply number_consumes; [done|lia])|];
    intros; by apply consumes_ret.
  1,2: apply consumes_bind; [|intros; by apply consumes_ret]; apply consumes_bind;
    [apply readbuffer_consumes; [done|lia]|];
    intros [v|] k t' _ Hr' _; [|by apply consumes_ret]; repeat case_bool; by apply consumes_ret.
  apply consumes_bind; [|intros; by apply consumes_ret]. apply u30_loop_consumes; [done|lia|lia].
Qed.

(** C3: Reading is memory safe on any input: on a stream holding arbitrary bytes,
    any sequence of [Get*] calls, in any order and with any requested length,
    returns; it never raises, never reads outside the block, changes nothing but
    the read position, and leaves a well-formed stream holding a suffix of what
    it held. *)
Theorem stream_get_safe `{LuaAPI} gs ba t :
  reader ba t ->
  exists vs k t', get_all ba gs = Ret (vs, set_offset k ba) /\
    reader (set_offset k ba) t' /\ t' `suffix_of` t.
Proof.
  change (reader ba t -> consumes ba (get_all ba gs) t).
  revert ba t. induction gs as [|g gs IH]; intros ba t Hr; cbn [get_all]; [by apply consumes_ret|].
  apply consumes_bind; [by apply get_consumes|]. intros v k t1 _ Hr1 _.
  apply consumes_bind; [by apply IH|]. intros vs k2 t2 _ Hr2 _. by apply consumes_ret.
Qed.

Lemma stream_get_safe_witness :
  exists vs k t', @get_all plain_lua half_string [GString; GU30; GD64; GBytes (-1); GU24] = Ret (vs, set_offset k half_string) /\
    reader (set_offset k half_string) t' /\ t' `suffix_of` [5; 104; 101].
Proof. apply stream_get_safe, half_string_reader. Defined.
