(* ===== verification/LuaState.v ===== *)
(** * The Lua state the bindings share: tables by reference, registry, call stack

    Lua's tables are third-party code, so the table type is a class
    [LuaTable] with the laws of the manual; [assoc_table] is an instance for the
    witnesses.  A table value is an address into a heap, so that two references
    to one table alias it, a table may contain itself, and a write through one
    reference is seen through the others. *)

From S2P Require Import Prelude Lua Double.

(** A float key equal to an integer is converted to it; two keys are the same to
    a table, and numbers equal to [lua_rawequal], when they normalise alike. *)
Definition lua_key (k : lua_value) : lua_value :=
  match k with
  | LFlt d =>
      match d_int d with
      | Some n => if (- 2 ^ 63 <=? n) && (n <? 2 ^ 63) then LInt n else k
      | None => k
      end
  | _ => k
  end.
(** Every value but [nil] and the float NaN is a key. *)
Definition key_ok (k : lua_value) : bool :=
  match k with LNil => false | LFlt d => negb (d_isnan d) | _ => true end.
(** Keys that need no normalisation. *)
Definition plain_key (k : lua_value) : Prop :=
  match k with LNil | LFlt _ => False | _ => True end.

Lemma lua_key_plain k : plain_key k -> lua_key k = k.
Proof. by destruct k. Qed.
Lemma key_ok_plain k : plain_key k -> key_ok k = true.
Proof. by destruct k. Qed.
Lemma lua_key_idemp k : lua_key (lua_key k) = lua_key k.
Proof. destruct k; try done. cbn [lua_key]. destruct (d_int d) eqn:E; [case_match eqn:Hn; [done|]|]; cbn [lua_key]; by rewrite E, ?Hn. Qed.
Lemma lua_key_ok k : key_ok (lua_key k) = key_ok k.
Proof.
  destruct k; try done. cbn [lua_key]. destruct (d_int d) eqn:E; [|done]. case_match; [|done]. cbn [key_ok].
  unfold d_isnan. unfold d_int in E. by destruct (d_exp d =? 2047).
Qed.

(** A table without metatable: raw get and set, the traversal order of
    [lua_next], and the border [lua_rawlen] returns. *)
Class LuaTable (T : Type) : Type := {
  t_empty : T;
  t_get : T -> lua_value -> lua_value;
  t_set : T -> lua_value -> lua_value -> T;
  t_pairs : T -> list (lua_value * lua_value);
  t_len : T -> Z;
  t_pairs_empty : t_pairs t_empty = [];
  t_get_norm : forall t k, t_get t (lua_key k) = t_get t k;
  t_get_nokey : forall t k, key_ok k = false -> t_get t k = LNil;
  t_get_set_key : forall t k v k', key_ok k = true ->
    t_get (t_set t k v) k' = if decide (lua_key k = lua_key k') then v else t_get t k';
  t_pairs_key : forall t k v, (k, v) ∈ t_pairs t <-> lua_key k = k /\ t_get t k = v /\ v <> LNil;
  t_pairs_nodup : forall t, NoDup (map fst (t_pairs t));
  t_len_nonneg : forall t, 0 <= t_len t;
  t_len_in : forall t, 0 < t_len t -> t_get t (LInt (t_len t)) <> LNil;
  t_len_out : forall t, t_get t (LInt (t_len t + 1)) = LNil
}.

Section Table.
Context {T : Type} `{LuaTable T}.

Lemma t_get_set t k v k' : plain_key k -> plain_key k' -> t_get (t_set t k v) k' = if decide (k = k') then v else t_get t k'.
Proof. intros Hk Hk'. rewrite t_get_set_key by (by apply key_ok_plain). by rewrite !lua_key_plain. Qed.
Lemma t_pairs_get t k v : plain_key k -> (k, v) ∈ t_pairs t <-> t_get t k = v /\ v <> LNil.
Proof. intros Hk. rewrite t_pairs_key, lua_key_plain by done. tauto. Qed.
Lemma t_pairs_set t k v k' v' : plain_key k -> k' <> k -> (k', v') ∈ t_pairs (t_set t k v) <-> (k', v') ∈ t_pairs t.
Proof.
  intros Hk Hne. rewrite !t_pairs_key, t_get_set_key by (by apply key_ok_plain). rewrite (lua_key_plain k) by done.
  destruct (decide (k = lua_key k')) as [->|]; [|done].
  split; intros (E & _); by rewrite E in Hne.
Qed.
Lemma t_empty_get k : t_get t_empty k = LNil.
Proof.
  destruct (decide (t_get t_empty k = LNil)) as [|Hne]; [done|]. exfalso.
  assert (Hin : (lua_key k, t_get t_empty k) ∈ t_pairs t_empty).
  { apply t_pairs_key. by rewrite lua_key_idemp, t_get_norm. }
  rewrite t_pairs_empty in Hin. by apply not_elem_of_nil in Hin.
Qed.
Lemma t_pairs_key_ok t k v : (k, v) ∈ t_pairs t -> key_ok k = true.
Proof.
  intros (_ & E & Hne)%t_pairs_key. destruct (key_ok k) eqn:Hk; [done|]. by rewrite t_get_nokey in E.
Qed.
End Table.

(** What [lua_getinfo(L, "Sl", &ar)] says of a stack level; [None] when it fails. *)
Record frame : Type := mk_frame {
  f_what : option (list Z);
  f_short_src : option (list Z);
  f_source : option (list Z);
  f_line : Z
}.

Record tobj (T : Type) : Type := mk_tobj { tab : T; meta : option positive }.
Arguments mk_tobj {T} _ _.
Arguments tab {T} _.
Arguments meta {T} _.

(** Registry fields are named by their strings; an absent one reads as [nil].
    [frames] are the levels from 1 up of the running call. *)
Record lua_state (T : Type) : Type := mk_state {
  heap : gmap positive (tobj T);
  registry : gmap (list Z) lua_value;
  next_ref : positive;
  frames : list (option frame)
}.
Arguments mk_state {T} _ _ _ _.
Arguments heap {T} _.
Arguments registry {T} _.
Arguments next_ref {T} _.
Arguments frames {T} _.

Section State.
Context {T : Type} `{LuaTable T}.

(** References handed out so far are below [next_ref]. *)
Definition state_ok (st : lua_state T) : Prop :=
  forall a o, heap st !! a = Some o -> (a < next_ref st)%positive.

Definition reg_get (st : lua_state T) (k : list Z) : lua_value := default LNil (registry st !! k).
Definition reg_set (st : lua_state T) (k : list Z) (v : lua_value) : lua_state T :=
  mk_state (heap st) (<[k := v]> (registry st)) (next_ref st) (frames st).

Definition lua_newtable (st : lua_state T) : positive * lua_state T :=
  (next_ref st,
   mk_state (<[next_ref st := mk_tobj t_empty None]> (heap st)) (registry st) (Pos.succ (next_ref st)) (frames st)).
Definition lua_newuserdata (st : lua_state T) : positive * lua_state T :=
  (next_ref st, mk_state (heap st) (registry st) (Pos.succ (next_ref st)) (frames st)).

(** Accesses to a table that exists; a reference always does. *)
Definition with_table {A} (st : lua_state T) (a : positive) (k : tobj T -> outcome A) : outcome A :=
  match heap st !! a with Some o => k o | None => UB end.
Definition put_table (st : lua_state T) (a : positive) (o : tobj T) : lua_state T :=
  mk_state (<[a := o]> (heap st)) (registry st) (next_ref st) (frames st).

Definition lua_rawset (st : lua_state T) (a : positive) (k v : lua_value) : outcome (lua_state T) :=
  with_table st a (fun o => Ret (put_table st a (mk_tobj (t_set (tab o) k v) (meta o)))).
(** Setting a value that is not a table, or [nil], as metatable clears it. *)
Definition lua_setmetatable (st : lua_state T) (a : positive) (m : lua_value) : outcome (lua_state T) :=
  with_table st a (fun o =>
    Ret (put_table st a (mk_tobj (tab o) (match m with LTable p => Some p | _ => None end)))).

(** ** Frame lemmas *)

Lemma put_table_ok st a o o' : state_ok st -> heap st !! a = Some o -> state_ok (put_table st a o').
Proof.
  intros Hok Ha b ob. cbn. destruct (decide (a = b)) as [->|Hne].
  - rewrite lookup_insert_eq. intros _. by eapply Hok.
  - rewrite lookup_insert_ne by done. apply Hok.
Qed.
Lemma newtable_ok st a st' : lua_newtable st = (a, st') -> state_ok st -> state_ok st'.
Proof.
  intros [= <- <-] Hok b ob. cbn. destruct (decide (next_ref st = b)) as [->|Hne].
  - rewrite lookup_insert_eq. intros _. lia.
  - rewrite lookup_insert_ne by done. intros Hb%Hok. lia.
Qed.
Lemma fresh_ref st : state_ok st -> heap st !! next_ref st = None.
Proof. intros Hok. destruct (heap st !! next_ref st) eqn:E; [apply Hok in E; lia|done]. Qed.
End State.

(** ** An instance: association lists *)

Abbreviation alist := (list (lua_value * lua_value)).

Fixpoint al_find (t : alist) (k : lua_value) : lua_value :=
  match t with
  | [] => LNil
  | (k', v) :: t => if decide (k' = k) then v else al_find t k
  end.
Definition al_get (t : alist) (k : lua_value) : lua_value :=
  if key_ok k then al_find t (lua_key k) else LNil.
Definition al_set (t : alist) (k v : lua_value) : alist := if key_ok k then (lua_key k, v) :: t else t.
Definition al_pairs (t : alist) : alist :=
  filter (fun p => lua_key p.1 = p.1 /\ p.2 <> LNil) (map (fun k => (k, al_get t k)) (remove_dups (map fst t))).

(** A bound on the integer keys. *)
Definition key_bound (k : lua_value) : Z := match k with LInt n => Z.max 0 n | _ => 0 end.
Fixpoint al_bound (t : alist) : Z :=
  match t with [] => 0 | (k, _) :: t => Z.max (key_bound k) (al_bound t) end.
Fixpoint al_border (fuel : nat) (n : Z) (t : alist) : Z :=
  match fuel with
  | O => n
  | S fuel => if decide (al_get t (LInt (n + 1)) = LNil) then n else al_border fuel (n + 1) t
  end.
Definition al_len (t : alist) : Z := al_border (Z.to_nat (al_bound t)) 0 t.

Lemma al_find_in t k : al_find t k <> LNil -> k ∈ map fst t.
Proof.
  induction t as [|[k' v] t IH]; [done|]. cbn. rewrite elem_of_cons.
  destruct (decide (k' = k)); [by left|]. auto.
Qed.
Lemma al_pairs_key t k v : (k, v) ∈ al_pairs t <-> lua_key k = k /\ al_get t k = v /\ v <> LNil.
Proof.
  unfold al_pairs. rewrite list_elem_of_filter, list_elem_of_fmap. cbn. split.
  - intros ([Hk Hne] & k' & [= <- ->] & _). done.
  - intros (Hk & <- & Hne). split; [done|]. exists k. split; [done|]. rewrite elem_of_remove_dups.
    unfold al_get in Hne. destruct (key_ok k); [|done]. rewrite Hk in Hne. by apply al_find_in.
Qed.
Lemma al_bound_out t n : al_bound t < n -> al_get t (LInt n) = LNil.
Proof.
  unfold al_get. cbn [key_ok lua_key].
  induction t as [|[k v] t IH]; [done|]. cbn. intros Hn. destruct (decide (k = LInt n)) as [->|].
  - cbn in Hn. lia.
  - apply IH. lia.
Qed.
Lemma al_border_spec fuel : forall n t, 0 <= n -> al_bound t <= n + Z.of_nat fuel ->
  (0 < n -> al_get t (LInt n) <> LNil) ->
  let r := al_border fuel n t in
  0 <= r /\ (0 < r -> al_get t (LInt r) <> LNil) /\ al_get t (LInt (r + 1)) = LNil.
Proof.
  induction fuel as [|fuel IH]; intros n t Hn Hb Hin; cbn [al_border].
  - split; [done|]. split; [done|]. apply al_bound_out. lia.
  - destruct (decide (al_get t (LInt (n + 1)) = LNil)); [done|]. apply IH; [lia|lia|done].
Qed.
Lemma al_len_spec t :
  0 <= al_len t /\ (0 < al_len t -> al_get t (LInt (al_len t)) <> LNil) /\ al_get t (LInt (al_len t + 1)) = LNil.
Proof. apply al_border_spec; lia. Qed.

#[refine] Definition assoc_table : LuaTable alist := {|
  t_empty := [];
  t_get := al_get;
  t_set := al_set;
  t_pairs := al_pairs;
  t_len := al_len
|}.
Proof.
  - done.
  - intros t k. unfold al_get. by rewrite lua_key_ok, lua_key_idemp.
  - intros t k Hk. unfold al_get. by rewrite Hk.
  - intros t k v k' Hk. unfold al_get, al_set. rewrite Hk. cbn [al_find].
    destruct (key_ok k') eqn:Hk'; [done|]. destruct (decide (lua_key k = lua_key k')) as [E|]; [|done].
    by rewrite <- lua_key_ok, E, lua_key_ok, Hk' in Hk.
  - intros t k v. apply al_pairs_key.
  - intros t. eapply sublist_NoDup; [apply (NoDup_remove_dups (map fst t))|]. unfold al_pairs.
    generalize (remove_dups (map fst t)) as l. induction l as [|k l IH]; [done|]. cbn.
    case_decide; cbn; by constructor.
  - intros t. apply al_len_spec.
  - intros t. apply al_len_spec.
  - intros t. apply al_len_spec.
Defined.
