(* ===== verification/ObjectBuf.v ===== *)
(** * src/objectbuf.c: object graphs as byte strings

    [encode] collects the numbers, strings and tables a value reaches, numbers
    them, and writes each table as the numbers of its elements; [decode] rebuilds
    the graph, sharing and cycles included.  Both may be given a symbol table of
    values that keep fixed numbers.

    The nine tables of a [CTX] are private to a call: the five that are filled at
    [++count] are lists, the four index tables are Lua tables.  Section [Codec]
    holds the program; the rest of the file says which values can be encoded and
    what [packer] collects of them. *)

From S2P Require Import Prelude ByteArray Lua LuaState Double Stream.

Definition HAS_NUMBER_MASK : Z := Z.shiftl 1 7.
Definition HAS_U30_MASK : Z := Z.shiftl 1 6.
Definition HAS_STRING_MASK : Z := Z.shiftl 1 5.
Definition HAS_FUNCTION_MASK : Z := Z.shiftl 1 4.
Definition HAS_TABLE_MASK : Z := Z.shiftl 1 3.
Definition MAX_U30 : Z := 4294967296.

Definition SYM_INDEX_MAP : Z := 1.
Definition SYM_INDEX_MAP_VK : Z := 2.
Definition SYM_INDEX_INDEX : Z := 3.
Definition FALSE_INDEX : Z := 1.
Definition TRUE_INDEX : Z := 2.

(** The counts of the C struct are the lengths of the lists. *)
Record CTX (T : Type) : Type := mk_ctx {
  c_tables : list lua_value;
  c_numbers : list lua_value;
  c_strings : list lua_value;
  c_funcs : list lua_value;
  c_u30s : list lua_value;
  c_table_idxs : T;
  c_num_idxs : T;
  c_string_idxs : T;
  c_func_idxs : T
}.
Arguments mk_ctx {T} _ _ _ _ _ _ _ _ _.
Arguments c_tables {T} _.
Arguments c_numbers {T} _.
Arguments c_strings {T} _.
Arguments c_funcs {T} _.
Arguments c_u30s {T} _.
Arguments c_table_idxs {T} _.
Arguments c_num_idxs {T} _.
Arguments c_string_idxs {T} _.
Arguments c_func_idxs {T} _.

Section Codec.
Context {T : Type} `{LuaTable T} `{Allocator} `{LuaAPI}.

Definition ctx_init : CTX T := mk_ctx [] [] [] [] [] t_empty t_empty t_empty t_empty.

(** [lua_rawset] raises when the key is no key. *)
Definition raw_set (t : T) (k v : lua_value) : outcome T :=
  if key_ok k then Ret (t_set t k v)
  else Raise (if lua_isnil k then lit "table index is nil" else lit "table index is NaN").

(** ** Collecting *)

(** [floor(value) != value || value >= MAX_U30 || value < 0]: a double without
    an integer value is NaN, has a fraction, or is infinite and then out of range. *)
Definition not_u30 (value : Z) : bool :=
  match d_int value with
  | Some n => (MAX_U30 <=? n) || (n <? 0)
  | None => true
  end.

Definition packer_number (ctx : CTX T) (v : lua_value) : outcome (CTX T) :=
  let value := default 0 (lua_tonumberx v) in
  if lua_isnil (t_get (c_num_idxs ctx) v) then
    if not_u30 value then
      let numbers := c_numbers ctx ++ [v] in
      idxs ← raw_set (c_num_idxs ctx) v (LInt (Zlen numbers));
      mret (mk_ctx (c_tables ctx) numbers (c_strings ctx) (c_funcs ctx) (c_u30s ctx)
              (c_table_idxs ctx) idxs (c_string_idxs ctx) (c_func_idxs ctx))
    else
      let u30s := c_u30s ctx ++ [v] in
      idxs ← raw_set (c_num_idxs ctx) v (LInt (Zlen u30s));
      mret (mk_ctx (c_tables ctx) (c_numbers ctx) (c_strings ctx) (c_funcs ctx) u30s
              (c_table_idxs ctx) idxs (c_string_idxs ctx) (c_func_idxs ctx))
  else mret ctx.

Definition packer_string (ctx : CTX T) (v : lua_value) : outcome (CTX T) :=
  if lua_isnil (t_get (c_string_idxs ctx) v) then
    let strings := c_strings ctx ++ [v] in
    idxs ← raw_set (c_string_idxs ctx) v (LInt (Zlen strings));
    mret (mk_ctx (c_tables ctx) (c_numbers ctx) strings (c_funcs ctx) (c_u30s ctx)
            (c_table_idxs ctx) (c_num_idxs ctx) idxs (c_func_idxs ctx))
  else mret ctx.

Definition packer_function (ctx : CTX T) (v : lua_value) : outcome (CTX T) :=
  if lua_isnil (t_get (c_func_idxs ctx) v) then
    let funcs := c_funcs ctx ++ [v] in
    idxs ← raw_set (c_func_idxs ctx) v (LInt (Zlen funcs));
    mret (mk_ctx (c_tables ctx) (c_numbers ctx) (c_strings ctx) funcs (c_u30s ctx)
            (c_table_idxs ctx) (c_num_idxs ctx) (c_string_idxs ctx) idxs)
  else mret ctx.

Section Packer.
Context (st : lua_state T).

(** The [lua_next] loop of [packer_table]. *)
Fixpoint pack_pairs (packer : lua_value -> CTX T -> outcome (CTX T)) (ps : list (lua_value * lua_value)) (ctx : CTX T)
  : outcome (CTX T) :=
  match ps with
  | [] => mret ctx
  | (k, v) :: ps => ctx ← packer k ctx; ctx ← packer v ctx; pack_pairs packer ps ctx
  end.

Definition packer_table (packer : lua_value -> CTX T -> outcome (CTX T)) (a : positive) (ctx : CTX T) : outcome (CTX T) :=
  if lua_isnil (t_get (c_table_idxs ctx) (LTable a)) then
    let tables := c_tables ctx ++ [LTable a] in
    idxs ← raw_set (c_table_idxs ctx) (LTable a) (LInt (Zlen tables));
    let ctx := mk_ctx tables (c_numbers ctx) (c_strings ctx) (c_funcs ctx) (c_u30s ctx)
                 idxs (c_num_idxs ctx) (c_string_idxs ctx) (c_func_idxs ctx) in
    with_table st a (fun o => pack_pairs packer (t_pairs (tab o)) ctx)
  else mret ctx.

(** A table is entered once, so the calls nest no deeper than there are tables. *)
Fixpoint packer (fuel : nat) (v : lua_value) (ctx : CTX T) : outcome (CTX T) :=
  match fuel with
  | O => UB
  | S fuel =>
      match v with
      | LTable a => packer_table (packer fuel) a ctx
      | LStr _ => packer_string ctx v
      | LInt _ | LFlt _ => packer_number ctx v
      | LFun _ => packer_function ctx v
      | LBool _ | LNil | LUserdata _ => mret ctx
      end
  end.
Definition packer_fuel : nat := S (S (size (heap st))).

(** Field 3 and the field [field] of the symbol table argument, when there is one. *)
Definition open_symbols (sym : lua_value) (field : Z) : outcome (Z * T) :=
  match sym with
  | LTable a =>
      with_table st a (fun o =>
        let index := u32 (lua_tointeger (t_get (tab o) (LInt SYM_INDEX_INDEX))) in
        match t_get (tab o) (LInt field) with
        | LTable b => with_table st b (fun m => Ret (index, tab m))
        | _ => UB
        end)
  | _ => Ret (2, t_empty)
  end.
End Packer.

(** ** Encoding *)

(** [raw] is what the uninitialised [BYTEARRAY] locals hold. *)
Section Encode.
Context (st : lua_state T) (raw : BYTEARRAY).

(** The numbers, u30s and strings loops: an element without a symbol is written
    by [add] and gets the next index. *)
Fixpoint section_loop (add : BYTEARRAY -> lua_value -> outcome BYTEARRAY) (sym_map : T) (index : Z)
    (l : list lua_value) (realcount : Z) (d : BYTEARRAY) (index_map : T) : outcome (Z * BYTEARRAY * T) :=
  match l with
  | [] => mret (realcount, d, index_map)
  | v :: l =>
      if lua_isnil (t_get sym_map v) then
        d ← add d v;
        let realcount := u32 (realcount + 1) in
        index_map ← raw_set index_map v (LInt (u32 (index + realcount)));
        section_loop add sym_map index l realcount d index_map
      else section_loop add sym_map index l realcount d index_map
  end.

(** [bytearray_read_ready(&d)] and the bytes up to [d.total]. *)
Definition drained (d : BYTEARRAY) : outcome (list Z) :=
  let '(_, d) := bytearray_read_ready d in mem_load (ba_buffer d) 0 (ba_total d).

(** The flag byte, the body so far, the last index used and the index map. *)
Definition progress : Type := Z * BYTEARRAY * Z * T.

Definition write_section (mask : Z) (add : BYTEARRAY -> lua_value -> outcome BYTEARRAY) (sym_map : T)
    (l : list lua_value) (p : progress) : outcome progress :=
  let '(flag, bodystream, index, index_map) := p in
  match l with
  | [] => mret p
  | _ =>
      let flag := Z.lor flag mask in
      let '(_, d) := bytearray_alloc raw 0 in
      '(realcount, d, index_map) ← section_loop add sym_map index l 0 d index_map;
      bodystream ← ffi_stream_add_u30 bodystream realcount;
      bytes ← drained d;
      '(_, bodystream) ← bytearray_writebuffer bodystream bytes;
      mret (flag, bodystream, u32 (index + realcount), index_map)
  end.

Definition add_number (d : BYTEARRAY) (v : lua_value) : outcome BYTEARRAY :=
  ffi_stream_add_d64 d (default 0 (lua_tonumberx v)).
Definition add_u30 (d : BYTEARRAY) (v : lua_value) : outcome BYTEARRAY :=
  ffi_stream_add_u30 d (u32 (lua_tointeger v)).
Definition add_string (d : BYTEARRAY) (v : lua_value) : outcome BYTEARRAY :=
  ffi_stream_add_string d (default [] (lua_tolstring v)).

Definition encode_numbers : T -> list lua_value -> progress -> outcome progress :=
  write_section HAS_NUMBER_MASK add_number.
Definition encode_u30s : T -> list lua_value -> progress -> outcome progress :=
  write_section HAS_U30_MASK add_u30.
Definition encode_strings : T -> list lua_value -> progress -> outcome progress :=
  write_section HAS_STRING_MASK add_string.

(** The index a value is written as: its symbol, or its place; 0 when neither. *)
Definition index_of (sym_map index_map : T) (v : lua_value) : Z :=
  let s := t_get sym_map v in
  u32 (lua_tointeger (if lua_isnil s then t_get index_map v else s)).

(** Elements 1, 2, ... up to the first nil; there are no more than keys. *)
Fixpoint encode_array (fuel : nat) (sym_map index_map : T) (t : T) (tb_count : Z) (d : BYTEARRAY)
  : outcome (Z * BYTEARRAY) :=
  match fuel with
  | O => UB
  | S fuel =>
      let v := t_get t (LInt (tb_count + 1)) in
      if lua_isnil v then mret (tb_count, d)
      else d ← ffi_stream_add_u30 d (index_of sym_map index_map v);
           encode_array fuel sym_map index_map t (s32 (tb_count + 1)) d
  end.

(** [value == (int)value && value <= tb_count && value > 0], [value] being 0 for
    a key that is no number.  A double outside the range of [int] is not equal to
    its conversion, whatever that gives. *)
Definition in_array (tb_count : Z) (k : lua_value) : bool :=
  match d_int (default 0 (lua_tonumberx k)) with
  | Some value => (- 2 ^ 31 <=? value) && (value <? 2 ^ 31) && (value <=? tb_count) && (0 <? value)
  | None => false
  end.

Fixpoint encode_hash (sym_map index_map : T) (ps : list (lua_value * lua_value)) (tb_count : Z) (d : BYTEARRAY)
  : outcome BYTEARRAY :=
  match ps with
  | [] => mret d
  | (k, v) :: ps =>
      if in_array tb_count k then encode_hash sym_map index_map ps tb_count d
      else d ← ffi_stream_add_u30 d (index_of sym_map index_map k);
           d ← ffi_stream_add_u30 d (index_of sym_map index_map v);
           encode_hash sym_map index_map ps tb_count d
  end.

(** One table, as a string of its own in the body. *)
Definition encode_table (sym_map index_map : T) (v : lua_value) (bodystream : BYTEARRAY) : outcome BYTEARRAY :=
  match v with
  | LTable a => with_table st a (fun o =>
      let '(_, d) := bytearray_alloc raw 0 in
      '(tb_count, d) ← encode_array (S (length (t_pairs (tab o)))) sym_map index_map (tab o) 0 d;
      d ← encode_hash sym_map index_map (t_pairs (tab o)) tb_count d;
      bytes ← drained d;
      let '(_, d2) := bytearray_alloc raw 0 in
      d2 ← ffi_stream_add_u30 d2 (u32 tb_count);
      bytes2 ← drained d2;
      bodystream ← ffi_stream_add_u30 bodystream (u32 (Zlen bytes + Zlen bytes2));
      bodystream ← ffi_stream_add_bytes bodystream bytes2;
      ffi_stream_add_bytes bodystream bytes)
  | _ => UB
  end.

Fixpoint number_tables (index : Z) (i : Z) (l : list lua_value) (index_map : T) : outcome T :=
  match l with
  | [] => mret index_map
  | v :: l => index_map ← raw_set index_map v (LInt (u32 (index + i))); number_tables index (i + 1) l index_map
  end.
Fixpoint write_tables (sym_map index_map : T) (l : list lua_value) (bodystream : BYTEARRAY) : outcome BYTEARRAY :=
  match l with
  | [] => mret bodystream
  | v :: l => bodystream ← encode_table sym_map index_map v bodystream; write_tables sym_map index_map l bodystream
  end.
Definition encode_tables (sym_map : T) (l : list lua_value) (p : progress) : outcome progress :=
  let '(flag, bodystream, index, index_map) := p in
  match l with
  | [] => mret p
  | _ =>
      bodystream ← ffi_stream_add_u30 bodystream (u32 (Zlen l));
      index_map ← number_tables index 1 l index_map;
      bodystream ← write_tables sym_map index_map l bodystream;
      mret (Z.lor flag HAS_TABLE_MASK, bodystream, index, index_map)
  end.

Definition luafan_objectbuf_encode (args : list lua_value) : outcome (list lua_value) :=
  match arg args 1 with
  | LNil => Raise (lit "no argument.")
  | LBool b => mret [LStr (cstr (if b then [1] else [0]))]
  | v =>
      ctx ← packer st (packer_fuel st) v ctx_init;
      let '(_, bodystream) := bytearray_alloc raw 64 in
      '(_, bodystream) ← bytearray_write8 bodystream 0;
      '(index, sym_map) ← open_symbols st (arg args 2) SYM_INDEX_MAP;
      index_map ← raw_set t_empty (LBool false) (LInt FALSE_INDEX);
      index_map ← raw_set index_map (LBool true) (LInt TRUE_INDEX);
      p ← encode_numbers sym_map (c_numbers ctx) (0, bodystream, index, index_map);
      p ← encode_u30s sym_map (c_u30s ctx) p;
      p ← encode_strings sym_map (c_strings ctx) p;
      '(flag, bodystream, _, _) ← encode_tables sym_map (c_tables ctx) p;
      let '(_, bodystream) := bytearray_read_ready bodystream in
      buffer ← mem_store (ba_buffer bodystream) 0 [flag];
      bytes ← mem_load buffer 0 (ba_total bodystream);
      mret [LStr bytes]
  end.

Definition luafan_objectbuf_symbol (args : list lua_value) : outcome (CTX T) :=
  match args with
  | [] => Raise (lit "no argument.")
  | _ => packer st (packer_fuel st) (arg args 1) ctx_init
  end.
End Encode.

(** ** Decoding *)

(** Either [nil] and a message, or the input left, the last index used and the
    index map. *)
Inductive section_result : Type :=
  | Failed (msg : list Z)
  | Filled (input : BYTEARRAY) (index : Z) (index_map : T).

(** The loop of a section, [for (; i <= count; i++)] with a [uint32_t i]: [get]
    reads an element, [fail] is the message for the [i]th one missing. *)
Fixpoint fill_loop (get : BYTEARRAY -> outcome (option lua_value * BYTEARRAY)) (fail : Z -> list Z) (fuel : nat)
    (count i : Z) (input : BYTEARRAY) (index : Z) (index_map : T) : outcome section_result :=
  if i <=? count then
    match fuel with
    | O => UB
    | S fuel =>
        '(v, input) ← get input;
        match v with
        | None => mret (Failed (fail i))
        | Some v =>
            let index := u32 (index + 1) in
            index_map ← raw_set index_map (LInt index) v;
            fill_loop get fail fuel count (u32 (i + 1)) input index index_map
        end
    end
  else mret (Filled input index index_map).

Definition read_section (get : BYTEARRAY -> outcome (option lua_value * BYTEARRAY)) (no_count : list Z)
    (fail : Z -> Z -> list Z) (input : BYTEARRAY) (index : Z) (index_map : T) : outcome section_result :=
  '(count, input) ← ffi_stream_get_u30 input;
  match count with
  | None => mret (Failed no_count)
  | Some count => fill_loop get (fun i => fail i count) (Z.to_nat count) count 1 input index index_map
  end.

Definition get_number (input : BYTEARRAY) : outcome (option lua_value * BYTEARRAY) :=
  '(r, input) ← ffi_stream_get_d64 input; mret (fmap (M:=option) LFlt r, input).
Definition get_u30 (input : BYTEARRAY) : outcome (option lua_value * BYTEARRAY) :=
  '(r, input) ← ffi_stream_get_u30 input; mret (fmap (M:=option) LInt r, input).
Definition get_string (input : BYTEARRAY) : outcome (option lua_value * BYTEARRAY) :=
  '(buff, _, input) ← ffi_stream_get_string input; mret (fmap (M:=option) LStr buff, input).

Definition decode_failed : list Z := lit "decode failed.".
Definition decode_numbers : BYTEARRAY -> Z -> T -> outcome section_result :=
  read_section get_number (lit "decode failed, can't get `number` count.")
    (fun i count => lit "decode failed, can't decode `number`, " ++ dec_of_Z (s32 i) ++ lit "/" ++ dec_of_Z (s32 count)).
Definition decode_u30s : BYTEARRAY -> Z -> T -> outcome section_result :=
  read_section get_u30 decode_failed (fun _ _ => decode_failed).
Definition decode_strings : BYTEARRAY -> Z -> T -> outcome section_result :=
  read_section get_string decode_failed (fun _ _ => decode_failed).

Section Tables.
Context (sym_map_vk : T).

(** The value with index [vi], or the error that there is none. *)
Definition resolve (name : list Z) (index_map : T) (vi : Z) : outcome lua_value :=
  let s := t_get sym_map_vk (LInt vi) in
  if lua_isnil s then
    let v := t_get index_map (LInt vi) in
    if lua_isnil v then Raise (name ++ lit "=" ++ dec_of_Z (s32 vi) ++ lit " not found.") else mret v
  else mret s.

(** The loop that makes the tables, [for (; i <= count; i++)] with a [uint32_t i]:
    [None] when it has not ended after [fuel] rounds. *)
Fixpoint new_tables (fuel : nat) (count i index : Z) (index_map : T) (st : lua_state T) : option (T * lua_state T) :=
  if i <=? count then
    match fuel with
    | O => None
    | S fuel =>
        let '(a, st) := lua_newtable st in
        new_tables fuel count (u32 (i + 1)) index (t_set index_map (LInt (u32 (index + i))) (LTable a)) st
    end
  else Some (index_map, st).

(** A message, or the state after the loop. *)
Abbreviation filling := (outcome (list Z + BYTEARRAY * lua_state T)).

(** [rawset] on the table [a] being filled. *)
Definition fill (st : lua_state T) (a : positive) (k v : lua_value) : outcome (lua_state T) :=
  with_table st a (fun o => t ← raw_set (tab o) k v; mret (put_table st a (mk_tobj t (meta o)))).

(** [for (; j <= count; j++)] with an [int j] and a [uint32_t count]. *)
Fixpoint decode_array (index_map : T) (a : positive) (fuel : nat) (count j : Z) (d : BYTEARRAY) (st : lua_state T) : filling :=
  if u32 j <=? count then
    match fuel with
    | O => UB
    | S fuel =>
        '(vi, d) ← ffi_stream_get_u30 d;
        match vi with
        | None => mret (inl (lit "'i value' decode failed."))
        | Some vi =>
            v ← resolve (lit "vi") index_map vi;
            st ← fill st a (LInt j) v;
            if j =? 2 ^ 31 - 1 then UB
            else decode_array index_map a fuel count (j + 1) d st
        end
    end
  else mret (inr (d, st)).

(** Every pair takes two bytes or more. *)
Fixpoint decode_hash (fuel : nat) (index_map : T) (a : positive) (d : BYTEARRAY) (st : lua_state T) : filling :=
  if 0 <? bytearray_read_available d then
    match fuel with
    | O => UB
    | S fuel =>
        '(ki, d) ← ffi_stream_get_u30 d;
        match ki with
        | None => mret (inl decode_failed)
        | Some ki =>
            '(vi, d) ← ffi_stream_get_u30 d;
            match vi with
            | None => mret (inl decode_failed)
            | Some vi =>
                k ← resolve (lit "ki") index_map ki;
                v ← resolve (lit "vi") index_map vi;
                st ← fill st a k v;
                decode_hash fuel index_map a d st
            end
        end
    end
  else mret (inr (d, st)).

(** The body of the loop over the tables: [a] is the table, [d0] what the
    zeroed local [d] becomes. *)
Definition decode_table (index_map : T) (v : lua_value) (input : BYTEARRAY) (st : lua_state T) : filling :=
  '(buff, buflen, input) ← ffi_stream_get_string input;
  match buff with
  | None => mret (inl decode_failed)
  | Some _ =>
      let '(_, d) := bytearray_wrap_buffer (mk_ba 0 0 0 None 0 false false) buff buflen in
      '(count, d) ← ffi_stream_get_u30 d;
      match count with
      | None => mret (inl (lit "'count' decode failed."))
      | Some count =>
          match v with
          | LTable a =>
              r ← decode_array index_map a (Z.to_nat count) count 1 d st;
              match r with
              | inl msg => mret (inl msg)
              | inr (d, st) =>
                  r ← decode_hash (Z.to_nat (bytearray_read_available d)) index_map a d st;
                  match r with
                  | inl msg => mret (inl msg)
                  | inr (_, st) => mret (inr (input, st))
                  end
              end
          | _ => UB
          end
      end
  end.

Fixpoint decode_tables_loop (index_map : T) (fuel : nat) (count i index : Z) (input : BYTEARRAY) (st : lua_state T) : filling :=
  if i <=? count then
    match fuel with
    | O => UB
    | S fuel =>
        r ← decode_table index_map (t_get index_map (LInt (u32 (index + i)))) input st;
        match r with
        | inl msg => mret (inl msg)
        | inr (input, st) => decode_tables_loop index_map fuel count (u32 (i + 1)) index input st
        end
    end
  else mret (inr (input, st)).

(** [UB] also when the first loop does not end. *)
Definition decode_tables (input : BYTEARRAY) (index : Z) (index_map : T) (st : lua_state T)
  : outcome (list Z + T * lua_state T) :=
  '(count, input) ← ffi_stream_get_u30 input;
  match count with
  | None => mret (inl decode_failed)
  | Some count =>
      match new_tables (Z.to_nat count) count 1 index index_map st with
      | None => UB
      | Some (index_map, st) =>
          r ← decode_tables_loop index_map (Z.to_nat count) count 1 index input st;
          match r with
          | inl msg => mret (inl msg)
          | inr (_, st) => mret (inr (index_map, st))
          end
      end
  end.
End Tables.

(** [if (flag & mask)] a section is read, from index [index + 1] on: the new
    value of [last_top] and the rest. *)
Definition optional_section (flag mask : Z) (read : BYTEARRAY -> Z -> T -> outcome section_result) (last_top : Z)
    (input : BYTEARRAY) (index : Z) (index_map : T) : outcome (Z * section_result) :=
  if c_true (Z.land flag mask)
  then r ← read input index index_map; mret (s32 (u32 (index + 1)), r)
  else mret (last_top, Filled input index index_map).

(** The value with the index [last_top], which [decode] returns. *)
Definition decoded (vk : T) (last_top : Z) (index_map : T) : lua_value :=
  let s := t_get vk (LInt last_top) in
  if lua_isnil s then t_get index_map (LInt last_top) else s.

(** [decode] up to the tables: the values it returns when there are none, or the
    symbols, the input, the last index used and the index map. *)
Definition decode_sections (raw : BYTEARRAY) (args : list lua_value) (st : lua_state T)
  : outcome (list lua_value + T * BYTEARRAY * Z * T) :=
  buf ← luaL_checklstring (arg args 1);
  let '(_, input) := bytearray_wrap_buffer raw (Some buf) (Zlen buf) in
  '(f, input) ← bytearray_read8 input;
  let flag := default 0 f in
  if flag =? 0 then mret (inl [LBool false])
  else if flag =? 1 then mret (inl [LBool true])
  else
    '(index, vk) ← open_symbols st (arg args 2) SYM_INDEX_MAP_VK;
    let last_top := s32 (u32 (index + 1)) in
    index_map ← raw_set t_empty (LInt FALSE_INDEX) (LBool false);
    index_map ← raw_set index_map (LInt TRUE_INDEX) (LBool true);
    '(last_top, r) ← optional_section flag HAS_NUMBER_MASK decode_numbers last_top input index index_map;
    match r with
    | Failed msg => mret (inl [LNil; LStr msg])
    | Filled input index index_map =>
        '(last_top, r) ← optional_section flag HAS_U30_MASK decode_u30s last_top input index index_map;
        match r with
        | Failed msg => mret (inl [LNil; LStr msg])
        | Filled input index index_map =>
            '(last_top, r) ← optional_section flag HAS_STRING_MASK decode_strings last_top input index index_map;
            match r with
            | Failed msg => mret (inl [LNil; LStr msg])
            | Filled input index index_map =>
                if c_true (Z.land flag HAS_TABLE_MASK) then mret (inr (vk, input, index, index_map))
                else mret (inl [decoded vk last_top index_map])
            end
        end
    end.

Definition luafan_objectbuf_decode (raw : BYTEARRAY) (args : list lua_value) (st : lua_state T)
  : outcome (list lua_value * lua_state T) :=
  r ← decode_sections raw args st;
  match r with
  | inl values => mret (values, st)
  | inr (vk, input, index, index_map) =>
      let last_top := s32 (u32 (index + 1)) in
      r ← decode_tables vk input index index_map st;
      match r with
      | inl msg => mret ([LNil; LStr msg], st)
      | inr (index_map, st) => mret ([decoded vk last_top index_map], st)
      end
  end.
End Codec.

(** ** What can be encoded *)

(** A number that survives as a double. *)
Definition num_ok (v : lua_value) : Prop :=
  match v with
  | LInt n => - 2 ^ 53 <= n <= 2 ^ 53
  | LFlt d => 0 <= d < 2 ^ 64 /\ d_isnan d = false
  | _ => False
  end.
Definition scalar_ok (v : lua_value) : Prop :=
  match v with
  | LBool _ => True
  | LInt _ | LFlt _ => num_ok v
  | LStr s => bytes_ok s /\ Zlen s < 2 ^ 32
  | _ => False
  end.

Lemma scalar_key_ok v : scalar_ok v -> key_ok v = true.
Proof. destruct v; try done. intros [_ Hd]. cbn. by rewrite Hd. Qed.
Lemma is_number_key v : is_number (lua_key v) = is_number v.
Proof. destruct v; try done. cbn. by repeat case_match. Qed.
Lemma lua_key_not_number v : is_number v = false -> lua_key v = v.
Proof. by destruct v. Qed.

(** [v] is already in one of the lists. *)
Definition listed {T} (ctx : CTX T) (v : lua_value) : Prop :=
  match v with
  | LTable _ => v ∈ c_tables ctx
  | LStr _ => v ∈ c_strings ctx
  | LInt _ | LFlt _ => exists w, w ∈ c_numbers ctx ++ c_u30s ctx /\ lua_key w = lua_key v
  | _ => True
  end.

(** An index table that knows exactly the keys of a list. *)
Definition indexes {T} `{LuaTable T} (t : T) (l : list lua_value) : Prop :=
  forall v, t_get t v <> LNil <-> exists w, w ∈ l /\ lua_key w = lua_key v.

Section Packing.
Context {T : Type} `{LuaTable T} `{LuaAPI}.
Context (st : lua_state T).

Inductive reaches (root : lua_value) : lua_value -> Prop :=
  | reaches_refl : reaches root root
  | reaches_key a o k v : reaches root (LTable a) -> heap st !! a = Some o -> (k, v) ∈ t_pairs (tab o) -> reaches root k
  | reaches_value a o k v : reaches root (LTable a) -> heap st !! a = Some o -> (k, v) ∈ t_pairs (tab o) -> reaches root v.

(** Every value reached is a scalar that survives, or a table. *)
Definition encodable (root : lua_value) : Prop :=
  forall v, reaches root v -> scalar_ok v \/ exists a, v = LTable a /\ is_Some (heap st !! a).

Definition classified (ctx : CTX T) : Prop :=
  Forall (fun v => num_ok v /\ not_u30 (default 0 (lua_tonumberx v)) = true) (c_numbers ctx) /\
  Forall (fun v => num_ok v /\ not_u30 (default 0 (lua_tonumberx v)) = false) (c_u30s ctx) /\
  Forall (fun v => is_string v = true /\ scalar_ok v) (c_strings ctx) /\
  Forall (fun v => exists a, v = LTable a /\ is_Some (heap st !! a)) (c_tables ctx).

Record ctx_ok (ctx : CTX T) : Prop := {
  x_tables : indexes (c_table_idxs ctx) (c_tables ctx);
  x_numbers : indexes (c_num_idxs ctx) (c_numbers ctx ++ c_u30s ctx);
  x_strings : indexes (c_string_idxs ctx) (c_strings ctx);
  x_class : classified ctx;
  x_nodup : NoDup (map lua_key (c_numbers ctx ++ c_u30s ctx)) /\ NoDup (c_strings ctx) /\ NoDup (c_tables ctx)
}.

(** Lists only grow at their ends. *)
Definition grew (ctx ctx' : CTX T) : Prop :=
  c_tables ctx `prefix_of` c_tables ctx' /\ c_numbers ctx `prefix_of` c_numbers ctx' /\
  c_u30s ctx `prefix_of` c_u30s ctx' /\ c_strings ctx `prefix_of` c_strings ctx'.

Lemma grew_refl ctx : grew ctx ctx.
Proof. done. Qed.
Lemma grew_trans c1 c2 c3 : grew c1 c2 -> grew c2 c3 -> grew c1 c3.
Proof. intros (? & ? & ? & ?) (? & ? & ? & ?). by split; [|split; [|split]]; etrans. Qed.
Lemma prefix_elem {A} (l k : list A) x : l `prefix_of` k -> x ∈ l -> x ∈ k.
Proof. intros [r ->] Hx. apply elem_of_app. by left. Qed.
Lemma listed_grew c1 c2 v : grew c1 c2 -> listed c1 v -> listed c2 v.
Proof.
  intros (Ht & Hn & Hu & Hs). destruct v; cbn; try done; try (by apply prefix_elem).
  all: intros (w & Hw & E); exists w; split; [|done].
  all: apply elem_of_app in Hw as [Hw|Hw]; apply elem_of_app; [left|right]; by eapply prefix_elem.
Qed.

Lemma t_get_fresh (t : T) l v :
  indexes t l -> key_ok v = true -> t_get t v = LNil -> forall n, indexes (t_set t v (LInt n)) (l ++ [v]).
Proof.
  intros Hi Hk Hn n w. rewrite t_get_set_key by done. destruct (decide (lua_key v = lua_key w)) as [E|E].
  - split; [|done]. intros _. exists v. split; [|done]. apply elem_of_app. right. by apply list_elem_of_singleton.
  - rewrite (Hi w). split.
    + intros (u & Hu & Eu). exists u. split; [|done]. apply elem_of_app. by left.
    + intros (u & Hu & Eu). apply elem_of_app in Hu as [Hu|Hu%list_elem_of_singleton]; [by exists u|congruence].
Qed.
Lemma t_get_indexed (t : T) l v : indexes t l -> lua_isnil (t_get t v) = true -> t_get t v = LNil /\ ~ exists w, w ∈ l /\ lua_key w = lua_key v.
Proof. intros Hi Hn. destruct (t_get t v) eqn:E; try done. split; [done|]. intros Hw. by apply (Hi v) in Hw. Qed.
Lemma t_get_indexed_not (t : T) l v : indexes t l -> lua_isnil (t_get t v) = false -> exists w, w ∈ l /\ lua_key w = lua_key v.
Proof. intros Hi Hn. apply (Hi v). intros E. by rewrite E in Hn. Qed.
End Packing.

Section PackerSpec.
Context {T : Type} `{LuaTable T} `{LuaAPI}.
Context (st : lua_state T) (root : lua_value) (Henc : encodable st root).

Abbreviation reached := (reaches st root).

(** The contents of the tables added between two contexts are listed. *)
Definition closed_from (ctx ctx' : CTX T) : Prop :=
  forall a o k w, LTable a ∈ c_tables ctx' -> LTable a ∉ c_tables ctx -> heap st !! a = Some o ->
    (k, w) ∈ t_pairs (tab o) -> listed ctx' k /\ listed ctx' w.

(** What a call on [v] leaves: [v] is listed, and so is everything in the tables
    that were added. *)
Record packed (ctx ctx' : CTX T) (v : lua_value) : Prop := {
  k_ok : ctx_ok st ctx';
  k_grew : grew ctx ctx';
  k_listed : listed ctx' v;
  k_closed : closed_from ctx ctx'
}.

Lemma closed_trans c1 c2 c3 : grew c2 c3 -> closed_from c1 c2 -> closed_from c2 c3 -> closed_from c1 c3.
Proof.
  intros Hg H12 H23 a o k w Ha Hna Ho Hin. destruct (decide (LTable a ∈ c_tables c2)) as [Ha2|Ha2].
  - destruct (H12 a o k w) as [? ?]; [done..|]. split; by eapply listed_grew.
  - by apply (H23 a o).
Qed.

Lemma packed_same ctx v : ctx_ok st ctx -> listed ctx v -> packed ctx ctx v.
Proof. constructor; done. Qed.

Lemma packed_leaf ctx ctx' v : ctx_ok st ctx' -> grew ctx ctx' -> listed ctx' v -> c_tables ctx' = c_tables ctx -> packed ctx ctx' v.
Proof. intros ? ? ? E. constructor; try done. intros a o k w. by rewrite E. Qed.

Lemma nodup_snoc {A} (l : list A) x : NoDup l -> x ∉ l -> NoDup (l ++ [x]).
Proof.
  intros Hl Hx. apply NoDup_app. split; [done|]. split; [|apply NoDup_singleton].
  by intros y Hy ->%list_elem_of_singleton.
Qed.

Lemma packer_string_spec ctx s :
  ctx_ok st ctx -> scalar_ok (LStr s) -> exists ctx', packer_string ctx (LStr s) = Ret ctx' /\ packed ctx ctx' (LStr s).
Proof.
  intros Hx Hs. unfold packer_string. destruct (lua_isnil (t_get (c_string_idxs ctx) (LStr s))) eqn:E.
  - destruct (t_get_indexed _ _ _ (x_strings st ctx Hx) E) as [Hnil Hno]. unfold raw_set. cbn [key_ok mbind outcome_bind].
    eexists. split; [reflexivity|]. destruct Hx as [Xt Xn Xs (Cn & Cu & Cs & Ct) (Nn & Ns & Nt)].
    apply packed_leaf; [|by split; [|split; [|split]]; cbn; try apply prefix_app_r|cbn; apply elem_of_app; right; by apply list_elem_of_singleton|done].
    constructor; cbn [c_table_idxs c_tables c_num_idxs c_numbers c_u30s c_string_idxs c_strings]; try done.
    + by apply t_get_fresh.
    + split; [done|]. split; [done|]. split; [|done]. apply Forall_app. split; [done|]. apply Forall_singleton. done.
    + split; [done|]. split; [|done]. apply nodup_snoc; [done|]. intros Hin. apply Hno. by exists (LStr s).
  - eexists. split; [reflexivity|]. apply packed_same; [done|]. cbn.
    destruct (t_get_indexed_not _ _ _ (x_strings st ctx Hx) E) as (w & Hw & Ew).
    pose proof (x_class st ctx Hx) as (_ & _ & Cs & _). rewrite Forall_forall in Cs. destruct (Cs w Hw) as [Hstr _].
    destruct w; try done. by injection Ew as ->.
Qed.

Lemma indexes_perm (t : T) l l' : l ≡ₚ l' -> indexes t l -> indexes t l'.
Proof. intros Hp Hi v. rewrite (Hi v). by setoid_rewrite Hp. Qed.

Lemma packer_number_spec ctx v :
  ctx_ok st ctx -> is_number v = true -> num_ok v -> exists ctx', packer_number ctx v = Ret ctx' /\ packed ctx ctx' v.
Proof.
  intros Hx Hnum Hv. assert (Hk : key_ok v = true) by (by apply scalar_key_ok; destruct v).
  unfold packer_number. destruct (lua_isnil (t_get (c_num_idxs ctx) v)) eqn:E.
  2: { eexists. split; [reflexivity|]. apply packed_same; [done|].
       pose proof (t_get_indexed_not _ _ _ (x_numbers st ctx Hx) E). by destruct v. }
  destruct (t_get_indexed _ _ _ (x_numbers st ctx Hx) E) as [Hnil Hno]. unfold raw_set. rewrite Hk.
  destruct Hx as [Xt Xn Xs (Cn & Cu & Cs & Ct) (Nn & Ns & Nt)].
  assert (Hp1 : (c_numbers ctx ++ c_u30s ctx) ++ [v] ≡ₚ (c_numbers ctx ++ [v]) ++ c_u30s ctx).
  { rewrite <- !app_assoc. apply Permutation_app_head, Permutation_app_comm. }
  assert (Hp2 : (c_numbers ctx ++ c_u30s ctx) ++ [v] ≡ₚ c_numbers ctx ++ c_u30s ctx ++ [v]) by (by rewrite <- app_assoc).
  assert (Hnd : NoDup (map lua_key ((c_numbers ctx ++ c_u30s ctx) ++ [v]))).
  { rewrite map_app. apply nodup_snoc; [done|]. intros (w & Hw & Hin)%list_elem_of_fmap. apply Hno. by exists w. }
  assert (Hl : forall l, (c_numbers ctx ++ c_u30s ctx) ++ [v] ≡ₚ l -> exists w, w ∈ l /\ lua_key w = lua_key v).
  { intros l Hp. exists v. split; [|done]. rewrite <- Hp. apply elem_of_app. right. by apply list_elem_of_singleton. }
  destruct (not_u30 _) eqn:Hu; cbn [mbind outcome_bind]; eexists; (split; [reflexivity|]); (apply packed_leaf; [| | |done]).
  all: try (by split; [|split; [|split]]; cbn; try apply prefix_app_r).
  all: try (by destruct v; try done; cbn; apply Hl; first [exact Hp1|exact Hp2]).
  all: constructor; cbn [c_table_idxs c_tables c_num_idxs c_numbers c_u30s c_string_idxs c_strings]; try done.
  - by eapply indexes_perm, t_get_fresh.
  - split; [|done]. apply Forall_app. split; [done|]. by apply Forall_singleton.
  - split; [|done]. by rewrite <- Hp1.
  - by eapply indexes_perm, t_get_fresh.
  - split; [done|]. split; [|done]. apply Forall_app. split; [done|]. by apply Forall_singleton.
  - split; [|done]. by rewrite <- Hp2.
Qed.

(** Tables entered are distinct and exist. *)
Lemma tables_bound ctx : ctx_ok st ctx -> (length (c_tables ctx) <= size (heap st))%nat.
Proof.
  intros [_ _ _ (_ & _ & _ & Ct) (_ & _ & Nt)]. rewrite <- (size_dom (D := gset positive)).
  assert (Hsub : forall l, NoDup l -> Forall (fun v => exists a, v = LTable a /\ is_Some (heap st !! a)) l ->
    exists X : gset positive, X ⊆ dom (heap st) /\ size X = length l /\ forall a, a ∈ X <-> LTable a ∈ l).
  { induction 1 as [|v l Hv _ IH]; intros Hl.
    - exists ∅. split; [set_solver|]. split; [by rewrite size_empty|]. intros a. split; [set_solver|by intros ?%not_elem_of_nil].
    - inversion Hl as [|? ? (a & -> & Ha) Hl']; subst. destruct (IH Hl') as (X & HX & Hs & He).
      exists ({[a]} ∪ X). split; [|split].
      + intros b [->%elem_of_singleton|Hb]%elem_of_union; [by apply elem_of_dom|by apply HX].
      + rewrite size_union by (rewrite disjoint_singleton_l, He; done). rewrite size_singleton. cbn. by rewrite Hs.
      + intros b. rewrite elem_of_union, elem_of_singleton, elem_of_cons, He. split; (intros [?|?]; [left; congruence|by right]). }
  destruct (Hsub _ Nt Ct) as (X & HX & <- & _). by apply subseteq_size.
Qed.

Lemma pack_pairs_spec (p : lua_value -> CTX T -> outcome (CTX T)) c0 ps : forall c,
  (forall v c, reached v -> ctx_ok st c -> grew c0 c -> exists c', p v c = Ret c' /\ packed c c' v) ->
  (forall k w, (k, w) ∈ ps -> reached k /\ reached w) -> ctx_ok st c -> grew c0 c ->
  exists c', pack_pairs p ps c = Ret c' /\ ctx_ok st c' /\ grew c c' /\ closed_from c c' /\
    (forall k w, (k, w) ∈ ps -> listed c' k /\ listed c' w).
Proof.
  induction ps as [|[k w] ps IHps]; intros c IH Hps Hc Hgc.
  { exists c. split; [done|]. split; [done|]. split; [done|]. split; [by intros ? ? ? ? ? ?|by intros ? ? ?%not_elem_of_nil]. }
  destruct (Hps k w) as [Hrk Hrw]; [by left|]. cbn [pack_pairs].
  destruct (IH k c Hrk Hc Hgc) as (c1 & -> & [Hc1 G1 L1 C1]). cbn [mbind outcome_bind].
  destruct (IH w c1 Hrw Hc1) as (c2 & -> & [Hc2 G2 L2 C2]); [by eapply grew_trans|]. cbn [mbind outcome_bind].
  destruct (IHps c2 IH) as (c3 & -> & Hc3 & G3 & C3 & L3); [|done|by do 2 (eapply grew_trans; [done|])|].
  { intros k' w' Hin. apply Hps. by right. }
  exists c3. split; [done|]. split; [done|]. split; [by do 2 (eapply grew_trans; [done|])|]. split.
  - eapply closed_trans; [|exact C1|]; [by eapply grew_trans|]. by eapply closed_trans.
  - intros k' w' [[= -> ->]|Hin]%elem_of_cons; [|by apply L3]. split; [|by eapply listed_grew].
    eapply listed_grew; [exact G3|]. by eapply listed_grew.
Qed.

Lemma packer_spec fuel : forall v ctx,
  reached v -> ctx_ok st ctx -> (size (heap st) < fuel + length (c_tables ctx))%nat ->
  exists ctx', packer st fuel v ctx = Ret ctx' /\ packed ctx ctx' v.
Proof.
  induction fuel as [|fuel IH]; intros v ctx Hr Hx Hf.
  { apply tables_bound in Hx. lia. }
  destruct (Henc v Hr) as [Hs|(a & -> & o & Ho)].
  { cbn [packer]. destruct v; try done.
    - eexists. split; [reflexivity|]. by apply packed_same.
    - by apply packer_number_spec.
    - by apply packer_number_spec.
    - by apply packer_string_spec. }
  cbn [packer]. unfold packer_table. destruct (lua_isnil (t_get (c_table_idxs ctx) (LTable a))) eqn:E.
  2: { eexists. split; [reflexivity|]. apply packed_same; [done|]. cbn.
       destruct (t_get_indexed_not _ _ _ (x_tables st ctx Hx) E) as (w & Hw & Ew).
       pose proof (x_class st ctx Hx) as (_ & _ & _ & Ct). rewrite Forall_forall in Ct. destruct (Ct w Hw) as (b & -> & _).
       by injection Ew as ->. }
  destruct (t_get_indexed _ _ _ (x_tables st ctx Hx) E) as [Hnil Hno]. unfold raw_set. cbn [key_ok mbind outcome_bind].
  unfold with_table. rewrite Ho.
  set (ctx1 := mk_ctx _ _ _ _ _ _ _ _ _).
  assert (Hx1 : ctx_ok st ctx1).
  { destruct Hx as [Xt Xn Xs (Cn & Cu & Cs & Ct) (Nn & Ns & Nt)].
    constructor; cbn [ctx1 c_table_idxs c_tables c_num_idxs c_numbers c_u30s c_string_idxs c_strings]; try done.
    - by apply t_get_fresh.
    - split; [done|]. split; [done|]. split; [done|]. apply Forall_app. split; [done|]. apply Forall_singleton. by eauto.
    - split; [done|]. split; [done|]. apply nodup_snoc; [done|]. intros Hin. apply Hno. by exists (LTable a). }
  assert (Hg1 : grew ctx ctx1) by (by split; [|split; [|split]]; cbn; try apply prefix_app_r).
  destruct (pack_pairs_spec (packer st fuel) ctx1 (t_pairs (tab o)) ctx1) as (c' & -> & Hc' & Hg' & Hcl' & Hl'); [| |done|done|].
  { intros v c Hv Hc (Hpt & _). apply IH; [done|done|]. apply prefix_length in Hpt. cbn [ctx1 c_tables] in Hpt.
    rewrite length_app in Hpt. cbn [length] in Hpt. lia. }
  { intros k w Hin. split; [by eapply reaches_key|by eapply reaches_value]. }
  exists c'. split; [done|]. constructor; [done|by eapply grew_trans| |].
  - cbn. destruct Hg' as (Hpt & _). eapply prefix_elem; [exact Hpt|]. cbn. apply elem_of_app. right. by apply list_elem_of_singleton.
  - intros b ob k w Hb Hnb Hob Hin. destruct (decide (LTable b ∈ c_tables ctx1)) as [Hb1|Hb1]; [|by apply (Hcl' b ob)].
    cbn in Hb1. apply elem_of_app in Hb1 as [?|Hb1%list_elem_of_singleton]; [done|]. injection Hb1 as ->.
    assert (ob = o) as -> by congruence. by apply Hl'.
Qed.
End PackerSpec.
