(* ===== verification/ObjectWire.v ===== *)
(** * The wire format of src/objectbuf.c

    The format as a function of what [packer] collects, the proof that [encode]
    writes it and that [decode] reads it back. *)

From S2P Require Import Prelude ByteArray Lua LuaState Double Stream ObjectBuf.

(** ** The format *)

Section Format.
Context {T : Type} `{LuaTable T} `{LuaAPI}.

Definition w_number (v : lua_value) : list Z := le_bytes 8 (default 0 (lua_tonumberx v)).
Definition w_u30 (v : lua_value) : list Z := u30_wire 5 (u32 (lua_tointeger v)).
Definition w_string (v : lua_value) : list Z :=
  let s := default [] (lua_tolstring v) in u30_wire 5 (Zlen s) ++ s.
Definition w_index (i : Z) : list Z := u30_wire 5 i.

(** The values that have no symbol. *)
Definition fresh_of (sym_map : T) (l : list lua_value) : list lua_value := filter (fun v => t_get sym_map v = LNil) l.
Definition section_wire (sym_map : T) (w : lua_value -> list Z) (l : list lua_value) : list Z :=
  match l with
  | [] => []
  | _ => w_index (Zlen (fresh_of sym_map l)) ++ concat (map w (fresh_of sym_map l))
  end.

(** Consecutive indices from [i] on. *)
Fixpoint assign (t : T) (i : Z) (l : list lua_value) : T :=
  match l with [] => t | v :: l => assign (t_set t v (LInt i)) (i + 1) l end.

(** The elements 1, 2, ... of a table up to the first nil, and its other pairs. *)
Fixpoint array_part (fuel : nat) (t : T) (i : Z) : list lua_value :=
  match fuel with
  | O => []
  | S fuel => let v := t_get t (LInt i) in if lua_isnil v then [] else v :: array_part fuel t (i + 1)
  end.
Definition elements (t : T) : list lua_value := array_part (S (length (t_pairs t))) t 1.
Definition others (t : T) : list (lua_value * lua_value) :=
  filter (fun p => in_array (Zlen (elements t)) p.1 = false) (t_pairs t).

Definition w_pair (code : lua_value -> Z) (p : lua_value * lua_value) : list Z := w_index (code p.1) ++ w_index (code p.2).
Definition table_body (code : lua_value -> Z) (t : T) : list Z :=
  w_index (Zlen (elements t)) ++ concat (map (fun v => w_index (code v)) (elements t)) ++ concat (map (w_pair code) (others t)).
Definition table_wire (code : lua_value -> Z) (t : T) : list Z :=
  w_index (Zlen (table_body code t)) ++ table_body code t.
Definition tab_of (st : lua_state T) (v : lua_value) : T :=
  match v with LTable a => match heap st !! a with Some o => tab o | None => t_empty end | _ => t_empty end.
Definition tables_wire (st : lua_state T) (code : lua_value -> Z) (l : list lua_value) : list Z :=
  match l with [] => [] | _ => w_index (Zlen l) ++ concat (map (fun v => table_wire code (tab_of st v)) l) end.

Definition present (mask : Z) (l : list lua_value) : Z := match l with [] => 0 | _ => mask end.

(** What an encoding numbers, in order. *)
Definition items (sym_map : T) (ctx : CTX T) : list lua_value :=
  fresh_of sym_map (c_numbers ctx) ++ fresh_of sym_map (c_u30s ctx) ++ fresh_of sym_map (c_strings ctx) ++ c_tables ctx.
Definition bools : T := t_set (t_set t_empty (LBool false) (LInt FALSE_INDEX)) (LBool true) (LInt TRUE_INDEX).
Definition final_map (sym_map : T) (index : Z) (ctx : CTX T) : T := assign bools (index + 1) (items sym_map ctx).

Definition flag_of (ctx : CTX T) : Z :=
  Z.lor (Z.lor (Z.lor (present HAS_NUMBER_MASK (c_numbers ctx)) (present HAS_U30_MASK (c_u30s ctx)))
    (present HAS_STRING_MASK (c_strings ctx))) (present HAS_TABLE_MASK (c_tables ctx)).
Definition layout (st : lua_state T) (sym_map : T) (index : Z) (ctx : CTX T) : list Z :=
  flag_of ctx ::
    section_wire sym_map w_number (c_numbers ctx) ++ section_wire sym_map w_u30 (c_u30s ctx) ++
    section_wire sym_map w_string (c_strings ctx) ++
    tables_wire st (index_of sym_map (final_map sym_map index ctx)) (c_tables ctx).
End Format.

(** ** Writing the format *)

Section Writing.
Context {T : Type} `{LuaTable T} `{Allocator} `{LuaAPI}.
Context (st : lua_state T) (raw : BYTEARRAY).
Context (M : Z) (HM : mem_upto M) (HM2 : 2 ^ 32 <= M < 2 ^ 62).

Definition adds (add : BYTEARRAY -> lua_value -> outcome BYTEARRAY) (w : lua_value -> list Z) (v : lua_value) : Prop :=
  forall d l, writer d l -> fits M (Zlen l + Zlen (w v)) -> exists d', add d v = Ret d' /\ writer d' (l ++ w v).

Lemma adds_number v : adds add_number w_number v.
Proof.
  intros d l Hw Hf. unfold add_number, ffi_stream_add_d64, bytearray_write64d.
  destruct (write_append M d l (w_number v) HM Hw) as (d' & E & Hw'); [apply le_bytes_ok|apply Hf|lia|].
  unfold w_number in E at 1. rewrite E. by exists d'.
Qed.
Lemma adds_u30 v : adds add_u30 w_u30 v.
Proof. intros d l Hw Hf. apply (add_u30_append M HM HM2); [done|apply u32_range|done]. Qed.
Lemma adds_string s : bytes_ok s -> Zlen s < 2 ^ 32 -> adds add_string w_string (LStr s).
Proof.
  intros Hs Hl d l Hw Hf. unfold adds, add_string, w_string, fits in *. rewrite lua_tolstring_str in *. change (default [] (Some s)) with s in *.
  pose proof (Zlen_nonneg s). rewrite Zlen_app in Hf. unfold ffi_stream_add_string.
  destruct (add_u30_append M HM HM2 d l (Zlen s)) as (d1 & -> & Hw1); [done|lia|unfold fits; lia|]. cbn [mbind outcome_bind].
  destruct (write_append M d1 _ s HM Hw1 Hs) as (d2 & E2 & Hw2); [rewrite Zlen_app; lia|lia|].
  unfold bytearray_writebuffer. rewrite E2. rewrite <- app_assoc in Hw2. by exists d2.
Qed.

(** Room for [n] bytes grows with [n]. *)
Lemma fits_le m n : m <= n -> fits M n -> fits M m.
Proof. unfold fits. lia. Qed.

Lemma raw_set_ok (t : T) k v : key_ok k = true -> raw_set t k v = Ret (t_set t k v).
Proof. intros Hk. unfold raw_set. by rewrite Hk. Qed.

Lemma assign_app (t : T) l1 l2 i : assign t i (l1 ++ l2) = assign (assign t i l1) (i + Zlen l1) l2.
Proof.
  revert t i. induction l1 as [|v l1 IH]; intros t i; cbn [app assign]; [by rewrite Zlen_nil, Z.add_0_r|].
  rewrite IH, Zlen_cons. f_equal. lia.
Qed.

Lemma fresh_of_cons (sym_map : T) v l :
  fresh_of sym_map (v :: l) = if decide (t_get sym_map v = LNil) then v :: fresh_of sym_map l else fresh_of sym_map l.
Proof. done. Qed.
Lemma isnil_decide {A} v (x y : A) : (if lua_isnil v then x else y) = if decide (v = LNil) then x else y.
Proof. by destruct v. Qed.

Lemma section_loop_spec add w sym_map index l : forall rc d acc index_map,
  Forall (fun v => adds add w v /\ key_ok v = true) l -> writer d acc ->
  fits M (Zlen acc + Zlen (concat (map w (fresh_of sym_map l)))) ->
  0 <= index -> 0 <= rc -> index + rc + Zlen (fresh_of sym_map l) < 2 ^ 32 ->
  exists d', section_loop add sym_map index l rc d index_map =
      Ret (rc + Zlen (fresh_of sym_map l), d', assign index_map (index + rc + 1) (fresh_of sym_map l)) /\
    writer d' (acc ++ concat (map w (fresh_of sym_map l))).
Proof.
  induction l as [|v l IH]; intros rc d acc index_map Hl Hw Hf Hi Hrc Hb.
  { exists d. cbn. rewrite Z.add_0_r, app_nil_r. done. }
  inversion Hl as [|? ? [Hadd Hk] Hl']; subst. cbn [section_loop]. rewrite isnil_decide. rewrite fresh_of_cons in *.
  destruct (decide (t_get sym_map v = LNil)); [|by apply IH].
  cbn [map concat] in *. rewrite Zlen_app, Zlen_cons in *. pose proof (Zlen_nonneg (fresh_of sym_map l)).
  pose proof (Zlen_nonneg (concat (map w (fresh_of sym_map l)))).
  destruct (Hadd d acc Hw) as (d1 & -> & Hw1); [by eapply fits_le; [|exact Hf]; lia|]. cbn [mbind outcome_bind].
  rewrite (u32_small (rc + 1)), u32_small, raw_set_ok by (done || lia). cbn [mbind outcome_bind].
  destruct (IH (rc + 1) d1 (acc ++ w v) (t_set index_map v (LInt (index + (rc + 1))))) as (d2 & -> & Hw2); try done; try lia.
  { eapply fits_le; [|exact Hf]. rewrite Zlen_app. lia. }
  exists d2. rewrite <- app_assoc in Hw2. split; [|done]. cbn [assign].
  replace (index + (rc + 1)) with (index + rc + 1) by lia. by replace (rc + (1 + Zlen (fresh_of sym_map l))) with (rc + 1 + Zlen (fresh_of sym_map l)) by lia.
Qed.

Lemma drained_writer d l : writer d l -> drained d = Ret l.
Proof. intros Hw. destruct (writer_read_ready d l Hw) as (d' & E & _ & _ & Ht & Hl). unfold drained. by rewrite E, Ht. Qed.

Lemma write_bytes body acc v :
  writer body acc -> bytes_ok v -> fits M (Zlen acc + Zlen v) ->
  exists body', bytearray_writebuffer body v = Ret (true, body') /\ writer body' (acc ++ v).
Proof. intros Hw Hv Hf. apply (write_append M); [done..|apply Hf|lia]. Qed.

Lemma write_section_spec mask add w sym_map l flag body acc index index_map :
  Forall (fun v => adds add w v /\ key_ok v = true) l -> bytes_ok (concat (map w (fresh_of sym_map l))) ->
  writer body acc -> fits M (Zlen acc + Zlen (section_wire sym_map w l)) ->
  0 <= index -> index + Zlen (fresh_of sym_map l) < 2 ^ 32 ->
  exists body', write_section raw mask add sym_map l (flag, body, index, index_map) =
      Ret (Z.lor flag (present mask l), body', index + Zlen (fresh_of sym_map l), assign index_map (index + 1) (fresh_of sym_map l)) /\
    writer body' (acc ++ section_wire sym_map w l).
Proof.
  intros Hl Hbok Hw Hf Hi Hb. destruct l as [|v0 l0]; [exists body; cbn; by rewrite Z.lor_0_r, Z.add_0_r, app_nil_r|].
  set (l := v0 :: l0) in *. unfold write_section. cbn [l]. fold l.
  change (present mask l) with mask. change (section_wire sym_map w l) with (w_index (Zlen (fresh_of sym_map l)) ++ concat (map w (fresh_of sym_map l))) in *.
  clearbody l. rewrite Zlen_app in Hf. pose proof (Zlen_nonneg acc). pose proof (Zlen_nonneg (w_index (Zlen (fresh_of sym_map l)))).
  pose proof (Zlen_nonneg (fresh_of sym_map l)). pose proof (Zlen_nonneg (concat (map w (fresh_of sym_map l)))).
  destruct (alloc_writer M raw 0 HM) as (d0 & -> & Hd0); [lia|].
  destruct (section_loop_spec add w sym_map index l 0 d0 [] index_map Hl Hd0) as (d1 & -> & Hd1); [|lia..|].
  { eapply fits_le; [|exact Hf]. rewrite Zlen_nil. lia. }
  cbn [mbind outcome_bind]. rewrite Z.add_0_l.
  destruct (add_u30_append M HM HM2 body acc (Zlen (fresh_of sym_map l))) as (b1 & -> & Hb1); [done|lia| |].
  { eapply fits_le; [|exact Hf]. unfold w_index in *. lia. }
  cbn [mbind outcome_bind]. rewrite (drained_writer _ _ Hd1). cbn [mbind outcome_bind app].
  destruct (write_bytes b1 _ (concat (map w (fresh_of sym_map l))) Hb1 Hbok) as (b2 & -> & Hb2).
  { eapply fits_le; [|exact Hf]. rewrite Zlen_app. unfold w_index in *. lia. }
  exists b2. rewrite <- app_assoc in Hb2. split; [|done]. cbn [mbind outcome_bind].
  rewrite u32_small by lia. by rewrite Z.add_0_r.
Qed.

(** Writing one index. *)
Lemma add_index d acc i :
  writer d acc -> 0 <= i < 2 ^ 32 -> fits M (Zlen acc + Zlen (w_index i)) ->
  exists d', ffi_stream_add_u30 d i = Ret d' /\ writer d' (acc ++ w_index i).
Proof. intros Hw Hi Hf. by apply (add_u30_append M HM HM2). Qed.

Lemma index_of_range sym_map index_map v : 0 <= index_of (T := T) sym_map index_map v < 2 ^ 32.
Proof. apply u32_range. Qed.
Lemma Zlen_w_index i : 0 <= i -> 1 <= Zlen (w_index i) <= 5.
Proof.
  intros Hi. destruct (u30_wire_ok 5 i Hi) as [_ Hlen]. split; [|exact Hlen].
  unfold w_index. cbn [u30_wire]. destruct (i <? 128); rewrite Zlen_cons; [rewrite Zlen_nil|match goal with |- context [Zlen ?l] => pose proof (Zlen_nonneg l) end]; lia.
Qed.
Lemma w_index_ok i : 0 <= i -> bytes_ok (w_index i).
Proof. intros Hi. apply u30_wire_ok. done. Qed.

Lemma Zlen_concat_ge {A} (w : A -> list Z) l : (forall x, 1 <= Zlen (w x)) -> Zlen l <= Zlen (concat (map w l)).
Proof.
  intros Hw. induction l as [|x l IH]; [done|]. cbn [map concat]. rewrite Zlen_cons, Zlen_app. specialize (Hw x). lia.
Qed.

Lemma encode_array_spec sym_map index_map t fuel : forall n d acc,
  let l := array_part fuel t (n + 1) in
  writer d acc -> 0 <= n -> n + Zlen l < 2 ^ 31 -> (length l < fuel)%nat ->
  fits M (Zlen acc + Zlen (concat (map (fun v => w_index (index_of sym_map index_map v)) l))) ->
  exists d', encode_array fuel sym_map index_map t n d = Ret (n + Zlen l, d') /\
    writer d' (acc ++ concat (map (fun v => w_index (index_of sym_map index_map v)) l)).
Proof.
  induction fuel as [|fuel IH]; intros n d acc l Hw Hn Hb Hl Hf; [lia|]. unfold l in *. cbn [array_part encode_array] in *.
  destruct (lua_isnil (t_get t (LInt (n + 1)))).
  { exists d. cbn. rewrite Z.add_0_r, app_nil_r. done. }
  cbn [map concat length] in *. rewrite Zlen_cons, Zlen_app in *.
  set (v := t_get t (LInt (n + 1))) in *. set (l' := array_part fuel t (n + 1 + 1)) in *.
  pose proof (Zlen_nonneg l'). pose proof (Zlen_nonneg (concat (map (fun v => w_index (index_of sym_map index_map v)) l'))).
  destruct (add_index d acc (index_of sym_map index_map v) Hw (index_of_range _ _ _)) as (d1 & -> & Hw1).
  { eapply fits_le; [|exact Hf]. lia. }
  cbn [mbind outcome_bind]. rewrite s32_small by lia.
  destruct (IH (n + 1) d1 (acc ++ w_index (index_of sym_map index_map v))) as (d2 & -> & Hw2); try done; try lia.
  { fold l'. lia. }
  { fold l'. lia. }
  { fold l'. eapply fits_le; [|exact Hf]. rewrite Zlen_app. lia. }
  exists d2. fold l' in Hw2 |- *. rewrite <- app_assoc in Hw2. split; [|done]. do 2 f_equal. lia.
Qed.

Lemma encode_hash_spec sym_map index_map ps n : forall d acc,
  let l := filter (fun p => in_array n p.1 = false) ps in
  writer d acc -> fits M (Zlen acc + Zlen (concat (map (w_pair (index_of sym_map index_map)) l))) ->
  exists d', encode_hash sym_map index_map ps n d = Ret d' /\
    writer d' (acc ++ concat (map (w_pair (index_of sym_map index_map)) l)).
Proof.
  induction ps as [|[k v] ps IH]; intros d acc l Hw Hf; unfold l in *.
  { exists d. cbn. by rewrite app_nil_r. }
  cbn [encode_hash]. rewrite filter_cons in *. cbn [fst] in *. destruct (in_array n k) eqn:E.
  { destruct (decide (true = false)); [done|]. by apply IH. }
  destruct (decide (false = false)); [|done]. cbn [map concat] in *.
  set (r := concat (map (w_pair (index_of sym_map index_map)) (filter (fun p => in_array n p.1 = false) ps))) in *.
  unfold w_pair in Hf at 1. cbn [fst snd] in Hf. rewrite !Zlen_app in Hf. pose proof (Zlen_nonneg r).
  pose proof (Zlen_nonneg (w_index (index_of sym_map index_map v))).
  destruct (add_index d acc (index_of sym_map index_map k) Hw (index_of_range _ _ _)) as (d1 & -> & Hw1).
  { eapply fits_le; [|exact Hf]. lia. }
  cbn [mbind outcome_bind].
  destruct (add_index d1 _ (index_of sym_map index_map v) Hw1 (index_of_range _ _ _)) as (d2 & -> & Hw2).
  { eapply fits_le; [|exact Hf]. rewrite Zlen_app. lia. }
  cbn [mbind outcome_bind].
  destruct (IH d2 _ Hw2) as (d3 & -> & Hw3).
  { eapply fits_le; [|exact Hf]. fold r. rewrite !Zlen_app. lia. }
  exists d3. split; [done|]. fold r in Hw3. unfold w_pair at 1. cbn [fst snd]. rewrite <- !app_assoc in Hw3. by rewrite <- app_assoc.
Qed.

Lemma array_part_lookup fuel (t : T) : forall i p v,
  array_part fuel t i !! p = Some v -> t_get t (LInt (i + Z.of_nat p)) = v /\ v <> LNil.
Proof.
  induction fuel as [|fuel IH]; intros i p v Hp; [done|]. cbn [array_part] in Hp.
  destruct (lua_isnil (t_get t (LInt i))) eqn:E; [done|]. destruct p as [|p]; cbn in Hp.
  - injection Hp as <-. rewrite Z.add_0_r. split; [done|]. intros Hn. by rewrite Hn in E.
  - apply IH in Hp. by replace (i + Z.of_nat (S p)) with (i + 1 + Z.of_nat p) by lia.
Qed.

(** The elements are distinct pairs of the table. *)
Lemma array_part_bound fuel (t : T) i : (length (array_part fuel t i) <= length (t_pairs t))%nat.
Proof.
  rewrite <- (length_map fst (t_pairs t)).
  transitivity (length (map (fun p => LInt (i + Z.of_nat p)) (seq 0 (length (array_part fuel t i))))).
  { by rewrite length_map, length_seq. }
  apply submseteq_length, NoDup_submseteq.
  - apply NoDup_fmap_2_strong; [|apply NoDup_seq]. intros x y _ _ [= E]. lia.
  - intros k (p & -> & Hp%elem_of_seq)%list_elem_of_fmap. cbn in Hp.
    destruct (lookup_lt_is_Some_2 (array_part fuel t i) p) as [v Hv]; [lia|].
    apply array_part_lookup in Hv as [Hg Hn]. apply list_elem_of_fmap. exists (LInt (i + Z.of_nat p), v).
    split; [done|]. by apply t_pairs_get.
Qed.

Lemma encode_table_spec sym_map index_map a o body acc :
  heap st !! a = Some o -> writer body acc ->
  let code := index_of sym_map index_map in
  Zlen (table_body code (tab o)) < 2 ^ 31 -> fits M (Zlen acc + Zlen (table_wire code (tab o))) ->
  exists body', encode_table st raw sym_map index_map (LTable a) body = Ret body' /\
    writer body' (acc ++ table_wire code (tab o)).
Proof.
  intros Ho Hw code Hb Hf. assert (Hcode : code = index_of sym_map index_map) by done. clearbody code.
  assert (Hrange : forall v, 0 <= code v < 2 ^ 32) by (intros v; rewrite Hcode; apply index_of_range).
  unfold encode_table, with_table. rewrite Ho. unfold table_wire in Hf.
  pose proof (Zlen_nonneg acc). pose proof (Zlen_nonneg (elements (tab o))) as Hn.
  pose proof (Zlen_nonneg (table_body code (tab o))). rewrite Zlen_app in Hf.
  pose proof (Zlen_w_index (Zlen (table_body code (tab o))) (Zlen_nonneg _)).
  pose proof (Zlen_w_index (Zlen (elements (tab o))) Hn).
  set (arr := concat (map (fun v => w_index (code v)) (elements (tab o)))).
  set (oth := concat (map (w_pair code) (others (tab o)))).
  assert (Hlen : Zlen (table_body code (tab o)) = Zlen (w_index (Zlen (elements (tab o)))) + Zlen (arr ++ oth)).
  { unfold table_body. by rewrite !Zlen_app. }
  assert (Hge : Zlen (elements (tab o)) <= Zlen arr).
  { apply Zlen_concat_ge. intros v. apply Zlen_w_index, Hrange. }
  rewrite Zlen_app in Hlen. pose proof (Zlen_nonneg oth).
  destruct (alloc_writer M raw 0 HM) as (d0 & -> & Hd0); [lia|].
  destruct (encode_array_spec sym_map index_map (tab o) (S (length (t_pairs (tab o)))) 0 d0 []) as (d1 & E1 & Hd1).
  { done. } { done. } { change (0 + 1) with 1. fold (elements (tab o)). lia. } { pose proof (array_part_bound (S (length (t_pairs (tab o)))) (tab o) (0 + 1)). lia. }
  { rewrite <- Hcode. change (0 + 1) with 1. fold (elements (tab o)) arr. eapply fits_le; [|exact Hf]. rewrite Zlen_nil. lia. }
  rewrite <- Hcode in Hd1. change (0 + 1) with 1 in E1, Hd1. fold (elements (tab o)) arr in E1, Hd1. rewrite E1. cbn [mbind outcome_bind app] in *. rewrite Z.add_0_l.
  destruct (encode_hash_spec sym_map index_map (t_pairs (tab o)) (Zlen (elements (tab o))) d1 arr Hd1) as (d2 & E2 & Hd2).
  { rewrite <- Hcode. fold (others (tab o)) oth. eapply fits_le; [|exact Hf]. lia. }
  rewrite <- Hcode in Hd2. fold (others (tab o)) oth in Hd2. rewrite E2. cbn [mbind outcome_bind]. rewrite (drained_writer _ _ Hd2).
  cbn [mbind outcome_bind].
  rewrite u32_small by lia. destruct (add_index d0 [] (Zlen (elements (tab o))) Hd0) as (d4 & -> & Hd4); [lia| |].
  { eapply fits_le; [|exact Hf]. rewrite Zlen_nil. lia. }
  cbn [mbind outcome_bind app] in *. rewrite (drained_writer _ _ Hd4). cbn [mbind outcome_bind].
  rewrite Zlen_app, u32_small by lia. replace (Zlen arr + Zlen oth + _) with (Zlen (table_body code (tab o))) by lia.
  destruct (add_index body acc (Zlen (table_body code (tab o))) Hw) as (b1 & -> & Hb1); [lia| |].
  { eapply fits_le; [|exact Hf]. lia. }
  cbn [mbind outcome_bind]. unfold ffi_stream_add_bytes.
  destruct (write_bytes b1 _ (w_index (Zlen (elements (tab o)))) Hb1) as (b2 & -> & Hb2); [by apply w_index_ok| |].
  { eapply fits_le; [|exact Hf]. rewrite Zlen_app. lia. }
  cbn [mbind outcome_bind mret outcome_ret].
  destruct (write_bytes b2 _ (arr ++ oth) Hb2) as (b3 & -> & Hb3).
  { apply bytes_ok_app. split; apply Forall_concat, Forall_map, Forall_true; intros x; [apply w_index_ok, Hrange|].
    apply bytes_ok_app. split; apply w_index_ok, Hrange. }
  { eapply fits_le; [|exact Hf]. rewrite !Zlen_app. lia. }
  exists b3. split; [done|]. unfold table_wire, table_body. fold arr oth. by rewrite <- !app_assoc in Hb3.
Qed.

Lemma number_tables_spec index l : forall i (t : T),
  Forall (fun v => key_ok v = true) l -> 0 <= index -> 0 <= i -> index + i + Zlen l <= 2 ^ 32 ->
  number_tables index i l t = Ret (assign t (index + i) l).
Proof.
  induction l as [|v l IH]; intros i t Hl Hi0 Hi Hb; [done|]. inversion Hl; subst. rewrite Zlen_cons in Hb.
  pose proof (Zlen_nonneg l). cbn [number_tables assign]. rewrite raw_set_ok, u32_small by (done || lia). cbn [mbind outcome_bind].
  rewrite IH by (done || lia). do 2 f_equal. lia.
Qed.

Definition is_table_of (v : lua_value) : Prop := exists a, v = LTable a /\ is_Some (heap st !! a).

Lemma write_tables_spec sym_map index_map l : forall body acc,
  let code := index_of sym_map index_map in
  Forall is_table_of l -> writer body acc ->
  Zlen (concat (map (fun v => table_wire code (tab_of st v)) l)) < 2 ^ 31 ->
  fits M (Zlen acc + Zlen (concat (map (fun v => table_wire code (tab_of st v)) l))) ->
  exists body', write_tables st raw sym_map index_map l body = Ret body' /\
    writer body' (acc ++ concat (map (fun v => table_wire code (tab_of st v)) l)).
Proof.
  intros body acc code. revert body acc.
  induction l as [|v l IH]; intros body acc Hl Hw Hb Hf; [exists body; by rewrite app_nil_r|].
  inversion Hl as [|? ? (a & -> & o & Ho) Hl']; subst. cbn [write_tables map concat] in *. rewrite Zlen_app in *.
  pose proof (Zlen_nonneg (concat (map (fun v => table_wire code (tab_of st v)) l))).
  assert (Et : tab_of st (LTable a) = tab o) by (cbn; by rewrite Ho). rewrite Et in *.
  pose proof (Zlen_nonneg (w_index (Zlen (table_body code (tab o))))).
  destruct (encode_table_spec sym_map index_map a o body acc Ho Hw) as (b1 & -> & Hw1).
  { fold code. unfold table_wire in Hb at 1. rewrite Zlen_app in Hb. lia. }
  { fold code. eapply fits_le; [|exact Hf]. lia. }
  fold code in Hw1. cbn [mbind outcome_bind]. pose proof (Zlen_nonneg (table_wire code (tab o))).
  destruct (IH b1 _ Hl' Hw1) as (b2 & -> & Hw2); [lia|eapply fits_le; [|exact Hf]; rewrite Zlen_app; lia|].
  exists b2. by rewrite <- app_assoc in Hw2.
Qed.

Lemma encode_tables_spec sym_map l flag body acc index index_map :
  let code := index_of sym_map (assign index_map (index + 1) l) in
  Forall is_table_of l -> writer body acc -> 0 <= index -> index + 1 + Zlen l <= 2 ^ 32 ->
  Zlen (tables_wire st code l) < 2 ^ 31 -> fits M (Zlen acc + Zlen (tables_wire st code l)) ->
  exists body', encode_tables st raw sym_map l (flag, body, index, index_map) =
      Ret (Z.lor flag (present HAS_TABLE_MASK l), body', index, assign index_map (index + 1) l) /\
    writer body' (acc ++ tables_wire st code l).
Proof.
  intros code Hl Hw Hi Hc Hb Hf.
  destruct l as [|v0 l0]; [exists body; cbn; by rewrite Z.lor_0_r, app_nil_r|]. set (l := v0 :: l0) in *.
  change (tables_wire st code l) with (w_index (Zlen l) ++ concat (map (fun v => table_wire code (tab_of st v)) l)) in *.
  unfold encode_tables. cbn [l]. fold l. change (present HAS_TABLE_MASK l) with HAS_TABLE_MASK.
  assert (Hk : Forall (fun v => key_ok v = true) l) by (eapply Forall_impl; [exact Hl|]; by intros ? (a & -> & _)).
  clearbody l. rewrite Zlen_app in *. pose proof (Zlen_nonneg l). pose proof (Zlen_nonneg (w_index (Zlen l))).
  set (r := concat _) in *. pose proof (Zlen_nonneg r).
  rewrite u32_small by lia. destruct (add_index body acc (Zlen l) Hw) as (b1 & -> & Hw1); [lia| |].
  { eapply fits_le; [|exact Hf]. lia. }
  cbn [mbind outcome_bind]. rewrite number_tables_spec by (done || lia). cbn [mbind outcome_bind].
  destruct (write_tables_spec sym_map (assign index_map (index + 1) l) l b1 _ Hl Hw1) as (b2 & -> & Hw2); fold code r; [lia| |].
  { eapply fits_le; [|exact Hf]. rewrite Zlen_app. lia. }
  exists b2. split; [done|]. fold code r in Hw2. by rewrite <- app_assoc in Hw2.
Qed.

(** Setting the placeholder at the front of the body. *)
Lemma store_flag buf x l y :
  mem_load buf 0 (Zlen (x :: l)) = Ret (x :: l) ->
  exists buf', mem_store buf 0 [y] = Ret buf' /\ mem_load buf' 0 (Zlen (x :: l)) = Ret (y :: l).
Proof.
  rewrite Zlen_cons. pose proof (Zlen_nonneg l). unfold mem_load. destruct (Z.eqb_spec (1 + Zlen l) 0); [lia|].
  destruct buf as [b|]; [|done]. destruct ((0 <=? 0) && (0 <=? 1 + Zlen l) && (0 + (1 + Zlen l) <=? Zlen b)) eqn:E; [|done].
  intros [= Hb]. rewrite mem_store_in by (zlen; lia). eexists. split; [done|]. rewrite zdrop_0 in *. rewrite ztake_0. cbn [app].
  assert (Hd : zdrop (0 + Zlen [y]) b = l ++ zdrop (1 + Zlen l) b).
  { rewrite <- (ztake_zdrop (1 + Zlen l) b) at 1. rewrite Hb. by rewrite zdrop_app_l by (zlen; lia). }
  rewrite Hd. rewrite !Zlen_cons, Zlen_app, Zlen_zdrop by lia.
  replace (_ && _ && _) with true by lia. f_equal. change (y :: l ++ zdrop (1 + Zlen l) b) with ((y :: l) ++ zdrop (1 + Zlen l) b).
  by rewrite zdrop_0, ztake_app_exact by (by rewrite Zlen_cons).
Qed.

Lemma section_wire_long sym_map w l :
  (forall v, 1 <= Zlen (w v)) -> Zlen (fresh_of sym_map l) <= Zlen (section_wire sym_map w l).
Proof.
  intros Hw. destruct l as [|v l]; [done|]. unfold section_wire. rewrite Zlen_app.
  pose proof (Zlen_nonneg (w_index (Zlen (fresh_of sym_map (v :: l))))). pose proof (Zlen_concat_ge w (fresh_of sym_map (v :: l)) Hw). lia.
Qed.
Lemma w_number_long v : 1 <= Zlen (w_number v).
Proof. unfold w_number. rewrite Zlen_le_bytes. lia. Qed.
Lemma w_u30_long v : 1 <= Zlen (w_u30 v).
Proof. apply Zlen_w_index, u32_range. Qed.
Lemma w_string_long v : 1 <= Zlen (w_string v).
Proof. unfold w_string. rewrite Zlen_app. pose proof (Zlen_w_index _ (Zlen_nonneg (default [] (lua_tolstring v)))). unfold w_index in *.
  pose proof (Zlen_nonneg (default [] (lua_tolstring v))). lia. Qed.
Lemma tables_wire_long code l : Zlen l <= Zlen (tables_wire st code l).
Proof.
  destruct l as [|v l]; [done|]. unfold tables_wire. rewrite Zlen_app.
  pose proof (Zlen_nonneg (w_index (Zlen (v :: l)))).
  assert (Hl : Zlen (v :: l) <= Zlen (concat (map (fun v => table_wire code (tab_of st v)) (v :: l)))); [|lia].
  apply Zlen_concat_ge. intros x. unfold table_wire. rewrite Zlen_app.
  pose proof (Zlen_w_index _ (Zlen_nonneg (table_body code (tab_of st x)))).
  pose proof (Zlen_nonneg (table_body code (tab_of st x))). lia.
Qed.

Lemma fresh_of_forall (P : lua_value -> Prop) (sym_map : T) l : Forall P l -> Forall P (fresh_of sym_map l).
Proof. unfold fresh_of. rewrite !Forall_forall. intros Hl v [_ Hv]%list_elem_of_filter. auto. Qed.

(** The sections of a context that [packer] made. *)
Lemma numbers_add l : Forall (fun v => num_ok v) l -> Forall (fun v => adds add_number w_number v /\ key_ok v = true) l.
Proof. intros Hl. eapply Forall_impl; [exact Hl|]. intros v Hv. split; [apply adds_number|]. by destruct v; apply scalar_key_ok. Qed.
Lemma u30s_add l : Forall (fun v => num_ok v) l -> Forall (fun v => adds add_u30 w_u30 v /\ key_ok v = true) l.
Proof. intros Hl. eapply Forall_impl; [exact Hl|]. intros v Hv. split; [apply adds_u30|]. by destruct v; apply scalar_key_ok. Qed.
Lemma strings_add l :
  Forall (fun v => is_string v = true /\ scalar_ok v) l -> Forall (fun v => adds add_string w_string v /\ key_ok v = true) l.
Proof.
  intros Hl. eapply Forall_impl; [exact Hl|]. intros v [Hv Hs]. destruct v; try done. split; [|done]. apply adds_string; apply Hs.
Qed.
Lemma concat_ok {A} (w : A -> list Z) l : Forall (fun v => bytes_ok (w v)) l -> bytes_ok (concat (map w l)).
Proof. intros Hl. by apply Forall_concat, Forall_map. Qed.
Lemma strings_bytes_ok l : Forall (fun v => is_string v = true /\ scalar_ok v) l -> Forall (fun v => bytes_ok (w_string v)) l.
Proof.
  intros Hl. eapply Forall_impl; [exact Hl|]. intros v [Hv Hs]. destruct v; try done. unfold w_string.
  rewrite lua_tolstring_str. change (default [] (Some s)) with s. apply bytes_ok_app. split; [apply u30_wire_ok, Zlen_nonneg|apply Hs].
Qed.

(** A section within the bounds an encoding keeps. *)
Lemma section_fits mask add w sym_map l flag body acc index index_map :
  Forall (fun v => adds add w v /\ key_ok v = true) l -> Forall (fun v => bytes_ok (w v)) l -> (forall v, 1 <= Zlen (w v)) ->
  2 ^ 33 <= M -> writer body acc -> Zlen acc + Zlen (section_wire sym_map w l) < 2 ^ 31 ->
  0 <= index -> index + Zlen (section_wire sym_map w l) < 2 ^ 31 ->
  exists body', write_section raw mask add sym_map l (flag, body, index, index_map) =
      Ret (Z.lor flag (present mask l), body', index + Zlen (fresh_of sym_map l), assign index_map (index + 1) (fresh_of sym_map l)) /\
    writer body' (acc ++ section_wire sym_map w l).
Proof.
  intros Hl Hb Hw HM33 Hbody Hf Hi Hc. pose proof (section_wire_long sym_map w l Hw).
  apply write_section_spec; try done; [by apply concat_ok, fresh_of_forall|unfold fits; lia|lia].
Qed.

(** The part of the layout before the tables, and after the flag. *)
Definition scalars_wire (sym_map : T) (ctx : CTX T) : list Z :=
  section_wire sym_map w_number (c_numbers ctx) ++ section_wire sym_map w_u30 (c_u30s ctx) ++
  section_wire sym_map w_string (c_strings ctx).
Definition scalars (sym_map : T) (ctx : CTX T) : list lua_value :=
  fresh_of sym_map (c_numbers ctx) ++ fresh_of sym_map (c_u30s ctx) ++ fresh_of sym_map (c_strings ctx).

Lemma scalars_long sym_map ctx : Zlen (scalars sym_map ctx) <= Zlen (scalars_wire sym_map ctx).
Proof.
  unfold scalars, scalars_wire. rewrite !Zlen_app.
  pose proof (section_wire_long sym_map w_number (c_numbers ctx) w_number_long).
  pose proof (section_wire_long sym_map w_u30 (c_u30s ctx) w_u30_long).
  pose proof (section_wire_long sym_map w_string (c_strings ctx) w_string_long). lia.
Qed.

Lemma encode_scalars sym_map ctx body index :
  classified st ctx -> 2 ^ 33 <= M -> writer body [0] -> 0 <= index ->
  1 + index + Zlen (scalars_wire sym_map ctx) < 2 ^ 31 ->
  exists body' flag,
    (p ← encode_numbers raw sym_map (c_numbers ctx) (0, body, index, bools);
     p ← encode_u30s raw sym_map (c_u30s ctx) p;
     encode_strings raw sym_map (c_strings ctx) p) =
      Ret (flag, body', index + Zlen (scalars sym_map ctx), assign bools (index + 1) (scalars sym_map ctx)) /\
    flag = Z.lor (Z.lor (present HAS_NUMBER_MASK (c_numbers ctx)) (present HAS_U30_MASK (c_u30s ctx)))
             (present HAS_STRING_MASK (c_strings ctx)) /\
    writer body' (0 :: scalars_wire sym_map ctx).
Proof.
  intros (Cn & Cu & Cs & _) HM33 Hw Hi Hlen. unfold scalars_wire, scalars in *. rewrite !Zlen_app in Hlen.
  pose proof (Zlen_nonneg (section_wire sym_map w_number (c_numbers ctx))).
  pose proof (section_wire_long sym_map w_u30 (c_u30s ctx) w_u30_long).
  pose proof (section_wire_long sym_map w_number (c_numbers ctx) w_number_long).
  pose proof (Zlen_nonneg (section_wire sym_map w_u30 (c_u30s ctx))).
  pose proof (Zlen_nonneg (section_wire sym_map w_string (c_strings ctx))).
  pose proof (Zlen_nonneg (fresh_of sym_map (c_numbers ctx))). pose proof (Zlen_nonneg (fresh_of sym_map (c_u30s ctx))).
  destruct (section_fits HAS_NUMBER_MASK add_number w_number sym_map (c_numbers ctx) 0 body [0] index bools) as (b2 & E2 & W2);
    [apply numbers_add; eapply Forall_impl; [exact Cn|by intros ? [? _]]|apply Forall_true; intros; apply le_bytes_ok|apply w_number_long|done|done
    |rewrite Zlen_cons, Zlen_nil; lia|lia|lia|].
  unfold encode_numbers. rewrite E2. cbn [mbind outcome_bind].
  destruct (section_fits HAS_U30_MASK add_u30 w_u30 sym_map (c_u30s ctx) (Z.lor 0 (present HAS_NUMBER_MASK (c_numbers ctx))) b2
    ([0] ++ section_wire sym_map w_number (c_numbers ctx)) (index + Zlen (fresh_of sym_map (c_numbers ctx)))
    (assign bools (index + 1) (fresh_of sym_map (c_numbers ctx)))) as (b3 & E3 & W3);
    [apply u30s_add; eapply Forall_impl; [exact Cu|by intros ? [? _]]|apply Forall_true; intros; apply w_index_ok, u32_range|apply w_u30_long|done|done
    |rewrite Zlen_app, Zlen_cons, Zlen_nil; lia|lia|lia|].
  unfold encode_u30s. rewrite E3. cbn [mbind outcome_bind].
  destruct (section_fits HAS_STRING_MASK add_string w_string sym_map (c_strings ctx)
    (Z.lor (Z.lor 0 (present HAS_NUMBER_MASK (c_numbers ctx))) (present HAS_U30_MASK (c_u30s ctx))) b3
    (([0] ++ section_wire sym_map w_number (c_numbers ctx)) ++ section_wire sym_map w_u30 (c_u30s ctx))
    (index + Zlen (fresh_of sym_map (c_numbers ctx)) + Zlen (fresh_of sym_map (c_u30s ctx)))
    (assign (assign bools (index + 1) (fresh_of sym_map (c_numbers ctx))) (index + Zlen (fresh_of sym_map (c_numbers ctx)) + 1)
       (fresh_of sym_map (c_u30s ctx)))) as (b4 & E4 & W4);
    [by apply strings_add|by apply strings_bytes_ok|apply w_string_long|done|done
    |rewrite !Zlen_app, Zlen_cons, Zlen_nil; lia|lia|lia|].
  unfold encode_strings. rewrite E4. eexists b4, _. split; [|split; [|by rewrite <- !app_assoc in W4]].
  - rewrite !assign_app, !Zlen_app. set (n := Zlen (fresh_of sym_map (c_numbers ctx))).
    set (u := Zlen (fresh_of sym_map (c_u30s ctx))). set (s := Zlen (fresh_of sym_map (c_strings ctx))).
    replace (index + n + u + s) with (index + (n + (u + s))) by lia. replace (index + n + u + 1) with (index + 1 + n + u) by lia.
    by replace (index + n + 1) with (index + 1 + n) by lia.
  - by rewrite Z.lor_0_l.
Qed.

Lemma encode_unfold v sym ctx :
  lua_isnil v = false -> lua_isboolean v = false -> packer st (packer_fuel st) v ctx_init = Ret ctx ->
  luafan_objectbuf_encode st raw [v; sym] =
    let '(_, bodystream) := bytearray_alloc raw 64 in
    '(_, bodystream) ← bytearray_write8 bodystream 0;
    '(index, sym_map) ← open_symbols st sym SYM_INDEX_MAP;
    p ← (p ← encode_numbers raw sym_map (c_numbers ctx) (0, bodystream, index, bools);
         p ← encode_u30s raw sym_map (c_u30s ctx) p; encode_strings raw sym_map (c_strings ctx) p);
    '(flag, bodystream, _, _) ← encode_tables st raw sym_map (c_tables ctx) p;
    let '(_, bodystream) := bytearray_read_ready bodystream in
    buffer ← mem_store (ba_buffer bodystream) 0 [flag];
    bytes ← mem_load buffer 0 (ba_total bodystream);
    mret [LStr bytes].
Proof.
  intros Hn Hb Hp. unfold luafan_objectbuf_encode, arg. cbn [nth Nat.sub].
  destruct v; try done; rewrite Hp; cbn [mbind outcome_bind]; destruct (bytearray_alloc raw 64) as [? b0];
    destruct (bytearray_write8 b0 0) as [[? b1]| |]; try done; cbn [mbind outcome_bind];
    destruct (open_symbols st sym SYM_INDEX_MAP) as [[index sym_map]| |]; try done; cbn [mbind outcome_bind raw_set key_ok];
    fold bools; (destruct (encode_numbers raw sym_map (c_numbers ctx) (0, b1, index, bools)) as [p1| |]; try done);
    cbn [mbind outcome_bind]; by destruct (encode_u30s raw sym_map (c_u30s ctx) p1).
Qed.

Lemma encode_layout v sym ctx index sym_map :
  lua_isnil v = false -> lua_isboolean v = false ->
  packer st (packer_fuel st) v ctx_init = Ret ctx -> classified st ctx ->
  open_symbols st sym SYM_INDEX_MAP = Ret (index, sym_map) -> 2 <= index ->
  2 ^ 33 <= M -> index + Zlen (layout st sym_map index ctx) < 2 ^ 31 ->
  luafan_objectbuf_encode st raw [v; sym] = Ret [LStr (layout st sym_map index ctx)].
Proof.
  intros Hn Hb Hp Hcl Hsym Hi HM33 Hlen. rewrite (encode_unfold v sym ctx) by done.
  assert (El : layout st sym_map index ctx = flag_of ctx :: scalars_wire sym_map ctx ++
    tables_wire st (index_of sym_map (final_map sym_map index ctx)) (c_tables ctx)).
  { unfold layout, scalars_wire. by rewrite <- !app_assoc. }
  rewrite El in *. rewrite Zlen_cons, Zlen_app in Hlen. pose proof (scalars_long sym_map ctx).
  pose proof (tables_wire_long (index_of sym_map (final_map sym_map index ctx)) (c_tables ctx)).
  pose proof (Zlen_nonneg (scalars sym_map ctx)). pose proof (Zlen_nonneg (c_tables ctx)).
  pose proof (Zlen_nonneg (scalars_wire sym_map ctx)).
  destruct (alloc_writer M raw 64 HM) as (b0 & -> & W0); [lia|].
  destruct (write8_append M b0 [] 0 HM W0) as (b1 & -> & W1); [rewrite Zlen_nil; lia|lia|]. cbn [mbind outcome_bind] in *.
  rewrite Hsym. cbn [mbind outcome_bind].
  destruct (encode_scalars sym_map ctx b1 index Hcl HM33 W1) as (b2 & flag & -> & Hflag & W2); [lia..|]. cbn [mbind outcome_bind].
  assert (Ef : final_map sym_map index ctx =
    assign (assign bools (index + 1) (scalars sym_map ctx)) (index + Zlen (scalars sym_map ctx) + 1) (c_tables ctx)).
  { unfold final_map, items, scalars. rewrite !app_assoc, assign_app, <- !app_assoc. f_equal. lia. }
  rewrite Ef in *. destruct (encode_tables_spec sym_map (c_tables ctx) flag b2 (0 :: scalars_wire sym_map ctx)
    (index + Zlen (scalars sym_map ctx)) (assign bools (index + 1) (scalars sym_map ctx))) as (b3 & -> & W3);
    [apply Hcl|done|lia|lia|lia|unfold fits; rewrite Zlen_cons; lia|]. cbn [mbind outcome_bind].
  destruct (writer_read_ready _ _ W3) as (b4 & -> & _ & _ & -> & Hload). cbn [app] in *.
  destruct (store_flag _ _ _ (Z.lor flag (present HAS_TABLE_MASK (c_tables ctx))) Hload) as (b5 & -> & Hl5). cbn [mbind outcome_bind].
  rewrite Hl5. cbn [mbind outcome_bind]. unfold flag_of. by rewrite Hflag.
Qed.
End Writing.

(** ** Reading the format *)

(** [decode] wraps its argument in a [BYTEARRAY] whose mark nobody set: reading
    does not look at it. *)
Definition set_mark (m : Z) (ba : BYTEARRAY) : BYTEARRAY :=
  mk_ba (ba_offset ba) (ba_total ba) m (ba_buffer ba) (ba_buflen ba) (ba_reading ba) (ba_wrapbuffer ba).
Definition with_mark {A} (m : Z) (r : outcome (A * BYTEARRAY)) : outcome (A * BYTEARRAY) :=
  '(x, ba) ← r; mret (x, set_mark m ba).
Definition source (ba : BYTEARRAY) (t : list Z) : Prop := reader (set_mark 0 ba) t.

Lemma read8_mark m ba : bytearray_read8 (set_mark m ba) = with_mark m (bytearray_read8 ba).
Proof. unfold bytearray_read8. cbn [ba_offset ba_total set_mark ba_buffer]. case_match; [|done]. by destruct (mem_load _ _ _). Qed.
Lemma read_value_mark m n ba : read_value_optimized (set_mark m ba) n = with_mark m (read_value_optimized ba n).
Proof. unfold read_value_optimized. cbn [ba_offset ba_total set_mark ba_buffer]. repeat case_match; try done; by destruct (mem_load _ _ _). Qed.
Lemma readbuffer_mark m copy n ba : bytearray_readbuffer (set_mark m ba) copy n = with_mark m (bytearray_readbuffer ba copy n).
Proof. unfold bytearray_readbuffer. cbn [ba_offset ba_total set_mark ba_buffer]. case_match; [|done]. destruct copy; [|done]. by destruct (mem_load _ _ _). Qed.
Lemma get_u30_mark m ba : ffi_stream_get_u30 (set_mark m ba) = with_mark m (ffi_stream_get_u30 ba).
Proof.
  unfold ffi_stream_get_u30. generalize 5%nat as fuel. generalize 0 at 1 3 as v. generalize 0 as s. intros s v fuel. revert s v ba.
  induction fuel as [|fuel IH]; intros s v ba; [done|].
  cbn [get_u30_loop]. rewrite read8_mark. destruct (bytearray_read8 ba) as [[[b|] ba']| |]; try done. cbn -[get_u30_loop].
  case_match; [done|apply IH].
Qed.
Lemma get_d64_mark m ba : ffi_stream_get_d64 (set_mark m ba) = with_mark m (ffi_stream_get_d64 ba).
Proof.
  unfold ffi_stream_get_d64, bytearray_read64d, read_number. rewrite read_value_mark.
  by destruct (read_value_optimized ba 8) as [[? ?]| |].
Qed.
Lemma available_mark m ba : bytearray_read_available (set_mark m ba) = bytearray_read_available ba.
Proof. done. Qed.
Lemma get_string_mark m ba : ffi_stream_get_string (set_mark m ba) = with_mark m (ffi_stream_get_string ba).
Proof.
  unfold ffi_stream_get_string. rewrite get_u30_mark. destruct (ffi_stream_get_u30 ba) as [[[len|] ba']| |]; try done.
  cbn [mbind outcome_bind with_mark mret outcome_ret]. rewrite available_mark. case_match; [done|].
  change (bytes_at_offset (set_mark m ba') len) with (bytes_at_offset ba' len).
  destruct (bytes_at_offset ba' len); try done. cbn [mbind outcome_bind]. rewrite readbuffer_mark.
  by destruct (bytearray_readbuffer ba' false len) as [[? ?]| |].
Qed.

(** What an operation does on a source, from what it does with the mark at 0. *)
Lemma with_mark_inv {A} (r : outcome (A * BYTEARRAY)) x ba' t :
  with_mark 0 r = Ret (x, ba') -> reader ba' t -> exists ba, r = Ret (x, ba) /\ source ba t.
Proof. destruct r as [[y ba]| |]; try done. intros [= -> <-] Hr. by exists ba. Qed.

Lemma source_u30 ba u t :
  source ba (w_index u ++ t) -> 0 <= u < 2 ^ 32 -> exists ba', ffi_stream_get_u30 ba = Ret (Some u, ba') /\ source ba' t.
Proof.
  intros Hs Hu. destruct (get_u30_wire _ _ _ Hs Hu) as (b & E & Hr & _). rewrite get_u30_mark in E. by eapply with_mark_inv.
Qed.
Lemma source_d64 ba d t :
  source ba (le_bytes 8 d ++ t) -> 0 <= d < 2 ^ 64 -> exists ba', ffi_stream_get_d64 ba = Ret (Some d, ba') /\ source ba' t.
Proof.
  intros Hs Hd. destruct (Stream.get_number 8 8 _ t d eq_refl Hs) as (b & E & Hr); [lia|done|].
  change (read_number 8 (set_mark 0 ba)) with (ffi_stream_get_d64 (set_mark 0 ba)) in E. rewrite get_d64_mark in E. by eapply with_mark_inv.
Qed.
Lemma source_string ba s t :
  source ba (w_index (Zlen s) ++ s ++ t) -> Zlen s < 2 ^ 32 ->
  exists ba', ffi_stream_get_string ba = Ret (Some s, Zlen s, ba') /\ source ba' t.
Proof.
  intros Hs Hl. destruct (get_string_wire (set_mark 0 ba) s t) as (b & E & Hr); [|done|].
  { unfold wire. by rewrite <- app_assoc. }
  rewrite get_string_mark in E. by eapply with_mark_inv.
Qed.
Lemma source_available ba t : source ba t -> bytearray_read_available ba = Zlen t.
Proof. intros Hs. rewrite <- (available_mark 0). by apply reader_available. Qed.

Lemma wrap_source raw s ba :
  bytearray_wrap_buffer raw (Some s) (Zlen s) = (true, ba) -> bytes_ok s -> Zlen s < 2 ^ 32 -> source ba s.
Proof.
  intros [= <-] Hs Hl. pose proof (Zlen_nonneg s). rewrite u32_small by lia. split; [|split; [done|]].
  - constructor; cbn; try lia. exists s. split; [done|]. split; [lia|done].
  - cbn. rewrite zdrop_0. by rewrite ztake_all by lia.
Qed.

Section Reading.
Context {T : Type} `{LuaTable T} `{LuaAPI}.

(** Consecutive integer keys from [i] on. *)
Fixpoint place (t : T) (i : Z) (l : list lua_value) : T :=
  match l with [] => t | v :: l => place (t_set t (LInt i) v) (i + 1) l end.
Fixpoint sets (t : T) (kvs : list (lua_value * lua_value)) : T :=
  match kvs with [] => t | (k, v) :: kvs => sets (t_set t k v) kvs end.
Fixpoint numbered (j : Z) (l : list lua_value) : list (lua_value * lua_value) :=
  match l with [] => [] | v :: l => (LInt j, v) :: numbered (j + 1) l end.

Lemma place_app (t : T) l1 l2 i : place t i (l1 ++ l2) = place (place t i l1) (i + Zlen l1) l2.
Proof.
  revert t i. induction l1 as [|v l1 IH]; intros t i; cbn [app place]; [by rewrite Zlen_nil, Z.add_0_r|].
  rewrite IH, Zlen_cons. f_equal. lia.
Qed.
Lemma sets_app (t : T) l1 l2 : sets t (l1 ++ l2) = sets (sets t l1) l2.
Proof. revert t. induction l1 as [|[k v] l1 IH]; intros t; cbn [app sets]; [done|apply IH]. Qed.

Lemma place_below (t : T) l : forall i k, (forall n, k = LInt n -> n < i) -> plain_key k -> t_get (place t i l) k = t_get t k.
Proof.
  revert t. induction l as [|v l IH]; intros t i k Hk Hp; [done|]. cbn [place].
  rewrite IH; [|intros n Hn; specialize (Hk n Hn); lia|done]. rewrite t_get_set by done.
  destruct (decide (LInt i = k)) as [<-|]; [|done]. specialize (Hk i eq_refl). lia.
Qed.
Lemma place_lookup (t : T) l : forall i p v, l !! p = Some v -> t_get (place t i l) (LInt (i + Z.of_nat p)) = v.
Proof.
  revert t. induction l as [|w l IH]; intros t i p v Hp; [done|]. cbn [place]. destruct p as [|p].
  - injection Hp as ->. rewrite place_below by (try done; intros n [= <-]; lia). rewrite Z.add_0_r, t_get_set by done.
    by destruct (decide _).
  - replace (i + Z.of_nat (S p)) with (i + 1 + Z.of_nat p) by lia. by apply IH.
Qed.

(** [get] takes [w] off the front of the input and makes it [v]. *)
Definition gets (get : BYTEARRAY -> outcome (option lua_value * BYTEARRAY)) (w : list Z) (v : lua_value) : Prop :=
  forall input t, source input (w ++ t) -> exists input', get input = Ret (Some v, input') /\ source input' t.

Lemma gets_number d : 0 <= d < 2 ^ 64 -> gets ObjectBuf.get_number (le_bytes 8 d) (LFlt d).
Proof.
  intros Hd input t Hs. unfold ObjectBuf.get_number. destruct (source_d64 _ _ _ Hs Hd) as (b & -> & Hb). by exists b.
Qed.
Lemma gets_u30 n : 0 <= n < 2 ^ 32 -> gets get_u30 (w_index n) (LInt n).
Proof.
  intros Hn input t Hs. unfold get_u30. destruct (source_u30 _ _ _ Hs Hn) as (b & -> & Hb). by exists b.
Qed.
Lemma gets_string s : Zlen s < 2 ^ 32 -> gets get_string (w_index (Zlen s) ++ s) (LStr s).
Proof.
  intros Hn input t Hs. unfold get_string. rewrite <- app_assoc in Hs.
  destruct (source_string _ _ _ Hs Hn) as (b & -> & Hb). by exists b.
Qed.

Lemma fill_loop_spec get fail (w : lua_value -> list Z) (b : lua_value -> lua_value) count l : forall i input index (index_map : T) t,
  Forall (fun v => gets get (w v) (b v)) l -> source input (concat (map w l) ++ t) ->
  0 <= index -> index + Zlen l < 2 ^ 32 -> 0 <= i -> count = i + Zlen l - 1 -> count < 2 ^ 32 - 1 ->
  exists input', fill_loop get fail (length l) count i input index index_map =
      Ret (Filled input' (index + Zlen l) (place index_map (index + 1) (map b l))) /\ source input' t.
Proof.
  induction l as [|v l IH]; intros i input index index_map t Hl Hs Hi Hb Hi0 Hc Hcm.
  { exists input. rewrite Zlen_nil in Hc. cbn [length fill_loop]. destruct (Z.leb_spec i count); [lia|]. by rewrite Z.add_0_r. }
  apply Forall_cons in Hl as [Hv Hl']. cbn [length fill_loop map concat] in *. rewrite <- app_assoc in Hs. rewrite Zlen_cons in *.
  pose proof (Zlen_nonneg l). destruct (Z.leb_spec i count) as [_|]; [|lia]. destruct (Hv _ _ Hs) as (input1 & -> & Hs1). cbn [mbind outcome_bind].
  rewrite (u32_small (index + 1)), (u32_small (i + 1)) by lia. unfold raw_set. cbn [key_ok mbind outcome_bind].
  destruct (IH (i + 1) input1 (index + 1) (t_set index_map (LInt (index + 1)) (b v)) t) as (input2 & -> & Hs2); try done; try lia.
  exists input2. split; [|done]. do 2 f_equal. lia.
Qed.

Lemma optional_section_spec flag mask get no_count fail w b (l fl : list lua_value) last_top input index (index_map : T) t wire :
  c_true (Z.land flag mask) = match l with [] => false | _ => true end ->
  wire = match l with [] => [] | _ => w_index (Zlen fl) ++ concat (map w fl) end -> (l = [] -> fl = []) ->
  Forall (fun v => gets get (w v) (b v)) fl -> source input (wire ++ t) -> 0 <= index -> index + Zlen fl < 2 ^ 31 ->
  exists input', optional_section flag mask (read_section get no_count fail) last_top input index index_map =
      Ret (match l with [] => last_top | _ => s32 (u32 (index + 1)) end, Filled input' (index + Zlen fl) (place index_map (index + 1) (map b fl))) /\
    source input' t.
Proof.
  intros Hf -> Hnil Hl Hs Hi Hb. unfold optional_section. rewrite Hf. destruct l as [|v l].
  { rewrite (Hnil eq_refl) in *. exists input. cbn. by rewrite Z.add_0_r. }
  rewrite <- app_assoc in Hs. pose proof (Zlen_nonneg fl). unfold read_section.
  destruct (source_u30 _ _ _ Hs) as (b1 & -> & Hs1); [lia|]. cbn [mbind outcome_bind].
  replace (Z.to_nat (Zlen fl)) with (length fl) by (unfold Zlen; lia).
  destruct (fill_loop_spec get (fun i => fail i (Zlen fl)) w b (Zlen fl) fl 1 b1 index index_map t Hl Hs1) as (b2 & -> & Hs2); [done|lia..|].
  cbn [mbind outcome_bind]. by exists b2.
Qed.

(** Creating the tables. *)
Lemma new_tables_spec count n : forall i index (index_map : T) (st : lua_state T),
  state_ok st -> 0 <= index -> 0 <= i -> index + i + Z.of_nat n <= 2 ^ 32 -> count = i + Z.of_nat n - 1 -> count < 2 ^ 32 - 1 ->
  exists index_map' st' addrs, new_tables n count i index index_map st = Some (index_map', st') /\ length addrs = n /\ NoDup addrs /\ index_map' = place index_map (index + i) (map LTable addrs) /\
    state_ok st' /\ (forall a, a ∈ addrs -> heap st !! a = None /\ heap st' !! a = Some (mk_tobj t_empty None)) /\
    (forall a, a ∉ addrs -> heap st' !! a = heap st !! a).
Proof.
  induction n as [|n IH]; intros i index index_map st Hok Hi0 Hi Hb Hc Hcm; cbn [new_tables].
  { destruct (Z.leb_spec i count); [lia|]. exists index_map, st, []. split; [done|]. split; [done|]. split; [apply NoDup_nil_2|]. split; [done|]. split; [done|].
    split; [by intros a ?%not_elem_of_nil|done]. }
  destruct (Z.leb_spec i count); [|lia].
  destruct (lua_newtable st) as [a st1] eqn:E1. pose proof (newtable_ok _ _ _ E1 Hok) as Hok1.
  pose proof (fresh_ref st Hok) as Hfr. injection E1 as <- <-. rewrite (u32_small (index + i)), (u32_small (i + 1)) by lia.
  destruct (IH (i + 1) index (t_set index_map (LInt (index + i)) (LTable (next_ref st))) _ Hok1)
    as (im' & st' & addrs & -> & Hl & Hnd & -> & Hok' & Hin & Hout); [lia..|].
  assert (Hna : next_ref st ∉ addrs).
  { intros Ha. destruct (Hin _ Ha) as [Hnone _]. cbn in Hnone. by rewrite lookup_insert_eq in Hnone. }
  eexists _, st', (next_ref st :: addrs). split; [reflexivity|]. split; [cbn; by rewrite Hl|]. split; [by apply NoDup_cons|].
  split; [cbn [map place]; f_equal; lia|]. split; [done|]. split.
  - intros a [->|Ha]%elem_of_cons.
    + split; [done|]. rewrite Hout by done. cbn. by rewrite lookup_insert_eq.
    + destruct (Hin _ Ha) as [Hnone Hsome]. split; [|done]. cbn in Hnone. by apply lookup_insert_None in Hnone as [? _].
  - intros a [Hne Ha]%not_elem_of_cons. rewrite Hout by done. cbn. by rewrite lookup_insert_ne by done.
Qed.

Lemma put_table_twice (st : lua_state T) a o o' : put_table (put_table st a o) a o' = put_table st a o'.
Proof. unfold put_table. cbn. by rewrite insert_insert_eq. Qed.
Lemma put_table_id (st : lua_state T) a o : heap st !! a = Some o -> put_table st a o = st.
Proof. intros Ho. unfold put_table. rewrite insert_id by done. by destruct st. Qed.
Lemma put_table_eq (st : lua_state T) a o : heap (put_table st a o) !! a = Some o.
Proof. apply lookup_insert_eq. Qed.

Lemma fill_spec (st : lua_state T) a o k v :
  heap st !! a = Some o -> key_ok k = true -> fill st a k v = Ret (put_table st a (mk_tobj (t_set (tab o) k v) (meta o))).
Proof. intros Ho Hk. unfold fill, with_table, raw_set. by rewrite Ho, Hk. Qed.

Section Table.
Context (vk index_map : T) (code : lua_value -> Z).

(** The number of [v] stands for [v']. *)
Definition resolves (v v' : lua_value) : Prop :=
  0 <= code v < 2 ^ 32 /\ forall name, resolve vk name index_map (code v) = Ret v'.

Lemma decode_array_spec a count l l' : forall j d st o t,
  Forall2 resolves l l' -> 0 <= j -> count = j + Zlen l - 1 -> count < 2 ^ 31 - 1 -> heap st !! a = Some o -> source d (concat (map (fun v => w_index (code v)) l) ++ t) ->
  exists d', decode_array vk index_map a (length l) count j d st =
      Ret (inr (d', put_table st a (mk_tobj (sets (tab o) (numbered j l')) (meta o)))) /\ source d' t.
Proof.
  intros j d st o t Hl. revert j d st o. induction Hl as [|v v' l l' [Hr Hv] _ IH]; intros j d st o Hj Hc Hcm Ho Hs.
  { exists d. rewrite Zlen_nil in Hc. cbn [length decode_array]. rewrite u32_small by lia.
    destruct (Z.leb_spec j count); [lia|]. cbn. split; [|done]. do 3 f_equal. destruct o. by rewrite put_table_id. }
  cbn [length decode_array map concat] in *. rewrite <- app_assoc in Hs. rewrite Zlen_cons in Hc. pose proof (Zlen_nonneg l).
  rewrite u32_small by lia. destruct (Z.leb_spec j count); [|lia].
  destruct (source_u30 _ _ _ Hs Hr) as (d1 & -> & Hs1). cbn [mbind outcome_bind]. rewrite Hv. cbn [mbind outcome_bind].
  rewrite (fill_spec _ _ _ _ _ Ho) by done. cbn [mbind outcome_bind].
  destruct (Z.eqb_spec j (2 ^ 31 - 1)); [lia|].
  destruct (IH (j + 1) d1 _ _ ltac:(lia) ltac:(lia) ltac:(lia) (put_table_eq st a (mk_tobj (t_set (tab o) (LInt j) v') (meta o))) Hs1) as (d2 & -> & Hs2).
  exists d2. split; [|done]. by rewrite put_table_twice.
Qed.

Lemma decode_hash_spec a l l' : forall fuel d st o,
  Forall2 (fun p p' => resolves p.1 p'.1 /\ resolves p.2 p'.2 /\ key_ok p'.1 = true) l l' -> heap st !! a = Some o ->
  source d (concat (map (w_pair code) l)) -> (length l <= fuel)%nat ->
  exists d', decode_hash vk fuel index_map a d st = Ret (inr (d', put_table st a (mk_tobj (sets (tab o) l') (meta o)))).
Proof.
  intros fuel d st o Hl. revert fuel d st o.
  induction Hl as [|[k v] [k' v'] l l' ([Hrk Hk] & [Hrv Hv] & Hok) _ IH]; intros fuel d st o Ho Hs Hf.
  { exists d. assert (E : bytearray_read_available d = 0) by (by rewrite (source_available _ _ Hs)).
    destruct fuel; cbn [decode_hash]; rewrite E; cbn; do 3 f_equal; destruct o; by rewrite put_table_id. }
  cbn [fst snd map concat length] in *. destruct fuel as [|fuel]; [lia|]. cbn [decode_hash]. unfold w_pair in Hs at 1.
  cbn [fst snd] in Hs. rewrite <- !app_assoc in Hs. rewrite (source_available _ _ Hs), Zlen_app.
  pose proof (Zlen_w_index (code k) (proj1 Hrk)). pose proof (Zlen_nonneg (w_index (code v) ++ concat (map (w_pair code) l))).
  replace (0 <? _) with true by lia. destruct (source_u30 _ _ _ Hs Hrk) as (d1 & -> & Hs1). cbn [mbind outcome_bind].
  destruct (source_u30 _ _ _ Hs1 Hrv) as (d2 & -> & Hs2). cbn [mbind outcome_bind]. rewrite Hk, Hv. cbn [mbind outcome_bind].
  rewrite (fill_spec _ _ _ _ _ Ho) by done. cbn [mbind outcome_bind].
  destruct (IH fuel d2 _ _ (put_table_eq st a (mk_tobj (t_set (tab o) k' v') (meta o))) Hs2) as (d3 & ->); [lia|].
  exists d3. by rewrite put_table_twice.
Qed.

Lemma concat_pairs_long l : (forall p, p ∈ l -> 0 <= code p.1 /\ 0 <= code p.2) ->
  Z.of_nat (length l) <= Zlen (concat (map (w_pair code) l)).
Proof.
  induction l as [|p l IH]; intros Hl; [done|]. cbn [map concat length]. unfold w_pair at 1. rewrite !Zlen_app.
  destruct (Hl p) as [H1 H2]; [by left|]. pose proof (Zlen_w_index _ H1). pose proof (Zlen_nonneg (w_index (code p.2))).
  assert (Z.of_nat (length l) <= Zlen (concat (map (w_pair code) l))) by (apply IH; intros q Hq; apply Hl; by right). lia.
Qed.

(** Pairs that resolve to pairs with a key. *)
Definition resolves_pair (p p' : lua_value * lua_value) : Prop :=
  resolves p.1 p'.1 /\ resolves p.2 p'.2 /\ key_ok p'.1 = true.

Lemma resolves_range l l' v : Forall2 resolves l l' -> v ∈ l -> 0 <= code v < 2 ^ 32.
Proof. intros Hl [p Hp]%list_elem_of_lookup. by destruct (Forall2_lookup_l _ _ _ _ _ Hl Hp) as (v' & _ & [Hr _]). Qed.
Lemma resolves_pair_range l l' p : Forall2 resolves_pair l l' -> p ∈ l -> 0 <= code p.1 < 2 ^ 32 /\ 0 <= code p.2 < 2 ^ 32.
Proof.
  intros Hl [i Hi]%list_elem_of_lookup. by destruct (Forall2_lookup_l _ _ _ _ _ Hl Hi) as (v' & _ & [Hr1 _] & [Hr2 _] & _).
Qed.

Lemma table_body_ok (t : T) arr' oth' :
  Forall2 resolves (elements t) arr' -> Forall2 resolves_pair (others t) oth' ->
  bytes_ok (table_body code t) /\ Zlen (elements t) < Zlen (table_body code t).
Proof.
  intros Harr Hoth. unfold table_body. split.
  - apply bytes_ok_app. split; [apply w_index_ok, Zlen_nonneg|].
    apply bytes_ok_app. split; apply Forall_concat, Forall_map, Forall_forall.
    + intros v Hv. destruct (resolves_range _ _ _ Harr Hv). by apply w_index_ok.
    + intros p Hp. destruct (resolves_pair_range _ _ _ Hoth Hp). apply bytes_ok_app. split; apply w_index_ok; lia.
  - rewrite !Zlen_app. pose proof (Zlen_w_index (Zlen (elements t)) (Zlen_nonneg _)).
    pose proof (Zlen_nonneg (concat (map (w_pair code) (others t)))).
    assert (Zlen (elements t) <= Zlen (concat (map (fun v => w_index (code v)) (elements t)))); [|lia].
    clear -Harr. induction Harr as [|v v' l l' [Hr _] _ IH]; [done|]. cbn [map concat]. rewrite Zlen_cons, Zlen_app.
    pose proof (Zlen_w_index _ (proj1 Hr)). lia.
Qed.

Lemma decode_table_spec b (t : T) arr' oth' input st rest :
  Forall2 resolves (elements t) arr' -> Forall2 resolves_pair (others t) oth' ->
  heap st !! b = Some (mk_tobj t_empty None) -> source input (table_wire code t ++ rest) -> Zlen (table_body code t) < 2 ^ 31 ->
  exists input', decode_table vk index_map (LTable b) input st =
      Ret (inr (input', put_table st b (mk_tobj (sets t_empty (numbered 1 arr' ++ oth')) None))) /\ source input' rest.
Proof.
  intros Harr Hoth Hb Hs Hlen. unfold table_wire in Hs. rewrite <- app_assoc in Hs.
  destruct (source_string _ _ _ Hs) as (input1 & E1 & Hs1); [lia|]. unfold decode_table. rewrite E1. cbn [mbind outcome_bind].
  destruct (table_body_ok _ _ _ Harr Hoth) as [Hok Hcount]. pose proof (Zlen_nonneg (elements t)).
  destruct (bytearray_wrap_buffer (mk_ba 0 0 0 None 0 false false) (Some (table_body code t)) (Zlen (table_body code t))) as [? d] eqn:Ed.
  pose proof Ed as [= <- _]. apply wrap_source in Ed; [|done|lia]. unfold table_body in Ed.
  destruct (source_u30 _ _ _ Ed) as (d1 & -> & Hd1); [lia|]. cbn [mbind outcome_bind].
  replace (Z.to_nat (Zlen (elements t))) with (length (elements t)) by (unfold Zlen; lia).
  destruct (decode_array_spec b (Zlen (elements t)) _ _ 1 d1 st (mk_tobj t_empty None) (concat (map (w_pair code) (others t))) Harr) as (d2 & -> & Hd2); [lia|lia|lia|exact Hb|exact Hd1|]. cbn [mbind outcome_bind tab meta].
  rewrite (source_available _ _ Hd2). set (st1 := put_table st b _).
  destruct (decode_hash_spec b _ _ (Z.to_nat (Zlen (concat (map (w_pair code) (others t))))) d2 st1 _ Hoth (put_table_eq st b _) Hd2) as (d3 & ->).
  { assert (Z.of_nat (length (others t)) <= Zlen (concat (map (w_pair code) (others t)))); [|lia].
    apply concat_pairs_long. intros p Hp. destruct (resolves_pair_range _ _ _ Hoth Hp). lia. }
  cbn [mbind outcome_bind tab meta]. exists input1. split; [|done]. unfold st1. by rewrite put_table_twice, sets_app.
Qed.

Lemma table_body_le (t : T) : Zlen (table_body code t) <= Zlen (table_wire code t).
Proof. unfold table_wire. rewrite Zlen_app. pose proof (Zlen_nonneg (w_index (Zlen (table_body code t)))). lia. Qed.

(** [f] is what decoding makes of the table [t]. *)
Definition rebuilt (t f : T) : Prop :=
  exists arr' oth', Forall2 resolves (elements t) arr' /\ Forall2 resolves_pair (others t) oth' /\
    f = sets t_empty (numbered 1 arr' ++ oth').

Lemma decode_tables_loop_spec count index rest ts fs : Forall2 rebuilt ts fs -> forall addrs i input st,
  length addrs = length ts -> NoDup addrs ->
  (forall p b, addrs !! p = Some b -> t_get index_map (LInt (index + i + Z.of_nat p)) = LTable b) ->
  0 <= index -> 0 <= i -> index + i + Zlen ts <= 2 ^ 32 -> count = i + Zlen ts - 1 -> count < 2 ^ 32 - 1 ->
  (forall b, b ∈ addrs -> heap st !! b = Some (mk_tobj t_empty None)) ->
  source input (concat (map (table_wire code) ts) ++ rest) -> Zlen (concat (map (table_wire code) ts)) < 2 ^ 31 ->
  exists input' st', decode_tables_loop vk index_map (length ts) count i index input st = Ret (inr (input', st')) /\
    (forall p b f, addrs !! p = Some b -> fs !! p = Some f -> heap st' !! b = Some (mk_tobj f None)) /\
    (forall a, a ∉ addrs -> heap st' !! a = heap st !! a).
Proof.
  induction 1 as [|t f ts fs (arr' & oth' & Harr & Hoth & ->) _ IH]; intros addrs i input st Hl Hnd Hmap Hi0 Hi Hb Hc Hcm Hemp Hs Hlen.
  { exists input, st. rewrite Zlen_nil in Hc. cbn [length decode_tables_loop]. destruct (Z.leb_spec i count); [lia|]. split; [done|]. split; [|done]. intros p b f _ Hf. by rewrite lookup_nil in Hf. }
  destruct addrs as [|b addrs]; [done|]. apply NoDup_cons in Hnd as [Hnb Hnd]. cbn [length decode_tables_loop map concat] in *.
  rewrite <- app_assoc in Hs. rewrite Zlen_app in Hlen. rewrite Zlen_cons in Hb, Hc. pose proof (Zlen_nonneg ts).
  pose proof (Zlen_nonneg (concat (map (table_wire code) ts))). rewrite (u32_small (index + i)), (u32_small (i + 1)) by lia.
  destruct (Z.leb_spec i count); [|lia].
  assert (Hfirst : t_get index_map (LInt (index + i)) = LTable b).
  { rewrite <- (Hmap 0%nat b eq_refl). do 2 f_equal. lia. }
  rewrite Hfirst. destruct (decode_table_spec b t arr' oth' input st _ Harr Hoth (Hemp b (list_elem_of_here _ _)) Hs) as (input1 & -> & Hs1).
  { pose proof (table_body_le t). lia. }
  cbn [mbind outcome_bind]. set (st1 := put_table st b _).
  destruct (IH addrs (i + 1) input1 st1) as (input2 & st2 & -> & Hin & Hout); try done; try lia.
  { intros p c Hp. rewrite <- (Hmap (S p) c Hp). do 2 f_equal. lia. }
  { intros c Hin'. unfold st1. cbn. rewrite lookup_insert_ne by (by intros ->). apply Hemp. by right. }
  { pose proof (Zlen_nonneg (table_wire code t)). lia. }
  exists input2, st2. split; [done|]. split.
  - intros [|p] c f Hp Hf; cbn in Hp, Hf; [|by eapply Hin]. injection Hp as ->. injection Hf as <-.
    rewrite Hout by done. unfold st1. apply lookup_insert_eq.
  - intros a [Hne Ha]%not_elem_of_cons. rewrite Hout by done. unfold st1. cbn. by rewrite lookup_insert_ne by done.
Qed.
End Table.
End Reading.

(** ** Numbers that find each other *)

Section Numbering.
Context {T : Type} `{LuaTable T} `{LuaAPI}.

Lemma assign_other l : forall (t : T) i v,
  Forall (fun w => key_ok w = true) l -> lua_key v ∉ map lua_key l -> t_get (assign t i l) v = t_get t v.
Proof.
  induction l as [|w l IH]; intros t i v Hl Hv; [done|]. inversion Hl; subst. cbn [assign map] in *.
  apply not_elem_of_cons in Hv as [Hne Hv]. rewrite IH, t_get_set_key by done.
  by destruct (decide (lua_key w = lua_key v)).
Qed.
Lemma assign_lookup l : forall (t : T) i p v w,
  Forall (fun w => key_ok w = true) l -> NoDup (map lua_key l) -> l !! p = Some w -> lua_key w = lua_key v ->
  t_get (assign t i l) v = LInt (i + Z.of_nat p).
Proof.
  induction l as [|x l IH]; intros t i p v w Hl Hnd Hp Hk; [done|]. inversion Hl; subst. cbn [map] in Hnd.
  apply NoDup_cons in Hnd as [Hx Hnd]. cbn [assign]. destruct p as [|p]; cbn in Hp.
  - injection Hp as ->. rewrite assign_other by (done || by rewrite <- Hk). rewrite t_get_set_key by done.
    destruct (decide _); [|done]. f_equal. lia.
  - rewrite (IH _ (i + 1) p v w) by done. f_equal. lia.
Qed.

Context (st : lua_state T).

Lemma kinds_disjoint (l k : list lua_value) (f g : lua_value -> bool) :
  (forall v, f (lua_key v) = f v) -> (forall v, g (lua_key v) = g v) -> (forall v, f v = true -> g v = false) ->
  Forall (fun v => f v = true) l -> Forall (fun v => g v = true) k -> NoDup (map lua_key l) -> NoDup (map lua_key k) ->
  NoDup (map lua_key (l ++ k)).
Proof.
  intros Hf Hg Hfg Hl Hk Hnl Hnk. rewrite map_app. apply NoDup_app. split; [done|]. split; [|done].
  intros x (v & -> & Hv)%list_elem_of_fmap (w & E & Hw)%list_elem_of_fmap. rewrite Forall_forall in Hl, Hk.
  specialize (Hl v Hv). specialize (Hk w Hw). rewrite <- Hg, <- E, Hg, (Hfg v Hl) in Hk. done.
Qed.
Lemma nodup_plain l : Forall (fun v => is_number v = false) l -> NoDup l -> NoDup (map lua_key l).
Proof.
  intros Hl Hn. induction Hn as [|v l Hv _ IH]; [apply NoDup_nil_2|]. inversion Hl; subst. cbn [map]. apply NoDup_cons. split; [|by apply IH].
  intros (w & E & Hw)%list_elem_of_fmap. rewrite Forall_forall in Hl. rewrite !lua_key_not_number in E by (apply Hl; by (left || right)).
  by subst.
Qed.

Lemma items_ok sym_map ctx : ctx_ok st ctx ->
  Forall (fun w => key_ok w = true) (items sym_map ctx) /\ NoDup (map lua_key (items sym_map ctx)) /\
  Forall (fun w => lua_isboolean w = false) (items sym_map ctx).
Proof.
  intros [_ _ _ (Cn & Cu & Cs & Ct) (Nn & Ns & Nt)].
  set (all := (c_numbers ctx ++ c_u30s ctx) ++ c_strings ctx ++ c_tables ctx).
  assert (Hsub : map lua_key (items sym_map ctx) `sublist_of` map lua_key all).
  { assert (Hf : forall l, fresh_of sym_map l `sublist_of` l) by (intros; apply sublist_filter).
    unfold items, all. rewrite <- app_assoc, !map_app. repeat apply sublist_app; try done; by apply fmap_sublist. }
  assert (Hnum : Forall (fun v => num_ok v) (c_numbers ctx ++ c_u30s ctx)).
  { apply Forall_app. split; (eapply Forall_impl; [eassumption|]; by intros ? [? _]). }
  assert (Hn : Forall (fun v => is_number v = true) (c_numbers ctx ++ c_u30s ctx)) by (eapply Forall_impl; [exact Hnum|]; by intros []).
  assert (Hs : Forall (fun v => is_string v = true) (c_strings ctx)) by (eapply Forall_impl; [exact Cs|]; by intros ? [? _]).
  assert (Ht : Forall (fun v => lua_istable v = true) (c_tables ctx)) by (eapply Forall_impl; [exact Ct|]; by intros ? (a & -> & _)).
  assert (Hall : Forall (fun v => key_ok v = true /\ lua_isboolean v = false) all).
  { apply Forall_app. split; [|apply Forall_app; split].
    - eapply Forall_impl; [exact Hnum|]. intros v Hv. split; [|by destruct v]. apply scalar_key_ok. by destruct v.
    - eapply Forall_impl; [exact Hs|]. by intros [].
    - eapply Forall_impl; [exact Ht|]. by intros []. }
  assert (Hin : forall v, v ∈ items sym_map ctx -> v ∈ all).
  { intros v. unfold items, all, fresh_of. rewrite !elem_of_app, !list_elem_of_filter. tauto. }
  split; [|split].
  - apply Forall_forall. intros v Hv. rewrite Forall_forall in Hall. by apply Hall, Hin.
  - eapply sublist_NoDup; [|exact Hsub]. unfold all.
    apply kinds_disjoint with (f := is_number) (g := fun v => is_string v || lua_istable v); try done.
    + apply is_number_key. + intros []; try done. cbn. destruct (d_int d); [|done]. by case_match. + by intros [].
    + apply Forall_app. split; (eapply Forall_impl; [eassumption|]); by intros [].
    + apply nodup_plain; [|apply NoDup_app; split; [done|]; split; [|done]].
      * apply Forall_app. split; (eapply Forall_impl; [eassumption|]); by intros [].
      * intros v Hv Hv2. rewrite Forall_forall in Hs, Ht. specialize (Hs v Hv). specialize (Ht v Hv2). by destruct v.
  - apply Forall_forall. intros v Hv. rewrite Forall_forall in Hall. by apply Hall, Hin.
Qed.
End Numbering.

(** ** Graphs that look alike *)

(** [m] sends tables to tables; other values correspond when they are equal to
    Lua ([lua_rawequal]: an integer and the float of the same value are). *)
Definition same (m : gmap positive positive) (v v' : lua_value) : Prop :=
  match v with
  | LTable a => exists b, v' = LTable b /\ m !! a = Some b
  | _ => lua_istable v' = false /\ lua_key v' = lua_key v
  end.
Definition same_pair (m : gmap positive positive) (p p' : lua_value * lua_value) : Prop := same m p.1 p'.1 /\ same m p.2 p'.2.

(** An injective map under which every table has the pairs of its image. *)
Definition isomorphic {T} `{LuaTable T} (m : gmap positive positive) (st st' : lua_state T) : Prop :=
  (forall a1 a2 b, m !! a1 = Some b -> m !! a2 = Some b -> a1 = a2) /\
  forall a b, m !! a = Some b -> exists o o', heap st !! a = Some o /\ heap st' !! b = Some o' /\
    (forall p, p ∈ t_pairs (tab o) -> exists p', p' ∈ t_pairs (tab o') /\ same_pair m p p') /\
    (forall p', p' ∈ t_pairs (tab o') -> exists p, p ∈ t_pairs (tab o) /\ same_pair m p p').

(** A string key Lua would convert to a positive [int] (as the encoder does). *)
Definition numeric_string `{LuaAPI} (v : lua_value) : Prop :=
  exists s d n, v = LStr s /\ lua_tonumberx v = Some d /\ d_int d = Some n /\ 0 < n < 2 ^ 31.
Definition plain_keys {T} `{LuaTable T} `{LuaAPI} (st : lua_state T) (root : lua_value) : Prop :=
  forall a o k v, reaches st root (LTable a) -> heap st !! a = Some o -> (k, v) ∈ t_pairs (tab o) -> ~ numeric_string k.

(** A symbol table: numbers from 3 to [index] for strings and numbers, the same
    in both directions, and 1 and 2 for the booleans. *)
Record symbols_ok {T} `{LuaTable T} (sym_map vk : T) (index : Z) : Prop := {
  s_index : 2 <= index;
  s_code : forall v, t_get sym_map v <> LNil -> exists i, t_get sym_map v = LInt i /\
    ((i = 1 /\ v = LBool false) \/ (i = 2 /\ v = LBool true) \/
     (2 < i <= index /\ is_number v || is_string v = true /\ lua_key (t_get vk (LInt i)) = lua_key v));
  s_false : t_get vk (LInt 1) = LNil \/ t_get vk (LInt 1) = LBool false;
  s_true : t_get vk (LInt 2) = LNil \/ t_get vk (LInt 2) = LBool true;
  s_fresh : forall i, index < i -> t_get vk (LInt i) = LNil
}.

Section Graph.
Context {T : Type} `{LuaTable T} `{LuaAPI}.

Lemma no_symbols : symbols_ok (t_empty (T := T)) t_empty 2.
Proof.
  constructor; [done| |left; apply t_empty_get|left; apply t_empty_get|intros; apply t_empty_get].
  intros v Hv. by rewrite t_empty_get in Hv.
Qed.

Lemma same_key m k k' : same m k k' -> key_ok k = true -> key_ok k' = true.
Proof.
  intros Hs Hk. destruct (lua_istable k) eqn:Ht.
  - destruct k; try done. by destruct Hs as (b & -> & _).
  - assert (E : lua_key k' = lua_key k) by (destruct k; (exact (proj2 Hs) || discriminate)).
    rewrite <- (lua_key_ok k'), E, lua_key_ok. exact Hk.
Qed.
Lemma same_nil m k k' : same m k k' -> k <> LNil -> k' <> LNil.
Proof.
  intros Hs Hk ->. destruct (lua_istable k) eqn:Ht; [destruct k; try done; by destruct Hs as (b & ? & _)|].
  assert (E : lua_key k = LNil) by (destruct k; (exact (eq_sym (proj2 Hs)) || discriminate)).
  apply Hk. destruct k; try discriminate; [done|]. revert E. cbn [lua_key].
  destruct (d_int d); [|discriminate]. case_match; discriminate.
Qed.

Lemma same_normal m k k' : same m k k' -> same m k (lua_key k').
Proof.
  intros Hs. destruct k; try (destruct Hs as [St Se]; split; [|by rewrite lua_key_idemp]).
  all: try (by destruct Hs as (b & -> & ?); exists b).
  all: destruct k' as [| | |d'| | | |]; try done; cbn; (destruct (d_int d'); [case_match|]; done).
Qed.

(** The pairs of a table, in the order they are written. *)
Definition written_pairs (t : T) : list (lua_value * lua_value) := numbered 1 (elements t) ++ others t.

Lemma numbered_lookup j l p : numbered j l !! p = (fun v => (LInt (j + Z.of_nat p), v)) <$> (l !! p).
Proof.
  revert j p. induction l as [|v l IH]; intros j p; [done|]. destruct p as [|p]; cbn.
  - by rewrite Z.add_0_r.
  - rewrite IH. by replace (j + Z.of_nat (S p)) with (j + 1 + Z.of_nat p) by lia.
Qed.

Lemma not_in_array n k : lua_tonumberx k = None -> in_array n k = false.
Proof.
  intros E. unfold in_array. rewrite E. change (d_int (default 0 None)) with (Some 0). cbv beta iota.
  change (0 <? 0) with false. apply andb_false_r.
Qed.
Lemma in_array_spec n k :
  scalar_ok k \/ lua_istable k = true -> ~ numeric_string k -> lua_key k = k -> n < 2 ^ 31 ->
  in_array n k = true <-> exists i, k = LInt i /\ 1 <= i <= n.
Proof.
  intros Hk Hs Hkey Hn. split.
  2: { intros (i & -> & Hi). unfold in_array. rewrite lua_tonumberx_int. destruct Hk as [Hk|]; [|done]. cbn in Hk.
       change (default 0 (Some (d_of_Z i))) with (d_of_Z i). rewrite d_int_of_Z by lia. lia. }
  destruct (lua_tonumberx k) as [d|] eqn:Ed; [|by rewrite not_in_array].
  unfold in_array. rewrite Ed. change (default 0 (Some d)) with d. destruct (d_int d) as [i|] eqn:Ei; [|done]. intros E.
  destruct k; try (by rewrite lua_tonumberx_other in Ed).
  - destruct Hk as [Hk|]; [|done]. cbn in Hk. rewrite lua_tonumberx_int in Ed. injection Ed as <-.
    rewrite d_int_of_Z in Ei by lia. injection Ei as ->. exists i. split; [done|lia].
  - rewrite lua_tonumberx_flt in Ed. injection Ed as ->. cbn [lua_key] in Hkey. rewrite Ei in Hkey.
    replace ((- 2 ^ 63 <=? i) && (i <? 2 ^ 63)) with true in Hkey by lia. done.
  - exfalso. apply Hs. exists s, d, i. split; [done|]. split; [done|]. split; [done|]. lia.
Qed.

Lemma written_pairs_spec (t : T) :
  (forall k v, (k, v) ∈ t_pairs t -> (scalar_ok k \/ lua_istable k = true) /\ ~ numeric_string k) -> Zlen (elements t) < 2 ^ 31 ->
  (forall p, p ∈ written_pairs t <-> p ∈ t_pairs t) /\ NoDup (map fst (written_pairs t)).
Proof.
  intros Hkeys Hn.
  assert (Harr : forall p, p ∈ numbered 1 (elements t) <-> p ∈ t_pairs t /\ in_array (Zlen (elements t)) p.1 = true).
  { intros [k v]. cbn [fst]. split.
    - intros [p Hp]%list_elem_of_lookup. rewrite numbered_lookup in Hp. destruct (elements t !! p) as [w|] eqn:E; [|done].
      injection Hp as <- <-. pose proof E as [Hg Hnn]%array_part_lookup. apply lookup_lt_Some in E.
      assert (Hin : (LInt (1 + Z.of_nat p), w) ∈ t_pairs t) by (by apply t_pairs_get).
      split; [done|]. destruct (Hkeys _ _ Hin). apply in_array_spec; try done. exists (1 + Z.of_nat p).
      split; [done|]. unfold Zlen. lia.
    - intros [Hin Ha]. destruct (Hkeys _ _ Hin) as [Hk Hs]. pose proof Hin as (Hkey & Hg & Hnn)%t_pairs_key.
      apply in_array_spec in Ha as (i & -> & Hi); try done.
      destruct (lookup_lt_is_Some_2 (elements t) (Z.to_nat (i - 1))) as [w Hw]; [unfold Zlen in Hi; lia|].
      apply list_elem_of_lookup. exists (Z.to_nat (i - 1)). rewrite numbered_lookup, Hw. cbn [fmap option_fmap option_map].
      pose proof Hw as [Hg' _]%array_part_lookup. replace (1 + Z.of_nat (Z.to_nat (i - 1))) with i in * by lia.
      do 2 f_equal. congruence. }
  split.
  - intros p. unfold written_pairs, others. rewrite elem_of_app, Harr, list_elem_of_filter. clear. destruct (in_array _ p.1); intuition congruence.
  - unfold written_pairs. rewrite map_app. apply NoDup_app. split; [|split].
    + rewrite NoDup_alt. intros i j k Hi Hj. rewrite list_lookup_fmap, numbered_lookup in Hi, Hj.
      destruct (elements t !! i), (elements t !! j); try done. cbn in Hi, Hj. injection Hi as <-. injection Hj as Hj. lia.
    + intros k ([k1 v1] & -> & [_ H1]%Harr)%list_elem_of_fmap ([k2 v2] & E & [H2 _]%list_elem_of_filter)%list_elem_of_fmap.
      cbn in *. subst. congruence.
    + eapply sublist_NoDup; [apply (t_pairs_nodup t)|]. apply fmap_sublist, sublist_filter.
Qed.

Lemma sets_other kvs : forall (t : T) v,
  Forall (fun p => key_ok p.1 = true) kvs -> lua_key v ∉ map (fun p => lua_key p.1) kvs -> t_get (sets t kvs) v = t_get t v.
Proof.
  induction kvs as [|[k w] kvs IH]; intros t v Hl Hv; [done|]. inversion Hl; subst. cbn [sets map fst] in *.
  apply not_elem_of_cons in Hv as [Hne Hv]. rewrite IH, t_get_set_key by done. by destruct (decide (lua_key k = lua_key v)).
Qed.
Lemma sets_in kvs : forall (t : T) k w v,
  Forall (fun p => key_ok p.1 = true) kvs -> NoDup (map (fun p => lua_key p.1) kvs) -> (k, w) ∈ kvs -> lua_key k = lua_key v ->
  t_get (sets t kvs) v = w.
Proof.
  induction kvs as [|[k0 w0] kvs IH]; intros t k w v Hl Hnd Hin Hk; [by apply not_elem_of_nil in Hin|].
  inversion Hl; subst. cbn [sets map fst] in *. apply NoDup_cons in Hnd as [Hn Hnd].
  apply elem_of_cons in Hin as [[= <- <-]|Hin].
  - rewrite sets_other by (done || by rewrite <- Hk). rewrite t_get_set_key by done. by destruct (decide _).
  - by apply (IH _ k w v).
Qed.
Lemma sets_pairs kvs :
  Forall (fun p => key_ok p.1 = true /\ p.2 <> LNil) kvs -> NoDup (map (fun p => lua_key p.1) kvs) ->
  forall k v, (k, v) ∈ t_pairs (sets t_empty kvs) <-> exists k0, (k0, v) ∈ kvs /\ lua_key k0 = k.
Proof.
  intros Hl Hnd k v. assert (Hl1 : Forall (fun p => key_ok p.1 = true) kvs) by (eapply Forall_impl; [exact Hl|]; by intros ? [? _]).
  rewrite t_pairs_key. split.
  - intros (Hk & Hg & Hn). destruct (decide (lua_key k ∈ map (fun p => lua_key p.1) kvs)) as [Hin|Hin].
    + apply list_elem_of_fmap in Hin as ([k0 v0] & E & Hin). cbn in E. exists k0.
      rewrite (sets_in _ _ k0 v0) in Hg by done. subst. by rewrite Hk in E.
    + rewrite sets_other, t_empty_get in Hg by done. by subst.
  - intros (k0 & Hin & <-). rewrite Forall_forall in Hl. destruct (Hl _ Hin) as [_ Hn]. split; [apply lua_key_idemp|].
    split; [|done]. apply (sets_in _ _ k0); try done. by rewrite lua_key_idemp.
Qed.

(** Keys that correspond to different keys are different. *)
Lemma same_inj m k1 k2 k1' k2' :
  (forall a1 a2 b, m !! a1 = Some b -> m !! a2 = Some b -> a1 = a2) -> same m k1 k1' -> same m k2 k2' ->
  lua_key k1' = lua_key k2' -> lua_key k1 = lua_key k2.
Proof.
  intros Hinj H1 H2 E. destruct (lua_istable k1) eqn:T1, (lua_istable k2) eqn:T2.
  - destruct k1, k2; try done. destruct H1 as (b1 & -> & E1), H2 as (b2 & -> & E2). injection E as <-. by rewrite (Hinj _ _ _ E1 E2).
  - destruct k1; try done. destruct H1 as (b1 & -> & E1). exfalso.
    assert (Hs : lua_istable k2' = false) by (destruct k2; (exact (proj1 H2) || discriminate)).
    destruct k2'; try discriminate. revert E. cbn [lua_key]. destruct (d_int d); [case_match|]; discriminate.
  - destruct k2; try done. destruct H2 as (b2 & -> & E2). exfalso.
    assert (Hs : lua_istable k1' = false) by (destruct k1; (exact (proj1 H1) || discriminate)).
    destruct k1'; try discriminate. revert E. cbn [lua_key]. destruct (d_int d); [case_match|]; discriminate.
  - assert (E1 : lua_key k1' = lua_key k1) by (destruct k1; (exact (proj2 H1) || discriminate)).
    assert (E2 : lua_key k2' = lua_key k2) by (destruct k2; (exact (proj2 H2) || discriminate)). congruence.
Qed.

(** A table rebuilt from the pairs of another one has the pairs that correspond. *)
Lemma rebuilt_pairs m (t : T) kvs :
  (forall a1 a2 b, m !! a1 = Some b -> m !! a2 = Some b -> a1 = a2) ->
  (forall k v, (k, v) ∈ t_pairs t -> (scalar_ok k \/ lua_istable k = true) /\ ~ numeric_string k) -> Zlen (elements t) < 2 ^ 31 ->
  Forall2 (same_pair m) (written_pairs t) kvs ->
  (forall p, p ∈ t_pairs t -> exists p', p' ∈ t_pairs (sets t_empty kvs) /\ same_pair m p p') /\
  (forall p', p' ∈ t_pairs (sets t_empty kvs) -> exists p, p ∈ t_pairs t /\ same_pair m p p').
Proof.
  intros Hinj Hkeys Hlen Hkvs. destruct (written_pairs_spec t Hkeys Hlen) as [Hw Hnd].
  assert (Hok : Forall (fun p => key_ok p.1 = true /\ p.2 <> LNil) kvs).
  { apply Forall_forall. intros p' [i Hi]%list_elem_of_lookup. destruct (Forall2_lookup_r _ _ _ _ _ Hkvs Hi) as ([k v] & Hp & Hk & Hv).
    assert (Hin : (k, v) ∈ t_pairs t) by (apply Hw, list_elem_of_lookup; by exists i). pose proof (t_pairs_key_ok _ _ _ Hin).
    apply t_pairs_key in Hin as (_ & _ & Hn). split; [by eapply same_key|by eapply same_nil]. }
  assert (Hnd' : NoDup (map (fun p => lua_key p.1) kvs)).
  { apply NoDup_alt. intros i j k Hi Hj. rewrite list_lookup_fmap in Hi, Hj.
    destruct (kvs !! i) as [p1'|] eqn:E1; [|done]. destruct (kvs !! j) as [p2'|] eqn:E2; [|done].
    injection Hi as <-. injection Hj as Hj.
    destruct (Forall2_lookup_r _ _ _ _ _ Hkvs E1) as ([k1 v1] & F1 & S1 & _).
    destruct (Forall2_lookup_r _ _ _ _ _ Hkvs E2) as ([k2 v2] & F2 & S2 & _).
    assert (In1 : (k1, v1) ∈ t_pairs t) by (apply Hw, list_elem_of_lookup; by exists i).
    assert (In2 : (k2, v2) ∈ t_pairs t) by (apply Hw, list_elem_of_lookup; by exists j).
    apply t_pairs_key in In1 as (N1 & _), In2 as (N2 & _). cbn [fst] in *.
    assert (E : k1 = k2) by (rewrite <- N1, <- N2; by eapply same_inj). subst.
    eapply NoDup_lookup; [exact Hnd| |]; rewrite list_lookup_fmap, ?F1, ?F2; done. }
  split.
  - intros [k v] Hin. pose proof Hin as (Hk & _)%t_pairs_key. apply Hw, list_elem_of_lookup in Hin as [i Hi].
    destruct (Forall2_lookup_l _ _ _ _ _ Hkvs Hi) as ([k' v'] & Hi' & Sk & Sv). exists (lua_key k', v'). split.
    + apply sets_pairs; [done|done|]. exists k'. split; [|done]. apply list_elem_of_lookup. by exists i.
    + split; [|done]. by apply same_normal.
  - intros [k' v'] (k0 & Hin & <-)%sets_pairs; [|done|done]. apply list_elem_of_lookup in Hin as [i Hi].
    destruct (Forall2_lookup_r _ _ _ _ _ Hkvs Hi) as ([k v] & Hp & Sk & Sv). exists (k, v).
    split; [apply Hw, list_elem_of_lookup; by exists i|]. split; [|done]. by apply same_normal.
Qed.
End Graph.

(** ** Every number resolves *)

Section Resolving.
Context {T : Type} `{LuaTable T} `{LuaAPI}.
Context (st : lua_state T).

Lemma same_left m w v v' : lua_key w = lua_key v -> same m w v' -> same m v v'.
Proof.
  intros E Hs. destruct (lua_istable w) eqn:Tw, (lua_istable v) eqn:Tv.
  - destruct w, v; try done. by injection E as ->.
  - destruct w; try done. exfalso. destruct v; try discriminate. revert E. cbn [lua_key]. destruct (d_int d); [case_match|]; discriminate.
  - destruct v; try done. exfalso. destruct w; try discriminate. revert E. cbn [lua_key]. destruct (d_int d); [case_match|]; discriminate.
  - assert (Hs' : lua_istable v' = false /\ lua_key v' = lua_key w) by (destruct w; (exact Hs || discriminate)).
    rewrite E in Hs'. destruct v; (exact Hs' || discriminate).
Qed.

Lemma resolve_intro (vk DM : T) code v v' : 0 <= code v < 2 ^ 32 ->
  (let s := t_get vk (LInt (code v)) in if lua_isnil s then t_get DM (LInt (code v)) else s) = v' -> v' <> LNil ->
  resolves vk DM code v v'.
Proof.
  intros Hr E Hn. split; [done|]. intros name. unfold resolve. cbv zeta in *.
  destruct (lua_isnil (t_get vk (LInt (code v)))); [|by rewrite E]. rewrite E. by destruct v'.
Qed.

Lemma isnil_false v : v <> LNil -> lua_isnil v = false.
Proof. by destruct v. Qed.

Lemma key_of_nil v : lua_key v = LNil -> v = LNil.
Proof. destruct v; try done. cbn [lua_key]. destruct (d_int d); [case_match|]; discriminate. Qed.
Lemma key_of_bool v b : lua_key v = LBool b -> v = LBool b.
Proof. destruct v; try done. cbn [lua_key]. destruct (d_int d); [case_match|]; discriminate. Qed.
Lemma key_of_table v a : lua_key v = LTable a -> v = LTable a.
Proof. destruct v; try done. cbn [lua_key]. destruct (d_int d); [case_match|]; discriminate. Qed.

(** A listed value without a symbol is one of the items. *)
Lemma listed_item sym_map ctx v :
  listed ctx v -> t_get (T := T) sym_map v = LNil -> is_number v = true \/ is_string v = true \/ lua_istable v = true ->
  exists p w, items sym_map ctx !! p = Some w /\ lua_key w = lua_key v.
Proof.
  intros Hl Hn Hkind. assert (Hin : exists w, w ∈ items sym_map ctx /\ lua_key w = lua_key v).
  { assert (Hfr : forall l w, w ∈ l -> lua_key w = lua_key v -> w ∈ fresh_of sym_map l).
    { intros l w Hw E. apply list_elem_of_filter. split; [|done]. by rewrite <- t_get_norm, E, t_get_norm. }
    unfold items. destruct v; cbn [listed] in Hl; try (by destruct Hkind as [?|[?|?]]).
    1,2: destruct Hl as (w & Hw & E); exists w; split; [|done]; apply elem_of_app in Hw as [Hw|Hw]; rewrite !elem_of_app; [left|right; left]; by apply Hfr.
    - exists (LStr s). split; [|done]. rewrite !elem_of_app. right; right; left. by apply Hfr.
    - exists (LTable a). split; [|done]. rewrite !elem_of_app. by right; right; right. }
  destruct Hin as (w & [p Hp]%list_elem_of_lookup & E). by exists p, w.
Qed.

Lemma resolve_same m sym_map vk index ctx DM vals v :
  ctx_ok st ctx -> symbols_ok sym_map vk index -> Forall2 (same m) (items sym_map ctx) vals ->
  (forall p v', vals !! p = Some v' -> t_get DM (LInt (index + 1 + Z.of_nat p)) = v') ->
  t_get DM (LInt 1) = LBool false -> t_get DM (LInt 2) = LBool true -> index + Zlen (items sym_map ctx) < 2 ^ 31 ->
  listed ctx v -> scalar_ok v \/ lua_istable v = true ->
  exists v', resolves vk DM (index_of sym_map (final_map sym_map index ctx)) v v' /\ same m v v'.
Proof.
  intros Hctx [Si Sc Sf St Sn] Hvals HDM Hfalse Htrue Hb Hl Hok.
  destruct (items_ok st sym_map ctx Hctx) as (Hkeys & Hnd & Hnobool). pose proof (Zlen_nonneg (items sym_map ctx)).
  assert (Hbool : forall b, index_of sym_map (final_map sym_map index ctx) (LBool b) = (if b then 2 else 1) ->
    exists v', resolves vk DM (index_of sym_map (final_map sym_map index ctx)) (LBool b) v' /\ same m (LBool b) v').
  { intros b E. exists (LBool b). split; [|done]. apply resolve_intro; [rewrite E; destruct b; lia| |done]. cbv zeta. rewrite E.
    destruct b; [destruct St as [-> | ->]|destruct Sf as [-> | ->]]; done. }
  destruct (decide (t_get sym_map v = LNil)) as [Hnil|Hnil].
  - assert (Hcode : index_of sym_map (final_map sym_map index ctx) v = u32 (lua_tointeger (t_get (final_map sym_map index ctx) v))).
    { unfold index_of. by rewrite Hnil. }
    destruct (lua_isboolean v) eqn:Hvb.
    + destruct v as [|b| | | | | |]; try done. apply Hbool. rewrite Hcode. unfold final_map.
      rewrite assign_other; [|done|].
      * unfold bools. rewrite !t_get_set by done. unfold lua_tointeger.
        destruct b; repeat (destruct (decide _); try done); by rewrite lua_tointegerx_int.
      * intros (w & E & Hw)%list_elem_of_fmap. symmetry in E. apply key_of_bool in E as ->.
        rewrite Forall_forall in Hnobool. by specialize (Hnobool _ Hw).
    + destruct (listed_item sym_map ctx v Hl Hnil) as (p & w & Hp & E).
      { destruct v; try done; auto; by destruct Hok. }
      destruct (Forall2_lookup_l _ _ _ _ _ Hvals Hp) as (v' & Hv' & Hs). pose proof (lookup_lt_Some _ _ _ Hp) as Hlt.
      rewrite Forall_forall in Hkeys. assert (Hw : key_ok w = true) by (apply Hkeys, list_elem_of_lookup; by exists p).
      assert (Hc : index_of sym_map (final_map sym_map index ctx) v = index + 1 + Z.of_nat p).
      { rewrite Hcode. unfold final_map. rewrite (assign_lookup _ _ _ p v w) by (done || by apply Forall_forall).
        unfold lua_tointeger. rewrite lua_tointegerx_int. apply u32_small. unfold Zlen in *. cbn. lia. }
      exists v'. split; [|by eapply same_left]. apply resolve_intro.
      * rewrite Hc. unfold Zlen in *. lia.
      * cbv zeta. rewrite Hc, Sn by lia. by apply HDM.
      * eapply same_nil; [exact Hs|]. by intros ->.
  - destruct (Sc v Hnil) as (i & Ei & Hi).
    assert (Hc : index_of sym_map (final_map sym_map index ctx) v = u32 i).
    { unfold index_of. rewrite Ei. cbn [lua_isnil]. unfold lua_tointeger. by rewrite lua_tointegerx_int. }
    destruct Hi as [[-> ->]|[[-> ->]|(Hi & Hkind & Hvk)]]; [by apply Hbool|by apply Hbool|].
    exists (t_get vk (LInt i)). rewrite u32_small in Hc by lia.
    assert (Hnn : t_get vk (LInt i) <> LNil).
    { intros En. rewrite En in Hvk. symmetry in Hvk. apply key_of_nil in Hvk as ->. done. }
    split.
    + apply resolve_intro; [rewrite Hc; lia| |done]. cbv zeta. rewrite Hc. by rewrite isnil_false.
    + assert (Ht : lua_istable (t_get vk (LInt i)) = false).
      { destruct (t_get vk (LInt i)) as [| | | | |a| |] eqn:Ev; try done. symmetry in Hvk. apply key_of_table in Hvk as ->. done. }
      destruct v; try done; by split.
Qed.
End Resolving.

(** ** Decoding an encoding *)

Section Decoding.
Context {T : Type} `{LuaTable T} `{LuaAPI}.

Definition b_number (v : lua_value) : lua_value := LFlt (default 0 (lua_tonumberx v)).
Definition b_u30 (v : lua_value) : lua_value := LInt (u32 (lua_tointeger v)).

Lemma same_scalar m v v' : lua_istable v = false -> lua_istable v' = false -> lua_key v' = lua_key v -> same m v v'.
Proof. intros Hv Hv' E. by destruct v. Qed.

Lemma number_back w : num_ok w -> gets ObjectBuf.get_number (w_number w) (b_number w) /\ forall m, same m w (b_number w).
Proof.
  intros Hw. unfold w_number, b_number. destruct w as [| |n|d| | | |]; try done; cbn in Hw.
  - rewrite lua_tonumberx_int. change (default 0 (Some (d_of_Z n))) with (d_of_Z n). split; [apply gets_number, d_of_Z_range|].
    intros m. apply same_scalar; [done|done|]. cbn [lua_key]. rewrite d_int_of_Z by done.
    by replace ((- 2 ^ 63 <=? n) && (n <? 2 ^ 63)) with true by lia.
  - rewrite lua_tonumberx_flt. change (default 0 (Some d)) with d. split; [apply gets_number, Hw|]. intros m. by apply same_scalar.
Qed.
Lemma u30_back w : num_ok w -> not_u30 (default 0 (lua_tonumberx w)) = false ->
  gets get_u30 (w_u30 w) (b_u30 w) /\ forall m, same m w (b_u30 w).
Proof.
  intros Hw Hu. unfold w_u30, b_u30. split; [apply gets_u30, u32_range|]. intros m.
  assert (Hv : exists n, lua_tointeger w = n /\ 0 <= n < 2 ^ 32 /\ lua_key w = LInt n).
  { unfold not_u30, MAX_U30 in Hu. destruct w as [| |n|d| | | |]; try done; cbn in Hw.
    - rewrite lua_tonumberx_int in Hu. change (default 0 (Some (d_of_Z n))) with (d_of_Z n) in Hu. rewrite d_int_of_Z in Hu by done.
      exists n. unfold lua_tointeger. rewrite lua_tointegerx_int. split; [done|]. split; [lia|done].
    - rewrite lua_tonumberx_flt in Hu. change (default 0 (Some d)) with d in Hu. destruct (d_int d) as [n|] eqn:E; [|done].
      exists n. unfold lua_tointeger. rewrite (lua_tointegerx_flt d n) by (done || lia). split; [done|]. split; [lia|].
      cbn [lua_key]. rewrite E. by replace ((- 2 ^ 63 <=? n) && (n <? 2 ^ 63)) with true by lia. }
  destruct Hv as (n & -> & Hn & Hk). rewrite u32_small by done. apply same_scalar; [by destruct w|done|by rewrite Hk].
Qed.
Lemma string_back w : is_string w = true -> scalar_ok w -> gets get_string (w_string w) w /\ forall m, same m w w.
Proof.
  intros Hs Hw. destruct w; try done. destruct Hw as [_ Hl]. split; [|by intros m; apply same_scalar].
  unfold w_string. rewrite lua_tolstring_str. by apply gets_string.
Qed.

Lemma source_read8 ba x t : source ba (x :: t) -> exists ba', bytearray_read8 ba = Ret (Some x, ba') /\ source ba' t.
Proof. intros Hs. destruct (reader_read8 _ _ _ Hs) as (b & E & Hr). rewrite read8_mark in E. by eapply with_mark_inv. Qed.

(** What decoding puts at the places of the scalars. *)
Definition back (sym_map : T) (ctx : CTX T) : list lua_value :=
  map b_number (fresh_of sym_map (c_numbers ctx)) ++ map b_u30 (fresh_of sym_map (c_u30s ctx)) ++ fresh_of sym_map (c_strings ctx).

Lemma back_same (st : lua_state T) sym_map ctx m : classified st ctx -> Forall2 (same m) (scalars sym_map ctx) (back sym_map ctx).
Proof.
  intros (Cn & Cu & Cs & _). unfold scalars, back. repeat apply Forall2_app.
  - apply Forall2_fmap_r, Forall_Forall2_diag, fresh_of_forall. eapply Forall_impl; [exact Cn|]. intros v [Hv _]. by apply number_back.
  - apply Forall2_fmap_r, Forall_Forall2_diag, fresh_of_forall. eapply Forall_impl; [exact Cu|]. intros v [Hv Hu]. by apply u30_back.
  - apply Forall_Forall2_diag, fresh_of_forall. eapply Forall_impl; [exact Cs|]. intros v [Hv Hs]. by apply string_back.
Qed.

Definition no_items (l : list lua_value) : bool := match l with [] => true | _ => false end.
Lemma flag_bits (ctx : CTX T) :
  c_true (Z.land (flag_of ctx) HAS_NUMBER_MASK) = negb (no_items (c_numbers ctx)) /\
  c_true (Z.land (flag_of ctx) HAS_U30_MASK) = negb (no_items (c_u30s ctx)) /\
  c_true (Z.land (flag_of ctx) HAS_STRING_MASK) = negb (no_items (c_strings ctx)) /\
  c_true (Z.land (flag_of ctx) HAS_TABLE_MASK) = negb (no_items (c_tables ctx)) /\
  is_byte (flag_of ctx) /\ flag_of ctx <> 1 /\
  (flag_of ctx = 0 -> c_numbers ctx = [] /\ c_u30s ctx = [] /\ c_strings ctx = [] /\ c_tables ctx = []).
Proof.
  unfold flag_of. destruct (c_numbers ctx), (c_u30s ctx), (c_strings ctx), (c_tables ctx);
    (repeat split; try done; by vm_compute).
Qed.

(** Where the last of the scalar sections starts, which is where a scalar is found. *)
Definition scalar_top (sym_map : T) (ctx : CTX T) (index last_top : Z) : Z :=
  if no_items (c_strings ctx) then
    if no_items (c_u30s ctx) then if no_items (c_numbers ctx) then last_top else index + 1
    else index + 1 + Zlen (fresh_of sym_map (c_numbers ctx))
  else index + 1 + Zlen (fresh_of sym_map (c_numbers ctx)) + Zlen (fresh_of sym_map (c_u30s ctx)).

Lemma section_back flag mask get no_count fail w b sym_map l last_top input index (index_map : T) t :
  c_true (Z.land flag mask) = negb (no_items l) -> source input (section_wire sym_map w l ++ t) ->
  Forall (fun v => gets get (w v) (b v)) l -> 0 <= index -> index + Zlen (fresh_of sym_map l) + 1 < 2 ^ 31 ->
  exists input', optional_section flag mask (read_section get no_count fail) last_top input index index_map =
      Ret (if no_items l then last_top else index + 1,
           Filled input' (index + Zlen (fresh_of sym_map l)) (place index_map (index + 1) (map b (fresh_of sym_map l)))) /\
    source input' t.
Proof.
  intros Hf Hs Hl Hi Hb. pose proof (Zlen_nonneg (fresh_of sym_map l)).
  destruct (optional_section_spec flag mask get no_count fail w b l (fresh_of sym_map l) last_top input index index_map t
    (section_wire sym_map w l)) as (input' & E & Hs'); try done; [by destruct l|by intros ->|by apply fresh_of_forall|lia|].
  exists input'. split; [|done]. rewrite E. destruct l; [done|]. cbn [no_items]. by rewrite u32_small, s32_small by lia.
Qed.

Lemma decode_scalars (st : lua_state T) sym_map ctx last_top input index (index_map : T) t :
  classified st ctx -> source input (scalars_wire sym_map ctx ++ t) -> 0 <= index -> index + Zlen (scalars sym_map ctx) + 1 < 2 ^ 31 ->
  exists input1 input2 input3 top1 top2 index1 index2 map1 map2,
    optional_section (flag_of ctx) HAS_NUMBER_MASK decode_numbers last_top input index index_map = Ret (top1, Filled input1 index1 map1) /\
    optional_section (flag_of ctx) HAS_U30_MASK decode_u30s top1 input1 index1 map1 = Ret (top2, Filled input2 index2 map2) /\
    optional_section (flag_of ctx) HAS_STRING_MASK decode_strings top2 input2 index2 map2 =
      Ret (scalar_top sym_map ctx index last_top,
           Filled input3 (index + Zlen (scalars sym_map ctx)) (place index_map (index + 1) (back sym_map ctx))) /\
    source input3 t.
Proof.
  intros (Cn & Cu & Cs & _) Hs Hi Hb. destruct (flag_bits ctx) as (B1 & B2 & B3 & _). unfold scalars_wire, scalars in *.
  rewrite <- !app_assoc in Hs. rewrite !Zlen_app in Hb |- *.
  set (N := fresh_of sym_map (c_numbers ctx)) in *. set (U := fresh_of sym_map (c_u30s ctx)) in *. set (S := fresh_of sym_map (c_strings ctx)) in *.
  pose proof (Zlen_nonneg N). pose proof (Zlen_nonneg U). pose proof (Zlen_nonneg S).
  destruct (section_back (flag_of ctx) HAS_NUMBER_MASK ObjectBuf.get_number (lit "decode failed, can't get `number` count.")
    (fun i count => lit "decode failed, can't decode `number`, " ++ dec_of_Z (s32 i) ++ lit "/" ++ dec_of_Z (s32 count))
    w_number b_number sym_map (c_numbers ctx) last_top input index index_map _ B1 Hs) as (i1 & E1 & S1);
    [eapply Forall_impl; [exact Cn|]; intros v [Hv _]; by apply number_back|lia|fold N; lia|].
  fold N in E1.
  destruct (section_back (flag_of ctx) HAS_U30_MASK get_u30 decode_failed (fun _ _ => decode_failed) w_u30 b_u30 sym_map (c_u30s ctx)
    (if no_items (c_numbers ctx) then last_top else index + 1) i1 (index + Zlen N) (place index_map (index + 1) (map b_number N)) _ B2 S1) as (i2 & E2 & S2);
    [eapply Forall_impl; [exact Cu|]; intros v [Hv Hu]; by apply u30_back|lia|fold U; lia|].
  fold U in E2.
  destruct (section_back (flag_of ctx) HAS_STRING_MASK get_string decode_failed (fun _ _ => decode_failed) w_string id sym_map (c_strings ctx)
    (if no_items (c_u30s ctx) then if no_items (c_numbers ctx) then last_top else index + 1 else index + Zlen N + 1)
    i2 (index + Zlen N + Zlen U) (place (place index_map (index + 1) (map b_number N)) (index + Zlen N + 1) (map b_u30 U)) _ B3 S2) as (i3 & E3 & S3);
    [eapply Forall_impl; [exact Cs|]; intros v [Hv Hu]; by apply string_back|lia|fold S; lia|].
  fold S in E3. do 9 eexists. split; [exact E1|]. split; [exact E2|]. split; [|exact S3].
  unfold decode_strings. rewrite E3. unfold scalar_top, back. fold N U S. rewrite map_id, !place_app, !Zlen_map.
  replace (index + Zlen N + Zlen U + Zlen S) with (index + (Zlen N + (Zlen U + Zlen S))) by lia.
  replace (index + Zlen N + 1) with (index + 1 + Zlen N) by lia.
  by replace (index + Zlen N + Zlen U + 1) with (index + 1 + Zlen N + Zlen U) by lia.
Qed.

Lemma decode_tables_spec (vk : T) code input index (index_map : T) st ts (Q : list positive -> T -> T -> Prop) :
  state_ok st -> 0 <= index -> index + 1 + Zlen ts <= 2 ^ 31 -> Zlen (concat (map (table_wire code) ts)) < 2 ^ 31 ->
  source input (w_index (Zlen ts) ++ concat (map (table_wire code) ts)) ->
  (forall addrs, length addrs = length ts -> NoDup addrs -> exists fs,
     Forall2 (fun t f => rebuilt vk (place index_map (index + 1) (map LTable addrs)) code t f /\ Q addrs t f) ts fs) ->
  exists addrs fs st',
    decode_tables vk input index index_map st = Ret (inr (place index_map (index + 1) (map LTable addrs), st')) /\
    length addrs = length ts /\ NoDup addrs /\ Forall2 (Q addrs) ts fs /\
    (forall p b f, addrs !! p = Some b -> fs !! p = Some f -> heap st' !! b = Some (mk_tobj f None)) /\
    (forall a, a ∈ addrs -> heap st !! a = None) /\ (forall a, a ∉ addrs -> heap st' !! a = heap st !! a).
Proof.
  intros Hok Hi Hb Hlen Hs Hfs. pose proof (Zlen_nonneg ts). unfold decode_tables.
  destruct (source_u30 _ _ _ Hs) as (input1 & -> & Hs1); [lia|]. cbn [mbind outcome_bind].
  replace (Z.to_nat (Zlen ts)) with (length ts) by (unfold Zlen; lia).
  destruct (new_tables_spec (Zlen ts) (length ts) 1 index index_map st Hok)
    as (im & st1 & addrs & -> & Hl & Hnd & -> & Hok1 & Hnew & Hold); [lia|lia|unfold Zlen in *; lia..|].
  destruct (Hfs addrs Hl Hnd) as (fs & Hf). exists addrs, fs.
  assert (Hreb : Forall2 (rebuilt vk (place index_map (index + 1) (map LTable addrs)) code) ts fs).
  { eapply Forall2_impl; [exact Hf|]. by intros ? ? [? _]. }
  rewrite <- (app_nil_r (concat _)) in Hs1.
  destruct (decode_tables_loop_spec vk _ code (Zlen ts) index [] ts fs Hreb addrs 1 input1 st1) as (input2 & st2 & -> & Hin & Hout); try done; try lia.
  { intros p b Hp. apply place_lookup. by rewrite list_lookup_fmap, Hp. }
  { intros b Hb'. by apply Hnew. }
  cbn [mbind outcome_bind]. exists st2. split; [done|]. split; [done|]. split; [done|]. split.
  { eapply Forall2_impl; [exact Hf|]. by intros ? ? [_ ?]. }
  split; [done|]. split; [intros a Ha; by apply Hnew|]. intros a Ha. by rewrite Hout, Hold.
Qed.

(** The tables of a context and their addresses in the decoded state. *)
Definition table_map (srcs addrs : list positive) : gmap positive positive := list_to_map (zip srcs addrs).
Lemma table_map_lookup srcs addrs a b : NoDup srcs -> length srcs = length addrs ->
  table_map srcs addrs !! a = Some b <-> exists p, srcs !! p = Some a /\ addrs !! p = Some b.
Proof.
  intros Hnd Hl. unfold table_map. rewrite <- elem_of_list_to_map by (by rewrite fst_zip by lia). rewrite list_elem_of_lookup.
  split; intros [p Hp]; exists p; by apply lookup_zip_Some.
Qed.
Lemma table_map_inj srcs addrs a1 a2 b : NoDup srcs -> NoDup addrs -> length srcs = length addrs ->
  table_map srcs addrs !! a1 = Some b -> table_map srcs addrs !! a2 = Some b -> a1 = a2.
Proof.
  intros Hs Ha Hl (p & E1 & F1)%table_map_lookup (q & E2 & F2)%table_map_lookup; try done.
  assert (p = q) as -> by (by eapply NoDup_lookup). congruence.
Qed.
Lemma table_map_same srcs addrs : NoDup srcs -> length srcs = length addrs ->
  Forall2 (same (table_map srcs addrs)) (map LTable srcs) (map LTable addrs).
Proof.
  intros Hs Hl. apply Forall2_fmap. apply Forall2_same_length_lookup_2; [done|]. intros p a b Ea Eb. exists b. split; [done|].
  apply table_map_lookup; [done|done|]. by exists p.
Qed.

(** The index map [decode] starts with. *)
Definition first_map : T := t_set (t_set t_empty (LInt FALSE_INDEX) (LBool false)) (LInt TRUE_INDEX) (LBool true).

Lemma first_map_bools (index : Z) (l : list lua_value) : 2 <= index ->
  t_get (place first_map (index + 1) l) (LInt 1) = LBool false /\ t_get (place first_map (index + 1) l) (LInt 2) = LBool true.
Proof.
  intros Hi. rewrite !place_below by (try done; intros n [= <-]; lia). unfold first_map, FALSE_INDEX, TRUE_INDEX.
  rewrite !t_get_set by done. split; repeat (destruct (decide _); try done).
Qed.

Lemma scalar_top_range sym_map ctx index : 0 <= index ->
  index + 1 <= scalar_top sym_map ctx index (index + 1) <= index + 1 + Zlen (scalars sym_map ctx).
Proof.
  intros Hi. unfold scalar_top, scalars. rewrite !Zlen_app.
  pose proof (Zlen_nonneg (fresh_of sym_map (c_numbers ctx))). pose proof (Zlen_nonneg (fresh_of sym_map (c_u30s ctx))).
  pose proof (Zlen_nonneg (fresh_of sym_map (c_strings ctx))). repeat case_match; lia.
Qed.

Lemma layout_split (st : lua_state T) sym_map index ctx :
  layout st sym_map index ctx = flag_of ctx :: scalars_wire sym_map ctx ++
    tables_wire st (index_of sym_map (final_map sym_map index ctx)) (c_tables ctx).
Proof. unfold layout, scalars_wire. by rewrite <- !app_assoc. Qed.

Lemma layout_ok (st : lua_state T) sym_map index ctx : classified st ctx -> bytes_ok (layout st sym_map index ctx).
Proof.
  intros (Cn & Cu & Cs & _). rewrite layout_split. destruct (flag_bits ctx) as (_ & _ & _ & _ & Hflag & _).
  assert (Hsec : forall w l, Forall (fun v => bytes_ok (w v)) l -> bytes_ok (section_wire sym_map w l)).
  { intros w l Hl. destruct l; [by apply Forall_nil|]. unfold section_wire. apply bytes_ok_app.
    split; [apply w_index_ok, Zlen_nonneg|]. by apply concat_ok, fresh_of_forall. }
  apply Forall_cons. split; [done|]. apply bytes_ok_app. split.
  - unfold scalars_wire. rewrite !bytes_ok_app. split; [|split]; apply Hsec.
    + apply Forall_true. intros. apply le_bytes_ok.
    + apply Forall_true. intros. apply w_index_ok, u32_range.
    + by apply strings_bytes_ok.
  - unfold tables_wire. destruct (c_tables ctx) as [|v l]; [by apply Forall_nil|]. apply bytes_ok_app.
    split; [apply w_index_ok, Zlen_nonneg|]. apply concat_ok, Forall_true. intros x. unfold table_wire, table_body.
    rewrite !bytes_ok_app. split; [apply w_index_ok, Zlen_nonneg|]. split; [apply w_index_ok, Zlen_nonneg|].
    split; apply concat_ok, Forall_true; intros y; [apply w_index_ok, index_of_range|].
    apply bytes_ok_app. split; apply w_index_ok, index_of_range.
Qed.

Lemma decode_head raw (st : lua_state T) sym sym_map vk index ctx :
  classified st ctx -> flag_of ctx <> 0 -> open_symbols st sym SYM_INDEX_MAP_VK = Ret (index, vk) -> symbols_ok sym_map vk index ->
  index + Zlen (layout st sym_map index ctx) < 2 ^ 31 ->
  exists input, source input (tables_wire st (index_of sym_map (final_map sym_map index ctx)) (c_tables ctx)) /\
    luafan_objectbuf_decode raw [LStr (layout st sym_map index ctx); sym] st =
      if no_items (c_tables ctx)
      then mret ([t_get (place first_map (index + 1) (back sym_map ctx)) (LInt (scalar_top sym_map ctx index (index + 1)))], st)
      else
        r ← decode_tables vk input (index + Zlen (scalars sym_map ctx)) (place first_map (index + 1) (back sym_map ctx)) st;
        match r with
        | inl msg => mret ([LNil; LStr msg], st)
        | inr (index_map, st) => mret ([t_get index_map (LInt (index + Zlen (scalars sym_map ctx) + 1))], st)
        end.
Proof.
  intros Hcl Hf0 Hsym [Si _ _ _ Sn] Hlen. pose proof (layout_ok st sym_map index ctx Hcl) as Hok.
  destruct (flag_bits ctx) as (_ & _ & _ & B4 & Hflag & Hf1 & _).
  destruct (bytearray_wrap_buffer raw (Some (layout st sym_map index ctx)) (Zlen (layout st sym_map index ctx))) as [? input0] eqn:E0.
  pose proof E0 as [= <- _]. pose proof (Zlen_nonneg (layout st sym_map index ctx)).
  assert (Hs0 : source input0 (layout st sym_map index ctx)) by (eapply wrap_source; [exact E0|done|lia]).
  unfold luafan_objectbuf_decode, decode_sections, arg. cbn [nth Nat.sub]. rewrite luaL_checklstring_str. cbn [mbind outcome_bind]. rewrite E0.
  rewrite layout_split in Hs0, Hlen. rewrite Zlen_cons, Zlen_app in Hlen. pose proof (scalars_long sym_map ctx).
  pose proof (Zlen_nonneg (scalars sym_map ctx)). pose proof (scalar_top_range sym_map ctx index ltac:(lia)).
  set (tw := tables_wire st (index_of sym_map (final_map sym_map index ctx)) (c_tables ctx)) in *. pose proof (Zlen_nonneg tw).
  destruct (source_read8 _ _ _ Hs0) as (input1 & -> & Hs1). cbn [mbind outcome_bind]. change (default 0 (Some (flag_of ctx))) with (flag_of ctx).
  destruct (Z.eqb_spec (flag_of ctx) 0); [done|]. destruct (Z.eqb_spec (flag_of ctx) 1); [done|]. rewrite Hsym.
  cbn [mbind outcome_bind raw_set key_ok]. fold first_map. rewrite (u32_small (index + 1)), (s32_small (index + 1)) by lia.
  destruct (decode_scalars st sym_map ctx (index + 1) input1 index first_map tw Hcl Hs1)
    as (i1 & i2 & i3 & top1 & top2 & x1 & x2 & m1 & m2 & E1 & E2 & E3 & Hs3); [lia|lia|].
  exists i3. split; [done|]. rewrite E1. cbn [mbind outcome_bind]. rewrite E2. cbn [mbind outcome_bind]. rewrite E3. cbn [mbind outcome_bind].
  rewrite B4. destruct (no_items (c_tables ctx)); cbn [negb].
  - cbn [mbind outcome_bind mret outcome_ret]. unfold decoded. by rewrite Sn by lia.
  - cbn [mbind outcome_bind mret outcome_ret]. destruct (decode_tables vk i3 _ _ st) as [[msg|[im st']]| |]; try done. cbn [mbind outcome_bind].
    unfold decoded. rewrite u32_small, s32_small by lia. by rewrite Sn by lia.
Qed.
End Decoding.
