(* ===== verification/ObjectTrip.v ===== *)
(** * The round trip of src/objectbuf.c

    What [encode] makes of a value, [decode] makes an isomorphic copy of: the
    theorem, from the format of [ObjectWire]. *)

From S2P Require Import Prelude ByteArray Lua LuaState Double Stream ObjectBuf ObjectWire.

Lemma forall_choice {A B} (R : A -> B -> Prop) l : Forall (fun x => exists y, R x y) l -> exists k, Forall2 R l k.
Proof.
  induction 1 as [|x l [y Hy] _ [k Hk]]; [by exists []|]. exists (y :: k). by constructor.
Qed.
Lemma Forall2_both {A B} (R S : A -> B -> Prop) l k : Forall2 (fun x y => R x y /\ S x y) l k -> Forall2 R l k /\ Forall2 S l k.
Proof. induction 1 as [|x y l k [? ?] _ [? ?]]; by repeat constructor. Qed.

Section Collected.
Context {T : Type} `{LuaTable T} `{LuaAPI}.
Context (st : lua_state T).

Lemma ctx_init_ok : ctx_ok st ctx_init.
Proof.
  assert (He : indexes (t_empty : T) []).
  { intros v. rewrite t_empty_get. split; [done|]. by intros (w & ?%not_elem_of_nil & _). }
  constructor; try done; repeat split; try done; apply NoDup_nil_2.
Qed.

Lemma packer_root root : encodable st root ->
  exists ctx, packer st (packer_fuel st) root ctx_init = Ret ctx /\ packed st ctx_init ctx root.
Proof.
  intros Henc. apply (packer_spec st root Henc); [constructor|apply ctx_init_ok|]. unfold packer_fuel. lia.
Qed.

(** Whatever it returns, [packer] only adds. *)
Lemma pack_pairs_grew p ps : (forall v c c', p v c = Ret c' -> grew c c') -> forall c c' : CTX T, pack_pairs p ps c = Ret c' -> grew c c'.
Proof.
  intros Hp. induction ps as [|[k v] ps IH]; intros c c' E; cbn [pack_pairs] in E; [by injection E as ->|].
  destruct (p k c) as [c1| |] eqn:E1; try done. cbn [mbind outcome_bind] in E.
  destruct (p v c1) as [c2| |] eqn:E2; try done. cbn [mbind outcome_bind] in E.
  eapply grew_trans; [by eapply Hp|]. eapply grew_trans; [by eapply Hp|]. by apply IH.
Qed.
Lemma raw_set_inv {A} (t : T) k v (f : T -> outcome A) r : (t' ← raw_set t k v; f t') = Ret r -> exists t', f t' = Ret r.
Proof. unfold raw_set. destruct (key_ok k); [|discriminate]. cbn [mbind outcome_bind]. eauto. Qed.
Lemma packer_grew fuel : forall v c c', packer st fuel v c = Ret c' -> grew c c'.
Proof.
  assert (Hg : forall c c' : CTX T, c_tables c `prefix_of` c_tables c' -> c_numbers c `prefix_of` c_numbers c' ->
    c_u30s c `prefix_of` c_u30s c' -> c_strings c `prefix_of` c_strings c' -> grew c c') by (by split; [|split; [|split]]).
  assert (Hn : forall v c c', packer_number c v = Ret c' -> grew c c').
  { intros v c c'. unfold packer_number. destruct (lua_isnil _); [|by intros [= <-]].
    destruct (not_u30 _); intros (t' & [= <-])%raw_set_inv; apply Hg; cbn; try apply prefix_app_r; done. }
  induction fuel as [|fuel IH]; intros v c c' E; [discriminate E|]. cbn [packer] in E. destruct v as [|b|n|d|s|a|f|u].
  1,2,8: injection E as <-; apply grew_refl.
  - by eapply Hn.
  - by eapply Hn.
  - revert E. unfold packer_string. destruct (lua_isnil _); [|by intros [= <-]].
    intros (t' & [= <-])%raw_set_inv; apply Hg; cbn; try apply prefix_app_r; done.
  - revert E. unfold packer_table. destruct (lua_isnil _); [|by intros [= <-]]. intros (t' & E)%raw_set_inv.
    unfold with_table in E. destruct (heap st !! a); [|discriminate E].
    eapply pack_pairs_grew in E; [|exact IH]. eapply grew_trans; [|exact E].
    apply Hg; cbn; try apply prefix_app_r; done.
  - revert E. unfold packer_function. destruct (lua_isnil _); [|by intros [= <-]].
    intros (t' & [= <-])%raw_set_inv; apply Hg; cbn; try apply prefix_app_r; done.
Qed.

(** The tables it adds are reached from [root]. *)
Definition collects (root : lua_value) (c c' : CTX T) : Prop :=
  forall v, v ∈ c_tables c' -> v ∈ c_tables c \/ reaches st root v.
Lemma collects_trans root c1 c2 c3 : collects root c1 c2 -> collects root c2 c3 -> collects root c1 c3.
Proof. intros H12 H23 v [Hv|Hv]%H23; [by apply H12|by right]. Qed.
Lemma collects_same root c c' : c_tables c' = c_tables c -> collects root c c'.
Proof. intros E v. rewrite E. by left. Qed.

Lemma pack_pairs_collects root p ps : (forall v c c', reaches st root v -> p v c = Ret c' -> collects root c c') ->
  (forall k w, (k, w) ∈ ps -> reaches st root k /\ reaches st root w) ->
  forall c c' : CTX T, pack_pairs p ps c = Ret c' -> collects root c c'.
Proof.
  intros Hp. induction ps as [|[k v] ps IH]; intros Hps c c' E; cbn [pack_pairs] in E; [injection E as ->; by apply collects_same|].
  destruct (p k c) as [c1| |] eqn:E1; try discriminate E. cbn [mbind outcome_bind] in E.
  destruct (p v c1) as [c2| |] eqn:E2; try discriminate E. cbn [mbind outcome_bind] in E.
  destruct (Hps k v) as [Rk Rv]; [by left|]. eapply collects_trans; [exact (Hp _ _ _ Rk E1)|].
  eapply collects_trans; [exact (Hp _ _ _ Rv E2)|]. apply IH; [|done]. intros k' w Hin. apply Hps. by right.
Qed.
Lemma packer_collects root fuel : forall v c c', reaches st root v -> packer st fuel v c = Ret c' -> collects root c c'.
Proof.
  induction fuel as [|fuel IH]; intros v c c' Hr E; [discriminate E|]. cbn [packer] in E.
  assert (Hn : forall v, packer_number c v = Ret c' -> collects root c c').
  { intros w. unfold packer_number. destruct (lua_isnil _); [|intros [= <-]; by apply collects_same].
    destruct (not_u30 _); intros (t' & [= <-])%raw_set_inv; by apply collects_same. }
  destruct v as [|b|n|d|s|a|f|u].
  1,2,8: injection E as <-; by apply collects_same.
  - by eapply Hn.
  - by eapply Hn.
  - revert E. unfold packer_string. destruct (lua_isnil _); [|intros [= <-]; by apply collects_same].
    intros (t' & [= <-])%raw_set_inv; by apply collects_same.
  - revert E. unfold packer_table. destruct (lua_isnil _); [|intros [= <-]; by apply collects_same]. intros (t' & E)%raw_set_inv.
    unfold with_table in E. destruct (heap st !! a) as [o|] eqn:Ho; [|discriminate E].
    eapply (pack_pairs_collects root) in E; [|exact IH|].
    + eapply collects_trans; [|exact E]. intros w Hw; cbn in Hw; apply elem_of_app in Hw as [Hw|Hw]; [by left|right]; by apply list_elem_of_singleton in Hw as ->.
    + intros k w Hin. split; [by eapply reaches_key|by eapply reaches_value].
  - revert E. unfold packer_function. destruct (lua_isnil _); [|intros [= <-]; by apply collects_same].
    intros (t' & [= <-])%raw_set_inv; by apply collects_same.
Qed.

Lemma table_first a ctx : packer st (packer_fuel st) (LTable a) ctx_init = Ret ctx -> exists l, c_tables ctx = LTable a :: l.
Proof.
  change (packer_table st (packer st (S (size (heap st)))) a ctx_init = Ret ctx -> exists l, c_tables ctx = LTable a :: l).
  generalize (S (size (heap st))) as fuel. intros fuel. unfold packer_table. cbn [c_table_idxs ctx_init]. rewrite t_empty_get.
  cbn [lua_isnil c_tables ctx_init app raw_set key_ok mbind outcome_bind]. unfold with_table. destruct (heap st !! a); [|done].
  intros E. eapply pack_pairs_grew in E; [|apply packer_grew]. destruct E as ([l El] & _). by exists l.
Qed.

(** A scalar is the one thing its encoding lists. *)
Lemma scalar_only root ctx : scalar_ok root -> lua_isboolean root = false -> packer st (packer_fuel st) root ctx_init = Ret ctx ->
  c_tables ctx = [] /\ c_numbers ctx ++ c_u30s ctx ++ c_strings ctx = [root].
Proof.
  intros Hs Hb. unfold packer_fuel. cbn [packer]. pose proof (scalar_key_ok _ Hs) as Hk. destruct root; try done.
  all: unfold packer_number, packer_string; cbn [c_num_idxs c_string_idxs ctx_init]; rewrite t_empty_get; cbn [lua_isnil].
  all: unfold raw_set; rewrite Hk; cbn [mbind outcome_bind].
  1,2: destruct (not_u30 _). all: by intros [= <-].
Qed.

Lemma singleton_scalars sym_map ctx root index :
  c_numbers ctx ++ c_u30s ctx ++ c_strings ctx = [root] -> t_get sym_map root = LNil ->
  scalars sym_map ctx = [root] /\ scalar_top sym_map ctx index (index + 1) = index + 1 /\ flag_of ctx <> 0.
Proof.
  intros E Hn. assert (Hf : fresh_of sym_map [root] = [root]) by (rewrite fresh_of_cons, Hn; done).
  destruct (flag_bits ctx) as (_ & _ & _ & _ & _ & _ & Hz). unfold scalars, scalar_top.
  destruct (c_numbers ctx) as [|? [|]]; [destruct (c_u30s ctx) as [|? [|]]; [destruct (c_strings ctx) as [|? [|]]|destruct (c_strings ctx)|]|destruct (c_u30s ctx), (c_strings ctx)|];
    try done; injection E as ->; rewrite Hf; (split; [done|]); (split; [cbn; rewrite ?Zlen_nil; lia|]); intros Hz0; by apply Hz in Hz0 as (? & ? & ? & ?).
Qed.

Lemma reaches_scalar root v : lua_istable root = false -> scalar_ok root \/ (exists a, root = LTable a /\ is_Some (heap st !! a)) ->
  reaches st root v -> scalar_ok v \/ exists a, v = LTable a /\ is_Some (heap st !! a).
Proof.
  intros Ht Hr Hv. assert (v = root) as ->; [|done]. induction Hv as [|a o k v _ IH|a o k v _ IH]; [done|..]; by rewrite <- IH in Ht.
Qed.
Lemma singleton_symbol sym_map ctx root index :
  c_numbers ctx ++ c_u30s ctx ++ c_strings ctx = [root] -> t_get sym_map root <> LNil ->
  scalars_wire sym_map ctx = [0] /\ scalars sym_map ctx = [] /\ scalar_top sym_map ctx index (index + 1) = index + 1 /\ flag_of ctx <> 0.
Proof.
  intros E Hn. assert (Hf : fresh_of sym_map [root] = []) by (rewrite fresh_of_cons, decide_False; done).
  destruct (flag_bits ctx) as (_ & _ & _ & _ & _ & _ & Hz). unfold scalars, scalars_wire, scalar_top, section_wire.
  destruct (c_numbers ctx) as [|? [|]]; [destruct (c_u30s ctx) as [|? [|]]; [destruct (c_strings ctx) as [|? [|]]|destruct (c_strings ctx)|]|destruct (c_u30s ctx), (c_strings ctx)|];
    try done; injection E as ->; rewrite Hf; (split; [done|]); (split; [done|]); (split; [cbn; rewrite ?Zlen_nil; lia|]); intros Hz0; by apply Hz in Hz0 as (? & ? & ? & ?).
Qed.

Lemma table_list l : Forall (fun v => exists a, v = LTable a /\ is_Some (heap st !! a)) l ->
  exists srcs, l = map LTable srcs /\ Forall (fun a => is_Some (heap st !! a)) srcs.
Proof.
  induction 1 as [|v l (a & -> & Ha) _ (srcs & -> & Hs)]; [by exists []|]. exists (a :: srcs). by repeat constructor.
Qed.
End Collected.

Section Rebuilding.
Context {T : Type} `{LuaTable T} `{LuaAPI}.
Context (st : lua_state T).

Lemma numbered_same m l l' : Forall2 (same m) l l' -> forall j, Forall2 (same_pair m) (numbered j l) (numbered j l').
Proof. induction 1 as [|v v' l l' Hv _ IH]; intros j; cbn [numbered]; constructor; [by split|apply IH]. Qed.

(** A table whose keys and values all resolve to what corresponds to them. *)
Lemma rebuild m (vk DM : T) code (t : T) :
  (forall k v, (k, v) ∈ t_pairs t ->
    (exists k', resolves vk DM code k k' /\ same m k k') /\ (exists v', resolves vk DM code v v' /\ same m v v')) ->
  exists f, rebuilt vk DM code t f /\ exists kvs, f = sets t_empty kvs /\ Forall2 (same_pair m) (written_pairs t) kvs.
Proof.
  intros Hres.
  destruct (forall_choice (fun v v' => resolves vk DM code v v' /\ same m v v') (elements t)) as (arr' & Harr).
  { apply Forall_forall. intros v [p Hp]%list_elem_of_lookup. apply array_part_lookup in Hp as [Hg Hn].
    apply (Hres (LInt (1 + Z.of_nat p)) v). by apply t_pairs_get. }
  destruct (forall_choice (fun p p' => resolves_pair vk DM code p p' /\ same_pair m p p') (others t)) as (oth' & Hoth).
  { apply Forall_forall. intros [k v] [_ Hin]%list_elem_of_filter. destruct (Hres k v Hin) as [(k' & Rk & Sk) (v' & Rv & Sv)].
    exists (k', v'). split; [|by split]. split; [done|]. split; [done|]. eapply same_key; [exact Sk|]. by eapply t_pairs_key_ok. }
  apply Forall2_both in Harr as [Ra Sa], Hoth as [Ro So]. exists (sets t_empty (numbered 1 arr' ++ oth')). split.
  - by exists arr', oth'.
  - exists (numbered 1 arr' ++ oth'). split; [done|]. apply Forall2_app; [by apply numbered_same|done].
Qed.

Lemma table_short code l v : v ∈ l -> (forall w, 0 <= code w) ->
  Zlen (elements (tab_of st v)) <= Zlen (tables_wire st code l).
Proof.
  intros Hv Hc. destruct l as [|v0 l0]; [by apply not_elem_of_nil in Hv|].
  change (tables_wire st code (v0 :: l0)) with (w_index (Zlen (v0 :: l0)) ++ concat (map (fun v => table_wire code (tab_of st v)) (v0 :: l0))).
  apply list_elem_of_split in Hv as (l1 & l2 & El). rewrite El. rewrite map_app, concat_app. cbn [map concat].
  unfold table_wire at 2. unfold table_body at 2. rewrite !Zlen_app.
  assert (Zlen (elements (tab_of st v)) <= Zlen (concat (map (fun v => w_index (code v)) (elements (tab_of st v))))).
  { apply Zlen_concat_ge. intros w. by apply Zlen_w_index. }
  repeat match goal with |- context [Zlen ?l] => lazymatch goal with _ : 0 <= Zlen l |- _ => fail | _ => pose proof (Zlen_nonneg l) end end.
  lia.
Qed.

(** What is put at the numbers of the items, addresses of the tables included. *)
Lemma back_items sym_map ctx srcs addrs : classified st ctx -> c_tables ctx = map LTable srcs -> NoDup srcs ->
  length srcs = length addrs ->
  Forall2 (same (table_map srcs addrs)) (items sym_map ctx) (back sym_map ctx ++ map LTable addrs).
Proof.
  intros Hcl Ht Hnd Hl. replace (items sym_map ctx) with (scalars sym_map ctx ++ map LTable srcs).
  - apply Forall2_app; [by eapply back_same|by apply table_map_same].
  - unfold items, scalars. by rewrite Ht, <- !app_assoc.
Qed.
End Rebuilding.

Section RoundTrip.
Context {T : Type} `{LuaTable T} `{Allocator} `{LuaAPI}.
Context (st : lua_state T) (root : lua_value) (Hst : state_ok st) (Henc : encodable st root) (Hplain : plain_keys st root).
Context (sym_map vk : T) (index : Z) (Hsym : symbols_ok sym_map vk index).
Context (ctx : CTX T) (Hctx : packed st ctx_init ctx root).
Context (Hreach : forall a, LTable a ∈ c_tables ctx -> reaches st root (LTable a)).

Abbreviation code := (index_of sym_map (final_map sym_map index ctx)).

(** Every pair of a table that was collected. *)
Lemma pair_listed a o k v : LTable a ∈ c_tables ctx -> heap st !! a = Some o -> (k, v) ∈ t_pairs (tab o) ->
  (listed ctx k /\ (scalar_ok k \/ lua_istable k = true)) /\ (listed ctx v /\ (scalar_ok v \/ lua_istable v = true)).
Proof.
  intros Ha Ho Hin. destruct (k_closed st ctx_init ctx root Hctx a o k v) as [Lk Lv]; [done|by apply not_elem_of_nil|done|done|].
  assert (Hs : forall w, reaches st root w -> scalar_ok w \/ lua_istable w = true).
  { intros w [?|(b & -> & _)]%Henc; auto. }
  split; (split; [done|]); apply Hs; [by eapply reaches_key; [apply Hreach|..]|by eapply reaches_value; [apply Hreach|..]].
Qed.

Lemma table_rebuilt srcs addrs a o : c_tables ctx = map LTable srcs -> NoDup srcs -> length srcs = length addrs ->
  index + Zlen (items sym_map ctx) < 2 ^ 31 -> a ∈ srcs -> heap st !! a = Some o ->
  let DM := place first_map (index + 1) (back sym_map ctx ++ map LTable addrs) in
  exists f, rebuilt vk DM code (tab o) f /\
    exists kvs, f = sets t_empty kvs /\ Forall2 (same_pair (table_map srcs addrs)) (written_pairs (tab o)) kvs.
Proof.
  intros Ht Hnd Hl Hb Ha Ho DM. apply rebuild. intros k v Hin.
  assert (Ha' : LTable a ∈ c_tables ctx) by (rewrite Ht; apply list_elem_of_fmap; by exists a).
  destruct (pair_listed a o k v Ha' Ho Hin) as [[Lk Sk] [Lv Sv]].
  destruct (first_map_bools index (back sym_map ctx ++ map LTable addrs)) as [Bf Bt]; [apply Hsym|].
  assert (Hvals : forall p v', (back sym_map ctx ++ map LTable addrs) !! p = Some v' -> t_get DM (LInt (index + 1 + Z.of_nat p)) = v').
  { intros p v' Hp. by apply place_lookup. }
  pose proof (back_items st sym_map ctx srcs addrs (x_class st ctx (k_ok _ _ _ _ Hctx)) Ht Hnd Hl) as Hback.
  by split; (eapply (resolve_same st); [apply Hctx|exact Hsym|exact Hback|exact Hvals|exact Bf|exact Bt|..]).
Qed.

(** What decoding has to produce: a copy of [root], with nothing else changed. *)
Definition copied (r : outcome (list lua_value * lua_state T)) : Prop :=
  exists v' st' m, r = Ret ([v'], st') /\ same m root v' /\ isomorphic m st st' /\
    forall a o, heap st !! a = Some o -> heap st' !! a = Some o.

Context (Hlen : index + Zlen (layout st sym_map index ctx) < 2 ^ 31).
Abbreviation ts := (map (tab_of st) (c_tables ctx)).

(** The sizes an encoding bounds. *)
Lemma layout_sizes :
  index + Zlen (items sym_map ctx) + 1 < 2 ^ 31 /\ Zlen (tables_wire st code (c_tables ctx)) < 2 ^ 31 /\
  Zlen (items sym_map ctx) = Zlen (scalars sym_map ctx) + Zlen ts.
Proof.
  pose proof (s_index _ _ _ Hsym). rewrite layout_split, Zlen_cons, Zlen_app in Hlen.
  pose proof (scalars_long sym_map ctx). pose proof (tables_wire_long st code (c_tables ctx)).
  pose proof (Zlen_nonneg (scalars_wire sym_map ctx)).
  assert (E : Zlen (items sym_map ctx) = Zlen (scalars sym_map ctx) + Zlen ts).
  { rewrite Zlen_map, <- Zlen_app. unfold items, scalars. by rewrite <- !app_assoc. }
  rewrite E, Zlen_map. repeat split; lia.
Qed.

Lemma back_length : Zlen (back sym_map ctx) = Zlen (scalars sym_map ctx).
Proof. unfold Zlen. by rewrite (Forall2_length _ _ _ (back_same st sym_map ctx ∅ (x_class _ _ (k_ok _ _ _ _ Hctx)))). Qed.

Lemma tables_read raw sym a l srcs : c_tables ctx = LTable a :: l -> c_tables ctx = map LTable srcs ->
  Forall (fun a => is_Some (heap st !! a)) srcs -> NoDup srcs -> open_symbols st sym SYM_INDEX_MAP_VK = Ret (index, vk) ->
  exists addrs fs st',
    luafan_objectbuf_decode raw [LStr (layout st sym_map index ctx); sym] st = Ret ([nth 0 (map LTable addrs) LNil], st') /\
    length addrs = length srcs /\ NoDup addrs /\
    Forall2 (fun t f => exists kvs, f = sets t_empty kvs /\ Forall2 (same_pair (table_map srcs addrs)) (written_pairs t) kvs) ts fs /\
    (forall p b f, addrs !! p = Some b -> fs !! p = Some f -> heap st' !! b = Some (mk_tobj f None)) /\
    (forall a, a ∈ addrs -> heap st !! a = None) /\ (forall a, a ∉ addrs -> heap st' !! a = heap st !! a).
Proof.
  intros Hfirst Hsrcs Hheap Hnd Hvk. pose proof (s_index _ _ _ Hsym). pose proof back_length as Hback.
  destruct layout_sizes as (Hb & Hw & Hitems). pose proof (Zlen_nonneg (scalars sym_map ctx)). pose proof (Zlen_nonneg ts).
  destruct (decode_head raw st sym sym_map vk index ctx) as (input & Hs & ->); [apply Hctx| |done..|].
  { intros E. destruct (flag_bits ctx) as (_ & _ & _ & _ & _ & _ & Hz). apply Hz in E as (_ & _ & _ & E). by rewrite Hfirst in E. }
  assert (Hplaces : forall addrs, place (place first_map (index + 1) (back sym_map ctx)) (index + Zlen (scalars sym_map ctx) + 1) (map LTable addrs)
    = place (T := T) first_map (index + 1) (back sym_map ctx ++ map LTable addrs)).
  { intros addrs. rewrite place_app, Hback. f_equal. lia. }
  assert (Hwire : tables_wire st code (c_tables ctx) = w_index (Zlen ts) ++ concat (map (table_wire code) ts)).
  { rewrite Zlen_map, map_map. by rewrite Hfirst. }
  rewrite Hwire in Hs, Hw. rewrite Zlen_app in Hw. pose proof (Zlen_nonneg (w_index (Zlen ts))).
  destruct (decode_tables_spec vk code input (index + Zlen (scalars sym_map ctx)) (place first_map (index + 1) (back sym_map ctx)) st ts
    (fun addrs t f => exists kvs, f = sets t_empty kvs /\ Forall2 (same_pair (table_map srcs addrs)) (written_pairs t) kvs))
    as (addrs & fs & st' & -> & Hal & Hna & HQ & Hnew & Hfree & Hold); [done|lia|lia|lia|done| |].
  { intros addrs Hal _. apply forall_choice. rewrite Hplaces, Hsrcs, map_map. rewrite Hsrcs, !length_map in Hal.
    apply Forall_forall. intros t (b & -> & Hin)%list_elem_of_fmap.
    rewrite Forall_forall in Hheap. destruct (Hheap b Hin) as [o Ho]. cbn [tab_of]. rewrite Ho.
    apply (table_rebuilt srcs addrs b); try done. lia. }
  rewrite Hsrcs, !length_map in Hal. exists addrs, fs, st'. split; [|done].
  rewrite Hfirst. cbn [no_items mbind outcome_bind mret outcome_ret]. rewrite Hplaces.
  assert (exists b, addrs !! 0%nat = Some b) as [b Hb0].
  { apply lookup_lt_is_Some_2. rewrite Hal. destruct srcs; [by rewrite Hfirst in Hsrcs|cbn; lia]. }
  replace (index + Zlen (scalars sym_map ctx) + 1) with (index + 1 + Z.of_nat (length (back sym_map ctx))) by (unfold Zlen in *; lia).
  rewrite (place_lookup _ _ _ _ (LTable b)); [by destruct addrs; simplify_eq/=|].
  rewrite lookup_app_r, Nat.sub_diag, list_lookup_fmap, Hb0 by done. done.
Qed.

Lemma isomorphic_tables srcs addrs fs st' : c_tables ctx = map LTable srcs -> NoDup srcs -> NoDup addrs -> length addrs = length srcs ->
  Forall (fun a => is_Some (heap st !! a)) srcs ->
  Forall2 (fun t f => exists kvs, f = sets t_empty kvs /\ Forall2 (same_pair (table_map srcs addrs)) (written_pairs t) kvs) ts fs ->
  (forall p b f, addrs !! p = Some b -> fs !! p = Some f -> heap st' !! b = Some (mk_tobj f None)) ->
  isomorphic (table_map srcs addrs) st st'.
Proof.
  intros Hsrcs Hnd Hna Hal Hheap HQ Hnew.
  assert (Hinj : forall a1 a2 b, table_map srcs addrs !! a1 = Some b -> table_map srcs addrs !! a2 = Some b -> a1 = a2).
  { intros a1 a2 b. by apply table_map_inj. }
  split; [done|]. intros a b (p & Ea & Eb)%table_map_lookup; [|done|done].
  assert (Hin : LTable a ∈ c_tables ctx) by (rewrite Hsrcs; apply list_elem_of_fmap; exists a; split; [done|]; apply list_elem_of_lookup; by exists p).
  rewrite Forall_lookup in Hheap. destruct (Hheap p a Ea) as [o Ho].
  assert (Ht : ts !! p = Some (tab o)) by (rewrite Hsrcs, !list_lookup_fmap, Ea; cbn; by rewrite Ho).
  destruct (Forall2_lookup_l _ _ _ _ _ HQ Ht) as (f & Hf & kvs & -> & Hkvs).
  exists o, (mk_tobj (sets t_empty kvs) None). split; [done|]. split; [by eapply Hnew|]. cbn [tab].
  apply rebuilt_pairs; try done.
  - intros k v Hkv. destruct (pair_listed a o k v Hin Ho Hkv) as [[_ Sk] _]. split; [done|]. eapply Hplain; [|exact Ho|exact Hkv]. by apply Hreach.
  - pose proof (table_short st code (c_tables ctx) (LTable a) Hin (fun w => proj1 (index_of_range _ _ w))) as Hsh.
    cbn [tab_of] in Hsh. rewrite Ho in Hsh. destruct layout_sizes as (_ & Hw & _). lia.
Qed.

Lemma copied_tables raw sym a l : root = LTable a -> c_tables ctx = LTable a :: l ->
  open_symbols st sym SYM_INDEX_MAP_VK = Ret (index, vk) ->
  copied (luafan_objectbuf_decode raw [LStr (layout st sym_map index ctx); sym] st).
Proof.
  intros Hroot Hfirst Hvk. pose proof (k_ok _ _ _ _ Hctx) as Hok. destruct (x_nodup _ _ Hok) as (_ & _ & Nt).
  destruct (table_list st (c_tables ctx)) as (srcs & Hsrcs & Hheap); [apply Hok|].
  assert (Hnd : NoDup srcs) by (rewrite Hsrcs in Nt; by eapply NoDup_fmap_1).
  destruct (tables_read raw sym a l srcs) as (addrs & fs & st' & -> & Hal & Hna & HQ & Hnew & Hfree & Hold); try done.
  exists (nth 0 (map LTable addrs) LNil), st', (table_map srcs addrs). split; [done|]. split; [|split].
  - rewrite Hfirst in Hsrcs. destruct srcs as [|a' srcs]; [done|]. injection Hsrcs as <- _. destruct addrs as [|b addrs]; [done|].
    rewrite Hroot. exists b. split; [done|]. apply table_map_lookup; [done|done|]. by exists 0%nat.
  - by eapply isomorphic_tables.
  - intros b o Hb. rewrite Hold; [done|]. intros Hin%Hfree. congruence.
Qed.

Lemma copied_scalar raw sym : lua_istable root = false -> lua_isboolean root = false ->
  packer st (packer_fuel st) root ctx_init = Ret ctx -> t_get sym_map root = LNil ->
  open_symbols st sym SYM_INDEX_MAP_VK = Ret (index, vk) ->
  copied (luafan_objectbuf_decode raw [LStr (layout st sym_map index ctx); sym] st).
Proof.
  intros Ht Hb Hp Hn Hvk. pose proof (x_class _ _ (k_ok _ _ _ _ Hctx)) as Hcl.
  destruct (Henc root) as [Hs|(a & -> & _)]; [constructor| |done].
  destruct (scalar_only st root ctx Hs Hb Hp) as [Et El].
  destruct (singleton_scalars sym_map ctx root index El Hn) as (Es & Etop & Hf).
  destruct (decode_head raw st sym sym_map vk index ctx) as (input & _ & ->); try done.
  rewrite Et. cbn [no_items]. rewrite Etop. pose proof (back_same st sym_map ctx ∅ Hcl) as Hback. rewrite Es in Hback.
  inversion Hback as [|? v' ? ? Hv Hnil E1 E2]; subst. inversion Hnil; subst. cbn [place].
  rewrite t_get_set by done. rewrite decide_True by done.
  exists v', st, ∅. split; [done|]. split; [done|]. split; [|done]. split; intros *; by rewrite lookup_empty.
Qed.
End RoundTrip.

Section Theorems.
Context {T : Type} `{LuaTable T} `{Allocator} `{LuaAPI}.

(** The symbol a number or string root would have. *)
Definition symbol_free (sym_map : T) (root : lua_value) : Prop :=
  is_number root || is_string root = true -> t_get sym_map root = LNil.

Lemma table_symbol_free (sym_map vk : T) index a : symbols_ok sym_map vk index -> t_get sym_map (LTable a) = LNil.
Proof.
  intros Hsym. destruct (decide (t_get sym_map (LTable a) = LNil)) as [|Hn]; [done|].
  by destruct (s_code _ _ _ Hsym _ Hn) as (i & _ & [[_ ?]|[[_ ?]|(_ & ? & _)]]).
Qed.

(** C12: what [objectbuf.encode] writes for a value, [objectbuf.decode] with the
    same symbols makes a copy of.  For a boolean, or a value all of whose reachable
    values are booleans, numbers, strings and tables (integers up to 2^53, no NaN,
    and no string key Lua reads as a number), [encode] terminates with a byte
    string unless it would need 2^31 bytes, and decoding that string returns one
    value and adds only new tables: the value and its tables correspond to the
    original ones under an injective map of the tables, so sharing and cycles are
    kept, and corresponding tables have corresponding pairs. *)
Theorem objectbuf_roundtrip (st : lua_state T) (root sym : lua_value) (sym_map vk : T) (index M : Z) :
  mem_upto M -> 2 ^ 33 <= M < 2 ^ 62 ->
  state_ok st -> encodable st root -> plain_keys st root ->
  open_symbols st sym SYM_INDEX_MAP = Ret (index, sym_map) ->
  open_symbols st sym SYM_INDEX_MAP_VK = Ret (index, vk) ->
  symbols_ok sym_map vk index -> symbol_free sym_map root ->
  exists ctx, packer st (packer_fuel st) root ctx_init = Ret ctx /\
    (index + Zlen (layout st sym_map index ctx) < 2 ^ 31 -> forall raw raw', exists bytes,
       luafan_objectbuf_encode st raw [root; sym] = Ret [LStr bytes] /\
       copied st root (luafan_objectbuf_decode raw' [LStr bytes; sym] st)).
Proof.
  intros HM HM2 Hst Henc Hplain Hmap Hvk Hsym Hfree. destruct (packer_root st root Henc) as (ctx & Hp & Hctx).
  exists ctx. split; [done|]. intros Hlen raw raw'. pose proof (k_ok _ _ _ _ Hctx) as Hok.
  assert (Hreach : forall a, LTable a ∈ c_tables ctx -> reaches st root (LTable a)).
  { intros a Ha. destruct (packer_collects st root _ root _ _ (reaches_refl _ _) Hp _ Ha) as [?%not_elem_of_nil|]; done. }
  destruct (lua_isboolean root) eqn:Hb.
  { destruct root as [|b| | | | | |]; try done. exists (if b then [1] else []). split; [by destruct b|].
    exists (LBool b), st, ∅. split.
    { unfold luafan_objectbuf_decode, decode_sections, arg. cbn [nth Nat.sub]. rewrite luaL_checklstring_str. by destruct b. }
    split; [done|]. split; [|done]. split; intros *; by rewrite lookup_empty. }
  assert (Hn : lua_isnil root = false).
  { destruct (Henc root) as [Hs|(a & -> & _)]; [constructor|by destruct root|done]. }
  exists (layout st sym_map index ctx). split.
  { eapply (encode_layout st raw M HM); try done; [lia|apply Hok|apply Hsym|lia]. }
  destruct (lua_istable root) eqn:Ht.
  - destruct root as [| | | | |a| |]; try done. destruct (table_first st a ctx Hp) as [l Hfirst]. by eapply copied_tables.
  - eapply copied_scalar; try done. apply Hfree. destruct (Henc root) as [Hs|(a & -> & _)]; [constructor| |done].
    by destruct root.
Qed.

(** A number or string that has a symbol is lost when it is the value encoded:
    [encode] writes an empty section for it and [decode] returns [nil]. *)
Theorem objectbuf_symbol_lost (st : lua_state T) (root sym : lua_value) (sym_map vk : T) (index M : Z) raw raw' :
  mem_upto M -> 2 ^ 33 <= M < 2 ^ 62 -> scalar_ok root -> is_number root || is_string root = true ->
  open_symbols st sym SYM_INDEX_MAP = Ret (index, sym_map) ->
  open_symbols st sym SYM_INDEX_MAP_VK = Ret (index, vk) ->
  symbols_ok sym_map vk index -> t_get sym_map root <> LNil -> index + 2 < 2 ^ 31 ->
  exists flag, luafan_objectbuf_encode st raw [root; sym] = Ret [LStr [flag; 0]] /\
    luafan_objectbuf_decode raw' [LStr [flag; 0]; sym] st = Ret ([LNil], st).
Proof.
  intros HM HM2 Hs Hk Hmap Hvk Hsym Hn Hi. pose proof (s_index _ _ _ Hsym).
  assert (Hb : lua_isboolean root = false) by (by destruct root).
  assert (Henc : encodable st root) by (intros v; apply reaches_scalar; [by destruct root|by left]).
  destruct (packer_root st root Henc) as (ctx & Hp & Hctx). pose proof (k_ok _ _ _ _ Hctx) as Hok.
  destruct (scalar_only st root ctx Hs Hb Hp) as [Et El].
  destruct (singleton_symbol sym_map ctx root index El Hn) as (Ew & Esc & Etop & Hf).
  assert (Elay : layout st sym_map index ctx = [flag_of ctx; 0]) by (by rewrite layout_split, Et, Ew).
  exists (flag_of ctx). rewrite <- Elay. split.
  - eapply (encode_layout st raw M HM); try done; [lia|by destruct root|apply Hok|lia|rewrite Elay; change (Zlen [flag_of ctx; 0]) with 2; lia].
  - destruct (decode_head raw' st sym sym_map vk index ctx) as (input & _ & ->); try done; [apply Hok|rewrite Elay; change (Zlen [flag_of ctx; 0]) with 2; lia|].
    rewrite Et. cbn [no_items]. rewrite Etop. pose proof (back_same st sym_map ctx ∅ (x_class _ _ Hok)) as Hback.
    rewrite Esc in Hback. inversion Hback as [E1 E2|]. cbn [place]. unfold first_map.
    rewrite !t_get_set, t_empty_get by done. by rewrite !decide_False by (intros [= E]; unfold TRUE_INDEX, FALSE_INDEX in E; lia).
Qed.

(** Functions do not survive: a function is encoded, without an error, as
    the byte that stands for [false]. *)
Theorem objectbuf_function_lost (st : lua_state T) (a : positive) (raw raw' : BYTEARRAY) (M : Z) :
  mem_upto M -> 2 ^ 33 <= M < 2 ^ 62 ->
  luafan_objectbuf_encode st raw [LFun a; LNil] = Ret [LStr [0]] /\
  luafan_objectbuf_decode raw' [LStr [0]; LNil] st = Ret ([LBool false], st).
Proof.
  intros HM HM2. split.
  - destruct (packer st (packer_fuel st) (LFun a) ctx_init) as [ctx| |] eqn:Hp.
    + assert (E : c_tables ctx = [] /\ c_numbers ctx = [] /\ c_u30s ctx = [] /\ c_strings ctx = []).
      { revert Hp. unfold packer_fuel. cbn [packer]. unfold packer_function. cbn [c_func_idxs ctx_init].
        rewrite t_empty_get. by intros [= <-]. }
      destruct E as (E1 & E2 & E3 & E4).
      assert (Elay : layout st t_empty 2 ctx = [0]) by (by rewrite layout_split; unfold flag_of, scalars_wire; rewrite E1, E2, E3, E4).
      assert (Hcl : classified st ctx) by (unfold classified; rewrite E1, E2, E3, E4; by repeat split).
      rewrite <- Elay. apply (encode_layout st raw M HM); rewrite ?Elay; try done; lia.
    + exfalso. revert Hp. unfold packer_fuel. cbn [packer]. unfold packer_function. cbn [c_func_idxs ctx_init]. by rewrite t_empty_get.
    + exfalso. revert Hp. unfold packer_fuel. cbn [packer]. unfold packer_function. cbn [c_func_idxs ctx_init]. by rewrite t_empty_get.
  - unfold luafan_objectbuf_decode, decode_sections, arg. cbn [nth Nat.sub]. by rewrite luaL_checklstring_str.
Qed.
End Theorems.

Lemma reaches_within {T} `{LuaTable T} (st : lua_state T) root (P : lua_value -> Prop) :
  P root -> (forall a o p, P (LTable a) -> heap st !! a = Some o -> p ∈ t_pairs (tab o) -> P p.1 /\ P p.2) ->
  forall v, reaches st root v -> P v.
Proof. intros Hr Hp v. induction 1 as [|a o k v _ IH Ho Hin|a o k v _ IH Ho Hin]; [done|apply (Hp a o _ IH Ho Hin)..]. Qed.

(** ** A table that contains itself and shares another *)
Module Sample.
Definition inner : alist := [(LFlt 4609434218613702656, LBool true)].
Definition outer : alist :=
  [(LInt 1, LStr (lit "a")); (LStr (lit "self"), LTable 1); (LInt 2, LTable 2); (LStr (lit "again"), LTable 2); (LInt (-5), LInt 7)].
Definition heap_of (l : list (positive * alist)) : lua_state alist :=
  mk_state (list_to_map (map (fun p => (p.1, mk_tobj p.2 None)) l)) ∅ 3 [].
Definition st : lua_state alist := heap_of [(1%positive, outer); (2%positive, inner)].
Definition values : list lua_value :=
  [LTable 1; LInt 1; LStr (lit "a"); LStr (lit "self"); LInt 2; LTable 2; LStr (lit "again"); LInt (-5); LInt 7;
   LFlt 4609434218613702656; LBool true].
#[local] Existing Instances assoc_table zero_alloc plain_lua.

Lemma st_ok : state_ok st.
Proof.
  intros a o Ho. change (a < 3)%positive. apply elem_of_list_to_map_2 in Ho.
  repeat (apply elem_of_cons in Ho as [[= -> _]|Ho]); [lia..|]. by apply not_elem_of_nil in Ho.
Qed.
Lemma pairs_in_values t : t = outer \/ t = inner -> Forall (fun p => p.1 ∈ values /\ p.2 ∈ values) (al_pairs t).
Proof. intros [-> | ->]; apply (bool_decide_unpack _); vm_compute; exact I. Qed.
Lemma st_values v : reaches st (LTable 1) v -> v ∈ values.
Proof.
  apply (reaches_within st (LTable 1) (fun v => v ∈ values)); [by left|]. intros a o p _ Ho Hp. apply elem_of_list_to_map_2 in Ho.
  assert (Ht : tab o = outer \/ tab o = inner).
  { repeat (apply elem_of_cons in Ho as [[= _ ->]|Ho]); [by left|by right|by apply not_elem_of_nil in Ho]. }
  pose proof (pairs_in_values _ Ht) as Hall. rewrite Forall_forall in Hall. by apply Hall.
Qed.
Lemma st_encodable : encodable st (LTable 1).
Proof.
  intros v Hv%st_values. unfold values in Hv.
  repeat (apply elem_of_cons in Hv as [->|Hv]); try by apply not_elem_of_nil in Hv.
  all: first [right; eexists; split; [reflexivity|]; by eexists|left].
  all: repeat split; try (by vm_compute); try (repeat constructor; by vm_compute).
Qed.
Lemma st_plain : plain_keys st (LTable 1).
Proof. by intros a o k v _ _ _ (s & d & n & -> & E & _). Qed.
End Sample.

Lemma objectbuf_roundtrip_witness :
  exists bytes,
    @luafan_objectbuf_encode _ assoc_table zero_alloc plain_lua Sample.st ba_123 [LTable 1; LNil] = Ret [LStr bytes] /\
    @copied _ assoc_table Sample.st (LTable 1)
      (@luafan_objectbuf_decode _ assoc_table plain_lua ba_123 [LStr bytes; LNil] Sample.st).
Proof.
  destruct (@objectbuf_roundtrip _ assoc_table zero_alloc plain_lua Sample.st (LTable 1) LNil [] [] 2 (2 ^ 40)) as (ctx & Hp & Hc).
  - apply zero_alloc_upto.
  - split; reflexivity || discriminate.
  - apply Sample.st_ok.
  - apply Sample.st_encodable.
  - apply Sample.st_plain.
  - reflexivity.
  - reflexivity.
  - apply (@no_symbols _ assoc_table).
  - discriminate.
  - vm_compute in Hp. injection Hp as <-. apply Hc. vm_compute. reflexivity.
Defined.

(** The symbol table of a script that gives the string "a" the number 3. *)
Module SymbolSample.
#[local] Existing Instances assoc_table zero_alloc plain_lua.
Definition a_string : lua_value := LStr (lit "a").
Definition names : alist := [(a_string, LInt 3)].
Definition numbers : alist := [(LInt 3, a_string)].
Definition st : lua_state alist := Sample.heap_of
  [(1%positive, [(LInt 1, LTable 2); (LInt 2, LTable 4); (LInt 3, LInt 3)]); (2%positive, names); (4%positive, numbers)].

Lemma names_ok : symbols_ok names numbers 3.
Proof.
  constructor; [done| |by left|by left|].
  - intros v Hv. cbn [t_get assoc_table names] in *. unfold al_get in *. destruct (key_ok v); [|done]. unfold names in *. cbn [al_find] in *.
    destruct (decide (a_string = lua_key v)) as [E|]; [|done]. exists 3. split; [done|]. do 2 right.
    assert (v = a_string) as ->; [|split; [lia|split; reflexivity]].
    symmetry. destruct v; try exact E. revert E. cbn [lua_key]. destruct (d_int d); [case_match|]; discriminate.
  - intros i Hi. cbn [t_get assoc_table numbers]. unfold al_get, numbers. cbn [key_ok lua_key al_find]. rewrite decide_False; [done|].
    intros [= E]. lia.
Qed.
End SymbolSample.

Lemma objectbuf_symbol_lost_witness :
  exists flag,
    @luafan_objectbuf_encode _ assoc_table zero_alloc plain_lua SymbolSample.st ba_123 [SymbolSample.a_string; LTable 1] = Ret [LStr [flag; 0]] /\
    @luafan_objectbuf_decode _ assoc_table plain_lua ba_123 [LStr [flag; 0]; LTable 1] SymbolSample.st = Ret ([LNil], SymbolSample.st).
Proof.
  apply (@objectbuf_symbol_lost _ assoc_table zero_alloc plain_lua SymbolSample.st SymbolSample.a_string (LTable 1)
    SymbolSample.names SymbolSample.numbers 3 (2 ^ 40)).
  - apply zero_alloc_upto.
  - split; reflexivity || discriminate.
  - split; [repeat constructor; vm_compute; discriminate|reflexivity].
  - reflexivity.
  - reflexivity.
  - reflexivity.
  - apply SymbolSample.names_ok.
  - discriminate.
  - reflexivity.
Defined.

Lemma objectbuf_function_lost_witness :
  @luafan_objectbuf_encode _ assoc_table zero_alloc plain_lua Sample.st ba_123 [LFun 9; LNil] = Ret [LStr [0]] /\
  @luafan_objectbuf_decode _ assoc_table plain_lua ba_123 [LStr [0]; LNil] Sample.st = Ret ([LBool false], Sample.st).
Proof.
  apply (@objectbuf_function_lost _ assoc_table zero_alloc plain_lua Sample.st 9 ba_123 ba_123 (2 ^ 40)).
  - apply zero_alloc_upto.
  - split; reflexivity || discriminate.
Defined.
