(* ===== verification/ObjectSafe.v ===== *)
(** * src/objectbuf.c: decoding bytes nobody encoded

    [decode] on an arbitrary byte string: it returns, reads nothing outside the
    string, and touches only the tables it creates. *)

From S2P Require Import Prelude ByteArray Lua LuaState Double Stream ObjectBuf ObjectWire.

(** A call that takes some bytes off the front of what is left to read. *)
Definition takes {A} (ba : BYTEARRAY) (t : list Z) (m : outcome (A * BYTEARRAY)) (P : A -> list Z -> Prop) : Prop :=
  exists a ba' t', m = Ret (a, ba') /\ source ba' t' /\ t' `suffix_of` t /\ P a t'.

Lemma takes_bind {A B} ba t (m : outcome (A * BYTEARRAY)) (f : A * BYTEARRAY -> outcome (B * BYTEARRAY)) (P : A -> list Z -> Prop) Q :
  takes ba t m P ->
  (forall a ba' t', source ba' t' -> t' `suffix_of` t -> P a t' -> takes ba' t' (f (a, ba')) Q) ->
  takes ba t (m ≫= f) Q.
Proof.
  intros (a & ba1 & t1 & -> & Hs & Hsuf & HP) Hf. destruct (Hf a ba1 t1 Hs Hsuf HP) as (b & ba2 & t2 & E & Hs2 & Hsuf2 & HQ).
  exists b, ba2, t2. split; [done|]. split; [done|]. split; [by etrans|done].
Qed.
Lemma takes_ret {A} ba t (a : A) (P : A -> list Z -> Prop) : source ba t -> P a t -> takes ba t (mret (a, ba)) P.
Proof. intros Hs HP. by exists a, ba, t. Qed.
Lemma takes_mono {A} ba t (m : outcome (A * BYTEARRAY)) (P Q : A -> list Z -> Prop) :
  takes ba t m P -> (forall a t', P a t' -> Q a t') -> takes ba t m Q.
Proof. intros (a & ba' & t' & E & Hs & Hsuf & HP) Hpq. exists a, ba', t'. auto. Qed.

Lemma suffix_Zlen {A} (l k : list A) : l `suffix_of` k -> Zlen l <= Zlen k.
Proof. intros [d ->]. rewrite Zlen_app. pose proof (Zlen_nonneg d). lia. Qed.

Lemma takes_read8 ba t : source ba t ->
  takes ba t (bytearray_read8 ba) (fun r t' => match r with Some b => t = b :: t' | None => True end).
Proof.
  intros Hs. destruct t as [|x t].
  - destruct (reader_read8_short _ Hs) as (b & E & Hr). rewrite read8_mark in E.
    destruct (with_mark_inv _ _ _ _ E Hr) as (b' & E' & Hs'). by exists None, b', [].
  - destruct (source_read8 _ _ _ Hs) as (b & E & Hb). exists (Some x), b, t. split; [done|]. split; [done|]. split; [|done]. by exists [x].
Qed.

(** A u30 that is there takes a byte or more. *)
Definition shorter (t : list Z) (r : option Z) (t' : list Z) : Prop :=
  match r with Some u => 0 <= u < 2 ^ 32 /\ Zlen t' < Zlen t | None => True end.

Lemma takes_u30_loop fuel : forall value shift ba t,
  source ba t -> 0 <= value < 2 ^ 32 -> shift = 7 * (5 - Z.of_nat fuel) -> (0 < fuel <= 5)%nat ->
  takes ba t (get_u30_loop fuel value shift ba) (shorter t).
Proof.
  induction fuel as [|fuel IH]; intros value shift ba t Hs Hv Hsh Hf; [lia|]. cbn [get_u30_loop].
  eapply takes_bind; [by apply takes_read8|]. intros [b|] ba' t' Hs' _ Hb; [|by apply takes_ret]. cbn [mbind outcome_bind].
  assert (Hlen : Zlen t' < Zlen t) by (rewrite Hb, Zlen_cons; lia).
  assert (Hv' : 0 <= Z.lor value (u32 (Z.shiftl (Z.land b 127) shift)) < 2 ^ 32) by (apply lor_range; [done|apply u32_range]).
  rewrite u8_small by lia. destruct (_ || _) eqn:Hor; [by apply takes_ret|].
  apply orb_false_iff in Hor as [_ Hor]. eapply takes_mono; [apply IH; [done|done|lia|lia]|].
  intros [u|] t2; [|done]. intros [Hu Hl]. split; [done|lia].
Qed.
Lemma takes_u30 ba t : source ba t -> takes ba t (ffi_stream_get_u30 ba) (shorter t).
Proof. intros Hs. apply takes_u30_loop; [done|done|done|lia]. Qed.

(** A double takes its eight bytes or is missing. *)
Lemma takes_d64 ba t : source ba t ->
  takes ba t (ffi_stream_get_d64 ba) (fun r t' => r <> None -> Zlen t' < Zlen t).
Proof.
  intros Hs. destruct (Z.le_gt_cases 8 (Zlen t)).
  - destruct (split_at t 8) as (d & t' & -> & Hd); [lia|].
    destruct (reader_read (set_mark 0 ba) d t' 8) as (ba' & E & Hr'); [done..|lia|].
    assert (En : ffi_stream_get_d64 (set_mark 0 ba) = Ret (Some (le_val d), ba')).
    { change (read_number 8 (set_mark 0 ba) = Ret (Some (le_val d), ba')). unfold read_number. by rewrite E. }
    rewrite get_d64_mark in En. destruct (with_mark_inv _ _ _ _ En Hr') as (b & E' & Hs').
    exists (Some (le_val d)), b, t'. split; [done|]. split; [done|]. split; [by exists d|]. intros _. rewrite Zlen_app. lia.
  - assert (En : ffi_stream_get_d64 (set_mark 0 ba) = Ret (None, set_mark 0 ba)).
    { change (read_number 8 (set_mark 0 ba) = Ret (None, set_mark 0 ba)). unfold read_number.
      by rewrite (reader_read_short (set_mark 0 ba) t 8) by (done || lia). }
    rewrite get_d64_mark in En. destruct (with_mark_inv _ _ _ _ En Hs) as (b & E' & Hs'). by exists None, b, t.
Qed.
Lemma source_ok ba t : source ba t -> bytes_ok t.
Proof.
  intros (Hwf & Hr & <-). destruct (wf_buffer _ Hwf) as (b & Hb & _ & Hok). unfold abs, contents.
  cbn [q_todo]. rewrite Hr, Hb. change (default [] (Some b)) with b. auto with fan.
Qed.

(** A string: the bytes it designates are there, and it takes one more. *)
Lemma get_string_any ba t : source ba t ->
  (exists n ba', ffi_stream_get_string ba = Ret (None, n, ba')) \/
  exists d ba' t', ffi_stream_get_string ba = Ret (Some d, Zlen d, ba') /\ source ba' t' /\ Zlen t' < Zlen t /\
    bytes_ok d /\ Zlen d < Zlen t /\ Zlen d < 2 ^ 32.
Proof.
  intros Hs. unfold ffi_stream_get_string. destruct (takes_u30 ba t Hs) as ([len|] & b1 & t1 & -> & Hs1 & Hsuf & Hsh); cbn [mbind outcome_bind].
  2: left; by do 2 eexists.
  destruct Hsh as [Hlen Hshort]. rewrite (source_available _ _ Hs1). destruct (Z.ltb_spec (Zlen t1) len); [left; by do 2 eexists|].
  right. destruct (split_at t1 len) as (d & t2 & -> & Hd); [lia|]. rewrite <- Hd. rewrite Zlen_app in *. pose proof (Zlen_nonneg d).
  destruct (take_bytes (set_mark 0 b1) d t2) as [E1 (b2 & E2 & Hs2)]; [exact Hs1|lia|].
  change (bytes_at_offset (set_mark 0 b1) (Zlen d)) with (bytes_at_offset b1 (Zlen d)) in E1. rewrite E1. cbn [mbind outcome_bind].
  rewrite readbuffer_mark in E2. destruct (with_mark_inv _ _ _ _ E2 Hs2) as (b3 & -> & Hs3). cbn [mbind outcome_bind].
  exists d, b3, t2. split; [done|]. split; [done|]. pose proof (Zlen_nonneg t2). split; [lia|]. split; [|lia].
  apply source_ok, bytes_ok_app in Hs1. apply Hs1.
Qed.

(** ** Sections *)

Lemma takes_safe {A} ba t (m : outcome (A * BYTEARRAY)) P : takes ba t m P ->
  safe m (fun r => exists t', source r.2 t' /\ Zlen t' <= Zlen t /\ P r.1 t').
Proof. intros (a & ba' & t' & -> & Hs & Hsuf & HP). exists t'. split; [done|]. split; [by apply suffix_Zlen|done]. Qed.

(** What is left of [t] after a call. *)
Definition left_of (t : list Z) (ba : BYTEARRAY) : Prop := exists t', source ba t' /\ Zlen t' <= Zlen t.
Lemma left_of_trans t t' ba : Zlen t' <= Zlen t -> left_of t' ba -> left_of t ba.
Proof. intros Hl (t2 & Hs & Hl2). exists t2. split; [done|lia]. Qed.

Section Any.
Context {T : Type} `{LuaTable T} `{LuaAPI}.

(** A getter of a section: it returns, and a value takes a byte or more. *)
Definition getter_ok (get : BYTEARRAY -> outcome (option lua_value * BYTEARRAY)) : Prop :=
  forall ba t, source ba t -> exists r ba', get ba = Ret (r, ba') /\
    (r <> None -> exists t', source ba' t' /\ Zlen t' < Zlen t).

Lemma get_number_ok : getter_ok ObjectBuf.get_number.
Proof.
  intros ba t Hs. unfold ObjectBuf.get_number. destruct (takes_d64 ba t Hs) as (r & b & t' & -> & Hs' & _ & Hsh).
  eexists _, b. split; [reflexivity|]. intros Hr. exists t'. split; [done|]. apply Hsh. by destruct r.
Qed.
Lemma get_u30_ok : getter_ok get_u30.
Proof.
  intros ba t Hs. unfold get_u30. destruct (takes_u30 ba t Hs) as (r & b & t' & -> & Hs' & _ & Hsh).
  eexists _, b. split; [reflexivity|]. intros Hr. exists t'. split; [done|]. destruct r; [apply Hsh|done].
Qed.
Lemma get_string_ok : getter_ok get_string.
Proof.
  intros ba t Hs. unfold get_string. destruct (get_string_any ba t Hs) as [(n & b & ->)|(d & b & t' & -> & Hs' & Hl & _)].
  - eexists _, b. by split.
  - eexists _, b. split; [reflexivity|]. intros _. by exists t'.
Qed.

Definition section_safe (t : list Z) (r : section_result (T := T)) : Prop :=
  match r with Failed _ => True | Filled input _ _ => left_of t input end.

(** A loop over [count] elements with a [uint32_t] counter ends: the counter
    passes [count], or, when it cannot, the input runs out first. *)
Definition ends (fuel : nat) (count i : Z) (t : list Z) : Prop :=
  count < 2 ^ 32 /\ 0 <= i < 2 ^ 32 /\ (count < 2 ^ 32 - 1 /\ count < i + Z.of_nat fuel \/ Zlen t < Z.of_nat fuel).
Lemma ends_fuel count i t : ends O count i t -> i <= count -> False.
Proof. intros (_ & _ & [?|?]) ?; [lia|]. pose proof (Zlen_nonneg t). lia. Qed.
Lemma ends_step fuel count i t t' : ends (S fuel) count i t -> i <= count -> Zlen t' < Zlen t -> ends fuel count (u32 (i + 1)) t'.
Proof.
  intros (Hc & Hi & Hf) Hle Hl. split; [done|]. split; [apply u32_range|]. destruct Hf as [Hf|Hf]; [left|right; lia].
  rewrite u32_small by lia. lia.
Qed.
Lemma ends_start count t : 0 <= count < 2 ^ 32 -> Zlen t < 2 ^ 32 - 1 -> ends (Z.to_nat count) count 1 t.
Proof. intros Hc Ht. split; [lia|]. split; [lia|]. destruct (decide (count = 2 ^ 32 - 1)); [right|left]; lia. Qed.

Lemma fill_loop_any get fail count fuel : getter_ok get -> forall i input index (index_map : T) t,
  source input t -> ends fuel count i t -> safe (fill_loop get fail fuel count i input index index_map) (section_safe t).
Proof.
  intros Hg. induction fuel as [|fuel IH]; intros i input index index_map t Hs He; cbn [fill_loop];
    (destruct (Z.leb_spec i count); [|by exists t]).
  { by destruct (ends_fuel count i t). }
  destruct (Hg input t Hs) as (r & b & -> & Hr). cbn [mbind outcome_bind]. destruct r as [v|]; [|done].
  destruct Hr as (t' & Hs' & Hl); [done|]. unfold raw_set. cbn [key_ok mbind outcome_bind].
  eapply safe_mono; [apply IH; [done|by eapply ends_step]|]. intros [|input' ? ?]; [done|]. apply left_of_trans. lia.
Qed.
Lemma optional_section_any flag mask get no_count fail last_top input index (index_map : T) t :
  getter_ok get -> source input t -> Zlen t < 2 ^ 32 ->
  safe (optional_section flag mask (read_section get no_count fail) last_top input index index_map) (fun r => section_safe t r.2).
Proof.
  intros Hg Hs Hlen. unfold optional_section. destruct (c_true _); [|by exists t].
  apply safe_bind with (P := section_safe t); [|done]. unfold read_section.
  destruct (takes_u30 input t Hs) as ([count|] & b & t' & -> & Hs' & _ & Hsh); [destruct Hsh as [Hc Hl]|done].
  cbn [mbind outcome_bind]. eapply safe_mono; [eapply fill_loop_any; [done|done|apply ends_start; lia]|].
  intros [|input' ? ?]; [done|]. apply left_of_trans. lia.
Qed.

(** ** The tables *)

(** [st] is [st0] with more tables; what was there is as it was. *)
Definition later (st0 st : lua_state T) : Prop :=
  state_ok st /\ forall a o, heap st0 !! a = Some o -> heap st !! a = Some o.
(** A table made since [st0]. *)
Definition made (st0 st : lua_state T) (v : lua_value) : Prop :=
  exists a, v = LTable a /\ is_Some (heap st !! a) /\ heap st0 !! a = None.
Definition keeps (st st' : lua_state T) : Prop := forall a, is_Some (heap st !! a) -> is_Some (heap st' !! a).

Lemma made_keeps st0 st st' v : keeps st st' -> made st0 st v -> made st0 st' v.
Proof. intros Hk (a & -> & Ha & Hn). exists a. auto. Qed.

Lemma new_tables_any st0 count : count < 2 ^ 32 - 1 -> forall fuel i index (index_map : T) st, later st0 st ->
  0 <= i -> count < i + Z.of_nat fuel ->
  exists index_map' st', new_tables fuel count i index index_map st = Some (index_map', st') /\
    later st0 st' /\ keeps st st' /\
    (forall x, made st0 st (t_get index_map (LInt x)) -> made st0 st' (t_get index_map' (LInt x))) /\
    (forall j, i <= j <= count -> made st0 st' (t_get index_map' (LInt (u32 (index + j))))).
Proof.
  intros Hc. induction fuel as [|fuel IH]; intros i index im st Hl Hi Hf; cbn [new_tables];
    (destruct (Z.leb_spec i count) as [Hle|]; [|exists im, st; split; [done|]; split; [done|]; split; [by intros a|]; split; [done|];
      intros j Hj; lia]); [lia|].
  destruct (lua_newtable st) as [a st1] eqn:E1. destruct Hl as [Hok Hold].
  pose proof (newtable_ok _ _ _ E1 Hok) as Hok1. pose proof (fresh_ref st Hok) as Hfr. injection E1 as <- <-.
  set (st1 := mk_state _ _ _ _) in *. set (im1 := t_set im _ _). rewrite u32_small by lia.
  assert (Hk : keeps st st1).
  { intros a Ha. unfold st1. cbn [heap]. destruct (decide (next_ref st = a)) as [->|]; [by rewrite lookup_insert_eq|by rewrite lookup_insert_ne]. }
  assert (Hnew : made st0 st1 (LTable (next_ref st))).
  { exists (next_ref st). split; [done|]. split; [unfold st1; cbn [heap]; by rewrite lookup_insert_eq|].
    destruct (heap st0 !! next_ref st) eqn:E0; [|done]. apply Hold in E0. congruence. }
  assert (Hget : forall x, t_get im1 (LInt x) = if decide (u32 (index + i) = x) then LTable (next_ref st) else t_get im (LInt x)).
  { intros x. unfold im1. rewrite t_get_set by done. repeat case_decide; congruence. }
  destruct (IH (i + 1) index im1 st1) as (im' & st' & -> & Hl' & Hk' & Hx & Hj); [|lia|lia|].
  { split; [done|]. intros a o Ha. unfold st1. cbn [heap]. rewrite lookup_insert_ne; [by apply Hold|]. intros <-. apply Hold in Ha. congruence. }
  exists im', st'. split; [done|]. split; [done|]. split; [intros a Ha; by apply Hk', Hk|]. split.
  - intros x Hm. apply Hx. rewrite Hget. case_decide; [done|]. by eapply made_keeps.
  - intros j Hr. destruct (decide (j = i)) as [->|]; [|apply Hj; lia]. apply Hx. rewrite Hget. by rewrite decide_True.
Qed.
(** With the largest count the counter never passes it. *)
Lemma new_tables_endless fuel : forall i index (index_map : T) st, 0 <= i < 2 ^ 32 ->
  new_tables fuel (2 ^ 32 - 1) i index index_map st = None.
Proof.
  induction fuel as [|fuel IH]; intros i index im st Hi; cbn [new_tables]; (destruct (Z.leb_spec i (2 ^ 32 - 1)); [|lia]); [done|].
  destruct (lua_newtable st). apply IH, u32_range.
Qed.

Section Table.
Context (st0 : lua_state T) (vk index_map : T).

Lemma fill_any st a k v : later st0 st -> made st0 st (LTable a) -> k <> LNil ->
  safe (fill st a k v) (fun st' => later st0 st' /\ keeps st st').
Proof.
  intros [Hok Hold] (b & [= <-] & [o Ho] & Hn) Hk. unfold fill, with_table, raw_set. rewrite Ho.
  destruct (key_ok k); [|done]. cbn. split; [split|].
  - by eapply put_table_ok.
  - intros b ob Hb. cbn. rewrite lookup_insert_ne; [by apply Hold|]. intros <-. congruence.
  - intros b Hb. cbn. destruct (decide (a = b)) as [->|]; [by rewrite lookup_insert_eq|by rewrite lookup_insert_ne].
Qed.
Lemma resolve_any name vi : safe (resolve vk name index_map vi) (fun v => v <> LNil).
Proof.
  unfold resolve. destruct (t_get vk (LInt vi)); try done. by destruct (t_get index_map (LInt vi)).
Qed.

(** What a loop over the input of a table, or over the tables, leaves. *)
Definition filling_safe (st : lua_state T) (t : list Z) (r : list Z + BYTEARRAY * lua_state T) : Prop :=
  match r with inl _ => True | inr (d, st') => left_of t d /\ later st0 st' /\ keeps st st' end.
Lemma filling_trans st st1 t t1 r : keeps st st1 -> Zlen t1 <= Zlen t -> filling_safe st1 t1 r -> filling_safe st t r.
Proof.
  intros Hk Hl. destruct r as [|[d st2]]; [done|]. intros (Hd & Hl2 & Hk2). split; [by eapply left_of_trans|].
  split; [done|]. intros a Ha. by apply Hk2, Hk.
Qed.

Lemma decode_array_any a count fuel : forall j d st t, source d t -> later st0 st -> made st0 st (LTable a) ->
  0 <= j -> j + Zlen t < 2 ^ 31 -> count < j + Z.of_nat fuel \/ Zlen t < Z.of_nat fuel ->
  safe (decode_array vk index_map a fuel count j d st) (filling_safe st t).
Proof.
  induction fuel as [|fuel IH]; intros j d st t Hs Hl Hm Hj Hlen Hf; pose proof (Zlen_nonneg t); cbn [decode_array];
    rewrite u32_small by lia;
    (destruct (Z.leb_spec j count); [|split; [by exists t|]; split; [done|by intros a']]); [lia|].
  destruct (takes_u30 d t Hs) as ([vi|] & d' & t' & -> & Hs' & _ & Hsh); [destruct Hsh as [_ Hsh]|done]. cbn [mbind outcome_bind].
  eapply safe_bind; [apply resolve_any|]. intros v _. eapply safe_bind; [by apply fill_any|]. intros st1 [Hl1 Hk].
  pose proof (Zlen_nonneg t'). destruct (Z.eqb_spec j (2 ^ 31 - 1)); [lia|].
  eapply safe_mono; [apply IH; [done|done|by eapply made_keeps|lia|lia|lia]|]. intros r. apply filling_trans; [done|lia].
Qed.

Lemma decode_hash_any a fuel : forall d st t, source d t -> Zlen t <= Z.of_nat fuel -> later st0 st -> made st0 st (LTable a) ->
  safe (decode_hash vk fuel index_map a d st) (filling_safe st t).
Proof.
  induction fuel as [|fuel IH]; intros d st t Hs Hf Hl Hm; cbn [decode_hash]; rewrite (source_available _ _ Hs);
    (destruct (Z.ltb_spec 0 (Zlen t)); [|split; [by exists t|]; split; [done|by intros a']]); [lia|].
  destruct (takes_u30 d t Hs) as ([ki|] & d1 & t1 & -> & Hs1 & Hsuf1 & Hsh); [|done]. cbn [mbind outcome_bind].
  destruct Hsh as [_ Hsh]. destruct (takes_u30 d1 t1 Hs1) as ([vi|] & d2 & t2 & -> & Hs2 & Hsuf2 & _); [|done]. cbn [mbind outcome_bind].
  apply suffix_Zlen in Hsuf2. eapply safe_bind; [apply resolve_any|]. intros k Hk. eapply safe_bind; [apply resolve_any|]. intros v _.
  eapply safe_bind; [by apply fill_any|]. intros st1 [Hl1 Hk1].
  eapply safe_mono; [apply IH; [done|lia|done|by eapply made_keeps]|]. intros r. apply filling_trans; [done|lia].
Qed.

Lemma decode_table_any v input st t : source input t -> Zlen t < 2 ^ 31 -> later st0 st -> made st0 st v ->
  safe (decode_table vk index_map v input st) (filling_safe st t).
Proof.
  intros Hs Ht Hl (a & -> & Hm). assert (Hma : made st0 st (LTable a)) by (by exists a). unfold decode_table.
  destruct (get_string_any input t Hs) as [(n & b & ->)|(d & b & t' & -> & Hs' & Hlt & Hok & Hdt & Hd)]; [done|]. cbn [mbind outcome_bind].
  destruct (bytearray_wrap_buffer (mk_ba 0 0 0 None 0 false false) (Some d) (Zlen d)) as [ok w] eqn:Ew. assert (ok = true) as -> by (by injection Ew).
  apply wrap_source in Ew; [|done|lia].
  destruct (takes_u30 w d Ew) as ([count|] & w1 & d1 & -> & Hw1 & _ & Hsh); [destruct Hsh as [Hc Hsh]|done]. cbn [mbind outcome_bind].
  eapply safe_bind; [apply decode_array_any; [exact Hw1|done|done|lia|lia|lia]|]. intros [msg|[w2 st1]]; [done|]. intros ((d2 & Hw2 & _) & Hl1 & Hk1).
  eapply safe_bind; [apply (decode_hash_any _ _ _ _ d2); [done| |done|by eapply made_keeps]|].
  { rewrite (source_available _ _ Hw2). pose proof (Zlen_nonneg d2). lia. }
  intros [msg|[w3 st2]]; [done|]. intros (_ & Hl2 & Hk2). split; [exists t'; split; [done|lia]|]. split; [done|].
  intros b' Hb'. by apply Hk2, Hk1.
Qed.

Lemma decode_tables_loop_any count fuel : count < 2 ^ 32 - 1 -> forall i index input st t, source input t -> Zlen t < 2 ^ 31 ->
  later st0 st -> 0 <= i -> count < i + Z.of_nat fuel ->
  (forall j, i <= j <= count -> made st0 st (t_get index_map (LInt (u32 (index + j))))) ->
  safe (decode_tables_loop vk index_map fuel count i index input st) (filling_safe st t).
Proof.
  intros Hc. induction fuel as [|fuel IH]; intros i index input st t Hs Ht Hl Hi Hf Hm; cbn [decode_tables_loop];
    (destruct (Z.leb_spec i count); [|split; [by exists t|]; split; [done|by intros a']]); [lia|].
  eapply safe_bind; [apply decode_table_any; [exact Hs|done|done|apply Hm; lia]|]. intros [msg|[b st1]]; [done|].
  intros ((t' & Hs' & Hlt) & Hl1 & Hk1). rewrite u32_small by lia.
  eapply safe_mono; [apply (IH _ _ _ _ t'); [done|lia|done|lia|lia|]|].
  - intros j Hj. eapply made_keeps; [exact Hk1|]. apply Hm. lia.
  - intros r. by apply filling_trans.
Qed.
End Table.

(** The section says that there are 2^32 - 1 tables. *)
Definition says_endless (input : BYTEARRAY) : Prop := exists input', ffi_stream_get_u30 input = Ret (Some (2 ^ 32 - 1), input').

Lemma decode_tables_any (vk : T) input index (index_map : T) st t : source input t -> Zlen t < 2 ^ 31 -> state_ok st ->
  says_endless input \/
  safe (decode_tables vk input index index_map st) (fun r => match r with inl _ => True | inr (_, st') => later st st' end).
Proof.
  intros Hs Ht Hok. unfold decode_tables, says_endless.
  destruct (takes_u30 input t Hs) as ([count|] & b & t' & -> & Hs' & _ & Hsh); [|by right]. destruct Hsh as [Hc Hl].
  destruct (decide (count = 2 ^ 32 - 1)) as [->|]; [left; by exists b|right]. cbn [mbind outcome_bind].
  destruct (new_tables_any st count ltac:(lia) (Z.to_nat count) 1 index index_map st) as (im & st1 & -> & Hl1 & _ & _ & Hm);
    [by split|lia|lia|].
  eapply safe_bind; [apply (decode_tables_loop_any st vk im count _ ltac:(lia) 1 index b st1 t'); [done|lia|done|lia|lia|done]|].
  intros [msg|[b' st2]]; [done|]. by intros (_ & ? & _).
Qed.

(** The sections before the tables. *)
Lemma decode_sections_any raw (st : lua_state T) bytes sym index vk :
  bytes_ok bytes -> Zlen bytes < 2 ^ 31 -> open_symbols st sym SYM_INDEX_MAP_VK = Ret (index, vk) ->
  safe (decode_sections raw [LStr bytes; sym] st) (fun r =>
    match r with
    | inl values => (exists v, values = [v]) \/ (exists msg, values = [LNil; LStr msg])
    | inr (_, input, _, _) => exists t, source input t /\ Zlen t < 2 ^ 31
    end).
Proof.
  intros Hb Hlen Hsym. unfold decode_sections, arg. cbn [nth Nat.sub]. rewrite luaL_checklstring_str. cbn [mbind outcome_bind].
  destruct (bytearray_wrap_buffer raw (Some bytes) (Zlen bytes)) as [ok input] eqn:E. assert (ok = true) as -> by (by injection E).
  apply wrap_source in E; [|done|lia].
  destruct (takes_read8 _ _ E) as (f & i1 & t1 & -> & Hs1 & Hsuf%suffix_Zlen & _). cbn [mbind outcome_bind].
  destruct (default 0 f =? 0); [by left; eexists|]. destruct (default 0 f =? 1); [by left; eexists|].
  rewrite Hsym. cbn [mbind outcome_bind raw_set key_ok].
  eapply safe_bind; [apply optional_section_any; [apply get_number_ok|exact Hs1|lia]|].
  intros [top1 [msg|i2 x2 m2]]; [by right; eexists|]. intros (t2 & Hs2 & Hl2).
  eapply safe_bind; [apply optional_section_any; [apply get_u30_ok|exact Hs2|lia]|].
  intros [top2 [msg|i3 x3 m3]]; [by right; eexists|]. intros (t3 & Hs3 & Hl3).
  eapply safe_bind; [apply optional_section_any; [apply get_string_ok|exact Hs3|lia]|].
  intros [top3 [msg|i4 x4 m4]]; [by right; eexists|]. intros (t4 & Hs4 & Hl4).
  destruct (c_true _); [|by left; eexists]. exists t4. split; [done|]. cbn [snd section_safe] in *. lia.
Qed.

(** C13: decoding is safe on any byte string shorter than 2^31, with one exception.
    It terminates, reads only bytes of the string, and either raises, or returns
    [nil] and a message, or returns one value; in every case the tables that
    existed before are as they were.  The exception is a table section that says it
    has 2^32 - 1 tables: the 32-bit counter never passes that number, and the loop
    that creates the tables does not end after any number of rounds. *)
Theorem objectbuf_decode_safe raw (st : lua_state T) bytes sym index vk :
  state_ok st -> bytes_ok bytes -> Zlen bytes < 2 ^ 31 -> open_symbols st sym SYM_INDEX_MAP_VK = Ret (index, vk) ->
  safe (luafan_objectbuf_decode raw [LStr bytes; sym] st) (fun r =>
    ((exists v, r.1 = [v]) \/ (exists msg, r.1 = [LNil; LStr msg])) /\ later st r.2) \/
  (exists vk' input index' index_map, decode_sections raw [LStr bytes; sym] st = Ret (inr (vk', input, index', index_map)) /\
     says_endless input /\ forall rounds, new_tables rounds (2 ^ 32 - 1) 1 index' index_map st = None).
Proof.
  intros Hok Hb Hlen Hsym. assert (Hsame : later st st) by done. unfold luafan_objectbuf_decode.
  pose proof (decode_sections_any raw st bytes sym index vk Hb Hlen Hsym) as Hsec.
  destruct (decode_sections raw [LStr bytes; sym] st) as [[values|[[[vk' input] x] im]]|e|]; [by left|..|by left|done].
  destruct Hsec as (t & Hs & Ht). destruct (decode_tables_any vk' input x im st t Hs Ht Hok) as [He|Hsafe].
  - right. exists vk', input, x, im. split; [done|]. split; [done|]. intros rounds. by apply new_tables_endless.
  - left. cbn [mbind outcome_bind]. eapply safe_bind; [exact Hsafe|].
    intros [msg|[im' st']]; [split; [right; by eexists|done]|]. intros Hl. by split; [left; eexists|].
Qed.
End Any.

(** A table of one element with an index that names nothing. *)
Lemma objectbuf_decode_safe_witness :
  @safe _ (@luafan_objectbuf_decode _ assoc_table plain_lua ba_123 [LStr [8; 1; 2; 1; 9]; LNil] (mk_state ∅ ∅ 1 [])) (fun r =>
    ((exists v, r.1 = [v]) \/ (exists msg, r.1 = [LNil; LStr msg])) /\ later (T := alist) (mk_state ∅ ∅ 1 []) r.2).
Proof.
  destruct (@objectbuf_decode_safe _ assoc_table plain_lua ba_123 (mk_state ∅ ∅ 1 []) [8; 1; 2; 1; 9] LNil 2 []) as [Hs|Hn].
  - by intros a o.
  - repeat constructor; vm_compute; discriminate.
  - reflexivity.
  - reflexivity.
  - exact Hs.
  - exfalso. destruct Hn as (vk & input & index & im & E & (input' & Ec) & _). vm_compute in E. injection E as <- <- <- <-.
    vm_compute in Ec. discriminate.
Defined.

(** Six bytes are enough for the exception. *)
Example objectbuf_decode_endless :
  exists vk input index index_map,
    @decode_sections _ assoc_table plain_lua ba_123 [LStr [8; 255; 255; 255; 255; 15]; LNil] (mk_state ∅ ∅ 1 []) =
      Ret (inr (vk, input, index, index_map)) /\ says_endless input.
Proof. eexists _, _, _, _. split; [by vm_compute|]. eexists. by vm_compute. Qed.
