(* ===== verification/JsonEncode.v ===== *)
(** * src/json.c, first half: the string buffer and [json.encode]

    The registry, the tables and the call stack are those of [LuaState].  The
    recursion over nested tables takes fuel; [encode_fuel], two units more than
    there are tables, is enough ([encode_value_ok]), since the map of tables being
    encoded refuses to enter one twice. *)

From S2P Require Import Prelude Lua LuaState Double.

Definition JSON_ARRAY_MT_KEY : list Z := lit "json.array_mt".
Definition JSON_OBJECT_MT_KEY : list Z := lit "json.object_mt".
Definition JSON_NULL_KEY : list Z := lit "json.null_sentinel".
Definition JSON_MOD_KEY : list Z := lit "json.module".

(** ** The growable string buffer *)

Record strbuf_t : Type := mk_strbuf { sb_data : option (list Z); sb_len : Z; sb_cap : Z }.

Definition SIZE_MAX : Z := 2 ^ 64 - 1.

Definition strbuf_free (b : strbuf_t) : strbuf_t := mk_strbuf None 0 0.

(** The doubling loop; a capacity of at least 1 doubled 64 times exceeds any size. *)
Fixpoint reserve_loop (fuel : nat) (need ncap : Z) : option Z :=
  match fuel with
  | O => None
  | S fuel =>
      if ncap <? need then
        if SIZE_MAX / 2 <? ncap then None else reserve_loop fuel need (u64 (ncap * 2))
      else Some ncap
  end.

Section Strbuf.
Context `{Allocator}.

Definition strbuf_init : outcome strbuf_t :=
  match malloc 256 with
  | None => Ret (mk_strbuf None 0 256)
  | data => data ← mem_store data 0 [0]; mret (mk_strbuf data 0 256)
  end.

Definition strbuf_reserve (b : strbuf_t) (need : Z) : bool * strbuf_t :=
  let want := u64 (sb_len b + need + 1) in
  if want <=? sb_cap b then (true, b)
  else
    match reserve_loop 65 want (if c_true (sb_cap b) then sb_cap b else 256) with
    | None => (false, b)
    | Some ncap =>
        match realloc (sb_data b) ncap with
        | None => (false, b)
        | Some p => (true, mk_strbuf (Some p) (sb_len b) ncap)
        end
    end.

Definition strbuf_append (b : strbuf_t) (s : list Z) : outcome (bool * strbuf_t) :=
  let n := Zlen s in
  match sb_data b with
  | None => Ret (false, b)
  | Some _ =>
      let '(ok, b) := strbuf_reserve b n in
      if negb ok then Ret (false, b)
      else
        data ← mem_store (sb_data b) (sb_len b) s;
        let len := u64 (sb_len b + n) in
        data ← mem_store data len [0];
        mret (true, mk_strbuf data len (sb_cap b))
  end.

Definition strbuf_append_char (b : strbuf_t) (c : Z) : outcome (bool * strbuf_t) := strbuf_append b [u8 c].
Definition strbuf_append_str (b : strbuf_t) (s : list Z) : outcome (bool * strbuf_t) := strbuf_append b (cstr s).
End Strbuf.

(** ** Registry helpers *)

Section Registry.
Context {T : Type} `{LuaTable T}.

Definition push_array_mt (st : lua_state T) : lua_value := reg_get st JSON_ARRAY_MT_KEY.
Definition push_object_mt (st : lua_state T) : lua_value := reg_get st JSON_OBJECT_MT_KEY.
Definition push_null_sentinel (st : lua_state T) : lua_value := reg_get st JSON_NULL_KEY.

Definition mt_is_array (st : lua_state T) (o : tobj T) : bool :=
  match meta o with
  | None => false
  | Some m => bool_decide (push_array_mt st = LTable m)
  end.
Definition mt_is_object (st : lua_state T) (o : tobj T) : bool :=
  match meta o with
  | None => false
  | Some m => bool_decide (push_object_mt st = LTable m)
  end.
Definition table_is_empty (o : tobj T) : bool :=
  match t_pairs (tab o) with [] => true | _ => false end.

(** The [for] loop over levels 1 to 32; [fallback] is the 256-byte buffer. *)
Fixpoint caller_site_loop (fs : list (option frame)) (fallback : list Z) : list Z :=
  match fs with
  | [] => match fallback with [] => lit "?" | _ => snprintf 256 fallback end
  | None :: fs => caller_site_loop fs fallback
  | Some f :: fs =>
      match f_what f with
      | Some (67 :: _) => caller_site_loop fs fallback
      | _ =>
          let label_src := default (lit "?") (f_short_src f) in
          let '(is_chunk, label_src) :=
            match f_source f with
            | Some (61 :: r) => (true, r)
            | _ => (false, label_src)
            end in
          let place := label_src ++ lit ":" ++ dec_of_Z (f_line f) in
          if is_chunk && (0 <? f_line f) then snprintf 256 place
          else
            caller_site_loop fs
              match fallback with
              | [] => snprintf 256 (if 0 <? f_line f then place else label_src)
              | _ => fallback
              end
      end
  end.
Definition caller_site (st : lua_state T) : list Z := caller_site_loop (take 32 (frames st)) [].
End Registry.

Definition json_error {A} (msg : list Z) : outcome A := Raise (cstr msg).
Definition json_errorf {A} (msg : list Z) : outcome A := json_error (snprintf 1024 msg).
(** The buffer is freed before the error leaves. *)
Definition encode_error {A} (buf : strbuf_t) (msg : list Z) : outcome A :=
  let _ := strbuf_free buf in json_error msg.
Definition encode_errorf {A} (buf : strbuf_t) (msg : list Z) : outcome A :=
  encode_error buf (snprintf 1024 msg).

(** ** Encoding *)

Definition hexdigit (n : Z) : Z := if n <? 10 then 48 + n else 87 + n.

(** The escape sequence of a byte, when it has one. *)
Definition escape (c : Z) : option (list Z) :=
  if c =? 92 then Some [92; 92]
  else if c =? 34 then Some [92; 34]
  else if c =? 8 then Some [92; 98]
  else if c =? 12 then Some [92; 102]
  else if c =? 10 then Some [92; 110]
  else if c =? 13 then Some [92; 114]
  else if c =? 9 then Some [92; 116]
  else if c <? 32 then Some [92; 117; 48; 48; hexdigit (c / 16); hexdigit (c mod 16)]
  else None.

Section Encode.
Context {T : Type} `{LuaTable T} `{Allocator} `{LuaAPI}.
Context (st : lua_state T).

(** [if (!strbuf_append(...)) encode_error(L, buf, "out of memory");] *)
Definition or_fail (r : outcome (bool * strbuf_t)) : outcome strbuf_t :=
  '(ok, buf) ← r;
  if ok : bool then mret buf else encode_error buf (lit "out of memory").

Fixpoint encode_chars (buf : strbuf_t) (s : list Z) : outcome strbuf_t :=
  match s with
  | [] => mret buf
  | c :: s =>
      buf ← match escape c with
            | Some esc => or_fail (strbuf_append_str buf esc)
            | None => or_fail (strbuf_append_char buf c)
            end;
      encode_chars buf s
  end.

Definition encode_string (s : list Z) (buf : strbuf_t) : outcome strbuf_t :=
  buf ← or_fail (strbuf_append_char buf 34);
  buf ← encode_chars buf s;
  or_fail (strbuf_append_char buf 34).

Definition encode_number (v : lua_value) (buf : strbuf_t) : outcome strbuf_t :=
  let val := default 0 (lua_tonumberx v) in
  if d_isnan val || d_isinf val then
    encode_errorf buf (lit "unexpected number value '" ++
      (if d_isnan val then lit "nan" else if negb (d_neg val) then lit "inf" else lit "-inf") ++ lit "'")
  else
    let val := if d_iszero val then 0 else val in
    let tmp := fmt_14g val in
    if 64 <=? Zlen tmp then encode_error buf (lit "number format failed")
    else or_fail (strbuf_append buf tmp).

(** [visited] is the Lua table at [stack_idx]: the tables being encoded. *)
Definition enc : Type := lua_value -> strbuf_t -> gset positive -> outcome (strbuf_t * gset positive).

(** Counts the keys, all of which must be numbers. *)
Fixpoint count_number_keys (ps : list (lua_value * lua_value)) (n : Z) : option Z :=
  match ps with
  | [] => Some n
  | (k, _) :: ps => if is_number k then count_number_keys ps (n + 1) else None
  end.

(** [for (int i = 1; i <= arr_len; i++)], from [i] on, [n] elements left. *)
Fixpoint encode_elements (encode_value : enc) (t : T) (n : nat) (i : Z) (buf : strbuf_t) (visited : gset positive)
  : outcome (strbuf_t * gset positive) :=
  match n with
  | O => mret (buf, visited)
  | S n =>
      buf ← (if 1 <? i then or_fail (strbuf_append_char buf 44) else mret buf);
      '(buf, visited) ← encode_value (t_get t (LInt i)) buf visited;
      encode_elements encode_value t n (i + 1) buf visited
  end.

Fixpoint encode_members (encode_value : enc) (ps : list (lua_value * lua_value)) (first : bool) (buf : strbuf_t)
    (visited : gset positive) : outcome (strbuf_t * gset positive) :=
  match ps with
  | [] => mret (buf, visited)
  | (k, v) :: ps =>
      match k with
      | LStr key =>
          buf ← (if first then mret buf else or_fail (strbuf_append_char buf 44));
          buf ← encode_string key buf;
          buf ← or_fail (strbuf_append_char buf 58);
          '(buf, visited) ← encode_value v buf visited;
          encode_members encode_value ps false buf visited
      | _ => encode_error buf (lit "invalid table: mixed or invalid key types")
      end
  end.

Definition encode_table (encode_value : enc) (a : positive) (buf : strbuf_t) (visited : gset positive)
  : outcome (strbuf_t * gset positive) :=
  if decide (a ∈ visited) then encode_error buf (lit "circular reference")
  else with_table st a (fun o =>
    let visited := {[a]} ∪ visited in
    let is_arr_mt := mt_is_array st o in
    let is_obj_mt := mt_is_object st o in
    let has_index_1 := negb (lua_isnil (t_get (tab o) (LInt 1))) in
    let empty := table_is_empty o in
    '(buf, visited) ←
      (if has_index_1 || is_arr_mt || (negb is_obj_mt && empty) then
         if negb is_arr_mt && negb is_obj_mt && empty then
           encode_errorf buf (lit "ambiguous empty table at " ++ caller_site st ++
             lit ": use json.array() for [] or json.object() for {}")
         else
           match count_number_keys (t_pairs (tab o)) 0 with
           | None => encode_error buf (lit "invalid table: mixed or invalid key types")
           | Some n =>
               let arr_len := s32 (t_len (tab o)) in
               if negb (n =? arr_len) then encode_error buf (lit "invalid table: sparse array")
               else
                 buf ← or_fail (strbuf_append_char buf 91);
                 '(buf, visited) ← encode_elements encode_value (tab o) (Z.to_nat arr_len) 1 buf visited;
                 buf ← or_fail (strbuf_append_char buf 93);
                 mret (buf, visited)
           end
       else
         buf ← or_fail (strbuf_append_char buf 123);
         '(buf, visited) ← encode_members encode_value (t_pairs (tab o)) true buf visited;
         buf ← or_fail (strbuf_append_char buf 125);
         mret (buf, visited));
    mret (buf, visited ∖ {[a]})).

Fixpoint encode_value (fuel : nat) (v : lua_value) (buf : strbuf_t) (visited : gset positive)
  : outcome (strbuf_t * gset positive) :=
  match fuel with
  | O => UB
  | S fuel =>
      if decide (v = push_null_sentinel st) then buf ← or_fail (strbuf_append_str buf (lit "null")); mret (buf, visited)
      else
        match v with
        | LNil => buf ← or_fail (strbuf_append_str buf (lit "null")); mret (buf, visited)
        | LBool b => buf ← or_fail (strbuf_append_str buf (if b then lit "true" else lit "false")); mret (buf, visited)
        | LInt _ | LFlt _ => buf ← encode_number v buf; mret (buf, visited)
        | LStr s => buf ← encode_string s buf; mret (buf, visited)
        | LTable a => encode_table (encode_value fuel) a buf visited
        | _ => encode_errorf buf (lit "unexpected type '" ++ lua_typename v ++ lit "'")
        end
  end.

(** Nesting cannot be deeper than there are tables. *)
Definition encode_fuel : nat := S (S (size (heap st))).

Definition json_encode (args : list lua_value) : outcome (list lua_value) :=
  buf ← strbuf_init;
  match sb_data buf with
  | None => json_error (lit "out of memory")
  | Some _ =>
      '(buf, _) ← encode_value encode_fuel (arg args 1) buf ∅;
      data ← mem_load (sb_data buf) 0 (sb_len buf);
      mret [LStr data]
  end.
End Encode.

(** ** JSON trees and their text *)

#[warnings="-register-all"]
Inductive json : Type :=
  | JNull
  | JBool (b : bool)
  | JNum (d : Z)
  | JStr (s : list Z)
  | JArr (l : list json)
  | JObj (l : list (list Z * json)).

Definition print_char (c : Z) : list Z := default [c] (escape c).
Definition print_string (s : list Z) : list Z := [34] ++ concat (map print_char s) ++ [34].
Definition print_num (d : Z) : list Z := fmt_14g (if d_iszero d then 0 else d).

(** [l] with commas between. *)
Fixpoint commas (l : list (list Z)) : list Z :=
  match l with
  | [] => []
  | x :: l => x ++ match l with [] => [] | _ => 44 :: commas l end
  end.

Fixpoint print (t : json) : list Z :=
  match t with
  | JNull => lit "null"
  | JBool b => if b then lit "true" else lit "false"
  | JNum d => print_num d
  | JStr s => print_string s
  | JArr l => [91] ++ commas (map print l) ++ [93]
  | JObj l => [123] ++ commas (map (fun p => print_string p.1 ++ [58] ++ print p.2) l) ++ [125]
  end.
Definition print_member (p : list Z * json) : list Z := print_string p.1 ++ [58] ++ print p.2.

(** The tree a Lua value stands for.  A table is an array when it carries the
    array mark or has an element 1, and then all its keys must be numbers, as
    many as [lua_rawlen] says; it is an object when it has no element 1, all its
    keys are strings, and it is not both unmarked and empty. *)
Section Shows.
Context {T : Type} `{LuaTable T} `{LuaAPI}.
Context (st : lua_state T).

Definition array_branch (o : tobj T) : bool :=
  negb (lua_isnil (t_get (tab o) (LInt 1))) || mt_is_array st o ||
  (negb (mt_is_object st o) && table_is_empty o).
Definition unmarked_empty (o : tobj T) : bool :=
  negb (mt_is_array st o) && negb (mt_is_object st o) && table_is_empty o.

Inductive shows : lua_value -> json -> Prop :=
  | shows_sentinel : shows (push_null_sentinel st) JNull
  | shows_nil : shows LNil JNull
  | shows_bool b : LBool b <> push_null_sentinel st -> shows (LBool b) (JBool b)
  | shows_num v :
      v <> push_null_sentinel st -> is_number v = true ->
      d_isnan (default 0 (lua_tonumberx v)) = false -> d_isinf (default 0 (lua_tonumberx v)) = false ->
      shows v (JNum (default 0 (lua_tonumberx v)))
  | shows_str s : LStr s <> push_null_sentinel st -> shows (LStr s) (JStr s)
  | shows_array a o l :
      LTable a <> push_null_sentinel st -> heap st !! a = Some o ->
      array_branch o = true -> unmarked_empty o = false ->
      count_number_keys (t_pairs (tab o)) 0 = Some (s32 (t_len (tab o))) ->
      Zlen l = s32 (t_len (tab o)) ->
      shows_elements (tab o) 1 l ->
      shows (LTable a) (JArr l)
  | shows_object a o l :
      LTable a <> push_null_sentinel st -> heap st !! a = Some o ->
      array_branch o = false -> shows_members (t_pairs (tab o)) l -> shows (LTable a) (JObj l)
with shows_elements : T -> Z -> list json -> Prop :=
  | shows_elements_nil t i : shows_elements t i []
  | shows_elements_cons t i x l :
      shows (t_get t (LInt i)) x -> shows_elements t (i + 1) l -> shows_elements t i (x :: l)
with shows_members : list (lua_value * lua_value) -> list (list Z * json) -> Prop :=
  | shows_members_nil : shows_members [] []
  | shows_members_cons k v x ps l :
      shows v x -> shows_members ps l -> shows_members ((LStr k, v) :: ps) ((k, x) :: l).
End Shows.

(** ** The string buffer *)

(** [b] holds exactly [s]. *)
Record holds (b : strbuf_t) (s : list Z) : Prop := {
  holds_len : sb_len b = Zlen s;
  holds_cap : 0 <= Zlen s < sb_cap b;
  holds_max : sb_cap b < 2 ^ 63;
  holds_data : exists blk, sb_data b = Some blk /\ Zlen blk = sb_cap b /\ ztake (Zlen s) blk = s
}.

Lemma reserve_loop_some fuel : forall want cap n,
  0 < cap -> reserve_loop fuel want cap = Some n -> want <= n /\ cap <= n /\ n <= Z.max cap (2 * want).
Proof.
  induction fuel as [|fuel IH]; intros want cap n Hc E; [done|]. cbn [reserve_loop] in E.
  destruct (Z.ltb_spec cap want); [|injection E as <-; lia].
  destruct (Z.ltb_spec (SIZE_MAX / 2) cap) as [|Hle]; [done|]. change (SIZE_MAX / 2) with (2 ^ 63 - 1) in Hle.
  rewrite u64_small in E by lia. apply IH in E; lia.
Qed.

Lemma reserve_loop_total fuel : forall want cap,
  0 < cap -> want <= 2 ^ 62 -> 2 * want <= cap * 2 ^ Z.of_nat fuel -> (0 < fuel)%nat ->
  exists n, reserve_loop fuel want cap = Some n.
Proof.
  induction fuel as [|fuel IH]; intros want cap Hc Hw Hf Hpos; [lia|]. cbn [reserve_loop].
  destruct (Z.ltb_spec cap want); [|eauto].
  destruct (Z.ltb_spec (SIZE_MAX / 2) cap) as [Hlt|_]; [change (SIZE_MAX / 2) with (2 ^ 63 - 1) in Hlt; lia|].
  rewrite u64_small by lia. rewrite Nat2Z.inj_succ, Z.pow_succ_r in Hf by lia.
  destruct fuel as [|fuel]; [change (2 ^ Z.of_nat 0) with 1 in Hf; lia|]. apply IH; [lia|lia|by rewrite <- Z.mul_assoc|lia].
Qed.

Section StrbufSpec.
Context `{Allocator}.

Lemma strbuf_init_spec :
  exists b, strbuf_init = Ret b /\ (sb_data b = None \/ holds b []) /\ (malloc 256 <> None -> holds b []).
Proof.
  unfold strbuf_init. destruct (malloc 256) as [blk|] eqn:E; [|eexists; split; [done|]; split; [by left|done]].
  pose proof (malloc_len 256 blk ltac:(lia) E) as Hl. rewrite mem_store_in by (zlen; lia). cbn.
  assert (holds (mk_strbuf (Some (ztake 0 blk ++ [0] ++ zdrop (0 + Zlen [0]) blk)) 0 256) []); [|eauto].
  constructor; cbn -[ztake zdrop app]; try (zlen; lia). eexists. split; [done|]. split; [|done].
  rewrite !Zlen_app, Zlen_zdrop, ztake_0 by (zlen; lia). zlen. lia.
Qed.

(** The block a growing reserve returns keeps what was written. *)
Lemma reserve_spec b s need :
  holds b s -> 0 <= need <= 2 ^ 32 ->
  exists ok b', strbuf_reserve b need = (ok, b') /\
    (if (ok : bool) then holds b' s /\ Zlen s + need < sb_cap b' else b' = b) /\
    (forall M, mem_upto M -> 2 * (Zlen s + need) + 256 <= M -> M < 2 ^ 62 -> ok = true).
Proof.
  intros [Hl Hc Hm (blk & Hd & Hb & Ht)] Hn. unfold strbuf_reserve. rewrite Hl, u64_small by lia.
  destruct (Z.leb_spec (Zlen s + need + 1) (sb_cap b)) as [Hfit|Hgrow].
  { eexists true, _. split; [done|]. split; [|done]. split; [|lia]. by constructor; eauto. }
  unfold c_true. destruct (Z.eqb_spec (sb_cap b) 0); [lia|]. cbn [negb].
  destruct (reserve_loop 65 (Zlen s + need + 1) (sb_cap b)) as [ncap|] eqn:E.
  2:{ eexists false, _. split; [done|]. split; [done|]. intros M HM HM1 HM2.
      destruct (reserve_loop_total 65 (Zlen s + need + 1) (sb_cap b)) as [m Em]; [lia..|congruence]. }
  apply reserve_loop_some in E as (? & ? & ?); [|lia].
  unfold realloc. rewrite Hd. destruct (malloc ncap) as [fresh|] eqn:Em.
  2:{ eexists false, _. split; [done|]. split; [done|]. intros M HM HM1 HM2.
      exfalso. apply (HM ncap); [lia|done]. }
  pose proof (malloc_len ncap fresh ltac:(lia) Em). pose proof (malloc_max _ _ Em).
  eexists true, _. split; [done|]. split; [|done]. split; [|cbn; lia].
  constructor; cbn; try lia. eexists. split; [done|]. split.
  - rewrite ztake_all, Zlen_app, Zlen_zdrop by lia. lia.
  - rewrite ztake_app_l by (rewrite ztake_all; lia). by rewrite ztake_ztake by lia.
Qed.

(** Appending: memory safe, and either the text grows or the call reports failure. *)
Lemma append_spec b s w :
  holds b s -> Zlen w <= 2 ^ 32 ->
  exists ok b', strbuf_append b w = Ret (ok, b') /\ (if (ok : bool) then holds b' (s ++ w) else b' = b) /\
    (forall M, mem_upto M -> 2 * (Zlen s + Zlen w) + 256 <= M -> M < 2 ^ 62 -> ok = true).
Proof.
  intros Hh Hw. pose proof (Zlen_nonneg w). pose proof Hh as [_ _ _ (blk0 & Hd0 & _)].
  unfold strbuf_append. rewrite Hd0.
  destruct (reserve_spec b s (Zlen w) Hh ltac:(lia)) as (ok & b1 & -> & H1 & HM). destruct ok; cbn [negb].
  2:{ eexists false, _. split; [done|]. by split. }
  destruct H1 as [[Hl Hc Hmx (blk & Hd & Hb & Ht)] Hfit]. rewrite Hl, Hd.
  rewrite mem_store_in by lia. cbn [mbind outcome_bind]. rewrite u64_small by lia.
  set (blk1 := ztake (Zlen s) blk ++ w ++ zdrop (Zlen s + Zlen w) blk).
  assert (Hl1 : Zlen blk1 = sb_cap b1).
  { unfold blk1. rewrite !Zlen_app, Zlen_ztake, Zlen_zdrop by lia. lia. }
  assert (Zlen [0] = 1) by done.
  rewrite mem_store_in by lia. eexists true, _. split; [done|]. split; [|done].
  constructor; cbn; rewrite ?Zlen_app; try lia. eexists. split; [done|].
  change (Zlen [0]) with 1 in *. rewrite !Zlen_app, Zlen_cons, Zlen_ztake, Zlen_zdrop by lia. split; [lia|].
  rewrite ztake_app_l by (rewrite Zlen_ztake; lia). rewrite ztake_ztake by lia.
  unfold blk1. rewrite Ht, app_assoc. apply ztake_app_exact. by rewrite Zlen_app.
Qed.
End StrbufSpec.

(** ** Writing is memory safe, and only the lack of memory stops it *)

Section Writes.
Context `{Allocator}.

(** No allocator that serves the growth for [n] bytes is this one. *)
Definition short_of_memory (n : Z) : Prop :=
  forall M, mem_upto M -> 2 * n + 256 <= M -> M < 2 ^ 62 -> False.

Lemma short_le n m : n <= m -> short_of_memory n -> short_of_memory m.
Proof. intros Hle Hs M HM Hm. apply (Hs M HM). lia. Qed.

(** [m] appends [w] to a buffer holding [s], or runs out of memory. *)
Definition writes (m : outcome strbuf_t) (s w : list Z) : Prop :=
  match m with
  | Ret b => holds b (s ++ w)
  | Raise _ => short_of_memory (Zlen s + Zlen w)
  | UB => False
  end.

Lemma writes_append b s w : holds b s -> Zlen w <= 2 ^ 32 -> writes (or_fail (strbuf_append b w)) s w.
Proof.
  intros Hh Hw. destruct (append_spec b s w Hh Hw) as (ok & b' & E & Hb & HM). unfold or_fail. rewrite E.
  destruct ok; cbn; [done|]. intros M H1 H2 H3. by specialize (HM M H1 H2 H3).
Qed.

Lemma writes_str b s w :
  holds b s -> Forall (fun c => c <> 0) w -> Zlen w <= 2 ^ 32 -> writes (or_fail (strbuf_append_str b w)) s w.
Proof. intros Hh Hc Hw. unfold strbuf_append_str. rewrite cstr_id by done. by apply writes_append. Qed.

Lemma writes_char b s c : holds b s -> is_byte c -> writes (or_fail (strbuf_append_char b c)) s [c].
Proof. intros Hh Hc. unfold strbuf_append_char. rewrite u8_small by done. by apply writes_append. Qed.

Lemma writes_bind m k s w1 w2 :
  writes m s w1 -> (forall b, holds b (s ++ w1) -> writes (k b) (s ++ w1) w2) -> writes (m ≫= k) s (w1 ++ w2).
Proof.
  intros Hm Hk. destruct m as [b|e|]; cbn in *; [|eapply short_le; [|exact Hm]; zlen; pose proof (Zlen_nonneg w2); lia|done].
  specialize (Hk b Hm). destruct (k b); cbn in *; [by rewrite app_assoc|by zlen; rewrite Z.add_assoc|done].
Qed.

Lemma writes_nil b s : holds b s -> writes (mret b) s [].
Proof. cbn. by rewrite app_nil_r. Qed.

Lemma escape_ok c esc :
  is_byte c -> escape c = Some esc -> Forall (fun c => c <> 0) esc /\ Zlen esc <= 6.
Proof.
  unfold is_byte, escape. intros Hc E.
  repeat case_match; simplify_eq; (split; [|unfold Zlen; cbn; lia]);
    repeat (apply Forall_cons; split; [done|]); try apply Forall_nil; try done.
  assert (Hh : forall n, 0 <= n -> hexdigit n <> 0) by (intros n Hn; unfold hexdigit; case_match; lia).
  apply Forall_cons; split; [apply Hh; dmlia|]. apply Forall_cons; split; [apply Hh; dmlia|]. by apply Forall_nil.
Qed.

Lemma encode_chars_writes l : forall b s,
  bytes_ok l -> holds b s -> writes (encode_chars b l) s (concat (map print_char l)).
Proof.
  induction l as [|c l IH]; intros b s Hok Hh; cbn [encode_chars map concat]; [by apply writes_nil|].
  apply Forall_cons in Hok as [Hc Hok]. apply writes_bind; [|intros; by apply IH]. unfold print_char.
  destruct (escape c) as [esc|] eqn:E; cbn [from_option id]; [|by apply writes_char].
  destruct (escape_ok _ _ Hc E). apply writes_str; [done|done|cbn; lia].
Qed.

Lemma encode_string_writes b s l : bytes_ok l -> holds b s -> writes (encode_string l b) s (print_string l).
Proof.
  intros Hok Hh. unfold encode_string, print_string. apply writes_bind; [by apply writes_char|].
  intros b1 Hb1. apply writes_bind; [by apply encode_chars_writes|]. intros b2 Hb2. by apply writes_char.
Qed.

Lemma encode_number_writes `{LuaAPI} v b s :
  let d := default 0 (lua_tonumberx v) in
  d_isnan d = false -> d_isinf d = false -> holds b s -> writes (encode_number v b) s (print_num d).
Proof.
  intros d Hnan Hinf Hh. unfold encode_number. fold d. rewrite Hnan, Hinf. cbn [orb]. fold (print_num d).
  assert (Zlen (print_num d) <= 41).
  { unfold print_num. destruct (d_iszero d); [done|]. by apply fmt_14g_text. }
  unfold print_num in *. destruct (Z.leb_spec 64 (Zlen (fmt_14g (if d_iszero d then 0 else d)))); [lia|].
  apply writes_append; [done|lia].
Qed.
End Writes.

(** ** [encode_value] against [shows] *)

Scheme shows_ind2 := Minimality for shows Sort Prop
  with shows_elements_ind2 := Minimality for shows_elements Sort Prop
  with shows_members_ind2 := Minimality for shows_members Sort Prop.
Combined Scheme shows_mutind from shows_ind2, shows_elements_ind2, shows_members_ind2.

Fixpoint json_size (t : json) : nat :=
  match t with
  | JArr l => S (sum_list_with json_size l)
  | JObj l => S (sum_list_with (fun p => json_size p.2) l)
  | _ => 1
  end.

(** The text of list items after the first, each with its comma. *)
Definition commas_from (first : bool) (l : list (list Z)) : list Z :=
  if first then commas l else concat (map (cons 44) l).
Lemma commas_from_cons first x l :
  commas_from first (x :: l) = (if first then [] else [44]) ++ x ++ commas_from false l.
Proof.
  unfold commas_from. destruct first; [|done]. cbn [app]. clear. revert x. induction l as [|y l IH]; intros x; [done|].
  cbn [commas]. cbn [commas] in IH. rewrite IH. done.
Qed.

#[local] Opaque push_null_sentinel.

Section Refines.
Context {T : Type} `{LuaTable T} `{Allocator} `{LuaAPI}.
Context (st : lua_state T).

(** Lua's own invariants: references designate tables, strings hold bytes. *)
Definition val_ok (v : lua_value) : Prop :=
  match v with
  | LTable a => is_Some (heap st !! a)
  | LStr s => bytes_ok s
  | _ => True
  end.
Definition closed : Prop :=
  forall a o, heap st !! a = Some o ->
    (forall k, plain_key k -> val_ok (t_get (tab o) k)) /\
    (forall k v, (k, v) ∈ t_pairs (tab o) -> val_ok k /\ val_ok v).

Lemma shows_inj_all :
  (forall v t, shows st v t -> forall t', shows st v t' -> t = t') /\
  (forall tb i l, shows_elements st tb i l -> forall l', Zlen l' = Zlen l -> shows_elements st tb i l' -> l = l') /\
  (forall ps l, shows_members st ps l -> forall l', shows_members st ps l' -> l = l').
Proof.
  apply shows_mutind.
  - intros t' Hs. by inversion Hs; subst.
  - intros t' Hs. by inversion Hs; subst.
  - intros b Hb t' Hs. by inversion Hs; subst.
  - intros v Hv Hn _ _ t' Hs. by inversion Hs; subst.
  - intros s Hs t' Hs'. by inversion Hs'; subst.
  - intros a o l Ha Ho Hb _ _ Hl _ IH t' Hs. inversion Hs; subst; [done|done| |congruence].
    f_equal. apply IH; congruence.
  - intros a o l Ha Ho Hb _ IH t' Hs. inversion Hs; subst; [done|done|congruence|].
    f_equal. apply IH; congruence.
  - intros tb i l' Hl _. symmetry. by apply Zlen_zero.
  - intros tb i x l _ IHx _ IHl l' Hl Hs. inversion Hs; subst; [zlen; pose proof (Zlen_nonneg l); lia|].
    f_equal; [by apply IHx|]. apply IHl; [zlen; lia|done].
  - intros l' Hs. by inversion Hs.
  - intros k v x ps l _ IHx _ IHl l' Hs. inversion Hs; subst. f_equal; [f_equal|]; auto.
Qed.
Definition shows_inj v t t' (Hs : shows st v t) : shows st v t' -> t = t' := proj1 shows_inj_all v t Hs t'.

Lemma count_nonneg ps n m : count_number_keys ps n = Some m -> n <= m.
Proof.
  revert n. induction ps as [|[k v] ps IH]; intros n E; cbn in E; [injection E; lia|].
  destruct (is_number k); [|done]. apply IH in E. lia.
Qed.

(** A specification of a text: the text, and the size of what it describes. *)
Definition text : Type := list Z -> nat -> Prop.
Definition tok (w : list Z) : text := fun w' n => w' = w /\ n = 0%nat.
Definition tseq (P Q : text) : text :=
  fun w n => exists w1 n1 w2 n2, w = w1 ++ w2 /\ n = (n1 + n2)%nat /\ P w1 n1 /\ Q w2 n2.
Definition functional (P : text) : Prop := forall w n w' n', P w n -> P w' n' -> w = w'.

(** The tables being encoded are larger than the value at hand. *)
Definition above (vis : gset positive) (n : nat) : Prop :=
  forall a t, a ∈ vis -> shows st (LTable a) t -> (n < json_size t)%nat.

(** [m] extends a buffer holding [s] by a text of [P] and leaves the visited
    tables alone; an error means that there is no such text or no memory. *)
Definition encodes (m : outcome (strbuf_t * gset positive)) (s : list Z) (vis : gset positive) (P : text) : Prop :=
  match m with
  | Ret (b, vis') => vis' = vis /\ exists w n, P w n /\ holds b (s ++ w)
  | Raise _ => forall w n, P w n -> above vis n -> short_of_memory (Zlen s + Zlen w)
  | UB => False
  end.

Lemma above_le vis n n' : (n' <= n)%nat -> above vis n -> above vis n'.
Proof. intros Hle Ha a t Hin Hs. specialize (Ha a t Hin Hs). lia. Qed.

Lemma encodes_ret b s vis : holds b s -> encodes (mret (b, vis)) s vis (tok []).
Proof. intros Hh. split; [done|]. exists [], 0%nat. by rewrite app_nil_r. Qed.

Lemma encodes_writes m k s w vis Q :
  writes m s w -> (forall b, holds b (s ++ w) -> encodes (k b) (s ++ w) vis Q) ->
  encodes (m ≫= k) s vis (tseq (tok w) Q).
Proof.
  intros Hm Hk. destruct m as [b|e|]; cbn in *; [|intros w0 n (w1 & n1 & w2 & n2 & -> & _ & [-> _] & _) _|done].
  - specialize (Hk b Hm). unfold encodes in *. destruct (k b) as [[b' vis']|e|]; [| |done].
    + destruct Hk as [-> (w2 & n2 & HQ & Hh)]. split; [done|]. exists (w ++ w2), n2. rewrite app_assoc.
      split; [|done]. by exists w, 0%nat, w2, n2.
    + intros w0 n (w1 & n1 & w2 & n2 & -> & -> & [-> ->] & HQ) Ha. specialize (Hk w2 n2 HQ Ha).
      zlen. by rewrite Z.add_assoc.
  - eapply short_le; [|exact Hm]. zlen. pose proof (Zlen_nonneg w2). lia.
Qed.

Lemma encodes_bind m k s vis P Q :
  encodes m s vis P -> functional P ->
  (forall b w n, P w n -> holds b (s ++ w) -> encodes (k (b, vis)) (s ++ w) vis Q) ->
  encodes (m ≫= k) s vis (tseq P Q).
Proof.
  intros Hm Hf Hk. destruct m as [[b vis1]|e|]; cbn in *; [| |done].
  - destruct Hm as [-> (w1 & n1 & HP & Hh)]. specialize (Hk b w1 n1 HP Hh). unfold encodes in *.
    destruct (k (b, vis)) as [[b' vis']|e|]; [| |done].
    + destruct Hk as [-> (w2 & n2 & HQ & Hh2)]. split; [done|]. exists (w1 ++ w2), (n1 + n2)%nat. rewrite app_assoc.
      split; [|done]. by exists w1, n1, w2, n2.
    + intros w n (w1' & n1' & w2 & n2 & -> & -> & HP' & HQ) Ha. rewrite (Hf _ _ _ _ HP' HP).
      specialize (Hk w2 n2 HQ (above_le _ _ _ (Nat.le_add_l _ _) Ha)). zlen. by rewrite Z.add_assoc.
  - intros w n (w1 & n1 & w2 & n2 & -> & -> & HP & HQ) Ha.
    specialize (Hm w1 n1 HP (above_le _ _ _ (Nat.le_add_r _ _) Ha)). eapply short_le; [|exact Hm].
    zlen. pose proof (Zlen_nonneg w2). lia.
Qed.

Lemma encodes_iff m s vis (P R : text) :
  (forall w n, P w n -> exists n', R w n') -> (forall w n, R w n -> exists n', (n' <= n)%nat /\ P w n') ->
  encodes m s vis P -> encodes m s vis R.
Proof.
  intros HPR HRP. unfold encodes. destruct m as [[b vis']|e|]; [| |done].
  - intros [-> (w & n & HP & Hh)]. split; [done|]. destruct (HPR w n HP) as [n' HR]. eauto.
  - intros Hm w n HR Ha. destruct (HRP w n HR) as (n' & Hle & HP). apply (Hm w n' HP). by eapply above_le.
Qed.

Lemma encodes_raise s vis P e : (forall w n, P w n -> False) -> encodes (Raise e) s vis P.
Proof. intros HP w n Hw. by apply HP in Hw. Qed.

(** The texts of a value, of array elements and of object members. *)
Definition val_text (v : lua_value) : text := fun w n => exists t, shows st v t /\ w = print t /\ n = json_size t.
Definition elements_text (tb : T) (i : Z) (k : nat) (first : bool) : text :=
  fun w n => exists l, shows_elements st tb i l /\ length l = k /\ w = commas_from first (map print l) /\
    n = sum_list_with json_size l.
Definition members_text (ps : list (lua_value * lua_value)) (first : bool) : text :=
  fun w n => exists l, shows_members st ps l /\ w = commas_from first (map print_member l) /\
    n = sum_list_with (fun p => json_size p.2) l.

Lemma val_text_functional v : functional (val_text v).
Proof. intros w n w' n' (t & Hs & -> & _) (t' & Hs' & -> & _). by rewrite (shows_inj _ _ _ Hs Hs'). Qed.

(** What the recursive calls are assumed to do. *)
Definition enc_ok (fuel : nat) (f : enc) : Prop :=
  forall v b s vis, val_ok v -> vis ⊆ dom (heap st) -> (size (dom (heap st)) < fuel + size vis)%nat -> holds b s ->
    encodes (f v b vis) s vis (val_text v).

Section Lists.
Context (fuel : nat) (f : enc) (Hf : enc_ok fuel f) (vis : gset positive).
Context (Hsub : vis ⊆ dom (heap st)) (Hfuel : (size (dom (heap st)) < fuel + size vis)%nat).

Lemma elements_encodes tb k : forall i b s,
  (forall j, plain_key j -> val_ok (t_get tb j)) -> 1 <= i -> holds b s ->
  encodes (encode_elements f tb k i b vis) s vis (elements_text tb i k (i =? 1)).
Proof.
  induction k as [|k IH]; intros i b s Hok Hi Hh; cbn [encode_elements].
  - eapply encodes_iff; [| |by apply encodes_ret].
    + intros w n [-> ->]. exists 0%nat, []. destruct (i =? 1); (split; [constructor|done]).
    + intros w n (l & _ & Hl & -> & _). exists 0%nat. destruct l; [|done]. destruct (i =? 1); split; (lia || done).
  - eapply (encodes_iff _ _ _ (tseq (tok (if i =? 1 then [] else [44])) (tseq (val_text (t_get tb (LInt i))) (elements_text tb (i + 1) k false)))).
    + intros w n (w0 & n0 & w1 & n1 & -> & _ & [-> _] & w2 & n2 & w3 & n3 & -> & _ & (x & Hx & -> & _) & l & Hl & Hk & -> & _).
      eexists _, (x :: l). split; [by constructor|]. cbn [length map]. rewrite Hk, commas_from_cons. done.
    + intros w n (l & Hl & Hk & -> & ->). destruct l as [|x l]; [done|]. injection Hk as Hk. inversion Hl; subst.
      exists (sum_list_with json_size (x :: l)). split; [done|]. cbn [map]. rewrite commas_from_cons.
      eexists _, 0%nat, _, _. split; [reflexivity|]. split; [reflexivity|]. split; [done|].
      eexists _, (json_size x), _, (sum_list_with json_size l). split; [reflexivity|]. split; [done|].
      split; [by exists x|]. by exists l.
    + apply encodes_writes.
      { destruct (Z.ltb_spec 1 i), (Z.eqb_spec i 1); try lia; [by apply writes_char|by apply writes_nil]. }
      intros b1 Hb1. apply encodes_bind; [apply Hf; [by apply Hok|done..]|by apply val_text_functional|].
      intros b2 w2 n2 _ Hb2. assert ((i + 1 =? 1) = false) as E by lia. rewrite <- E. apply IH; [done|lia|done].
Qed.

Lemma print_member_eq k x : print_member (k, x) = print_string k ++ [58] ++ print x.
Proof. done. Qed.

Lemma members_encodes ps : forall first b s,
  (forall k v, (k, v) ∈ ps -> val_ok k /\ val_ok v) -> holds b s ->
  encodes (encode_members f ps first b vis) s vis (members_text ps first).
Proof.
  induction ps as [|[k v] ps IH]; intros first b s Hok Hh; cbn [encode_members].
  - eapply encodes_iff; [| |by apply encodes_ret].
    + intros w n [-> ->]. exists 0%nat, []. destruct first; (split; [constructor|done]).
    + intros w n (l & Hl & -> & _). exists 0%nat. inversion Hl. destruct first; split; (lia || done).
  - destruct (Hok k v ltac:(left)) as [Hk Hv].
    destruct k as [| | | |key| | |]; try (apply encodes_raise; intros ? ? (l & Hl & _); by inversion Hl).
    eapply (encodes_iff _ _ _ (tseq (tok (if first then [] else [44])) (tseq (tok (print_string key)) (tseq (tok [58])
      (tseq (val_text v) (members_text ps false)))))).
    + intros w n (w0 & n0 & w1 & n1 & -> & _ & [-> _] & w2 & n2 & w3 & n3 & -> & _ & [-> _] & w4 & n4 & w5 & n5 & -> & _ & [-> _] &
        w6 & n6 & w7 & n7 & -> & _ & (x & Hx & -> & _) & l & Hl & -> & _).
      eexists _, ((key, x) :: l). split; [by constructor|]. cbn [map]. rewrite commas_from_cons, print_member_eq, <- !app_assoc. done.
    + intros w n (l & Hl & -> & ->). inversion Hl as [|? ? x ? l' Hx Hl']; subst.
      exists (sum_list_with (fun p => json_size p.2) ((key, x) :: l')). split; [done|]. cbn [map]. rewrite commas_from_cons.
      unfold print_member at 1. cbn [fst snd]. rewrite <- !app_assoc.
      do 3 (eexists _, 0%nat, _, _; split; [reflexivity|]; split; [reflexivity|]; split; [done|]).
      eexists _, (json_size x), _, (sum_list_with (fun p => json_size p.2) l'). split; [reflexivity|]. split; [done|].
      split; [by exists x|]. by exists l'.
    + apply encodes_writes. { destruct first; [by apply writes_nil|by apply writes_char]. }
      intros b1 Hb1. apply encodes_writes; [by apply encode_string_writes|].
      intros b2 Hb2. apply encodes_writes; [by apply writes_char|].
      intros b3 Hb3. apply encodes_bind; [by apply Hf|by apply val_text_functional|].
      intros b4 w4 n4 _ Hb4. apply IH; [|done]. intros k' v' Hin. apply Hok. by right.
Qed.
End Lists.

(** Entering a table adds it to the visited ones, leaving removes it. *)
Lemma leave_table a m s vis P :
  a ∉ vis -> encodes m s ({[a]} ∪ vis) P ->
  (forall w n, P w n -> exists n', val_text (LTable a) w n') ->
  (forall w n, val_text (LTable a) w n -> exists n', (n' < n)%nat /\ P w n') ->
  encodes ('(buf, v) ← m; mret (buf, v ∖ {[a]})) s vis (val_text (LTable a)).
Proof.
  intros Ha Hm HPR HRP. destruct m as [[b v]|e|]; cbn in *; [| |done].
  - destruct Hm as [-> (w & n & HP & Hh)]. split; [by rewrite difference_union_distr_l_L, difference_diag_L, union_empty_l_L, difference_disjoint_L by set_solver|]. destruct (HPR w n HP) as [n' ?]. eauto.
  - intros w n HR Hab. destruct (HRP w n HR) as (n' & Hlt & HP). apply (Hm w n' HP).
    intros c t Hc Hs. destruct HR as (t0 & Hs0 & _ & ->). apply elem_of_union in Hc as [->%elem_of_singleton|Hc].
    + by rewrite <- (shows_inj _ _ _ Hs0 Hs).
    + specialize (Hab c t Hc Hs). lia.
Qed.

Lemma lclose (c : Z) b s vis :
  is_byte c -> holds b s ->
  encodes (buf ← or_fail (strbuf_append_char b c); mret (buf, vis)) s vis (tseq (tok [c]) (tok [])).
Proof. intros Hc Hh. apply encodes_writes; [by apply writes_char|]. intros b' Hb'. by apply encodes_ret. Qed.

Lemma elements_text_functional tb i k first : functional (elements_text tb i k first).
Proof.
  intros w n w' n' (l & Hs & Hl & -> & _) (l' & Hs' & Hl' & -> & _).
  rewrite (proj1 (proj2 shows_inj_all) _ _ _ Hs l'); [done| |done]. unfold Zlen. congruence.
Qed.
Lemma members_text_functional ps first : functional (members_text ps first).
Proof.
  intros w n w' n' (l & Hs & -> & _) (l' & Hs' & -> & _). by rewrite (proj2 (proj2 shows_inj_all) _ _ Hs l').
Qed.

Lemma opaque_shows v t :
  shows st v t -> v <> push_null_sentinel st -> match v with LFun _ | LUserdata _ => False | _ => True end.
Proof. intros Hs Hn. destruct Hs; try exact I; [by destruct Hn|by destruct v]. Qed.

(** The two ways a table can stand for a tree. *)
Lemma table_shows a o t :
  heap st !! a = Some o -> LTable a <> push_null_sentinel st -> shows st (LTable a) t ->
  (array_branch st o = true /\ unmarked_empty st o = false /\
   count_number_keys (t_pairs (tab o)) 0 = Some (s32 (t_len (tab o))) /\
   exists l, t = JArr l /\ Zlen l = s32 (t_len (tab o)) /\ shows_elements st (tab o) 1 l) \/
  (array_branch st o = false /\ exists l, t = JObj l /\ shows_members st (t_pairs (tab o)) l).
Proof.
  intros Ho Hn Hs. inversion Hs; subst; try done.
  - left. assert (o0 = o) as -> by congruence. eauto 8.
  - right. assert (o0 = o) as -> by congruence. eauto 8.
Qed.

(** The text of a table between its brackets. *)
Lemma bracketed (P : text) l r w n :
  tseq (tok [l]) (tseq P (tseq (tok [r]) (tok []))) w n <-> exists w', w = [l] ++ w' ++ [r] /\ P w' n.
Proof.
  split.
  - intros (w0 & n0 & w1 & n1 & -> & -> & [-> ->] & w2 & n2 & w3 & n3 & -> & -> & HP & w4 & n4 & w5 & n5 & -> & -> & [-> ->] & -> & ->).
    exists w2. rewrite app_nil_r. cbn [Nat.add]. by rewrite Nat.add_0_r.
  - intros (w' & -> & HP). exists [l], 0%nat, (w' ++ [r]), n. split; [done|]. split; [done|]. split; [done|].
    exists w', n, [r], 0%nat. split; [done|]. split; [lia|]. split; [done|]. by exists [r], 0%nat, [], 0%nat.
Qed.

Section Table.
Context (fuel : nat) (f : enc) (Hf : enc_ok fuel f) (Hcl : closed).
Context (a : positive) (o : tobj T) (Ho : heap st !! a = Some o) (Hnull : LTable a <> push_null_sentinel st).
Context (vis : gset positive) (Hout : a ∉ vis) (Hsub : vis ⊆ dom (heap st)).
Context (Hfuel : (size (dom (heap st)) < S fuel + size vis)%nat).

Lemma enter_fuel :
  {[a]} ∪ vis ⊆ dom (heap st) /\ (size (dom (heap st)) < fuel + size ({[a]} ∪ vis))%nat.
Proof.
  split.
  - apply union_subseteq. split; [|done]. apply singleton_subseteq_l, elem_of_dom. by exists o.
  - rewrite size_union by set_solver. rewrite size_singleton. lia.
Qed.

Lemma array_encodes b s :
  array_branch st o = true -> unmarked_empty st o = false ->
  count_number_keys (t_pairs (tab o)) 0 = Some (s32 (t_len (tab o))) -> holds b s ->
  encodes ('(buf, v) ← (buf ← or_fail (strbuf_append_char b 91);
      '(buf, v) ← encode_elements f (tab o) (Z.to_nat (s32 (t_len (tab o)))) 1 buf ({[a]} ∪ vis);
      buf ← or_fail (strbuf_append_char buf 93); mret (buf, v)); mret (buf, v ∖ {[a]}))
    s vis (val_text (LTable a)).
Proof.
  intros Hbr Hamb Hcnt Hh. destruct enter_fuel as [Hsub' Hfuel']. destruct (Hcl a o Ho) as [Hget _].
  eapply (leave_table _ _ _ _ (tseq (tok [91]) (tseq (elements_text (tab o) 1 (Z.to_nat (s32 (t_len (tab o)))) true)
      (tseq (tok [93]) (tok []))))); [done| | |].
  - apply encodes_writes; [by apply writes_char|]. intros b1 Hb1.
    apply encodes_bind; [by apply (elements_encodes fuel f Hf)|apply elements_text_functional|].
    intros b2 w2 n2 _ Hb2. by apply lclose.
  - intros w n (w' & -> & l & Hl & Hk & -> & _)%bracketed. eexists _, (JArr l). split; [|done].
    apply (shows_array st a o); try done. unfold Zlen. rewrite Hk.
    apply Z2Nat.id. apply count_nonneg in Hcnt; lia.
  - intros w n (t & Hs & -> & ->). destruct (table_shows a o t Ho Hnull Hs) as [(_ & _ & _ & l & -> & Hl & Hel)|(Hbr' & _)]; [|congruence].
    exists (sum_list_with json_size l). split; [cbn; lia|]. apply bracketed. eexists. split; [reflexivity|].
    exists l. split; [done|]. split; [unfold Zlen in Hl; lia|done].
Qed.

Lemma object_encodes b s :
  array_branch st o = false -> holds b s ->
  encodes ('(buf, v) ← (buf ← or_fail (strbuf_append_char b 123);
      '(buf, v) ← encode_members f (t_pairs (tab o)) true buf ({[a]} ∪ vis);
      buf ← or_fail (strbuf_append_char buf 125); mret (buf, v)); mret (buf, v ∖ {[a]}))
    s vis (val_text (LTable a)).
Proof.
  intros Hbr Hh. destruct enter_fuel as [Hsub' Hfuel']. destruct (Hcl a o Ho) as [_ Hpairs].
  eapply (leave_table _ _ _ _ (tseq (tok [123]) (tseq (members_text (t_pairs (tab o)) true) (tseq (tok [125]) (tok [])))));
    [done| | |].
  - apply encodes_writes; [by apply writes_char|]. intros b1 Hb1.
    apply encodes_bind; [by apply (members_encodes fuel f Hf)|apply members_text_functional|].
    intros b2 w2 n2 _ Hb2. by apply lclose.
  - intros w n (w' & -> & l & Hl & -> & _)%bracketed. eexists _, (JObj l). split; [|done]. by apply (shows_object st a o).
  - intros w n (t & Hs & -> & ->). destruct (table_shows a o t Ho Hnull Hs) as [(Hbr' & _)|(_ & l & -> & Hl)]; [congruence|].
    exists (sum_list_with (fun p => json_size p.2) l). split; [cbn; lia|]. apply bracketed. eexists. split; [reflexivity|].
    by exists l.
Qed.

Lemma encode_table_encodes b s : holds b s -> encodes (encode_table st f a b vis) s vis (val_text (LTable a)).
Proof.
  intros Hh. unfold encode_table. destruct (decide (a ∈ vis)) as [|_]; [done|].
  unfold with_table. rewrite Ho. cbv zeta. fold (array_branch st o). fold (unmarked_empty st o).
  assert (Hbad : array_branch st o = true ->
    (unmarked_empty st o = true \/ count_number_keys (t_pairs (tab o)) 0 <> Some (s32 (t_len (tab o)))) ->
    forall w n, val_text (LTable a) w n -> False).
  { intros Hbr Hc w n (t & Hs & _). destruct (table_shows a o t Ho Hnull Hs) as [(_ & ? & ? & _)|(? & _)];
      destruct Hc; congruence. }
  destruct (array_branch st o) eqn:Hbr; [|by apply object_encodes].
  destruct (unmarked_empty st o) eqn:Hamb; [apply encodes_raise, Hbad; auto|].
  destruct (count_number_keys (t_pairs (tab o)) 0) as [n|] eqn:Hcnt; [|apply encodes_raise, Hbad; auto].
  destruct (Z.eqb_spec n (s32 (t_len (tab o)))) as [->|Hne]; cbn [negb]; [by apply array_encodes|].
  apply encodes_raise, Hbad; [done|]. right. congruence.
Qed.
End Table.

(** [encode_value] computes the text of the tree its argument stands for, visits
    no table twice at once, never goes out of bounds nor out of fuel, and fails
    only on a value that stands for no tree, or for lack of memory. *)
Lemma encode_value_ok fuel : closed -> enc_ok fuel (encode_value st fuel).
Proof.
  intros Hcl. induction fuel as [|fuel IH]; intros v b s vis Hv Hsub Hfuel Hh.
  { apply subseteq_size in Hsub. lia. }
  cbn [encode_value].
  assert (Hone : forall m t, shows st v t -> (json_size t = 1)%nat -> writes m s (print t) ->
    encodes (buf ← m; mret (buf, vis)) s vis (val_text v)).
  { intros m t Hs Hsz Hw. eapply (encodes_iff _ _ _ (tseq (tok (print t)) (tok []))).
    - intros w n (w1 & n1 & w2 & n2 & -> & _ & [-> _] & -> & _). rewrite app_nil_r. by exists (json_size t), t.
    - intros w n (t' & Hs' & -> & ->). rewrite <- (shows_inj _ _ _ Hs Hs'). exists 0%nat. split; [lia|].
      exists (print t), 0%nat, [], 0%nat. by rewrite app_nil_r.
    - apply encodes_writes; [done|]. intros b' Hb'. by apply encodes_ret. }
  destruct (decide (v = push_null_sentinel st)) as [->|Hnull].
  { apply (Hone _ JNull); [apply shows_sentinel|done|]. apply writes_str; [done|by forall_done|done]. }
  assert (Hnum : is_number v = true -> encodes (buf ← encode_number v b; mret (buf, vis)) s vis (val_text v)).
  { intros Hn. destruct (d_isnan (default 0 (lua_tonumberx v)) || d_isinf (default 0 (lua_tonumberx v))) eqn:Hfin.
    - unfold encode_number. rewrite Hfin. apply encodes_raise. intros w n (t & Hs & _).
      apply orb_true_iff in Hfin. inversion Hs; subst; try done; destruct Hfin; congruence.
    - apply orb_false_iff in Hfin as [Hnan Hinf].
      apply (Hone _ (JNum (default 0 (lua_tonumberx v)))); [by apply shows_num|done|]. by apply encode_number_writes. }
  destruct v as [|bb|i|d|str|a|a|a].
  - apply (Hone _ JNull); [apply shows_nil|done|]. apply writes_str; [done|by forall_done|done].
  - apply (Hone _ (JBool bb)); [by apply shows_bool|done|]. destruct bb; (apply writes_str; [done|by forall_done|done]).
  - by apply Hnum.
  - by apply Hnum.
  - apply (Hone _ (JStr str)); [by apply shows_str|done|]. by apply encode_string_writes.
  - destruct Hv as [o Ho]. destruct (decide (a ∈ vis)) as [Hin|Hout]; [|exact (encode_table_encodes fuel _ IH Hcl a o Ho Hnull vis Hout Hsub Hfuel b s Hh)].
    unfold encode_table. destruct (decide (a ∈ vis)); [|contradiction].
    intros w n (t & Hs & -> & ->) Hab. specialize (Hab a t Hin Hs). lia.
  - apply encodes_raise. intros w n (t & Hs & _). by apply (opaque_shows _ _ Hs Hnull).
  - apply encodes_raise. intros w n (t & Hs & _). by apply (opaque_shows _ _ Hs Hnull).
Qed.
End Refines.

(** ** [json.encode] *)

Section Top.
Context {T : Type} `{LuaTable T} `{Allocator} `{LuaAPI}.
Context (st : lua_state T).

Lemma size_dom_heap : size (dom (heap st)) = size (heap st).
Proof. apply size_dom. Qed.

Lemma load_holds b s : holds b s -> mem_load (sb_data b) 0 (sb_len b) = Ret s.
Proof.
  intros [Hl Hc _ (blk & -> & Hb & Ht)]. rewrite Hl. pose proof (Zlen_nonneg s).
  rewrite mem_load_in by lia. by rewrite zdrop_0, Ht.
Qed.

Lemma encode_spec v :
  closed st -> val_ok st v ->
  (exists t, shows st v t /\ json_encode st [v] = Ret [LStr (print t)]) \/
  (exists e, json_encode st [v] = Raise e /\ forall t, shows st v t -> short_of_memory (Zlen (print t))).
Proof.
  intros Hcl Hv. unfold json_encode. destruct strbuf_init_spec as (b & -> & Hb & Hmem). cbn [mbind outcome_bind].
  destruct (sb_data b) as [blk|] eqn:Hd.
  2:{ right. eexists. split; [reflexivity|]. intros t _ M HM HM1 HM2. pose proof (Zlen_nonneg (print t)).
      destruct Hmem as [_ _ _ (blk & Hblk & _)]; [apply HM; lia|congruence]. }
  destruct Hb as [|Hb]; [done|].
  pose proof (encode_value_ok st (encode_fuel st) Hcl v b [] ∅ Hv) as He. unfold encode_fuel in *.
  rewrite size_dom_heap, size_empty in He. specialize (He (empty_subseteq _) ltac:(lia) Hb).
  unfold arg. cbn [nth Nat.sub]. destruct (encode_value st _ v b ∅) as [[b' vis]|e|]; cbn [mbind outcome_bind]; [| |done].
  - destruct He as [_ (w & n & (t & Hs & -> & _) & Hh)]. left. exists t. split; [done|]. cbn [app] in Hh.
    by rewrite (load_holds _ _ Hh).
  - right. exists e. split; [done|]. intros t Hs. apply (He (print t) (json_size t)); [by exists t|].
    intros a t' Ha. by apply not_elem_of_empty in Ha.
Qed.

(** C4: [json.encode] is correct, memory safe and terminating: on any value of a
    well-formed Lua state and whatever the allocator does, either the value
    stands for a (unique, finite) JSON tree and the result is that tree's text,
    or an error is raised, and then the value stands for no tree or memory has
    run out.  It never reads or writes outside its buffer and never runs out of
    recursion depth, cyclic tables included. *)
Theorem json_encode_correct v :
  closed st -> val_ok st v ->
  (exists t, shows st v t /\ json_encode st [v] = Ret [LStr (print t)]) \/
  (exists e, json_encode st [v] = Raise e /\ forall t, shows st v t -> short_of_memory (Zlen (print t))).
Proof.
  apply encode_spec.
Qed.

(** The tables [encode_table] descends into. *)
Definition child (a b : positive) : Prop :=
  exists o, heap st !! a = Some o /\
    if array_branch st o
    then exists i, 1 <= i <= s32 (t_len (tab o)) /\ t_get (tab o) (LInt i) = LTable b
    else exists k, (k, LTable b) ∈ t_pairs (tab o).

Lemma element_shows tb i l j :
  shows_elements st tb i l -> i <= j < i + Zlen l ->
  exists x, shows st (t_get tb (LInt j)) x /\ (json_size x <= sum_list_with json_size l)%nat.
Proof.
  intros Hs. induction Hs as [tb i|tb i x l Hx Hl IH]; intros Hj; zlen; [lia|]. cbn [sum_list_with].
  destruct (Z.eq_dec j i) as [->|]; [exists x; split; [done|lia]|].
  destruct IH as (y & Hy & Hle); [lia|]. exists y. split; [done|lia].
Qed.
Lemma member_shows ps l k v :
  shows_members st ps l -> (k, v) ∈ ps ->
  exists x, shows st v x /\ (json_size x <= sum_list_with (fun p => json_size p.2) l)%nat.
Proof.
  intros Hs. induction Hs as [|k' v' x ps l Hx Hl IH]; intros Hin; [by apply not_elem_of_nil in Hin|].
  cbn [sum_list_with snd]. apply elem_of_cons in Hin as [[= -> ->]|Hin]; [exists x; split; [done|lia]|].
  destruct (IH Hin) as (y & Hy & Hle). exists y. split; [done|lia].
Qed.

Lemma shows_child a b t :
  LTable a <> push_null_sentinel st -> shows st (LTable a) t -> child a b ->
  exists t', shows st (LTable b) t' /\ (json_size t' < json_size t)%nat.
Proof.
  intros Hn Hs (o & Ho & Hc). destruct (table_shows st a o t Ho Hn Hs) as [(Hbr & _ & _ & l & -> & Hl & Hel)|(Hbr & l & -> & Hel)];
    rewrite Hbr in Hc.
  - destruct Hc as (i & Hi & Hg). destruct (element_shows _ _ _ i Hel) as (x & Hx & Hle); [lia|].
    exists x. rewrite <- Hg. split; [done|cbn; lia].
  - destruct Hc as (k & Hin). destruct (member_shows _ _ _ _ Hel Hin) as (x & Hx & Hle).
    exists x. split; [done|cbn; lia].
Qed.

(** A table that contains itself, directly or through any chain of arrays
    and objects, is never encoded: the call raises instead of looping or
    overflowing. *)
Theorem json_encode_cycle a :
  closed st -> (forall b, LTable b <> push_null_sentinel st) -> tc child a a ->
  exists e, json_encode st [LTable a] = Raise e.
Proof.
  intros Hcl Hn Hcyc. assert (Hok : val_ok st (LTable a)).
  { assert (exists b, child a b) as (b & o & Ho & _) by (inversion Hcyc; eauto). by exists o. }
  destruct (encode_spec (LTable a) Hcl Hok) as [(t & Hs & _)|(e & -> & _)]; [exfalso|by exists e].
  assert (Hdesc : forall c, tc child a c -> exists t', shows st (LTable c) t' /\ (json_size t' < json_size t)%nat).
  { apply tc_ind_r.
    - intros b Hb. by apply (shows_child a b t (Hn a) Hs).
    - intros b c _ Hbc (t1 & Hs1 & Hlt1). destruct (shows_child b c t1 (Hn b) Hs1 Hbc) as (t2 & Hs2 & Hlt2).
      exists t2. split; [done|lia]. }
  destruct (Hdesc a Hcyc) as (t' & Hs' & Hlt). rewrite (shows_inj _ _ _ _ Hs Hs') in Hlt. lia.
Qed.

(** A bare empty table is refused, naming the Lua line that passed it. *)
Theorem json_encode_ambiguous a o M :
  heap st !! a = Some o -> LTable a <> push_null_sentinel st -> mem_upto M -> 256 <= M ->
  meta o = None -> t_pairs (tab o) = [] ->
  json_encode st [LTable a] =
    Raise (cstr (snprintf 1024 (lit "ambiguous empty table at " ++ caller_site st ++
      lit ": use json.array() for [] or json.object() for {}"))).
Proof.
  intros Ho Hn HM HM2 Hmeta Hemp. unfold json_encode.
  destruct strbuf_init_spec as (b & -> & _ & Hmem). cbn [mbind outcome_bind].
  destruct Hmem as [_ _ _ (blk & -> & _)]; [apply HM; lia|]. unfold encode_fuel, arg. cbn [nth Nat.sub encode_value].
  destruct (decide (LTable a = push_null_sentinel st)) as [|_]; [done|]. unfold encode_table.
  destruct (decide (a ∈ ∅)) as [Hin|_]; [by apply not_elem_of_empty in Hin|].
  unfold with_table. rewrite Ho. unfold mt_is_array, mt_is_object, table_is_empty. rewrite Hmeta, Hemp. cbn.
  by rewrite orb_true_r.
Qed.
End Top.

(** A state with an array holding a string, an object and itself-free content,
    and one with a cycle through an object. *)
Definition sample_heap : gmap positive (tobj alist) :=
  <[1%positive := mk_tobj [(LInt 1, LStr [104; 34]); (LInt 2, LTable 2); (LInt 3, LInt 7)] None]>
  (<[2%positive := mk_tobj [(LStr [107], LBool true)] None]>
  (<[3%positive := mk_tobj [(LStr [108], LTable 4)] None]>
  (<[4%positive := mk_tobj [(LInt 1, LTable 3)] None]>
  (<[5%positive := mk_tobj [] None]> ∅)))).
Definition sample_state : lua_state alist :=
  mk_state sample_heap (<[JSON_NULL_KEY := LUserdata 9]> ∅) 10
    [Some (mk_frame (Some [67]) None None 0); Some (mk_frame (Some (lit "Lua")) (Some (lit "?")) (Some (lit "=a.lua")) 12)].

Lemma alist_ok (l : alist) (P : lua_value -> Prop) :
  P LNil -> Forall (fun p => P p.1 /\ P p.2) l ->
  (forall k, P (al_get l k)) /\ (forall k v, (k, v) ∈ al_pairs l -> P k /\ P v).
Proof.
  intros Hnil Hl. assert (Hget : forall k, P (al_get l k)).
  { intros k. unfold al_get. destruct (key_ok k); [|done]. generalize (lua_key k) as k0. intros k0.
    induction Hl as [|[k' v] l [_ Hv] _ IH]; [done|]. cbn. by destruct (decide (k' = k0)). }
  split; [done|]. intros k v Hin. pose proof Hin as (Hk & <- & Hne)%al_pairs_key. split; [|done].
  unfold al_get in Hne. destruct (key_ok k); [|done]. rewrite Hk in Hne.
  apply al_find_in in Hne. apply list_elem_of_fmap in Hne as ([k' v] & -> & Hin').
  by eapply Forall_forall in Hl as [? _].
Qed.

Lemma sample_closed : @closed alist assoc_table sample_state.
Proof.
  intros a o Ho. cbn in Ho.
  assert (Forall (fun p => val_ok sample_state p.1 /\ val_ok sample_state p.2) (tab o)).
  { unfold sample_heap in Ho. repeat (apply lookup_insert_Some in Ho as [[<- <-]|[_ Ho]]; [cbn [tab]|]); [..|done].
    all: repeat (apply Forall_cons; split; [split; cbn; try exact I; try (eexists; reflexivity); try (by forall_done)|]).
    all: by apply Forall_nil. }
  destruct (alist_ok (tab o) (val_ok sample_state)) as [Hg Hp]; [done|done|]. by split; [intros k _|].
Qed.

Lemma json_encode_correct_witness :
  exists t, @shows alist assoc_table plain_lua sample_state (LTable 1) t /\
    @json_encode alist assoc_table zero_alloc plain_lua sample_state [LTable 1] = Ret [LStr (print t)].
Proof.
  destruct (@json_encode_correct alist assoc_table zero_alloc plain_lua sample_state (LTable 1)) as [Ht|(e & He & _)].
  - apply sample_closed.
  - by eexists.
  - exact Ht.
  - by vm_compute in He.
Defined.

Lemma json_encode_cycle_witness :
  exists e, @json_encode alist assoc_table zero_alloc plain_lua sample_state [LTable 3] = Raise e.
Proof.
  apply json_encode_cycle; [apply sample_closed|by intros b|].
  apply (tc_l _ 3%positive 4%positive); [|apply tc_once].
  - eexists. split; [reflexivity|]. cbn. exists (LStr [108]). left.
  - eexists. split; [reflexivity|]. exists 1. split; [by vm_compute|reflexivity].
Defined.

Lemma json_encode_ambiguous_witness :
  @json_encode alist assoc_table zero_alloc plain_lua sample_state [LTable 5] =
    Raise (lit "ambiguous empty table at a.lua:12: use json.array() for [] or json.object() for {}").
Proof.
  refine (@json_encode_ambiguous alist assoc_table zero_alloc plain_lua sample_state 5 _ (2 ^ 40) _ _ zero_alloc_upto _ _ _);
    (reflexivity || done).
Defined.
