(* ===== verification/JsonDecode.v ===== *)
(** * src/json.c, second half: [json.decode] and the helpers

    A parse position is an index into the string, as in the C code.  The
    recursive functions take fuel; twice the length of the text and a little more
    is enough ([json_decode_total]).  The Lua stack itself is not modelled: the C
    code pushes one or two slots per level of nesting without [lua_checkstack]. *)

From S2P Require Import Prelude Double Lua LuaState JsonEncode.

Definition char_at (s : list Z) (i : Z) : Z := nth (Z.to_nat i) s 0.

(** The loop of [decode_error_at] over the characters before the error. *)
Fixpoint line_col (s : list Z) (line col : Z) : Z * Z :=
  match s with
  | [] => (line, col)
  | c :: s => if c =? 10 then line_col s (line + 1) 1 else line_col s line (col + 1)
  end.

Definition is_space (c : Z) : bool := (c =? 32) || (c =? 9) || (c =? 13) || (c =? 10).
Definition is_delim (c : Z) : bool := is_space c || (c =? 93) || (c =? 125) || (c =? 44).

(** How many characters come before the first that satisfies [f]. *)
Fixpoint scan (f : Z -> bool) (s : list Z) : Z :=
  match s with
  | [] => 0
  | c :: s => if f c then 0 else 1 + scan f s
  end.
Definition next_char (s : list Z) (i : Z) (pred : Z -> bool) (negate : bool) : Z :=
  if i <? Zlen s then i + scan (fun c => if negate then negb (pred c) else pred c) (zdrop i s) else Zlen s.

Definition is_hex (c : Z) : bool :=
  ((48 <=? c) && (c <=? 57)) || ((97 <=? c) && (c <=? 102)) || ((65 <=? c) && (c <=? 70)).
Definition hex_value (c : Z) : Z :=
  if (48 <=? c) && (c <=? 57) then c - 48
  else if (97 <=? c) && (c <=? 102) then c - 97 + 10
  else if (65 <=? c) && (c <=? 70) then c - 65 + 10
  else 0.
Definition hex4 (s : list Z) (i : Z) : Z :=
  let step n c := Z.lor (u32 (Z.shiftl n 4)) (hex_value c) in
  step (step (step (step 0 (char_at s i)) (char_at s (i + 1))) (char_at s (i + 2))) (char_at s (i + 3)).
Definition is_hex4 (s : list Z) (i : Z) : bool :=
  is_hex (char_at s i) && is_hex (char_at s (i + 1)) && is_hex (char_at s (i + 2)) && is_hex (char_at s (i + 3)).

Definition is_high_surrogate_hex (s : list Z) (i : Z) : bool :=
  if negb (is_hex4 s i) then false
  else
    let c0 := char_at s i in
    let c1 := char_at s (i + 1) in
    if negb ((c0 =? 100) || (c0 =? 68)) then false
    else ((56 <=? c1) && (c1 <=? 57)) || ((97 <=? c1) && (c1 <=? 98)) || ((65 <=? c1) && (c1 <=? 66)).

(** The single-character escapes. *)
Definition unescape (c : Z) : option Z :=
  if c =? 92 then Some 92
  else if c =? 47 then Some 47
  else if c =? 34 then Some 34
  else if c =? 98 then Some 8
  else if c =? 102 then Some 12
  else if c =? 110 then Some 10
  else if c =? 114 then Some 13
  else if c =? 116 then Some 9
  else None.

Section Decode.
Context {T : Type} `{LuaTable T}.

Definition decode_error_at {A} (st : lua_state T) (s : list Z) (at_ : Z) (msg : list Z) : outcome A :=
  let '(line, col) := line_col (ztake at_ s) 1 1 in
  let site := caller_site st in
  let where_ := cstr msg ++ lit " at line " ++ dec_of_Z line ++ lit " col " ++ dec_of_Z col in
  match site with
  | [] | [63] => json_errorf where_
  | _ => json_errorf (where_ ++ lit " (from " ++ site ++ lit ")")
  end.

Definition codepoint_to_utf8 (st : lua_state T) (s : list Z) (err_at n : Z) : outcome (list Z) :=
  if n <=? 0x7f then mret [u8 n]
  else if n <=? 0x7ff then mret [u8 (Z.lor 0xc0 (Z.shiftr n 6)); u8 (Z.lor 0x80 (Z.land n 0x3f))]
  else if n <=? 0xffff then
    mret [u8 (Z.lor 0xe0 (Z.shiftr n 12)); u8 (Z.lor 0x80 (Z.land (Z.shiftr n 6) 0x3f));
          u8 (Z.lor 0x80 (Z.land n 0x3f))]
  else if n <=? 0x10ffff then
    mret [u8 (Z.lor 0xf0 (Z.shiftr n 18)); u8 (Z.lor 0x80 (Z.land (Z.shiftr n 12) 0x3f));
          u8 (Z.lor 0x80 (Z.land (Z.shiftr n 6) 0x3f)); u8 (Z.lor 0x80 (Z.land n 0x3f))]
  else decode_error_at st s err_at (lit "invalid unicode codepoint").

(** [luaL_addlstring(&b, p->str + k, i - k)] when [i > k]. *)
Definition flush (s : list Z) (k i : Z) (b : list Z) : list Z :=
  if k <? i then b ++ ztake (i - k) (zdrop k s) else b.

(** The escape after the backslash at [i - 1]: what it adds, and the index of its
    last character. *)
Definition parse_escape (st : lua_state T) (s : list Z) (i : Z) : outcome (list Z * Z) :=
  let c := char_at s i in
  if c =? 117 then
    let hex_start := i + 1 in
    if Zlen s <? hex_start + 4 then decode_error_at st s (i - 1) (lit "invalid unicode escape in string")
    else
      '(cp, hex_len) ←
        (if is_high_surrogate_hex s hex_start && (hex_start + 4 + 6 <=? Zlen s) &&
            (char_at s (hex_start + 4) =? 92) && (char_at s (hex_start + 5) =? 117) && is_hex4 s (hex_start + 6) then
           let n1 := hex4 s hex_start in
           let n2 := hex4 s (hex_start + 6) in
           mret (u32 (u32 (n1 - 0xd800) * 0x400 + u32 (n2 - 0xdc00) + 0x10000), 10)
         else if is_hex4 s hex_start then mret (hex4 s hex_start, 4)
         else decode_error_at st s (i - 1) (lit "invalid unicode escape in string"));
      utf8 ← codepoint_to_utf8 st s (i - 1) cp;
      mret (utf8, hex_start + hex_len - 1)
  else
    match unescape c with
    | Some out => mret ([out], i)
    | None =>
        decode_error_at st s (i - 1) (snprintf 64 (lit "invalid escape char '" ++ [c] ++ lit "' in string"))
    end.

(** The [while] loop: [k] starts the raw span not yet flushed. *)
Fixpoint string_loop (fuel : nat) (st : lua_state T) (s : list Z) (idx i k : Z) (b : list Z) : outcome (list Z * Z) :=
  match fuel with
  | O => UB
  | S fuel =>
      if i <? Zlen s then
        let x := char_at s i in
        if x <? 32 then decode_error_at st s i (lit "control character in string")
        else if x =? 92 then
          let b := flush s k i b in
          let i := i + 1 in
          if Zlen s <=? i then decode_error_at st s idx (lit "expected closing quote for string")
          else
            '(out, i) ← parse_escape st s i;
            string_loop fuel st s idx (i + 1) (i + 1) (b ++ out)
        else if x =? 34 then mret (flush s k i b, i + 1)
        else string_loop fuel st s idx (i + 1) k b
      else decode_error_at st s idx (lit "expected closing quote for string")
  end.

(** The string and the index after it. *)
Definition parse_string (st : lua_state T) (s : list Z) (idx : Z) : outcome (list Z * Z) :=
  if (Zlen s <=? idx) || negb (char_at s idx =? 34) then decode_error_at st s idx (lit "expected string")
  else string_loop (S (length s)) st s idx (idx + 1) (idx + 1) [].

Definition parse_number (st : lua_state T) (s : list Z) (idx : Z) : outcome (lua_value * Z) :=
  let x := next_char s idx is_delim false in
  let nlen := x - idx in
  if (nlen =? 0) || (128 <=? nlen) then decode_error_at st s idx (lit "invalid number")
  else
    let tmp := ztake nlen (zdrop idx s) in
    let '(n, rest) := strtod tmp in
    match rest with
    | [] => mret (LFlt (if d_iszero n then 0 else n), x)
    | _ => decode_error_at st s idx (snprintf 160 (lit "invalid number '" ++ cstr tmp ++ lit "'"))
    end.

(** [json.null]: the field of the module table, [nil] or the sentinel. *)
Definition module_null (st : lua_state T) : lua_value :=
  match reg_get st JSON_MOD_KEY with
  | LTable m => match heap st !! m with Some o => t_get (tab o) (LStr (lit "null")) | None => LNil end
  | _ => LNil
  end.

Definition parse_literal (st : lua_state T) (s : list Z) (idx : Z) : outcome (lua_value * Z) :=
  let x := next_char s idx is_delim false in
  let w := ztake (x - idx) (zdrop idx s) in
  if bool_decide (w = lit "true") then mret (LBool true, x)
  else if bool_decide (w = lit "false") then mret (LBool false, x)
  else if bool_decide (w = lit "null") then mret (module_null st, x)
  else decode_error_at st s idx (snprintf 64 (lit "invalid literal '" ++ cstr (ztake 31 w) ++ lit "'")).

(** [parse_value], and the loops of [parse_array] (with the next index [n]) and
    [parse_object], into the table [a]. *)
Fixpoint parse_value (fuel : nat) (st : lua_state T) (s : list Z) (idx : Z)
  : outcome (lua_value * Z * lua_state T) :=
  match fuel with
  | O => UB
  | S fuel =>
      if Zlen s <=? idx then decode_error_at st s idx (lit "unexpected character ''")
      else
        let chr := char_at s idx in
        if chr =? 34 then '(str, i) ← parse_string st s idx; mret (LStr str, i, st)
        else if is_digit chr || (chr =? 45) then '(v, i) ← parse_number st s idx; mret (v, i, st)
        else if (chr =? 116) || (chr =? 102) || (chr =? 110) then '(v, i) ← parse_literal st s idx; mret (v, i, st)
        else if chr =? 91 then
          let '(a, st) := lua_newtable st in
          st ← lua_setmetatable st a (push_array_mt st);
          '(i, st) ← array_loop fuel st s (idx + 1) a 1;
          mret (LTable a, i, st)
        else if chr =? 123 then
          let '(a, st) := lua_newtable st in
          st ← lua_setmetatable st a (push_object_mt st);
          '(i, st) ← object_loop fuel st s (idx + 1) a;
          mret (LTable a, i, st)
        else decode_error_at st s idx (snprintf 48 (lit "unexpected character '" ++ [chr] ++ lit "'"))
  end
with array_loop (fuel : nat) (st : lua_state T) (s : list Z) (idx : Z) (a : positive) (n : Z)
  : outcome (Z * lua_state T) :=
  match fuel with
  | O => UB
  | S fuel =>
      let idx := next_char s idx is_space true in
      if (idx <? Zlen s) && (char_at s idx =? 93) then mret (idx + 1, st)
      else
        '(v, idx, st) ← parse_value fuel st s idx;
        st ← lua_rawset st a (LInt n) v;
        let idx := next_char s idx is_space true in
        if Zlen s <=? idx then decode_error_at st s idx (lit "expected ']' or ','")
        else
          let chr := char_at s idx in
          let idx := idx + 1 in
          if chr =? 93 then mret (idx, st)
          else if negb (chr =? 44) then decode_error_at st s idx (lit "expected ']' or ','")
          else array_loop fuel st s idx a (n + 1)
  end
with object_loop (fuel : nat) (st : lua_state T) (s : list Z) (idx : Z) (a : positive)
  : outcome (Z * lua_state T) :=
  match fuel with
  | O => UB
  | S fuel =>
      let idx := next_char s idx is_space true in
      if (idx <? Zlen s) && (char_at s idx =? 125) then mret (idx + 1, st)
      else if (Zlen s <=? idx) || negb (char_at s idx =? 34) then decode_error_at st s idx (lit "expected string for key")
      else
        '(key, idx) ← parse_string st s idx;
        let idx := next_char s idx is_space true in
        if (Zlen s <=? idx) || negb (char_at s idx =? 58) then decode_error_at st s idx (lit "expected ':' after key")
        else
          let idx := next_char s (idx + 1) is_space true in
          '(v, idx, st) ← parse_value fuel st s idx;
          st ← lua_rawset st a (LStr key) v;
          let idx := next_char s idx is_space true in
          if Zlen s <=? idx then decode_error_at st s idx (lit "expected '}' or ','")
          else
            let chr := char_at s idx in
            let idx := idx + 1 in
            if chr =? 125 then mret (idx, st)
            else if negb (chr =? 44) then decode_error_at st s idx (lit "expected '}' or ','")
            else object_loop fuel st s idx a
  end.

(** The recursive equations. *)
Lemma parse_value_S fuel st s idx :
  parse_value (S fuel) st s idx = (
      if Zlen s <=? idx then decode_error_at st s idx (lit "unexpected character ''")
      else
        let chr := char_at s idx in
        if chr =? 34 then '(str, i) ← parse_string st s idx; mret (LStr str, i, st)
        else if is_digit chr || (chr =? 45) then '(v, i) ← parse_number st s idx; mret (v, i, st)
        else if (chr =? 116) || (chr =? 102) || (chr =? 110) then '(v, i) ← parse_literal st s idx; mret (v, i, st)
        else if chr =? 91 then
          let '(a, st) := lua_newtable st in
          st ← lua_setmetatable st a (push_array_mt st);
          '(i, st) ← array_loop fuel st s (idx + 1) a 1;
          mret (LTable a, i, st)
        else if chr =? 123 then
          let '(a, st) := lua_newtable st in
          st ← lua_setmetatable st a (push_object_mt st);
          '(i, st) ← object_loop fuel st s (idx + 1) a;
          mret (LTable a, i, st)
        else decode_error_at st s idx (snprintf 48 (lit "unexpected character '" ++ [chr] ++ lit "'"))).
Proof. reflexivity. Qed.
Lemma array_loop_S fuel st s idx a n :
  array_loop (S fuel) st s idx a n = (
      let idx := next_char s idx is_space true in
      if (idx <? Zlen s) && (char_at s idx =? 93) then mret (idx + 1, st)
      else
        '(v, idx, st) ← parse_value fuel st s idx;
        st ← lua_rawset st a (LInt n) v;
        let idx := next_char s idx is_space true in
        if Zlen s <=? idx then decode_error_at st s idx (lit "expected ']' or ','")
        else
          let chr := char_at s idx in
          let idx := idx + 1 in
          if chr =? 93 then mret (idx, st)
          else if negb (chr =? 44) then decode_error_at st s idx (lit "expected ']' or ','")
          else array_loop fuel st s idx a (n + 1)).
Proof. reflexivity. Qed.
Lemma object_loop_S fuel st s idx a :
  object_loop (S fuel) st s idx a = (
      let idx := next_char s idx is_space true in
      if (idx <? Zlen s) && (char_at s idx =? 125) then mret (idx + 1, st)
      else if (Zlen s <=? idx) || negb (char_at s idx =? 34) then decode_error_at st s idx (lit "expected string for key")
      else
        '(key, idx) ← parse_string st s idx;
        let idx := next_char s idx is_space true in
        if (Zlen s <=? idx) || negb (char_at s idx =? 58) then decode_error_at st s idx (lit "expected ':' after key")
        else
          let idx := next_char s (idx + 1) is_space true in
          '(v, idx, st) ← parse_value fuel st s idx;
          st ← lua_rawset st a (LStr key) v;
          let idx := next_char s idx is_space true in
          if Zlen s <=? idx then decode_error_at st s idx (lit "expected '}' or ','")
          else
            let chr := char_at s idx in
            let idx := idx + 1 in
            if chr =? 125 then mret (idx, st)
            else if negb (chr =? 44) then decode_error_at st s idx (lit "expected '}' or ','")
            else object_loop fuel st s idx a).
Proof. reflexivity. Qed.

Definition decode_fuel (s : list Z) : nat := 2 * length s + 3.

Definition json_decode (st : lua_state T) (args : list lua_value) : outcome (list lua_value * lua_state T) :=
  match arg args 1 with
  | LStr s =>
      let idx := next_char s 0 is_space true in
      '(v, idx, st) ← parse_value (decode_fuel s) st s idx;
      let idx := next_char s idx is_space true in
      if idx <? Zlen s then decode_error_at st s idx (lit "trailing garbage") else mret ([v], st)
  | v =>
      (** [lua_typename(L, lua_type(L, 1))]; an absent argument has type "no value" *)
      json_errorf (lit "expected argument of type string, got " ++
        match args with [] => lit "no value" | _ => lua_typename v end)
  end.

(** ** The helpers *)

(** [json.array(t)] and [json.object(t)] mark [t] itself, or a new table. *)
Definition mark_table `{LuaAPI} (mt : lua_state T -> lua_value) (st : lua_state T) (args : list lua_value)
  : outcome (list lua_value * lua_state T) :=
  match arg args 1 with
  | LNil => let '(a, st) := lua_newtable st in st ← lua_setmetatable st a (mt st); mret ([LTable a], st)
  | LTable a => st ← lua_setmetatable st a (mt st); mret ([LTable a], st)
  | v => Raise (lua_argerror v)
  end.
Definition json_array `{LuaAPI} : lua_state T -> list lua_value -> outcome (list lua_value * lua_state T) := mark_table push_array_mt.
Definition json_object `{LuaAPI} : lua_state T -> list lua_value -> outcome (list lua_value * lua_state T) := mark_table push_object_mt.

Definition json_enable_null (st : lua_state T) (args : list lua_value) : outcome (list lua_value * lua_state T) :=
  let enabled := lua_toboolean (arg args 1) in
  match reg_get st JSON_MOD_KEY with
  | LTable m =>
      st ← lua_rawset st m (LStr (lit "null")) (if enabled then push_null_sentinel st else LNil);
      mret ([], st)
  | _ => mret ([], st)
  end.

Definition json_is_present (st : lua_state T) (args : list lua_value) : list lua_value :=
  let v := arg args 1 in
  if lua_isnil v then [LBool false]
  else if decide (v = push_null_sentinel st) then [LBool false]
  else [LBool true].

Definition json_is_nonempty_string (args : list lua_value) : list lua_value :=
  match arg args 1 with
  | LStr s => [LBool (0 <? Zlen s)]
  | _ => [LBool false]
  end.

(** Setting named fields of a table. *)
Fixpoint set_fields (st : lua_state T) (a : positive) (fs : list (list Z * lua_value)) : outcome (lua_state T) :=
  match fs with
  | [] => mret st
  | (k, v) :: fs => st ← lua_rawset st a (LStr k) v; set_fields st a fs
  end.

Definition json_funcs : list (list Z) :=
  map lit ["encode"; "decode"; "array"; "object"; "enable_null"; "is_present"; "is_nonempty_string"]%string.

(** [cfunction] is the Lua value of a registered C function.  The metatable of
    the sentinel is built as in the source; metatables of userdata are not part
    of the modelled state. *)
Definition luaopen_json (cfunction : list Z -> lua_value) (st : lua_state T) : outcome (list lua_value * lua_state T) :=
  match reg_get st JSON_MOD_KEY with
  | LTable m => mret ([LTable m], st)
  | _ =>
      let '(am, st) := lua_newtable st in
      let st := reg_set st JSON_ARRAY_MT_KEY (LTable am) in
      let '(om, st) := lua_newtable st in
      let st := reg_set st JSON_OBJECT_MT_KEY (LTable om) in
      let '(u, st) := lua_newuserdata st in
      let '(um, st) := lua_newtable st in
      st ← set_fields st um [(lit "__tostring", LStr (lit "const: json.null")); (lit "__metatable", LBool false)];
      let st := reg_set st JSON_NULL_KEY (LUserdata u) in
      let '(m, st) := lua_newtable st in
      st ← set_fields st m (map (fun f => (f, cfunction f)) json_funcs);
      st ← set_fields st m [(lit "_version", LStr (lit "0.1.2")); (lit "null", LNil)];
      let st := reg_set st JSON_MOD_KEY (LTable m) in
      mret ([LTable m], st)
  end.
End Decode.

(** ** Positions in a text *)

Lemma char_at_app pre c post : char_at (pre ++ c :: post) (Zlen pre) = c.
Proof. unfold char_at, Zlen. rewrite Nat2Z.id, app_nth2, Nat.sub_diag by lia. done. Qed.
Lemma char_at_in pre l post k c :
  0 <= k -> l !! Z.to_nat k = Some c -> char_at (pre ++ l ++ post) (Zlen pre + k) = c.
Proof.
  intros Hk Hl. unfold char_at, Zlen. rewrite Z2Nat.inj_add, Nat2Z.id by lia. rewrite app_nth2_plus.
  rewrite app_nth1 by (by eapply lookup_lt_Some). by apply nth_lookup_Some.
Qed.

Lemma scan_app f l c post :
  Forall (fun c => f c = false) l -> f c = true -> scan f (l ++ c :: post) = Zlen l.
Proof.
  induction 1 as [|x l Hx _ IH]; intros Hc; cbn [scan app]; [by rewrite Hc|]. rewrite Hx, IH by done. by rewrite Zlen_cons.
Qed.
Lemma scan_none f l : Forall (fun c => f c = false) l -> scan f l = Zlen l.
Proof. induction 1 as [|x l Hx _ IH]; cbn [scan]; [done|]. rewrite Hx, IH. by rewrite Zlen_cons. Qed.
Lemma scan_range f l : 0 <= scan f l <= Zlen l.
Proof. induction l as [|x l IH]; cbn [scan]; zlen; [lia|]. case_bool; lia. Qed.

Lemma next_char_range s i pred negate : 0 <= i <= Zlen s -> i <= next_char s i pred negate <= Zlen s.
Proof.
  intros Hi. unfold next_char. destruct (Z.ltb_spec i (Zlen s)); [|lia].
  pose proof (scan_range (fun c => if negate then negb (pred c) else pred c) (zdrop i s)) as Hs.
  rewrite Zlen_zdrop in Hs by lia. lia.
Qed.

(** Nothing to skip. *)
Lemma next_char_here pre c post :
  is_space c = false -> next_char (pre ++ c :: post) (Zlen pre) is_space true = Zlen pre.
Proof.
  intros Hc. unfold next_char. destruct (Z.ltb_spec (Zlen pre) (Zlen (pre ++ c :: post))) as [_|Hge].
  - rewrite zdrop_app_exact by done. cbn [scan]. rewrite Hc. cbn. lia.
  - zlen. pose proof (Zlen_nonneg post). lia.
Qed.
Lemma next_char_end pre : next_char pre (Zlen pre) is_space true = Zlen pre.
Proof. unfold next_char. by destruct (Z.ltb_spec (Zlen pre) (Zlen pre)); [lia|]. Qed.

(** What may follow a number or a literal. *)
Definition ends (post : list Z) : Prop := match post with [] => True | c :: _ => is_delim c = true end.

Lemma next_delim pre w post :
  Forall (fun c => is_delim c = false) w -> ends post ->
  next_char (pre ++ w ++ post) (Zlen pre) is_delim false = Zlen pre + Zlen w.
Proof.
  intros Hw Hp. unfold next_char. destruct (Z.ltb_spec (Zlen pre) (Zlen (pre ++ w ++ post))) as [_|Hge].
  - rewrite zdrop_app_exact by done. f_equal. destruct post as [|c post]; [rewrite app_nil_r|by apply scan_app].
    by apply scan_none.
  - zlen. pose proof (Zlen_nonneg w). pose proof (Zlen_nonneg post). lia.
Qed.

(** ** Strings *)

Section Strings.
Context {T : Type} `{LuaTable T} (st : lua_state T).

(** One escaped or plain character. *)
Lemma print_char_cases c :
  is_byte c ->
  (print_char c = [c] /\ 32 <= c /\ c <> 34 /\ c <> 92) \/
  (exists e, print_char c = [92; e] /\ unescape e = Some c /\ e <> 117) \/
  (print_char c = [92; 117; 48; 48; hexdigit (c / 16); hexdigit (c mod 16)] /\ 0 <= c < 32).
Proof.
  unfold is_byte, print_char, escape. intros Hc.
  destruct (Z.eqb_spec c 92) as [->|]; [right; left; by eexists|].
  destruct (Z.eqb_spec c 34) as [->|]; [right; left; by eexists|].
  destruct (Z.eqb_spec c 8) as [->|]; [right; left; by eexists|].
  destruct (Z.eqb_spec c 12) as [->|]; [right; left; by eexists|].
  destruct (Z.eqb_spec c 10) as [->|]; [right; left; by eexists|].
  destruct (Z.eqb_spec c 13) as [->|]; [right; left; by eexists|].
  destruct (Z.eqb_spec c 9) as [->|]; [right; left; by eexists|].
  destruct (Z.ltb_spec c 32); [right; right; split; [done|lia]|left; split; [done|lia]].
Qed.

Lemma hexdigit_value n : 0 <= n < 16 -> is_hex (hexdigit n) = true /\ hex_value (hexdigit n) = n.
Proof.
  intros Hn. unfold hexdigit, is_hex, hex_value. destruct (Z.ltb_spec n 10); (split; [lia|]); repeat case_bool; lia.
Qed.

Lemma flush_here k pre post b : 0 <= k <= Zlen pre -> flush (pre ++ post) k (Zlen pre) b = b ++ zdrop k pre.
Proof.
  intros Hk. unfold flush. destruct (Z.ltb_spec k (Zlen pre)).
  - rewrite zdrop_app_l by lia. by rewrite ztake_app_exact by (rewrite Zlen_zdrop; lia).
  - rewrite zdrop_all by lia. by rewrite app_nil_r.
Qed.

(** The four hex digits of a control character. *)
Lemma hex4_control pre c post :
  0 <= c < 32 ->
  let s := pre ++ [48; 48; hexdigit (c / 16); hexdigit (c mod 16)] ++ post in
  is_hex4 s (Zlen pre) = true /\ hex4 s (Zlen pre) = c /\ is_high_surrogate_hex s (Zlen pre) = false.
Proof.
  intros Hc s. set (a := hexdigit (c / 16)). set (b := hexdigit (c mod 16)).
  destruct (hexdigit_value (c / 16)) as [Ha Hav]; [dmlia|]. destruct (hexdigit_value (c mod 16)) as [Hb Hbv]; [dmlia|].
  fold a in Ha, Hav. fold b in Hb, Hbv.
  assert (E0 : char_at s (Zlen pre) = 48).
  { rewrite <- (Z.add_0_r (Zlen pre)). by apply char_at_in. }
  assert (E1 : char_at s (Zlen pre + 1) = 48) by (by apply char_at_in).
  assert (E2 : char_at s (Zlen pre + 2) = a) by (by apply char_at_in).
  assert (E3 : char_at s (Zlen pre + 3) = b) by (by apply char_at_in).
  assert (H4 : is_hex4 s (Zlen pre) = true) by (unfold is_hex4; by rewrite E0, E1, E2, E3, Ha, Hb).
  split; [done|]. split.
  - unfold hex4. rewrite E0, E1, E2, E3, Hav, Hbv. change (hex_value 48) with 0.
    change (Z.lor (u32 (Z.shiftl (Z.lor (u32 (Z.shiftl 0 4)) 0) 4)) 0) with 0.
    change (u32 (Z.shiftl 0 4)) with 0. rewrite Z.lor_0_l.
    rewrite u32_small by (rewrite Z.shiftl_mul_pow2 by lia; dmlia).
    rewrite Z.lor_comm, lor_shiftl by dmlia. dmlia.
  - unfold is_high_surrogate_hex. by rewrite H4, E0.
Qed.

Lemma parse_escape_control pre c post :
  0 <= c < 32 ->
  parse_escape st (pre ++ [92; 117; 48; 48; hexdigit (c / 16); hexdigit (c mod 16)] ++ post) (Zlen pre + 1) =
    Ret ([c], Zlen pre + 5).
Proof.
  intros Hc. pose (h := [48; 48; hexdigit (c / 16); hexdigit (c mod 16)]). pose (pre2 := pre ++ [92; 117]).
  assert (pre ++ [92; 117; 48; 48; hexdigit (c / 16); hexdigit (c mod 16)] ++ post = pre2 ++ h ++ post) as ->
    by (unfold pre2; by rewrite <- app_assoc).
  assert (Hp : Zlen pre2 = Zlen pre + 2) by (unfold pre2; zlen; lia).
  assert (Hu : char_at (pre2 ++ h ++ post) (Zlen pre + 1) = 117).
  { unfold pre2. rewrite <- app_assoc. by apply (char_at_in pre [92; 117]). }
  destruct (hex4_control pre2 c post Hc) as (H4 & Hv & Hs). fold h in H4, Hv, Hs.
  unfold parse_escape. rewrite Hu. cbn [Z.eqb Pos.eqb]. replace (Zlen pre + 1 + 1) with (Zlen pre2) by lia.
  destruct (Z.ltb_spec (Zlen (pre2 ++ h ++ post)) (Zlen pre2 + 4)) as [Hlt|_].
  { rewrite !Zlen_app in Hlt. change (Zlen h) with 4 in Hlt. pose proof (Zlen_nonneg post). lia. }
  rewrite Hs, H4, Hv. cbn [andb mbind outcome_bind mret outcome_ret]. unfold codepoint_to_utf8.
  destruct (Z.leb_spec c 127); [|lia]. cbn [mbind outcome_bind mret outcome_ret]. rewrite u8_small by lia. do 2 f_equal. lia.
Qed.

Lemma string_loop_print l : forall fuel idx pre b k post,
  bytes_ok l -> (length l < fuel)%nat -> 0 <= k <= Zlen pre ->
  string_loop fuel st (pre ++ concat (map print_char l) ++ 34 :: post) idx (Zlen pre) k b =
    Ret (b ++ zdrop k pre ++ l, Zlen pre + Zlen (concat (map print_char l)) + 1).
Proof.
  induction l as [|c l IH]; intros fuel idx pre b k post Hok Hf Hk; (destruct fuel as [|fuel]; [cbn in Hf; lia|]);
    cbn [string_loop map concat]; cbn [length] in Hf.
  - cbn [app]. rewrite char_at_app. destruct (Z.ltb_spec (Zlen pre) (Zlen (pre ++ 34 :: post))) as [_|Hge].
    2:{ zlen. pose proof (Zlen_nonneg post). lia. }
    cbn. rewrite flush_here by done. rewrite app_nil_r. zlen. do 2 f_equal. lia.
  - apply Forall_cons in Hok as [Hc Hok]. rewrite <- app_assoc.
    set (rest := concat (map print_char l) ++ 34 :: post).
    assert (Hlt : forall w, 0 < Zlen w -> (Zlen pre <? Zlen (pre ++ w ++ rest)) = true).
    { intros w Hw. zlen. pose proof (Zlen_nonneg rest). lia. }
    assert (Hnext : forall w, pre ++ w ++ rest = (pre ++ w) ++ rest) by (intros w; by rewrite app_assoc).
    destruct (print_char_cases c Hc) as [(-> & H32 & H34 & H92)|[(e & -> & He & Hu)|(-> & Hctl)]]; rewrite Hlt by done.
    + cbn [app]. rewrite char_at_app. destruct (Z.ltb_spec c 32), (Z.eqb_spec c 92), (Z.eqb_spec c 34); try lia.
      assert (Hl1 : Zlen (pre ++ [c]) = Zlen pre + 1) by (zlen; lia).
      specialize (IH fuel idx (pre ++ [c]) b k post Hok ltac:(lia) ltac:(lia)).
      fold rest in IH. rewrite Hl1, <- app_assoc in IH. cbn [app] in IH. rewrite IH.
      rewrite zdrop_app_l by lia. rewrite <- !app_assoc. cbn [app]. rewrite Zlen_cons. do 2 f_equal. lia.
    + rewrite (char_at_app pre 92 ([e] ++ rest) : char_at (pre ++ [92; e] ++ rest) (Zlen pre) = 92). cbn -[Zlen flush char_at string_loop].
      destruct (Z.leb_spec (Zlen (pre ++ 92 :: e :: rest)) (Zlen pre + 1)) as [Hle|_].
      { zlen. pose proof (Zlen_nonneg rest). lia. }
      assert (E1 : char_at (pre ++ 92 :: e :: rest) (Zlen pre + 1) = e) by (by apply (char_at_in pre [92; e] rest)).
      unfold parse_escape. rewrite E1, He. destruct (Z.eqb_spec e 117); [done|].
      cbn [mbind outcome_bind mret outcome_ret]. rewrite flush_here by done.
      assert (Hl2 : Zlen (pre ++ [92; e]) = Zlen pre + 1 + 1) by (zlen; lia).
      specialize (IH fuel idx (pre ++ [92; e]) ((b ++ zdrop k pre) ++ [c]) (Zlen (pre ++ [92; e])) post Hok ltac:(lia) ltac:(lia)).
      fold rest in IH. rewrite (zdrop_all _ (pre ++ [92; e])), Hl2, <- app_assoc in IH by lia. cbn [app] in IH. rewrite IH.
      rewrite <- !app_assoc. cbn [app]. rewrite !Zlen_cons. do 2 f_equal. lia.
    + set (w := [92; 117; 48; 48; hexdigit (c / 16); hexdigit (c mod 16)]).
      assert (Hw : Zlen w = 6) by done. rewrite (char_at_app pre 92 (tl w ++ rest) : char_at (pre ++ w ++ rest) (Zlen pre) = 92).
      cbn -[Zlen flush char_at string_loop app w].
      destruct (Z.leb_spec (Zlen (pre ++ w ++ rest)) (Zlen pre + 1)) as [Hle|_].
      { rewrite !Zlen_app in Hle. pose proof (Zlen_nonneg rest). lia. }
      rewrite (parse_escape_control pre c rest Hctl : parse_escape st (pre ++ w ++ rest) (Zlen pre + 1) = _). cbn [mbind outcome_bind]. rewrite flush_here by done.
      assert (Hl6 : Zlen (pre ++ w) = Zlen pre + 5 + 1) by (rewrite Zlen_app; lia).
      specialize (IH fuel idx (pre ++ w) ((b ++ zdrop k pre) ++ [c]) (Zlen (pre ++ w)) post Hok ltac:(lia) ltac:(lia)).
      fold rest in IH. rewrite (zdrop_all _ (pre ++ w)), Hl6, <- app_assoc in IH by lia. rewrite IH.
      rewrite <- !app_assoc. cbn [app]. rewrite Zlen_app. do 2 f_equal. lia.
Qed.
End Strings.

(** ** The tree a decoded value denotes *)

Definition mt_of (v : lua_value) : option positive := match v with LTable p => Some p | _ => None end.

(** Trees that survive printing: numbers that 14 digits identify, bytes in
    strings, distinct keys, and [null] only when the module maps it to the
    sentinel. *)
Definition num_ok (d : Z) : bool :=
  negb (d_isnan d) && negb (d_isinf d) && (negb (d_iszero d) || (d =? 0)) &&
  bool_decide (strtod (fmt_14g d) = (d, [])).

Fixpoint tree_ok (nulls : bool) (t : json) : bool :=
  match t with
  | JNull => nulls
  | JBool _ => true
  | JNum d => num_ok d
  | JStr s => bool_decide (bytes_ok s)
  | JArr l => forallb (tree_ok nulls) l && (Zlen l <? 2 ^ 31)
  | JObj l =>
      forallb (fun p => bool_decide (bytes_ok p.1) && tree_ok nulls p.2) l && bool_decide (NoDup (map fst l))
  end.

Section Denotes.
Context {T : Type} `{LuaTable T}.

(** [denotes lo st v t]: in state [st] the value [v] is the tree [t], built of
    marked tables whose references are all at least [lo]. *)
Inductive denotes (lo : positive) (st : lua_state T) : lua_value -> json -> Prop :=
  | den_null : push_null_sentinel st <> LNil -> denotes lo st (push_null_sentinel st) JNull
  | den_bool b : denotes lo st (LBool b) (JBool b)
  | den_num d : denotes lo st (LFlt d) (JNum d)
  | den_str s : denotes lo st (LStr s) (JStr s)
  | den_arr a tb l :
      (lo <= a)%positive -> heap st !! a = Some (mk_tobj tb (mt_of (push_array_mt st))) ->
      (forall k v, (k, v) ∈ t_pairs tb -> exists i, k = LInt i /\ 1 <= i <= Zlen l) ->
      den_elems lo st tb 1 l -> denotes lo st (LTable a) (JArr l)
  | den_obj a tb l :
      (lo <= a)%positive -> heap st !! a = Some (mk_tobj tb (mt_of (push_object_mt st))) ->
      (forall k v, (k, v) ∈ t_pairs tb -> exists s, k = LStr s /\ s ∈ map fst l) ->
      den_members lo st tb l -> denotes lo st (LTable a) (JObj l)
with den_elems (lo : positive) (st : lua_state T) : T -> Z -> list json -> Prop :=
  | den_elems_nil tb i : den_elems lo st tb i []
  | den_elems_cons tb i x l :
      denotes lo st (t_get tb (LInt i)) x -> den_elems lo st tb (i + 1) l -> den_elems lo st tb i (x :: l)
with den_members (lo : positive) (st : lua_state T) : T -> list (list Z * json) -> Prop :=
  | den_members_nil tb : den_members lo st tb []
  | den_members_cons tb k x l :
      denotes lo st (t_get tb (LStr k)) x -> den_members lo st tb l -> den_members lo st tb ((k, x) :: l).

Lemma denotes_not_nil lo st v t : denotes lo st v t -> v <> LNil.
Proof. by destruct 1. Qed.

(** [st'] keeps the tables of [st] from [lo] up. *)
Definition keeps (lo : positive) (st st' : lua_state T) : Prop :=
  registry st' = registry st /\
  forall b o, (lo <= b)%positive -> heap st !! b = Some o -> heap st' !! b = Some o.

Scheme denotes_ind2 := Minimality for denotes Sort Prop
  with den_elems_ind2 := Minimality for den_elems Sort Prop
  with den_members_ind2 := Minimality for den_members Sort Prop.
Combined Scheme denotes_mutind from denotes_ind2, den_elems_ind2, den_members_ind2.

Lemma denotes_keeps lo lo' st st' :
  keeps lo st st' -> (lo' <= lo)%positive ->
  (forall v t, denotes lo st v t -> denotes lo' st' v t) /\
  (forall tb i l, den_elems lo st tb i l -> den_elems lo' st' tb i l) /\
  (forall tb l, den_members lo st tb l -> den_members lo' st' tb l).
Proof.
  intros [Hreg Hheap] Hlo.
  assert (Hget : forall k, reg_get st' k = reg_get st k) by (intros k; unfold reg_get; by rewrite Hreg).
  assert (En : push_null_sentinel st' = push_null_sentinel st) by apply Hget.
  assert (Ea : push_array_mt st' = push_array_mt st) by apply Hget.
  assert (Eo : push_object_mt st' = push_object_mt st) by apply Hget.
  apply denotes_mutind; try by constructor.
  - intros Hn. rewrite <- En. apply den_null. by rewrite En.
  - intros a tb l Ha Ho Hk _ IH. apply (den_arr lo' st' a tb); [lia| |done|done]. rewrite Ea. by apply Hheap.
  - intros a tb l Ha Ho Hk _ IH. apply (den_obj lo' st' a tb); [lia| |done|done]. rewrite Eo. by apply Hheap.
Qed.

(** What parsing does to the state: new tables, and writes to table [a] only. *)
Record grows (a : positive) (st st' : lua_state T) : Prop := {
  grows_reg : registry st' = registry st;
  grows_frames : frames st' = frames st;
  grows_next : (next_ref st <= next_ref st')%positive;
  grows_heap : forall b, (b < next_ref st)%positive -> b <> a -> heap st' !! b = heap st !! b;
  grows_ok : state_ok st'
}.

Lemma grows_trans a b st st1 st2 :
  grows a st st1 -> grows b st1 st2 -> (next_ref st <= b)%positive \/ b = a -> grows a st st2.
Proof.
  intros [H1 H2 H3 H4 H5] [K1 K2 K3 K4 K5] Hb. constructor; [congruence|congruence|lia| |done].
  intros c Hc Hne. rewrite K4 by (lia || (intros ->; destruct Hb; [lia|congruence])). by apply H4.
Qed.
Lemma grows_keeps a lo st st' : state_ok st -> grows a st st' -> (a < lo)%positive -> keeps lo st st'.
Proof.
  intros Hok [H1 _ _ H4 _] Ha. split; [done|]. intros b o Hb Ho. rewrite H4; [done|by eapply Hok|lia].
Qed.

Lemma rawset_grows st a o k v :
  state_ok st -> heap st !! a = Some o ->
  exists st', lua_rawset st a k v = Ret st' /\ grows a st st' /\
    heap st' !! a = Some (mk_tobj (t_set (tab o) k v) (meta o)).
Proof.
  intros Hok Ho. unfold lua_rawset, with_table. rewrite Ho. eexists. split; [done|]. split.
  - constructor; cbn; try done; [|by eapply put_table_ok]. intros b _ Hne. by rewrite lookup_insert_ne.
  - cbn. by rewrite lookup_insert_eq.
Qed.

(** A new table with a metatable. *)
Lemma newtable_grows st mt a st1 :
  state_ok st -> lua_newtable st = (a, st1) ->
  a = next_ref st /\ next_ref st1 = Pos.succ a /\
  exists st2, lua_setmetatable st1 a mt = Ret st2 /\ (forall b, b <> a -> heap st2 !! b = heap st !! b) /\
    registry st2 = registry st /\ frames st2 = frames st /\ next_ref st2 = Pos.succ a /\ state_ok st2 /\
    heap st2 !! a = Some (mk_tobj t_empty (mt_of mt)).
Proof.
  intros Hok E. pose proof (newtable_ok _ _ _ E Hok) as Hok1. injection E as <- <-. split; [done|]. split; [done|].
  unfold lua_setmetatable, with_table. cbn [heap]. rewrite lookup_insert_eq. eexists. split; [reflexivity|].
  split; [|split; [done|split; [done|split; [done|split]]]].
  - intros b Hb. cbn. by rewrite !lookup_insert_ne.
  - eapply put_table_ok; [done|]. cbn. by rewrite lookup_insert_eq.
  - cbn. by rewrite lookup_insert_eq.
Qed.
End Denotes.

(** ** Parsing what was printed *)

Lemma num_ok_spec d :
  num_ok d = true ->
  print_num d = fmt_14g d /\ strtod (fmt_14g d) = (d, []) /\ (if d_iszero d then 0 else d) = d /\
  Forall (fun c => is_delim c = false) (fmt_14g d) /\ Zlen (fmt_14g d) <= 41 /\
  exists c r, fmt_14g d = c :: r /\ (is_digit c || (c =? 45)) = true.
Proof.
  unfold num_ok. rewrite !andb_true_iff, !negb_true_iff. intros [[[Hnan Hinf] Hz] Hs%bool_decide_eq_true].
  assert (Hd : (if d_iszero d then 0 else d) = d) by (destruct (d_iszero d); [cbn in Hz; lia|done]).
  destruct (fmt_14g_text d Hnan Hinf) as (Ht & Hl & c & r & E & Hc). unfold print_num. rewrite Hd.
  repeat split; try done.
  - eapply Forall_impl; [exact Ht|]. intros x. unfold num_char, is_delim, is_space, is_digit. rewrite orb_true_iff.
    intros [Hx|Hx%bool_decide_eq_true]; [lia|]. rewrite !elem_of_cons in Hx. destruct Hx as [->|[->|[->|[->|Hx]]]]; try done.
    by apply not_elem_of_nil in Hx.
  - rewrite E. destruct (d_neg d); cbn [app]; eexists _, _; (split; [done|]); [done|]. by rewrite Hc.
Qed.

Definition value_start (c : Z) : Prop := is_space c = false /\ c <> 93 /\ c <> 125.

Lemma print_head nulls t : tree_ok nulls t = true -> exists c r, print t = c :: r /\ value_start c.
Proof.
  intros Hok. destruct t as [|[]|d|s|l|l]; cbn [print]; try (by eexists _, _).
  destruct (num_ok_spec d Hok) as (-> & _ & _ & _ & _ & c & r & -> & Hc). eexists _, _. split; [done|].
  unfold value_start, is_space, is_digit in *. lia.
Qed.

(** The head of what follows an element. *)
Lemma commas_cons x l : commas (x :: l) = x ++ commas_from false l.
Proof. apply (commas_from_cons true). Qed.

Lemma tail_comma x l : commas_from false (x :: l) = 44 :: commas (x :: l).
Proof. by rewrite commas_cons, commas_from_cons. Qed.

Section Parse.
Context {T : Type} `{LuaTable T}.

(** [json.null] is the sentinel, and the module table is older than [lo]. *)
Definition null_below (lo : positive) (st : lua_state T) : Prop :=
  exists m o, reg_get st JSON_MOD_KEY = LTable m /\ (m < lo)%positive /\ heap st !! m = Some o /\
    t_get (tab o) (LStr (lit "null")) = push_null_sentinel st /\ push_null_sentinel st <> LNil.

Lemma null_grows lo a st st' :
  null_below lo st -> grows a st st' -> (lo <= a)%positive -> (lo <= next_ref st)%positive -> null_below lo st'.
Proof.
  intros (m & o & Hm & Hlt & Ho & Hn & Hs) [Hreg _ _ Hh _] Ha Hlo. exists m, o. unfold push_null_sentinel, reg_get in *.
  rewrite Hreg. split; [done|]. split; [done|]. split; [|done]. rewrite Hh; [done|lia|lia].
Qed.

Lemma parse_string_print (st : lua_state T) pre l post :
  bytes_ok l ->
  parse_string st (pre ++ print_string l ++ post) (Zlen pre) = Ret (l, Zlen pre + Zlen (print_string l)).
Proof.
  intros Hok. unfold parse_string, print_string.
  assert (E : pre ++ ([34] ++ concat (map print_char l) ++ [34]) ++ post =
    (pre ++ [34]) ++ concat (map print_char l) ++ 34 :: post) by (rewrite <- !app_assoc; done).
  destruct (Z.leb_spec (Zlen (pre ++ ([34] ++ concat (map print_char l) ++ [34]) ++ post)) (Zlen pre)) as [Hle|_].
  { zlen. pose proof (Zlen_nonneg (concat (map print_char l))). pose proof (Zlen_nonneg post). lia. }
  rewrite E. rewrite <- (app_assoc pre) at 1. cbn [app orb]. rewrite char_at_app. cbn [Z.eqb Pos.eqb negb].
  assert (Hl : Zlen pre + 1 = Zlen (pre ++ [34])) by (zlen; lia). rewrite Hl.
  assert (Hlen : (length l <= length (concat (map print_char l)))%nat).
  { clear. induction l as [|c l IH]; [done|]. cbn [map concat length]. rewrite length_app.
    enough (1 <= length (print_char c))%nat by lia. unfold print_char, escape.
    repeat case_match; cbn; lia. }
  rewrite string_loop_print; [|done|rewrite !length_app; cbn [length]; lia|pose proof (Zlen_nonneg pre); lia].
  rewrite zdrop_all by lia. cbn [app]. zlen. do 2 f_equal. lia.
Qed.

(** [parse_value] on a printed tree. *)
Definition parses (nulls : bool) (t : json) : Prop :=
  forall fuel (st : lua_state T) pre post,
    state_ok st -> (nulls = true -> null_below (next_ref st) st) -> tree_ok nulls t = true -> ends post ->
    (2 * length (print t) + 1 <= fuel)%nat ->
    exists v st', parse_value fuel st (pre ++ print t ++ post) (Zlen pre) = Ret (v, Zlen pre + Zlen (print t), st') /\
      grows (next_ref st) st st' /\ denotes (next_ref st) st' v t.

Lemma grows_refl a (st : lua_state T) : state_ok st -> grows a st st.
Proof. intros Hok. by constructor. Qed.

Lemma literal_parses t (st : lua_state T) v fuel pre post :
  print t = lit "true" \/ print t = lit "false" \/ print t = lit "null" ->
  parse_literal st (pre ++ print t ++ post) (Zlen pre) = Ret (v, Zlen pre + Zlen (print t)) ->
  (0 < fuel)%nat -> parse_value fuel st (pre ++ print t ++ post) (Zlen pre) = Ret (v, Zlen pre + Zlen (print t), st).
Proof.
  intros Hw E Hf. destruct fuel as [|fuel]; [lia|]. rewrite parse_value_S. cbv zeta.
  destruct (Z.leb_spec (Zlen (pre ++ print t ++ post)) (Zlen pre)) as [Hle|_].
  { exfalso. zlen. pose proof (Zlen_nonneg post). assert (0 < Zlen (print t)) by (by destruct Hw as [->|[->| ->]]). lia. }
  assert (exists c r, print t = c :: r /\ (c = 116 \/ c = 102 \/ c = 110)) as (c & r & Ep & Hc).
  { destruct Hw as [->|[->| ->]]; cbn; eauto 6. }
  assert (Ech : char_at (pre ++ print t ++ post) (Zlen pre) = c) by (rewrite Ep; apply char_at_app).
  rewrite Ech, E. by destruct Hc as [->|[->| ->]].
Qed.

Lemma literal_word (st : lua_state T) pre w post :
  Forall (fun c => is_delim c = false) w -> ends post ->
  parse_literal st (pre ++ w ++ post) (Zlen pre) =
    (if bool_decide (w = lit "true") then mret (LBool true, Zlen pre + Zlen w)
     else if bool_decide (w = lit "false") then mret (LBool false, Zlen pre + Zlen w)
     else if bool_decide (w = lit "null") then mret (module_null st, Zlen pre + Zlen w)
     else decode_error_at st (pre ++ w ++ post) (Zlen pre) (snprintf 64 (lit "invalid literal '" ++ cstr (ztake 31 w) ++ lit "'"))).
Proof.
  intros Hw He. unfold parse_literal. rewrite next_delim by done.
  replace (Zlen pre + Zlen w - Zlen pre) with (Zlen w) by lia.
  by rewrite zdrop_app_exact, ztake_app_exact by done.
Qed.

Lemma ends_comma w : ends (44 :: w).
Proof. done. Qed.

(** The next index after an item, with no blanks in the way. *)
Lemma item_end pre w c post : is_space c = false ->
  next_char (pre ++ w ++ c :: post) (Zlen pre + Zlen w) is_space true = Zlen pre + Zlen w /\
  char_at (pre ++ w ++ c :: post) (Zlen pre + Zlen w) = c /\
  (Zlen (pre ++ w ++ c :: post) <=? Zlen pre + Zlen w) = false.
Proof.
  intros Hc. rewrite app_assoc, <- Zlen_app. split; [by apply next_char_here|]. split; [apply char_at_app|].
  zlen. pose proof (Zlen_nonneg post). lia.
Qed.

(** Table [tb'] is [tb] with values of [l] stored from index [n] on. *)
Record stored (tb tb' : T) (n : Z) (len : Z) : Prop := {
  stored_get : forall i, i < n -> t_get tb' (LInt i) = t_get tb (LInt i);
  stored_keys : forall k v, (k, v) ∈ t_pairs tb' -> (k, v) ∈ t_pairs tb \/ exists i, k = LInt i /\ n <= i < n + len
}.

Lemma stored_step tb tb' n len v :
  0 <= len -> stored (t_set tb (LInt n) v) tb' (n + 1) len -> stored tb tb' n (1 + len).
Proof.
  intros Hlen [Hg Hk]. split.
  - intros i Hi. rewrite Hg by lia. rewrite t_get_set by done. destruct (decide _) as [[= ->]|]; [lia|done].
  - intros k w Hin. destruct (Hk k w Hin) as [Hin'|(i & -> & Hi)]; [|right; exists i; split; [done|lia]].
    destruct (decide (k = LInt n)) as [->|Hne]; [right; exists n; split; [done|lia]|].
    left. by rewrite t_pairs_set in Hin'.
Qed.

(** Storing a freshly parsed value into the table under construction. *)
Lemma store_step (st st1 : lua_state T) a tb mt k v x :
  state_ok st -> heap st !! a = Some (mk_tobj tb mt) -> grows (next_ref st) st st1 -> denotes (next_ref st) st1 v x ->
  exists st2, lua_rawset st1 a k v = Ret st2 /\ grows a st st2 /\
    heap st2 !! a = Some (mk_tobj (t_set tb k v) mt) /\
    (forall st3, grows a st2 st3 -> denotes (Pos.succ a) st3 v x) /\ (null_below a st -> null_below a st2).
Proof.
  intros Hst Ha Hg1 Hd1. pose proof (Hst _ _ Ha) as Halt.
  assert (Ha1 : heap st1 !! a = Some (mk_tobj tb mt)) by (rewrite (grows_heap _ _ _ Hg1); [done|lia|lia]).
  destruct (rawset_grows st1 a _ k v (grows_ok _ _ _ Hg1) Ha1) as (st2 & E2 & Hg2 & Ha2). cbn [tab meta] in *.
  assert (Hg12 : grows a st st2).
  { destruct Hg1 as [A1 A2 A3 A4 A5]. destruct Hg2 as [B1 B2 B3 B4 B5].
    constructor; [congruence|congruence|lia| |done]. intros b Hb Hne. rewrite B4 by (done || lia). apply A4; lia. }
  assert (Hk : forall st3, grows a st2 st3 -> keeps (next_ref st) st1 st3).
  { intros st3 Hg3. pose proof (grows_keeps a (next_ref st) st1 st2 (grows_ok _ _ _ Hg1) Hg2 Halt) as [R1 K1].
    pose proof (grows_keeps a (next_ref st) st2 st3 (grows_ok _ _ _ Hg2) Hg3 Halt) as [R2 K2].
    split; [congruence|auto]. }
  exists st2. split; [done|]. split; [done|]. split; [done|]. split.
  - intros st3 Hg3. exact (proj1 (denotes_keeps (next_ref st) (Pos.succ a) st1 st3 (Hk st3 Hg3) ltac:(lia)) v x Hd1).
  - intros Hn. eapply null_grows; [done|done|lia|lia].
Qed.

Section Loops.
Context (nulls : bool).

Lemma array_loop_print l : forall fuel (st : lua_state T) pre post a tb mt n,
  Forall (parses nulls) l -> Forall (fun x => tree_ok nulls x = true) l ->
  state_ok st -> (nulls = true -> null_below a st) -> heap st !! a = Some (mk_tobj tb mt) ->
  (2 * (length (commas (map print l)) + 1) + 2 <= fuel)%nat ->
  exists st' tb', array_loop fuel st (pre ++ commas (map print l) ++ 93 :: post) (Zlen pre) a n =
      Ret (Zlen pre + Zlen (commas (map print l)) + 1, st') /\
    grows a st st' /\ heap st' !! a = Some (mk_tobj tb' mt) /\ stored tb tb' n (Zlen l) /\
    den_elems (Pos.succ a) st' tb' n l.
Proof.
  induction l as [|x l IH]; intros fuel st pre post a tb mt n Hp Hok Hst Hnull Ha Hf.
  - destruct fuel as [|fuel]; [lia|]. cbn [map commas app]. rewrite array_loop_S. cbv zeta. rewrite next_char_here by done.
    rewrite char_at_app. destruct (Z.ltb_spec (Zlen pre) (Zlen (pre ++ 93 :: post))) as [_|Hge].
    2:{ zlen. pose proof (Zlen_nonneg post). lia. }
    exists st, tb. split; [cbn; do 2 f_equal; zlen; lia|]. split; [by apply grows_refl|]. split; [done|].
    split; [split; [done|by left]|constructor].
  - apply Forall_cons in Hp as [Hpx Hp], Hok as [Hokx Hok]. cbn [map] in *. rewrite commas_cons in *.
    destruct fuel as [|fuel]; [lia|]. rewrite array_loop_S. cbv zeta.
    destruct (print_head nulls x Hokx) as (c & r & Ec & Hsp & H93 & _).
    set (tail := commas_from false (map print l)) in *.
    assert (Es : pre ++ (print x ++ tail) ++ 93 :: post = pre ++ print x ++ tail ++ 93 :: post) by (by rewrite <- app_assoc).
    rewrite Es.
    assert (E1 : next_char (pre ++ print x ++ tail ++ 93 :: post) (Zlen pre) is_space true = Zlen pre)
      by (rewrite Ec; by apply next_char_here).
    assert (E2 : char_at (pre ++ print x ++ tail ++ 93 :: post) (Zlen pre) = c) by (rewrite Ec; apply char_at_app).
    rewrite E1, E2. destruct (Z.eqb_spec c 93) as [|_]; [done|]. rewrite andb_false_r.
    pose proof (Hst _ _ Ha) as Halt.
    destruct (Hpx fuel st pre (tail ++ 93 :: post)) as (v & st1 & -> & Hg1 & Hd1); [done| |done| | |].
    { intros E. destruct (Hnull E) as (m & o & ? & ? & ?). exists m, o. split; [done|]. split; [lia|done]. }
    { unfold tail. by destruct (map print l). }
    { rewrite length_app in Hf. lia. }
    cbn [mbind outcome_bind].
    destruct (store_step st st1 a tb mt (LInt n) v x Hst Ha Hg1 Hd1) as (st2 & -> & Hg12 & Ha2 & Hd2 & Hn2).
    cbn [mbind outcome_bind].
    destruct l as [|y l].
    + unfold tail, commas_from. cbn [map concat app].
      destruct (item_end pre (print x) 93 post) as (-> & -> & ->); [done|]. cbn [Z.eqb Pos.eqb].
      exists st2, (t_set tb (LInt n) v). split; [rewrite app_nil_r; done|]. split; [done|]. split; [done|]. split.
      * apply (stored_step _ _ _ 0 v); [lia|]. split; [done|by left].
      * constructor; [|constructor]. rewrite t_get_set by done. destruct (decide _); [|done].
        apply Hd2, grows_refl, (grows_ok _ _ _ Hg12).
    + unfold tail. cbn [map]. rewrite tail_comma. cbn [app].
      destruct (item_end pre (print x) 44 (commas (print y :: map print l) ++ 93 :: post)) as (-> & -> & ->); [done|].
      cbn [Z.eqb Pos.eqb negb].
      destruct (IH fuel st2 (pre ++ print x ++ [44]) post a (t_set tb (LInt n) v) mt (n + 1))
        as (st3 & tb3 & E3 & Hg3 & Ha3 & Hs3 & Hd3); [done|done|apply (grows_ok _ _ _ Hg12)|auto|done| |].
      { unfold tail in Hf. cbn [map] in Hf. rewrite tail_comma, length_app in Hf. cbn [map length] in *. lia. }
      assert (Hl3 : Zlen (pre ++ print x ++ [44]) = Zlen pre + Zlen (print x) + 1) by (zlen; lia).
      rewrite Hl3, <- !app_assoc in E3. cbn [map app] in E3. rewrite E3. exists st3, tb3. split.
      { do 2 f_equal. zlen. lia. }
      split; [eapply grows_trans; [exact Hg12|exact Hg3|by right]|]. split; [done|]. split.
      * rewrite Zlen_cons. eapply stored_step; [apply Zlen_nonneg|exact Hs3].
      * constructor; [|done]. rewrite (stored_get _ _ _ _ Hs3) by lia. rewrite t_get_set by done.
        destruct (decide _); [|done].
        by apply Hd2.
Qed.

(** Table [tb'] is [tb] with the members of [l] stored. *)
Definition stored_members (tb tb' : T) (ks : list (list Z)) : Prop :=
  (forall k, k ∉ ks -> t_get tb' (LStr k) = t_get tb (LStr k)) /\
  (forall k v, (k, v) ∈ t_pairs tb' -> (k, v) ∈ t_pairs tb \/ exists s, k = LStr s /\ s ∈ ks).

Lemma stored_members_step tb tb' k ks v :
  stored_members (t_set tb (LStr k) v) tb' ks -> stored_members tb tb' (k :: ks).
Proof.
  intros [Hg Hk]. split.
  - intros i Hi. rewrite not_elem_of_cons in Hi. destruct Hi as [Hne Hi]. rewrite Hg by done. rewrite t_get_set by done.
    destruct (decide _); congruence.
  - intros k' w Hin. destruct (Hk k' w Hin) as [Hin'|(i & -> & Hi)]; [|right; exists i; split; [done|by right]].
    destruct (decide (k' = LStr k)) as [->|Hne]; [right; exists k; split; [done|by left]|].
    left. by rewrite t_pairs_set in Hin'.
Qed.

(** A member [k : x] up to its end: the key, the colon, the value. *)
Lemma member_print (st : lua_state T) fuel pre k x post :
  parses nulls x -> tree_ok nulls x = true -> bytes_ok k -> state_ok st ->
  (nulls = true -> null_below (next_ref st) st) -> ends post -> (2 * length (print x) + 1 <= fuel)%nat ->
  let s := pre ++ print_member (k, x) ++ post in
  let i1 := Zlen pre + Zlen (print_string k) in
  next_char s (Zlen pre) is_space true = Zlen pre /\ char_at s (Zlen pre) = 34 /\ (Zlen s <=? Zlen pre) = false /\
  parse_string st s (Zlen pre) = Ret (k, i1) /\
  next_char s i1 is_space true = i1 /\ char_at s i1 = 58 /\ (Zlen s <=? i1) = false /\
  next_char s (i1 + 1) is_space true = i1 + 1 /\
  exists v st1, parse_value fuel st s (i1 + 1) = Ret (v, Zlen pre + Zlen (print_member (k, x)), st1) /\
    grows (next_ref st) st st1 /\ denotes (next_ref st) st1 v x.
Proof.
  intros Hp Hx Hk Hst Hn He Hf s i1.
  assert (E1 : s = pre ++ 34 :: (concat (map print_char k) ++ [34]) ++ 58 :: print x ++ post).
  { unfold s. rewrite print_member_eq. unfold print_string. by rewrite <- !app_assoc. }
  assert (E2 : s = pre ++ print_string k ++ 58 :: print x ++ post).
  { rewrite E1. done. }
  assert (E3 : s = (pre ++ print_string k ++ [58]) ++ print x ++ post).
  { rewrite E2, <- !app_assoc. done. }
  assert (Hi1 : i1 + 1 = Zlen (pre ++ print_string k ++ [58])) by (unfold i1; zlen; lia).
  destruct (print_head nulls x Hx) as (c & r & Ec & Hsp & _ & _).
  split; [rewrite E1; by apply next_char_here|]. split; [rewrite E1; apply char_at_app|].
  split; [rewrite E1; zlen; pose proof (Zlen_nonneg post); pose proof (Zlen_nonneg (print x)); pose proof (Zlen_nonneg (concat (map print_char k))); lia|].
  split; [rewrite E2; by apply parse_string_print|].
  destruct (item_end pre (print_string k) 58 (print x ++ post)) as (N1 & C1 & L1); [done|]. rewrite <- E2 in *.
  split; [done|]. split; [done|]. split; [done|]. split.
  { rewrite Hi1, E3, Ec. by apply next_char_here. }
  destruct (Hp fuel st (pre ++ print_string k ++ [58]) post Hst Hn Hx He Hf) as (v & st1 & E & Hg & Hd).
  exists v, st1. split; [|done]. rewrite Hi1, E3, E. do 3 f_equal. rewrite print_member_eq. zlen. lia.
Qed.

Lemma object_loop_print l : forall fuel (st : lua_state T) pre post a tb mt,
  Forall (fun p => parses nulls p.2) l -> Forall (fun p => bytes_ok p.1 /\ tree_ok nulls p.2 = true) l ->
  NoDup (map fst l) ->
  state_ok st -> (nulls = true -> null_below a st) -> heap st !! a = Some (mk_tobj tb mt) ->
  (2 * (length (commas (map print_member l)) + 1) + 2 <= fuel)%nat ->
  exists st' tb', object_loop fuel st (pre ++ commas (map print_member l) ++ 125 :: post) (Zlen pre) a =
      Ret (Zlen pre + Zlen (commas (map print_member l)) + 1, st') /\
    grows a st st' /\ heap st' !! a = Some (mk_tobj tb' mt) /\ stored_members tb tb' (map fst l) /\
    den_members (Pos.succ a) st' tb' l.
Proof.
  induction l as [|[k x] l IH]; intros fuel st pre post a tb mt Hp Hok Hnd Hst Hnull Ha Hf.
  - destruct fuel as [|fuel]; [lia|]. cbn [map commas app]. rewrite object_loop_S. cbv zeta.
    rewrite next_char_here, char_at_app by done. destruct (Z.ltb_spec (Zlen pre) (Zlen (pre ++ 125 :: post))) as [_|Hge].
    2:{ zlen. pose proof (Zlen_nonneg post). lia. }
    exists st, tb. split; [cbn; do 2 f_equal; zlen; lia|]. split; [by apply grows_refl|]. split; [done|].
    split; [split; [done|by left]|constructor].
  - apply Forall_cons in Hp as [Hpx Hp], Hok as [[Hk Hokx] Hok]. cbn [fst snd] in *.
    cbn [map] in Hnd. apply NoDup_cons in Hnd as [Hkl Hnd]. cbn [map] in *. rewrite commas_cons in *.
    destruct fuel as [|fuel]; [lia|]. rewrite object_loop_S. cbv zeta.
    set (tail := commas_from false (map print_member l)) in *.
    assert (Es : pre ++ (print_member (k, x) ++ tail) ++ 125 :: post = pre ++ print_member (k, x) ++ tail ++ 125 :: post)
      by (by rewrite <- app_assoc).
    rewrite Es. pose proof (Hst _ _ Ha) as Halt.
    destruct (member_print st fuel pre k x (tail ++ 125 :: post) Hpx Hokx Hk Hst) as
      (N0 & C0 & L0 & P0 & N1 & C1 & L1 & N2 & v & st1 & E1 & Hg1 & Hd1).
    { intros E. destruct (Hnull E) as (m & o & ? & ? & ?). exists m, o. split; [done|]. split; [lia|done]. }
    { unfold tail. by destruct (map print_member l). }
    { rewrite length_app, print_member_eq, !length_app in Hf. lia. }
    rewrite N0, C0, L0, P0. rewrite andb_false_r. cbn [Z.eqb Pos.eqb andb orb negb mbind outcome_bind].
    rewrite N1, C1, L1, N2, E1. cbn [Z.eqb Pos.eqb andb orb negb mbind outcome_bind].
    destruct (store_step st st1 a tb mt (LStr k) v x Hst Ha Hg1 Hd1) as (st2 & -> & Hg12 & Ha2 & Hd2 & Hn2).
    cbn [mbind outcome_bind]. destruct l as [|y l].
    + unfold tail, commas_from. cbn [map concat app].
      destruct (item_end pre (print_member (k, x)) 125 post) as (-> & -> & ->); [done|]. cbn [Z.eqb Pos.eqb].
      exists st2, (t_set tb (LStr k) v). split; [rewrite app_nil_r; done|]. split; [done|]. split; [done|]. split.
      * eapply stored_members_step. split; [done|by left].
      * constructor; [|constructor]. rewrite t_get_set by done. destruct (decide _); [|done].
        apply Hd2, grows_refl, (grows_ok _ _ _ Hg12).
    + unfold tail. cbn [map]. rewrite tail_comma. cbn [app].
      destruct (item_end pre (print_member (k, x)) 44 (commas (print_member y :: map print_member l) ++ 125 :: post))
        as (-> & -> & ->); [done|]. cbn [Z.eqb Pos.eqb negb].
      destruct (IH fuel st2 (pre ++ print_member (k, x) ++ [44]) post a (t_set tb (LStr k) v) mt)
        as (st3 & tb3 & E3 & Hg3 & Ha3 & Hs3 & Hd3); [done|done|done|apply (grows_ok _ _ _ Hg12)|auto|done| |].
      { unfold tail in Hf. cbn [map] in Hf. rewrite tail_comma, length_app in Hf. cbn [map length] in *. lia. }
      assert (Hl3 : Zlen (pre ++ print_member (k, x) ++ [44]) = Zlen pre + Zlen (print_member (k, x)) + 1) by (zlen; lia).
      rewrite Hl3, <- !app_assoc in E3. cbn [map app] in E3. rewrite E3. exists st3, tb3. split.
      { do 2 f_equal. zlen. lia. }
      split; [eapply grows_trans; [exact Hg12|exact Hg3|by right]|]. split; [done|]. split.
      * eapply stored_members_step. exact Hs3.
      * constructor; [|done]. rewrite (proj1 Hs3 k Hkl). rewrite t_get_set by done.
        destruct (decide _); [|done]. by apply Hd2.
Qed.

(** The dispatch of [parse_value] on the first character. *)
Lemma parse_value_head pre c r :
  (Zlen (pre ++ c :: r) <=? Zlen pre) = false /\ char_at (pre ++ c :: r) (Zlen pre) = c.
Proof. split; [zlen; pose proof (Zlen_nonneg r); lia|apply char_at_app]. Qed.

Lemma number_parses d : parses nulls (JNum d).
Proof.
  intros fuel st pre post Hst _ Hok He Hf. destruct fuel as [|fuel]; [lia|].
  destruct (num_ok_spec d Hok) as (Hp & Hs & Hz & Hdel & Hlen & c & r & Ec & Hc). cbn [print]. rewrite Hp.
  rewrite parse_value_S. cbv zeta. exists (LFlt d), st. split; [|split; [by apply grows_refl|constructor]].
  assert (pre ++ fmt_14g d ++ post = pre ++ c :: (r ++ post)) as E by (by rewrite Ec).
  destruct (parse_value_head pre c (r ++ post)) as [Hl Hch]. rewrite <- E in Hl, Hch. rewrite Hl, Hch.
  destruct (Z.eqb_spec c 34) as [->|_]; [done|]. rewrite Hc.
  assert (En : parse_number st (pre ++ fmt_14g d ++ post) (Zlen pre) = Ret (LFlt d, Zlen pre + Zlen (fmt_14g d))).
  { unfold parse_number. rewrite next_delim by done.
    replace (Zlen pre + Zlen (fmt_14g d) - Zlen pre) with (Zlen (fmt_14g d)) by lia.
    assert (0 < Zlen (fmt_14g d)) by (rewrite Ec; zlen; pose proof (Zlen_nonneg r); lia).
    destruct (Z.eqb_spec (Zlen (fmt_14g d)) 0), (Z.leb_spec 128 (Zlen (fmt_14g d))); try lia. cbn [orb].
    rewrite zdrop_app_exact, ztake_app_exact by done. by rewrite Hs, Hz. }
  by rewrite En.
Qed.

Lemma table_parses (obj : bool) fuel (st : lua_state T) pre w post :
  state_ok st -> (0 < fuel)%nat ->
  let s := pre ++ (if obj then 123 else 91) :: w ++ post in
  let mt := if obj then push_object_mt st else push_array_mt st in
  let a := next_ref st in
  exists st2, state_ok st2 /\ heap st2 !! a = Some (mk_tobj t_empty (mt_of mt)) /\
    registry st2 = registry st /\ frames st2 = frames st /\ next_ref st2 = Pos.succ a /\
    (forall b, b <> a -> heap st2 !! b = heap st !! b) /\
    parse_value fuel st s (Zlen pre) =
      (if obj then '(i, st) ← object_loop (fuel - 1) st2 s (Zlen pre + 1) a; mret (LTable a, i, st)
       else '(i, st) ← array_loop (fuel - 1) st2 s (Zlen pre + 1) a 1; mret (LTable a, i, st)).
Proof.
  intros Hst Hf s mt a. destruct fuel as [|fuel]; [lia|].
  destruct (lua_newtable st) as [a' st1] eqn:Enew. destruct (newtable_grows st mt a' st1 Hst Enew) as
    (-> & _ & st2 & Eset & Hh & Hr & Hfr & Hnx & Hok2 & Ha). exists st2. do 6 (split; [done|]).
  rewrite parse_value_S. cbv zeta. destruct (parse_value_head pre (if obj then 123 else 91) (w ++ post)) as [Hl Hch].
  fold s in Hl, Hch. rewrite Hl, Hch, Enew.
  assert (Hmt : (if obj then push_object_mt st1 else push_array_mt st1) = mt) by (injection Enew as <-; done).
  replace (S fuel - 1)%nat with fuel by lia. destruct obj; cbn; rewrite Hmt, Eset; done.
Qed.

(** The state after the loop, seen from before the table was made. *)
Lemma table_grows (st st2 st3 : lua_state T) :
  state_ok st -> registry st2 = registry st -> frames st2 = frames st -> next_ref st2 = Pos.succ (next_ref st) ->
  (forall b, b <> next_ref st -> heap st2 !! b = heap st !! b) -> grows (next_ref st) st2 st3 -> grows (next_ref st) st st3.
Proof.
  intros Hst H1 H2 H3 H4 [K1 K2 K3 K4 K5]. constructor; [congruence|congruence|lia| |done].
  intros b Hb Hne. rewrite K4 by (lia || done). by apply H4.
Qed.
Lemma null_new (st st2 : lua_state T) :
  null_below (next_ref st) st -> registry st2 = registry st ->
  (forall b, b <> next_ref st -> heap st2 !! b = heap st !! b) -> null_below (next_ref st) st2.
Proof.
  intros (m & o & Hm & Hlt & Ho & Hn) H1 H4. exists m, o. unfold push_null_sentinel, reg_get in *. rewrite H1.
  split; [done|]. split; [done|]. split; [|done]. rewrite H4; [done|lia].
Qed.

Lemma array_parses l : Forall (parses nulls) l -> parses nulls (JArr l).
Proof.
  intros Hp fuel st pre post Hst Hn Hok He Hf. cbn [tree_ok] in Hok. apply andb_true_iff in Hok as [Hok _].
  apply forallb_Forall in Hok. cbn [print] in *. rewrite !length_app in Hf. cbn [length] in Hf.
  destruct (table_parses false fuel st pre (commas (map print l) ++ [93]) post Hst) as
    (st2 & Hst2 & Ha & Hr & Hfr & Hnx & Hh & E); [lia|]. cbn [app] in E |- *. rewrite E.
  destruct (array_loop_print l (fuel - 1) st2 (pre ++ [91]) post (next_ref st) t_empty
    (mt_of (push_array_mt st)) 1) as (st3 & tb & El & Hg & Ha3 & Hs & Hd); [done|done|done| |done|lia|].
  { intros Hnn. by eapply null_new; [apply Hn| |]. }
  assert (Hl1 : Zlen (pre ++ [91]) = Zlen pre + 1) by (zlen; lia).
  rewrite Hl1, <- !app_assoc in El. cbn [app] in El. rewrite <- app_assoc. cbn [app]. rewrite El. cbn [mbind outcome_bind].
  exists (LTable (next_ref st)), st3. split; [cbn; do 3 f_equal; zlen; lia|].
  split; [by eapply table_grows|].
  assert (Hmt : push_array_mt st3 = push_array_mt st).
  { unfold push_array_mt, reg_get. by rewrite (grows_reg _ _ _ Hg), Hr. }
  apply (den_arr _ _ _ tb); [lia|by rewrite Hmt| |].
  - intros k v Hin. destruct (stored_keys _ _ _ _ Hs k v Hin) as [Hin'|(i & -> & Hi)]; [|exists i; split; [done|lia]].
    rewrite t_pairs_empty in Hin'. by apply not_elem_of_nil in Hin'.
  - eapply (denotes_keeps (Pos.succ (next_ref st)) (next_ref st) st3 st3); [by split|lia|done].
Qed.

Lemma object_parses l : Forall (fun p => parses nulls p.2) l -> parses nulls (JObj l).
Proof.
  intros Hp fuel st pre post Hst Hn Hok He Hf. cbn [tree_ok] in Hok. apply andb_true_iff in Hok as [Hok Hnd].
  apply forallb_Forall in Hok. apply bool_decide_eq_true in Hnd.
  assert (Hok' : Forall (fun p => bytes_ok p.1 /\ tree_ok nulls p.2 = true) l).
  { eapply Forall_impl; [exact Hok|]. intros p. cbn. rewrite andb_true_iff, bool_decide_eq_true. done. }
  cbn [print] in *. change (fun p => print_string p.1 ++ [58] ++ print p.2) with print_member in *.
  rewrite !length_app in Hf. cbn [length] in Hf.
  destruct (table_parses true fuel st pre (commas (map print_member l) ++ [125]) post Hst) as
    (st2 & Hst2 & Ha & Hr & Hfr & Hnx & Hh & E); [lia|]. cbn [app] in E |- *. rewrite E.
  destruct (object_loop_print l (fuel - 1) st2 (pre ++ [123]) post (next_ref st) t_empty
    (mt_of (push_object_mt st))) as (st3 & tb & El & Hg & Ha3 & Hs & Hd); [done|done|done|done| |done|lia|].
  { intros Hnn. by eapply null_new; [apply Hn| |]. }
  assert (Hl1 : Zlen (pre ++ [123]) = Zlen pre + 1) by (zlen; lia).
  rewrite Hl1, <- !app_assoc in El. cbn [app] in El. rewrite <- app_assoc. cbn [app]. rewrite El. cbn [mbind outcome_bind].
  exists (LTable (next_ref st)), st3. split; [cbn; do 3 f_equal; zlen; lia|].
  split; [by eapply table_grows|].
  assert (Hmt : push_object_mt st3 = push_object_mt st).
  { unfold push_object_mt, reg_get. by rewrite (grows_reg _ _ _ Hg), Hr. }
  apply (den_obj _ _ _ tb); [lia|by rewrite Hmt| |].
  - intros k v Hin. destruct (proj2 Hs k v Hin) as [Hin'|Hin']; [|done].
    rewrite t_pairs_empty in Hin'. by apply not_elem_of_nil in Hin'.
  - eapply (denotes_keeps (Pos.succ (next_ref st)) (next_ref st) st3 st3); [by split|lia|done].
Qed.

Lemma leaf_parses t v (st : lua_state T) :
  print t = lit "true" \/ print t = lit "false" \/ print t = lit "null" ->
  (forall pre post, ends post -> parse_literal st (pre ++ print t ++ post) (Zlen pre) = Ret (v, Zlen pre + Zlen (print t))) ->
  state_ok st -> denotes (next_ref st) st v t ->
  forall fuel pre post, ends post -> (0 < fuel)%nat ->
    exists v st', parse_value fuel st (pre ++ print t ++ post) (Zlen pre) = Ret (v, Zlen pre + Zlen (print t), st') /\
      grows (next_ref st) st st' /\ denotes (next_ref st) st' v t.
Proof.
  intros Hw Hl Hst Hd fuel pre post He Hf. exists v, st. split; [|split; [by apply grows_refl|done]].
  apply literal_parses; auto.
Qed.

Lemma parses_all n : forall t, (json_size t <= n)%nat -> parses nulls t.
Proof.
  induction n as [|n IH]; intros t Hsz; [by destruct t; cbn in Hsz; lia|].
  destruct t as [|b|d|str|l|l].
  - intros fuel st pre post Hst Hn Hok He Hf. cbn [tree_ok] in Hok. subst. destruct (Hn eq_refl) as (m & o & Hm & _ & Ho & Hnull & Hne).
    assert (Hmod : module_null st = push_null_sentinel st) by (unfold module_null; by rewrite Hm, Ho).
    apply (leaf_parses JNull (push_null_sentinel st)); [auto| |done|by apply den_null|done|lia].
    intros pre' post' He'. cbn [print]. rewrite literal_word by (done || by forall_done). cbn. by rewrite Hmod.
  - intros fuel st pre post Hst _ _ He Hf. apply (leaf_parses (JBool b) (LBool b)); [destruct b; auto| |done|constructor|done|lia].
    intros pre' post' He'. destruct b; cbn [print]; by rewrite literal_word by (done || by forall_done).
  - apply number_parses.
  - intros fuel st pre post Hst _ Hok He Hf. cbn [tree_ok print] in *. apply bool_decide_eq_true in Hok.
    destruct fuel as [|fuel]; [lia|]. exists (LStr str), st. split; [|split; [by apply grows_refl|constructor]].
    rewrite parse_value_S. cbv zeta. rewrite parse_string_print by done.
    assert (pre ++ print_string str ++ post = pre ++ 34 :: (concat (map print_char str) ++ [34]) ++ post) as E by done.
    destruct (parse_value_head pre 34 ((concat (map print_char str) ++ [34]) ++ post)) as [Hl Hch].
    rewrite <- E in Hl, Hch. by rewrite Hl, Hch.
  - apply array_parses. apply Forall_forall. intros x Hx. apply IH. cbn in Hsz.
    apply (sum_list_with_in _ json_size) in Hx. lia.
  - apply object_parses. apply Forall_forall. intros x Hx. apply IH. cbn in Hsz.
    apply (sum_list_with_in _ (fun p => json_size p.2)) in Hx. lia.
Qed.
End Loops.
End Parse.

(** ** From a decoded value back to text *)

(** Equal up to the order of object members, which [lua_next] does not keep. *)
#[warnings="-register-all"]
Inductive json_perm : json -> json -> Prop :=
  | perm_refl t : json_perm t t
  | perm_arr l l' : Forall2 json_perm l l' -> json_perm (JArr l) (JArr l')
  | perm_obj l l1 l' :
      Forall2 (fun p q => p.1 = q.1 /\ json_perm p.2 q.2) l l1 -> l1 ≡ₚ l' -> json_perm (JObj l) (JObj l').

Section Ready.
Context {T : Type} `{LuaTable T}.

(** What [luaopen_json] leaves in the registry. *)
Definition json_ready (st : lua_state T) : Prop :=
  exists am om u, push_array_mt st = LTable am /\ push_object_mt st = LTable om /\ am <> om /\
    push_null_sentinel st = LUserdata u.

Lemma elems_get lo st tb i l : den_elems lo st tb i l -> forall j, i <= j < i + Zlen l -> t_get tb (LInt j) <> LNil.
Proof.
  induction 1 as [tb i|tb i x l Hx _ IH]; intros j Hj; zlen; [lia|].
  destruct (Z.eq_dec j i) as [->|]; [by eapply denotes_not_nil|]. apply IH. lia.
Qed.

Lemma members_get lo st tb l : den_members lo st tb l -> forall s, s ∈ map fst l -> t_get tb (LStr s) <> LNil.
Proof.
  induction 1 as [tb|tb k x l Hx _ IH]; intros s Hs; cbn in Hs; [by apply not_elem_of_nil in Hs|].
  apply elem_of_cons in Hs as [->|Hs]; [by eapply denotes_not_nil|auto].
Qed.

(** A table holding exactly the elements [1 .. n]. *)
Lemma array_shape tb n :
  (forall k v, (k, v) ∈ t_pairs tb -> exists i, k = LInt i /\ 1 <= i <= n) ->
  (forall j, 1 <= j <= n -> t_get tb (LInt j) <> LNil) -> 0 <= n ->
  t_len tb = n /\ count_number_keys (t_pairs tb) 0 = Some n.
Proof.
  intros Hk Hg Hn. split.
  - apply Z.le_antisymm; apply Z.nlt_ge; intros Hlt.
    + assert (Hpos : 0 < t_len tb) by lia. pose proof (t_len_in tb Hpos) as Hin.
      destruct (Hk (LInt (t_len tb)) (t_get tb (LInt (t_len tb)))) as (i & [= <-] & Hi); [by apply t_pairs_get|lia].
    + apply (Hg (t_len tb + 1)); [pose proof (t_len_nonneg tb); lia|apply t_len_out].
  - assert (Hc : forall ps m, (forall k v, (k, v) ∈ ps -> is_number k = true) ->
      count_number_keys ps m = Some (m + Zlen ps)).
    { induction ps as [|[k v] ps IH]; intros m Hps; cbn [count_number_keys]; [by zlen; rewrite Z.add_0_r|].
      rewrite (Hps k v) by left. rewrite IH by (intros k' v' Hin; apply (Hps k' v'); by right). zlen. f_equal. lia. }
    rewrite Hc. 2:{ intros k v Hin. by destruct (Hk k v Hin) as (i & -> & _). }
    f_equal. assert (Hp : map fst (t_pairs tb) ≡ₚ map (fun i => LInt (Z.of_nat i)) (seq 1 (Z.to_nat n))).
    { apply NoDup_Permutation; [apply t_pairs_nodup| |].
      - apply (NoDup_fmap_2_strong (fun i => LInt (Z.of_nat i))); [intros i j _ _ [= E]; lia|apply NoDup_seq].
      - intros k. rewrite !list_elem_of_fmap. split.
        + intros ([k' v] & -> & Hin). destruct (Hk k' v Hin) as (i & -> & Hi). exists (Z.to_nat i).
          split; [cbn; f_equal; lia|apply elem_of_seq; lia].
        + intros (i & -> & Hi). apply elem_of_seq in Hi.
          exists (LInt (Z.of_nat i), t_get tb (LInt (Z.of_nat i))). split; [done|]. apply t_pairs_get; [done|].
          split; [done|]. apply Hg. lia. }
    apply Permutation_length in Hp. rewrite !length_map, length_seq in Hp. unfold Zlen. lia.
Qed.

(** A table holding exactly the members [l]. *)
Lemma object_shape tb (l : list (list Z * json)) :
  (forall k v, (k, v) ∈ t_pairs tb -> exists s, k = LStr s /\ s ∈ map fst l) -> NoDup (map fst l) ->
  (forall s, s ∈ map fst l -> t_get tb (LStr s) <> LNil) ->
  exists l', l ≡ₚ l' /\ t_pairs tb = map (fun p => (LStr p.1, t_get tb (LStr p.1))) l'.
Proof.
  intros Hk Hnd Hg.
  assert (Hp : t_pairs tb ≡ₚ map (fun p => (LStr p.1, t_get tb (LStr p.1))) l).
  { apply NoDup_Permutation.
    - apply (NoDup_fmap_1 fst), t_pairs_nodup.
    - clear -Hnd. induction l as [|[k x] l IH]; cbn in *; [constructor|]. apply NoDup_cons in Hnd as [Hk Hnd].
      apply NoDup_cons. split; [|auto]. intros (p & [= E _] & Hin)%list_elem_of_fmap. apply Hk. rewrite E.
      apply list_elem_of_fmap. by exists p.
    - intros [k v]. rewrite list_elem_of_fmap. split.
      + intros Hin. destruct (Hk k v Hin) as (s & -> & Hs). apply list_elem_of_fmap in Hs as (p & -> & Hp).
        exists p. split; [|done]. apply t_pairs_get in Hin as [-> _]; done.
      + intros (p & [= -> ->] & Hp). apply t_pairs_get; [done|]. split; [done|]. apply Hg.
        apply list_elem_of_fmap. by exists p. }
  apply Permutation_map_inv in Hp as (l' & E & Hp). by exists l'.
Qed.


Section Back.
Context `{LuaAPI} (nulls : bool) (lo : positive) (st : lua_state T) (Hready : json_ready st).

Lemma num_shows d : num_ok d = true -> shows st (LFlt d) (JNum d).
Proof.
  intros Hok. destruct Hready as (am & om & u & _ & _ & _ & Hnull).
  unfold num_ok in Hok. rewrite !andb_true_iff, !negb_true_iff in Hok. destruct Hok as [[[Hnan Hinf] _] _].
  pose proof (shows_num st (LFlt d)) as Hs. rewrite lua_tonumberx_flt in Hs. apply Hs; try done. by rewrite Hnull.
Qed.

Lemma denotes_shows :
  (forall v t, denotes lo st v t -> tree_ok nulls t = true -> exists t', json_perm t t' /\ shows st v t') /\
  (forall tb i l, den_elems lo st tb i l -> forallb (tree_ok nulls) l = true ->
    exists l', Forall2 json_perm l l' /\ shows_elements st tb i l') /\
  (forall tb l, den_members lo st tb l ->
    forallb (fun p => bool_decide (bytes_ok p.1) && tree_ok nulls p.2) l = true ->
    exists l', Forall2 (fun p q => p.1 = q.1 /\ json_perm p.2 q.2) l l' /\
      Forall (fun p => shows st (t_get tb (LStr p.1)) p.2) l').
Proof.
  pose proof Hready as (am & om & u & Ham & Hom & Hne & Hnull). apply denotes_mutind.
  - intros _ _. exists JNull. split; [constructor|apply shows_sentinel].
  - intros b _. exists (JBool b). split; [constructor|apply shows_bool]. by rewrite Hnull.
  - intros d Hok. exists (JNum d). split; [constructor|by apply num_shows].
  - intros str _. exists (JStr str). split; [constructor|apply shows_str]. by rewrite Hnull.
  - intros a tb l _ Ha Hk Hel IH Hok. cbn [tree_ok] in Hok. apply andb_true_iff in Hok as [Hok Hlen%Z.ltb_lt].
    destruct (IH Hok) as (l' & Hp & Hs). exists (JArr l'). split; [by constructor|].
    assert (Hll : Zlen l' = Zlen l) by (unfold Zlen; by rewrite (Forall2_length _ _ _ Hp)).
    destruct (array_shape tb (Zlen l) Hk) as [Htl Hcnt];
      [intros j Hj; by eapply (elems_get lo st tb 1 l); [|lia]|apply Zlen_nonneg|].
    assert (Hs32 : s32 (t_len tb) = Zlen l) by (rewrite Htl; apply s32_small; pose proof (Zlen_nonneg l); lia).
    assert (Hmark : mt_is_array st (mk_tobj tb (mt_of (push_array_mt st))) = true).
    { unfold mt_is_array. rewrite Ham. cbn. by apply bool_decide_eq_true. }
    apply (shows_array st a (mk_tobj tb (mt_of (push_array_mt st)))); cbn [tab]; try done.
    + by rewrite Hnull.
    + unfold array_branch. rewrite Hmark. by rewrite orb_true_r.
    + unfold unmarked_empty. by rewrite Hmark.
    + by rewrite Hs32.
    + by rewrite Hs32.
  - intros a tb l _ Ha Hk Hel IH Hok. cbn [tree_ok] in Hok. apply andb_true_iff in Hok as [Hok Hnd%bool_decide_eq_true].
    destruct (IH Hok) as (l1 & Hp & Hs).
    assert (Hkeys : map fst l1 = map fst l).
    { clear -Hp. induction Hp as [|p q l l1 [E _] _ IH]; [done|]. cbn. by rewrite E, IH. }
    pose proof (members_get lo st tb l Hel) as Hget. rewrite <- Hkeys in Hnd, Hk, Hget.
    destruct (object_shape tb l1 Hk Hnd Hget) as (l' & Hperm & Hpairs).
    assert (Hob : mt_is_object st (mk_tobj tb (mt_of (push_object_mt st))) = true).
    { unfold mt_is_object. rewrite Hom. cbn. by apply bool_decide_eq_true. }
    assert (Har : mt_is_array st (mk_tobj tb (mt_of (push_object_mt st))) = false).
    { unfold mt_is_array. rewrite Hom, Ham. cbn. apply bool_decide_eq_false. congruence. }
    exists (JObj l'). split; [by apply (perm_obj l l1)|].
    apply (shows_object st a (mk_tobj tb (mt_of (push_object_mt st)))); cbn [tab]; [by rewrite Hnull|done| |].
    + unfold array_branch. rewrite Hob, Har. cbn [tab negb andb]. rewrite !orb_false_r. apply negb_false_iff.
      destruct (t_get tb (LInt 1)) eqn:E1; try done.
      all: destruct (Hk (LInt 1) (t_get tb (LInt 1))) as (? & [=] & _); apply t_pairs_get; [done|]; by rewrite E1.
    + rewrite Hpairs. rewrite Hperm in Hs. clear -Hs. induction Hs as [|[k x] l' Hx _ IH]; [constructor|].
      cbn [map]. by constructor.
  - intros tb i _. exists []. split; constructor.
  - intros tb i x l _ IHx _ IHl Hok. cbn [forallb] in Hok. apply andb_true_iff in Hok as [Hx Hl].
    destruct (IHx Hx) as (x' & ? & ?), (IHl Hl) as (l' & ? & ?). exists (x' :: l'). split; by constructor.
  - intros tb _. exists []. split; constructor.
  - intros tb k x l _ IHx _ IHl Hok. cbn [forallb snd fst] in Hok. apply andb_true_iff in Hok as [Hx Hl].
    apply andb_true_iff in Hx as [_ Hx].
    destruct (IHx Hx) as (x' & ? & ?), (IHl Hl) as (l' & ? & ?). exists ((k, x') :: l'). split; [by constructor|].
    by constructor.
Qed.
End Back.
End Ready.

(** ** [json.decode] always answers *)

Section Total.
Context {T : Type} `{LuaTable T}.

(** A parser step from [i] returns a state made by growing, at a later position
    within the text, or raises. *)
Definition steps {A} (a : positive) (st : lua_state T) (s : list Z) (i : Z) (m : outcome (A * Z * lua_state T)) : Prop :=
  match m with
  | Ret (_, j, st') => i < j <= Zlen s /\ grows a st st'
  | Raise _ => True
  | UB => False
  end.
(** The same for the parsers that leave the state alone. *)
Definition advances {A} (s : list Z) (i : Z) (m : outcome (A * Z)) : Prop :=
  match m with
  | Ret (_, j) => i < j <= Zlen s
  | Raise _ => True
  | UB => False
  end.

Lemma decode_error_raises {A} (st : lua_state T) s at_ msg : exists e, decode_error_at (A := A) st s at_ msg = Raise e.
Proof.
  unfold decode_error_at, json_errorf, json_error. destruct (line_col _ _ _) as [line col].
  repeat case_match; eauto.
Qed.

Lemma utf8_raises (st : lua_state T) s at_ n :
  (exists l, codepoint_to_utf8 st s at_ n = Ret l) \/ (exists e, codepoint_to_utf8 st s at_ n = Raise e).
Proof. unfold codepoint_to_utf8. repeat case_bool; eauto using decode_error_raises. Qed.

Ltac error_case := match goal with
  | |- context [decode_error_at (A := ?A) ?st ?s ?a ?m] =>
      let e := fresh "e" in let E := fresh "E" in
      destruct (decode_error_raises (A := A) st s a m) as [e E]; rewrite E; exact I
  end.

Lemma advances_bind {A B} (m : outcome (A * Z)) (k : A * Z -> outcome (B * Z)) s i :
  advances s i m -> (forall a j, i < j <= Zlen s -> advances s i (k (a, j))) -> advances s i (m ≫= k).
Proof. intros Hm Hk. destruct m as [[a j]|e|]; cbn in *; auto. Qed.
Lemma steps_bind {A B} (m : outcome (A * Z)) (k : A * Z -> outcome (B * Z * lua_state T)) a st s i :
  advances s i m -> (forall x j, i < j <= Zlen s -> steps a st s i (k (x, j))) -> steps a st s i (m ≫= k).
Proof. intros Hm Hk. destruct m as [[x j]|e|]; cbn in *; auto. Qed.

Lemma parse_escape_advances (st : lua_state T) s i : 0 <= i < Zlen s -> advances s (i - 1) (parse_escape st s i).
Proof.
  intros Hi. unfold parse_escape. case_bool.
  - destruct (Z.ltb_spec (Zlen s) (i + 1 + 4)); [error_case|].
    set (m := if is_high_surrogate_hex s (i + 1) && _ && _ && _ && _ then _ else _).
    assert (Hm : (exists e, m = Raise e) \/ exists cp n, m = Ret (cp, n) /\ (n = 4 \/ n = 10) /\ i + 1 + n <= Zlen s).
    { unfold m. case_bool.
      - right. eexists _, 10. split; [reflexivity|]. split; [by right|]. rewrite !andb_true_iff in Heqb0. lia.
      - case_bool; [right; eexists _, 4; split; [reflexivity|]; split; [by left|lia]|]. left. apply decode_error_raises. }
    destruct Hm as [[e ->]|(cp & n & -> & Hn & Hle)]; [exact I|]. cbn [mbind outcome_bind].
    destruct (utf8_raises st s (i - 1) cp) as [[l ->]|[e ->]]; [|exact I]. cbn. lia.
  - destruct (unescape (char_at s i)); [cbn; lia|error_case].
Qed.

Lemma string_loop_advances fuel : forall (st : lua_state T) s idx i k b,
  0 <= i -> (Z.to_nat (Zlen s - i) < fuel)%nat -> advances s i (string_loop fuel st s idx i k b).
Proof.
  induction fuel as [|fuel IH]; intros st s idx i k b Hi Hf; [lia|]. cbn [string_loop].
  assert (Hnext : forall j k b, i < j -> (Z.to_nat (Zlen s - j) < fuel)%nat -> advances s i (string_loop fuel st s idx j k b)).
  { intros j k' b' Hj Hf'. specialize (IH st s idx j k' b' ltac:(lia) Hf').
    destruct (string_loop fuel st s idx j k' b') as [[x y]|e|]; cbn in *; lia || done. }
  destruct (Z.ltb_spec i (Zlen s)); [|error_case].
  case_bool; [error_case|]. case_bool; [|case_bool; [cbn; lia|apply Hnext; lia]].
  destruct (Z.leb_spec (Zlen s) (i + 1)); [error_case|].
  pose proof (parse_escape_advances st s (i + 1) ltac:(lia)) as He.
  destruct (parse_escape st s (i + 1)) as [[out j]|e|]; cbn in He |- *; [|done|done]. apply Hnext; lia.
Qed.

Lemma parse_string_advances (st : lua_state T) s i : 0 <= i -> advances s i (parse_string st s i).
Proof.
  intros Hi. unfold parse_string. case_bool; [error_case|].
  pose proof (string_loop_advances (S (length s)) st s i (i + 1) (i + 1) [] ltac:(lia) ltac:(unfold Zlen; lia)) as Hl.
  destruct (string_loop _ _ _ _ _ _ _) as [[x y]|e|]; cbn in *; lia || done.
Qed.

Lemma parse_number_advances (st : lua_state T) s i : 0 <= i <= Zlen s -> advances s i (parse_number st s i).
Proof.
  intros Hi. unfold parse_number. pose proof (next_char_range s i is_delim false Hi).
  case_bool; [error_case|]. destruct (strtod _) as [n [|c r]]; [|error_case]. cbn. lia.
Qed.

Lemma parse_literal_advances (st : lua_state T) s i : 0 <= i <= Zlen s -> advances s i (parse_literal st s i).
Proof.
  intros Hi. unfold parse_literal. pose proof (next_char_range s i is_delim false Hi) as Hr.
  set (x := next_char s i is_delim false) in *.
  assert (Hw : forall w, w <> [] -> ztake (x - i) (zdrop i s) = w -> i < x).
  { intros w Hne <-. apply Z.nle_gt. intros Hle. apply Hne. by replace (x - i) with 0 by lia. }
  case_bool; [apply bool_decide_eq_true, Hw in Heqb; cbn; [lia|done]|].
  case_bool; [apply bool_decide_eq_true, Hw in Heqb0; cbn; [lia|done]|].
  case_bool; [apply bool_decide_eq_true, Hw in Heqb1; cbn; [lia|done]|]. error_case.
Qed.

Lemma steps_weaken {A} a (st : lua_state T) s i j (m : outcome (A * Z * lua_state T)) :
  j <= i -> steps a st s i m -> steps a st s j m.
Proof. destruct m as [[[x k] st']|e|]; cbn; intros; [split; [lia|tauto]|done|done]. Qed.

(** The position and the state after a loop over a table. *)
Definition loops (a : positive) (st : lua_state T) (s : list Z) (i : Z) (m : outcome (Z * lua_state T)) : Prop :=
  match m with
  | Ret (j, st') => i < j <= Zlen s /\ grows a st st'
  | Raise _ => True
  | UB => False
  end.

Lemma loops_weaken a (st : lua_state T) s i j m : j <= i -> loops a st s i m -> loops a st s j m.
Proof. destruct m as [[k st']|e|]; cbn; intros; [split; [lia|tauto]|done|done]. Qed.

(** Two states in a row, the first made by parsing a value. *)
Lemma grows_then a (st st1 st2 : lua_state T) :
  grows (next_ref st) st st1 -> grows a st1 st2 -> grows a st st2.
Proof.
  intros [A1 A2 A3 A4 A5] [B1 B2 B3 B4 B5]. constructor; [congruence|congruence|lia| |done].
  intros b Hb Hne. rewrite B4 by (done || lia). apply A4; lia.
Qed.

(** An element parsed and stored, then a delimiter, then the rest of the loop. *)
Lemma element_loops (st : lua_state T) s i a k p rest :
  state_ok st -> is_Some (heap st !! a) -> 0 <= i ->
  steps (next_ref st) st s i p ->
  (forall st2 j, state_ok st2 -> is_Some (heap st2 !! a) -> i < j <= Zlen s -> loops a st2 s i (rest j st2)) ->
  loops a st s i ('(v, j, st) ← p; st ← lua_rawset st a k v; rest j st).
Proof.
  intros Hst Ha Hi Hp Hrest. pose proof Ha as [o Ho]. pose proof (Hst _ _ Ho) as Hlt.
  destruct p as [[[v j] st1]|e|]; cbn in Hp |- *; [|done|done]. destruct Hp as [Hj Hg].
  assert (Ho1 : heap st1 !! a = Some o) by (rewrite (grows_heap _ _ _ Hg); [done|lia|lia]).
  destruct (rawset_grows st1 a o k v (grows_ok _ _ _ Hg) Ho1) as (st2 & -> & Hg2 & Ha2). cbn [mbind outcome_bind].
  specialize (Hrest st2 j (grows_ok _ _ _ Hg2) ltac:(by eexists) Hj).
  destruct (rest j st2) as [[j2 st3]|e|]; cbn in *; [|done|done]. destruct Hrest as [? Hg3]. split; [done|].
  eapply grows_then; [exact Hg|]. eapply grows_trans; [exact Hg2|exact Hg3|by right].
Qed.

Lemma parse_total fuel :
  (forall (st : lua_state T) s i, state_ok st -> 0 <= i <= Zlen s -> (2 * Z.to_nat (Zlen s - i) + 1 <= fuel)%nat ->
    steps (next_ref st) st s i (parse_value fuel st s i)) /\
  (forall (st : lua_state T) s i a n, state_ok st -> is_Some (heap st !! a) -> 0 <= i <= Zlen s ->
    (2 * Z.to_nat (Zlen s - i) + 2 <= fuel)%nat -> loops a st s i (array_loop fuel st s i a n)) /\
  (forall (st : lua_state T) s i a, state_ok st -> is_Some (heap st !! a) -> 0 <= i <= Zlen s ->
    (2 * Z.to_nat (Zlen s - i) + 2 <= fuel)%nat -> loops a st s i (object_loop fuel st s i a)).
Proof.
  induction fuel as [|fuel (IHv & IHa & IHo)]; [split; [|split]; intros; lia|]. split; [|split].
  - intros st s i Hst Hi Hf. rewrite parse_value_S. cbv zeta.
    destruct (Z.leb_spec (Zlen s) i); [error_case|].
    assert (Hleaf : forall x j, i < j <= Zlen s -> steps (next_ref st) st s i (mret (x, j, st) : outcome (lua_value * Z * lua_state T)))
      by (intros x j Hj; split; [done|by apply grows_refl]).
    case_bool; [apply steps_bind; [by apply parse_string_advances; lia|intros; by apply Hleaf]|].
    case_bool; [apply steps_bind; [by apply parse_number_advances|intros; by apply Hleaf]|].
    case_bool; [apply steps_bind; [by apply parse_literal_advances|intros; by apply Hleaf]|].
    assert (Htable : forall mt loop,
      (forall st2 a, state_ok st2 -> is_Some (heap st2 !! a) -> loops a st2 s (i + 1) (loop st2 a)) ->
      steps (next_ref st) st s i (let '(a, st1) := lua_newtable st in st2 ← lua_setmetatable st1 a (mt st1);
        '(j, st3) ← loop st2 a; mret (LTable a, j, st3))).
    { intros mt loop Hloop. destruct (lua_newtable st) as [a st1] eqn:En.
      destruct (newtable_grows st (mt st1) a st1 Hst En) as (-> & _ & st2 & -> & Hh & Hr & Hfr & Hnx & Hok2 & Ha).
      cbn [mbind outcome_bind]. specialize (Hloop st2 (next_ref st) Hok2 ltac:(by eexists)).
      destruct (loop st2 (next_ref st)) as [[j st3]|e|]; cbn in *; [|done|done]. destruct Hloop as [? Hg].
      split; [lia|]. by apply (table_grows st st2 st3). }
    case_bool; [apply (Htable push_array_mt (fun st2 a => array_loop fuel st2 s (i + 1) a 1)); intros; apply IHa; (done || lia)|].
    case_bool; [apply (Htable push_object_mt (fun st2 a => object_loop fuel st2 s (i + 1) a)); intros; apply IHo; (done || lia)|].
    error_case.
  - intros st s i a n Hst Ha Hi Hf. rewrite array_loop_S. cbv zeta.
    pose proof (next_char_range s i is_space true Hi) as Hr. set (i1 := next_char s i is_space true) in *.
    case_bool; [split; [apply andb_true_iff in Heqb as [Hlt%Z.ltb_lt _]; lia|by apply grows_refl]|].
    apply (loops_weaken a st s i1 i); [lia|]. apply element_loops; [done|done|lia|apply IHv; (done || lia)|].
    intros st2 j Hst2 Ha2 Hj. pose proof (next_char_range s j is_space true ltac:(lia)) as Hr2.
    set (j1 := next_char s j is_space true) in *. destruct (Z.leb_spec (Zlen s) j1); [error_case|].
    case_bool; [split; [lia|by apply grows_refl]|]. case_bool; [error_case|].
    apply (loops_weaken a st2 s (j1 + 1) i1); [lia|]. apply IHa; (done || lia).
  - intros st s i a Hst Ha Hi Hf. rewrite object_loop_S. cbv zeta.
    pose proof (next_char_range s i is_space true Hi) as Hr. set (i1 := next_char s i is_space true) in *.
    case_bool; [split; [apply andb_true_iff in Heqb as [Hlt%Z.ltb_lt _]; lia|by apply grows_refl]|].
    apply (loops_weaken a st s i1 i); [lia|]. case_bool; [error_case|].
    pose proof (parse_string_advances st s i1 ltac:(lia)) as Hk.
    destruct (parse_string st s i1) as [[key i2]|e|]; cbn in Hk; [|exact I|done]. cbn [mbind outcome_bind].
    pose proof (next_char_range s i2 is_space true ltac:(lia)) as Hr2. set (i3 := next_char s i2 is_space true) in *.
    destruct (Z.leb_spec (Zlen s) i3); cbn [orb]; [error_case|]. case_bool; [error_case|].
    pose proof (next_char_range s (i3 + 1) is_space true ltac:(lia)) as Hr3.
    set (i4 := next_char s (i3 + 1) is_space true) in *.
    apply (loops_weaken a st s i4 i1); [lia|]. apply element_loops; [done|done|lia|apply IHv; (done || lia)|].
    intros st2 j Hst2 Ha2 Hj. pose proof (next_char_range s j is_space true ltac:(lia)) as Hr4.
    set (j1 := next_char s j is_space true) in *. destruct (Z.leb_spec (Zlen s) j1); [error_case|].
    case_bool; [split; [lia|by apply grows_refl]|]. case_bool; [error_case|].
    apply (loops_weaken a st2 s (j1 + 1) i4); [lia|]. apply IHo; (done || lia).
Qed.
End Total.

(** ** Printed trees are strings of bytes *)

Lemma escape_bytes c esc : is_byte c -> escape c = Some esc -> bytes_ok esc.
Proof.
  unfold is_byte, escape. intros Hc E.
  assert (Hh : forall n, 0 <= n < 16 -> is_byte (hexdigit n)) by (intros n Hn; unfold hexdigit, is_byte; case_bool; lia).
  repeat case_match; simplify_eq; repeat (apply Forall_cons; split; [done || (apply Hh; dmlia)|]); by apply Forall_nil.
Qed.
Lemma print_string_bytes l : bytes_ok l -> bytes_ok (print_string l).
Proof.
  intros Hl. unfold print_string. apply bytes_ok_app. split; [by apply Forall_singleton|].
  apply bytes_ok_app. split; [|by apply Forall_singleton].
  induction Hl as [|c l Hc _ IH]; [by apply Forall_nil|]. cbn [map concat]. apply bytes_ok_app. split; [|done].
  unfold print_char. destruct (escape c) eqn:E; cbn; [by eapply escape_bytes|by apply Forall_singleton].
Qed.
Lemma commas_bytes l : Forall bytes_ok l -> bytes_ok (commas l).
Proof.
  induction 1 as [|x l Hx Hl IH]; [by apply Forall_nil|]. cbn [commas]. apply bytes_ok_app. split; [done|].
  destruct l; [by apply Forall_nil|]. apply Forall_cons. by split.
Qed.

Lemma print_bytes nulls n : forall t, (json_size t <= n)%nat -> tree_ok nulls t = true -> bytes_ok (print t).
Proof.
  assert (Hb : forall l r t, is_byte l -> is_byte r -> bytes_ok t -> bytes_ok ([l] ++ t ++ [r])).
  { intros l r t Hl Hr Ht. apply bytes_ok_app. split; [by apply Forall_singleton|].
    apply bytes_ok_app. split; [done|by apply Forall_singleton]. }
  induction n as [|n IH]; intros t Hsz Hok; [by destruct t; cbn in Hsz; lia|].
  destruct t as [|[]|d|str|l|l]; cbn [tree_ok print] in *; try by forall_done.
  - destruct (num_ok_spec d Hok) as (-> & _). unfold num_ok in Hok. rewrite !andb_true_iff, !negb_true_iff in Hok.
    destruct Hok as [[[Hnan Hinf] _] _]. destruct (fmt_14g_text d Hnan Hinf) as [Ht _].
    eapply Forall_impl; [exact Ht|]. intros c. unfold num_char, is_digit, is_byte. rewrite orb_true_iff.
    intros [Hx|Hx%bool_decide_eq_true]; [lia|]. rewrite !elem_of_cons in Hx.
    destruct Hx as [->|[->|[->|[->|Hx]]]]; try lia. by apply not_elem_of_nil in Hx.
  - apply bool_decide_eq_true in Hok. by apply print_string_bytes.
  - apply andb_true_iff in Hok as [Hok _]. apply forallb_Forall in Hok. apply Hb; [done|done|].
    apply commas_bytes. apply Forall_fmap. rewrite Forall_forall in Hok |- *. intros x Hx. cbn.
    apply IH; [|by apply Hok]. cbn in Hsz. apply (sum_list_with_in _ json_size) in Hx. lia.
  - apply andb_true_iff in Hok as [Hok _]. apply forallb_Forall in Hok. apply Hb; [done|done|].
    apply commas_bytes. apply Forall_fmap. rewrite Forall_forall in Hok |- *. intros x Hx.
    change (bytes_ok (print_string x.1 ++ [58] ++ print x.2)). specialize (Hok x Hx). apply andb_true_iff in Hok as [Hk%bool_decide_eq_true Hv].
    apply bytes_ok_app. split; [by apply print_string_bytes|]. apply Forall_cons. split; [done|].
    apply IH; [|done]. cbn in Hsz. apply (sum_list_with_in _ (fun p => json_size p.2)) in Hx. lia.
Qed.

(** ** [json.decode] keeps the state well formed *)

Section Closed.
Context {T : Type} `{LuaTable T}.

Lemma decode_error_ret {A} (st : lua_state T) s at_ msg (x : A) : decode_error_at st s at_ msg = Ret x -> False.
Proof. destruct (decode_error_raises (A := A) st s at_ msg) as [e ->]. done. Qed.

Lemma codepoint_bytes (st : lua_state T) s at_ n l : codepoint_to_utf8 st s at_ n = Ret l -> bytes_ok l.
Proof.
  assert (Hu : forall z, is_byte (u8 z)) by (intros z; apply u8_range).
  unfold codepoint_to_utf8. repeat case_bool; intros E;
    try (by apply decode_error_ret in E);
    injection E as <-; repeat (apply Forall_cons; split; [apply Hu|]); by apply Forall_nil.
Qed.

Lemma unescape_byte c out : unescape c = Some out -> is_byte out.
Proof. unfold unescape, is_byte. repeat case_match; intros; simplify_eq; lia. Qed.

Lemma parse_escape_bytes (st : lua_state T) s i l j : parse_escape st s i = Ret (l, j) -> bytes_ok l.
Proof.
  unfold parse_escape. case_bool.
  - case_bool.
    { by intros E%decode_error_ret. }
    set (m := if is_high_surrogate_hex s (i + 1) && _ && _ && _ && _ then _ else _).
    destruct m as [[cp n]| |]; cbn; [|done|done].
    destruct (codepoint_to_utf8 st s (i - 1) cp) eqn:E; cbn; [|done|done]. intros [= <- _]. by eapply codepoint_bytes.
  - destruct (unescape (char_at s i)) eqn:E.
    + intros [= <- _]. apply Forall_singleton. by eapply unescape_byte.
    + by intros Er%decode_error_ret.
Qed.

Lemma flush_bytes s k i b : bytes_ok s -> bytes_ok b -> bytes_ok (flush s k i b).
Proof.
  intros Hs Hb. unfold flush. case_bool; [|done]. apply bytes_ok_app. split; [done|]. by apply bytes_ok_ztake, bytes_ok_zdrop.
Qed.

Lemma string_loop_bytes fuel : forall (st : lua_state T) s idx i k b l j,
  bytes_ok s -> bytes_ok b -> string_loop fuel st s idx i k b = Ret (l, j) -> bytes_ok l.
Proof.
  induction fuel as [|fuel IH]; intros st s idx i k b l j Hs Hb E; [done|]. cbn [string_loop] in E.
  destruct (i <? Zlen s); [|by apply decode_error_ret in E].
  destruct (char_at s i <? 32); [by apply decode_error_ret in E|].
  destruct (char_at s i =? 92).
  - destruct (Zlen s <=? i + 1); [by apply decode_error_ret in E|].
    destruct (parse_escape st s (i + 1)) as [[out j']| |] eqn:Ee; cbn in E; [|done|done].
    apply IH in E; [done|done|]. apply bytes_ok_app. split; [by apply flush_bytes|by eapply parse_escape_bytes].
  - destruct (char_at s i =? 34); [injection E as <- _; by apply flush_bytes|]. by apply IH in E.
Qed.

Lemma parse_string_bytes (st : lua_state T) s i l j : bytes_ok s -> parse_string st s i = Ret (l, j) -> bytes_ok l.
Proof.
  intros Hs. unfold parse_string. case_bool; [by intros E%decode_error_ret|].
  apply string_loop_bytes; [done|by apply Forall_nil].
Qed.

(** Well-formed states, and what is kept from one to the next. *)
Definition inv (st : lua_state T) : Prop := state_ok st /\ closed st.
Definition extends (st st' : lua_state T) : Prop := forall a, is_Some (heap st !! a) -> is_Some (heap st' !! a).

Lemma val_ok_extends st st' v : extends st st' -> val_ok st v -> val_ok st' v.
Proof. intros He. destruct v; cbn; auto. Qed.
Lemma extends_trans st1 st2 st3 : extends st1 st2 -> extends st2 st3 -> extends st1 st3.
Proof. unfold extends. auto. Qed.

Lemma put_extends (st : lua_state T) a o : extends st (put_table st a o).
Proof.
  intros b Hb. cbn. destruct (decide (a = b)) as [->|]; [rewrite lookup_insert_eq; by eexists|by rewrite lookup_insert_ne].
Qed.

Lemma put_inv (st : lua_state T) a o o' :
  inv st -> heap st !! a = Some o ->
  (forall k, plain_key k -> val_ok st (t_get (tab o') k)) ->
  (forall k v, (k, v) ∈ t_pairs (tab o') -> val_ok st k /\ val_ok st v) -> inv (put_table st a o').
Proof.
  intros [Hok Hcl] Ho Hg Hp. split; [by eapply put_table_ok|]. pose proof (put_extends st a o') as He.
  intros b ob. cbn. destruct (decide (a = b)) as [->|Hne].
  - rewrite lookup_insert_eq. intros [= <-]. split; [intros k Hk; by eapply val_ok_extends, Hg|].
    intros k v Hin. destruct (Hp k v Hin). split; by eapply val_ok_extends.
  - rewrite lookup_insert_ne by done. intros Hb. destruct (Hcl b ob Hb) as [Hg' Hp'].
    split; [intros k Hk; by eapply val_ok_extends, Hg'|]. intros k v Hin. destruct (Hp' k v Hin). split; by eapply val_ok_extends.
Qed.

Lemma rawset_inv (st : lua_state T) a k v st' :
  lua_rawset st a k v = Ret st' -> inv st -> plain_key k -> val_ok st k -> val_ok st v -> inv st' /\ extends st st'.
Proof.
  unfold lua_rawset, with_table. destruct (heap st !! a) as [o|] eqn:Ho; [|done]. intros [= <-] Hinv Hk Hvk Hv.
  split; [|apply put_extends]. destruct (proj2 Hinv a o Ho) as [Hg Hp]. eapply put_inv; [done|done| |]; cbn [tab].
  - intros k' Hk'. rewrite t_get_set by done. destruct (decide _); auto.
  - intros k' v' Hin. destruct (decide (k' = k)) as [->|Hne].
    + apply t_pairs_get in Hin as [Hin _]; [|done]. rewrite t_get_set in Hin by done.
      destruct (decide _); [by subst|done].
    + apply t_pairs_set in Hin; [|done|done]. by apply Hp.
Qed.

Lemma setmetatable_inv (st : lua_state T) a m st' :
  lua_setmetatable st a m = Ret st' -> inv st -> inv st' /\ extends st st'.
Proof.
  unfold lua_setmetatable, with_table. destruct (heap st !! a) as [o|] eqn:Ho; [|done]. intros [= <-] Hinv.
  split; [|apply put_extends]. destruct (proj2 Hinv a o Ho) as [Hg Hp]. by eapply put_inv.
Qed.

Lemma newtable_inv (st : lua_state T) a st' :
  lua_newtable st = (a, st') -> inv st -> inv st' /\ extends st st' /\ is_Some (heap st' !! a).
Proof.
  intros E [Hok Hcl]. pose proof (newtable_ok _ _ _ E Hok) as Hok'. pose proof (fresh_ref st Hok) as Hf.
  injection E as <- <-.
  assert (He : extends st (mk_state (<[next_ref st := mk_tobj t_empty None]> (heap st)) (registry st) (Pos.succ (next_ref st)) (frames st))).
  { intros b [o Hb]. cbn. destruct (decide (next_ref st = b)) as [<-|]; [congruence|rewrite lookup_insert_ne by done; by exists o]. }
  split; [split; [done|]|split; [done|cbn; rewrite lookup_insert_eq; by eexists]].
  intros b ob. cbn. destruct (decide (next_ref st = b)) as [<-|Hne].
  - rewrite lookup_insert_eq. intros [= <-]. cbn [tab]. split; [intros k Hk; by rewrite t_empty_get|].
    intros k v Hin. rewrite t_pairs_empty in Hin. by apply not_elem_of_nil in Hin.
  - rewrite lookup_insert_ne by done. intros Hb. destruct (Hcl b ob Hb) as [Hg' Hp'].
    split; [intros k Hk; by eapply val_ok_extends, Hg'|]. intros k v Hin. destruct (Hp' k v Hin). split; by eapply val_ok_extends.
Qed.

Lemma module_null_ok (st : lua_state T) : closed st -> val_ok st (module_null st).
Proof.
  intros Hcl. unfold module_null. destruct (reg_get st JSON_MOD_KEY); try done.
  destruct (heap st !! a) as [o|] eqn:Ho; [|done]. by apply (Hcl a o Ho).
Qed.
Lemma number_val_ok (st : lua_state T) s i v j : parse_number st s i = Ret (v, j) -> val_ok st v.
Proof.
  unfold parse_number. case_bool; [intros E; exact (False_ind _ (decode_error_ret _ _ _ _ _ E))|]. destruct (strtod _) as [n [|c r]].
  - generalize (if d_iszero n then 0 else n). intros d E. injection E as <- _. exact I.
  - intros E; exact (False_ind _ (decode_error_ret _ _ _ _ _ E)).
Qed.
Lemma literal_val_ok (st : lua_state T) s i v j : closed st -> parse_literal st s i = Ret (v, j) -> val_ok st v.
Proof.
  intros Hcl. unfold parse_literal. case_bool; [intros [= <- _]; exact I|].
  case_bool; [intros [= <- _]; exact I|]. case_bool; [|intros E; exact (False_ind _ (decode_error_ret _ _ _ _ _ E))].
  intros [= E _]. rewrite <- E. by apply module_null_ok.
Qed.

Lemma table_inv (st : lua_state T) a st1 mt st2 :
  lua_newtable st = (a, st1) -> lua_setmetatable st1 a mt = Ret st2 -> inv st ->
  inv st2 /\ extends st st2 /\ is_Some (heap st2 !! a).
Proof.
  intros E1 E2 Hinv. destruct (newtable_inv _ _ _ E1 Hinv) as (Hinv1 & He1 & Ha).
  destruct (setmetatable_inv _ _ _ _ E2 Hinv1) as [Hinv2 He2]. split; [done|]. split; [by eapply extends_trans|auto].
Qed.

Definition keeps_inv (st st' : lua_state T) : Prop := inv st' /\ extends st st'.
Lemma keeps_inv_trans st1 st2 st3 : keeps_inv st1 st2 -> keeps_inv st2 st3 -> keeps_inv st1 st3.
Proof. intros [_ H1] [H2 H3]. split; [done|by eapply extends_trans]. Qed.

Lemma parse_inv fuel :
  (forall (st : lua_state T) s i v j st', bytes_ok s -> inv st -> parse_value fuel st s i = Ret (v, j, st') ->
    keeps_inv st st' /\ val_ok st' v) /\
  (forall (st : lua_state T) s i a n j st', bytes_ok s -> inv st ->
    array_loop fuel st s i a n = Ret (j, st') -> keeps_inv st st') /\
  (forall (st : lua_state T) s i a j st', bytes_ok s -> inv st ->
    object_loop fuel st s i a = Ret (j, st') -> keeps_inv st st').
Proof.
  induction fuel as [|fuel (IHv & IHa & IHo)]; [split; [|split]; intros; done|].
  assert (Hsame : forall st : lua_state T, inv st -> keeps_inv st st) by (intros st Hi; split; [done|by intros a]).
  split; [|split].
  - intros st s i v j st' Hs Hinv. rewrite parse_value_S. cbv zeta.
    case_bool; [intros E; exact (False_ind _ (decode_error_ret _ _ _ _ _ E))|].
    case_bool. { intros ([str j'] & E & [= <- _ <-])%bind_ret. split; [auto|]. by eapply parse_string_bytes. }
    case_bool. { intros ([x j'] & E & [= <- _ <-])%bind_ret. split; [auto|]. by eapply number_val_ok. }
    case_bool. { intros ([x j'] & E & [= <- _ <-])%bind_ret. split; [auto|]. eapply literal_val_ok; [apply Hinv|done]. }
    destruct (lua_newtable st) as [a st1] eqn:En.
    case_bool.
    { intros (st2 & E2 & ([j' st3] & E3 & [= <- _ <-])%bind_ret)%bind_ret.
      destruct (table_inv _ _ _ _ _ En E2 Hinv) as (Hinv2 & He2 & Ha).
      apply IHa in E3 as [Hinv3 He3]; [|done|done]. split; [|cbn; auto]. split; [done|by eapply extends_trans]. }
    case_bool; [|intros E; exact (False_ind _ (decode_error_ret _ _ _ _ _ E))].
    intros (st2 & E2 & ([j' st3] & E3 & [= <- _ <-])%bind_ret)%bind_ret.
    destruct (table_inv _ _ _ _ _ En E2 Hinv) as (Hinv2 & He2 & Ha).
    apply IHo in E3 as [Hinv3 He3]; [|done|done]. split; [|cbn; auto]. split; [done|by eapply extends_trans].
  - intros st s i a n j st' Hs Hinv. rewrite array_loop_S. cbv zeta. case_bool; [intros [= _ <-]; auto|].
    intros ([[v j1] st1] & E1 & (st2 & E2 & E3)%bind_ret)%bind_ret.
    apply IHv in E1 as [H1 Hv]; [|done|done]. apply rawset_inv in E2; [|apply H1|done|done|done].
    assert (H12 : keeps_inv st st2) by (by eapply keeps_inv_trans).
    revert E3. case_bool; [intros E; exact (False_ind _ (decode_error_ret _ _ _ _ _ E))|]. case_bool; [by intros [= _ <-]|].
    case_bool; [intros E; exact (False_ind _ (decode_error_ret _ _ _ _ _ E))|]. intros E3%IHa; [|done|apply H12]. by eapply keeps_inv_trans.
  - intros st s i a j st' Hs Hinv. rewrite object_loop_S. cbv zeta. case_bool; [intros [= _ <-]; auto|].
    case_bool; [intros E; exact (False_ind _ (decode_error_ret _ _ _ _ _ E))|]. intros ([key j0] & E0 & E)%bind_ret. revert E.
    case_bool; [intros E; exact (False_ind _ (decode_error_ret _ _ _ _ _ E))|].
    intros ([[v j1] st1] & E1 & (st2 & E2 & E3)%bind_ret)%bind_ret.
    apply IHv in E1 as [H1 Hv]; [|done|done].
    apply rawset_inv in E2; [|apply H1|done|by eapply parse_string_bytes|done].
    assert (H12 : keeps_inv st st2) by (by eapply keeps_inv_trans).
    revert E3. case_bool; [intros E; exact (False_ind _ (decode_error_ret _ _ _ _ _ E))|]. case_bool; [by intros [= _ <-]|].
    case_bool; [intros E; exact (False_ind _ (decode_error_ret _ _ _ _ _ E))|]. intros E3%IHo; [|done|apply H12]. by eapply keeps_inv_trans.
Qed.
End Closed.


(** ** [json.decode] *)

Section Top.
Context {T : Type} `{LuaTable T}.

(** C5: [json.decode] terminates on every argument: it returns one value, having
    only created tables and left every table, the registry and the call stack of
    before as they were, or it raises; the recursion never exceeds the depth the
    length of the text allows. *)
Theorem json_decode_total (st : lua_state T) args :
  state_ok st ->
  (exists v st', json_decode st args = Ret ([v], st') /\ grows (next_ref st) st st') \/
  (exists e, json_decode st args = Raise e).
Proof.
  intros Hst. unfold json_decode. destruct (arg args 1) as [| | | |s| | |]; try (right; eexists; reflexivity).
  pose proof (Zlen_nonneg s). pose proof (next_char_range s 0 is_space true ltac:(lia)) as Hr.
  set (i := next_char s 0 is_space true) in *.
  pose proof (proj1 (parse_total (decode_fuel s)) st s i Hst ltac:(lia) ltac:(unfold decode_fuel, Zlen in *; lia)) as Hp.
  destruct (parse_value (decode_fuel s) st s i) as [[[v j] st']|e|]; cbn in Hp |- *; [|by right; exists e|done].
  destruct (Z.ltb_spec (next_char s j is_space true) (Zlen s)); [right; apply decode_error_raises|].
  left. exists v, st'. split; [done|]. apply Hp.
Qed.

Lemma skip_blanks w rest :
  Forall (fun c => is_space c = true) w -> match rest with [] => True | c :: _ => is_space c = false end ->
  next_char (w ++ rest) 0 is_space true = Zlen w.
Proof.
  intros Hw Hr. unfold next_char. pose proof (Zlen_nonneg rest). pose proof (Zlen_nonneg w).
  assert (Hw' : Forall (fun c => (fun c => negb (is_space c)) c = false) w).
  { eapply Forall_impl; [exact Hw|]. intros c Hc. cbn in *. by rewrite Hc. }
  destruct (Z.ltb_spec 0 (Zlen (w ++ rest))) as [_|Hge]; [|zlen; lia]. rewrite zdrop_0, Z.add_0_l.
  destruct rest as [|c rest]; [rewrite app_nil_r; by apply scan_none|]. apply scan_app; [done|]. cbn. by rewrite Hr.
Qed.

Lemma skip_to_end pre w :
  Forall (fun c => is_space c = true) w -> next_char (pre ++ w) (Zlen pre) is_space true = Zlen (pre ++ w).
Proof.
  intros Hw. unfold next_char. pose proof (Zlen_nonneg w). destruct (Z.ltb_spec (Zlen pre) (Zlen (pre ++ w))) as [_|]; [|done].
  rewrite zdrop_app_exact by done. rewrite scan_none; [by rewrite Zlen_app|].
  eapply Forall_impl; [exact Hw|]. intros c Hc. cbn in *. by rewrite Hc.
Qed.

Lemma decode_print nulls (st : lua_state T) w1 t w2 :
  state_ok st -> (nulls = true -> null_below (next_ref st) st) -> tree_ok nulls t = true ->
  Forall (fun c => is_space c = true) w1 -> Forall (fun c => is_space c = true) w2 ->
  exists v st', json_decode st [LStr (w1 ++ print t ++ w2)] = Ret ([v], st') /\
    grows (next_ref st) st st' /\ denotes (next_ref st) st' v t.
Proof.
  intros Hst Hn Hok Hw1 Hw2. unfold json_decode, arg. cbn [nth Nat.sub].
  destruct (print_head nulls t Hok) as (c & r & Ec & Hsp & _).
  rewrite skip_blanks by (done || by rewrite Ec).
  destruct (parses_all nulls (json_size t) t (le_n _) (decode_fuel (w1 ++ print t ++ w2)) st w1 w2 Hst Hn Hok) as
    (v & st' & -> & Hg & Hd).
  { destruct w2 as [|x w2]; [done|]. apply Forall_cons in Hw2 as [Hx _]. cbn. unfold is_delim. by rewrite Hx. }
  { unfold decode_fuel. rewrite !length_app. lia. }
  cbn [mbind outcome_bind]. rewrite <- Zlen_app. rewrite app_assoc, skip_to_end by done. rewrite Z.ltb_irrefl. by exists v, st'.
Qed.

(** [json.decode] inverts printing: the text of any tree (finite numbers that
    14 digits identify, strings of bytes, distinct member names, [null] only when
    [enable_null] made it the sentinel), with any blanks around it, decodes to a
    value that denotes this tree: arrays with exactly the elements [1 .. n] and
    the array mark, objects with exactly the members and the object mark, built
    of new tables only, with no other table touched. *)
Theorem json_decode_print nulls (st : lua_state T) w1 t w2 :
  state_ok st -> (nulls = true -> null_below (next_ref st) st) -> tree_ok nulls t = true ->
  Forall (fun c => is_space c = true) w1 -> Forall (fun c => is_space c = true) w2 ->
  exists v st', json_decode st [LStr (w1 ++ print t ++ w2)] = Ret ([v], st') /\
    grows (next_ref st) st st' /\ denotes (next_ref st) st' v t.
Proof. apply decode_print. Qed.

Lemma decode_inv (st : lua_state T) s v st' :
  bytes_ok s -> inv st -> json_decode st [LStr s] = Ret ([v], st') -> inv st' /\ val_ok st' v.
Proof.
  intros Hs Hinv. unfold json_decode, arg. cbn [nth Nat.sub]. intros ([[x j] st1] & E1 & E2)%bind_ret.
  apply (proj1 (parse_inv _)) in E1 as [[Hinv1 _] Hv]; [|done|done]. revert E2.
  case_bool; [intros E; exact (False_ind _ (decode_error_ret _ _ _ _ _ E))|]. by intros [= <- <-].
Qed.


(** C6: Decoding the text of a tree and encoding the result gives the text of the
    same tree up to the order of object members: the marks that [decode] leaves
    make every array and object encodable again, empty ones included.  This holds of
    the trees that survive being values of Lua ([tree_ok]): the keys of an object
    are distinct, numbers are such that 14 digits identify them, arrays have fewer
    than 2^31 elements, and there is a [null] only when [json.enable_null] has made
    it decode to the sentinel ([null_below]; otherwise [[null,1]] decodes to a table
    that [encode] refuses).  Then only the lack of memory can prevent it. *)
Theorem json_roundtrip `{Allocator} `{LuaAPI} nulls (st : lua_state T) t :
  inv st -> json_ready st -> (nulls = true -> null_below (next_ref st) st) -> tree_ok nulls t = true ->
  exists v st' t', json_decode st [LStr (print t)] = Ret ([v], st') /\ json_perm t t' /\
    (json_encode st' [v] = Ret [LStr (print t')] \/
     exists e, json_encode st' [v] = Raise e /\ short_of_memory (Zlen (print t'))).
Proof.
  intros Hinv (am & om & u & Ham & Hom & Hne & Hnull) Hn Hok.
  destruct (decode_print nulls st [] t [] (proj1 Hinv) Hn Hok) as (v & st' & E & Hg & Hd); [by apply Forall_nil..|].
  cbn [app] in E. rewrite app_nil_r in E.
  assert (Hr : json_ready st').
  { exists am, om, u. unfold push_array_mt, push_object_mt, push_null_sentinel, reg_get in *. by rewrite (grows_reg _ _ _ Hg). }
  destruct (proj1 (denotes_shows nulls (next_ref st) st' Hr) v t Hd Hok) as (t' & Hp & Hs).
  exists v, st', t'. split; [done|]. split; [done|].
  destruct (decode_inv _ _ _ _ (print_bytes nulls _ t (le_n _) Hok) Hinv E) as [[_ Hcl] Hv].
  destruct (encode_spec st' v Hcl Hv) as [(t2 & Hs2 & ->)|(e & -> & Hshort)].
  - left. by rewrite (shows_inj st' _ _ _ Hs2 Hs).
  - right. exists e. split; [done|]. by apply Hshort.
Qed.
End Top.

(** ** Opening the module *)

Section Open.
Context {T : Type} `{LuaTable T}.
Context (cfunction : list Z -> lua_value) (Hfun : forall (st : lua_state T) f, val_ok st (cfunction f)).

Lemma reg_set_inv (st : lua_state T) k v : inv st -> inv (reg_set st k v).
Proof. intros [Hok Hcl]. by split. Qed.
Lemma newuserdata_inv (st : lua_state T) u st' : lua_newuserdata st = (u, st') -> inv st -> inv st'.
Proof.
  intros [= <- <-] [Hok Hcl]. split; [|done]. intros a o Ho. cbn in *. apply Hok in Ho. lia.
Qed.

(** Setting fields touches the one table only. *)
Lemma set_fields_spec fs : forall (st : lua_state T) a,
  inv st -> is_Some (heap st !! a) -> Forall (fun p => bytes_ok p.1 /\ val_ok st p.2) fs ->
  exists st', set_fields st a fs = Ret st' /\ inv st' /\ is_Some (heap st' !! a) /\
    registry st' = registry st /\ next_ref st' = next_ref st /\ frames st' = frames st.
Proof.
  induction fs as [|[k v] fs IH]; intros st a Hinv Ha Hfs; cbn [set_fields]; [by exists st|].
  apply Forall_cons in Hfs as [[Hk Hv] Hfs]. pose proof Ha as [o Ho].
  destruct (lua_rawset st a (LStr k) v) as [st1|e|] eqn:E; [|by unfold lua_rawset, with_table in E; rewrite Ho in E..].
  destruct (rawset_inv _ _ _ _ _ E Hinv I Hk Hv) as [Hinv1 He1]. cbn [mbind outcome_bind].
  destruct (IH st1 a Hinv1 (He1 a Ha)) as (st' & -> & Hinv' & Ha' & Hr & Hn & Hf).
  { eapply Forall_impl; [exact Hfs|]. intros p [Hp1 Hp2]. split; [done|by eapply val_ok_extends]. }
  exists st'. unfold lua_rawset, with_table in E. rewrite Ho in E. injection E as <-. cbn in *. done.
Qed.

Lemma reg_get_set (st : lua_state T) k v k' : reg_get (reg_set st k v) k' = if decide (k = k') then v else reg_get st k'.
Proof.
  unfold reg_get, reg_set. cbn. destruct (decide (k = k')) as [->|]; [by rewrite lookup_insert_eq|by rewrite lookup_insert_ne].
Qed.

Lemma set_fields_last fs : forall (st : lua_state T) a k v st' o,
  set_fields st a (fs ++ [(k, v)]) = Ret st' -> heap st' !! a = Some o -> t_get (tab o) (LStr k) = v.
Proof.
  induction fs as [|[k0 v0] fs IH]; intros st a k v st' o E Ho; cbn [app set_fields] in E;
    apply bind_ret in E as (st1 & E1 & E2); [|by eapply IH].
  injection E2 as <-. unfold lua_rawset, with_table in E1. destruct (heap st !! a) as [o0|]; [|done].
  injection E1 as <-. cbn in Ho. rewrite lookup_insert_eq in Ho. injection Ho as <-. cbn.
  rewrite t_get_set by done. by destruct (decide _).
Qed.

(** The registry of a state made by [luaopen_json]. *)
Definition opened (st : lua_state T) (m : positive) : Prop :=
  inv st /\ json_ready st /\ reg_get st JSON_MOD_KEY = LTable m /\ is_Some (heap st !! m).

Lemma open_spec (st : lua_state T) :
  inv st -> (forall m, reg_get st JSON_MOD_KEY <> LTable m) ->
  exists m st', luaopen_json cfunction st = Ret ([LTable m], st') /\ opened st' m /\ module_null st' = LNil /\
    luaopen_json cfunction st' = Ret ([LTable m], st').
Proof.
  intros Hinv Hnew. unfold luaopen_json.
  assert (E0 : forall A (x : positive -> A) y, match reg_get st JSON_MOD_KEY with LTable m => x m | _ => y end = y).
  { intros A x y. specialize (Hnew). destruct (reg_get st JSON_MOD_KEY) as [| | | | |m| |] eqn:E; try done. by destruct (Hnew m). }
  rewrite E0. destruct (lua_newtable st) as [am st1] eqn:E1.
  destruct (newtable_inv _ _ _ E1 Hinv) as (H1 & _ & _). apply (reg_set_inv _ JSON_ARRAY_MT_KEY (LTable am)) in H1.
  set (st1' := reg_set st1 _ _) in *. destruct (lua_newtable st1') as [om st2] eqn:E2.
  destruct (newtable_inv _ _ _ E2 H1) as (H2 & _ & _). apply (reg_set_inv _ JSON_OBJECT_MT_KEY (LTable om)) in H2.
  set (st2' := reg_set st2 _ _) in *. destruct (lua_newuserdata st2') as [u st3] eqn:E3.
  pose proof (newuserdata_inv _ _ _ E3 H2) as H3. destruct (lua_newtable st3) as [um st4] eqn:E4.
  destruct (newtable_inv _ _ _ E4 H3) as (H4 & _ & Hum).
  edestruct (set_fields_spec [(lit "__tostring", LStr (lit "const: json.null")); (lit "__metatable", LBool false)] st4 um H4 Hum)
    as (st5 & E5 & H5 & _ & R5 & N5 & F5).
  { repeat (apply Forall_cons; split; [split; [by forall_done|try exact I; by forall_done]|]). by apply Forall_nil. }
  rewrite E5. cbn [mbind outcome_bind]. apply (reg_set_inv _ JSON_NULL_KEY (LUserdata u)) in H5.
  set (st5' := reg_set st5 _ _) in *. destruct (lua_newtable st5') as [m st6] eqn:E6.
  destruct (newtable_inv _ _ _ E6 H5) as (H6 & _ & Hm).
  destruct (set_fields_spec (map (fun f => (f, cfunction f)) json_funcs) st6 m H6 Hm) as (st7 & E7 & H7 & Hm7 & R7 & N7 & F7).
  { apply Forall_fmap. repeat (apply Forall_cons; split; [split; [by forall_done|apply Hfun]|]). by apply Forall_nil. }
  rewrite E7. cbn [mbind outcome_bind].
  destruct (set_fields_spec [(lit "_version", LStr (lit "0.1.2")); (lit "null", LNil)] st7 m H7 Hm7)
    as (st8 & E8 & H8 & Hm8 & R8 & N8 & F8).
  { repeat (apply Forall_cons; split; [split; [by forall_done|try exact I; by forall_done]|]). by apply Forall_nil. }
  rewrite E8. cbn [mbind outcome_bind]. eexists m, _. split; [reflexivity|].
  assert (Hreg : registry st8 = <[JSON_NULL_KEY := LUserdata u]> (<[JSON_OBJECT_MT_KEY := LTable om]>
    (<[JSON_ARRAY_MT_KEY := LTable am]> (registry st)))).
  { rewrite R8, R7. injection E6 as <- <-. cbn. rewrite R5. injection E4 as <- <-. injection E3 as <- <-. cbn.
    injection E2 as <- <-. injection E1 as <- <-. done. }
  assert (Hget : forall k, reg_get (reg_set st8 JSON_MOD_KEY (LTable m)) k =
    if decide (JSON_MOD_KEY = k) then LTable m else if decide (JSON_NULL_KEY = k) then LUserdata u
    else if decide (JSON_OBJECT_MT_KEY = k) then LTable om else if decide (JSON_ARRAY_MT_KEY = k) then LTable am
    else reg_get st k).
  { intros k. rewrite reg_get_set. destruct (decide (JSON_MOD_KEY = k)); [done|]. unfold reg_get. rewrite Hreg.
    repeat (destruct (decide (_ = k)); [subst; by rewrite lookup_insert_eq|rewrite lookup_insert_ne by done]). done. }
  assert (Hmod : reg_get (reg_set st8 JSON_MOD_KEY (LTable m)) JSON_MOD_KEY = LTable m) by (rewrite Hget; by destruct (decide _)).
  assert (Hne : am <> om). { injection E1 as <- <-. injection E2 as <- <-. cbn. lia. }
  split; [split; [by apply reg_set_inv|split; [|done]]|split; [|by rewrite Hmod]].
  - exists am, om, u. unfold push_array_mt, push_object_mt, push_null_sentinel. rewrite !Hget. done.
  - unfold module_null. rewrite Hmod. destruct Hm8 as [o8 Ho8]. cbn. rewrite Ho8.
    by apply (set_fields_last [(lit "_version", LStr (lit "0.1.2"))] st7 m _ LNil st8).
Qed.

(** [require "json"] sets the module up once: from any well-formed state
    where it is not loaded, [luaopen_json] returns the new module table and
    leaves a well-formed state with distinct array and object marks, a fresh
    sentinel, and [json.null] equal to [nil]; called again it returns the same
    table and changes nothing. *)
Theorem luaopen_json_ready (st : lua_state T) :
  inv st -> (forall m, reg_get st JSON_MOD_KEY <> LTable m) ->
  exists m st', luaopen_json cfunction st = Ret ([LTable m], st') /\ opened st' m /\ module_null st' = LNil /\
    luaopen_json cfunction st' = Ret ([LTable m], st').
Proof. apply open_spec. Qed.

Lemma enable_null_spec (st : lua_state T) m v w :
  opened st m ->
  (exists st', json_enable_null st [v] = Ret ([], st') /\ opened st' m /\
    module_null st' = (if lua_toboolean v then push_null_sentinel st' else LNil) /\
    (lua_toboolean v = true -> null_below (next_ref st') st')) /\
  json_is_present st [w] = [LBool (negb (bool_decide (w = LNil \/ w = push_null_sentinel st)))].
Proof.
  intros (Hinv & Hready & Hmod & Hm). split.
  - unfold json_enable_null. rewrite Hmod. pose proof Hm as [o Ho]. unfold arg. cbn [nth Nat.sub].
    set (x := if lua_toboolean v then push_null_sentinel st else LNil).
    assert (Hx : val_ok st x).
    { unfold x. destruct Hready as (am & om & u & _ & _ & _ & ->). by destruct (lua_toboolean v). }
    destruct (lua_rawset st m (LStr (lit "null")) x) as [st1|e|] eqn:E; [|by unfold lua_rawset, with_table in E; rewrite Ho in E..].
    destruct (rawset_inv _ _ _ _ _ E Hinv I ltac:(by forall_done) Hx) as [Hinv1 He1]. cbn [mbind outcome_bind].
    exists st1. split; [done|]. unfold lua_rawset, with_table in E. rewrite Ho in E. injection E as <-.
    assert (Hget : t_get (t_set (tab o) (LStr (lit "null")) x) (LStr (lit "null")) = x).
    { rewrite t_get_set by done. by destruct (decide _). }
    split; [|split].
    + split; [done|]. split; [exact Hready|]. split; [exact Hmod|]. by apply He1.
    + unfold module_null. change (reg_get (put_table _ _ _) ?k) with (reg_get st k). rewrite Hmod. cbn.
      rewrite lookup_insert_eq. exact Hget.
    + intros Hv. eexists m, _. split; [exact Hmod|]. split; [by apply (proj1 Hinv m o)|]. cbn.
      rewrite lookup_insert_eq. split; [done|].
      split; [transitivity x; [exact Hget|unfold x; by rewrite Hv]|]. change (push_null_sentinel (put_table _ _ _)) with (push_null_sentinel st).
      by destruct Hready as (am & om & u & _ & _ & _ & ->).
  - unfold json_is_present, arg. cbn [nth Nat.sub]. destruct Hready as (am & om & u & _ & _ & _ & Hn).
    destruct (lua_isnil w) eqn:Hw.
    + by destruct w.
    + destruct (decide (w = push_null_sentinel st)) as [->|Hne]; [by rewrite bool_decide_eq_true_2 by auto|].
      rewrite bool_decide_eq_false_2; [done|]. intros [->|?]; done.
Qed.

(** [json.enable_null(b)] decides what [null] decodes to: with a true
    argument the sentinel, with a false one [nil], in a state otherwise as good
    as before; and either way the sentinel and [nil] are not "present", and any
    other value is. *)
Theorem json_enable_null_spec (st : lua_state T) m v w :
  opened st m ->
  (exists st', json_enable_null st [v] = Ret ([], st') /\ opened st' m /\
    module_null st' = (if lua_toboolean v then push_null_sentinel st' else LNil) /\
    (lua_toboolean v = true -> null_below (next_ref st') st')) /\
  json_is_present st [w] = [LBool (negb (bool_decide (w = LNil \/ w = push_null_sentinel st)))].
Proof. apply enable_null_spec. Qed.
End Open.

(** ** A loaded module *)

Definition empty_state : lua_state alist := mk_state ∅ ∅ 1 [].
Lemma empty_inv : @inv alist assoc_table empty_state.
Proof. by split; intros a o Ho. Qed.

Definition c_function (name : list Z) : lua_value := LFun 1.
Definition loaded_state : lua_state alist :=
  match @luaopen_json alist assoc_table c_function empty_state with
  | Ret (_, st) => match @json_enable_null alist assoc_table st [LBool true] with Ret (_, st) => st | _ => st end
  | _ => empty_state
  end.

Lemma loaded_ok :
  exists m, @opened alist assoc_table loaded_state m /\ @null_below alist assoc_table (next_ref loaded_state) loaded_state.
Proof.
  unfold loaded_state.
  destruct (@open_spec alist assoc_table c_function ltac:(done) empty_state empty_inv ltac:(done)) as (m & st & -> & Hop & _).
  destruct (proj1 (@enable_null_spec alist assoc_table st m (LBool true) LNil Hop)) as (st' & -> & Hop' & _ & Hn).
  exists m. split; [exact Hop'|by apply Hn].
Qed.

Definition sample_tree : json :=
  JObj [(lit "a", JArr [JNum 4607182418800017408; JNull; JStr [120; 10; 1; 34; 200]; JArr []]); (lit "b", JObj []); ([], JBool true)].

Lemma json_decode_total_witness :
  (exists v st', @json_decode alist assoc_table empty_state [LStr (lit "[1,{}")] = Ret ([v], st') /\
     grows (next_ref empty_state) empty_state st') \/
  (exists e, @json_decode alist assoc_table empty_state [LStr (lit "[1,{}")] = Raise e).
Proof. apply json_decode_total, empty_inv. Defined.

Lemma json_decode_print_witness :
  exists v st', @json_decode alist assoc_table loaded_state [LStr (lit " " ++ print sample_tree ++ [10])] = Ret ([v], st') /\
    grows (next_ref loaded_state) loaded_state st' /\ @denotes alist assoc_table (next_ref loaded_state) st' v sample_tree.
Proof.
  destruct loaded_ok as (m & Hop & Hn).
  apply (@json_decode_print alist assoc_table true loaded_state (lit " ") sample_tree [10]);
    [apply Hop|done|by vm_compute|by forall_done|by forall_done].
Defined.

Lemma json_roundtrip_witness :
  exists v st' t', @json_decode alist assoc_table loaded_state [LStr (print sample_tree)] = Ret ([v], st') /\
    json_perm sample_tree t' /\
    (@json_encode alist assoc_table zero_alloc plain_lua st' [v] = Ret [LStr (print t')] \/
     exists e, @json_encode alist assoc_table zero_alloc plain_lua st' [v] = Raise e /\
       @short_of_memory zero_alloc (Zlen (print t'))).
Proof.
  destruct loaded_ok as (m & Hop & Hn).
  apply (@json_roundtrip alist assoc_table zero_alloc plain_lua true loaded_state sample_tree);
    [apply Hop|apply Hop|done|by vm_compute].
Defined.

Lemma luaopen_json_ready_witness :
  exists m st', @luaopen_json alist assoc_table c_function empty_state = Ret ([LTable m], st') /\
    @opened alist assoc_table st' m /\ @module_null alist assoc_table st' = LNil /\
    @luaopen_json alist assoc_table c_function st' = Ret ([LTable m], st').
Proof. apply luaopen_json_ready; [done|apply empty_inv|done]. Defined.

Lemma json_enable_null_spec_witness :
  exists m, (exists st', @json_enable_null alist assoc_table loaded_state [LNil] = Ret ([], st') /\
    @opened alist assoc_table st' m /\ @module_null alist assoc_table st' = LNil /\
    (false = true -> @null_below alist assoc_table (next_ref st') st')) /\
  json_is_present loaded_state [LInt 3] = [LBool true].
Proof.
  destruct loaded_ok as (m & Hop & _). exists m.
  apply (@json_enable_null_spec alist assoc_table loaded_state m LNil (LInt 3) Hop).
Defined.

(** Integers of up to 14 digits cross JSON unchanged: the encoder writes
    them in decimal without point or exponent, and the double read back is the
    same; larger or fractional numbers keep 14 significant digits only. *)
Theorem json_integers z :
  - 10 ^ 14 < z < 10 ^ 14 ->
  print (JNum (d_of_Z z)) = dec_of_Z z /\ tree_ok false (JNum (d_of_Z z)) = true.
Proof.
  intros Hz. destruct (small_int_text z Hz) as (Hf & Hs & Hnan & Hinf & Hzero). cbn [print tree_ok]. unfold print_num, num_ok.
  assert (H0 : (if d_iszero (d_of_Z z) then 0 else d_of_Z z) = d_of_Z z).
  { destruct (d_iszero (d_of_Z z)); [by rewrite Hzero|done]. }
  rewrite H0, Hf, Hs, Hnan, Hinf. split; [done|]. cbn [negb andb]. rewrite bool_decide_eq_true_2, andb_true_r by done.
  destruct (d_iszero (d_of_Z z)); [by rewrite Hzero|done].
Qed.

Lemma json_integers_witness :
  print (JNum (d_of_Z (-70000))) = lit "-70000" /\ tree_ok false (JNum (d_of_Z (-70000))) = true.
Proof. apply (json_integers (-70000)). lia. Defined.
