(* ===== verification/Evhttp.v ===== *)
(** * What the HTTP server needs of libevent and of the C string library

    libevent is not under src/.  An [evbuffer] is an abstract type with the
    documented behaviour of its operations as laws over the bytes it holds;
    additions may fail for lack of memory.  [list_evbuffer] is an instance for
    the witnesses.  The string comparisons of libc are defined here. *)

From S2P Require Import Prelude.

Class Evbuffer (E : Type) : Type := {
  evbuffer_new : option E;
  evbuffer_bytes : E -> list Z;
  evbuffer_get_length : E -> Z;
  evbuffer_copyout : E -> Z -> list Z;
  evbuffer_drain : E -> Z -> E;
  evbuffer_remove : E -> Z -> list Z * E;
  evbuffer_add : E -> list Z -> option E;
  (** [bufferevent_write_buffer(bev, buf)] on the output buffer of [bev]. *)
  bufferevent_write_buffer : E -> E -> option E;
  evbuffer_new_bytes : forall e, evbuffer_new = Some e -> evbuffer_bytes e = [];
  evbuffer_length_spec : forall e, evbuffer_get_length e = Zlen (evbuffer_bytes e);
  evbuffer_copyout_spec : forall e n, 0 <= n -> evbuffer_copyout e n = ztake n (evbuffer_bytes e);
  evbuffer_drain_spec : forall e n, 0 <= n -> evbuffer_bytes (evbuffer_drain e n) = zdrop n (evbuffer_bytes e);
  evbuffer_remove_data : forall e n, 0 <= n -> fst (evbuffer_remove e n) = ztake n (evbuffer_bytes e);
  evbuffer_remove_rest : forall e n, 0 <= n -> evbuffer_bytes (snd (evbuffer_remove e n)) = zdrop n (evbuffer_bytes e);
  evbuffer_add_spec : forall e d e', evbuffer_add e d = Some e' -> evbuffer_bytes e' = evbuffer_bytes e ++ d;
  bufferevent_write_spec : forall e d e', bufferevent_write_buffer e d = Some e' ->
    evbuffer_bytes e' = evbuffer_bytes e ++ evbuffer_bytes d
}.

(** Memory suffices for every addition. *)
Definition evbuffer_reliable {E} `{Evbuffer E} : Prop :=
  (exists e : E, evbuffer_new = Some e) /\ (forall (e : E) d, evbuffer_add e d <> None) /\
  (forall e d : E, bufferevent_write_buffer e d <> None).

#[refine] Definition list_evbuffer : Evbuffer (list Z) := {|
  evbuffer_new := Some [];
  evbuffer_bytes := fun e => e;
  evbuffer_get_length := Zlen;
  evbuffer_copyout := fun e n => ztake n e;
  evbuffer_drain := fun e n => zdrop n e;
  evbuffer_remove := fun e n => (ztake n e, zdrop n e);
  evbuffer_add := fun e d => Some (e ++ d);
  bufferevent_write_buffer := fun e d => Some (e ++ d)
|}.
Proof. all: intros; simplify_eq/=; done. Defined.

Lemma list_evbuffer_reliable : @evbuffer_reliable _ list_evbuffer.
Proof. split; [by exists []|done]. Qed.

Section Evbuffer.
Context {E : Type} `{Evbuffer E}.

(** A call of [evbuffer_add] whose result the code ignores. *)
Definition evbuffer_put (e : E) (d : list Z) : E := default e (evbuffer_add e d).

Lemma evbuffer_put_spec e d :
  evbuffer_bytes (evbuffer_put e d) = evbuffer_bytes e ++ d \/ evbuffer_put e d = e.
Proof.
  unfold evbuffer_put. destruct (evbuffer_add e d) as [e'|] eqn:E1; [left; by apply evbuffer_add_spec|by right].
Qed.
Lemma evbuffer_put_reliable e d :
  evbuffer_reliable (E := E) -> evbuffer_bytes (evbuffer_put e d) = evbuffer_bytes e ++ d.
Proof.
  intros (_ & Hadd & _). unfold evbuffer_put. destruct (evbuffer_add e d) as [e'|] eqn:E1; [|by apply Hadd in E1].
  by apply evbuffer_add_spec.
Qed.
End Evbuffer.

(** ** C strings *)

Definition tolower (c : Z) : Z := if (65 <=? c) && (c <=? 90) then c + 32 else c.

(** [strcasecmp(a, b) == 0], [strcmp(a, b) == 0]. *)
Definition strcasecmp_eq (a b : list Z) : bool := bool_decide (map tolower (cstr a) = map tolower (cstr b)).
Definition strcmp_eq (a b : list Z) : bool := bool_decide (cstr a = cstr b).

Fixpoint starts_with (p s : list Z) : bool :=
  match p, s with
  | [], _ => true
  | c :: p, d :: s => (c =? d) && starts_with p s
  | _, [] => false
  end.
Fixpoint contains (s p : list Z) : bool :=
  starts_with p s || match s with [] => false | _ :: s => contains s p end.
(** [strcasestr(s, p) != NULL] and [strstr(s, p) == s]. *)
Definition strcasestr_in (s p : list Z) : bool := contains (map tolower (cstr s)) (map tolower (cstr p)).
Definition strstr_at_start (s p : list Z) : bool := starts_with (cstr p) (cstr s).
