(* ===== verification/Registry.v ===== *)
(** * References in the Lua registry

    What the registry holds under the integers [luaL_ref] gives out, and which of
    them belong to whom: the entries [F] of others, and a list of references of an
    object's own. *)

From S2P Require Import Prelude.

(** A function, or a coroutine that is kept while it runs or waits. *)
Inductive regval : Type := RFun (k : positive) | RThread.

(** A field that holds a reference: zeroed memory, [LUA_NOREF], or a reference. *)
Inductive sref : Type := RefZero | RefNone | Ref (r : positive).

Definition opt_list (r : option positive) : list positive := match r with Some r => [r] | None => [] end.

Section Registry.
Implicit Type F : gmap positive regval.

(** [F]: the entries that are not the connection's. *)
Definition reg_inv F (l : list positive) (reg : gmap positive regval) : Prop :=
  F ⊆ reg /\ NoDup l /\ forall r, r ∈ l -> F !! r = None /\ exists k, reg !! r = Some (RFun k).
Definition reg_exact F (l : list positive) (reg : gmap positive regval) : Prop :=
  forall r, is_Some (reg !! r) -> is_Some (F !! r) \/ r ∈ l.

Lemma reg_inv_add F l1 l2 reg k : let r := fresh (dom reg) in
  reg_inv F (l1 ++ l2) reg -> reg_inv F (l1 ++ r :: l2) (<[r := RFun k]> reg).
Proof.
  intros r (HF & Hn & Hl). assert (Hr : reg !! r = None) by (apply not_elem_of_dom, is_fresh).
  assert (HFr : F !! r = None) by (by apply (lookup_weaken_None _ reg)).
  assert (Hnot : r ∉ l1 ++ l2) by (intros Hin; apply Hl in Hin as (_ & ? & ?); congruence).
  split; [by apply insert_subseteq_r|]. split.
  - rewrite <- Permutation_middle. by constructor.
  - intros x. rewrite elem_of_app, elem_of_cons. intros Hx. destruct (decide (x = r)) as [->|].
    + rewrite lookup_insert_eq. split; [done|by eexists].
    + rewrite lookup_insert_ne by done. apply Hl. rewrite elem_of_app. tauto.
Qed.
Lemma reg_exact_add F l1 l2 reg r v : reg_exact F (l1 ++ l2) reg -> reg_exact F (l1 ++ r :: l2) (<[r := v]> reg).
Proof.
  intros He x Hx. rewrite elem_of_app, elem_of_cons. destruct (decide (x = r)) as [->|]; [tauto|].
  rewrite lookup_insert_ne in Hx by done. destruct (He x Hx) as [?|Hin]; [by left|]. rewrite elem_of_app in Hin. tauto.
Qed.
Lemma reg_inv_del F l1 l2 reg r : reg_inv F (l1 ++ r :: l2) reg -> is_Some (reg !! r) /\ reg_inv F (l1 ++ l2) (delete r reg).
Proof.
  intros (HF & Hn & Hl). destruct (Hl r) as (Hr & k & Hk); [rewrite elem_of_app, elem_of_cons; tauto|].
  rewrite <- Permutation_middle in Hn. apply NoDup_cons in Hn as [Hnot Hn].
  split; [by eexists|]. split; [by apply map_subseteq_spec; intros i x Hi; rewrite lookup_delete_ne by congruence; eapply lookup_weaken|].
  split; [done|]. intros x Hx. assert (x <> r) by congruence. rewrite lookup_delete_ne by done.
  apply Hl. rewrite elem_of_app, elem_of_cons. rewrite elem_of_app in Hx. tauto.
Qed.
Lemma reg_exact_del F l1 l2 reg r : reg_exact F (l1 ++ r :: l2) reg -> reg_exact F (l1 ++ l2) (delete r reg).
Proof.
  intros He x [y Hx]. apply lookup_delete_Some in Hx as [Hne Hx]. destruct (He x) as [?|Hin]; [by eexists|by left|].
  right. rewrite elem_of_app, elem_of_cons in Hin. rewrite elem_of_app.
  destruct Hin as [?|[->|?]]; [by left|done|by right].
Qed.
(** A coroutine is held while it runs. *)
Lemma reg_inv_thread F l reg : let th := fresh (dom reg) in
  reg_inv F l reg -> F !! th = None /\ reg_inv (<[th := RThread]> F) l (<[th := RThread]> reg).
Proof.
  intros th (HF & Hn & Hl). assert (Hr : reg !! th = None) by (apply not_elem_of_dom, is_fresh).
  split; [by apply (lookup_weaken_None _ reg)|]. split; [by apply insert_mono|]. split; [done|]. intros x Hx.
  destruct (Hl x Hx) as (HFx & k & Hk). assert (x <> th) by congruence. rewrite !lookup_insert_ne by done. eauto.
Qed.
Lemma reg_exact_thread F l reg th : reg_exact F l reg -> reg_exact (<[th := RThread]> F) l (<[th := RThread]> reg).
Proof.
  intros He x Hx. destruct (decide (th = x)) as [<-|]; [left; rewrite lookup_insert_eq; by eexists|].
  rewrite lookup_insert_ne in Hx by done. rewrite lookup_insert_ne by done. auto.
Qed.
Lemma reg_inv_unthread F l reg th : F !! th = None -> reg_inv (<[th := RThread]> F) l reg ->
  is_Some (reg !! th) /\ reg_inv F l (delete th reg).
Proof.
  intros Hth (HF & Hn & Hl). assert (Hr : reg !! th = Some RThread).
  { eapply lookup_weaken; [|exact HF]. apply lookup_insert_eq. }
  split; [by eexists|]. split.
  - apply map_subseteq_spec. intros i x Hi. assert (i <> th) by congruence. rewrite lookup_delete_ne by done.
    eapply lookup_weaken; [|exact HF]. by rewrite lookup_insert_ne.
  - split; [done|]. intros x Hx. destruct (Hl x Hx) as (HFx & k & Hk). assert (th <> x) by congruence.
    rewrite lookup_delete_ne by done. rewrite lookup_insert_ne in HFx by done. eauto.
Qed.
Lemma reg_exact_unthread F l reg th : reg_exact (<[th := RThread]> F) l reg -> reg_exact F l (delete th reg).
Proof.
  intros He x [y Hx]. apply lookup_delete_Some in Hx as [Hne Hx]. destruct (He x) as [Hs|?]; [by eexists| |by right].
  rewrite lookup_insert_ne in Hs by done. by left.
Qed.
Lemma reg_done F reg : reg_inv F [] reg -> reg_exact F [] reg -> reg = F.
Proof.
  intros (HF & _) He. apply (anti_symm (⊆)); [|done]. apply map_subseteq_spec. intros i x Hi.
  destruct (He i) as [[y Hy]|Hin]; [by eexists| |by apply not_elem_of_nil in Hin].
  pose proof (lookup_weaken _ _ _ _ Hy HF). congruence.
Qed.
End Registry.
