(* ===== verification/Httpd.v ===== *)
(** * src/httpd.c, src/httpd_request.c, src/httpd_metrics.c: one HTTP request

    The [Request] object, the methods a handler script calls on it, the
    callbacks of libevent that race with them, the metrics they update and the
    server settings.  What the code tells libevent to do for the request is
    recorded in order as a list of [act]s. *)

From S2P Require Import Prelude Lua Evhttp.

(** ** Metrics *)

Record httpd_metrics_t : Type := mk_metrics {
  requests_total : Z;
  requests_active : Z;
  bytes_sent : Z;
  bytes_received : Z;
  errors_total : Z;
  memory_allocated : Z;
  connections_total : Z;
  keepalive_reused : Z;
  start_time : Z;
  requests_get : Z;
  requests_post : Z;
  requests_put : Z;
  requests_delete : Z;
  requests_other : Z;
  responses_2xx : Z;
  responses_3xx : Z;
  responses_4xx : Z;
  responses_5xx : Z
}.

Definition metrics_init (now : Z) : httpd_metrics_t := mk_metrics 0 0 0 0 0 0 0 0 now 0 0 0 0 0 0 0 0 0.

Definition metrics_update_request_start (m : httpd_metrics_t) (method : option (list Z)) : httpd_metrics_t :=
  let eq name := match method with Some s => strcmp_eq s (lit name) | None => false end in
  let get := eq "GET" in
  let post := negb get && eq "POST" in
  let put := negb get && negb post && eq "PUT" in
  let del := negb get && negb post && negb put && eq "DELETE" in
  let other := match method with Some _ => negb get && negb post && negb put && negb del | None => false end in
  let count (b : bool) n := if b then u64 (n + 1) else n in
  mk_metrics (u64 (requests_total m + 1)) (u64 (requests_active m + 1)) (bytes_sent m) (bytes_received m)
    (errors_total m) (memory_allocated m) (connections_total m) (keepalive_reused m) (start_time m)
    (count get (requests_get m)) (count post (requests_post m)) (count put (requests_put m))
    (count del (requests_delete m)) (count other (requests_other m))
    (responses_2xx m) (responses_3xx m) (responses_4xx m) (responses_5xx m).

Definition metrics_update_request_end (m : httpd_metrics_t) (status_code sent : Z) : httpd_metrics_t :=
  let c2 := (200 <=? status_code) && (status_code <? 300) in
  let c3 := (300 <=? status_code) && (status_code <? 400) in
  let c4 := (400 <=? status_code) && (status_code <? 500) in
  let c5 := 500 <=? status_code in
  let count (b : bool) n := if b then u64 (n + 1) else n in
  mk_metrics (requests_total m)
    (if 0 <? requests_active m then u64 (requests_active m - 1) else requests_active m)
    (u64 (bytes_sent m + sent)) (bytes_received m)
    (count (c4 || c5) (errors_total m)) (memory_allocated m) (connections_total m) (keepalive_reused m)
    (start_time m) (requests_get m) (requests_post m) (requests_put m) (requests_delete m) (requests_other m)
    (count c2 (responses_2xx m)) (count c3 (responses_3xx m)) (count c4 (responses_4xx m)) (count c5 (responses_5xx m)).

Definition metrics_update_connection (m : httpd_metrics_t) : httpd_metrics_t :=
  mk_metrics (requests_total m) (requests_active m) (bytes_sent m) (bytes_received m)
    (errors_total m) (memory_allocated m) (u64 (connections_total m + 1)) (keepalive_reused m) (start_time m)
    (requests_get m) (requests_post m) (requests_put m) (requests_delete m) (requests_other m)
    (responses_2xx m) (responses_3xx m) (responses_4xx m) (responses_5xx m).

(** The text of the metrics page, [now] being the clock. *)
Definition metric_line (name : string) (n : Z) : list Z := lit name ++ [32] ++ dec_of_Z n ++ [10].
Definition metrics_page (m : httpd_metrics_t) (now : Z) : list Z :=
  lit "# HTTPD Server Metrics" ++ [10] ++
  metric_line "uptime_seconds" (now - start_time m) ++
  metric_line "requests_total" (requests_total m) ++
  metric_line "requests_active" (requests_active m) ++
  metric_line "bytes_sent_total" (bytes_sent m) ++
  metric_line "bytes_received_total" (bytes_received m) ++
  metric_line "errors_total" (errors_total m) ++
  metric_line "memory_allocated_bytes" (memory_allocated m) ++
  metric_line "connections_total" (connections_total m) ++
  metric_line "keepalive_reused_total" (keepalive_reused m) ++
  [10] ++ lit "# Requests by method" ++ [10] ++
  metric_line "requests_get_total" (requests_get m) ++
  metric_line "requests_post_total" (requests_post m) ++
  metric_line "requests_put_total" (requests_put m) ++
  metric_line "requests_delete_total" (requests_delete m) ++
  metric_line "requests_other_total" (requests_other m) ++
  [10] ++ lit "# Responses by status class" ++ [10] ++
  metric_line "responses_2xx_total" (responses_2xx m) ++
  metric_line "responses_3xx_total" (responses_3xx m) ++
  metric_line "responses_4xx_total" (responses_4xx m) ++
  metric_line "responses_5xx_total" (responses_5xx m).

(** ** The server object *)

Definition HTTP_POST_BODY_LIMIT : Z := 100 * 1024 * 1024.
Definition MAX_READ_BUFFER_SIZE : Z := 1024 * 1024.
Definition READ_BUFF_LEN : Z := 64 * 1024.

Record LuaServer : Type := mk_server {
  enable_keep_alive : bool;
  keep_alive_timeout : Z;
  max_keep_alive_requests : Z;
  max_body_size : Z;
  port : Z
}.

Definition validate_httpd_config (server : LuaServer) : bool :=
  if (keep_alive_timeout server <? 1) || (3600 <? keep_alive_timeout server) then false
  else if (max_keep_alive_requests server <? 1) || (10000 <? max_keep_alive_requests server) then false
  else if (max_body_size server <? 1024) || (1073741824 <? max_body_size server) then false
  else if (port server <? 0) || (65535 <? port server) then false
  else true.

Section Bind.
Context `{LuaAPI}.

(** The settings part of [utd_bind]; [field] reads the argument table.  The
    object starts zeroed, so [port] is still 0 when it is validated. *)
Definition utd_bind_settings (field : list Z -> lua_value) : outcome LuaServer :=
  let number name (d : Z) (conv : Z -> Z) :=
    let v := field (lit name) in if lua_isnumber v then conv (lua_tointeger v) else d in
  let keep := let v := field (lit "enable_keep_alive") in if lua_isboolean v then lua_toboolean v else true in
  let server := mk_server keep (number "keep_alive_timeout" 30 s32) (number "max_keep_alive_requests" 100 s32)
                  (number "max_body_size" HTTP_POST_BODY_LIMIT u64) 0 in
  if negb (validate_httpd_config server) then Raise (lit "Invalid server configuration parameters")
  else
    let v := field (lit "port") in
    mret (mk_server (enable_keep_alive server) (keep_alive_timeout server) (max_keep_alive_requests server)
            (max_body_size server) (if lua_isnil v then 0 else s32 (lua_tointeger v))).
End Bind.

(** ** Requests *)

(** [REPLY_STATUS_NONE], [REPLY_STATUS_REPLYED], [REPLY_STATUS_REPLY_START]. *)
Inductive reply_status_t : Type := RNone | RReplyed | RStart.
#[export] Instance reply_status_eq_dec : EqDecision reply_status_t.
Proof. solve_decision. Defined.

(** [WS_STATE_CONNECTING], [..._OPEN], [..._CLOSING], [..._CLOSED]. *)
Inductive websocket_state_t : Type := WsConnecting | WsOpen | WsClosing | WsClosed.
#[export] Instance websocket_state_eq_dec : EqDecision websocket_state_t.
Proof. solve_decision. Defined.

(** Pointers that are only compared with NULL and registry references that are
    only taken and released are booleans; [r_ref] ([_ref_]) is the suspended
    coroutine it refers to. *)
Record Request (K : Type) : Type := mk_request {
  r_req : bool;
  r_reply_status : reply_status_t;
  r_is_websocket : bool;
  r_ws_state : websocket_state_t;
  r_ws_bev : bool;
  r_mainthread : bool;
  r_ref : option K;
  r_self_ref : bool;
  r_prevent_gc_ref : bool;
  r_queue_head : option positive;
  r_queue_tail : option positive;
  r_queue_len : Z;
  r_owns_request : bool;
  r_cleaning_up : Z
}.
Arguments mk_request {K}.
Arguments r_req {K}.
Arguments r_reply_status {K}.
Arguments r_is_websocket {K}.
Arguments r_ws_state {K}.
Arguments r_ws_bev {K}.
Arguments r_mainthread {K}.
Arguments r_ref {K}.
Arguments r_self_ref {K}.
Arguments r_prevent_gc_ref {K}.
Arguments r_queue_head {K}.
Arguments r_queue_tail {K}.
Arguments r_queue_len {K}.
Arguments r_owns_request {K}.
Arguments r_cleaning_up {K}.

(** Assignments to fields. *)
Section Fields.
Context {K : Type}.
Implicit Type r : Request K.

Definition set_reply_status s r : Request K :=
  mk_request (r_req r) s (r_is_websocket r) (r_ws_state r) (r_ws_bev r) (r_mainthread r) (r_ref r)
    (r_self_ref r) (r_prevent_gc_ref r) (r_queue_head r) (r_queue_tail r) (r_queue_len r) (r_owns_request r) (r_cleaning_up r).
Definition set_req b r : Request K :=
  mk_request b (r_reply_status r) (r_is_websocket r) (r_ws_state r) (r_ws_bev r) (r_mainthread r) (r_ref r)
    (r_self_ref r) (r_prevent_gc_ref r) (r_queue_head r) (r_queue_tail r) (r_queue_len r) (r_owns_request r) (r_cleaning_up r).
Definition set_ws_state s r : Request K :=
  mk_request (r_req r) (r_reply_status r) (r_is_websocket r) s (r_ws_bev r) (r_mainthread r) (r_ref r)
    (r_self_ref r) (r_prevent_gc_ref r) (r_queue_head r) (r_queue_tail r) (r_queue_len r) (r_owns_request r) (r_cleaning_up r).
Definition set_ws_bev b r : Request K :=
  mk_request (r_req r) (r_reply_status r) (r_is_websocket r) (r_ws_state r) b (r_mainthread r) (r_ref r)
    (r_self_ref r) (r_prevent_gc_ref r) (r_queue_head r) (r_queue_tail r) (r_queue_len r) (r_owns_request r) (r_cleaning_up r).
Definition set_ref k r : Request K :=
  mk_request (r_req r) (r_reply_status r) (r_is_websocket r) (r_ws_state r) (r_ws_bev r) (r_mainthread r) k
    (r_self_ref r) (r_prevent_gc_ref r) (r_queue_head r) (r_queue_tail r) (r_queue_len r) (r_owns_request r) (r_cleaning_up r).
Definition set_queue h t n r : Request K :=
  mk_request (r_req r) (r_reply_status r) (r_is_websocket r) (r_ws_state r) (r_ws_bev r) (r_mainthread r) (r_ref r)
    (r_self_ref r) (r_prevent_gc_ref r) h t n (r_owns_request r) (r_cleaning_up r).
Definition set_owns_request b r : Request K :=
  mk_request (r_req r) (r_reply_status r) (r_is_websocket r) (r_ws_state r) (r_ws_bev r) (r_mainthread r) (r_ref r)
    (r_self_ref r) (r_prevent_gc_ref r) (r_queue_head r) (r_queue_tail r) (r_queue_len r) b (r_cleaning_up r).
Definition set_cleaning_up n r : Request K :=
  mk_request (r_req r) (r_reply_status r) (r_is_websocket r) (r_ws_state r) (r_ws_bev r) (r_mainthread r) (r_ref r)
    (r_self_ref r) (r_prevent_gc_ref r) (r_queue_head r) (r_queue_tail r) (r_queue_len r) (r_owns_request r) n.

(** [CLEAR_REF(mainthread, self_ref)] and [luaL_unref(..., prevent_gc_ref)], each
    under its test for a reference and a main thread. *)
Definition clear_self_ref r : Request K :=
  if r_self_ref r && r_mainthread r then
    mk_request (r_req r) (r_reply_status r) (r_is_websocket r) (r_ws_state r) (r_ws_bev r) (r_mainthread r) (r_ref r)
      false (r_prevent_gc_ref r) (r_queue_head r) (r_queue_tail r) (r_queue_len r) (r_owns_request r) (r_cleaning_up r)
  else r.
Definition clear_prevent_gc_ref r : Request K :=
  if r_prevent_gc_ref r && r_mainthread r then
    mk_request (r_req r) (r_reply_status r) (r_is_websocket r) (r_ws_state r) (r_ws_bev r) (r_mainthread r) (r_ref r)
      (r_self_ref r) false (r_queue_head r) (r_queue_tail r) (r_queue_len r) (r_owns_request r) (r_cleaning_up r)
  else r.

(** The object [newtable_from_req] fills in, [prevent_gc_ref] included. *)
Definition new_request : Request K :=
  mk_request true RNone false WsConnecting false true None false true None None 0 false 0.
End Fields.

(** What the code asks libevent to do with a request. *)
Inductive act : Type :=
  | AHeader (key value : list Z)
  | AReply (code : Z) (reason : option (list Z)) (body : list Z)
  | AStart (code : Z) (reason : option (list Z))
  | AChunk (data : list Z)
  | AEnd
  | AError (code : Z).

(** libevent's side of a request: the peer's headers, the body received, whether
    the connection still exists and carries [httpd_conn_close_cb], whether the
    [struct evhttp_request] still exists; [h_body] is the field the request table
    caches the body in; [h_acts] the calls made. *)
Record hstate (E K : Type) : Type := mk_hstate {
  h_request : Request K;
  h_header : list Z -> option (list Z);
  h_input : E;
  h_evcon : bool;
  h_closecb : bool;
  h_live : bool;
  h_body : lua_value;
  h_server : option LuaServer;
  h_metrics : httpd_metrics_t;
  h_acts : list act
}.
Arguments mk_hstate {E K}.
Arguments h_request {E K}.
Arguments h_header {E K}.
Arguments h_input {E K}.
Arguments h_evcon {E K}.
Arguments h_closecb {E K}.
Arguments h_live {E K}.
Arguments h_body {E K}.
Arguments h_server {E K}.
Arguments h_metrics {E K}.
Arguments h_acts {E K}.

(** The answer of a call and the state it leaves, raised errors included. *)
Abbreviation call E K := (outcome (list lua_value) * hstate E K)%type.

(** What the system calls of [lua_evhttp_request_reply_chunk] find: whether the
    connection has a bufferevent, its descriptor, the result of [recv]. *)
Record peek : Type := mk_peek { p_bev : bool; p_fd : Z; p_recv : Z }.

Section Http.
Context {E K : Type} `{Evbuffer E} `{Allocator} `{LuaAPI}.
Implicit Type h : hstate E K.

Definition set_request r h : hstate E K :=
  mk_hstate r (h_header h) (h_input h) (h_evcon h) (h_closecb h) (h_live h) (h_body h) (h_server h) (h_metrics h) (h_acts h).
Definition set_input e h : hstate E K :=
  mk_hstate (h_request h) (h_header h) e (h_evcon h) (h_closecb h) (h_live h) (h_body h) (h_server h) (h_metrics h) (h_acts h).
Definition set_closecb b h : hstate E K :=
  mk_hstate (h_request h) (h_header h) (h_input h) (h_evcon h) b (h_live h) (h_body h) (h_server h) (h_metrics h) (h_acts h).
Definition set_body v h : hstate E K :=
  mk_hstate (h_request h) (h_header h) (h_input h) (h_evcon h) (h_closecb h) (h_live h) v (h_server h) (h_metrics h) (h_acts h).
Definition set_metrics m h : hstate E K :=
  mk_hstate (h_request h) (h_header h) (h_input h) (h_evcon h) (h_closecb h) (h_live h) (h_body h) (h_server h) m (h_acts h).
Definition emit (a : act) h : hstate E K :=
  mk_hstate (h_request h) (h_header h) (h_input h) (h_evcon h) (h_closecb h) (h_live h) (h_body h) (h_server h) (h_metrics h)
    (h_acts h ++ [a]).
Definition with_status s h : hstate E K := set_request (set_reply_status s (h_request h)) h.

(** Passing [request->req] to libevent is undefined once the request is freed. *)
Definition touch h (k : call E K) : call E K := if h_live h then k else (UB, h).

Definition httpd_conn_close_cb h : hstate E K :=
  let h := if r_req (h_request h) && bool_decide (r_reply_status (h_request h) = RStart) then emit AEnd h else h in
  let h := set_request (set_req false (h_request h)) h in
  let h := with_status RReplyed h in
  set_request (clear_prevent_gc_ref (h_request h)) h.

Definition httpd_release_conn_guard h : hstate E K :=
  let h := if r_req (h_request h) && h_evcon h then set_closecb false h else h in
  set_request (clear_prevent_gc_ref (h_request h)) h.

Definition newtable_from_req h : hstate E K :=
  let h := set_request new_request h in
  let h := set_body LNil h in
  if h_evcon h then set_closecb true h else h.

Definition keep_alive_header (server : LuaServer) : list Z :=
  snprintf 64 (lit "timeout=" ++ dec_of_Z (keep_alive_timeout server) ++
               lit ", max=" ++ dec_of_Z (max_keep_alive_requests server)).

(** The protocol version is fixed to 1.1 in the source, so only its first branch
    is reachable. *)
Definition set_connection_header (server : LuaServer) h : hstate E K :=
  if negb (enable_keep_alive server) then emit (AHeader (lit "Connection") (lit "close")) h
  else if match h_header h (lit "Connection") with Some c => strcasecmp_eq c (lit "close") | None => false end
  then emit (AHeader (lit "Connection") (lit "close")) h
  else emit (AHeader (lit "Connection") (lit "keep-alive"))
         (emit (AHeader (lit "Keep-Alive") (keep_alive_header server)) h).

(** ** Reading the body *)

(** [while (total_read < len)] of [request_push_body], [data] being what was read
    so far. *)
Fixpoint remove_loop (fuel : nat) (len : Z) (data : list Z) (bodybuf : E) : list Z * E :=
  match fuel with
  | O => (data, bodybuf)
  | S fuel =>
      if Zlen data <? len then
        let '(d, bodybuf) := evbuffer_remove bodybuf (len - Zlen data) in
        if s32 (Zlen d) <=? 0 then (data, bodybuf)
        else remove_loop fuel len (data ++ d) bodybuf
      else (data, bodybuf)
  end.

Definition request_push_body h : call E K :=
  if lua_isnil (h_body h) then
    if negb (r_req (h_request h)) then (Ret [LNil], h)
    else touch h (
      let len := evbuffer_get_length (h_input h) in
      let body_limit := match h_server h with Some s => max_body_size s | None => HTTP_POST_BODY_LIMIT end in
      if (0 <? len) && (len <? body_limit) then
        match malloc (u64 (len + 1)) with
        | None => (Ret [LNil], h)
        | Some _ =>
            let '(data, input) := remove_loop (S (Z.to_nat len)) len [] (h_input h) in
            (Ret [LStr data], set_body (LStr data) (set_input input h))
        end
      else (Ret [LNil], h))
  else (Ret [h_body h], h).

Definition lua_evhttp_request_available h : call E K :=
  if negb (r_req (h_request h)) then (Ret [LInt 0], h)
  else touch h (Ret [LInt (evbuffer_get_length (h_input h))], h).

Definition lua_evhttp_request_read (args : list lua_value) h : call E K :=
  if negb (r_req (h_request h)) then (Ret [LNil], h)
  else touch h (
    let evbuffer_length := evbuffer_get_length (h_input h) in
    if evbuffer_length =? 0 then (Ret [LNil], h)
    else
      match luaL_optinteger (arg args 2) (Z.min READ_BUFF_LEN evbuffer_length) with
      | Raise e => (Raise e, h)
      | UB => (UB, h)
      | Ret buff_len =>
          if (buff_len <=? 0) || (MAX_READ_BUFFER_SIZE <? buff_len) then (Ret [LNil], h)
          else
            match malloc buff_len with
            | None => (Ret [LNil], h)
            | Some _ =>
                let '(d, input) := evbuffer_remove (h_input h) buff_len in
                (Ret [if 0 <? s32 (Zlen d) then LStr d else LNil], set_input input h)
            end
      end).

(** ** Replying *)


(** [self] is the request table, which the methods return for chaining. *)
Definition lua_evhttp_request_reply (self : lua_value) (args : list lua_value) h : call E K :=
  if negb (r_req (h_request h)) then (Raise (lit "connection closed by peer"), h)
  else
    match r_reply_status (h_request h) with
    | RReplyed => (Raise (lit "reply has completed already."), h)
    | RStart => touch h (Ret [self], httpd_release_conn_guard (with_status RReplyed (emit AEnd h)))
    | RNone => touch h (
        let responseCode := s32 (lua_tointeger (arg args 2)) in
        let responseMessage := lua_tostring (arg args 3) in
        let responseBuff := default [] (lua_tolstring (arg args 4)) in
        let h := match h_server h with
                 | Some server => set_connection_header server h
                 | None => emit (AHeader (lit "Connection") (lit "close")) h
                 end in
        match evbuffer_new with
        | None => (Raise (lit "Failed to create response buffer"), h)
        | Some buf =>
            match (if 0 <? Zlen responseBuff then evbuffer_add buf responseBuff else Some buf) with
            | None => (Raise (lit "Failed to add data to response buffer"), h)
            | Some buf =>
                let h := emit (AReply responseCode responseMessage (evbuffer_bytes buf)) h in
                let h := httpd_release_conn_guard (with_status RReplyed h) in
                (Ret [], set_metrics (metrics_update_request_end (h_metrics h) responseCode (Zlen responseBuff)) h)
            end
        end)
    end.

Definition lua_evhttp_request_reply_addheader (self : lua_value) (args : list lua_value) h : call E K :=
  if negb (r_req (h_request h)) then (Raise (lit "connection closed by peer"), h)
  else
    match r_reply_status (h_request h) with
    | RReplyed => (Raise (lit "reply has completed already."), h)
    | RStart => (Raise (lit "reply has started already."), h)
    | RNone =>
        match luaL_checklstring (arg args 2) with
        | Ret key =>
            match luaL_checklstring (arg args 3) with
            | Ret value => touch h (Ret [self], emit (AHeader (cstr key) (cstr value)) h)
            | Raise e => (Raise e, h)
            | UB => (UB, h)
            end
        | Raise e => (Raise e, h)
        | UB => (UB, h)
        end
    end.

Definition lua_evhttp_request_reply_start (self : lua_value) (args : list lua_value) h : call E K :=
  if negb (r_req (h_request h)) then (Raise (lit "connection closed by peer"), h)
  else
    match r_reply_status (h_request h) with
    | RReplyed => (Raise (lit "reply has completed already."), h)
    | RStart => (Raise (lit "reply has started already."), h)
    | RNone =>
        let responseCode := s32 (lua_tointeger (arg args 2)) in
        let responseMessage := lua_tostring (arg args 3) in
        touch h (Ret [self], with_status RStart (emit (AStart responseCode responseMessage) h))
    end.

(** The loop over the arguments from the second on; [None] when an addition fails. *)
Fixpoint add_args (args : list lua_value) (buf : E) : option E :=
  match args with
  | [] => Some buf
  | v :: args =>
      let responseBuff := default [] (lua_tolstring v) in
      match (if 0 <? Zlen responseBuff then evbuffer_add buf responseBuff else Some buf) with
      | None => None
      | Some buf => add_args args buf
      end
  end.

Definition lua_evhttp_request_reply_chunk (self : lua_value) (p : peek) (args : list lua_value) h : call E K :=
  if negb (r_req (h_request h)) then (Raise (lit "connection closed by peer"), with_status RReplyed h)
  else
    match r_reply_status (h_request h) with
    | RReplyed => (Raise (lit "reply has completed already."), h)
    | RNone => (Raise (lit "reply has not started yet."), h)
    | RStart => touch h (
        if negb (h_evcon h) then (Raise (lit "connection closed by peer"), with_status RReplyed h)
        else if p_bev p && (0 <=? p_fd p) && (p_recv p =? 0)
        then (Raise (lit "connection closed by peer"), with_status RReplyed h)
        else
          match args with
          | _ :: ((_ :: _) as rest) =>
              match evbuffer_new with
              | None => (Raise (lit "Failed to create chunk buffer"), h)
              | Some buf =>
                  match add_args rest buf with
                  | None => (Raise (lit "Failed to add data to chunk buffer"), h)
                  | Some buf => (Ret [self], emit (AChunk (evbuffer_bytes buf)) h)
                  end
              end
          | _ => (Ret [self], h)
          end)
    end.

Definition lua_evhttp_request_reply_end (self : lua_value) h : call E K :=
  if negb (r_req (h_request h)) then (Ret [self], with_status RReplyed h)
  else
    match r_reply_status (h_request h) with
    | RReplyed => (Raise (lit "reply has completed already."), h)
    | RNone => (Raise (lit "reply has not started yet."), h)
    | RStart => touch h (
        let h := if h_evcon h then emit AEnd h else h in
        (Ret [self], httpd_release_conn_guard (with_status RReplyed h)))
    end.

(** ** The calls a script makes on a request, and the dispatcher *)

Inductive http_call : Type :=
  | HRead (args : list lua_value)
  | HAvailable
  | HBody
  | HAddheader (args : list lua_value)
  | HReply (args : list lua_value)
  | HStart (args : list lua_value)
  | HChunk (p : peek) (args : list lua_value)
  | HEnd.

Definition http_exec (self : lua_value) (c : http_call) h : call E K :=
  match c with
  | HRead args => lua_evhttp_request_read args h
  | HAvailable => lua_evhttp_request_available h
  | HBody => request_push_body h
  | HAddheader args => lua_evhttp_request_reply_addheader self args h
  | HReply args => lua_evhttp_request_reply self args h
  | HStart args => lua_evhttp_request_reply_start self args h
  | HChunk p args => lua_evhttp_request_reply_chunk self p args h
  | HEnd => lua_evhttp_request_reply_end self h
  end.

(** A handler run as far as its next suspension: it returns, raises, or yields,
    after calls whose answers (raised errors included, it may run under
    [pcall]) decide how it goes on. *)
Inductive script : Type :=
  | SReturn
  | SError
  | SYield
  | SCall (c : http_call) (k : outcome (list lua_value) -> script).

Inductive resume_status : Type := LuaOk | LuaErr | LuaYield.

Fixpoint run_script (self : lua_value) (s : script) h : resume_status * hstate E K :=
  match s with
  | SReturn => (LuaOk, h)
  | SError => (LuaErr, h)
  | SYield => (LuaYield, h)
  | SCall c k => let '(r, h) := http_exec self c h in run_script self (k r) h
  end.

Inductive evhttp_cmd_type : Type :=
  | EVHTTP_REQ_GET | EVHTTP_REQ_POST | EVHTTP_REQ_HEAD | EVHTTP_REQ_PUT | EVHTTP_REQ_DELETE
  | EVHTTP_REQ_OPTIONS | EVHTTP_REQ_TRACE | EVHTTP_REQ_CONNECT | EVHTTP_REQ_PATCH | EVHTTP_REQ_OTHER.
#[local] Instance evhttp_cmd_type_eq_dec : EqDecision evhttp_cmd_type.
Proof. solve_decision. Defined.

Definition methodMap : list (list Z * evhttp_cmd_type) := [
  (lit "GET", EVHTTP_REQ_GET); (lit "POST", EVHTTP_REQ_POST); (lit "HEAD", EVHTTP_REQ_HEAD);
  (lit "PUT", EVHTTP_REQ_PUT); (lit "DELETE", EVHTTP_REQ_DELETE); (lit "OPTIONS", EVHTTP_REQ_OPTIONS);
  (lit "TRACE", EVHTTP_REQ_TRACE); (lit "CONNECT", EVHTTP_REQ_CONNECT); (lit "PATCH", EVHTTP_REQ_PATCH)].

Fixpoint method_of (cmd : evhttp_cmd_type) (map : list (list Z * evhttp_cmd_type)) : option (list Z) :=
  match map with
  | [] => None
  | (name, c) :: map => if decide (cmd = c) then Some name else method_of cmd map
  end.

(** What [fan_cb_setup] makes of the reference to the handler. *)
Inductive setup : Type := SetupFailed | SetupNoFunction | SetupRun (s : script).

(** The end of the dispatcher, once the handler's coroutine has returned or failed. *)
Definition handler_returned h : hstate E K :=
  if decide (r_reply_status (h_request h) = RReplyed) then h else httpd_release_conn_guard h.

Definition httpd_handler_cgi_bin (self : lua_value) (cmd : evhttp_cmd_type) (cbs : setup) h : hstate E K :=
  let h := set_metrics (metrics_update_connection (h_metrics h)) h in
  let h := set_metrics (metrics_update_request_start (h_metrics h) (method_of cmd methodMap)) h in
  match cbs with
  | SetupFailed | SetupNoFunction => emit (AError 500) h
  | SetupRun s =>
      let h := newtable_from_req h in
      let '(status, h) := run_script self s h in
      match status with
      | LuaYield => h
      | _ => handler_returned h
      end
  end.
(** The two pages the server answers itself. *)
Definition smoke_request_cb h : hstate E K := emit (AReply 200 (Some (lit "OK")) []) h.
Definition metrics_request_cb (now : Z) h : hstate E K :=
  match (evbuffer_new : option E) with
  | None => emit (AReply 500 (Some (lit "Internal Server Error")) []) h
  | Some buf =>
      let buf := evbuffer_put buf (metrics_page (h_metrics h) now) in
      emit (AReply 200 (Some (lit "OK")) (evbuffer_bytes buf))
        (emit (AHeader (lit "Content-Type") (lit "text/plain; charset=utf-8")) h)
  end.

(** ** [__index] of a request *)

Definition evhttp_request_lib : list (list Z) := [
  lit "read"; lit "available"; lit "addheader"; lit "reply"; lit "reply_start"; lit "reply_chunk"; lit "reply_end";
  lit "is_websocket_upgrade"; lit "websocket_accept"; lit "websocket_send"; lit "websocket_ping";
  lit "websocket_pong"; lit "websocket_close"; lit "websocket_state"; lit "websocket_receive"].

(** What libevent's accessors say of the request line, the headers and the peer. *)
Record request_info : Type := mk_info {
  q_path : option (list Z);
  q_query : option (list Z);
  q_cmd : evhttp_cmd_type;
  q_headers : list (list Z * list Z);
  q_peer : option (list Z) * Z
}.

(** A method, a value, or a new table with these fields set in this order. *)
Inductive looked_up : Type :=
  | UMethod (name : list Z)
  | UValue (v : lua_value)
  | UFields (fields : list (list Z * list Z))
  | UNothing.

Definition push_string (s : option (list Z)) : lua_value := match s with Some s => LStr s | None => LNil end.

(** [parse] is [evhttp_parse_query_str].  [strcmp] on the NULL that a key without
    a string form gives is undefined. *)
Definition lua_evhttp_request_lookup (parse : option (list Z) -> list (list Z * list Z)) (info : request_info)
    (key : lua_value) h : outcome looked_up * hstate E K :=
  match lua_tostring key with
  | None => (UB, h)
  | Some p =>
      if existsb (strcmp_eq p) evhttp_request_lib then (Ret (UMethod p), h)
      else if negb (r_req (h_request h)) then (Raise (lit "request already closed (connection dropped)"), h)
      else if negb (existsb (strcmp_eq p) [lit "path"; lit "query"; lit "method"; lit "headers"; lit "params";
                                           lit "body"; lit "remoteip"; lit "remoteport"]) then (Ret UNothing, h)
      else if strcmp_eq p (lit "body") then
        match request_push_body h with
        | (Ret vs, h) => (Ret (UValue (arg vs 1)), h)
        | (Raise e, h) => (Raise e, h)
        | (UB, h) => (UB, h)
        end
      else if negb (h_live h) then (UB, h)
      else if strcmp_eq p (lit "path") then (Ret (UValue (push_string (q_path info))), h)
      else if strcmp_eq p (lit "query") then (Ret (UValue (push_string (q_query info))), h)
      else if strcmp_eq p (lit "method") then
        match method_of (q_cmd info) methodMap with
        | Some name => (Ret (UValue (LStr name)), h)
        | None => (Ret UNothing, h)
        end
      else if strcmp_eq p (lit "headers") then (Ret (UFields (q_headers info)), h)
      else if strcmp_eq p (lit "params") then
        let params := parse (q_query info) in
        if match h_header h (lit "Content-Type") with
           | Some c => strstr_at_start c (lit "application/x-www-form-urlencoded")
           | None => false
           end
        then
          match request_push_body h with
          | (Ret vs, h) =>
              (Ret (UFields (params ++ match arg vs 1 with LStr data => parse (Some (cstr data)) | _ => [] end)), h)
          | (Raise e, h) => (Raise e, h)
          | (UB, h) => (UB, h)
          end
        else (Ret (UFields params), h)
      else if strcmp_eq p (lit "remoteip") then (Ret (UValue (push_string (fst (q_peer info)))), h)
      else (Ret (UValue (LInt (snd (q_peer info)))), h)
  end.

End Http.

(** ** The life of a request *)

(** How far the reply has got, and which call libevent allows when. *)
Inductive phase : Type := Fresh | Started | Done.
#[export] Instance phase_eq_dec : EqDecision phase.
Proof. solve_decision. Defined.

Definition phase_act (ph : phase) (a : act) : option phase :=
  match ph, a with
  | Fresh, AHeader _ _ => Some Fresh
  | Fresh, AReply _ _ _ => Some Done
  | Fresh, AError _ => Some Done
  | Fresh, AStart _ _ => Some Started
  | Started, AChunk _ => Some Started
  | Started, AEnd => Some Done
  | _, _ => None
  end.
Fixpoint phase_from (ph : phase) (acts : list act) : option phase :=
  match acts with
  | [] => Some ph
  | a :: acts => match phase_act ph a with Some ph => phase_from ph acts | None => None end
  end.
Definition phase_of (acts : list act) : option phase := phase_from Fresh acts.
#[global] Arguments phase_of : simpl never.

Lemma phase_from_app ph acts acts' :
  phase_from ph (acts ++ acts') =
  match phase_from ph acts with Some ph => phase_from ph acts' | None => None end.
Proof. revert ph; induction acts as [|a acts IH]; intros ph; cbn; [done|]. by destruct (phase_act ph a). Qed.

Lemma phase_of_snoc acts a ph :
  phase_of acts = Some ph -> phase_of (acts ++ [a]) = phase_act ph a.
Proof. unfold phase_of. rewrite phase_from_app. intros ->. cbn. by destruct (phase_act ph a). Qed.

Section Life.
Context {E K : Type} `{Evbuffer E} `{Allocator} `{LuaAPI}.
Implicit Type h : hstate E K.

Definition set_live (b : bool) h : hstate E K :=
  mk_hstate (h_request h) (h_header h) (h_input h) (h_evcon h) (h_closecb h) b (h_body h) (h_server h) (h_metrics h) (h_acts h).
(** libevent closes the connection: it calls the close callback, if one is set,
    and frees the request. *)
Definition conn_closed h : hstate E K :=
  let h := if h_closecb h then httpd_conn_close_cb h else h in
  mk_hstate (h_request h) (h_header h) (h_input h) false false false (h_body h) (h_server h) (h_metrics h) (h_acts h).

(** The states of a request, and whether the dispatcher's call of the handler has
    returned ([returned]): calls of the request's methods in any order, from the
    handler or from any other coroutine, the handler returning or failing at any
    moment (or never, when it yields), the connection closing at any moment, and
    libevent freeing the request once a complete reply has been sent. *)
Inductive reachable (self : lua_value) : bool -> hstate E K -> Prop :=
  | reach_new h : h_live h = true -> h_evcon h = true -> h_acts h = [] -> reachable self false (newtable_from_req h)
  | reach_call b h c : reachable self b h -> reachable self b (snd (http_exec self c h))
  | reach_return h : reachable self false h -> reachable self true (handler_returned h)
  | reach_close b h : reachable self b h -> h_evcon h = true -> reachable self b (conn_closed h)
  | reach_sent b h : reachable self b h -> phase_of (h_acts h) = Some Done -> reachable self b (set_live false h).

(** Before the handler returns, an unfinished request is alive and watched; after
    that nothing tells the request that its connection has gone. *)
Definition live_inv (b : bool) h (ph : phase) : Prop :=
  phase_of (h_acts h) = Some ph /\
  r_mainthread (h_request h) = true /\
  (r_reply_status (h_request h) = RNone -> ph = Fresh) /\
  (r_reply_status (h_request h) = RStart -> ph = Started) /\
  (r_req (h_request h) = true -> ph <> Done ->
     h_live h = h_evcon h /\ (b = false -> h_live h = true /\ h_closecb h = true)) /\
  (r_req (h_request h) = false -> r_reply_status (h_request h) = RReplyed).

Definition reads (c : http_call) : bool :=
  match c with HRead _ | HAvailable | HBody => true | _ => false end.

(** What one call does: [inv] stays, an [UB] is a use of a freed request, by a read or after the handler has returned, and a
    request that lost its connection is left alone. *)
Definition call_ok (b : bool) h (c : http_call) (r : call E K) : Prop :=
  (exists ph, live_inv b (snd r) ph) /\
  (fst r = UB -> (reads c = true \/ b = true) /\ r_req (h_request h) = true /\ h_live h = false) /\
  (r_req (h_request h) = false -> h_acts (snd r) = h_acts h).

Lemma read_freed b h c ph :
  live_inv b h ph -> reads c = true -> r_req (h_request h) = true -> h_live h = false -> call_ok b h c (UB, h).
Proof. intros. split; [by exists ph|]. split; [|done]. intros _. by split; [left|]. Qed.

Lemma call_ok_same b h c r ph : live_inv b h ph -> r <> UB -> call_ok b h c (r, h).
Proof. intros Hi Hr. split; [by exists ph|]. by split. Qed.

(** A call that is no read touches a freed request only once the handler has returned. *)
Lemma touch_ok b h c ph r :
  live_inv b h ph -> ph <> Done -> r_req (h_request h) = true ->
  (h_live h = true -> h_evcon h = true -> call_ok b h c r) -> call_ok b h c (touch h r).
Proof.
  intros Hi Hd Hreq Hr. pose proof Hi as (_ & _ & _ & _ & Hlive & _). destruct (Hlive Hreq Hd) as [Hev Hret].
  unfold touch. destruct (h_live h) eqn:Hl; [by apply Hr|].
  split; [by exists ph|]. split; [|by rewrite Hreq]. intros _. split; [|done]. right.
  destruct b; [done|]. by destruct Hret.
Qed.

(** Reads leave everything alone but the input and the cached body. *)
Lemma live_inv_input b h ph e : live_inv b h ph -> live_inv b (set_input e h) ph.
Proof. done. Qed.
Lemma live_inv_body b h ph v : live_inv b h ph -> live_inv b (set_body v h) ph.
Proof. done. Qed.
Lemma live_inv_metrics b h ph m : live_inv b h ph -> live_inv b (set_metrics m h) ph.
Proof. done. Qed.

Lemma release_guard_fields h :
  let h' := httpd_release_conn_guard h in
  h_acts h' = h_acts h /\ h_live h' = h_live h /\ h_evcon h' = h_evcon h /\
  r_req (h_request h') = r_req (h_request h) /\ r_reply_status (h_request h') = r_reply_status (h_request h) /\
  r_mainthread (h_request h') = r_mainthread (h_request h) /\ h_metrics h' = h_metrics h.
Proof.
  unfold httpd_release_conn_guard, clear_prevent_gc_ref.
  destruct (r_req (h_request h) && h_evcon h); cbn; by destruct (r_prevent_gc_ref _ && _).
Qed.

(** A complete reply: status, acts and guard agree. *)
Lemma replyed_inv b h a ph :
  live_inv b h ph -> phase_act ph a = Some Done ->
  live_inv b (httpd_release_conn_guard (with_status RReplyed (emit a h))) Done.
Proof.
  intros (Hph & Hmt & HN & HS & Hlive & Hdead) Ha.
  destruct (release_guard_fields (with_status RReplyed (emit a h))) as (E1 & E2 & E3 & E4 & E5 & E6 & _).
  unfold live_inv. rewrite E1, E2, E3, E4, E5, E6. cbn. rewrite (phase_of_snoc _ a ph Hph), Ha. done.
Qed.

Lemma emit_inv b h a ph ph' s :
  live_inv b h ph -> phase_act ph a = Some ph' -> ph <> Done ->
  (s = RNone -> ph' = Fresh) -> (s = RStart -> ph' = Started) -> r_req (h_request h) = true ->
  live_inv b (with_status s (emit a h)) ph'.
Proof.
  intros (Hph & Hmt & HN & HS & Hlive & Hdead) Ha Hnd HsN HsS Hreq.
  unfold live_inv. cbn. rewrite (phase_of_snoc _ a ph Hph), Ha, Hreq. repeat split; try done; by apply Hlive.
Qed.

Lemma emit_status h a : with_status (r_reply_status (h_request h)) (emit a h) = emit a h.
Proof. by destruct h as [[]]. Qed.

Lemma header_inv b h k v : 
  live_inv b h Fresh -> r_req (h_request h) = true -> live_inv b (emit (AHeader k v) h) Fresh.
Proof.
  intros (Hph & Hmt & HN & HS & Hlive & Hdead) Hreq.
  unfold live_inv. cbn. rewrite (phase_of_snoc _ _ Fresh Hph). repeat split; try done; by apply Hlive.
Qed.

Lemma connection_header_inv b h server :
  live_inv b h Fresh -> r_req (h_request h) = true -> live_inv b (set_connection_header server h) Fresh.
Proof.
  intros Hi Hreq. unfold set_connection_header. repeat case_match; auto using header_inv.
Qed.
Lemma connection_header_req h server : r_req (h_request (set_connection_header server h)) = r_req (h_request h).
Proof. unfold set_connection_header. by repeat case_match. Qed.

Lemma push_body_ok b h ph : live_inv b h ph -> call_ok b h HBody (request_push_body h).
Proof.
  intros Hi. unfold request_push_body. destruct (lua_isnil (h_body h)); [|by eapply call_ok_same].
  destruct (r_req (h_request h)) eqn:Hreq; cbn [negb]; [|by eapply call_ok_same].
  unfold touch. destruct (h_live h) eqn:Hl; [|by eapply read_freed].
  repeat case_match; simplify_eq; try (by eapply call_ok_same);
    (split; [by exists ph|]; split; [done|by rewrite Hreq]).
Qed.

Lemma read_ok b args h ph : live_inv b h ph -> call_ok b h (HRead args) (lua_evhttp_request_read args h).
Proof.
  intros Hi. unfold lua_evhttp_request_read.
  destruct (r_req (h_request h)) eqn:Hreq; cbn [negb]; [|by eapply call_ok_same].
  unfold touch. destruct (h_live h) eqn:Hl; [|by eapply read_freed].
  unfold luaL_optinteger, luaL_checkinteger. 
  repeat case_match; simplify_eq; try (by eapply call_ok_same);
    (split; [by exists ph|]; split; [done|by rewrite Hreq]).
Qed.

Lemma reply_ok b self args h ph : live_inv b h ph -> call_ok b h (HReply args) (lua_evhttp_request_reply self args h).
Proof.
  intros Hi. pose proof Hi as (Hph & Hmt & HN & HS & Hlive & Hdead). unfold lua_evhttp_request_reply.
  destruct (r_req (h_request h)) eqn:Hreq; cbn [negb]; [|by eapply call_ok_same].
  destruct (r_reply_status (h_request h)) eqn:Hst; [| by eapply call_ok_same |].
  - rewrite HN in * by done. eapply touch_ok; [exact Hi|done|done|intros Hl Hev].
    set (h1 := match h_server h with Some _ => _ | None => _ end).
    assert (Hh1 : live_inv b h1 Fresh /\ r_req (h_request h1) = true).
    { unfold h1. destruct (h_server h); [|by split; [apply header_inv|]].
      rewrite connection_header_req. split; [by apply connection_header_inv|done]. }
    destruct Hh1 as [Hi1 Hreq1].
    repeat case_match; (split; [|by split; [|rewrite Hreq]]); try (by exists Fresh);
      exists Done; apply live_inv_metrics; by eapply replyed_inv.
  - rewrite HS in * by done. eapply touch_ok; [exact Hi|done|done|intros Hl Hev].
    split; [|by split; [|rewrite Hreq]]. exists Done. by eapply replyed_inv.
Qed.

Lemma addheader_ok b self args h ph :
  live_inv b h ph -> call_ok b h (HAddheader args) (lua_evhttp_request_reply_addheader self args h).
Proof.
  intros Hi. pose proof Hi as (Hph & Hmt & HN & HS & Hlive & Hdead). unfold lua_evhttp_request_reply_addheader.
  destruct (r_req (h_request h)) eqn:Hreq; cbn [negb]; [|by eapply call_ok_same].
  destruct (r_reply_status (h_request h)) eqn:Hst; [| by eapply call_ok_same..].
  rewrite HN in * by done. unfold luaL_checklstring.
  repeat case_match; simplify_eq; try (by eapply call_ok_same).
  eapply touch_ok; [exact Hi|done|done|intros Hl Hev].
  split; [|by split; [|rewrite Hreq]]. exists Fresh. by apply header_inv.
Qed.

Lemma start_ok b self args h ph :
  live_inv b h ph -> call_ok b h (HStart args) (lua_evhttp_request_reply_start self args h).
Proof.
  intros Hi. pose proof Hi as (Hph & Hmt & HN & HS & Hlive & Hdead). unfold lua_evhttp_request_reply_start.
  destruct (r_req (h_request h)) eqn:Hreq; cbn [negb]; [|by eapply call_ok_same].
  destruct (r_reply_status (h_request h)) eqn:Hst; [| by eapply call_ok_same..].
  rewrite HN in * by done. eapply touch_ok; [exact Hi|done|done|intros Hl Hev].
  split; [|by split; [|rewrite Hreq]]. exists Started. by eapply emit_inv.
Qed.

Lemma replyed_status_inv b h ph : live_inv b h ph -> live_inv b (with_status RReplyed h) ph.
Proof. intros (Hph & Hmt & HN & HS & Hlive & Hdead). unfold live_inv. cbn. by repeat split; try apply Hlive. Qed.

Lemma chunk_ok b self p args h ph :
  live_inv b h ph -> call_ok b h (HChunk p args) (lua_evhttp_request_reply_chunk self p args h).
Proof.
  intros Hi. pose proof Hi as (Hph & Hmt & HN & HS & Hlive & Hdead). unfold lua_evhttp_request_reply_chunk.
  destruct (r_req (h_request h)) eqn:Hreq; cbn [negb].
  2: { split; [exists ph; by apply replyed_status_inv|]. by split. }
  destruct (r_reply_status (h_request h)) eqn:Hst; [by eapply call_ok_same..|].
  rewrite HS in * by done. eapply touch_ok; [exact Hi|done|done|intros Hl Hev].
  repeat case_match; simplify_eq; try (by eapply call_ok_same);
    (split; [|by split; [|rewrite Hreq]]); exists Started; try (by apply replyed_status_inv).
  rewrite <- emit_status, Hst. by eapply emit_inv.
Qed.

Lemma end_ok b self h ph : live_inv b h ph -> call_ok b h HEnd (lua_evhttp_request_reply_end self h).
Proof.
  intros Hi. pose proof Hi as (Hph & Hmt & HN & HS & Hlive & Hdead). unfold lua_evhttp_request_reply_end.
  destruct (r_req (h_request h)) eqn:Hreq; cbn [negb].
  2: { split; [exists ph; by apply replyed_status_inv|]. by split. }
  destruct (r_reply_status (h_request h)) eqn:Hst; [by eapply call_ok_same..|].
  rewrite HS in * by done. eapply touch_ok; [exact Hi|done|done|intros Hl Hev]. rewrite Hev.
  split; [|by split; [|rewrite Hreq]]. exists Done. by eapply replyed_inv.
Qed.

Lemma http_exec_ok b self c h ph : live_inv b h ph -> call_ok b h c (http_exec self c h).
Proof.
  intros Hi. destruct c; cbn [http_exec];
    eauto using read_ok, push_body_ok, addheader_ok, reply_ok, start_ok, chunk_ok, end_ok.
  unfold lua_evhttp_request_available. destruct (r_req (h_request h)) eqn:Hreq; cbn [negb]; [|by eapply call_ok_same].
  unfold touch. destruct (h_live h) eqn:Hl; [by eapply call_ok_same|]. by eapply read_freed.
Qed.

Lemma closed_inv b h ph : live_inv b h ph -> exists ph', live_inv b (conn_closed h) ph'.
Proof.
  intros (Hph & Hmt & HN & HS & Hlive & Hdead). unfold conn_closed. destruct (h_closecb h) eqn:Hcb.
  - unfold httpd_conn_close_cb, clear_prevent_gc_ref. cbn.
    destruct (r_req (h_request h) && bool_decide (r_reply_status (h_request h) = RStart)) eqn:Hs.
    + apply andb_true_iff in Hs as [_ Hs%bool_decide_eq_true]. rewrite HS in * by done.
      exists Done. unfold live_inv. cbn. destruct (r_prevent_gc_ref _ && _); cbn;
        by rewrite (phase_of_snoc _ _ Started Hph).
    + exists ph. unfold live_inv. cbn. by destruct (r_prevent_gc_ref _ && _).
  - exists ph. unfold live_inv. cbn. repeat split; try done; destruct Hlive as [_ Hret]; try done;
      by destruct Hret as [_ ?].
Qed.

Lemma returned_inv h ph : live_inv false h ph -> live_inv true (handler_returned h) ph.
Proof.
  intros (Hph & Hmt & HN & HS & Hlive & Hdead). unfold handler_returned.
  destruct (decide _); [|destruct (release_guard_fields h) as (E1 & E2 & E3 & E4 & E5 & E6 & _)];
    unfold live_inv; rewrite ?E1, ?E2, ?E3, ?E4, ?E5, ?E6; repeat split; try done; by apply Hlive.
Qed.

Lemma reachable_inv self b h : reachable self b h -> exists ph, live_inv b h ph.
Proof.
  induction 1 as [h Hl Hev Ha|b h c _ [ph IH]|h _ [ph IH]|b h _ [ph IH] _|b h _ [ph IH] Hd].
  - exists Fresh. unfold newtable_from_req, live_inv. cbn. rewrite Hev. cbn. by rewrite Ha, Hl.
  - by destruct (http_exec_ok b self c h ph IH) as [Hinv _].
  - exists ph. by apply returned_inv.
  - by eapply closed_inv.
  - exists ph. destruct IH as (Hph & Hmt & HN & HS & Hlive & Hdead).
    assert (ph = Done) as -> by congruence. by repeat split.
Qed.

(** C7: The reply protocol holds under every interleaving of method calls, of
    the handler returning or failing, of the peer closing the connection and of
    libevent freeing the request: headers, then one whole reply or start, chunks
    and end, nothing after it, and nothing at all once the request has been told
    that the connection is lost.  A call touches a freed request in two cases
    only: it is a read and a complete reply has been sent, or the handler has
    already returned, which drops the request's close callback when the reply is
    not complete, so that the request of a peer that went away later is still
    used ([http_use_after_free] shows that both happen). *)
Theorem http_reply_protocol self b h c :
  reachable self b h ->
  (exists ph, phase_of (h_acts (snd (http_exec self c h))) = Some ph) /\
  (r_req (h_request h) = false -> h_acts (snd (http_exec self c h)) = h_acts h) /\
  (fst (http_exec self c h) = UB -> r_req (h_request h) = true /\ h_live h = false /\
     (reads c = true /\ phase_of (h_acts h) = Some Done \/ b = true)).
Proof.
  intros [ph Hi]%reachable_inv. destruct (http_exec_ok b self c h ph Hi) as ([ph' Hi'] & Hub & Hgone).
  split; [exists ph'; apply Hi'|]. split; [done|]. intros (Hr & Hreq & Hl)%Hub. split; [done|]. split; [done|].
  destruct b; [by right|left]. destruct Hr as [Hr|]; [|done]. split; [done|].
  destruct Hi as (Hph & _ & _ & _ & Hlive & _). destruct (decide (ph = Done)) as [->|Hne]; [done|].
  destruct (Hlive Hreq Hne) as [_ [Hl' _]]; [done|]. congruence.
Qed.

(** Two ways in which a script does touch a freed request: asking for
    [available] after libevent has sent a complete reply and freed the request
    ([request->req] is never cleared then), and replying from another coroutine
    after the handler returned without a reply (which drops the close callback)
    and the peer went away. *)
Theorem http_use_after_free self cmd args h :
  h_live h = true -> h_evcon h = true -> h_acts h = [] ->
  fst (http_exec self (HReply args) (conn_closed (httpd_handler_cgi_bin self cmd (SetupRun SReturn) h))) = UB /\
  (forall b h', reachable self b h' -> r_req (h_request h') = true -> phase_of (h_acts h') = Some Done ->
     reachable self b (set_live false h') /\ fst (http_exec self HAvailable (set_live false h')) = UB).
Proof.
  intros Hl Hev Ha. split.
  - unfold httpd_handler_cgi_bin, handler_returned, newtable_from_req, httpd_release_conn_guard. cbn. rewrite Hev. cbn. rewrite Hev. done.
  - intros b h' Hr Hreq Hd. split; [by apply reach_sent|].
    cbn. unfold lua_evhttp_request_available. cbn. rewrite Hreq. done.
Qed.

(** ** Bodies *)

(** Reads in sequence: the strings handed out. *)
Fixpoint read_all (ns : list (list lua_value)) h : list (list Z) * hstate E K :=
  match ns with
  | [] => ([], h)
  | args :: ns =>
      let '(r, h) := lua_evhttp_request_read args h in
      let '(parts, h) := read_all ns h in
      (match r with Ret [LStr d] => d :: parts | _ => parts end, h)
  end.

Definition body_left h : list Z := evbuffer_bytes (h_input h).

(** A state of a live request whose body has not been asked for. *)
Definition unread h : Prop := h_live h = true /\ r_req (h_request h) = true /\ h_body h = LNil.

Lemma read_step args h :
  unread h ->
  exists r h', lua_evhttp_request_read args h = (r, h') /\ unread h' /\ h_server h' = h_server h /\
    body_left h = (match r with Ret [LStr d] => d | _ => [] end) ++ body_left h'.
Proof.
  intros Hu. pose proof Hu as (Hl & Hr & Hb). unfold lua_evhttp_request_read, touch. rewrite Hr, Hl. cbn [negb].
  destruct (evbuffer_get_length (h_input h) =? 0); [by eexists _, _|].
  destruct (luaL_optinteger _ _) as [n|e|]; [|by eexists _, _..].
  destruct (Z.leb_spec n 0); [by eexists _, _|].
  destruct (Z.ltb_spec MAX_READ_BUFFER_SIZE n); [by eexists _, _|]. cbn [orb].
  destruct (malloc n); [|by eexists _, _].
  destruct (evbuffer_remove (h_input h) n) as [d e] eqn:Er.
  pose proof (evbuffer_remove_data (h_input h) n ltac:(lia)) as Hd.
  pose proof (evbuffer_remove_rest (h_input h) n ltac:(lia)) as He. rewrite Er in Hd, He. cbn in Hd, He.
  eexists _, _. split; [reflexivity|]. split; [done|]. split; [done|].
  unfold body_left. cbn. rewrite He. pose proof (Zlen_nonneg d).
  assert (Zlen d <= MAX_READ_BUFFER_SIZE).
  { rewrite Hd. destruct (Z.le_gt_cases n (Zlen (evbuffer_bytes (h_input h)))); [rewrite Zlen_ztake; lia|].
    rewrite ztake_all by lia. lia. }
  unfold MAX_READ_BUFFER_SIZE in *. rewrite s32_small by lia. destruct (Z.ltb_spec 0 (Zlen d)).
  - by rewrite Hd, ztake_zdrop.
  - assert (Hnil : d = []) by (apply Zlen_zero; lia). rewrite Hnil in Hd.
    by rewrite <- (ztake_zdrop n (evbuffer_bytes (h_input h))) at 1; rewrite <- Hd.
Qed.

Lemma read_all_spec ns h :
  unread h ->
  exists parts h', read_all ns h = (parts, h') /\ unread h' /\ h_server h' = h_server h /\
    body_left h = concat parts ++ body_left h'.
Proof.
  revert h. induction ns as [|args ns IH]; intros h Hu; [by eexists [], h|].
  cbn [read_all]. destruct (read_step args h Hu) as (r & h1 & -> & Hu1 & Hs1 & E1).
  destruct (IH h1 Hu1) as (parts & h2 & -> & Hu2 & Hs2 & E2).
  eexists _, h2. split; [reflexivity|]. split; [done|]. split; [congruence|]. rewrite E1, E2.
  repeat case_match; cbn; by rewrite ?app_assoc.
Qed.

Lemma remove_loop_spec fuel len data e :
  (0 < fuel)%nat -> Zlen data + Zlen (evbuffer_bytes e) = len -> 0 < Zlen (evbuffer_bytes e) < 2 ^ 31 ->
  exists e', remove_loop fuel len data e = (data ++ evbuffer_bytes e, e').
Proof.
  intros Hf Hlen Hpos. destruct fuel as [|fuel]; [lia|]. cbn [remove_loop].
  destruct (Z.ltb_spec (Zlen data) len); [|lia].
  destruct (evbuffer_remove e (len - Zlen data)) as [d e1] eqn:Er.
  pose proof (evbuffer_remove_data e (len - Zlen data) ltac:(lia)) as Hd. rewrite Er in Hd. cbn in Hd.
  rewrite ztake_all in Hd by lia. subst d. rewrite s32_small by lia.
  destruct (Z.leb_spec (Zlen (evbuffer_bytes e)) 0); [lia|].
  destruct fuel as [|fuel]; [by eexists|]. cbn [remove_loop]. rewrite Zlen_app.
  destruct (Z.ltb_spec (Zlen data + Zlen (evbuffer_bytes e)) len); [lia|]. by eexists.
Qed.

(** C8: No byte of a request body is lost or repeated: whatever sizes a script
    reads with, the strings it gets followed by [body] make up the body as it
    came, when the rest is within the server's limit and memory lasts; asking for
    [body] again gives the same string. *)
Theorem request_body_complete ns h M :
  unread h -> mem_upto M ->
  let limit := match h_server h with Some s => max_body_size s | None => HTTP_POST_BODY_LIMIT end in
  limit <= 2 ^ 30 -> limit <= M ->
  exists parts h1, read_all ns h = (parts, h1) /\
    (0 < Zlen (body_left h1) < limit ->
     exists rest h2, request_push_body h1 = (Ret [LStr rest], h2) /\ concat parts ++ rest = body_left h /\
       request_push_body h2 = (Ret [LStr rest], h2)).
Proof.
  intros Hu HM limit Hlim HlimM. destruct (read_all_spec ns h Hu) as (parts & h1 & Heq & (Hl & Hr & Hb) & Hs & Hbytes).
  exists parts, h1. split; [done|]. intros Hlen. rewrite Hbytes. unfold body_left in *.
  unfold request_push_body at 1, touch. rewrite Hb, Hr, Hl, Hs. cbn [lua_isnil negb]. rewrite evbuffer_length_spec.
  fold limit. replace ((0 <? _) && _) with true by lia.
  destruct (malloc (u64 (Zlen (evbuffer_bytes (h_input h1)) + 1))) eqn:Em.
  2: { exfalso. eapply HM; [|exact Em]. rewrite u64_small; lia. }
  destruct (remove_loop_spec (S (Z.to_nat (Zlen (evbuffer_bytes (h_input h1))))) (Zlen (evbuffer_bytes (h_input h1))) []
              (h_input h1)) as [e' ->]; [lia|done|lia|].
  eexists _, _. split; [reflexivity|]. split; [done|]. done.
Qed.

(** ** Metrics *)

Definition is_reply (a : act) : bool := match a with AReply _ _ _ => true | _ => false end.
Definition replies (acts : list act) : Z := Zlen (filter (fun a => is_reply a = true) acts).

Lemma replies_snoc acts a : replies (acts ++ [a]) = replies acts + (if is_reply a then 1 else 0).
Proof. unfold replies. rewrite filter_app, Zlen_app. by destruct a. Qed.

Lemma started_no_reply ph acts ph' : phase_from ph acts = Some ph' -> ph' <> Done -> replies acts = 0.
Proof.
  revert ph. induction acts as [|a acts IH]; intros ph; [done|]. cbn.
  destruct (phase_act ph a) as [ph1|] eqn:Ha; [|done]. intros Hp Hd. rewrite <- (IH ph1) by done.
  assert (is_reply a = false) as Hr.
  { destruct a; try done. exfalso. destruct ph; try done. cbn in Ha. simplify_eq.
    destruct acts as [|a acts]; cbn in Hp; [congruence|]. by destruct a. }
  unfold replies. rewrite filter_cons, Hr. done.
Qed.

Lemma release_guard_metrics h : h_metrics (httpd_release_conn_guard h) = h_metrics h.
Proof. apply release_guard_fields. Qed.
Lemma release_guard_acts h : h_acts (httpd_release_conn_guard h) = h_acts h.
Proof. apply release_guard_fields. Qed.

(** Headers, which count as no reply. *)
Lemma connection_header_same h server :
  h_metrics (set_connection_header server h) = h_metrics h /\
  replies (h_acts (set_connection_header server h)) = replies (h_acts h).
Proof. unfold set_connection_header. repeat case_match; cbn; rewrite ?replies_snoc; cbn; split; (done || lia). Qed.

(** Only a one-shot reply ends the request for the metrics. *)
Definition counted b h h' : Prop :=
  (h_metrics h' = h_metrics h /\ replies (h_acts h') = replies (h_acts h)) \/
  (exists ph code n, live_inv b h ph /\ ph <> Done /\ replies (h_acts h') = replies (h_acts h) + 1 /\
     h_metrics h' = metrics_update_request_end (h_metrics h) code n).

Lemma reply_counted b self args h ph : live_inv b h ph -> counted b h (snd (lua_evhttp_request_reply self args h)).
Proof.
  intros Hi. pose proof Hi as (_ & _ & HN & _). unfold lua_evhttp_request_reply, touch.
  destruct (negb (r_req (h_request h))); [by left|]. destruct (r_reply_status (h_request h)) eqn:Hst; [|by left|].
  2: { destruct (h_live h); [|by left]. left. cbn [snd].
       rewrite release_guard_metrics, release_guard_acts. cbn. rewrite replies_snoc. cbn. split; [done|lia]. }
  rewrite HN in Hi by done. destruct (h_live h); [|by left].
  set (h1 := match h_server h with Some _ => _ | None => _ end).
  assert (Hh1 : h_metrics h1 = h_metrics h /\ replies (h_acts h1) = replies (h_acts h)).
  { unfold h1. destruct (h_server h); [apply connection_header_same|]. cbn. rewrite replies_snoc. cbn. split; [done|lia]. }
  destruct Hh1 as [Hm Hr]. destruct evbuffer_new; [|by left]. destruct (if 0 <? _ then _ else _); [|by left].
  right. exists Fresh. eexists _, _. split; [exact Hi|]. split; [done|].
  cbn [snd set_metrics h_metrics h_acts]. rewrite release_guard_metrics, release_guard_acts. cbn.
  rewrite replies_snoc, Hr, Hm. done.
Qed.

Lemma http_exec_counted b self c h ph : live_inv b h ph -> counted b h (snd (http_exec self c h)).
Proof.
  intros Hi. destruct c; cbn [http_exec]; [left..|by eapply reply_counted|left|left|left].
  all: unfold lua_evhttp_request_read, lua_evhttp_request_available, request_push_body,
    lua_evhttp_request_reply_addheader, lua_evhttp_request_reply_start, lua_evhttp_request_reply_chunk,
    lua_evhttp_request_reply_end, touch.
  all: repeat case_match; cbn [snd]; rewrite ?release_guard_metrics, ?release_guard_acts; cbn;
    rewrite ?replies_snoc; cbn; split; (done || lia).
Qed.

Lemma run_script_counted b self s h ph n0 :
  live_inv b h ph -> 0 <= n0 < 2 ^ 64 - 1 -> requests_active (h_metrics h) = n0 + 1 - replies (h_acts h) ->
  let h' := snd (run_script self s h) in
  requests_active (h_metrics h') = n0 + 1 - replies (h_acts h').
Proof.
  revert h ph. induction s as [| | |c k IH]; intros h ph Hi Hn Ha; cbn [run_script]; [done..|].
  destruct (http_exec self c h) as [r h'] eqn:Er. cbn [snd].
  pose proof (http_exec_ok b self c h ph Hi) as ([ph' Hi'] & _).
  pose proof (http_exec_counted b self c h ph Hi) as Hc. rewrite Er in Hi', Hc. cbn [snd] in Hi', Hc.
  eapply IH; [exact Hi'|done|].
  destruct Hc as [[-> ->]|(ph1 & code & n & (Hph & _) & Hd & -> & ->)]; [done|].
  pose proof (started_no_reply _ _ _ Hph Hd) as Hnr. unfold metrics_update_request_end. cbn. rewrite Ha, Hnr.
  destruct (Z.ltb_spec 0 (n0 + 1 - 0)); [|lia]. rewrite u64_small; lia.
Qed.

(** What the metrics make of one request: it is counted as active when it is
    dispatched, and as finished only when the handler answers with a one-shot
    [reply] in its first run.  A chunked reply, however complete, and a request
    whose peer went away stay active for ever. *)
Theorem metrics_active_leak self cmd s h :
  h_live h = true -> h_evcon h = true -> h_acts h = [] -> 0 <= requests_active (h_metrics h) < 2 ^ 64 - 1 ->
  let h' := httpd_handler_cgi_bin self cmd (SetupRun s) h in
  requests_active (h_metrics h') = requests_active (h_metrics h) + 1 - replies (h_acts h') /\
  h_metrics (conn_closed h') = h_metrics h'.
Proof.
  intros Hl Hev Ha Hn. split.
  2: { unfold conn_closed, httpd_conn_close_cb. by repeat case_match. }
  unfold httpd_handler_cgi_bin.
  set (h1 := newtable_from_req _). destruct (reachable_inv self false h1) as [ph Hi]; [by apply reach_new|].
  pose proof (run_script_counted false self s h1 ph (requests_active (h_metrics h)) Hi Hn) as Hrun.
  destruct (run_script self s h1) as [status h2]. cbn [snd] in Hrun.
  assert (E1 : requests_active (h_metrics h1) = requests_active (h_metrics h) + 1 - replies (h_acts h1)).
  { unfold h1, newtable_from_req. cbn. rewrite Hev. cbn. rewrite Ha, u64_small by lia. change (replies []) with 0. lia. }
  specialize (Hrun E1). unfold handler_returned. repeat case_match; rewrite ?release_guard_metrics, ?release_guard_acts; done.
Qed.
End Life.

(** ** Settings *)

Lemma keep_alive_header_whole server :
  1 <= keep_alive_timeout server <= 3600 -> 1 <= max_keep_alive_requests server <= 10000 ->
  keep_alive_header server = lit "timeout=" ++ dec_of_Z (keep_alive_timeout server) ++
                             lit ", max=" ++ dec_of_Z (max_keep_alive_requests server).
Proof.
  unfold keep_alive_header, snprintf. generalize (keep_alive_timeout server) as a, (max_keep_alive_requests server) as b.
  intros a b Ha Hb. apply ztake_all. unfold dec_of_Z, dec_of_nonneg.
  destruct (Z.ltb_spec a 0); [lia|]. destruct (Z.ltb_spec b 0); [lia|].
  pose proof (dec_digits_short (S (Z.to_nat (Z.log2 a))) a 4 ltac:(lia) ltac:(lia)).
  pose proof (dec_digits_short (S (Z.to_nat (Z.log2 b))) b 5 ltac:(lia) ltac:(lia)).
  zlen. change (Zlen (lit "timeout=")) with 8. change (Zlen (lit ", max=")) with 6. lia.
Qed.

(** The settings [bind] accepts are in the documented ranges, and the
    keep-alive header made of them is never cut short; but the port is read after
    the check that should reject it, so any port is let through. *)
Theorem bind_settings `{LuaAPI} field server :
  utd_bind_settings field = Ret server ->
  1 <= keep_alive_timeout server <= 3600 /\ 1 <= max_keep_alive_requests server <= 10000 /\
  1024 <= max_body_size server <= 2 ^ 30 /\
  keep_alive_header server = lit "timeout=" ++ dec_of_Z (keep_alive_timeout server) ++
                             lit ", max=" ++ dec_of_Z (max_keep_alive_requests server) /\
  forall p, - 2 ^ 31 <= p < 2 ^ 31 ->
    utd_bind_settings (fun k => if decide (k = lit "port") then LInt p else field k) =
    Ret (mk_server (enable_keep_alive server) (keep_alive_timeout server) (max_keep_alive_requests server)
           (max_body_size server) p).
Proof.
  unfold utd_bind_settings at 1. set (s0 := mk_server _ _ _ _ 0).
  destruct (validate_httpd_config s0) eqn:Hv; [|done]. cbn [negb]. intros [= <-].
  assert (Hr : 1 <= keep_alive_timeout s0 <= 3600 /\ 1 <= max_keep_alive_requests s0 <= 10000 /\
               1024 <= max_body_size s0 <= 2 ^ 30).
  { unfold validate_httpd_config in Hv. repeat (case_match; [done|]). lia. }
  destruct Hr as (Ht & Hm & Hb). split; [exact Ht|]. split; [exact Hm|]. split; [exact Hb|]. split.
  - by apply (keep_alive_header_whole s0).
  - intros p Hp. unfold utd_bind_settings.
    repeat (rewrite (decide_False (P := lit _ = lit "port")) by done). fold s0. rewrite Hv. cbn [negb].
    rewrite decide_True by done. cbn [lua_isnil]. unfold lua_tointeger. rewrite lua_tointegerx_int. cbn [default].
    by rewrite s32_small.
Qed.

(** ** Witnesses: a POST request with a five-byte body *)

#[local] Existing Instances list_evbuffer zero_alloc plain_lua.

Definition sample_request : hstate (list Z) unit :=
  mk_hstate new_request (fun _ => None) (lit "hello") true false true LNil None (metrics_init 0) [].
Definition self_table : lua_value := LTable 1.

Lemma http_reply_protocol_witness :
  let h := newtable_from_req sample_request in
  exists ph, phase_of (h_acts (snd (http_exec self_table (HReply [self_table; LInt 200]) h))) = Some ph.
Proof. apply (http_reply_protocol self_table false (newtable_from_req sample_request) (HReply [self_table; LInt 200])). by apply reach_new. Defined.

Lemma http_use_after_free_witness :
  fst (http_exec self_table (HReply []) (conn_closed
    (httpd_handler_cgi_bin self_table EVHTTP_REQ_POST (SetupRun SReturn) sample_request))) = UB.
Proof. by apply (http_use_after_free self_table EVHTTP_REQ_POST [] sample_request). Defined.

Lemma request_body_complete_witness :
  exists parts h1, read_all [[self_table; LInt 2]] sample_request = (parts, h1) /\
    (0 < Zlen (body_left h1) < HTTP_POST_BODY_LIMIT ->
     exists rest h2, request_push_body h1 = (Ret [LStr rest], h2) /\ concat parts ++ rest = body_left sample_request /\
       request_push_body h2 = (Ret [LStr rest], h2)).
Proof.
  apply (request_body_complete [[self_table; LInt 2]] sample_request (2 ^ 40)).
  - repeat split.
  - apply zero_alloc_upto.
  - vm_compute. discriminate.
  - vm_compute. discriminate.
Defined.

Definition sample_settings (k : list Z) : lua_value :=
  if decide (k = lit "keep_alive_timeout") then LInt 60 else LNil.

Lemma bind_settings_witness :
  utd_bind_settings (fun k => if decide (k = lit "port") then LInt 70000 else sample_settings k) =
  Ret (mk_server true 60 100 HTTP_POST_BODY_LIMIT 70000).
Proof.
  apply (bind_settings sample_settings (mk_server true 60 100 HTTP_POST_BODY_LIMIT 0)); [by vm_compute|lia].
Defined.

(** A handler that sends a complete chunked reply. *)
Definition chunked_script : script :=
  SCall (HStart [self_table; LInt 200; LStr (lit "OK")]) (fun _ =>
  SCall (HChunk (mk_peek true 5 (-1)) [self_table; LStr (lit "hi")]) (fun _ => SCall HEnd (fun _ => SReturn))).

Lemma metrics_active_leak_witness :
  let h' := httpd_handler_cgi_bin self_table EVHTTP_REQ_GET (SetupRun chunked_script) sample_request in
  phase_of (h_acts h') = Some Done /\ requests_active (h_metrics h') = 1.
Proof.
  split; [by vm_compute|].
  rewrite (proj1 (metrics_active_leak self_table EVHTTP_REQ_GET chunked_script sample_request
             eq_refl eq_refl eq_refl ltac:(split; [by vm_compute|by vm_compute]))). by vm_compute.
Defined.
