(* ===== verification/WebSocket.v ===== *)
(** * src/httpd_websocket.c: the server side of the WebSocket protocol

    Frames over evbuffers, the bounded queue of received frames (a linked list
    in C memory), the upgrade handshake, the Lua methods, the read, event and
    flush callbacks and the deferred release of the connection.  The script's
    coroutine runs inside the read callback: [resume] says what a suspended
    coroutine does when it is resumed, up to its next suspension. *)

From S2P Require Import Prelude Lua Evhttp Httpd.

(** ** Frames *)

Definition WS_OPCODE_CONTINUATION : Z := 0x0.
Definition WS_OPCODE_TEXT : Z := 0x1.
Definition WS_OPCODE_BINARY : Z := 0x2.
Definition WS_OPCODE_CLOSE : Z := 0x8.
Definition WS_OPCODE_PING : Z := 0x9.
Definition WS_OPCODE_PONG : Z := 0xA.
Definition WS_MAX_QUEUED_FRAMES : Z := 64.

Record websocket_frame_t : Type := mk_frame {
  fin : bool;
  rsv1 : bool;
  rsv2 : bool;
  rsv3 : bool;
  opcode : Z;
  masked : bool;
  payload_len : Z;
  mask_key : Z;
  payload : option (list Z)
}.

(** [data[i] ^= mask_bytes[i % 4]] from [i] on. *)
Fixpoint mask_loop (mask_bytes : list Z) (i : nat) (data : list Z) : list Z :=
  match data with
  | [] => []
  | b :: data => Z.lxor b (nth (i mod 4) mask_bytes 0) :: mask_loop mask_bytes (S i) data
  end.
Definition websocket_mask_unmask (data : list Z) (mask_key : Z) : list Z :=
  mask_loop (le_bytes 4 mask_key) 0 data.

(** The results 0, -1 and 1 of [websocket_parse_frame]. *)
Inductive parsed : Type :=
  | Incomplete
  | BadFrame
  | Parsed (f : websocket_frame_t).

Section Frames.
Context {E : Type} `{Evbuffer E} `{Allocator}.

(** The payload length and the header size before the mask, from the first
    [peek_len] bytes; [None] when the extended length has not arrived. *)
Definition parse_length (peek_buf : list Z) (peek_len : Z) : option (Z * Z) :=
  let len := Z.land (nth 1 peek_buf 0) 0x7F in
  if len =? 126 then
    if peek_len <? 4 then None else Some (be_val (ztake 2 (zdrop 2 peek_buf)), 4)
  else if len =? 127 then
    if peek_len <? 10 then None else Some (be_val (ztake 8 (zdrop 2 peek_buf)), 10)
  else Some (len, 2).

(** [stack] is what the array [peek_buf] holds before it is filled. *)
Definition websocket_parse_frame (stack : list Z) (input : E) : parsed * E :=
  let available := evbuffer_get_length input in
  if available <? 2 then (Incomplete, input)
  else
    let peek_len := if available <? 14 then available else 14 in
    let peek_buf := evbuffer_copyout input peek_len ++ zdrop peek_len stack in
    let b0 := nth 0 peek_buf 0 in
    let masked := c_true (Z.land (nth 1 peek_buf 0) 0x80) in
    match parse_length peek_buf peek_len with
    | None => (Incomplete, input)
    | Some (payload_len, header_size) =>
        let header_size := if masked then header_size + 4 else header_size in
        if available <? u64 (header_size + payload_len) then (Incomplete, input)
        else
          let mask_key := if masked then le_val (ztake 4 (zdrop (header_size - 4) peek_buf)) else 0 in
          let frame p := mk_frame (c_true (Z.land b0 0x80)) (c_true (Z.land b0 0x40)) (c_true (Z.land b0 0x20))
            (c_true (Z.land b0 0x10)) (Z.land b0 0x0F) masked payload_len mask_key p in
          let input := evbuffer_drain input header_size in
          if 0 <? payload_len then
            match malloc payload_len with
            | None => (BadFrame, input)
            | Some block =>
                let '(d, input) := evbuffer_remove input payload_len in
                let data := d ++ zdrop (Zlen d) block in
                (Parsed (frame (Some (if masked then websocket_mask_unmask data mask_key else data))), input)
            end
          else (Parsed (frame None), input)
    end.

(** A NULL payload has length 0. *)
Definition websocket_create_frame (opcode : Z) (payload : option (list Z)) (fin : bool) : option E :=
  match evbuffer_new with
  | None => None
  | Some frame =>
      let payload_len := Zlen (default [] payload) in
      let frame := evbuffer_put frame [Z.lor (if fin then 0x80 else 0) (Z.land opcode 0x0F)] in
      let frame :=
        if payload_len <? 126 then evbuffer_put frame [u8 payload_len]
        else if payload_len <=? 65535 then evbuffer_put (evbuffer_put frame [126]) (be_bytes 2 payload_len)
        else evbuffer_put (evbuffer_put frame [127]) (be_bytes 8 payload_len) in
      Some (match payload with
            | Some d => if 0 <? payload_len then evbuffer_put frame d else frame
            | None => frame
            end)
  end.
End Frames.

(** ** The connection *)

(** Whose callbacks are installed on the bufferevent. *)
Inductive callbacks : Type := CbEvhttp | CbWebSocket | CbFlush | CbNone.

(** [w_nodes] is the memory of the queue nodes, by address; [w_pending] counts
    the scheduled calls of [ws_deferred_free_cb].  [w_evcon] says that the
    connection, and with it its bufferevent, has not been freed, [w_alive] that the
    [Request] in its Lua userdata has not been collected; using either later is
    undefined.  The [struct evhttp_request] goes with its connection unless the
    code owns it. *)
Record wconn (E K : Type) : Type := mk_wconn {
  w_request : Request K;
  w_nodes : gmap positive (websocket_frame_t * option positive);
  w_input : E;
  w_output : E;
  w_reading : bool;
  w_cb : callbacks;
  w_evcon : bool;
  w_closecb : bool;
  w_pending : nat;
  w_alive : bool
}.
Arguments mk_wconn {E K}.
Arguments w_request {E K}.
Arguments w_nodes {E K}.
Arguments w_input {E K}.
Arguments w_output {E K}.
Arguments w_reading {E K}.
Arguments w_cb {E K}.
Arguments w_evcon {E K}.
Arguments w_closecb {E K}.
Arguments w_pending {E K}.
Arguments w_alive {E K}.

(** What a method gives its caller: values, an error, or the coroutine yields. *)
Inductive answer : Type :=
  | Values (vs : list lua_value)
  | Error (msg : list Z)
  | Yielded.

Inductive ws_call : Type :=
  | WIsUpgrade
  | WAccept
  | WSend (args : list lua_value)
  | WPing (args : list lua_value)
  | WPong (args : list lua_value)
  | WClose (args : list lua_value)
  | WState.

(** A run of Lua code up to its next suspension.  [WReceive] is a call of
    [websocket_receive]: answered at once it goes on with [k], otherwise the
    coroutine is suspended as [susp]; [WYield] suspends it elsewhere. *)
Inductive wscript (K : Type) : Type :=
  | WReturn
  | WError
  | WYield
  | WCall (c : ws_call) (k : answer -> wscript K)
  | WReceive (k : answer -> wscript K) (susp : K).
Arguments WReturn {K}.
Arguments WError {K}.
Arguments WYield {K}.
Arguments WCall {K}.
Arguments WReceive {K}.

(** SHA-1 and base64 of OpenSSL; [peer] reads the request's headers. *)
Class Digest : Type := { SHA1 : list Z -> list Z; base64 : list Z -> list Z }.

Section Connection.
Context {E K : Type} `{Evbuffer E} `{Allocator} `{LuaAPI} `{Digest}.
Context (resume : K -> list lua_value -> wscript K).
Context (peer : list Z -> option (list Z)).
Implicit Type c : wconn E K.

Definition put_request r c : wconn E K :=
  mk_wconn r (w_nodes c) (w_input c) (w_output c) (w_reading c) (w_cb c) (w_evcon c) (w_closecb c) (w_pending c) (w_alive c).
Definition put_queue nodes h t n c : wconn E K :=
  mk_wconn (set_queue h t n (w_request c)) nodes (w_input c) (w_output c) (w_reading c) (w_cb c) (w_evcon c)
    (w_closecb c) (w_pending c) (w_alive c).
Definition put_input e c : wconn E K :=
  mk_wconn (w_request c) (w_nodes c) e (w_output c) (w_reading c) (w_cb c) (w_evcon c) (w_closecb c) (w_pending c) (w_alive c).
Definition put_output e c : wconn E K :=
  mk_wconn (w_request c) (w_nodes c) (w_input c) e (w_reading c) (w_cb c) (w_evcon c) (w_closecb c) (w_pending c) (w_alive c).
Definition put_reading b c : wconn E K :=
  mk_wconn (w_request c) (w_nodes c) (w_input c) (w_output c) b (w_cb c) (w_evcon c) (w_closecb c) (w_pending c) (w_alive c).
Definition put_cb cb c : wconn E K :=
  mk_wconn (w_request c) (w_nodes c) (w_input c) (w_output c) (w_reading c) cb (w_evcon c) (w_closecb c) (w_pending c) (w_alive c).
Definition put_pending n c : wconn E K :=
  mk_wconn (w_request c) (w_nodes c) (w_input c) (w_output c) (w_reading c) (w_cb c) (w_evcon c) (w_closecb c) n (w_alive c).
Definition put_closecb b c : wconn E K :=
  mk_wconn (w_request c) (w_nodes c) (w_input c) (w_output c) (w_reading c) (w_cb c) (w_evcon c) b (w_pending c) (w_alive c).
Definition put_alive b c : wconn E K :=
  mk_wconn (w_request c) (w_nodes c) (w_input c) (w_output c) (w_reading c) (w_cb c) (w_evcon c) (w_closecb c) (w_pending c) b.
(** The bufferevent goes with its connection and is never heard of again. *)
Definition evhttp_connection_free c : wconn E K :=
  mk_wconn (w_request c) (w_nodes c) (w_input c) (w_output c) (w_reading c) CbNone false (w_closecb c) (w_pending c) (w_alive c).

(** Using the connection or its bufferevent; using [request->req]; using the
    [Request] a callback was installed with. *)
Definition use_bev {A} c (k : outcome A) : outcome A := if w_evcon c then k else UB.
Definition use_req {A} c (k : outcome A) : outcome A :=
  if w_evcon c || r_owns_request (w_request c) then k else UB.
Definition use_request {A} c (k : outcome A) : outcome A := if w_alive c then k else UB.

Definition modify (f : Request K -> Request K) c : wconn E K := put_request (f (w_request c)) c.

(** [bufferevent_write_buffer(ws_bev, frame)]: the state and whether it returned 0. *)
Definition write_frame (frame : E) c : bool * wconn E K :=
  match bufferevent_write_buffer (w_output c) frame with
  | Some e => (true, put_output e c)
  | None => (false, c)
  end.

(** ** The frame queue *)

Definition SIZEOF_NODE : Z := 64.

Definition ws_frame_queue_push (frame : websocket_frame_t) c : outcome (wconn E K) :=
  let r := w_request c in
  if WS_MAX_QUEUED_FRAMES <=? r_queue_len r then mret c
  else
    match malloc SIZEOF_NODE with
    | None => mret c
    | Some _ =>
        let node := fresh (dom (w_nodes c)) in
        let nodes := <[node := (frame, None)]> (w_nodes c) in
        match r_queue_tail r with
        | Some tail =>
            match nodes !! tail with
            | None => UB
            | Some (f, _) =>
                mret (put_queue (<[tail := (f, Some node)]> nodes) (r_queue_head r) (Some node) (s32 (r_queue_len r + 1)) c)
            end
        | None => mret (put_queue nodes (Some node) (Some node) (s32 (r_queue_len r + 1)) c)
        end
    end.

Definition ws_frame_queue_pop c : outcome (option websocket_frame_t * wconn E K) :=
  let r := w_request c in
  match r_queue_head r with
  | None => mret (None, c)
  | Some node =>
      match w_nodes c !! node with
      | None => UB
      | Some (f, next) =>
          let tail := match next with None => None | Some _ => r_queue_tail r end in
          mret (Some f, put_queue (delete node (w_nodes c)) next tail (s32 (r_queue_len r - 1)) c)
      end
  end.

(** [while (node)]: frees the nodes. *)
Fixpoint clear_loop (fuel : nat) (node : option positive) (nodes : gmap positive (websocket_frame_t * option positive))
  : outcome (gmap positive (websocket_frame_t * option positive)) :=
  match node with
  | None => mret nodes
  | Some p =>
      match fuel with
      | O => UB
      | S fuel =>
          match nodes !! p with
          | None => UB
          | Some (_, next) => clear_loop fuel next (delete p nodes)
          end
      end
  end.
Definition ws_frame_queue_clear c : outcome (wconn E K) :=
  nodes ← clear_loop (S (size (w_nodes c))) (r_queue_head (w_request c)) (w_nodes c);
  mret (put_queue nodes None None 0 c).

(** ** Releasing the connection *)

(** The pointer to its connection that a live request has is never NULL. *)
Definition free_connection c : outcome (wconn E K) :=
  if r_owns_request (w_request c) && r_req (w_request c) then
    let c := modify (fun r => set_owns_request false (set_req false r)) c in
    use_bev c (mret (evhttp_connection_free c))
  else mret c.

Definition ws_deferred_free_cb c : outcome (wconn E K) :=
  if negb (r_cleaning_up (w_request c) =? 1) then mret c
  else
    c ← free_connection c;
    let c := modify (fun r => set_owns_request false (set_req false r)) c in
    mret (modify (fun r => clear_prevent_gc_ref (clear_self_ref r)) c).

Definition ws_schedule_free c : wconn E K := put_pending (S (w_pending c)) (put_cb CbNone c).

Definition ws_flush_writecb c : wconn E K :=
  if c_true (r_cleaning_up (w_request c)) then c
  else if evbuffer_get_length (w_output c) =? 0 then ws_schedule_free c
  else c.

(** [what & (BEV_EVENT_EOF | BEV_EVENT_ERROR)], as the two flags. *)
Definition ws_flush_eventcb (eof error : bool) c : wconn E K :=
  if c_true (r_cleaning_up (w_request c)) then c
  else if eof || error then ws_schedule_free c
  else c.

Definition ws_connection_cleanup c : outcome (wconn E K) :=
  if negb (r_cleaning_up (w_request c) =? 0) then mret c
  else
    let c := modify (set_cleaning_up 1) c in
    c ← ws_frame_queue_clear c;
    if r_ws_bev (w_request c) then
      let c := modify (set_ws_bev false) c in
      use_bev c (
        let c := put_reading false c in
        if evbuffer_get_length (w_output c) =? 0 then mret (ws_schedule_free c)
        else mret (put_cb CbFlush c))
    else if r_owns_request (w_request c) && r_req (w_request c) then
      c ← free_connection c;
      mret (modify (fun r => clear_prevent_gc_ref (clear_self_ref r)) c)
    else mret c.

(** ** The handshake *)

Definition WEBSOCKET_MAGIC_STRING : list Z := lit "258EAFA5-E914-47DA-95CA-C5AB0DC85B11".
Definition WEBSOCKET_GUID_LEN : Z := 36.
Definition WEBSOCKET_KEY_LEN : Z := 24.

Definition is_websocket_upgrade_request : bool :=
  match peer (lit "Upgrade"), peer (lit "Connection"), peer (lit "Sec-WebSocket-Key"),
        peer (lit "Sec-WebSocket-Version") with
  | Some upgrade, Some connection, Some ws_key, Some ws_version =>
      strcasecmp_eq upgrade (lit "websocket") && strcasestr_in connection (lit "upgrade") &&
      (0 <? Zlen (cstr ws_key)) && strcmp_eq ws_version (lit "13")
  | _, _, _, _ => false
  end.

(** [malloc] for the result may fail. *)
Definition generate_websocket_accept_key (client_key : list Z) : option (list Z) :=
  let combined := cstr (snprintf (WEBSOCKET_KEY_LEN + WEBSOCKET_GUID_LEN + 1) (cstr client_key ++ WEBSOCKET_MAGIC_STRING)) in
  let text := base64 (SHA1 combined) in
  match malloc (Zlen text + 1) with
  | None => None
  | Some _ => Some text
  end.

Definition CRLF : list Z := [13; 10].
Definition switching_protocols (accept_key : list Z) : list Z :=
  lit "HTTP/1.1 101 Switching Protocols" ++ CRLF ++ lit "Upgrade: websocket" ++ CRLF ++
  lit "Connection: Upgrade" ++ CRLF ++ lit "Sec-WebSocket-Accept: " ++ cstr accept_key ++ CRLF ++ CRLF.

Definition lua_evhttp_request_is_websocket_upgrade c : outcome (answer * wconn E K) :=
  if negb (r_req (w_request c)) then mret (Values [LBool false], c)
  else use_req c (mret (Values [LBool is_websocket_upgrade_request], c)).

(** The request's connection has a bufferevent as long as it exists. *)
Definition lua_evhttp_request_websocket_accept c : outcome (answer * wconn E K) :=
  if negb (r_req (w_request c)) then mret (Error (lit "connection closed by peer"), c)
  else if negb (bool_decide (r_reply_status (w_request c) = RNone)) then mret (Error (lit "Response already started"), c)
  else use_req c (
    if negb is_websocket_upgrade_request then mret (Error (lit "Not a valid WebSocket upgrade request"), c)
    else
      match peer (lit "Sec-WebSocket-Key") with
      | None => mret (Error (lit "Missing Sec-WebSocket-Key header"), c)
      | Some ws_key =>
          match generate_websocket_accept_key ws_key with
          | None => mret (Error (lit "Failed to generate WebSocket accept key"), c)
          | Some accept_key =>
              let c := modify (set_owns_request true) c in
              match (evbuffer_new : option E) with
              | None => mret (Error (lit "Failed to create response buffer"), c)
              | Some response =>
                  let response := evbuffer_put response (switching_protocols accept_key) in
                  use_bev c (
                    let '(_, c) := write_frame response c in
                    let r := w_request c in
                    let c := put_request (mk_request (r_req r) RReplyed true WsOpen true true (r_ref r) true
                               (r_prevent_gc_ref r) (r_queue_head r) (r_queue_tail r) (r_queue_len r) true (r_cleaning_up r)) c in
                    mret (Values [LBool true], put_reading true (put_cb CbWebSocket (put_closecb false c))))
              end
          end
      end).

(** ** The Lua methods *)

Definition not_open c : bool :=
  negb (r_is_websocket (w_request c)) || negb (bool_decide (r_ws_state (w_request c) = WsOpen)).

(** The last part of [send], [ping] and [pong]: create the frame and queue it
    for output. *)
Definition send_frame (failure : list Z) (opcode : Z) (payload : option (list Z)) (fin : bool) c : outcome (answer * wconn E K) :=
  match websocket_create_frame opcode payload fin with
  | None => mret (Error failure, c)
  | Some frame => use_bev c (let '(ok, c) := write_frame frame c in mret (Values [LBool ok], c))
  end.

(** A raised conversion error. *)
Definition or_raise {A} (r : outcome A) (k : A -> outcome (answer * wconn E K)) c : outcome (answer * wconn E K) :=
  match r with
  | Ret a => k a
  | Raise e => Ret (Error e, c)
  | UB => UB
  end.

Definition lua_evhttp_request_websocket_send (args : list lua_value) c : outcome (answer * wconn E K) :=
  if not_open c then mret (Error (lit "WebSocket connection not open"), c)
  else if negb (r_ws_bev (w_request c)) then mret (Error (lit "WebSocket connection not available"), c)
  else
    or_raise (data ← luaL_checklstring (arg args 2);
              opcode ← luaL_optinteger (arg args 3) WS_OPCODE_TEXT;
              fin ← luaL_optinteger (arg args 4) 1;
              mret (data, s32 opcode, s32 fin))
      (fun '(data, opcode, fin) =>
         if (opcode <? 0) || (0xF <? opcode)
         then mret (Error (lit "Invalid WebSocket opcode: " ++ dec_of_Z opcode), c)
         else send_frame (lit "Failed to create WebSocket frame") opcode (Some data) (c_true fin) c) c.

Definition lua_evhttp_request_websocket_ping (args : list lua_value) c : outcome (answer * wconn E K) :=
  if not_open c then mret (Error (lit "WebSocket connection not open"), c)
  else if negb (r_ws_bev (w_request c)) then mret (Error (lit "WebSocket connection not available"), c)
  else
    let payload := lua_tolstring (arg args 2) in
    if 125 <? Zlen (default [] payload) then mret (Error (lit "Ping payload too large (max 125 bytes)"), c)
    else send_frame (lit "Failed to create ping frame") WS_OPCODE_PING payload true c.

Definition lua_evhttp_request_websocket_pong (args : list lua_value) c : outcome (answer * wconn E K) :=
  if not_open c then mret (Error (lit "WebSocket connection not open"), c)
  else if negb (r_ws_bev (w_request c)) then mret (Error (lit "WebSocket connection not available"), c)
  else
    let payload := lua_tolstring (arg args 2) in
    if 125 <? Zlen (default [] payload) then mret (Error (lit "Pong payload too large (max 125 bytes)"), c)
    else send_frame (lit "Failed to create pong frame") WS_OPCODE_PONG payload true c.

(** The array [close_payload] has 127 bytes. *)
Definition close_payload (close_code : Z) (reason : option (list Z)) : list Z :=
  if (1000 <=? close_code) && (close_code <=? 4999) then
    [Z.land (Z.shiftr close_code 8) 0xFF; Z.land close_code 0xFF] ++ ztake 125 (default [] reason)
  else [].

Definition lua_evhttp_request_websocket_close (args : list lua_value) c : outcome (answer * wconn E K) :=
  let r := w_request c in
  if negb (r_is_websocket r) then mret (Error (lit "Not a WebSocket connection"), c)
  else if bool_decide (r_ws_state r = WsClosed) then mret (Values [LBool true], c)
  else if negb (r_ws_bev r) then mret (Values [LBool true], modify (set_ws_state WsClosed) c)
  else
    or_raise (luaL_optinteger (arg args 2) 1000)
      (fun close_code =>
         let p := close_payload (s32 close_code) (lua_tolstring (arg args 3)) in
         c ← match websocket_create_frame WS_OPCODE_CLOSE (if 0 <? Zlen p then Some p else None) true with
             | Some frame => use_bev c (mret (snd (write_frame frame c)))
             | None => mret c
             end;
         mret (Values [LBool true], modify (set_ws_state WsClosing) c)) c.

Definition state_name (s : websocket_state_t) : list Z :=
  match s with
  | WsConnecting => lit "connecting"
  | WsOpen => lit "open"
  | WsClosing => lit "closing"
  | WsClosed => lit "closed"
  end.
Definition lua_evhttp_request_websocket_state c : answer * wconn E K :=
  if negb (r_is_websocket (w_request c)) then (Values [LStr (lit "not_websocket")], c)
  else (Values [LStr (state_name (r_ws_state (w_request c)))], c).

(** What a frame is for the script: its payload and its opcode. *)
Definition frame_values (f : websocket_frame_t) : list lua_value :=
  [match payload f with Some d => if 0 <? payload_len f then LStr d else LStr [] | None => LStr [] end; LInt (opcode f)].

(** [susp] is the running coroutine as suspended by [lua_yield]. *)
Definition lua_evhttp_request_websocket_receive (susp : K) c : outcome (answer * wconn E K) :=
  let r := w_request c in
  if negb (r_is_websocket r) then mret (Error (lit "Not a WebSocket connection"), c)
  else if bool_decide (r_ws_state r = WsClosed) then mret (Values [LNil; LStr (lit "closed")], c)
  else if negb (bool_decide (r_ws_state r = WsOpen)) then mret (Values [LNil; LStr (lit "not open")], c)
  else
    '(f, c) ← ws_frame_queue_pop c;
    match f with
    | Some f => mret (Values (frame_values f), c)
    | None =>
        match r_ref (w_request c) with
        | Some _ => mret (Error (lit "Another coroutine is already waiting on this WebSocket"), c)
        | None => mret (Yielded, modify (set_ref (Some susp)) c)
        end
    end.

Definition ws_exec (call : ws_call) c : outcome (answer * wconn E K) :=
  match call with
  | WIsUpgrade => lua_evhttp_request_is_websocket_upgrade c
  | WAccept => lua_evhttp_request_websocket_accept c
  | WSend args => lua_evhttp_request_websocket_send args c
  | WPing args => lua_evhttp_request_websocket_ping args c
  | WPong args => lua_evhttp_request_websocket_pong args c
  | WClose args => lua_evhttp_request_websocket_close args c
  | WState => mret (lua_evhttp_request_websocket_state c)
  end.

Fixpoint run_wscript (s : wscript K) c : outcome (resume_status * wconn E K) :=
  match s with
  | WReturn => mret (LuaOk, c)
  | WError => mret (LuaErr, c)
  | WYield => mret (LuaYield, c)
  | WCall call k => '(a, c) ← ws_exec call c; run_wscript (k a) c
  | WReceive k susp =>
      '(a, c) ← lua_evhttp_request_websocket_receive susp c;
      match a with
      | Yielded => mret (LuaYield, c)
      | _ => run_wscript (k a) c
      end
  end.

(** ** The callbacks of the bufferevent *)

(** Resumes the waiting coroutine, if any, and cleans up once it has ended. *)
Definition resume_waiting (vs : list lua_value) c : outcome (wconn E K) :=
  match r_ref (w_request c) with
  | None => mret c
  | Some k =>
      '(status, c) ← run_wscript (resume k vs) (modify (set_ref None) c);
      match status with
      | LuaYield => mret c
      | _ => ws_connection_cleanup c
      end
  end.
Definition ws_resume_with_error (errmsg : list Z) c : outcome (wconn E K) := resume_waiting [LNil; LStr errmsg] c.
Definition ws_resume_with_frame (f : websocket_frame_t) c : outcome (wconn E K) := resume_waiting (frame_values f) c.

(** Ends a connection: the waiting coroutine gets the error, or nobody waits. *)
Definition finish (errmsg : list Z) c : outcome (wconn E K) :=
  match r_ref (w_request c) with
  | Some _ => ws_resume_with_error errmsg c
  | None => ws_connection_cleanup c
  end.

(** The reply of the read callback to a ping or close frame. *)
Definition echo_frame (opcode : Z) (f : websocket_frame_t) c : outcome (wconn E K) :=
  match websocket_create_frame opcode (payload f) true with
  | Some e => use_bev c (mret (snd (write_frame e c)))
  | None => mret c
  end.

(** One frame of [ws_readcb]; true when the loop goes on. *)
Definition handle_frame (f : websocket_frame_t) c : outcome (bool * wconn E K) :=
  if opcode f =? WS_OPCODE_PING then
    c ← (if r_ws_bev (w_request c) && bool_decide (r_ws_state (w_request c) = WsOpen)
         then echo_frame WS_OPCODE_PONG f c else mret c);
    mret (true, c)
  else if opcode f =? WS_OPCODE_PONG then mret (true, c)
  else if opcode f =? WS_OPCODE_CLOSE then
    let c := modify (set_ws_state WsClosed) c in
    c ← (if r_ws_bev (w_request c) then echo_frame WS_OPCODE_CLOSE f c else mret c);
    c ← finish (lit "closed") c; mret (false, c)
  else if (opcode f =? WS_OPCODE_TEXT) || (opcode f =? WS_OPCODE_BINARY) then
    match r_ref (w_request c) with
    | Some _ => c ← ws_resume_with_frame f c; mret (r_ws_bev (w_request c), c)
    | None => c ← ws_frame_queue_push f c; mret (true, c)
    end
  else mret (true, c).

Fixpoint read_loop (fuel : nat) (stack : list Z) c : outcome (wconn E K) :=
  if evbuffer_get_length (w_input c) <=? 0 then mret c
  else
    match fuel with
    | O => UB
    | S fuel =>
        match websocket_parse_frame stack (w_input c) with
        | (Incomplete, input) => mret (put_input input c)
        | (BadFrame, input) => finish (lit "frame parse error") (modify (set_ws_state WsClosed) (put_input input c))
        | (Parsed f, input) =>
            '(go_on, c) ← handle_frame f (put_input input c);
            if (go_on : bool) then read_loop fuel stack c else mret c
        end
    end.

(** Every frame takes at least two bytes of the input. *)
Definition ws_readcb (stack : list Z) c : outcome (wconn E K) :=
  read_loop (Z.to_nat (evbuffer_get_length (w_input c))) stack c.

Definition ws_eventcb (eof error : bool) c : outcome (wconn E K) :=
  if eof || error then
    finish (if eof then lit "connection closed" else lit "connection error") (modify (set_ws_state WsClosed) c)
  else mret c.

End Connection.

(** ** The wire format *)

(** A frame as RFC 6455 puts it on the wire, masked with [key] when there is one. *)
Record sframe : Type := mk_sframe { s_fin : bool; s_opcode : Z; s_key : option (list Z); s_data : list Z }.

Definition extended_length (n : Z) : list Z :=
  if n <? 126 then [] else if n <=? 65535 then be_bytes 2 n else be_bytes 8 n.
Definition len7 (n : Z) : Z := if n <? 126 then n else if n <=? 65535 then 126 else 127.
Definition has_key (key : option (list Z)) : bool := match key with Some _ => true | None => false end.
Definition key_bytes (key : option (list Z)) : list Z := default [] key.
Definition masked_data (key : option (list Z)) (data : list Z) : list Z :=
  match key with Some k => mask_loop k 0 data | None => data end.

Definition wire (s : sframe) : list Z :=
  [(if s_fin s then 128 else 0) + s_opcode s; (if has_key (s_key s) then 128 else 0) + len7 (Zlen (s_data s))] ++
  extended_length (Zlen (s_data s)) ++ key_bytes (s_key s) ++ masked_data (s_key s) (s_data s).

Record sframe_ok (s : sframe) : Prop := {
  ok_opcode : 0 <= s_opcode s < 16;
  ok_key : match s_key s with Some k => bytes_ok k /\ Zlen k = 4 | None => True end;
  ok_data : bytes_ok (s_data s) /\ Zlen (s_data s) < 2 ^ 63
}.

(** The frame the parser makes of it. *)
Definition received (s : sframe) : websocket_frame_t :=
  mk_frame (s_fin s) false false false (s_opcode s) (has_key (s_key s)) (Zlen (s_data s))
    (match s_key s with Some k => le_val k | None => 0 end)
    (if 0 <? Zlen (s_data s) then Some (s_data s) else None).

Lemma Zlen_mask_loop k i d : Zlen (mask_loop k i d) = Zlen d.
Proof. revert i; induction d as [|b d IH]; intros i; [done|]. cbn [mask_loop]. zlen. by rewrite IH. Qed.
Lemma mask_loop_twice k i d : mask_loop k i (mask_loop k i d) = d.
Proof.
  revert i; induction d as [|b d IH]; intros i; [done|]. cbn [mask_loop]. rewrite IH. f_equal.
  by rewrite Z.lxor_assoc, Z.lxor_nilpotent, Z.lxor_0_r.
Qed.
Lemma Zlen_masked_data key d : Zlen (masked_data key d) = Zlen d.
Proof. destruct key; [apply Zlen_mask_loop|done]. Qed.

Lemma extended_length_cases n : 0 <= n ->
  (n < 126 /\ extended_length n = [] /\ len7 n = n) \/
  (126 <= n <= 65535 /\ extended_length n = be_bytes 2 n /\ len7 n = 126) \/
  (65535 < n /\ extended_length n = be_bytes 8 n /\ len7 n = 127).
Proof.
  intros Hn. unfold extended_length, len7. destruct (Z.ltb_spec n 126); [by left|]. right.
  destruct (Z.leb_spec n 65535); [left|right]; repeat split; (done || lia).
Qed.

(** Bit fields of a header byte. *)
Lemma land_7F b n : 0 <= n < 128 -> Z.land ((if (b : bool) then 128 else 0) + n) 0x7F = n.
Proof. intros Hn. change 0x7F with (Z.ones 7). rewrite Z.land_ones by lia. change (2 ^ 7) with 128. destruct b; dmlia. Qed.
Lemma land_80 b n : 0 <= n < 128 -> c_true (Z.land ((if (b : bool) then 128 else 0) + n) 0x80) = b.
Proof.
  intros Hn. set (x := (if b then 128 else 0) + n).
  assert (Hb : Z.testbit x 7 = b).
  { rewrite Z.testbit_eqb by lia. change (2 ^ 7) with 128. unfold x. destruct b; [apply Z.eqb_eq|apply Z.eqb_neq]; dmlia. }
  clearbody x. unfold c_true. rewrite Z.land_comm. change 0x80 with (Z.shiftl 1 7).
  destruct (Z.eqb_spec (Z.land (Z.shiftl 1 7) x) 0) as [E0|E0].
  - apply (f_equal (fun z => Z.testbit z 7)) in E0. rewrite Z.land_spec, Hb in E0. destruct b; [by vm_compute in E0|done].
  - destruct b; [done|]. exfalso. apply E0. apply Z.bits_inj'. intros i Hi. rewrite Z.land_spec, Z.bits_0.
    destruct (Z.eq_dec i 7) as [->|]; [by rewrite Hb, andb_false_r|].
    rewrite Z.shiftl_1_l, Z.pow2_bits_false by done. done.
Qed.
Lemma first_byte (b : bool) op : 0 <= op < 16 ->
  let x := (if b then 128 else 0) + op in
  c_true (Z.land x 0x80) = b /\ c_true (Z.land x 0x40) = false /\ c_true (Z.land x 0x20) = false /\
  c_true (Z.land x 0x10) = false /\ Z.land x 0x0F = op /\ Z.lor (if b then 0x80 else 0) (Z.land op 0x0F) = x.
Proof.
  intros Hop. assert (Hin : In op (map Z.of_nat (seq 0 16))).
  { apply in_map_iff. exists (Z.to_nat op). split; [lia|]. apply in_seq. lia. }
  cbn in Hin. repeat (destruct Hin as [<-|Hin]; [by destruct b; vm_compute|]). destruct Hin.
Qed.

(** What [peek_buf] shows of the input. *)
Lemma nth_peek (l st : list Z) n i : Z.of_nat i < n -> n <= Zlen l -> nth i (ztake n l ++ st) 0 = nth i l 0.
Proof.
  intros Hi Hn. unfold ztake, Zlen in *. rewrite app_nth1 by (rewrite length_take; lia).
  rewrite nth_firstn. destruct (Nat.ltb_spec i (Z.to_nat n)); [done|lia].
Qed.
Lemma slice_peek (l st : list Z) n i k :
  0 <= i -> 0 <= k -> i + k <= n -> n <= Zlen l -> ztake k (zdrop i (ztake n l ++ st)) = ztake k (zdrop i l).
Proof.
  intros Hi Hk Hn Hl. rewrite zdrop_app_l by (rewrite Zlen_ztake; lia). rewrite zdrop_ztake by lia.
  rewrite ztake_app_l by (rewrite Zlen_ztake; [lia|rewrite Zlen_zdrop; lia]). by rewrite ztake_ztake by lia.
Qed.

Lemma Zlen_extended n : 0 <= n -> Zlen (extended_length n) = 0 \/ Zlen (extended_length n) = 2 \/ Zlen (extended_length n) = 8.
Proof.
  intros Hn. destruct (extended_length_cases n Hn) as [(? & -> & _)|[(? & -> & _)|(? & -> & _)]];
    rewrite ?Zlen_be_bytes; auto.
Qed.
Lemma Zlen_key s : sframe_ok s -> Zlen (key_bytes (s_key s)) = if has_key (s_key s) then 4 else 0.
Proof. intros [_ Hk _]. destruct (s_key s); cbn; [apply Hk|done]. Qed.
Lemma Zlen_wire s : sframe_ok s ->
  Zlen (wire s) = 2 + Zlen (extended_length (Zlen (s_data s))) + (if has_key (s_key s) then 4 else 0) + Zlen (s_data s).
Proof. intros Hs. unfold wire. zlen. rewrite (Zlen_key s Hs), Zlen_masked_data. lia. Qed.

(** The header is understood from any prefix that contains the length. *)
Lemma parse_length_wire s rest n st :
  sframe_ok s -> 2 <= n -> n <= Zlen (wire s ++ rest) ->
  parse_length (ztake n (wire s ++ rest) ++ st) n =
  if n <? 2 + Zlen (extended_length (Zlen (s_data s))) then None
  else Some (Zlen (s_data s), 2 + Zlen (extended_length (Zlen (s_data s)))).
Proof.
  intros [_ _ [_ Hd]] Hn Hl. set (d := Zlen (s_data s)) in *. pose proof (Zlen_nonneg (s_data s)) as Hd0. fold d in Hd0.
  unfold parse_length. rewrite nth_peek by lia.
  assert (Hlen : Z.land (nth 1 (wire s ++ rest) 0) 0x7F = len7 d).
  { cbn [wire app nth]. apply land_7F. unfold len7. repeat case_match; lia. }
  rewrite Hlen.
  assert (Hext : forall k, extended_length d = be_bytes k d ->
    zdrop 2 (wire s ++ rest) = be_bytes k d ++ (key_bytes (s_key s) ++ masked_data (s_key s) (s_data s)) ++ rest).
  { intros k Hk. unfold wire. fold d. rewrite Hk. cbn. unfold zdrop. cbn. by rewrite <- !app_assoc. }
  destruct (extended_length_cases d Hd0) as [(Hc & E0 & E1)|[(Hc & E0 & E1)|(Hc & E0 & E1)]]; rewrite E0, E1.
  - change (Zlen (@nil Z)) with 0. destruct (Z.eqb_spec d 126); [lia|]. destruct (Z.eqb_spec d 127); [lia|].
    by destruct (Z.ltb_spec n (2 + 0)); [lia|].
  - rewrite Zlen_be_bytes. change (126 =? 126) with true. change (2 + Z.of_nat 2) with 4. cbn match.
    destruct (Z.ltb_spec n 4); [done|]. rewrite slice_peek by lia.
    rewrite (Hext 2%nat E0), ztake_app_exact by (by rewrite Zlen_be_bytes).
    rewrite be_val_bytes, Z.mod_small; [done|]. change (8 * Z.of_nat 2) with 16. lia.
  - rewrite Zlen_be_bytes. change (127 =? 126) with false. change (127 =? 127) with true.
    change (2 + Z.of_nat 8) with 10. cbn match.
    destruct (Z.ltb_spec n 10); [done|]. rewrite slice_peek by lia.
    rewrite (Hext 8%nat E0), ztake_app_exact by (by rewrite Zlen_be_bytes).
    rewrite be_val_bytes, Z.mod_small; [done|]. change (8 * Z.of_nat 8) with 64. lia.
Qed.

(** An excuse for not allocating: every size up to [M] is served. *)
Section Parse.
Context {E : Type} `{Evbuffer E} `{Allocator}.

Lemma has_key_byte s rest st n :
  sframe_ok s -> 2 <= n <= Zlen (wire s ++ rest) ->
  c_true (Z.land (nth 1 (ztake n (wire s ++ rest) ++ st) 0) 0x80) = has_key (s_key s).
Proof.
  intros Hs Hn. rewrite nth_peek by lia. cbn [wire app nth]. apply land_80.
  pose proof (Zlen_nonneg (s_data s)). unfold len7. repeat case_match; lia.
Qed.

(** A frame that has not arrived completely is left in the buffer. *)
Lemma parse_prefix s p q stack (input : E) :
  sframe_ok s -> wire s = p ++ q -> q <> [] -> evbuffer_bytes input = p ->
  websocket_parse_frame stack input = (Incomplete, input).
Proof.
  intros Hs Hw Hq Hp. unfold websocket_parse_frame. rewrite evbuffer_length_spec, Hp.
  destruct (Z.ltb_spec (Zlen p) 2); [done|].
  set (n := if Zlen p <? 14 then Zlen p else 14).
  assert (Hn : 2 <= n <= Zlen p) by (unfold n; case_match; lia).
  rewrite evbuffer_copyout_spec, Hp by lia.
  assert (Hpk : ztake n p = ztake n (wire s ++ [])).
  { rewrite app_nil_r, Hw, ztake_app_l by lia. done. }
  assert (Hl : Zlen (wire s ++ []) = Zlen p + Zlen q) by (rewrite app_nil_r, Hw; zlen; lia).
  assert (0 < Zlen q).
  { pose proof (Zlen_nonneg q). destruct (Z.eq_dec (Zlen q) 0) as [Hz|]; [|lia]. by apply Zlen_zero in Hz. }
  rewrite Hpk, has_key_byte, parse_length_wire by (done || lia).
  destruct (Z.ltb_spec n (2 + Zlen (extended_length (Zlen (s_data s))))); [done|].
  set (h := if has_key _ then _ else _).
  assert (Hh : h + Zlen (s_data s) = Zlen p + Zlen q).
  { rewrite <- Hl, app_nil_r, Zlen_wire by done. unfold h. destruct (has_key (s_key s)); lia. }
  destruct Hs as [_ _ [_ Hd]]. pose proof (Zlen_nonneg (s_data s)).
  destruct (Zlen_extended (Zlen (s_data s))) as [Hx|[Hx|Hx]]; [lia|..];
    (assert (0 <= h <= 14) by (unfold h; destruct (has_key (s_key s)); lia));
    (rewrite u64_small by lia); destruct (Z.ltb_spec (Zlen p) (h + Zlen (s_data s))); done || lia.
Qed.

(** A complete frame is taken off the buffer and understood. *)
Lemma parse_whole s rest stack (input : E) :
  sframe_ok s -> malloc (Zlen (s_data s)) <> None -> evbuffer_bytes input = wire s ++ rest ->
  exists input', websocket_parse_frame stack input = (Parsed (received s), input') /\ evbuffer_bytes input' = rest.
Proof.
  intros Hs HM Hin. pose proof Hs as [Hop Hk [Hb Hd]]. pose proof (Zlen_nonneg (s_data s)) as Hd0.
  pose proof (Zlen_wire s Hs) as Hwl. pose proof (Zlen_key s Hs) as Hkl. pose proof (Zlen_nonneg rest).
  set (x := Zlen (extended_length (Zlen (s_data s)))) in *. set (kl := if has_key (s_key s) then 4 else 0) in *.
  assert (Hx : 0 <= x <= 8) by (destruct (Zlen_extended (Zlen (s_data s))) as [Hx|[Hx|Hx]]; unfold x; lia).
  assert (Hkb : 0 <= kl <= 4) by (unfold kl; destruct (has_key (s_key s)); lia).
  unfold websocket_parse_frame. rewrite evbuffer_length_spec, Hin, Zlen_app.
  destruct (Z.ltb_spec (Zlen (wire s) + Zlen rest) 2); [lia|].
  set (n := if _ <? 14 then _ else 14).
  assert (Hn : 2 + x + kl <= n <= Zlen (wire s) + Zlen rest) by (unfold n; destruct (Z.ltb_spec (Zlen (wire s) + Zlen rest) 14); lia).
  rewrite evbuffer_copyout_spec, Hin by lia.
  rewrite has_key_byte, parse_length_wire by (done || rewrite ?Zlen_app; lia).
  fold x. destruct (Z.ltb_spec n (2 + x)); [lia|].
  assert (Hh : (if has_key (s_key s) then 2 + x + 4 else 2 + x) = 2 + x + kl) by (unfold kl; destruct (has_key (s_key s)); lia).
  rewrite Hh, u64_small by lia. destruct (Z.ltb_spec (Zlen (wire s) + Zlen rest) (2 + x + kl + Zlen (s_data s))); [lia|].
  rewrite nth_peek by (rewrite ?Zlen_app; lia).
  change (nth 0 (wire s ++ rest) 0) with ((if s_fin s then 128 else 0) + s_opcode s).
  destruct (first_byte (s_fin s) (s_opcode s) Hop) as (-> & -> & -> & -> & -> & _).
  assert (Hsplit : wire s ++ rest =
    (([(if s_fin s then 128 else 0) + s_opcode s; (if has_key (s_key s) then 128 else 0) + len7 (Zlen (s_data s))] ++
      extended_length (Zlen (s_data s))) ++ key_bytes (s_key s)) ++ masked_data (s_key s) (s_data s) ++ rest)
    by (unfold wire; by rewrite <- !app_assoc).
  assert (Hkey : (if has_key (s_key s)
      then le_val (ztake 4 (zdrop (2 + x + kl - 4) (ztake n (wire s ++ rest) ++ zdrop n stack))) else 0) =
      match s_key s with Some k => le_val k | None => 0 end).
  { destruct (s_key s) as [k|] eqn:Ek; [|done]. cbn [has_key] in *. subst kl.
    rewrite slice_peek by (rewrite ?Zlen_app; lia). rewrite Hsplit, <- app_assoc.
    rewrite zdrop_app_exact by (zlen; fold x; lia). cbn [key_bytes default]. by rewrite ztake_app_exact by (symmetry; apply Hk). }
  rewrite Hkey.
  assert (Hbody : zdrop (2 + x + kl) (wire s ++ rest) = masked_data (s_key s) (s_data s) ++ rest).
  { rewrite Hsplit. apply zdrop_app_exact. zlen. rewrite Hkl. fold x. lia. }
  pose proof (evbuffer_drain_spec input (2 + x + kl) ltac:(lia)) as Hdr. rewrite Hin, Hbody in Hdr.
  unfold received. destruct (Z.ltb_spec 0 (Zlen (s_data s))) as [Hpos|Hzero].
  2: { eexists. split; [reflexivity|]. rewrite Hdr. assert (Hnil : Zlen (masked_data (s_key s) (s_data s)) = 0)
         by (rewrite Zlen_masked_data; lia). apply Zlen_zero in Hnil. by rewrite Hnil. }
  destruct (malloc (Zlen (s_data s))) as [block|] eqn:Em; [|done].
  destruct (evbuffer_remove (evbuffer_drain input (2 + x + kl)) (Zlen (s_data s))) as [d0 in0] eqn:Er.
  pose proof (evbuffer_remove_data (evbuffer_drain input (2 + x + kl)) (Zlen (s_data s)) ltac:(lia)) as Hrd.
  pose proof (evbuffer_remove_rest (evbuffer_drain input (2 + x + kl)) (Zlen (s_data s)) ltac:(lia)) as Hrr.
  rewrite Er, Hdr in Hrd, Hrr. cbn [fst snd] in Hrd, Hrr.
  rewrite ztake_app_exact in Hrd by (by rewrite Zlen_masked_data).
  rewrite zdrop_app_exact in Hrr by (by rewrite Zlen_masked_data). subst d0.
  eexists. split; [|exact Hrr]. f_equal. f_equal. f_equal. f_equal.
  pose proof (malloc_len _ _ Hd0 Em) as Hblock.
  rewrite Zlen_masked_data, zdrop_all, app_nil_r by lia.
  destruct (s_key s) as [k|]; [|done]. cbn [has_key masked_data]. destruct Hk as [Hkok Hk4].
  unfold websocket_mask_unmask. replace 4%nat with (length k) by (unfold Zlen in Hk4; lia).
  by rewrite le_bytes_val, mask_loop_twice.
Qed.
End Parse.

Section Create.
Context {E : Type} `{Evbuffer E} `{Allocator}.

(** What the server writes is an unmasked frame. *)
Lemma create_frame_wire op p (b : bool) :
  evbuffer_reliable (E := E) -> 0 <= op < 16 ->
  Zlen (default [] p) < 2 ^ 63 ->
  exists e : E, websocket_create_frame op p b = Some e /\ evbuffer_bytes e = wire (mk_sframe b op None (default [] p)).
Proof.
  intros Hrel Hop Hd. pose proof Hrel as ((e0 & He0) & _). unfold websocket_create_frame. rewrite He0.
  eexists. split; [reflexivity|]. set (d := default [] p) in *. pose proof (Zlen_nonneg d) as Hd0.
  destruct (first_byte b op Hop) as (_ & _ & _ & _ & _ & Hfirst).
  match goal with |- evbuffer_bytes (match p with Some _ => if _ then evbuffer_put ?e _ else _ | None => _ end) = _ => set (hdr := e) end.
  assert (Hhdr : evbuffer_bytes hdr = [(if b then 128 else 0) + op; 0 + len7 (Zlen d)] ++ extended_length (Zlen d)).
  { unfold hdr. destruct (extended_length_cases (Zlen d) Hd0) as [(Hc & -> & ->)|[(Hc & -> & ->)|(Hc & -> & ->)]].
    - destruct (Z.ltb_spec (Zlen d) 126); [|lia]. rewrite !evbuffer_put_reliable, (evbuffer_new_bytes _ He0), Hfirst by done.
      by rewrite u8_small by lia.
    - destruct (Z.ltb_spec (Zlen d) 126); [lia|]. destruct (Z.leb_spec (Zlen d) 65535); [|lia].
      by rewrite !evbuffer_put_reliable, (evbuffer_new_bytes _ He0), Hfirst by done.
    - destruct (Z.ltb_spec (Zlen d) 126); [lia|]. destruct (Z.leb_spec (Zlen d) 65535); [lia|].
      by rewrite !evbuffer_put_reliable, (evbuffer_new_bytes _ He0), Hfirst by done. }
  assert (Hgoal : evbuffer_bytes hdr ++ d = wire (mk_sframe b op None d)).
  { rewrite Hhdr. reflexivity. }
  destruct p as [d'|]; cbn in d; subst d.
  - destruct (Z.ltb_spec 0 (Zlen d')); [by rewrite evbuffer_put_reliable|].
    assert (Hnil : d' = []) by (apply Zlen_zero; lia). subst d'. by rewrite <- Hgoal, app_nil_r.
  - by rewrite <- Hgoal, app_nil_r.
Qed.

(** C9: Frames survive the wire.  Any complete frame a peer may send, masked or
    not, of any length class, is parsed to its flags, opcode and unmasked
    payload and taken off the input exactly; what the server itself writes is
    such a frame; a frame that has only partly arrived, cut at any byte, is left
    in the input for the next read. *)
Theorem websocket_frame_roundtrip s rest stack (input : E) :
  evbuffer_reliable (E := E) -> mem_upto (Zlen (s_data s)) -> sframe_ok s -> evbuffer_bytes input = wire s ++ rest ->
  (exists input', websocket_parse_frame stack input = (Parsed (received s), input') /\ evbuffer_bytes input' = rest) /\
  (s_key s = None -> exists e : E,
     websocket_create_frame (s_opcode s) (Some (s_data s)) (s_fin s) = Some e /\ evbuffer_bytes e = wire s) /\
  (forall p q (input' : E), wire s = p ++ q -> q <> [] -> evbuffer_bytes input' = p ->
     websocket_parse_frame stack input' = (Incomplete, input')).
Proof.
  intros Hrel HM Hs Hin. pose proof Hs as [Hop _ [_ Hd]]. pose proof (Zlen_nonneg (s_data s)). split; [|split].
  - apply parse_whole; [done| |done]. apply HM. lia.
  - intros Hk. destruct (create_frame_wire (s_opcode s) (Some (s_data s)) (s_fin s) Hrel Hop Hd) as (e & He & Hb).
    exists e. split; [done|]. rewrite Hb. destruct s; cbn in *. by subst.
  - intros p q input' Hw Hq Hp. by eapply parse_prefix.
Qed.
End Create.

(** ** The frame queue as a list *)

Section Queue.
Context {E K : Type} `{Evbuffer E} `{Allocator} `{LuaAPI} `{Digest}.
Implicit Type c : wconn E K.

Fixpoint linked (nodes : gmap positive (websocket_frame_t * option positive)) (h : option positive)
    (ps : list (positive * websocket_frame_t)) : Prop :=
  match ps with
  | [] => h = None
  | (p, f) :: ps => h = Some p /\ exists next, nodes !! p = Some (f, next) /\ linked nodes next ps
  end.

(** The nodes from head to tail are [ps], and there are no others. *)
Record queue_ok c (ps : list (positive * websocket_frame_t)) : Prop := {
  q_linked : linked (w_nodes c) (r_queue_head (w_request c)) ps;
  q_tail : r_queue_tail (w_request c) = last (map fst ps);
  q_len : r_queue_len (w_request c) = Zlen ps;
  q_bound : Zlen ps <= WS_MAX_QUEUED_FRAMES;
  q_nodup : NoDup (map fst ps);
  q_dom : forall p, is_Some (w_nodes c !! p) -> p ∈ map fst ps
}.

Lemma linked_other nodes h ps p v : p ∉ map fst ps -> linked nodes h ps -> linked (<[p := v]> nodes) h ps.
Proof.
  revert h. induction ps as [|[q f] ps IH]; intros h Hp; [done|]. cbn in *. apply not_elem_of_cons in Hp as [Hne Hp].
  intros (-> & next & Hq & Hl). split; [done|]. exists next. rewrite lookup_insert_ne by done. auto.
Qed.
Lemma linked_delete nodes h ps p : p ∉ map fst ps -> linked nodes h ps -> linked (delete p nodes) h ps.
Proof.
  revert h. induction ps as [|[q f] ps IH]; intros h Hp; [done|]. cbn in *. apply not_elem_of_cons in Hp as [Hne Hp].
  intros (-> & next & Hq & Hl). split; [done|]. exists next. rewrite lookup_delete_ne by done. auto.
Qed.
Lemma linked_in nodes h ps p : linked nodes h ps -> p ∈ map fst ps -> is_Some (nodes !! p).
Proof.
  revert h. induction ps as [|[q f] ps IH]; intros h; [by rewrite elem_of_nil|].
  cbn. intros (_ & next & Hq & Hl) [->|Hp]%elem_of_cons; [by eexists|eauto].
Qed.

(** Appending a node behind the last one. *)
Lemma linked_snoc nodes h ps q fq p f :
  linked nodes h (ps ++ [(q, fq)]) -> NoDup (map fst (ps ++ [(q, fq)])) -> p ∉ map fst (ps ++ [(q, fq)]) ->
  linked (<[q := (fq, Some p)]> (<[p := (f, None)]> nodes)) h (ps ++ [(q, fq); (p, f)]).
Proof.
  revert h. induction ps as [|[r fr] ps IH]; intros h; cbn.
  - intros (-> & next & Hq & ->) _ Hp. apply not_elem_of_cons in Hp as [Hpq _].
    split; [done|]. exists (Some p). rewrite lookup_insert_eq. split; [done|]. split; [done|].
    exists None. by rewrite lookup_insert_ne, lookup_insert_eq by done.
  - intros (-> & next & Hr & Hl) [Hnr Hnd]%NoDup_cons Hp. apply not_elem_of_cons in Hp as [Hpr Hp].
    split; [done|]. exists next. split; [|auto].
    rewrite map_app in Hnr. apply not_elem_of_app in Hnr as [_ Hrq]. cbn in Hrq. apply not_elem_of_cons in Hrq as [Hrq _].
    by rewrite !lookup_insert_ne by done.
Qed.
Lemma linked_last nodes h ps q fq : linked nodes h (ps ++ [(q, fq)]) -> nodes !! q = Some (fq, None).
Proof.
  revert h. induction ps as [|[r fr] ps IH]; intros h; cbn.
  - by intros (_ & next & Hq & ->).
  - intros (_ & next & _ & Hl). eauto.
Qed.

Lemma queue_empty nodes c : queue_ok (put_queue nodes None None 0 c) [] <-> nodes = ∅.
Proof.
  split.
  - intros [_ _ _ _ _ Hdom]. apply map_empty. intros p. cbn in Hdom.
    destruct (nodes !! p) eqn:Hp; [|done]. assert (Hin : p ∈ @nil positive) by (apply Hdom; by rewrite Hp).
    by apply elem_of_nil in Hin.
  - intros ->. constructor; cbn; try done; try constructor. intros p [? Hp]. by rewrite lookup_empty in Hp.
Qed.

(** Pushing appends, or drops the frame: the queue is full or memory is out. *)
Lemma push_spec c ps f :
  queue_ok c ps ->
  (exists p nodes h t n, ws_frame_queue_push f c = Ret (put_queue nodes h t n c) /\
     queue_ok (put_queue nodes h t n c) (ps ++ [(p, f)]) /\ Zlen ps < WS_MAX_QUEUED_FRAMES) \/
  (ws_frame_queue_push f c = Ret c /\ (Zlen ps = WS_MAX_QUEUED_FRAMES \/ malloc SIZEOF_NODE = None)).
Proof.
  intros [Hl Ht Hn Hb Hnd Hdom]. unfold ws_frame_queue_push. rewrite Hn.
  destruct (Z.leb_spec WS_MAX_QUEUED_FRAMES (Zlen ps)); [right; split; [done|left; lia]|].
  destruct (malloc SIZEOF_NODE); [left|by right; split; [|right]].
  set (p := fresh (dom (w_nodes c))). assert (Hp : p ∉ map fst ps).
  { intros Hin. apply (linked_in _ _ _ _ Hl) in Hin. apply elem_of_dom in Hin. by apply is_fresh in Hin. }
  assert (Hs : s32 (Zlen ps + 1) = Zlen (ps ++ [(p, f)])).
  { pose proof (Zlen_nonneg ps). unfold WS_MAX_QUEUED_FRAMES in *. zlen. rewrite s32_small; lia. }
  assert (Hnd' : NoDup (map fst (ps ++ [(p, f)]))).
  { rewrite map_app. apply NoDup_app. split; [done|]. split; [|by apply NoDup_singleton].
    intros q Hq Hqp%list_elem_of_singleton. by subst. }
  assert (Hb' : Zlen (ps ++ [(p, f)]) <= WS_MAX_QUEUED_FRAMES) by (zlen; lia).
  destruct ps as [|[q fq] ps' _] using rev_ind.
  - cbn in Ht. rewrite Ht. exists p. do 4 eexists. split; [reflexivity|]. split; [|done]. constructor; cbn; try done.
    + split; [done|]. exists None. by rewrite lookup_insert_eq.
    + intros q [v Hq]. destruct (decide (q = p)) as [->|]; [by left|]. rewrite lookup_insert_ne in Hq by done.
      assert (Hin : q ∈ @nil positive) by (apply Hdom; by eexists). by apply elem_of_nil in Hin.
  - rewrite map_app in Ht. cbn [map fst] in Ht. rewrite last_snoc in Ht. rewrite Ht.
    rewrite lookup_insert_ne by (intros ->; apply Hp; rewrite map_app; apply elem_of_app; right; by left).
    rewrite (linked_last _ _ _ _ _ Hl). exists p. do 4 eexists. split; [reflexivity|]. split; [|done].
    constructor; cbn; try done.
    + rewrite <- app_assoc. by apply linked_snoc.
    + rewrite map_app. cbn [map fst]. by rewrite last_snoc.
    + intros r [v Hr]. rewrite map_app. apply elem_of_app. destruct (decide (r = p)) as [->|]; [right; by left|left].
      destruct (decide (r = q)) as [->|]; [rewrite map_app; apply elem_of_app; right; by left|].
      rewrite !lookup_insert_ne in Hr by done. apply Hdom. by eexists.
Qed.

Lemma pop_spec c ps :
  queue_ok c ps ->
  match ps with
  | [] => ws_frame_queue_pop c = Ret (None, c)
  | (p, f) :: ps => exists nodes h t n, ws_frame_queue_pop c = Ret (Some f, put_queue nodes h t n c) /\
      queue_ok (put_queue nodes h t n c) ps
  end.
Proof.
  intros [Hl Ht Hn Hb Hnd Hdom]. unfold ws_frame_queue_pop. destruct ps as [|[p f] ps]; [by rewrite Hl|].
  destruct Hl as (-> & next & -> & Hl). do 4 eexists. split; [reflexivity|].
  cbn in Hnd. apply NoDup_cons in Hnd as [Hp Hnd]. pose proof (Zlen_nonneg ps). zlen. constructor; cbn; try done.
  - by apply linked_delete.
  - destruct ps as [|[q g] ps]; cbn in Hl; [by rewrite Hl|]. destruct Hl as [-> _]. by rewrite Ht.
  - unfold WS_MAX_QUEUED_FRAMES in *. rewrite Hn, s32_small; lia.
  - lia.
  - intros q [v Hq]. destruct (decide (p = q)) as [->|]; [by rewrite lookup_delete_eq in Hq|].
    rewrite lookup_delete_ne in Hq by done.
    assert (Hin : q ∈ p :: map fst ps) by (apply Hdom; by eexists). apply elem_of_cons in Hin as [->|Hin]; done.
Qed.

(** Clearing frees every node. *)
Lemma clear_loop_spec fuel nodes h ps :
  (length ps <= fuel)%nat -> linked nodes h ps -> NoDup (map fst ps) -> (forall p, is_Some (nodes !! p) -> p ∈ map fst ps) ->
  clear_loop fuel h nodes = Ret ∅.
Proof.
  revert fuel nodes h. induction ps as [|[p f] ps IH]; intros fuel nodes h Hf Hl Hnd Hdom.
  - cbn in Hl. subst h. assert (nodes = ∅) as ->.
    { apply map_empty. intros p. destruct (nodes !! p) eqn:Hp; [|done]. assert (Hin : p ∈ @nil positive) by (apply Hdom; by rewrite Hp).
    by apply elem_of_nil in Hin. }
    by destruct fuel.
  - destruct Hl as (-> & next & Hp & Hl). destruct fuel as [|fuel]; [cbn in Hf; lia|]. cbn [clear_loop]. rewrite Hp.
    cbn in Hnd. apply NoDup_cons in Hnd as [Hnp Hnd]. apply IH; [cbn in Hf; lia|by apply linked_delete|done|].
    intros q [v Hq]. destruct (decide (p = q)) as [->|]; [by rewrite lookup_delete_eq in Hq|].
    rewrite lookup_delete_ne in Hq by done.
    assert (Hin : q ∈ p :: map fst ps) by (apply Hdom; by eexists). apply elem_of_cons in Hin as [->|Hin]; done.
Qed.

Lemma clear_spec c ps : queue_ok c ps -> ws_frame_queue_clear c = Ret (put_queue ∅ None None 0 c).
Proof.
  intros [Hl Ht Hn Hb Hnd Hdom]. unfold ws_frame_queue_clear.
  rewrite (clear_loop_spec _ _ _ ps); [done| |done|done|done].
  assert (Hsub : list_to_set (map fst ps) ⊆ dom (w_nodes c)).
  { intros p Hp%elem_of_list_to_set. apply elem_of_dom. by eapply linked_in. }
  apply subseteq_size in Hsub. rewrite size_list_to_set, size_dom, length_map in Hsub by done. lia.
Qed.
End Queue.

(** C strings contain no NUL. *)
Lemma cstr_app_ascii s : cstr (cstr s ++ WEBSOCKET_MAGIC_STRING) = cstr s ++ WEBSOCKET_MAGIC_STRING.
Proof.
  induction s as [|x s IH]; [by vm_compute|]. cbn [cstr]. destruct (x =? 0) eqn:Hx; [by vm_compute|].
  cbn [app cstr]. by rewrite Hx, IH.
Qed.

(** ** The connection's invariant *)

Definition rank (s : websocket_state_t) : Z :=
  match s with WsConnecting => 0 | WsOpen => 1 | WsClosing => 2 | WsClosed => 3 end.

Section Invariant.
Context {E K : Type} `{Evbuffer E} `{Allocator} `{LuaAPI} `{Digest}.
Context (resume : K -> list lua_value -> wscript K).
Context (peer : list Z -> option (list Z)).
Implicit Type c : wconn E K.

(** How far a connection has got.  Until it is accepted the connection's close
    callback is what tells the request of its end; then the request is anchored,
    and its pointer to the bufferevent is dropped before anything is freed. *)
Inductive stage : Type := Unaccepted | InUse | Flushing | Scheduled | Released.
Definition at_stage (s : stage) c : Prop :=
  let r := w_request c in
  match s with
  | Unaccepted =>
      r_is_websocket r = false /\ r_ws_bev r = false /\ r_cleaning_up r = 0 /\ w_pending c = O /\ w_cb c = CbEvhttp /\
      r_ref r = None /\ (r_req r = true -> w_evcon c = true) /\
      (w_evcon c = true -> w_closecb c = true /\ r_prevent_gc_ref r = true)
  | InUse =>
      r_is_websocket r = true /\ r_ws_bev r = true /\ r_cleaning_up r = 0 /\ w_pending c = O /\ w_cb c = CbWebSocket /\
      w_evcon c = true /\ r_self_ref r = true
  | Flushing =>
      r_is_websocket r = true /\ r_ws_bev r = false /\ r_cleaning_up r = 1 /\ w_pending c = O /\ w_cb c = CbFlush /\
      w_evcon c = true /\ r_self_ref r = true
  | Scheduled =>
      r_is_websocket r = true /\ r_ws_bev r = false /\ r_cleaning_up r = 1 /\ w_pending c = 1%nat /\ w_cb c = CbNone /\
      w_evcon c = true /\ r_self_ref r = true
  | Released =>
      r_is_websocket r = true /\ r_ws_bev r = false /\ r_cleaning_up r = 1 /\ w_pending c = O /\ w_cb c = CbNone /\
      r_req r = false
  end.
(** A request with a reference in the registry has not been collected. *)
Definition anchored c : Prop := r_self_ref (w_request c) || r_prevent_gc_ref (w_request c) = true -> w_alive c = true.
Definition life c : Prop := (exists s, at_stage s c) /\ anchored c.

Lemma life_bev c : life c -> r_ws_bev (w_request c) = true -> w_evcon c = true.
Proof. intros [[s Hs] _] Hb. destruct s; cbn in Hs; destruct_and?; congruence. Qed.
Lemma life_in_use c : life c -> r_is_websocket (w_request c) = true -> r_cleaning_up (w_request c) = 0 -> at_stage InUse c.
Proof. intros [[s Hs] _] Hw Hc. destruct s; [|done|..]; cbn in Hs; destruct_and?; congruence. Qed.
Lemma life_ref c : life c -> r_ref (w_request c) <> None -> r_is_websocket (w_request c) = true.
Proof. intros [[s Hs] _] Hr. destruct s; cbn in Hs; destruct_and?; congruence. Qed.
Lemma life_req c : life c -> r_is_websocket (w_request c) = false -> r_req (w_request c) = true ->
  w_evcon c = true /\ w_alive c = true.
Proof.
  intros [[s Hs] Ha] Hw Hq. destruct s; cbn in Hs; [|destruct_and?; congruence..].
  destruct Hs as (_ & _ & _ & _ & _ & _ & Hev & Hcb). specialize (Hev Hq). destruct (Hcb Hev) as [_ Hg].
  split; [done|]. apply Ha. by rewrite Hg, orb_true_r.
Qed.
Lemma life_self c : life c -> r_self_ref (w_request c) = true -> w_alive c = true.
Proof. intros [_ Ha] Hs. apply Ha. by rewrite Hs. Qed.

(** A coroutine waits only for an empty queue; the WebSocket fields move only
    once the response is taken over. *)
Record winv c : Prop := {
  i_queue : exists ps, queue_ok c ps /\ (r_ref (w_request c) <> None -> ps = []);
  i_taken : r_is_websocket (w_request c) = true -> r_reply_status (w_request c) <> RNone;
  i_fresh : r_reply_status (w_request c) = RNone -> r_ws_state (w_request c) = WsConnecting;
  i_cb : w_cb c = CbWebSocket -> r_is_websocket (w_request c) = true;
  i_life : life c
}.

(** All an operation of the script on an accepted connection leaves alone. *)
Definition core c :=
  let r := w_request c in
  ((r_req r, r_reply_status r, r_is_websocket r, r_ws_bev r, r_mainthread r, r_self_ref r, r_prevent_gc_ref r,
    r_owns_request r, r_cleaning_up r), (w_reading c, w_cb c, w_evcon c, w_closecb c, w_pending c, w_alive c)).

Lemma life_core c c' :
  life c -> core c' = core c ->
  r_is_websocket (w_request c) = true \/ r_ref (w_request c') = r_ref (w_request c) -> life c'.
Proof.
  intros [[s Hs] Ha] Hc Hr. injection Hc as E1 E2 E3 E4 E5 E6 E7 E8 E9 E10 E11 E12 E13 E14 E15.
  split; [|unfold anchored; by rewrite E6, E7, E15]. exists s.
  destruct s; cbn in *; rewrite ?E1, ?E2, ?E3, ?E4, ?E5, ?E6, ?E7, ?E8, ?E9, ?E10, ?E11, ?E12, ?E13, ?E14, ?E15; try done.
  destruct Hs as (Hw & Hs). destruct Hr as [Hr|Hr]; [congruence|]. by rewrite Hr.
Qed.

Record evolves c c' : Prop := {
  e_inv : winv c';
  e_input : w_input c' = w_input c;
  e_rank : rank (r_ws_state (w_request c)) <= rank (r_ws_state (w_request c'));
  e_ws : r_is_websocket (w_request c) = true -> r_is_websocket (w_request c') = true
}.
(** ... and is a script's doing. *)
Definition scripted c c' : Prop :=
  evolves c c' /\ (r_reply_status (w_request c) <> RNone -> core c' = core c).

Lemma evolves_refl c : winv c -> evolves c c.
Proof. by constructor. Qed.
Lemma evolves_trans c1 c2 c3 : evolves c1 c2 -> evolves c2 c3 -> evolves c1 c3.
Proof. intros [_ Hi1 Hr1 Hw1] [Hv Hi2 Hr2 Hw2]. constructor; [done|congruence|lia|auto]. Qed.
Lemma scripted_refl c : winv c -> scripted c c.
Proof. split; [by apply evolves_refl|done]. Qed.
Lemma scripted_trans c1 c2 c3 : scripted c1 c2 -> scripted c2 c3 -> scripted c1 c3.
Proof.
  intros [He1 Hc1] [He2 Hc2]. split; [by eapply evolves_trans|]. intros Hr. rewrite <- (Hc1 Hr). apply Hc2.
  specialize (Hc1 Hr). unfold core in Hc1. congruence.
Qed.

Definition qview c := (w_nodes c, r_queue_head (w_request c), r_queue_tail (w_request c), r_queue_len (w_request c)).
Lemma queue_ok_view c c' ps : qview c' = qview c -> queue_ok c ps -> queue_ok c' ps.
Proof.
  unfold qview. intros Hq [Hl Ht Hn Hb Hnd Hdom].
  injection Hq as E1 E2 E3 E4. constructor; rewrite ?E1, ?E2, ?E3, ?E4; done.
Qed.

(** Changes that do not concern the queue. *)
Lemma winv_same c c' :
  winv c -> qview c' = qview c -> r_ref (w_request c') = r_ref (w_request c) ->
  r_is_websocket (w_request c') = r_is_websocket (w_request c) ->
  r_reply_status (w_request c') = r_reply_status (w_request c) ->
  (r_reply_status (w_request c) = RNone -> r_ws_state (w_request c') = r_ws_state (w_request c)) ->
  (w_cb c' = CbWebSocket -> w_cb c = CbWebSocket) -> (life c -> life c') -> winv c'.
Proof.
  intros [(ps & Hq & Hp) Ht Hf Hcb Hl] Hv Hr Hw Hs Hst Hc Hl'. constructor; rewrite ?Hr, ?Hw, ?Hs; [|done| |auto|auto].
  - exists ps. split; [by eapply queue_ok_view|done].
  - intros HN. rewrite Hst by done. auto.
Qed.

Lemma write_frame_scripted e c : winv c -> scripted c (snd (write_frame e c)).
Proof.
  intros Hi. unfold write_frame. destruct (bufferevent_write_buffer _ _); [|by apply scripted_refl].
  split; [|done]. constructor; [|done..]. by apply (winv_same c).
Qed.

Lemma send_frame_scripted m op p b c : winv c -> r_ws_bev (w_request c) = true ->
  exists a c', send_frame m op p b c = Ret (a, c') /\ scripted c c'.
Proof.
  intros Hi Hb. unfold send_frame, use_bev. rewrite (life_bev c (i_life c Hi) Hb).
  destruct (websocket_create_frame op p b) as [e|]; [|do 2 eexists; split; [done|by apply scripted_refl]].
  pose proof (write_frame_scripted e c Hi) as Hs. destruct (write_frame e c). by do 2 eexists.
Qed.

Lemma state_scripted s c :
  winv c -> r_is_websocket (w_request c) = true -> rank (r_ws_state (w_request c)) <= rank s ->
  scripted c (modify (set_ws_state s) c).
Proof.
  intros Hi Hw Hr. split; [|done]. constructor; [|done..]. apply (winv_same c); try done.
  intros HN. by destruct (i_taken c Hi Hw).
Qed.

Lemma rank_closed s : rank s <= rank WsClosed.
Proof. destruct s; cbn; lia. Qed.

Lemma accept_scripted c :
  winv c -> exists a c', lua_evhttp_request_websocket_accept peer c = Ret (a, c') /\ scripted c c'.
Proof.
  intros Hi. unfold lua_evhttp_request_websocket_accept, use_req, use_bev.
  assert (Hsame : forall a, exists a' c', (mret (a, c) : outcome (answer * wconn E K)) = Ret (a', c') /\ scripted c c').
  { intros a. do 2 eexists. split; [done|by apply scripted_refl]. }
  destruct (r_req (w_request c)) eqn:Hreq; [|by apply Hsame].
  destruct (bool_decide (r_reply_status (w_request c) = RNone)) eqn:Hn; [|by apply Hsame].
  apply bool_decide_eq_true in Hn. cbn [negb].
  destruct (r_is_websocket (w_request c)) eqn:Hws; [by destruct (i_taken c Hi)|].
  destruct (life_req c (i_life c Hi) Hws Hreq) as [Hev Hal]. rewrite Hev. cbn [orb].
  destruct (negb _); [by apply Hsame|]. destruct (peer _); [|by apply Hsame].
  destruct (generate_websocket_accept_key _) as [k|]; [|by apply Hsame].
  assert (Ho : scripted c (modify (set_owns_request true) c)).
  { split; [|done]. constructor; [|done..]. by apply (winv_same c). }
  destruct evbuffer_new as [e|]; [|by do 2 eexists]. cbn [modify put_request w_evcon]. rewrite Hev.
  set (e1 := evbuffer_put e _). pose proof (write_frame_scripted e1 (modify (set_owns_request true) c) (e_inv _ _ (proj1 Ho))) as Hw.
  destruct (write_frame e1 (modify (set_owns_request true) c)) as [b c1] eqn:Ew. cbn [snd] in *.
  assert (Hrest : w_input c1 = w_input c /\ qview c1 = qview c /\ r_ref (w_request c1) = r_ref (w_request c) /\
    r_cleaning_up (w_request c1) = r_cleaning_up (w_request c) /\ w_evcon c1 = w_evcon c /\ w_pending c1 = w_pending c /\
    w_alive c1 = w_alive c).
  { unfold write_frame in Ew. destruct (bufferevent_write_buffer _ _); by simplify_eq. }
  destruct Hrest as (Hin & Hq & Href & Hcl & Hev1 & Hpd & Hal1). pose proof (i_queue c Hi) as (ps & Hps & Hp).
  destruct (i_life c Hi) as [[st Hst] _].
  do 2 eexists. split; [reflexivity|]. split; [|by rewrite Hn]. constructor; cbn; [|done| |done].
  - constructor; cbn; [|done|done|done|].
    + exists ps. split; [|by rewrite Href]. eapply queue_ok_view; [|exact Hps]. by rewrite <- Hq.
    + split; [exists InUse|unfold anchored; cbn; by rewrite Hal1]. cbn. rewrite Hcl, Hev1, Hpd.
      destruct st; cbn in Hst; destruct_and?; [done|congruence..].
  - rewrite (i_fresh c Hi Hn). cbn. lia.
Qed.

Lemma close_scripted args c :
  winv c -> exists a c', lua_evhttp_request_websocket_close args c = Ret (a, c') /\ scripted c c'.
Proof.
  intros Hi. unfold lua_evhttp_request_websocket_close.
  destruct (r_is_websocket (w_request c)) eqn:Hw; cbn [negb]; [|do 2 eexists; split; [done|by apply scripted_refl]].
  destruct (bool_decide (r_ws_state (w_request c) = WsClosed)) eqn:Hc; [do 2 eexists; split; [done|by apply scripted_refl]|].
  apply bool_decide_eq_false in Hc.
  destruct (r_ws_bev (w_request c)) eqn:Hb; cbn [negb];
    [|do 2 eexists; split; [done|]; apply state_scripted; [done..|apply rank_closed]].
  unfold luaL_optinteger, luaL_checkinteger, or_raise, use_bev. rewrite (life_bev c (i_life c Hi) Hb).
  destruct (if lua_isnil (arg args 2) then _ else _) as [code|e|] eqn:Ho;
    [|do 2 eexists; split; [done|by apply scripted_refl]|by repeat case_match].
  destruct (websocket_create_frame _ _ _) as [e|]; (do 2 eexists; split; [reflexivity|]).
  - pose proof (write_frame_scripted e c Hi) as Hs. eapply scripted_trans; [exact Hs|].
    assert (Hf : r_ws_state (w_request (snd (write_frame e c))) = r_ws_state (w_request c) /\
                 r_is_websocket (w_request (snd (write_frame e c))) = true).
    { unfold write_frame. by destruct (bufferevent_write_buffer _ _). }
    destruct Hf as [Hst Hw']. apply state_scripted; [apply Hs|done|]. rewrite Hst. destruct (r_ws_state (w_request c)); cbn; done || lia.
  - apply state_scripted; [done..|]. destruct (r_ws_state (w_request c)); cbn; done || lia.
Qed.

(** Every method answers, raises or yields, on any arguments. *)
Lemma ws_exec_scripted call c :
  winv c -> exists a c', ws_exec peer call c = Ret (a, c') /\ scripted c c'.
Proof.
  intros Hi. pose proof (scripted_refl c Hi) as Hrefl. destruct call; cbn [ws_exec].
  - unfold lua_evhttp_request_is_websocket_upgrade, use_req.
    destruct (r_req (w_request c)) eqn:Hreq; [|by do 2 eexists]. cbn [negb].
    destruct (w_evcon c) eqn:Hev; [by do 2 eexists|]. destruct (i_life c Hi) as [[st Hst] _].
    destruct st; cbn in Hst; try (destruct_and?; congruence).
    destruct Hst as (_ & _ & _ & _ & _ & _ & Hlive & _). rewrite (Hlive Hreq) in Hev. done.
  - by apply accept_scripted.
  - unfold lua_evhttp_request_websocket_send. destruct (not_open c); [by do 2 eexists|].
    destruct (r_ws_bev (w_request c)) eqn:Hb; [|by do 2 eexists]. cbn [negb].
    unfold luaL_checklstring, luaL_optinteger, luaL_checkinteger.
    repeat case_match; simplify_eq/=; try (by do 2 eexists);
      unfold or_raise; repeat case_match; simplify_eq/=; try (by do 2 eexists); by apply send_frame_scripted.
  - unfold lua_evhttp_request_websocket_ping. destruct (not_open c); [by do 2 eexists|].
    destruct (r_ws_bev (w_request c)) eqn:Hb; [|by do 2 eexists]. cbn [negb].
    destruct (_ <? _); [by do 2 eexists|by apply send_frame_scripted].
  - unfold lua_evhttp_request_websocket_pong. destruct (not_open c); [by do 2 eexists|].
    destruct (r_ws_bev (w_request c)) eqn:Hb; [|by do 2 eexists]. cbn [negb].
    destruct (_ <? _); [by do 2 eexists|by apply send_frame_scripted].
  - by apply close_scripted.
  - do 2 eexists. split; [apply f_equal, surjective_pairing|]. unfold lua_evhttp_request_websocket_state.
    by destruct (negb _).
Qed.

Lemma receive_scripted susp c :
  winv c -> exists a c', lua_evhttp_request_websocket_receive susp c = Ret (a, c') /\ scripted c c'.
Proof.
  intros Hi. pose proof (i_queue c Hi) as (ps & Hq & Hp). unfold lua_evhttp_request_websocket_receive.
  destruct (r_is_websocket (w_request c)) eqn:Hw; cbn [negb]; [|do 2 eexists; split; [done|by apply scripted_refl]].
  destruct (bool_decide _); [do 2 eexists; split; [done|by apply scripted_refl]|].
  destruct (negb _); [do 2 eexists; split; [done|by apply scripted_refl]|].
  pose proof (pop_spec c ps Hq) as Hpop. destruct ps as [|[p f] ps].
  - rewrite Hpop. cbn [mbind outcome_bind]. destruct (r_ref (w_request c)) eqn:Hr;
      (do 2 eexists; split; [reflexivity|]); [by apply scripted_refl|].
    split; [|done]. constructor; [|done..]. constructor; try apply Hi; [|by eapply life_core; [apply Hi|..]; auto].
    exists []. split; [|done]. by apply (queue_ok_view c).
  - destruct Hpop as (nodes & h & t & n & -> & Hq'). cbn [mbind outcome_bind].
    do 2 eexists. split; [reflexivity|]. split; [|done]. constructor; [|done..]. constructor; try apply Hi.
    exists ps. split; [done|]. cbn. intros Hr. by apply Hp in Hr.
Qed.

Lemma run_scripted s c :
  winv c -> exists st c', run_wscript peer s c = Ret (st, c') /\ scripted c c'.
Proof.
  revert c. induction s as [| | |call k IH|k IH susp]; intros c Hi; cbn [run_wscript];
    try (by do 2 eexists; split; [done|by apply scripted_refl]).
  - destruct (ws_exec_scripted call c Hi) as (a & c1 & -> & Hs). cbn [mbind outcome_bind].
    destruct (IH a c1 (e_inv _ _ (proj1 Hs))) as (st & c2 & -> & Hs2). do 2 eexists. split; [done|by eapply scripted_trans].
  - destruct (receive_scripted susp c Hi) as (a & c1 & -> & Hs). cbn [mbind outcome_bind].
    destruct (IH a c1 (e_inv _ _ (proj1 Hs))) as (st & c2 & Hrun & Hs2).
    destruct a; rewrite ?Hrun; do 2 eexists; (split; [reflexivity|]); try done; by eapply scripted_trans.
Qed.

(** ** The callbacks *)

Lemma clear_refs_same (r : Request K) :
  let r' := clear_prevent_gc_ref (clear_self_ref r) in
  r_queue_head r' = r_queue_head r /\ r_queue_tail r' = r_queue_tail r /\ r_queue_len r' = r_queue_len r /\
  r_is_websocket r' = r_is_websocket r /\ r_reply_status r' = r_reply_status r /\ r_ws_state r' = r_ws_state r.
Proof.
  unfold clear_prevent_gc_ref, clear_self_ref. by destruct (r_self_ref r && r_mainthread r); cbn; destruct (_ && _).
Qed.

Lemma cleanup_evolves c :
  winv c -> r_is_websocket (w_request c) = true -> exists c', ws_connection_cleanup c = Ret c' /\ evolves c c'.
Proof.
  intros Hi Hws. unfold ws_connection_cleanup.
  destruct (Z.eqb_spec (r_cleaning_up (w_request c)) 0) as [Hcl|]; [|eexists; split; [done|by apply evolves_refl]].
  pose proof (life_in_use c (i_life c Hi) Hws Hcl) as (_ & Hb & _ & Hpd & _ & Hev & Hself).
  pose proof (life_self c (i_life c Hi) Hself) as Hal.
  pose proof (i_queue c Hi) as (ps & Hq & _). cbn [negb].
  assert (Hq1 : queue_ok (modify (set_cleaning_up 1) c) ps) by by apply (queue_ok_view c).
  rewrite (clear_spec _ _ Hq1). cbn [mbind outcome_bind].
  assert (Hempty : forall c', qview c' = (∅, None, None, 0) ->
    r_is_websocket (w_request c') = r_is_websocket (w_request c) ->
    r_reply_status (w_request c') = r_reply_status (w_request c) ->
    r_ws_state (w_request c') = r_ws_state (w_request c) -> w_input c' = w_input c ->
    (w_cb c' = CbWebSocket -> w_cb c = CbWebSocket) -> life c' -> evolves c c').
  { intros c' Hv Hw Hr Hs Hin Hcb Hl. constructor; [|done|by rewrite Hs|by rewrite Hw].
    constructor; rewrite ?Hw, ?Hr, ?Hs; [|apply Hi|apply Hi| |done].
    - exists []. split; [|done]. apply (queue_ok_view (put_queue ∅ None None 0 c)); [done|by apply (queue_empty ∅ c)].
    - intros Hc%Hcb. by apply Hi. }
  unfold use_bev. cbn. rewrite Hb, Hev.
  destruct (evbuffer_get_length (w_output c) =? 0); (eexists; split; [reflexivity|]); apply Hempty; try done.
  - split; [exists Scheduled; cbn; by rewrite Hpd|by intros _].
  - split; [by exists Flushing|by intros _].
Qed.

Lemma unwait_evolves c : winv c -> r_is_websocket (w_request c) = true -> evolves c (modify (set_ref None) c).
Proof.
  intros Hi Hw. constructor; [|done..]. constructor; try apply Hi; [|by eapply life_core; [apply Hi|..]; auto].
  pose proof (i_queue c Hi) as (ps & Hq & _). exists ps. split; [by apply (queue_ok_view c)|done].
Qed.

Lemma resume_evolves vs c : winv c -> exists c', resume_waiting resume peer vs c = Ret c' /\ evolves c c'.
Proof.
  intros Hi. unfold resume_waiting. destruct (r_ref (w_request c)) as [k|] eqn:Hr;
    [|eexists; split; [done|by apply evolves_refl]].
  assert (Hw : r_is_websocket (w_request c) = true) by (apply (life_ref c (i_life c Hi)); by rewrite Hr).
  pose proof (unwait_evolves c Hi Hw) as He0.
  destruct (run_scripted (resume k vs) _ (e_inv _ _ He0)) as (st & c1 & -> & [He1 _]). cbn [mbind outcome_bind].
  pose proof (evolves_trans _ _ _ He0 He1) as He.
  destruct (cleanup_evolves c1 (e_inv _ _ He) (e_ws _ _ He Hw)) as (c2 & Hc & He2).
  destruct st; rewrite ?Hc; eexists; (split; [reflexivity|]); try done; by eapply evolves_trans.
Qed.

Lemma finish_evolves m c :
  winv c -> r_is_websocket (w_request c) = true -> exists c', finish resume peer m c = Ret c' /\ evolves c c'.
Proof.
  intros Hi Hw. unfold finish, ws_resume_with_error.
  destruct (r_ref (w_request c)); [by apply resume_evolves|by apply cleanup_evolves].
Qed.

Lemma echo_scripted op f c :
  winv c -> r_ws_bev (w_request c) = true -> exists c', echo_frame op f c = Ret c' /\ scripted c c'.
Proof.
  intros Hi Hb. unfold echo_frame, use_bev. rewrite (life_bev c (i_life c Hi) Hb).
  destruct (websocket_create_frame _ _ _); eexists; (split; [reflexivity|]); [by apply write_frame_scripted|by apply scripted_refl].
Qed.

Lemma push_evolves f c :
  winv c -> r_ref (w_request c) = None -> exists c', ws_frame_queue_push f c = Ret c' /\ evolves c c'.
Proof.
  intros Hi Hr. pose proof (i_queue c Hi) as (ps & Hq & _).
  destruct (push_spec c ps f Hq) as [(p & nodes & h & t & n & -> & Hq' & _)|[-> _]];
    (eexists; split; [reflexivity|]); [|by apply evolves_refl].
  constructor; [|done..]. constructor; try apply Hi. by exists (ps ++ [(p, f)]).
Qed.

Lemma handle_evolves f c :
  winv c -> r_is_websocket (w_request c) = true ->
  exists b c', handle_frame resume peer f c = Ret (b, c') /\ evolves c c'.
Proof.
  intros Hi Hw. unfold handle_frame.
  destruct (opcode f =? WS_OPCODE_PING).
  { destruct (r_ws_bev (w_request c)) eqn:Hb; [|do 2 eexists; split; [reflexivity|by apply evolves_refl]].
    destruct (echo_scripted WS_OPCODE_PONG f c Hi Hb) as (c1 & Hc1 & [He _]).
    destruct (bool_decide _); cbn [andb]; rewrite ?Hc1; do 2 eexists; (split; [reflexivity|]); [done|by apply evolves_refl]. }
  destruct (opcode f =? WS_OPCODE_PONG); [do 2 eexists; split; [reflexivity|by apply evolves_refl]|].
  destruct (opcode f =? WS_OPCODE_CLOSE).
  { set (c1 := modify (set_ws_state WsClosed) c).
    assert (Hv1 : evolves c c1) by (apply state_scripted; [done..|apply rank_closed]).
    assert (Hv2 : exists c2, (if r_ws_bev (w_request c1) then echo_frame WS_OPCODE_CLOSE f c1 else mret c1) = Ret c2 /\ evolves c c2).
    { destruct (r_ws_bev (w_request c1)) eqn:Hb; [|by eexists].
      destruct (echo_scripted WS_OPCODE_CLOSE f c1 (e_inv _ _ Hv1) Hb) as (c2 & -> & [He _]).
      eexists. split; [done|]. by eapply evolves_trans. }
    destruct Hv2 as (c2 & -> & Hv2). cbn [mbind outcome_bind].
    destruct (finish_evolves (lit "closed") c2 (e_inv _ _ Hv2) (e_ws _ _ Hv2 Hw)) as (c3 & -> & Hv3).
    do 2 eexists. split; [reflexivity|]. by eapply evolves_trans. }
  destruct (_ || _); [|do 2 eexists; split; [reflexivity|by apply evolves_refl]].
  destruct (r_ref (w_request c)) eqn:Hr.
  - destruct (resume_evolves (frame_values f) c Hi) as (c1 & Hc & He). unfold ws_resume_with_frame. rewrite Hc.
    do 2 eexists. split; [reflexivity|done].
  - destruct (push_evolves f c Hi Hr) as (c1 & -> & He). do 2 eexists. split; [reflexivity|done].
Qed.

(** [evolves] without the input. *)
Definition advances c c' : Prop :=
  winv c' /\ rank (r_ws_state (w_request c)) <= rank (r_ws_state (w_request c')) /\
  (r_is_websocket (w_request c) = true -> r_is_websocket (w_request c') = true).

Lemma evolves_advances c c' : evolves c c' -> advances c c'.
Proof. by intros [? _ ? ?]. Qed.
Lemma advances_trans c1 c2 c3 : advances c1 c2 -> advances c2 c3 -> advances c1 c3.
Proof. intros (_ & Hr1 & Hw1) (Hi & Hr2 & Hw2). split; [done|]. split; [lia|auto]. Qed.
Lemma input_advances e c : winv c -> advances c (put_input e c).
Proof. intros Hi. split; [by apply (winv_same c)|done]. Qed.

(** Every parsed frame takes its header off the input. *)
Lemma parse_consumes stack (input input' : E) f :
  websocket_parse_frame stack input = (Parsed f, input') ->
  Zlen (evbuffer_bytes input') < Zlen (evbuffer_bytes input).
Proof.
  assert (Hdrop : forall (l : list Z) n, 0 <= n -> Zlen (zdrop n l) = Z.max 0 (Zlen l - n)).
  { intros l n Hn. destruct (Z.le_gt_cases n (Zlen l)); [rewrite Zlen_zdrop; lia|]. rewrite zdrop_all by lia. zlen. lia. }
  unfold websocket_parse_frame. rewrite evbuffer_length_spec.
  destruct (Z.ltb_spec (Zlen (evbuffer_bytes input)) 2); [done|].
  set (pk := _ ++ _). set (b := c_true _). destruct (parse_length pk _) as [[n h]|] eqn:Ep; [|done].
  assert (2 <= h) by (unfold parse_length in Ep; repeat case_match; simplify_eq; lia).
  assert (2 <= (if b then h + 4 else h)) by (destruct b; lia). set (h' := if b then _ else _) in *.
  pose proof (evbuffer_drain_spec input h' ltac:(lia)) as Hd.
  destruct (_ <? u64 _); [done|]. destruct (Z.ltb_spec 0 n).
  - destruct (malloc n) as [block|]; [|done]. destruct (evbuffer_remove _ n) as [d in1] eqn:Er. intros [= _ <-].
    pose proof (evbuffer_remove_rest (evbuffer_drain input h') n ltac:(lia)) as Hr. rewrite Er, Hd in Hr. cbn in Hr.
    rewrite Hr, !Hdrop; lia.
  - intros [= _ <-]. rewrite Hd, Hdrop; lia.
Qed.

Lemma read_loop_advances fuel stack c :
  winv c -> r_is_websocket (w_request c) = true -> Zlen (evbuffer_bytes (w_input c)) <= Z.of_nat fuel ->
  exists c', read_loop resume peer fuel stack c = Ret c' /\ advances c c'.
Proof.
  revert c. induction fuel as [|fuel IH]; intros c Hi Hw Hf; cbn [read_loop]; rewrite evbuffer_length_spec.
  { destruct (Z.leb_spec (Zlen (evbuffer_bytes (w_input c))) 0); [|lia].
    eexists. split; [done|]. by apply evolves_advances, evolves_refl. }
  destruct (Zlen (evbuffer_bytes (w_input c)) <=? 0).
  { eexists. split; [done|]. by apply evolves_advances, evolves_refl. }
  destruct (websocket_parse_frame stack (w_input c)) as [[| |f] input] eqn:Ep.
  - eexists. split; [done|]. by apply input_advances.
  - pose proof (input_advances input c Hi) as Ha.
    assert (Hs : scripted (put_input input c) (modify (set_ws_state WsClosed) (put_input input c))).
    { apply state_scripted; [apply Ha|done|apply rank_closed]. }
    destruct (finish_evolves (lit "frame parse error") _ (e_inv _ _ (proj1 Hs)) Hw) as (c' & Hc' & He).
    exists c'. split; [done|]. eapply advances_trans; [exact Ha|]. apply evolves_advances. by eapply evolves_trans; [apply Hs|].
  - pose proof (input_advances input c Hi) as Ha.
    destruct (handle_evolves f (put_input input c) (proj1 Ha) Hw) as (b & c1 & -> & He). cbn [mbind outcome_bind].
    pose proof (evolves_advances _ _ He) as Ha1. destruct b.
    + destruct (IH c1) as (c2 & -> & Ha2); [apply (e_inv _ _ He)|apply (e_ws _ _ He), Hw| |].
      { rewrite (e_input _ _ He). cbn. apply parse_consumes in Ep. lia. }
      eexists. split; [done|]. eapply advances_trans; [|exact Ha2]. exact (advances_trans _ _ _ Ha Ha1).
    + eexists. split; [done|]. exact (advances_trans _ _ _ Ha Ha1).
Qed.

Lemma readcb_advances stack c :
  winv c -> r_is_websocket (w_request c) = true ->
  exists c', ws_readcb resume peer stack c = Ret c' /\ advances c c'.
Proof.
  intros Hi Hw. unfold ws_readcb. apply read_loop_advances; [done..|]. rewrite evbuffer_length_spec. lia.
Qed.

(** Everything that can happen to a connection: Lua code runs, bytes arrive, the
    peer goes away, the output drains, the callbacks installed are called, a
    deferred release comes due, and the request is collected once neither the
    registry nor a waiting coroutine holds it.  Before the handshake libevent
    itself closes the connection of a peer that went away ([OpPeerGone]). *)
Inductive ws_op : Type :=
  | OpRun (s : wscript K)
  | OpRead (input : E) (stack : list Z)
  | OpEvent (eof error : bool)
  | OpDrain (output : E)
  | OpFlushWrite
  | OpFlushEvent (eof error : bool)
  | OpDeferred
  | OpPeerGone
  | OpCollect.

Definition enabled (o : ws_op) c : Prop :=
  match o with
  | OpRun _ => w_alive c = true
  | OpDrain _ => True
  | OpPeerGone => w_cb c = CbEvhttp /\ w_evcon c = true
  | OpCollect => r_self_ref (w_request c) = false /\ r_prevent_gc_ref (w_request c) = false /\ r_ref (w_request c) = None
  | OpRead _ _ | OpEvent _ _ => w_cb c = CbWebSocket
  | OpFlushWrite | OpFlushEvent _ _ => w_cb c = CbFlush
  | OpDeferred => w_pending c <> O
  end.

(** libevent closes a connection that has not been taken over: the callback that
    [newtable_from_req] set clears the request, then the connection is freed. *)
Definition peer_gone c : outcome (wconn E K) :=
  c ← (if w_closecb c
       then use_request c (mret (modify (fun r => clear_prevent_gc_ref (set_reply_status RReplyed (set_req false r))) c))
       else mret c);
  mret (mk_wconn (w_request c) (w_nodes c) (w_input c) (w_output c) (w_reading c) (w_cb c) false (w_closecb c) (w_pending c) (w_alive c)).

Definition exec_op (o : ws_op) c : outcome (wconn E K) :=
  match o with
  | OpRun s => '(_, c) ← run_wscript peer s c; mret c
  | OpRead input stack => use_request c (ws_readcb resume peer stack (put_input input c))
  | OpEvent eof error => use_request c (ws_eventcb resume peer eof error c)
  | OpDrain output => mret (put_output output c)
  | OpFlushWrite => use_request c (mret (ws_flush_writecb c))
  | OpFlushEvent eof error => use_request c (mret (ws_flush_eventcb eof error c))
  | OpDeferred => use_request c (ws_deferred_free_cb (put_pending (pred (w_pending c)) c))
  | OpPeerGone => peer_gone c
  | OpCollect => mret (put_alive false c)
  end.

(** A connection whose callbacks are installed or scheduled is anchored. *)
Lemma cb_self c : life c -> w_cb c = CbWebSocket \/ w_cb c = CbFlush \/ w_pending c <> O -> w_alive c = true.
Proof.
  intros Hl Hc. apply life_self; [done|]. destruct Hl as [[s Hs] _].
  destruct s; cbn in Hs; destruct_and?; destruct Hc as [Hc|[Hc|Hc]]; congruence.
Qed.

Lemma deferred_advances c :
  winv c -> w_pending c <> O -> exists c', ws_deferred_free_cb (put_pending (pred (w_pending c)) c) = Ret c' /\ advances c c'.
Proof.
  intros Hi Hp. destruct (i_life c Hi) as [[s Hs] Ha]. destruct s; cbn in Hs; try (destruct_and?; congruence).
  destruct Hs as (Hw & Hb & Hcl & Hpd & Hcb & Hev & Hself).
  unfold ws_deferred_free_cb, free_connection, use_bev. cbn. rewrite Hcl, Hev, Hpd. cbn [negb Z.eqb Pos.eqb pred].
  assert (Hm : forall c', qview c' = qview c -> r_ref (w_request c') = r_ref (w_request c) ->
    r_is_websocket (w_request c') = true -> r_reply_status (w_request c') = r_reply_status (w_request c) ->
    r_ws_state (w_request c') = r_ws_state (w_request c) -> w_cb c' = CbNone -> r_ws_bev (w_request c') = false ->
    r_cleaning_up (w_request c') = 1 -> w_pending c' = O -> r_req (w_request c') = false -> w_alive c' = w_alive c -> advances c c').
  { intros c' Hv Hr Hw' Hst Hws Hcb' Hb' Hcl' Hp' Hq' Hal. split; [|by rewrite Hws, Hw'].
    apply (winv_same c); try done; [congruence|congruence|]. intros _. split; [by exists Released|].
    intros _. rewrite Hal. apply Ha. by rewrite Hself. }
  assert (Hc : forall r : Request K, let r' := clear_prevent_gc_ref (clear_self_ref r) in
    r_ref r' = r_ref r /\ r_ws_bev r' = r_ws_bev r /\ r_cleaning_up r' = r_cleaning_up r /\ r_req r' = r_req r).
  { intros r. unfold clear_prevent_gc_ref, clear_self_ref. by destruct (r_self_ref r && r_mainthread r); cbn; destruct (_ && _). }
  destruct (r_owns_request (w_request c) && r_req (w_request c)); cbn [mbind outcome_bind];
    (eexists; split; [reflexivity|]); apply Hm; unfold qview; cbn;
    match goal with |- context [clear_prevent_gc_ref (clear_self_ref ?r)] =>
      destruct (clear_refs_same r) as (E1 & E2 & E3 & E4 & E5 & E6); destruct (Hc r) as (F1 & F2 & F3 & F4) | _ => idtac end;
    rewrite ?E1, ?E2, ?E3, ?E4, ?E5, ?E6, ?F1, ?F2, ?F3, ?F4; done.
Qed.

Lemma peer_gone_advances c :
  winv c -> w_cb c = CbEvhttp -> w_evcon c = true -> exists c', peer_gone c = Ret c' /\ advances c c'.
Proof.
  intros Hi Hcb Hev. destruct (i_life c Hi) as [[s Hs] Ha]. destruct s; cbn in Hs; try (destruct_and?; congruence).
  destruct Hs as (Hw & Hb & Hcl & Hpd & _ & Href & _ & Hg). destruct (Hg Hev) as [Hcc Hpg].
  unfold peer_gone, use_request. rewrite Hcc, Ha by (by rewrite Hpg, orb_true_r). cbn [mbind outcome_bind].
  eexists. split; [reflexivity|].
  unfold clear_prevent_gc_ref. cbn. rewrite Hpg. cbn [andb].
  split; [|split; [|by rewrite Hw]].
  - destruct (i_queue c Hi) as (ps & Hq & Hps). destruct (r_mainthread (w_request c)); constructor; cbn; try done.
    all: try (by exists ps; split; [by apply (queue_ok_view c)|rewrite Href]).
    all: try (by intros Hf; rewrite Hcb in Hf).
    all: split; [exists Unaccepted; by repeat split|]; intros Hx; apply Ha; by rewrite Hpg, orb_true_r.
  - by destruct (r_mainthread (w_request c)).
Qed.

Lemma exec_op_advances o c : winv c -> enabled o c -> exists c', exec_op o c = Ret c' /\ advances c c'.
Proof.
  intros Hi Hen. pose proof (cb_self c (i_life c Hi)) as Hal. unfold exec_op, use_request. destruct o; cbn in Hen.
  - destruct (run_scripted s c Hi) as (st & c' & -> & [He _]). eexists. split; [reflexivity|by apply evolves_advances].
  - rewrite Hal by auto. pose proof (input_advances input c Hi) as Ha.
    destruct (readcb_advances stack (put_input input c)) as (c' & -> & Ha'); [apply Ha|by apply (i_cb c Hi)|].
    eexists. split; [done|]. exact (advances_trans _ _ _ Ha Ha').
  - rewrite Hal by auto. unfold ws_eventcb. destruct (eof || error); [|eexists; split; [done|by apply evolves_advances, evolves_refl]].
    assert (Hs : scripted c (modify (set_ws_state WsClosed) c)).
    { apply state_scripted; [done|by apply (i_cb c Hi)|apply rank_closed]. }
    destruct (finish_evolves (if eof then lit "connection closed" else lit "connection error") _ (e_inv _ _ (proj1 Hs)) (i_cb c Hi Hen))
      as (c' & Hc' & He). rewrite Hc'.
    eexists. split; [done|]. apply evolves_advances. by eapply evolves_trans; [apply Hs|].
  - eexists. split; [done|]. split; [by apply (winv_same c)|done].
  - rewrite Hal by auto. eexists. split; [done|]. unfold ws_flush_writecb.
    destruct (i_life c Hi) as [[s Hs] _]. destruct s; cbn in Hs; destruct_and?; try congruence.
    replace (r_cleaning_up _) with 1. by apply evolves_advances, evolves_refl.
  - rewrite Hal by auto. eexists. split; [done|]. unfold ws_flush_eventcb.
    destruct (i_life c Hi) as [[s Hs] _]. destruct s; cbn in Hs; destruct_and?; try congruence.
    replace (r_cleaning_up _) with 1. by apply evolves_advances, evolves_refl.
  - rewrite Hal by auto. by apply deferred_advances.
  - destruct Hen as [Hcb Hev]. by apply peer_gone_advances.
  - destruct Hen as (Hs1 & Hs2 & _). eexists. split; [done|]. split; [|done]. apply (winv_same c); try done.
    intros [[s Hs] Ha]. split; [by exists s|]. intros Hx. cbn in Hx. by rewrite Hs1, Hs2 in Hx.
Qed.

Definition ws_start (input output : E) : wconn E K :=
  mk_wconn new_request ∅ input output true CbEvhttp true true O true.
Inductive ws_reachable : wconn E K -> Prop :=
  | ws_reach_start input output : ws_reachable (ws_start input output)
  | ws_reach_op o c c' : ws_reachable c -> enabled o c -> exec_op o c = Ret c' -> ws_reachable c'.

Lemma start_inv input output : winv (ws_start input output).
Proof.
  constructor; cbn; try done; [|by split; [exists Unaccepted|]]. exists []. split; [|done].
  apply (queue_ok_view (put_queue ∅ None None 0 (ws_start input output))); [done|by apply queue_empty].
Qed.
Lemma ws_reachable_inv c : ws_reachable c -> winv c.
Proof.
  induction 1 as [|o c c' _ IH Hen Hex]; [apply start_inv|].
  destruct (exec_op_advances o c IH Hen) as (c1 & Hc1 & Ha & _). congruence.
Qed.

(** C10: Whatever scripts, peers, the event loop and the collector do to a
    request that its handler may accept as a WebSocket, in any order, every
    operation finishes without touching freed memory: not the queue nodes, not the
    connection or its bufferevent, not the [struct evhttp_request], and no
    callback or deferred call finds its [Request] collected.  The frame queue
    stays a well-formed list of at most 64 nodes with no node leaked; a coroutine
    waits only while the queue is empty; and the state only moves forward from
    connecting to open, closing and closed.  The HTTP server object outlives its
    connections ([ws_server_collected]), and the dispatcher's call of the handler
    returns only after the connection has been accepted or not at all
    ([Httpd.http_reply_protocol] is about the other requests). *)
Theorem websocket_safe o c :
  ws_reachable c -> enabled o c ->
  exists c' ps, exec_op o c = Ret c' /\ queue_ok c' ps /\ Zlen ps <= WS_MAX_QUEUED_FRAMES /\
    (r_ref (w_request c') <> None -> ps = []) /\
    rank (r_ws_state (w_request c)) <= rank (r_ws_state (w_request c')).
Proof.
  intros Hr%ws_reachable_inv Hen. destruct (exec_op_advances o c Hr Hen) as (c' & Hc' & Hi & Hrk & _).
  pose proof (i_queue c' Hi) as (ps & Hq & Hp). exists c', ps. pose proof (q_bound c' ps Hq). done.
Qed.

(** ** Releasing *)

(** An accepted connection in use that nobody waits on. *)
Record in_use c : Prop := {
  u_inv : winv c;
  u_cb : w_cb c = CbWebSocket;
  u_bev : r_ws_bev (w_request c) = true;
  u_clean : r_cleaning_up (w_request c) = 0;
  u_pending : w_pending c = O;
  u_evcon : w_evcon c = true;
  u_owned : r_owns_request (w_request c) = true /\ r_req (w_request c) = true /\ r_mainthread (w_request c) = true;
  u_ref : r_ref (w_request c) = None
}.

(** A connection that is cleaned up but that no callback will release. *)
Definition stuck c : Prop :=
  w_evcon c = true /\ r_cleaning_up (w_request c) = 1 /\ w_cb c = CbFlush /\ w_pending c = O /\
  r_reply_status (w_request c) <> RNone.

Lemma stuck_op o c c' : winv c -> stuck c -> enabled o c -> exec_op o c = Ret c' ->
  stuck c' /\ r_self_ref (w_request c') = r_self_ref (w_request c).
Proof.
  intros Hi (Hev & Hcl & Hcb & Hpd & Hrs) Hen Hex. destruct o; cbn in Hen, Hex.
  - destruct (run_scripted s c Hi) as (st & c1 & Hrun & _ & Hcore). rewrite Hrun in Hex. cbn in Hex.
    specialize (Hcore Hrs). injection Hex as <-. unfold core in Hcore. cbv zeta in Hcore. unfold stuck. split_and!; congruence.
  - congruence.
  - congruence.
  - by injection Hex as <-.
  - unfold use_request in Hex. destruct (w_alive c); [|done]. injection Hex as <-. unfold ws_flush_writecb. by rewrite Hcl.
  - unfold use_request in Hex. destruct (w_alive c); [|done]. injection Hex as <-. unfold ws_flush_eventcb. by rewrite Hcl.
  - done.
  - destruct Hen. congruence.
  - by injection Hex as <-.
Qed.

(** [later c c']: [c'] comes about from [c] by any sequence of operations. *)
Inductive later (c : wconn E K) : wconn E K -> Prop :=
  | later_now : later c c
  | later_op o c1 c2 : later c c1 -> enabled o c1 -> exec_op o c1 = Ret c2 -> later c c2.

Lemma stuck_later c c' : winv c -> stuck c -> later c c' ->
  winv c' /\ stuck c' /\ r_self_ref (w_request c') = r_self_ref (w_request c).
Proof.
  intros Hi Hs. induction 1 as [|o c1 c2 _ (Hi1 & Hs1 & Hr1) Hen Hex]; [done|].
  destruct (stuck_op o c1 c2 Hi1 Hs1 Hen Hex) as [Hs2 Hr2]. destruct (exec_op_advances o c1 Hi1 Hen) as (c3 & Hc3 & Hi3 & _).
  assert (c3 = c2) as -> by congruence. split; [done|]. split; [done|congruence].
Qed.

Lemma cleaned_again c : r_cleaning_up (w_request c) <> 0 -> ws_connection_cleanup c = Ret c.
Proof. intros Hcl. unfold ws_connection_cleanup. by destruct (Z.eqb_spec (r_cleaning_up (w_request c)) 0). Qed.

(** The fields of a connection in use that releasing it looks at. *)
Definition used_conn rs iw st sr pg qh qt ql nodes inp out rd cc : wconn E K :=
  mk_wconn (mk_request true rs iw st true true None sr pg qh qt ql true 0) nodes inp out rd CbWebSocket true cc O true.
(** ... and what cleaning it up leaves. *)
Definition cleaned_conn rs iw st sr pg inp out cb cc n : wconn E K :=
  mk_wconn (mk_request true rs iw st false true None sr pg None None 0 true 1) ∅ inp out false cb true cc n true.
Definition released_conn rs iw st inp out cc : wconn E K :=
  mk_wconn (mk_request false rs iw st false true None false false None None 0 false 1) ∅ inp out false CbNone false cc O true.

Lemma in_use_conn c : in_use c -> exists rs iw st sr pg qh qt ql nodes inp out rd cc,
  c = used_conn rs iw st sr pg qh qt ql nodes inp out rd cc.
Proof.
  intros [Hi Hcb Hbev Hcl Hpd Hev (Ho & Hreq & Hmt) Href].
  assert (Hal : w_alive c = true) by (apply (cb_self c (i_life c Hi)); auto). clear Hi.
  destruct c as [[rq rs iw st bev mt rf sr pg qh qt ql ow cl] nodes inp out rd cb ev cc pd al].
  cbn in *. subst. by do 13 eexists.
Qed.

Lemma cleanup_used rs iw st sr pg qh qt ql nodes inp out rd cc ps :
  queue_ok (used_conn rs iw st sr pg qh qt ql nodes inp out rd cc) ps ->
  ws_connection_cleanup (used_conn rs iw st sr pg qh qt ql nodes inp out rd cc) =
  Ret (if evbuffer_get_length out =? 0 then cleaned_conn rs iw st sr pg inp out CbNone cc 1
       else cleaned_conn rs iw st sr pg inp out CbFlush cc O).
Proof.
  intros Hq. set (c := used_conn rs iw st sr pg qh qt ql nodes inp out rd cc) in *.
  assert (Hq1 : queue_ok (modify (set_cleaning_up 1) c) ps) by by apply (queue_ok_view c).
  unfold ws_connection_cleanup. change (negb (r_cleaning_up (w_request c) =? 0)) with false.
  rewrite (clear_spec _ _ Hq1). lazy -[evbuffer_get_length Z.eqb]. by destruct (evbuffer_get_length out =? 0).
Qed.
Lemma deferred_cleaned rs iw st sr pg inp out cc :
  exec_op OpDeferred (cleaned_conn rs iw st sr pg inp out CbNone cc 1) = Ret (released_conn rs iw st inp out cc).
Proof. by destruct sr, pg. Qed.

(** Releasing a connection nobody waits on.  When nothing is left to send,
    cleaning up schedules one deferred call that frees the connection, both
    registry references and every queued frame, and cleaning up again does
    nothing.  When output is pending, though, the flush callbacks that should
    wait for it return at once because the connection is already marked: then no
    sequence of operations ever frees the connection or drops its references. *)
Theorem ws_cleanup_release c :
  in_use c ->
  exists c', ws_connection_cleanup c = Ret c' /\
    (evbuffer_bytes (w_output c) = [] ->
       enabled OpDeferred c' /\ exists c2, exec_op OpDeferred c' = Ret c2 /\ w_evcon c2 = false /\
         r_self_ref (w_request c2) = false /\ r_prevent_gc_ref (w_request c2) = false /\ w_nodes c2 = ∅ /\
         ws_connection_cleanup c2 = Ret c2) /\
    (evbuffer_bytes (w_output c) <> [] ->
       forall c2, later c' c2 -> w_evcon c2 = true /\ r_self_ref (w_request c2) = r_self_ref (w_request c)).
Proof.
  intros Hu. pose proof Hu as [Hi _ _ _ _ _ _ _]. pose proof (i_queue c Hi) as (ps & Hq & _).
  pose proof (i_taken c Hi (i_cb c Hi (u_cb c Hu))) as Hrs.
  destruct (cleanup_evolves c Hi (i_cb c Hi (u_cb c Hu))) as (c0 & Hc0 & He0). apply e_inv in He0.
  destruct (in_use_conn c Hu) as (rs & iw & st & sr & pg & qh & qt & ql & nodes & inp & out & rd & cc & ->).
  rewrite (cleanup_used _ _ _ _ _ _ _ _ _ _ _ _ _ ps Hq) in Hc0 |- *.
  eexists. split; [reflexivity|]. cbn [used_conn w_output]. rewrite evbuffer_length_spec in *. split.
  - intros Hout. rewrite Hout. change (Zlen [] =? 0) with true. cbn match. split; [done|].
    eexists. split; [apply deferred_cleaned|]. by split_and!; [..|apply cleaned_again].
  - intros Hout c2 Hl. destruct (Z.eqb_spec (Zlen (evbuffer_bytes out)) 0) as [Hz|]; [by apply Zlen_zero in Hz|].
    injection Hc0 as <-.
    destruct (stuck_later _ c2 He0 (conj eq_refl (conj eq_refl (conj eq_refl (conj eq_refl Hrs)))) Hl) as (_ & Hs & Hr).
    split; [apply Hs|exact Hr].
Qed.

(** Collecting the server object frees its connections (httpd.c, [evhttp_free]) but
    tells the WebSockets on them nothing: the next frame sent is written to a freed
    bufferevent. *)
Theorem ws_server_collected c d rest :
  evbuffer_reliable (E := E) -> Zlen d < 2 ^ 63 -> in_use c -> r_ws_state (w_request c) = WsOpen ->
  lua_evhttp_request_websocket_send (rest :: [LStr d]) (evhttp_connection_free c) = UB.
Proof.
  intros Hrel Hd Hu Hst. pose proof (i_cb c (u_inv c Hu) (u_cb c Hu)) as Hw.
  set (c1 := evhttp_connection_free c).
  unfold lua_evhttp_request_websocket_send, not_open.
  change (r_is_websocket (w_request c1)) with (r_is_websocket (w_request c)).
  change (r_ws_state (w_request c1)) with (r_ws_state (w_request c)).
  change (r_ws_bev (w_request c1)) with (r_ws_bev (w_request c)). rewrite Hw, Hst, (u_bev c Hu).
  rewrite bool_decide_true by done. cbn [negb orb].
  destruct (create_frame_wire WS_OPCODE_TEXT (Some d) true Hrel ltac:(done) Hd) as (e & He & _).
  change (arg (rest :: [LStr d]) 2) with (LStr d). change (arg (rest :: [LStr d]) 3) with LNil.
  change (arg (rest :: [LStr d]) 4) with LNil. rewrite luaL_checklstring_str.
  change (send_frame (lit "Failed to create WebSocket frame") WS_OPCODE_TEXT (Some d) true c1 = UB).
  unfold send_frame. by rewrite He.
Qed.

(** ** Serving a stream of frames *)

Definition values_of (s : sframe) : list lua_value := [LStr (s_data s); LInt (s_opcode s)].
Definition is_data (s : sframe) : bool := (s_opcode s =? WS_OPCODE_TEXT) || (s_opcode s =? WS_OPCODE_BINARY).
Definition pong_of (s : sframe) : list Z := wire (mk_sframe true WS_OPCODE_PONG None (s_data s)).

(** What frames other than close do to the queue, as the script sees it, and to
    the output. *)
Definition deliver1 (s : sframe) (qo : list (list lua_value) * list Z) : list (list lua_value) * list Z :=
  let '(qs, out) := qo in
  if s_opcode s =? WS_OPCODE_PING then (qs, out ++ pong_of s)
  else if is_data s && (Zlen qs <? WS_MAX_QUEUED_FRAMES) then (qs ++ [values_of s], out)
  else (qs, out).
Fixpoint deliver (fs : list sframe) (qo : list (list lua_value) * list Z) : list (list lua_value) * list Z :=
  match fs with [] => qo | s :: fs => deliver fs (deliver1 s qo) end.

Lemma deliver_app fs1 fs2 qo : deliver (fs1 ++ fs2) qo = deliver fs2 (deliver fs1 qo).
Proof. revert qo; induction fs1 as [|s fs1 IH]; intros qo; cbn; auto. Qed.

(** An open connection nobody waits on, with this queue and output. *)
Record serving c (qo : list (list lua_value) * list Z) : Prop := {
  v_inv : winv c;
  v_ref : r_ref (w_request c) = None;
  v_open : r_ws_state (w_request c) = WsOpen;
  v_bev : r_ws_bev (w_request c) = true;
  v_ws : r_is_websocket (w_request c) = true;
  v_queue : exists ps, queue_ok c ps /\ map (fun p => frame_values (snd p)) ps = fst qo;
  v_out : evbuffer_bytes (w_output c) = snd qo
}.

Lemma frame_values_received s : frame_values (received s) = values_of s.
Proof.
  unfold frame_values, values_of, received. cbn. destruct (Z.ltb_spec 0 (Zlen (s_data s))); [done|].
  pose proof (Zlen_nonneg (s_data s)). assert (Hnil : Zlen (s_data s) = 0) by lia. apply Zlen_zero in Hnil. by rewrite Hnil.
Qed.
Lemma default_payload s : default [] (payload (received s)) = s_data s.
Proof.
  cbn. destruct (Z.ltb_spec 0 (Zlen (s_data s))); [done|].
  pose proof (Zlen_nonneg (s_data s)). symmetry. apply Zlen_zero. lia.
Qed.

(** Echoing a frame's payload writes one frame. *)
Lemma echo_output op s c :
  evbuffer_reliable (E := E) -> 0 <= op < 16 -> Zlen (s_data s) < 2 ^ 63 -> w_evcon c = true ->
  exists e, echo_frame op (received s) c = Ret (put_output e c) /\
    evbuffer_bytes e = evbuffer_bytes (w_output c) ++ wire (mk_sframe true op None (s_data s)).
Proof.
  intros Hrel Hop Hd Hev. unfold echo_frame, use_bev. rewrite Hev.
  destruct (create_frame_wire op (payload (received s)) true Hrel Hop) as (e & -> & He); [by rewrite default_payload|].
  rewrite default_payload in He. unfold write_frame. destruct Hrel as (_ & _ & Hw).
  destruct (bufferevent_write_buffer (w_output c) e) as [e'|] eqn:Ew; [|by apply Hw in Ew].
  exists e'. split; [done|]. by rewrite (bufferevent_write_spec _ _ _ Ew), He.
Qed.

Lemma handle_received s c qo :
  evbuffer_reliable (E := E) -> malloc SIZEOF_NODE <> None -> sframe_ok s -> s_opcode s <> WS_OPCODE_CLOSE -> serving c qo ->
  exists c', handle_frame resume peer (received s) c = Ret (true, c') /\ serving c' (deliver1 s qo) /\
    w_input c' = w_input c /\ core c' = core c.
Proof.
  intros Hrel HM [Hop _ [_ Hd]] Hcl [Hi Href Hst Hbev Hws (ps & Hq & Hqs) Hout]. destruct qo as [qs out]. cbn in Hqs, Hout.
  unfold handle_frame, deliver1, is_data. change (opcode (received s)) with (s_opcode s).
  destruct (Z.eqb_spec (s_opcode s) WS_OPCODE_PING).
  { rewrite Hbev, Hst. cbn [bool_decide andb].
    destruct (echo_output WS_OPCODE_PONG s c Hrel) as (eo & -> & He); [done|done|by apply (life_bev c (i_life c Hi))|]. eexists. split; [reflexivity|].
    split; [|done]. constructor; try done; [by apply (winv_same c)| |by rewrite <- Hout]. exists ps. split; [|done].
    by apply (queue_ok_view c). }
  destruct (Z.eqb_spec (s_opcode s) WS_OPCODE_PONG) as [Hpong|].
  { rewrite Hpong. cbn. eexists. split; [reflexivity|]. split; [|done]. constructor; try done. by exists ps. }
  destruct (Z.eqb_spec (s_opcode s) WS_OPCODE_CLOSE); [done|].
  destruct ((s_opcode s =? WS_OPCODE_TEXT) || (s_opcode s =? WS_OPCODE_BINARY)); cbn [andb].
  2: { eexists. split; [reflexivity|]. split; [|done]. constructor; try done. by exists ps. }
  assert (Hlen : Zlen qs = Zlen ps) by (rewrite <- Hqs; unfold Zlen; by rewrite length_map).
  rewrite Href, Hlen. pose proof (push_evolves (received s) c Hi Href) as (c' & Hpush & He).
  destruct (push_spec c ps (received s) Hq) as [(p & nodes & h & t & k & Hc' & Hq' & Hlt)|[Hc' [Hfull|Hmem]]]; [| |done];
    rewrite Hc' in Hpush |- *; injection Hpush as <-; eexists; (split; [reflexivity|]).
  - split; [|done]. destruct (Z.ltb_spec (Zlen ps) WS_MAX_QUEUED_FRAMES); [|lia].
    constructor; try done; [apply He|]. exists (ps ++ [(p, received s)]). split; [done|].
    rewrite map_app, Hqs. cbn [map snd]. by rewrite frame_values_received.
  - split; [|done]. destruct (Z.ltb_spec (Zlen ps) WS_MAX_QUEUED_FRAMES); [lia|].
    constructor; try done. by exists ps.
Qed.

(** Bytes that begin a frame but do not complete it. *)
Definition partial (p : list Z) : Prop := exists s q, sframe_ok s /\ wire s = p ++ q /\ q <> [].
Definition stream (fs : list sframe) : list Z := concat (map wire fs).

Lemma wire_long s : 2 <= Zlen (wire s).
Proof. unfold wire. zlen. pose proof (Zlen_nonneg (extended_length (Zlen (s_data s)))).
  pose proof (Zlen_nonneg (key_bytes (s_key s))). pose proof (Zlen_nonneg (masked_data (s_key s) (s_data s))). lia. Qed.

Lemma serving_input e c qo : serving c qo -> serving (put_input e c) qo.
Proof.
  intros [Hi Href Hst Hbev Hws (ps & Hq & Hqs) Hout]. constructor; try done; [by apply (winv_same c)|].
  exists ps. split; [by apply (queue_ok_view c)|done].
Qed.

Lemma read_loop_stream fuel stack fs p c qo M :
  evbuffer_reliable (E := E) -> mem_upto M -> SIZEOF_NODE <= M ->
  Forall (fun s => sframe_ok s /\ s_opcode s <> WS_OPCODE_CLOSE /\ Zlen (s_data s) <= M) fs -> partial p ->
  serving c qo -> evbuffer_bytes (w_input c) = stream fs ++ p -> Zlen (stream fs ++ p) <= Z.of_nat fuel ->
  exists c', read_loop resume peer fuel stack c = Ret c' /\ serving c' (deliver fs qo) /\
    evbuffer_bytes (w_input c') = p /\ core c' = core c.
Proof.
  intros Hrel HM HMn Hfs (s0 & q0 & Hs0 & Hw0 & Hq0). revert fuel c qo.
  induction Hfs as [|s fs (Hs & Hcl & Hsm) Hfs IH]; intros fuel c qo Hv Hin Hfuel.
  - cbn in Hin. assert (Hstop : forall c', (c' = c \/ c' = put_input (w_input c) c) ->
      serving c' qo /\ evbuffer_bytes (w_input c') = p /\ core c' = core c).
    { intros c' [->| ->]; [done|]. split; [by apply serving_input|done]. }
    destruct fuel as [|fuel]; cbn [read_loop]; rewrite evbuffer_length_spec, Hin.
    { cbn in Hfuel. destruct (Z.leb_spec (Zlen p) 0); [|lia]. eexists. split; [reflexivity|]. apply Hstop. by left. }
    destruct (Zlen p <=? 0); [eexists; split; [reflexivity|]; apply Hstop; by left|].
    rewrite (parse_prefix s0 p q0) by done. eexists. split; [reflexivity|]. apply Hstop. by right.
  - cbn [stream map concat] in Hin, Hfuel. fold (stream fs) in Hin, Hfuel.
    rewrite <- app_assoc in Hin, Hfuel. pose proof (wire_long s). rewrite Zlen_app in Hfuel.
    pose proof (Zlen_nonneg (stream fs ++ p)). destruct fuel as [|fuel]; [lia|]. cbn [read_loop].
    rewrite evbuffer_length_spec, Hin, Zlen_app. destruct (Z.leb_spec (Zlen (wire s) + Zlen (stream fs ++ p)) 0); [lia|].
    pose proof (Zlen_nonneg (s_data s)).
    destruct (parse_whole s (stream fs ++ p) stack (w_input c) Hs) as (input' & -> & Hin'); [apply HM; lia|done|].
    destruct (handle_received s (put_input input' c) qo Hrel) as (c1 & -> & Hv1 & Hin1 & Hcore1);
      [apply HM; unfold SIZEOF_NODE in *; lia|done|done|by apply serving_input|]. cbn [mbind outcome_bind].
    destruct (IH fuel c1 (deliver1 s qo) Hv1) as (c' & Hc' & Hv' & Hp' & Hcore'); [by rewrite Hin1| lia |].
    exists c'. split; [done|]. split; [done|]. split; [done|]. by rewrite Hcore', Hcore1.
Qed.

Lemma readcb_stream stack fs p c qo M :
  evbuffer_reliable (E := E) -> mem_upto M -> SIZEOF_NODE <= M ->
  Forall (fun s => sframe_ok s /\ s_opcode s <> WS_OPCODE_CLOSE /\ Zlen (s_data s) <= M) fs -> partial p ->
  serving c qo -> evbuffer_bytes (w_input c) = stream fs ++ p ->
  exists c', ws_readcb resume peer stack c = Ret c' /\ serving c' (deliver fs qo) /\
    evbuffer_bytes (w_input c') = p /\ core c' = core c.
Proof.
  intros Hrel HM HMn Hfs Hp Hv Hin. unfold ws_readcb. eapply read_loop_stream; try done.
  rewrite evbuffer_length_spec, Hin. lia.
Qed.

(** Where a cut falls in a stream of frames. *)
Lemma cut_stream fs p b r :
  Forall sframe_ok fs -> partial p -> b ++ r = stream fs ++ p ->
  exists fs1 fs2 p1, fs = fs1 ++ fs2 /\ b = stream fs1 ++ p1 /\ partial p1 /\ p1 ++ r = stream fs2 ++ p.
Proof.
  intros Hfs Hp. revert b. induction Hfs as [|s fs Hs Hfs IH]; intros b Hb.
  - cbn in Hb. exists [], [], b. split; [done|]. split; [done|]. split; [|done].
    destruct Hp as (s0 & q0 & Hs0 & Hw0 & Hq0). exists s0, (r ++ q0). split; [done|].
    split; [by rewrite app_assoc, Hb|]. intros [_ ?]%app_eq_nil. done.
  - cbn [stream map concat] in Hb. fold (stream fs) in Hb. rewrite <- app_assoc in Hb.
    apply app_eq_inv in Hb as [(k & -> & Hk)|(k & Hw & Hk)].
    + destruct (IH k (eq_sym Hk)) as (fs1 & fs2 & p1 & -> & -> & Hp1 & Hr).
      exists (s :: fs1), fs2, p1. split; [done|]. split; [|done]. cbn [stream map concat]. by rewrite <- app_assoc.
    + destruct (decide (k = [])) as [->|Hne].
      * rewrite app_nil_r in Hw. exists [s], fs, []. split; [done|]. split; [by cbn; rewrite !app_nil_r|].
        split; [|done]. exists s, (wire s). split; [done|]. split; [done|]. intros Hnil. pose proof (wire_long s) as Hl.
        by rewrite Hnil in Hl.
      * exists [], (s :: fs), b. split; [done|]. split; [done|]. split; [by exists s, k|].
        cbn [stream map concat]. fold (stream fs). by rewrite Hk, Hw, <- !app_assoc.
Qed.

(** Bytes arrive in chunks, each followed by the read callback. *)
Fixpoint feed (stack : list Z) (chunks : list (list Z)) c : outcome (wconn E K) :=
  match chunks with
  | [] => mret c
  | b :: chunks => c ← ws_readcb resume peer stack (put_input (evbuffer_put (w_input c) b) c); feed stack chunks c
  end.

(** A complete frame does not begin another one. *)
Lemma partial_no_frame (stack : list Z) (e : E) s rest :
  sframe_ok s -> malloc (Zlen (s_data s)) <> None -> evbuffer_bytes e = wire s ++ rest -> partial (evbuffer_bytes e) -> False.
Proof.
  intros Hs HM He (s0 & q0 & Hs0 & Hw0 & Hq0). destruct (parse_whole s rest stack e Hs HM He) as (e' & Hp & _).
  by rewrite (parse_prefix s0 (evbuffer_bytes e) q0) in Hp.
Qed.

(** C11: The receiver is insensitive to how the network cuts the stream: however
    the bytes of a sequence of frames (none of them a close frame) arrive, the
    script's queue gets the payload and opcode of every text and binary frame in
    order, up to 64 waiting ones, every ping is answered by one pong with its
    payload, in order, and exactly the bytes of the unfinished frame stay. *)
Theorem ws_stream_delivery stack b chunks fs p c qo M :
  evbuffer_reliable (E := E) -> mem_upto M -> SIZEOF_NODE <= M ->
  Forall (fun s => sframe_ok s /\ s_opcode s <> WS_OPCODE_CLOSE /\ Zlen (s_data s) <= M) fs -> partial p ->
  serving c qo -> evbuffer_bytes (w_input c) ++ concat (b :: chunks) = stream fs ++ p ->
  exists c', feed stack (b :: chunks) c = Ret c' /\ serving c' (deliver fs qo) /\
    evbuffer_bytes (w_input c') = p /\ core c' = core c.
Proof.
  intros Hrel HM HMn Hfs Hp. revert b fs c qo Hfs. induction chunks as [|b' chunks IH]; intros b fs c qo Hfs Hv Hin.
  all: rewrite (concat_cons b), app_assoc in Hin.
  all: destruct (cut_stream fs p (evbuffer_bytes (w_input c) ++ b) _ (Forall_impl _ _ _ Hfs (fun s Hs => proj1 Hs)) Hp Hin)
      as (fs1 & fs2 & p1 & -> & Hb & Hp1 & Hr).
  all: apply Forall_app in Hfs as [Hfs1 Hfs2].
  all: destruct (readcb_stream stack fs1 p1 (put_input (evbuffer_put (w_input c) b) c) qo M Hrel HM HMn Hfs1 Hp1)
      as (c1 & Hc1 & Hv1 & Hin1 & Hcore1); [by apply serving_input|by rewrite <- Hb; apply evbuffer_put_reliable|].
  all: cbn [feed]; rewrite Hc1; cbn [mbind outcome_bind]; rewrite deliver_app.
  - cbn in Hr. rewrite app_nil_r in Hr. destruct fs2 as [|s fs2].
    { exists c1. rewrite Hin1, Hr. done. }
    exfalso. apply Forall_cons in Hfs2 as [(Hs & _ & Hsm) _]. pose proof (Zlen_nonneg (s_data s)).
    apply (partial_no_frame stack (w_input c1) s (stream fs2 ++ p) Hs); [apply HM; lia| |by rewrite Hin1].
    rewrite Hin1, Hr. cbn [stream map concat]. by rewrite <- app_assoc.
  - rewrite <- Hin1 in Hr. destruct (IH b' fs2 c1 (deliver fs1 qo) Hfs2 Hv1 Hr) as (c2 & Hc2 & Hv2 & Hin2 & Hcore2).
    exists c2. split; [done|]. split; [done|]. split; [done|]. by rewrite Hcore2.
Qed.

(** A close frame ends the connection: it is echoed with the peer's payload,
    the state becomes closed and bytes behind it are not interpreted; and, since
    the echo is still to be sent when the connection is cleaned up, the
    connection is never freed afterwards. *)
Theorem ws_close_frame (stack : list Z) s rest c qo :
  evbuffer_reliable (E := E) -> malloc (Zlen (s_data s)) <> None -> sframe_ok s -> s_opcode s = WS_OPCODE_CLOSE ->
  serving c qo -> in_use c -> evbuffer_bytes (w_input c) = wire s ++ rest ->
  exists c', ws_readcb resume peer stack c = Ret c' /\ r_ws_state (w_request c') = WsClosed /\
    evbuffer_bytes (w_output c') = snd qo ++ wire (mk_sframe true WS_OPCODE_CLOSE None (s_data s)) /\
    evbuffer_bytes (w_input c') = rest /\ w_nodes c' = ∅ /\
    forall c2, later c' c2 -> w_evcon c2 = true /\ r_self_ref (w_request c2) = r_self_ref (w_request c).
Proof.
  intros Hrel HM Hs Hop Hv Hu Hin. pose proof Hs as [_ _ [_ Hd]]. pose proof (wire_long s) as Hlong.
  unfold ws_readcb. rewrite evbuffer_length_spec, Hin, Zlen_app. pose proof (Zlen_nonneg rest).
  destruct (Z.to_nat (Zlen (wire s) + Zlen rest)) as [|fuel] eqn:Hf; [lia|]. cbn [read_loop].
  rewrite evbuffer_length_spec, Hin, Zlen_app. destruct (Z.leb_spec (Zlen (wire s) + Zlen rest) 0); [lia|].
  destruct (parse_whole s rest stack (w_input c) Hs HM Hin) as (input' & -> & Hin').
  unfold handle_frame. change (opcode (received s)) with (s_opcode s). rewrite Hop. cbn [Z.eqb Pos.eqb].
  set (c1 := modify (set_ws_state WsClosed) (put_input input' c)).
  change (r_ws_bev (w_request c1)) with (r_ws_bev (w_request c)). rewrite (u_bev c Hu).
  destruct (echo_output WS_OPCODE_CLOSE s c1 Hrel) as (eo & -> & He); [done|done|apply (u_evcon c Hu)|].
  cbn [mbind outcome_bind].
  change (w_output c1) with (w_output c) in He. rewrite (v_out c qo Hv) in He.
  unfold finish. change (r_ref (w_request (put_output eo c1))) with (r_ref (w_request c)). rewrite (u_ref c Hu).
  assert (Hi2 : winv (put_output eo c1)).
  { apply (winv_same c); try done; [apply Hu|]. intros HN. by destruct (i_taken c (u_inv c Hu) (v_ws c qo Hv)). }
  assert (Hu2 : in_use (put_output eo c1)) by (constructor; [done|apply Hu..]).
  destruct (cleanup_evolves (put_output eo c1) Hi2 (i_cb _ Hi2 (u_cb _ Hu2))) as (c0 & Hc0 & He0).
  pose proof (i_queue _ Hi2) as (ps & Hq & _).
  pose proof (i_taken _ Hi2 (i_cb _ Hi2 (u_cb _ Hu2))) as Hrs.
  assert (Hself : r_self_ref (w_request (put_output eo c1)) = r_self_ref (w_request c)) by done.
  assert (Hst : r_ws_state (w_request (put_output eo c1)) = WsClosed) by done.
  change eo with (w_output (put_output eo c1)) in He. change input' with (w_input (put_output eo c1)) in Hin'.
  destruct (in_use_conn _ Hu2) as (rs & iw & st & sr & pg & qh & qt & ql & nodes & inp & out & rd & cc & Heq).
  rewrite Heq in *. rewrite (cleanup_used _ _ _ _ _ _ _ _ _ _ _ _ _ ps Hq) in Hc0 |- *.
  cbn [used_conn w_output w_input w_request r_self_ref r_ws_state] in He, Hin', Hself, Hst.
  assert (Hz : (Zlen (evbuffer_bytes out) =? 0) = false).
  { rewrite He, Zlen_app. pose proof (Zlen_nonneg (snd qo)). pose proof (wire_long (mk_sframe true WS_OPCODE_CLOSE None (s_data s))). lia. }
  rewrite evbuffer_length_spec, Hz in Hc0 |- *. injection Hc0 as <-. cbn [mbind outcome_bind].
  eexists. split; [reflexivity|]. split; [done|]. split; [done|]. split; [done|]. split; [done|].
  intros c2 Hl.
  destruct (stuck_later _ c2 (e_inv _ _ He0) (conj eq_refl (conj eq_refl (conj eq_refl (conj eq_refl Hrs)))) Hl) as (_ & Hsk & Hr).
  split; [apply Hsk|]. rewrite Hr. exact Hself.
Qed.

(** ** Accepting *)

(** The handshake.  A valid upgrade request that is still unanswered is
    accepted when memory lasts: the response carries base64(SHA1(key + GUID)) for
    a key of the 24 characters the protocol prescribes, the state becomes open
    and the connection is taken over from the HTTP server; any other request is
    refused and nothing changes.  A longer key is hashed with a truncated GUID. *)
Theorem ws_accept c key M :
  evbuffer_reliable (E := E) -> winv c -> r_req (w_request c) = true -> w_evcon c = true ->
  r_mainthread (w_request c) = true -> r_cleaning_up (w_request c) = 0 -> w_pending c = O -> r_ref (w_request c) = None ->
  peer (lit "Sec-WebSocket-Key") = Some key -> (forall x, Zlen (base64 (SHA1 x)) < M) -> mem_upto M ->
  let hashed := cstr (ztake 60 (cstr key ++ WEBSOCKET_MAGIC_STRING)) in
  if is_websocket_upgrade_request peer && bool_decide (r_reply_status (w_request c) = RNone) then
    exists c', lua_evhttp_request_websocket_accept peer c = Ret (Values [LBool true], c') /\ in_use c' /\
      r_ws_state (w_request c') = WsOpen /\
      evbuffer_bytes (w_output c') = evbuffer_bytes (w_output c) ++ switching_protocols (base64 (SHA1 hashed)) /\
      (Zlen (cstr key) = 24 -> hashed = cstr key ++ WEBSOCKET_MAGIC_STRING)
  else exists e, lua_evhttp_request_websocket_accept peer c = Ret (Error e, c).
Proof.
  intros Hrel Hi Hreq Hev Hmt Hcl Hpd Href Hkey HM1 HM hashed.
  destruct (accept_scripted c Hi) as (a & c' & Hac & [Ha _]). apply e_inv in Ha. revert Hac.
  unfold lua_evhttp_request_websocket_accept, use_req, use_bev. rewrite Hreq, Hev. cbn [negb orb].
  destruct (bool_decide (r_reply_status (w_request c) = RNone)); [|rewrite andb_false_r; by eexists].
  destruct (is_websocket_upgrade_request peer); [|by eexists]. cbn [andb negb]. rewrite Hkey.
  unfold generate_websocket_accept_key. change (WEBSOCKET_KEY_LEN + WEBSOCKET_GUID_LEN + 1) with 61.
  unfold snprintf. change (61 - 1) with 60. fold hashed.
  pose proof (Zlen_nonneg (base64 (SHA1 hashed))). specialize (HM1 hashed).
  destruct (malloc (Zlen (base64 (SHA1 hashed)) + 1)) eqn:Em; [|exfalso; eapply HM; [|exact Em]; lia].
  pose proof Hrel as ((e0 & He0) & _ & Hwr). rewrite He0. cbn [modify put_request w_evcon]. rewrite Hev.
  set (e1 := evbuffer_put e0 _). unfold write_frame. change (w_output (modify (set_owns_request true) c)) with (w_output c).
  destruct (bufferevent_write_buffer (w_output c) e1) as [e2|] eqn:Ew; [|by apply Hwr in Ew].
  intros [= _ <-]. eexists. split; [reflexivity|]. split; [by constructor|]. split; [done|]. split.
  - cbn. rewrite (bufferevent_write_spec _ _ _ Ew). unfold e1. by rewrite evbuffer_put_reliable, (evbuffer_new_bytes _ He0).
  - intros Hlen. unfold hashed. rewrite ztake_all by (rewrite Zlen_app, Hlen; by vm_compute). apply cstr_app_ascii.
Qed.
End Invariant.

(** ** Witnesses *)

#[local] Existing Instances list_evbuffer zero_alloc plain_lua.

Definition plain_digest : Digest := {| SHA1 := ztake 20; base64 := fun x => x |}.
#[local] Existing Instance plain_digest.

(** A coroutine that ends when it is resumed; a browser's handshake. *)
Definition ending : unit -> list lua_value -> wscript unit := fun _ _ => WReturn.
Definition browser (name : list Z) : option (list Z) :=
  if decide (name = lit "Upgrade") then Some (lit "websocket")
  else if decide (name = lit "Connection") then Some (lit "keep-alive, Upgrade")
  else if decide (name = lit "Sec-WebSocket-Version") then Some (lit "13")
  else if decide (name = lit "Sec-WebSocket-Key") then Some (lit "dGhlIHNhbXBsZSBub25jZQ==")
  else None.

(** A masked "hi", an empty ping, a close frame. *)
Definition hi_frame : sframe := mk_sframe true 1 (Some [1; 2; 3; 4]) (lit "hi").
Definition ping_frame : sframe := mk_sframe true 9 None [].
Definition bye_frame : sframe := mk_sframe true 8 None [3; 232].

Lemma hi_frame_ok : sframe_ok hi_frame.
Proof.
  constructor; [cbn; lia| |split; [|by vm_compute]].
  - split; [|done]. apply (bool_decide_unpack _). by vm_compute.
  - apply (bool_decide_unpack _). by vm_compute.
Qed.
Lemma ping_frame_ok : sframe_ok ping_frame.
Proof. constructor; [cbn; lia|done|split; [apply (bool_decide_unpack _); by vm_compute|by vm_compute]]. Qed.
Lemma bye_frame_ok : sframe_ok bye_frame.
Proof. constructor; [cbn; lia|done|split; [apply (bool_decide_unpack _); by vm_compute|by vm_compute]]. Qed.

Lemma websocket_frame_roundtrip_witness :
  exists input', websocket_parse_frame [] (wire hi_frame ++ [7]) = (Parsed (received hi_frame), input') /\
    evbuffer_bytes input' = [7].
Proof.
  apply (websocket_frame_roundtrip hi_frame [7] [] (wire hi_frame ++ [7])); [apply list_evbuffer_reliable| |apply hi_frame_ok|done].
  intros n Hn. apply (zero_alloc_upto n). change (Zlen (s_data hi_frame)) with 2 in Hn. lia.
Defined.

Lemma websocket_safe_witness :
  let c := ws_start (K := unit) ([] : list Z) [] in
  exists c' ps, exec_op ending browser (OpRun (WCall WAccept (fun _ => WReceive (fun _ => WReturn) tt))) c = Ret c' /\
    queue_ok c' ps /\ Zlen ps <= WS_MAX_QUEUED_FRAMES /\ (r_ref (w_request c') <> None -> ps = []) /\
    rank (r_ws_state (w_request c)) <= rank (r_ws_state (w_request c')).
Proof.
  apply (websocket_safe ending browser (OpRun (WCall WAccept (fun _ => WReceive (fun _ => WReturn) tt))) (ws_start [] []));
    [apply ws_reach_start|reflexivity].
Defined.

(** An accepted connection with [out] still to be sent. *)
Definition sample_conn (inp out : list Z) : wconn (list Z) unit :=
  used_conn RReplyed true WsOpen true true None None 0 ∅ inp out true false.

Lemma sample_queue inp out : queue_ok (sample_conn inp out) [].
Proof.
  apply (queue_ok_view (put_queue ∅ None None 0 (sample_conn inp out))); [done|by apply queue_empty].
Qed.
Lemma sample_in_use inp out : in_use (sample_conn inp out).
Proof.
  constructor; try done. constructor; try done; [|by split; [exists InUse|]].
  exists []. split; [apply sample_queue|done].
Qed.
Lemma sample_serving inp out : serving (sample_conn inp out) ([], out).
Proof.
  constructor; try done; [apply (u_inv _ (sample_in_use inp out))|]. exists []. split; [apply sample_queue|done].
Qed.

Lemma ws_server_collected_witness :
  lua_evhttp_request_websocket_send [LTable 1; LStr (lit "hi")] (evhttp_connection_free (sample_conn [] [])) = UB.
Proof.
  apply (ws_server_collected (sample_conn [] []) (lit "hi") (LTable 1) list_evbuffer_reliable);
    [by vm_compute|apply sample_in_use|reflexivity].
Defined.

Lemma ws_cleanup_release_witness :
  exists c', ws_connection_cleanup (sample_conn [] []) = Ret c' /\
    enabled (E := list Z) (K := unit) OpDeferred c' /\
    exists c2, exec_op ending browser OpDeferred c' = Ret c2 /\ w_evcon c2 = false.
Proof.
  destruct (ws_cleanup_release ending browser (sample_conn [] []) (sample_in_use [] [])) as (c' & Hc & Hfree & _).
  destruct (Hfree eq_refl) as (Hen & c2 & Hc2 & Hev & _). exists c'. split; [exact Hc|]. split; [exact Hen|].
  by exists c2.
Defined.

(** The stream arrives in three pieces, the last frame unfinished. *)
Lemma ws_stream_delivery_witness :
  let bytes := stream [hi_frame; ping_frame] ++ [129] in
  exists c', feed ending browser [] [ztake 3 bytes; ztake 4 (zdrop 3 bytes); zdrop 7 bytes] (sample_conn [] []) = Ret c' /\
    serving c' ([values_of hi_frame], pong_of ping_frame) /\ evbuffer_bytes (w_input c') = [129] /\
    core c' = core (sample_conn [] []).
Proof.
  apply (ws_stream_delivery ending browser [] (ztake 3 (stream [hi_frame; ping_frame] ++ [129]))
    [ztake 4 (zdrop 3 (stream [hi_frame; ping_frame] ++ [129])); zdrop 7 (stream [hi_frame; ping_frame] ++ [129])]
    [hi_frame; ping_frame] [129] (sample_conn [] []) ([], []) (2 ^ 40)).
  - apply list_evbuffer_reliable.
  - apply zero_alloc_upto.
  - by vm_compute.
  - apply Forall_cons; split; [split; [apply hi_frame_ok|split; [by vm_compute|by vm_compute]]|].
    apply Forall_cons; split; [split; [apply ping_frame_ok|split; [by vm_compute|by vm_compute]]|apply Forall_nil; done].
  - exists (mk_sframe true 1 None []), [0]. split; [|split; [by vm_compute|done]].
    constructor; [cbn; lia|done|split; [apply (bool_decide_unpack _); by vm_compute|by vm_compute]].
  - apply sample_serving.
  - by vm_compute.
Defined.

Lemma ws_close_frame_witness :
  exists c', ws_readcb ending browser [] (sample_conn (wire bye_frame) []) = Ret c' /\
    r_ws_state (w_request c') = WsClosed /\
    forall c2, later ending browser c' c2 -> w_evcon c2 = true.
Proof.
  assert (Hm : malloc (Zlen (s_data bye_frame)) <> None) by discriminate.
  destruct (ws_close_frame ending browser [] bye_frame [] (sample_conn (wire bye_frame) []) ([], [])
    list_evbuffer_reliable Hm bye_frame_ok eq_refl (sample_serving (wire bye_frame) [])
    (sample_in_use (wire bye_frame) []) ltac:(by rewrite app_nil_r)) as (c' & Hc & Hst & _ & _ & _ & Hl).
  exists c'. split; [exact Hc|]. split; [exact Hst|]. intros c2 H2. apply (Hl c2 H2).
Defined.

Lemma ws_accept_witness :
  let c := ws_start (K := unit) ([] : list Z) [] in
  exists c', lua_evhttp_request_websocket_accept browser c = Ret (Values [LBool true], c') /\ in_use c' /\
    r_ws_state (w_request c') = WsOpen.
Proof.
  destruct (ws_accept (K := unit) browser (ws_start [] []) (lit "dGhlIHNhbXBsZSBub25jZQ==") (2 ^ 40) list_evbuffer_reliable
    (start_inv [] []) eq_refl eq_refl eq_refl eq_refl eq_refl eq_refl ltac:(by vm_compute)) as (c' & Hc & Hu & Hst & _).
  - intros x. cbn. unfold ztake, Zlen. rewrite length_take. lia.
  - apply zero_alloc_upto.
  - by exists c'.
Defined.
