(* ===== verification/TcpdConfig.v ===== *)
(** * src/tcpd_config.c, src/conn_config.h, src/tcpd_error.c

    The settings of a TCP connection as read from a Lua table, the socket options
    they turn into, and the errors a connection reports.  Sockets are not under
    src/: a call of [setsockopt] is a value of [sockopt], and whether it succeeds
    is an argument. *)

From S2P Require Import Prelude Lua LuaState Double.

(** ** Settings *)

(** Timeouts are the patterns of doubles; flags that are only tested are
    booleans. *)
Record tcpd_config_t : Type := mk_config {
  send_buffer_size : Z;
  receive_buffer_size : Z;
  keepalive_enabled : bool;
  keepalive_idle : Z;
  keepalive_interval : Z;
  keepalive_count : Z;
  read_timeout : Z;
  write_timeout : Z;
  interface : Z;
  ssl_enabled : bool;
  ssl_verifyhost : Z;
  ssl_verifypeer : Z;
  callback_self_first : bool
}.

Definition tcpd_config_init : tcpd_config_t := mk_config 0 0 false 0 0 0 0 0 0 false 0 0 false.
Definition tcpd_config_set_defaults : tcpd_config_t := mk_config 0 0 false 7200 75 9 0 0 0 false 1 1 false.

Section Config.
Context {T : Type} `{LuaTable T} `{LuaAPI}.

(** [lua_getfield] on a table without metatable. *)
Definition field_of (t : T) (key : string) : lua_value := t_get t (LStr (lit key)).

(** [if (lua_isnumber(L, -1)) x = (int)lua_tointeger(L, -1)]. *)
Definition int_field (t : T) (key : string) (default : Z) : Z :=
  let v := field_of t key in if lua_isnumber v then s32 (lua_tointeger v) else default.
Definition number_field (t : T) (key : string) (d : Z) : Z :=
  let v := field_of t key in if lua_isnumber v then default 0 (lua_tonumberx v) else d.

(** [if_nametoindex] returns an unsigned number, kept in an [int]. *)
Definition tcpd_config_from_lua_table (if_nametoindex : list Z -> Z) (t : T) : tcpd_config_t :=
  let d := tcpd_config_set_defaults in
  let keepalive := lua_toboolean (field_of t "keepalive") in
  let ssl := lua_toboolean (field_of t "ssl") in
  mk_config
    (int_field t "send_buffer_size" (send_buffer_size d))
    (int_field t "receive_buffer_size" (receive_buffer_size d))
    keepalive
    (if keepalive then int_field t "keepalive_idle" (keepalive_idle d) else keepalive_idle d)
    (if keepalive then int_field t "keepalive_interval" (keepalive_interval d) else keepalive_interval d)
    (if keepalive then int_field t "keepalive_count" (keepalive_count d) else keepalive_count d)
    (number_field t "read_timeout" (read_timeout d))
    (number_field t "write_timeout" (write_timeout d))
    (let v := field_of t "interface" in
     if lua_isstring v then s32 (if_nametoindex (default [] (lua_tostring v))) else interface d)
    ssl
    (if ssl then int_field t "ssl_verifyhost" (ssl_verifyhost d) else ssl_verifyhost d)
    (if ssl then int_field t "ssl_verifypeer" (ssl_verifypeer d) else ssl_verifypeer d)
    (lua_toboolean (field_of t "callback_self_first")).
End Config.

(** ** Socket options *)

Inductive sockopt : Type :=
  | SO_KEEPALIVE (v : Z)
  | TCP_KEEPIDLE (v : Z)
  | TCP_KEEPINTVL (v : Z)
  | TCP_KEEPCNT (v : Z)
  | SO_SNDBUF (v : Z)
  | SO_RCVBUF (v : Z)
  | ReadWatermark (v : Z).

Section Options.
Context (setsockopt : Z -> sockopt -> bool).

(** The calls made, in order, and the result. *)
Definition applied : Type := Z * list sockopt.
Definition try_opt (fd : Z) (o : sockopt) (k : applied) : applied :=
  if setsockopt fd o then (fst k, o :: snd k) else (-1, [o]).
Definition when (b : bool) (f : applied -> applied) (k : applied) : applied := if b then f k else k.

Definition tcpd_config_apply_keepalive (config : tcpd_config_t) (fd : Z) : applied :=
  if negb (keepalive_enabled config) then (0, [])
  else
    try_opt fd (SO_KEEPALIVE 1) (
    when (0 <? keepalive_idle config) (try_opt fd (TCP_KEEPIDLE (keepalive_idle config))) (
    when (0 <? keepalive_interval config) (try_opt fd (TCP_KEEPINTVL (keepalive_interval config))) (
    when (0 <? keepalive_count config) (try_opt fd (TCP_KEEPCNT (keepalive_count config))) (0, [])))).

(** The size helpers of conn_config.h do nothing for a closed socket. *)
Definition conn_config_apply_sndbuf (fd size : Z) (k : applied) : applied :=
  if (fd <? 0) || (size <=? 0) then k else try_opt fd (SO_SNDBUF size) k.
Definition conn_config_apply_rcvbuf (fd size : Z) (k : applied) : applied :=
  if (fd <? 0) || (size <=? 0) then k else try_opt fd (SO_RCVBUF size) k.

(** [bufferevent_setwatermark] cannot fail. *)
Definition tcpd_config_apply_buffers (config : tcpd_config_t) (fd : Z) : applied :=
  conn_config_apply_sndbuf fd (send_buffer_size config) (
    if 0 <? receive_buffer_size config
    then let '(r, l) := conn_config_apply_rcvbuf fd (receive_buffer_size config) (0, []) in
         (r, ReadWatermark (receive_buffer_size config) :: l)
    else (0, [])).
End Options.

(** ** Errors *)

Inductive tcpd_error_type_t : Type :=
  | TCPD_ERROR_NONE | TCPD_ERROR_TIMEOUT | TCPD_ERROR_CONNECTION_RESET | TCPD_ERROR_DNS_FAILED
  | TCPD_ERROR_SSL_ERROR | TCPD_ERROR_EOF | TCPD_ERROR_UNKNOWN.

Record tcpd_error_t : Type := mk_error {
  e_type : tcpd_error_type_t;
  e_message : option (list Z);
  e_system : Z
}.

Inductive tcpd_conn_type_t : Type := TCPD_CONN_TYPE_CLIENT | TCPD_CONN_TYPE_ACCEPT | TCPD_CONN_TYPE_SERVER.
#[export] Instance tcpd_conn_type_eq_dec : EqDecision tcpd_conn_type_t.
Proof. solve_decision. Defined.

Definition error_type_strings (t : tcpd_error_type_t) : list Z :=
  match t with
  | TCPD_ERROR_NONE => lit "no error"
  | TCPD_ERROR_TIMEOUT => lit "timeout"
  | TCPD_ERROR_CONNECTION_RESET => lit "connection reset by peer"
  | TCPD_ERROR_DNS_FAILED => lit "DNS resolution failed"
  | TCPD_ERROR_SSL_ERROR => lit "SSL error"
  | TCPD_ERROR_EOF => lit "connection closed"
  | TCPD_ERROR_UNKNOWN => lit "unknown error"
  end.

Definition tcpd_error_to_string (error : tcpd_error_t) : list Z :=
  match e_message error with Some m => m | None => error_type_strings (e_type error) end.
Definition tcpd_error_cleanup (error : tcpd_error_t) : tcpd_error_t := mk_error TCPD_ERROR_NONE None 0.

(** [strdup] succeeds; the texts of libevent's error codes are arguments. *)
Definition tcpd_error_from_socket_error (text : Z -> list Z) (error_code : Z) : tcpd_error_t :=
  mk_error TCPD_ERROR_CONNECTION_RESET (Some (text error_code)) error_code.
Definition timeout_message (reading writing : bool) : list Z :=
  if reading then lit "read timeout" else if writing then lit "write timeout" else lit "unknown timeout".
Definition tcpd_error_timeout (reading writing : bool) : tcpd_error_t :=
  mk_error TCPD_ERROR_TIMEOUT (Some (timeout_message reading writing)) 0.
Definition tcpd_error_dns (text : Z -> list Z) (dns_error : Z) : tcpd_error_t :=
  mk_error TCPD_ERROR_DNS_FAILED (Some (text dns_error)) dns_error.
Definition tcpd_error_eof (conn_type : tcpd_conn_type_t) : tcpd_error_t :=
  mk_error TCPD_ERROR_EOF (Some
    match conn_type with
    | TCPD_CONN_TYPE_ACCEPT => lit "client disconnected"
    | TCPD_CONN_TYPE_CLIENT => lit "server disconnected"
    | TCPD_CONN_TYPE_SERVER => lit "connection closed"
    end) 0.
(** The buffer holds [strlen(msg) + 12] characters: "SSLError: " is ten. *)
Definition tcpd_error_ssl (ssl_error_msg : option (list Z)) : tcpd_error_t :=
  mk_error TCPD_ERROR_SSL_ERROR (Some
    match ssl_error_msg with
    | Some m => snprintf (Zlen m + 12) (lit "SSLError: " ++ m)
    | None => lit "SSL error"
    end) 0.

(** ** What the settings can be *)

Definition in_int (z : Z) : Prop := - 2 ^ 31 <= z < 2 ^ 31.
Definition opt_value (o : sockopt) : Z :=
  match o with
  | SO_KEEPALIVE v | TCP_KEEPIDLE v | TCP_KEEPINTVL v | TCP_KEEPCNT v | SO_SNDBUF v | SO_RCVBUF v | ReadWatermark v => v
  end.
Definition opt_ok (o : sockopt) : Prop := 0 < opt_value o < 2 ^ 31.
Definition sized (o : sockopt) : bool := match o with SO_SNDBUF _ | SO_RCVBUF _ => true | _ => false end.

Lemma s32_in_int z : in_int (s32 z).
Proof. unfold in_int, s32. pose proof (Z.mod_pos_bound (z + 2 ^ 31) (2 ^ 32) ltac:(lia)). lia. Qed.

Section Typed.
Context {T : Type} `{LuaTable T} `{LuaAPI} (setsockopt : Z -> sockopt -> bool).

Lemma int_field_in_int t key d : in_int d -> in_int (int_field t key d).
Proof. intros Hd. unfold int_field. case_match; [apply s32_in_int|done]. Qed.

(** What a chain of calls has made of itself: the options are positive, and the
    result is 0 just when all calls succeeded, the first failure ending it. *)
Definition applied_ok (fd : Z) (k : applied) : Prop :=
  Forall opt_ok (snd k) /\ (fst k = 0 \/ fst k = -1) /\ (fst k = 0 <-> Forall (fun o => setsockopt fd o = true) (snd k)).

Lemma applied_nil fd : applied_ok fd (0, []).
Proof. split; [by apply Forall_nil|]. split; [by left|]. split; [intros _; by apply Forall_nil|done]. Qed.
Lemma try_opt_ok fd o k : opt_ok o -> applied_ok fd k -> applied_ok fd (try_opt setsockopt fd o k).
Proof.
  intros Ho (H1 & H2 & H3). unfold try_opt. destruct (setsockopt fd o) eqn:E; (split; [apply Forall_cons; split; [done|]|]); cbn [fst snd].
  - done.
  - split; [done|]. rewrite H3, Forall_cons. tauto.
  - by apply Forall_nil.
  - split; [by right|]. rewrite Forall_cons. split; [done|]. intros [? _]. congruence.
Qed.
Lemma when_opt_ok fd v o k : in_int v -> opt_value o = v -> applied_ok fd k -> applied_ok fd (when (0 <? v) (try_opt setsockopt fd o) k).
Proof. intros Hv Ho Hk. unfold when. destruct (Z.ltb_spec 0 v); [|done]. apply try_opt_ok; [|done]. unfold opt_ok, in_int in *. lia. Qed.

(** Settings and options are well typed.  Whatever a script puts into the
    table, the settings read from it are C integers; every option set from them is
    a positive one; keepalive calls are made only when asked for, stop at the first
    failure, and report it; a connection whose socket does not exist yet (a client
    that waits for the resolver) has no socket buffer sized. *)
Theorem tcpd_config_typed if_nametoindex t fd :
  let c := tcpd_config_from_lua_table if_nametoindex t in
  Forall in_int [send_buffer_size c; receive_buffer_size c; keepalive_idle c; keepalive_interval c; keepalive_count c;
    interface c; ssl_verifyhost c; ssl_verifypeer c] /\
  applied_ok fd (tcpd_config_apply_keepalive setsockopt c fd) /\
  Forall opt_ok (snd (tcpd_config_apply_buffers setsockopt c fd)) /\
  (keepalive_enabled c = false -> snd (tcpd_config_apply_keepalive setsockopt c fd) = []) /\
  (fd < 0 -> Forall (fun o => sized o = false) (snd (tcpd_config_apply_buffers setsockopt c fd))).
Proof.
  intros c. assert (Hs : in_int (send_buffer_size c)) by (by apply int_field_in_int).
  assert (Hr : in_int (receive_buffer_size c)) by (by apply int_field_in_int).
  assert (Hki : in_int (keepalive_idle c)) by (cbn; case_match; first [by apply int_field_in_int|done]).
  assert (Hkn : in_int (keepalive_interval c)) by (cbn; case_match; first [by apply int_field_in_int|done]).
  assert (Hkc : in_int (keepalive_count c)) by (cbn; case_match; first [by apply int_field_in_int|done]).
  split.
  { repeat (apply Forall_cons; split; [first [done|cbn; case_match; first [apply s32_in_int|by apply int_field_in_int|done]]|]). by apply Forall_nil. }
  clearbody c. split; [|split; [|split]].
  - unfold tcpd_config_apply_keepalive. destruct (keepalive_enabled c); [|apply applied_nil]. cbn [negb].
    apply try_opt_ok; [done|]. do 3 (apply when_opt_ok; [done|done|]). apply applied_nil.
  - unfold tcpd_config_apply_buffers, conn_config_apply_sndbuf, conn_config_apply_rcvbuf.
    assert (Hrest : Forall opt_ok (snd (if 0 <? receive_buffer_size c then
      let '(r, l) := if (fd <? 0) || (receive_buffer_size c <=? 0) then (0, []) else try_opt setsockopt fd (SO_RCVBUF (receive_buffer_size c)) (0, []) in
      (r, ReadWatermark (receive_buffer_size c) :: l) else (0, [])))).
    { destruct (Z.ltb_spec 0 (receive_buffer_size c)); [|by apply Forall_nil]. assert (Hw : 0 < receive_buffer_size c < 2 ^ 31) by (unfold in_int in Hr; lia).
      unfold try_opt. repeat case_match; simplify_eq/=; repeat (apply Forall_cons; split; [done|]); by apply Forall_nil. }
    destruct ((fd <? 0) || (send_buffer_size c <=? 0)) eqn:E0; [exact Hrest|]. unfold try_opt. assert (Hw : opt_ok (SO_SNDBUF (send_buffer_size c))) by (unfold opt_ok, in_int in *; cbn; lia).
    destruct (setsockopt fd _); cbn [snd]; apply Forall_cons; (split; [done|]); [exact Hrest|by apply Forall_nil].
  - intros E. unfold tcpd_config_apply_keepalive. by rewrite E.
  - intros Hfd. unfold tcpd_config_apply_buffers, conn_config_apply_sndbuf, conn_config_apply_rcvbuf.
    replace (fd <? 0) with true by lia. cbn [orb]. case_match; [|by apply Forall_nil]. apply Forall_cons. split; [done|by apply Forall_nil].
Qed.
End Typed.

(** Three settings of a client whose socket does not exist yet: no buffer is sized. *)
Definition sample_settings : alist :=
  [(LStr (lit "send_buffer_size"), LInt (2 ^ 40 + 4096)); (LStr (lit "keepalive"), LBool true); (LStr (lit "keepalive_idle"), LInt (-1))].
Lemma tcpd_config_typed_witness :
  let c := @tcpd_config_from_lua_table _ assoc_table plain_lua (fun _ => 0) sample_settings in
  send_buffer_size c = 4096 /\ snd (tcpd_config_apply_buffers (fun _ _ => true) c (-1)) = [] /\
  Forall (fun o => sized o = false) (snd (tcpd_config_apply_buffers (fun _ _ => true) c (-1))).
Proof.
  split; [vm_compute; reflexivity|]. split; [vm_compute; reflexivity|].
  apply (@tcpd_config_typed _ assoc_table plain_lua (fun _ _ => true) (fun _ => 0) sample_settings (-1)). reflexivity.
Defined.
