(* ===== verification/Loop.v ===== *)
(** * What an object of the program holds of its surroundings

    References in the Lua registry, open descriptors, and events in libevent's
    event base.  Giving back what is not held has no meaning.  [owns] says that an
    object holds exactly what its fields say, and every operation has a lemma about
    it; the class [Object] is what a component offers to have its callbacks called
    ([fan_call], from [fan_cb_setup] to [FAN_CB_CLEANUP] in src/utlua.h). *)

From S2P Require Import Prelude Lua LuaState Double Registry TcpdConfig.

(** The size of the buffers that descriptors are read into. *)
Definition READ_BUFF_LEN : Z := 64 * 1024.

(** A live event: the descriptor, which readiness it waits for, and whether it is
    in the event base. *)
Record uevent : Type := mk_uevent { ue_fd : Z; ue_write : bool; ue_added : bool }.

Record os : Type := mk_os {
  o_reg : gmap positive regval;
  o_fds : gset Z;
  o_events : gmap positive uevent
}.

Section Operations.
Implicit Type o : os.

Definition set_reg r o : os := mk_os r (o_fds o) (o_events o).
Definition set_fds f o : os := mk_os (o_reg o) f (o_events o).
Definition set_evs e o : os := mk_os (o_reg o) (o_fds o) e.

Definition os_ref (v : regval) o : positive * os :=
  let r := fresh (dom (o_reg o)) in (r, set_reg (<[r := v]> (o_reg o)) o).
(** [SET_FUNC_REF_FROM_TABLE]: only a function is kept. *)
Definition os_func_ref {T : Type} `{LuaTable T} (t : T) (key : string) o : option positive * os :=
  match field_of t key with LFun k => let '(r, o) := os_ref (RFun k) o in (Some r, o) | _ => (None, o) end.
Definition os_unref (r : positive) o : outcome os :=
  match o_reg o !! r with Some _ => Ret (set_reg (delete r (o_reg o)) o) | None => UB end.
Definition os_unref_opt (r : option positive) o : outcome os := match r with Some r => os_unref r o | None => Ret o end.

Definition os_open (fd : Z) o : os := set_fds ({[fd]} ∪ o_fds o) o.
Definition os_close (fd : Z) o : outcome os :=
  if decide (fd ∈ o_fds o) then Ret (set_fds (o_fds o ∖ {[fd]}) o) else UB.
(** [if (fd >= 0) close(fd)] *)
Definition os_close_fd (fd : Z) o : outcome os := if 0 <=? fd then os_close fd o else Ret o.

Definition os_event_new (fd : Z) (write : bool) o : positive * os :=
  let p := fresh (dom (o_events o)) in (p, set_evs (<[p := mk_uevent fd write false]> (o_events o)) o).
(** [event_add], and an event that leaves the base. *)
Definition os_event_mark (added : bool) (p : positive) o : outcome os :=
  match o_events o !! p with
  | Some e => Ret (set_evs (<[p := mk_uevent (ue_fd e) (ue_write e) added]> (o_events o)) o)
  | None => UB
  end.
(** [event_new] and [event_add]; there is no event without memory for it, and adding
    a null pointer has no meaning. *)
Definition os_watch (ok : bool) (fd : Z) (write : bool) o : outcome (positive * os) :=
  if negb ok then UB
  else let '(p, o) := os_event_new fd write o in o ← os_event_mark true p o; mret (p, o).
Definition os_event_free (p : positive) o : outcome os :=
  match o_events o !! p with Some _ => Ret (set_evs (delete p (o_events o)) o) | None => UB end.
Definition os_free_opt (p : option positive) o : outcome os := match p with Some p => os_event_free p o | None => Ret o end.
End Operations.

(** ** Holding exactly something *)

Definition ev_list (p : option positive) (fd : Z) (write : bool) : list (positive * (Z * bool)) :=
  match p with Some p => [(p, (fd, write))] | None => [] end.
Definition fd_set (fd : Z) : gset Z := if 0 <=? fd then {[fd]} else ∅.

Record owns (F : gmap positive regval) (refs : list positive) (fds : gset Z) (evs : list (positive * (Z * bool))) (o : os) : Prop := {
  w_reg : reg_inv F refs (o_reg o);
  w_exact : reg_exact F refs (o_reg o);
  w_fds : o_fds o = fds;
  w_nodup : NoDup evs.*1;
  w_events : forall p fd wr, (p, (fd, wr)) ∈ evs <-> exists a, o_events o !! p = Some (mk_uevent fd wr a)
}.

Section Owns.
Implicit Type o : os.
Implicit Type F : gmap positive regval.

Lemma owns_nothing F : owns F [] ∅ [] (mk_os F ∅ ∅).
Proof.
  constructor; cbn; try done.
  - split; [done|]. split; [by apply NoDup_nil|]. by intros r ?%not_elem_of_nil.
  - intros r Hr. by left.
  - by apply NoDup_nil.
  - intros p fd wr. split; [by intros ?%not_elem_of_nil|intros [a Ha]; by simplify_map_eq].
Qed.
Lemma owns_done F o : owns F [] ∅ [] o -> o = mk_os F ∅ ∅.
Proof.
  intros [H1 H2 H3 _ H5]. destruct o as [reg fds evs]. cbn in *. f_equal; [by apply reg_done|done|]. apply map_empty. intros p.
  destruct (evs !! p) as [[fd wr a]|] eqn:E; [|done]. exfalso. by apply (not_elem_of_nil (p, (fd, wr))), H5; exists a.
Qed.

Lemma owns_ref F l1 l2 fds evs k o : owns F (l1 ++ l2) fds evs o ->
  owns F (l1 ++ fst (os_ref (RFun k) o) :: l2) fds evs (snd (os_ref (RFun k) o)).
Proof. intros [H1 H2 H3 H4 H5]. constructor; cbn; try done; [by apply reg_inv_add|by apply reg_exact_add]. Qed.
Lemma owns_unref F l1 l2 fds evs r o : owns F (l1 ++ r :: l2) fds evs o ->
  exists o', os_unref r o = Ret o' /\ owns F (l1 ++ l2) fds evs o'.
Proof.
  intros [H1 H2 H3 H4 H5]. destruct (reg_inv_del _ _ _ _ _ H1) as [[v Hv] Hi]. unfold os_unref. rewrite Hv. eexists. split; [done|].
  constructor; cbn; try done. by apply reg_exact_del.
Qed.
Lemma owns_unref_opt F l1 l2 fds evs r o : owns F (l1 ++ opt_list r ++ l2) fds evs o ->
  exists o', os_unref_opt r o = Ret o' /\ owns F (l1 ++ l2) fds evs o'.
Proof. destruct r as [r|]; cbn; [by apply owns_unref|]. intros Ho. by exists o. Qed.

Lemma owns_func_ref {T : Type} `{LuaTable T} F l1 l2 fds evs (t : T) key o r o' :
  owns F (l1 ++ l2) fds evs o -> os_func_ref t key o = (r, o') -> owns F (l1 ++ opt_list r ++ l2) fds evs o'.
Proof.
  intros Ho E. unfold os_func_ref in E. destruct (field_of t key); try (injection E as <- <-; exact Ho).
  injection E as <- <-. by apply owns_ref.
Qed.

Lemma owns_open F refs fds evs fd o : owns F refs fds evs o -> owns F refs ({[fd]} ∪ fds) evs (os_open fd o).
Proof. intros [H1 H2 H3 H4 H5]. constructor; cbn; try done. by rewrite H3. Qed.
Lemma owns_close F refs fds evs fd o : owns F refs fds evs o -> fd ∈ fds ->
  exists o', os_close fd o = Ret o' /\ owns F refs (fds ∖ {[fd]}) evs o'.
Proof.
  intros [H1 H2 H3 H4 H5] Hin. unfold os_close. rewrite decide_True by (by rewrite H3). eexists. split; [done|]. constructor; cbn; try done. by rewrite H3.
Qed.
Lemma owns_close_fd F refs fds evs fd o : owns F refs fds evs o -> fd_set fd ⊆ fds ->
  exists o', os_close_fd fd o = Ret o' /\ owns F refs (fds ∖ fd_set fd) evs o'.
Proof.
  intros Ho Hs. unfold os_close_fd, fd_set in *. destruct (0 <=? fd); [apply owns_close; [done|set_solver]|].
  exists o. split; [done|]. by rewrite difference_empty_L.
Qed.

Lemma owns_new F refs fds e1 e2 fd wr o : owns F refs fds (e1 ++ e2) o ->
  owns F refs fds (e1 ++ (fst (os_event_new fd wr o), (fd, wr)) :: e2) (snd (os_event_new fd wr o)).
Proof.
  intros [H1 H2 H3 H4 H5]. cbn. set (p := fresh _). assert (Hp : o_events o !! p = None) by (apply not_elem_of_dom, is_fresh).
  assert (Hnew : forall fd wr, (p, (fd, wr)) ∉ e1 ++ e2) by (intros fd' wr' Hin; apply H5 in Hin as [a Ha]; congruence).
  constructor; cbn; try done.
  - rewrite fmap_app in *. rewrite fmap_cons, <- Permutation_middle. apply NoDup_cons. split; [|done]. cbn. rewrite <- fmap_app.
    intros Hin. apply list_elem_of_fmap in Hin as ([q [fd' wr']] & Eq & Hin). cbn in Eq. subst q. by apply Hnew in Hin.
  - intros q fd' wr'. rewrite elem_of_app, elem_of_cons. destruct (decide (p = q)) as [<-|Hne].
    + rewrite lookup_insert_eq. split.
      * intros [Hin|[[= -> ->]|Hin]]; [by destruct (Hnew fd' wr'); rewrite elem_of_app; left|by exists false|by destruct (Hnew fd' wr'); rewrite elem_of_app; right].
      * intros [a [= -> -> _]]. auto.
    + rewrite lookup_insert_ne by done. rewrite <- H5, elem_of_app. split; [intros [?|[[= ? _ _]|?]]; [auto|congruence|auto]|intros [?|?]; auto].
Qed.
Lemma owns_free F refs fds e1 e2 p x o : owns F refs fds (e1 ++ (p, x) :: e2) o ->
  exists o', os_event_free p o = Ret o' /\ owns F refs fds (e1 ++ e2) o'.
Proof.
  intros [H1 H2 H3 H4 H5]. destruct x as [fd wr]. assert (Hp : exists a, o_events o !! p = Some (mk_uevent fd wr a)) by (apply H5; rewrite elem_of_app, elem_of_cons; auto).
  destruct Hp as [a Ha]. unfold os_event_free. rewrite Ha. eexists. split; [done|].
  rewrite fmap_app, fmap_cons, <- Permutation_middle in H4. apply NoDup_cons in H4 as [Hnot H4]. cbn in Hnot. rewrite <- fmap_app in *.
  constructor; cbn; try done. intros q fd' wr'. destruct (decide (p = q)) as [<-|Hne].
  - rewrite lookup_delete_eq. split; [|by intros [? ?]]. intros Hin. exfalso. apply Hnot, list_elem_of_fmap. by exists (p, (fd', wr')).
  - rewrite lookup_delete_ne by done. rewrite <- H5, !elem_of_app, elem_of_cons. split; [intros [?|?]; auto|intros [?|[[= ? _ _]|?]]; [auto|congruence|auto]].
Qed.
Lemma owns_free_opt F refs fds e1 e2 p fd wr o : owns F refs fds (e1 ++ ev_list p fd wr ++ e2) o ->
  exists o', os_free_opt p o = Ret o' /\ owns F refs fds (e1 ++ e2) o'.
Proof. destruct p as [p|]; cbn; [by apply owns_free|]. intros Ho. by exists o. Qed.
Lemma owns_mark F refs fds evs a p x o : owns F refs fds evs o -> (p, x) ∈ evs ->
  exists o', os_event_mark a p o = Ret o' /\ owns F refs fds evs o'.
Proof.
  intros [H1 H2 H3 H4 H5] Hin. destruct x as [fd wr]. pose proof Hin as Hin'. apply H5 in Hin' as [b Hb]. unfold os_event_mark. rewrite Hb. eexists. split; [done|].
  constructor; cbn; try done. intros q fd' wr'. destruct (decide (p = q)) as [<-|Hne].
  - rewrite lookup_insert_eq, H5, Hb. split; [intros [c [= <- <- _]]; by exists a|intros [c [= <- <- _]]; by exists b].
  - by rewrite lookup_insert_ne.
Qed.

Lemma owns_watch F refs fds e1 e2 fd wr o : owns F refs fds (e1 ++ e2) o ->
  exists p o', os_watch true fd wr o = Ret (p, o') /\ owns F refs fds (e1 ++ (p, (fd, wr)) :: e2) o'.
Proof.
  intros Ho. pose proof (owns_new F refs fds e1 e2 fd wr o Ho) as Hn. unfold os_watch. cbn [negb]. destruct (os_event_new fd wr o) as [p o1]. cbn [fst snd] in Hn.
  destruct (owns_mark F _ _ _ true p (fd, wr) _ Hn) as (o' & E & Ho'); [apply elem_of_app; right; by left|]. rewrite E. cbn. eauto.
Qed.

Lemma owns_thread F refs fds evs o : let th := fresh (dom (o_reg o)) in owns F refs fds evs o ->
  F !! th = None /\ owns (<[th := RThread]> F) refs fds evs (set_reg (<[th := RThread]> (o_reg o)) o).
Proof.
  intros th [H1 H2 H3 H4 H5]. destruct (reg_inv_thread _ _ _ H1) as [Hth Hr]. split; [done|]. constructor; cbn; try done. by apply reg_exact_thread.
Qed.
Lemma owns_unthread F refs fds evs th o : F !! th = None -> owns (<[th := RThread]> F) refs fds evs o ->
  exists o', os_unref th o = Ret o' /\ owns F refs fds evs o'.
Proof.
  intros Hth [H1 H2 H3 H4 H5]. destruct (reg_inv_unthread _ _ _ _ Hth H1) as [[v Hv] Hr]. unfold os_unref. rewrite Hv. eexists. split; [done|].
  constructor; cbn; try done. by apply reg_exact_unthread.
Qed.
End Owns.

(** ** Objects with callbacks *)

(** [my_ok]: what else holds of the object's fields. *)
Class Object (W : Type) : Type := {
  os_of : W -> os;
  with_os : os -> W -> W;
  my_refs : W -> list positive;
  my_fds : W -> gset Z;
  my_events : W -> list (positive * (Z * bool));
  my_ok : W -> Prop;
  os_with : forall o w, os_of (with_os o w) = o;
  refs_with : forall o w, my_refs (with_os o w) = my_refs w;
  fds_with : forall o w, my_fds (with_os o w) = my_fds w;
  events_with : forall o w, my_events (with_os o w) = my_events w;
  ok_with : forall o w, my_ok w -> my_ok (with_os o w)
}.

Section Objects.
Context {W : Type} `{Object W}.
Implicit Type w : W.
Implicit Type F : gmap positive regval.

Definition on_os (f : os -> outcome os) w : outcome W := o ← f (os_of w); mret (with_os o w).

(** From [fan_cb_setup], which may lack memory, to [FAN_CB_CLEANUP]: the function
    is called in a coroutine of its own, which the registry holds meanwhile. *)
Definition fan_call (ok : bool) (ref : positive) (run : positive -> W -> outcome W) w : outcome W :=
  if negb ok then Ret w
  else
    let '(thread_ref, o) := os_ref RThread (os_of w) in
    let w := with_os o w in
    match o_reg (os_of w) !! ref with
    | Some (RFun k) => w ← run k w; on_os (os_unref thread_ref) w
    | _ => on_os (os_unref thread_ref) w
    end.
Definition fan_call_opt (ok : bool) (ref : option positive) (run : positive -> W -> outcome W) w : outcome W :=
  match ref with Some r => fan_call ok r run w | None => Ret w end.

Definition good F w : Prop := my_ok w /\ owns F (my_refs w) (my_fds w) (my_events w) (os_of w).

Lemma good_with F w o : my_ok w -> owns F (my_refs w) (my_fds w) (my_events w) o -> good F (with_os o w).
Proof. intros Hok Ho. split; [by apply ok_with|]. by rewrite refs_with, fds_with, events_with, os_with. Qed.
Lemma good_ref F w r : good F w -> r ∈ my_refs w -> exists k, o_reg (os_of w) !! r = Some (RFun k).
Proof. intros [_ Ho] Hr. destruct (w_reg _ _ _ _ _ Ho) as (_ & _ & Hl). by apply Hl. Qed.

(** A callback runs in a good state, and what it leaves good is good. *)
Lemma fan_call_good F ok r run w (Q : W -> Prop) : good F w -> r ∈ my_refs w ->
  (ok = false -> Q w) ->
  (forall k F' o w1, o_reg (os_of w) !! r = Some (RFun k) -> w1 = with_os o w -> good F' w1 ->
     returns (run k w1) (fun w2 => good F' w2 /\ forall o2, Q (with_os o2 w2))) ->
  returns (fan_call ok r run w) (fun w' => good F w' /\ Q w').
Proof.
  intros Hg Hr Hno Hrun. unfold fan_call. destruct ok; cbn [negb]; [|cbn; auto]. destruct (good_ref F w r Hg Hr) as [k Hk]. destruct Hg as [Hok Ho].
  destruct (owns_thread _ _ _ _ _ Ho) as [Hth Ho1]. set (th := fresh (dom (o_reg (os_of w)))) in *. cbn [os_ref].
  fold th. set (o1 := set_reg _ (os_of w)) in *. rewrite os_with. cbn [o_reg].
  assert (Hne : th <> r) by (intros E; pose proof (is_fresh (dom (o_reg (os_of w)))) as Hf; apply not_elem_of_dom in Hf; fold th in Hf; congruence).
  change (o_reg o1) with (<[th := RThread]> (o_reg (os_of w))). rewrite lookup_insert_ne, Hk by done.
  eapply returns_bind; [apply (Hrun k (<[th := RThread]> F) o1); [done|done|by apply good_with]|].
  intros w2 [[Hok2 Ho2] HQ]. unfold on_os. destruct (owns_unthread F _ _ _ th (os_of w2) Hth Ho2) as (o2 & -> & Ho3). cbn. split; [by apply good_with|apply HQ].
Qed.
Lemma fan_call_opt_good F ok r run w (Q : W -> Prop) : good F w -> (forall p, r = Some p -> p ∈ my_refs w) ->
  (ok = false \/ r = None -> Q w) ->
  (forall p k F' o w1, r = Some p -> o_reg (os_of w) !! p = Some (RFun k) -> w1 = with_os o w -> good F' w1 ->
     returns (run k w1) (fun w2 => good F' w2 /\ forall o2, Q (with_os o2 w2))) ->
  returns (fan_call_opt ok r run w) (fun w' => good F w' /\ Q w').
Proof.
  intros Hg Hr Hno Hrun. destruct r as [p|]; cbn; [|split; [done|by apply Hno; right]]. apply fan_call_good; [done|by apply Hr|intros ->; apply Hno; by left|].
  intros k F' o w1 Hk. by apply (Hrun p k F' o w1).
Qed.
End Objects.
