(* ===== verification/Fifo.v ===== *)
(** * src/fifo.c: named pipes

    A pipe object in Lua memory with its descriptor, its events and its callbacks,
    over what [Loop] says of registry, descriptors and events.  The file system and
    [read] and [write] are not under src/: what they answer is an argument, what is
    asked of the file system is recorded.  A script is a tree of calls on the
    object; for each call it says what the callbacks do that run inside it, and a
    callback's script is an argument of its event.

    A reference 0, from the object's zeroed memory, that is given back to the
    registry makes Lua forget its free references, and is recorded in
    [f_unref0]. *)

From S2P Require Import Prelude Lua LuaState Double Registry TcpdConfig Loop.

Record FIFO : Type := mk_fifo {
  f_socket : Z;
  f_name : option (list Z);
  delete_on_close : bool;
  onReadRef : sref;
  onSendReadyRef : sref;
  onDisconnectedRef : sref;
  f_read_ev : option positive;
  f_write_ev : option positive
}.

Inductive fs_call : Type :=
  | FsUnlink (name : option (list Z))
  | FsMkfifo (name : list Z) (mode : Z)
  | FsOpen (name : list Z) (flags : Z).

(** [f_alive]: the object exists; [f_fs], [f_written], [f_calls]: what was asked of
    the file system, the bytes written, the functions called with their
    arguments. *)
Record fifo_w : Type := mk_fw {
  the_fifo : FIFO;
  f_os : os;
  f_alive : bool;
  f_unref0 : bool;
  f_fs : list fs_call;
  f_written : list Z;
  f_calls : list (positive * list lua_value)
}.

Definition on_fifo (g : FIFO -> FIFO) w : fifo_w := mk_fw (g (the_fifo w)) (f_os w) (f_alive w) (f_unref0 w) (f_fs w) (f_written w) (f_calls w).
Definition set_fos o w : fifo_w := mk_fw (the_fifo w) o (f_alive w) (f_unref0 w) (f_fs w) (f_written w) (f_calls w).
Definition set_alive a w : fifo_w := mk_fw (the_fifo w) (f_os w) a (f_unref0 w) (f_fs w) (f_written w) (f_calls w).
Definition unref_zero w : fifo_w := mk_fw (the_fifo w) (f_os w) (f_alive w) true (f_fs w) (f_written w) (f_calls w).
Definition ask (c : fs_call) w : fifo_w := mk_fw (the_fifo w) (f_os w) (f_alive w) (f_unref0 w) (f_fs w ++ [c]) (f_written w) (f_calls w).
Definition wrote (d : list Z) w : fifo_w := mk_fw (the_fifo w) (f_os w) (f_alive w) (f_unref0 w) (f_fs w) (f_written w ++ d) (f_calls w).
Definition called k args w : fifo_w := mk_fw (the_fifo w) (f_os w) (f_alive w) (f_unref0 w) (f_fs w) (f_written w) (f_calls w ++ [(k, args)]).

Definition sref_list (r : sref) : list positive := match r with Ref p => [p] | _ => [] end.
Definition unset (r : sref) : bool := match r with RefZero => true | _ => false end.

#[export] Instance fifo_object : Object fifo_w.
Proof.
  refine {|
    os_of := f_os; with_os := set_fos;
    my_refs w := sref_list (onReadRef (the_fifo w)) ++ sref_list (onSendReadyRef (the_fifo w)) ++ sref_list (onDisconnectedRef (the_fifo w));
    my_fds w := fd_set (f_socket (the_fifo w));
    my_events w := ev_list (f_read_ev (the_fifo w)) (f_socket (the_fifo w)) false ++ ev_list (f_write_ev (the_fifo w)) (f_socket (the_fifo w)) true;
    my_ok w := True |}; done.
Defined.

(** What [read] and [write] answer: an error, that may only mean not now, and its
    text; or bytes read, or how many were written. *)
Inductive readres : Type := RdFail (again : bool) (strerror : list Z) | RdGot (data : list Z).
Inductive writeres : Type := WrFail (again : bool) (strerror : list Z) | WrDone (n : Z).

(** [FCall c inside k]: the call, what a callback made inside it does when it is
    given its arguments, and how it goes on; [ok]: there is memory for a
    callback. *)
Inductive fcall : Type :=
  | FSend (args : list lua_value) (r : writeres) (ok : bool)
  | FSendReq
  | FClose.
Inductive fscript : Type :=
  | FDone
  | FCall (c : fcall) (inside : list lua_value -> fscript) (k : outcome (list lua_value) -> fscript).

(** What [lstat] sees. *)
Inductive fkind : Type := Regular | Pipe | OtherFile.
(** [f_gc]: the collector runs while the object is made. *)
Record fsys : Type := mk_fsys {
  f_lstat : list Z -> option fkind;
  f_mkfifo : list Z -> Z -> bool;
  f_open : list Z -> Z -> Z;
  f_openerror : list Z;
  f_gc : bool;
  f_events : bool
}.

Definition O_RDONLY : Z := 0.
Definition O_WRONLY : Z := 1.
Definition O_RDWR : Z := 2.
Definition O_NONBLOCK : Z := 0x800.

Section Fifo.
Context {T : Type} `{LuaTable T} `{LuaAPI} `{Allocator}.
Implicit Type w : fifo_w.

Definition call_ref (ok : bool) (r : sref) (run : positive -> fifo_w -> outcome fifo_w) w : outcome fifo_w :=
  match r with Ref p => fan_call ok p run w | _ => Ret w end.
Definition clear_ref (r : sref) w : outcome fifo_w :=
  match r with Ref p => on_os (os_unref p) w | RefZero => Ret (unref_zero w) | RefNone => Ret w end.

(** ** The methods *)

Definition call : Type := outcome (outcome (list lua_value) * fifo_w).
Definition result (r : outcome (list lua_value)) w : call := Ret (r, w).

(** [luaL_error] when the write event and its callback are both missing. *)
Definition luafan_fifo_send_request w : call :=
  match f_write_ev (the_fifo w) with
  | Some p => w ← on_os (os_event_mark true p) w; result (Ret [LBool true]) w
  | None =>
      match onSendReadyRef (the_fifo w) with
      | RefNone => result (Raise (lit "onsendready not defined.")) w
      | _ => result (Ret [LBool false; LStr (lit "not writable.")]) w
      end
  end.

(** The result of [read] and [write] goes into a [size_t]: no number of bytes is
    below 0. *)
Definition not_now (len : Z) (again : bool) : bool := (len <? 0) && again.
Definition reason (len : Z) (strerror : list Z) : list Z := if len <? 0 then strerror else lit "pipe closed.".

(** [write]: a closed descriptor is an error of its own. *)
Definition write_fd (data : list Z) (r : writeres) w : Z * bool * list Z * fifo_w :=
  if decide (f_socket (the_fifo w) ∈ o_fds (f_os w)) then
    match r with
    | WrFail again text => (u64 (-1), again, text, w)
    | WrDone n => (u64 n, false, [], wrote (ztake n data) w)
    end
  else (u64 (-1), false, lit "Bad file descriptor", w).

(** [inside]: what [ondisconnected] does. *)
Definition luafan_fifo_send (ok : bool) (args : list lua_value) (r : writeres) (inside : list lua_value -> fifo_w -> outcome fifo_w) w : call :=
  match luaL_optlstring (arg args 2) with
  | Raise e => result (Raise e) w
  | UB => UB
  | Ret None => result (Ret [LInt 0]) w
  | Ret (Some data) =>
      if Zlen data =? 0 then result (Ret [LInt 0]) w
      else
        let '(len, again, text, w) := write_fd data r w in
        if len <=? 0 then
          if not_now len again then result (Ret [LInt 0]) w
          else
            let args := [LStr (reason len text)] in
            w ← call_ref ok (onDisconnectedRef (the_fifo w)) (fun k w => inside args (called k args w)) w;
            w ← on_os (os_free_opt (f_write_ev (the_fifo w))) w;
            let w := on_fifo (fun f => mk_fifo (f_socket f) (f_name f) (delete_on_close f) (onReadRef f) (onSendReadyRef f) (onDisconnectedRef f) (f_read_ev f) None) w in
            result (Ret [LInt (s64 len)]) w
        else result (Ret [LInt (s64 len)]) w
  end.

Definition close_fifo w : outcome fifo_w :=
  let f := the_fifo w in
  w ← clear_ref (onReadRef f) w;
  w ← clear_ref (onSendReadyRef f) w;
  w ← clear_ref (onDisconnectedRef f) w;
  w ← on_os (os_free_opt (f_read_ev f)) w;
  w ← on_os (os_free_opt (f_write_ev f)) w;
  w ← on_os (os_close_fd (f_socket f)) w;
  let w := if delete_on_close f then ask (FsUnlink (f_name f)) w else w in
  let socket := if 0 <=? f_socket f then -1 else f_socket f in
  mret (on_fifo (fun f => mk_fifo socket None (delete_on_close f) RefNone RefNone RefNone None None) w).
Definition luafan_fifo_close w : call := w ← close_fifo w; result (Ret []) w.
(** [__gc], after which the memory is gone. *)
Definition luafan_fifo_gc w : outcome fifo_w := w ← close_fifo w; mret (set_alive false w).

(** ** Scripts *)

Definition at_fifo {A} w (k : outcome A) : outcome A := if f_alive w then k else UB.

Fixpoint run_script (s : fscript) w : outcome fifo_w :=
  match s with
  | FDone => Ret w
  | FCall c inside k =>
      '(r, w) ← at_fifo w
         match c with
         | FSend args r ok => luafan_fifo_send ok args r (fun args => run_script (inside args)) w
         | FSendReq => luafan_fifo_send_request w
         | FClose => luafan_fifo_close w
         end;
      run_script (k r) w
  end.

(** ** The events *)

(** [lua_pushlstring] from the buffer on the stack. *)
Definition push_buf (buf : list Z) (len : Z) : outcome lua_value := if len <=? READ_BUFF_LEN then Ret (LStr (ztake len buf)) else UB.

Definition fifo_write_cb (ok : bool) (s : list lua_value -> fscript) w : outcome fifo_w :=
  at_fifo w (call_ref ok (onSendReadyRef (the_fifo w)) (fun k w => run_script (s []) (called k [] w)) w).

Definition fifo_read_cb (ok : bool) (r : readres) (s : list lua_value -> fscript) w : outcome fifo_w :=
  at_fifo w
    (let '(len, again, text, buf) :=
       match r with
       | RdFail again text => (u64 (-1), again, text, [])
       | RdGot data => let data := ztake READ_BUFF_LEN data in (u64 (Zlen data), false, [], data)
       end in
     if len <=? 0 then
       if not_now len again then Ret w
       else
         let args := [LStr (reason len text)] in
         call_ref ok (onDisconnectedRef (the_fifo w)) (fun k w => run_script (s args) (called k args w)) w
     else
       call_ref ok (onReadRef (the_fifo w)) (fun k w =>
         data ← push_buf buf len;
         run_script (s [data]) (called k [data] w)) w).

(** ** Making one *)

Definition luaL_checkstring (v : lua_value) : outcome (list Z) := s ← luaL_checklstring v; mret (cstr s).
Definition luaL_optstring (v : lua_value) (d : list Z) : outcome (list Z) := if lua_isnil v then Ret d else luaL_checkstring v.
(** [strstr] for a single character. *)
Definition has (c : string) (s : list Z) : bool := existsb (fun x => bool_decide ([x] = lit c)) s.
Definition ref_of (r : option positive) : sref := match r with Some p => Ref p | None => RefNone end.

(** The callbacks the mode asks for, and the flags. *)
Definition mode_refs (t : T) (rwmode : list Z) w : Z * fifo_w :=
  let '(mode, a, o) := (if has "r" rwmode then let '(r, o) := os_func_ref t "onread" (f_os w) in (O_RDONLY, ref_of r, o) else (-1, RefNone, f_os w)) in
  let '(mode, b, c, o) :=
    (if has "w" rwmode then
       let mode := if mode =? O_RDONLY then O_RDWR else O_WRONLY in
       let '(r, o) := os_func_ref t "onsendready" o in
       let '(s, o) := os_func_ref t "ondisconnected" o in
       (mode, ref_of r, ref_of s, o)
     else (mode, RefNone, RefNone, o)) in
  (mode, on_fifo (fun f => mk_fifo (f_socket f) (f_name f) (delete_on_close f) a b c (f_read_ev f) (f_write_ev f)) (set_fos o w)).

(** An event for a callback that is there. *)
Definition watch (y : fsys) (r : sref) (fd : Z) (write : bool) w : outcome (option positive * fifo_w) :=
  match r with
  | RefNone => Ret (None, w)
  | _ => '(p, o) ← os_watch (f_events y) fd write (f_os w); Ret (Some p, set_fos o w)
  end.
Definition open_events (y : fsys) (fd : Z) w : outcome fifo_w :=
  let w := on_fifo (fun f => mk_fifo fd (f_name f) (delete_on_close f) (onReadRef f) (onSendReadyRef f) (onDisconnectedRef f) (f_read_ev f) (f_write_ev f))
             (set_fos (os_open fd (f_os w)) w) in
  '(p, w) ← watch y (onSendReadyRef (the_fifo w)) fd true w;
  let w := on_fifo (fun f => mk_fifo (f_socket f) (f_name f) (delete_on_close f) (onReadRef f) (onSendReadyRef f) (onDisconnectedRef f) (f_read_ev f) p) w in
  '(p, w) ← watch y (onReadRef (the_fifo w)) fd false w;
  mret (on_fifo (fun f => mk_fifo (f_socket f) (f_name f) (delete_on_close f) (onReadRef f) (onSendReadyRef f) (onDisconnectedRef f) p (f_write_ev f)) w).

(** The object exists from here on.  Its name was a string of the table, or one
    made of a number, which the collector may take. *)
Definition make_fifo (self : lua_value) (y : fsys) (t : T) (name : list Z) w : call :=
  if negb (is_string (field_of t "name")) && f_gc y then UB
  else
    let w := set_alive true (on_fifo (fun _ => mk_fifo (-1) (strdup name) (lua_toboolean (field_of t "delete_on_close")) RefZero RefZero RefZero None None) w) in
    match luaL_optstring (field_of t "rwmode") (lit "rn") with
    | UB => UB
    | Raise e => result (Raise e) w
    | Ret rwmode =>
        let '(mode, w) := mode_refs t rwmode w in
        let flags := Z.lor mode O_NONBLOCK in
        let w := ask (FsOpen name flags) w in
        let fd := f_open y name flags in
        if fd =? -1 then result (Ret [LNil; LStr (f_openerror y)]) w
        else w ← open_events y fd w; result (Ret [self]) w
    end.

(** Before the object is made: the object is zeroed memory that does not exist. *)
Definition no_fifo (F : gmap positive regval) : fifo_w :=
  mk_fw (mk_fifo (-1) None false RefNone RefNone RefNone None None) (mk_os F ∅ ∅) false false [] [] [].
Definition find_or_make (y : fsys) (name : list Z) (mode : Z) w : outcome (bool * fifo_w) :=
  match f_lstat y name with
  | Some Regular => Raise (lit "regular file exists: " ++ name)
  | Some Pipe => Ret (true, w)
  | _ => Ret (f_mkfifo y name (u32 mode), ask (FsMkfifo name (u32 mode)) (ask (FsUnlink (Some name)) w))
  end.
Definition luafan_fifo_connect (self : lua_value) (y : fsys) (t : T) (F : gmap positive regval) : call :=
  let w := no_fifo F in
  match (name ← luaL_checkstring (field_of t "name"); mode ← luaL_optinteger (field_of t "mode") 0x180; mret (name, mode)) with
  | UB => UB
  | Raise e => result (Raise e) w
  | Ret (name, mode) =>
      match find_or_make y name mode w with
      | UB => UB
      | Raise e => result (Raise e) w
      | Ret (false, w) => result (Ret []) w
      | Ret (true, w) => make_fifo self y t name w
      end
  end.
End Fifo.

(** ** What the operations keep *)

Section Keeps.
Context {T : Type} `{LuaTable T} `{LuaAPI} `{Allocator}.
Implicit Type w : fifo_w.
Implicit Type F : gmap positive regval.

Record same w w' : Prop := {
  m_fifo : the_fifo w' = the_fifo w;
  m_alive : f_alive w' = f_alive w;
  m_fs : f_fs w' = f_fs w;
  m_written : f_written w' = f_written w;
  m_calls : f_calls w' = f_calls w
}.
Lemma same_os o w : same w (set_fos o w).
Proof. done. Qed.
Lemma same_trans w1 w2 w3 : same w1 w2 -> same w2 w3 -> same w1 w3.
Proof. intros [] []. constructor; congruence. Qed.

Lemma clear_ref_spec F r l fds evs w : owns F (sref_list r ++ l) fds evs (f_os w) ->
  returns (clear_ref r w) (fun w' => owns F l fds evs (f_os w') /\ same w w' /\ f_unref0 w' = f_unref0 w || unset r).
Proof.
  intros Ho. destruct r as [| |p]; cbn in *.
  - split; [done|]. split; [done|]. by rewrite orb_true_r.
  - split; [done|]. split; [done|]. by rewrite orb_false_r.
  - destruct (owns_unref F [] l fds evs p (f_os w) Ho) as (o' & E & Ho'). unfold on_os. cbn [os_of fifo_object]. rewrite E. cbn.
    split; [done|]. split; [apply same_os|]. by rewrite orb_false_r.
Qed.
Lemma fifo_free_spec F refs fds p fd wr l w : owns F refs fds (ev_list p fd wr ++ l) (f_os w) ->
  returns (on_os (os_free_opt p) w) (fun w' => owns F refs fds l (f_os w') /\ same w w' /\ f_unref0 w' = f_unref0 w).
Proof.
  intros Ho. destruct (owns_free_opt F refs fds [] l p fd wr (f_os w) Ho) as (o' & E & Ho'). unfold on_os. cbn [os_of fifo_object]. rewrite E. cbn.
  split; [done|]. split; [apply same_os|done].
Qed.

(** A pipe that is closed. *)
Record gone (f : FIFO) : Prop := {
  g_socket : f_socket f < 0;
  g_name : f_name f = None;
  g_read : onReadRef f = RefNone;
  g_ready : onSendReadyRef f = RefNone;
  g_disc : onDisconnectedRef f = RefNone;
  g_revent : f_read_ev f = None;
  g_wevent : f_write_ev f = None
}.
Definition zero_ref (f : FIFO) : bool := unset (onReadRef f) || unset (onSendReadyRef f) || unset (onDisconnectedRef f).
Definition unlinked (f : FIFO) : list fs_call := if delete_on_close f then [FsUnlink (f_name f)] else [].

Record closed F w w' : Prop := {
  c_gone : gone (the_fifo w');
  c_os : f_os w' = mk_os F ∅ ∅;
  c_delete : delete_on_close (the_fifo w') = delete_on_close (the_fifo w);
  c_alive : f_alive w' = f_alive w;
  c_fs : f_fs w' = f_fs w ++ unlinked (the_fifo w);
  c_written : f_written w' = f_written w;
  c_calls : f_calls w' = f_calls w;
  c_unref0 : f_unref0 w' = f_unref0 w || zero_ref (the_fifo w)
}.

Lemma gone_good F w : gone (the_fifo w) -> f_os w = mk_os F ∅ ∅ -> good F w.
Proof.
  intros [G1 G2 G3 G4 G5 G6 G7] Eo. split; [done|]. cbn. rewrite G3, G4, G5, G6, G7, Eo. cbn. unfold fd_set.
  replace (0 <=? _) with false by lia. apply owns_nothing.
Qed.
Lemma closed_good F w w' : closed F w w' -> good F w'.
Proof. intros []. by apply gone_good. Qed.

Lemma close_fifo_spec F w : good F w -> returns (close_fifo w) (closed F w).
Proof.
  intros [_ Ho]. cbn in Ho. unfold close_fifo, zero_ref. set (f := the_fifo w) in *.
  eapply returns_bind; [by apply clear_ref_spec|]. intros w1 (Ho1 & S1 & U1).
  eapply returns_bind; [by apply clear_ref_spec|]. intros w2 (Ho2 & S2 & U2).
  eapply returns_bind; [apply clear_ref_spec; by rewrite app_nil_r|]. intros w3 (Ho3 & S3 & U3).
  eapply returns_bind; [by eapply fifo_free_spec|]. intros w4 (Ho4 & S4 & U4).
  eapply returns_bind; [eapply fifo_free_spec; by rewrite app_nil_r|]. intros w5 (Ho5 & S5 & U5).
  assert (S : same w w5) by (eapply same_trans; [|exact S5]; eapply same_trans; [|exact S4]; eapply same_trans; [|exact S3]; by eapply same_trans).
  assert (U : f_unref0 w5 = f_unref0 w || zero_ref f) by (unfold zero_ref; rewrite U5, U4, U3, U2, U1; by rewrite !orb_assoc).
  clear S1 S2 S3 S4 S5 U1 U2 U3 U4 U5. unfold on_os. cbn [os_of with_os fifo_object].
  destruct (owns_close_fd F _ _ _ (f_socket f) (f_os w5) Ho5 ltac:(done)) as (o6 & -> & Ho6). cbn [mbind outcome_bind mret outcome_ret returns].
  rewrite difference_diag_L in Ho6. apply owns_done in Ho6 as ->. destruct S as [M1 M2 M3 M4 M5].
  constructor; cbn.
  - constructor; cbn; try done. destruct (Z.leb_spec 0 (f_socket f)); lia.
  - by destruct (delete_on_close f).
  - destruct (delete_on_close f); cbn; congruence.
  - by destruct (delete_on_close f).
  - unfold unlinked. fold f. destruct (delete_on_close f); cbn; rewrite M3; [done|by rewrite app_nil_r].
  - by destruct (delete_on_close f).
  - by destruct (delete_on_close f).
  - by destruct (delete_on_close f).
Qed.

Lemma read_in w : sref_list (onReadRef (the_fifo w)) ⊆ my_refs w.
Proof. intros x Hx. cbn. rewrite !elem_of_app. auto. Qed.
Lemma ready_in w : sref_list (onSendReadyRef (the_fifo w)) ⊆ my_refs w.
Proof. intros x Hx. cbn. rewrite !elem_of_app. auto. Qed.
Lemma disc_in w : sref_list (onDisconnectedRef (the_fifo w)) ⊆ my_refs w.
Proof. intros x Hx. cbn. rewrite !elem_of_app. auto. Qed.
Lemma call_ref_good F ok r run w (Q : fifo_w -> Prop) : good F w -> sref_list r ⊆ my_refs w ->
  Q w ->
  (forall p k F' o w1, r = Ref p -> o_reg (f_os w) !! p = Some (RFun k) -> w1 = set_fos o w -> good F' w1 ->
     returns (run k w1) (fun w2 => good F' w2 /\ forall o2, Q (set_fos o2 w2))) ->
  returns (call_ref ok r run w) (fun w' => good F w' /\ Q w').
Proof.
  intros Hg Hr HQ Hrun. destruct r as [| |p]; [done..|]. cbn [call_ref]. apply fan_call_good; [done|apply Hr; by left|done|].
  intros k F' o w1 Hk. by apply (Hrun p).
Qed.

Lemma free_write_ev_good F w : good F w ->
  returns (w ← on_os (os_free_opt (f_write_ev (the_fifo w))) w;
           mret (on_fifo (fun f => mk_fifo (f_socket f) (f_name f) (delete_on_close f) (onReadRef f) (onSendReadyRef f) (onDisconnectedRef f) (f_read_ev f) None) w))
    (fun w' => good F w' /\ f_alive w' = f_alive w).
Proof.
  intros [_ Ho]. cbn in Ho. unfold on_os. cbn [os_of with_os fifo_object].
  set (refs := sref_list _ ++ _ ++ _) in Ho. set (fds := fd_set _) in Ho. set (e1 := ev_list (f_read_ev _) _ _) in Ho.
  rewrite <- (app_nil_r (ev_list (f_write_ev _) _ _)) in Ho.
  destruct (owns_free_opt F refs fds e1 [] _ _ _ _ Ho) as (o' & -> & Ho'). rewrite app_nil_r in Ho'. cbn [mbind outcome_bind mret outcome_ret returns]. split; [|done]. split; [done|]. cbn. by rewrite app_nil_r.
Qed.

Definition keeps_run (run : fifo_w -> outcome fifo_w) : Prop := forall F w, good F w -> f_alive w = true ->
  returns (run w) (fun w' => good F w' /\ f_alive w' = true).
Definition keeps_call F (c : call) : Prop := returns c (fun '(_, w') => good F w' /\ f_alive w' = true).

Lemma fifo_send_keeps F ok args r inside w : (forall args, keeps_run (inside args)) -> good F w -> f_alive w = true ->
  keeps_call F (luafan_fifo_send ok args r inside w).
Proof.
  intros Hin Hg Ha. unfold luafan_fifo_send, luaL_optlstring, luaL_checklstring, keeps_call.
  destruct (lua_isnil _); cbn [mbind outcome_bind mret outcome_ret]; [done|]. destruct (lua_tolstring _) as [data|]; cbn [mbind outcome_bind mret outcome_ret]; [|done].
  destruct (Zlen data =? 0); [done|].
  assert (Hw : let '(len, again, text, w1) := write_fd data r w in good F w1 /\ f_alive w1 = true).
  { unfold write_fd. case_decide; [|done]. by destruct r. }
  destruct (write_fd data r w) as [[[len again] text] w1]. destruct Hw as [Hg1 Ha1]. destruct (len <=? 0); [|done]. destruct (not_now len again); [done|].
  eapply returns_bind; [apply (call_ref_good F ok _ _ _ (fun w => f_alive w = true)); [done|apply disc_in|done|]|].
  - intros p k F' o w2 _ _ -> Hg2. eapply returns_mono; [by apply Hin|]. intros w3 [? ?]. done.
  - intros w2 [Hg2 Ha2]. cbn zeta. pose proof (free_write_ev_good F w2 Hg2) as Hf. destruct (on_os _ w2) as [w3| |]; [|done..]. cbn in Hf |- *. destruct Hf as [? ->]. done.
Qed.
Lemma fifo_send_request_keeps F w : good F w -> f_alive w = true -> keeps_call F (luafan_fifo_send_request w).
Proof.
  intros Hg Ha. unfold luafan_fifo_send_request, keeps_call. destruct (f_write_ev (the_fifo w)) as [p|] eqn:E; [|by destruct (onSendReadyRef _)].
  unfold on_os. destruct Hg as [_ Ho]. cbn in Ho. destruct (owns_mark F _ _ _ true p (f_socket (the_fifo w), true) (f_os w) Ho) as (o' & E' & Ho').
  { rewrite E. apply elem_of_app. right. by left. }
  cbn [os_of fifo_object]. rewrite E'. cbn. done.
Qed.
Lemma fifo_close_keeps F w : good F w -> f_alive w = true -> keeps_call F (luafan_fifo_close w).
Proof.
  intros Hg Ha. unfold luafan_fifo_close, keeps_call. eapply returns_bind; [by apply close_fifo_spec|]. intros w' Hc. cbn.
  split; [by eapply closed_good|]. by rewrite (c_alive _ _ _ Hc).
Qed.
Lemma fifo_script_keeps s : keeps_run (run_script s).
Proof.
  induction s as [|c inside IHi k IHk]; intros F w Hg Ha; [done|]. cbn [run_script]. unfold at_fifo. rewrite Ha.
  eapply returns_bind with (P := fun '(_, w') => good F w' /\ f_alive w' = true).
  - destruct c; [by apply fifo_send_keeps|by apply fifo_send_request_keeps|by apply fifo_close_keeps].
  - intros [r w'] [? ?]. by apply IHk.
Qed.
End Keeps.

(** ** Making one, and every step *)

Section Steps.
Context {T : Type} `{LuaTable T} `{LuaAPI} `{Allocator}.
Context (self : lua_value).
Implicit Type w : fifo_w.
Implicit Type F : gmap positive regval.

(** The system gives descriptors or fails, libevent has memory, and a name made of
    a number is not taken away. *)
Definition fsys_ok (y : fsys) : Prop :=
  (forall name flags, f_open y name flags = -1 \/ 0 <= f_open y name flags) /\ f_gc y = false /\ f_events y = true.

Lemma sref_of_list r : sref_list (ref_of r) = opt_list r.
Proof. by destruct r. Qed.

Lemma mode_refs_spec F (t : T) rwmode w fds evs : owns F [] fds evs (f_os w) ->
  let '(_, w') := mode_refs t rwmode w in
  owns F (my_refs w') fds evs (f_os w') /\ f_alive w' = f_alive w /\ zero_ref (the_fifo w') = false /\
  f_socket (the_fifo w') = f_socket (the_fifo w) /\ f_read_ev (the_fifo w') = f_read_ev (the_fifo w) /\ f_write_ev (the_fifo w') = f_write_ev (the_fifo w).
Proof.
  intros Ho. unfold mode_refs.
  assert (Hr : exists mode r o, (if has "r" rwmode then let '(r, o) := os_func_ref t "onread" (f_os w) in (O_RDONLY, ref_of r, o) else (-1, RefNone, f_os w)) = (mode, ref_of r, o)
    /\ owns F (opt_list r) fds evs o).
  { destruct (has "r" rwmode); [|by exists (-1), None, (f_os w)]. destruct (os_func_ref t "onread" (f_os w)) as [r o] eqn:E.
    exists O_RDONLY, r, o. split; [done|]. pose proof (owns_func_ref F [] [] fds evs t _ _ _ _ Ho E) as Ho1. cbn in Ho1. by rewrite app_nil_r in Ho1. }
  destruct Hr as (mode & r & o & -> & Ho1). cbv beta iota.
  assert (Hw : exists mode' a b o', (if has "w" rwmode then
       let '(r, o) := os_func_ref t "onsendready" o in
       let '(s, o) := os_func_ref t "ondisconnected" o in
       (if mode =? O_RDONLY then O_RDWR else O_WRONLY, ref_of r, ref_of s, o) else (mode, RefNone, RefNone, o)) = (mode', ref_of a, ref_of b, o')
    /\ owns F (opt_list r ++ opt_list a ++ opt_list b) fds evs o').
  { destruct (has "w" rwmode); [|exists mode, None, None, o; split; [done|by rewrite app_nil_r]].
    destruct (os_func_ref t "onsendready" o) as [a o2] eqn:E2. destruct (os_func_ref t "ondisconnected" o2) as [b o3] eqn:E3.
    rewrite <- (app_nil_r (opt_list r)) in Ho1. pose proof (owns_func_ref F _ [] _ _ _ _ _ _ _ Ho1 E2) as Ho2.
    rewrite app_nil_r in Ho2. rewrite <- (app_nil_r (_ ++ _)) in Ho2. pose proof (owns_func_ref F _ [] _ _ _ _ _ _ _ Ho2 E3) as Ho3.
    rewrite app_nil_r, <- app_assoc in Ho3. eexists _, a, b, o3. done. }
  destruct Hw as (mode' & a & b & o' & -> & Ho2). cbn. unfold zero_ref. cbn. rewrite !sref_of_list. split; [done|]. split; [done|]. split; [by destruct r, a, b|done].
Qed.

Lemma watch_spec F refs fds e1 e2 y r fd write w : fsys_ok y -> owns F refs fds (e1 ++ e2) (f_os w) ->
  returns (watch y r fd write w) (fun '(p, w') => exists o, w' = set_fos o w /\ owns F refs fds (e1 ++ ev_list p fd write ++ e2) o).
Proof.
  intros (_ & _ & He) Ho. unfold watch. rewrite He. destruct (owns_watch F refs fds e1 e2 fd write (f_os w) Ho) as (p & o' & E & Ho').
  destruct r as [| |x]; [rewrite E; cbn; by eauto| |rewrite E; cbn; by eauto]. exists (f_os w). by destruct w.
Qed.

Lemma open_events_spec F y fd w : fsys_ok y -> 0 <= fd -> owns F (my_refs w) ∅ [] (f_os w) ->
  returns (open_events y fd w) (fun w' => good F w' /\ f_alive w' = f_alive w).
Proof.
  intros Hy Hfd Ho. unfold open_events. cbn zeta.
  set (w1 := on_fifo _ (set_fos _ w)). assert (Hfs : fd_set fd = {[fd]}) by (unfold fd_set; by replace (0 <=? fd) with true by lia).
  assert (Ho1 : owns F (my_refs w1) (fd_set fd) [] (f_os w1)).
  { rewrite Hfs. rewrite <- (right_id_L ∅ (∪) {[fd]}). apply owns_open. exact Ho. }
  assert (Hs1 : f_socket (the_fifo w1) = fd /\ f_alive w1 = f_alive w) by done. clearbody w1.
  eapply returns_bind; [apply (watch_spec F _ _ [] [] y _ fd true w1 Hy Ho1)|]. intros [p w2] (o2 & -> & Ho2). rewrite app_nil_r in Ho2. cbn [app] in Ho2.
  set (w3 := on_fifo _ _). assert (Hw3 : owns F (my_refs w3) (fd_set fd) ([] ++ ev_list p fd true) (f_os w3)) by exact Ho2.
  assert (Hs3 : f_socket (the_fifo w3) = fd /\ f_alive w3 = f_alive w /\ f_write_ev (the_fifo w3) = p) by (cbn; tauto). clearbody w3. clear Ho2 Hs1 Ho1 w1.
  eapply returns_bind; [apply (watch_spec F _ _ _ _ y _ fd false w3 Hy Hw3)|]. intros [q w4] (o4 & -> & Ho4). cbn.
  destruct Hs3 as (Hs & Ha & Hp). split; [|done]. split; [done|]. cbn. rewrite Hs, Hp. exact Ho4.
Qed.

Lemma make_fifo_spec F y (t : T) name w : fsys_ok y -> f_os w = mk_os F ∅ ∅ ->
  returns (make_fifo self y t name w) (fun '(_, w') => good F w' /\ f_alive w' = true).
Proof.
  intros Hy Ho. destruct (Hy) as (Hopen & Hgc & _). unfold make_fifo. rewrite Hgc, andb_false_r. cbn zeta.
  set (w1 := set_alive true _). assert (Hw1 : owns F [] ∅ [] (f_os w1)) by (cbn; rewrite Ho; apply owns_nothing).
  assert (Hf1 : f_alive w1 = true /\ f_socket (the_fifo w1) = -1 /\ f_read_ev (the_fifo w1) = None /\ f_write_ev (the_fifo w1) = None /\ my_refs w1 = []) by done. clearbody w1.
  destruct Hf1 as (Ha & Hs & Hre & Hwe & Hrefs).
  assert (Hg1 : good F w1) by (split; [done|]; rewrite Hrefs; cbn; by rewrite Hs, Hre, Hwe).
  assert (Ho' : exists r, luaL_optstring (field_of t "rwmode") (lit "rn") = r /\ r <> UB).
  { eexists. split; [done|]. unfold luaL_optstring, luaL_checkstring, luaL_checklstring. destruct (lua_isnil _); [done|]. by destruct (lua_tolstring _). }
  destruct Ho' as ([rwmode|e|] & -> & Hne); [|by cbn|done]. clear Hne.
  pose proof (mode_refs_spec F t rwmode w1 ∅ [] Hw1) as Hm. destruct (mode_refs t rwmode w1) as [mode w2]. destruct Hm as (Ho2 & Ha2 & _ & Hs2 & Hre2 & Hwe2).
  set (flags := Z.lor mode O_NONBLOCK). set (w3 := ask (FsOpen name flags) w2).
  destruct (Z.eqb_spec (f_open y name flags) (-1)).
  - cbn. split; [|by rewrite Ha2]. split; [done|]. cbn. by rewrite Hs2, Hre2, Hwe2, Hs, Hre, Hwe.
  - eapply returns_bind; [apply (open_events_spec F y); [done| |exact Ho2]|]; [destruct (Hopen name flags); [done|lia]|].
    intros w' [Hg Ha']. cbn. split; [done|]. rewrite Ha'. cbn. by rewrite Ha2.
Qed.

Lemma connect_spec F y (t : T) : fsys_ok y -> returns (luafan_fifo_connect self y t F) (fun '(_, w') => good F w').
Proof.
  intros Hy. assert (Hg0 : good F (no_fifo F)) by (by apply gone_good). unfold luafan_fifo_connect, luaL_checkstring, luaL_checklstring, luaL_optinteger, luaL_checkinteger.
  destruct (lua_tolstring _) as [name|]; cbn [mbind outcome_bind mret outcome_ret]; [|done].
  assert (Hc : forall mode, returns (match find_or_make y (cstr name) mode (no_fifo F) with UB => UB | Raise e => result (Raise e) (no_fifo F)
    | Ret (false, w) => result (Ret []) w | Ret (true, w) => make_fifo self y t (cstr name) w end) (fun '(_, w') => good F w')).
  { intros mode. unfold find_or_make. assert (Hm : forall w, f_os w = mk_os F ∅ ∅ -> returns (make_fifo self y t (cstr name) w) (fun '(_, w') => good F w')).
    { intros w Ho. eapply returns_mono; [by apply (make_fifo_spec F)|]. by intros [r w'] [? _]. }
    destruct (f_lstat y (cstr name)) as [[]|]; [done|by apply Hm| |]; (destruct (f_mkfifo y _ _); [by apply Hm|by cbn]). }
  destruct (lua_isnil _); cbn [mbind outcome_bind mret outcome_ret]; [apply Hc|]. destruct (lua_tointegerx _); cbn [mbind outcome_bind mret outcome_ret]; [apply Hc|done].
Qed.

(** What happens to a pipe that exists: a script calls it, libevent reports its
    descriptor, it is collected. *)
Inductive fop : Type :=
  | FOpScript (s : fscript)
  | FOpReadable (ok : bool) (r : readres) (s : list lua_value -> fscript)
  | FOpWritable (ok : bool) (s : list lua_value -> fscript)
  | FOpCollect.
Definition fwatched (p : option positive) w : Prop := exists q e, p = Some q /\ o_events (f_os w) !! q = Some e /\ ue_added e = true.
Definition fenabled (o : fop) w : Prop :=
  match o with
  | FOpScript _ | FOpCollect => f_alive w = true
  | FOpReadable _ _ _ => f_alive w = true /\ fwatched (f_read_ev (the_fifo w)) w
  | FOpWritable _ _ => f_alive w = true /\ fwatched (f_write_ev (the_fifo w)) w
  end.
(** The write event is not persistent. *)
Definition mark_opt (p : option positive) w : outcome fifo_w := match p with Some p => on_os (os_event_mark false p) w | None => UB end.
Definition fexec (o : fop) w : outcome fifo_w :=
  match o with
  | FOpScript s => run_script s w
  | FOpReadable ok r s => fifo_read_cb ok r s w
  | FOpWritable ok s => w ← mark_opt (f_write_ev (the_fifo w)) w; fifo_write_cb ok s w
  | FOpCollect => at_fifo w (luafan_fifo_gc w)
  end.
(** [read] fails while there is an [onread]. *)
Definition read_fails (o : fop) w : bool :=
  match o, onReadRef (the_fifo w) with FOpReadable true (RdFail _ _) _, Ref _ => true | _, _ => false end.

Inductive freach F : fifo_w -> Prop :=
  | freach_connect y (t : T) r w : fsys_ok y -> luafan_fifo_connect self y t F = Ret (r, w) -> f_alive w = true -> freach F w
  | freach_step o w w' : freach F w -> fenabled o w -> fexec o w = Ret w' -> freach F w'.

Lemma push_data data : Zlen data <= READ_BUFF_LEN -> push_buf data (Zlen data) = Ret (LStr data).
Proof. intros Hl. unfold push_buf. replace (_ <=? _) with true by lia. by rewrite ztake_all by lia. Qed.

Lemma Zlen_buffer (data : list Z) : 0 <= Zlen (ztake READ_BUFF_LEN data) <= READ_BUFF_LEN.
Proof. unfold READ_BUFF_LEN, Zlen, ztake. rewrite length_take. lia. Qed.

Lemma called_good F k args w : good F w -> good F (called k args w).
Proof. done. Qed.

Lemma read_cb_keeps F ok r s w : good F w -> f_alive w = true -> read_fails (FOpReadable ok r s) w = false ->
  returns (fifo_read_cb ok r s w) (fun w' => good F w' /\ f_alive w' = true).
Proof.
  intros Hg Ha Hf. unfold fifo_read_cb, at_fifo. rewrite Ha. destruct r as [again text|data].
  - cbn. destruct (onReadRef (the_fifo w)) as [| |p] eqn:E; [done..|]. cbn in Hf. rewrite E in Hf. destruct ok; [done|]. done.
  - cbn zeta. set (d := ztake READ_BUFF_LEN data). pose proof (Zlen_buffer data) as Hl. fold d in Hl. rewrite u64_small by (unfold READ_BUFF_LEN in Hl; lia).
    destruct (Z.leb_spec (Zlen d) 0).
    + unfold not_now. replace (Zlen d <? 0) with false by lia. cbn [andb]. apply (call_ref_good F ok _ _ _ (fun w => f_alive w = true)); [done|apply disc_in|done|].
      * intros p k F' o w1 _ _ -> Hg1. eapply returns_mono; [by apply fifo_script_keeps|]. by intros w2 [? ?].
    + apply (call_ref_good F ok _ _ _ (fun w => f_alive w = true)); [done|apply read_in|done|].
      * intros p k F' o w1 _ _ -> Hg1. rewrite push_data by lia. cbn [mbind outcome_bind]. eapply returns_mono; [by apply fifo_script_keeps|]. by intros w2 [? ?].
Qed.
Lemma write_cb_keeps F ok s w : good F w -> f_alive w = true -> returns (fifo_write_cb ok s w) (fun w' => good F w' /\ f_alive w' = true).
Proof.
  intros Hg Ha. unfold fifo_write_cb, at_fifo. rewrite Ha. apply (call_ref_good F ok _ _ _ (fun w => f_alive w = true)); [done|apply ready_in|done|].
  - intros p k F' o w1 _ _ -> Hg1. eapply returns_mono; [by apply fifo_script_keeps|]. by intros w2 [? ?].
Qed.
Lemma mark_write F w : good F w -> fwatched (f_write_ev (the_fifo w)) w ->
  exists p o, f_write_ev (the_fifo w) = Some p /\ mark_opt (f_write_ev (the_fifo w)) w = Ret (set_fos o w) /\ good F (set_fos o w) /\
  o_reg o = o_reg (f_os w) /\ (forall e, o_events o !! p = Some e -> ue_added e = false).
Proof.
  intros [_ Ho] (p & e & E & He & _). exists p. unfold mark_opt, on_os. cbn [os_of with_os fifo_object]. rewrite E.
  destruct (owns_mark F _ _ _ false p (f_socket (the_fifo w), true) (f_os w) Ho) as (o' & E' & Ho').
  { cbn. rewrite E. apply elem_of_app. right. by left. }
  exists o'. rewrite E'. cbn. split; [done|]. split; [done|]. split; [by split|]. unfold os_event_mark in E'. rewrite He in E'. injection E' as <-.
  split; [done|]. cbn. rewrite lookup_insert_eq. by intros e' [= <-].
Qed.

Lemma exec_keeps F o w : good F w -> fenabled o w -> read_fails o w = false ->
  returns (fexec o w) (fun w' => good F w' /\ (o <> FOpCollect -> f_alive w' = true)).
Proof.
  intros Hg He Hf. destruct o; cbn [fenabled fexec] in *.
  - eapply returns_mono; [by apply (fifo_script_keeps s F)|]. by intros w' [? ?].
  - destruct He as [Ha _]. eapply returns_mono; [by apply read_cb_keeps|]. by intros w' [? ?].
  - destruct He as [Ha Hw]. destruct (mark_write F w Hg Hw) as (p & o' & _ & -> & Hg' & _). cbn [mbind outcome_bind].
    eapply returns_mono; [by apply (write_cb_keeps F)|]. by intros w' [? ?].
  - unfold at_fifo. rewrite He. unfold luafan_fifo_gc. eapply returns_bind; [by apply (close_fifo_spec F)|]. intros w' Hc. cbn. split; [|done].
    exact (closed_good F w _ Hc).
Qed.
Lemma read_fails_ub F o w : good F w -> fenabled o w -> read_fails o w = true -> fexec o w = UB.
Proof.
  intros Hg He Hf. destruct o as [|ok r s| |]; cbn in Hf; try (by destruct (onReadRef (the_fifo w))).
  destruct He as [Ha _]. cbn [fexec]. unfold fifo_read_cb, at_fifo. rewrite Ha.
  destruct ok; [|done]. destruct r as [again text|]; [|done]. destruct (onReadRef (the_fifo w)) as [| |p] eqn:E; [done..|].
  cbn -[fan_call Z.leb u64 push_buf]. change (u64 (-1)) with (2 ^ 64 - 1). change (2 ^ 64 - 1 <=? 0) with false. cbn iota.
  unfold fan_call. cbn [negb os_ref]. destruct (good_ref F w p Hg) as [k Hk]; [cbn; rewrite E; by left|].
  cbn [os_of fifo_object] in *. cbn. rewrite lookup_insert_ne, Hk; [done|]. intros Eq. pose proof (is_fresh (dom (o_reg (f_os w)))) as Hfr. apply not_elem_of_dom in Hfr.
  rewrite Eq in Hfr. congruence.
Qed.
Lemma freach_good F w : freach F w -> good F w.
Proof.
  induction 1 as [y t r w Hy E Ha|o w w' _ IH He E].
  - pose proof (connect_spec F y t Hy) as Hs. by rewrite E in Hs.
  - destruct (read_fails o w) eqn:Hf; [by rewrite (read_fails_ub F) in E|]. pose proof (exec_keeps F o w IH He Hf) as Hs. rewrite E in Hs. apply Hs.
Qed.
End Steps.

(** ** The theorems *)

Section Props.
Context {T : Type} `{LuaTable T} `{LuaAPI} `{Allocator}.
Context (self : lua_value).
Implicit Type w : fifo_w.
Implicit Type F : gmap positive regval.

(** C23: a named pipe is safe but for one step.  In any order of method calls,
    readiness and collection, and whatever the callbacks do, every step returns,
    except that a [read] that fails, only because it would block too, hands
    [onread] 2^64-1 bytes of a buffer of 64 KiB.  The object holds exactly its one
    descriptor, its events on it, and its callbacks in the registry. *)
Theorem fifo_safe F w : freach (T := T) self F w ->
  (forall o, fenabled o w -> if read_fails o w then fexec o w = UB else exists w', fexec o w = Ret w') /\
  owns F (my_refs w) (fd_set (f_socket (the_fifo w))) (my_events w) (f_os w).
Proof.
  intros Hr. pose proof (freach_good self F w Hr) as Hg. split; [|apply Hg]. intros o He. destruct (read_fails o w) eqn:Hf; [by apply (read_fails_ub F)|].
  destruct (returns_inv _ _ (exec_keeps F o w Hg He Hf)) as (w' & -> & _). by exists w'.
Qed.

(** *** The end of a pipe *)

Inductive flater w : fifo_w -> Prop :=
  | flater_now : flater w w
  | flater_step o w1 w2 : flater w w1 -> fenabled o w1 -> fexec o w1 = Ret w2 -> flater w w2.

(** Nothing is left but what may be unlinked. *)
Record over F w w' : Prop := {
  o_gone : gone (the_fifo w');
  o_os : f_os w' = mk_os F ∅ ∅;
  o_written : f_written w' = f_written w;
  o_calls : f_calls w' = f_calls w;
  o_unref0 : f_unref0 w' = f_unref0 w;
  o_fs : exists l, f_fs w' = f_fs w ++ l /\ Forall (eq (FsUnlink None)) l
}.
Lemma over_refl F w : gone (the_fifo w) -> f_os w = mk_os F ∅ ∅ -> over F w w.
Proof. intros Hg Ho. constructor; try done. exists []. split; [by rewrite app_nil_r|by apply Forall_nil]. Qed.
Lemma over_trans F w1 w2 w3 : over F w1 w2 -> over F w2 w3 -> over F w1 w3.
Proof.
  intros [_ _ A1 A2 A3 (l & A4 & A5)] [B1 B2 B3 B4 B5 (k & B6 & B7)]. constructor; try congruence. exists (l ++ k).
  rewrite app_assoc. split; [congruence|by apply Forall_app].
Qed.

Lemma unlinked_null f : gone f -> Forall (eq (FsUnlink None)) (unlinked f).
Proof. intros Hg. unfold unlinked. rewrite (g_name _ Hg). destruct (delete_on_close f); [by apply Forall_singleton|by apply Forall_nil]. Qed.
Lemma over_close F w : gone (the_fifo w) -> f_os w = mk_os F ∅ ∅ -> returns (close_fifo w) (over F w).
Proof.
  intros Hg Ho. eapply returns_mono; [apply (close_fifo_spec F), gone_good; done|]. intros w' []. constructor; try done.
  - rewrite c_unref1. destruct Hg as [_ _ G1 G2 G3 _ _]. unfold zero_ref. rewrite G1, G2, G3. by rewrite orb_false_r.
  - exists (unlinked (the_fifo w)). split; [done|by apply unlinked_null].
Qed.
Lemma over_script F s : forall w, gone (the_fifo w) -> f_os w = mk_os F ∅ ∅ -> f_alive w = true ->
  returns (run_script s w) (fun w' => over F w w' /\ f_alive w' = true).
Proof.
  induction s as [|c inside IHi k IHk]; intros w Hg Ho Ha; cbn [run_script]; [split; [by apply over_refl|done]|].
  unfold at_fifo. rewrite Ha. apply (returns_bind _ _ (fun '(_, w') => over F w w' /\ f_alive w' = true)).
  - destruct c as [args r ok| |]; [|unfold luafan_fifo_send_request; rewrite (g_wevent _ Hg), (g_ready _ Hg); split; [by apply over_refl|done]|].
    + assert (Hr : over F w w /\ f_alive w = true) by (split; [by apply over_refl|done]).
      unfold luafan_fifo_send, luaL_optlstring, luaL_checklstring. destruct (lua_isnil _); cbn [mbind outcome_bind mret outcome_ret]; [done|].
      destruct (lua_tolstring _) as [data|]; cbn [mbind outcome_bind mret outcome_ret]; [|done]. destruct (Zlen data =? 0); [done|].
      unfold write_fd. rewrite decide_False; [|rewrite Ho; cbn; set_solver]. by cbn.
    + unfold luafan_fifo_close. eapply returns_bind; [apply (returns_mono _ _ (fun w' => over F w w' /\ f_alive w' = true) (close_fifo_spec F w (gone_good F w Hg Ho)))|].
      * intros w' Hc. split; [|by rewrite (c_alive _ _ _ Hc)]. destruct Hc. constructor; try done.
        -- rewrite c_unref1. destruct Hg as [_ _ G1 G2 G3 _ _]. unfold zero_ref. rewrite G1, G2, G3. by rewrite orb_false_r.
        -- exists (unlinked (the_fifo w)). split; [done|by apply unlinked_null].
      * intros w' Hw. exact Hw.
  - intros [r w1] [Ho1 Ha1]. eapply returns_mono; [apply IHk; [apply Ho1|apply Ho1|done]|]. intros w2 [Ho2 Ha2]. split; [by eapply over_trans|done].
Qed.
Lemma over_later F w w' : gone (the_fifo w) -> f_os w = mk_os F ∅ ∅ -> flater w w' -> over F w w'.
Proof.
  intros Hg Ho. induction 1 as [|o w1 w2 _ IH He E]; [by apply over_refl|]. apply (over_trans _ _ _ _ IH). destruct IH as [G1 O1 _ _ _ _].
  destruct o as [s|ok r s|ok s|]; cbn [fenabled fexec] in *.
  - pose proof (over_script F s w1 G1 O1 He) as Hs. rewrite E in Hs. apply Hs.
  - destruct He as (_ & q & e & Hq & _). rewrite (g_revent _ G1) in Hq. done.
  - destruct He as (_ & q & e & Hq & _). rewrite (g_wevent _ G1) in Hq. done.
  - unfold at_fifo in E. rewrite He in E. unfold luafan_fifo_gc in E. pose proof (over_close F w1 G1 O1) as Hs. destruct (close_fifo w1) as [w3| |]; [|done..].
    injection E as <-. destruct Hs. by constructor.
Qed.

Definition fending (o : fop) : Prop := (exists inside, o = FOpScript (FCall FClose inside (fun _ => FDone))) \/ o = FOpCollect.

(** Closing or collecting a pipe gives everything back: the registry is as it
    was, no descriptor is open, no event alive; the pipe's name is unlinked if that
    was asked for; nothing is called or written afterwards, whatever is done with
    the object.  Each further closing, the collection of a closed pipe included,
    unlinks the null pointer. *)
Theorem fifo_released F w o : freach (T := T) self F w -> fenabled o w -> fending o ->
  exists w', fexec o w = Ret w' /\ f_os w' = mk_os F ∅ ∅ /\ f_fs w' = f_fs w ++ unlinked (the_fifo w) /\ f_calls w' = f_calls w /\
  (forall w2, flater w' w2 -> f_os w2 = mk_os F ∅ ∅ /\ f_calls w2 = f_calls w' /\ f_written w2 = f_written w' /\
     exists l, f_fs w2 = f_fs w' ++ l /\ Forall (eq (FsUnlink None)) l) /\
  (forall o2, fenabled o2 w' -> fending o2 -> exists w2, fexec o2 w' = Ret w2 /\
     f_fs w2 = f_fs w' ++ if delete_on_close (the_fifo w) then [FsUnlink None] else []).
Proof.
  intros Hr He Hend. pose proof (freach_good self F w Hr) as Hg.
  assert (Hstep : forall o w, fenabled o w -> fending o -> good F w -> exists w1 w', close_fifo w = Ret w1 /\ closed F w w1 /\ fexec o w = Ret w' /\ (w' = w1 \/ w' = set_alive false w1)).
  { clear. intros o w He Hend Hg. destruct (returns_inv _ _ (close_fifo_spec F w Hg)) as (w1 & E & Hc). exists w1.
    destruct Hend as [[inside ->] | ->]; cbn [fexec run_script fenabled] in *; unfold at_fifo; rewrite He; unfold luafan_fifo_close, luafan_fifo_gc; rewrite E; cbn; eauto 6. }
  destruct (Hstep o w He Hend Hg) as (w1 & w' & _ & Hc & E & Hw). exists w'. destruct Hc as [C1 C2 C3 C4 C5 C6 C7 _].
  assert (Hw' : gone (the_fifo w') /\ f_os w' = mk_os F ∅ ∅ /\ f_fs w' = f_fs w ++ unlinked (the_fifo w) /\ f_calls w' = f_calls w /\ delete_on_close (the_fifo w') = delete_on_close (the_fifo w))
    by (by destruct Hw as [-> | ->]). destruct Hw' as (G & O & Fs & Ca & De). do 4 (split; [done|]). split.
  - intros w2 Hl. destruct (over_later F w' w2 G O Hl). done.
  - intros o2 He2 Hend2. destruct (Hstep o2 w' He2 Hend2 (gone_good F w' G O)) as (w3 & w4 & _ & [_ _ _ _ C5' _ _ _] & E4 & Hw4). exists w4. split; [done|].
    unfold unlinked in C5'. rewrite De, (g_name _ G) in C5'. by destruct Hw4 as [-> | ->].
Qed.

(** *** Data *)

(** A function is called once, in a state that differs in the registry alone. *)
Definition called_once w (p : positive) (args : list lua_value) (s : list lua_value -> fscript) w' : Prop :=
  exists k w1 w2, o_reg (f_os w) !! p = Some (RFun k) /\ the_fifo w1 = the_fifo w /\ f_calls w1 = f_calls w ++ [(k, args)] /\ f_written w1 = f_written w /\
     run_script (s args) w1 = Ret w2 /\ the_fifo w' = the_fifo w2 /\ f_calls w' = f_calls w2 /\ f_written w' = f_written w2.

Lemma fan_call_once F w p args s run : good F w -> p ∈ my_refs w -> f_alive w = true ->
  (forall k w1, run k w1 = run_script (s args) (called k args w1)) ->
  exists w', fan_call true p run w = Ret w' /\ called_once w p args s w'.
Proof.
  intros Hg Hp Ha Hrun. destruct (returns_inv _ _ (fan_call_good F true p run w (called_once w p args s) Hg Hp ltac:(done)
    ltac:(intros k F' o w1 Hk -> Hg1; rewrite Hrun; destruct (returns_inv _ _ (fifo_script_keeps (s args) F' (called k args (set_fos o w)) Hg1 Ha)) as (w2 & E & Hg2 & _);
      change (with_os o w) with (set_fos o w); rewrite E; cbn; split; [done|]; intros o2; exists k, (called k args (set_fos o w)), w2; done))) as (w' & E & _ & Hc).
  by exists w'.
Qed.

(** Bytes go through a pipe as they are.  What is read is handed to [onread]
    once, at most 64 KiB at a time; when the pipe is writable [onsendready] is
    called once and is not called again until [send_req] asks for it; [send] writes
    the bytes the system takes and says how many. *)
Theorem fifo_data F w : freach (T := T) self F w ->
  (forall p data s, onReadRef (the_fifo w) = Ref p -> data <> [] -> fenabled (FOpReadable true (RdGot data) s) w ->
     exists w', fexec (FOpReadable true (RdGot data) s) w = Ret w' /\ called_once w p [LStr (ztake READ_BUFF_LEN data)] s w') /\
     (forall p s, onSendReadyRef (the_fifo w) = Ref p -> fenabled (FOpWritable true s) w ->
     exists o w', ~ fwatched (f_write_ev (the_fifo w)) (set_fos o w) /\ fexec (FOpWritable true s) w = Ret w' /\ called_once (set_fos o w) p [] s w') /\
     (forall p, f_write_ev (the_fifo w) = Some p ->
     exists w', luafan_fifo_send_request w = Ret (Ret [LBool true], w') /\ fwatched (f_write_ev (the_fifo w')) w') /\
     (forall ok data n inside, data <> [] -> 0 <= f_socket (the_fifo w) -> 0 < n <= Zlen data -> n < 2 ^ 63 ->
     luafan_fifo_send ok [LNil; LStr data] (WrDone n) inside w = Ret (Ret [LInt n], wrote (ztake n data) w)).
Proof.
  intros Hr. pose proof (freach_good self F w Hr) as Hg. split; [|split; [|split]].
  - intros p data s Hp Hd [Ha _]. cbn [fexec]. unfold fifo_read_cb, at_fifo. rewrite Ha, Hp. cbn zeta. set (d := ztake READ_BUFF_LEN data).
    pose proof (Zlen_buffer data) as Hl. fold d in Hl. rewrite u64_small by (unfold READ_BUFF_LEN in Hl; lia).
    assert (Hne : 0 < Zlen d).
    { destruct (decide (Zlen d = 0)) as [E|]; [|lia]. apply Zlen_zero in E. destruct data; [done|]. by unfold d in E. }
    replace (Zlen d <=? 0) with false by lia. cbn [call_ref]. apply (fan_call_once F); [done| |done|].
    + apply read_in. rewrite Hp. by left.
    + intros k w1. by rewrite push_data by lia.
  - intros p s Hp [Ha Hw]. destruct (mark_write F w Hg Hw) as (q & o & Eq & Em & Hg' & _ & Hadd). exists o. cbn [fexec]. rewrite Em. cbn [mbind outcome_bind].
    unfold fifo_write_cb, at_fifo. cbn [f_alive set_fos the_fifo]. rewrite Ha, Hp. cbn [call_ref].
    destruct (fan_call_once F (set_fos o w) p [] s (fun k w => run_script (s []) (called k [] w)) Hg') as (w' & E & Hc); [|done|done|].
    + apply ready_in. cbn. rewrite Hp. by left.
    + exists w'. split; [|done]. intros (q' & e & Eq' & He & Hadd'). rewrite Eq in Eq'. injection Eq' as <-. rewrite (Hadd _ He) in Hadd'. done.
  - intros p Hp. unfold luafan_fifo_send_request. rewrite Hp. destruct Hg as [_ Ho]. unfold on_os. cbn [os_of with_os fifo_object].
    destruct (owns_mark F _ _ _ true p (f_socket (the_fifo w), true) (f_os w) Ho) as (o' & E & _); [cbn; rewrite Hp; apply elem_of_app; right; by left|].
    rewrite E. cbn. eexists. split; [done|]. unfold os_event_mark in E. destruct (o_events (f_os w) !! p) as [e|] eqn:Ee; [|done]. injection E as <-.
    exists p. eexists. cbn. rewrite lookup_insert_eq. split; [done|]. by split.
  - intros ok data n inside Hd Hs Hn Hb. unfold luafan_fifo_send, luaL_optlstring. cbn [arg nth Nat.sub lua_isnil]. rewrite luaL_checklstring_str. cbn [mbind outcome_bind mret outcome_ret].
    replace (Zlen data =? 0) with false by lia. destruct Hg as [_ Ho]. unfold write_fd. rewrite decide_True.
    + rewrite u64_small by lia. replace (n <=? 0) with false by lia. by rewrite s64_small by lia.
    + pose proof (w_fds _ _ _ _ _ Ho) as Hfd. cbn in Hfd. rewrite Hfd. unfold fd_set. replace (0 <=? _) with true by lia. set_solver.
Qed.

(** *** Errors *)

Lemma fan_call_quiet F w p k args : good F w -> p ∈ my_refs w -> o_reg (f_os w) !! p = Some (RFun k) ->
  fan_call true p (fun k w => Ret (called k args w)) w = Ret (called k args w).
Proof.
  intros Hg Hp Hk. unfold fan_call. cbn [negb os_ref]. set (th := fresh _). assert (Hth : o_reg (f_os w) !! th = None) by (apply not_elem_of_dom, is_fresh).
  cbn [os_of with_os fifo_object o_reg set_reg f_os set_fos]. rewrite lookup_insert_ne, Hk by congruence. cbn [mbind outcome_bind].
  unfold on_os. cbn [os_of with_os fifo_object]. unfold os_unref. cbn. rewrite lookup_insert_eq. cbn. rewrite delete_insert_eq, delete_id by done.
  destruct w as [f o a z fs wr cs]. by destruct o.
Qed.

(** End of file, [n] times, for an [ondisconnected] that does nothing. *)
Definition at_end : fop := FOpReadable true (RdGot []) (fun _ => FDone).
Fixpoint times (n : nat) (o : fop) w : outcome fifo_w := match n with O => Ret w | S n => w ← fexec o w; times n o w end.

Lemma end_once F w p k : good F w -> f_alive w = true -> onDisconnectedRef (the_fifo w) = Ref p -> o_reg (f_os w) !! p = Some (RFun k) ->
  fexec at_end w = Ret (called k [LStr (lit "pipe closed.")] w).
Proof.
  intros Hg Ha Hp Hk. unfold at_end. cbn [fexec]. unfold fifo_read_cb, at_fifo. rewrite Ha, Hp. change (ztake READ_BUFF_LEN []) with (@nil Z).
  cbn -[fan_call lit]. apply (fan_call_quiet F); [done| |done]. apply disc_in. rewrite Hp. by left.
Qed.

(** What becomes of errors.  At the end of the pipe [ondisconnected] is
    called, the event stays, and the same happens in every further turn of the
    loop; a pipe opened only for reading has no [ondisconnected] and the script is
    never told.  A [write] that fails, whether it would block or the other end is
    gone, makes [send] return -1, changes nothing and calls nothing.  A [rwmode]
    that is no string makes [connect] raise and leaves an object whose collection
    gives reference 0 back to the registry. *)
Theorem fifo_errors F w : freach (T := T) self F w ->
  (forall p n, onDisconnectedRef (the_fifo w) = Ref p -> fenabled at_end w -> exists k,
     times n at_end w = Ret (Nat.iter n (called k [LStr (lit "pipe closed.")]) w) /\ fenabled at_end (Nat.iter n (called k [LStr (lit "pipe closed.")]) w)) /\
     (onDisconnectedRef (the_fifo w) = RefNone -> fenabled at_end w -> fexec at_end w = Ret w) /\
     (forall ok data again text inside, data <> [] -> luafan_fifo_send ok [LNil; LStr data] (WrFail again text) inside w = Ret (Ret [LInt (-1)], w)) /\
     (forall y (t : T) name, fsys_ok y -> field_of t "name" = LStr name -> field_of t "mode" = LNil -> f_lstat y (cstr name) = Some Pipe ->
     field_of t "rwmode" <> LNil -> lua_tolstring (field_of t "rwmode") = None ->
     exists w0 w1, luafan_fifo_connect self y t F = Ret (Raise (lua_argerror (field_of t "rwmode")), w0) /\ fenabled FOpCollect w0 /\ f_unref0 w0 = false /\
     fexec FOpCollect w0 = Ret w1 /\ f_unref0 w1 = true).
Proof.
  intros Hr. pose proof (freach_good self F w Hr) as Hg. split; [|split; [|split]].
  - intros p n Hp He. destruct (good_ref F w p Hg) as [k Hk]; [apply disc_in; rewrite Hp; by left|]. exists k. cbn in Hk. clear Hr.
    revert w Hg Hp He Hk. induction n as [|n IH]; intros w Hg Hp He Hk; [done|]. cbn [times]. rewrite (end_once F w p k Hg (proj1 He) Hp Hk). cbn [mbind outcome_bind].
    rewrite Nat.iter_succ_r. apply IH; done.
  - intros Hp [Ha _]. unfold at_end. cbn [fexec]. unfold fifo_read_cb, at_fifo. rewrite Ha, Hp. done.
  - intros ok data again text inside Hd. unfold luafan_fifo_send, luaL_optlstring. cbn [arg nth Nat.sub lua_isnil]. rewrite luaL_checklstring_str. cbn [mbind outcome_bind mret outcome_ret].
    assert (Hz : Zlen data <> 0) by (by rewrite Zlen_zero). replace (Zlen data =? 0) with false by lia. unfold write_fd. by case_decide.
  - intros y t name Hy Hn Hm Hl Hne Hs. destruct Hy as (_ & Hgc & _). unfold luafan_fifo_connect, luaL_checkstring. rewrite Hn, luaL_checklstring_str, Hm. cbn [luaL_optinteger lua_isnil mbind outcome_bind mret outcome_ret].
    unfold find_or_make. rewrite Hl. unfold make_fifo. rewrite Hgc, andb_false_r. cbn zeta. unfold luaL_optstring, luaL_checkstring, luaL_checklstring. rewrite Hs.
    assert (En : lua_isnil (field_of t "rwmode") = false) by (destruct (field_of t "rwmode"); done). rewrite En.
    destruct (lua_toboolean _); (eexists _, _; split; [reflexivity|]; split; [done|]; split; [done|]; by split).
Qed.
End Props.

(** ** Witnesses *)

Module FifoSample.
#[export] Existing Instances assoc_table plain_lua zero_alloc.

Definition sys : fsys := mk_fsys (fun _ => Some Pipe) (fun _ _ => true) (fun _ _ => 5) [] false true.
Definition table (rwmode : lua_value) : alist :=
  [(LStr (lit "name"), LStr (lit "p")); (LStr (lit "delete_on_close"), LBool true); (LStr (lit "rwmode"), rwmode);
   (LStr (lit "onread"), LFun 1); (LStr (lit "onsendready"), LFun 2); (LStr (lit "ondisconnected"), LFun 3)].
Definition connected (r : call) : fifo_w := match r with Ret (_, w) => w | _ => no_fifo ∅ end.
Definition pipe : fifo_w := connected (luafan_fifo_connect (LUserdata 9) sys (table (LStr (lit "rw"))) ∅).

Lemma fifo_sys_fits : fsys_ok sys.
Proof. split; [|by split]. intros name flags. right. by cbn. Qed.
Lemma pipe_reach : freach (T := alist) (LUserdata 9) ∅ pipe.
Proof.
  assert (E : exists r, luafan_fifo_connect (LUserdata 9) sys (table (LStr (lit "rw"))) ∅ = Ret (r, pipe)) by (eexists; vm_compute; reflexivity).
  destruct E as [r E]. by eapply (freach_connect _ _ sys); [apply fifo_sys_fits|exact E|].
Qed.
Lemma pipe_readable ok r s : fenabled (FOpReadable ok r s) pipe.
Proof. split; [reflexivity|]. exists 2%positive. eexists. split; [|split]; vm_compute; reflexivity. Qed.
Lemma pipe_writable s : fenabled (FOpWritable true s) pipe.
Proof. split; [reflexivity|]. exists 1%positive. eexists. split; [|split]; vm_compute; reflexivity. Qed.
Definition closing : fop := FOpScript (FCall FClose (fun _ => FDone) (fun _ => FDone)).
End FifoSample.

Section Witnesses.
Import FifoSample.

(** Readable with nothing to read yet. *)
Lemma fifo_safe_witness : fexec (FOpReadable true (RdFail true []) (fun _ => FDone)) pipe = UB /\ exists w, fexec closing pipe = Ret w.
Proof.
  destruct (fifo_safe (LUserdata 9) ∅ pipe pipe_reach) as [Hs _].
  split; [exact (Hs (FOpReadable true (RdFail true []) (fun _ => FDone)) (pipe_readable _ _ _))|exact (Hs closing eq_refl)].
Defined.

(** Closed, then collected. *)
Lemma fifo_released_witness : exists w1 w2, fexec closing pipe = Ret w1 /\ o_fds (f_os w1) = ∅ /\ fexec FOpCollect w1 = Ret w2 /\
  f_fs w2 = [FsOpen (lit "p") 0x802; FsUnlink (Some (lit "p")); FsUnlink None].
Proof.
  destruct (fifo_released (LUserdata 9) ∅ pipe closing pipe_reach eq_refl (or_introl (ex_intro _ _ eq_refl))) as (w1 & E1 & Ho & Hf & _ & _ & Hn).
  assert (He : fenabled FOpCollect w1) by (vm_compute in E1; injection E1 as <-; reflexivity).
  destruct (Hn FOpCollect He (or_intror eq_refl)) as (w2 & E2 & Hf2). exists w1, w2. split; [exact E1|]. split; [by rewrite Ho|]. split; [exact E2|].
  rewrite Hf2, Hf. vm_compute. reflexivity.
Defined.

(** Two bytes are read, and one of three is written. *)
Lemma fifo_data_witness : (exists w, fexec (FOpReadable true (RdGot [104; 105]) (fun _ => FDone)) pipe = Ret w /\ f_calls w = [(1%positive, [LStr [104; 105]])]) /\
  exists w, luafan_fifo_send true [LNil; LStr [1; 2; 3]] (WrDone 1) (fun _ => Ret) pipe = Ret (Ret [LInt 1], w) /\ f_written w = [1].
Proof.
  destruct (fifo_data (LUserdata 9) ∅ pipe pipe_reach) as (Hrd & _ & _ & Hw). split.
  - destruct (Hrd 1%positive [104; 105] (fun _ => FDone)) as (w & E & k & w1 & w2 & Hk & _ & Hc & _ & Hrun & _ & Hc2 & _); [reflexivity|discriminate|apply pipe_readable|].
    exists w. split; [exact E|]. vm_compute in Hk. injection Hk as <-. cbn in Hrun. injection Hrun as <-. rewrite Hc2, Hc. reflexivity.
  - eexists. split; [apply Hw; [discriminate|vm_compute; discriminate|split; [reflexivity|vm_compute; discriminate]|reflexivity]|]. reflexivity.
Defined.

(** The end of file is reported three times, and a number as [rwmode] is fatal
    only later. *)
Lemma fifo_errors_witness : (exists w, times 3 at_end pipe = Ret w /\ length (f_calls w) = 3%nat) /\
  exists w0 w1, luafan_fifo_connect (LUserdata 9) sys (table (LBool true)) ∅ = Ret (Raise (lit "bad argument"), w0) /\ fexec FOpCollect w0 = Ret w1 /\ f_unref0 w1 = true.
Proof.
  destruct (fifo_errors (LUserdata 9) ∅ pipe pipe_reach) as (He & _ & _ & Hr). split.
  - destruct (He 3%positive 3%nat eq_refl (pipe_readable _ _ _)) as (k & E & _). exists (Nat.iter 3 (called k [LStr (lit "pipe closed.")]) pipe). split; [exact E|reflexivity].
  - destruct (Hr sys (table (LBool true)) (lit "p") fifo_sys_fits eq_refl eq_refl eq_refl ltac:(discriminate) eq_refl) as (w0 & w1 & E0 & _ & _ & E1 & Hz).
    exists w0, w1. split; [exact E0|]. by split.
Defined.
End Witnesses.
