(* ===== verification/Popen.v ===== *)
(** * src/popen.c: child processes

    [popen.spawn] reads a command and an environment, makes the pipes and starts
    the child; the object then has the parent's ends of the pipes, their events and
    the process id.  The system is not under src/: what [pipe], [posix_spawnp],
    [read], [write] and [waitpid] answer are arguments.  A [waitpid] or [kill] for
    a child that was waited for already, whose number may belong to another process
    by then, is recorded in [p_stray].  The part that says what the child is given
    to run with (its words, its environment, its descriptors) is made of pure
    functions. *)

From S2P Require Import Prelude Lua LuaState Double Registry TcpdConfig Loop.

(** ** The command *)

(** [strtok_r] with a space as delimiter: the runs without one. *)
Fixpoint tokens (word : list Z) (s : list Z) : list (list Z) :=
  match s with
  | [] => match word with [] => [] | _ => [rev word] end
  | c :: s =>
      if c =? 32 then match word with [] => tokens [] s | _ => rev word :: tokens [] s end
      else tokens (c :: word) s
  end.
Definition MAX_ARGS : Z := 255.

Section Arguments.
Context {T : Type} `{LuaTable T} `{LuaAPI} `{Allocator}.

(** The elements of the table, and whether they are all strings: one made of a
    number is referred to by nothing. *)
Fixpoint check_words (t : T) (i : Z) (n : nat) : outcome (list (list Z) * bool) :=
  match n with
  | O => Ret ([], true)
  | S n =>
      let v := t_get t (LInt i) in
      s ← luaL_checklstring v;
      '(words, held) ← check_words t (i + 1) n;
      mret (cstr s :: words, is_string v && held)
  end.
Definition parse_command (tables : positive -> option T) (command : lua_value) : outcome (list (list Z) * bool) :=
  '(argv, held) ← (match command with
          | LTable a =>
              match tables a with
              | None => UB
              | Some t =>
                  let len := s32 (t_len t) in
                  if len =? 0 then Raise (lit "command array is empty")
                  else if MAX_ARGS <? len then Raise (lit "command array too large (max 255)")
                  else check_words t 1 (Z.to_nat len)
              end
          | LStr s =>
              match strdup s with
              | None => Raise (lit "out of memory")
              | Some cmd_dup => Ret (ztake MAX_ARGS (tokens [] cmd_dup), true)
              end
          | _ => Raise (lit "command must be a string or array")
          end);
  match argv with [] => Raise (lit "command is empty") | _ => Ret (argv, held) end.

(** ** The environment *)

(** [strchr(e, '=')]: the name an entry defines. *)
Fixpoint env_key (e : list Z) : list Z :=
  match e with
  | [] => []
  | c :: e => if c =? 61 then [] else c :: env_key e
  end.
(** An entry is dropped when there is no memory for it. *)
Definition env_entry (kv : lua_value * lua_value) : option (list Z * list Z) :=
  match kv with
  | (LStr k, LStr v) =>
      let k := cstr k in
      let v := cstr v in
      if malloc_ok (Zlen k + 1 + Zlen v + 1) then Some (k, k ++ [61] ++ v) else None
  | _ => None
  end.
Definition string_key (kv : lua_value * lua_value) : bool := match kv with (LStr _, _) => true | _ => false end.
Definition shadowed (keys : list (list Z)) (e : list Z) : bool := existsb (fun k => bool_decide (k = env_key e)) keys.

(** The arrays are sized before they are filled: [env_alloc] for all inherited and
    all string keys, [user_keys] for the latter. *)
Definition merge_env (env : T) (environ : list (list Z)) : outcome (list (list Z)) :=
  let user_count := Zlen (filter (fun kv => string_key kv = true) (t_pairs env)) in
  let capacity := Zlen environ + user_count + 1 in
  if negb (malloc_ok (capacity * 8)) then Raise (lit "out of memory (env)")
  else if negb (malloc_ok ((user_count + 1) * 8)) then Raise (lit "out of memory (env keys)")
  else
    let user := omap env_entry (t_pairs env) in
    if user_count + 1 <? Zlen user then UB
    else
      let inherited := filter (fun e => shadowed user.*1 e = false) environ in
      if capacity <? Zlen user + Zlen inherited + 1 then UB else Ret (user.*2 ++ inherited).
Definition parse_env (tables : positive -> option T) (env : lua_value) (environ : list (list Z)) : outcome (list (list Z)) :=
  match env with
  | LTable a => match tables a with None => UB | Some t => merge_env t environ end
  | _ => Ret environ
  end.
End Arguments.

(** ** The child's descriptors *)

(** What a descriptor refers to, and whether it is closed on [exec]. *)
Inductive file : Type := PipeEnd (pipe : Z) (write : bool) | Elsewhere (n : Z).
Record pfd : Type := mk_pfd { pf_file : file; pf_cloexec : bool }.
Inductive file_action : Type := Dup2 (a b : Z) | Close (a : Z).
Definition run_action (fds : gmap Z pfd) (a : file_action) : option (gmap Z pfd) :=
  match a with
  | Dup2 a b => match fds !! a with Some f => Some (<[b := mk_pfd (pf_file f) false]> fds) | None => None end
  | Close a => Some (delete a fds)
  end.
Fixpoint run_actions (l : list file_action) (fds : gmap Z pfd) : option (gmap Z pfd) :=
  match l with
  | [] => Some fds
  | a :: l => match run_action fds a with Some fds => run_actions l fds | None => None end
  end.
(** The descriptors the child's program starts with. *)
Definition child_fds (l : list file_action) (fds : gmap Z pfd) : option (gmap Z file) :=
  fmap (M:=option) (fun fds => omap (fun f => if pf_cloexec f then None else Some (pf_file f)) fds) (run_actions l fds).

Record pipes : Type := mk_pipes { pipe_stdin : Z * Z; pipe_stdout : Z * Z; pipe_stderr : option (Z * Z) }.
Definition file_actions (p : pipes) : list file_action :=
  [Dup2 (fst (pipe_stdin p)) 0; Close (fst (pipe_stdin p)); Close (snd (pipe_stdin p));
   Dup2 (snd (pipe_stdout p)) 1; Close (fst (pipe_stdout p)); Close (snd (pipe_stdout p))] ++
  match pipe_stderr p with
  | Some (r, w) => [Dup2 w 2; Close r; Close w]
  | None => []
  end.

(** ** The object *)

Record POPEN : Type := mk_popen {
  stdin_fd : Z;
  stdout_fd : Z;
  stderr_fd : Z;
  child_pid : Z;
  p_onRead : option positive;
  p_onStderr : option positive;
  p_onDisconnected : option positive;
  stdout_ev : option positive;
  stderr_ev : option positive;
  p_closed : bool
}.

(** [p_reaped]: the child was waited for; [p_signals], [p_written], [p_calls]: the
    signals sent, the bytes written, the functions called; [p_told]: how often
    [ondisconnected] was. *)
Record popen_w : Type := mk_pw {
  the_popen : POPEN;
  p_os : os;
  p_alive : bool;
  p_reaped : bool;
  p_stray : bool;
  p_signals : list Z;
  p_written : list Z;
  p_calls : list (positive * list lua_value);
  p_told : nat
}.
Definition on_popen (g : POPEN -> POPEN) w : popen_w :=
  mk_pw (g (the_popen w)) (p_os w) (p_alive w) (p_reaped w) (p_stray w) (p_signals w) (p_written w) (p_calls w) (p_told w).
Definition set_pos o w : popen_w := mk_pw (the_popen w) o (p_alive w) (p_reaped w) (p_stray w) (p_signals w) (p_written w) (p_calls w) (p_told w).
Definition set_palive a w : popen_w := mk_pw (the_popen w) (p_os w) a (p_reaped w) (p_stray w) (p_signals w) (p_written w) (p_calls w) (p_told w).
Definition set_child r s k w : popen_w := mk_pw (the_popen w) (p_os w) (p_alive w) r s k (p_written w) (p_calls w) (p_told w).
Definition pwrote d w : popen_w := mk_pw (the_popen w) (p_os w) (p_alive w) (p_reaped w) (p_stray w) (p_signals w) (p_written w ++ d) (p_calls w) (p_told w).
Definition pcalled n k args w : popen_w :=
  mk_pw (the_popen w) (p_os w) (p_alive w) (p_reaped w) (p_stray w) (p_signals w) (p_written w) (p_calls w ++ [(k, args)]) (p_told w + n).

Definition set_stdin fd (p : POPEN) : POPEN :=
  mk_popen fd (stdout_fd p) (stderr_fd p) (child_pid p) (p_onRead p) (p_onStderr p) (p_onDisconnected p) (stdout_ev p) (stderr_ev p) (p_closed p).
Definition set_pid n (p : POPEN) : POPEN :=
  mk_popen (stdin_fd p) (stdout_fd p) (stderr_fd p) n (p_onRead p) (p_onStderr p) (p_onDisconnected p) (stdout_ev p) (stderr_ev p) (p_closed p).
Definition set_events a b (p : POPEN) : POPEN :=
  mk_popen (stdin_fd p) (stdout_fd p) (stderr_fd p) (child_pid p) (p_onRead p) (p_onStderr p) (p_onDisconnected p) a b (p_closed p).
Definition set_callbacks a b c (p : POPEN) : POPEN :=
  mk_popen (stdin_fd p) (stdout_fd p) (stderr_fd p) (child_pid p) a b c (stdout_ev p) (stderr_ev p) (p_closed p).

(** The three descriptors are not the same. *)
Definition fds_apart (p : POPEN) : Prop :=
  fd_set (stdin_fd p) ## fd_set (stdout_fd p) /\ fd_set (stdin_fd p) ## fd_set (stderr_fd p) /\ fd_set (stdout_fd p) ## fd_set (stderr_fd p).

(** An object that was closed. *)
Record quiet (p : POPEN) : Prop := {
  q_stdin : stdin_fd p < 0;
  q_stdout : stdout_fd p < 0;
  q_stderr : stderr_fd p < 0;
  q_pid : child_pid p <= 0;
  q_read : p_onRead p = None;
  q_err : p_onStderr p = None;
  q_disc : p_onDisconnected p = None;
  q_out_ev : stdout_ev p = None;
  q_err_ev : stderr_ev p = None
}.
(** The process id is that of a child that was not waited for; [ondisconnected] is
    called at most once, and not before both events are gone. *)
Record sound w : Prop := {
  i_apart : fds_apart (the_popen w);
  i_stray : p_stray w = false;
  i_child : 0 < child_pid (the_popen w) -> p_reaped w = false;
  i_once : (p_told w <= 1)%nat;
  i_told : stdout_ev (the_popen w) <> None \/ stderr_ev (the_popen w) <> None -> p_told w = 0%nat;
  i_closed : p_closed (the_popen w) = true -> quiet (the_popen w)
}.

#[export] Instance popen_object : Object popen_w.
Proof.
  refine {|
    os_of := p_os; with_os := set_pos;
    my_refs w := opt_list (p_onRead (the_popen w)) ++ opt_list (p_onStderr (the_popen w)) ++ opt_list (p_onDisconnected (the_popen w));
    my_fds w := fd_set (stdin_fd (the_popen w)) ∪ fd_set (stdout_fd (the_popen w)) ∪ fd_set (stderr_fd (the_popen w));
    my_events w := ev_list (stdout_ev (the_popen w)) (stdout_fd (the_popen w)) false ++ ev_list (stderr_ev (the_popen w)) (stderr_fd (the_popen w)) false;
    my_ok := sound |}; try done.
  intros o w []. by constructor.
Defined.

(** What [waitpid] answers: 0, the child's status, or an error. *)
Inductive wstatus : Type := Exited (code : Z) | Signaled (sig : Z) | OtherStatus.
Inductive waited : Type := StillRunning | Ended (status : wstatus) | WaitFailed.
Inductive readres : Type := RdFail (again : bool) (strerror : list Z) | RdGot (data : list Z).
Inductive writeres : Type := WrFail (again : bool) (strerror : list Z) | WrDone (n : Z).

Inductive pcall : Type :=
  | PSend (args : list lua_value) (r : writeres)
  | PCloseStdin
  | PClose (answers : nat -> waited)
  | PGetpid
  | PIsAlive (a : waited).
Inductive pscript : Type :=
  | PDone
  | PCall (c : pcall) (k : outcome (list lua_value) -> pscript).

Definition SIGKILL : Z := 9.
Definition SIGTERM : Z := 15.

Section Popen.
Context `{LuaAPI}.
Implicit Type w : popen_w.

Definition call : Type := outcome (outcome (list lua_value) * popen_w).
Definition result (r : outcome (list lua_value)) w : call := Ret (r, w).

(** ** The child *)

Definition waitpid (a : waited) w : popen_w :=
  set_child (match a with Ended _ => true | _ => p_reaped w end) (p_stray w || p_reaped w) (p_signals w) w.
Definition kill (sig : Z) w : popen_w := set_child (p_reaped w) (p_stray w || p_reaped w) (p_signals w ++ [sig]) w.
Definition exit_code (s : wstatus) : Z := match s with Exited c => c | Signaled n => 128 + n | OtherStatus => -1 end.
Definition gone_child w : popen_w := on_popen (set_pid (-1)) w.

(** ** The methods *)

Definition luafan_popen_send (args : list lua_value) (r : writeres) w : call :=
  match luaL_optlstring (arg args 2) with
  | Raise e => result (Raise e) w
  | UB => UB
  | Ret o =>
      let p := the_popen w in
      if p_closed p || (stdin_fd p <? 0) then result (Ret [LNil; LStr (lit "stdin is closed")]) w
      else
        let data := default [] o in
        if Zlen data =? 0 then result (Ret [LInt 0]) w
        else
          match (if decide (stdin_fd p ∈ o_fds (p_os w)) then r else WrFail false (lit "Bad file descriptor")) with
          | WrFail again text => if again then result (Ret [LInt 0]) w else result (Ret [LNil; LStr text]) w
          | WrDone n => result (Ret [LInt n]) (pwrote (ztake n data) w)
          end
  end.

Definition luafan_popen_close_stdin w : call :=
  w ← on_os (os_close_fd (stdin_fd (the_popen w))) w;
  result (Ret [LBool true]) (if 0 <=? stdin_fd (the_popen w) then on_popen (set_stdin (-1)) w else w).

(** SIGTERM, ten milliseconds, SIGKILL. *)
Definition end_child (answers : nat -> waited) w : popen_w :=
  if 0 <? child_pid (the_popen w) then
    let w := waitpid (answers 0%nat) (kill SIGTERM w) in
    let w :=
      match answers 0%nat with
      | StillRunning =>
          let w := waitpid (answers 1%nat) w in
          match answers 1%nat with
          | StillRunning => waitpid (answers 2%nat) (kill SIGKILL w)
          | _ => w
          end
      | _ => w
      end in
    gone_child w
  else w.
Definition close_popen (answers : nat -> waited) w : outcome popen_w :=
  let p := the_popen w in
  if p_closed p then Ret w
  else
    w ← on_os (os_unref_opt (p_onRead p)) w;
    w ← on_os (os_unref_opt (p_onStderr p)) w;
    w ← on_os (os_unref_opt (p_onDisconnected p)) w;
    w ← on_os (os_free_opt (stdout_ev p)) w;
    w ← on_os (os_free_opt (stderr_ev p)) w;
    w ← on_os (os_close_fd (stdin_fd p)) w;
    w ← on_os (os_close_fd (stdout_fd p)) w;
    w ← on_os (os_close_fd (stderr_fd p)) w;
    let shut fd := if 0 <=? fd then -1 else fd in
    let w := on_popen (fun p => mk_popen (shut (stdin_fd p)) (shut (stdout_fd p)) (shut (stderr_fd p)) (child_pid p) None None None None None true) w in
    mret (end_child answers w).
Definition luafan_popen_close (answers : nat -> waited) w : call := w ← close_popen answers w; result (Ret [LBool true]) w.
(** [__gc], after which the memory is gone. *)
Definition luafan_popen_gc (answers : nat -> waited) w : outcome popen_w := w ← close_popen answers w; mret (set_palive false w).

Definition luafan_popen_getpid w : call :=
  let pid := child_pid (the_popen w) in
  result (Ret [if 0 <? pid then LInt pid else LNil]) w.
Definition luafan_popen_is_alive (a : waited) w : call :=
  if child_pid (the_popen w) <=? 0 then result (Ret [LBool false]) w
  else
    let w := waitpid a w in
    match a with
    | StillRunning => result (Ret [LBool true]) w
    | _ => result (Ret [LBool false]) (gone_child w)
    end.

(** ** Scripts *)

Definition at_popen {A} w (k : outcome A) : outcome A := if p_alive w then k else UB.
Definition popen_call (c : pcall) w : call :=
  at_popen w
    match c with
    | PSend args r => luafan_popen_send args r w
    | PCloseStdin => luafan_popen_close_stdin w
    | PClose answers => luafan_popen_close answers w
    | PGetpid => luafan_popen_getpid w
    | PIsAlive a => luafan_popen_is_alive a w
    end.
Fixpoint run_script (s : pscript) w : outcome popen_w :=
  match s with
  | PDone => Ret w
  | PCall c k => '(r, w) ← popen_call c w; run_script (k r) w
  end.

(** ** The events *)

(** At most ten times; [answers] are those of [waitpid]. *)
Fixpoint wait_loop (n : nat) (answers : nat -> waited) w : Z * popen_w :=
  match n with
  | O => (-1, w)
  | S n =>
      let w := waitpid (answers 0%nat) w in
      match answers 0%nat with
      | Ended s => (exit_code s, gone_child w)
      | _ => wait_loop n (fun i => answers (S i)) w
      end
  end.
Definition popen_try_disconnected (ok : bool) (answers : nat -> waited) (reason : list Z) (s : list lua_value -> pscript) w : outcome popen_w :=
  match stdout_ev (the_popen w), stderr_ev (the_popen w), p_onDisconnected (the_popen w) with
  | None, None, Some r =>
      let '(code, w) := (if 0 <? child_pid (the_popen w) then wait_loop 10 answers w else (-1, w)) in
      let args := [LStr reason; LInt code] in
      fan_call ok r (fun k w => run_script (s args) (pcalled 1 k args w)) w
  | _, _, _ => Ret w
  end.

Definition free_event (ev : option positive) w : outcome popen_w := match ev with Some p => on_os (os_event_free p) w | None => UB end.

(** [ref]: the callback for what was read; [drop]: the event is taken away. *)
Definition popen_read_cb (what : string) (ref : option positive) (ev : option positive) (drop : POPEN -> POPEN)
  (ok : bool) (r : readres) (answers : nat -> waited) (s : list lua_value -> pscript) w : outcome popen_w :=
  at_popen w
    match r with
    | RdFail true _ => Ret w
    | RdFail false text =>
        w ← free_event ev w;
        popen_try_disconnected ok answers text s (on_popen drop w)
    | RdGot data =>
        let data := ztake READ_BUFF_LEN data in
        if Zlen data <=? 0 then
          w ← free_event ev w;
          popen_try_disconnected ok answers (lit what) s (on_popen drop w)
        else
          let args := [LStr data] in
          fan_call_opt ok ref (fun k w => run_script (s args) (pcalled 0 k args w)) w
    end.
Definition popen_stdout_cb ok r answers s w : outcome popen_w :=
  popen_read_cb "stdout closed" (p_onRead (the_popen w)) (stdout_ev (the_popen w)) (fun p => set_events None (stderr_ev p) p) ok r answers s w.
Definition popen_stderr_cb ok r answers s w : outcome popen_w :=
  popen_read_cb "stderr closed" (p_onStderr (the_popen w)) (stderr_ev (the_popen w)) (fun p => set_events (stdout_ev p) None p) ok r answers s w.
End Popen.

(** ** Starting a child *)

(** [y_pipe]: the ends the next call gives; [y_gc]: the collector runs before the
    child is started; [y_spawn]: the new process, or the text of the error. *)
Record psys (T : Type) : Type := mk_psys {
  y_tables : positive -> option T;
  y_gc : bool;
  y_environ : list (list Z);
  y_pipe : nat -> option (Z * Z);
  y_strerror : list Z;
  y_spawn : list (list Z) -> list (list Z) -> list file_action -> Z + list Z;
  y_events : bool
}.
Arguments mk_psys {T} _ _ _ _ _ _ _.
Arguments y_tables {T} _ _.
Arguments y_gc {T} _.
Arguments y_environ {T} _.
Arguments y_pipe {T} _ _.
Arguments y_strerror {T} _.
Arguments y_spawn {T} _ _ _ _.
Arguments y_events {T} _.

Section Spawn.
Context {T : Type} `{LuaTable T} `{LuaAPI} `{Allocator}.
Implicit Type w : popen_w.
Implicit Type o : os.

Definition no_popen (F : gmap positive regval) : popen_w :=
  mk_pw (mk_popen (-1) (-1) (-1) (-1) None None None None None false) (mk_os F ∅ ∅) false false false [] [] [] 0.

Definition open_pipe (p : Z * Z) o : os := os_open (snd p) (os_open (fst p) o).
Definition close_pipe (p : Z * Z) o : outcome os := o ← os_close (fst p) o; os_close (snd p) o.
Definition close_pipe_opt (p : option (Z * Z)) o : outcome os := match p with Some p => close_pipe p o | None => Ret o end.

Definition open_pipes (y : psys T) (capture_stderr : bool) o : outcome ((pipes + list Z) * os) :=
  match y_pipe y 0 with
  | None => Ret (inr (lit "pipe(stdin): " ++ y_strerror y), o)
  | Some a =>
      let o := open_pipe a o in
      match y_pipe y 1 with
      | None => o ← close_pipe a o; Ret (inr (lit "pipe(stdout): " ++ y_strerror y), o)
      | Some b =>
          let o := open_pipe b o in
          if capture_stderr then
            match y_pipe y 2 with
            | None => o ← close_pipe a o; o ← close_pipe b o; Ret (inr (lit "pipe(stderr): " ++ y_strerror y), o)
            | Some c => Ret (inl (mk_pipes a b (Some c)), open_pipe c o)
            end
          else Ret (inl (mk_pipes a b None), o)
      end
  end.
Definition close_pipes (p : pipes) o : outcome os :=
  o ← close_pipe (pipe_stdin p) o; o ← close_pipe (pipe_stdout p) o; close_pipe_opt (pipe_stderr p) o.
(** The parent's side. *)
Definition close_child_ends (p : pipes) o : outcome os :=
  o ← os_close (fst (pipe_stdin p)) o;
  o ← os_close (snd (pipe_stdout p)) o;
  match pipe_stderr p with Some (_, wr) => os_close wr o | None => Ret o end.

Definition watch (y : psys T) (wanted : bool) (fd : Z) o : outcome (option positive * os) :=
  if wanted then '(p, o) ← os_watch (y_events y) fd false o; Ret (Some p, o) else Ret (None, o).
Definition given {A} (r : option A) : bool := match r with Some _ => true | None => false end.

Definition make_popen (y : psys T) (t : T) (p : pipes) (pid : Z) w : outcome popen_w :=
  let stdout := fst (pipe_stdout p) in
  let stderr := match pipe_stderr p with Some (r, _) => r | None => -1 end in
  let '(a, o) := os_func_ref t "onread" (p_os w) in
  let '(b, o) := os_func_ref t "onstderr" o in
  let '(c, o) := os_func_ref t "ondisconnected" o in
  '(e, o) ← watch y (given a) stdout o;
  '(f, o) ← watch y (given (pipe_stderr p) && given b) stderr o;
  mret (set_palive true (on_popen (fun _ => mk_popen (snd (pipe_stdin p)) stdout stderr pid a b c e f false) (set_pos o w))).

Definition luafan_popen_spawn (self : lua_value) (y : psys T) (t : T) (F : gmap positive regval) : call :=
  let w := no_popen F in
  match (cmd ← parse_command (y_tables y) (field_of t "command"); envp ← parse_env (y_tables y) (field_of t "env") (y_environ y); mret (cmd, envp)) with
  | UB => UB
  | Raise e => result (Raise e) w
  | Ret (argv, held, envp) =>
      let v := field_of t "capture_stderr" in
      let capture_stderr := lua_isnil v || lua_toboolean v in
      '(r, o) ← open_pipes y capture_stderr (p_os w);
      match r with
      | inr text => result (Ret [LNil; LStr text]) (set_pos o w)
      | inl p =>
          if negb held && y_gc y then UB
          else
            match y_spawn y argv envp (file_actions p) with
            | inr text => o ← close_pipes p o; result (Ret [LNil; LStr (lit "posix_spawn: " ++ text)]) (set_pos o w)
            | inl pid =>
                o ← close_child_ends p o;
                w ← make_popen y t p pid (set_pos o w);
                result (Ret [self]) w
            end
      end
  end.
End Spawn.
