(* ===== verification/PopenLife.v ===== *)
(** * The life of a child process object: what every step keeps

    Every operation of popen.c leaves the object holding exactly what its fields say
    ([good], with [sound] for the process and the calls); the steps of an object
    and the states they reach. *)

From S2P Require Import Prelude Lua LuaState Double Registry TcpdConfig Loop Popen.

Lemma sets_gone (a b c : gset Z) : (a ∪ b ∪ c) ∖ a ∖ b ∖ c = ∅.
Proof. apply set_eq. intros x. rewrite !elem_of_difference, !elem_of_union, elem_of_empty. tauto. Qed.
Lemma sets_first (a b c : gset Z) : a ## b -> a ## c -> ∅ ∪ b ∪ c = (a ∪ b ∪ c) ∖ a.
Proof.
  rewrite !elem_of_disjoint. intros Hab Hac. apply set_eq. intros x. rewrite elem_of_difference, !elem_of_union, elem_of_empty.
  specialize (Hab x). specialize (Hac x). tauto.
Qed.

Section Life.
Context `{LuaAPI}.
Implicit Type w : popen_w.
Implicit Type F : gmap positive regval.

(** What a script cannot change: calls, and events that are gone. *)
Record keeps w w' : Prop := {
  k_alive : p_alive w' = p_alive w;
  k_calls : p_calls w' = p_calls w;
  k_told : p_told w' = p_told w;
  k_out : stdout_ev (the_popen w) = None -> stdout_ev (the_popen w') = None;
  k_err : stderr_ev (the_popen w) = None -> stderr_ev (the_popen w') = None
}.
Lemma popen_keeps_refl w : keeps w w.
Proof. done. Qed.
Lemma popen_keeps_trans w1 w2 w3 : keeps w1 w2 -> keeps w2 w3 -> keeps w1 w3.
Proof. intros [] []. constructor; (congruence || auto). Qed.

(** ** The child *)

Record child_over w w' : Prop := {
  e_os : p_os w' = p_os w;
  e_obj : the_popen w' = set_pid (child_pid (the_popen w')) (the_popen w);
  e_pid : child_pid (the_popen w') <= 0;
  e_alive : p_alive w' = p_alive w;
  e_stray : p_stray w' = false;
  e_written : p_written w' = p_written w;
  e_calls : p_calls w' = p_calls w;
  e_told : p_told w' = p_told w
}.
Lemma end_child_spec answers w : p_stray w = false -> (0 < child_pid (the_popen w) -> p_reaped w = false) ->
  child_over w (end_child answers w).
Proof.
  intros Hs Hr. unfold end_child. destruct (Z.ltb_spec 0 (child_pid (the_popen w))) as [Hp|Hp].
  - specialize (Hr Hp). unfold waitpid, kill, gone_child. destruct (answers 0%nat); cbn; [destruct (answers 1%nat); cbn|..]; constructor; cbn; rewrite ?Hs, ?Hr; (done || lia).
  - constructor; try done. by destruct (the_popen w).
Qed.

Lemma wait_loop_spec n answers w : p_stray w = false -> p_reaped w = false -> sound w ->
  let w' := snd (wait_loop n answers w) in sound w' /\ p_os w' = p_os w /\ keeps w w' /\
  the_popen w' = set_pid (child_pid (the_popen w')) (the_popen w) /\ p_written w' = p_written w.
Proof.
  revert answers w. induction n as [|n IH]; intros answers w Hs Hr Hi; cbn [wait_loop snd].
  - split; [done|]. split; [done|]. split; [apply popen_keeps_refl|]. split; [by destruct (the_popen w)|done].
  - assert (Hw : answers 0%nat = StillRunning \/ answers 0%nat = WaitFailed -> sound (waitpid (answers 0%nat) w) /\ p_reaped (waitpid (answers 0%nat) w) = false /\ p_stray (waitpid (answers 0%nat) w) = false).
    { intros Ha. destruct Hi as [I1 I2 I3 I4 I5 I6]. destruct Ha as [-> | ->]; (split; [constructor; cbn; by rewrite ?Hs, ?Hr|]; cbn; by rewrite ?Hs, ?Hr). }
    destruct (answers 0%nat) as [|st|] eqn:Ea; cbn [snd].
    + destruct Hw as (W1 & W2 & W3); [by left|]. destruct (IH (fun i => answers (S i)) _ W3 W2 W1) as (A & B & C & D).
      split; [done|]. split; [done|]. split; [|done]. eapply popen_keeps_trans; [|exact C]. done.
    + destruct Hi as [I1 I2 I3 I4 I5 I6]. split; [|done]. constructor; cbn; try done; [by rewrite Hs, Hr|]. intros Hc. by destruct (I6 Hc).
    + destruct Hw as (W1 & W2 & W3); [by right|]. destruct (IH (fun i => answers (S i)) _ W3 W2 W1) as (A & B & C & D).
      split; [done|]. split; [done|]. split; [|done]. eapply popen_keeps_trans; [|exact C]. done.
Qed.

(** ** Closing *)

Lemma minus_one_neg fd : (if 0 <=? fd then -1 else fd) < 0.
Proof. destruct (Z.leb_spec 0 fd); lia. Qed.
Lemma close_open F w answers : good F w -> p_closed (the_popen w) = false -> exists w1,
  close_popen answers w = Ret (end_child answers w1) /\ p_os w1 = mk_os F ∅ ∅ /\
  (exists a b c, a < 0 /\ b < 0 /\ c < 0 /\ the_popen w1 = mk_popen a b c (child_pid (the_popen w)) None None None None None true) /\
  p_alive w1 = p_alive w /\ p_reaped w1 = p_reaped w /\ p_stray w1 = p_stray w /\ p_signals w1 = p_signals w /\ p_written w1 = p_written w /\
  p_calls w1 = p_calls w /\ p_told w1 = p_told w.
Proof.
  intros [[[A1 [A2 A3]] _ _ _ _ _] Ho] Hc. unfold close_popen. rewrite Hc. cbn in Ho. unfold on_os.
  set (p := the_popen w) in *. cbn [os_of with_os popen_object].
  destruct (owns_unref_opt F [] _ _ _ (p_onRead p) (p_os w) Ho) as (o1 & -> & Ho1). cbn [mbind outcome_bind mret outcome_ret app p_os set_pos] in Ho1 |- *.
  destruct (owns_unref_opt F [] _ _ _ (p_onStderr p) o1 Ho1) as (o2 & -> & Ho2). cbn [mbind outcome_bind mret outcome_ret app p_os set_pos] in Ho2 |- *.
  rewrite <- (app_nil_r (opt_list (p_onDisconnected p))) in Ho2.
  destruct (owns_unref_opt F [] [] _ _ (p_onDisconnected p) o2 Ho2) as (o3 & -> & Ho3). cbn [mbind outcome_bind mret outcome_ret app p_os set_pos] in Ho3 |- *.
  destruct (owns_free_opt F [] _ [] _ (stdout_ev p) _ _ o3 Ho3) as (o4 & -> & Ho4). cbn [mbind outcome_bind mret outcome_ret app p_os set_pos] in Ho4 |- *.
  rewrite <- (app_nil_r (ev_list (stderr_ev p) _ _)) in Ho4.
  destruct (owns_free_opt F [] _ [] [] (stderr_ev p) _ _ o4 Ho4) as (o5 & -> & Ho5). cbn [mbind outcome_bind mret outcome_ret app p_os set_pos] in Ho5 |- *.
  destruct (owns_close_fd F _ _ _ (stdin_fd p) o5 Ho5) as (o6 & -> & Ho6); [set_solver|]. cbn [mbind outcome_bind mret outcome_ret p_os set_pos].
  destruct (owns_close_fd F _ _ _ (stdout_fd p) o6 Ho6) as (o7 & -> & Ho7); [set_solver|]. cbn [mbind outcome_bind mret outcome_ret p_os set_pos].
  destruct (owns_close_fd F _ _ _ (stderr_fd p) o7 Ho7) as (o8 & -> & Ho8); [set_solver|]. cbn [mbind outcome_bind mret outcome_ret].
  rewrite sets_gone in Ho8. apply owns_done in Ho8 as ->. eexists. split; [reflexivity|]. cbn. split; [done|]. split; [|done]. eexists _, _, _.
  split; [|split; [|split; [|reflexivity]]]; apply minus_one_neg.
Qed.

Lemma quiet_owns F w : good F w -> quiet (the_popen w) -> p_os w = mk_os F ∅ ∅.
Proof.
  intros [_ Ho] [Q1 Q2 Q3 Q4 Q5 Q6 Q7 Q8 Q9]. cbn in Ho. rewrite Q5, Q6, Q7, Q8, Q9 in Ho. cbn in Ho. unfold fd_set in Ho.
  replace (0 <=? stdin_fd (the_popen w)) with false in Ho by lia. replace (0 <=? stdout_fd (the_popen w)) with false in Ho by lia.
  replace (0 <=? stderr_fd (the_popen w)) with false in Ho by lia. apply owns_done. rewrite !(left_id_L ∅ (∪)) in Ho. exact Ho.
Qed.
Lemma quiet_good F w : quiet (the_popen w) -> p_os w = mk_os F ∅ ∅ -> p_stray w = false -> (p_told w <= 1)%nat -> good F w.
Proof.
  intros Q Eo Hs Ht. destruct (Q) as [Q1 Q2 Q3 Q4 Q5 Q6 Q7 Q8 Q9].
  assert (E1 : fd_set (stdin_fd (the_popen w)) = ∅) by (unfold fd_set; by replace (0 <=? _) with false by lia).
  assert (E2 : fd_set (stdout_fd (the_popen w)) = ∅) by (unfold fd_set; by replace (0 <=? _) with false by lia).
  assert (E3 : fd_set (stderr_fd (the_popen w)) = ∅) by (unfold fd_set; by replace (0 <=? _) with false by lia).
  split.
  - constructor; try done; [|lia|rewrite Q8, Q9; by intros [?|?]]. unfold fds_apart. rewrite E1, E2, E3. set_solver.
  - cbn. rewrite Q5, Q6, Q7, Q8, Q9, Eo, E1, E2, E3. cbn. rewrite !(left_id_L ∅ (∪)). apply owns_nothing.
Qed.

(** The state after closing. *)
Record shut F w w' : Prop := {
  s_quiet : quiet (the_popen w');
  s_closed : p_closed (the_popen w') = true;
  s_os : p_os w' = mk_os F ∅ ∅;
  s_good : good F w';
  s_written : p_written w' = p_written w;
  s_keeps : keeps w w'
}.
Lemma close_popen_spec F w answers : good F w -> returns (close_popen answers w) (shut F w).
Proof.
  intros Hg. pose proof Hg as [[I1 I2 I3 I4 I5 I6] _]. destruct (p_closed (the_popen w)) eqn:Hc.
  - unfold close_popen. rewrite Hc. cbn. specialize (I6 eq_refl). split; try done. by apply quiet_owns.
  - destruct (close_open F w answers Hg Hc) as (w1 & -> & Eo & (a & b & c & Ha & Hb & Hc' & Ep) & Ea & Er & Es & _ & Ew & Ec & Et). cbn.
    destruct (end_child_spec answers w1) as [J1 J2 J3 J4 J5 J6 J7 J8]; [congruence|rewrite Ep, Er; exact I3|].
    set (w2 := end_child answers w1) in *. clearbody w2. rewrite Ep in J2. assert (Q : quiet (the_popen w2)) by (rewrite J2; constructor; cbn; (done || lia)).
    split; [done|by rewrite J2|congruence|apply quiet_good; (done || congruence)|congruence|]. constructor; try congruence; intros _; by rewrite J2.
Qed.

(** ** Methods and scripts *)

Definition keeps_good F w (c : call) : Prop := returns c (fun '(_, w') => good F w' /\ keeps w w').
Lemma popen_send_keeps F w args r : good F w -> keeps_good F w (luafan_popen_send args r w).
Proof.
  intros Hg. assert (Hr : forall r, keeps_good F w (result r w)) by (intros x; split; [done|apply popen_keeps_refl]).
  unfold luafan_popen_send, luaL_optlstring, luaL_checklstring.
  assert (Hk : forall o, keeps_good F w (if p_closed (the_popen w) || (stdin_fd (the_popen w) <? 0) then result (Ret [LNil; LStr (lit "stdin is closed")]) w
    else if Zlen (default [] o) =? 0 then result (Ret [LInt 0]) w
    else match (if decide (stdin_fd (the_popen w) ∈ o_fds (p_os w)) then r else WrFail false (lit "Bad file descriptor")) with
         | WrFail again text => if again then result (Ret [LInt 0]) w else result (Ret [LNil; LStr text]) w
         | WrDone n => result (Ret [LInt n]) (pwrote (ztake n (default [] o)) w)
         end)).
  { intros o. destruct (_ || _); [apply Hr|]. destruct (_ =? 0); [apply Hr|]. destruct (if decide _ then r else _) as [[] ?|n]; [apply Hr..|].
    split; [|done]. destruct Hg as [[] Ho]. split; [by constructor|done]. }
  destruct (lua_isnil _); cbn [mbind outcome_bind mret outcome_ret]; [apply Hk|]. destruct (lua_tolstring _); cbn [mbind outcome_bind mret outcome_ret]; [apply Hk|apply Hr].
Qed.
Lemma popen_close_stdin_keeps F w : good F w -> keeps_good F w (luafan_popen_close_stdin w).
Proof.
  intros [[I1 I2 I3 I4 I5 I6] Ho]. unfold luafan_popen_close_stdin, on_os, keeps_good. cbn in Ho. cbn [os_of with_os popen_object].
  destruct (owns_close_fd F _ _ _ (stdin_fd (the_popen w)) (p_os w) Ho) as (o & -> & Ho'); [set_solver|]. cbn [mbind outcome_bind mret outcome_ret].
  set (p := the_popen w) in *. cbn [the_popen set_pos]. fold p. destruct I1 as (A1 & A2 & A3). destruct (Z.leb_spec 0 (stdin_fd p)) as [Hs|Hs].
  - split; [|by constructor]. split.
    + constructor; cbn; try done. intros Hc. destruct (I6 Hc). by constructor.
    + cbn. fold p. change (fd_set (-1)) with (∅ : gset Z). rewrite (sets_first (fd_set (stdin_fd p))) by done. exact Ho'.
  - split; [|done]. split; [by constructor|]. cbn. fold p. assert (E : fd_set (stdin_fd p) = ∅) by (unfold fd_set; by replace (0 <=? _) with false by lia).
    rewrite E, difference_empty_L in Ho'. rewrite E. exact Ho'.
Qed.
Lemma popen_is_alive_keeps F w a : good F w -> keeps_good F w (luafan_popen_is_alive a w).
Proof.
  intros [[I1 I2 I3 I4 I5 I6] Ho]. unfold luafan_popen_is_alive. destruct (Z.leb_spec (child_pid (the_popen w)) 0) as [|Hp]; [split; [by split|apply popen_keeps_refl]|].
  specialize (I3 Hp). cbn zeta. unfold keeps_good, result.
  destruct a; cbn [returns]; (split; [|by constructor]); (split; [|done]);
    (constructor; cbn; rewrite ?I2, ?I3; try done); intros Hc; destruct (I6 Hc); (lia || by constructor).
Qed.
Lemma popen_close_keeps F w answers : good F w -> keeps_good F w (luafan_popen_close answers w).
Proof. intros Hg. unfold luafan_popen_close, keeps_good. eapply returns_bind; [by apply (close_popen_spec F)|]. intros w' []. by split. Qed.

Lemma popen_call_keeps F w c : good F w -> p_alive w = true -> keeps_good F w (popen_call c w).
Proof.
  intros Hg Ha. unfold popen_call, at_popen. rewrite Ha. destruct c.
  - by apply popen_send_keeps.
  - by apply popen_close_stdin_keeps.
  - by apply popen_close_keeps.
  - split; [done|apply popen_keeps_refl].
  - by apply popen_is_alive_keeps.
Qed.
Lemma popen_script_keeps F s : forall w, good F w -> p_alive w = true -> returns (run_script s w) (fun w' => good F w' /\ keeps w w').
Proof.
  induction s as [|c k IH]; intros w Hg Ha; cbn [run_script]; [split; [done|apply popen_keeps_refl]|].
  eapply returns_bind; [by apply (popen_call_keeps F)|]. intros [r w1] [Hg1 Hk1].
  eapply returns_mono; [apply IH; [done|by rewrite (k_alive _ _ Hk1)]|]. intros w2 [Hg2 Hk2]. split; [done|by eapply popen_keeps_trans].
Qed.
End Life.

(** ** Events *)

Section Events.
Context `{LuaAPI}.
Implicit Type w : popen_w.
Implicit Type F : gmap positive regval.

(** A function was called once; its script ran on the object as it was. *)
Record pcalled_once w (n : nat) (r : positive) (args : list lua_value) (s : list lua_value -> pscript) w' : Prop := {
  pc_fun : exists k, o_reg (p_os w) !! r = Some (RFun k) /\ p_calls w' = p_calls w ++ [(k, args)];
  pc_told : p_told w' = (p_told w + n)%nat;
  pc_alive : p_alive w' = p_alive w;
  pc_out : stdout_ev (the_popen w) = None -> stdout_ev (the_popen w') = None;
  pc_err : stderr_ev (the_popen w) = None -> stderr_ev (the_popen w') = None;
  pc_run : exists w1 w2, the_popen w1 = the_popen w /\ run_script (s args) w1 = Ret w2 /\ the_popen w' = the_popen w2
}.
Lemma fan_call_popen F ok r n args s w : good F w -> p_alive w = true -> r ∈ my_refs w ->
  (forall k o, sound (pcalled n k args (set_pos o w))) ->
  returns (fan_call ok r (fun k w => run_script (s args) (pcalled n k args w)) w)
    (fun w' => good F w' /\ (ok = false /\ p_alive w' = true /\ (stdout_ev (the_popen w) = None -> stdout_ev (the_popen w') = None) /\
       (stderr_ev (the_popen w) = None -> stderr_ev (the_popen w') = None) \/ pcalled_once w n r args s w')).
Proof.
  intros Hg Ha Hr Hs. apply fan_call_good; [done|done|intros ->; by left|].
  intros k F' o w1 Hk -> [_ Ho1]. assert (Hg1 : good F' (pcalled n k args (set_pos o w))) by (split; [apply Hs|exact Ho1]).
  destruct (returns_inv _ _ (popen_script_keeps F' (s args) _ Hg1 Ha)) as (w2 & E & Hg2 & [K1 K2 K3 K4 K5]).
  change (with_os o w) with (set_pos o w). rewrite E. cbn. split; [done|]. intros o2. right.
  split; try done; [by exists k|by exists (pcalled n k args (set_pos o w)), w2].
Qed.

(** The reason is reported with how the child ended, if that is known. *)
Definition exit_seen (answers : nat -> waited) w : Z := if 0 <? child_pid (the_popen w) then fst (wait_loop 10 answers w) else -1.
Lemma wait_loop_code n answers w w' : fst (wait_loop n answers w) = fst (wait_loop n answers w').
Proof. revert answers w w'. induction n as [|n IH]; intros answers w w'; [done|]. cbn [wait_loop]. destruct (answers 0%nat); [apply IH|done|apply IH]. Qed.

Record told w r answers reason s w' : Prop := {
  t_fun : exists k, o_reg (p_os w) !! r = Some (RFun k) /\ p_calls w' = p_calls w ++ [(k, [LStr reason; LInt (exit_seen answers w)])];
  t_told : p_told w' = S (p_told w);
  t_run : exists w1 w2, stdout_ev (the_popen w1) = None /\ run_script (s [LStr reason; LInt (exit_seen answers w)]) w1 = Ret w2 /\ the_popen w' = the_popen w2
}.
Lemma try_disconnected_spec F ok answers reason s w : good F w -> p_alive w = true -> p_told w = 0%nat ->
  returns (popen_try_disconnected ok answers reason s w) (fun w' => good F w' /\ p_alive w' = true /\
    (stdout_ev (the_popen w) = None -> stdout_ev (the_popen w') = None) /\ (stderr_ev (the_popen w) = None -> stderr_ev (the_popen w') = None) /\
    (stdout_ev (the_popen w) <> None \/ stderr_ev (the_popen w) <> None \/ p_onDisconnected (the_popen w) = None -> w' = w) /\
    (forall r, stdout_ev (the_popen w) = None -> stderr_ev (the_popen w) = None -> p_onDisconnected (the_popen w) = Some r -> ok = true -> told w r answers reason s w')).
Proof.
  intros Hg Ha Ht. unfold popen_try_disconnected.
  destruct (stdout_ev (the_popen w)) as [p|] eqn:E1; [do 5 (split; [done|]); intros r E; done|].
  destruct (stderr_ev (the_popen w)) as [p|] eqn:E2; [do 5 (split; [done|]); intros r _ E; done|].
  destruct (p_onDisconnected (the_popen w)) as [r|] eqn:E3; [|do 5 (split; [done|]); intros r _ _ E; done].
  set (waited := if 0 <? child_pid (the_popen w) then wait_loop 10 answers w else (-1, w)).
  assert (Hw : fst waited = exit_seen answers w /\ sound (snd waited) /\ p_os (snd waited) = p_os w /\ keeps w (snd waited) /\
    the_popen (snd waited) = set_pid (child_pid (the_popen (snd waited))) (the_popen w)).
  { unfold waited, exit_seen. destruct (Z.ltb_spec 0 (child_pid (the_popen w))) as [Hp|_].
    - destruct Hg as [Hs _]. destruct (wait_loop_spec 10 answers w (i_stray _ Hs) (i_child _ Hs Hp) Hs) as (? & ? & ? & ? & _). done.
    - split; [done|]. split; [apply Hg|]. split; [done|]. split; [apply popen_keeps_refl|]. cbn [snd]. by destruct (the_popen w). }
  destruct waited as [code w1]. cbn [fst snd] in Hw. destruct Hw as (-> & Hs1 & Ho1 & [K1 K2 K3 K4 K5] & Ew1). cbn zeta.
  assert (Hg1 : good F w1). { split; [done|]. destruct Hg as [_ Ho]. cbn in Ho |- *. rewrite Ho1, Ew1. exact Ho. }
  eapply returns_mono; [apply (fan_call_popen F ok r 1); [done|congruence| |]|].
  - cbn. rewrite Ew1. cbn. rewrite E3, !elem_of_app. right. right. by left.
  - intros k o. destruct Hs1 as [I1 I2 I3 I4 I5 I6]. constructor; cbn; try done; [rewrite K3, Ht; lia|]. rewrite (K4 E1), (K5 E2). by intros [?|?].
  - intros w' [Hg' Hc]. split; [done|]. destruct Hc as [(-> & A1 & A2 & A3)|[(k & Hk & C1) C2 C3 C4 C5 (w2 & w3 & R1 & R2 & R3)]].
    + split; [done|]. split; [auto|]. split; [auto|]. split; [by intros [?|[?|?]]|done].
    + split; [congruence|]. split; [auto|]. split; [auto|]. split; [by intros [?|[?|?]]|].
      intros r' _ _ [= <-] _. constructor; [exists k; by rewrite <- Ho1, C1, K2|rewrite C2, K3; lia|].
      exists w2, w3. rewrite R1. auto.
Qed.
End Events.

(** ** Steps *)

Section Steps.
Context `{LuaAPI}.
Implicit Type w : popen_w.
Implicit Type F : gmap positive regval.

Definition drop_out (p : POPEN) : POPEN := set_events None (stderr_ev p) p.
Definition drop_err (p : POPEN) : POPEN := set_events (stdout_ev p) None p.

Lemma drop_sound f o w : sound w -> stdout_ev (the_popen w) <> None \/ stderr_ev (the_popen w) <> None ->
  (exists a b, f (the_popen w) = set_events a b (the_popen w)) -> (p_closed (the_popen w) = true -> stdout_ev (f (the_popen w)) = None /\ stderr_ev (f (the_popen w)) = None) ->
  sound (on_popen f (set_pos o w)).
Proof.
  intros [I1 I2 I3 I4 I5 I6] He (a & b & Ef) Hc. specialize (I5 He). constructor; cbn; rewrite ?Ef; cbn; try done.
  intros Hcl. destruct (I6 Hcl). specialize (Hc Hcl). rewrite Ef in Hc. destruct Hc. by constructor.
Qed.
Lemma drop_out_good F w p : good F w -> stdout_ev (the_popen w) = Some p -> exists o, free_event (stdout_ev (the_popen w)) w = Ret (set_pos o w) /\
  good F (on_popen drop_out (set_pos o w)).
Proof.
  intros [Hs Ho] E. cbn in Ho. rewrite E in Ho |- *. cbn [free_event]. unfold on_os. cbn [os_of with_os popen_object].
  destruct (owns_free F _ _ [] _ p _ (p_os w) Ho) as (o & -> & Ho'). exists o. split; [done|]. split; [|exact Ho'].
  apply drop_sound; [done|rewrite E; by left|by eexists _, _|]. intros Hc. split; [done|]. apply (q_err_ev _ (i_closed _ Hs Hc)).
Qed.
Lemma drop_err_good F w p : good F w -> stderr_ev (the_popen w) = Some p -> exists o, free_event (stderr_ev (the_popen w)) w = Ret (set_pos o w) /\
  good F (on_popen drop_err (set_pos o w)).
Proof.
  intros [Hs Ho] E. cbn in Ho. rewrite E in Ho |- *. cbn [free_event]. unfold on_os. cbn [os_of with_os popen_object].
  destruct (owns_free F _ _ (ev_list (stdout_ev (the_popen w)) (stdout_fd (the_popen w)) false) [] p _ (p_os w) Ho) as (o & -> & Ho'). exists o. split; [done|]. split; [|exact Ho'].
  apply drop_sound; [done|rewrite E; by right|by eexists _, _|]. intros Hc. split; [|done]. apply (q_out_ev _ (i_closed _ Hs Hc)).
Qed.

(** What happens to the object: a script calls it, a pipe has something or has
    ended, it is collected. *)
Inductive pop : Type :=
  | POpScript (s : pscript)
  | POpStdout (ok : bool) (r : readres) (answers : nat -> waited) (s : list lua_value -> pscript)
  | POpStderr (ok : bool) (r : readres) (answers : nat -> waited) (s : list lua_value -> pscript)
  | POpCollect (answers : nat -> waited).
Definition pwatched (p : option positive) w : Prop := exists q e, p = Some q /\ o_events (p_os w) !! q = Some e /\ ue_added e = true.
Definition penabled (o : pop) w : Prop :=
  p_alive w = true /\
  match o with
  | POpStdout _ _ _ _ => pwatched (stdout_ev (the_popen w)) w
  | POpStderr _ _ _ _ => pwatched (stderr_ev (the_popen w)) w
  | _ => True
  end.
Definition pexec (o : pop) w : outcome popen_w :=
  match o with
  | POpScript s => run_script s w
  | POpStdout ok r answers s => popen_stdout_cb ok r answers s w
  | POpStderr ok r answers s => popen_stderr_cb ok r answers s w
  | POpCollect answers => at_popen w (luafan_popen_gc answers w)
  end.

(** The data of an event, and whether it says that the pipe has ended, and why. *)
Definition read_end (what : string) (r : readres) : option (list Z) :=
  match r with
  | RdFail true _ => None
  | RdFail false text => Some text
  | RdGot data => match ztake READ_BUFF_LEN data with [] => Some (lit what) | _ => None end
  end.

Lemma popen_read_spec F what ref ev drop ok r answers s w : good F w -> p_alive w = true -> (forall p, ref = Some p -> p ∈ my_refs w) ->
  (stdout_ev (the_popen w) <> None \/ stderr_ev (the_popen w) <> None) ->
  (exists o, free_event ev w = Ret (set_pos o w) /\ good F (on_popen drop (set_pos o w))) ->
  returns (popen_read_cb what ref ev drop ok r answers s w) (fun w' => good F w' /\ p_alive w' = true /\
    match read_end what r with
    | Some reason => exists o, popen_try_disconnected ok answers reason s (on_popen drop (set_pos o w)) = Ret w' /\ good F (on_popen drop (set_pos o w))
    | None => forall p data, ref = Some p -> r = RdGot data -> ok = true -> pcalled_once w 0 p [LStr (ztake READ_BUFF_LEN data)] s w'
    end).
Proof.
  intros Hg Ha Href Hev (o & Ef & Hg1). unfold popen_read_cb, at_popen. rewrite Ha.
  assert (Ht : p_told (on_popen drop (set_pos o w)) = 0%nat) by (cbn; apply (i_told w); [apply Hg|done]).
  assert (Hend : forall reason, returns (w1 ← free_event ev w; popen_try_disconnected ok answers reason s (on_popen drop w1)) (fun w' => good F w' /\ p_alive w' = true /\
    exists o, popen_try_disconnected ok answers reason s (on_popen drop (set_pos o w)) = Ret w' /\ good F (on_popen drop (set_pos o w)))).
  { intros reason. rewrite Ef. cbn [mbind outcome_bind]. destruct (returns_inv _ _ (try_disconnected_spec F ok answers reason s _ Hg1 Ha Ht)) as (w' & E & Hg' & Ha' & _).
    rewrite E. split; [done|]. split; [done|]. exists o. done. }
  destruct r as [[] text|data]; cbn [read_end].
  - cbn. split; [done|]. split; [done|]. intros p d _ [=].
  - apply Hend.
  - cbn zeta. set (d := ztake READ_BUFF_LEN data). pose proof (Zlen_nonneg d). destruct d as [|b d'] eqn:Ed; [apply Hend|]. rewrite <- Ed in *.
    assert (Hd : 0 < Zlen d) by (rewrite Ed, Zlen_cons; pose proof (Zlen_nonneg d'); lia). replace (Zlen d <=? 0) with false by lia.
    destruct ref as [p|]; cbn [fan_call_opt]; [|split; [done|]; split; [done|]; by intros p d0 [=]].
    eapply returns_mono; [apply (fan_call_popen F ok p 0); [done|done|by apply Href|]|].
    + intros k o1. destruct Hg as [[I1 I2 I3 I4 I5 I6] _]. constructor; cbn; rewrite ?Nat.add_0_r; done.
    + intros w' [Hg' Hc]. split; [done|]. split; [destruct Hc as [(_ & ? & _)|[]]; [done|congruence]|].
      intros q d0 [= <-] [= <-] ->. by destruct Hc as [(? & _)|?].
Qed.

Lemma out_ref F w p : p_onRead (the_popen w) = Some p -> p ∈ my_refs w.
Proof. intros E. cbn. rewrite E. by left. Qed.
Lemma err_ref F w p : p_onStderr (the_popen w) = Some p -> p ∈ my_refs w.
Proof. intros E. cbn. rewrite E, !elem_of_app. right. left. by left. Qed.

Lemma pexec_good F o w : good F w -> penabled o w -> returns (pexec o w) (good F).
Proof.
  intros Hg [Ha He]. destruct o as [s|ok r answers s|ok r answers s|answers]; cbn [pexec].
  - eapply returns_mono; [by apply (popen_script_keeps F)|]. by intros w' [? _].
  - destruct He as (p & e & E & _). eapply returns_mono; [apply (popen_read_spec F)|]; [done|done|by apply out_ref|rewrite E; by left|by eapply drop_out_good|]. by intros w' [? _].
  - destruct He as (p & e & E & _). eapply returns_mono; [apply (popen_read_spec F)|]; [done|done|by apply err_ref|rewrite E; by right|by eapply drop_err_good|]. by intros w' [? _].
  - unfold at_popen. rewrite Ha. unfold luafan_popen_gc. eapply returns_bind; [by apply (close_popen_spec F)|]. intros w' [S1 S2 S3 [Hs Ho] S5 S6]. cbn. split; [|exact Ho]. destruct Hs. by constructor.
Qed.
End Steps.

(** ** Starting *)

Section Start.
Context {T : Type} `{LuaTable T} `{LuaAPI} `{Allocator}.
Context (self : lua_value).
Implicit Type w : popen_w.
Implicit Type F : gmap positive regval.

Lemma user_fits (l : list (lua_value * lua_value)) :
  Zlen (omap env_entry l) <= Zlen (filter (fun kv => string_key kv = true) l) <= Zlen l.
Proof.
  induction l as [|kv l IH]; [done|]. cbn [omap list_omap]. rewrite filter_cons. destruct kv as [[] v]; cbn [string_key env_entry];
    case_decide; try done; try (destruct v); try (destruct (malloc_ok _)); rewrite ?Zlen_cons; lia.
Qed.
Lemma inherited_fits p environ : Zlen (filter (fun e => shadowed p e = false) environ) <= Zlen environ.
Proof. unfold Zlen. apply inj_le, length_filter. Qed.
Lemma merge_env_total (t : T) environ : merge_env t environ <> UB.
Proof.
  unfold merge_env. destruct (malloc_ok _); cbn [negb]; [|done]. destruct (malloc_ok _); cbn [negb]; [|done].
  pose proof (user_fits (t_pairs t)). pose proof (inherited_fits (omap env_entry (t_pairs t)).*1 environ).
  replace (_ <? Zlen (omap env_entry (t_pairs t))) with false by lia. by replace (_ <? _) with false by lia.
Qed.

(** The system gives new descriptors, libevent has memory; the tables of the
    arguments exist, and a word made of a number is not taken away. *)
Definition pipe_fds (p : option (Z * Z)) : list Z := match p with Some (a, b) => [a; b] | None => [] end.
Record psys_ok (y : psys T) (t : T) : Prop := {
  y_distinct : NoDup (pipe_fds (y_pipe y 0) ++ pipe_fds (y_pipe y 1) ++ pipe_fds (y_pipe y 2));
  y_range : Forall (fun fd => 0 <= fd) (pipe_fds (y_pipe y 0) ++ pipe_fds (y_pipe y 1) ++ pipe_fds (y_pipe y 2));
  y_known : forall a, field_of t "command" = LTable a \/ field_of t "env" = LTable a -> is_Some (y_tables y a);
  y_kept : y_gc y = false;
  y_memory : y_events y = true
}.

Lemma check_words_total (t : T) i n : check_words t i n <> UB.
Proof.
  revert i. induction n as [|n IH]; intros i; [done|]. cbn [check_words]. unfold luaL_checklstring. destruct (lua_tolstring _); cbn [mbind outcome_bind]; [|done].
  specialize (IH (i + 1)). by destruct (check_words t (i + 1) n) as [[? ?]| |].
Qed.
Lemma parse_command_total y (t : T) : psys_ok y t -> parse_command (y_tables y) (field_of t "command") <> UB.
Proof.
  intros Hy. unfold parse_command.
  assert (Hend : forall r : outcome (list (list Z) * bool), r <> UB -> ('(argv, held) ← r; match argv with [] => Raise (lit "command is empty") | _ => Ret (argv, held) end) <> UB).
  { intros [[[] ?]| |]; done. }
  apply Hend. destruct (field_of t "command") as [| | | |s|a| |] eqn:E; try done; [by destruct (strdup s)|].
  destruct (y_known _ _ Hy a (or_introl E)) as [t' ->]. destruct (_ =? 0); [done|]. destruct (_ <? _); [done|]. apply check_words_total.
Qed.
Lemma parse_env_total y (t : T) : psys_ok y t -> parse_env (y_tables y) (field_of t "env") (y_environ y) <> UB.
Proof.
  intros Hy. unfold parse_env. destruct (field_of t "env") as [| | | | |a| |] eqn:E; try done.
  destruct (y_known _ _ Hy a (or_intror E)) as [t' ->]. apply merge_env_total.
Qed.

Lemma open_pipe_owns F refs fds evs p o : owns F refs fds evs o -> owns F refs ({[snd p]} ∪ ({[fst p]} ∪ fds)) evs (open_pipe p o).
Proof. intros Ho. by apply owns_open, owns_open. Qed.
Lemma close_pipe_owns F refs fds evs p o : owns F refs fds evs o -> fst p ∈ fds -> snd p ∈ fds -> fst p <> snd p ->
  exists o', close_pipe p o = Ret o' /\ owns F refs (fds ∖ {[fst p]} ∖ {[snd p]}) evs o'.
Proof.
  intros Ho Ha Hb Hne. unfold close_pipe. destruct (owns_close F _ _ _ (fst p) o Ho Ha) as (o1 & -> & Ho1). cbn [mbind outcome_bind].
  apply (owns_close F _ _ _ _ _ Ho1). apply elem_of_difference. by rewrite elem_of_singleton.
Qed.

Ltac set_tauto := cbn; apply set_eq; intros ?x; rewrite ?elem_of_difference, ?elem_of_union, ?elem_of_singleton, ?elem_of_empty; tauto.
Ltac in_set := rewrite ?elem_of_difference, ?elem_of_union, ?elem_of_singleton, ?elem_of_empty; auto 10.
Lemma owns_fds_eq F refs A B evs o : owns F refs A evs o -> A = B -> owns F refs B evs o.
Proof. by intros ? ->. Qed.

Definition pipes_set (p : pipes) : gset Z :=
  {[fst (pipe_stdin p); snd (pipe_stdin p); fst (pipe_stdout p); snd (pipe_stdout p)]} ∪ list_to_set (pipe_fds (pipe_stderr p)).
Definition pipes_list (p : pipes) : list Z :=
  [fst (pipe_stdin p); snd (pipe_stdin p); fst (pipe_stdout p); snd (pipe_stdout p)] ++ pipe_fds (pipe_stderr p).

Lemma open_pipes_spec F y t capture : psys_ok y t -> returns (open_pipes y capture (mk_os F ∅ ∅)) (fun '(r, o) =>
  match r with
  | inr _ => o = mk_os F ∅ ∅
  | inl p => owns F [] (pipes_set p) [] o /\ NoDup (pipes_list p) /\ Forall (fun fd => 0 <= fd) (pipes_list p)
  end).
Proof.
  intros [Hn Hz _ _ _]. unfold open_pipes. pose proof (owns_nothing F) as Ho.
  destruct (y_pipe y 0) as [[a b]|]; [|done]. cbn zeta. apply (open_pipe_owns _ _ _ _ (a, b)) in Ho. cbn [fst snd pipe_fds app] in *.
  set (o1 := open_pipe (a, b) _) in *. clearbody o1. assert (Hab : a <> b) by (apply NoDup_cons in Hn as [Ha _]; by apply not_elem_of_cons in Ha as [? _]).
  destruct (y_pipe y 1) as [[c d]|]; cbn [pipe_fds app] in *.
  2:{ destruct (close_pipe_owns F _ _ _ (a, b) o1 Ho) as (o2 & -> & Ho2); [in_set..|done|]. cbn [mbind outcome_bind fst snd] in *.
      apply owns_done. eapply owns_fds_eq; [exact Ho2|]. set_tauto. }
  apply (open_pipe_owns _ _ _ _ (c, d)) in Ho. cbn [fst snd] in Ho. set (o2 := open_pipe (c, d) _) in *. clearbody o2.
  assert (Hn4 : NoDup [a; b; c; d]) by (by apply (NoDup_app [a; b; c; d] (pipe_fds (y_pipe y 2)))).
  destruct capture.
  - destruct (y_pipe y 2) as [[e f]|]; cbn [pipe_fds app] in *.
    + apply (open_pipe_owns _ _ _ _ (e, f)) in Ho. cbn [fst snd] in Ho. cbn. unfold pipes_set, pipes_list. cbn. split; [|done].
      eapply owns_fds_eq; [exact Ho|]. set_tauto.
    + destruct (close_pipe_owns F _ _ _ (a, b) o2 Ho) as (o3 & -> & Ho3); [in_set..|done|]. cbn [mbind outcome_bind fst snd] in *.
      assert (Hne := Hn4). apart Hne.
      destruct (close_pipe_owns F _ _ _ (c, d) o3 Ho3) as (o4 & -> & Ho4); [cbn [fst snd]; in_set; intuition congruence..|done|]. cbn [mbind outcome_bind fst snd] in *.
      apply owns_done. eapply owns_fds_eq; [exact Ho4|]. set_tauto.
  - cbn. unfold pipes_set, pipes_list. cbn. split; [|split; [done|]].
    + eapply owns_fds_eq; [exact Ho|]. set_tauto.
    + rewrite !Forall_cons in Hz |- *. destruct Hz as (? & ? & ? & ? & _). repeat split; done.
Qed.

Lemma close_pipes_spec F p o : owns F [] (pipes_set p) [] o -> NoDup (pipes_list p) -> close_pipes p o = Ret (mk_os F ∅ ∅).
Proof.
  destruct p as [[a b] [c d] e]. unfold pipes_set, pipes_list, close_pipes. cbn [pipe_stdin pipe_stdout pipe_stderr fst snd app]. intros Ho Hn. apart Hn.
  destruct (close_pipe_owns F _ _ _ (a, b) o Ho) as (o1 & -> & Ho1); [cbn [fst snd]; in_set..|done|]. cbn [mbind outcome_bind fst snd] in *.
  destruct (close_pipe_owns F _ _ _ (c, d) o1 Ho1) as (o2 & -> & Ho2); [cbn [fst snd]; in_set; intuition congruence..|done|]. cbn [mbind outcome_bind fst snd] in *.
  destruct e as [[f g]|]; cbn [pipe_fds close_pipe_opt list_to_set foldr] in *.
  - destruct (close_pipe_owns F _ _ _ (f, g) o2 Ho2) as (o3 & -> & Ho3); [cbn [fst snd]; apart Hn; in_set; intuition congruence..|by apart Hn|].
    f_equal. apply owns_done. eapply owns_fds_eq; [exact Ho3|]. set_tauto.
  - f_equal. apply owns_done. eapply owns_fds_eq; [exact Ho2|]. set_tauto.
Qed.

Lemma fd_set_some fd : 0 <= fd -> fd_set fd = {[fd]}.
Proof. intros Hf. unfold fd_set. by replace (0 <=? fd) with true by lia. Qed.
Definition stderr_of (p : pipes) : Z := match pipe_stderr p with Some (r, _) => r | None => -1 end.
Definition parent_fds (p : pipes) : gset Z := fd_set (snd (pipe_stdin p)) ∪ fd_set (fst (pipe_stdout p)) ∪ fd_set (stderr_of p).

Ltac set_apart := cbn; apply set_eq; intros ?x; rewrite ?elem_of_difference, ?elem_of_union, ?elem_of_singleton, ?elem_of_empty; split; [tauto|intuition congruence].
Lemma close_child_ends_spec F p o : owns F [] (pipes_set p) [] o -> NoDup (pipes_list p) -> Forall (fun fd => 0 <= fd) (pipes_list p) ->
  exists o', close_child_ends p o = Ret o' /\ owns F [] (parent_fds p) [] o' /\
  fd_set (snd (pipe_stdin p)) ## fd_set (fst (pipe_stdout p)) /\ fd_set (snd (pipe_stdin p)) ## fd_set (stderr_of p) /\ fd_set (fst (pipe_stdout p)) ## fd_set (stderr_of p).
Proof.
  destruct p as [[a b] [c d] e]. unfold pipes_set, pipes_list, parent_fds, stderr_of, close_child_ends. cbn [pipe_stdin pipe_stdout pipe_stderr fst snd app].
  intros Ho Hn Hz. apart Hn. rewrite !Forall_cons in Hz. destruct Hz as (Ha & Hb & Hc & Hd & He).
  rewrite (fd_set_some b), (fd_set_some c) by done.
  destruct (owns_close F _ _ _ a o Ho) as (o1 & -> & Ho1); [in_set|]. cbn [mbind outcome_bind].
  destruct (owns_close F _ _ _ d o1 Ho1) as (o2 & -> & Ho2); [in_set; intuition congruence|]. cbn [mbind outcome_bind].
  destruct e as [[f g]|]; cbn [pipe_fds list_to_set foldr] in *.
  - apart Hn. rewrite !Forall_cons in He. destruct He as (Hf & Hg & _). rewrite (fd_set_some f) by done.
    destruct (owns_close F _ _ _ g o2 Ho2) as (o3 & -> & Ho3); [in_set; intuition congruence|]. exists o3. split; [done|]. split.
    + eapply owns_fds_eq; [exact Ho3|]. set_apart.
    + rewrite !disjoint_singleton_l, !elem_of_singleton. split; [congruence|]. split; congruence.
  - exists o2. split; [done|]. change (fd_set (-1)) with (∅ : gset Z). split.
    + eapply owns_fds_eq; [exact Ho2|]. set_apart.
    + rewrite !disjoint_singleton_l, !elem_of_singleton. split; [congruence|]. split; by apply not_elem_of_empty.
Qed.

Lemma popen_watch_spec F (y : psys T) t refs fds e1 e2 wanted fd o : psys_ok y t -> owns F refs fds (e1 ++ e2) o ->
  exists r o', watch y wanted fd o = Ret (r, o') /\ owns F refs fds (e1 ++ ev_list r fd false ++ e2) o' /\ (wanted = false -> r = None).
Proof.
  intros Hy Ho. unfold watch. destruct wanted; [|by exists None, o]. rewrite (y_memory _ _ Hy).
  destruct (owns_watch F refs fds e1 e2 fd false o Ho) as (q & o' & -> & Ho'). by exists (Some q), o'.
Qed.
Lemma make_popen_spec F y (t : T) p pid o : psys_ok y t -> owns F [] (parent_fds p) [] o ->
  fd_set (snd (pipe_stdin p)) ## fd_set (fst (pipe_stdout p)) -> fd_set (snd (pipe_stdin p)) ## fd_set (stderr_of p) -> fd_set (fst (pipe_stdout p)) ## fd_set (stderr_of p) ->
  returns (make_popen y t p pid (set_pos o (no_popen F))) (fun w => good F w /\ p_alive w = true /\ p_calls w = [] /\ child_pid (the_popen w) = pid /\
    (given (p_onRead (the_popen w)) = false -> stdout_ev (the_popen w) = None) /\
    (given (pipe_stderr p) && given (p_onStderr (the_popen w)) = false -> stderr_ev (the_popen w) = None)).
Proof.
  intros Hy Ho A1 A2 A3. unfold make_popen. cbn [p_os set_pos]. fold (stderr_of p).
  destruct (os_func_ref t "onread" o) as [a o1] eqn:E1. pose proof (owns_func_ref F [] [] _ _ _ _ _ _ _ Ho E1) as Ho1.
  destruct (os_func_ref t "onstderr" o1) as [b o2] eqn:E2. pose proof (owns_func_ref F _ [] _ _ _ _ _ _ _ Ho1 E2) as Ho2.
  destruct (os_func_ref t "ondisconnected" o2) as [c o3] eqn:E3. rewrite app_nil_r, <- (app_nil_r (_ ++ _)) in Ho2.
  pose proof (owns_func_ref F _ [] _ _ _ _ _ _ _ Ho2 E3) as Ho3. rewrite app_nil_r, <- app_assoc in Ho3. cbn [app] in Ho3.
  destruct (popen_watch_spec F y t _ _ [] [] (given a) (fst (pipe_stdout p)) o3 Hy Ho3) as (e & o4 & -> & Ho4 & He). cbn [mbind outcome_bind app] in *. rewrite app_nil_r in Ho4.
  rewrite <- (app_nil_r (ev_list _ _ _)) in Ho4.
  destruct (popen_watch_spec F y t _ _ _ [] (given (pipe_stderr p) && given b) (stderr_of p) o4 Hy Ho4) as (f & o5 & -> & Ho5 & Hf). cbn [mbind outcome_bind mret outcome_ret returns].
  rewrite app_nil_r in Ho5. split; [split; [|exact Ho5]|done]. constructor; cbn; try done. lia.
Qed.

(** Whatever fails, nothing is left behind. *)
Lemma popen_spawn_spec F y (t : T) : psys_ok y t -> returns (luafan_popen_spawn self y t F) (fun '(r, w) =>
  (p_alive w = false -> p_os w = mk_os F ∅ ∅) /\ (p_alive w = true -> good F w /\ r = Ret [self] /\ p_calls w = [])).
Proof.
  intros Hy. unfold luafan_popen_spawn. pose proof (parse_command_total y t Hy) as Hcmd. pose proof (parse_env_total y t Hy) as Henv.
  destruct (parse_command _ _) as [[argv held]|e|]; cbn [mbind outcome_bind mret outcome_ret]; [|done..]. destruct (parse_env _ _ _) as [envp|e|]; cbn [mbind outcome_bind mret outcome_ret]; [|done..].
  set (capture := _ || _). eapply returns_bind; [exact (open_pipes_spec F y t capture Hy)|]. intros [[p|text] o] Hr; [|by rewrite Hr]. destruct Hr as (Ho & Hn & Hz).
  rewrite (y_kept _ _ Hy), andb_false_r. destruct (y_spawn y argv envp (file_actions p)) as [pid|text].
  - destruct (close_child_ends_spec F p o Ho Hn Hz) as (o' & -> & Ho' & A1 & A2 & A3). cbn [mbind outcome_bind].
    eapply returns_bind; [by apply (make_popen_spec F y t p pid o')|]. intros w (Hg & Ha & Hc & _). cbn. split; [congruence|done].
  - by rewrite (close_pipes_spec F p o Ho Hn).
Qed.

(** Every state of an object. *)
Inductive preach F : popen_w -> Prop :=
  | preach_spawn y (t : T) r w : psys_ok y t -> luafan_popen_spawn self y t F = Ret (r, w) -> p_alive w = true -> preach F w
  | preach_step o w w' : preach F w -> penabled o w -> pexec o w = Ret w' -> preach F w'.
Lemma preach_good F w : preach F w -> good F w.
Proof.
  induction 1 as [y t r w Hy E Ha|o w w' _ IH He E].
  - pose proof (popen_spawn_spec F y t Hy) as Hs. rewrite E in Hs. destruct Hs as [_ Hs]. by apply Hs.
  - pose proof (pexec_good F o w IH He) as Hs. by rewrite E in Hs.
Qed.
End Start.
