(* ===== verification/PopenProps.v ===== *)
(** * The theorems about child processes

    What a child is given to run with; what the object holds and gives back; what a
    script is told of the child's output and end. *)

From S2P Require Import Prelude Lua LuaState Double Registry TcpdConfig Loop Popen PopenLife.

(** ** What the child is given *)

Section Given.
Context {T : Type} `{LuaTable T} `{LuaAPI} `{Allocator}.

(** *** The words of the command *)

Definition word (s : list Z) : Prop := s <> [] /\ (32 ∉ s) /\ (0 ∉ s).
Fixpoint joined (ws : list (list Z)) : list Z :=
  match ws with
  | [] => []
  | [s] => s
  | s :: ws => s ++ (32 :: joined ws)
  end.
Lemma tokens_word s acc rest : 32 ∉ s -> tokens acc (s ++ rest) = tokens (rev s ++ acc) rest.
Proof.
  revert acc. induction s as [|c s IH]; intros acc Hs; [done|]. apply not_elem_of_cons in Hs as [Hc Hs]. cbn [app tokens].
  destruct (Z.eqb_spec c 32); [congruence|]. rewrite IH by done. cbn [rev]. by rewrite <- app_assoc.
Qed.
Lemma tokens_end s : s <> [] -> tokens (rev s) [] = [s].
Proof.
  intros Hne. cbn [tokens]. destruct (rev s) as [|c r] eqn:E; [|by rewrite <- E, rev_involutive].
  apply (f_equal (@rev Z)) in E. rewrite rev_involutive in E. done.
Qed.
Lemma tokens_space s rest : s <> [] -> tokens (rev s) (32 :: rest) = s :: tokens [] rest.
Proof.
  intros Hne. cbn [tokens]. change (32 =? 32) with true. cbn iota. destruct (rev s) as [|c r] eqn:E; [|by rewrite <- E, rev_involutive].
  apply (f_equal (@rev Z)) in E. rewrite rev_involutive in E. done.
Qed.
Lemma tokens_joined ws : Forall word ws -> tokens [] (joined ws) = ws.
Proof.
  induction 1 as [|s ws [Hne [Hs _]] Hws IH]; [done|]. cbn [joined]. destruct ws as [|s' ws].
  - rewrite <- (app_nil_r s) at 1. rewrite tokens_word, app_nil_r by done. by apply tokens_end.
  - rewrite tokens_word, app_nil_r by done. rewrite tokens_space by done. by rewrite IH.
Qed.
Lemma joined_no_nul ws : Forall word ws -> Forall (fun c => c <> 0) (joined ws).
Proof.
  induction 1 as [|s ws [_ [_ Hs]] _ IH]; [by apply Forall_nil|]. assert (Hs' : Forall (fun c => c <> 0) s) by (apply Forall_forall; intros x Hx ->; done).
  cbn [joined]. destruct ws; [done|]. apply Forall_app. split; [done|]. by apply Forall_cons.
Qed.

(** A command given as a string is its words, at most 255 of them, whatever
    spaces are between them, and there are no quotes; a table is its elements. *)
Lemma command_words tables M ws : mem_upto M -> Forall word ws -> ws <> [] -> Zlen (joined ws) + 1 <= M ->
  parse_command tables (LStr (joined ws)) = Ret (ztake MAX_ARGS ws, true).
Proof.
  intros HM Hws Hne Hl. unfold parse_command, strdup. pose proof (Zlen_nonneg (joined ws)). rewrite (cstr_id _ (joined_no_nul ws Hws)).
  rewrite (malloc_upto M) by (done || lia). rewrite tokens_joined by done. cbn [mbind outcome_bind].
  unfold MAX_ARGS, ztake. by destruct ws.
Qed.

(** *** The environment *)

(** What the child finds under a name. *)
Fixpoint getenv (name : list Z) (env : list (list Z)) : option (list Z) :=
  match env with
  | [] => None
  | e :: env => if bool_decide (env_key e = name /\ name <> e) then Some (zdrop (Zlen name + 1) e) else getenv name env
  end.

Lemma getenv_app name a b : getenv name (a ++ b) = match getenv name a with Some v => Some v | None => getenv name b end.
Proof. induction a as [|e a IH]; [done|]. cbn [getenv app]. by case_bool_decide. Qed.
Lemma env_key_entry k v : 61 ∉ k -> env_key (k ++ [61] ++ v) = k.
Proof.
  induction k as [|c k IH]; intros Hk; [done|]. apply not_elem_of_cons in Hk as [Hc Hk]. cbn [env_key app].
  destruct (Z.eqb_spec c 61); [congruence|]. f_equal. by apply IH.
Qed.

Definition entry_fits (M : Z) (kv : lua_value * lua_value) : Prop :=
  match kv with (LStr k, LStr v) => Zlen k + Zlen v + 2 <= M /\ (61 ∉ k) /\ (0 ∉ k) | _ => True end.

Lemma env_entry_fits M kv : mem_upto M -> entry_fits M kv ->
  env_entry kv = match kv with (LStr k, LStr v) => Some (k, k ++ [61] ++ cstr v) | _ => None end.
Proof.
  intros HM Hf. destruct kv as [[| | | |k| | |] [| | | |v| | |]]; try done. destruct Hf as (Hl & _ & H0'). cbn [env_entry].
  assert (Ek : cstr k = k) by (apply cstr_id, Forall_forall; intros x Hx ->; done). rewrite Ek. pose proof (Zlen_nonneg k). pose proof (Zlen_nonneg (cstr v)).
  assert (Hv : Zlen (cstr v) <= Zlen v).
  { clear. induction v as [|c v IH]; [done|]. cbn [cstr]. destruct (c =? 0); [pose proof (Zlen_nonneg (c :: v)); by rewrite Zlen_nil|]. rewrite !Zlen_cons. lia. }
  by rewrite (malloc_upto M) by (done || lia).
Qed.

(** The entries a script gives, and what they define. *)
Lemma user_keys M l name : mem_upto M -> Forall (entry_fits M) l ->
  name ∈ (omap env_entry l).*1 <-> exists v, (LStr name, LStr v) ∈ l.
Proof.
  intros HM Hl. rewrite list_elem_of_fmap. split.
  - intros ([k e] & -> & Hin). apply list_elem_of_omap in Hin as (kv & Hkv & E). rewrite Forall_forall in Hl. rewrite (env_entry_fits M) in E by auto.
    destruct kv as [[| | | |k'| | |] [| | | |v| | |]]; try done. injection E as <- <-. by exists v.
  - intros [v Hin]. exists (name, name ++ [61] ++ cstr v). split; [done|]. apply list_elem_of_omap. exists (LStr name, LStr v). split; [done|].
    rewrite Forall_forall in Hl. by rewrite (env_entry_fits M) by auto.
Qed.
Lemma entry_getenv M k v name env : mem_upto M -> entry_fits M (LStr k, LStr v) -> 61 ∉ name ->
  getenv name ((k ++ [61] ++ cstr v) :: env) = if decide (k = name) then Some (cstr v) else getenv name env.
Proof.
  intros HM (_ & H61 & _) Hname. cbn [getenv]. rewrite env_key_entry by done. case_decide as Hk.
  - subst k. rewrite bool_decide_eq_true_2.
    + f_equal. rewrite app_assoc. apply zdrop_app_exact. zlen. lia.
    + split; [done|]. intros E. apply (f_equal (@length Z)) in E. rewrite length_app in E. cbn in E. lia.
  - rewrite bool_decide_eq_false_2; [done|]. by intros [? _].
Qed.
Lemma user_getenv_out M l name : mem_upto M -> Forall (entry_fits M) l -> 61 ∉ name -> (forall v, (LStr name, LStr v) ∉ l) ->
  getenv name (omap env_entry l).*2 = None.
Proof.
  intros HM Hl Hname Hout. induction l as [|kv l IH]; [done|]. apply Forall_cons in Hl as [Hkv Hl]. cbn [omap list_omap].
  assert (IH' := IH Hl ltac:(intros v Hin; apply (Hout v); by right)). rewrite (env_entry_fits M kv) by done.
  destruct kv as [[| | | |k| | |] [| | | |v| | |]]; try done. cbn [fmap list_fmap snd]. rewrite (entry_getenv M) by done.
  case_decide as Hk; [|done]. subst k. destruct (Hout v). by left.
Qed.
Lemma user_getenv_in M l name v : mem_upto M -> Forall (entry_fits M) l -> NoDup l.*1 -> 61 ∉ name -> (LStr name, LStr v) ∈ l ->
  getenv name (omap env_entry l).*2 = Some (cstr v).
Proof.
  intros HM Hl Hn Hname Hin. induction l as [|kv l IH]; [by apply not_elem_of_nil in Hin|]. apply Forall_cons in Hl as [Hkv Hl]. rewrite fmap_cons in Hn. apply NoDup_cons in Hn as [Hnot Hn].
  cbn [omap list_omap]. rewrite (env_entry_fits M kv) by done. apply elem_of_cons in Hin as [<- | Hin].
  - cbn [fmap list_fmap snd]. rewrite (entry_getenv M) by done. by rewrite decide_True.
  - specialize (IH Hl Hn Hin). destruct kv as [[| | | |k| | |] [| | | |v'| | |]]; try done. cbn [fmap list_fmap snd]. rewrite (entry_getenv M) by done.
    rewrite decide_False; [done|]. intros ->. apply Hnot, list_elem_of_fmap. by exists (LStr name, LStr v).
Qed.
Lemma inherited_getenv keys environ name : name ∉ keys -> getenv name (filter (fun e => shadowed keys e = false) environ) = getenv name environ.
Proof.
  intros Hn. induction environ as [|e environ IH]; [done|]. rewrite filter_cons. case_decide as Hs; cbn [getenv].
  - by rewrite IH.
  - rewrite IH. rewrite bool_decide_eq_false_2; [done|]. intros [<- _]. apply Hs. unfold shadowed.
    apply not_true_iff_false. rewrite existsb_exists. intros (k & Hk & E). apply bool_decide_eq_true in E. subst k. by apply Hn, list_elem_of_In.
Qed.

(** The child's environment is the script's over the program's: under every
    name it finds the string the table has for it, and otherwise what the program
    itself would find.  The arrays are large enough for the entries. *)
Theorem popen_environment M (t : T) environ : mem_upto M -> Forall (entry_fits M) (t_pairs t) ->
  (Zlen environ + Zlen (t_pairs t) + 1) * 8 <= M ->
  exists env, merge_env t environ = Ret env /\
  forall name, 61 ∉ name -> getenv name env = match t_get t (LStr name) with LStr v => Some (cstr v) | _ => getenv name environ end.
Proof.
  intros HM Hf HM1. set (l := t_pairs t) in *.
  pose proof (user_fits l) as Hc. pose proof (inherited_fits (omap env_entry l).*1 environ) as Hinh.
  pose proof (Zlen_nonneg (omap env_entry l)). pose proof (Zlen_nonneg environ). unfold merge_env. fold l.
  rewrite !(malloc_upto M) by (done || lia). cbn [negb].
  replace (_ <? Zlen (omap env_entry l)) with false by lia.
  set (inherited := filter (fun e => _) environ) in *. replace (_ <? _) with false by lia.
  eexists. split; [done|]. intros name Hname. rewrite getenv_app.
  assert (Hnone : (forall v, t_get t (LStr name) <> LStr v) -> match getenv name (omap env_entry l).*2 with Some v => Some v | None => getenv name inherited end = getenv name environ).
  { intros Hno. assert (Hout : forall v, (LStr name, LStr v) ∉ l) by (intros v Hin; apply t_pairs_get in Hin as [E _]; [by apply (Hno v)|done]).
    rewrite (user_getenv_out M) by done. apply inherited_getenv. rewrite (user_keys M) by done. by intros [v Hin%Hout]. }
  destruct (t_get t (LStr name)) as [| | | |v| | |] eqn:Eg; try (apply Hnone; by intros).
  rewrite (user_getenv_in M l name v); [done|done|done|apply t_pairs_nodup|done|]. apply t_pairs_get; [done|]. by rewrite Eg.
Qed.
End Given.

(** *** The descriptors *)

Definition own_fds (p : pipes) : list Z :=
  [fst (pipe_stdin p); snd (pipe_stdin p); fst (pipe_stdout p); snd (pipe_stdout p)] ++
  match pipe_stderr p with Some (r, w) => [r; w] | None => [] end.
Definition inherited (fds : gmap Z pfd) (x : Z) : option file :=
  match fds !! x with Some f => if pf_cloexec f then None else Some (pf_file f) | None => None end.
(** [pipe] gives descriptors that stay open on [exec]. *)
Definition pipes_open (p : pipes) (fds : gmap Z pfd) : Prop :=
  fds !! fst (pipe_stdin p) = Some (mk_pfd (PipeEnd 0 false) false) /\ fds !! snd (pipe_stdin p) = Some (mk_pfd (PipeEnd 0 true) false) /\
  fds !! fst (pipe_stdout p) = Some (mk_pfd (PipeEnd 1 false) false) /\ fds !! snd (pipe_stdout p) = Some (mk_pfd (PipeEnd 1 true) false) /\
  match pipe_stderr p with
  | Some (r, w) => fds !! r = Some (mk_pfd (PipeEnd 2 false) false) /\ fds !! w = Some (mk_pfd (PipeEnd 2 true) false)
  | None => True
  end.

Lemma child_lookup l fds fds' : run_actions l fds = Some fds' -> exists c, child_fds l fds = Some c /\ forall x, c !! x = inherited fds' x.
Proof.
  intros E. unfold child_fds. rewrite E. eexists. split; [reflexivity|]. intros x. rewrite lookup_omap. unfold inherited. by destruct (fds' !! x) as [[f []]|].
Qed.

Lemma run_dup2 a b f l fds : fds !! a = Some f -> run_actions (Dup2 a b :: l) fds = run_actions l (<[b := mk_pfd (pf_file f) false]> fds).
Proof. intros E. cbn. by rewrite E. Qed.
Lemma run_close a l fds : run_actions (Close a :: l) fds = run_actions l (delete a fds).
Proof. done. Qed.

(** One pipe: an end is made standard, both are closed. *)
Lemma run_pipe std r w end_ f l fds : fds !! end_ = Some f -> r <> std -> w <> std ->
  exists fds', run_actions (Dup2 end_ std :: Close r :: Close w :: l) fds = run_actions l fds' /\
  fds' !! std = Some (mk_pfd (pf_file f) false) /\ fds' !! r = None /\ fds' !! w = None /\
  (forall x, x <> std -> x <> r -> x <> w -> fds' !! x = fds !! x) /\ (forall x, x <> std -> fds !! x = None -> fds' !! x = None).
Proof.
  intros E Hr Hw. rewrite (run_dup2 _ _ f), !run_close by done. eexists. split; [reflexivity|].
  split; [by rewrite !lookup_delete_ne, lookup_insert_eq by congruence|]. split; [|split; [by rewrite lookup_delete_eq|split]].
  - destruct (decide (r = w)) as [->|]; [by rewrite lookup_delete_eq|]. by rewrite lookup_delete_ne, lookup_delete_eq by congruence.
  - intros x ? ? ?. by rewrite !lookup_delete_ne, lookup_insert_ne by congruence.
  - intros x Hx Hn. destruct (decide (x = w)) as [->|]; [by rewrite lookup_delete_eq|]. rewrite lookup_delete_ne by congruence.
    destruct (decide (x = r)) as [->|]; [by rewrite lookup_delete_eq|]. by rewrite lookup_delete_ne, lookup_insert_ne by congruence.
Qed.

Lemma run_first a b f l fds : fds !! a = Some (mk_pfd f false) -> b <> 0 -> a <> b ->
  exists fds', run_actions (Dup2 a 0 :: Close a :: Close b :: l) fds = run_actions l fds' /\
  fds' !! 0 = (if decide (a = 0) then None else Some (mk_pfd f false)) /\ (a <> 0 -> fds' !! a = None) /\ fds' !! b = None /\
  (forall x, x <> 0 -> x <> a -> x <> b -> fds' !! x = fds !! x).
Proof.
  intros E Hb Hab. destruct (decide (a = 0)) as [->|Ha].
  - rewrite (run_dup2 _ _ _ _ _ E), !run_close. eexists. split; [reflexivity|]. rewrite lookup_delete_ne, lookup_delete_eq by congruence.
    split; [done|]. split; [done|]. split; [by rewrite lookup_delete_eq|]. intros x ? ? ?. by rewrite !lookup_delete_ne, lookup_insert_ne by congruence.
  - destruct (run_pipe 0 a b a (mk_pfd f false) l fds E Ha Hb) as (fds' & ? & ? & ? & ? & ? & _). exists fds'. done.
Qed.

(** The child reads its input from the first pipe and writes its output, and
    its errors if they are captured, to the others; no end of these pipes is open
    in it under any other number, so that the end of input and output reach the
    other side.  All else the program has open without close-on-exec stays open in
    the child, the ends of the pipes to its other children included.  When the
    program has no standard input, so that the first pipe is made of descriptor 0,
    the child is left without any. *)
Theorem popen_descriptors p fds : pipes_open p fds -> NoDup (own_fds p) -> fst (pipe_stdin p) = 0 \/ 2 < fst (pipe_stdin p) -> Forall (fun x => 2 < x) (tl (own_fds p)) ->
  exists c, child_fds (file_actions p) fds = Some c /\
  c !! 0 = (if decide (fst (pipe_stdin p) = 0) then None else Some (PipeEnd 0 false)) /\
  c !! 1 = Some (PipeEnd 1 true) /\
  c !! 2 = (match pipe_stderr p with Some _ => Some (PipeEnd 2 true) | None => inherited fds 2 end) /\
  (forall x, 2 < x -> c !! x = if decide (x ∈ own_fds p) then None else inherited fds x).
Proof.
  destruct p as [[a b] [c d] e]. unfold pipes_open, own_fds, file_actions. cbn [pipe_stdin pipe_stdout pipe_stderr fst snd app tl].
  intros (Ha & Hb & Hc & Hd & He) Hn Hlow Hhigh. set (rest := match e with Some _ => _ | None => [] end).
  assert (Hn' := Hn). apart Hn. rewrite !Forall_cons in Hhigh. destruct Hhigh as (B & C & D & E).
  destruct (run_first a b (PipeEnd 0 false) ([Dup2 d 1; Close c; Close d] ++ rest) fds Ha ltac:(lia) ltac:(done)) as (f1 & R1 & L10 & L1a & L1b & L1x).
  destruct (run_pipe 1 c d d (mk_pfd (PipeEnd 1 true) false) rest f1) as (f2 & R2 & L21 & L2c & L2d & L2x & _); [rewrite L1x by lia; done|lia..|].
  assert (R12 : run_actions ([Dup2 a 0; Close a; Close b; Dup2 d 1; Close c; Close d] ++ rest) fds = run_actions rest f2) by (etransitivity; [exact R1|exact R2]).
  assert (Hf3 : exists f3, run_actions rest f2 = Some f3 /\ f3 !! 0 = f2 !! 0 /\ f3 !! 1 = f2 !! 1 /\
    inherited f3 2 = match e with Some _ => Some (PipeEnd 2 true) | None => inherited f2 2 end /\
    (forall x, 2 < x -> f3 !! x = if decide (x ∈ match e with Some (r, w) => [r; w] | None => [] end) then None else f2 !! x)).
  { subst rest. destruct e as [[r w]|]; [|exists f2; do 4 (split; [done|]); intros x Hx; by rewrite decide_False by apply not_elem_of_nil].
    apart Hn. destruct He as [Hr Hw]. rewrite !Forall_cons in E. destruct E as (R & W & _).
    destruct (run_pipe 2 r w w (mk_pfd (PipeEnd 2 true) false) [] f2) as (f3 & R3 & L32 & L3r & L3w & L3x & _); [rewrite L2x, L1x by lia; done|lia..|].
    exists f3. split; [exact R3|]. split; [by rewrite (L3x 0) by (clear -R W; lia)|]. split; [by rewrite (L3x 1) by (clear -R W; lia)|]. split; [unfold inherited; by rewrite L32|].
    intros x Hx. destruct (decide (x ∈ [r; w])) as [Hin|Hin].
    - rewrite !elem_of_cons in Hin. destruct Hin as [->|[->|Hin]]; [done|done|by apply not_elem_of_nil in Hin].
    - rewrite !not_elem_of_cons in Hin. destruct Hin as (Hxr & Hxw & _). apply L3x; [clear -Hx; lia|done|done]. }
  destruct Hf3 as (f3 & R3 & L30 & L31 & L32 & L3x). rewrite R3 in R12. destruct (child_lookup _ _ _ R12) as (ch & Ech & Hch). exists ch. split; [exact Ech|].
  assert (L20 : f2 !! 0 = f1 !! 0) by (apply L2x; lia). assert (L22 : f2 !! 2 = fds !! 2) by (rewrite L2x, L1x by lia; done).
  split; [|split; [|split]].
  - rewrite Hch. unfold inherited. rewrite L30, L20, L10. by destruct (decide (a = 0)).
  - rewrite Hch. unfold inherited. by rewrite L31, L21.
  - rewrite Hch, L32. destruct e; [done|]. unfold inherited. by rewrite L22.
  - intros x Hx. rewrite Hch. unfold inherited. rewrite L3x by done. destruct (decide (x ∈ a :: b :: c :: d :: _)) as [Hin|Hout].
    + rewrite !elem_of_cons in Hin. destruct (decide (x ∈ match e with Some _ => _ | None => [] end)) as [|Hin2]; [done|].
      assert (Hf2 : f2 !! x = None); [|by rewrite Hf2]. destruct Hin as [->|[->|[->|[->|Hin]]]]; [| |done|done|done].
      * rewrite L2x; [apply L1a|..]; lia.
      * rewrite L2x; [done|lia..].
    + rewrite !not_elem_of_cons in Hout. rewrite decide_False by tauto. rewrite L2x, L1x by (tauto || lia). done.
Qed.

(** ** The object *)

Section Object.
Context {T : Type} `{LuaTable T} `{LuaAPI} `{Allocator}.
Context (self : lua_value).
Implicit Type w : popen_w.
Implicit Type F : gmap positive regval.

(** C24: child processes are safe.  [spawn] always returns; when it fails, at
    whatever point, no descriptor is left open.  In any order of method calls,
    output, ends of output and collection every step returns; the object holds
    exactly its three ends of the pipes, its events on them and its callbacks in the
    registry; no signal is sent to a process, and no process waited for, but the
    child that was not waited for yet; and [ondisconnected] is called at most
    once. *)
Theorem popen_safe F w : preach (T := T) self F w ->
  (forall o, penabled o w -> exists w', pexec o w = Ret w') /\
  owns F (my_refs w) (my_fds w) (my_events w) (p_os w) /\ p_stray w = false /\ (p_told w <= 1)%nat /\
  (forall y (t : T), psys_ok y t -> exists r w0, luafan_popen_spawn self y t F = Ret (r, w0) /\ (p_alive w0 = false -> p_os w0 = mk_os F ∅ ∅)).
Proof.
  intros Hr. pose proof (preach_good self F w Hr) as Hg. split; [|split; [apply Hg|split; [apply (i_stray _ (proj1 Hg))|split; [apply (i_once _ (proj1 Hg))|]]]].
  - intros o He. destruct (returns_inv _ _ (pexec_good F o w Hg He)) as (w' & -> & _). by exists w'.
  - intros y t Hy. destruct (returns_inv _ _ (popen_spawn_spec self F y t Hy)) as ([r w0] & -> & Hs & _). eauto.
Qed.

(** *** The end *)

Inductive plater w : popen_w -> Prop :=
  | plater_now : plater w w
  | plater_step o w1 w2 : plater w w1 -> penabled o w1 -> pexec o w1 = Ret w2 -> plater w w2.

Lemma set_pos_id w : set_pos (p_os w) w = w.
Proof. by destruct w. Qed.
Lemma quiet_call c w : quiet (the_popen w) -> p_closed (the_popen w) = true -> p_alive w = true -> exists r, popen_call c w = Ret (r, w).
Proof.
  intros Q Hc Ha. unfold popen_call, at_popen. rewrite Ha. destruct c; unfold result.
  - unfold luafan_popen_send, luaL_optlstring, luaL_checklstring. rewrite Hc. cbn [orb].
    destruct (lua_isnil _); cbn [mbind outcome_bind mret outcome_ret]; [by eexists|]. destruct (lua_tolstring _); cbn [mbind outcome_bind mret outcome_ret]; by eexists.
  - unfold luafan_popen_close_stdin, on_os, os_close_fd. cbn [os_of with_os popen_object]. replace (0 <=? stdin_fd (the_popen w)) with false by (destruct Q; lia).
    cbn [mbind outcome_bind mret outcome_ret]. rewrite set_pos_id. replace (0 <=? stdin_fd (the_popen w)) with false by (destruct Q; lia). by eexists.
  - unfold luafan_popen_close, close_popen. rewrite Hc. by eexists.
  - by eexists.
  - unfold luafan_popen_is_alive. replace (child_pid (the_popen w) <=? 0) with true by (destruct Q; lia). by eexists.
Qed.
Lemma quiet_script s w : quiet (the_popen w) -> p_closed (the_popen w) = true -> p_alive w = true -> run_script s w = Ret w.
Proof.
  intros Q Hc Ha. induction s as [|c k IH]; [done|]. cbn [run_script]. destruct (quiet_call c w Q Hc Ha) as [r ->]. cbn [mbind outcome_bind]. apply IH.
Qed.
Lemma quiet_later w w' : quiet (the_popen w) -> p_closed (the_popen w) = true -> plater w w' -> w' = w \/ w' = set_palive false w.
Proof.
  intros Q Hc. induction 1 as [|o w1 w2 _ IH [Ha He] E]; [by left|]. destruct IH as [-> | ->]; [|done].
  destruct o as [s|ok r answers s|ok r answers s|answers]; cbn [pexec] in E.
  - rewrite quiet_script in E by done. injection E as <-. by left.
  - destruct He as (p & e & Ep & _). by rewrite (q_out_ev _ Q) in Ep.
  - destruct He as (p & e & Ep & _). by rewrite (q_err_ev _ Q) in Ep.
  - unfold at_popen in E. rewrite Ha in E. unfold luafan_popen_gc, close_popen in E. rewrite Hc in E. injection E as <-. by right.
Qed.

Definition pending (answers : nat -> waited) (o : pop) : Prop := o = POpScript (PCall (PClose answers) (fun _ => PDone)) \/ o = POpCollect answers.

Lemma ending_step F w answers o : good F w -> penabled o w -> pending answers o ->
  exists w1 w', close_popen answers w = Ret w1 /\ shut F w w1 /\ pexec o w = Ret w' /\ (w' = w1 \/ w' = set_palive false w1).
Proof.
  intros Hg [Ha He] Hend. destruct (returns_inv _ _ (close_popen_spec F w answers Hg)) as (w1 & E & Hs). exists w1.
  destruct Hend as [-> | ->]; cbn [pexec run_script]; unfold popen_call, at_popen; rewrite Ha; unfold luafan_popen_close, luafan_popen_gc; rewrite E; cbn; eauto 6.
Qed.

(** C25: closing and collecting give everything back: registry, descriptors and
    events are as before the object; nothing changes afterwards, whatever is done
    with it.  A child that was not waited for gets SIGTERM, and SIGKILL if it is
    still running after ten milliseconds; unless [waitpid] fails it is waited for,
    so no dead process is left.  A child that was waited for gets no signal. *)
Theorem popen_released F w answers o : preach (T := T) self F w -> penabled o w -> pending answers o ->
  exists w', pexec o w = Ret w' /\ p_os w' = mk_os F ∅ ∅ /\ p_calls w' = p_calls w /\
  (forall w2, plater w' w2 -> w2 = w' \/ w2 = set_palive false w') /\
  p_signals w' = p_signals w ++ (if 0 <? child_pid (the_popen w) then SIGTERM :: match answers 0%nat, answers 1%nat with StillRunning, StillRunning => [SIGKILL] | _, _ => [] end else []) /\
  (0 < child_pid (the_popen w) -> (forall i, answers i <> WaitFailed) -> answers 2%nat <> StillRunning -> p_reaped w' = true).
Proof.
  intros Hr He Hend. pose proof (preach_good self F w Hr) as Hg. destruct (ending_step F w answers o Hg He Hend) as (w1 & w' & E & [S1 S2 S3 S4 S5 [K1 K2 K3 K4 K5]] & E' & Hw).
  assert (Hch : p_signals w1 = p_signals w ++ (if 0 <? child_pid (the_popen w) then SIGTERM :: match answers 0%nat, answers 1%nat with StillRunning, StillRunning => [SIGKILL] | _, _ => [] end else []) /\
    (0 < child_pid (the_popen w) -> (forall i, answers i <> WaitFailed) -> answers 2%nat <> StillRunning -> p_reaped w1 = true)).
  { destruct (p_closed (the_popen w)) eqn:Hc.
    - unfold close_popen in E. rewrite Hc in E. injection E as <-. destruct (i_closed _ (proj1 Hg) Hc). replace (0 <? _) with false by lia. rewrite app_nil_r. split; [done|lia].
    - destruct (close_open F w answers Hg Hc) as (w0 & E0 & _ & (a & b & c & _ & _ & _ & Ep) & _ & _ & _ & Es & _). rewrite E0 in E. injection E as <-.
      unfold end_child. rewrite Ep. cbn [child_pid]. destruct (Z.ltb_spec 0 (child_pid (the_popen w))) as [Hp|Hp]; [|split; [by rewrite Es, app_nil_r|lia]].
      destruct (answers 0%nat) eqn:A0; [destruct (answers 1%nat) eqn:A1| |]; cbn; rewrite Es; (split; [by rewrite <- ?app_assoc|]); intros _ Hf H2; try done.
      + destruct (answers 2%nat) eqn:A2; try done. by destruct (Hf 2%nat).
      + by destruct (Hf 1%nat).
      + by destruct (Hf 0%nat). }
  exists w'. split; [done|].
  assert (Hs : quiet (the_popen w') /\ p_closed (the_popen w') = true /\ p_os w' = mk_os F ∅ ∅ /\ p_calls w' = p_calls w /\ p_signals w' = p_signals w1 /\ p_reaped w' = p_reaped w1) by (by destruct Hw as [-> | ->]).
  destruct Hs as (Q & Qc & Ho & Hc & -> & ->). split; [done|]. split; [done|]. split; [intros w2 Hl; by apply quiet_later|done].
Qed.

(** *** Output and exit *)

Lemma no_events_step F o w w' : good F w -> penabled o w -> pexec o w = Ret w' -> stdout_ev (the_popen w) = None -> stderr_ev (the_popen w) = None ->
  p_calls w' = p_calls w /\ stdout_ev (the_popen w') = None /\ stderr_ev (the_popen w') = None.
Proof.
  intros Hg [Ha He] E E1 E2. destruct o as [s|ok r answers s|ok r answers s|answers]; cbn [pexec] in E.
  - pose proof (popen_script_keeps F s w Hg Ha) as Hs. rewrite E in Hs. destruct Hs as [_ [K1 K2 K3 K4 K5]]. auto.
  - destruct He as (p & e & Ep & _). congruence.
  - destruct He as (p & e & Ep & _). congruence.
  - unfold at_popen in E. rewrite Ha in E. unfold luafan_popen_gc in E. pose proof (close_popen_spec F w answers Hg) as Hs. destruct (close_popen answers w) as [w1| |]; [|done..].
    injection E as <-. destruct Hs as [S1 S2 S3 S4 S5 [K1 K2 K3 K4 K5]]. cbn. auto.
Qed.
Lemma no_events_later F w w' : good F w -> stdout_ev (the_popen w) = None -> stderr_ev (the_popen w) = None -> plater w w' -> p_calls w' = p_calls w.
Proof.
  intros Hg E1 E2 Hl. enough (good F w' /\ p_calls w' = p_calls w /\ stdout_ev (the_popen w') = None /\ stderr_ev (the_popen w') = None) by tauto.
  induction Hl as [|o w1 w2 _ (Hg1 & Hc & A & B) He E]; [done|]. pose proof (pexec_good F o w1 Hg1 He) as Hg2. rewrite E in Hg2. split; [exact Hg2|].
  destruct (no_events_step F o w1 w2 Hg1 He E A B) as (-> & ? & ?). done.
Qed.

Lemma wait_loop_found n i answers w s : (i < n)%nat -> (forall j, (j < i)%nat -> forall st, answers j <> Ended st) -> answers i = Ended s ->
  fst (wait_loop n answers w) = exit_code s.
Proof.
  revert i answers w. induction n as [|n IH]; intros i answers w Hi Hno He; [lia|]. cbn [wait_loop]. destruct i as [|i]; [by rewrite He|].
  assert (H0' := Hno 0%nat ltac:(lia)). destruct (answers 0%nat) as [|st|]; [|by destruct (H0' st)|];
    (apply (IH i); [lia|intros j Hj; apply (Hno (S j)); lia|done]).
Qed.
Lemma wait_loop_none n answers w : (forall j, (j < n)%nat -> forall st, answers j <> Ended st) -> fst (wait_loop n answers w) = -1.
Proof.
  revert answers w. induction n as [|n IH]; intros answers w Hno; [done|]. cbn [wait_loop]. assert (H0' := Hno 0%nat ltac:(lia)).
  destruct (answers 0%nat) as [|st|]; [|by destruct (H0' st)|]; (apply IH; intros j Hj; apply (Hno (S j)); lia).
Qed.

(** What [ondisconnected] is told: an exit status, 128 and the number of a signal,
    or -1 when the child does not end within ten looks or was seen dead before. *)
Definition seen_in (answers : nat -> waited) w (code : Z) : Prop :=
  (0 < child_pid (the_popen w) -> forall i s, (i < 10)%nat -> (forall j, (j < i)%nat -> forall st, answers j <> Ended st) -> answers i = Ended s -> code = exit_code s) /\
  ((forall j, (j < 10)%nat -> forall st, answers j <> Ended st) \/ child_pid (the_popen w) <= 0 -> code = -1).
Lemma exit_seen_spec answers w : seen_in answers w (exit_seen answers w).
Proof.
  unfold exit_seen. split.
  - intros Hp i s Hi Hno He. replace (0 <? _) with true by lia. by apply (wait_loop_found 10 i).
  - intros Hno. destruct (Z.ltb_spec 0 (child_pid (the_popen w))); [|done]. destruct Hno as [Hno|]; [by apply wait_loop_none|lia].
Qed.

(** The event of one pipe and the state without it. *)
Definition on_stdout (b : bool) (ok : bool) r answers s : pop := if b then POpStdout ok r answers s else POpStderr ok r answers s.
Definition pipe_name (b : bool) : string := if b then "stdout closed" else "stderr closed".
Definition pipe_callback (b : bool) w : option positive := if b then p_onRead (the_popen w) else p_onStderr (the_popen w).
Definition pipe_event (b : bool) w : option positive := if b then stdout_ev (the_popen w) else stderr_ev (the_popen w).
Definition drop_event (b : bool) : POPEN -> POPEN := if b then drop_out else drop_err.
Lemma pipe_step F b ok r answers s w : good F w -> penabled (on_stdout b ok r answers s) w ->
  exists w', pexec (on_stdout b ok r answers s) w = Ret w' /\ good F w' /\ p_alive w' = true /\
    match read_end (pipe_name b) r with
    | Some reason => exists o, popen_try_disconnected ok answers reason s (on_popen (drop_event b) (set_pos o w)) = Ret w' /\ good F (on_popen (drop_event b) (set_pos o w))
    | None => forall p data, pipe_callback b w = Some p -> r = RdGot data -> ok = true -> pcalled_once w 0 p [LStr (ztake READ_BUFF_LEN data)] s w'
    end.
Proof.
  intros Hg [Ha He]. destruct b; cbn [on_stdout pexec] in *; destruct He as (p & e & Ep & _).
  - apply returns_inv. eapply returns_mono; [apply (popen_read_spec F "stdout closed" _ _ drop_out); [done|done|by apply out_ref|rewrite Ep; by left|by eapply drop_out_good]|]. done.
  - apply returns_inv. eapply returns_mono; [apply (popen_read_spec F "stderr closed" _ _ drop_err); [done|done|by apply err_ref|rewrite Ep; by right|by eapply drop_err_good]|]. done.
Qed.

(** What a script is told of its child.  Output, at most 64 KiB at a time, and
    errors each go to their own callback, once, as they are.  The end of one pipe
    while the other is still open is not reported; the end of the second calls
    [ondisconnected] with the reason and how the child ended; nothing is called
    afterwards.  Without [onread] and [onstderr] nothing is watched, so nothing is
    ever reported, [ondisconnected] included; and a child that [is_alive] has seen
    dead is reported with -1 whatever its status was. *)
Theorem popen_output F w b answers s : preach (T := T) self F w ->
  (forall p data, pipe_callback b w = Some p -> data <> [] -> penabled (on_stdout b true (RdGot data) answers s) w ->
     exists w', pexec (on_stdout b true (RdGot data) answers s) w = Ret w' /\ pcalled_once w 0 p [LStr (ztake READ_BUFF_LEN data)] s w') /\
  (forall r reason, read_end (pipe_name b) r = Some reason -> penabled (on_stdout b true r answers s) w -> pipe_event (negb b) w <> None ->
     exists w', pexec (on_stdout b true r answers s) w = Ret w' /\ p_calls w' = p_calls w /\ pipe_event b w' = None) /\
  (forall r reason f, read_end (pipe_name b) r = Some reason -> penabled (on_stdout b true r answers s) w -> pipe_event (negb b) w = None ->
     p_onDisconnected (the_popen w) = Some f -> exists w' k code, pexec (on_stdout b true r answers s) w = Ret w' /\ p_told w' = 1%nat /\
       p_calls w' = p_calls w ++ [(k, [LStr reason; LInt code])] /\ seen_in answers w code) /\
  (stdout_ev (the_popen w) = None -> stderr_ev (the_popen w) = None -> forall w2, plater w w2 -> p_calls w2 = p_calls w) /\
  (forall st, 0 < child_pid (the_popen w) -> exists w', luafan_popen_is_alive (Ended st) w = Ret (Ret [LBool false], w') /\
     the_popen w' = set_pid (-1) (the_popen w) /\ forall code, seen_in answers w' code -> code = -1).
Proof.
  intros Hr. pose proof (preach_good self F w Hr) as Hg. split; [|split; [|split; [|split]]].
  - intros p data Hp Hd He. destruct (pipe_step F b true (RdGot data) answers s w Hg He) as (w' & E & _ & _ & Hc). exists w'. split; [done|].
    replace (read_end (pipe_name b) (RdGot data)) with (@None (list Z)) in Hc by (by destruct data). by apply Hc.
  - intros r reason Hre He Hother. destruct (pipe_step F b true r answers s w Hg He) as (w' & E & _ & _ & Hc). exists w'. split; [done|]. rewrite Hre in Hc.
    destruct Hc as (o & Et & _). unfold popen_try_disconnected in Et. destruct b; cbn in Hother, Et |- *.
    + destruct (stderr_ev (the_popen w)); [|done]. by injection Et as <-.
    + destruct (stdout_ev (the_popen w)) eqn:Eo; [|done]. cbn in Et. by injection Et as <-.
  - intros r reason f Hre He Hother Hf. destruct (pipe_step F b true r answers s w Hg He) as (w' & E & _ & _ & Hc). rewrite Hre in Hc. destruct Hc as (o & Et & Hg1).
    set (w1 := on_popen (drop_event b) (set_pos o w)) in *.
    assert (Hw1 : stdout_ev (the_popen w1) = None /\ stderr_ev (the_popen w1) = None /\ p_onDisconnected (the_popen w1) = Some f /\ child_pid (the_popen w1) = child_pid (the_popen w) /\ p_calls w1 = p_calls w /\ p_alive w1 = true)
      by (destruct He as [Ha _]; by destruct b).
    destruct Hw1 as (A1 & A2 & A3 & A4 & A5 & A6).
    assert (Ht : p_told w1 = 0%nat).
    { change (p_told w1) with (p_told w). apply (i_told w (proj1 Hg)). destruct He as [_ He]. destruct b; cbn in He; destruct He as (q & e & Eq & _); rewrite Eq; [by left|by right]. }
    pose proof (try_disconnected_spec F true answers reason s w1 Hg1 A6 Ht) as Hs. rewrite Et in Hs. destruct Hs as (_ & _ & _ & _ & _ & Htold).
    destruct (Htold f A1 A2 A3 eq_refl) as [(k & _ & Hc) Hn _]. exists w', k, (exit_seen answers w1). split; [done|]. split; [by rewrite Hn, Ht|]. split; [by rewrite Hc, A5|].
    pose proof (exit_seen_spec answers w1) as Hx. unfold seen_in in *. by rewrite A4 in Hx.
  - intros E1 E2 w2. by apply (no_events_later F).
  - intros st Hp. unfold luafan_popen_is_alive. replace (_ <=? 0) with false by lia. eexists. split; [reflexivity|]. split; [done|].
    intros code [_ Hc]. apply Hc. right. cbn. lia.
Qed.
End Object.

(** ** Witnesses *)

Module PopenSample.
#[export] Existing Instances assoc_table plain_lua zero_alloc.

Definition env : alist := [(LStr (lit "HOME"), LStr (lit "/tmp")); (LStr (lit "N"), LInt 3)].
Definition environ : list (list Z) := [lit "HOME=/root"; lit "N=1"; lit "PATH=/bin"].
Definition ends (i : nat) : option (Z * Z) := match i with 0%nat => Some (3, 4) | 1%nat => Some (5, 6) | _ => Some (7, 8) end.
Definition sys : psys alist := mk_psys (fun _ => Some env) false environ ends [] (fun _ _ _ => inl 42) true.
Definition table : alist :=
  [(LStr (lit "command"), LStr (lit "cat  -n")); (LStr (lit "env"), LTable 1); (LStr (lit "onread"), LFun 1); (LStr (lit "onstderr"), LFun 2); (LStr (lit "ondisconnected"), LFun 3)].
Definition started (r : call) : popen_w := match r with Ret (_, w) => w | _ => no_popen ∅ end.
Definition child : popen_w := started (luafan_popen_spawn (LUserdata 9) sys table ∅).
Lemma popen_sys_fits : psys_ok sys table.
Proof.
  constructor; try done.
  - cbn. repeat (apply NoDup_cons; split; [rewrite ?not_elem_of_cons; repeat split; (done || apply not_elem_of_nil)|]). by apply NoDup_nil.
  - cbn. repeat (apply Forall_cons; split; [done|]). by apply Forall_nil.
Qed.
Lemma child_reach : preach (T := alist) (LUserdata 9) ∅ child.
Proof.
  assert (E : exists r, luafan_popen_spawn (LUserdata 9) sys table ∅ = Ret (r, child)) by (eexists; vm_compute; reflexivity).
  destruct E as [r E]. by eapply preach_spawn; [exact popen_sys_fits|exact E|].
Qed.
Lemma child_readable b ok r answers s : penabled (on_stdout b ok r answers s) child.
Proof.
  destruct b; (split; [reflexivity|]).
  - exists 1%positive. eexists. split; [|split]; vm_compute; reflexivity.
  - exists 2%positive. eexists. split; [|split]; vm_compute; reflexivity.
Qed.
Definition running (i : nat) : waited := match i with 2%nat => Ended (Signaled 9) | _ => StillRunning end.
Definition closing : pop := POpScript (PCall (PClose running) (fun _ => PDone)).
(** The errors have ended. *)
Definition half : popen_w := match pexec (POpStderr true (RdGot []) (fun _ => StillRunning) (fun _ => PDone)) child with Ret w => w | _ => child end.
Lemma half_reach : preach (T := alist) (LUserdata 9) ∅ half.
Proof.
  eapply (preach_step _ _ (POpStderr true (RdGot []) (fun _ => StillRunning) (fun _ => PDone)) child); [exact child_reach|exact (child_readable false _ _ _ _)|]. vm_compute. reflexivity.
Qed.

Definition three : pipes := mk_pipes (3, 4) (5, 6) (Some (7, 8)).
(** Descriptor 9 is the input of another child. *)
Definition table_of_fds : gmap Z pfd :=
  list_to_map [(0, mk_pfd (Elsewhere 0) false); (3, mk_pfd (PipeEnd 0 false) false); (4, mk_pfd (PipeEnd 0 true) false); (5, mk_pfd (PipeEnd 1 false) false);
    (6, mk_pfd (PipeEnd 1 true) false); (7, mk_pfd (PipeEnd 2 false) false); (8, mk_pfd (PipeEnd 2 true) false); (9, mk_pfd (PipeEnd 7 true) false)].
End PopenSample.

Section Witnesses.
Import PopenSample.

Lemma popen_environment_witness : exists env', merge_env env environ = Ret env' /\
  getenv (lit "HOME") env' = Some (lit "/tmp") /\ getenv (lit "N") env' = Some (lit "1") /\ getenv (lit "PATH") env' = Some (lit "/bin").
Proof.
  destruct (popen_environment (2 ^ 40) env environ zero_alloc_upto) as (env' & E & Hg).
  - apply Forall_cons. split; [|apply Forall_cons; split; [exact I|by apply Forall_nil]]. split; [vm_compute; discriminate|]. cbn.
    split; rewrite ?not_elem_of_cons; repeat split; (done || apply not_elem_of_nil).
  - vm_compute. discriminate.
  - exists env'. split; [exact E|].
    split; [|split]; (rewrite Hg; [reflexivity|cbn; rewrite ?not_elem_of_cons; repeat split; (done || apply not_elem_of_nil)]).
Defined.

Lemma popen_descriptors_witness : exists c, child_fds (file_actions three) table_of_fds = Some c /\ c !! 0 = Some (PipeEnd 0 false) /\ c !! 4 = None /\ c !! 9 = Some (PipeEnd 7 true).
Proof.
  destruct (popen_descriptors three table_of_fds) as (c & E & H0 & _ & _ & Hx).
  - by repeat split.
  - cbn. repeat (apply NoDup_cons; split; [rewrite ?not_elem_of_cons; repeat split; (done || apply not_elem_of_nil)|]). by apply NoDup_nil.
  - right. reflexivity.
  - cbn. repeat (apply Forall_cons; split; [done|]). by apply Forall_nil.
  - exists c. split; [exact E|]. split; [rewrite H0; reflexivity|]. split; rewrite Hx by done; vm_compute; reflexivity.
Defined.

Lemma popen_safe_witness : (exists w, pexec closing child = Ret w) /\ p_stray child = false.
Proof.
  destruct (popen_safe (LUserdata 9) ∅ child child_reach) as (Hs & _ & Hst & _). split; [|exact Hst]. apply Hs. by split.
Defined.

(** A child that does not react to SIGTERM. *)
Lemma popen_released_witness : exists w, pexec closing child = Ret w /\ o_fds (p_os w) = ∅ /\ p_signals w = [15; 9] /\ p_reaped w = true.
Proof.
  destruct (popen_released (LUserdata 9) ∅ child running closing child_reach (conj eq_refl I) (or_introl eq_refl)) as (w & E & Ho & _ & _ & Hsig & Hre).
  exists w. split; [exact E|]. split; [by rewrite Ho|]. split; [rewrite Hsig; vm_compute; reflexivity|]. apply Hre; [reflexivity| |discriminate].
  intros [|[|[|i]]]; discriminate.
Defined.

(** The child has exited with 3 at the second look. *)
Lemma popen_output_witness : exists w k, pexec (POpStdout true (RdGot []) (fun i => match i with 1%nat => Ended (Exited 3) | _ => StillRunning end) (fun _ => PDone)) half = Ret w /\
  p_calls w = [(k, [LStr (lit "stdout closed"); LInt 3])].
Proof.
  destruct (popen_output (LUserdata 9) ∅ half true (fun i => match i with 1%nat => Ended (Exited 3) | _ => StillRunning end) (fun _ => PDone) half_reach) as (_ & _ & Hend & _).
  destruct (Hend (RdGot []) (lit "stdout closed") 3%positive) as (w & k & code & E & _ & Hc & Hs & _).
  - reflexivity.
  - split; [vm_compute; reflexivity|]. exists 1%positive. eexists. split; [|split]; vm_compute; reflexivity.
  - vm_compute. reflexivity.
  - vm_compute. reflexivity.
  - exists w, k. split; [exact E|]. rewrite Hc. rewrite (Hs ltac:(vm_compute; reflexivity) 1%nat (Exited 3) ltac:(lia)); [vm_compute; reflexivity| |reflexivity].
    intros [|j] Hj st; [discriminate|lia].
Defined.
End Witnesses.
