(* ===== verification/TcpdSsl.v ===== *)
(** * src/tcpd_ssl.c: the TLS contexts connections share

    A context is a Lua userdata that the registry holds under a key made from the
    table given to [connect]; connections with the same key share it and count
    themselves in [retain_count].  OpenSSL is not under src/: what it makes of the
    settings is not modelled, only whether it gives an [SSL_CTX]. *)

From S2P Require Import Prelude ByteArray Lua LuaState Double TcpdConfig.

Record tcpd_ssl_context_t : Type := mk_ssl {
  ssl_ctx : bool;
  cache_key : option (list Z);
  retain_count : Z;
  configured : bool;
  cert_file : option (list Z);
  key_file : option (list Z);
  ca_info : option (list Z);
  ca_path : option (list Z);
  pkcs12_path : option (list Z);
  pkcs12_password : option (list Z);
  verify_peer : Z;
  verify_host : Z
}.

(** The contexts that have not been collected, and the registry fields that hold
    one. *)
Record ssl_store : Type := mk_store {
  contexts : gmap positive tcpd_ssl_context_t;
  cache : gmap (list Z) positive
}.

Definition set_retain (n : Z) (c : tcpd_ssl_context_t) : tcpd_ssl_context_t :=
  mk_ssl (ssl_ctx c) (cache_key c) n (configured c) (cert_file c) (key_file c) (ca_info c) (ca_path c)
    (pkcs12_path c) (pkcs12_password c) (verify_peer c) (verify_host c).
Definition set_key (k : option (list Z)) (c : tcpd_ssl_context_t) : tcpd_ssl_context_t :=
  mk_ssl (ssl_ctx c) k (retain_count c) (configured c) (cert_file c) (key_file c) (ca_info c) (ca_path c)
    (pkcs12_path c) (pkcs12_password c) (verify_peer c) (verify_host c).
Definition put_context (a : positive) (c : tcpd_ssl_context_t) (s : ssl_store) : ssl_store :=
  mk_store (<[a := c]> (contexts s)) (cache s).

Section Ssl.
Context {T : Type} `{LuaTable T} `{Allocator} `{LuaAPI}.

(** ** The key *)

Definition add_string_field (t : T) (key : string) (missing : list Z) (ba : BYTEARRAY) : outcome BYTEARRAY :=
  let v := match lua_tostring (field_of t key) with Some v => v | None => missing end in
  '(_, ba) ← bytearray_writebuffer ba v; mret ba.

(** [raw] is the [BYTEARRAY ba = {0}]; [strdup] copies up to the first NUL. *)
Definition tcpd_ssl_generate_cache_key_from_table (t : T) : outcome (list Z) :=
  let '(_, ba) := bytearray_alloc (mk_ba 0 0 0 None 0 false false) 1024 in
  '(_, ba) ← bytearray_writebuffer ba (lit "SSL_CTX:");
  ba ← add_string_field t "cainfo" (lit "default_ca") ba;
  '(_, ba) ← bytearray_write8 ba 0x1F;
  ba ← add_string_field t "capath" [] ba;
  '(_, ba) ← bytearray_write8 ba 0x1F;
  ba ← add_string_field t "pkcs12.path" [] ba;
  '(_, ba) ← bytearray_write8 ba 0x1F;
  ba ← add_string_field t "pkcs12.password" [] ba;
  '(_, ba) ← bytearray_write8 ba 0;
  let '(_, ba) := bytearray_read_ready ba in
  match ba_buffer ba with Some b => mret (cstr b) | None => UB end.

(** ** Contexts *)

(** A new userdata; nothing refers to it yet but the stack. *)
Definition tcpd_ssl_context_create (s : ssl_store) : positive * ssl_store :=
  let a := fresh (dom (contexts s)) in
  (a, put_context a (mk_ssl false None 1 false None None None None None None 1 1) s).

Definition string_field (t : T) (key : string) (old : option (list Z)) : option (list Z) :=
  let v := field_of t key in if lua_isstring v then lua_tostring v else old.

(** [new_ctx]: OpenSSL gave an [SSL_CTX]. *)
Definition tcpd_ssl_context_configure (new_ctx : bool) (t : T) (c : tcpd_ssl_context_t) : Z * tcpd_ssl_context_t :=
  if configured c then (0, c)
  else
    let c := mk_ssl new_ctx (cache_key c) (retain_count c) false
      (string_field t "cert" (cert_file c)) (string_field t "key" (key_file c))
      (string_field t "cainfo" (ca_info c)) (string_field t "capath" (ca_path c))
      (string_field t "pkcs12.path" (pkcs12_path c)) (string_field t "pkcs12.password" (pkcs12_password c))
      (int_field t "ssl_verifypeer" (verify_peer c)) (int_field t "ssl_verifyhost" (verify_host c)) in
    if negb new_ctx then (-1, c)
    else (0, mk_ssl true (cache_key c) (retain_count c) true (cert_file c) (key_file c) (ca_info c) (ca_path c)
               (pkcs12_path c) (pkcs12_password c) (verify_peer c) (verify_host c)).

(** A registry field that is not nil holds a context that is alive. *)
Definition tcpd_ssl_context_get_or_create (key : list Z) (s : ssl_store) : outcome (positive * ssl_store) :=
  match cache s !! key with
  | Some a =>
      match contexts s !! a with
      | Some c => Ret (a, put_context a (set_retain (retain_count c + 1) c) s)
      | None => UB
      end
  | None =>
      let '(a, s) := tcpd_ssl_context_create s in
      match contexts s !! a with
      | Some c => Ret (a, mk_store (<[a := set_key (Some key) c]> (contexts s)) (<[key := a]> (cache s)))
      | None => UB
      end
  end.

Definition tcpd_ssl_context_retain (a : positive) (s : ssl_store) : outcome ssl_store :=
  match contexts s !! a with Some c => Ret (put_context a (set_retain (retain_count c + 1) c) s) | None => UB end.

(** [has_L]: the connection still knows its Lua state. *)
Definition tcpd_ssl_context_release (a : positive) (has_L : bool) (s : ssl_store) : outcome ssl_store :=
  match contexts s !! a with
  | Some c =>
      let prev := retain_count c in
      let s := put_context a (set_retain (prev - 1) c) s in
      if prev <=? 1 then
        match cache_key c with
        | Some key => if has_L then Ret (mk_store (contexts s) (delete key (cache s))) else Ret s
        | None => Ret s
        end
      else Ret s
  | None => UB
  end.

(** The collector takes a context the registry does not hold. *)
Definition tcpd_ssl_context_gc (a : positive) (s : ssl_store) : ssl_store := mk_store (delete a (contexts s)) (cache s).

(** What [tcpd_connect] does for TLS: the key, the context and its configuration. *)
Definition tls_setup (new_ctx : bool) (t : T) (s : ssl_store) : outcome (positive * Z * ssl_store) :=
  key ← tcpd_ssl_generate_cache_key_from_table t;
  '(a, s) ← tcpd_ssl_context_get_or_create key s;
  match contexts s !! a with
  | Some c => let '(r, c) := tcpd_ssl_context_configure new_ctx t c in Ret (a, r, put_context a c s)
  | None => UB
  end.
End Ssl.

(** ** The key as a text *)

Section Key.
Context {T : Type} `{LuaTable T} `{Allocator} `{LuaAPI}.

Definition field_text (t : T) (key : string) (missing : list Z) : list Z :=
  match lua_tostring (field_of t key) with Some v => v | None => missing end.
Definition key_text (t : T) : list Z :=
  lit "SSL_CTX:" ++ field_text t "cainfo" (lit "default_ca") ++ 31 :: field_text t "capath" [] ++
    31 :: field_text t "pkcs12.path" [] ++ 31 :: field_text t "pkcs12.password" [].

Lemma field_text_no_nul t key missing : 0 ∉ missing -> 0 ∉ field_text t key missing.
Proof.
  intros Hm. unfold field_text, lua_tostring. destruct (lua_tolstring _); [apply cstr_no_nul|done].
Qed.
Lemma key_text_no_nul t : 0 ∉ key_text t.
Proof.
  assert (Hl : forall s : list Z, bool_decide (0 ∈ s) = false -> 0 ∉ s) by (intros s; by rewrite bool_decide_eq_false).
  unfold key_text. rewrite !not_elem_of_app, !not_elem_of_cons, !not_elem_of_app, !not_elem_of_cons, !not_elem_of_app, !not_elem_of_cons.
  repeat split; try (by apply Hl); try lia; apply field_text_no_nul; by apply Hl.
Qed.

Section Writing.
Context (M : Z) (HM : mem_upto M) (HM2 : 2 ^ 32 <= M < 2 ^ 62).

Lemma write_text ba l v : writer ba l -> bytes_ok v -> 2 * (Zlen l + Zlen v) + 128 <= M ->
  exists ba', bytearray_writebuffer ba v = Ret (true, ba') /\ writer ba' (l ++ v).
Proof. intros Hw Hv Hf. unfold bytearray_writebuffer. by apply (write_append M); [..|lia]. Qed.

(** A field and the byte after it. *)
Lemma field_then t key missing sep ba l :
  writer ba l -> bytes_ok (field_text t key missing) -> is_byte sep ->
  2 * (Zlen l + Zlen (field_text t key missing) + 1) + 128 <= M ->
  exists ba', (forall A (k : BYTEARRAY -> outcome A),
      (ba ← add_string_field t key missing ba; '(_, ba) ← bytearray_write8 ba sep; k ba) = k ba') /\
    writer ba' (l ++ field_text t key missing ++ [sep]).
Proof.
  intros Hw Hok Hsep Hf.
  destruct (write_text ba l _ Hw Hok) as (b1 & E1 & W1); [lia|].
  destruct (write8_append M b1 _ sep HM W1) as (b2 & E2 & W2); [rewrite Zlen_app; lia|lia|].
  exists b2. split.
  { intros A k. unfold add_string_field. fold (field_text t key missing). rewrite E1. cbn [mbind outcome_bind mret outcome_ret]. by rewrite E2. } rewrite <- app_assoc in W2. by rewrite u8_small in W2.
Qed.

Lemma key_text_split t : key_text t ++ [0] =
  (((lit "SSL_CTX:" ++ field_text t "cainfo" (lit "default_ca") ++ [31]) ++ field_text t "capath" [] ++ [31]) ++
    field_text t "pkcs12.path" [] ++ [31]) ++ field_text t "pkcs12.password" [] ++ [0].
Proof.
  unfold key_text. generalize (lit "SSL_CTX:") (field_text t "cainfo" (lit "default_ca")) (field_text t "capath" [])
    (field_text t "pkcs12.path" []) (field_text t "pkcs12.password" []). intros f0 f1 f2 f3 f4.
  by repeat (rewrite <- app_assoc; cbn [app]).
Qed.

Lemma fields_ok t : bytes_ok (key_text t) ->
  bytes_ok (field_text t "cainfo" (lit "default_ca")) /\ bytes_ok (field_text t "capath" []) /\
  bytes_ok (field_text t "pkcs12.path" []) /\ bytes_ok (field_text t "pkcs12.password" []).
Proof.
  intros Hok. assert (Hok' : bytes_ok (key_text t ++ [0])).
  { apply bytes_ok_app. split; [done|]. apply Forall_singleton. unfold is_byte. lia. }
  rewrite key_text_split, !bytes_ok_app in Hok'. tauto.
Qed.

Lemma generate_key_spec t : bytes_ok (key_text t) -> 2 * Zlen (key_text t) + 130 <= M ->
  tcpd_ssl_generate_cache_key_from_table t = Ret (key_text t).
Proof.
  intros Hok Hf. destruct (fields_ok t Hok) as (B1 & B2 & B3 & B4).
  assert (Hlen : 2 * Zlen (key_text t ++ [0]) + 128 <= M) by (rewrite Zlen_app, Zlen_cons, Zlen_nil; lia).
  rewrite key_text_split, !Zlen_app, !Zlen_cons, Zlen_nil in Hlen.
  repeat match type of Hlen with context [Zlen ?l] => lazymatch goal with _ : 0 <= Zlen l |- _ => fail | _ => pose proof (Zlen_nonneg l) end end.
  unfold tcpd_ssl_generate_cache_key_from_table.
  destruct (alloc_writer M (mk_ba 0 0 0 None 0 false false) 1024 HM) as (b0 & -> & W0); [lia|].
  destruct (write_text b0 [] (lit "SSL_CTX:") W0) as (b1 & -> & W1); [repeat constructor; done|rewrite Zlen_nil; lia|].
  cbn [mbind outcome_bind]. cbn [app] in W1.
  assert (B31 : is_byte 31) by done. assert (B0 : is_byte 0) by done.
  destruct (field_then t "cainfo" (lit "default_ca") 31 b1 _ W1 B1 B31) as (b2 & E2 & W2); [lia|].
  destruct (field_then t "capath" [] 31 b2 _ W2 B2 B31) as (b3 & E3 & W3); [rewrite !Zlen_app, !Zlen_cons, Zlen_nil; lia|].
  destruct (field_then t "pkcs12.path" [] 31 b3 _ W3 B3 B31) as (b4 & E4 & W4); [rewrite !Zlen_app, !Zlen_cons, Zlen_nil; lia|].
  destruct (field_then t "pkcs12.password" [] 0 b4 _ W4 B4 B0) as (b5 & E5 & W5); [rewrite !Zlen_app, !Zlen_cons, Zlen_nil; lia|].
  rewrite E2, E3, E4, E5.
  rewrite <- key_text_split in W5. pose proof (key_text_no_nul t) as Hnul. clear -W5 Hnul.
  generalize dependent (key_text t). intros kt W5 Hnul. destruct (writer_read_ready _ _ W5) as (b6 & -> & _ & _ & _ & Hl).
  unfold mem_load in Hl. rewrite Zlen_app, Zlen_cons, Zlen_nil in Hl. pose proof (Zlen_nonneg kt).
  destruct (Z.eqb_spec (Zlen kt + (1 + 0)) 0); [lia|]. destruct (ba_buffer b6) as [b|]; [|done].
  case_match; [|done]. injection Hl as Hl. rewrite zdrop_0 in Hl.
  rewrite <- (ztake_zdrop (Zlen kt + (1 + 0)) b), Hl, <- app_assoc. cbn [app mret outcome_ret].
  by rewrite cstr_app_nul.
Qed.
End Writing.

(** Texts without the separator can be told apart. *)
Lemma app_sep_inj (a b a' b' : list Z) x : x ∉ a -> x ∉ a' -> a ++ x :: b = a' ++ x :: b' -> a = a' /\ b = b'.
Proof.
  revert a'. induction a as [|c a IH]; intros [|c' a'] Ha Ha' E; cbn in E.
  - by injection E.
  - injection E as -> _. apply not_elem_of_cons in Ha'. by destruct Ha'.
  - injection E as -> _. apply not_elem_of_cons in Ha. by destruct Ha.
  - injection E as -> E. apply not_elem_of_cons in Ha as [_ Ha], Ha' as [_ Ha']. destruct (IH a' Ha Ha' E) as [-> ->]. done.
Qed.

Definition key_fields (t : T) : list (list Z) :=
  [field_text t "cainfo" (lit "default_ca"); field_text t "capath" []; field_text t "pkcs12.path" []; field_text t "pkcs12.password" []].
Definition no_separator (t : T) : Prop := Forall (fun f => 31 ∉ f) (key_fields t).

Lemma joined_inj (p a b c d a' b' c' d' : list Z) x :
  Forall (fun f => x ∉ f) [a; b; c; d] -> Forall (fun f => x ∉ f) [a'; b'; c'; d'] ->
  p ++ a ++ x :: b ++ x :: c ++ x :: d = p ++ a' ++ x :: b' ++ x :: c' ++ x :: d' <-> [a; b; c; d] = [a'; b'; c'; d'].
Proof.
  rewrite !Forall_cons. intros (A1 & A2 & A3 & _) (B1 & B2 & B3 & _). split.
  - intros E%app_inv_head. apply app_sep_inj in E as [-> E]; [|done..]. apply app_sep_inj in E as [-> E]; [|done..].
    apply app_sep_inj in E as [-> ->]; done.
  - intros [= -> -> -> ->]. done.
Qed.
Lemma key_text_inj t1 t2 : no_separator t1 -> no_separator t2 -> key_text t1 = key_text t2 <-> key_fields t1 = key_fields t2.
Proof. apply joined_inj. Qed.
End Key.

(** ** Connections sharing contexts *)

Section Sharing.
Context {T : Type} `{LuaTable T} `{Allocator} `{LuaAPI}.

(** Which connection holds which context. *)
Record ssl_world : Type := mk_world { w_store : ssl_store; w_holders : gmap positive positive }.

Inductive ssl_op : Type :=
  | Connect (conn : positive) (new_ctx : bool) (t : T)
  | Disconnect (conn : positive)
  | Collect (a : positive).

Definition ssl_exec (o : ssl_op) (w : ssl_world) : outcome ssl_world :=
  match o with
  | Connect conn new_ctx t =>
      '(a, _, s) ← tls_setup new_ctx t (w_store w); mret (mk_world s (<[conn := a]> (w_holders w)))
  | Disconnect conn =>
      match w_holders w !! conn with
      | Some a => s ← tcpd_ssl_context_release a true (w_store w); mret (mk_world s (delete conn (w_holders w)))
      | None => UB
      end
  | Collect a => mret (mk_world (tcpd_ssl_context_gc a (w_store w)) (w_holders w))
  end.

(** The strings of the table fit in memory; the collector takes only what the
    registry does not hold. *)
Definition fits_in (M : Z) (t : T) : Prop := bytes_ok (key_text t) /\ 2 * Zlen (key_text t) + 130 <= M.
Definition ssl_enabled_op (M : Z) (o : ssl_op) (w : ssl_world) : Prop :=
  match o with
  | Connect conn _ t => w_holders w !! conn = None /\ fits_in M t
  | Disconnect conn => is_Some (w_holders w !! conn)
  | Collect a => forall k, cache (w_store w) !! k <> Some a
  end.

Inductive ssl_reachable (M : Z) : ssl_world -> Prop :=
  | ssl_start : ssl_reachable M (mk_world (mk_store ∅ ∅) ∅)
  | ssl_step o w w' : ssl_reachable M w -> ssl_enabled_op M o w -> ssl_exec o w = Ret w' -> ssl_reachable M w'.

Definition held (a : positive) (h : gmap positive positive) : nat := size (filter (fun p => p.2 = a) h).

Lemma held_insert a b conn h : h !! conn = None -> held b (<[conn := a]> h) = (if decide (a = b) then S (held b h) else held b h).
Proof.
  intros Hn. unfold held. destruct (decide (a = b)) as [->|Hne].
  - rewrite map_filter_insert_True by done. rewrite map_size_insert_None; [done|]. apply map_lookup_filter_None. by left.
  - rewrite map_filter_insert_False by done. by rewrite delete_id.
Qed.
Lemma held_delete a b conn h : h !! conn = Some a -> held b h = (if decide (a = b) then S (held b (delete conn h)) else held b (delete conn h)).
Proof.
  intros Hc. rewrite <- (insert_delete_id h conn a Hc) at 1. rewrite held_insert by apply lookup_delete_eq. done.
Qed.
Lemma held_some conn a h : h !! conn = Some a -> (0 < held a h)%nat.
Proof. intros Hc. rewrite (held_delete a a conn h Hc). rewrite decide_True by done. lia. Qed.
Lemma held_none a h : (forall conn, h !! conn <> Some a) -> held a h = O.
Proof.
  intros Hn. unfold held. apply map_size_empty_iff, map_empty. intros i.
  apply map_lookup_filter_None. right. intros x Hx E. cbn in E. subst. by apply (Hn i).
Qed.

(** Every context a connection holds is the registry's for its key; every
    registered context counts its holders, and has one. *)
Record ssl_inv (w : ssl_world) : Prop := {
  v_holders : forall conn a, w_holders w !! conn = Some a -> exists c k,
    contexts (w_store w) !! a = Some c /\ cache_key c = Some k /\ cache (w_store w) !! k = Some a;
  v_cache : forall k a, cache (w_store w) !! k = Some a -> exists c,
    contexts (w_store w) !! a = Some c /\ cache_key c = Some k /\ retain_count c = Z.of_nat (held a (w_holders w)) /\
    (0 < held a (w_holders w))%nat
}.

Lemma ssl_inv_start : ssl_inv (mk_world (mk_store ∅ ∅) ∅).
Proof. constructor; intros ? ?; cbn; by rewrite lookup_empty. Qed.

(** Configuring keeps the key and the count. *)
Lemma configure_keeps new_ctx t c r c' :
  tcpd_ssl_context_configure new_ctx t c = (r, c') -> cache_key c' = cache_key c /\ retain_count c' = retain_count c.
Proof. unfold tcpd_ssl_context_configure. destruct (configured c), new_ctx; by intros [= <- <-]. Qed.

(** What a connection gets, and that it may then be configured. *)
Definition acquires (key : list Z) (s : ssl_store) (h : gmap positive positive) (conn : positive) : Prop :=
  exists a c s', tcpd_ssl_context_get_or_create key s = Ret (a, s') /\ contexts s' !! a = Some c /\
    forall c', cache_key c' = cache_key c -> retain_count c' = retain_count c ->
      ssl_inv (mk_world (put_context a c' s') (<[conn := a]> h)).

Lemma acquire_cached key s h conn a : ssl_inv (mk_world s h) -> h !! conn = None -> cache s !! key = Some a -> acquires key s h conn.
Proof.
  intros Hi Hn Hk. unfold acquires, tcpd_ssl_context_get_or_create. rewrite Hk.
  destruct (v_cache _ Hi key a Hk) as (c & Hc & Hkey & Hr & Hp). cbn [w_store w_holders] in *. rewrite Hc.
  exists a, (set_retain (retain_count c + 1) c), (put_context a (set_retain (retain_count c + 1) c) s).
  split; [done|]. split; [apply lookup_insert_eq|]. intros c' Ek Er. cbn [cache_key retain_count set_retain] in *.
  constructor; cbn [w_store w_holders put_context contexts cache].
  + intros conn' b Hb. destruct (decide (conn' = conn)) as [->|].
    * rewrite lookup_insert_eq in Hb. injection Hb as <-. exists c', key. rewrite lookup_insert_eq. by rewrite Ek.
    * rewrite lookup_insert_ne in Hb by done. destruct (v_holders _ Hi conn' b Hb) as (cb & k & Hcb & Hkb & Hcache).
      cbn in Hcb, Hcache. destruct (decide (a = b)) as [<-|Hab].
      -- exists c', k. rewrite lookup_insert_eq. split; [done|]. split; [by rewrite Ek; rewrite Hc in Hcb; simplify_eq|done].
      -- exists cb, k. by rewrite !lookup_insert_ne.
  + intros k b Hb. destruct (v_cache _ Hi k b Hb) as (cb & Hcb & Hkb & Hrb & Hpb). cbn in *. rewrite held_insert by done.
    destruct (decide (a = b)) as [<-|Hab].
    * exists c'. rewrite lookup_insert_eq. split; [done|]. rewrite Hc in Hcb. injection Hcb as <-.
      split; [by rewrite Ek|]. rewrite Er, Hrb. split; lia.
    * exists cb. rewrite !lookup_insert_ne by done. done.
Qed.

Lemma acquire_new key s h conn : ssl_inv (mk_world s h) -> h !! conn = None -> cache s !! key = None -> acquires key s h conn.
Proof.
  intros Hi Hn Hk. unfold acquires, tcpd_ssl_context_get_or_create. rewrite Hk.
  cbn [tcpd_ssl_context_create]. set (a := fresh (dom (contexts s))).
  assert (Ha : contexts s !! a = None) by (apply not_elem_of_dom, is_fresh).
  assert (Hah : forall conn', h !! conn' <> Some a).
  { intros conn' Hc'. destruct (v_holders _ Hi conn' a Hc') as (? & ? & Hc & _). cbn in Hc. congruence. }
  cbn [put_context contexts cache]. rewrite lookup_insert_eq. eexists a, _, _. split; [reflexivity|].
  cbn [contexts cache set_key]. split; [apply lookup_insert_eq|]. intros c' Ek Er. cbn [cache_key retain_count] in *.
  constructor; cbn [w_store w_holders put_context contexts cache].
  + intros conn' b Hb. destruct (decide (conn' = conn)) as [->|].
    * rewrite lookup_insert_eq in Hb. injection Hb as <-. exists c', key. by rewrite !lookup_insert_eq, Ek.
    * rewrite lookup_insert_ne in Hb by done. destruct (v_holders _ Hi conn' b Hb) as (cb & k & Hcb & Hkb & Hcache).
      cbn in Hcb, Hcache. assert (a <> b) by (intros ->; congruence). assert (k <> key) by (intros ->; congruence).
      exists cb, k. by rewrite !lookup_insert_ne.
  + intros k b Hb. rewrite held_insert by done. destruct (decide (k = key)) as [->|Hne].
    * rewrite lookup_insert_eq in Hb. injection Hb as <-. exists c'. rewrite lookup_insert_eq, decide_True by done.
      rewrite Ek, Er, held_none by done. split; [done|]. split; [done|]. split; cbn; lia.
    * rewrite lookup_insert_ne in Hb by done. destruct (v_cache _ Hi k b Hb) as (cb & Hcb & Hkb & Hrb & Hpb). cbn in *.
      assert (a <> b) by (intros ->; congruence). exists cb. by rewrite !lookup_insert_ne, decide_False.
Qed.

Lemma connect_inv M conn new_ctx t w : mem_upto M -> 2 ^ 32 <= M < 2 ^ 62 ->
  ssl_inv w -> w_holders w !! conn = None -> fits_in M t -> exists w', ssl_exec (Connect conn new_ctx t) w = Ret w' /\ ssl_inv w'.
Proof.
  intros HM HM2 Hi Hn [Hok Hf]. destruct w as [s h]. cbn [ssl_exec w_store w_holders] in *. unfold tls_setup.
  rewrite (generate_key_spec M HM HM2) by done. cbn [mbind outcome_bind].
  assert (Ha : acquires (key_text t) s h conn).
  { destruct (cache s !! key_text t) as [a|] eqn:E; [by eapply acquire_cached|by apply acquire_new]. }
  destruct Ha as (a & c & s' & -> & Hc & Hinv). cbn [mbind outcome_bind]. rewrite Hc.
  destruct (tcpd_ssl_context_configure new_ctx t c) as [r c'] eqn:E. destruct (configure_keeps _ _ _ _ _ E) as [Ek Er].
  cbn [mbind outcome_bind]. eexists. split; [reflexivity|]. by apply Hinv.
Qed.

(** The other connections and contexts, when [conn] lets go of [a]. *)
Lemma others_kept conn a s h : ssl_inv (mk_world s h) -> h !! conn = Some a ->
  (forall conn' b, delete conn h !! conn' = Some b -> exists c k,
     contexts s !! b = Some c /\ cache_key c = Some k /\ cache s !! k = Some b) /\
  (forall k b, cache s !! k = Some b -> b <> a -> exists c, contexts s !! b = Some c /\ cache_key c = Some k /\
     retain_count c = Z.of_nat (held b (delete conn h)) /\ (0 < held b (delete conn h))%nat).
Proof.
  intros Hi Ha. split.
  - intros conn' b [_ Hb]%lookup_delete_Some. by destruct (v_holders _ Hi conn' b Hb) as (c & k & ?); exists c, k.
  - intros k b Hb Hne. destruct (v_cache _ Hi k b Hb) as (c & ? & ? & Hr & Hp). cbn in *. rewrite (held_delete a b conn h Ha) in Hr, Hp.
    rewrite decide_False in Hr, Hp by congruence. by exists c.
Qed.

Lemma disconnect_inv conn w : ssl_inv w -> is_Some (w_holders w !! conn) ->
  exists w', ssl_exec (Disconnect conn) w = Ret w' /\ ssl_inv w'.
Proof.
  intros Hi [a Ha]. destruct w as [s h]. cbn [ssl_exec w_store w_holders] in *. rewrite Ha.
  destruct (v_holders _ Hi conn a Ha) as (c & key & Hc & Hkey & Hcache). cbn in Hc, Hcache.
  destruct (v_cache _ Hi key a Hcache) as (c0 & Hc0 & _ & Hr & _). cbn in Hc0, Hr. rewrite Hc in Hc0. injection Hc0 as <-.
  unfold tcpd_ssl_context_release. rewrite Hc, Hkey, Hr. pose proof (held_delete a a conn h Ha) as Hh. rewrite decide_True in Hh by done.
  set (n := held a (delete conn h)) in *. rewrite Hh.
  destruct (others_kept conn a s h Hi Ha) as [Hother Hcount].
  destruct (Z.leb_spec (Z.of_nat (S n)) 1).
  - assert (Hz : n = O) by lia. cbn [mbind outcome_bind]. eexists. split; [reflexivity|].
    assert (Hna : forall conn', delete conn h !! conn' <> Some a).
    { intros conn' Hc'. apply held_some in Hc'. fold n in Hc'. lia. }
    constructor; cbn [w_store w_holders put_context contexts cache].
    + intros conn' b Hb. destruct (Hother conn' b Hb) as (cb & k & Hcb & Hkb & Hkc). assert (b <> a) by (intros ->; by eapply Hna).
      exists cb, k. rewrite lookup_insert_ne by done. split; [done|]. split; [done|]. apply lookup_delete_Some. split; [|done]. congruence.
    + intros k b [Hk Hb]%lookup_delete_Some. assert (b <> a).
      { intros ->. destruct (v_cache _ Hi k a Hb) as (cb & Hcb & Hkb & _). cbn in Hcb. congruence. }
      destruct (Hcount k b Hb) as (cb & ? & ?); [done|]. exists cb. by rewrite lookup_insert_ne.
  - cbn [mbind outcome_bind]. eexists. split; [reflexivity|].
    assert (Hkeep : forall b cb k, contexts s !! b = Some cb -> cache_key cb = Some k -> exists cb',
      <[a := set_retain (Z.of_nat (S n) - 1) c]> (contexts s) !! b = Some cb' /\ cache_key cb' = Some k).
    { intros b cb k Hb Hk. destruct (decide (a = b)) as [<-|].
      - rewrite lookup_insert_eq. eexists. split; [reflexivity|]. cbn. congruence.
      - exists cb. by rewrite lookup_insert_ne. }
    constructor; cbn [w_store w_holders put_context contexts cache].
    + intros conn' b Hb. destruct (Hother conn' b Hb) as (cb & k & Hcb & Hkb & Hkc). destruct (Hkeep b cb k Hcb Hkb) as (cb' & ? & ?).
      by exists cb', k.
    + intros k b Hb. destruct (decide (b = a)) as [->|Hne].
      * destruct (v_cache _ Hi k a Hb) as (cb & Hcb & Hkb & _). cbn in Hcb. rewrite Hc in Hcb. injection Hcb as <-.
        eexists. rewrite lookup_insert_eq. split; [reflexivity|]. split; [done|]. cbn. fold n. lia.
      * destruct (Hcount k b Hb Hne) as (cb & ? & ?). exists cb. by rewrite lookup_insert_ne.
Qed.

Lemma collect_inv a w : ssl_inv w -> (forall k, cache (w_store w) !! k <> Some a) ->
  exists w', ssl_exec (Collect a) w = Ret w' /\ ssl_inv w'.
Proof.
  intros Hi Hn. destruct w as [s h]. eexists. split; [reflexivity|]. cbn in Hn.
  constructor; cbn [w_store w_holders tcpd_ssl_context_gc contexts cache].
  - intros conn b Hb. destruct (v_holders _ Hi conn b Hb) as (c & k & Hc & Hk & Hkc). cbn in *. exists c, k.
    split; [|done]. apply lookup_delete_Some. split; [|done]. intros <-. by eapply Hn.
  - intros k b Hb. destruct (v_cache _ Hi k b Hb) as (c & Hc & ?). exists c. split; [|done]. cbn in *.
    apply lookup_delete_Some. split; [|done]. intros <-. by eapply Hn.
Qed.

Lemma ssl_exec_inv M o w : mem_upto M -> 2 ^ 32 <= M < 2 ^ 62 -> ssl_inv w -> ssl_enabled_op M o w ->
  exists w', ssl_exec o w = Ret w' /\ ssl_inv w'.
Proof.
  intros HM HM2 Hi. destruct o; cbn [ssl_enabled_op].
  - intros [? ?]. by eapply connect_inv.
  - by apply disconnect_inv.
  - by apply collect_inv.
Qed.
Lemma ssl_reachable_inv M w : mem_upto M -> 2 ^ 32 <= M < 2 ^ 62 -> ssl_reachable M w -> ssl_inv w.
Proof.
  intros HM HM2. induction 1 as [|o w w' _ IH Hen E]; [apply ssl_inv_start|].
  destruct (ssl_exec_inv M o w HM HM2 IH Hen) as (w2 & E2 & Hi). congruence.
Qed.

(** C14: the cache of TLS contexts is safe and counts exactly.  Under any sequence
    of connections opening and closing and of collections, opening and closing
    never fail; the context of every open connection is alive and is the one the
    registry holds under its key, so the collector cannot take it; a registered
    context counts exactly the connections that use it and has at least one, so
    nothing stays registered when the last one closes. *)
Theorem ssl_contexts_counted M w : mem_upto M -> 2 ^ 32 <= M < 2 ^ 62 -> ssl_reachable M w ->
  (forall o, ssl_enabled_op M o w -> exists w', ssl_exec o w = Ret w') /\
  (forall conn a, w_holders w !! conn = Some a -> ~ ssl_enabled_op M (Collect a) w /\ exists c k,
     contexts (w_store w) !! a = Some c /\ cache_key c = Some k /\ cache (w_store w) !! k = Some a) /\
  (forall k a, cache (w_store w) !! k = Some a -> exists c, contexts (w_store w) !! a = Some c /\
     retain_count c = Z.of_nat (held a (w_holders w)) /\ 0 < retain_count c).
Proof.
  intros HM HM2 Hr. pose proof (ssl_reachable_inv M w HM HM2 Hr) as Hi. split; [|split].
  - intros o Hen. destruct (ssl_exec_inv M o w HM HM2 Hi Hen) as (w' & E & _). by exists w'.
  - intros conn a Ha. destruct (v_holders _ Hi conn a Ha) as (c & k & ? & ? & Hk). split; [|by exists c, k].
    intros Hen. by apply (Hen k).
  - intros k a Ha. destruct (v_cache _ Hi k a Ha) as (c & ? & _ & Hc & ?). exists c. split; [done|]. split; [done|lia].
Qed.

(** The key of a context is exact for what it names, and names too little.
    Two tables (without the byte 31 in their strings) get the same key just when
    they agree on the CA file, the CA directory, the PKCS12 file and its password;
    with the same key the second connection gets the first one's context as it
    was configured then, its own certificate, key and verification settings
    ignored: after a connection with verification off, one that asks for it is
    not verified. *)
Theorem ssl_key_shares M t1 t2 s new2 : mem_upto M -> 2 ^ 32 <= M < 2 ^ 62 ->
  fits_in M t1 -> fits_in M t2 -> no_separator t1 -> no_separator t2 -> cache s !! key_text t1 = None ->
  exists a s1, tls_setup true t1 s = Ret (a, 0, s1) /\
    (key_fields t1 <> key_fields t2 -> tcpd_ssl_generate_cache_key_from_table t2 <> tcpd_ssl_generate_cache_key_from_table t1) /\
    (key_fields t1 = key_fields t2 -> exists s2 c, tls_setup new2 t2 s1 = Ret (a, 0, s2) /\ contexts s2 !! a = Some c /\
       verify_peer c = int_field t1 "ssl_verifypeer" 1 /\ verify_host c = int_field t1 "ssl_verifyhost" 1 /\
       cert_file c = string_field t1 "cert" None /\ key_file c = string_field t1 "key" None).
Proof.
  intros HM HM2 [B1 F1] [B2 F2] N1 N2 Hk. unfold tls_setup. rewrite !(generate_key_spec M HM HM2) by done. cbn [mbind outcome_bind].
  unfold tcpd_ssl_context_get_or_create at 1. rewrite Hk. cbn [tcpd_ssl_context_create]. set (a := fresh _).
  cbn [put_context contexts cache]. rewrite lookup_insert_eq. cbn [mbind outcome_bind contexts]. rewrite lookup_insert_eq.
  eexists a, _. split; [reflexivity|]. split.
  - intros Hne E. apply Hne, (key_text_inj t1 t2 N1 N2). by apply (f_equal (fun r => match r with Ret x => x | _ => [] end)) in E.
  - intros E. apply (key_text_inj t1 t2 N1 N2) in E. rewrite <- E. unfold tcpd_ssl_context_get_or_create. cbn [put_context contexts cache].
    rewrite !lookup_insert_eq. cbn [mbind outcome_bind put_context contexts]. rewrite lookup_insert_eq.
    eexists _, _. split; [reflexivity|]. cbn [contexts]. split; [apply lookup_insert_eq|]. done.
Qed.
End Sharing.

Module TlsSample.
#[local] Existing Instances assoc_table zero_alloc plain_lua.
Definition careless : alist := [(LStr (lit "ssl"), LBool true); (LStr (lit "ssl_verifypeer"), LInt 0)].
Definition careful : alist := [(LStr (lit "ssl"), LBool true); (LStr (lit "cert"), LStr (lit "me.pem"))].

Lemma fits t : t = careless \/ t = careful -> fits_in (2 ^ 40) t.
Proof.
  intros Ht. assert (E : forallb (fun b => (0 <=? b) && (b <? 256)) (key_text t) = true /\ (2 * Zlen (key_text t) + 130 <=? 2 ^ 40) = true).
  { destruct Ht as [-> | ->]; vm_compute; done. }
  destruct E as [Eb El]. split; [|lia]. apply forallb_Forall in Eb. eapply Forall_impl; [exact Eb|]. intros b Hb. cbv beta in Hb. unfold is_byte. lia.
Qed.
Lemma opened : exists w, ssl_exec (Connect 1 true careless) (mk_world (mk_store ∅ ∅) ∅) = Ret w /\ ssl_reachable (2 ^ 40) w.
Proof.
  destruct (connect_inv (2 ^ 40) 1 true careless (mk_world (mk_store ∅ ∅) ∅)) as (w & E & _);
    [apply zero_alloc_upto|done|apply ssl_inv_start|done|apply fits; by left|].
  exists w. split; [done|]. eapply ssl_step; [apply ssl_start| |exact E]. split; [done|]. apply fits. by left.
Qed.
End TlsSample.

Lemma ssl_contexts_counted_witness :
  exists w, @ssl_exec _ assoc_table zero_alloc plain_lua (Connect 1 true TlsSample.careless) (mk_world (mk_store ∅ ∅) ∅) = Ret w /\
    (forall k a, cache (w_store w) !! k = Some a -> exists c, contexts (w_store w) !! a = Some c /\
       retain_count c = Z.of_nat (held a (w_holders w)) /\ 0 < retain_count c).
Proof.
  destruct TlsSample.opened as (w & E & Hr). exists w. split; [exact E|].
  apply (@ssl_contexts_counted _ assoc_table zero_alloc plain_lua (2 ^ 40) w); [apply zero_alloc_upto|split; reflexivity || discriminate|exact Hr].
Defined.

(** The careful connection is not verified and does not present its certificate. *)
Lemma ssl_key_shares_witness :
  exists a s1, @tls_setup _ assoc_table zero_alloc plain_lua true TlsSample.careless (mk_store ∅ ∅) = Ret (a, 0, s1) /\
    exists s2 c, @tls_setup _ assoc_table zero_alloc plain_lua true TlsSample.careful s1 = Ret (a, 0, s2) /\ contexts s2 !! a = Some c /\
      verify_peer c = 0 /\ verify_host c = 1 /\ cert_file c = None /\ key_file c = None.
Proof.
  destruct (@ssl_key_shares _ assoc_table zero_alloc plain_lua (2 ^ 40) TlsSample.careless TlsSample.careful (mk_store ∅ ∅) true)
    as (a & s1 & E & _ & Hs).
  - apply zero_alloc_upto.
  - split; reflexivity || discriminate.
  - apply TlsSample.fits. by left.
  - apply TlsSample.fits. by right.
  - apply (bool_decide_unpack _). vm_compute. exact I.
  - apply (bool_decide_unpack _). vm_compute. exact I.
  - reflexivity.
  - exists a, s1. split; [exact E|]. apply Hs. reflexivity.
Defined.
