(* ===== verification/Tcpd.v ===== *)
(** * src/tcpd_event.c, src/tcpd.c, src/tcpd_server.c: the life of a TCP connection

    A connection object in Lua memory, the bufferevent it owns, the registry
    references to its callbacks and the TLS context it shares.  libevent is not
    under src/: a bufferevent is two evbuffers, the callbacks installed and the
    events enabled, and [bufferevent_free] ends its life.  The scripts' callbacks
    run inside the C callbacks: [body] says what a function does when it is
    called, up to its first suspension, as a tree of calls on the connection.

    The connection runs on the main event base (no worker threads).  A mutex that
    was destroyed cannot be locked (POSIX leaves it undefined; glibc refuses, musl
    ignores the destruction): the model goes on without the lock, as both do, and
    records it in [t_misuse]. *)

From S2P Require Import Prelude ByteArray Lua LuaState Double Evhttp Registry TcpdConfig TcpdSsl.

Inductive tcpd_conn_state_t : Type :=
  | TCPD_CONN_DISCONNECTED | TCPD_CONN_CONNECTING | TCPD_CONN_CONNECTED | TCPD_CONN_ERROR.

(** [buf] and [mainthread] are only compared with NULL; [None] is [LUA_NOREF]. *)
Record tcpd_base_conn_t : Type := mk_conn {
  c_buf : bool;
  c_buf_mutex : bool;
  c_state : tcpd_conn_state_t;
  c_type : tcpd_conn_type_t;
  c_cleaned_up : bool;
  c_mainthread : bool;
  onReadRef : option positive;
  onSendReadyRef : option positive;
  onDisconnectedRef : option positive;
  onConnectedRef : option positive;
  c_config : tcpd_config_t;
  c_ssl_ctx : option positive;
  c_host : option (list Z);
  c_port : Z;
  c_unix_path : option (list Z);
  c_ip : list Z
}.

Definition set_buf b (c : tcpd_base_conn_t) : tcpd_base_conn_t :=
  mk_conn b (c_buf_mutex c) (c_state c) (c_type c) (c_cleaned_up c) (c_mainthread c) (onReadRef c) (onSendReadyRef c)
    (onDisconnectedRef c) (onConnectedRef c) (c_config c) (c_ssl_ctx c) (c_host c) (c_port c) (c_unix_path c) (c_ip c).
Definition set_state s (c : tcpd_base_conn_t) : tcpd_base_conn_t :=
  mk_conn (c_buf c) (c_buf_mutex c) s (c_type c) (c_cleaned_up c) (c_mainthread c) (onReadRef c) (onSendReadyRef c)
    (onDisconnectedRef c) (onConnectedRef c) (c_config c) (c_ssl_ctx c) (c_host c) (c_port c) (c_unix_path c) (c_ip c).
Definition set_cleaned_up b (c : tcpd_base_conn_t) : tcpd_base_conn_t :=
  mk_conn (c_buf c) (c_buf_mutex c) (c_state c) (c_type c) b (c_mainthread c) (onReadRef c) (onSendReadyRef c)
    (onDisconnectedRef c) (onConnectedRef c) (c_config c) (c_ssl_ctx c) (c_host c) (c_port c) (c_unix_path c) (c_ip c).
Definition set_refs r s d k (c : tcpd_base_conn_t) : tcpd_base_conn_t :=
  mk_conn (c_buf c) (c_buf_mutex c) (c_state c) (c_type c) (c_cleaned_up c) (c_mainthread c) r s d k
    (c_config c) (c_ssl_ctx c) (c_host c) (c_port c) (c_unix_path c) (c_ip c).
Definition set_ssl_ctx a (c : tcpd_base_conn_t) : tcpd_base_conn_t :=
  mk_conn (c_buf c) (c_buf_mutex c) (c_state c) (c_type c) (c_cleaned_up c) (c_mainthread c) (onReadRef c) (onSendReadyRef c)
    (onDisconnectedRef c) (onConnectedRef c) (c_config c) a (c_host c) (c_port c) (c_unix_path c) (c_ip c).
Definition set_ip i (c : tcpd_base_conn_t) : tcpd_base_conn_t :=
  mk_conn (c_buf c) (c_buf_mutex c) (c_state c) (c_type c) (c_cleaned_up c) (c_mainthread c) (onReadRef c) (onSendReadyRef c)
    (onDisconnectedRef c) (onConnectedRef c) (c_config c) (c_ssl_ctx c) (c_host c) (c_port c) (c_unix_path c) i.
(** The end of [tcpd_base_conn_cleanup]. *)
Definition retire (c : tcpd_base_conn_t) : tcpd_base_conn_t :=
  mk_conn (c_buf c) false TCPD_CONN_DISCONNECTED (c_type c) (c_cleaned_up c) false (onReadRef c) (onSendReadyRef c)
    (onDisconnectedRef c) (onConnectedRef c) (c_config c) (c_ssl_ctx c) None (c_port c) None (c_ip c).

(** A bufferevent; [b_cb]: the callbacks of tcpd_event.c are installed; [b_fin]:
    the socket's write end has been shut down. *)
Record bufferevent (E : Type) : Type := mk_bev {
  b_live : bool;
  b_cb : bool;
  b_read : bool;
  b_write : bool;
  b_fin : bool;
  b_input : E;
  b_output : E
}.
Arguments mk_bev {E}.
Arguments b_live {E}.
Arguments b_cb {E}.
Arguments b_read {E}.
Arguments b_write {E}.
Arguments b_fin {E}.
Arguments b_input {E}.
Arguments b_output {E}.

(** The callbacks made into the script, [self] excluded. *)
Inductive callback : Type :=
  | CbAccept
  | CbRead (data : list Z)
  | CbSendReady
  | CbConnected
  | CbDisconnected (msg : list Z).

(** [t_alive]: the memory of the connection object has not been collected;
    [t_weak]: it is in the table of weak references; [t_sent] is what the script
    has sent and the bufferevent taken, [t_written] what libevent has passed on of
    it, [t_received] what libevent has put into the input, [t_calls] the callbacks
    made. *)
Record tconn (E : Type) : Type := mk_tconn {
  t_conn : tcpd_base_conn_t;
  t_alive : bool;
  t_weak : bool;
  t_bev : bufferevent E;
  t_reg : gmap positive regval;
  t_ssl : ssl_store;
  t_misuse : bool;
  t_received : list Z;
  t_sent : list Z;
  t_written : list Z;
  t_calls : list callback
}.
Arguments mk_tconn {E}.
Arguments t_conn {E}.
Arguments t_alive {E}.
Arguments t_weak {E}.
Arguments t_bev {E}.
Arguments t_reg {E}.
Arguments t_ssl {E}.
Arguments t_misuse {E}.
Arguments t_received {E}.
Arguments t_sent {E}.
Arguments t_written {E}.
Arguments t_calls {E}.

(** The address [getsockname] and [getpeername] give: none, of a family with an
    address and a port, or of another family. *)
Inductive sockname : Type := NoName | InetName (ip : list Z) (port : Z) | OtherName.

(** What a script does with a connection; [TCollect]: nothing refers to the
    object any more and the collector takes it. *)
Inductive tcall (T : Type) : Type :=
  | TSend (args : list lua_value)
  | TClose
  | TShutdown (fd : Z)
  | TPause
  | TResume
  | TSockName (n : sockname)
  | TPeerName (n : sockname)
  | TToString (fd : Z) (n : sockname)
  | TBind (t : T)
  | TCollect.
Arguments TSend {T} args.
Arguments TClose {T}.
Arguments TShutdown {T} fd.
Arguments TPause {T}.
Arguments TResume {T}.
Arguments TSockName {T} n.
Arguments TPeerName {T} n.
Arguments TToString {T} fd n.
Arguments TBind {T} t.
Arguments TCollect {T}.

Inductive tscript (T : Type) : Type :=
  | TDone
  | TCall (c : tcall T) (k : outcome (list lua_value) -> tscript T).
Arguments TDone {T}.
Arguments TCall {T} c k.

Record events : Type := mk_events {
  ev_connected : bool;
  ev_eof : bool;
  ev_error : bool;
  ev_timeout : bool;
  ev_reading : bool;
  ev_writing : bool
}.
(** What the error sources say when asked: the resolver, the socket, and OpenSSL,
    whose report may be empty; with the texts of the codes. *)
Record causes : Type := mk_causes {
  dns_error : Z;
  socket_error : Z;
  openssl_error : option (option (list Z));
  gai_strerror : Z -> list Z;
  socket_error_to_string : Z -> list Z
}.

Section Tcpd.
Context {E T : Type} `{Evbuffer E} `{LuaTable T} `{Allocator} `{LuaAPI}.
Context (self : lua_value) (body : positive -> list lua_value -> tscript T).
Implicit Type w : tconn E.

Definition on_conn (f : tcpd_base_conn_t -> tcpd_base_conn_t) w : tconn E :=
  mk_tconn (f (t_conn w)) (t_alive w) (t_weak w) (t_bev w) (t_reg w) (t_ssl w) (t_misuse w) (t_received w) (t_sent w) (t_written w) (t_calls w).
Definition put_bev b w : tconn E :=
  mk_tconn (t_conn w) (t_alive w) (t_weak w) b (t_reg w) (t_ssl w) (t_misuse w) (t_received w) (t_sent w) (t_written w) (t_calls w).
Definition put_reg r w : tconn E :=
  mk_tconn (t_conn w) (t_alive w) (t_weak w) (t_bev w) r (t_ssl w) (t_misuse w) (t_received w) (t_sent w) (t_written w) (t_calls w).
Definition put_ssl s w : tconn E :=
  mk_tconn (t_conn w) (t_alive w) (t_weak w) (t_bev w) (t_reg w) s (t_misuse w) (t_received w) (t_sent w) (t_written w) (t_calls w).
Definition put_sent l w : tconn E :=
  mk_tconn (t_conn w) (t_alive w) (t_weak w) (t_bev w) (t_reg w) (t_ssl w) (t_misuse w) (t_received w) l (t_written w) (t_calls w).
Definition put_written l w : tconn E :=
  mk_tconn (t_conn w) (t_alive w) (t_weak w) (t_bev w) (t_reg w) (t_ssl w) (t_misuse w) (t_received w) (t_sent w) l (t_calls w).
Definition put_received l w : tconn E :=
  mk_tconn (t_conn w) (t_alive w) (t_weak w) (t_bev w) (t_reg w) (t_ssl w) (t_misuse w) l (t_sent w) (t_written w) (t_calls w).
Definition called cb w : tconn E :=
  mk_tconn (t_conn w) (t_alive w) (t_weak w) (t_bev w) (t_reg w) (t_ssl w) (t_misuse w) (t_received w) (t_sent w) (t_written w) (t_calls w ++ [cb]).
Definition put_weak b w : tconn E :=
  mk_tconn (t_conn w) (t_alive w) b (t_bev w) (t_reg w) (t_ssl w) (t_misuse w) (t_received w) (t_sent w) (t_written w) (t_calls w).
Definition collected w : tconn E :=
  mk_tconn (t_conn w) false false (t_bev w) (t_reg w) (t_ssl w) (t_misuse w) (t_received w) (t_sent w) (t_written w) (t_calls w).
Definition set_io i o (b : bufferevent E) : bufferevent E := mk_bev (b_live b) (b_cb b) (b_read b) (b_write b) (b_fin b) i o.
Definition set_read r (b : bufferevent E) : bufferevent E := mk_bev (b_live b) (b_cb b) r (b_write b) (b_fin b) (b_input b) (b_output b).
Definition set_fin (b : bufferevent E) : bufferevent E := mk_bev (b_live b) (b_cb b) (b_read b) (b_write b) true (b_input b) (b_output b).

(** An access to the connection's memory, or to the bufferevent's. *)
Definition at_conn {A} w (k : outcome A) : outcome A := if t_alive w then k else UB.
Definition at_bev {A} w (k : outcome A) : outcome A := if b_live (t_bev w) then k else UB.

Definition pthread_mutex_lock w : tconn E :=
  if c_buf_mutex (t_conn w) then w
  else mk_tconn (t_conn w) (t_alive w) (t_weak w) (t_bev w) (t_reg w) (t_ssl w) true (t_received w) (t_sent w) (t_written w) (t_calls w).

(** ** Registry references *)

Definition luaL_ref (v : regval) w : positive * tconn E :=
  let r := fresh (dom (t_reg w)) in (r, put_reg (<[r := v]> (t_reg w)) w).
(** Releasing a reference that is not taken would corrupt the free list. *)
Definition luaL_unref (r : positive) w : outcome (tconn E) :=
  match t_reg w !! r with Some _ => Ret (put_reg (delete r (t_reg w)) w) | None => UB end.
Definition unref_opt (r : option positive) w : outcome (tconn E) :=
  match r with Some r => luaL_unref r w | None => Ret w end.

(** [CLEAR_REF] on each of the four fields. *)
Definition CLEAR_ONREAD w : outcome (tconn E) :=
  w ← unref_opt (onReadRef (t_conn w)) w;
  mret (on_conn (fun c => set_refs None (onSendReadyRef c) (onDisconnectedRef c) (onConnectedRef c) c) w).
Definition CLEAR_ONSENDREADY w : outcome (tconn E) :=
  w ← unref_opt (onSendReadyRef (t_conn w)) w;
  mret (on_conn (fun c => set_refs (onReadRef c) None (onDisconnectedRef c) (onConnectedRef c) c) w).
Definition CLEAR_ONDISCONNECTED w : outcome (tconn E) :=
  w ← unref_opt (onDisconnectedRef (t_conn w)) w;
  mret (on_conn (fun c => set_refs (onReadRef c) (onSendReadyRef c) None (onConnectedRef c) c) w).
Definition CLEAR_ONCONNECTED w : outcome (tconn E) :=
  w ← unref_opt (onConnectedRef (t_conn w)) w;
  mret (on_conn (fun c => set_refs (onReadRef c) (onSendReadyRef c) (onDisconnectedRef c) None c) w).

(** [SET_FUNC_REF_FROM_TABLE]. *)
Definition func_ref (t : T) (key : string) w : option positive * tconn E :=
  match field_of t key with LFun k => let '(r, w) := luaL_ref (RFun k) w in (Some r, w) | _ => (None, w) end.

Definition tcpd_base_conn_set_callbacks (t : T) w : tconn E :=
  let w := on_conn (set_refs None None None None) w in
  let '(r, w) := func_ref t "onread" w in
  let '(s, w) := func_ref t "onsendready" w in
  let '(d, w) := func_ref t "ondisconnected" w in
  let '(k, w) := func_ref t "onconnected" w in
  on_conn (set_refs r s d k) w.

(** ** Cleanup *)

(** [bufferevent_setcb], [bufferevent_disable] and [bufferevent_free]. *)
Definition tcpd_shutdown_bufferevent w : outcome (tconn E) :=
  at_bev w (Ret (put_bev (mk_bev false false false false (b_fin (t_bev w)) (b_input (t_bev w)) (b_output (t_bev w))) w)).

(** Taking [buf] under the mutex, and freeing what it was. *)
Definition take_buf w : outcome (tconn E) :=
  let w := pthread_mutex_lock w in
  let bev_to_free := c_buf (t_conn w) in
  let w := on_conn (set_buf false) w in
  if bev_to_free then tcpd_shutdown_bufferevent w else Ret w.

Definition release_ssl w : outcome (tconn E) :=
  match c_ssl_ctx (t_conn w) with
  | Some a =>
      s ← tcpd_ssl_context_release a (c_mainthread (t_conn w)) (t_ssl w);
      mret (on_conn (set_ssl_ctx None) (put_ssl s w))
  | None => Ret w
  end.

Definition tcpd_base_conn_cleanup w : outcome (tconn E) :=
  w ← take_buf w;
  w ← (if c_mainthread (t_conn w) then
         w ← CLEAR_ONREAD w; w ← CLEAR_ONSENDREADY w; w ← CLEAR_ONDISCONNECTED w; CLEAR_ONCONNECTED w
       else Ret w);
  w ← release_ssl w;
  mret (on_conn retire w).

(** The TLS fields of a client are freed with the bufferevent. *)
Definition tcpd_client_cleanup_on_disconnect w : outcome (tconn E) :=
  if c_cleaned_up (t_conn w) then Ret w
  else
    let w := on_conn (set_cleaned_up true) w in
    w ← release_ssl w;
    tcpd_base_conn_cleanup w.
Definition tcpd_accept_cleanup_on_disconnect w : outcome (tconn E) :=
  if c_cleaned_up (t_conn w) then Ret w
  else tcpd_base_conn_cleanup (on_conn (set_cleaned_up true) w).

Definition tcpd_connection_cleanup_on_disconnect w : outcome (tconn E) :=
  match c_type (t_conn w) with
  | TCPD_CONN_TYPE_CLIENT => tcpd_client_cleanup_on_disconnect w
  | _ =>
      if c_cleaned_up (t_conn w) then Ret w
      else tcpd_base_conn_cleanup (on_conn (set_cleaned_up true) w)
  end.

(** ** The methods a script calls

    What a method gives the script, and the connection after it. *)

Definition call : Type := outcome (outcome (list lua_value) * tconn E).
Definition result (r : outcome (list lua_value)) w : call := Ret (r, w).

(** The timeouts [tcpd_config_apply_timeouts] sets are not modelled. *)
Definition tcpd_conn_send (args : list lua_value) w : call :=
  match luaL_checklstring (arg args 2) with
  | Ret data =>
      if Zlen data =? 0 then result (Ret [LInt (-1)]) w
      else
        let w := pthread_mutex_lock w in
        if negb (c_buf (t_conn w)) then result (Ret [LInt (-1)]) w
        else at_bev w (
          let b := t_bev w in
          let w := match evbuffer_add (b_output b) data with
                   | Some o => put_sent (t_sent w ++ data) (put_bev (set_io (b_input b) o b) w)
                   | None => w
                   end in
          result (Ret [LInt (evbuffer_get_length (b_output (t_bev w)))]) w)
  | Raise e => result (Raise e) w
  | UB => UB
  end.

Definition tcpd_conn_close w : call := w ← tcpd_client_cleanup_on_disconnect w; result (Ret []) w.

(** [fd]: the socket of the bufferevent. *)
Definition tcpd_conn_shutdown (fd : Z) w : call :=
  let w := pthread_mutex_lock w in
  if negb (c_buf (t_conn w)) then result (Ret [LInt 0]) w
  else at_bev w (
    let pending := evbuffer_get_length (b_output (t_bev w)) in
    let w := if (pending =? 0) && (0 <=? fd) then put_bev (set_fin (t_bev w)) w else w in
    result (Ret [LInt pending]) w).

Definition tcpd_conn_read_pause w : call :=
  let w := pthread_mutex_lock w in
  if c_buf (t_conn w) then at_bev w (result (Ret []) (put_bev (set_read false (t_bev w)) w)) else result (Ret []) w.
Definition tcpd_conn_read_resume w : call :=
  let w := pthread_mutex_lock w in
  if c_buf (t_conn w) then at_bev w (result (Ret []) (put_bev (set_read true (t_bev w)) w)) else result (Ret []) w.

(** [n] is what the system call gives for the socket.  The text of an address of
    another family is never written, but pushed. *)
Definition tcpd_conn_getsockname (n : sockname) w : call :=
  let w := pthread_mutex_lock w in
  if c_buf (t_conn w) then
    at_bev w (
      match n with
      | NoName => result (Ret [LNil; LNil]) w
      | InetName ip port => result (Ret [LStr (cstr ip); LInt port]) w
      | OtherName => UB
      end)
  else result (Ret [LNil; LNil]) w.
Definition tcpd_conn_getpeername (n : sockname) w : call := tcpd_conn_getsockname n w.

(** [malloc] succeeds. *)
Definition state_number (s : tcpd_conn_state_t) : Z :=
  match s with TCPD_CONN_DISCONNECTED => 0 | TCPD_CONN_CONNECTING => 1 | TCPD_CONN_CONNECTED => 2 | TCPD_CONN_ERROR => 3 end.
Definition connection_info (c : tcpd_base_conn_t) (local_ip : list Z) (local_port fd : Z) : list Z :=
  let host := default (lit "unknown") (c_host c) in
  snprintf (Zlen host + Zlen local_ip + 128)
    (lit "<TCP: target=" ++ host ++ lit ":" ++ dec_of_Z (c_port c) ++ lit ", local=" ++ local_ip ++ lit ":" ++ dec_of_Z local_port ++
     lit ", fd=" ++ dec_of_Z fd ++ lit ", state=" ++ dec_of_Z (state_number (c_state c)) ++ lit ">").
(** The local address is written over the object's [ip]. *)
Definition tcpd_format_connection_info (fd : Z) (n : sockname) w : outcome (list Z * tconn E) :=
  let w := pthread_mutex_lock w in
  if c_buf (t_conn w) then
    at_bev w (
      match n with
      | InetName ip port =>
          if 0 <=? fd then let w := on_conn (set_ip (cstr ip)) w in Ret (connection_info (t_conn w) (cstr ip) port fd, w)
          else Ret (connection_info (t_conn w) (lit "unknown") 0 fd, w)
      | _ => Ret (connection_info (t_conn w) (lit "unknown") 0 fd, w)
      end)
  else Ret (connection_info (t_conn w) (lit "unknown") 0 (-1), w).
Definition tcpd_conn_tostring (fd : Z) (n : sockname) w : call :=
  '(info, w) ← tcpd_format_connection_info fd n w; result (Ret [LStr info]) w.

(** The methods of accepted connections, in tcpd_server.c, have the same text. *)
Definition tcpd_accept_send (args : list lua_value) w : call := tcpd_conn_send args w.
Definition tcpd_accept_close w : call := w ← tcpd_accept_cleanup_on_disconnect w; result (Ret []) w.
Definition tcpd_accept_read_pause w : call := tcpd_conn_read_pause w.
Definition tcpd_accept_read_resume w : call := tcpd_conn_read_resume w.
Definition tcpd_accept_getsockname (n : sockname) w : call := tcpd_conn_getsockname n w.
Definition tcpd_accept_getpeername (n : sockname) w : call := tcpd_conn_getsockname n w.
Definition tcpd_accept_bind (t : T) w : call :=
  let w := tcpd_base_conn_set_callbacks t (put_weak true w) in
  let w := pthread_mutex_lock w in
  w ← (if c_buf (t_conn w) then at_bev w (Ret (put_bev (set_read true (t_bev w)) w)) else Ret w);
  result (Ret [LStr (cstr (c_ip (t_conn w))); LInt (c_port (t_conn w))]) w.

(** [__gc]: the cleanup, after which the memory is gone. *)
Definition tcpd_client_conn_gc w : outcome (tconn E) := w ← tcpd_client_cleanup_on_disconnect w; mret (collected w).
Definition tcpd_accept_conn_gc w : outcome (tconn E) := w ← tcpd_accept_cleanup_on_disconnect w; mret (collected w).
Definition tcpd_conn_gc w : outcome (tconn E) :=
  match c_type (t_conn w) with TCPD_CONN_TYPE_CLIENT => tcpd_client_conn_gc w | _ => tcpd_accept_conn_gc w end.

(** The method tables: calling a name that is not there is an error of Lua's. *)
Definition no_method w : call := result (Raise (lit "attempt to call a nil value")) w.
Definition client_method (c : tcall T) w : call :=
  match c with
  | TSend args => tcpd_conn_send args w
  | TClose => tcpd_conn_close w
  | TShutdown fd => tcpd_conn_shutdown fd w
  | TPause => tcpd_conn_read_pause w
  | TResume => tcpd_conn_read_resume w
  | TSockName n => tcpd_conn_getsockname n w
  | TPeerName n => tcpd_conn_getpeername n w
  | TToString fd n => tcpd_conn_tostring fd n w
  | TBind _ => no_method w
  | TCollect => w ← tcpd_client_conn_gc w; result (Ret []) w
  end.
Definition accept_method (c : tcall T) w : call :=
  match c with
  | TSend args => tcpd_accept_send args w
  | TClose => tcpd_accept_close w
  | TShutdown _ => no_method w
  | TPause => tcpd_accept_read_pause w
  | TResume => tcpd_accept_read_resume w
  | TSockName n => tcpd_accept_getsockname n w
  | TPeerName n => tcpd_accept_getpeername n w
  | TToString _ _ => no_method w
  | TBind t => tcpd_accept_bind t w
  | TCollect => w ← tcpd_accept_conn_gc w; result (Ret []) w
  end.
Definition tcpd_call (c : tcall T) w : call :=
  at_conn w match c_type (t_conn w) with TCPD_CONN_TYPE_CLIENT => client_method c w | _ => accept_method c w end.

Fixpoint run_script (s : tscript T) w : outcome (tconn E) :=
  match s with
  | TDone => Ret w
  | TCall c k => '(r, w) ← tcpd_call c w; run_script (k r) w
  end.

(** ** Calling into the script *)

Definition tcpd_push_connection_object w : lua_value := if t_weak w then self else LNil.
Definition self_first w : list lua_value :=
  if callback_self_first (c_config (t_conn w)) then [tcpd_push_connection_object w] else [].

(** From the test of the reference to [FAN_CB_CLEANUP]: the function is called in
    a coroutine of its own, which the registry holds meanwhile.  [ok]:
    [fan_cb_setup] had the memory for it; [before] is done before the call. *)
Definition fan_call (ok : bool) (ref : option positive) (cb : callback) (args : list lua_value)
    (before : tconn E -> outcome (tconn E)) w : outcome (tconn E) :=
  match ref with
  | None => Ret w
  | Some r =>
      if negb (c_mainthread (t_conn w)) || negb ok then Ret w
      else
        let '(thread_ref, w) := luaL_ref RThread w in
        match t_reg w !! r with
        | Some (RFun k) =>
            w ← before w;
            w ← run_script (body k args) (called cb w);
            luaL_unref thread_ref w
        | _ => luaL_unref thread_ref w
        end
  end.

Definition BUFLEN : Z := 1024.

(** [while ((n = evbuffer_remove(input, buf, sizeof(buf))) > 0)]. *)
Fixpoint remove_chunks (fuel : nat) (input : E) (ba : BYTEARRAY) : outcome (E * BYTEARRAY) :=
  match fuel with
  | O => Ret (input, ba)
  | S fuel =>
      let '(buf, input') := evbuffer_remove input BUFLEN in
      if s32 (Zlen buf) <=? 0 then Ret (input', ba)
      else '(_, ba) ← bytearray_writebuffer ba buf; remove_chunks fuel input' ba
  end.

(** All of the input, as the string that is pushed: every chunk but the last takes
    a byte at least. *)
Definition read_all (size : Z) (input : E) : outcome (list Z * E) :=
  let '(_, ba) := bytearray_alloc (mk_ba 0 0 0 None 0 false false) size in
  '(input, ba) ← remove_chunks (S (Z.to_nat (evbuffer_get_length input))) input ba;
  let '(_, ba) := bytearray_read_ready ba in
  data ← mem_load (ba_buffer ba) 0 (ba_total ba);
  mret (data, input).

Definition put_input i w : tconn E := put_bev (set_io i (b_output (t_bev w)) (t_bev w)) w.

(** Reading the input and handing it to [onread]. *)
Definition deliver (ok : bool) (size : Z) w : outcome (tconn E) :=
  '(data, input) ← read_all size (b_input (t_bev w));
  let w := put_input input w in
  fan_call ok (onReadRef (t_conn w)) (CbRead data) (self_first w ++ [LStr data]) mret w.

Definition tcpd_common_readcb (ok : bool) w : outcome (tconn E) :=
  at_conn w (
    let w := pthread_mutex_lock w in
    if negb (c_buf (t_conn w)) then Ret w
    else
      match onReadRef (t_conn w) with
      | None => Ret w
      | Some _ => at_bev w (deliver ok (BUFLEN * 2) w)
      end).

Definition tcpd_common_writecb (ok : bool) w : outcome (tconn E) :=
  at_conn w (
    let w := pthread_mutex_lock w in
    if negb (c_buf (t_conn w)) then Ret w
    else
      match onSendReadyRef (t_conn w) with
      | None => Ret w
      | Some _ =>
          at_bev w (
            if evbuffer_get_length (b_output (t_bev w)) =? 0
            then fan_call ok (onSendReadyRef (t_conn w)) CbSendReady (self_first w) mret w
            else Ret w)
      end).

(** ** Events *)

(** Only the resolver's answer is asked of the bufferevent. *)
Definition tcpd_analyze_event_error (ev : events) (c : causes) w : outcome tcpd_error_t :=
  if ev_timeout ev then
    Ret (mk_error TCPD_ERROR_TIMEOUT (Some (timeout_message (ev_reading ev) (ev_writing ev))) 0)
  else if ev_error ev then
    at_bev w (
      if c_true (dns_error c) then
        Ret (mk_error TCPD_ERROR_DNS_FAILED (Some (gai_strerror c (dns_error c))) (dns_error c))
      else if c_true (socket_error c) then
        Ret (mk_error TCPD_ERROR_CONNECTION_RESET (Some (socket_error_to_string c (socket_error c))) (socket_error c))
      else match openssl_error c with
           | Some text => Ret (mk_error TCPD_ERROR_SSL_ERROR (Some (default (lit "SSL error") text)) 0)
           | None => Ret (mk_error TCPD_ERROR_UNKNOWN (Some (lit "unknown error")) 0)
           end)
  else if ev_eof ev then Ret (mk_error TCPD_ERROR_EOF (Some (lit "connection closed")) 0)
  else Ret (mk_error TCPD_ERROR_UNKNOWN (Some (lit "unknown disconnection")) 0).

(** What is left in the input when the peer has closed. *)
Definition flush_eof (ev : events) (ok : bool) w : outcome (tconn E) :=
  match onReadRef (t_conn w) with
  | Some _ =>
      if ev_eof ev && c_buf (t_conn w) then
        at_bev w (
          let pending := evbuffer_get_length (b_input (t_bev w)) in
          if 0 <? pending then deliver ok (pending + BUFLEN) w else Ret w)
      else Ret w
  | None => Ret w
  end.

(** [lua_pushstring] stops at a NUL. *)
Definition call_disconnected (ok : bool) (error : tcpd_error_t) w : outcome (tconn E) :=
  let msg := cstr (tcpd_error_to_string error) in
  fan_call ok (onDisconnectedRef (t_conn w)) (CbDisconnected msg) (self_first w ++ [LStr msg]) CLEAR_ONDISCONNECTED w.

Definition disconnect_event (ev : events) (c : causes) (ok1 ok2 : bool) w : outcome (tconn E) :=
  w ← flush_eof ev ok1 w;
  at_conn w (
    let w := on_conn (set_state (if ev_error ev then TCPD_CONN_ERROR else TCPD_CONN_DISCONNECTED)) w in
    error ← tcpd_analyze_event_error ev c w;
    w ← take_buf w;
    w ← call_disconnected ok2 error w;
    at_conn w (tcpd_connection_cleanup_on_disconnect w)).

Definition connected_event (ok : bool) w : outcome (tconn E) :=
  let w := on_conn (set_state TCPD_CONN_CONNECTED) w in
  fan_call ok (onConnectedRef (t_conn w)) CbConnected (self_first w) mret w.

(** [ok1], [ok2]: memory for the first and the second call into the script. *)
Definition tcpd_common_eventcb (ev : events) (c : causes) (ok1 ok2 : bool) w : outcome (tconn E) :=
  at_conn w (
    if ev_connected ev && bool_decide (c_type (t_conn w) = TCPD_CONN_TYPE_CLIENT) then connected_event ok1 w
    else if ev_error ev || ev_eof ev || ev_timeout ev then disconnect_event ev c ok1 ok2 w
    else Ret w).

(** ** New connections *)

Definition tcpd_base_conn_init (type : tcpd_conn_type_t) : tcpd_base_conn_t :=
  mk_conn false true TCPD_CONN_DISCONNECTED type false true None None None None tcpd_config_set_defaults None None 0 None [].

Definition no_bev (i o : E) : bufferevent E := mk_bev false false false false false i o.
Definition new_tconn (conn : tcpd_base_conn_t) (weak : bool) (bev : bufferevent E) (reg : gmap positive regval) (ssl : ssl_store) : tconn E :=
  mk_tconn conn true weak bev reg ssl false [] [] [] [].

(** What [tcpd_connect] asks of the system and of the libraries: the interface's
    index, whether OpenSSL gives a context, libevent a bufferevent, and the
    connection is under way; the custom resolver; the new socket, whose options
    [setsockopt] sets, and the two evbuffers. *)
Record connect_env : Type := mk_connect {
  v_ifindex : list Z -> Z;
  v_new_ctx : bool;
  v_new_bev : bool;
  v_connects : bool;
  v_evdns : lua_value -> outcome unit;
  v_fd : Z;
  v_setsockopt : Z -> sockopt -> bool;
  v_in : E;
  v_out : E
}.

Definition dup_str (t : T) (key : string) : option (list Z) := lua_tostring (field_of t key).
Definition set_int (t : T) (key : string) : Z :=
  let v := field_of t key in if lua_isnil v then 0 else s32 (lua_tointeger v).

Definition configured_client (v : connect_env) (t : T) : tcpd_base_conn_t :=
  let c := tcpd_base_conn_init TCPD_CONN_TYPE_CLIENT in
  mk_conn (c_buf c) (c_buf_mutex c) (c_state c) (c_type c) (c_cleaned_up c) (c_mainthread c) None None None None
    (tcpd_config_from_lua_table (v_ifindex v) t) None (dup_str t "host") (set_int t "port") (dup_str t "unix_path") (c_ip c).

(** The context and the bufferevent of a TLS connection: [false] when the
    connection is returned without one. *)
Definition client_tls (v : connect_env) (t : T) w : outcome (bool * tconn E) :=
  '(a, r, s) ← tls_setup (v_new_ctx v) t (t_ssl w);
  let w := on_conn (set_ssl_ctx (Some a)) (put_ssl s w) in
  Ret ((r =? 0) && v_new_bev v, w).

Definition start_connecting (v : connect_env) w : tconn E * list sockopt :=
  let w := put_bev (mk_bev true false false true false (v_in v) (v_out v)) (on_conn (set_buf true) w) in
  if negb (v_connects v)
  then (on_conn (set_buf false) (put_bev (mk_bev false false false false false (v_in v) (v_out v)) w), [])
  else
    let config := c_config (t_conn w) in
    let '(_, l1) := tcpd_config_apply_buffers (v_setsockopt v) config (v_fd v) in
    let '(_, l2) := tcpd_config_apply_keepalive (v_setsockopt v) config (v_fd v) in
    (put_bev (mk_bev true true true true false (v_in v) (v_out v)) (on_conn (set_state TCPD_CONN_CONNECTING) w), l1 ++ l2).

(** On the main event base, without workers.  Also the options set, in order. *)
Definition tcpd_connect (v : connect_env) (t : T) (reg : gmap positive regval) (ssl : ssl_store) : outcome (tconn E * list sockopt) :=
  let w := new_tconn (configured_client v t) true (no_bev (v_in v) (v_out v)) reg ssl in
  let w := tcpd_base_conn_set_callbacks t w in
  _ ← (match field_of t "evdns" with LNil => Ret tt | x => v_evdns v x end);
  '(ok, w) ← (if ssl_enabled (c_config (t_conn w)) then client_tls v t w else Ret (v_new_bev v, w));
  if ok : bool then Ret (start_connecting v w) else Ret (w, []).

End Tcpd.
