(* ===== verification/TcpdServer.v ===== *)
(** * src/tcpd_server.c: listening, accepting, and closing a TCP server

    A server object, the listener it owns and the registry references to its
    callbacks.  libevent's listeners are not under src/: the live ones are a map
    from their addresses to what they are bound to, and freeing one that is not
    live has no meaning. *)

From S2P Require Import Prelude ByteArray Lua LuaState Double Evhttp Registry TcpdConfig TcpdSsl Tcpd.

(** What a listener is bound to: a socket file, a resolved host with the text of
    the port, or every interface. *)
Inductive bind_addr : Type :=
  | BindUnix (path : list Z)
  | BindHost (ipv6 : bool) (host port : list Z)
  | BindAny (ipv6 : bool) (port : Z).

Record tcpd_server_t : Type := mk_server {
  s_listener : option positive;
  onAcceptRef : option positive;
  onSSLHostNameRef : option positive;
  s_host : option (list Z);
  s_port : Z;
  s_ipv6 : bool;
  s_unix_path : option (list Z);
  s_config : tcpd_config_t;
  s_ssl_ctx : option positive
}.

(** The server with the memory it shares: live listeners, registry, TLS contexts. *)
Record tserver : Type := mk_tserver {
  z_server : tcpd_server_t;
  z_live : gmap positive bind_addr;
  z_reg : gmap positive regval;
  z_ssl : ssl_store
}.

Definition set_listener l (s : tcpd_server_t) : tcpd_server_t :=
  mk_server l (onAcceptRef s) (onSSLHostNameRef s) (s_host s) (s_port s) (s_ipv6 s) (s_unix_path s) (s_config s) (s_ssl_ctx s).
Definition set_port p (s : tcpd_server_t) : tcpd_server_t :=
  mk_server (s_listener s) (onAcceptRef s) (onSSLHostNameRef s) (s_host s) p (s_ipv6 s) (s_unix_path s) (s_config s) (s_ssl_ctx s).
Definition on_server f (z : tserver) : tserver := mk_tserver (f (z_server z)) (z_live z) (z_reg z) (z_ssl z).

(** The system: whether an address resolves and a listener can be made, and what
    [getsockname] says of its socket. *)
Record bind_env : Type := mk_bind {
  v_resolves : bool -> list Z -> list Z -> bool;
  v_listens : bind_addr -> bool;
  v_sockname : sockname;
  v_ifindex_of : list Z -> Z;
  v_ctx : bool
}.

(** The peer's address; of another family than the two, [sin6_port] reads two
    bytes of something else. *)
Inductive peer_addr : Type := Peer4 (ip : list Z) (port : Z) | Peer6 (ip : list Z) (port : Z) | PeerOther (bytes : Z).

Section Server.
Context {E T : Type} `{Evbuffer E} `{LuaTable T} `{Allocator} `{LuaAPI}.
Context (self : lua_value).

(** ** The listener *)

Definition evconnlistener_free (z : tserver) : outcome tserver :=
  match s_listener (z_server z) with
  | None => Ret z
  | Some l =>
      match z_live z !! l with
      | Some _ => Ret (mk_tserver (set_listener None (z_server z)) (delete l (z_live z)) (z_reg z) (z_ssl z))
      | None => UB
      end
  end.

Definition evconnlistener_new_bind (v : bind_env) (a : bind_addr) (z : tserver) : tserver :=
  if v_listens v a then
    let l := fresh (dom (z_live z)) in
    mk_tserver (set_listener (Some l) (z_server z)) (<[l := a]> (z_live z)) (z_reg z) (z_ssl z)
  else on_server (set_listener None) z.

(** [char portbuf[6]]; [sun_path] holds 108 bytes, the last one 0. *)
Definition portbuf (port : Z) : list Z := snprintf 6 (dec_of_Z port).
Definition sun_path (path : list Z) : list Z := ztake 107 path.

(** The error raised when the host does not resolve comes with the server as it
    is left. *)
Definition tcpd_server_rebind (v : bind_env) (z : tserver) : outcome (outcome unit * tserver) :=
  z ← evconnlistener_free z;
  let s := z_server z in
  match s_unix_path s with
  | Some path => mret (Ret tt, evconnlistener_new_bind v (BindUnix (sun_path path)) z)
  | None =>
      match s_host s with
      | Some host =>
          if v_resolves v (s_ipv6 s) host (portbuf (s_port s))
          then mret (Ret tt, evconnlistener_new_bind v (BindHost (s_ipv6 s) host (portbuf (s_port s))) z)
          else mret (Raise (lit "invalid bind address " ++ host ++ lit ":" ++ dec_of_Z (s_port s)), z)
      | None => mret (Ret tt, evconnlistener_new_bind v (BindAny (s_ipv6 s) (u16 (s_port s))) z)
      end
  end.

(** The table returned, as its [ip] and [port]; [None] is nil. *)
Definition lua_tcpd_server_localinfo (n : sockname) (z : tserver) : option (list Z * Z) :=
  match s_listener (z_server z) with
  | None => None
  | Some _ => match n with InetName ip port => Some (cstr ip, port) | _ => None end
  end.

Definition regress_get_socket_port (n : sockname) : Z := match n with InetName _ port => port | _ => -1 end.

(** ** Creation *)

Definition reg_func (t : T) (key : string) (reg : gmap positive regval) : option positive * gmap positive regval :=
  match field_of t key with
  | LFun k => let r := fresh (dom reg) in (Some r, <[r := RFun k]> reg)
  | _ => (None, reg)
  end.

Definition server_tls (v : bind_env) (t : T) (config : tcpd_config_t) (ssl : ssl_store) : option positive * ssl_store :=
  if ssl_enabled config then
    let '(a, ssl) := tcpd_ssl_context_create ssl in
    match contexts ssl !! a with
    | Some c => (Some a, put_context a (snd (tcpd_ssl_context_configure (v_ctx v) t c)) ssl)
    | None => (Some a, ssl)
    end
  else (None, ssl).

(** The values returned are the topmost on the stack: with TLS the new context
    lies above the server. *)
Definition tcpd_bind (v : bind_env) (t : T) (live : gmap positive bind_addr) (reg : gmap positive regval) (ssl : ssl_store)
    : outcome (outcome (list lua_value) * tserver) :=
  let '(a, reg) := reg_func t "onaccept" reg in
  let '(h, reg) := reg_func t "onsslhostname" reg in
  let config := tcpd_config_from_lua_table (v_ifindex_of v) t in
  let '(c, ssl) := server_tls v t config ssl in
  let z := mk_tserver (mk_server None a h (dup_str t "host") (set_int t "port") (lua_toboolean (field_of t "ipv6"))
                         (dup_str t "unix_path") config c) live reg ssl in
  '(r, z) ← tcpd_server_rebind v z;
  match r with
  | Ret _ =>
      match s_listener (z_server z) with
      | None => mret (Ret [], z)
      | Some _ =>
          let z := if s_port (z_server z) =? 0 then on_server (set_port (regress_get_socket_port (v_sockname v))) z else z in
          mret (Ret [match c with Some a => LUserdata a | None => self end; LInt (s_port (z_server z))], z)
      end
  | Raise e => mret (Raise e, z)
  | UB => UB
  end.

Definition lua_tcpd_server_rebind (v : bind_env) (z : tserver) : outcome (outcome (list lua_value) * tserver) :=
  '(r, z) ← tcpd_server_rebind v z; mret (match r with Ret _ => Ret [] | Raise e => Raise e | UB => UB end, z).

(** ** Accepting *)

(** The socket libevent accepted, the peer, and whether a bufferevent can be made
    for it. *)
Record accept_env : Type := mk_accept {
  v_accept_fd : Z;
  v_addr : peer_addr;
  v_bev : bool;
  v_server_weak : bool;
  v_accept_setsockopt : Z -> sockopt -> bool;
  v_accept_in : E;
  v_accept_out : E
}.

Definition peer_ip (a : peer_addr) : list Z := match a with Peer4 ip _ => ztake 15 ip | Peer6 ip _ => ztake 45 ip | PeerOther _ => [] end.
Definition peer_port (a : peer_addr) : Z := match a with Peer4 _ port => port | Peer6 _ port => port | PeerOther b => b end.

Definition accepted_conn (v : accept_env) (config : tcpd_config_t) : tcpd_base_conn_t :=
  let c := tcpd_base_conn_init TCPD_CONN_TYPE_ACCEPT in
  mk_conn true (c_buf_mutex c) TCPD_CONN_CONNECTED (c_type c) (c_cleaned_up c) (c_mainthread c) None None None None
    config None (c_host c) (peer_port (v_addr v)) (c_unix_path c) (peer_ip (v_addr v)).

(** A server with TLS needs its context; it may have no [SSL_CTX]. *)
Definition server_bev (v : accept_env) (z : tserver) : outcome bool :=
  match s_ssl_ctx (z_server z) with
  | Some a => match contexts (z_ssl z) !! a with Some c => Ret (ssl_ctx c && v_bev v) | None => UB end
  | None => Ret (v_bev v)
  end.

(** The new connection as the script finds it; [None]: the callback does not run.
    Without a bufferevent the coroutine is resumed with the connection object in
    the place of the function, which is an error in the coroutine. *)
Definition tcpd_server_listener_cb (conn : lua_value) (body : positive -> list lua_value -> tscript T) (ok : bool)
    (v : accept_env) (z : tserver) : outcome (option (tconn E * list sockopt) * tserver) :=
  let s := z_server z in
  match onAcceptRef s with
  | None => Ret (None, z)
  | Some r =>
      if negb ok then Ret (None, z)
      else
        let w := new_tconn (accepted_conn v (s_config s)) false
                   (mk_bev true true true true false (v_accept_in v) (v_accept_out v)) (z_reg z) (z_ssl z) in
        let '(thread_ref, w) := luaL_ref RThread w in
        match t_reg w !! r with
        | Some (RFun k) =>
            bev ← server_bev v z;
            if bev : bool then
              let '(_, l1) := tcpd_config_apply_buffers (v_accept_setsockopt v) (s_config s) (v_accept_fd v) in
              let '(_, l2) := tcpd_config_apply_keepalive (v_accept_setsockopt v) (s_config s) (v_accept_fd v) in
              let args := if callback_self_first (s_config s) && v_server_weak v then [self; conn] else [conn] in
              w ← run_script (body k args) (called CbAccept w);
              w ← luaL_unref thread_ref w;
              mret (Some (w, l1 ++ l2), mk_tserver s (z_live z) (t_reg w) (t_ssl w))
            else mret (None, z)
        | _ => mret (None, z)
        end
  end.

(** ** Closing *)

Definition unref (r : option positive) (reg : gmap positive regval) : outcome (gmap positive regval) :=
  match r with
  | None => Ret reg
  | Some r => match reg !! r with Some _ => Ret (delete r reg) | None => UB end
  end.

(** Also [close].  Host and path are freed; the port and the settings stay. *)
Definition tcpd_server_gc (z : tserver) : outcome tserver :=
  let s := z_server z in
  reg ← unref (onAcceptRef s) (z_reg z);
  reg ← unref (onSSLHostNameRef s) reg;
  z ← evconnlistener_free (mk_tserver s (z_live z) reg (z_ssl z));
  ssl ← (match s_ssl_ctx s with Some a => tcpd_ssl_context_release a true (z_ssl z) | None => Ret (z_ssl z) end);
  mret (mk_tserver (mk_server None None None None (s_port s) (s_ipv6 s) None (s_config s) None) (z_live z) (z_reg z) ssl).
End Server.
