(* ===== verification/TcpdLife.v ===== *)
(** * What holds of a TCP connection through its life

    The events of a connection as steps: scripts calling its methods, libevent
    reading, writing and reporting, and the collector.  The invariant relates the
    object, its bufferevent, the registry and the TLS context; the theorems say
    that no step does anything undefined, what a disconnection releases, and what
    the script is told. *)

From S2P Require Import Prelude ByteArray Lua LuaState Double Evhttp Registry TcpdConfig TcpdSsl Tcpd TcpdServer.

Section Life.
Context {E T : Type} `{Evbuffer E} `{LuaTable T} `{Allocator} `{LuaAPI}.
Implicit Type w : tconn E.
Implicit Type F : gmap positive regval.

(** ** Scripts that keep the object and do not ask for the address of a socket of
    another family *)

Definition call_ok (c : tcall T) : Prop := match c with TCollect | TSockName OtherName | TPeerName OtherName => False | _ => True end.
Fixpoint script_ok (s : tscript T) : Prop :=
  match s with TDone => True | TCall c k => call_ok c /\ forall r, script_ok (k r) end.

(** ** The references of a connection *)

Definition refs (c : tcpd_base_conn_t) : list positive :=
  opt_list (onReadRef c) ++ opt_list (onSendReadyRef c) ++ opt_list (onDisconnectedRef c) ++ opt_list (onConnectedRef c).

(** ** The invariant *)

(** Object, bufferevent, registry and TLS context fit together; what was sent is
    what libevent passed on and what still waits. *)
Record t_core F w : Prop := {
  k_buf : c_buf (t_conn w) = b_live (t_bev w);
  k_cb : b_cb (t_bev w) = true -> b_live (t_bev w) = true;
  k_reg : reg_inv F (refs (t_conn w)) (t_reg w);
  k_exact : c_type (t_conn w) = TCPD_CONN_TYPE_CLIENT -> reg_exact F (refs (t_conn w)) (t_reg w);
  k_ssl : forall a, c_ssl_ctx (t_conn w) = Some a -> is_Some (contexts (t_ssl w) !! a);
  k_out : t_written w ++ evbuffer_bytes (b_output (t_bev w)) = t_sent w
}.

(** An object is whole until it is cleaned up, once, and empty from then on (an
    accepted connection can still be given callbacks); only then can its memory
    go, and its mutex be used after its end. *)
Record t_inv F w : Prop := {
  i_core : t_core F w;
  i_open : c_cleaned_up (t_conn w) = false -> c_buf_mutex (t_conn w) = true /\ c_mainthread (t_conn w) = true;
  i_shut : c_cleaned_up (t_conn w) = true ->
    c_buf (t_conn w) = false /\ c_mainthread (t_conn w) = false /\ c_ssl_ctx (t_conn w) = None /\ c_buf_mutex (t_conn w) = false;
  i_alive : t_alive w = false -> c_cleaned_up (t_conn w) = true;
  i_misuse : t_misuse w = true -> c_cleaned_up (t_conn w) = true;
  i_refs : c_type (t_conn w) = TCPD_CONN_TYPE_CLIENT -> c_cleaned_up (t_conn w) = true -> refs (t_conn w) = []
}.

(** What may change of a connection in its life; its TLS context is given back at
    most once. *)
Record life w w' : Prop := {
  f_type : c_type (t_conn w') = c_type (t_conn w);
  f_config : c_config (t_conn w') = c_config (t_conn w);
  f_received : t_received w' = t_received w;
  f_written : t_written w' = t_written w;
  f_cb : b_cb (t_bev w') = true -> b_cb (t_bev w) = true;
  f_cleaned : c_cleaned_up (t_conn w) = true -> c_cleaned_up (t_conn w') = true;
  f_misuse : t_misuse w = true -> t_misuse w' = true;
  f_ssl : (c_ssl_ctx (t_conn w') = c_ssl_ctx (t_conn w) /\ t_ssl w' = t_ssl w) \/
    (exists a, c_ssl_ctx (t_conn w) = Some a /\ c_ssl_ctx (t_conn w') = None /\
       tcpd_ssl_context_release a true (t_ssl w) = Ret (t_ssl w'))
}.
(** What a call of a method, and so a whole script, may change. *)
Definition frame w w' : Prop :=
  life w w' /\ (b_cb (t_bev w) = true -> b_cb (t_bev w') = true \/ c_cleaned_up (t_conn w') = true) /\
  (c_type (t_conn w) = TCPD_CONN_TYPE_CLIENT -> b_cb (t_bev w') = true ->
     onDisconnectedRef (t_conn w') = onDisconnectedRef (t_conn w)).
Definition quiet w w' : Prop :=
  t_calls w' = t_calls w /\ evbuffer_bytes (b_input (t_bev w')) = evbuffer_bytes (b_input (t_bev w)) /\ t_alive w' = t_alive w.
Definition stays F w w' : Prop := t_inv F w' /\ frame w w' /\ quiet w w'.

#[export] Instance life_preorder : PreOrder life.
Proof.
  split.
  - intros w. constructor; try done; by left.
  - intros w1 w2 w3 [A1 A2 A3 A4 A5 A6 A7 A8] [B1 B2 B3 B4 B5 B6 B7 B8]. constructor; try congruence; [auto..|].
    destruct A8 as [(E1 & E2)|(a & E1 & E2 & E3)], B8 as [(E4 & E5)|(b & E4 & E5 & E6)].
    + left. split; congruence.
    + right. exists b. split; [congruence|]. split; [done|]. congruence.
    + right. exists a. split; [done|]. split; [congruence|]. congruence.
    + congruence.
Qed.
#[export] Instance frame_preorder : PreOrder frame.
Proof.
  split.
  - intros w. split; [apply life_preorder|]. split; [by left|done].
  - intros w1 w2 w3 (A & A8 & A9) (B & B8 & B9). split; [by etrans|]. destruct A as [At _ _ _ _ _ _ _], B as [Bt _ _ _ Bc Bcl _ _]. split.
    + intros [?|?]%A8; auto.
    + intros Ht Hb. rewrite B9, A9; [done|done|auto|congruence|done].
Qed.
Ltac frame_tac := split; [constructor; cbn; try done; by left|]; split; [by left|done].
#[export] Instance quiet_preorder : PreOrder quiet.
Proof. split; [done|]. intros w1 w2 w3 (?&?&?) (?&?&?). split; [|split]; congruence. Qed.

Lemma stays_refl F w : t_inv F w -> stays F w w.
Proof. intros ?. split; [done|]. by split; [apply frame_preorder|apply quiet_preorder]. Qed.
Lemma stays_trans F w1 w2 w3 : stays F w1 w2 -> stays F w2 w3 -> stays F w1 w3.
Proof. intros (_ & ? & ?) (? & ? & ?). split; [done|]. by split; etrans. Qed.
Lemma returns_stays F w1 w2 (r : outcome (tconn E)) : stays F w1 w2 -> returns r (stays F w2) -> returns r (stays F w1).
Proof. intros Hs Hr. eapply returns_mono; [exact Hr|]. intros w3. by apply stays_trans. Qed.

(** *** The mutex *)

Lemma lock_stays F w : t_inv F w -> stays F w (pthread_mutex_lock w).
Proof.
  intros Hi. unfold pthread_mutex_lock. destruct (c_buf_mutex (t_conn w)) eqn:Em; [by apply stays_refl|].
  assert (Hc : c_cleaned_up (t_conn w) = true).
  { destruct (c_cleaned_up (t_conn w)) eqn:Ec; [done|]. destruct (i_open _ _ Hi Ec). congruence. }
  destruct Hi as [[] ? ? ? ? ?]. split; [|split; [|done]].
  - constructor; cbn; done.
  - frame_tac.
Qed.
Lemma lock_id F w : t_inv F w -> c_buf (t_conn w) = true -> pthread_mutex_lock w = w.
Proof.
  intros Hi Hb. unfold pthread_mutex_lock. destruct (c_cleaned_up (t_conn w)) eqn:Ec.
  - destruct (i_shut _ _ Hi Ec). congruence.
  - by destruct (i_open _ _ Hi Ec) as [-> _].
Qed.


(** *** References and cleanup *)

(** Nothing but the registry and the references has changed. *)
Record unrefs w w' : Prop := {
  u_buf : c_buf (t_conn w') = c_buf (t_conn w);
  u_mutex : c_buf_mutex (t_conn w') = c_buf_mutex (t_conn w);
  u_type : c_type (t_conn w') = c_type (t_conn w);
  u_cleaned : c_cleaned_up (t_conn w') = c_cleaned_up (t_conn w);
  u_mainthread : c_mainthread (t_conn w') = c_mainthread (t_conn w);
  u_config : c_config (t_conn w') = c_config (t_conn w);
  u_ssl_ctx : c_ssl_ctx (t_conn w') = c_ssl_ctx (t_conn w);
  u_alive : t_alive w' = t_alive w;
  u_bev : t_bev w' = t_bev w;
  u_ssl : t_ssl w' = t_ssl w;
  u_misuse : t_misuse w' = t_misuse w;
  u_received : t_received w' = t_received w;
  u_sent : t_sent w' = t_sent w;
  u_written : t_written w' = t_written w;
  u_calls : t_calls w' = t_calls w
}.
#[export] Instance unrefs_preorder : PreOrder unrefs.
Proof. split; [by intros w|]. intros w1 w2 w3 [] []. constructor; congruence. Qed.

Lemma unref_core F w f r l1 l2 : t_core F w -> refs (t_conn w) = l1 ++ opt_list r ++ l2 ->
  (forall reg, unrefs w (on_conn f (put_reg reg w))) -> refs (f (t_conn w)) = l1 ++ l2 ->
  exists reg, (w ← unref_opt r w; mret (on_conn f w)) = Ret (on_conn f (put_reg reg w)) /\ t_core F (on_conn f (put_reg reg w)).
Proof.
  intros [K1 K2 K3 K4 K5 K6] Hr Hu Hf. destruct r as [r|]; cbn [unref_opt opt_list app] in *.
  - rewrite Hr in K3. destruct (reg_inv_del _ _ _ _ _ K3) as [[v Hv] K3']. unfold luaL_unref. rewrite Hv. eexists. split; [reflexivity|].
    destruct (Hu (delete r (t_reg w))) as [Hb _ Ht _ _ _ Hs _ _ _ _ _ _ _ _]. cbn in Hb, Ht, Hs.
    constructor; cbn; rewrite ?Hb, ?Ht, ?Hs, ?Hf; try done. intros Hc. rewrite Hr in K4. by apply reg_exact_del, K4.
  - exists (t_reg w). split; [by destruct w|]. rewrite Hr in K3, K4.
    destruct (Hu (t_reg w)) as [Hb _ Ht _ _ _ Hs _ _ _ _ _ _ _ _]. cbn in Hb, Ht, Hs.
    constructor; cbn; rewrite ?Hb, ?Ht, ?Hs, ?Hf; done.
Qed.

(** The four references, and [m] dropping one of them. *)
Definition four (c : tcpd_base_conn_t) := (onReadRef c, onSendReadyRef c, onDisconnectedRef c, onConnectedRef c).
Definition clears (m : tconn E -> outcome (tconn E)) (f : tcpd_base_conn_t -> tcpd_base_conn_t) : Prop :=
  forall F w, t_core F w -> exists w', m w = Ret w' /\ t_core F w' /\ unrefs w w' /\ four (t_conn w') = four (f (t_conn w)).

Ltac clear_tac f l1 l2 r :=
  intros F w Hc; destruct (unref_core F w f (r (t_conn w)) (l1 (t_conn w)) (l2 (t_conn w)) Hc) as (reg & E1 & C1);
  [unfold refs; cbn; by rewrite <- ?app_assoc, ?app_nil_r|done|unfold refs; cbn; by rewrite <- ?app_assoc, ?app_nil_r|];
  eexists; split; [exact E1|]; split; [exact C1|done].

Lemma clear_read : clears CLEAR_ONREAD (fun c => set_refs None (onSendReadyRef c) (onDisconnectedRef c) (onConnectedRef c) c).
Proof.
  clear_tac (fun c => set_refs None (onSendReadyRef c) (onDisconnectedRef c) (onConnectedRef c) c)
    (fun _ : tcpd_base_conn_t => @nil positive)
    (fun c => opt_list (onSendReadyRef c) ++ opt_list (onDisconnectedRef c) ++ opt_list (onConnectedRef c)) onReadRef.
Qed.
Lemma clear_sendready : clears CLEAR_ONSENDREADY (fun c => set_refs (onReadRef c) None (onDisconnectedRef c) (onConnectedRef c) c).
Proof.
  clear_tac (fun c => set_refs (onReadRef c) None (onDisconnectedRef c) (onConnectedRef c) c)
    (fun c => opt_list (onReadRef c)) (fun c => opt_list (onDisconnectedRef c) ++ opt_list (onConnectedRef c)) onSendReadyRef.
Qed.
Lemma clear_disconnected : clears CLEAR_ONDISCONNECTED (fun c => set_refs (onReadRef c) (onSendReadyRef c) None (onConnectedRef c) c).
Proof.
  clear_tac (fun c => set_refs (onReadRef c) (onSendReadyRef c) None (onConnectedRef c) c)
    (fun c => opt_list (onReadRef c) ++ opt_list (onSendReadyRef c)) (fun c => opt_list (onConnectedRef c)) onDisconnectedRef.
Qed.
Lemma clear_connected : clears CLEAR_ONCONNECTED (fun c => set_refs (onReadRef c) (onSendReadyRef c) (onDisconnectedRef c) None c).
Proof.
  clear_tac (fun c => set_refs (onReadRef c) (onSendReadyRef c) (onDisconnectedRef c) None c)
    (fun c => opt_list (onReadRef c) ++ opt_list (onSendReadyRef c) ++ opt_list (onDisconnectedRef c))
    (fun _ : tcpd_base_conn_t => @nil positive) onConnectedRef.
Qed.

Definition clear_all w : outcome (tconn E) :=
  w ← CLEAR_ONREAD w; w ← CLEAR_ONSENDREADY w; w ← CLEAR_ONDISCONNECTED w; CLEAR_ONCONNECTED w.
Lemma clear_all_spec F w : t_core F w ->
  exists w', clear_all w = Ret w' /\ t_core F w' /\ unrefs w w' /\ refs (t_conn w') = [].
Proof.
  intros Hc. unfold clear_all. destruct (clear_read F w Hc) as (w1 & -> & C1 & U1 & [= R1 S1 D1 K1]). cbn [mbind outcome_bind].
  destruct (clear_sendready _ _ C1) as (w2 & -> & C2 & U2 & [= R2 S2 D2 K2]). cbn [mbind outcome_bind].
  destruct (clear_disconnected _ _ C2) as (w3 & -> & C3 & U3 & [= R3 S3 D3 K3]). cbn [mbind outcome_bind].
  destruct (clear_connected _ _ C3) as (w4 & -> & C4 & U4 & [= R4 S4 D4 K4]).
  exists w4. split; [done|]. split; [done|]. split; [by etrans; [|etrans; [|etrans]]|].
  unfold refs. rewrite R4, S4, D4, K4, R3, S3, D3, R2, S2, R1. done.
Qed.

(** Taking the buffer away. *)
Definition taken w : tconn E :=
  if c_buf (t_conn w)
  then put_bev (mk_bev false false false false (b_fin (t_bev w)) (b_input (t_bev w)) (b_output (t_bev w))) (on_conn (set_buf false) w)
  else on_conn (set_buf false) w.
Lemma take_buf_core F w : t_core F w -> c_buf_mutex (t_conn w) = true -> take_buf w = Ret (taken w) /\ t_core F (taken w).
Proof.
  intros [K1 K2 K3 K4 K5 K6] Hm. unfold take_buf, pthread_mutex_lock, taken. rewrite Hm.
  destruct (c_buf (t_conn w)) eqn:Hb; cbn.
  - unfold tcpd_shutdown_bufferevent, at_bev. cbn. rewrite <- K1. split; [done|]. by constructor.
  - split; [done|]. constructor; cbn; done.
Qed.

Lemma release_core F w : t_core F w -> c_mainthread (t_conn w) = true ->
  exists s, release_ssl w = Ret (on_conn (set_ssl_ctx None) (put_ssl s w)) /\ t_core F (on_conn (set_ssl_ctx None) (put_ssl s w)) /\
    ((c_ssl_ctx (t_conn w) = None /\ s = t_ssl w) \/
     exists a, c_ssl_ctx (t_conn w) = Some a /\ tcpd_ssl_context_release a true (t_ssl w) = Ret s).
Proof.
  intros [K1 K2 K3 K4 K5 K6] Hm. unfold release_ssl. rewrite Hm. destruct (c_ssl_ctx (t_conn w)) as [a|] eqn:Ha.
  - destruct (K5 a eq_refl) as [c Hc]. assert (exists s, tcpd_ssl_context_release a true (t_ssl w) = Ret s) as [s Hs].
    { unfold tcpd_ssl_context_release. rewrite Hc. repeat case_match; by eexists. }
    rewrite Hs. exists s. split; [done|]. split; [by constructor|]. right. by exists a.
  - exists (t_ssl w). split; [|split; [by constructor|by left]].
    destruct w as [[] ? ? ? ? ? ? ? ? ? ?]. cbn in *. by rewrite Ha.
Qed.


(** What the cleanup makes of a connection. *)
Record gone w w' : Prop := {
  g_buf : c_buf (t_conn w') = false;
  g_mutex : c_buf_mutex (t_conn w') = false;
  g_mainthread : c_mainthread (t_conn w') = false;
  g_refs : refs (t_conn w') = [];
  g_ssl_ctx : c_ssl_ctx (t_conn w') = None;
  g_state : c_state (t_conn w') = TCPD_CONN_DISCONNECTED;
  g_cleaned : c_cleaned_up (t_conn w') = c_cleaned_up (t_conn w);
  g_misuse : t_misuse w' = t_misuse w;
  g_type : c_type (t_conn w') = c_type (t_conn w);
  g_config : c_config (t_conn w') = c_config (t_conn w);
  g_received : t_received w' = t_received w;
  g_written : t_written w' = t_written w;
  g_quiet : quiet w w';
  g_ssl : (c_ssl_ctx (t_conn w) = None /\ t_ssl w' = t_ssl w) \/
    exists a, c_ssl_ctx (t_conn w) = Some a /\ tcpd_ssl_context_release a true (t_ssl w) = Ret (t_ssl w')
}.

Lemma taken_same w : c_mainthread (t_conn (taken w)) = c_mainthread (t_conn w) /\ c_ssl_ctx (t_conn (taken w)) = c_ssl_ctx (t_conn w) /\
  c_cleaned_up (t_conn (taken w)) = c_cleaned_up (t_conn w) /\ c_type (t_conn (taken w)) = c_type (t_conn w) /\
  c_config (t_conn (taken w)) = c_config (t_conn w) /\ refs (t_conn (taken w)) = refs (t_conn w) /\
  t_ssl (taken w) = t_ssl w /\ t_misuse (taken w) = t_misuse w /\ t_received (taken w) = t_received w /\
  t_written (taken w) = t_written w /\ quiet w (taken w) /\ c_buf (t_conn (taken w)) = false.
Proof. unfold taken. by destruct (c_buf (t_conn w)). Qed.

Lemma base_cleanup_spec F w : t_core F w -> c_buf_mutex (t_conn w) = true -> c_mainthread (t_conn w) = true ->
  exists w', tcpd_base_conn_cleanup w = Ret w' /\ t_core F w' /\ gone w w'.
Proof.
  intros Hc Hm Hmt. unfold tcpd_base_conn_cleanup. destruct (take_buf_core F w Hc Hm) as [-> C1].
  destruct (taken_same w) as (E1 & E2 & E3 & E4 & E5 & E6 & E7 & E8 & E9 & E10 & E11 & E12).
  generalize dependent (taken w). intros w1 C1 E1 E2 E3 E4 E5 E6 E7 E8 E9 E10 E11 E12.
  cbn [mbind outcome_bind]. rewrite E1, Hmt.
  fold (clear_all w1). destruct (clear_all_spec F w1 C1) as (w2 & -> & C2 & U & R2). cbn [mbind outcome_bind].
  destruct U as [U1 U2 U3 U4 U5 U6 U7 U8 U9 U10 U11 U12 U13 U14 U15].
  destruct (release_core _ _ C2) as (s & -> & C3 & Hs); [congruence|]. cbn [mbind outcome_bind mret outcome_ret].
  eexists. split; [reflexivity|]. split.
  - clear -C3. destruct C3 as [K1 K2 K3 K4 K5 K6]. by constructor.
  - rewrite U7, E2, U10, E7 in Hs. destruct E11 as (? & ? & ?). constructor; cbn; try congruence; try done.
    repeat split; cbn; congruence.
Qed.

Lemma cleanup_spec F w : t_inv F w -> c_cleaned_up (t_conn w) = false -> t_alive w = true ->
  exists w', tcpd_connection_cleanup_on_disconnect w = Ret w' /\ t_inv F w' /\ gone (on_conn (set_cleaned_up true) w) w'.
Proof.
  intros Hi Hc Ha. destruct (i_open _ _ Hi Hc) as [Hm Hmt]. set (w1 := on_conn (set_cleaned_up true) w).
  assert (C1 : t_core F w1) by (by destruct (i_core _ _ Hi)).
  assert (Hinv : forall w', t_core F w' -> gone w1 w' -> t_inv F w').
  { intros w' Hcore [? ? ? ? ? ? ? ? ? ? ? ? [? [? ?]] ?]. constructor; try done; cbn in *; congruence. }
  assert (Hout : exists w', tcpd_base_conn_cleanup w1 = Ret w' /\ t_inv F w' /\ gone w1 w').
  { destruct (base_cleanup_spec F w1 C1 Hm Hmt) as (w' & E1 & Hcore & Hg). exists w'. auto. }
  assert (Hclient : exists w', (w ← release_ssl w1; tcpd_base_conn_cleanup w) = Ret w' /\ t_inv F w' /\ gone w1 w').
  { destruct (release_core F w1 C1 Hmt) as (s & -> & C2 & Hs). cbn [mbind outcome_bind].
    destruct (base_cleanup_spec _ _ C2 Hm Hmt) as (w' & E1 & Hcore & Hg). exists w'. split; [done|].
    assert (Hg' : gone w1 w').
    { destruct Hg. constructor; try done. destruct g_ssl0 as [[_ E2]|(a & ? & _)]; [|done]. rewrite E2. cbn.
      destruct Hs as [[? ->]|(a & ? & ?)]; [by left|right; by exists a]. }
    auto. }
  unfold tcpd_connection_cleanup_on_disconnect, tcpd_client_cleanup_on_disconnect. rewrite Hc. by destruct (c_type (t_conn w)).
Qed.

Lemma gone_frame F w w' : t_inv F w' -> gone (on_conn (set_cleaned_up true) w) w' -> frame w w'.
Proof.
  intros Hi []. assert (Hb : b_cb (t_bev w') <> true).
  { intros Hb. apply (k_cb _ _ (i_core _ _ Hi)) in Hb. rewrite <- (k_buf _ _ (i_core _ _ Hi)) in Hb. congruence. }
  split; [|split; [by right|done]]. constructor; try done.
  - by rewrite g_misuse0.
  - cbn in g_ssl0. destruct g_ssl0 as [[? ?]|(a & ? & ?)]; [left; split; congruence|right; by exists a].
Qed.

Lemma cleanup_stays F w : t_inv F w -> t_alive w = true ->
  exists w', tcpd_connection_cleanup_on_disconnect w = Ret w' /\ stays F w w' /\ c_cleaned_up (t_conn w') = true.
Proof.
  intros Hi Ha. destruct (c_cleaned_up (t_conn w)) eqn:Hc.
  - exists w. split; [|split; [by apply stays_refl|done]].
    unfold tcpd_connection_cleanup_on_disconnect, tcpd_client_cleanup_on_disconnect. rewrite Hc. by destruct (c_type (t_conn w)).
  - destruct (cleanup_spec F w Hi Hc Ha) as (w' & -> & Hi' & Hg). exists w'. split; [done|].
    split; [|by destruct Hg]. split; [done|]. split; [by eapply gone_frame|]. by destruct Hg.
Qed.


(** *** Callbacks *)

Definition refs_of (r s d k : option positive) : list positive := opt_list r ++ opt_list s ++ opt_list d ++ opt_list k.

Lemma func_ref_spec F l t key w : reg_inv F l (t_reg w) ->
  exists r reg, func_ref t key w = (r, put_reg reg w) /\ reg_inv F (l ++ opt_list r) reg /\
    (reg_exact F l (t_reg w) -> reg_exact F (l ++ opt_list r) reg).
Proof.
  intros Hr. assert (Hnone : exists r reg, (None, w) = (r, put_reg reg w) /\ reg_inv F (l ++ opt_list r) reg /\
    (reg_exact F l (t_reg w) -> reg_exact F (l ++ opt_list r) reg)).
  { exists None, (t_reg w). rewrite app_nil_r. split; [by destruct w|]. by split. }
  unfold func_ref. destruct (field_of t key); try exact Hnone. cbn [luaL_ref]. eexists (Some _), _. split; [reflexivity|]. cbn [opt_list]. split.
  - apply reg_inv_add. by rewrite app_nil_r.
  - intros He. apply reg_exact_add. by rewrite app_nil_r.
Qed.

Lemma set_callbacks_spec F t w : reg_inv F [] (t_reg w) ->
  exists r s d k reg, tcpd_base_conn_set_callbacks t w = on_conn (set_refs r s d k) (put_reg reg w) /\
    reg_inv F (refs_of r s d k) reg /\ (reg_exact F [] (t_reg w) -> reg_exact F (refs_of r s d k) reg).
Proof.
  intros H0'. unfold tcpd_base_conn_set_callbacks. set (w1 := on_conn (set_refs None None None None) w).
  destruct (func_ref_spec F [] t "onread" w1 H0') as (r & g1 & -> & H1' & X1).
  destruct (func_ref_spec F _ t "onsendready" (put_reg g1 w1) H1') as (s & g2 & -> & H2' & X2).
  destruct (func_ref_spec F _ t "ondisconnected" (put_reg g2 (put_reg g1 w1)) H2') as (d & g3 & -> & H3' & X3).
  destruct (func_ref_spec F _ t "onconnected" (put_reg g3 (put_reg g2 (put_reg g1 w1))) H3') as (k & g4 & -> & H4' & X4).
  exists r, s, d, k, g4. split; [done|]. cbn [app t_reg put_reg w1 on_conn] in *. unfold refs_of. rewrite !app_assoc. split; [done|]. auto.
Qed.

(** *** Methods *)

(** A method that has returned or raised. *)
Definition call_stays F w (r : call (E := E)) : Prop := returns r (fun rw => stays F w rw.2).

Lemma call_stays_trans F w1 w2 r : stays F w1 w2 -> call_stays F w2 r -> call_stays F w1 r.
Proof. intros Hs Hr. eapply returns_mono; [exact Hr|]. intros [x w3]. by apply stays_trans. Qed.

(** Changing the bufferevent in place, and what has been sent. *)
Lemma bev_stays F w b l : t_inv F w -> b_live b = b_live (t_bev w) -> b_cb b = b_cb (t_bev w) -> b_input b = b_input (t_bev w) ->
  t_written w ++ evbuffer_bytes (b_output b) = l -> stays F w (put_sent l (put_bev b w)).
Proof.
  intros [[] ? ? ? ? ?] Hl Hc Hin Hs. split; [|split].
  - constructor; cbn; try done. constructor; cbn; rewrite ?Hc, ?Hl; done.
  - split; [constructor; cbn; rewrite ?Hc; try done; by left|]. cbn. rewrite Hc. split; [by left|done].
  - split; [done|]. split; [cbn; by rewrite Hin|done].
Qed.
Lemma bev_stays' F w b : t_inv F w -> b_live b = b_live (t_bev w) -> b_cb b = b_cb (t_bev w) -> b_input b = b_input (t_bev w) ->
  b_output b = b_output (t_bev w) -> stays F w (put_bev b w).
Proof.
  intros Hi Hl Hc Hin Ho. change (put_bev b w) with (put_sent (t_sent w) (put_bev b w)). apply bev_stays; [done..|].
  rewrite Ho. apply Hi.
Qed.
Lemma at_bev_open {A} F w (k : outcome A) : t_inv F w -> c_buf (t_conn w) = true -> at_bev w k = k.
Proof. intros Hi Hb. unfold at_bev. by rewrite <- (k_buf _ _ (i_core _ _ Hi)), Hb. Qed.

Lemma locked F w (k : tconn E -> call (E := E)) : t_inv F w -> (forall w1, t_inv F w1 -> call_stays F w1 (k w1)) ->
  call_stays F w (k (pthread_mutex_lock w)).
Proof. intros Hi Hk. pose proof (lock_stays F w Hi) as Hs. eapply call_stays_trans; [exact Hs|]. apply Hk, Hs. Qed.
Ltac locked_tac :=
  match goal with |- call_stays ?F ?w ?r =>
    match eval pattern (pthread_mutex_lock w) in r with ?f _ => apply (locked F w f) end
  end.
Lemma result_stays F w r : t_inv F w -> call_stays F w (result r w).
Proof. intros Hi. by apply stays_refl. Qed.

Lemma send_stays F args w : t_inv F w -> call_stays F w (tcpd_conn_send args w).
Proof.
  intros Hi. unfold tcpd_conn_send. destruct (luaL_checklstring _) as [data| |] eqn:E1; [|by apply result_stays|].
  2:{ unfold luaL_checklstring in E1. by destruct (lua_tolstring _). }
  destruct (Zlen data =? 0); [by apply result_stays|]. cbv zeta.
  locked_tac; [done|]; clear w Hi; intros w Hi; cbv beta.
  destruct (c_buf (t_conn w)) eqn:Hb; cbn [negb]; [|by apply result_stays]. rewrite (at_bev_open F) by done.
  destruct (evbuffer_add _ _) as [o|] eqn:Ho; [|by apply result_stays]. apply bev_stays; [done..|].
  cbn. apply evbuffer_add_spec in Ho. rewrite Ho, app_assoc. f_equal. apply Hi.
Qed.
Lemma shutdown_stays F fd w : t_inv F w -> call_stays F w (tcpd_conn_shutdown fd w).
Proof.
  intros Hi. unfold tcpd_conn_shutdown. cbv zeta. locked_tac; [done|]; clear w Hi; intros w Hi; cbv beta.
  destruct (c_buf (t_conn w)) eqn:Hb; cbn [negb]; [|by apply result_stays]. rewrite (at_bev_open F) by done.
  case_match; [by apply bev_stays'|by apply result_stays].
Qed.
Lemma read_pause_stays F w : t_inv F w -> call_stays F w (tcpd_conn_read_pause w).
Proof.
  intros Hi. unfold tcpd_conn_read_pause. cbv zeta. locked_tac; [done|]; clear w Hi; intros w Hi; cbv beta.
  destruct (c_buf (t_conn w)) eqn:Hb; [|by apply result_stays]. rewrite (at_bev_open F) by done. by apply bev_stays'.
Qed.
Lemma read_resume_stays F w : t_inv F w -> call_stays F w (tcpd_conn_read_resume w).
Proof.
  intros Hi. unfold tcpd_conn_read_resume. cbv zeta. locked_tac; [done|]; clear w Hi; intros w Hi; cbv beta.
  destruct (c_buf (t_conn w)) eqn:Hb; [|by apply result_stays]. rewrite (at_bev_open F) by done. by apply bev_stays'.
Qed.
Lemma getsockname_stays F n w : t_inv F w -> n <> OtherName -> call_stays F w (tcpd_conn_getsockname n w).
Proof.
  intros Hi Hn. unfold tcpd_conn_getsockname. cbv zeta. locked_tac; [done|]; clear w Hi; intros w Hi; cbv beta.
  destruct (c_buf (t_conn w)) eqn:Hb; [|by apply result_stays]. rewrite (at_bev_open F) by done. by destruct n; [apply result_stays..|].
Qed.

Lemma bind_callbacks_stays F t w : t_inv F w -> c_type (t_conn w) <> TCPD_CONN_TYPE_CLIENT ->
  stays F w (tcpd_base_conn_set_callbacks t (put_weak true w)).
Proof.
  intros [[] ? ? ? ? ?] Ht. assert (Hr0 : reg_inv F [] (t_reg w)).
  { destruct k_reg0. split; [done|]. split; [by constructor|]. intros x Hx. by apply not_elem_of_nil in Hx. }
  destruct (set_callbacks_spec F t (put_weak true w) Hr0) as (r & s & d & k & reg & -> & Hr & _). split; [|split; [|done]].
  - constructor; cbn; try done.
  - frame_tac.
Qed.
Lemma accept_bind_stays F t w : t_inv F w -> c_type (t_conn w) <> TCPD_CONN_TYPE_CLIENT -> call_stays F w (tcpd_accept_bind t w).
Proof.
  intros Hi Ht. unfold tcpd_accept_bind. pose proof (bind_callbacks_stays F t w Hi Ht) as Hs. cbv zeta.
  eapply call_stays_trans; [exact Hs|]. locked_tac; [apply Hs|]. clear. intros w Hi. cbv beta. destruct (c_buf (t_conn w)) eqn:Hb; [|by apply result_stays].
  rewrite (at_bev_open F) by done. cbn [mbind outcome_bind]. by apply bev_stays'.
Qed.

Lemma tostring_stays F fd n w : t_inv F w -> call_stays F w (tcpd_conn_tostring fd n w).
Proof.
  intros Hi. unfold tcpd_conn_tostring, tcpd_format_connection_info. cbv zeta. locked_tac; [done|]; clear w Hi; intros w Hi; cbv beta.
  destruct (c_buf (t_conn w)) eqn:Hb; [|by apply result_stays]. rewrite (at_bev_open F) by done.
  destruct n as [|ip port|]; [by apply result_stays| |by apply result_stays]. destruct (0 <=? fd); [|by apply result_stays].
  destruct Hi as [[] ? ? ? ? ?]. split; [|split; [frame_tac|done]]. constructor; try done; constructor; done.
Qed.

(** Both kinds of connection are closed, and collected, by their cleanup. *)
Lemma client_cleanup w : c_type (t_conn w) = TCPD_CONN_TYPE_CLIENT -> tcpd_client_cleanup_on_disconnect w = tcpd_connection_cleanup_on_disconnect w.
Proof. intros Ht. unfold tcpd_connection_cleanup_on_disconnect. by rewrite Ht. Qed.
Lemma accept_cleanup w : c_type (t_conn w) <> TCPD_CONN_TYPE_CLIENT -> tcpd_accept_cleanup_on_disconnect w = tcpd_connection_cleanup_on_disconnect w.
Proof. intros Ht. unfold tcpd_connection_cleanup_on_disconnect, tcpd_accept_cleanup_on_disconnect. by destruct (c_type (t_conn w)). Qed.
Lemma close_call w : tcpd_call (T := T) TClose w =
  at_conn w (w ← tcpd_connection_cleanup_on_disconnect w; Ret (Ret [], w)).
Proof.
  unfold tcpd_call. destruct (c_type (t_conn w)) eqn:Ht; cbn [client_method accept_method]; unfold tcpd_conn_close, tcpd_accept_close.
  - by rewrite client_cleanup.
  - by rewrite accept_cleanup by congruence.
  - by rewrite accept_cleanup by congruence.
Qed.
Lemma gc_cleanup w : tcpd_conn_gc w = (w ← tcpd_connection_cleanup_on_disconnect w; mret (collected w)).
Proof.
  unfold tcpd_conn_gc, tcpd_client_conn_gc, tcpd_accept_conn_gc. destruct (c_type (t_conn w)) eqn:Ht.
  - by rewrite client_cleanup.
  - by rewrite accept_cleanup by congruence.
  - by rewrite accept_cleanup by congruence.
Qed.

Lemma accept_method_keeps F c w : t_inv F w -> t_alive w = true -> call_ok c -> c_type (t_conn w) <> TCPD_CONN_TYPE_CLIENT ->
  call_stays F w (accept_method c w).
Proof.
  intros Hi Ha Hc Ht. destruct c as [args| |fd| | |n|n|fd n|t|]; cbn [call_ok accept_method] in *.
  - by apply send_stays.
  - unfold tcpd_accept_close. rewrite accept_cleanup by done. destruct (cleanup_stays F w Hi Ha) as (w' & -> & Hs & _). exact Hs.
  - by apply result_stays.
  - by apply read_pause_stays.
  - by apply read_resume_stays.
  - apply getsockname_stays; [done|]. by intros ->.
  - apply getsockname_stays; [done|]. by intros ->.
  - by apply result_stays.
  - by apply accept_bind_stays.
  - done.
Qed.
Lemma client_method_keeps F c w : t_inv F w -> t_alive w = true -> call_ok c -> c_type (t_conn w) = TCPD_CONN_TYPE_CLIENT ->
  call_stays F w (client_method c w).
Proof.
  intros Hi Ha Hc Ht. destruct c as [args| |fd| | |n|n|fd n|t|]; cbn [call_ok client_method] in *.
  - by apply send_stays.
  - unfold tcpd_conn_close. rewrite client_cleanup by done. destruct (cleanup_stays F w Hi Ha) as (w' & -> & Hs & _). exact Hs.
  - by apply shutdown_stays.
  - by apply read_pause_stays.
  - by apply read_resume_stays.
  - apply getsockname_stays; [done|]. by intros ->.
  - apply getsockname_stays; [done|]. by intros ->.
  - by apply tostring_stays.
  - by apply result_stays.
  - done.
Qed.
Lemma call_keeps F c w : t_inv F w -> t_alive w = true -> call_ok c -> call_stays F w (tcpd_call c w).
Proof.
  intros Hi Ha Hc. unfold tcpd_call, at_conn. rewrite Ha.
  destruct (c_type (t_conn w)) eqn:Ht; [by apply client_method_keeps|apply accept_method_keeps; congruence..].
Qed.

Lemma script_keeps F s : forall w, t_inv F w -> t_alive w = true -> script_ok s -> returns (run_script s w) (stays F w).
Proof.
  induction s as [|c k IH]; intros w Hi Ha Hs; cbn [run_script script_ok] in *; [by apply stays_refl|].
  destruct Hs as [Hc Hk]. eapply returns_bind; [by apply call_keeps|]. intros [r w1] Hs1. cbn [snd] in Hs1.
  eapply returns_stays; [exact Hs1|]. apply IH; [apply Hs1| |done]. destruct Hs1 as (_ & _ & _ & _ & ->). done.
Qed.

(** *** Calls into the script *)

Context (self : lua_value) (body : positive -> list lua_value -> tscript T).

Definition fires (ok : bool) (ref : option positive) w : bool :=
  match ref with Some _ => c_mainthread (t_conn w) && ok | None => false end.
(** The callbacks [l] have been made. *)
Definition calls_made F l w w' : Prop :=
  t_inv F w' /\ frame w w' /\ t_calls w' = t_calls w ++ l /\
  evbuffer_bytes (b_input (t_bev w')) = evbuffer_bytes (b_input (t_bev w)) /\ t_alive w' = t_alive w.

Lemma frame_reg w reg : frame w (put_reg reg w).
Proof. frame_tac. Qed.
Lemma frame_called cb w : frame w (called cb w).
Proof. frame_tac. Qed.
Lemma open_of_mainthread F w : t_inv F w -> c_mainthread (t_conn w) = true -> c_cleaned_up (t_conn w) = false.
Proof. intros Hi Hm. destruct (c_cleaned_up (t_conn w)) eqn:Hc; [|done]. destruct (i_shut _ _ Hi Hc) as (_ & ? & _). congruence. Qed.

Lemma thread_inv F w : t_inv F w -> let th := fresh (dom (t_reg w)) in
  F !! th = None /\ t_inv (<[th := RThread]> F) (put_reg (<[th := RThread]> (t_reg w)) w).
Proof.
  intros [[] ? ? ? ? ?] th. destruct (reg_inv_thread F _ _ k_reg0) as [HF Hr]. split; [done|]. constructor; try done.
  constructor; cbn; try done. intros Hc. by apply reg_exact_thread, k_exact0.
Qed.
Lemma unthread_inv F w th : F !! th = None -> t_inv (<[th := RThread]> F) w ->
  exists w', luaL_unref th w = Ret w' /\ t_inv F w' /\ w' = put_reg (delete th (t_reg w)) w.
Proof.
  intros Hth Hi. pose proof Hi as [[] ? ? ? ? ?]. destruct (reg_inv_unthread F _ _ _ Hth k_reg0) as [[v Hv] Hr].
  unfold luaL_unref. rewrite Hv. eexists. split; [reflexivity|]. split; [|done].
  constructor; try done. constructor; cbn; try done. intros Hc. by apply reg_exact_unthread, k_exact0.
Qed.

Lemma clear_disconnected_stays F w : t_inv F w -> c_cleaned_up (t_conn w) = false ->
  b_cb (t_bev w) = false -> returns (CLEAR_ONDISCONNECTED w) (stays F w).
Proof.
  intros Hi Hc Hb. destruct (clear_disconnected F w (i_core _ _ Hi)) as (w' & -> & Hcore & [] & _). destruct (i_open _ _ Hi Hc) as [Hm Hmt].
  cbn. split; [|split].
  - constructor; [done|..]; try congruence; [split; congruence| |].
    + intros Ha. rewrite u_cleaned0. apply (i_alive _ _ Hi). congruence.
    + intros Ha. rewrite u_cleaned0. apply (i_misuse _ _ Hi). congruence.
  - split; [|rewrite u_bev0; split; [by left|congruence]]. constructor; rewrite ?u_bev0; try congruence; by left.
  - split; [done|]. rewrite u_bev0. by split.
Qed.

Section Calls.
Context (Hbody : forall k args, script_ok (body k args)).

Lemma fan_call_spec F ok ref cb args before w : t_inv F w -> t_alive w = true ->
  (forall r, ref = Some r -> r ∈ refs (t_conn w)) ->
  (forall F' w', t_inv F' w' -> c_cleaned_up (t_conn w') = false -> t_bev w' = t_bev w -> returns (before w') (stays F' w')) ->
  returns (fan_call body ok ref cb args before w) (calls_made F (if fires ok ref w then [cb] else []) w).
Proof.
  intros Hi Ha Href Hbefore. assert (Hnone : calls_made F [] w w).
  { split; [done|]. split; [apply frame_preorder|]. by rewrite app_nil_r. }
  unfold fan_call, fires. destruct ref as [r|]; [|exact Hnone].
  destruct (c_mainthread (t_conn w)) eqn:Hm; [|exact Hnone]. destruct ok; [|exact Hnone]. cbn [negb orb andb luaL_ref].
  set (th := fresh (dom (t_reg w))). destruct (thread_inv F w Hi) as [Hth Hi1]. fold th in Hth, Hi1.
  destruct (k_reg _ _ (i_core _ _ Hi)) as (_ & _ & Hl). destruct (Hl r (Href r eq_refl)) as (_ & k & Hk).
  assert (Hne : th <> r). { intros E1. apply (is_fresh (dom (t_reg w))). fold th. rewrite E1. by apply elem_of_dom_2 in Hk. }
  set (w1 := put_reg (<[th := RThread]> (t_reg w)) w) in *. pose proof (frame_reg w (<[th := RThread]> (t_reg w)) : frame w w1) as Hf1.
  cbn [t_reg w1 put_reg]. rewrite lookup_insert_ne, Hk by done. fold w1.
  eapply returns_bind; [apply Hbefore; [exact Hi1| |done]|]. { cbn. by eapply open_of_mainthread. }
  intros w2 (Hi2 & Hf2 & Hc2 & Hin2 & Ha2).
  eapply returns_bind; [eapply script_keeps|]; [..|apply Hbody|].
  { destruct Hi2 as [[] ? ? ? ? ?]. constructor; try done. } { cbn. rewrite Ha2. exact Ha. }
  intros w3 (Hi3 & Hf3 & Hc3 & Hin3 & Ha3). destruct (unthread_inv F w3 th Hth Hi3) as (w4 & -> & Hi4 & ->).
  change (t_calls w1) with (t_calls w) in Hc2. change (t_bev w1) with (t_bev w) in Hin2. change (t_alive w1) with (t_alive w) in Ha2.
  cbn [t_calls t_bev t_alive called] in Hc3, Hin3, Ha3. cbn [mret outcome_ret returns]. split; [done|].
  split; [|cbn [t_calls t_bev t_alive put_reg]; rewrite Hc3, Hc2, Hin3, Hin2, Ha3, Ha2; done].
  etrans; [exact Hf1|]. etrans; [exact Hf2|].
  etrans; [apply (frame_called cb)|]. etrans; [exact Hf3|apply frame_reg].
Qed.
End Calls.

(** *** Reading the input *)

Section Reading.
Context (M : Z) (HM : mem_upto M) (HM2 : 2 ^ 32 <= M < 2 ^ 62).

Lemma remove_chunks_spec fuel : forall input ba l, writer ba l -> bytes_ok (evbuffer_bytes input) ->
  2 * (Zlen l + Zlen (evbuffer_bytes input)) + 128 <= M -> Zlen (evbuffer_bytes input) < Z.of_nat fuel ->
  exists input' ba', remove_chunks fuel input ba = Ret (input', ba') /\ evbuffer_bytes input' = [] /\
    writer ba' (l ++ evbuffer_bytes input).
Proof.
  induction fuel as [|fuel IH]; intros input ba l Hw Hok Hfit Hf; [pose proof (Zlen_nonneg (evbuffer_bytes input)); lia|].
  cbn [remove_chunks]. destruct (evbuffer_remove input BUFLEN) as [d i'] eqn:E1.
  pose proof (evbuffer_remove_data input BUFLEN ltac:(done)) as Hd. pose proof (evbuffer_remove_rest input BUFLEN ltac:(done)) as Hr.
  rewrite E1 in Hd, Hr. cbn [fst snd] in Hd, Hr. pose proof (Zlen_nonneg l).
  assert (Hsplit : d ++ evbuffer_bytes i' = evbuffer_bytes input) by (rewrite Hd, Hr; apply ztake_zdrop).
  assert (Hlen : Zlen (evbuffer_bytes input) = Zlen d + Zlen (evbuffer_bytes i')) by (by rewrite <- Hsplit, Zlen_app).
  pose proof (Zlen_nonneg d). pose proof (Zlen_nonneg (evbuffer_bytes i')).
  assert (Hd1 : Zlen d <= BUFLEN). { rewrite Hd. unfold ztake, Zlen, BUFLEN. rewrite length_take. lia. }
  unfold BUFLEN in Hd1. rewrite s32_small by lia. destruct (Z.leb_spec (Zlen d) 0) as [Hz|Hz].
  - assert (Hd0 : d = []) by (apply Zlen_zero; lia). assert (Hi : evbuffer_bytes i' = []).
    { rewrite Hr. rewrite Hd0 in Hd. destruct (evbuffer_bytes input); [done|]. by unfold ztake in Hd. }
    exists i', ba. split; [done|]. split; [done|]. rewrite <- Hsplit, Hd0, Hi, app_nil_r. done.
  - rewrite <- Hsplit in Hok. apply bytes_ok_app in Hok as [Hok1 Hok2]. unfold bytearray_writebuffer.
    destruct (write_append M ba l d HM Hw Hok1) as (ba1 & -> & Hw1); [lia..|]. cbn [mbind outcome_bind].
    destruct (IH i' ba1 (l ++ d) Hw1 Hok2) as (i2 & ba2 & -> & Hi2 & Hw2); [rewrite Zlen_app; lia|lia|].
    exists i2, ba2. split; [done|]. split; [done|]. by rewrite <- app_assoc, Hsplit in Hw2.
Qed.

Lemma tcpd_read_all_spec size input : bytes_ok (evbuffer_bytes input) -> 2 * Zlen (evbuffer_bytes input) + 128 <= M ->
  exists input', read_all size input = Ret (evbuffer_bytes input, input') /\ evbuffer_bytes input' = [].
Proof.
  intros Hok Hfit. unfold read_all. destruct (alloc_writer M (mk_ba 0 0 0 None 0 false false) size HM) as (b0 & -> & W0); [lia|].
  pose proof (Zlen_nonneg (evbuffer_bytes input)). rewrite evbuffer_length_spec.
  destruct (remove_chunks_spec (S (Z.to_nat (Zlen (evbuffer_bytes input)))) input b0 [] W0 Hok) as (i1 & b1 & -> & Hi1 & W1);
    [rewrite Zlen_nil; lia|lia|]. cbn [mbind outcome_bind]. cbn [app] in W1.
  destruct (writer_read_ready _ _ W1) as (b2 & -> & _ & _ & -> & ->). exists i1. done.
Qed.
End Reading.

(** *** The buffer taken away by a disconnection *)

(** Callbacks installed: the connection is whole. *)
Lemma cb_open F w : t_inv F w -> b_cb (t_bev w) = true ->
  c_buf (t_conn w) = true /\ c_cleaned_up (t_conn w) = false /\ t_alive w = true.
Proof.
  intros Hi Hb. assert (Hbuf : c_buf (t_conn w) = true) by (rewrite (k_buf _ _ (i_core _ _ Hi)); by apply (k_cb _ _ (i_core _ _ Hi))).
  assert (Hc : c_cleaned_up (t_conn w) = false).
  { destruct (c_cleaned_up (t_conn w)) eqn:Hc; [|done]. destruct (i_shut _ _ Hi Hc). congruence. }
  split; [done|]. split; [done|]. destruct (t_alive w) eqn:Ha; [done|]. apply (i_alive _ _ Hi) in Ha. congruence.
Qed.

Lemma taken_inv F w : t_inv F w -> t_inv F (taken w) /\ life w (taken w) /\ b_cb (t_bev (taken w)) = false.
Proof.
  intros Hi. pose proof Hi as [[] ? ? ? ? ?]. unfold taken. destruct (c_buf (t_conn w)) eqn:Hb.
  - split; [|split; [|done]].
    + constructor; cbn; try done.
      intros Hc. destruct (i_shut0 Hc). congruence.
    + constructor; cbn; try done; by left.
  - assert (Hcb : b_cb (t_bev w) = false). { destruct (b_cb (t_bev w)); [|done]. rewrite <- k_buf0 in k_cb0. by specialize (k_cb0 eq_refl). }
    split; [|split; [|done]].
    + constructor; cbn; try done.
    + constructor; cbn; try done; by left.
Qed.

(** The mutex is used after its end just when the connection was cleaned up. *)
Lemma take_spec F w : t_inv F w -> exists w', take_buf w = Ret w' /\ t_inv F w' /\ life w w' /\ quiet w w' /\
  b_cb (t_bev w') = false /\ four (t_conn w') = four (t_conn w) /\ c_cleaned_up (t_conn w') = c_cleaned_up (t_conn w) /\
  t_misuse w' = t_misuse w || c_cleaned_up (t_conn w).
Proof.
  intros Hi. destruct (lock_stays F w Hi) as (Hi1 & (Hl1 & _) & Hq1). set (w1 := pthread_mutex_lock w) in *.
  assert (Hm : t_misuse w1 = t_misuse w || c_cleaned_up (t_conn w)).
  { unfold w1, pthread_mutex_lock. destruct (c_cleaned_up (t_conn w)) eqn:Hc.
    - destruct (i_shut _ _ Hi Hc) as (_ & _ & _ & ->). cbn. by rewrite orb_true_r.
    - destruct (i_open _ _ Hi Hc) as [-> _]. by rewrite orb_false_r. }
  assert (Hc1 : t_conn w1 = t_conn w) by (unfold w1, pthread_mutex_lock; by destruct (c_buf_mutex (t_conn w))).
  destruct (taken_inv F w1 Hi1) as (Hi2 & Hl2 & Hb). exists (taken w1).
  destruct (taken_same w1) as (_ & _ & E3 & _ & _ & _ & _ & E8 & _ & _ & Hq2 & _).
  assert (Hf : four (t_conn (taken w1)) = four (t_conn w1)) by (unfold taken; by destruct (c_buf (t_conn w1))).
  split.
  { unfold take_buf. fold w1. unfold taken. destruct (c_buf (t_conn w1)) eqn:Eb; [|done]. unfold tcpd_shutdown_bufferevent, at_bev.
    cbn. by rewrite <- (k_buf _ _ (i_core _ _ Hi1)), Eb. }
  split; [done|]. split; [by etrans|]. split; [by etrans|]. split; [done|]. split; [congruence|]. split; congruence.
Qed.

(** ** Steps *)

Inductive tcpd_op : Type :=
  | OpScript (s : tscript T)
  | OpArrive (data : list Z)
  | OpRead (ok : bool)
  | OpWritten (n : Z) (ok : bool)
  | OpEvent (ev : events) (c : causes) (ok1 ok2 : bool)
  | OpCollect.

(** libevent reads while reading is enabled and memory lasts, and passes output
    on from its front; its callbacks are deferred, so that more may arrive before
    [OpRead] calls. *)
Definition arrive (data : list Z) w : tconn E :=
  if b_read (t_bev w) then
    match evbuffer_add (b_input (t_bev w)) data with
    | Some i => put_received (t_received w ++ data) (put_input i w)
    | None => w
    end
  else w.
Definition drain (n : Z) w : tconn E :=
  let o := b_output (t_bev w) in
  put_written (t_written w ++ ztake n (evbuffer_bytes o)) (put_bev (set_io (b_input (t_bev w)) (evbuffer_drain o n) (t_bev w)) w).

(** A bufferevent without callbacks, or freed, calls nobody. *)
Definition tcpd_exec (o : tcpd_op) w : outcome (tconn E) :=
  match o with
  | OpScript s => run_script s w
  | OpArrive data => if b_live (t_bev w) then Ret (arrive data w) else Ret w
  | OpRead ok => if b_cb (t_bev w) then tcpd_common_readcb self body ok w else Ret w
  | OpWritten n ok => if b_cb (t_bev w) then tcpd_common_writecb self body ok (drain n w) else Ret w
  | OpEvent ev c ok1 ok2 => if b_cb (t_bev w) then tcpd_common_eventcb self body ev c ok1 ok2 w else Ret w
  | OpCollect => tcpd_conn_gc w
  end.

Section Steps.
Context (M : Z) (HM : mem_upto M) (HM2 : 2 ^ 32 <= M < 2 ^ 62) (Hbody : forall k args, script_ok (body k args)).

(** Scripts call methods of an object that exists, which is collected once; what
    has been received fits in memory; libevent does not report the end of the
    stream and an error at once; [mem]: memory lasts for the calls. *)
Definition tcpd_enabled (mem : bool) (o : tcpd_op) w : Prop :=
  match o with
  | OpScript s => t_alive w = true /\ script_ok s
  | OpArrive data => bytes_ok data /\ 2 * (Zlen (t_received w) + Zlen data) + 128 <= M
  | OpRead ok => mem = true -> ok = true
  | OpWritten n ok => 0 <= n /\ (mem = true -> ok = true)
  | OpEvent ev c ok1 ok2 => ev_eof ev && ev_error ev = false /\ (mem = true -> ok1 = true /\ ok2 = true)
  | OpCollect => t_alive w = true
  end.

Definition payload (c : callback) : list Z := match c with CbRead data => data | _ => [] end.
Definition delivered w : list Z := concat (map payload (t_calls w)).

(** What the script has been told. *)
Record t_hist (mem : bool) w : Prop := {
  h_bytes : bytes_ok (evbuffer_bytes (b_input (t_bev w)));
  h_len : Zlen (evbuffer_bytes (b_input (t_bev w))) <= Zlen (t_received w);
  h_fits : 2 * Zlen (t_received w) + 128 <= M;
  h_delivered : mem = true -> delivered w ++ evbuffer_bytes (b_input (t_bev w)) = t_received w;
  h_last : forall l m l', t_calls w = l ++ CbDisconnected m :: l' -> l' = [] /\ b_cb (t_bev w) = false
}.

Lemma delivered_app w w' l : t_calls w' = t_calls w ++ l -> delivered w' = delivered w ++ concat (map payload l).
Proof. intros E1. unfold delivered. by rewrite E1, map_app, concat_app. Qed.

(** One more callback: what it delivers has left the input, and nothing but the
    disconnection ends the callbacks. *)
Lemma hist_step mem w w' l : t_hist mem w -> b_cb (t_bev w) = true \/ l = [] -> t_calls w' = t_calls w ++ l -> t_received w' = t_received w ->
  (b_cb (t_bev w') = true -> b_cb (t_bev w) = true) ->
  Zlen (evbuffer_bytes (b_input (t_bev w'))) <= Zlen (t_received w') -> bytes_ok (evbuffer_bytes (b_input (t_bev w'))) ->
  (mem = true -> concat (map payload l) ++ evbuffer_bytes (b_input (t_bev w')) = evbuffer_bytes (b_input (t_bev w))) ->
  (forall k m k', l = k ++ CbDisconnected m :: k' -> k' = [] /\ b_cb (t_bev w') = false) -> t_hist mem w'.
Proof.
  intros [B L Fi D La] Hcb Hc Hr Hb Hl Hok Hd Hlast. constructor; [done|congruence|congruence| |].
  - intros Hm. rewrite (delivered_app w w' l Hc), <- app_assoc, (Hd Hm), (D Hm). done.
  - intros k m k' E1. rewrite Hc in E1. apply app_eq_inv in E1 as [(k2 & E1 & E2)|(k2 & E1 & E2)].
    + destruct k2 as [|x k2]; cbn in E2.
      * apply (Hlast [] m k'). done.
      * injection E2 as <- E2. destruct (La k m k2 E1) as [-> Hf]. destruct Hcb as [Hcb|Hcb]; [congruence|]. subst l. cbn in E2.
        split; [done|]. destruct (b_cb (t_bev w')); [|done]. by rewrite Hb in Hf.
    + by apply (Hlast k2 m k').
Qed.

(** *** Each callback *)

(** The result of a callback that made the calls [l] and left [input]. *)
Definition told F (l : list callback) (input : list Z) w w' : Prop :=
  t_inv F w' /\ frame w w' /\ t_calls w' = t_calls w ++ l /\ evbuffer_bytes (b_input (t_bev w')) = input /\ t_alive w' = t_alive w.

Lemma told_nothing F w : t_inv F w -> told F [] (evbuffer_bytes (b_input (t_bev w))) w w.
Proof. intros Hi. split; [done|]. split; [apply frame_preorder|]. by rewrite app_nil_r. Qed.
Lemma stays_told F l i w w1 w2 : stays F w w1 -> told F l i w1 w2 -> told F l i w w2.
Proof.
  intros (_ & Hf & Hc & _ & Ha) (Hi2 & Hf2 & Hc2 & Hin2 & Ha2). split; [done|]. split; [by etrans|]. split; [by rewrite Hc2, Hc|].
  split; [done|congruence].
Qed.
Lemma returns_told F l i w w1 (r : outcome (tconn E)) : stays F w w1 -> returns r (told F l i w1) -> returns r (told F l i w).
Proof. intros Hs Hr. eapply returns_mono; [exact Hr|]. intros w2. by apply stays_told. Qed.

Lemma put_input_inv F w i : t_inv F w -> t_inv F (put_input i w) /\ frame w (put_input i w).
Proof.
  intros [[] ? ? ? ? ?]. split; [|frame_tac]. constructor; try done.
Qed.
Lemma refs_read c r : onReadRef c = Some r -> r ∈ refs c.
Proof. intros E1. unfold refs. rewrite E1. cbn. by left. Qed.
Lemma refs_sendready c r : onSendReadyRef c = Some r -> r ∈ refs c.
Proof. intros E1. unfold refs. rewrite E1, !elem_of_app. right. left. cbn. by left. Qed.
Lemma refs_disconnected c r : onDisconnectedRef c = Some r -> r ∈ refs c.
Proof. intros E1. unfold refs. rewrite E1, !elem_of_app. right. right. left. cbn. by left. Qed.
Lemma refs_connected c r : onConnectedRef c = Some r -> r ∈ refs c.
Proof. intros E1. unfold refs. rewrite E1, !elem_of_app. right. right. right. cbn. by left. Qed.

Definition input_fits w : Prop :=
  bytes_ok (evbuffer_bytes (b_input (t_bev w))) /\ 2 * Zlen (evbuffer_bytes (b_input (t_bev w))) + 128 <= M.

Lemma deliver_spec F ok size w : t_inv F w -> t_alive w = true -> input_fits w ->
  returns (deliver self body ok size w)
    (told F (if fires ok (onReadRef (t_conn w)) w then [CbRead (evbuffer_bytes (b_input (t_bev w)))] else []) [] w).
Proof.
  intros Hi Ha [Hok Hfit]. unfold deliver. destruct (tcpd_read_all_spec M HM HM2 size _ Hok Hfit) as (i & -> & Hin). cbn [mbind outcome_bind].
  destruct (put_input_inv F w i Hi) as [Hi1 Hf1].
  eapply returns_mono; [apply (fan_call_spec Hbody F ok); [exact Hi1|exact Ha|apply refs_read|exact (fun F' w' Hi' _ _ => stays_refl F' w' Hi')]|].
  intros w' (Hi2 & Hf2 & Hc2 & Hin2 & Ha2). split; [done|]. split; [by etrans|]. split; [exact Hc2|]. split; [|exact Ha2].
  rewrite Hin2. exact Hin.
Qed.

Lemma readcb_spec F ok w : t_inv F w -> b_cb (t_bev w) = true -> input_fits w ->
  returns (tcpd_common_readcb self body ok w)
    (told F (if fires ok (onReadRef (t_conn w)) w then [CbRead (evbuffer_bytes (b_input (t_bev w)))] else [])
       (match onReadRef (t_conn w) with Some _ => [] | None => evbuffer_bytes (b_input (t_bev w)) end) w).
Proof.
  intros Hi Hb Hfit. destruct (cb_open F w Hi Hb) as (Hbuf & Hc & Ha). unfold tcpd_common_readcb, at_conn. rewrite Ha.
  rewrite (lock_id F), Hbuf by done. cbn [negb]. destruct (onReadRef (t_conn w)) as [r|] eqn:Er; [|by apply told_nothing].
  rewrite (at_bev_open F) by done. rewrite <- Er. by apply deliver_spec.
Qed.

Lemma writecb_spec F ok w : t_inv F w -> b_cb (t_bev w) = true ->
  returns (tcpd_common_writecb self body ok w)
    (told F (if (evbuffer_get_length (b_output (t_bev w)) =? 0) && fires ok (onSendReadyRef (t_conn w)) w then [CbSendReady] else [])
       (evbuffer_bytes (b_input (t_bev w))) w).
Proof.
  intros Hi Hb. destruct (cb_open F w Hi Hb) as (Hbuf & Hc & Ha). unfold tcpd_common_writecb, at_conn. rewrite Ha.
  rewrite (lock_id F), Hbuf by done. cbn [negb]. destruct (onSendReadyRef (t_conn w)) as [r|] eqn:Er.
  - rewrite (at_bev_open F) by done. destruct (evbuffer_get_length _ =? 0); cbn [andb]; [|by apply told_nothing].
    rewrite <- Er. eapply returns_mono; [apply (fan_call_spec Hbody F ok); [done|done|apply refs_sendready|exact (fun F' w' Hi' _ _ => stays_refl F' w' Hi')]|].
    intros w' (Hi2 & Hf2 & Hc2 & Hin2 & Ha2). by split.
  - rewrite andb_false_r. by apply told_nothing.
Qed.

Lemma connected_spec F ok w : t_inv F w -> b_cb (t_bev w) = true ->
  returns (connected_event self body ok w)
    (told F (if fires ok (onConnectedRef (t_conn w)) w then [CbConnected] else []) (evbuffer_bytes (b_input (t_bev w))) w).
Proof.
  intros Hi Hb. destruct (cb_open F w Hi Hb) as (Hbuf & Hc & Ha). unfold connected_event.
  set (w1 := on_conn (set_state TCPD_CONN_CONNECTED) w).
  assert (Hs : stays F w w1). { split; [destruct Hi as [[] ? ? ? ? ?]; constructor; try done; by constructor|]. split; [frame_tac|done]. }
  eapply returns_mono; [apply (fan_call_spec Hbody F ok); [apply Hs|done|apply refs_connected|exact (fun F' w' Hi' _ _ => stays_refl F' w' Hi')]|].
  intros w' (Hi2 & Hf2 & Hc2 & Hin2 & Ha2). eapply stays_told; [exact Hs|]. by split.
Qed.

(** *** Disconnection *)

(** Something is read at the end of the stream. *)
Definition eof_reads (ev : events) w : bool :=
  match onReadRef (t_conn w) with Some _ => ev_eof ev && negb (bool_decide (evbuffer_bytes (b_input (t_bev w)) = [])) | None => false end.
Definition eof_calls (ev : events) (ok : bool) w : list callback :=
  if eof_reads ev w && ok then [CbRead (evbuffer_bytes (b_input (t_bev w)))] else [].
Definition eof_input (ev : events) w : list Z := if eof_reads ev w then [] else evbuffer_bytes (b_input (t_bev w)).

Lemma flush_nothing F ev ok w : t_inv F w -> eof_reads ev w = false -> flush_eof self body ev ok w = Ret w.
Proof.
  intros Hi He. unfold flush_eof, eof_reads in *. destruct (onReadRef (t_conn w)); [|done]. destruct (ev_eof ev); [|done].
  destruct (c_buf (t_conn w)) eqn:Hb; [|done]. cbn [andb] in *. rewrite (at_bev_open F), evbuffer_length_spec by done.
  apply negb_false_iff, bool_decide_eq_true in He. by rewrite He.
Qed.
Lemma flush_spec F ev ok w : t_inv F w -> b_cb (t_bev w) = true -> input_fits w ->
  returns (flush_eof self body ev ok w) (told F (eof_calls ev ok w) (eof_input ev w) w).
Proof.
  intros Hi Hb Hfit. destruct (cb_open F w Hi Hb) as (Hbuf & Hc & Ha). unfold eof_calls, eof_input. destruct (eof_reads ev w) eqn:He.
  2:{ rewrite (flush_nothing F) by done. by apply told_nothing. }
  unfold flush_eof, eof_reads in *. destruct (onReadRef (t_conn w)) as [r|] eqn:Er; [|done]. apply andb_true_iff in He as [-> He].
  rewrite Hbuf. cbn [andb]. rewrite (at_bev_open F), evbuffer_length_spec by done.
  apply negb_true_iff, bool_decide_eq_false in He. assert (0 < Zlen (evbuffer_bytes (b_input (t_bev w)))).
  { pose proof (Zlen_nonneg (evbuffer_bytes (b_input (t_bev w)))). assert (Zlen (evbuffer_bytes (b_input (t_bev w))) <> 0) by (by rewrite Zlen_zero). lia. }
  destruct (Z.ltb_spec 0 (Zlen (evbuffer_bytes (b_input (t_bev w))))); [|lia].
  eapply returns_mono; [by apply (deliver_spec F)|]. intros w'. rewrite Er. cbn [fires].
  by destruct (i_open _ _ Hi Hc) as [_ ->].
Qed.

(** The error reported, when the bufferevent is there to be asked. *)
Lemma analyze_defined ev c w : ev_error ev = true -> b_live (t_bev w) = true \/ ev_timeout ev = true ->
  exists error, tcpd_analyze_event_error ev c w = Ret error.
Proof.
  intros He Hl. unfold tcpd_analyze_event_error, at_bev. rewrite He. destruct (ev_timeout ev); [by eexists|]. destruct Hl as [->|?]; [|done].
  repeat case_match; by eexists.
Qed.
Lemma analyze_same ev c w w' : ev_error ev = false \/ t_bev w' = t_bev w -> tcpd_analyze_event_error ev c w' = tcpd_analyze_event_error ev c w.
Proof. intros [He|He]; unfold tcpd_analyze_event_error, at_bev; by rewrite He. Qed.
Lemma analyze_total F ev c w : t_inv F w -> b_cb (t_bev w) = true -> exists error, tcpd_analyze_event_error ev c w = Ret error.
Proof.
  intros Hi Hb. destruct (ev_error ev) eqn:He; [apply analyze_defined; [done|left; by apply (i_core _ _ Hi)]|].
  unfold tcpd_analyze_event_error. rewrite He. repeat case_match; by eexists.
Qed.

Lemma set_state_inv F s w : t_inv F w -> t_inv F (on_conn (set_state s) w) /\ frame w (on_conn (set_state s) w).
Proof. intros [[] ? ? ? ? ?]. split; [constructor; try done|frame_tac]. Qed.

Lemma no_cb_closed F w : t_inv F w -> c_buf (t_conn w) = false -> b_cb (t_bev w) = false.
Proof.
  intros Hi Hb. destruct (b_cb (t_bev w)) eqn:E1; [|done]. apply (k_cb _ _ (i_core _ _ Hi)) in E1.
  rewrite <- (k_buf _ _ (i_core _ _ Hi)) in E1. congruence.
Qed.

Definition disc_msg (error : tcpd_error_t) : list Z := cstr (tcpd_error_to_string error).
(** [w]: what is left when the input has been flushed. *)
Definition disc_calls (ok : bool) (error : tcpd_error_t) w : list callback :=
  if fires ok (onDisconnectedRef (t_conn w)) w then [CbDisconnected (disc_msg error)] else [].

Lemma disconnected_spec F ok error w : t_inv F w -> t_alive w = true -> b_cb (t_bev w) = false ->
  returns (w' ← call_disconnected self body ok error w; at_conn w' (tcpd_connection_cleanup_on_disconnect w'))
    (fun w' => t_inv F w' /\ life w w' /\ t_calls w' = t_calls w ++ disc_calls ok error w /\
       evbuffer_bytes (b_input (t_bev w')) = evbuffer_bytes (b_input (t_bev w)) /\ t_alive w' = true /\ c_cleaned_up (t_conn w') = true).
Proof.
  intros Hi Ha Hb. eapply returns_bind.
  - apply (fan_call_spec Hbody F ok); [exact Hi|exact Ha|apply refs_disconnected|].
    intros F' w' Hi' Hc' Hbev. apply clear_disconnected_stays; [done|done|by rewrite Hbev].
  - fold (disc_msg error). fold (disc_calls ok error w). intros w1 (Hi1 & [Hl1 _] & Hc1 & Hin1 & Ha1). unfold at_conn. rewrite Ha1, Ha.
    destruct (cleanup_stays F w1 Hi1) as (w2 & -> & (Hi2 & [Hl2 _] & Hq2 & Hin2 & Ha2) & Hcl); [congruence|]. cbn.
    split; [done|]. split; [by etrans|]. split; [congruence|]. split; [congruence|]. split; [congruence|done].
Qed.

(** What a disconnection makes of a connection: the rest of the input is
    delivered, [ondisconnected] is called if it is still there, and all is
    released.  A client's [ondisconnected] is missed only if the script has closed
    the connection while the rest was delivered, and then the destroyed mutex is
    used. *)
Definition disconnected F ev (error : tcpd_error_t) (ok1 ok2 : bool) w w' : Prop :=
  t_inv F w' /\ life w w' /\ t_alive w' = true /\ c_cleaned_up (t_conn w') = true /\
  evbuffer_bytes (b_input (t_bev w')) = eof_input ev w /\
  exists disc, t_calls w' = t_calls w ++ eof_calls ev ok1 w ++ disc /\
    (disc = [] \/ disc = [CbDisconnected (disc_msg error)]) /\
    (eof_reads ev w = false -> disc = disc_calls ok2 error w) /\
    (c_type (t_conn w) = TCPD_CONN_TYPE_CLIENT -> disc = disc_calls ok2 error w \/ t_misuse w' = true).

Lemma disc_calls_same ok error w w' : onDisconnectedRef (t_conn w') = onDisconnectedRef (t_conn w) ->
  c_mainthread (t_conn w') = c_mainthread (t_conn w) -> disc_calls ok error w' = disc_calls ok error w.
Proof. intros E1 E2. unfold disc_calls, fires. by rewrite E1, E2. Qed.

Lemma disconnect_event_spec F ev c ok1 ok2 w : t_inv F w -> b_cb (t_bev w) = true -> input_fits w -> ev_eof ev && ev_error ev = false ->
  exists error, tcpd_analyze_event_error ev c w = Ret error /\
    returns (disconnect_event self body ev c ok1 ok2 w) (disconnected F ev error ok1 ok2 w).
Proof.
  intros Hi Hb Hfit Hev. destruct (analyze_total F ev c w Hi Hb) as [error Herr]. exists error. split; [done|].
  destruct (cb_open F w Hi Hb) as (Hbuf & Hcl & Ha). destruct (i_open _ _ Hi Hcl) as [_ Hmt]. unfold disconnect_event.
  assert (Hflush : returns (flush_eof self body ev ok1 w) (fun w1 => told F (eof_calls ev ok1 w) (eof_input ev w) w w1 /\ (eof_reads ev w = false -> w1 = w))).
  { destruct (eof_reads ev w) eqn:He.
    - eapply returns_mono; [by apply (flush_spec F)|]. intros w1 Hw1. by split.
    - pose proof (flush_spec F ev ok1 w Hi Hb Hfit) as Hs. rewrite (flush_nothing F) in * by done. by split. }
  eapply returns_bind; [exact Hflush|]. clear Hflush. intros w1 [(Hi1 & (Hl1 & Hk1 & Hh1) & Hc1 & Hin1 & Ha1) Hsame].
  unfold at_conn at 1. rewrite Ha1, Ha.
  set (w2 := on_conn (set_state (if ev_error ev then TCPD_CONN_ERROR else TCPD_CONN_DISCONNECTED)) w1).
  destruct (set_state_inv F (if ev_error ev then TCPD_CONN_ERROR else TCPD_CONN_DISCONNECTED) w1 Hi1) as [Hi2 [Hl2 _]]. fold w2 in Hi2, Hl2.
  rewrite (analyze_same ev c w w2).
  2:{ destruct (ev_error ev); [right|by left]. destruct (ev_eof ev) eqn:He; [done|]. cbn. rewrite Hsame; [done|].
      unfold eof_reads. rewrite He. by destruct (onReadRef (t_conn w)). }
  rewrite Herr. cbn [mbind outcome_bind]. destruct (take_spec F w2 Hi2) as (w3 & -> & Hi3 & Hl3 & (Hq3 & Hin3 & Ha3) & Hb3 & Hf3 & Hcl3 & Hm3).
  change (t_calls w2) with (t_calls w1) in Hq3. change (t_bev w2) with (t_bev w1) in Hin3. change (t_alive w2) with (t_alive w1) in Ha3.
  change (t_misuse w2) with (t_misuse w1) in Hm3. change (c_cleaned_up (t_conn w2)) with (c_cleaned_up (t_conn w1)) in Hm3, Hcl3.
  injection Hf3 as _ _ Hd3 _. change (onDisconnectedRef (t_conn w2)) with (onDisconnectedRef (t_conn w1)) in Hd3.
  cbn [mbind outcome_bind]. eapply returns_mono; [apply (disconnected_spec F ok2 error w3); [done|congruence|done]|].
  intros w4 (Hi4 & Hl4 & Hc4 & Hin4 & Ha4 & Hcl4). split; [done|].
  assert (Hl : life w w4) by (etrans; [exact Hl1|]; etrans; [exact Hl2|]; by etrans).
  split; [done|]. split; [done|]. split; [done|]. split; [congruence|].
  exists (disc_calls ok2 error w3). split; [by rewrite Hc4, Hq3, Hc1, <- app_assoc|].
  split; [unfold disc_calls; case_match; [by right|by left]|].
  assert (Hopen : c_cleaned_up (t_conn w1) = false -> onDisconnectedRef (t_conn w1) = onDisconnectedRef (t_conn w) ->
    disc_calls ok2 error w3 = disc_calls ok2 error w).
  { intros Hc Hd. apply disc_calls_same; [congruence|]. destruct (i_open _ _ Hi3) as [_ ->]; [congruence|done]. }
  split.
  - intros He. specialize (Hsame He). subst w1. by apply Hopen.
  - intros Ht. destruct (c_cleaned_up (t_conn w1)) eqn:Hc.
    + right. destruct Hl4. apply f_misuse0. rewrite Hm3. apply orb_true_r.
    + left. apply Hopen; [done|]. destruct (Hk1 Hb) as [Hb1|?]; [|congruence]. by apply Hh1.
Qed.

(** *** Every step *)

Definition good (mem : bool) F w : Prop := t_inv F w /\ t_hist mem w.

Lemma hist_fits mem w : t_hist mem w -> input_fits w.
Proof. intros [B L Fi _ _]. split; [done|lia]. Qed.

Lemma arrive_good mem F data w : good mem F w -> bytes_ok data -> 2 * (Zlen (t_received w) + Zlen data) + 128 <= M ->
  good mem F (arrive data w).
Proof.
  intros [Hi [B L Fi D La]] Hok Hf. unfold arrive. destruct (b_read (t_bev w)); [|by split].
  destruct (evbuffer_add _ _) as [i|] eqn:Ei; [|by split]. apply evbuffer_add_spec in Ei. split.
  - destruct (put_input_inv F w i Hi) as [[] _]. destruct i_core0. constructor; try done; constructor; done.
  - constructor; cbn; rewrite ?Ei, ?Zlen_app; try lia; [by apply bytes_ok_app| |done]. intros Hm. rewrite app_assoc. f_equal. by apply D.
Qed.
Lemma drain_good mem F n w : good mem F w -> 0 <= n -> good mem F (drain n w).
Proof.
  intros [[[] ? ? ? ? ?] [B L Fi D La]] Hn. split; [|by constructor]. constructor; try done. constructor; try done.
  cbn. by rewrite evbuffer_drain_spec, <- app_assoc, ztake_zdrop.
Qed.

(** The steps that end no more than a callback. *)
Lemma told_good mem F l i w w' : good mem F w -> b_cb (t_bev w) = true \/ l = [] -> told F l i w w' ->
  Zlen i <= Zlen (evbuffer_bytes (b_input (t_bev w))) -> bytes_ok i ->
  (mem = true -> concat (map payload l) ++ i = evbuffer_bytes (b_input (t_bev w))) ->
  Forall (fun c => match c with CbDisconnected _ => False | _ => True end) l -> good mem F w'.
Proof.
  intros [Hi Hh] Hb (Hi' & [Hl _] & Hc & Hin & Ha) Hlen Hok Hd Hn. split; [done|]. pose proof (f_received _ _ Hl) as Hr. pose proof (h_len _ _ Hh).
  eapply (hist_step mem w w' l); [done|done|done|done|apply Hl|rewrite Hin, Hr; lia|by rewrite Hin|by rewrite Hin|].
  intros k m k' ->. apply Forall_app in Hn as [_ Hn]. by apply Forall_cons in Hn as [? _].
Qed.

Lemma script_good mem F s w : good mem F w -> t_alive w = true -> script_ok s -> returns (run_script s w) (good mem F).
Proof.
  intros [Hi Hh] Ha Hs. eapply returns_mono; [by apply script_keeps|]. intros w' (Hi' & Hf & Hc & Hin & Ha').
  eapply (told_good mem F [] (evbuffer_bytes (b_input (t_bev w))) w w'); [by split|by right| |lia|apply Hh|done|by apply Forall_nil].
  split; [done|]. split; [done|]. by rewrite app_nil_r.
Qed.
Lemma fires_mem F (mem ok : bool) r w : t_inv F w -> b_cb (t_bev w) = true -> (mem = true -> ok = true) -> mem = true -> fires ok (Some r) w = true.
Proof.
  intros Hi Hb Hok Hm. destruct (cb_open F w Hi Hb) as (_ & Hc & _). destruct (i_open _ _ Hi Hc) as [_ Hmt].
  cbn. rewrite Hmt. by apply Hok.
Qed.
Lemma readcb_good mem F ok w : good mem F w -> b_cb (t_bev w) = true -> (mem = true -> ok = true) ->
  returns (tcpd_common_readcb self body ok w) (good mem F).
Proof.
  intros Hg Hb Hok. pose proof Hg as [Hi Hh]. eapply returns_mono; [apply (readcb_spec F); [done|done|by eapply hist_fits]|].
  intros w' Ht. pose proof (Zlen_nonneg (evbuffer_bytes (b_input (t_bev w)))).
  eapply told_good; [exact Hg|by left|exact Ht|clear Ht..].
  - case_match; [by rewrite Zlen_nil|done].
  - case_match; [by constructor|apply Hh].
  - intros Hm. destruct (onReadRef (t_conn w)) as [r|] eqn:Er; [|done]. rewrite (fires_mem F mem) by done. cbn. by rewrite !app_nil_r.
  - case_match; [by apply Forall_singleton|by apply Forall_nil].
Qed.
Lemma writecb_good mem F ok w : good mem F w -> b_cb (t_bev w) = true -> returns (tcpd_common_writecb self body ok w) (good mem F).
Proof.
  intros Hg Hb. pose proof Hg as [Hi Hh]. eapply returns_mono; [by apply (writecb_spec F)|].
  intros w' Ht. eapply told_good; [exact Hg|by left|exact Ht|done|apply Hh|clear Ht; by case_match|clear Ht; case_match; [by apply Forall_singleton|by apply Forall_nil]].
Qed.
Lemma connected_good mem F ok w : good mem F w -> b_cb (t_bev w) = true -> returns (connected_event self body ok w) (good mem F).
Proof.
  intros Hg Hb. pose proof Hg as [Hi Hh]. eapply returns_mono; [by apply (connected_spec F)|].
  intros w' Ht. eapply told_good; [exact Hg|by left|exact Ht|done|apply Hh|clear Ht; by case_match|clear Ht; case_match; [by apply Forall_singleton|by apply Forall_nil]].
Qed.

Lemma no_cb_cleaned F w : t_inv F w -> c_cleaned_up (t_conn w) = true -> b_cb (t_bev w) = false.
Proof. intros Hi Hc. apply (no_cb_closed F); [done|]. by apply (i_shut _ _ Hi). Qed.

Lemma eof_calls_payload (mem ok : bool) ev w : (mem = true -> ok = true) -> mem = true ->
  concat (map payload (eof_calls ev ok w)) ++ eof_input ev w = evbuffer_bytes (b_input (t_bev w)).
Proof.
  intros Hok Hm. unfold eof_calls, eof_input. rewrite (Hok Hm). destruct (eof_reads ev w); [|done]. cbn. by rewrite !app_nil_r.
Qed.
Lemma eof_input_fits mem ev w : t_hist mem w -> bytes_ok (eof_input ev w) /\ Zlen (eof_input ev w) <= Zlen (evbuffer_bytes (b_input (t_bev w))).
Proof.
  intros Hh. unfold eof_input. destruct (eof_reads ev w); [|split; [apply Hh|done]].
  split; [by constructor|]. rewrite Zlen_nil. apply Zlen_nonneg.
Qed.

Lemma disconnected_good mem F ev error ok1 ok2 w w' : good mem F w -> b_cb (t_bev w) = true -> (mem = true -> ok1 = true) ->
  disconnected F ev error ok1 ok2 w w' -> good mem F w'.
Proof.
  intros [Hi Hh] Hb Hok (Hi' & Hl & Ha & Hcl & Hin & disc & Hc & Hd & _). split; [done|].
  destruct (eof_input_fits mem ev w Hh) as [Hbytes Hlen]. pose proof (f_received _ _ Hl) as Hr. pose proof (h_len _ _ Hh).
  assert (Hpay : concat (map payload (eof_calls ev ok1 w ++ disc)) = concat (map payload (eof_calls ev ok1 w))).
  { rewrite map_app, concat_app. destruct Hd as [-> | ->]; cbn; by rewrite app_nil_r. }
  eapply (hist_step mem w w' (eof_calls ev ok1 w ++ disc)); [done|by left|done|done|apply Hl|rewrite Hin, Hr; lia|by rewrite Hin| |].
  - intros Hm. rewrite Hpay, Hin. by apply (eof_calls_payload mem).
  - intros k m k' E1. split; [|by apply (no_cb_cleaned F)].
    assert (Hno : forall m', CbDisconnected m' ∉ eof_calls ev ok1 w).
    { intros m'. unfold eof_calls. case_match; [|apply not_elem_of_nil]. rewrite list_elem_of_singleton. done. }
    apply app_eq_inv in E1 as [(k2 & E1 & E2)|(k2 & E1 & E2)].
    + destruct k2 as [|x k2]; cbn in E2; [destruct Hd as [-> | ->]; [done|by injection E2]|].
      injection E2 as <- _. exfalso. apply (Hno m). rewrite E1. apply elem_of_app. right. by left.
    + apply (f_equal length) in E2. rewrite length_app in E2. apply nil_length_inv. destruct Hd as [-> | ->]; cbn in E2; lia.
Qed.

Lemma event_good mem F ev c ok1 ok2 w : good mem F w -> b_cb (t_bev w) = true -> tcpd_enabled mem (OpEvent ev c ok1 ok2) w ->
  returns (tcpd_common_eventcb self body ev c ok1 ok2 w) (good mem F).
Proof.
  intros Hg Hb [Hev Hok]. pose proof Hg as [Hi Hh]. destruct (cb_open F w Hi Hb) as (_ & _ & Ha).
  unfold tcpd_common_eventcb, at_conn. rewrite Ha. case_match; [by apply connected_good|]. case_match; [|exact Hg].
  destruct (disconnect_event_spec F ev c ok1 ok2 w Hi Hb) as (error & _ & Hs); [by eapply hist_fits|done|].
  eapply returns_mono; [exact Hs|]. intros w' Hd. eapply disconnected_good; [done|done| |exact Hd]. intros Hm. by apply Hok.
Qed.

Lemma collect_good mem F w : good mem F w -> t_alive w = true -> returns (tcpd_conn_gc w) (fun w' => good mem F w' /\ t_alive w' = false).
Proof.
  intros [Hi Hh] Ha. rewrite gc_cleanup. destruct (cleanup_stays F w Hi Ha) as (w' & -> & (Hi' & Hf & Hc & Hin & Ha') & Hcl).
  cbn. split; [|done]. assert (Hg : good mem F w').
  { eapply (told_good mem F [] (evbuffer_bytes (b_input (t_bev w))) w w'); [by split|by right| |lia|apply Hh|done|by apply Forall_nil].
    split; [done|]. split; [done|]. by rewrite app_nil_r. }
  destruct Hg as [[[] ? ? ? ? ?] []]. split; constructor; try done; constructor; done.
Qed.

Lemma exec_good mem F o w : good mem F w -> tcpd_enabled mem o w -> returns (tcpd_exec o w) (good mem F).
Proof.
  intros Hg He. destruct o as [s|data|ok|n ok|ev c ok1 ok2|]; cbn [tcpd_exec tcpd_enabled] in *.
  - destruct He. by apply script_good.
  - destruct (b_live (t_bev w)) eqn:Hb; [|exact Hg]. destruct He as (Hok & Hf). by apply arrive_good.
  - destruct (b_cb (t_bev w)) eqn:Hb; [|exact Hg]. by apply readcb_good.
  - destruct (b_cb (t_bev w)) eqn:Hb; [|exact Hg]. destruct He. apply writecb_good; [by apply drain_good|done].
  - destruct (b_cb (t_bev w)) eqn:Hb; [|exact Hg]. by apply event_good.
  - eapply returns_mono; [by apply (collect_good mem F)|]. by intros w' [? _].
Qed.

(** ** New connections *)

Definition ssl_ok (s : ssl_store) : Prop := forall k a, cache s !! k = Some a -> is_Some (contexts s !! a).

Lemma tls_setup_alive new_ctx t s : ssl_ok s -> fits_in M t ->
  exists a r s', tls_setup new_ctx t s = Ret (a, r, s') /\ is_Some (contexts s' !! a).
Proof.
  intros Hs [Hok Hf]. unfold tls_setup. rewrite (generate_key_spec M HM HM2) by done. cbn [mbind outcome_bind].
  assert (Ha : exists a s1, tcpd_ssl_context_get_or_create (key_text t) s = Ret (a, s1) /\ is_Some (contexts s1 !! a)).
  { unfold tcpd_ssl_context_get_or_create. destruct (cache s !! key_text t) as [a|] eqn:Ek.
    - destruct (Hs _ _ Ek) as [c ->]. eexists _, _. split; [reflexivity|]. cbn. rewrite lookup_insert_eq. by eexists.
    - cbn [tcpd_ssl_context_create put_context contexts]. rewrite lookup_insert_eq. eexists _, _. split; [reflexivity|]. cbn.
      rewrite lookup_insert_eq. by eexists. }
  destruct Ha as (a & s1 & -> & [c Hc]). cbn [mbind outcome_bind]. rewrite Hc. destruct (tcpd_ssl_context_configure new_ctx t c) as [r c'].
  eexists _, _, _. split; [reflexivity|]. cbn. rewrite lookup_insert_eq. by eexists.
Qed.

(** The evbuffers of a new bufferevent are empty; a value of the field [evdns] that
    is not a resolver raises an error. *)
Definition connect_ok (v : connect_env) (t : T) (ssl : ssl_store) : Prop :=
  evbuffer_bytes (v_in v) = [] /\ evbuffer_bytes (v_out v) = [] /\ (forall x, v_evdns v x <> UB) /\ ssl_ok ssl /\ fits_in M t.

(** Whole, with no bufferevent yet, and nothing said. *)
Definition raw F w : Prop :=
  t_core F w /\ c_buf (t_conn w) = false /\ c_cleaned_up (t_conn w) = false /\ c_buf_mutex (t_conn w) = true /\
  c_mainthread (t_conn w) = true /\ t_alive w = true /\ t_misuse w = false /\ c_type (t_conn w) = TCPD_CONN_TYPE_CLIENT /\
  t_received w = [] /\ t_sent w = [] /\ t_written w = [] /\ t_calls w = [] /\
  evbuffer_bytes (b_input (t_bev w)) = [] /\ evbuffer_bytes (b_output (t_bev w)) = [].

Lemma raw_good mem F w : raw F w -> good mem F w.
Proof.
  intros (Hc & Hb & Hcl & Hm & Hmt & Ha & Hmis & Ht & Hr & Hs & Hw & Hcalls & Hi & Ho). split.
  - constructor; [done|..]; rewrite ?Hb, ?Hcl, ?Hm, ?Hmt, ?Ha, ?Hmis; done.
  - constructor; rewrite ?Hi, ?Hr, ?Hcalls, ?Zlen_nil; [by apply Forall_nil|done|change (Zlen (@nil Z)) with 0; lia| |].
    + intros _. unfold delivered. by rewrite Hcalls.
    + intros [|? ?] m l'; done.
Qed.

Lemma connect_raw v t reg ssl : connect_ok v t ssl ->
  let w := tcpd_base_conn_set_callbacks t (new_tconn (configured_client v t) true (no_bev (v_in v) (v_out v)) reg ssl) in
  raw reg w /\ t_ssl w = ssl /\ c_ssl_ctx (t_conn w) = None.
Proof.
  intros (Hin & Hout & _ & _ & _) w. set (w0 := new_tconn (configured_client v t) true (no_bev (v_in v) (v_out v)) reg ssl) in *.
  assert (Hr : reg_inv reg [] reg) by (split; [done|]; split; [by constructor|]; intros x Hx; by apply not_elem_of_nil in Hx).
  destruct (set_callbacks_spec reg t w0 Hr) as (r & s & d & k & g & Ew & Hg & Hx). unfold w. rewrite Ew. clear Ew w.
  split; [|done]. split; [|done]. constructor; try done.
  intros _. apply Hx. intros y Hy. by left.
Qed.

Lemma start_good mem F v w : raw F w -> evbuffer_bytes (v_in v) = [] -> evbuffer_bytes (v_out v) = [] ->
  good mem F (start_connecting v w).1.
Proof.
  intros (Hc & Hb & Hcl & Hm & Hmt & Ha & Hmis & Ht & Hr & Hs & Hw & Hcalls & Hi & Ho) Hin Hout.
  unfold start_connecting. destruct (v_connects v); cbn [negb].
  - destruct (tcpd_config_apply_buffers _ _ _) as [? l1]. destruct (tcpd_config_apply_keepalive _ _ _) as [? l2]. cbn [fst].
    destruct Hc as [K1 K2 K3 K4 K5 K6]. split.
    + constructor; cbn; try done; [|congruence..]. constructor; cbn; try done. by rewrite Hw, Hs, Hout.
    + constructor; cbn; rewrite ?Hin, ?Hr, ?Hcalls, ?Zlen_nil; [by apply Forall_nil|done|change (Zlen (@nil Z)) with 0; lia| |].
      * intros _. unfold delivered. cbn. by rewrite ?Hcalls.
      * intros [|? ?] m l'; done.
  - cbn [fst]. apply raw_good. split; [|done]. destruct Hc as [K1 K2 K3 K4 K5 K6]. constructor; cbn; try done. by rewrite Hw, Hs, Hout.
Qed.

Lemma connect_good mem v t reg ssl : connect_ok v t ssl -> safe (tcpd_connect v t reg ssl) (fun r => good mem reg r.1).
Proof.
  intros Hv. destruct (connect_raw v t reg ssl Hv) as (Hraw & Hssl & Hctx). destruct Hv as (Hin & Hout & Hdns & Hsok & Hf).
  unfold tcpd_connect. set (w := tcpd_base_conn_set_callbacks t _) in *. clearbody w.
  eapply (safe_bind _ _ (fun _ => True)). { destruct (field_of t "evdns"); cbn; try done; (destruct (v_evdns v _) eqn:E1; [done|done|by apply Hdns in E1]). }
  intros _ _. eapply (safe_bind _ _ (fun r => raw reg r.2)).
  - case_match; [|done]. unfold client_tls. rewrite Hssl. destruct (tls_setup_alive (v_new_ctx v) t ssl Hsok Hf) as (a & r & s & -> & Hs).
    cbn. destruct Hraw as ([K1 K2 K3 K4 K5 K6] & Hrest). split; [|exact Hrest]. constructor; try done. cbn. by intros ? [= <-].
  - intros [ok w1] Hr. cbn [snd] in Hr. destruct ok; cbn; [by apply start_good|by apply raw_good].
Qed.

(** The context of a server is alive. *)
Definition accept_ok (v : accept_env (E := E)) (z : tserver) : Prop :=
  evbuffer_bytes (v_accept_in v) = [] /\ evbuffer_bytes (v_accept_out v) = [] /\
  (forall a, s_ssl_ctx (z_server z) = Some a -> is_Some (contexts (z_ssl z) !! a)).

Lemma accepted_good mem v (z : tserver) : accept_ok v z ->
  good mem (z_reg z) (new_tconn (accepted_conn v (s_config (z_server z))) false
    (mk_bev true true true true false (v_accept_in v) (v_accept_out v)) (z_reg z) (z_ssl z)).
Proof.
  intros (Hin & Hout & _). split.
  - constructor; try done. constructor; try done.
    split; [done|]. split; [by apply NoDup_nil|]. intros x Hx. by apply not_elem_of_nil in Hx.
  - constructor; cbn; rewrite ?Hin; [by apply Forall_nil|done|change (Zlen (@nil Z)) with 0; lia|done|].
    by intros [|? ?] m l'.
Qed.

(** A script run in a coroutine of its own. *)
Lemma threaded_good mem F s cb w : good mem F w -> t_alive w = true -> b_cb (t_bev w) = true -> script_ok s ->
  payload cb = [] -> (forall m, cb <> CbDisconnected m) ->
  let '(th, w1) := luaL_ref RThread w in
  returns (w2 ← run_script s (called cb w1); luaL_unref th w2) (good mem F).
Proof.
  intros [Hi Hh] Ha Hb Hs Hp Hd. cbn [luaL_ref]. destruct (thread_inv F w Hi) as [HF Hi1]. set (th := fresh (dom (t_reg w))) in *.
  assert (Hg : good mem (<[th := RThread]> F) (called cb (put_reg (<[th := RThread]> (t_reg w)) w))).
  { split; [destruct Hi1 as [[] ? ? ? ? ?]; constructor; try done; constructor; done|].
    eapply (hist_step mem w _ [cb] Hh); [by left|done|done|done|apply Hh|apply Hh| |].
    - intros _. cbn. by rewrite Hp.
    - intros [|x [|]] m k' E1; cbn in E1; simplify_eq. by destruct (Hd m). }
  eapply returns_bind; [by apply (script_good mem (<[th := RThread]> F))|]. intros w2 [Hi2 Hh2].
  destruct (unthread_inv F w2 th HF Hi2) as (w3 & -> & Hi3 & ->). cbn. split; [done|]. by destruct Hh2.
Qed.

Lemma accept_good mem server conn ok v (z : tserver) : accept_ok v z ->
  returns (tcpd_server_listener_cb server conn body ok v z) (fun r => forall w opts, r.1 = Some (w, opts) -> good mem (z_reg z) w).
Proof.
  intros Hv. pose proof (accepted_good mem v z Hv) as Hg. destruct Hv as (Hin & Hout & Hctx). unfold tcpd_server_listener_cb.
  destruct (onAcceptRef (z_server z)) as [r|]; [|done]. destruct ok; [|done]. cbn [negb]. set (w := new_tconn _ _ _ _ _) in *.
  destruct (luaL_ref RThread w) as [th w1] eqn:Eref. destruct (t_reg w1 !! r) as [[k|]|]; [|done|done].
  eapply (returns_bind _ _ (fun _ => True)). { unfold server_bev. destruct (s_ssl_ctx (z_server z)) as [a|]; [|done]. by destruct (Hctx a eq_refl) as [c ->]. }
  intros bev _. destruct bev; [|done]. destruct (tcpd_config_apply_buffers _ _ _) as [? l1]. destruct (tcpd_config_apply_keepalive _ _ _) as [? l2].
  pose proof (threaded_good mem (z_reg z) (body k (if callback_self_first (s_config (z_server z)) && v_server_weak v then [server; conn] else [conn]))
    CbAccept w Hg eq_refl eq_refl (Hbody _ _) eq_refl ltac:(done)) as Ht. rewrite Eref in Ht.
  destruct (run_script _ _) as [w2| |]; cbn in Ht |- *; [|done|done]. destruct (luaL_unref th w2); cbn in Ht |- *; [|done|done].
  by intros ? ? [= <- _].
Qed.

(** The connections that can come about, and what can become of them; [F]: the
    registry before the connection was made. *)
Inductive tcpd_reach (mem : bool) F : tconn E -> Prop :=
  | tr_connect v t ssl w opts : connect_ok v t ssl -> tcpd_connect v t F ssl = Ret (w, opts) -> tcpd_reach mem F w
  | tr_accept server conn ok v z w opts z' : accept_ok v z -> z_reg z = F ->
      tcpd_server_listener_cb server conn body ok v z = Ret (Some (w, opts), z') -> tcpd_reach mem F w
  | tr_step o w w' : tcpd_reach mem F w -> tcpd_enabled mem o w -> tcpd_exec o w = Ret w' -> tcpd_reach mem F w'.

Lemma reach_good mem F w : tcpd_reach mem F w -> good mem F w.
Proof.
  induction 1 as [v t ssl w opts Hv E1|server conn ok v z w opts z' Hv <- E1|o w w' _ IH He E1].
  - pose proof (connect_good mem v t F ssl Hv) as Hs. by rewrite E1 in Hs.
  - pose proof (accept_good mem server conn ok v z Hv) as Hs. rewrite E1 in Hs. by eapply Hs.
  - pose proof (exec_good mem F o w IH He) as Hs. by rewrite E1 in Hs.
Qed.
End Steps.
End Life.
