(* ===== verification/TcpdProps.v ===== *)
(** * The theorems about TCP connections

    Safety of every step, what a connection gives back when it ends, that no byte
    is lost or reordered, how the read loop relates to a single read, and what goes
    wrong when a script lets go of a connection while the end of its stream is
    being delivered. *)

From S2P Require Import Prelude ByteArray Lua LuaState Double Evhttp Registry TcpdConfig TcpdSsl Tcpd TcpdServer TcpdLife.

Section Props.
Context {E T : Type} `{Evbuffer E} `{LuaTable T} `{Allocator} `{LuaAPI}.
Context (self : lua_value) (body : positive -> list lua_value -> tscript T).
Context (M : Z) (HM : mem_upto M) (HM2 : 2 ^ 32 <= M < 2 ^ 62) (Hbody : forall k args, script_ok (body k args)).
Implicit Type w : tconn E.
Implicit Type F : gmap positive regval.

(** C15: no use of a connection does anything undefined, with two exceptions.  In
    whatever order scripts call its methods and libevent reports, inside callbacks
    or outside, every step returns, as long as (1) no script asks
    [getsockname] or [getpeername] of a socket that is neither IPv4 nor IPv6 (a
    UNIX socket: [tcpd_conn_getsockname] then pushes an address it never wrote),
    and (2) a script keeps the object while it uses it: it is not collected inside
    a script that a callback runs ([tcpd_eof_let_go]).  What is received fits in
    memory, and libevent reports the end of the stream and an error apart.  The
    object has a bufferevent exactly while that is alive; the registry still holds
    all it held before the connection, and under each reference of the connection
    a function of its own.  A client has no other entries there, and none once it
    is cleaned up; an accepted connection may have others, since calling its [bind]
    again drops the earlier references without releasing them.  Its TLS context is
    alive; and its mutex is used after its end only if the connection had been
    cleaned up before. *)
Theorem tcpd_connection_safe mem F w : tcpd_reach self body M mem F w ->
  (forall o, tcpd_enabled M mem o w -> exists w', tcpd_exec self body o w = Ret w') /\
  c_buf (t_conn w) = b_live (t_bev w) /\
  reg_inv F (refs (t_conn w)) (t_reg w) /\
  (c_type (t_conn w) = TCPD_CONN_TYPE_CLIENT -> reg_exact F (refs (t_conn w)) (t_reg w) /\
     (c_cleaned_up (t_conn w) = true -> t_reg w = F)) /\
  (forall a, c_ssl_ctx (t_conn w) = Some a -> is_Some (contexts (t_ssl w) !! a)) /\
  (t_misuse w = true -> c_cleaned_up (t_conn w) = true).
Proof.
  intros Hr. destruct (reach_good self body M HM HM2 Hbody mem F w Hr) as [Hi Hh]. split.
  - intros o He. destruct (returns_inv _ _ (exec_good self body M HM HM2 Hbody mem F o w (conj Hi Hh) He)) as (w' & E1 & _). by exists w'.
  - destruct Hi as [[K1 K2 K3 K4 K5 K6] I1 I2 I3 I4 I5]. split; [done|]. split; [done|]. split; [|done].
    intros Ht. split; [by apply K4|]. intros Hc. specialize (I5 Ht Hc). rewrite I5 in K3, K4. apply reg_done; auto.
Qed.

(** ** The end of a connection *)

Definition ends (o : tcpd_op (T := T)) w : Prop :=
  match o with
  | OpScript (TCall TClose _) | OpCollect => True
  | OpEvent ev _ _ _ =>
      (ev_error ev || ev_eof ev || ev_timeout ev) &&
      negb (ev_connected ev && bool_decide (c_type (t_conn w) = TCPD_CONN_TYPE_CLIENT)) = true
  | _ => False
  end.
Inductive later mem w : tconn E -> Prop :=
  | later_now : later mem w w
  | later_step o w1 w2 : later mem w w1 -> tcpd_enabled M mem o w1 -> tcpd_exec self body o w1 = Ret w2 -> later mem w w2.

Lemma collect_life F w : t_inv F w -> t_alive w = true ->
  returns (tcpd_conn_gc w) (fun w' => t_inv F w' /\ life w w' /\ t_calls w' = t_calls w /\ c_cleaned_up (t_conn w') = true).
Proof.
  intros Hi Ha. rewrite gc_cleanup. destruct (cleanup_stays F w Hi Ha) as (w' & -> & (Hi' & [Hl _] & Hq & _) & Hcl). cbn.
  split; [|split; [by destruct Hl|done]]. destruct Hi' as [[] ? ? ? ? ?]. constructor; try done; constructor; done.
Qed.
Lemma close_life F k w : t_inv F w -> t_alive w = true -> (forall r, script_ok (k r)) ->
  returns (run_script (TCall TClose k) w) (fun w' => t_inv F w' /\ life w w' /\ c_cleaned_up (t_conn w') = true).
Proof.
  intros Hi Ha Hk. cbn [run_script]. rewrite close_call. unfold at_conn. rewrite Ha.
  destruct (cleanup_stays F w Hi Ha) as (w1 & -> & (Hi1 & [Hl1 _] & _ & _ & Ha1) & Hcl). cbn [mbind outcome_bind result].
  eapply returns_mono; [apply (script_keeps F); [done|congruence|done]|]. intros w2 (Hi2 & [Hl2 _] & _). split; [done|].
  split; [by etrans|]. by apply (f_cleaned _ _ Hl2).
Qed.

Lemma ends_life mem F o w : good M mem F w -> b_cb (t_bev w) = true -> tcpd_enabled M mem o w -> ends o w ->
  returns (tcpd_exec self body o w) (fun w' => t_inv F w' /\ life w w' /\ c_cleaned_up (t_conn w') = true).
Proof.
  intros [Hi Hh] Hb He Hend. destruct (cb_open F w Hi Hb) as (_ & _ & Ha). destruct o as [s|data|ok|n ok|ev c ok1 ok2|]; try done.
  - destruct s as [|[] k]; try done. destruct He as [_ [_ Hk]]. by apply (close_life F).
  - cbn [tcpd_exec ends tcpd_enabled] in *. rewrite Hb. unfold tcpd_common_eventcb, at_conn. rewrite Ha.
    apply andb_true_iff in Hend as [Hd Hc]. apply negb_true_iff in Hc. rewrite Hc, Hd. destruct He as [Hev _].
    destruct (disconnect_event_spec self body M HM HM2 Hbody F ev c ok1 ok2 w Hi Hb) as (error & _ & Hs); [by eapply hist_fits|done|].
    eapply returns_mono; [exact Hs|]. by intros w' (? & ? & _ & ? & _).
  - eapply returns_mono; [by apply (collect_life F)|]. by intros w' (? & ? & _ & ?).
Qed.

Lemma frozen mem F w w' : good M mem F w -> c_cleaned_up (t_conn w) = true -> later mem w w' ->
  good M mem F w' /\ c_cleaned_up (t_conn w') = true /\ t_calls w' = t_calls w.
Proof.
  intros Hg Hc. induction 1 as [|o w1 w2 _ (Hg1 & Hc1 & IH) He E1]; [done|].
  pose proof (exec_good self body M HM HM2 Hbody mem F o w1 Hg1 He) as Hs. rewrite E1 in Hs. cbn in Hs. split; [done|].
  destruct Hg1 as [Hi1 Hh1]. pose proof (no_cb_cleaned F w1 Hi1 Hc1) as Hb. rewrite <- IH. clear Hs IH Hc.
  assert (Hlive : b_live (t_bev w1) = false) by (rewrite <- (k_buf _ _ (i_core _ _ Hi1)); by apply (i_shut _ _ Hi1)).
  destruct o as [s|data|ok|n ok|ev c ok1 ok2|]; cbn [tcpd_exec tcpd_enabled] in *; rewrite ?Hb, ?Hlive in E1; try (by simplify_eq).
  - destruct He as [Ha Hs]. pose proof (script_keeps F s w1 Hi1 Ha Hs) as Hk. rewrite E1 in Hk. destruct Hk as (_ & [Hl _] & Hq & _).
    split; [by apply (f_cleaned _ _ Hl)|done].
  - pose proof (collect_life F w1 Hi1 He) as Hk. rewrite E1 in Hk. by destruct Hk as (_ & _ & ? & ?).
Qed.

(** C16: a connection ends completely and once.  When the peer closes, the
    connection breaks or times out, a script closes it or it is collected, the
    bufferevent is freed, the TLS context is given back exactly once, a client's
    references are released and the registry is as it was before the connection;
    and whatever happens afterwards, no callback is made any more. *)
Theorem tcpd_connection_released mem F w o w' : tcpd_reach self body M mem F w -> b_cb (t_bev w) = true ->
  tcpd_enabled M mem o w -> ends o w -> tcpd_exec self body o w = Ret w' ->
  b_live (t_bev w') = false /\ c_buf (t_conn w') = false /\
  (c_type (t_conn w) = TCPD_CONN_TYPE_CLIENT -> refs (t_conn w') = [] /\ t_reg w' = F) /\
  ((c_ssl_ctx (t_conn w) = None /\ t_ssl w' = t_ssl w) \/
   exists a, c_ssl_ctx (t_conn w) = Some a /\ tcpd_ssl_context_release a true (t_ssl w) = Ret (t_ssl w')) /\
  (forall w2, later mem w' w2 -> t_calls w2 = t_calls w').
Proof.
  intros Hr Hb He Hend E1. pose proof (reach_good self body M HM HM2 Hbody mem F w Hr) as Hg.
  pose proof (ends_life mem F o w Hg Hb He Hend) as Hs. rewrite E1 in Hs. cbn in Hs. destruct Hs as (Hi' & Hl & Hc).
  pose proof (exec_good self body M HM HM2 Hbody mem F o w Hg He) as Hg'. rewrite E1 in Hg'. cbn in Hg'.
  destruct (i_shut _ _ Hi' Hc) as (Hbuf & _ & Hctx & _). pose proof (i_core _ _ Hi') as [K1 _ K3 K4 _ _].
  split; [by rewrite <- K1|]. split; [done|]. split; [|split].
  - intros Ht. rewrite <- (f_type _ _ Hl) in Ht. pose proof (i_refs _ _ Hi' Ht Hc) as Hnil. split; [done|].
    rewrite Hnil in K3, K4. apply reg_done; auto.
  - destruct (f_ssl _ _ Hl) as [[E2 E3]|(a & E2 & _ & E3)]; [left; split; congruence|right; by exists a].
  - intros w2 Hlater. by apply (frozen mem F).
Qed.

(** ** What is delivered *)

(** The peer's end of stream, alone. *)
Definition plain_eof (ev : events) : Prop :=
  ev_eof ev = true /\ ev_error ev = false /\ ev_timeout ev = false /\ ev_connected ev = false.

Lemma eof_told mem F ev c w w' : good M mem F w -> b_cb (t_bev w) = true -> plain_eof ev ->
  c_type (t_conn w) = TCPD_CONN_TYPE_CLIENT -> is_Some (onReadRef (t_conn w)) -> is_Some (onDisconnectedRef (t_conn w)) ->
  tcpd_exec self body (OpEvent ev c true true) w = Ret w' ->
  evbuffer_bytes (b_input (t_bev w')) = [] /\
  (t_calls w' = t_calls w ++ eof_calls ev true w ++ [CbDisconnected (lit "connection closed")] \/ t_misuse w' = true).
Proof.
  intros [Hi Hh] Hb (E1 & E2 & E3 & E4) Ht [r Hr] [d Hd] Eexec. destruct (cb_open F w Hi Hb) as (_ & Hc & Ha).
  destruct (i_open _ _ Hi Hc) as [_ Hmt]. cbn [tcpd_exec] in Eexec. rewrite Hb in Eexec. unfold tcpd_common_eventcb, at_conn in Eexec.
  rewrite Ha, E4, E1, orb_true_r in Eexec. cbn [andb orb] in Eexec.
  destruct (disconnect_event_spec self body M HM HM2 Hbody F ev c true true w Hi Hb) as (error & Herr & Hs); [by eapply hist_fits|by rewrite E1, E2|].
  rewrite Eexec in Hs. destruct Hs as (_ & _ & _ & _ & Hin & disc & Hcalls & _ & _ & Hdisc). split.
  - rewrite Hin. unfold eof_input, eof_reads. rewrite Hr, E1. cbn [andb]. case_bool_decide; cbn; [congruence|done].
  - unfold tcpd_analyze_event_error in Herr. rewrite E1, E2, E3 in Herr. injection Herr as <-.
    destruct (Hdisc Ht) as [-> |?]; [left|by right]. rewrite Hcalls. unfold disc_calls, fires. by rewrite Hd, Hmt.
Qed.

(** C17: the stream is delivered whole and in order.  While memory lasts, the
    strings given to [onread], with what still waits in the input, are the bytes
    that arrived; what libevent has passed on, with what waits in the output, is
    what the script has sent; [ondisconnected] is the last callback.  When the peer
    ends the stream of a client, everything that arrived has been delivered, and
    [ondisconnected] is called, once, with "connection closed", unless the script
    closed the connection during the last delivery. *)
Theorem tcpd_delivery F w : tcpd_reach self body M true F w ->
  delivered w ++ evbuffer_bytes (b_input (t_bev w)) = t_received w /\
  t_written w ++ evbuffer_bytes (b_output (t_bev w)) = t_sent w /\
  (forall l m l', t_calls w = l ++ CbDisconnected m :: l' -> l' = []) /\
  (forall ev c w', b_cb (t_bev w) = true -> plain_eof ev -> c_type (t_conn w) = TCPD_CONN_TYPE_CLIENT ->
     is_Some (onReadRef (t_conn w)) -> is_Some (onDisconnectedRef (t_conn w)) ->
     tcpd_exec self body (OpEvent ev c true true) w = Ret w' ->
     delivered w' = t_received w /\
     (t_calls w' = t_calls w ++ eof_calls ev true w ++ [CbDisconnected (lit "connection closed")] \/ t_misuse w' = true)).
Proof.
  intros Hr. pose proof (reach_good self body M HM HM2 Hbody true F w Hr) as Hg. pose proof Hg as [Hi Hh].
  split; [by apply (h_delivered M true)|]. split; [apply Hi|]. split; [intros l m l' E1; by apply (h_last M true w Hh l m)|].
  intros ev c w' Hb Hev Ht Hrd Hd E1. destruct (eof_told true F ev c w w' Hg Hb Hev Ht Hrd Hd E1) as [Hin Hcalls]. split; [|exact Hcalls].
  assert (He : tcpd_enabled M true (OpEvent (T:=T) ev c true true) w) by (destruct Hev as (E2 & E3 & _); split; [by rewrite E2, E3|done]).
  pose proof (exec_good self body M HM HM2 Hbody true F _ w Hg He) as Hg'. rewrite E1 in Hg'. destruct Hg' as [_ Hh'].
  pose proof (h_delivered M true w' Hh' eq_refl) as D. rewrite Hin, app_nil_r in D. rewrite D.
  cbn [tcpd_exec] in E1. rewrite Hb in E1. assert (Hend : ends (OpEvent (T:=T) ev c true true) w).
  { destruct Hev as (E2 & E3 & E4 & E5). cbn [ends]. by rewrite E2, E5, orb_true_r. }
  pose proof (ends_life true F (OpEvent ev c true true) w Hg Hb He Hend) as Hs. cbn [tcpd_exec] in Hs. rewrite Hb, E1 in Hs.
  destruct Hs as (_ & Hl & _). by apply (f_received _ _ Hl).
Qed.

(** The loop of the read callbacks, which takes the input in pieces of at most
    1024 bytes and appends them to a growing buffer, is equivalent to taking the
    whole input at once, whatever the buffer's first size; nothing is left. *)
Theorem tcpd_read_all_oneshot size (input : E) : bytes_ok (evbuffer_bytes input) -> 2 * Zlen (evbuffer_bytes input) + 128 <= M ->
  exists rest, read_all size input = Ret (fst (evbuffer_remove input (Zlen (evbuffer_bytes input))), rest) /\
    evbuffer_bytes rest = evbuffer_bytes (snd (evbuffer_remove input (Zlen (evbuffer_bytes input)))).
Proof.
  intros Hok Hf. pose proof (Zlen_nonneg (evbuffer_bytes input)). destruct (tcpd_read_all_spec M HM HM2 size input Hok Hf) as (i & -> & Hi).
  exists i. rewrite evbuffer_remove_data, evbuffer_remove_rest, ztake_all, zdrop_all by lia. done.
Qed.

(** ** Letting go while the end of the stream is delivered *)

Lemma collect_run w : t_alive w = true -> run_script (TCall TCollect (fun _ => TDone)) w = tcpd_conn_gc w.
Proof.
  intros Ha. cbn [run_script]. unfold tcpd_call, at_conn, tcpd_conn_gc. rewrite Ha. destruct (c_type (t_conn w)); cbn [client_method accept_method].
  - by destruct (tcpd_client_conn_gc w).
  - by destruct (tcpd_accept_conn_gc w).
  - by destruct (tcpd_accept_conn_gc w).
Qed.

(** The last delivery runs the handler in a state of the invariant. *)
Lemma flush_run b F ev r k w : t_inv F w -> b_cb (t_bev w) = true -> input_fits M w -> eof_reads ev w = true ->
  onReadRef (t_conn w) = Some r -> t_reg w !! r = Some (RFun k) ->
  exists th w0 args, F !! th = None /\ t_inv (<[th := RThread]> F) w0 /\ t_alive w0 = true /\
    t_calls w0 = t_calls w ++ [CbRead (evbuffer_bytes (b_input (t_bev w)))] /\
    flush_eof self b ev true w = (w2 ← run_script (b k args) w0; luaL_unref th w2).
Proof.
  intros Hi Hb [Hok Hfit] He Hr Hk. destruct (cb_open F w Hi Hb) as (Hbuf & Hc & Ha). destruct (i_open _ _ Hi Hc) as [_ Hmt].
  unfold flush_eof, eof_reads in *. rewrite Hr in *. apply andb_true_iff in He as [Hev He]. rewrite Hev, Hbuf. cbn [andb].
  rewrite (at_bev_open F), evbuffer_length_spec by done. apply negb_true_iff, bool_decide_eq_false in He.
  destruct (Z.ltb_spec 0 (Zlen (evbuffer_bytes (b_input (t_bev w))))) as [_|Hz].
  2:{ exfalso. apply He, Zlen_zero. pose proof (Zlen_nonneg (evbuffer_bytes (b_input (t_bev w)))). lia. }
  unfold deliver. destruct (tcpd_read_all_spec M HM HM2 (Zlen (evbuffer_bytes (b_input (t_bev w))) + BUFLEN) _ Hok Hfit) as (i & -> & Hin).
  cbn [mbind outcome_bind]. destruct (put_input_inv F w i Hi) as [Hi1 _]. set (w1 := put_input i w) in *.
  destruct (thread_inv F w1 Hi1) as [HF Hi2]. set (th := fresh (dom (t_reg w1))) in *.
  change (onReadRef (t_conn w1)) with (onReadRef (t_conn w)). change (t_calls w) with (t_calls w1). rewrite Hr. unfold fan_call.
  change (c_mainthread (t_conn w1)) with (c_mainthread (t_conn w)). rewrite Hmt. cbn [negb orb luaL_ref]. fold th.
  assert (Hne : th <> r). { intros E1. apply (is_fresh (dom (t_reg w1))). fold th. rewrite E1. by apply elem_of_dom_2 in Hk. }
  cbn [t_reg put_reg]. rewrite lookup_insert_ne by done. change (t_reg w1 !! r) with (t_reg w !! r). rewrite Hk.
  exists th, (called (CbRead (evbuffer_bytes (b_input (t_bev w)))) (put_reg (<[th := RThread]> (t_reg w1)) w1)). eexists.
  split; [exact HF|]. split; [destruct Hi2 as [[] ? ? ? ? ?]; constructor; try done; constructor; done|].
  split; [exact Ha|]. split; [reflexivity|]. reflexivity.
Qed.

(** A script that lets go of its connection while [onread] receives the rest
    of a stream that has ended is not protected.  If it closes the connection, the
    callback goes on with it: it locks the mutex that the cleanup has destroyed,
    and [ondisconnected] is never called.  If it drops the last reference and the
    collector runs, the callback goes on in the memory of the collected object. *)
Theorem tcpd_eof_let_go mem F ev c r k w : tcpd_reach self body M mem F w -> b_cb (t_bev w) = true -> plain_eof ev ->
  evbuffer_bytes (b_input (t_bev w)) <> [] -> onReadRef (t_conn w) = Some r -> t_reg w !! r = Some (RFun k) ->
  ((forall args, body k args = TCall TClose (fun _ => TDone)) ->
   exists w', tcpd_exec self body (OpEvent ev c true true) w = Ret w' /\ t_misuse w' = true /\
     t_calls w' = t_calls w ++ [CbRead (evbuffer_bytes (b_input (t_bev w)))]) /\
  (forall body2, (forall args, body2 k args = TCall TCollect (fun _ => TDone)) ->
   tcpd_exec self body2 (OpEvent ev c true true) w = UB).
Proof.
  intros Hr Hb Hev Hin Hrd Hk. destruct (reach_good self body M HM HM2 Hbody mem F w Hr) as [Hi Hh]. destruct Hev as (E1 & E2 & E3 & E4).
  destruct (cb_open F w Hi Hb) as (_ & _ & Ha).
  assert (He : eof_reads ev w = true). { unfold eof_reads. rewrite Hrd, E1. cbn. by rewrite bool_decide_eq_false_2. }
  assert (Hexec : forall b, tcpd_exec self b (OpEvent ev c true true) w = disconnect_event self b ev c true true w).
  { intros b. cbn [tcpd_exec]. rewrite Hb. unfold tcpd_common_eventcb, at_conn. by rewrite Ha, E4, E1, orb_true_r. }
  split.
  - intros Hclose. rewrite Hexec. unfold disconnect_event.
    destruct (flush_run body F ev r k w Hi Hb (hist_fits M mem w Hh) He Hrd Hk) as (th & w0 & args & HF & Hi0 & Ha0 & Hc0 & ->). rewrite Hclose.
    pose proof (close_life _ (fun _ => TDone) w0 Hi0 Ha0 (fun _ => I)) as Hl.
    pose proof (script_keeps _ (TCall TClose (fun _ => TDone)) w0 Hi0 Ha0 (conj I (fun _ => I))) as Hs.
    destruct (run_script _ w0) as [w2| |]; [|done..]. destruct Hl as (Hi2 & _ & Hcl2), Hs as (_ & _ & Hq2 & _ & Ha2).
    cbn [mbind outcome_bind]. destruct (unthread_inv F w2 th HF Hi2) as (w3 & -> & Hi3 & E5). cbn [mbind outcome_bind].
    assert (Hm3 : t_alive w3 = true /\ c_cleaned_up (t_conn w3) = true /\ t_calls w3 = t_calls w2) by (rewrite E5; cbn; by rewrite Ha2).
    clear E5. destruct Hm3 as (Ha3 & Hcl3 & Hc3). unfold at_conn at 1. rewrite Ha3. destruct (set_state_inv F (if ev_error ev then TCPD_CONN_ERROR else TCPD_CONN_DISCONNECTED) w3 Hi3) as [Hi4 _].
    unfold tcpd_analyze_event_error at 1. rewrite E1, E2, E3. cbn [mbind outcome_bind]. rewrite E2 in Hi4.
    destruct (take_spec F _ Hi4) as (w5 & -> & Hi5 & _ & (Hq5 & _ & Ha5) & Hb5 & _ & Hcl5 & Hm5). cbn [mbind outcome_bind].
    cbn [on_conn set_state t_calls t_alive t_misuse t_conn c_cleaned_up] in Hq5, Ha5, Hcl5, Hm5.
    pose proof (disconnected_spec self body Hbody F true (mk_error TCPD_ERROR_EOF (Some (lit "connection closed")) 0) w5 Hi5) as Hd.
    destruct (returns_inv _ _ (Hd ltac:(congruence) Hb5)) as (w6 & E6 & (Hi6 & Hl6 & Hc6 & _)). exists w6. split; [exact E6|]. split.
    + apply (f_misuse _ _ Hl6). by rewrite Hm5, Hcl3, orb_true_r.
    + rewrite Hc6, Hq5, Hc3, Hq2, Hc0. unfold disc_calls, fires. destruct (i_shut _ _ Hi5) as (_ & -> & _); [congruence|].
      by destruct (onDisconnectedRef (t_conn w5)); rewrite app_nil_r.
  - intros body2 Hcol. rewrite Hexec. unfold disconnect_event.
    destruct (flush_run body2 F ev r k w Hi Hb (hist_fits M mem w Hh) He Hrd Hk) as (th & w0 & args & HF & Hi0 & Ha0 & _ & ->). rewrite Hcol.
    rewrite collect_run by done.
    pose proof (collect_life _ w0 Hi0 Ha0) as Hc. assert (Hdead : forall w2, tcpd_conn_gc w0 = Ret w2 -> t_alive w2 = false).
    { intros w2. rewrite gc_cleanup. destruct (tcpd_connection_cleanup_on_disconnect w0); cbn; [|done..]. by intros [= <-]. }
    destruct (tcpd_conn_gc w0) as [w2| |]; [|done..]. destruct Hc as (Hi2 & _). cbn [mbind outcome_bind].
    destruct (unthread_inv F w2 th HF Hi2) as (w3 & -> & Hi3 & ->). cbn [mbind outcome_bind]. unfold at_conn. cbn [t_alive put_reg].
    by rewrite (Hdead w2).
Qed.
End Props.

(** ** A client *)

Module ClientSample.
#[export] Existing Instances list_evbuffer assoc_table zero_alloc plain_lua.

Definition table : alist := [(LStr (lit "onread"), LFun 1); (LStr (lit "ondisconnected"), LFun 2); (LStr (lit "host"), LStr (lit "h"));
  (LStr (lit "port"), LInt 80); (LStr (lit "callback_self_first"), LBool true)].
Definition env : connect_env (E := list Z) := mk_connect (fun _ => 0) true true true (fun _ => Raise (lit "evdns")) 5 (fun _ _ => true) [] [].
(** [onread] answers, or closes. *)
Definition answers (k : positive) (args : list lua_value) : tscript alist :=
  if decide (k = 1%positive) then TCall (TSend [LNil; LStr (lit "ok")]) (fun _ => TDone) else TDone.
Definition closes (k : positive) (args : list lua_value) : tscript alist :=
  if decide (k = 1%positive) then TCall TClose (fun _ => TDone) else TDone.

Lemma answers_ok k args : script_ok (answers k args).
Proof. unfold answers. by case_decide. Qed.
Lemma closes_ok k args : script_ok (closes k args).
Proof. unfold closes. by case_decide. Qed.

Definition started : outcome (tconn (list Z) * list sockopt) := tcpd_connect env table ∅ (mk_store ∅ ∅).
Definition client : tconn (list Z) := match started with Ret (w, _) => w | _ => new_tconn (tcpd_base_conn_init TCPD_CONN_TYPE_CLIENT) true (no_bev [] []) ∅ (mk_store ∅ ∅) end.

Lemma sample_fits : fits_in (2 ^ 40) table.
Proof.
  assert (E : forallb (fun b => (0 <=? b) && (b <? 256)) (key_text table) = true /\ (2 * Zlen (key_text table) + 130 <=? 2 ^ 40) = true).
  { vm_compute. done. }
  destruct E as [Eb El]. split; [|lia]. apply forallb_Forall in Eb. eapply Forall_impl; [exact Eb|]. intros b Hb. cbv beta in Hb. unfold is_byte. lia.
Qed.
Lemma client_reach body mem : tcpd_reach LNil body (2 ^ 40) mem ∅ client.
Proof.
  assert (E : exists opts, started = Ret (client, opts)) by (eexists; vm_compute; reflexivity).
  destruct E as [opts E]. eapply (tr_connect _ _ _ mem ∅ env table (mk_store ∅ ∅)); [|exact E].
  split; [done|]. split; [done|]. split; [done|]. split; [by intros k a|]. apply sample_fits.
Qed.

(** Three bytes have arrived. *)
Definition waiting : tconn (list Z) := arrive [97; 98; 99] client.
Lemma waiting_reach body mem : tcpd_reach LNil body (2 ^ 40) mem ∅ waiting.
Proof.
  eapply (tr_step _ _ _ mem ∅ (OpArrive [97; 98; 99]) client); [apply client_reach| |reflexivity].
  split; [by repeat constructor|]. vm_compute. discriminate.
Qed.
Definition eof : events := mk_events false true false false true false.
Definition no_causes : causes := mk_causes 0 0 None (fun _ => []) (fun _ => []).
End ClientSample.

Import ClientSample.

Lemma sample_bounds : 2 ^ 32 <= 2 ^ 40 < 2 ^ 62.
Proof. split; reflexivity || discriminate. Qed.

Lemma tcpd_connection_safe_witness : c_buf (t_conn waiting) = true /\
  exists w, tcpd_exec LNil answers (OpRead true) waiting = Ret w.
Proof.
  destruct (tcpd_connection_safe LNil answers (2 ^ 40) zero_alloc_upto sample_bounds answers_ok true ∅ waiting (waiting_reach answers true)) as (Hs & Hb & _).
  split; [vm_compute; reflexivity|]. apply Hs. intros _. reflexivity.
Defined.

Lemma tcpd_connection_released_witness : exists w, tcpd_exec LNil answers (OpEvent eof no_causes true true) waiting = Ret w /\
  b_live (t_bev w) = false /\ t_reg w = ∅.
Proof.
  destruct (tcpd_exec LNil answers (OpEvent eof no_causes true true) waiting) as [w| |] eqn:E; [|vm_compute in E; discriminate..].
  exists w. split; [reflexivity|].
  destruct (tcpd_connection_released LNil answers (2 ^ 40) zero_alloc_upto sample_bounds answers_ok true ∅ waiting
    (OpEvent eof no_causes true true) w (waiting_reach answers true)) as (Hl & _ & Hc & _).
  - vm_compute. reflexivity.
  - split; [reflexivity|]. intros _. split; reflexivity.
  - vm_compute. reflexivity.
  - exact E.
  - split; [exact Hl|]. apply Hc. vm_compute. reflexivity.
Defined.

Lemma tcpd_delivery_witness : exists w, tcpd_exec LNil answers (OpEvent eof no_causes true true) waiting = Ret w /\
  delivered w = [97; 98; 99].
Proof.
  destruct (tcpd_exec LNil answers (OpEvent eof no_causes true true) waiting) as [w| |] eqn:E; [|vm_compute in E; discriminate..].
  exists w. split; [reflexivity|].
  destruct (tcpd_delivery LNil answers (2 ^ 40) zero_alloc_upto sample_bounds answers_ok ∅ waiting (waiting_reach answers true)) as (_ & _ & _ & Hd).
  destruct (Hd eof no_causes w) as [Hw _]; [vm_compute; reflexivity|repeat split|vm_compute; reflexivity|vm_compute; by eexists|vm_compute; by eexists|exact E|].
  rewrite Hw. vm_compute. reflexivity.
Defined.

Lemma tcpd_read_all_oneshot_witness : exists rest, @read_all _ list_evbuffer zero_alloc 0 [1; 2; 3] = Ret ([1; 2; 3], rest).
Proof.
  destruct (tcpd_read_all_oneshot (2 ^ 40) zero_alloc_upto sample_bounds 0 [1; 2; 3]) as (rest & E & _);
    [repeat constructor; discriminate|vm_compute; discriminate|]. exists rest. exact E.
Defined.

(** The script closes in [onread], or lets the object be collected there. *)
Lemma tcpd_eof_let_go_witness :
  (exists w, tcpd_exec LNil closes (OpEvent eof no_causes true true) waiting = Ret w /\ t_misuse w = true /\ t_calls w = [CbRead [97; 98; 99]]) /\
  tcpd_exec LNil (fun _ _ => TCall TCollect (fun _ => TDone)) (OpEvent eof no_causes true true) waiting = UB.
Proof.
  destruct (onReadRef (t_conn waiting)) as [r|] eqn:Er; [|vm_compute in Er; discriminate].
  destruct (tcpd_eof_let_go LNil closes (2 ^ 40) zero_alloc_upto sample_bounds closes_ok true ∅ eof no_causes r 1 waiting (waiting_reach closes true)) as [Ha Hb].
  - vm_compute. reflexivity.
  - repeat split.
  - vm_compute. discriminate.
  - exact Er.
  - vm_compute in Er. injection Er as <-. vm_compute. reflexivity.
  - split.
    + destruct Ha as (w & E & Hm & Hc); [reflexivity|]. exists w. split; [exact E|]. split; [exact Hm|]. rewrite Hc. vm_compute. reflexivity.
    + apply Hb. reflexivity.
Defined.
