(* ===== verification/TcpdListen.v ===== *)
(** * What holds of a TCP server

    The server object through any sequence of rebinding, accepting, closing, and
    whatever others do to the registry and the TLS contexts meanwhile: which
    listeners are alive, what they are bound to, and why a server with TLS does not
    last. *)

From S2P Require Import Prelude ByteArray Lua LuaState Double Evhttp Registry TcpdConfig TcpdSsl Tcpd TcpdServer TcpdLife.

Section Listen.
Context {E T : Type} `{Evbuffer E} `{LuaTable T} `{Allocator} `{LuaAPI}.
Context (self conn : lua_value) (body : positive -> list lua_value -> tscript T).
Context (M : Z) (HM : mem_upto M) (HM2 : 2 ^ 32 <= M < 2 ^ 62) (Hbody : forall k args, script_ok (body k args)).
Implicit Type z : tserver.

(** The address a server asks for, and the name it must resolve for it. *)
Definition address (s : tcpd_server_t) : bind_addr :=
  match s_unix_path s, s_host s with
  | Some path, _ => BindUnix (sun_path path)
  | None, Some host => BindHost (s_ipv6 s) host (portbuf (s_port s))
  | None, None => BindAny (s_ipv6 s) (u16 (s_port s))
  end.
Definition resolved (v : bind_env) (s : tcpd_server_t) : bool :=
  match s_unix_path s, s_host s with
  | None, Some host => v_resolves v (s_ipv6 s) host (portbuf (s_port s))
  | _, _ => true
  end.

Definition srefs (s : tcpd_server_t) : list positive := opt_list (onAcceptRef s) ++ opt_list (onSSLHostNameRef s).
Definition live_of (L : gmap positive bind_addr) z : Prop :=
  match s_listener (z_server z) with
  | Some l => L !! l = None /\ exists a, z_live z = <[l := a]> L
  | None => z_live z = L
  end.
(** [L]: the listeners of others. *)
Record s_inv (L : gmap positive bind_addr) z : Prop := {
  j_live : live_of L z;
  j_nodup : NoDup (srefs (z_server z));
  j_refs : forall r, r ∈ srefs (z_server z) -> exists k, z_reg z !! r = Some (RFun k);
  j_ssl : forall a, s_ssl_ctx (z_server z) = Some a -> is_Some (contexts (z_ssl z) !! a)
}.

Lemma free_spec L z : live_of L z ->
  evconnlistener_free z = Ret (mk_tserver (set_listener None (z_server z)) L (z_reg z) (z_ssl z)).
Proof.
  unfold live_of, evconnlistener_free. destruct z as [[l ? ? ? ? ? ? ? ?] live reg ssl]. cbn. destruct l as [l|]; [|by intros ->].
  intros (Hl & a & ->). rewrite lookup_insert_eq. by rewrite delete_insert_id.
Qed.

Lemma new_bind_live L v a z : z_live z = L -> live_of L (evconnlistener_new_bind v a z).
Proof.
  intros <-. unfold evconnlistener_new_bind, live_of. destruct (v_listens v a); [|done]. cbn. split; [|by eexists].
  apply not_elem_of_dom, is_fresh.
Qed.

(** Rebinding replaces the listener; it fails when the host does not resolve. *)
Lemma rebind_spec L v z : s_inv L z ->
  exists r z', tcpd_server_rebind v z = Ret (r, z') /\ s_inv L z' /\
    z_reg z' = z_reg z /\ z_ssl z' = z_ssl z /\ (forall l, set_listener l (z_server z') = set_listener l (z_server z)) /\
    (r = Ret tt <-> resolved v (z_server z) = true) /\
    (r <> UB) /\
    (resolved v (z_server z) = true -> v_listens v (address (z_server z)) = true ->
       exists l, s_listener (z_server z') = Some l /\ z_live z' !! l = Some (address (z_server z))) /\
    (resolved v (z_server z) && v_listens v (address (z_server z)) = false -> s_listener (z_server z') = None).
Proof.
  intros [J1 J2 J3 J4]. unfold tcpd_server_rebind. rewrite (free_spec L z J1). cbn [mbind outcome_bind].
  set (z0 := mk_tserver (set_listener None (z_server z)) L (z_reg z) (z_ssl z)).
  assert (Hbind : forall a, address (z_server z) = a -> resolved v (z_server z) = true -> exists r z',
    mret (Ret tt, evconnlistener_new_bind v a z0) = Ret (r, z') /\ s_inv L z' /\
    z_reg z' = z_reg z /\ z_ssl z' = z_ssl z /\ (forall l, set_listener l (z_server z') = set_listener l (z_server z)) /\
    (r = Ret tt <-> resolved v (z_server z) = true) /\ (r <> UB) /\
    (resolved v (z_server z) = true -> v_listens v (address (z_server z)) = true ->
       exists l, s_listener (z_server z') = Some l /\ z_live z' !! l = Some (address (z_server z))) /\
    (resolved v (z_server z) && v_listens v (address (z_server z)) = false -> s_listener (z_server z') = None)).
  { intros a -> Hres. rewrite Hres. eexists _, _. split; [reflexivity|]. split.
    { constructor; [by apply new_bind_live|..]; unfold evconnlistener_new_bind; by destruct (v_listens v a). }
    unfold evconnlistener_new_bind. destruct (v_listens v a) eqn:Ev; cbn; repeat split; try done.
    intros _ _. eexists. split; [reflexivity|]. apply lookup_insert_eq. }
  revert Hbind. unfold address, resolved. change (s_unix_path (z_server z0)) with (s_unix_path (z_server z)).
  change (s_host (z_server z0)) with (s_host (z_server z)). change (s_ipv6 (z_server z0)) with (s_ipv6 (z_server z)).
  change (s_port (z_server z0)) with (s_port (z_server z)).
  destruct (s_unix_path (z_server z)) as [path|]; [intros Hb; by apply Hb|]. destruct (s_host (z_server z)) as [host|]; [|intros Hb; by apply Hb].
  destruct (v_resolves v (s_ipv6 (z_server z)) host (portbuf (s_port (z_server z)))); intros Hb; [by apply Hb|].
  eexists _, _. split; [reflexivity|]. split; [by constructor|]. repeat split; done.
Qed.

(** Accepting changes nothing of the server but adds to the registry. *)
Lemma accept_keeps ok v z : accept_ok v z -> returns (tcpd_server_listener_cb self conn body ok v z)
  (fun r => z_server r.2 = z_server z /\ z_live r.2 = z_live z /\ z_reg z ⊆ z_reg r.2 /\ z_ssl r.2 = z_ssl z).
Proof.
  intros Hv. destruct (accepted_good M HM2 true v z Hv) as [Hi _]. destruct Hv as (_ & _ & Hctx). unfold tcpd_server_listener_cb.
  destruct (onAcceptRef (z_server z)) as [r|]; [|done]. destruct ok; [|done]. cbn [negb]. set (w := new_tconn _ _ _ _ _) in *.
  cbn [luaL_ref]. destruct (thread_inv _ w Hi) as [HF Hi1]. set (th := fresh (dom (t_reg w))) in *.
  destruct (t_reg _ !! r) as [[k|]|]; [|done|done].
  eapply (returns_bind _ _ (fun _ => True)). { unfold server_bev. destruct (s_ssl_ctx (z_server z)) as [a|]; [|done]. by destruct (Hctx a eq_refl) as [c ->]. }
  intros bev _. destruct bev; [|done]. destruct (tcpd_config_apply_buffers _ _ _) as [? l1]. destruct (tcpd_config_apply_keepalive _ _ _) as [? l2].
  eapply returns_bind; [apply (script_keeps (<[th := RThread]> (z_reg z)))|]; [destruct Hi1 as [[] ? ? ? ? ?]; constructor; try done; constructor; done|done|apply Hbody|].
  intros w2 (Hi2 & [Hl2 _] & _). destruct (unthread_inv _ w2 th HF Hi2) as (w3 & -> & Hi3 & E1). cbn. split; [done|]. split; [done|].
  split; [apply (k_reg _ _ (i_core _ _ Hi3))|]. rewrite E1. destruct (f_ssl _ _ Hl2) as [[_ Hs]|(a & Hs & _)]; [exact Hs|done].
Qed.

(** Closing releases both references, the listener and the context. *)
Lemma server_gc_spec L z : s_inv L z -> exists z', tcpd_server_gc z = Ret z' /\ s_inv L z' /\ z_live z' = L /\
  srefs (z_server z') = [] /\ s_listener (z_server z') = None /\ s_ssl_ctx (z_server z') = None /\
  address (z_server z') = BindAny (s_ipv6 (z_server z)) (u16 (s_port (z_server z))) /\
  (forall r, r ∈ srefs (z_server z) -> z_reg z' !! r = None) /\
  (forall r, r ∉ srefs (z_server z) -> z_reg z' !! r = z_reg z !! r).
Proof.
  intros [J1 J2 J3 J4]. unfold tcpd_server_gc. set (s := z_server z) in *. unfold srefs in J2, J3 |- *.
  assert (Hu : exists reg, (reg ← TcpdServer.unref (onAcceptRef s) (z_reg z); TcpdServer.unref (onSSLHostNameRef s) reg) = Ret reg /\
    (forall r, r ∈ opt_list (onAcceptRef s) ++ opt_list (onSSLHostNameRef s) -> reg !! r = None) /\
    (forall r, r ∉ opt_list (onAcceptRef s) ++ opt_list (onSSLHostNameRef s) -> reg !! r = z_reg z !! r)).
  { destruct (onAcceptRef s) as [a|], (onSSLHostNameRef s) as [h|]; cbn [opt_list app] in *.
    - apply NoDup_cons in J2 as [Hah _]. destruct (J3 a) as [k Hk]; [by left|]. destruct (J3 h) as [k2 Hk2]; [right; by left|].
      assert (a <> h) by (intros ->; apply Hah; by left). cbn [TcpdServer.unref mbind outcome_bind]. rewrite Hk. cbn [mbind outcome_bind TcpdServer.unref].
      rewrite lookup_delete_ne, Hk2 by done. eexists. split; [reflexivity|]. split.
      + intros r Hr. apply elem_of_cons in Hr as [->|Hr]; [|apply list_elem_of_singleton in Hr as ->]; [|apply lookup_delete_eq].
        rewrite lookup_delete_ne by done. apply lookup_delete_eq.
      + intros r Hr. rewrite !not_elem_of_cons in Hr. rewrite !lookup_delete_ne by (intros ->; tauto). done.
    - destruct (J3 a) as [k Hk]; [by left|]. cbn. rewrite Hk. cbn. eexists. split; [reflexivity|]. split.
      + intros r Hr. apply list_elem_of_singleton in Hr as ->. apply lookup_delete_eq.
      + intros r Hr. rewrite not_elem_of_cons in Hr. rewrite lookup_delete_ne by (intros ->; tauto). done.
    - destruct (J3 h) as [k Hk]; [by left|]. cbn. rewrite Hk. eexists. split; [reflexivity|]. split.
      + intros r Hr. apply list_elem_of_singleton in Hr as ->. apply lookup_delete_eq.
      + intros r Hr. rewrite not_elem_of_cons in Hr. rewrite lookup_delete_ne by (intros ->; tauto). done.
    - cbn. eexists. split; [reflexivity|]. split; [|done]. intros r Hr. by apply not_elem_of_nil in Hr. }
  destruct Hu as (reg & Hu & Hdel & Hkeep). destruct (TcpdServer.unref (onAcceptRef s) (z_reg z)) as [r1| |]; [|done..].
  cbn [mbind outcome_bind] in *. rewrite Hu. cbn [mbind outcome_bind].
  rewrite (free_spec L) by exact J1. cbn [mbind outcome_bind z_server z_live z_reg z_ssl].
  assert (Hs : exists ssl, match s_ssl_ctx s with Some a => tcpd_ssl_context_release a true (z_ssl z) | None => Ret (z_ssl z) end = Ret ssl).
  { destruct (s_ssl_ctx s) as [a|]; [|by eexists]. destruct (J4 a eq_refl) as [c Hc]. unfold tcpd_ssl_context_release. rewrite Hc.
    repeat case_match; by eexists. }
  destruct Hs as [ssl ->]. cbn [mbind outcome_bind mret outcome_ret]. eexists. split; [reflexivity|]. split; [|done].
  constructor; cbn; try done; [by apply NoDup_nil|]. intros r Hr. by apply not_elem_of_nil in Hr.
Qed.

(** ** The life of a server *)

(** [SOther]: what scripts and other objects do to the registry and the contexts
    meanwhile. *)
Inductive server_op : Type :=
  | SRebind (v : bind_env)
  | SAccept (ok : bool) (v : accept_env (E := E))
  | SClose
  | SOther (reg : gmap positive regval) (ssl : ssl_store).

Definition server_exec (o : server_op) z : outcome tserver :=
  match o with
  | SRebind v => '(_, z) ← lua_tcpd_server_rebind v z; mret z
  | SAccept ok v => '(_, z) ← tcpd_server_listener_cb self conn body ok v z; mret z
  | SClose => tcpd_server_gc z
  | SOther reg ssl => mret (mk_tserver (z_server z) (z_live z) reg ssl)
  end.
(** Only a live listener accepts; nobody else releases the server's references, and
    the context of a server with TLS is kept alive, which is up to the script that
    got it from [bind] ([tcpd_tls_server_lost]). *)
Definition server_enabled (o : server_op) z : Prop :=
  match o with
  | SAccept ok v => is_Some (s_listener (z_server z)) /\ accept_ok v z
  | SOther reg ssl => (forall r, r ∈ srefs (z_server z) -> reg !! r = z_reg z !! r) /\
      (forall a, s_ssl_ctx (z_server z) = Some a -> is_Some (contexts ssl !! a))
  | _ => True
  end.

Lemma server_exec_inv L o z : s_inv L z -> server_enabled o z -> returns (server_exec o z) (s_inv L).
Proof.
  intros Hi He. destruct o as [v|ok v| |reg ssl]; cbn [server_exec server_enabled] in *.
  - destruct (rebind_spec L v z Hi) as (r & z' & E1 & Hi' & _). unfold lua_tcpd_server_rebind. rewrite E1. exact Hi'.
  - destruct He as [_ Hv]. eapply returns_bind; [by apply (accept_keeps ok v z Hv)|]. intros [r z'] (E1 & E2 & E3 & E4). cbn [snd] in *.
    destruct Hi as [J1 J2 J3 J4]. constructor; unfold live_of in *; rewrite ?E1, ?E2, ?E4; try done.
    intros x Hx. destruct (J3 x Hx) as [k Hk]. exists k. by eapply lookup_weaken.
  - destruct (server_gc_spec L z Hi) as (z' & -> & Hi' & _). exact Hi'.
  - destruct Hi as [J1 J2 J3 J4], He as [He1 He2]. constructor; try done. intros r Hr. cbn in *. rewrite He1 by done. by apply J3.
Qed.

(** A server comes from a [bind], with any settings. *)
Inductive server_reach (L : gmap positive bind_addr) : tserver -> Prop :=
  | sr_bind v t reg ssl r z : tcpd_bind self v t L reg ssl = Ret (r, z) -> server_reach L z
  | sr_step o z z' : server_reach L z -> server_enabled o z -> server_exec o z = Ret z' -> server_reach L z'.

Lemma reg_func_spec (t : T) key reg l : NoDup l -> (forall r, r ∈ l -> exists k, reg !! r = Some (RFun k)) ->
  let '(r, reg') := reg_func t key reg in
  NoDup (l ++ opt_list r) /\ (forall x, x ∈ l ++ opt_list r -> exists k, reg' !! x = Some (RFun k)).
Proof.
  intros Hn Hl. unfold reg_func. destruct (field_of t key) as [| | | | | |k|] eqn:Ek; try (rewrite app_nil_r; by split).
  cbn [opt_list]. set (f := fresh (dom reg)). assert (Hf : f ∉ l).
  { intros Hin. destruct (Hl f Hin) as [k' Hk']. apply (is_fresh (dom reg)). fold f. by apply elem_of_dom_2 in Hk'. }
  split; [apply NoDup_app; split; [done|]; split; [|by apply NoDup_singleton]|].
  - intros x Hx Hx2. apply list_elem_of_singleton in Hx2 as ->. done.
  - intros x Hx. destruct (decide (f = x)) as [<-|]; [exists k; apply lookup_insert_eq|]. rewrite lookup_insert_ne by done.
    apply elem_of_app in Hx as [Hx|Hx]; [by apply Hl|]. by apply list_elem_of_singleton in Hx as ->.
Qed.

(** The server as [tcpd_bind] makes it, before it listens. *)
Lemma bind_start L v t reg ssl : exists z0, s_inv L z0 /\ z_live z0 = L /\ s_listener (z_server z0) = None /\
  s_config (z_server z0) = tcpd_config_from_lua_table (v_ifindex_of v) t /\
  (s_ssl_ctx (z_server z0), z_ssl z0) = server_tls v t (s_config (z_server z0)) ssl /\
  s_host (z_server z0) = dup_str t "host" /\ s_unix_path (z_server z0) = dup_str t "unix_path" /\ s_port (z_server z0) = set_int t "port" /\
  tcpd_bind self v t L reg ssl = ('(r, z) ← tcpd_server_rebind v z0;
    match r with
    | Ret _ =>
        match s_listener (z_server z) with
        | None => mret (Ret [], z)
        | Some _ =>
            let z := if s_port (z_server z) =? 0 then on_server (set_port (regress_get_socket_port (v_sockname v))) z else z in
            mret (Ret [match s_ssl_ctx (z_server z0) with Some a => LUserdata a | None => self end; LInt (s_port (z_server z))], z)
        end
    | Raise e => mret (Raise e, z)
    | UB => UB
    end).
Proof.
  unfold tcpd_bind. pose proof (reg_func_spec t "onaccept" reg [] (NoDup_nil_2) (fun r Hr => False_ind _ (not_elem_of_nil r Hr))) as H1'.
  destruct (reg_func t "onaccept" reg) as [a g1]. destruct H1' as [N1 R1]. cbn [app] in N1, R1.
  pose proof (reg_func_spec t "onsslhostname" g1 (opt_list a) N1 R1) as H2'.
  destruct (reg_func t "onsslhostname" g1) as [h g2]. destruct H2' as [N2 R2].
  destruct (server_tls v t (tcpd_config_from_lua_table (v_ifindex_of v) t) ssl) as [c s] eqn:Et.
  eexists (mk_tserver (mk_server None a h (dup_str t "host") (set_int t "port") (lua_toboolean (field_of t "ipv6"))
    (dup_str t "unix_path") (tcpd_config_from_lua_table (v_ifindex_of v) t) c) L g2 s).
  split; [constructor; try done|].
  { cbn. intros x ->. unfold server_tls in Et. destruct (ssl_enabled _); [|by simplify_eq].
    cbn [tcpd_ssl_context_create] in Et. set (f := fresh (dom (contexts ssl))) in *. cbn [put_context contexts] in Et.
    rewrite lookup_insert_eq in Et. injection Et as <- <-. cbn. rewrite lookup_insert_eq. by eexists. }
  do 5 (split; [done|]). split; [done|]. split; [done|].
  reflexivity.
Qed.

Lemma set_port_inv L p z : s_inv L z -> s_inv L (on_server (set_port p) z).
Proof. intros [J1 J2 J3 J4]. by constructor. Qed.

Lemma server_reach_inv L z : server_reach L z -> s_inv L z.
Proof.
  induction 1 as [v t reg ssl r z E1|o z z' _ IH He E1].
  - destruct (bind_start L v t reg ssl) as (z0 & Hi & _ & _ & _ & _ & _ & _ & _ & Hb). rewrite Hb in E1.
    destruct (rebind_spec L v z0 Hi) as (r1 & z1 & E2 & Hi1 & _). rewrite E2 in E1. cbn [mbind outcome_bind mret outcome_ret] in E1.
    destruct r1; unfold mret, outcome_ret in E1; [|by simplify_eq|done]. destruct (s_listener (z_server z1)); [|by simplify_eq].
    injection E1 as _ <-. destruct (s_port (z_server z1) =? 0); [by apply set_port_inv|done].
  - pose proof (server_exec_inv L o z IH He) as Hs. by rewrite E1 in Hs.
Qed.

Lemma rebind_listens L v z : s_inv L z -> resolved v (z_server z) = true -> v_listens v (address (z_server z)) = true ->
  exists z' l, server_exec (SRebind v) z = Ret z' /\ s_listener (z_server z') = Some l /\ z_live z' = <[l := address (z_server z)]> L.
Proof.
  intros Hi Hr Hl. destruct (rebind_spec L v z Hi) as (r & z' & E1 & Hi' & _ & _ & _ & _ & _ & Hlisten & _).
  destruct (Hlisten Hr Hl) as (l & Hl1 & Hl2). exists z', l. cbn [server_exec]. unfold lua_tcpd_server_rebind. rewrite E1.
  split; [done|]. split; [done|]. pose proof (j_live _ _ Hi') as Hlive. unfold live_of in Hlive. rewrite Hl1 in Hlive.
  destruct Hlive as (_ & a & Ha). rewrite Ha, lookup_insert_eq in Hl2. congruence.
Qed.

(** C18: a server, with TLS or without, keeps one listener and gives everything
    back.  Under any sequence of rebinding, accepting, closing and collection, and
    of anything done elsewhere that leaves the server's references and, while it
    lives, the TLS context of a server with one alone, every step returns; of the live listeners
    at most one is the server's, and the registry holds a function for each of its
    references; rebinding, when the host resolves and the address is free, leaves
    one listener, on the address of the settings; closing leaves none and no
    reference, and no connection is accepted any more.  But closing forgets host
    and path and not the port, so rebinding a closed server listens on every
    interface.  That the context of a server with TLS lives is up to the script:
    the server does not keep it ([tcpd_tls_server_lost]). *)
Theorem tcpd_server_listens L z : server_reach L z ->
  (forall o, server_enabled o z -> exists z', server_exec o z = Ret z') /\
  live_of L z /\ (forall r, r ∈ srefs (z_server z) -> exists k, z_reg z !! r = Some (RFun k)) /\
  (forall v, resolved v (z_server z) = true -> v_listens v (address (z_server z)) = true ->
     exists z' l, server_exec (SRebind v) z = Ret z' /\ s_listener (z_server z') = Some l /\ z_live z' = <[l := address (z_server z)]> L) /\
  (exists z', server_exec SClose z = Ret z' /\ z_live z' = L /\ srefs (z_server z') = [] /\
     (forall ok v, tcpd_server_listener_cb self conn body ok v z' = Ret (None, z')) /\
     (forall v, v_listens v (BindAny (s_ipv6 (z_server z)) (u16 (s_port (z_server z)))) = true -> exists z2 l,
        server_exec (SRebind v) z' = Ret z2 /\ z_live z2 = <[l := BindAny (s_ipv6 (z_server z)) (u16 (s_port (z_server z)))]> L)).
Proof.
  intros Hr. pose proof (server_reach_inv L z Hr) as Hi. split; [|split; [apply Hi|split; [apply Hi|split]]].
  - intros o He. destruct (returns_inv _ _ (server_exec_inv L o z Hi He)) as (z' & ? & _). by exists z'.
  - intros v Hres Hl. by apply rebind_listens.
  - destruct (server_gc_spec L z Hi) as (z' & E1 & Hi' & Hlive & Hrefs & _ & _ & Haddr & _). exists z'. split; [done|]. split; [done|]. split; [done|].
    split.
    + intros ok v. unfold tcpd_server_listener_cb. unfold srefs in Hrefs. by destruct (onAcceptRef (z_server z')).
    + intros v Hl. destruct (rebind_listens L v z' Hi') as (z2 & l & E2 & _ & E3); [|by rewrite Haddr|].
      * unfold address, resolved in *. destruct (s_unix_path (z_server z')); [done|]. by destruct (s_host (z_server z')).
      * exists z2, l. by rewrite <- Haddr.
Qed.

(** A server with TLS is lost to the collector.  [bind] leaves the new TLS
    context on the stack above the server and returns the two topmost values: the
    script gets the context and the port, never the server, which only the weak
    table still knows; and nothing but that return value keeps the context, which
    is in no registry field: once it is collected, accepting a connection reads
    freed memory. *)
Theorem tcpd_tls_server_lost v t L reg ssl vs z : ssl_enabled (tcpd_config_from_lua_table (v_ifindex_of v) t) = true ->
  ssl_ok ssl -> tcpd_bind self v t L reg ssl = Ret (Ret vs, z) -> s_listener (z_server z) <> None ->
  exists a, vs = [LUserdata a; LInt (s_port (z_server z))] /\ s_ssl_ctx (z_server z) = Some a /\
    (forall k, cache (z_ssl z) !! k <> Some a) /\
    (forall r k v2, onAcceptRef (z_server z) = Some r -> z_reg z !! r = Some (RFun k) ->
       tcpd_server_listener_cb self conn body true v2
         (mk_tserver (z_server z) (z_live z) (z_reg z) (tcpd_ssl_context_gc a (z_ssl z))) = UB).
Proof.
  intros Hssl Hok E1 Hl. destruct (bind_start L v t reg ssl) as (z0 & Hi & _ & _ & Hcfg & Htls & _ & _ & _ & Hb). rewrite Hb in E1. clear Hb.
  rewrite Hcfg in Htls. unfold server_tls in Htls. rewrite Hssl in Htls. cbn [tcpd_ssl_context_create] in Htls.
  set (a := fresh (dom (contexts ssl))) in *. cbn [put_context contexts] in Htls. rewrite lookup_insert_eq in Htls. injection Htls as Ha Hs.
  destruct (rebind_spec L v z0 Hi) as (r1 & z1 & E2 & Hi1 & Hreg & Hssl1 & Hset & _). rewrite E2 in E1. cbn [mbind outcome_bind mret outcome_ret] in E1.
  destruct r1; unfold mret, outcome_ret in E1; [|done..]. destruct (s_listener (z_server z1)) eqn:El; [|injection E1 as _ <-; congruence]. rewrite Ha in E1.
  assert (Hctx : s_ssl_ctx (z_server z1) = Some a). { pose proof (f_equal s_ssl_ctx (Hset None)) as Hc. cbn in Hc. congruence. }
  set (z2 := if s_port (z_server z1) =? 0 then _ else z1) in E1.
  assert (H2' : s_ssl_ctx (z_server z2) = Some a /\ z_ssl z2 = z_ssl z1) by (unfold z2; by destruct (s_port (z_server z1) =? 0)). clearbody z2. injection E1 as <- <-.
  destruct H2' as [Hctx2 Hssl2]. exists a. split; [done|]. split; [done|]. split.
  - intros k. rewrite Hssl2, Hssl1, Hs. cbn. intros Hk. destruct (Hok k a Hk) as [c Hc]. apply (is_fresh (dom (contexts ssl))). fold a. by apply elem_of_dom_2 in Hc.
  - intros r k v2 Hr Hk. unfold tcpd_server_listener_cb. cbn [z_server z_reg z_ssl]. rewrite Hr. cbn [negb luaL_ref new_tconn t_reg put_reg].
    rewrite lookup_insert_ne, Hk.
    2:{ intros E3. apply (is_fresh (dom (z_reg z2))). rewrite E3. by apply elem_of_dom_2 in Hk. }
    unfold server_bev. cbn [z_server z_ssl tcpd_ssl_context_gc contexts]. by rewrite Hctx2, lookup_delete_eq.
Qed.
End Listen.

Module ServerSample.
#[export] Existing Instances list_evbuffer assoc_table zero_alloc plain_lua.

Definition plain : alist := [(LStr (lit "onaccept"), LFun 1); (LStr (lit "host"), LStr (lit "127.0.0.1")); (LStr (lit "port"), LInt 8080)].
Definition secure : alist := (LStr (lit "ssl"), LBool true) :: plain.
Definition env : bind_env := mk_bind (fun _ _ _ => true) (fun _ => true) NoName (fun _ => 0) true.
Definition no_script (k : positive) (args : list lua_value) : tscript alist := TDone.

Definition made (t : alist) : tserver :=
  match tcpd_bind LNil env t ∅ ∅ (mk_store ∅ ∅) with Ret (_, z) => z | _ => mk_tserver (mk_server None None None None 0 false None tcpd_config_init None) ∅ ∅ (mk_store ∅ ∅) end.
Lemma made_reach : server_reach (E := list Z) LNil LNil no_script ∅ (made plain).
Proof.
  assert (E : exists r, tcpd_bind LNil env plain ∅ ∅ (mk_store ∅ ∅) = Ret (r, made plain)) by (eexists; vm_compute; reflexivity).
  destruct E as [r E]. eapply (sr_bind _ _ _ ∅ env plain). exact E.
Qed.
(** A server with TLS is one of those the theorem is about. *)
Example made_secure_reach :
  server_reach (E := list Z) LNil LNil no_script ∅ (made secure) /\ is_Some (s_ssl_ctx (z_server (made secure))).
Proof.
  assert (E : exists r, tcpd_bind LNil env secure ∅ ∅ (mk_store ∅ ∅) = Ret (r, made secure)) by (eexists; vm_compute; reflexivity).
  destruct E as [r E]. split; [eapply (sr_bind _ _ _ ∅ env secure); exact E|vm_compute; by eexists].
Qed.
End ServerSample.
Import ServerSample.

(** A server bound to one address, closed and rebound, listens on all of them. *)
Lemma tcpd_server_listens_witness : address (z_server (made plain)) = BindHost false (lit "127.0.0.1") (lit "8080") /\
  exists z z2 l, @server_exec _ _ list_evbuffer assoc_table plain_lua LNil LNil no_script SClose (made plain) = Ret z /\
    @server_exec _ _ list_evbuffer assoc_table plain_lua LNil LNil no_script (SRebind env) z = Ret z2 /\
    z_live z2 = {[l := BindAny false 8080]}.
Proof.
  destruct (tcpd_server_listens (E := list Z) LNil LNil no_script (2 ^ 40) ltac:(split; reflexivity || discriminate)
    (fun _ _ => I) ∅ (made plain) made_reach) as (_ & _ & _ & _ & (z & E & _ & _ & _ & Hr)).
  split; [vm_compute; reflexivity|]. destruct (Hr env eq_refl) as (z2 & l & E2 & El). exists z, z2, l. split; [exact E|]. split; [exact E2|].
  rewrite El. vm_compute. reflexivity.
Defined.

Lemma tcpd_tls_server_lost_witness : exists a z, tcpd_bind LNil env secure ∅ ∅ (mk_store ∅ ∅) = Ret (Ret [LUserdata a; LInt (s_port (z_server z))], z) /\
  forall k, cache (z_ssl z) !! k <> Some a.
Proof.
  destruct (tcpd_bind LNil env secure ∅ ∅ (mk_store ∅ ∅)) as [[[vs| |] z]| |] eqn:E; [|vm_compute in E; discriminate..].
  destruct (tcpd_tls_server_lost (E := list Z) LNil LNil no_script env secure ∅ ∅ (mk_store ∅ ∅) vs z) as (a & -> & _ & Hc & _).
  - vm_compute. reflexivity.
  - intros k a. discriminate.
  - exact E.
  - vm_compute in E. injection E as _ <-. discriminate.
  - exists a, z. split; [reflexivity|exact Hc].
Defined.
