(* ===== verification/UdpdAddr.v ===== *)
(** * src/udpd_dest.c, src/udpd_utils.c: socket addresses and destinations

    A [struct sockaddr_storage] is its 128 bytes, in the layout of Linux: the
    family in two bytes of the host's (little-endian) order, then the port in
    network order; an IPv4 address in the four bytes from 4, an IPv6 address in the
    sixteen from 8.  The text forms of addresses are the C library's; the class
    [Inet] states what POSIX promises of them. *)

From S2P Require Import Prelude Lua.

Class Inet : Type := {
  inet_pton4 : list Z -> option (list Z);
  inet_pton6 : list Z -> option (list Z);
  inet_ntop4 : list Z -> list Z;
  inet_ntop6 : list Z -> list Z;
  inet_pton4_ok : forall s a, inet_pton4 s = Some a -> Zlen a = 4 /\ bytes_ok a;
  inet_pton6_ok : forall s a, inet_pton6 s = Some a -> Zlen a = 16 /\ bytes_ok a;
  inet_ntop4_back : forall a, Zlen a = 4 -> bytes_ok a -> inet_pton4 (inet_ntop4 a) = Some a;
  inet_ntop6_back : forall a, Zlen a = 16 -> bytes_ok a ->
    inet_pton6 (inet_ntop6 a) = Some a /\ inet_pton4 (inet_ntop6 a) = None;
  inet_ntop4_text : forall a, Forall (fun c => c <> 0) (inet_ntop4 a);
  inet_ntop6_text : forall a, Forall (fun c => c <> 0) (inet_ntop6 a)
}.

Definition AF_INET : Z := 2.
Definition AF_INET6 : Z := 10.
Definition SS_SIZE : Z := 128.
Definition SIZEOF_SOCKADDR_IN : Z := 16.
Definition SIZEOF_SOCKADDR_IN6 : Z := 28.

Definition zeros (n : Z) : list Z := repeat 0 (Z.to_nat n).
(** [memcpy] over the front of an object that is long enough. *)
Definition over (data old : list Z) : list Z := data ++ zdrop (Zlen data) old.
Definition bytes_at (off n : Z) (a : list Z) : list Z := ztake n (zdrop off a).

Definition ss_family (a : list Z) : Z := le_val (bytes_at 0 2 a).
(** [ntohs] of the port, which both families keep in the same place. *)
Definition sin_port (a : list Z) : Z := be_val (bytes_at 2 2 a).
Definition sin_addr (a : list Z) : list Z := bytes_at 4 4 a.
Definition sin6_addr (a : list Z) : list Z := bytes_at 8 16 a.

(** The addresses the program writes itself, over zeros. *)
Definition sockaddr_in (port : Z) (addr : list Z) : list Z :=
  le_bytes 2 AF_INET ++ be_bytes 2 port ++ addr ++ zeros 120.
Definition sockaddr_in6 (port : Z) (addr : list Z) : list Z :=
  le_bytes 2 AF_INET6 ++ be_bytes 2 port ++ zeros 4 ++ addr ++ zeros 104.

(** The structure of a destination; [d_host] is a string of its own or [NULL]. *)
Record udpd_dest_t : Type := mk_dest {
  d_addr : list Z;
  d_addrlen : Z;
  d_host : option (list Z);
  d_port : Z
}.
#[export] Instance udpd_dest_eq_dec : EqDecision udpd_dest_t.
Proof. solve_decision. Defined.
(** On a 64-bit machine. *)
Definition SIZEOF_DEST : Z := 152.

Definition zeroed_dest : udpd_dest_t := mk_dest (zeros SS_SIZE) 0 None 0.

Section Dest.
Context `{Allocator} `{Inet}.

(** The port and the address of either family. *)
Definition udpd_is_ip_address (str : list Z) : bool :=
  match inet_pton4 str with
  | Some _ => true
  | None => match inet_pton6 str with Some _ => true | None => false end
  end.
Definition udpd_is_address_family_supported (family : Z) : bool := (family =? AF_INET) || (family =? AF_INET6).

(** The result, and what [addr] and [addrlen] point to afterwards. *)
Definition udpd_create_address_from_string (host : list Z) (port : Z) (addr : list Z) (addrlen : Z) : Z * list Z * Z :=
  if (port <=? 0) || (65535 <? port) then (-1, addr, addrlen)
  else
    match inet_pton4 host with
    | Some ip => (0, sockaddr_in port ip, SIZEOF_SOCKADDR_IN)
    | None =>
        match inet_pton6 host with
        | Some ip => (0, sockaddr_in6 port ip, SIZEOF_SOCKADDR_IN6)
        | None => (-1, zeros SS_SIZE, addrlen)
        end
    end.

Definition address_port (addr : list Z) : Z :=
  if ss_family addr =? AF_INET then sin_port addr
  else if ss_family addr =? AF_INET6 then sin_port addr
  else 0.
Definition address_text (addr : list Z) : option (list Z) :=
  if ss_family addr =? AF_INET then Some (inet_ntop4 (sin_addr addr))
  else if ss_family addr =? AF_INET6 then Some (inet_ntop6 (sin6_addr addr))
  else None.

(** What [getsockname] says of a socket: a family without ports gives 0. *)
Definition udpd_get_socket_port (getsockname : Z -> option (list Z)) (fd : Z) : Z :=
  if fd <? 0 then 0 else match getsockname fd with Some addr => address_port addr | None => 0 end.

Definition endpoint_text (host : list Z) (port : Z) : list Z :=
  snprintf (Zlen host + 16) (host ++ lit ":" ++ dec_of_Z port).
Definition udpd_sockaddr_to_string (addr : list Z) : option (list Z) :=
  match address_text addr with
  | Some host => if malloc_ok (Zlen host + 16) then Some (endpoint_text host (address_port addr)) else None
  | None => None
  end.

(** ** Destinations *)

Definition udpd_dest_get_port (dest : udpd_dest_t) : Z := address_port (d_addr dest).
Definition udpd_dest_get_host_string (dest : udpd_dest_t) : option (list Z) :=
  match d_host dest with Some host => Some host | None => address_text (d_addr dest) end.
Definition udpd_dest_to_string (dest : udpd_dest_t) : option (list Z) :=
  match udpd_dest_get_host_string dest with
  | Some host => if malloc_ok (Zlen host + 16) then Some (endpoint_text host (udpd_dest_get_port dest)) else None
  | None => None
  end.

(** [addr] has at least [addrlen] bytes. *)
Definition udpd_dest_create (addr : list Z) (addrlen : Z) : option udpd_dest_t :=
  if addrlen =? 0 then None
  else if negb (malloc_ok SIZEOF_DEST) then None
  else if addrlen <=? SS_SIZE then
    let dest := mk_dest (over (ztake addrlen addr) (zeros SS_SIZE)) addrlen None 0 in
    Some (mk_dest (d_addr dest) (d_addrlen dest) None (udpd_dest_get_port dest))
  else None.

Definition udpd_dest_create_from_string (host : list Z) (port : Z) : option udpd_dest_t :=
  if port <=? 0 then None
  else if negb (malloc_ok SIZEOF_DEST) then None
  else
    match strdup host with
    | None => None
    | Some h =>
        let '(r, addr, addrlen) := udpd_create_address_from_string host port (zeros SS_SIZE) 0 in
        if r <? 0 then None else Some (mk_dest addr addrlen (Some h) port)
    end.

(** [memcmp] over the first destination's length. *)
Definition udpd_dest_equal (dest1 dest2 : udpd_dest_t) : bool :=
  if negb (d_addrlen dest1 =? d_addrlen dest2) then false
  else bool_decide (ztake (d_addrlen dest1) (d_addr dest1) = ztake (d_addrlen dest1) (d_addr dest2)).

Definition udpd_dest_copy (src : udpd_dest_t) : option udpd_dest_t :=
  if negb (malloc_ok SIZEOF_DEST) then None
  else
    match d_host src with
    | Some h =>
        match strdup h with
        | Some h => Some (mk_dest (d_addr src) (d_addrlen src) (Some h) (d_port src))
        | None => None
        end
    | None => Some (mk_dest (d_addr src) (d_addrlen src) None (d_port src))
    end.

(** [ntohl] of the address. *)
Definition ipv4_of (dest : udpd_dest_t) : Z := be_val (sin_addr (d_addr dest)).
Definition udpd_dest_is_multicast (dest : udpd_dest_t) : bool :=
  if negb (ss_family (d_addr dest) =? AF_INET) then false else Z.land (ipv4_of dest) 0xF0000000 =? 0xE0000000.
Definition udpd_dest_is_broadcast (dest : udpd_dest_t) : bool :=
  if negb (ss_family (d_addr dest) =? AF_INET) then false else le_val (sin_addr (d_addr dest)) =? 0xFFFFFFFF.
Definition udpd_dest_is_loopback (dest : udpd_dest_t) : bool :=
  if ss_family (d_addr dest) =? AF_INET then Z.land (ipv4_of dest) 0xFF000000 =? 0x7F000000
  else if ss_family (d_addr dest) =? AF_INET6 then bool_decide (sin6_addr (d_addr dest) = zeros 15 ++ [1])
  else false.

(** ** Destinations in Lua *)

(** [luaL_checkudata]: [None] is an argument of another type. *)
Definition check_dest (d : option udpd_dest_t) : outcome udpd_dest_t :=
  match d with Some dest => Ret dest | None => Raise (lit "bad argument") end.
Definition push_string (s : option (list Z)) : list lua_value := match s with Some s => [LStr (cstr s)] | None => [] end.

Definition lua_udpd_dest_get_host (d : option udpd_dest_t) : outcome (list lua_value) :=
  dest ← check_dest d; mret (push_string (udpd_dest_get_host_string dest)).
Definition lua_udpd_dest_get_port (d : option udpd_dest_t) : outcome (list lua_value) :=
  dest ← check_dest d; mret [LInt (udpd_dest_get_port dest)].
Definition lua_udpd_dest_get_ip (d : option udpd_dest_t) : outcome (list lua_value) :=
  dest ← check_dest d; mret (push_string (address_text (d_addr dest))).
Definition lua_udpd_dest_tostring (d : option udpd_dest_t) : outcome (list lua_value) :=
  dest ← check_dest d; mret (push_string (udpd_dest_to_string dest)).
Definition lua_udpd_dest_eq (d1 d2 : option udpd_dest_t) : outcome (list lua_value) :=
  dest1 ← check_dest d1; dest2 ← check_dest d2; mret [LBool (udpd_dest_equal dest1 dest2)].
(** The object after its string has been freed. *)
Definition lua_udpd_dest_gc (dest : udpd_dest_t) : udpd_dest_t := mk_dest (d_addr dest) (d_addrlen dest) None (d_port dest).

(** A new userdata, zeroed, for an address. *)
Definition udpd_dest_push_to_lua (addr : list Z) (addrlen : Z) : udpd_dest_t :=
  if addrlen <=? SS_SIZE then
    let dest := mk_dest (over (ztake addrlen addr) (zeros SS_SIZE)) addrlen None 0 in
    mk_dest (d_addr dest) (d_addrlen dest) None (udpd_dest_get_port dest)
  else zeroed_dest.

(** A new userdata, not zeroed: [junk] is what its memory held.  The receive and
    the resolver callbacks fill it so; [addr] is at most as long as the field. *)
Definition fresh_dest (junk addr : list Z) (host : option (list Z)) (port : option Z) : outcome udpd_dest_t :=
  if Zlen addr <=? SS_SIZE then
    let dest := mk_dest (over addr junk) (Zlen addr) host 0 in
    Ret (mk_dest (d_addr dest) (d_addrlen dest) host (default (udpd_dest_get_port dest) port))
  else UB.

(** The userdata [make_dest] returns for an address in text form; its host is
    copied, or [NULL] for lack of memory. *)
Definition userdata_of (dest : udpd_dest_t) : udpd_dest_t :=
  mk_dest (d_addr dest) (d_addrlen dest) (match d_host dest with Some h => strdup h | None => None end) (d_port dest).
End Dest.

(** ** Lemmas: fields of an address *)

Lemma Zlen_zeros n : 0 <= n -> Zlen (zeros n) = n.
Proof. intros Hn. unfold Zlen, zeros. rewrite repeat_length. lia. Qed.
Lemma bytes_at_app l k r off : off = Zlen l -> bytes_at off (Zlen k) (l ++ k ++ r) = k.
Proof. intros ->. unfold bytes_at. rewrite zdrop_app_exact by done. by rewrite ztake_app_exact. Qed.

Section Fields.
Context (port : Z) (Hport : 0 <= port < 65536).

Lemma port_back l r : Zlen l = 2 -> sin_port (l ++ be_bytes 2 port ++ r) = port.
Proof.
  intros Hl. unfold sin_port. rewrite <- (Zlen_be_bytes 2 port) at 2. rewrite bytes_at_app by done.
  rewrite be_val_bytes. apply Z.mod_small. exact Hport.
Qed.
Lemma family_back z r : 0 <= z < 65536 -> ss_family (le_bytes 2 z ++ r) = z.
Proof.
  intros Hz. unfold ss_family, bytes_at. rewrite zdrop_0, ztake_app_exact by done. rewrite le_val_bytes. by apply Z.mod_small.
Qed.

Lemma sockaddr_in_fields ip : Zlen ip = 4 ->
  Zlen (sockaddr_in port ip) = SS_SIZE /\ ss_family (sockaddr_in port ip) = AF_INET /\
  address_port (sockaddr_in port ip) = port /\ sin_addr (sockaddr_in port ip) = ip.
Proof.
  intros Hip. assert (Hf : ss_family (sockaddr_in port ip) = AF_INET) by (by apply family_back).
  split; [unfold sockaddr_in; rewrite !Zlen_app, Hip; reflexivity|]. split; [done|]. split.
  - unfold address_port. rewrite Hf. by apply port_back.
  - pose proof (bytes_at_app (le_bytes 2 AF_INET ++ be_bytes 2 port) ip (zeros 120) 4 eq_refl) as E.
    rewrite Hip, <- app_assoc in E. exact E.
Qed.
Lemma sockaddr_in6_fields ip : Zlen ip = 16 ->
  Zlen (sockaddr_in6 port ip) = SS_SIZE /\ ss_family (sockaddr_in6 port ip) = AF_INET6 /\
  address_port (sockaddr_in6 port ip) = port /\ sin6_addr (sockaddr_in6 port ip) = ip.
Proof.
  intros Hip. assert (Hf : ss_family (sockaddr_in6 port ip) = AF_INET6) by (by apply family_back).
  split; [unfold sockaddr_in6; rewrite !Zlen_app, Hip; reflexivity|]. split; [done|]. split.
  - unfold address_port. rewrite Hf. by apply port_back.
  - pose proof (bytes_at_app (le_bytes 2 AF_INET6 ++ be_bytes 2 port ++ zeros 4) ip (zeros 104) 8 eq_refl) as E.
    rewrite Hip, <- !app_assoc in E. exact E.
Qed.
End Fields.

(** ** Lemmas: destinations *)

Section Endpoints.
Context `{Allocator} `{Inet} (M : Z) (HM : mem_upto M).

Lemma strdup_upto s : Zlen s + 1 <= M -> cstr s = s -> strdup s = Some s.
Proof. intros Hs Hc. unfold strdup. rewrite Hc, (malloc_upto M) by (done || pose proof (Zlen_nonneg s); lia). done. Qed.

Lemma endpoint_whole host port : 0 <= port < 65536 -> endpoint_text host port = host ++ lit ":" ++ dec_of_Z port.
Proof.
  intros Hp. unfold endpoint_text, snprintf. apply ztake_all. unfold dec_of_Z, dec_of_nonneg. replace (port <? 0) with false by lia.
  pose proof (dec_digits_short (S (Z.to_nat (Z.log2 port))) port 5 ltac:(lia) ltac:(lia)).
  rewrite !Zlen_app. change (Zlen (lit ":")) with 1. lia.
Qed.

(** The address a text stands for. *)
Definition address_of (host : list Z) : option (Z * list Z) :=
  match inet_pton4 host with
  | Some ip => Some (AF_INET, ip)
  | None => match inet_pton6 host with Some ip => Some (AF_INET6, ip) | None => None end
  end.
Definition sockaddr_of (port : Z) (a : Z * list Z) : list Z * Z :=
  if fst a =? AF_INET then (sockaddr_in port (snd a), SIZEOF_SOCKADDR_IN) else (sockaddr_in6 port (snd a), SIZEOF_SOCKADDR_IN6).
Definition text_of (a : Z * list Z) : list Z := if fst a =? AF_INET then inet_ntop4 (snd a) else inet_ntop6 (snd a).

Lemma is_ip_address_of host : udpd_is_ip_address host = true <-> is_Some (address_of host).
Proof. unfold udpd_is_ip_address, address_of. repeat case_match; split; intros; eauto; by destruct_or?. Qed.
Lemma create_address_of host port addr addrlen : 1 <= port <= 65535 ->
  udpd_create_address_from_string host port addr addrlen =
  match address_of host with
  | Some a => (0, fst (sockaddr_of port a), snd (sockaddr_of port a))
  | None => (-1, zeros SS_SIZE, addrlen)
  end.
Proof.
  intros Hp. unfold udpd_create_address_from_string, address_of. replace ((port <=? 0) || (65535 <? port)) with false by lia.
  by repeat case_match.
Qed.
(** What is known of an address that was read. *)
Definition address_ok (a : Z * list Z) : Prop :=
  bytes_ok (snd a) /\ ((fst a = AF_INET /\ Zlen (snd a) = 4) \/ (fst a = AF_INET6 /\ Zlen (snd a) = 16)).
Lemma address_of_ok host a : address_of host = Some a -> address_ok a.
Proof.
  unfold address_of, address_ok. destruct (inet_pton4 host) eqn:E4; [intros [= <-]|destruct (inet_pton6 host) eqn:E6; [intros [= <-]|done]]; cbn.
  - apply inet_pton4_ok in E4. tauto.
  - apply inet_pton6_ok in E6. tauto.
Qed.
Lemma text_of_back a : address_ok a -> address_of (text_of a) = Some a /\ Forall (fun c => c <> 0) (text_of a).
Proof.
  destruct a as [f ip]. intros [Hb [[Hf Hl]|[Hf Hl]]]; cbn in *; subst f; unfold text_of, address_of; cbn [fst snd].
  - change (AF_INET =? AF_INET) with true. cbn iota. rewrite inet_ntop4_back by done. split; [done|apply inet_ntop4_text].
  - change (AF_INET6 =? AF_INET) with false. cbn iota. destruct (inet_ntop6_back ip Hl Hb) as [-> ->]. split; [done|apply inet_ntop6_text].
Qed.
Lemma sockaddr_of_fields port a : 0 <= port < 65536 -> address_ok a ->
  Zlen (fst (sockaddr_of port a)) = SS_SIZE /\ address_port (fst (sockaddr_of port a)) = port /\
  address_text (fst (sockaddr_of port a)) = Some (text_of a).
Proof.
  intros Hp [_ [[Hf Hl]|[Hf Hl]]]; destruct a as [f ip]; cbn in *; subst f; unfold sockaddr_of, text_of, address_text; cbn [fst snd].
  - change (AF_INET =? AF_INET) with true. cbn [fst]. destruct (sockaddr_in_fields port Hp ip Hl) as (H1 & -> & H3 & ->). done.
  - change (AF_INET6 =? AF_INET) with false. cbn [fst]. destruct (sockaddr_in6_fields port Hp ip Hl) as (H1 & -> & H3 & ->). done.
Qed.
End Endpoints.

(** ** Theorems *)

Section Theorems.
Context `{Allocator} `{Inet} (M : Z) (HM : mem_upto M).

Lemma create_from_string host port : 1 <= port <= 65535 -> cstr host = host -> Zlen host + SIZEOF_DEST <= M ->
  udpd_dest_create_from_string host port =
  match address_of host with
  | Some a => Some (mk_dest (fst (sockaddr_of port a)) (snd (sockaddr_of port a)) (Some host) port)
  | None => None
  end.
Proof.
  intros Hp Hc Hs. pose proof (Zlen_nonneg host). unfold SIZEOF_DEST in Hs. unfold udpd_dest_create_from_string.
  replace (port <=? 0) with false by lia. rewrite (malloc_upto M _ HM) by (unfold SIZEOF_DEST; lia). cbn [negb].
  rewrite (strdup_upto M HM) by (done || lia). rewrite create_address_of by done. by destruct (address_of host).
Qed.

Lemma create_out_of_range host port : ~ 1 <= port <= 65535 -> udpd_dest_create_from_string host port = None.
Proof.
  intros Hp. unfold udpd_dest_create_from_string, udpd_create_address_from_string. destruct (Z.leb_spec port 0); [done|].
  replace (65535 <? port) with true by lia. rewrite orb_true_r. by repeat case_match.
Qed.

(** A destination made from the text of an address gives back the text and
    the port it was made from, its address in the C library's form, and prints
    whole; a destination made from that form is equal to it.  Anything that is not
    the text of an address, and any port outside 1..65535, makes none. *)
Theorem udpd_dest_text host port : cstr host = host -> Zlen host + SIZEOF_DEST <= M ->
  (forall a, address_of host = Some a -> 1 <= port <= 65535 -> exists d,
     udpd_dest_create_from_string host port = Some d /\
     lua_udpd_dest_get_host (Some (userdata_of d)) = Ret [LStr host] /\
     lua_udpd_dest_get_port (Some (userdata_of d)) = Ret [LInt port] /\
     lua_udpd_dest_get_ip (Some (userdata_of d)) = Ret [LStr (text_of a)] /\
     lua_udpd_dest_tostring (Some (userdata_of d)) = Ret [LStr (host ++ lit ":" ++ dec_of_Z port)] /\
     (Zlen (text_of a) + SIZEOF_DEST <= M -> exists d',
        udpd_dest_create_from_string (text_of a) port = Some d' /\ udpd_dest_equal d d' = true)) /\
  (address_of host = None \/ port < 1 \/ 65535 < port -> udpd_dest_create_from_string host port = None).
Proof.
  intros Hc Hs. pose proof (Zlen_nonneg host) as Hl. assert (Hs' := Hs). unfold SIZEOF_DEST in Hs'. split.
  - intros a Ha Hp. rewrite (create_from_string host port Hp Hc Hs), Ha. eexists. split; [done|].
    pose proof (address_of_ok host a Ha) as Hok. destruct (sockaddr_of_fields port a ltac:(lia) Hok) as (_ & Hport & Htext).
    destruct (text_of_back a Hok) as [Hback Hnul]. unfold userdata_of. cbn [d_host d_addr d_addrlen d_port]. rewrite (strdup_upto M HM) by (done || lia).
    unfold lua_udpd_dest_get_host, lua_udpd_dest_get_port, lua_udpd_dest_get_ip, lua_udpd_dest_tostring, udpd_dest_to_string, udpd_dest_get_port,
      udpd_dest_get_host_string. cbn -[dec_of_Z]. rewrite Hc, Hport, Htext. rewrite (malloc_upto M _ HM) by lia. cbn -[dec_of_Z].
    rewrite (cstr_id (text_of a)) by done. rewrite endpoint_whole by lia. split; [done|]. split; [done|]. split; [done|]. split.
    { do 3 f_equal. apply cstr_id. apply Forall_app. split; [|apply Forall_cons; split; [done|]].
      - rewrite <- Hc. apply Forall_forall. intros x Hx ->. by apply cstr_no_nul in Hx.
      - apply dec_of_Z_no_nul; lia. }
    intros Hm. rewrite (create_from_string (text_of a) port Hp) by (done || by apply cstr_id). rewrite Hback. eexists. split; [done|].
    unfold udpd_dest_equal. cbn. rewrite Z.eqb_refl. by apply bool_decide_eq_true.
  - intros Hcase. destruct (decide (1 <= port <= 65535)) as [Hp|Hp].
    + rewrite (create_from_string host port Hp Hc Hs). destruct Hcase as [->|?]; [done|lia].
    + by apply create_out_of_range.
Qed.

Lemma bytes_at_prefix m l k off n : 0 <= off -> 0 <= n -> off + n <= m -> ztake m l = ztake m k -> bytes_at off n l = bytes_at off n k.
Proof.
  intros Ho Hn Hm E. assert (Hb : forall x, bytes_at off n x = ztake n (zdrop off (ztake m x))).
  { intros x. unfold bytes_at. rewrite zdrop_ztake by lia. by rewrite ztake_ztake by lia. }
  by rewrite !Hb, E.
Qed.
Lemma sockaddr_inj p1 a1 p2 a2 : 0 <= p1 < 65536 -> 0 <= p2 < 65536 -> address_ok a1 -> address_ok a2 ->
  snd (sockaddr_of p1 a1) = snd (sockaddr_of p2 a2) ->
  ztake (snd (sockaddr_of p1 a1)) (fst (sockaddr_of p1 a1)) = ztake (snd (sockaddr_of p1 a1)) (fst (sockaddr_of p2 a2)) ->
  p1 = p2 /\ a1 = a2.
Proof.
  intros Hp1 Hp2 [_ H1] [_ H2]. destruct a1 as [f1 i1], a2 as [f2 i2]. cbn [fst snd] in *. unfold sockaddr_of. cbn [fst snd].
  destruct H1 as [[-> H1]|[-> H1]], H2 as [[-> H2]|[-> H2]]; cbn -[sockaddr_in sockaddr_in6]; intros Hl Ht; try done.
  - destruct (sockaddr_in_fields p1 Hp1 i1 H1) as (_ & F1 & Q1 & A1), (sockaddr_in_fields p2 Hp2 i2 H2) as (_ & F2 & Q2 & A2).
    unfold address_port in Q1, Q2. rewrite F1 in Q1. rewrite F2 in Q2. cbn in Q1, Q2.
    split; [etrans; [symmetry; exact Q1|etrans; [|exact Q2]]; unfold sin_port; f_equal|f_equal; etrans; [symmetry; exact A1|etrans; [|exact A2]]];
      (apply (bytes_at_prefix 16); [lia|lia|lia|done]).
  - destruct (sockaddr_in6_fields p1 Hp1 i1 H1) as (_ & F1 & Q1 & A1), (sockaddr_in6_fields p2 Hp2 i2 H2) as (_ & F2 & Q2 & A2).
    unfold address_port in Q1, Q2. rewrite F1 in Q1. rewrite F2 in Q2. cbn in Q1, Q2.
    split; [etrans; [symmetry; exact Q1|etrans; [|exact Q2]]; unfold sin_port; f_equal|f_equal; etrans; [symmetry; exact A1|etrans; [|exact A2]]];
      (apply (bytes_at_prefix 28); [lia|lia|lia|done]).
Qed.

(** Comparing the bytes of two destinations made from texts is the same as
    comparing ports and the addresses the texts stand for, however they are
    written. *)
Theorem udpd_dest_equal_endpoints h1 p1 d1 h2 p2 d2 :
  cstr h1 = h1 -> cstr h2 = h2 -> Zlen h1 + SIZEOF_DEST <= M -> Zlen h2 + SIZEOF_DEST <= M ->
  udpd_dest_create_from_string h1 p1 = Some d1 -> udpd_dest_create_from_string h2 p2 = Some d2 ->
  udpd_dest_equal d1 d2 = bool_decide (p1 = p2 /\ address_of h1 = address_of h2).
Proof.
  intros Hc1 Hc2 Hs1 Hs2 E1 E2.
  assert (Hr : forall h p d, cstr h = h -> Zlen h + SIZEOF_DEST <= M -> udpd_dest_create_from_string h p = Some d ->
    exists a, 1 <= p <= 65535 /\ address_of h = Some a /\ address_ok a /\ d = mk_dest (fst (sockaddr_of p a)) (snd (sockaddr_of p a)) (Some h) p).
  { intros h p d Hc Hs E. destruct (decide (1 <= p <= 65535)) as [Hp|]; [|by rewrite create_out_of_range in E].
    rewrite (create_from_string h p Hp Hc Hs) in E. destruct (address_of h) as [a|] eqn:Ea; [|done]. injection E as <-.
    exists a. split; [done|]. split; [done|]. split; [by apply (address_of_ok h)|done]. }
  destruct (Hr _ _ _ Hc1 Hs1 E1) as (a1 & Hp1 & -> & Hk1 & ->), (Hr _ _ _ Hc2 Hs2 E2) as (a2 & Hp2 & -> & Hk2 & ->).
  clear Hr E1 E2. unfold udpd_dest_equal. cbn [d_addr d_addrlen]. destruct (Z.eqb_spec (snd (sockaddr_of p1 a1)) (snd (sockaddr_of p2 a2))) as [Hl|Hl]; cbn [negb].
  - apply bool_decide_ext. split.
    + intros Ht. destruct (sockaddr_inj p1 a1 p2 a2) as [-> ->]; [lia|lia|done..].
    + by intros [-> [= ->]].
  - symmetry. apply bool_decide_eq_false. intros [-> [= ->]]. done.
Qed.
End Theorems.

(** ** An instance for the witnesses: dotted octets, and eight groups of four
    hexadecimal digits *)

Definition octet_text (n : Z) : list Z := dec_of_Z n.
Definition octet_value (s : list Z) : option Z :=
  match list_find (fun n => octet_text n = s) (seqZ 0 256) with Some (_, n) => Some n | None => None end.
Fixpoint split_at (c : Z) (s : list Z) : list (list Z) :=
  match s with
  | [] => [[]]
  | x :: s =>
      if x =? c then [] :: split_at c s
      else match split_at c s with t :: l => (x :: t) :: l | [] => [[x]] end
  end.
Definition plain_pton4 (s : list Z) : option (list Z) :=
  match split_at 46 s with [a; b; c; d] => mapM octet_value [a; b; c; d] | _ => None end.
Definition plain_ntop4 (a : list Z) : list Z :=
  match a with
  | [a; b; c; d] => octet_text a ++ 46 :: octet_text b ++ 46 :: octet_text c ++ 46 :: octet_text d
  | _ => [63]
  end.

Definition hex_char (n : Z) : Z := nth (Z.to_nat n) (lit "0123456789abcdef") 63.
Definition hex_value (c : Z) : option Z :=
  if (48 <=? c) && (c <=? 57) then Some (c - 48) else if (97 <=? c) && (c <=? 102) then Some (c - 87) else None.
Definition hex_byte (b : Z) : list Z := [hex_char (b / 16); hex_char (b mod 16)].
Definition byte_value (c d : Z) : option Z := h ← hex_value c; l ← hex_value d; Some (16 * h + l).
Fixpoint plain_ntop6 (a : list Z) : list Z :=
  match a with
  | b :: c :: a => hex_byte b ++ hex_byte c ++ 58 :: plain_ntop6 a
  | _ => []
  end.
Fixpoint groups (n : nat) (s : list Z) : option (list Z) :=
  match n, s with
  | O, [] => Some []
  | S n, c1 :: c2 :: c3 :: c4 :: c5 :: s =>
      if c5 =? 58 then b ← byte_value c1 c2; c ← byte_value c3 c4; l ← groups n s; Some (b :: c :: l) else None
  | _, _ => None
  end.
(** The colon after the last group is left out of the text. *)
Definition plain_pton6 (s : list Z) : option (list Z) := groups 8 (s ++ [58]).

Lemma octet_back n : is_byte n -> octet_value (octet_text n) = Some n.
Proof.
  intros Hn. assert (Hall : forallb (fun n => bool_decide (octet_value (octet_text n) = Some n)) (seqZ 0 256) = true) by (vm_compute; reflexivity).
  apply forallb_Forall, Forall_forall with (x := n) in Hall; [by apply bool_decide_eq_true in Hall|]. apply elem_of_seqZ. exact Hn.
Qed.
Lemma octet_value_byte s n : octet_value s = Some n -> is_byte n.
Proof.
  unfold octet_value. destruct (list_find _ _) as [[i x]|] eqn:E; [|done]. intros [= ->].
  apply list_find_Some in E as (E & _). apply list_elem_of_lookup_2, elem_of_seqZ in E. exact E.
Qed.
Lemma octet_no c n : is_byte n -> c < 48 -> c ∉ octet_text n.
Proof.
  unfold is_byte. intros Hn Hc Hin. unfold octet_text, dec_of_Z in Hin. replace (n <? 0) with false in Hin by lia.
  pose proof (dec_digits_range (S (Z.to_nat (Z.log2 n))) n ltac:(lia)) as Hr. eapply Forall_forall in Hr; [|exact Hin]. cbn in Hr. lia.
Qed.
Lemma split_at_here c l r : c ∉ l -> split_at c (l ++ c :: r) = l :: split_at c r.
Proof.
  induction l as [|x l IH]; intros Hl; cbn; [by rewrite Z.eqb_refl|]. apply not_elem_of_cons in Hl as [Hx Hl].
  destruct (Z.eqb_spec x c); [congruence|]. by rewrite IH.
Qed.
Lemma split_at_none c l : c ∉ l -> split_at c l = [l].
Proof.
  induction l as [|x l IH]; intros Hl; cbn; [done|]. apply not_elem_of_cons in Hl as [Hx Hl].
  destruct (Z.eqb_spec x c); [congruence|]. by rewrite IH.
Qed.
Lemma hex_cases n : 0 <= n < 16 -> hex_value (hex_char n) = Some n /\ 48 <= hex_char n /\ hex_char n <> 58.
Proof.
  intros Hn. assert (Hall : forallb (fun n => bool_decide (hex_value (hex_char n) = Some n /\ 48 <= hex_char n /\ hex_char n <> 58)) (seqZ 0 16) = true)
    by (vm_compute; reflexivity).
  apply forallb_Forall, Forall_forall with (x := n) in Hall; [by apply bool_decide_eq_true in Hall|]. apply elem_of_seqZ. lia.
Qed.
Lemma byte_back b : is_byte b -> byte_value (hex_char (b / 16)) (hex_char (b mod 16)) = Some b.
Proof.
  unfold is_byte. intros Hb. unfold byte_value. destruct (hex_cases (b / 16)) as [-> _]; [dmlia|]. destruct (hex_cases (b mod 16)) as [-> _]; [dmlia|].
  cbn. f_equal. dmlia.
Qed.
Lemma byte_value_ok c d b : byte_value c d = Some b -> is_byte b.
Proof.
  assert (Hv : forall c v, hex_value c = Some v -> 0 <= v < 16) by (intros x v; unfold hex_value; repeat case_match; intros; simplify_eq; lia).
  unfold byte_value, is_byte. destruct (hex_value c) eqn:E1; [|done]. destruct (hex_value d) eqn:E2; [|done]. apply Hv in E1, E2. cbn. intros [= <-]. lia.
Qed.
Lemma groups_ok n : forall s l, groups n s = Some l -> Zlen l = 2 * Z.of_nat n /\ bytes_ok l.
Proof.
  induction n as [|n IH]; intros s l; cbn [groups]; [destruct s; [|done]; intros [= <-]; split; [done|by apply Forall_nil]|].
  do 5 (destruct s as [|? s]; [done|]). destruct (_ =? 58); [|done].
  destruct (byte_value z z0) eqn:E1; cbn; [|done]. destruct (byte_value z1 z2) eqn:E2; cbn; [|done].
  destruct (groups n s) eqn:E3; cbn; [|done]. intros [= <-]. apply IH in E3 as [Hl Hok]. split; [zlen; lia|].
  repeat (apply Forall_cons; split; [by eapply byte_value_ok|]). done.
Qed.

Lemma groups_back n : forall a, Zlen a = 2 * Z.of_nat n -> bytes_ok a -> groups n (plain_ntop6 a) = Some a.
Proof.
  induction n as [|n IH]; intros a Ha Hok.
  - apply Zlen_zero in Ha as ->. done.
  - destruct a as [|b [|c a]]; [exfalso; revert Ha; zlen; lia..|]. revert Ha. zlen. intros Ha.
    apply Forall_cons in Hok as [Hb Hok]. apply Forall_cons in Hok as [Hc Hok].
    cbn -[hex_char byte_value Z.div Z.modulo]. rewrite !byte_back by done. cbn -[hex_char byte_value Z.div Z.modulo]. by rewrite IH by (done || lia).
Qed.
Lemma ntop6_chars n : forall a, bytes_ok a -> Zlen a = 2 * Z.of_nat n -> Forall (fun c => 48 <= c) (plain_ntop6 a).
Proof.
  induction n as [|n IH]; intros a Hok Ha; [apply Zlen_zero in Ha as ->; by apply Forall_nil|].
  destruct a as [|b [|c a]]; [exfalso; revert Ha; zlen; lia..|]. revert Ha. zlen. intros Ha.
  apply Forall_cons in Hok as [Hb Hok]. apply Forall_cons in Hok as [Hc Hok]. unfold is_byte in *.
  cbn -[hex_char Z.div Z.modulo]. repeat (apply Forall_cons; split; [first [apply hex_cases; dmlia|lia]|]). apply IH; [done|lia].
Qed.
(** The text ends in a colon, which [plain_inet] drops. *)
Lemma ntop6_last n : forall a, (0 < n)%nat -> Zlen a = 2 * Z.of_nat n -> exists l, plain_ntop6 a = l ++ [58].
Proof.
  induction n as [|n IH]; intros a Hn Ha; [lia|]. destruct a as [|b [|c a]]; [exfalso; revert Ha; zlen; lia..|].
  revert Ha. zlen. intros Ha. destruct n as [|n].
  - assert (Zlen a = 0) as ->%Zlen_zero by lia. by exists (hex_byte b ++ hex_byte c).
  - destruct (IH a) as [l Hl]; [lia..|]. exists (hex_byte b ++ hex_byte c ++ 58 :: l). cbn [plain_ntop6]. rewrite Hl. by rewrite <- !app_assoc.
Qed.
Lemma plain4_text a b c d : is_byte a -> is_byte b -> is_byte c -> is_byte d ->
  split_at 46 (plain_ntop4 [a; b; c; d]) = [octet_text a; octet_text b; octet_text c; octet_text d].
Proof.
  intros Ha Hb Hc Hd. cbn [plain_ntop4].
  rewrite !split_at_here by (by apply octet_no). by rewrite split_at_none by (by apply octet_no).
Qed.
Lemma octet_no_nul n : is_byte n -> Forall (fun c => c <> 0) (octet_text n).
Proof. intros Hn. apply Forall_forall. intros x Hx ->. by apply octet_no in Hx. Qed.

Definition inet_text6 (a : list Z) : list Z :=
  if bool_decide (Zlen a = 16 /\ bytes_ok a) then removelast (plain_ntop6 a) else [63].
Definition inet_text4 (a : list Z) : list Z :=
  if bool_decide (Zlen a = 4 /\ bytes_ok a) then plain_ntop4 a else [63].

Lemma text6_spec a : Zlen a = 16 -> bytes_ok a -> inet_text6 a ++ [58] = plain_ntop6 a /\ Forall (fun c => 48 <= c) (inet_text6 a).
Proof.
  intros Ha Hok. unfold inet_text6. rewrite bool_decide_eq_true_2 by done. destruct (ntop6_last 8 a) as [l Hl]; [lia|done|].
  pose proof (ntop6_chars 8 a Hok Ha) as Hch. rewrite Hl in *. rewrite removelast_last. apply Forall_app in Hch as [Hch _]. done.
Qed.

Definition plain_inet : Inet.
Proof.
  refine {| inet_pton4 := plain_pton4; inet_pton6 := plain_pton6; inet_ntop4 := inet_text4; inet_ntop6 := inet_text6 |}.
  - intros s a. unfold plain_pton4. destruct (split_at 46 s) as [|? [|? [|? [|? [|]]]]]; try done.
    intros Hm%mapM_Some. split; [by apply Forall2_length in Hm; unfold Zlen; rewrite <- Hm|].
    apply (Forall2_Forall_r _ is_byte _ _ Hm). apply Forall_true. intros t y. by apply octet_value_byte.
  - intros s a Hs. by apply groups_ok in Hs.
  - intros a Ha Hok. unfold inet_text4. rewrite bool_decide_eq_true_2 by done.
    destruct a as [|a [|b [|c [|d [|e l]]]]]; try (exfalso; revert Ha; zlen; try pose proof (Zlen_nonneg l); lia).
    repeat (apply Forall_cons in Hok as [? Hok]). unfold plain_pton4. rewrite plain4_text by done. cbn. by rewrite !octet_back.
  - intros a Ha Hok. destruct (text6_spec a Ha Hok) as [Ht Hc]. split; [unfold plain_pton6; rewrite Ht; by apply groups_back|].
    unfold plain_pton4. rewrite split_at_none; [done|]. intros Hin. eapply Forall_forall in Hc; [|exact Hin]. cbn in Hc. lia.
  - intros a. unfold inet_text4. case_bool_decide as Hd; [|by repeat constructor]. destruct Hd as [Ha Hok].
    destruct a as [|a [|b [|c [|d [|]]]]]; try by repeat constructor.
    repeat (apply Forall_cons in Hok as [? Hok]). cbn [plain_ntop4]. repeat (apply Forall_app; split; [by apply octet_no_nul|apply Forall_cons; split; [done|]]).
    by apply octet_no_nul.
  - intros a. unfold inet_text6. case_bool_decide as Hd; [|by repeat constructor]. destruct Hd as [Ha Hok].
    destruct (text6_spec a Ha Hok) as [_ Hc]. unfold inet_text6 in Hc. rewrite bool_decide_eq_true_2 in Hc by done. eapply Forall_impl; [exact Hc|]. cbn. lia.
Defined.

(** ** Two destinations *)

Module DestSample.
#[export] Existing Instances zero_alloc plain_inet.
Definition ip : list Z := lit "192.168.1.100".
End DestSample.

Import DestSample.

Lemma udpd_dest_text_witness : exists d, udpd_dest_create_from_string ip 8080 = Some d /\
  lua_udpd_dest_tostring (Some (userdata_of d)) = Ret [LStr (lit "192.168.1.100:8080")].
Proof.
  destruct (udpd_dest_text (2 ^ 40) zero_alloc_upto ip 8080) as [Hd _]; [vm_compute; reflexivity|vm_compute; discriminate|].
  destruct (Hd (AF_INET, [192; 168; 1; 100])) as (d & E & _ & _ & _ & Ht & _); [vm_compute; reflexivity|split; discriminate|].
  exists d. split; [exact E|]. rewrite Ht. vm_compute. reflexivity.
Defined.

Lemma udpd_dest_equal_endpoints_witness : exists d1 d2,
  udpd_dest_create_from_string ip 8080 = Some d1 /\ udpd_dest_create_from_string ip 8081 = Some d2 /\
  udpd_dest_equal d1 d1 = true /\ udpd_dest_equal d1 d2 = false.
Proof.
  destruct (udpd_dest_create_from_string ip 8080) as [d1|] eqn:E1; [|vm_compute in E1; discriminate].
  destruct (udpd_dest_create_from_string ip 8081) as [d2|] eqn:E2; [|vm_compute in E2; discriminate].
  exists d1, d2. split; [reflexivity|]. split; [reflexivity|].
  split; [rewrite (udpd_dest_equal_endpoints (2 ^ 40) zero_alloc_upto ip 8080 d1 ip 8080 d1)|rewrite (udpd_dest_equal_endpoints (2 ^ 40) zero_alloc_upto ip 8080 d1 ip 8081 d2)];
    first [exact E1|exact E2|vm_compute; (reflexivity || discriminate)].
Defined.
