(* ===== verification/UdpdConfig.v ===== *)
(** * src/udpd_config.c: the settings of a UDP socket

    They extend those of a TCP connection; the socket options they turn into, the
    validation of the multicast settings. *)

From S2P Require Import Prelude Lua LuaState Double TcpdConfig UdpdAddr.

Definition UDPD_DEFAULT_BUFFER_SIZE : Z := 256 * 1024.

(** Flags are booleans; [multicast_group] is a string of its own or [NULL]. *)
Record udpd_config_t : Type := mk_uconfig {
  base : tcpd_config_t;
  broadcast_enabled : bool;
  multicast_enabled : bool;
  multicast_group : option (list Z);
  multicast_ttl : Z;
  reuse_addr : bool;
  reuse_port : bool
}.

Definition set_buffers (send receive : Z) (c : tcpd_config_t) : tcpd_config_t :=
  mk_config send receive (keepalive_enabled c) (keepalive_idle c) (keepalive_interval c) (keepalive_count c)
    (read_timeout c) (write_timeout c) (interface c) (ssl_enabled c) (ssl_verifyhost c) (ssl_verifypeer c) (callback_self_first c).
Definition set_interface (i : Z) (c : tcpd_config_t) : tcpd_config_t :=
  mk_config (send_buffer_size c) (receive_buffer_size c) (keepalive_enabled c) (keepalive_idle c) (keepalive_interval c) (keepalive_count c)
    (read_timeout c) (write_timeout c) i (ssl_enabled c) (ssl_verifyhost c) (ssl_verifypeer c) (callback_self_first c).
Definition default_buffers (c : tcpd_config_t) : tcpd_config_t :=
  set_buffers
    (if send_buffer_size c =? 0 then UDPD_DEFAULT_BUFFER_SIZE else send_buffer_size c)
    (if receive_buffer_size c =? 0 then UDPD_DEFAULT_BUFFER_SIZE else receive_buffer_size c) c.

Definition udpd_config_set_defaults : udpd_config_t :=
  mk_uconfig (default_buffers tcpd_config_set_defaults) false false None 1 true false.
Definition udpd_config_init : udpd_config_t := udpd_config_set_defaults.
(** The settings after [memset]. *)
Definition udpd_config_cleanup : udpd_config_t := mk_uconfig tcpd_config_init false false None 0 false false.

Section Config.
Context {T : Type} `{LuaTable T} `{LuaAPI} `{Allocator}.

(** [lua_type(L, -1) == LUA_TBOOLEAN] and its likes. *)
Definition flag_field (t : T) (key : string) (d : bool) : bool :=
  match field_of t key with LBool b => b | _ => d end.
Definition typed_int (t : T) (key : string) (d : Z) : Z :=
  let v := field_of t key in if is_number v then s32 (lua_tointeger v) else d.
Definition typed_string (t : T) (key : string) : option (list Z) :=
  let v := field_of t key in if is_string v then strdup (default [] (lua_tostring v)) else None.

Definition udpd_config_from_lua_table (if_nametoindex : list Z -> Z) (t : T) : udpd_config_t :=
  mk_uconfig (default_buffers (tcpd_config_from_lua_table if_nametoindex t))
    (flag_field t "broadcast" false) (flag_field t "multicast" false) (typed_string t "multicast_group")
    (typed_int t "multicast_ttl" 1) (flag_field t "reuse_addr" true) (flag_field t "reuse_port" false).

(** An interface is named, or numbered. *)
Definition udpd_extract_interface_from_lua (if_nametoindex : list Z -> Z) (t : T) : Z :=
  let v := field_of t "interface" in
  if is_string v then s32 (if_nametoindex (default [] (lua_tostring v)))
  else if is_number v then s32 (lua_tointeger v) else 0.

Definition udpd_config_copy (src : udpd_config_t) : Z * udpd_config_t :=
  let copied group := mk_uconfig (base src) (broadcast_enabled src) (multicast_enabled src) group (multicast_ttl src) (reuse_addr src) (reuse_port src) in
  match multicast_group src with
  | Some g => match strdup g with Some g => (0, copied (Some g)) | None => (-1, copied None) end
  | None => (0, copied None)
  end.
End Config.

(** ** Socket options *)

Inductive udp_sockopt : Type :=
  | SO_REUSEADDR (v : Z)
  | SO_REUSEPORT (v : Z)
  | SO_BROADCAST (v : Z)
  | Shared (o : sockopt)
  | IP_ADD_MEMBERSHIP (group : list Z)
  | IP_MULTICAST_TTL (v : Z).

Section Options.
Context (setsockopt : Z -> udp_sockopt -> bool) (inet_aton : list Z -> option (list Z)).

(** The result and the calls made, in order. *)
Definition uapplied : Type := Z * list udp_sockopt.
Definition must (fd : Z) (o : udp_sockopt) (k : uapplied) : uapplied :=
  if setsockopt fd o then (fst k, o :: snd k) else (-1, [o]).
Definition if_set (b : bool) (f : uapplied -> uapplied) (k : uapplied) : uapplied := if b then f k else k.
(** The buffer sizes are asked for, whatever comes of it; the interface option
    exists on macOS only. *)
Definition sizes (config : udpd_config_t) (fd : Z) : list udp_sockopt :=
  let shared fd o := setsockopt fd (Shared o) in
  map Shared (snd (conn_config_apply_sndbuf shared fd (send_buffer_size (base config)) (0, [])) ++
              snd (conn_config_apply_rcvbuf shared fd (receive_buffer_size (base config)) (0, []))).

Definition udpd_config_apply_socket_options (config : udpd_config_t) (fd : Z) : uapplied :=
  if fd <? 0 then (-1, [])
  else
    if_set (reuse_addr config) (must fd (SO_REUSEADDR 1)) (
    if_set (reuse_port config) (must fd (SO_REUSEPORT 1)) (
    if_set (broadcast_enabled config) (must fd (SO_BROADCAST 1)) (0, sizes config fd))).

Definition udpd_config_apply_bind_options (config : udpd_config_t) (fd : Z) : uapplied :=
  if fd <? 0 then (-1, [])
  else
    match multicast_enabled config, multicast_group config with
    | true, Some group =>
        match inet_aton group with
        | None => (-1, [])
        | Some ip => must fd (IP_ADD_MEMBERSHIP ip) (must fd (IP_MULTICAST_TTL (multicast_ttl config)) (0, []))
        end
    | _, _ => (0, [])
    end.

Definition udpd_config_validate (config : udpd_config_t) : Z :=
  if receive_buffer_size (base config) <=? 0 then -1
  else if send_buffer_size (base config) <=? 0 then -1
  else if multicast_enabled config then
    match multicast_group config with
    | None => -1
    | Some group =>
        if (multicast_ttl config <? 0) || (255 <? multicast_ttl config) then -1
        else
          match inet_aton group with
          | None => -1
          | Some ip => if negb (Z.land (be_val ip) 0xF0000000 =? 0xE0000000) then -1 else 0
          end
    end
  else 0.
End Options.

(** The helpers of udpd_utils.c for single options; a negative result is the
    system's. *)
Definition udpd_socket_set_reuse_addr (setsockopt : Z -> udp_sockopt -> bool) (fd : Z) : Z :=
  if fd <? 0 then -1 else if setsockopt fd (SO_REUSEADDR 1) then 0 else -1.
Definition udpd_socket_set_broadcast (setsockopt : Z -> udp_sockopt -> bool) (fd : Z) : Z :=
  if fd <? 0 then -1 else if setsockopt fd (SO_BROADCAST 1) then 0 else -1.
Definition udpd_socket_bind_interface (fd interface : Z) : Z := if (fd <? 0) || (interface <=? 0) then -1 else 0.
(** Whether the socket could be asked for its flags, and given them back. *)
Definition udpd_socket_set_nonblock (getfl setfl : bool) (fd : Z) : Z :=
  if fd <? 0 then -1 else if negb getfl then -1 else if setfl then 0 else -1.

(** ** Errors *)

Definition udpd_error_from_socket_error (text : Z -> list Z) (error_code : Z) : tcpd_error_t := tcpd_error_from_socket_error text error_code.
Definition udpd_error_from_dns_error (text : Z -> list Z) (dns_error : Z) : tcpd_error_t := tcpd_error_dns text dns_error.
Definition udpd_error_bind_failed `{Allocator} (errno : Z) (host : option (list Z)) (port : Z) : tcpd_error_t :=
  let safe_host := default (lit "(null)") host in
  let msg_len := Zlen safe_host + 64 in
  mk_error TCPD_ERROR_CONNECTION_RESET
    (if malloc_ok msg_len then Some (snprintf msg_len (lit "Failed to bind UDP socket to " ++ safe_host ++ lit ":" ++ dec_of_Z port)) else None)
    errno.
