(* ===== verification/Udpd.v ===== *)
(** * src/udpd_event.c, src/udpd.c, src/udpd_dns.c: the life of a UDP connection

    A connection object in Lua memory, its socket, its two libevent events, its
    registry references and its pending resolver request.  libevent and the
    resolver are not under src/: the live events are a map from their addresses to
    what they watch, freeing or using one that is not live has no meaning, and so
    has closing a socket the connection has not open.  What the system answers is
    an argument ([usys]).  The scripts' callbacks run inside the C callbacks:
    [body] says what a function does when it is called, up to its first
    suspension, as a tree of calls on the connection.

    The connection runs on the main event base (no worker threads).  As for TCP, a
    destroyed mutex that is used is recorded, in [x_misuse].  A reference given
    back to the registry that [luaL_ref] never gave out (number 0, before
    [REF_STATE_SET]) makes Lua forget its free references, and is recorded in
    [x_unref0]. *)

From S2P Require Import Prelude Lua LuaState Double Registry Loop TcpdConfig UdpdAddr UdpdConfig.

Inductive udpd_conn_state_t : Type :=
  | UDPD_CONN_DISCONNECTED | UDPD_CONN_BINDING | UDPD_CONN_BOUND | UDPD_CONN_RESOLVING | UDPD_CONN_READY | UDPD_CONN_ERROR.
#[export] Instance udpd_conn_state_eq_dec : EqDecision udpd_conn_state_t.
Proof. solve_decision. Defined.

Record udpd_dns_request_t : Type := mk_request {
  q_hostname : list Z;
  q_port : Z;
  q_ref : sref;
  q_yielded : bool
}.

(** [mainthread] is set from the start; [None] is [LUA_NOREF] or [NULL]. *)
Record udpd_base_conn_t : Type := mk_ubase {
  socket_fd : Z;
  u_state : udpd_conn_state_t;
  u_ref : sref;
  u_onRead : option positive;
  u_onSendReady : option positive;
  u_config : udpd_config_t;
  u_host : option (list Z);
  u_bind_host : option (list Z);
  u_port : Z;
  u_bind_port : Z;
  u_addr : list Z;
  u_addrlen : Z;
  u_bind_addr : list Z;
  u_bind_addrlen : Z;
  read_ev : option positive;
  write_ev : option positive;
  event_mutex : bool;
  worker_id : Z;
  dns_request : option udpd_dns_request_t
}.

Definition set_sock fd st (c : udpd_base_conn_t) : udpd_base_conn_t :=
  mk_ubase fd st (u_ref c) (u_onRead c) (u_onSendReady c) (u_config c) (u_host c) (u_bind_host c) (u_port c) (u_bind_port c)
    (u_addr c) (u_addrlen c) (u_bind_addr c) (u_bind_addrlen c) (read_ev c) (write_ev c) (event_mutex c) (worker_id c) (dns_request c).
Definition set_state st (c : udpd_base_conn_t) : udpd_base_conn_t := set_sock (socket_fd c) st c.
Definition set_refs a r s (c : udpd_base_conn_t) : udpd_base_conn_t :=
  mk_ubase (socket_fd c) (u_state c) a r s (u_config c) (u_host c) (u_bind_host c) (u_port c) (u_bind_port c)
    (u_addr c) (u_addrlen c) (u_bind_addr c) (u_bind_addrlen c) (read_ev c) (write_ev c) (event_mutex c) (worker_id c) (dns_request c).
Definition set_names h b p q (c : udpd_base_conn_t) : udpd_base_conn_t :=
  mk_ubase (socket_fd c) (u_state c) (u_ref c) (u_onRead c) (u_onSendReady c) (u_config c) h b p q
    (u_addr c) (u_addrlen c) (u_bind_addr c) (u_bind_addrlen c) (read_ev c) (write_ev c) (event_mutex c) (worker_id c) (dns_request c).
Definition set_config f w (c : udpd_base_conn_t) : udpd_base_conn_t :=
  mk_ubase (socket_fd c) (u_state c) (u_ref c) (u_onRead c) (u_onSendReady c) f (u_host c) (u_bind_host c) (u_port c) (u_bind_port c)
    (u_addr c) (u_addrlen c) (u_bind_addr c) (u_bind_addrlen c) (read_ev c) (write_ev c) (event_mutex c) w (dns_request c).
Definition set_addr a l (c : udpd_base_conn_t) : udpd_base_conn_t :=
  mk_ubase (socket_fd c) (u_state c) (u_ref c) (u_onRead c) (u_onSendReady c) (u_config c) (u_host c) (u_bind_host c) (u_port c) (u_bind_port c)
    a l (u_bind_addr c) (u_bind_addrlen c) (read_ev c) (write_ev c) (event_mutex c) (worker_id c) (dns_request c).
Definition set_bind_addr a l (c : udpd_base_conn_t) : udpd_base_conn_t :=
  mk_ubase (socket_fd c) (u_state c) (u_ref c) (u_onRead c) (u_onSendReady c) (u_config c) (u_host c) (u_bind_host c) (u_port c) (u_bind_port c)
    (u_addr c) (u_addrlen c) a l (read_ev c) (write_ev c) (event_mutex c) (worker_id c) (dns_request c).
Definition set_events r w (c : udpd_base_conn_t) : udpd_base_conn_t :=
  mk_ubase (socket_fd c) (u_state c) (u_ref c) (u_onRead c) (u_onSendReady c) (u_config c) (u_host c) (u_bind_host c) (u_port c) (u_bind_port c)
    (u_addr c) (u_addrlen c) (u_bind_addr c) (u_bind_addrlen c) r w (event_mutex c) (worker_id c) (dns_request c).
Definition set_mutex b (c : udpd_base_conn_t) : udpd_base_conn_t :=
  mk_ubase (socket_fd c) (u_state c) (u_ref c) (u_onRead c) (u_onSendReady c) (u_config c) (u_host c) (u_bind_host c) (u_port c) (u_bind_port c)
    (u_addr c) (u_addrlen c) (u_bind_addr c) (u_bind_addrlen c) (read_ev c) (write_ev c) b (worker_id c) (dns_request c).
Definition set_dns q (c : udpd_base_conn_t) : udpd_base_conn_t :=
  mk_ubase (socket_fd c) (u_state c) (u_ref c) (u_onRead c) (u_onSendReady c) (u_config c) (u_host c) (u_bind_host c) (u_port c) (u_bind_port c)
    (u_addr c) (u_addrlen c) (u_bind_addr c) (u_bind_addrlen c) (read_ev c) (write_ev c) (event_mutex c) (worker_id c) q.

Definition udpd_base_conn_init : udpd_base_conn_t :=
  mk_ubase (-1) UDPD_CONN_DISCONNECTED RefZero None None udpd_config_init None None 0 0
    (zeros SS_SIZE) 0 (zeros SS_SIZE) 0 None None true (-1) None.

(** What a callback is given: Lua values, and destinations. *)
Inductive uarg : Type := UVal (v : lua_value) | UDest (d : udpd_dest_t).
Inductive ucallback : Type :=
  | CbURead (data : list Z) (from : udpd_dest_t)
  | CbUReady
  | CbResumed (args : list lua_value).

(** [x_alive]: the object's memory has not been collected; [x_weak]: it is in the
    table of weak references; [x_fds]: the sockets it has opened and not closed;
    [x_pending]: the resolver still has its request; [x_sent]: the datagrams given
    to the system, with their destinations; [x_calls] the callbacks made, without
    [self]. *)
Record uconn : Type := mk_uconn {
  x_conn : udpd_base_conn_t;
  x_alive : bool;
  x_weak : bool;
  x_reg : gmap positive regval;
  x_fds : gset Z;
  x_events : gmap positive uevent;
  x_pending : bool;
  x_misuse : bool;
  x_unref0 : bool;
  x_sent : list (list Z * list Z);
  x_calls : list ucallback
}.

Definition on_uconn (f : udpd_base_conn_t -> udpd_base_conn_t) (w : uconn) : uconn :=
  mk_uconn (f (x_conn w)) (x_alive w) (x_weak w) (x_reg w) (x_fds w) (x_events w) (x_pending w) (x_misuse w) (x_unref0 w) (x_sent w) (x_calls w).
Definition put_life a k (w : uconn) : uconn :=
  mk_uconn (x_conn w) a k (x_reg w) (x_fds w) (x_events w) (x_pending w) (x_misuse w) (x_unref0 w) (x_sent w) (x_calls w).
Definition put_reg r (w : uconn) : uconn :=
  mk_uconn (x_conn w) (x_alive w) (x_weak w) r (x_fds w) (x_events w) (x_pending w) (x_misuse w) (x_unref0 w) (x_sent w) (x_calls w).
Definition put_fds l (w : uconn) : uconn :=
  mk_uconn (x_conn w) (x_alive w) (x_weak w) (x_reg w) l (x_events w) (x_pending w) (x_misuse w) (x_unref0 w) (x_sent w) (x_calls w).
Definition put_events e (w : uconn) : uconn :=
  mk_uconn (x_conn w) (x_alive w) (x_weak w) (x_reg w) (x_fds w) e (x_pending w) (x_misuse w) (x_unref0 w) (x_sent w) (x_calls w).
Definition put_pending b (w : uconn) : uconn :=
  mk_uconn (x_conn w) (x_alive w) (x_weak w) (x_reg w) (x_fds w) (x_events w) b (x_misuse w) (x_unref0 w) (x_sent w) (x_calls w).
Definition flagged m u (w : uconn) : uconn :=
  mk_uconn (x_conn w) (x_alive w) (x_weak w) (x_reg w) (x_fds w) (x_events w) (x_pending w) m u (x_sent w) (x_calls w).
Definition sent_to m (w : uconn) : uconn :=
  mk_uconn (x_conn w) (x_alive w) (x_weak w) (x_reg w) (x_fds w) (x_events w) (x_pending w) (x_misuse w) (x_unref0 w) (x_sent w ++ [m]) (x_calls w).
Definition called cb (w : uconn) : uconn :=
  mk_uconn (x_conn w) (x_alive w) (x_weak w) (x_reg w) (x_fds w) (x_events w) (x_pending w) (x_misuse w) (x_unref0 w) (x_sent w) (x_calls w ++ [cb]).

(** What the system and libevent answer: the new socket for a family, or a
    negative number; the addresses of a name and of a socket; whether calls
    succeed. *)
Record usys : Type := mk_usys {
  y_socket : Z -> Z;
  y_nonblock : bool;
  y_setsockopt : Z -> udp_sockopt -> bool;
  y_inet_aton : list Z -> option (list Z);
  y_getaddrinfo : list Z -> list Z -> option (list Z);
  y_bind : Z -> list Z -> bool;
  y_getsockname : Z -> option (list Z);
  y_new_read : bool;
  y_add_read : bool;
  y_new_write : bool
}.

(** What a script does with a connection.  A destination is absent, of another
    type, or a destination; [sent] is what [sendto] answers, [strerror] the text of
    its error; [added]: [event_add] succeeds; [UCollect]: nothing refers to the
    object any more and the collector takes it. *)
Inductive ucall : Type :=
  | USend (args : list lua_value) (dest : option (option udpd_dest_t)) (sent : Z) (strerror : list Z)
  | USendReq (added : bool)
  | UClose
  | URebind (y : usys)
  | UToString
  | UGetPort (y : usys)
  | UCollect.
Inductive uscript : Type :=
  | UDone
  | UCall (c : ucall) (k : outcome (list lua_value) -> uscript).

Section Udpd.
Context {T : Type} `{LuaTable T} `{LuaAPI} `{Allocator} `{Inet}.
Context (self : lua_value) (body : positive -> list uarg -> uscript).
Implicit Type w : uconn.

(** An access to the connection's memory. *)
Definition at_conn {A} w (k : outcome A) : outcome A := if x_alive w then k else UB.

(** [pthread_mutex_lock], and [pthread_mutex_destroy] before the mutex is gone. *)
Definition lock_events w : uconn := if event_mutex (x_conn w) then w else flagged true (x_unref0 w) w.
Definition destroy_mutex w : uconn := on_uconn (set_mutex false) (lock_events w).

(** ** Events and sockets *)

Definition event_new fd write w : positive * uconn :=
  let p := fresh (dom (x_events w)) in (p, put_events (<[p := mk_uevent fd write false]> (x_events w)) w).
Definition event_mark (added : bool) (p : positive) w : outcome uconn :=
  match x_events w !! p with
  | Some e => Ret (put_events (<[p := mk_uevent (ue_fd e) (ue_write e) added]> (x_events w)) w)
  | None => UB
  end.
Definition event_add := event_mark true.
Definition event_del := event_mark false.
Definition event_free (p : positive) w : outcome uconn :=
  match x_events w !! p with Some _ => Ret (put_events (delete p (x_events w)) w) | None => UB end.
Definition free_opt (p : option positive) w : outcome uconn := match p with Some p => event_free p w | None => Ret w end.
Definition del_opt (p : option positive) w : outcome uconn := match p with Some p => event_del p w | None => Ret w end.
Definition drop_opt (p : option positive) w : outcome uconn := w ← del_opt p w; free_opt p w.

Definition closesocket (fd : Z) w : outcome uconn :=
  if decide (fd ∈ x_fds w) then Ret (put_fds (x_fds w ∖ {[fd]}) w) else UB.

(** [memcpy] into a [sockaddr_storage]. *)
Definition store_addr (data old : list Z) : outcome (list Z) := if Zlen data <=? SS_SIZE then Ret (over data old) else UB.

(** ** Registry references *)

Definition luaL_ref (v : regval) w : positive * uconn :=
  let r := fresh (dom (x_reg w)) in (r, put_reg (<[r := v]> (x_reg w)) w).
Definition luaL_unref (r : positive) w : outcome uconn :=
  match x_reg w !! r with Some _ => Ret (put_reg (delete r (x_reg w)) w) | None => UB end.
Definition unref_opt (r : option positive) w : outcome uconn := match r with Some r => luaL_unref r w | None => Ret w end.

Definition CLEAR_UREAD w : outcome uconn :=
  w ← unref_opt (u_onRead (x_conn w)) w; mret (on_uconn (fun c => set_refs (u_ref c) None (u_onSendReady c) c) w).
Definition CLEAR_USENDREADY w : outcome uconn :=
  w ← unref_opt (u_onSendReady (x_conn w)) w; mret (on_uconn (fun c => set_refs (u_ref c) (u_onRead c) None c) w).
Definition REF_STATE_CLEAR w : outcome uconn :=
  w ← (match u_ref (x_conn w) with
       | Ref r => luaL_unref r w
       | RefZero => Ret (flagged (x_misuse w) true w)
       | RefNone => Ret w
       end);
  mret (on_uconn (fun c => set_refs RefNone (u_onRead c) (u_onSendReady c) c) w).
Definition REF_STATE_SET w : uconn :=
  let '(r, w) := luaL_ref RThread w in on_uconn (fun c => set_refs (Ref r) (u_onRead c) (u_onSendReady c) c) w.
(** [REF_STATE_GET]: whether the coroutine is there. *)
Definition has_thread (a : sref) (reg : gmap positive regval) : bool :=
  match a with Ref r => match reg !! r with Some RThread => true | _ => false end | _ => false end.

Definition func_ref (t : T) (key : string) w : option positive * uconn :=
  match field_of t key with LFun k => let '(r, w) := luaL_ref (RFun k) w in (Some r, w) | _ => (None, w) end.
Definition udpd_base_conn_set_callbacks (t : T) w : uconn :=
  let '(r, w) := func_ref t "onread" w in
  let w := on_uconn (fun c => set_refs (u_ref c) r (u_onSendReady c) c) w in
  let '(s, w) := func_ref t "onsendready" w in
  on_uconn (fun c => set_refs (u_ref c) (u_onRead c) s c) w.

(** ** Sockets *)

Definition socket_error fd w : outcome (Z * uconn) :=
  w ← (if 0 <=? fd then w ← closesocket fd w; mret (on_uconn (fun c => set_sock (-1) (u_state c) c) w) else Ret w);
  mret (-1, on_uconn (set_state UDPD_CONN_ERROR) w).

Definition udpd_base_conn_create_socket (y : usys) w : outcome (Z * uconn) :=
  let c := x_conn w in
  let af := if 0 <? u_addrlen c then ss_family (u_addr c) else AF_INET in
  let fd := y_socket y af in
  if fd <? 0 then Ret (-1, w)
  else
    let w := on_uconn (fun c => set_sock fd (u_state c) c) (put_fds ({[fd]} ∪ x_fds w) w) in
    if negb (y_nonblock y) then socket_error fd w
    else if fst (udpd_config_apply_socket_options (y_setsockopt y) (u_config (x_conn w)) fd) <? 0 then socket_error fd w
    else Ret (0, on_uconn (set_state UDPD_CONN_BINDING) w).

(** The address to bind to: the resolved bind host, or any address of the target's
    family. *)
Definition bind_target (y : usys) w : outcome (option uconn) :=
  let c := x_conn w in
  match u_bind_host c with
  | Some host =>
      match y_getaddrinfo y host (snprintf 6 (dec_of_Z (u_bind_port c))) with
      | None => Ret None
      | Some answer =>
          a ← store_addr answer (u_bind_addr c);
          mret (Some (on_uconn (set_bind_addr a (Zlen answer)) w))
      end
  | None =>
      let af := if 0 <? u_addrlen c then ss_family (u_addr c) else AF_INET in
      let port := u_bind_port c in
      mret (Some (on_uconn (if af =? AF_INET6 then set_bind_addr (sockaddr_in6 port (zeros 16)) SIZEOF_SOCKADDR_IN6
                            else set_bind_addr (sockaddr_in port (zeros 4)) SIZEOF_SOCKADDR_IN) w))
  end.
(** The port the system chose. *)
Definition learn_port (y : usys) w : uconn :=
  let c := x_conn w in
  if u_bind_port c =? 0 then
    match y_getsockname y (socket_fd c) with
    | Some sa =>
        if udpd_is_address_family_supported (ss_family sa)
        then on_uconn (set_names (u_host c) (u_bind_host c) (u_port c) (sin_port sa)) w else w
    | None => w
    end
  else w.

Definition udpd_base_conn_bind (y : usys) w : outcome (Z * uconn) :=
  if socket_fd (x_conn w) <? 0 then Ret (-1, w)
  else
    r ← bind_target y w;
    match r with
    | None => mret (-1, w)
    | Some w =>
        let c := x_conn w in
        if negb (y_bind y (socket_fd c) (ztake (u_bind_addrlen c) (u_bind_addr c))) then mret (-1, w)
        else mret (0, on_uconn (set_state UDPD_CONN_BOUND) (learn_port y w))
    end.

(** The options of [udpd_config_apply_bind_options] are set in between; nothing
    depends on their result. *)
Definition events_error w : outcome (Z * uconn) :=
  w ← free_opt (read_ev (x_conn w)) w;
  let w := on_uconn (fun c => set_events None (write_ev c) c) w in
  w ← free_opt (write_ev (x_conn w)) w;
  mret (-1, on_uconn (set_state UDPD_CONN_ERROR) (on_uconn (set_events None None) w)).

(** The read event is watched at once, the write event when it is asked for. *)
Definition read_step (y : usys) w : outcome (bool * uconn) :=
  match u_onRead (x_conn w) with
  | None => mret (true, w)
  | Some _ =>
      if negb (y_new_read y) then mret (false, on_uconn (fun c => set_events None (write_ev c) c) w)
      else
        let '(p, w) := event_new (socket_fd (x_conn w)) false w in
        let w := on_uconn (fun c => set_events (Some p) (write_ev c) c) w in
        if y_add_read y then w ← event_add p w; mret (true, w) else mret (false, w)
  end.
Definition write_step (y : usys) (ok : bool) w : outcome (bool * uconn) :=
  match ok, u_onSendReady (x_conn w) with
  | true, Some _ =>
      if negb (y_new_write y) then mret (false, on_uconn (fun c => set_events (read_ev c) None c) w)
      else
        let '(p, w) := event_new (socket_fd (x_conn w)) true w in
        mret (true, on_uconn (fun c => set_events (read_ev c) (Some p) c) w)
  | _, _ => mret (ok, w)
  end.
Definition udpd_base_conn_setup_events (y : usys) w : outcome (Z * uconn) :=
  if socket_fd (x_conn w) <? 0 then Ret (-1, w)
  else
    let w := lock_events w in
    '(ok, w) ← read_step y w;
    '(ok, w) ← write_step y ok w;
    if ok : bool then mret (0, on_uconn (set_state UDPD_CONN_READY) w) else events_error w.

Definition udpd_base_conn_request_send_ready (added : bool) w : outcome (Z * uconn) :=
  let w := lock_events w in
  match write_ev (x_conn w) with
  | None => Ret (-1, w)
  | Some p => if added then w ← event_add p w; mret (0, w) else Ret (-1, w)
  end.

Definition udpd_connection_cleanup_on_disconnect w : outcome uconn :=
  let w := lock_events w in
  w ← del_opt (read_ev (x_conn w)) w;
  w ← del_opt (write_ev (x_conn w)) w;
  mret (on_uconn (set_state UDPD_CONN_DISCONNECTED) w).

(** ** Cleanup *)

(** A request of a connection has no reference of its own. *)
Definition udpd_dns_cancel_resolution w : uconn :=
  match dns_request (x_conn w) with
  | Some _ => on_uconn (fun c => set_state UDPD_CONN_DISCONNECTED (set_dns None c)) w
  | None => w
  end.

Definition clear_refs w : outcome uconn := w ← CLEAR_UREAD w; w ← CLEAR_USENDREADY w; REF_STATE_CLEAR w.
Definition free_events w : outcome uconn :=
  let w := lock_events w in
  w ← drop_opt (read_ev (x_conn w)) w;
  let w := on_uconn (fun c => set_events None (write_ev c) c) w in
  w ← drop_opt (write_ev (x_conn w)) w;
  mret (on_uconn (set_events None None) w).
Definition close_socket w : outcome uconn :=
  let fd := socket_fd (x_conn w) in
  if 0 <=? fd then w ← closesocket fd w; mret (on_uconn (fun c => set_sock (-1) (u_state c) c) w) else Ret w.
Definition forget (c : udpd_base_conn_t) : udpd_base_conn_t :=
  set_state UDPD_CONN_DISCONNECTED (set_config udpd_config_cleanup (worker_id c) (set_dns None c)).

Definition udpd_base_conn_cleanup w : outcome uconn :=
  w ← clear_refs w;
  w ← free_events (on_uconn (fun c => set_names None None (u_port c) (u_bind_port c) c) w);
  w ← close_socket w;
  mret (destroy_mutex (on_uconn forget w)).

(** ** The methods a script calls *)

Definition call : Type := outcome (outcome (list lua_value) * uconn).
Definition result (r : outcome (list lua_value)) w : call := Ret (r, w).
Definition failed (msg : list Z) w : call := result (Ret [LNil; LStr msg]) w.

Definition UDPD_MAX_PACKET_SIZE : Z := 65507.
Definition udpd_validate_packet_size (size : Z) : bool := (0 <? size) && (size <=? UDPD_MAX_PACKET_SIZE).

(** [sendto] on an open socket. *)
Definition send_datagram (data addr : list Z) (sent : Z) (strerror : list Z) w : call :=
  if decide (socket_fd (x_conn w) ∈ x_fds w) then
    if sent <? 0 then failed (cstr strerror) w else result (Ret [LInt sent]) (sent_to (data, addr) w)
  else UB.
Definition udpd_conn_send (args : list lua_value) (dest : option (option udpd_dest_t)) (sent : Z) (strerror : list Z) w : call :=
  match luaL_checklstring (arg args 2) with
  | Raise e => result (Raise e) w
  | UB => UB
  | Ret data =>
      if negb (udpd_validate_packet_size (Zlen data)) then failed (lit "Packet size exceeds UDP maximum") w
      else if socket_fd (x_conn w) <? 0 then failed (lit "Socket not created") w
      else
        match dest with
        | Some d =>
            match check_dest d with
            | Ret dest => send_datagram data (ztake (d_addrlen dest) (d_addr dest)) sent strerror w
            | Raise e => result (Raise e) w
            | UB => UB
            end
        | None =>
            if u_addrlen (x_conn w) =? 0 then failed (lit "No destination address available") w
            else send_datagram data (ztake (u_addrlen (x_conn w)) (u_addr (x_conn w))) sent strerror w
        end
  end.

Definition udpd_conn_send_request (added : bool) w : call :=
  match u_onSendReady (x_conn w) with
  | None => result (Raise (lit "onsendready callback not defined")) w
  | Some _ =>
      '(r, w) ← udpd_base_conn_request_send_ready added w;
      if r <? 0 then result (Raise (lit "Failed to request send ready notification")) w else result (Ret []) w
  end.

Definition udpd_state_number (s : udpd_conn_state_t) : Z :=
  match s with
  | UDPD_CONN_DISCONNECTED => 0 | UDPD_CONN_BINDING => 1 | UDPD_CONN_BOUND => 2
  | UDPD_CONN_RESOLVING => 3 | UDPD_CONN_READY => 4 | UDPD_CONN_ERROR => 5
  end.
Definition udpd_format_connection_info (c : udpd_base_conn_t) : option (list Z) :=
  let host := default (lit "unknown") (u_host c) in
  let bind_host := default (lit "any") (u_bind_host c) in
  let len := Zlen host + Zlen bind_host + 128 in
  if malloc_ok len then
    Some (snprintf len
      (lit "<UDP: target=" ++ host ++ lit ":" ++ dec_of_Z (u_port c) ++ lit ", bind=" ++ bind_host ++ lit ":" ++ dec_of_Z (u_bind_port c) ++
       lit ", fd=" ++ dec_of_Z (socket_fd c) ++ lit ", state=" ++ dec_of_Z (udpd_state_number (u_state c)) ++ lit ">"))
  else None.
Definition udpd_conn_tostring w : call :=
  result (Ret [LStr (cstr (default (lit "<UDP connection>") (udpd_format_connection_info (x_conn w))))]) w.
Definition udpd_conn_get_port (y : usys) w : call :=
  result (Ret [LInt (udpd_get_socket_port (y_getsockname y) (socket_fd (x_conn w)))]) w.
Definition udpd_conn_close w : call := w ← udpd_base_conn_cleanup w; result (Ret []) w.

(** [rebind] does not take the mutex until it makes the events anew. *)
Definition rebind_failed (msg : list Z) w : call :=
  w ← closesocket (socket_fd (x_conn w)) w;
  result (Ret [LBool false; LStr msg]) (on_uconn (set_sock (-1) UDPD_CONN_ERROR) w).
Definition lua_udpd_conn_rebind (y : usys) w : call :=
  w ← free_opt (read_ev (x_conn w)) w;
  let w := on_uconn (fun c => set_events None (write_ev c) c) w in
  w ← free_opt (write_ev (x_conn w)) w;
  w ← close_socket (on_uconn (set_events None None) w);
  let w := on_uconn (fun c => set_state UDPD_CONN_DISCONNECTED (set_dns None c)) w in
  '(r, w) ← udpd_base_conn_create_socket y w;
  if r <? 0 then result (Ret [LBool false; LStr (lit "Failed to create socket")]) w
  else
    '(r, w) ← udpd_base_conn_bind y w;
    if r <? 0 then rebind_failed (lit "Failed to bind socket") w
    else
      '(r, w) ← udpd_base_conn_setup_events y w;
      if r <? 0 then rebind_failed (lit "Failed to setup events") w
      else result (Ret [LBool true]) w.

(** [__gc], after which the memory is gone. *)
Definition lua_udpd_conn_gc w : outcome uconn := w ← udpd_base_conn_cleanup w; mret (put_life false false w).

Definition udpd_call (c : ucall) w : call :=
  at_conn w
    match c with
    | USend args dest sent strerror => udpd_conn_send args dest sent strerror w
    | USendReq added => udpd_conn_send_request added w
    | UClose => udpd_conn_close w
    | URebind y => lua_udpd_conn_rebind y w
    | UToString => udpd_conn_tostring w
    | UGetPort y => udpd_conn_get_port y w
    | UCollect => w ← lua_udpd_conn_gc w; result (Ret []) w
    end.
Fixpoint run_script (s : uscript) w : outcome uconn :=
  match s with
  | UDone => Ret w
  | UCall c k => '(r, w) ← udpd_call c w; run_script (k r) w
  end.

(** ** Calling into the script *)

Definition udpd_push_connection_object w : lua_value := if x_weak w then self else LNil.
Definition self_first w : list uarg :=
  if callback_self_first (base (u_config (x_conn w))) then [UVal (udpd_push_connection_object w)] else [].

(** From [fan_cb_setup], which may lack memory, to [FAN_CB_CLEANUP]: the function
    is called in a coroutine of its own, which the registry holds meanwhile. *)
Definition fan_call (ok : bool) (ref : positive) (cb : ucallback) (args : list uarg) w : outcome uconn :=
  if negb ok then Ret w
  else
    let '(thread_ref, w) := luaL_ref RThread w in
    match x_reg w !! ref with
    | Some (RFun k) => w ← run_script (body k args) (called cb w); luaL_unref thread_ref w
    | _ => luaL_unref thread_ref w
    end.

(** ** Events *)

(** What [recvfrom] gives: an error, that may only mean there is nothing yet, or
    a datagram and its sender's address. *)
Inductive received : Type := RecvFail (again : bool) (errno : Z) | RecvGot (data from : list Z).
Definition UDPD_RECV_BUFFER_SIZE : Z := 65536.

(** [junk]: what the new userdata's memory held. *)
Definition udpd_process_received_data (ok : bool) (junk data from : list Z) w : outcome uconn :=
  if Zlen data =? 0 then Ret w
  else
    match u_onRead (x_conn w) with
    | None => Ret w
    | Some r =>
        dest ← fresh_dest junk from None None;
        fan_call ok r (CbURead data dest) (self_first w ++ [UVal (LStr data); UDest dest]) w
    end.

(** The error is only logged. *)
Definition udpd_handle_read_error w : outcome uconn :=
  let w := lock_events (on_uconn (set_state UDPD_CONN_ERROR) w) in
  del_opt (read_ev (x_conn w)) w.

Definition udpd_common_readcb (ok : bool) (junk : list Z) (r : received) w : outcome uconn :=
  at_conn w
    match u_onRead (x_conn w) with
    | None => Ret w
    | Some _ =>
        match r with
        | RecvFail again _ => if again then Ret w else udpd_handle_read_error w
        | RecvGot data from =>
            if Zlen data =? 0 then Ret w
            else udpd_process_received_data ok junk (ztake UDPD_RECV_BUFFER_SIZE data) from w
        end
    end.

Definition udpd_common_writecb (ok : bool) w : outcome uconn :=
  at_conn w
    match u_onSendReady (x_conn w) with
    | None => Ret w
    | Some r => fan_call ok r CbUReady (self_first w) w
    end.

(** ** Resolving the target's name *)

Definition SIZEOF_REQUEST : Z := 32.
Definition udpd_dns_request_create (hostname : list Z) (port : Z) : option udpd_dns_request_t :=
  if (port <=? 0) || (65535 <? port) then None
  else if negb (malloc_ok SIZEOF_REQUEST) then None
  else match strdup hostname with Some h => Some (mk_request h port RefZero false) | None => None end.

(** The resolver's answer: an error code and its text, or the first address. *)
Inductive dns_answer : Type := DnsFailed (errcode : Z) (text : list Z) | DnsFound (addr : list Z).

(** Socket, binding if asked for, events. *)
Definition setup_resolved (y : usys) w : outcome (bool * uconn) :=
  '(r, w) ← udpd_base_conn_create_socket y w;
  if r <? 0 then Ret (false, w)
  else
    '(r, w) ← (match u_bind_host (x_conn w) with Some _ => udpd_base_conn_bind y w | None => Ret (0, w) end);
    if r <? 0 then Ret (false, w)
    else '(r, w) ← udpd_base_conn_setup_events y w; Ret (negb (r <? 0), w).

(** The waiting coroutine goes on: [co] says how. *)
Definition resume (co : list lua_value -> uscript) (args : list lua_value) w : outcome uconn :=
  run_script (co args) (called (CbResumed args) w).

Definition resolved_args (y : usys) (answer : dns_answer) w : outcome (list lua_value * uconn) :=
  match answer with
  | DnsFailed _ text =>
      let w := on_uconn (set_state UDPD_CONN_ERROR) w in
      Ret ([LNil; LStr (lit "DNS resolution failed for '" ++ default (lit "(null)") (u_host (x_conn w)) ++ lit "': " ++ text)], w)
  | DnsFound addr =>
      a ← store_addr addr (u_addr (x_conn w));
      '(setup_success, w) ← setup_resolved y (on_uconn (set_addr a (Zlen addr)) w);
      if setup_success : bool then
        let w := on_uconn (set_state UDPD_CONN_READY) w in
        if x_weak w then Ret ([self], w) else Ret ([LNil; LStr (lit "Connection object not found in weak table")], w)
      else
        Ret ([LNil; LStr (lit "Failed to set up UDP connection after DNS resolution")], on_uconn (set_state UDPD_CONN_ERROR) w)
  end.

Definition udpd_conn_dns_callback (y : usys) (co : list lua_value -> uscript) (answer : dns_answer) w : outcome uconn :=
  at_conn w (
    if decide (u_state (x_conn w) = UDPD_CONN_DISCONNECTED) then Ret w
    else if negb (has_thread (u_ref (x_conn w)) (x_reg w)) then Ret w
    else
      '(args, w) ← resolved_args y answer w;
      w ← resume co args w;
      at_conn w (
        w ← REF_STATE_CLEAR w;
        mret (on_uconn (set_dns None) w))).

(** What [evdns_getaddrinfo] does: answer later, or call back at once and return
    [NULL]. *)
Inductive dns_start : Type := DnsLater | DnsNow (answer : dns_answer).

Definition udpd_dns_resolve_for_connection (y : usys) (start : dns_start) (co : list lua_value -> uscript) w : outcome (Z * uconn) :=
  match u_host (x_conn w) with
  | None => Ret (-1, w)
  | Some host =>
      match udpd_dns_request_create host (u_port (x_conn w)) with
      | None => Ret (-1, on_uconn (set_dns None) w)
      | Some q =>
          let w := on_uconn (set_dns (Some q)) w in
          match start with
          | DnsNow answer =>
              w ← udpd_conn_dns_callback y co answer w;
              mret (-1, on_uconn (set_dns None) w)
          | DnsLater => mret (0, on_uconn (set_state UDPD_CONN_RESOLVING) (put_pending true w))
          end
      end
  end.

(** ** New connections *)

(** What [udpd.new] gives the script: results or an error, or its coroutine
    waits. *)
Inductive made : Type := Returned (r : outcome (list lua_value)) | Waiting.

Record new_env : Type := mk_new {
  n_ifindex : list Z -> Z;
  n_sys : usys;
  n_dns : dns_start
}.

Definition udpd_config_of (v : new_env) (t : T) (w : uconn) : uconn :=
  on_uconn (fun c => set_config (udpd_config_from_lua_table (n_ifindex v) t) (worker_id c) c) w.
Definition extract_interface (v : new_env) (t : T) w : uconn :=
  let i := udpd_extract_interface_from_lua (n_ifindex v) t in
  on_uconn (fun c =>
    let f := u_config c in
    set_config (mk_uconfig (set_interface i (base f)) (broadcast_enabled f) (multicast_enabled f) (multicast_group f) (multicast_ttl f) (reuse_addr f) (reuse_port f))
      (match field_of t "worker" with LInt n => s32 n | _ => worker_id c end) c) w.

(** An error return of [udpd.new]. *)
Definition new_failed (msg : list Z) w : outcome (made * uconn) :=
  w ← udpd_base_conn_cleanup w; mret (Returned (Ret [LNil; LStr msg]), w).
Definition store_self w : uconn :=
  if callback_self_first (base (u_config (x_conn w))) then put_life (x_alive w) true w else w.

(** A target in text form: the object is not put into the weak table. *)
Definition new_direct (v : new_env) (host : list Z) w : outcome (made * uconn) :=
  let y := n_sys v in
  let '(r, a, l) := udpd_create_address_from_string host (u_port (x_conn w)) (u_addr (x_conn w)) (u_addrlen (x_conn w)) in
  let w := on_uconn (set_addr a l) w in
  if r <? 0 then new_failed (lit "Failed to create address from IP") w
  else
    '(r, w) ← udpd_base_conn_create_socket y w;
    if r <? 0 then new_failed (lit "Failed to create UDP socket") w
    else
      '(r, w) ← (match u_bind_host (x_conn w) with Some _ => udpd_base_conn_bind y w | None => Ret (0, w) end);
      if r <? 0 then new_failed (lit "Failed to bind UDP socket") w
      else
        '(r, w) ← udpd_base_conn_setup_events y w;
        if r <? 0 then new_failed (lit "Failed to setup events") w
        else mret (Returned (Ret [self]), on_uconn (set_state UDPD_CONN_READY) w).

Definition new_resolving (v : new_env) (co : list lua_value -> uscript) w : outcome (made * uconn) :=
  '(r, w) ← udpd_dns_resolve_for_connection (n_sys v) (n_dns v) co w;
  if r <? 0 then new_failed (lit "Failed to start DNS resolution") w
  else mret (Waiting, store_self w).

Definition new_bound (v : new_env) w : outcome (made * uconn) :=
  let y := n_sys v in
  '(r, w) ← udpd_base_conn_create_socket y w;
  if r <? 0 then new_failed (lit "Failed to create UDP socket") w
  else
    '(r, w) ← udpd_base_conn_bind y w;
    if r <? 0 then new_failed (lit "Failed to bind UDP socket") w
    else
      '(r, w) ← udpd_base_conn_setup_events y w;
      if r <? 0 then new_failed (lit "Failed to setup events") w
      else mret (Returned (Ret [self]), store_self w).

Definition fresh_uconn (reg : gmap positive regval) : uconn :=
  mk_uconn udpd_base_conn_init true false reg ∅ ∅ false false false [] [].

(** Everything up to the choice between the three kinds of connection: an error
    message when the table is refused. *)
Definition configured (v : new_env) (t : T) (reg : gmap positive regval) : option (list Z) * uconn :=
  let w := udpd_base_conn_set_callbacks t (udpd_config_of v t (fresh_uconn reg)) in
  let host := typed_string t "host" in
  let port := typed_int t "port" 0 in
  let w := on_uconn (set_names host None port 0) w in
  let b := field_of t "bind_host" in
  let bind_host := typed_string t "bind_host" in
  let w := on_uconn (set_names host bind_host port 0) w in
  if is_string b && negb (match bind_host with Some _ => true | None => false end)
  then (Some (lit "memory allocation failed for bind_host"), w)
  else
    let bind_port := typed_int t "bind_port" 0 in
    if (bind_port <? 0) || (65535 <? bind_port)
    then (Some (lit "bind_port out of range (0-65535): " ++ dec_of_Z bind_port), w)
    else (None, REF_STATE_SET (extract_interface v t (on_uconn (set_names host bind_host port bind_port) w))).

Definition udpd_new (v : new_env) (t : T) (co : list lua_value -> uscript) (reg : gmap positive regval) : outcome (made * uconn) :=
  match configured v t reg with
  | (Some msg, w) => Ret (Returned (Raise msg), w)
  | (None, w) =>
      match u_host (x_conn w) with
      | Some host =>
          if 0 <? u_port (x_conn w) then
            if udpd_is_ip_address host then new_direct v host w else new_resolving v co w
          else new_bound v w
      | None => new_bound v w
      end
  end.
End Udpd.
