(* ===== verification/UdpdLife.v ===== *)
(** * What holds of a UDP connection through its life

    Scripts calling its methods, sockets becoming ready, the resolver answering and
    the collector, as steps.  The invariant relates the object, its socket, its
    events and the registry. *)

From S2P Require Import Prelude Lua LuaState Double Registry Loop TcpdConfig UdpdAddr UdpdConfig Udpd.

(** Scripts that keep the object while they use it, and resolver answers that are
    addresses. *)
Definition sys_ok (y : usys) : Prop := forall h p a, y_getaddrinfo y h p = Some a -> Zlen a <= SS_SIZE.
Definition call_ok (c : ucall) : Prop := match c with UCollect => False | URebind y => sys_ok y | _ => True end.
Fixpoint script_ok (s : uscript) : Prop := match s with UDone => True | UCall c k => call_ok c /\ forall r, script_ok (k r) end.
Definition answer_ok (a : dns_answer) : Prop := match a with DnsFound addr => Zlen addr <= SS_SIZE | _ => True end.

Definition urefs (c : udpd_base_conn_t) : list positive := opt_list (u_onRead c) ++ opt_list (u_onSendReady c).
(** The entries that are not callbacks: those of others, and the coroutine that
    created the connection. *)
Definition held (F : gmap positive regval) (a : sref) : gmap positive regval :=
  match a with Ref r => <[r := RThread]> F | _ => F end.

Record events_ok (c : udpd_base_conn_t) (evs : gmap positive uevent) : Prop := {
  e_read : forall p, read_ev c = Some p -> exists a, evs !! p = Some (mk_uevent (socket_fd c) false a);
  e_write : forall p, write_ev c = Some p -> exists a, evs !! p = Some (mk_uevent (socket_fd c) true a);
  e_only : forall p, is_Some (evs !! p) -> read_ev c = Some p \/ write_ev c = Some p;
  e_fd : read_ev c <> None \/ write_ev c <> None -> 0 <= socket_fd c
}.
Definition fds_of (c : udpd_base_conn_t) : gset Z := if 0 <=? socket_fd c then {[socket_fd c]} else ∅.

(** [v_shut]: a connection is cleaned up when its mutex is destroyed.  [v_waits]:
    while the resolver has the request, the registry holds the coroutine on whose
    stack the object is. *)
Record uinv (F : gmap positive regval) (w : uconn) : Prop := {
  v_reg : reg_inv (held F (u_ref (x_conn w))) (urefs (x_conn w)) (x_reg w);
  v_exact : reg_exact (held F (u_ref (x_conn w))) (urefs (x_conn w)) (x_reg w);
  v_own : forall r, u_ref (x_conn w) = Ref r -> F !! r = None;
  v_fds : x_fds w = fds_of (x_conn w);
  v_events : events_ok (x_conn w) (x_events w);
  v_shut : event_mutex (x_conn w) = false -> urefs (x_conn w) = [] /\ u_ref (x_conn w) = RefNone /\
    read_ev (x_conn w) = None /\ write_ev (x_conn w) = None;
  v_misuse : x_misuse w = true -> event_mutex (x_conn w) = false;
  v_alive : x_alive w = false -> event_mutex (x_conn w) = false /\ socket_fd (x_conn w) < 0;
  v_waits : x_pending w = true -> x_alive w = true /\ socket_fd (x_conn w) < 0 /\ u_state (x_conn w) = UDPD_CONN_RESOLVING /\
    (exists r, u_ref (x_conn w) = Ref r)
}.

(** What the methods and the cleanup leave alone. *)
Record keeps (w w' : uconn) : Prop := {
  p_alive : x_alive w' = x_alive w;
  p_weak : x_weak w' = x_weak w;
  p_pending : x_pending w' = x_pending w;
  p_calls : x_calls w' = x_calls w;
  p_sent : exists l, x_sent w' = x_sent w ++ l;
  p_shut : event_mutex (x_conn w) = false -> event_mutex (x_conn w') = false
}.
#[export] Instance keeps_preorder : PreOrder keeps.
Proof.
  split.
  - intros w. constructor; try done. exists []. by rewrite app_nil_r.
  - intros w1 w2 w3 [A1 A2 A3 A4 [l A5] A6] [B1 B2 B3 B4 [k B5] B6]. constructor; try congruence; [|auto].
    exists (l ++ k). by rewrite B5, A5, app_assoc.
Qed.
Ltac keeps_tac := constructor; try done; exists []; by rewrite app_nil_r.

(** ** Registry, events, socket *)

Definition regs (F : gmap positive regval) (c : udpd_base_conn_t) (reg : gmap positive regval) : Prop :=
  reg_inv (held F (u_ref c)) (urefs c) reg /\ reg_exact (held F (u_ref c)) (urefs c) reg /\ (forall r, u_ref c = Ref r -> F !! r = None).

Lemma uinv_regs F w : uinv F w -> regs F (x_conn w) (x_reg w).
Proof. intros []. done. Qed.

Section Pieces.
Implicit Type w : uconn.
Implicit Type F : gmap positive regval.

Lemma clear_uread F w : regs F (x_conn w) (x_reg w) -> exists reg,
  CLEAR_UREAD w = Ret (on_uconn (fun c => set_refs (u_ref c) None (u_onSendReady c) c) (put_reg reg w)) /\
  regs F (set_refs (u_ref (x_conn w)) None (u_onSendReady (x_conn w)) (x_conn w)) reg.
Proof.
  intros (Hi & He & Ho). unfold CLEAR_UREAD, regs, urefs in *. cbn. destruct (u_onRead (x_conn w)) as [r|] eqn:Er; cbn.
  - destruct (reg_inv_del _ [] _ _ _ Hi) as [[v Hr] Hi']. apply (reg_exact_del _ []) in He. unfold luaL_unref. rewrite Hr. cbn. by exists (delete r (x_reg w)).
  - exists (x_reg w). split; [by destruct w|done].
Qed.
Lemma clear_usendready F w : regs F (x_conn w) (x_reg w) -> exists reg,
  CLEAR_USENDREADY w = Ret (on_uconn (fun c => set_refs (u_ref c) (u_onRead c) None c) (put_reg reg w)) /\
  regs F (set_refs (u_ref (x_conn w)) (u_onRead (x_conn w)) None (x_conn w)) reg.
Proof.
  intros (Hi & He & Ho). unfold CLEAR_USENDREADY, regs, urefs in *. cbn. destruct (u_onSendReady (x_conn w)) as [r|] eqn:Er; cbn.
  - destruct (reg_inv_del _ (opt_list (u_onRead (x_conn w))) [] _ _ Hi) as [[v Hr] Hi']. apply (reg_exact_del _ (opt_list (u_onRead (x_conn w))) []) in He.
    unfold luaL_unref. rewrite Hr. cbn. by exists (delete r (x_reg w)).
  - exists (x_reg w). split; [by destruct w|done].
Qed.
Lemma clear_ref F w : regs F (x_conn w) (x_reg w) -> exists reg u,
  REF_STATE_CLEAR w = Ret (on_uconn (fun c => set_refs RefNone (u_onRead c) (u_onSendReady c) c) (flagged (x_misuse w) u (put_reg reg w))) /\
  regs F (set_refs RefNone (u_onRead (x_conn w)) (u_onSendReady (x_conn w)) (x_conn w)) reg /\
  (u = true -> x_unref0 w = true \/ u_ref (x_conn w) = RefZero).
Proof.
  intros (Hi & He & Ho). unfold REF_STATE_CLEAR, regs, urefs in *. cbn. destruct (u_ref (x_conn w)) as [| |r] eqn:Er; cbn in *.
  - exists (x_reg w), true. split; [done|]. split; [done|]. by right.
  - exists (x_reg w), (x_unref0 w). split; [by destruct w|]. split; [done|]. by left.
  - destruct (reg_inv_unthread F _ _ r (Ho r eq_refl) Hi) as [[v Hr] Hi']. apply reg_exact_unthread in He. unfold luaL_unref. rewrite Hr. cbn.
    exists (delete r (x_reg w)), (x_unref0 w). split; [done|]. split; [done|]. by left.
Qed.

(** All references given back: only what others hold is left. *)
Lemma regs_done F c reg : regs F c reg -> urefs c = [] -> u_ref c = RefNone -> reg = F.
Proof. intros (Hi & He & _) Hr Ha. rewrite Hr, Ha in *. by apply reg_done. Qed.

Definition del_evs (p : option positive) (m : gmap positive uevent) : gmap positive uevent := match p with Some q => delete q m | None => m end.
Lemma free_opt_spec p w : (forall q, p = Some q -> is_Some (x_events w !! q)) -> free_opt p w = Ret (put_events (del_evs p (x_events w)) w).
Proof.
  intros Hp. destruct p as [q|]; cbn; [|by destruct w]. unfold event_free. by destruct (Hp q eq_refl) as [e ->].
Qed.
Lemma drop_opt_spec p w : (forall q, p = Some q -> is_Some (x_events w !! q)) -> drop_opt p w = Ret (put_events (del_evs p (x_events w)) w).
Proof.
  intros Hp. destruct p as [q|]; cbn; [|by destruct w]. unfold event_del, event_mark, event_free. destruct (Hp q eq_refl) as [e ->]. cbn.
  by rewrite lookup_insert_eq, delete_insert_eq.
Qed.

Lemma events_none c : events_ok c ∅ <-> read_ev c = None /\ write_ev c = None.
Proof.
  split.
  - intros [Hr Hw _ _]. split; [destruct (read_ev c); [|done]; destruct (Hr _ eq_refl) as [? ?]; by simplify_map_eq|].
    destruct (write_ev c); [|done]. destruct (Hw _ eq_refl) as [? ?]. by simplify_map_eq.
  - intros [Hr Hw]. constructor; intros *; rewrite ?Hr, ?Hw; try done; try (intros [? ?]; by simplify_map_eq). intros [?|?]; done.
Qed.
Lemma events_freed c evs : events_ok c evs -> del_evs (write_ev c) (del_evs (read_ev c) evs) = ∅.
Proof.
  intros [_ _ Ho _]. apply map_empty. intros p. destruct (_ !! p) eqn:E; [exfalso|done].
  destruct (read_ev c) as [r|], (write_ev c) as [s|]; cbn in E; rewrite ?lookup_delete_Some in E; destruct_and?; (destruct (Ho p); [by eexists|..]); congruence.
Qed.
Lemma write_survives c evs q : events_ok c evs -> write_ev c = Some q -> is_Some (del_evs (read_ev c) evs !! q).
Proof.
  intros [Hr Hw _ _] Eq. destruct (Hw q Eq) as [a Ha]. destruct (read_ev c) as [r|] eqn:Er; cbn; [|by eexists].
  destruct (Hr r eq_refl) as [b Hb]. exists (mk_uevent (socket_fd c) true a). apply lookup_delete_Some. split; [congruence|done].
Qed.
Lemma read_there c evs q : events_ok c evs -> read_ev c = Some q -> is_Some (evs !! q).
Proof. intros [Hr _ _ _] Eq. destruct (Hr q Eq) as [a Ha]. by eexists. Qed.
End Pieces.

(** What is left of a connection that has been cleaned up. *)
Record released (F : gmap positive regval) (w : uconn) : Prop := {
  l_reg : x_reg w = F;
  l_fds : x_fds w = ∅;
  l_events : x_events w = ∅;
  l_fd : socket_fd (x_conn w) < 0;
  l_mutex : event_mutex (x_conn w) = false;
  l_state : u_state (x_conn w) = UDPD_CONN_DISCONNECTED;
  l_dns : dns_request (x_conn w) = None
}.

Section Cleanup.
Implicit Type w : uconn.
Implicit Type F : gmap positive regval.

Lemma close_own w : x_fds w = fds_of (x_conn w) ->
  close_socket w =
  Ret (on_uconn (fun c => set_sock (if 0 <=? socket_fd c then -1 else socket_fd c) (u_state c) c) (put_fds ∅ w)).
Proof.
  intros Hf. unfold close_socket. cbn. unfold closesocket. rewrite Hf. unfold fds_of. destruct (0 <=? socket_fd (x_conn w)) eqn:E.
  - rewrite decide_True by set_solver. unfold on_uconn, put_fds. cbn. rewrite E, difference_diag_L. done.
  - cbn. f_equal. unfold fds_of in Hf. rewrite E in Hf. unfold on_uconn, put_fds, set_sock. cbn. rewrite E, <- Hf. destruct w as [[] ? ? ? ? ? ? ? ? ? ?]; done.
Qed.

(** What clearing the references leaves as it was. *)
Definition same_io (w w' : uconn) : Prop :=
  socket_fd (x_conn w') = socket_fd (x_conn w) /\ read_ev (x_conn w') = read_ev (x_conn w) /\ write_ev (x_conn w') = write_ev (x_conn w) /\
  event_mutex (x_conn w') = event_mutex (x_conn w) /\ x_fds w' = x_fds w /\ x_events w' = x_events w /\ x_misuse w' = x_misuse w /\ keeps w w'.
Definition no_refs F w : Prop := urefs (x_conn w) = [] /\ u_ref (x_conn w) = RefNone /\ x_reg w = F.

Lemma keeps_refl w : keeps w w.
Proof. reflexivity. Qed.

Lemma clear_refs_spec F w : uinv F w -> exists w', clear_refs w = Ret w' /\
  same_io w w' /\ no_refs F w' /\ (x_unref0 w' = true -> x_unref0 w = true \/ u_ref (x_conn w) = RefZero).
Proof.
  intros Hi. unfold clear_refs.
  destruct (clear_uread F w (uinv_regs F w Hi)) as (reg1 & -> & H1). cbn [mbind outcome_bind].
  set (w1 := on_uconn _ (put_reg reg1 w)). destruct (clear_usendready F w1 H1) as (reg2 & -> & H2). cbn [mbind outcome_bind].
  set (w2 := on_uconn _ (put_reg reg2 w1)). destruct (clear_ref F w2 H2) as (reg3 & u & -> & H3 & Hu).
  assert (Hreg : reg3 = F) by (by eapply (regs_done F _ _ H3)). subst reg3. eexists. split; [done|].
  split; [repeat (split; [done|]); keeps_tac|]. split; [done|]. exact Hu.
Qed.

(** Both events freed under the mutex. *)
Lemma free_both_spec F w : events_ok (x_conn w) (x_events w) -> no_refs F w ->
  exists w', free_events w = Ret w' /\
  no_refs F w' /\ keeps w w' /\ read_ev (x_conn w') = None /\ write_ev (x_conn w') = None /\ x_events w' = ∅ /\
  socket_fd (x_conn w') = socket_fd (x_conn w) /\ x_fds w' = x_fds w /\ event_mutex (x_conn w') = event_mutex (x_conn w) /\
  x_unref0 w' = x_unref0 w /\ (x_misuse w' = true -> x_misuse w = true \/ event_mutex (x_conn w) = false).
Proof.
  intros Hev Hr. unfold free_events. cbn zeta.
  assert (Hl : exists m, lock_events w = flagged m (x_unref0 w) w /\ (m = true -> x_misuse w = true \/ event_mutex (x_conn w) = false)).
  { unfold lock_events. destruct (event_mutex (x_conn w)); [|by exists true; auto]. exists (x_misuse w). split; [by destruct w|by left]. }
  destruct Hl as (m & -> & Hm). cbn [x_conn flagged].
  rewrite drop_opt_spec by (intros q; by apply read_there). cbn [mbind outcome_bind].
  rewrite drop_opt_spec by (intros q; cbn; by apply write_survives). cbn [mbind outcome_bind].
  eexists. split; [done|]. split; [exact Hr|]. split; [keeps_tac|]. split; [done|]. split; [done|].
  split; [cbn; by apply events_freed|]. done.
Qed.

Lemma udpd_cleanup_spec F w : uinv F w -> x_pending w = false ->
  returns (udpd_base_conn_cleanup w) (fun w' =>
    uinv F w' /\ keeps w w' /\ released F w' /\ (x_misuse w' = true <-> event_mutex (x_conn w) = false) /\
    (x_unref0 w' = true -> x_unref0 w = true \/ u_ref (x_conn w) = RefZero)).
Proof.
  intros Hi Hp. destruct (clear_refs_spec F w Hi) as (w1 & E1 & (S1 & S2 & S3 & S4 & S5 & S6 & S7 & Hk1) & Hn1 & Hu1).
  unfold udpd_base_conn_cleanup. rewrite E1. cbn [mbind outcome_bind]. clear E1.
  assert (Hk1' : keeps w (on_uconn (fun c => set_names None None (u_port c) (u_bind_port c) c) w1)) by (etrans; [exact Hk1|keeps_tac]).
  set (w2 := on_uconn _ w1) in *.
  assert (S : socket_fd (x_conn w2) = socket_fd (x_conn w) /\ event_mutex (x_conn w2) = event_mutex (x_conn w) /\ x_fds w2 = x_fds w /\
    x_misuse w2 = x_misuse w /\ no_refs F w2 /\ x_unref0 w2 = x_unref0 w1 /\ events_ok (x_conn w2) (x_events w2)).
  { repeat (split; [done|]). destruct (v_events _ _ Hi) as [V1 V2 V3 V4]. constructor; cbn; rewrite ?S1, ?S2, ?S3, ?S6; done. }
  clearbody w2. destruct S as (T1 & T2 & T3 & T4 & Hn2 & T5 & Hev2).
  destruct (free_both_spec F w2 Hev2 Hn2) as (w3 & -> & Hn3 & Hk3 & R1 & R2 & R3 & R4 & R5 & R6 & R7 & R8). cbn [mbind outcome_bind].
  rewrite close_own by (unfold fds_of; rewrite R5, R4, T3, T1; apply Hi). cbn [mbind outcome_bind mret outcome_ret returns].
  assert (Hfd : (if 0 <=? socket_fd (x_conn w3) then -1 else socket_fd (x_conn w3)) < 0) by (destruct (Z.leb_spec 0 (socket_fd (x_conn w3))); lia).
  assert (Hk : keeps w w3) by (etrans; [exact Hk1'|exact Hk3]). clear Hk1 Hk1' Hk3.
  set (w6 := on_uconn forget _).
  assert (K : released F (destroy_mutex w6) /\ keeps w3 (destroy_mutex w6) /\ urefs (x_conn (destroy_mutex w6)) = [] /\
    u_ref (x_conn (destroy_mutex w6)) = RefNone /\ read_ev (x_conn (destroy_mutex w6)) = None /\ write_ev (x_conn (destroy_mutex w6)) = None /\
    x_unref0 (destroy_mutex w6) = x_unref0 w3 /\ (x_misuse (destroy_mutex w6) = true <-> event_mutex (x_conn w) = false)).
  { destruct Hn3 as (N1 & N2 & N3). unfold destroy_mutex, lock_events. change (event_mutex (x_conn w6)) with (event_mutex (x_conn w3)). rewrite R6, T2.
    destruct (event_mutex (x_conn w)) eqn:Em; (split; [constructor; done|]); (split; [keeps_tac|]); do 5 (split; [done|]); (split; [|done]).
    - intros Hm. destruct (R8 Hm) as [Hm2|]; [|congruence]. rewrite T4 in Hm2. apply (v_misuse _ _ Hi) in Hm2. congruence.
    - done. }
  clearbody w6. destruct K as (Hrel & Hk2 & Q1 & Q2 & Q3 & Q4 & Q5 & Q6). pose proof Hrel as [L1 L2 L3 L4 L5 L6 L7].
  assert (Hk' : keeps w (destroy_mutex w6)) by (by etrans).
  split; [|split; [done|]; split; [done|]; split; [done|]].
  - constructor; rewrite ?Q1, ?Q2, ?L1, ?L5; try done.
    + split; [done|]. split; [by apply NoDup_nil|]. by intros r ?%not_elem_of_nil.
    + intros r ?. by left.
    + rewrite L2. unfold fds_of. by replace (0 <=? socket_fd _) with false by lia.
    + rewrite L3. by apply events_none.
    + intros Hx. rewrite (p_pending _ _ Hk') in Hx. congruence.
  - rewrite Q5, R7, T5. exact Hu1.
Qed.
End Cleanup.

(** ** Opening a socket *)

(** What the invariant depends on. *)
Definition core w :=
  ((u_ref (x_conn w), u_onRead (x_conn w), u_onSendReady (x_conn w), socket_fd (x_conn w)),
   (read_ev (x_conn w), write_ev (x_conn w), event_mutex (x_conn w)),
   (x_reg w, x_fds w, x_events w), (x_misuse w, x_alive w, x_pending w)).
Lemma uinv_core F w w' : core w' = core w -> x_pending w = false -> uinv F w -> uinv F w'.
Proof.
  intros [= E1 E2 E3 E4 E5 E6 E7 E8 E9 E10 E11 E12 E13] Hp [I1 I2 I3 I4 I5 I6 I7 I8 I9].
  constructor; unfold urefs, fds_of in *; rewrite ?E1, ?E2, ?E3, ?E4, ?E5, ?E6, ?E7, ?E8, ?E9, ?E10, ?E11, ?E12, ?E13; try done.
  - destruct I5. constructor; rewrite ?E4, ?E5, ?E6; done.
  - intros. congruence.
Qed.

(** What opening, binding and watching a socket leave alone. *)
Record stable (w w' : uconn) : Prop := {
  s_keeps : keeps w w';
  s_ref : u_ref (x_conn w') = u_ref (x_conn w);
  s_read : u_onRead (x_conn w') = u_onRead (x_conn w);
  s_ready : u_onSendReady (x_conn w') = u_onSendReady (x_conn w);
  s_mutex : event_mutex (x_conn w') = event_mutex (x_conn w);
  s_reg : x_reg w' = x_reg w;
  s_unref0 : x_unref0 w' = x_unref0 w;
  s_addr : u_addr (x_conn w') = u_addr (x_conn w) /\ u_addrlen (x_conn w') = u_addrlen (x_conn w);
  s_config : u_config (x_conn w') = u_config (x_conn w);
  s_misuse : x_misuse w' = true -> x_misuse w = true \/ event_mutex (x_conn w) = false
}.
#[export] Instance stable_preorder : PreOrder stable.
Proof.
  split.
  - intros w. constructor; try done; by left.
  - intros w1 w2 w3 [A1 A2 A3 A4 A5 A6 A7 [A8 A8'] A9 A10] [B1 B2 B3 B4 B5 B6 B7 [B8 B8'] B9 B10]. constructor; try congruence; try (by etrans).
    + split; congruence.
    + intros [?|?]%B10; [auto|]. right. congruence.
Qed.
Ltac stable_tac := constructor; try done; [keeps_tac|by left].

(** No events are there. *)
Definition unwatched w : Prop := read_ev (x_conn w) = None /\ write_ev (x_conn w) = None.

Section Open.
Implicit Type w : uconn.
Implicit Type F : gmap positive regval.

Lemma closed_events F w : uinv F w -> socket_fd (x_conn w) < 0 ->
  read_ev (x_conn w) = None /\ write_ev (x_conn w) = None /\ x_events w = ∅ /\ x_fds w = ∅.
Proof.
  intros Hi Hf. destruct (v_events _ _ Hi) as [V1 V2 V3 V4].
  assert (Hr : read_ev (x_conn w) = None) by (destruct (read_ev (x_conn w)); [exfalso; assert (0 <= socket_fd (x_conn w)) by (apply V4; by left); lia|done]).
  assert (Hw : write_ev (x_conn w) = None) by (destruct (write_ev (x_conn w)); [exfalso; assert (0 <= socket_fd (x_conn w)) by (apply V4; by right); lia|done]).
  split; [done|]. split; [done|]. split.
  - apply map_empty. intros p. destruct (x_events w !! p) eqn:E; [|done]. destruct (V3 p); [by eexists|congruence..].
  - rewrite (v_fds _ _ Hi). unfold fds_of. by replace (0 <=? socket_fd (x_conn w)) with false by lia.
Qed.

Lemma uinv_sock F w fd st : uinv F w -> socket_fd (x_conn w) < 0 -> x_pending w = false -> x_alive w = true ->
  uinv F (on_uconn (set_sock fd st) (put_fds (if 0 <=? fd then {[fd]} else ∅) w)).
Proof.
  intros Hi Hf Hp Ha. destruct (closed_events F w Hi Hf) as (Er & Ew & Ee & Ed). destruct Hi as [I1 I2 I3 I4 I5 I6 I7 I8 I9].
  constructor; cbn; try done; [|by rewrite Ha|by rewrite Hp]. rewrite Ee. by apply events_none.
Qed.
Lemma uinv_state F w st : uinv F w -> x_pending w = false -> uinv F (on_uconn (set_state st) w).
Proof. intros Hi Hp. by apply (uinv_core F w). Qed.

Lemma socket_error_spec F w fd w0 : uinv F w0 -> socket_fd (x_conn w0) < 0 -> x_pending w0 = false -> x_alive w0 = true -> 0 <= fd ->
  w = on_uconn (set_sock fd (u_state (x_conn w0))) (put_fds {[fd]} w0) ->
  exists w', socket_error fd w = Ret (-1, w') /\ uinv F w' /\ stable w0 w' /\ socket_fd (x_conn w') < 0 /\ unwatched w'.
Proof.
  intros Hi Hf Hp Ha Hfd ->. destruct (closed_events F w0 Hi Hf) as (Er & Ew & _). unfold socket_error, closesocket. replace (0 <=? fd) with true by lia. cbn [x_fds put_fds on_uconn].
  rewrite decide_True by set_solver. cbn [mbind outcome_bind mret outcome_ret]. eexists. split; [done|]. split.
  - apply (uinv_core F (on_uconn (set_sock (-1) UDPD_CONN_ERROR) (put_fds (if 0 <=? -1 then {[-1]} else ∅) w0))).
    + unfold core. cbn. by rewrite difference_diag_L.
    + done.
    + by apply uinv_sock.
  - split; [stable_tac|]. split; [done|by split].
Qed.

Lemma create_socket_spec F y w : uinv F w -> socket_fd (x_conn w) < 0 -> x_pending w = false -> x_alive w = true ->
  returns (udpd_base_conn_create_socket y w) (fun '(r, w') =>
    uinv F w' /\ stable w w' /\ unwatched w' /\ ((r = 0 /\ 0 <= socket_fd (x_conn w')) \/ (r = -1 /\ socket_fd (x_conn w') < 0))).
Proof.
  intros Hi Hf Hp Ha. destruct (closed_events F w Hi Hf) as (Er & Ew & _ & Ed). unfold udpd_base_conn_create_socket.
  set (fd := y_socket y _). cbn zeta. destruct (Z.ltb_spec fd 0) as [Hneg|Hpos].
  { cbn. split; [done|]. split; [reflexivity|]. split; [by split|]. by right. }
  assert (Hset : put_fds ({[fd]} ∪ x_fds w) w = put_fds {[fd]} w) by (by rewrite Ed, union_empty_r_L).
  rewrite Hset. set (w1 := on_uconn _ (put_fds {[fd]} w)).
  destruct (socket_error_spec F w1 fd w Hi Hf Hp Ha Hpos eq_refl) as (w' & He & K1 & K2 & K3 & K4).
  destruct (negb (y_nonblock y)); [rewrite He; cbn; auto 6|].
  destruct (_ <? 0); [rewrite He; cbn; auto 6|]. cbn. split.
  - apply (uinv_core F (on_uconn (set_sock fd UDPD_CONN_BINDING) (put_fds (if 0 <=? fd then {[fd]} else ∅) w))).
    + unfold core. cbn. by replace (0 <=? fd) with true by lia.
    + done.
    + by apply uinv_sock.
  - split; [stable_tac|]. split; [by split|]. by left.
Qed.

Lemma create_bind_host y w r w' : udpd_base_conn_create_socket y w = Ret (r, w') -> u_bind_host (x_conn w') = u_bind_host (x_conn w).
Proof.
  unfold udpd_base_conn_create_socket, socket_error. cbn zeta. destruct (_ <? 0); [by intros [= _ <-]|].
  assert (He : forall fd w1, (w2 ← (if 0 <=? fd then w2 ← closesocket fd w1; mret (on_uconn (fun c => set_sock (-1) (u_state c) c) w2) else Ret w1);
    mret (-1, on_uconn (set_state UDPD_CONN_ERROR) w2)) = Ret (r, w') -> u_bind_host (x_conn w') = u_bind_host (x_conn w1)).
  { intros fd w1. unfold closesocket. destruct (0 <=? fd); [destruct (decide _); [|done]|]; cbn; by intros [= _ <-]. }
  destruct (negb _); [intros Hx; by apply He in Hx|]. destruct (_ <? 0); [intros Hx; by apply He in Hx|]. cbn. by intros [= _ <-].
Qed.

Lemma bind_spec F y w : sys_ok y -> uinv F w -> x_pending w = false ->
  returns (udpd_base_conn_bind y w) (fun '(r, w') =>
    uinv F w' /\ stable w w' /\ socket_fd (x_conn w') = socket_fd (x_conn w) /\ (unwatched w -> unwatched w') /\ (r = 0 \/ r = -1)).
Proof.
  intros Hy Hi Hp. unfold udpd_base_conn_bind. destruct (_ <? 0); [cbn; split; [done|]; split; [reflexivity|]; auto 6|].
  assert (Ht : returns (bind_target y w) (fun o => forall w', o = Some w' -> core w' = core w /\ stable w w')).
  { unfold bind_target. destruct (u_bind_host (x_conn w)) as [host|]; [|cbn; intros w' [= <-]; case_match; (split; [done|stable_tac])].
    destruct (y_getaddrinfo y host _) as [answer|] eqn:Ea; [|done]. apply Hy in Ea. unfold store_addr. replace (Zlen answer <=? SS_SIZE) with true by lia.
    cbn. intros w' [= <-]. split; [done|stable_tac]. }
  eapply returns_bind; [exact Ht|]. intros [w1|] H1; cbn; [|split; [done|]; split; [reflexivity|]; auto 6].
  destruct (H1 w1 eq_refl) as [Hc Hs]. clear H1 Ht.
  assert (Hfd : socket_fd (x_conn w1) = socket_fd (x_conn w)) by (unfold core in Hc; congruence).
  assert (Hun : unwatched w -> unwatched w1) by (unfold core in Hc; unfold unwatched; injection Hc; intros; congruence).
  destruct (negb _); cbn; [split; [by apply (uinv_core F w)|]; split; [done|]; auto|].
  assert (Hl : core (learn_port y w1) = core w1 /\ stable w1 (learn_port y w1)).
  { unfold learn_port. repeat case_match; (split; [done|]); first [reflexivity|stable_tac]. }
  destruct Hl as [Hc2 Hs2]. split.
  - apply (uinv_core F w); [|done|done]. etrans; [|exact Hc]. etrans; [|exact Hc2]. done.
  - split; [etrans; [exact Hs|]; etrans; [exact Hs2|]; stable_tac|]. split; [|split; [|by left]].
    2: { intros Hu%Hun. unfold core in Hc2. unfold unwatched in *. cbn. injection Hc2; intros; split; destruct Hu; congruence. }
    change (socket_fd (x_conn (learn_port y w1)) = socket_fd (x_conn w)). unfold core in Hc2. congruence.
Qed.

Lemma lock_flagged w : exists m, lock_events w = flagged m (x_unref0 w) w /\
  (m = true -> x_misuse w = true \/ event_mutex (x_conn w) = false) /\ (x_misuse w = true -> m = true).
Proof.
  unfold lock_events. destruct (event_mutex (x_conn w)); [|by exists true; auto]. exists (x_misuse w). split; [by destruct w|auto].
Qed.
Lemma lock_inv F w : uinv F w -> x_pending w = false -> uinv F (lock_events w) /\ stable w (lock_events w).
Proof.
  intros Hi Hp. destruct (lock_flagged w) as (m & -> & Hm & _). split.
  - destruct Hi as [I1 I2 I3 I4 I5 I6 I7 I8 I9]. constructor; cbn; try done. intros Hmt. destruct (Hm Hmt); auto.
  - constructor; try done; keeps_tac.
Qed.

Lemma uinv_events F w r s evs : uinv F w -> x_pending w = false -> events_ok (set_events r s (x_conn w)) evs ->
  (event_mutex (x_conn w) = false -> r = None /\ s = None) -> uinv F (on_uconn (set_events r s) (put_events evs w)).
Proof.
  intros [I1 I2 I3 I4 I5 I6 I7 I8 I9] Hp Hev Hm. constructor; cbn; try done.
  intros E. destruct (I6 E) as (? & ? & _). destruct (Hm E). done.
Qed.

Lemma no_events w F : uinv F w -> read_ev (x_conn w) = None -> write_ev (x_conn w) = None -> x_events w = ∅.
Proof.
  intros Hi Hr Hw. apply map_empty. intros p. destruct (x_events w !! p) eqn:E; [|done].
  destruct (e_only _ _ (v_events _ _ Hi) p); [by eexists|congruence..].
Qed.

(** A failing set-up frees the events it made. *)
Lemma events_error_spec F w : uinv F w -> x_pending w = false ->
  exists w', events_error w = Ret (-1, w') /\ uinv F w' /\ stable w w' /\ socket_fd (x_conn w') = socket_fd (x_conn w) /\
    read_ev (x_conn w') = None /\ write_ev (x_conn w') = None.
Proof.
  intros Hi Hp. pose proof (v_events _ _ Hi) as Hev. unfold events_error.
  rewrite free_opt_spec by (intros q; by apply read_there). cbn [mbind outcome_bind].
  rewrite free_opt_spec by (intros q; cbn; by apply write_survives). cbn [mbind outcome_bind mret outcome_ret]. eexists. split; [done|]. split.
  - apply (uinv_core F (on_uconn (set_events None None) (put_events ∅ w))); [unfold core; cbn; by rewrite events_freed|done|].
    apply uinv_events; [done|done|by apply events_none|done].
  - split; [stable_tac|]. done.
Qed.

Lemma read_step_spec F y w : uinv F w -> x_pending w = false -> 0 <= socket_fd (x_conn w) ->
  read_ev (x_conn w) = None -> write_ev (x_conn w) = None ->
  returns (read_step y w) (fun '(ok, w') => uinv F w' /\ stable w w' /\ socket_fd (x_conn w') = socket_fd (x_conn w) /\ write_ev (x_conn w') = None).
Proof.
  intros Hi Hp Hf Hr Hw. pose proof (no_events w F Hi Hr Hw) as He. unfold read_step. destruct (u_onRead (x_conn w)) as [r|] eqn:Eo; [|cbn; split; [done|]; split; [reflexivity|done]].
  destruct (negb _).
  { cbn. split; [|split; [stable_tac|done]]. apply (uinv_core F w); [unfold core; cbn; congruence|done|done]. }
  unfold event_new. rewrite He. set (p := fresh _). set (fd := socket_fd (x_conn w)).
  assert (Hm : event_mutex (x_conn w) = false -> False).
  { intros Em. destruct (v_shut _ _ Hi Em) as (Hu & _). unfold urefs in Hu. by rewrite Eo in Hu. }
  assert (Hok : forall a, uinv F (on_uconn (set_events (Some p) None) (put_events {[p := mk_uevent fd false a]} w))).
  { intros a. apply uinv_events; [done|done| |by intros ?%Hm]. constructor; cbn; [|done| |done].
    - intros q [= <-]. exists a. by rewrite lookup_singleton_eq.
    - intros q [e Hq]. apply lookup_singleton_Some in Hq as [<- _]. by left. }
  destruct (y_add_read y).
  - unfold event_add, event_mark. cbn [x_events on_uconn put_events]. rewrite insert_empty, lookup_singleton_eq. cbn.
    split; [|split; [stable_tac|done]]. apply (uinv_core F (on_uconn (set_events (Some p) None) (put_events {[p := mk_uevent fd false true]} w))); [|done|done].
    unfold core. cbn. by rewrite Hw, insert_singleton_eq.
  - cbn. split; [|split; [stable_tac|done]]. apply (uinv_core F (on_uconn (set_events (Some p) None) (put_events {[p := mk_uevent fd false false]} w))); [|done|done].
    unfold core. cbn. by rewrite Hw, insert_empty.
Qed.
Lemma write_step_spec F y ok w : uinv F w -> x_pending w = false -> 0 <= socket_fd (x_conn w) -> write_ev (x_conn w) = None ->
  returns (write_step y ok w) (fun '(ok, w') => uinv F w' /\ stable w w' /\ socket_fd (x_conn w') = socket_fd (x_conn w)).
Proof.
  intros Hi Hp Hf Hw. unfold write_step. destruct ok, (u_onSendReady (x_conn w)) as [r|] eqn:Eo; try (cbn; split; [done|]; split; [reflexivity|done]).
  destruct (negb _).
  { cbn. split; [|split; [stable_tac|done]]. apply (uinv_core F w); [unfold core; cbn; congruence|done|done]. }
  unfold event_new. set (q := fresh _). set (fd := socket_fd (x_conn w)). cbn [returns mret outcome_ret].
  assert (Hq : x_events w !! q = None) by (apply not_elem_of_dom, is_fresh). destruct (v_events _ _ Hi) as [V1 V2 V3 V4].
  split; [|split; [stable_tac|done]]. apply (uinv_core F (on_uconn (set_events (read_ev (x_conn w)) (Some q)) (put_events (<[q := mk_uevent fd true false]> (x_events w)) w))); [done|done|].
  apply uinv_events; [done|done| |].
  - constructor; cbn; [| | |done].
    + intros p Hpr. destruct (V1 p Hpr) as [a Ha]. exists a. rewrite lookup_insert_ne by congruence. done.
    + intros p [= <-]. exists false. by rewrite lookup_insert_eq.
    + intros p [e He]. destruct (decide (q = p)) as [->|Hne]; [by right|]. rewrite lookup_insert_ne in He by done.
      destruct (V3 p); [by eexists|by left|congruence].
  - intros Em. destruct (v_shut _ _ Hi Em) as (Hu & _). unfold urefs in Hu. rewrite Eo in Hu. by destruct (u_onRead (x_conn w)).
Qed.

Lemma setup_events_spec F y w : uinv F w -> x_pending w = false -> read_ev (x_conn w) = None -> write_ev (x_conn w) = None ->
  returns (udpd_base_conn_setup_events y w) (fun '(r, w') => uinv F w' /\ stable w w' /\ socket_fd (x_conn w') = socket_fd (x_conn w) /\
    (r = 0 \/ (r = -1 /\ read_ev (x_conn w') = None /\ write_ev (x_conn w') = None))).
Proof.
  intros Hi Hp Hr Hw. unfold udpd_base_conn_setup_events. destruct (Z.ltb_spec (socket_fd (x_conn w)) 0) as [Hf|Hf].
  { cbn. split; [done|]. split; [reflexivity|]. auto. }
  destruct (lock_inv F w Hi Hp) as [Hi1 Hs1]. destruct (lock_flagged w) as (m & Hl & _ & _).
  assert (L : socket_fd (x_conn (lock_events w)) = socket_fd (x_conn w) /\ read_ev (x_conn (lock_events w)) = None /\ write_ev (x_conn (lock_events w)) = None /\
    x_pending (lock_events w) = false) by (by rewrite Hl).
  clear Hl. set (w1 := lock_events w) in *. clearbody w1. destruct L as (L1 & L2 & L3 & L4). cbn zeta.
  eapply returns_bind; [by apply (read_step_spec F); try lia|]. intros [ok w2] (Hi2 & Hs2 & E2 & Ew2).
  assert (Hp2 : x_pending w2 = false) by (rewrite (p_pending _ _ (s_keeps _ _ Hs2)); done).
  eapply returns_bind; [apply (write_step_spec F); try done; lia|]. intros [ok' w3] (Hi3 & Hs3 & E3).
  assert (Hp3 : x_pending w3 = false) by (rewrite (p_pending _ _ (s_keeps _ _ Hs3)); done).
  assert (Hs : stable w w3) by (by do 2 (etrans; [eassumption|])). destruct ok'.
  - cbn. split; [by apply uinv_state|]. split; [etrans; [exact Hs|stable_tac]|]. split; [congruence|by left].
  - destruct (events_error_spec F w3 Hi3 Hp3) as (w4 & -> & Hi4 & Hs4 & E4 & Er & Ew). cbn.
    split; [done|]. split; [by etrans|]. split; [congruence|by right].
Qed.

(** Adding an event to the event base, or taking it out. *)
Lemma event_mark_inv F a q w : uinv F w -> x_pending w = false -> read_ev (x_conn w) = Some q \/ write_ev (x_conn w) = Some q ->
  returns (event_mark a q w) (fun w' => uinv F w' /\ stable w w').
Proof.
  intros Hi Hp Hq. pose proof (v_events _ _ Hi) as Hev. destruct Hev as [V1 V2 V3 V4]. unfold event_mark.
  assert (He : exists b k, x_events w !! q = Some (mk_uevent (socket_fd (x_conn w)) k b) /\
    (forall p, read_ev (x_conn w) = Some p -> p = q -> k = false) /\ (forall p, write_ev (x_conn w) = Some p -> p = q -> k = true)).
  { destruct Hq as [Hq|Hq]; [destruct (V1 q Hq) as [b Hb]; exists b, false|destruct (V2 q Hq) as [b Hb]; exists b, true];
      (split; [done|]; split; [|]); intros p Hpe ->; try done; [destruct (V2 q Hpe) as [? ?]|destruct (V1 q Hpe) as [? ?]]; congruence. }
  destruct He as (b & k & -> & Hkr & Hkw). cbn. split; [|stable_tac].
  apply (uinv_core F (on_uconn (set_events (read_ev (x_conn w)) (write_ev (x_conn w))) (put_events (<[q := mk_uevent (socket_fd (x_conn w)) k a]> (x_events w)) w))); [done|done|].
  apply uinv_events; [done|done| |intros Em; apply (v_shut _ _ Hi Em)]. constructor; cbn; [| | |done].
  - intros p Hpr. destruct (decide (q = p)) as [<-|]; [exists a; rewrite lookup_insert_eq; by rewrite (Hkr q)|]. rewrite lookup_insert_ne by done. by apply V1.
  - intros p Hpr. destruct (decide (q = p)) as [<-|]; [exists a; rewrite lookup_insert_eq; by rewrite (Hkw q)|]. rewrite lookup_insert_ne by done. by apply V2.
  - intros p Hs. apply V3. destruct (decide (q = p)) as [<-|]; [|by rewrite lookup_insert_ne in Hs].
    destruct Hq as [Hq|Hq]; [destruct (V1 q Hq) as [? ->]|destruct (V2 q Hq) as [? ->]]; by eexists.
Qed.
End Open.

(** ** Methods and scripts *)

Section Calls.
Context {T : Type} `{LuaTable T} `{LuaAPI} `{Allocator} `{Inet}.
Implicit Type w : uconn.
Implicit Type F : gmap positive regval.

Definition call_keeps F w (r : call) : Prop := returns r (fun '(_, w') => uinv F w' /\ keeps w w').
Lemma keeps_result F w v w' : uinv F w' -> keeps w w' -> call_keeps F w (result v w').
Proof. done. Qed.
Lemma stays_result F w v : uinv F w -> call_keeps F w (result v w).
Proof. intros Hi. by apply keeps_result. Qed.

Lemma send_datagram_keeps F w data addr sent text : uinv F w -> x_pending w = false -> 0 <= socket_fd (x_conn w) ->
  call_keeps F w (send_datagram data addr sent text w).
Proof.
  intros Hi Hp Hf. unfold send_datagram. rewrite decide_True.
  - destruct (sent <? 0); [by apply stays_result|]. apply keeps_result; [by apply (uinv_core F w)|]. constructor; try done. by exists [(data, addr)].
  - rewrite (v_fds _ _ Hi). unfold fds_of. replace (0 <=? socket_fd (x_conn w)) with true by lia. set_solver.
Qed.
Lemma send_keeps F w args dest sent text : uinv F w -> x_pending w = false -> call_keeps F w (udpd_conn_send args dest sent text w).
Proof.
  intros Hi Hp. unfold udpd_conn_send, luaL_checklstring. destruct (lua_tolstring _) as [data|]; [|by apply stays_result].
  destruct (negb _); [by apply stays_result|]. destruct (Z.ltb_spec (socket_fd (x_conn w)) 0); [by apply stays_result|].
  destruct dest as [[d|]|]; cbn [check_dest]; [by apply send_datagram_keeps|by apply stays_result|].
  destruct (_ =? 0); [by apply stays_result|by apply send_datagram_keeps].
Qed.
Lemma send_request_keeps F w added : uinv F w -> x_pending w = false -> call_keeps F w (udpd_conn_send_request added w).
Proof.
  intros Hi Hp. unfold udpd_conn_send_request, udpd_base_conn_request_send_ready. destruct (u_onSendReady _) as [o|]; [|by apply stays_result].
  destruct (lock_inv F w Hi Hp) as [Hi1 Hs1]. assert (Hp1 : x_pending (lock_events w) = false) by (rewrite (p_pending _ _ (s_keeps _ _ Hs1)); done).
  set (w1 := lock_events w) in *. clearbody w1. pose proof (s_keeps _ _ Hs1) as Hk. cbn zeta.
  destruct (write_ev (x_conn w1)) as [q|] eqn:Eq; [|by unfold call_keeps; cbn].
  destruct added; [|by unfold call_keeps; cbn]. eapply returns_bind; [eapply returns_bind; [apply (event_mark_inv F true q w1); auto|]|].
  - intros w2 Hw2. by instantiate (1 := fun '(r, w2) => uinv F w2 /\ stable w1 w2).
  - intros [r w2] [Hi2 Hs2]. destruct (r <? 0); (apply keeps_result; [done|etrans; [exact Hk|apply Hs2]]).
Qed.
Lemma close_keeps F w : uinv F w -> x_pending w = false -> call_keeps F w (udpd_conn_close w).
Proof.
  intros Hi Hp. unfold udpd_conn_close, call_keeps. eapply returns_bind; [by apply (udpd_cleanup_spec F)|]. by intros w' (K1 & K2 & _).
Qed.

(** Closing the socket of a connection without events. *)
Lemma close_socket_spec F w st : uinv F w -> x_pending w = false -> x_alive w = true -> read_ev (x_conn w) = None -> write_ev (x_conn w) = None ->
  uinv F (on_uconn (set_sock (if 0 <=? socket_fd (x_conn w) then -1 else socket_fd (x_conn w)) st) (put_fds ∅ w)).
Proof.
  intros Hi Hp Ha Hr Hw. pose proof (no_events w F Hi Hr Hw) as He. destruct Hi as [I1 I2 I3 I4 I5 I6 I7 I8 I9]. constructor; cbn; try done.
  - unfold fds_of. cbn. destruct (Z.leb_spec 0 (socket_fd (x_conn w))); [done|]. by replace (0 <=? socket_fd (x_conn w)) with false by lia.
  - rewrite He. by apply events_none.
  - by rewrite Ha.
  - by rewrite Hp.
Qed.
Lemma rebind_failed_keeps F w w0 msg : uinv F w0 -> x_pending w0 = false -> x_alive w0 = true -> read_ev (x_conn w0) = None -> write_ev (x_conn w0) = None ->
  0 <= socket_fd (x_conn w0) -> keeps w w0 -> call_keeps F w (rebind_failed msg w0).
Proof.
  intros Hi Hp Ha Hr Hw Hf Hk. unfold rebind_failed, closesocket. pose proof (v_fds _ _ Hi) as Hfd. unfold fds_of in Hfd.
  replace (0 <=? socket_fd (x_conn w0)) with true in Hfd by lia. rewrite Hfd, decide_True by set_solver. cbn [mbind outcome_bind].
  apply keeps_result; [|etrans; [exact Hk|keeps_tac]]. pose proof (close_socket_spec F w0 UDPD_CONN_ERROR Hi Hp Ha Hr Hw) as Hc.
  replace (0 <=? socket_fd (x_conn w0)) with true in Hc by lia. rewrite difference_diag_L. exact Hc.
Qed.

Lemma rebind_keeps F w y : sys_ok y -> uinv F w -> x_pending w = false -> x_alive w = true -> call_keeps F w (lua_udpd_conn_rebind y w).
Proof.
  intros Hy Hi Hp Ha. pose proof (v_events _ _ Hi) as Hev. unfold lua_udpd_conn_rebind.
  rewrite free_opt_spec by (intros q; by apply read_there). cbn [mbind outcome_bind].
  rewrite free_opt_spec by (intros q; cbn; by apply write_survives). cbn [mbind outcome_bind].
  set (w1 := on_uconn (set_events None None) _).
  assert (C1 : uinv F w1 /\ stable w w1 /\ read_ev (x_conn w1) = None /\ write_ev (x_conn w1) = None).
  { split; [|split; [stable_tac|done]].
    apply (uinv_core F (on_uconn (set_events None None) (put_events ∅ w))); [unfold core; cbn; by rewrite events_freed|done|].
    apply uinv_events; [done|done|by apply events_none|done]. }
  clearbody w1. destruct C1 as (Hi1 & Hs1 & Hr1 & Hw1). pose proof (s_keeps _ _ Hs1) as Hk1.
  assert (Hp1 : x_pending w1 = false) by (by rewrite (p_pending _ _ Hk1)). assert (Ha1 : x_alive w1 = true) by (by rewrite (p_alive _ _ Hk1)).
  rewrite close_own by apply Hi1. cbn [mbind outcome_bind].
  set (w2 := on_uconn _ (on_uconn _ (put_fds ∅ w1))).
  assert (C2 : uinv F w2 /\ keeps w1 w2 /\ socket_fd (x_conn w2) < 0 /\ x_pending w2 = false /\ x_alive w2 = true).
  { split; [|split; [keeps_tac|]].
    - apply (uinv_core F (on_uconn (set_sock (if 0 <=? socket_fd (x_conn w1) then -1 else socket_fd (x_conn w1)) UDPD_CONN_DISCONNECTED) (put_fds ∅ w1)));
        [done|done|by apply close_socket_spec].
    - split; [|done]. cbn. destruct (Z.leb_spec 0 (socket_fd (x_conn w1))); [lia|]. by replace (0 <=? socket_fd (x_conn w1)) with false by lia. }
  clearbody w2. destruct C2 as (Hi2 & Hk2 & Hf2 & Hp2 & Ha2). assert (Hk : keeps w w2) by (by etrans). clear Hk1 Hk2.
  eapply returns_bind; [by apply (create_socket_spec F)|]. intros [r w3] (Hi3 & Hs3 & Hu3 & Hr3). pose proof (s_keeps _ _ Hs3) as Hk3.
  assert (Hk' : keeps w w3) by (by etrans). destruct Hr3 as [[-> Hf3]|[-> Hf3]]; cbn [Z.ltb Z.compare]; [|by apply keeps_result].
  assert (Hp3 : x_pending w3 = false) by (by rewrite (p_pending _ _ Hk3)). assert (Ha3 : x_alive w3 = true) by (by rewrite (p_alive _ _ Hk3)).
  eapply returns_bind; [by apply (bind_spec F)|]. intros [r w4] (Hi4 & Hs4 & Hf4 & Hu4 & Hr4). destruct (Hu4 Hu3) as [Er4 Ew4]. pose proof (s_keeps _ _ Hs4) as Hk4.
  assert (Hk5 : keeps w w4) by (by etrans). assert (Hp4 : x_pending w4 = false) by (by rewrite (p_pending _ _ Hk4)).
  assert (Ha4 : x_alive w4 = true) by (by rewrite (p_alive _ _ Hk4)).
  destruct Hr4 as [-> | ->]; cbn [Z.ltb Z.compare]; [|apply (rebind_failed_keeps F w w4); try done; lia].
  eapply returns_bind; [by apply (setup_events_spec F)|]. intros [r w5] (Hi5 & Hs5 & Hf5 & Hr5). pose proof (s_keeps _ _ Hs5) as Hk6.
  assert (Hk7 : keeps w w5) by (by etrans). destruct Hr5 as [-> |(-> & Er5 & Ew5)]; cbn [Z.ltb Z.compare]; [by apply keeps_result|].
  apply (rebind_failed_keeps F w w5); try done; [by rewrite (p_pending _ _ Hk6)|by rewrite (p_alive _ _ Hk6)|lia].
Qed.

Lemma call_spec F w c : call_ok c -> uinv F w -> x_pending w = false -> x_alive w = true -> call_keeps F w (udpd_call c w).
Proof.
  intros Hc Hi Hp Ha. unfold udpd_call, at_conn. rewrite Ha. destruct c.
  - by apply send_keeps.
  - by apply send_request_keeps.
  - by apply close_keeps.
  - by apply rebind_keeps.
  - by apply stays_result.
  - by apply stays_result.
  - done.
Qed.
Lemma script_spec F s : forall w, script_ok s -> uinv F w -> x_pending w = false -> x_alive w = true ->
  returns (run_script s w) (fun w' => uinv F w' /\ keeps w w').
Proof.
  induction s as [|c k IH]; intros w Hs Hi Hp Ha; cbn [run_script]; [cbn; split; [done|reflexivity]|]. destruct Hs as [Hc Hk].
  eapply returns_bind; [by apply (call_spec F)|]. intros [r w1] [Hi1 Hk1].
  eapply returns_mono; [apply (IH r w1 (Hk r) Hi1); [by rewrite (p_pending _ _ Hk1)|by rewrite (p_alive _ _ Hk1)]|].
  intros w2 [Hi2 Hk2]. split; [done|by etrans].
Qed.
End Calls.

(** ** Coroutines of callbacks *)

Section Threads.
Implicit Type w : uconn.
Implicit Type F : gmap positive regval.

Lemma held_thread F a th : (forall r, a = Ref r -> r <> th) -> held (<[th := RThread]> F) a = <[th := RThread]> (held F a).
Proof. intros Hr. destruct a as [| |r]; cbn; [done|done|]. apply insert_insert_ne. by apply Hr. Qed.

Lemma uthread_inv F w : uinv F w -> let th := fresh (dom (x_reg w)) in
  F !! th = None /\ uinv (<[th := RThread]> F) (put_reg (<[th := RThread]> (x_reg w)) w).
Proof.
  intros Hi th. destruct Hi as [I1 I2 I3 I4 I5 I6 I7 I8 I9]. destruct (reg_inv_thread _ _ _ I1) as [Hth Hreg]. fold th in Hth, Hreg.
  assert (Hne : forall r, u_ref (x_conn w) = Ref r -> r <> th).
  { intros r E ->. rewrite E in Hth. cbn in Hth. by rewrite lookup_insert_eq in Hth. }
  assert (HF : F !! th = None).
  { destruct (u_ref (x_conn w)) as [| |r] eqn:E; cbn in Hth; [done|done|]. rewrite lookup_insert_ne in Hth by (by apply Hne). done. }
  split; [done|]. constructor; cbn; try done.
  - by rewrite held_thread.
  - rewrite held_thread by done. by apply reg_exact_thread.
  - intros r E. rewrite lookup_insert_ne by (apply not_eq_sym; by apply Hne). by apply I3.
Qed.
Lemma uunthread_inv F w th : F !! th = None -> uinv (<[th := RThread]> F) w ->
  is_Some (x_reg w !! th) /\ uinv F (put_reg (delete th (x_reg w)) w).
Proof.
  intros Hth [I1 I2 I3 I4 I5 I6 I7 I8 I9].
  assert (Hne : forall r, u_ref (x_conn w) = Ref r -> r <> th).
  { intros r E ->. apply I3 in E. by rewrite lookup_insert_eq in E. }
  rewrite held_thread in I1, I2 by done.
  assert (Hh : held F (u_ref (x_conn w)) !! th = None).
  { destruct (u_ref (x_conn w)) as [| |r] eqn:E; cbn; [done|done|]. rewrite lookup_insert_ne by (by apply Hne). done. }
  destruct (reg_inv_unthread _ _ _ _ Hh I1) as [Hs Hr]. split; [done|]. constructor; cbn; try done.
  - by apply reg_exact_unthread.
  - intros r E. specialize (I3 r E). by rewrite lookup_insert_ne in I3 by (apply not_eq_sym; by apply Hne).
Qed.
End Threads.

Section Callbacks.
Context {T : Type} `{LuaTable T} `{LuaAPI} `{Allocator} `{Inet}.
Context (self : lua_value) (body : positive -> list uarg -> uscript) (Hbody : forall k args, script_ok (body k args)).
Implicit Type w : uconn.
Implicit Type F : gmap positive regval.

(** A callback with the arguments [args] is made, or none, and its script runs. *)
Record reacts (cb : ucallback) w w' : Prop := {
  q_alive : x_alive w' = x_alive w;
  q_weak : x_weak w' = x_weak w;
  q_pending : x_pending w' = x_pending w;
  q_calls : x_calls w' = x_calls w ++ [cb] \/ x_calls w' = x_calls w;
  q_sent : exists l, x_sent w' = x_sent w ++ l
}.
Lemma keeps_reacts cb w w' : keeps w w' -> reacts cb w w'.
Proof. intros []. constructor; auto. Qed.

Lemma ref_function F w r : uinv F w -> r ∈ urefs (x_conn w) -> exists k, x_reg w !! r = Some (RFun k).
Proof. intros Hi Hr. destruct (v_reg _ _ Hi) as (_ & _ & Hl). by apply Hl. Qed.

Lemma udpd_fan_call_spec F ok r cb args w : uinv F w -> x_pending w = false -> x_alive w = true -> r ∈ urefs (x_conn w) ->
  returns (fan_call body ok r cb args w) (fun w' => uinv F w' /\ reacts cb w w' /\
    (ok = true -> exists k w1 w2, x_reg w !! r = Some (RFun k) /\ x_calls w' = x_calls w ++ [cb] /\
       x_conn w1 = x_conn w /\ x_fds w1 = x_fds w /\ x_sent w1 = x_sent w /\ x_alive w1 = true /\
       run_script (body k args) w1 = Ret w2 /\ x_sent w' = x_sent w2 /\ x_conn w' = x_conn w2)).
Proof.
  intros Hi Hp Ha Hr. unfold fan_call. destruct ok; cbn [negb]; [|cbn; split; [done|]; split; [apply keeps_reacts; reflexivity|done]].
  destruct (ref_function F w r Hi Hr) as [k Hk]. unfold luaL_ref. set (th := fresh (dom (x_reg w))).
  destruct (uthread_inv F w Hi) as [Hth Hi1]. fold th in Hth, Hi1. set (w1 := put_reg (<[th := RThread]> (x_reg w)) w) in *.
  assert (Hne : th <> r) by (intros <-; pose proof (is_fresh (dom (x_reg w))) as Hf; apply not_elem_of_dom in Hf; fold th in Hf; congruence).
  cbn [x_reg put_reg]. change (x_reg w1) with (<[th := RThread]> (x_reg w)). rewrite lookup_insert_ne, Hk by done.
  destruct (returns_inv _ _ (script_spec (<[th := RThread]> F) (body k args) (called cb w1) (Hbody k args)
    ltac:(by apply (uinv_core _ w1)) Hp Ha)) as (w2 & E2 & Hi2 & Hk2).
  rewrite E2. cbn [mbind outcome_bind]. destruct (uunthread_inv F w2 th Hth Hi2) as [[v Hv] Hi3]. unfold luaL_unref. rewrite Hv. cbn.
  destruct Hk2 as [A1 A2 A3 A4 A5]. split; [done|]. split; [by constructor; cbn; auto|]. intros _. exists k, (called cb w1), w2. done.
Qed.

Lemma udpd_readcb_spec F ok junk r w : uinv F w -> x_pending w = false -> x_alive w = true ->
  (forall data from, r = RecvGot data from -> Zlen from <= SS_SIZE) ->
  returns (udpd_common_readcb self body ok junk r w) (fun w' => uinv F w' /\ x_alive w' = true /\ x_pending w' = false /\ x_weak w' = x_weak w).
Proof.
  intros Hi Hp Ha Hr. unfold udpd_common_readcb, at_conn. rewrite Ha. destruct (u_onRead (x_conn w)) as [o|] eqn:Eo; [|done].
  destruct r as [again errno|data from].
  - destruct again; [done|]. unfold udpd_handle_read_error. pose proof (uinv_state F w UDPD_CONN_ERROR Hi Hp) as Hi1.
    set (w1 := on_uconn _ w) in *. assert (Hp1 : x_pending w1 = false) by done. assert (Ha1 : x_alive w1 = true) by done.
    change (x_weak w) with (x_weak w1). clearbody w1.
    destruct (lock_inv F w1 Hi1 Hp1) as [Hi2 Hs2]. pose proof (s_keeps _ _ Hs2) as Hk2.
    assert (Hp2 : x_pending (lock_events w1) = false) by (by rewrite (p_pending _ _ Hk2)).
    assert (Ha2 : x_alive (lock_events w1) = true) by (by rewrite (p_alive _ _ Hk2)).
    rewrite <- (p_weak _ _ Hk2). set (w2 := lock_events w1) in *. clearbody w2. cbn zeta. destruct (read_ev (x_conn w2)) as [q|] eqn:Eq; [|done]. cbn [del_opt].
    eapply returns_mono; [apply (event_mark_inv F false q w2); auto|]. intros w3 [Hi3 Hs3]. pose proof (s_keeps _ _ Hs3) as Hk3.
    split; [done|]. destruct Hk3. split; [|split]; congruence.
  - destruct (Zlen data =? 0); [done|]. unfold udpd_process_received_data. destruct (_ =? 0); [done|]. rewrite Eo.
    unfold fresh_dest. specialize (Hr data from eq_refl). replace (Zlen from <=? SS_SIZE) with true by lia. cbn [mbind outcome_bind].
    eapply returns_mono; [apply (udpd_fan_call_spec F); try done; unfold urefs; rewrite Eo; by left|].
    intros w' (Hi' & [Q1 Q2 Q3 Q4 Q5] & _). split; [done|]. split; [|split]; congruence.
Qed.
Lemma udpd_writecb_spec F ok w : uinv F w -> x_pending w = false -> x_alive w = true ->
  returns (udpd_common_writecb self body ok w) (fun w' => uinv F w' /\ x_alive w' = true /\ x_pending w' = false /\ x_weak w' = x_weak w).
Proof.
  intros Hi Hp Ha. unfold udpd_common_writecb, at_conn. rewrite Ha. destruct (u_onSendReady (x_conn w)) as [o|] eqn:Eo; [|done].
  eapply returns_mono; [apply (udpd_fan_call_spec F); try done; unfold urefs; rewrite Eo, elem_of_app; right; by left|].
  intros w' (Hi' & [Q1 Q2 Q3 Q4 Q5] & _). split; [done|]. split; [|split]; congruence.
Qed.

Lemma ref_clear_inv F w : uinv F w -> x_pending w = false ->
  exists w', REF_STATE_CLEAR w = Ret w' /\ uinv F w' /\ keeps w w' /\ x_conn w' = set_refs RefNone (u_onRead (x_conn w)) (u_onSendReady (x_conn w)) (x_conn w) /\
    x_fds w' = x_fds w /\ x_events w' = x_events w.
Proof.
  intros Hi Hp. destruct (clear_ref F w (uinv_regs F w Hi)) as (reg & u & -> & (R1 & R2 & R3) & _). eexists. split; [done|].
  split; [|split; [keeps_tac|done]]. destruct Hi as [I1 I2 I3 I4 I5 I6 I7 I8 I9]. constructor; cbn; try done.
  - by destruct I5; constructor.
  - intros Em. destruct (I6 Em) as (? & ? & ?). done.
  - rewrite Hp. done.
Qed.

(** A resolver answer, from the state in which the coroutine waits. *)
Lemma setup_resolved_spec F y w : sys_ok y -> uinv F w -> socket_fd (x_conn w) < 0 -> x_pending w = false -> x_alive w = true ->
  returns (setup_resolved y w) (fun '(ok, w') => uinv F w' /\ stable w w' /\ (ok = true -> 0 <= socket_fd (x_conn w'))).
Proof.
  intros Hy Hi Hf Hp Ha. unfold setup_resolved. eapply returns_bind; [by apply (create_socket_spec F)|].
  intros [r w1] (Hi1 & Hs1 & Hu1 & Hr1). assert (Hp1 : x_pending w1 = false) by (by rewrite (p_pending _ _ (s_keeps _ _ Hs1))).
  destruct Hr1 as [[-> Hf1]|[-> Hf1]]; cbn [Z.ltb Z.compare]; [|cbn; done].
  eapply returns_bind with (P := fun '(r, w') => uinv F w' /\ stable w1 w' /\ socket_fd (x_conn w') = socket_fd (x_conn w1) /\ (unwatched w1 -> unwatched w') /\ (r = 0 \/ r = -1)).
  { destruct (u_bind_host (x_conn w1)); [by apply bind_spec|]. cbn. split; [done|]. split; [reflexivity|]. auto. }
  intros [r w2] (Hi2 & Hs2 & Hf2 & Hu2 & Hr2). destruct (Hu2 Hu1) as [Er Ew]. assert (Hs : stable w w2) by (by etrans).
  assert (Hp2 : x_pending w2 = false) by (by rewrite (p_pending _ _ (s_keeps _ _ Hs))).
  destruct Hr2 as [-> | ->]; cbn [Z.ltb Z.compare]; [|cbn; done].
  eapply returns_bind; [by apply (setup_events_spec F)|]. intros [r w3] (Hi3 & Hs3 & Hf3 & Hr3). cbn.
  split; [done|]. split; [by etrans|]. intros _. lia.
Qed.

Lemma resolved_args_spec F y answer w : sys_ok y -> answer_ok answer -> uinv F w -> socket_fd (x_conn w) < 0 -> x_pending w = false -> x_alive w = true ->
  returns (resolved_args self y answer w) (fun '(args, w') => uinv F w' /\ keeps w w' /\ u_ref (x_conn w') = u_ref (x_conn w) /\ x_reg w' = x_reg w).
Proof.
  intros Hy Ha Hi Hf Hp Hal. unfold resolved_args. destruct answer as [errcode text|addr].
  - cbn. split; [by apply uinv_state|]. split; [keeps_tac|done].
  - unfold store_addr. cbn [answer_ok] in Ha. replace (Zlen addr <=? SS_SIZE) with true by lia. cbn [mbind outcome_bind].
    set (w1 := on_uconn _ w). assert (Hi1 : uinv F w1) by (by apply (uinv_core F w)). assert (Hk1 : keeps w w1) by keeps_tac.
    eapply returns_bind; [by apply (setup_resolved_spec F)|]. intros [ok w2] (Hi2 & Hs2 & _). pose proof (s_keeps _ _ Hs2) as Hk2.
    assert (Hp2 : x_pending w2 = false) by (by rewrite (p_pending _ _ Hk2)).
    assert (Hk : keeps w w2) by (by etrans). pose proof (s_ref _ _ Hs2) as Er. pose proof (s_reg _ _ Hs2) as Eg.
    destruct ok; [cbn [x_weak on_uconn]; destruct (x_weak w2)|]; cbn; (split; [by apply uinv_state|]); (split; [etrans; [exact Hk|keeps_tac]|done]).
Qed.

Lemma dns_callback_spec F y co answer w : sys_ok y -> answer_ok answer -> (forall args, script_ok (co args)) -> uinv F w ->
  socket_fd (x_conn w) < 0 -> x_pending w = false -> x_alive w = true ->
  returns (udpd_conn_dns_callback self y co answer w) (fun w' => uinv F w' /\ x_alive w' = true /\ x_pending w' = false /\ x_weak w' = x_weak w).
Proof.
  intros Hy Ha Hco Hi Hf Hp Hal. unfold udpd_conn_dns_callback, at_conn. rewrite Hal. destruct (decide _); [done|]. destruct (negb _); [done|].
  eapply returns_bind; [by apply (resolved_args_spec F)|]. intros [args w1] (Hi1 & Hk1 & _).
  assert (Hp1 : x_pending w1 = false) by (by rewrite (p_pending _ _ Hk1)). assert (Ha1 : x_alive w1 = true) by (by rewrite (p_alive _ _ Hk1)).
  unfold resume. eapply returns_bind; [by apply (script_spec F); [|apply (uinv_core F w1)|..]|]. intros w2 [Hi2 Hk2].
  assert (Hp2 : x_pending w2 = false) by (by rewrite (p_pending _ _ Hk2)). assert (Ha2 : x_alive w2 = true) by (by rewrite (p_alive _ _ Hk2)).
  rewrite Ha2. destruct (ref_clear_inv F w2 Hi2 Hp2) as (w3 & -> & Hi3 & Hk3 & _). cbn.
  split; [apply (uinv_core F w3); [done|by rewrite (p_pending _ _ Hk3)|done]|]. destruct Hk1, Hk2, Hk3. split; [|split]; cbn in *; congruence.
Qed.

(** ** Steps *)

(** What happens to a connection.  [co] says how the coroutine that waits for the
    resolver goes on. *)
Inductive uop : Type :=
  | OpScript (s : uscript)
  | OpReadable (ok : bool) (junk : list Z) (r : received)
  | OpWritable (ok : bool)
  | OpAnswer (y : usys) (co : list lua_value -> uscript) (answer : dns_answer)
  | OpCollect.

(** A write event leaves the event base when it fires. *)
Definition udpd_exec (o : uop) w : outcome uconn :=
  match o with
  | OpScript s => run_script s w
  | OpReadable ok junk r => udpd_common_readcb self body ok junk r w
  | OpWritable ok => w ← del_opt (write_ev (x_conn w)) w; udpd_common_writecb self body ok w
  | OpAnswer y co answer => udpd_conn_dns_callback self y co answer (put_pending false w)
  | OpCollect => at_conn w (lua_udpd_conn_gc w)
  end.

Definition watched (p : option positive) w : Prop := exists q e, p = Some q /\ x_events w !! q = Some e /\ ue_added e = true.
(** While the resolver has the request, the object is on the waiting coroutine's
    stack only: no script can reach it, and the collector does not take it. *)
Definition udpd_enabled (o : uop) w : Prop :=
  match o with
  | OpScript s => script_ok s /\ x_alive w = true /\ x_pending w = false
  | OpReadable _ _ r => watched (read_ev (x_conn w)) w /\ forall data from, r = RecvGot data from -> Zlen from <= SS_SIZE
  | OpWritable _ => watched (write_ev (x_conn w)) w
  | OpAnswer y co answer => x_pending w = true /\ sys_ok y /\ answer_ok answer /\ forall args, script_ok (co args)
  | OpCollect => x_alive w = true /\ x_pending w = false
  end.

Lemma watched_open F w p : uinv F w -> watched p w -> p = read_ev (x_conn w) \/ p = write_ev (x_conn w) ->
  0 <= socket_fd (x_conn w) /\ x_alive w = true /\ x_pending w = false.
Proof.
  intros Hi (q & e & -> & _) Hp. assert (Hf : 0 <= socket_fd (x_conn w)).
  { apply (e_fd _ _ (v_events _ _ Hi)). destruct Hp as [<- | <-]; [by left|by right]. }
  split; [done|]. split.
  - destruct (x_alive w) eqn:E; [done|]. destruct (v_alive _ _ Hi E). lia.
  - destruct (x_pending w) eqn:E; [|done]. destruct (v_waits _ _ Hi E) as (_ & ? & _). lia.
Qed.

Lemma exec_inv F o w : uinv F w -> udpd_enabled o w -> returns (udpd_exec o w) (uinv F).
Proof.
  intros Hi He. destruct o; cbn [udpd_exec udpd_enabled] in *.
  - destruct He as (Hs & Ha & Hp). eapply returns_mono; [by apply (script_spec F)|]. by intros w' [? _].
  - destruct He as [Hw Hr]. destruct (watched_open F w _ Hi Hw ltac:(by left)) as (_ & Ha & Hp).
    eapply returns_mono; [by apply (udpd_readcb_spec F)|]. by intros w' [? _].
  - destruct (watched_open F w _ Hi He ltac:(by right)) as (_ & Ha & Hp). destruct He as (q & e & Eq & _). rewrite Eq. cbn [del_opt].
    eapply returns_bind; [apply (event_mark_inv F false q w); auto|]. intros w1 [Hi1 Hs1]. pose proof (s_keeps _ _ Hs1) as Hk1.
    eapply returns_mono; [apply (udpd_writecb_spec F); [done|by rewrite (p_pending _ _ Hk1)|by rewrite (p_alive _ _ Hk1)]|]. by intros w' [? _].
  - destruct He as (Hp & Hy & Ha & Hco). destruct (v_waits _ _ Hi Hp) as (Hal & Hf & _).
    eapply returns_mono; [apply (dns_callback_spec F); try done|by intros w' [? _]].
    destruct Hi as [I1 I2 I3 I4 I5 I6 I7 I8 I9]. by constructor.
  - destruct He as [Ha Hp]. unfold at_conn. rewrite Ha. unfold lua_udpd_conn_gc. eapply returns_bind; [by apply (udpd_cleanup_spec F)|].
    intros w1 (Hi1 & Hk1 & Hrel & _). cbn. pose proof Hrel as [L1 L2 L3 L4 L5 L6 L7].
    destruct Hi1 as [I1 I2 I3 I4 I5 I6 I7 I8 I9]. constructor; cbn; try done. intros E. rewrite (p_pending _ _ Hk1) in E. congruence.
Qed.

(** ** New connections *)

Lemma fresh_inv F : uinv F (fresh_uconn F).
Proof.
  constructor; cbn; try done.
  - split; [done|]. split; [by apply NoDup_nil|]. by intros r ?%not_elem_of_nil.
  - intros r Hr. by left.
  - by apply events_none.
Qed.

(** The start of a connection: nothing opened_spec yet. *)
Definition raw F w : Prop := uinv F w /\ x_pending w = false /\ x_alive w = true /\ socket_fd (x_conn w) < 0 /\ event_mutex (x_conn w) = true /\
  x_misuse w = false /\ x_calls w = [] /\ x_sent w = [] /\ x_weak w = false.
Lemma raw_core F w w' : raw F w -> core w' = core w -> (x_calls w', x_sent w', x_weak w') = (x_calls w, x_sent w, x_weak w) -> raw F w'.
Proof.
  intros (Hi & H1' & H2' & H3' & H4' & H5' & H6' & H7' & H8') Hc [= E1 E2 E3]. assert (Hi' : uinv F w') by (by apply (uinv_core F w)).
  unfold core in Hc. injection Hc as. split; [done|]. repeat split; congruence.
Qed.

(** The references are part of the core; adding one. *)
Lemma func_ref_read F t w : raw F w -> u_onRead (x_conn w) = None -> exists r w', func_ref t "onread" w = (r, w') /\
  raw F (on_uconn (fun c => set_refs (u_ref c) r (u_onSendReady c) c) w') /\ x_conn w' = x_conn w /\ x_unref0 w' = x_unref0 w.
Proof.
  intros Hr Hn. pose proof Hr as (Hi & Hp & Ha & Hf & Hm & H1' & H2' & H3' & H4'). unfold func_ref.
  destruct (field_of t "onread") as [| | | | | |k|] eqn:E; try (exists None, w; split; [done|]; split; [|done]; apply (raw_core F w); [done|unfold core; cbn; congruence|done]).
  unfold luaL_ref. set (r := fresh _). eexists (Some r), _. split; [done|]. split; [|done].
  destruct Hi as [I1 I2 I3 I4 I5 I6 I7 I8 I9]. unfold urefs in I1, I2. rewrite Hn in I1, I2. split; [|done]. constructor; cbn; try done.
  - by apply (reg_inv_add _ [] _ _ k) in I1.
  - by apply (reg_exact_add _ [] _ _ r (RFun k)) in I2.
  - by destruct I5; constructor.
  - intros Em. congruence.
Qed.
Lemma func_ref_ready F t w : raw F w -> u_onSendReady (x_conn w) = None -> exists r w', func_ref t "onsendready" w = (r, w') /\
  raw F (on_uconn (fun c => set_refs (u_ref c) (u_onRead c) r c) w') /\ x_conn w' = x_conn w /\ x_unref0 w' = x_unref0 w.
Proof.
  intros Hr Hn. pose proof Hr as (Hi & Hp & Ha & Hf & Hm & H1' & H2' & H3' & H4'). unfold func_ref.
  destruct (field_of t "onsendready") as [| | | | | |k|] eqn:E; try (exists None, w; split; [done|]; split; [|done]; apply (raw_core F w); [done|unfold core; cbn; congruence|done]).
  unfold luaL_ref. set (r := fresh _). eexists (Some r), _. split; [done|]. split; [|done].
  destruct Hi as [I1 I2 I3 I4 I5 I6 I7 I8 I9]. unfold urefs in I1, I2. rewrite Hn in I1, I2. split; [|done]. constructor; cbn; try done.
  - by apply (reg_inv_add _ (opt_list (u_onRead (x_conn w))) [] _ k) in I1.
  - by apply (reg_exact_add _ (opt_list (u_onRead (x_conn w))) [] _ r (RFun k)) in I2.
  - by destruct I5; constructor.
  - intros Em. congruence.
Qed.
Lemma ref_set_raw F w : raw F w -> u_ref (x_conn w) = RefZero ->
  raw F (REF_STATE_SET w) /\ exists r, u_ref (x_conn (REF_STATE_SET w)) = Ref r /\ x_reg (REF_STATE_SET w) !! r = Some RThread.
Proof.
  intros (Hi & Hp & Ha & Hf & Hm & Hrest) Hz. unfold REF_STATE_SET, luaL_ref. set (r := fresh _).
  destruct Hi as [I1 I2 I3 I4 I5 I6 I7 I8 I9]. rewrite Hz in I1, I2. cbn [held] in I1, I2. destruct (reg_inv_thread _ _ _ I1) as [Hth Hreg].
  split; [split; [|done]|]; [|exists r; split; [done|]; cbn; by rewrite lookup_insert_eq]. constructor; cbn; try done.
  - by apply reg_exact_thread.
  - intros x [= <-]. done.
  - by destruct I5; constructor.
  - intros Em. congruence.
  - rewrite Hp. done.
Qed.

Lemma configured_spec F v t o w : configured v t F = (o, w) ->
  raw F w /\ x_unref0 w = false /\ u_state (x_conn w) = UDPD_CONN_DISCONNECTED /\ dns_request (x_conn w) = None /\
  match o with Some _ => u_ref (x_conn w) = RefZero | None => exists r, u_ref (x_conn w) = Ref r /\ x_reg w !! r = Some RThread end.
Proof.
  unfold configured, udpd_base_conn_set_callbacks.
  set (w0 := udpd_config_of v t (fresh_uconn F)). assert (R0 : raw F w0).
  { split; [apply (uinv_core F (fresh_uconn F)); [done|done|apply fresh_inv]|done]. }
  destruct (func_ref_read F t w0 R0 eq_refl) as (r & w1 & -> & R1 & C1 & U1). set (w2 := on_uconn _ w1) in *.
  assert (X2 : u_onSendReady (x_conn w2) = None /\ u_ref (x_conn w2) = RefZero /\ u_state (x_conn w2) = UDPD_CONN_DISCONNECTED /\ dns_request (x_conn w2) = None /\ x_unref0 w2 = false)
    by (unfold w2; cbn; rewrite C1, U1; done).
  clearbody w2. destruct X2 as (X2 & Z2 & S2 & D2 & V2).
  destruct (func_ref_ready F t w2 R1 X2) as (r' & w3 & -> & R3 & C3 & U3). set (w4 := on_uconn _ w3) in *.
  assert (X4 : u_ref (x_conn w4) = RefZero /\ u_state (x_conn w4) = UDPD_CONN_DISCONNECTED /\ dns_request (x_conn w4) = None /\ x_unref0 w4 = false)
    by (unfold w4; cbn; rewrite C3, U3; done).
  clearbody w4. destruct X4 as (X4 & S4 & D4 & V4). cbn zeta.
  destruct (is_string _ && _); [|destruct (_ || _)]; intros [= <- <-].
  - split; [by apply (raw_core F w4)|done].
  - split; [by apply (raw_core F w4)|done].
  - set (w5 := extract_interface v t _). assert (R5 : raw F w5) by (by apply (raw_core F w4)).
    destruct (ref_set_raw F w5 R5 X4) as [R6 Hr]. split; [done|]. done.
Qed.

Lemma new_failed_spec F msg w : raw F w \/ (uinv F w /\ x_pending w = false) -> returns (new_failed msg w) (fun '(m, w') =>
  m = Returned (Ret [LNil; LStr msg]) /\ uinv F w' /\ released F w' /\ x_calls w' = x_calls w /\ x_alive w' = x_alive w /\ x_pending w' = false /\ x_weak w' = x_weak w).
Proof.
  intros Hr. assert (Hip : uinv F w /\ x_pending w = false) by (destruct Hr as [(? & ? & _)|?]; done). destruct Hip as [Hi Hp].
  unfold new_failed. eapply returns_bind; [by apply (udpd_cleanup_spec F)|]. intros w' (Hi' & Hk & Hrel & _). cbn.
  split; [done|]. split; [done|]. split; [done|]. destruct Hk. split; [done|]. split; [done|]. split; congruence.
Qed.

(** What [udpd.new] leaves: on [nil], nothing at all; otherwise a connection with
    its socket, or waiting for the resolver. *)
Definition created F (mw : made * uconn) : Prop :=
  let '(m, w) := mw in
  uinv F w /\ x_alive w = true /\ x_calls w = [] /\
  match m with
  | Returned (Ret [_; _]) => released F w /\ x_pending w = false
  | Returned (Ret [v]) => v = self /\ 0 <= socket_fd (x_conn w) /\ x_pending w = false
  | Waiting => x_pending w = true
  | Returned (Raise _) => socket_fd (x_conn w) < 0 /\ u_ref (x_conn w) = RefZero /\ x_pending w = false
  | _ => False
  end.

Lemma failed_created F msg w : uinv F w -> x_pending w = false -> x_alive w = true -> x_calls w = [] ->
  returns (new_failed msg w) (created F).
Proof.
  intros Hi Hp Ha Hc. eapply returns_mono; [apply (new_failed_spec F); by right|]. intros [m w'] (-> & Hi' & Hrel & Hc' & Ha' & Hp' & _).
  split; [done|]. split; [congruence|]. split; [congruence|done].
Qed.
(** Socket, binding and events, for a connection that is not waiting. *)
Definition open_rest (bind : bool) (y : usys) (k : uconn -> outcome (made * uconn)) w : outcome (made * uconn) :=
  '(r, w) ← udpd_base_conn_create_socket y w;
  if r <? 0 then new_failed (lit "Failed to create UDP socket") w
  else
    '(r, w) ← (if bind then udpd_base_conn_bind y w else Ret (0, w));
    if r <? 0 then new_failed (lit "Failed to bind UDP socket") w
    else
      '(r, w) ← udpd_base_conn_setup_events y w;
      if r <? 0 then new_failed (lit "Failed to setup events") w else k w.
Lemma open_rest_spec F bind y k w P : sys_ok y -> raw F w ->
  (forall msg w', uinv F w' -> keeps w w' -> returns (new_failed msg w') P) ->
  (forall w', uinv F w' -> stable w w' -> 0 <= socket_fd (x_conn w') -> returns (k w') P) ->
  returns (open_rest bind y k w) P.
Proof.
  intros Hy (Hi & Hp & Ha & Hf & _) Hno Hk. unfold open_rest. eapply returns_bind; [by apply (create_socket_spec F)|].
  intros [r w1] (Hi1 & Hs1 & Hu1 & Hr1). pose proof (s_keeps _ _ Hs1) as Hk1.
  assert (P1 : x_pending w1 = false) by (by rewrite (p_pending _ _ Hk1)).
  destruct Hr1 as [[-> Hf1]|[-> Hf1]]; cbn [Z.ltb Z.compare]; [|by apply Hno].
  eapply returns_bind with (P := fun '(r, w') => uinv F w' /\ stable w1 w' /\ socket_fd (x_conn w') = socket_fd (x_conn w1) /\ (unwatched w1 -> unwatched w') /\ (r = 0 \/ r = -1)).
  { destruct bind; [by apply bind_spec|]. cbn. split; [done|]. split; [reflexivity|]. auto. }
  intros [r w2] (Hi2 & Hs2 & Hf2 & Hu2 & Hr2). assert (Hs : stable w w2) by (by etrans). pose proof (s_keeps _ _ Hs) as Hk2.
  assert (P2 : x_pending w2 = false) by (by rewrite (p_pending _ _ Hk2)).
  destruct Hr2 as [-> | ->]; cbn [Z.ltb Z.compare]; [|by apply Hno]. destruct (Hu2 Hu1) as [Er2 Ew2].
  eapply returns_bind; [apply (setup_events_spec F); try done; lia|]. intros [r w3] (Hi3 & Hs3 & Hf3 & Hr3).
  assert (Hs' : stable w w3) by (by etrans). destruct Hr3 as [-> |(-> & _)]; cbn [Z.ltb Z.compare].
  - apply Hk; [done|done|lia].
  - apply Hno; [done|apply Hs'].
Qed.
Lemma failed_created_rest F w0 msg w : raw F w0 -> uinv F w -> keeps w0 w -> returns (new_failed msg w) (created F).
Proof. intros (_ & Hp & Ha & _ & _ & _ & Hc & _) Hi []. apply failed_created; [done|congruence..]. Qed.

(** A target in text form: the address, then the same steps. *)
Lemma new_direct_rest v host w : exists w1, core w1 = core w /\ keeps w w1 /\
  (x_calls w1, x_sent w1, x_weak w1) = (x_calls w, x_sent w, x_weak w) /\
  ((exists msg, new_direct self v host w = new_failed msg w1) \/
   (exists b, new_direct self v host w = open_rest b (n_sys v) (fun w => mret (Returned (Ret [self]), on_uconn (set_state UDPD_CONN_READY) w)) w1)).
Proof.
  unfold new_direct. destruct (udpd_create_address_from_string host _ _ _) as [[r a] l]. exists (on_uconn (set_addr a l) w).
  split; [done|]. split; [keeps_tac|]. split; [done|]. destruct (r <? 0); [left; by eexists|right]. exists (match u_bind_host (x_conn w) with Some _ => true | None => false end).
  unfold open_rest. destruct (udpd_base_conn_create_socket _ _) as [[r1 w2]| |] eqn:Ec; [|done..]. cbn [mbind outcome_bind].
  apply create_bind_host in Ec. cbn in Ec. rewrite Ec. destruct (r1 <? 0); [done|]. by destruct (u_bind_host (x_conn w)).
Qed.

Lemma new_spec F v t co : sys_ok (n_sys v) -> returns (udpd_new self v t co F) (created F).
Proof.
  intros Hy. unfold udpd_new. destruct (configured v t F) as [o w] eqn:E. apply configured_spec in E as (R & U & S & D & Ho).
  pose proof R as (Hi & Hp & Ha & Hf & Hm & Hmis & Hc & _). destruct o as [msg|].
  { cbn. done. }
  assert (Hbound : returns (new_bound self v w) (created F)).
  { apply (open_rest_spec F true (n_sys v) (fun w => mret (Returned (Ret [self]), store_self w))); [done|done|..].
    { intros msg w'. by apply failed_created_rest. }
    intros w' Hi' Hs' Hf'. pose proof (s_keeps _ _ Hs') as []. cbn. unfold store_self. case_match; cbn; [|split; [done|]; repeat split; congruence].
    split; [destruct Hi' as [I1 I2 I3 I4 I5 I6 I7 I8 I9]; by constructor|]. repeat split; congruence. }
  destruct (u_host (x_conn w)) as [host|] eqn:Eh; [|done]. destruct (0 <? u_port (x_conn w)); [|done]. clear Hbound.
  destruct (udpd_is_ip_address host).
  - destruct (new_direct_rest v host w) as (w1 & Hc1 & Hk1 & Hq1 & [[msg ->]|[b ->]]).
    { apply (failed_created_rest F w); [done|by apply (uinv_core F w)|done]. }
    assert (R1 : raw F w1) by (by apply (raw_core F w)).
    apply (open_rest_spec F); [done|done|intros msg w'; by apply failed_created_rest|].
    intros w' Hi' Hs' Hf'. pose proof (s_keeps _ _ Hs') as []. destruct R1 as (_ & ? & ? & _ & _ & _ & ? & _). cbn. assert (x_pending w' = false) by (cbn in *; congruence).
    split; [by apply uinv_state|]. cbn in *. repeat split; congruence.
  - unfold new_resolving, udpd_dns_resolve_for_connection. rewrite Eh. destruct (udpd_dns_request_create host _) as [q|]; cbn [mbind outcome_bind].
    + destruct (n_dns v) as [|answer].
      * cbn. unfold store_self. destruct Ho as (r & Hr & _).
        assert (Hi' : uinv F (on_uconn (set_state UDPD_CONN_RESOLVING) (put_pending true (on_uconn (set_dns (Some q)) w)))).
        { destruct Hi as [I1 I2 I3 I4 I5 I6 I7 I8 I9]. constructor; try done; [by destruct I5; constructor|]. intros _. eauto. }
        case_match; cbn; [|done]. split; [|done]. destruct Hi' as [I1 I2 I3 I4 I5 I6 I7 I8 I9]. by constructor.
      * unfold udpd_conn_dns_callback, at_conn. cbn [x_alive on_uconn]. rewrite Ha. cbn [x_conn on_uconn]. rewrite decide_True by done. cbn [mbind outcome_bind].
        apply failed_created; try done. by apply (uinv_core F w).
    + apply failed_created; try done. by apply (uinv_core F w).
Qed.

(** [F]: what others hold in the registry. *)
Inductive ureach (F : gmap positive regval) : uconn -> Prop :=
  | u_new v t co m w : sys_ok (n_sys v) -> udpd_new self v t co F = Ret (m, w) -> ureach F w
  | u_step o w w' : ureach F w -> udpd_enabled o w -> udpd_exec o w = Ret w' -> ureach F w'.
Lemma ureach_inv F w : ureach F w -> uinv F w.
Proof.
  induction 1 as [v t co m w Hy E|o w w' _ IH He E].
  - pose proof (new_spec F v t co Hy) as Hn. rewrite E in Hn. by destruct Hn.
  - pose proof (exec_inv F o w IH He) as Hn. by rewrite E in Hn.
Qed.
End Callbacks.
