(* ===== verification/UdpdProps.v ===== *)
(** * The theorems about UDP connections

    Safety of every step, what a connection gives back when it ends, what of a
    datagram reaches the script and the system, and how the table of weak
    references decides what scripts get of their own connections. *)

From S2P Require Import Prelude Lua LuaState Double Registry Loop TcpdConfig UdpdAddr UdpdConfig Udpd UdpdLife.

Section Props.
Context {T : Type} `{LuaTable T} `{LuaAPI} `{Allocator} `{Inet}.
Context (self : lua_value) (body : positive -> list uarg -> uscript) (Hbody : forall k args, script_ok (body k args)).
Implicit Type w : uconn.
Implicit Type F : gmap positive regval.

(** C19: no use of a UDP connection does anything undefined, with one exception.  In
    whatever order scripts call its methods, datagrams arrive, the socket becomes
    writable, the resolver answers and the object is collected between these steps,
    every step returns.  The exception: no script lets the collector take the object
    while it runs ([script_ok]); above all the coroutine that [udpd.new] suspended
    for the resolver must not drop it when it is resumed, since the resolver's
    callback goes on to use the object (udpd_dns.c, after [FAN_RESUME]).  While the
    resolver has the request only that coroutine holds the object, and an address
    fits in [struct sockaddr_storage].  The only socket open is the one in the
    object, and it is open; the live events are those of the object and watch that
    socket; the registry holds all it held before the connection, its functions
    under its references and the waiting coroutine, and nothing else; its mutex is
    used after its end only if it had been cleaned up before. *)
Theorem udpd_connection_safe F w : ureach self body F w ->
  (forall o, udpd_enabled o w -> exists w', udpd_exec self body o w = Ret w') /\
  x_fds w = fds_of (x_conn w) /\
  events_ok (x_conn w) (x_events w) /\
  reg_inv (held F (u_ref (x_conn w))) (urefs (x_conn w)) (x_reg w) /\
  reg_exact (held F (u_ref (x_conn w))) (urefs (x_conn w)) (x_reg w) /\
  (x_misuse w = true -> event_mutex (x_conn w) = false).
Proof.
  intros Hr. pose proof (ureach_inv self body Hbody F w Hr) as Hi. split.
  - intros o He. destruct (returns_inv _ _ (exec_inv self body Hbody F o w Hi He)) as (w' & E & _). by exists w'.
  - by destruct Hi.
Qed.

(** ** The end of a connection *)

Inductive later w : uconn -> Prop :=
  | later_now : later w w
  | later_step o w1 w2 : later w w1 -> udpd_enabled o w1 -> udpd_exec self body o w1 = Ret w2 -> later w w2.

(** Without its mutex a connection is never called again. *)
Lemma gone_step F o w w' : uinv F w -> event_mutex (x_conn w) = false -> udpd_enabled o w -> udpd_exec self body o w = Ret w' ->
  uinv F w' /\ event_mutex (x_conn w') = false /\ x_calls w' = x_calls w.
Proof.
  intros Hi Hm He E. pose proof (exec_inv self body Hbody F o w Hi He) as Hi'. rewrite E in Hi'. split; [exact Hi'|].
  destruct (v_shut _ _ Hi Hm) as (_ & Hrf & Hre & Hwe). destruct o; cbn [udpd_exec udpd_enabled] in *.
  - destruct He as (Hs & Ha & Hp). pose proof (script_spec F s w Hs Hi Hp Ha) as Hk. rewrite E in Hk. destruct Hk as [_ [_ _ _ Hc _ Hsh]]. auto.
  - destruct He as [(q & e & Hq & _) _]. congruence.
  - destruct He as (q & e & Hq & _). congruence.
  - destruct He as (Hp & _). destruct (v_waits _ _ Hi Hp) as (_ & _ & _ & r & Hr). congruence.
  - destruct He as [Ha Hp]. unfold at_conn in E. rewrite Ha in E. unfold lua_udpd_conn_gc in E.
    pose proof (udpd_cleanup_spec F w Hi Hp) as Hs. destruct (udpd_base_conn_cleanup w) as [w1| |]; [|done..].
    destruct Hs as (_ & [_ _ _ Hc _ Hsh] & _). injection E as <-. cbn. auto.
Qed.
Lemma gone_later F w w' : uinv F w -> event_mutex (x_conn w) = false -> later w w' ->
  uinv F w' /\ event_mutex (x_conn w') = false /\ x_calls w' = x_calls w.
Proof.
  intros Hi Hm. induction 1 as [|o w1 w2 _ (Hi1 & Hm1 & Hc1) He E]; [done|].
  destruct (gone_step F o w1 w2 Hi1 Hm1 He E) as (Hi2 & Hm2 & Hc2). split; [done|]. split; [done|congruence].
Qed.

Definition ending (o : uop) : Prop := o = OpScript (UCall UClose (fun _ => UDone)) \/ o = OpCollect.

Lemma ending_spec F o w : uinv F w -> udpd_enabled o w -> ending o ->
  returns (udpd_exec self body o w) (fun w' => uinv F w' /\ released F w' /\ (x_misuse w' = true <-> event_mutex (x_conn w) = false)).
Proof.
  intros Hi He [-> | ->]; cbn [udpd_exec udpd_enabled run_script udpd_call] in *.
  - destruct He as (_ & Ha & Hp). unfold udpd_call, at_conn. rewrite Ha. unfold udpd_conn_close.
    destruct (returns_inv _ _ (udpd_cleanup_spec F w Hi Hp)) as (w' & -> & K1 & K2 & K3 & K4 & _). done.
  - pose proof He as [Ha Hp]. pose proof (exec_inv self body Hbody F OpCollect w Hi He) as Hinv. cbn [udpd_exec] in Hinv. unfold at_conn in *. rewrite Ha in *.
    unfold lua_udpd_conn_gc in *. pose proof (udpd_cleanup_spec F w Hi Hp) as Hs.
    destruct (udpd_base_conn_cleanup w) as [w1| |]; [|done..]. cbn in *. destruct Hs as (_ & _ & [] & Hm & _). split; [done|]. by split; [constructor|].
Qed.

(** C20: a connection ends completely.  Closing and collecting it each always
    succeed and give everything back: the registry is as it was before the
    connection, no socket is open, no event alive, no resolver request held; and
    whatever happens afterwards, rebinding the closed object included, no callback
    is made any more.  The same is left when [udpd.new] fails with a message.  The
    mutex is destroyed each time, so the second of two endings, which every closed
    connection comes to when it is collected, locks and destroys a mutex that is
    gone. *)
Theorem udpd_connection_released F w : ureach self body F w ->
  (forall o, udpd_enabled o w -> ending o -> exists w', udpd_exec self body o w = Ret w' /\ released F w' /\
     (x_misuse w' = true <-> event_mutex (x_conn w) = false) /\
     (forall w2, later w' w2 -> x_calls w2 = x_calls w')) /\
  (forall v t co msg, sys_ok (n_sys v) -> udpd_new self v t co F = Ret (Returned (Ret [LNil; LStr msg]), w) ->
     released F w /\ (forall w2, later w w2 -> x_calls w2 = [])).
Proof.
  intros Hr. pose proof (ureach_inv self body Hbody F w Hr) as Hi. split.
  - intros o He Hend. destruct (returns_inv _ _ (ending_spec F o w Hi He Hend)) as (w' & E & Hi' & Hrel & Hm).
    exists w'. split; [done|]. split; [done|]. split; [done|]. intros w2 Hl. by apply (gone_later F w' w2 Hi' (l_mutex _ _ Hrel)).
  - intros v t co msg Hy E. pose proof (new_spec self F v t co Hy) as Hs. rewrite E in Hs. destruct Hs as (_ & _ & Hc & Hrel & _). split; [done|].
    intros w2 Hl. rewrite <- Hc. by apply (gone_later F w w2 Hi (l_mutex _ _ Hrel)).
Qed.

(** ** Datagrams *)

(** The bytes of the address [a] and a port, as the system hands them over. *)
Definition from_of (port : Z) (a : Z * list Z) : list Z := ztake (snd (sockaddr_of port a)) (fst (sockaddr_of port a)).

Lemma Zlen_from port a : 0 <= port < 65536 -> address_ok a ->
  Zlen (from_of port a) = snd (sockaddr_of port a) /\ snd (sockaddr_of port a) <= SS_SIZE /\ 16 <= snd (sockaddr_of port a).
Proof.
  intros Hp Ha. destruct (sockaddr_of_fields port a Hp Ha) as (Hl & _). unfold from_of.
  assert (Hs : snd (sockaddr_of port a) = 16 \/ snd (sockaddr_of port a) = 28) by (unfold sockaddr_of; case_match; auto).
  unfold SS_SIZE in *. rewrite Zlen_ztake by lia. lia.
Qed.
(** What reads of an address see of its first bytes only. *)
Lemma address_prefix x y m : 16 <= m -> (ss_family x = AF_INET6 -> 28 <= m) -> ztake m x = ztake m y ->
  address_port x = address_port y /\ address_text x = address_text y.
Proof.
  intros Hm H6 E. assert (Ef : ss_family x = ss_family y) by (unfold ss_family; f_equal; apply (bytes_at_prefix m); lia || done).
  unfold address_port, address_text. rewrite <- Ef. assert (Ep : sin_port x = sin_port y) by (unfold sin_port; f_equal; apply (bytes_at_prefix m); lia || done).
  assert (E4 : sin_addr x = sin_addr y) by (unfold sin_addr; apply (bytes_at_prefix m); lia || done).
  rewrite Ep, E4. split; [done|]. destruct (ss_family x =? AF_INET); [done|]. destruct (Z.eqb_spec (ss_family x) AF_INET6) as [E6|]; [|done].
  do 2 f_equal. unfold sin6_addr. apply (bytes_at_prefix m); [lia..| |done]. specialize (H6 E6). lia.
Qed.

Lemma sender_dest junk port a : 0 <= port < 65536 -> address_ok a -> exists dest,
  fresh_dest junk (from_of port a) None None = Ret dest /\ ztake (d_addrlen dest) (d_addr dest) = from_of port a /\
  udpd_dest_get_port dest = port /\ udpd_dest_get_host_string dest = Some (text_of a) /\ address_text (d_addr dest) = Some (text_of a).
Proof.
  intros Hp Ha. destruct (Zlen_from port a Hp Ha) as (Hl & Hs & Hm). unfold fresh_dest. rewrite Hl. replace (_ <=? SS_SIZE) with true by lia. cbn zeta.
  set (x := over (from_of port a) junk). eexists. split; [done|]. cbn [d_addr d_addrlen d_host udpd_dest_get_host_string].
  assert (Hx : ztake (snd (sockaddr_of port a)) x = from_of port a) by (unfold x, over; by rewrite ztake_app_exact).
  destruct (sockaddr_of_fields port a Hp Ha) as (_ & Fp & Ft).
  destruct (address_prefix (fst (sockaddr_of port a)) x (snd (sockaddr_of port a)) Hm) as [Ep Et].
  - destruct Ha as [_ [[Hf Hla]|[Hf Hla]]]; destruct a as [f ip]; cbn in Hf, Hla; subst f; unfold sockaddr_of; cbn -[sockaddr_in sockaddr_in6 ss_family].
    + destruct (sockaddr_in_fields port Hp ip Hla) as (_ & -> & _). done.
    + done.
  - by rewrite Hx.
  - split; [done|]. unfold udpd_dest_get_port. cbn [d_addr]. rewrite <- Ep, <- Et. done.
Qed.

Lemma send_reply w dest data n text : 1 <= Zlen data <= UDPD_MAX_PACKET_SIZE -> 0 <= socket_fd (x_conn w) -> x_fds w = fds_of (x_conn w) -> 0 <= n ->
  udpd_conn_send [LNil; LStr data] (Some (Some dest)) n text w = Ret (Ret [LInt n], sent_to (data, ztake (d_addrlen dest) (d_addr dest)) w).
Proof.
  intros Hd Hf Hfd Hn. unfold udpd_conn_send. cbn [arg nth Nat.sub]. rewrite luaL_checklstring_str. unfold udpd_validate_packet_size.
  replace ((0 <? Zlen data) && _) with true by lia. cbn [negb]. replace (_ <? 0) with false by lia. cbn [check_dest]. unfold send_datagram.
  rewrite decide_True by (rewrite Hfd; unfold fds_of; replace (0 <=? _) with true by lia; set_solver). by replace (n <? 0) with false by lia.
Qed.

(** C21: datagrams keep their bounds, bytes and senders.  For a datagram from the
    address [a] and a port, [onread] is called exactly once, with the bytes of the
    datagram, whole up to 65536, and a destination whose host, address and port are
    the sender's, whatever the new object's memory held; whatever the script then
    sends to this destination goes to the system once, with the same bytes, for the
    very address the datagram came from.  An empty datagram is dropped.  In any
    state, data that is empty or longer than 65507 bytes is refused and nothing is
    sent. *)
Theorem udpd_datagrams F w r junk data port a :
  ureach self body F w -> watched (read_ev (x_conn w)) w -> u_onRead (x_conn w) = Some r -> 0 <= port < 65536 -> address_ok a ->
  (data = [] -> udpd_exec self body (OpReadable true junk (RecvGot data (from_of port a))) w = Ret w) /\
  (data <> [] -> exists w' k dest w1 w2,
     udpd_exec self body (OpReadable true junk (RecvGot data (from_of port a))) w = Ret w' /\
     x_calls w' = x_calls w ++ [CbURead (ztake 65536 data) dest] /\
     x_reg w !! r = Some (RFun k) /\
     x_conn w1 = x_conn w /\ x_sent w1 = x_sent w /\
     run_script (body k (self_first self w ++ [UVal (LStr (ztake 65536 data)); UDest dest])) w1 = Ret w2 /\
     x_conn w' = x_conn w2 /\ x_sent w' = x_sent w2 /\
     udpd_dest_get_port dest = port /\ udpd_dest_get_host_string dest = Some (text_of a) /\ address_text (d_addr dest) = Some (text_of a) /\
     (forall reply n text, 1 <= Zlen reply <= UDPD_MAX_PACKET_SIZE -> 0 <= n ->
        udpd_call (USend [LNil; LStr reply] (Some (Some dest)) n text) w1 = Ret (Ret [LInt n], sent_to (reply, from_of port a) w1))) /\
  (forall d bytes n text, (Zlen bytes = 0 \/ 65507 < Zlen bytes) ->
     udpd_conn_send [LNil; LStr bytes] d n text w = Ret (Ret [LNil; LStr (lit "Packet size exceeds UDP maximum")], w)).
Proof.
  intros Hr Hw Ho Hp Ha. pose proof (ureach_inv self body Hbody F w Hr) as Hi. destruct (watched_open F w _ Hi Hw ltac:(by left)) as (Hf & Hal & Hpe).
  split; [|split].
  - intros ->. cbn [udpd_exec]. unfold udpd_common_readcb, at_conn. rewrite Hal, Ho. done.
  - intros Hd. cbn [udpd_exec]. unfold udpd_common_readcb, at_conn, udpd_process_received_data. rewrite Hal, Ho.
    assert (Hz : Zlen data <> 0) by (by rewrite Zlen_zero). pose proof (Zlen_nonneg data).
    replace (Zlen data =? 0) with false by lia.
    assert (Hz2 : (Zlen (ztake UDPD_RECV_BUFFER_SIZE data) =? 0) = false).
    { apply Z.eqb_neq. unfold UDPD_RECV_BUFFER_SIZE. destruct (Z.le_gt_cases (Zlen data) 65536); [rewrite ztake_all by lia|rewrite Zlen_ztake by lia]; lia. }
    rewrite Hz2. destruct (sender_dest junk port a Hp Ha) as (dest & -> & Hfrom & Hport & Hhost & Htext). cbn [mbind outcome_bind].
    set (args := self_first self w ++ _). assert (Hin : r ∈ urefs (x_conn w)) by (unfold urefs; rewrite Ho; by left).
    destruct (returns_inv _ _ (udpd_fan_call_spec body Hbody F true r (CbURead (ztake UDPD_RECV_BUFFER_SIZE data) dest) args w Hi Hpe Hal Hin))
      as (w' & -> & _ & _ & Hcall). destruct (Hcall eq_refl) as (k & w1 & w2 & Hk & Hc & C1 & C2 & C3 & C4 & Hrun & C5 & C6).
    exists w', k, dest, w1, w2. do 11 (split; [done|]). intros reply n text Hl Hn. unfold udpd_call, at_conn. rewrite C4, <- Hfrom.
    apply send_reply; [done|congruence| |done]. rewrite C2, C1. apply Hi.
  - intros d bytes n text Hb. unfold udpd_conn_send. cbn [arg nth Nat.sub]. rewrite luaL_checklstring_str. unfold udpd_validate_packet_size, UDPD_MAX_PACKET_SIZE.
    pose proof (Zlen_nonneg bytes). by replace ((0 <? Zlen bytes) && (Zlen bytes <=? 65507)) with false by lia.
Qed.

(** ** The weak table *)

Lemma exec_weak F o w : uinv F w -> udpd_enabled o w -> x_weak w = false ->
  returns (udpd_exec self body o w) (fun w' => x_weak w' = false).
Proof.
  intros Hi He Hwk. destruct o; cbn [udpd_exec udpd_enabled] in *.
  - destruct He as (Hs & Ha & Hp). eapply returns_mono; [by apply (script_spec F)|]. intros w' [_ [_ Hw' _ _ _ _]]. congruence.
  - destruct He as [Hw Hr]. destruct (watched_open F w _ Hi Hw ltac:(by left)) as (_ & Ha & Hp).
    eapply returns_mono; [by apply (udpd_readcb_spec self body Hbody F)|]. intros w' (_ & _ & _ & ?). congruence.
  - destruct (watched_open F w _ Hi He ltac:(by right)) as (_ & Ha & Hp). destruct He as (q & e & Eq & _). rewrite Eq. cbn [del_opt].
    eapply returns_bind; [apply (event_mark_inv F false q w); auto|]. intros w1 [Hi1 Hs1]. pose proof (s_keeps _ _ Hs1) as [K1 K2 K3 _ _ _].
    eapply returns_mono; [apply (udpd_writecb_spec self body Hbody F); [done|congruence..]|]. intros w' (_ & _ & _ & ?). congruence.
  - destruct He as (Hp & Hy & Ha & Hco). destruct (v_waits _ _ Hi Hp) as (Hal & Hf & _).
    eapply returns_mono; [apply (dns_callback_spec self F); try done|intros w' (_ & _ & _ & ->); done].
    destruct Hi as [I1 I2 I3 I4 I5 I6 I7 I8 I9]. by constructor.
  - destruct He as [Ha Hp]. unfold at_conn. rewrite Ha. unfold lua_udpd_conn_gc. eapply returns_bind; [by apply (udpd_cleanup_spec F)|].
    by intros w1 _.
Qed.
Lemma later_weak F w w' : uinv F w -> x_weak w = false -> later w w' -> uinv F w' /\ x_weak w' = false.
Proof.
  intros Hi Hwk. induction 1 as [|o w1 w2 _ [Hi1 Hw1] He E]; [done|].
  pose proof (exec_inv self body Hbody F o w1 Hi1 He) as Hi2. pose proof (exec_weak F o w1 Hi1 He Hw1) as Hw2. rewrite E in Hi2, Hw2. done.
Qed.

Lemma direct_weak F v host w : sys_ok (n_sys v) -> raw F w ->
  returns (new_direct self v host w) (fun '(m, w') => x_weak w' = false /\ (m = Returned (Ret [self]) \/ exists msg, m = Returned (Ret [LNil; LStr msg]))).
Proof.
  intros Hy Hr. assert (Hno : forall msg w0 w', raw F w0 -> uinv F w' -> keeps w0 w' ->
    returns (new_failed msg w') (fun '(m, w') => x_weak w' = false /\ (m = Returned (Ret [self]) \/ exists msg, m = Returned (Ret [LNil; LStr msg])))).
  { intros msg w0 w' (_ & Hp & _ & _ & _ & _ & _ & _ & Hw) Hi []. eapply returns_mono; [apply (new_failed_spec F); right; split; [done|congruence]|].
    intros [m w2] (-> & _ & _ & _ & _ & _ & Hw2). split; [congruence|]. right. by eexists. }
  destruct (new_direct_rest self v host w) as (w1 & Hc1 & Hk1 & Hq1 & [[msg ->]|[b ->]]).
  - apply (Hno msg w); [done| |done]. by apply (uinv_core F w); [|apply Hr|apply Hr].
  - assert (R1 : raw F w1) by (by apply (raw_core F w)). apply (open_rest_spec F); [done|done|intros msg w'; by apply Hno|].
    intros w' _ Hs' _. cbn. split; [|by left]. rewrite (p_weak _ _ (s_keeps _ _ Hs')). apply R1.
Qed.

(** What the coroutine that waits for the resolver is given once the name has an
    address. *)
Definition resumed_with (first ok : bool) : list lua_value :=
  if negb ok then [LNil; LStr (lit "Failed to set up UDP connection after DNS resolution")]
  else if first then [self] else [LNil; LStr (lit "Connection object not found in weak table")].

Lemma answered_spec F y addr ok w1 w2 r : uinv F w1 -> x_pending w1 = true -> sys_ok y -> Zlen addr <= SS_SIZE ->
  u_ref (x_conn w1) = Ref r -> x_reg w1 !! r = Some RThread ->
  setup_resolved y (on_uconn (set_addr (over addr (u_addr (x_conn w1))) (Zlen addr)) (put_pending false w1)) = Ret (ok, w2) ->
  returns (udpd_exec self body (OpAnswer y (fun _ => UDone) (DnsFound addr)) w1) (fun w' =>
    x_calls w' = x_calls w1 ++ [CbResumed (resumed_with (x_weak w1) ok)] /\ (ok = true -> 0 <= socket_fd (x_conn w') /\ u_state (x_conn w') = UDPD_CONN_READY)).
Proof.
  intros Hi Hp Hy Hl Hu Hreg Hset. destruct (v_waits _ _ Hi Hp) as (Hal & Hf & Hst & _).
  cbn [udpd_exec]. unfold udpd_conn_dns_callback, at_conn. cbn [x_alive put_pending x_conn x_reg]. rewrite Hal, decide_False by congruence.
  unfold has_thread. rewrite Hu, Hreg. cbn [negb]. unfold resolved_args, store_addr. replace (Zlen addr <=? SS_SIZE) with true by lia.
  cbn [mbind outcome_bind x_conn put_pending]. set (w0 := on_uconn _ _) in *. rewrite Hset. cbn [mbind outcome_bind].
  assert (H0' : uinv F w0 /\ socket_fd (x_conn w0) < 0 /\ x_pending w0 = false /\ x_alive w0 = true /\ x_weak w0 = x_weak w1 /\ x_calls w0 = x_calls w1).
  { split; [|done]. apply (uinv_core F (put_pending false w1)); [done|done|]. destruct Hi as [I1 I2 I3 I4 I5 I6 I7 I8 I9]. by constructor. }
  clearbody w0. destruct H0' as (Hi0 & Hf0 & Hp0 & Ha0 & <- & <-). pose proof (setup_resolved_spec F y w0 Hy Hi0 Hf0 Hp0 Ha0) as Hs. rewrite Hset in Hs.
  destruct Hs as (Hi2 & Hs2 & Hok). pose proof (s_keeps _ _ Hs2) as [A2 W2 P2 C2 _ _].
  assert (Htail : forall args st, args = resumed_with (x_weak w0) ok -> (ok = true -> st = UDPD_CONN_READY) ->
    returns (w3 ← resume (fun _ => UDone) args (on_uconn (set_state st) w2);
       if x_alive w3 then w3 ← REF_STATE_CLEAR w3; mret (on_uconn (set_dns None) w3) else UB)
      (fun w' => x_calls w' = x_calls w0 ++ [CbResumed (resumed_with (x_weak w0) ok)] /\ (ok = true -> 0 <= socket_fd (x_conn w') /\ u_state (x_conn w') = UDPD_CONN_READY))).
  { intros args st -> Hst'. unfold resume. cbn [run_script mbind outcome_bind]. set (w3 := called _ _). change (x_alive w3) with (x_alive w2). rewrite A2, Ha0.
    assert (Hi3 : uinv F w3) by (apply (uinv_core F w2); [done|congruence|done]). assert (Hp3 : x_pending w3 = false) by (cbn; congruence).
    destruct (ref_clear_inv F w3 Hi3 Hp3) as (w4 & -> & _ & [_ _ _ C4 _ _] & E4 & _). cbn. rewrite C4, E4. cbn. split; [congruence|].
    intros Ho. split; [by apply Hok|by apply Hst']. }
  destruct ok.
  - cbn [x_weak on_uconn]. rewrite W2. by destruct (x_weak w0) eqn:Ew; apply Htail.
  - by apply Htail.
Qed.

Section Names.
Context (M : Z) (HM : mem_upto M).

Lemma request_ok host port : 1 <= port <= 65535 -> cstr host = host -> Zlen host + 152 <= M ->
  udpd_dns_request_create host port = Some (mk_request host port RefZero false).
Proof.
  intros Hp Hc Hs. pose proof (Zlen_nonneg host). unfold udpd_dns_request_create. replace ((port <=? 0) || (65535 <? port)) with false by lia.
  rewrite (malloc_upto M _ HM) by (unfold SIZEOF_REQUEST; lia). cbn [negb]. by rewrite (strdup_upto M HM) by (done || lia).
Qed.

(** Whether a script ever gets the connection it asked for by host name
    depends on when the resolver answers and on [callback_self_first].  An answer
    that is there at once makes [udpd.new] fail and release everything, whatever
    the answer.  A later answer resumes the coroutine exactly once; with
    [callback_self_first] it gets the connection, without it [nil] and a message,
    although the socket is open and the connection ready.  For a host given as an
    address it is the other way round: the connection is returned, but is never in
    the weak table, so that with [callback_self_first] every callback, as long as
    the object lives, is given [nil] as the connection. *)
Theorem udpd_by_name v t co F w host :
  configured v t F = (None, w) -> u_host (x_conn w) = Some host -> 1 <= u_port (x_conn w) <= 65535 -> cstr host = host -> Zlen host + 152 <= M ->
  sys_ok (n_sys v) ->
  (udpd_is_ip_address host = false ->
     (forall answer, n_dns v = DnsNow answer -> exists w',
        udpd_new self v t co F = Ret (Returned (Ret [LNil; LStr (lit "Failed to start DNS resolution")]), w') /\ released F w' /\ x_calls w' = []) /\
     (n_dns v = DnsLater -> exists w1, udpd_new self v t co F = Ret (Waiting, w1) /\
        forall y addr ok w2, sys_ok y -> Zlen addr <= SS_SIZE ->
          setup_resolved y (on_uconn (set_addr (over addr (u_addr (x_conn w1))) (Zlen addr)) (put_pending false w1)) = Ret (ok, w2) ->
          exists w', udpd_exec self body (OpAnswer y (fun _ => UDone) (DnsFound addr)) w1 = Ret w' /\
            x_calls w' = [CbResumed (resumed_with (callback_self_first (base (u_config (x_conn w)))) ok)] /\
            (ok = true -> 0 <= socket_fd (x_conn w') /\ u_state (x_conn w') = UDPD_CONN_READY))) /\
  (udpd_is_ip_address host = true -> forall r w1, udpd_new self v t co F = Ret (r, w1) ->
     (r = Returned (Ret [self]) \/ exists msg, r = Returned (Ret [LNil; LStr msg])) /\
     (forall w2, later w1 w2 -> callback_self_first (base (u_config (x_conn w2))) = true -> self_first self w2 = [UVal LNil])).
Proof.
  intros E Eh Hp Hc Hs Hy. pose proof (new_spec self F v t co Hy) as Hnew.
  destruct (configured_spec F v t None w E) as (R & _ & S & _ & r & Hr & Hreg). pose proof R as (Hi & Hpe & Ha & Hf & Hm & _ & Hcalls & _ & Hwk).
  assert (En : udpd_new self v t co F = if udpd_is_ip_address host then new_direct self v host w else new_resolving self v co w).
  { unfold udpd_new. rewrite E, Eh. by replace (0 <? u_port (x_conn w)) with true by lia. }
  rewrite En in *. split; intros Hip; rewrite Hip in *; clear En.
  - unfold new_resolving, udpd_dns_resolve_for_connection in *. rewrite Eh, (request_ok host _ Hp Hc Hs) in *. split.
    + intros answer Hd. rewrite Hd in *. unfold udpd_conn_dns_callback, at_conn in *. cbn [x_alive on_uconn] in *. rewrite Ha in *. cbn [x_conn on_uconn] in *.
      rewrite decide_True in * by done. cbn [mbind outcome_bind mret outcome_ret] in *. cbn [Z.ltb Z.compare] in *.
      set (w0 := on_uconn (set_dns None) _) in *. assert (Hi0 : uinv F w0) by (by apply (uinv_core F w)).
      destruct (returns_inv _ _ (new_failed_spec F (lit "Failed to start DNS resolution") w0 (or_intror (conj Hi0 Hpe)))) as ([m w'] & -> & -> & _ & Hrel & Hc' & _).
      exists w'. split; [done|]. split; [done|]. rewrite Hc'. exact Hcalls.
    + intros Hd. rewrite Hd in *. cbn [mbind outcome_bind mret outcome_ret] in *. cbn [Z.ltb Z.compare] in *. eexists. split; [done|].
      set (w0 := on_uconn _ _) in *. assert (Hw0 : x_weak (store_self w0) = callback_self_first (base (u_config (x_conn w))) /\
        u_ref (x_conn (store_self w0)) = Ref r /\ x_reg (store_self w0) = x_reg w /\ x_calls (store_self w0) = []).
      { unfold store_self. change (u_config (x_conn w0)) with (u_config (x_conn w)). destruct (callback_self_first _); [done|]. cbn. by rewrite Hwk. }
      set (w1 := store_self w0) in *. clearbody w1. destruct Hw0 as (Hw1 & Hr1 & Hreg1 & Hc1). destruct Hnew as (Hi1 & _ & _ & Hp1).
      intros y addr ok w2 Hy2 Hl Hset.
      destruct (returns_inv _ _ (answered_spec F y addr ok w1 w2 r Hi1 Hp1 Hy2 Hl Hr1 ltac:(by rewrite Hreg1) Hset)) as (w' & -> & Hcall & Hok).
      exists w'. split; [done|]. rewrite Hcall, Hc1, Hw1. done.
  - intros m w1 Em. pose proof (direct_weak F v host w Hy R) as Hd. rewrite Em in Hd, Hnew. destruct Hd as [Hw1 Hm1]. split; [done|].
    intros w2 Hl Hfirst. destruct Hnew as (Hi1 & _). destruct (later_weak F w1 w2 Hi1 Hw1 Hl) as [_ Hw2].
    unfold self_first, udpd_push_connection_object. by rewrite Hfirst, Hw2.
Qed.
End Names.
End Props.

(** ** Connections to 10.0.0.1, and to a name *)

Module UdpSample.
#[export] Existing Instances assoc_table plain_lua zero_alloc plain_inet.

Definition sys : usys := mk_usys (fun _ => 5) true (fun _ _ => true) (fun _ => None) (fun _ _ => None) (fun _ _ => true) (fun _ => None) true true true.
Definition table (host : string) : alist := [(LStr (lit "onread"), LFun 1); (LStr (lit "onsendready"), LFun 2); (LStr (lit "host"), LStr (lit host));
  (LStr (lit "port"), LInt 53); (LStr (lit "callback_self_first"), LBool true)].
Definition env (start : dns_start) : new_env := mk_new (fun _ => 0) sys start.
(** [onread] sends what came back to where it came from. *)
Definition echo (k : positive) (args : list uarg) : uscript :=
  match k, args with
  | 1%positive, [_; UVal (LStr data); UDest d] => UCall (USend [LNil; LStr data] (Some (Some d)) (Zlen data) []) (fun _ => UDone)
  | _, _ => UDone
  end.
Lemma echo_ok k args : script_ok (echo k args).
Proof. unfold echo. by repeat case_match. Qed.

Definition ready (r : outcome (made * uconn)) : uconn := match r with Ret (_, w) => w | _ => fresh_uconn ∅ end.
Definition direct : uconn := ready (udpd_new LNil (env DnsLater) (table "10.0.0.1") (fun _ => UDone) ∅).
Definition named (start : dns_start) : uconn := snd (configured (env start) (table "example.org") ∅).
Lemma sys_fits : sys_ok sys.
Proof. by intros h p a. Qed.
Lemma direct_reach body : ureach LNil body ∅ direct.
Proof.
  assert (E : exists m, udpd_new LNil (env DnsLater) (table "10.0.0.1") (fun _ => UDone) ∅ = Ret (m, direct)) by (eexists; vm_compute; reflexivity).
  destruct E as [m E]. by eapply (u_new _ _ _ (env DnsLater)); [apply sys_fits|].
Qed.
Definition peer : Z * list Z := (AF_INET, [10; 0; 0; 1]).
Lemma direct_watched : watched (read_ev (x_conn direct)) direct.
Proof. exists 1%positive. eexists. split; [|split]; vm_compute; reflexivity. Qed.
End UdpSample.

Import UdpSample.

Lemma udpd_connection_safe_witness : x_fds direct = {[5]} /\ exists w, udpd_exec LNil echo (OpReadable true [] (RecvGot [104; 105] (from_of 53 peer))) direct = Ret w.
Proof.
  destruct (udpd_connection_safe LNil echo echo_ok ∅ direct (direct_reach echo)) as (Hs & Hf & _). split; [rewrite Hf; vm_compute; reflexivity|].
  apply Hs. split; [exact direct_watched|]. intros data from [= _ <-]. vm_compute. discriminate.
Defined.

(** Closed, then collected. *)
Lemma udpd_connection_released_witness : exists w1 w2,
  udpd_exec LNil echo (OpScript (UCall UClose (fun _ => UDone))) direct = Ret w1 /\ x_fds w1 = ∅ /\ x_misuse w1 = false /\
  udpd_exec LNil echo OpCollect w1 = Ret w2 /\ x_misuse w2 = true.
Proof.
  destruct (udpd_connection_released LNil echo echo_ok ∅ direct (direct_reach echo)) as [Hc _].
  assert (He : udpd_enabled (OpScript (UCall UClose (fun _ => UDone))) direct) by (split; [split; [exact I|intros _; exact I]|split; vm_compute; reflexivity]).
  destruct (Hc _ He (or_introl eq_refl)) as (w1 & E1 & Hrel & Hm & _). exists w1.
  destruct (udpd_connection_released LNil echo echo_ok ∅ w1 (u_step _ _ _ _ _ _ (direct_reach echo) He E1)) as [Hc1 _].
  assert (He1 : udpd_enabled OpCollect w1) by (vm_compute in E1; injection E1 as <-; split; reflexivity).
  destruct (Hc1 OpCollect He1 (or_intror eq_refl)) as (w2 & E2 & _ & Hm2 & _). exists w2.
  split; [exact E1|]. split; [apply (l_fds _ _ Hrel)|]. split; [|split; [exact E2|apply Hm2, (l_mutex _ _ Hrel)]].
  destruct (x_misuse w1); [|reflexivity]. exfalso. assert (Hf : event_mutex (x_conn direct) = false) by (by apply Hm). vm_compute in Hf. discriminate.
Defined.

(** Two bytes come back to the port they came from. *)
Lemma udpd_datagrams_witness : exists w, udpd_exec LNil echo (OpReadable true [7; 7] (RecvGot [104; 105] (from_of 4242 peer))) direct = Ret w /\
  x_sent w = [([104; 105], from_of 4242 peer)].
Proof.
  destruct (u_onRead (x_conn direct)) as [r|] eqn:Er; [|vm_compute in Er; discriminate].
  destruct (udpd_datagrams LNil echo echo_ok ∅ direct r [7; 7] [104; 105] 4242 peer (direct_reach echo) direct_watched Er) as (_ & Hd & _).
  - split; [discriminate|reflexivity].
  - split; [repeat constructor; discriminate|left; split; reflexivity].
  - destruct Hd as (w & k & dest & w1 & w2 & E & _ & Hk & _ & Hs & Hrun & _ & Hsent & _ & _ & _ & Hsend); [discriminate|].
    exists w. split; [exact E|]. vm_compute in Er. injection Er as <-. vm_compute in Hk. injection Hk as <-.
    replace (self_first LNil direct) with [UVal LNil] in Hrun by (vm_compute; reflexivity).
    change (ztake 65536 [104; 105]) with [104; 105] in Hrun. cbn [app run_script echo] in Hrun. change (Zlen [104; 105]) with 2 in Hrun.
    rewrite (Hsend [104; 105] 2 []) in Hrun by (vm_compute; intuition discriminate).
    injection Hrun as <-. rewrite Hsent. cbn [x_sent sent_to]. rewrite Hs. vm_compute. reflexivity.
Defined.

(** With [callback_self_first] a later answer gives the script its connection; an
    answer at once never does. *)
Lemma udpd_by_name_witness :
  (exists w, udpd_new LNil (env (DnsNow (DnsFound (from_of 53 peer)))) (table "example.org") (fun _ => UDone) ∅ =
     Ret (Returned (Ret [LNil; LStr (lit "Failed to start DNS resolution")]), w)) /\
  (exists w1 w, udpd_new (LUserdata 3) (env DnsLater) (table "example.org") (fun _ => UDone) ∅ = Ret (Waiting, w1) /\
     udpd_exec (LUserdata 3) echo (OpAnswer sys (fun _ => UDone) (DnsFound (from_of 53 peer))) w1 = Ret w /\
     x_calls w = [CbResumed [LUserdata 3]]).
Proof.
  split.
  - destruct (udpd_by_name LNil echo echo_ok (2 ^ 40) zero_alloc_upto (env (DnsNow (DnsFound (from_of 53 peer)))) (table "example.org") (fun _ => UDone) ∅
      (named (DnsNow (DnsFound (from_of 53 peer)))) (lit "example.org")) as [Hn _];
      [vm_compute; reflexivity|vm_compute; reflexivity|vm_compute; split; discriminate|vm_compute; reflexivity|vm_compute; discriminate|apply sys_fits|].
    destruct (Hn ltac:(vm_compute; reflexivity)) as [Hnow _]. destruct (Hnow _ eq_refl) as (w & E & _). exists w. exact E.
  - destruct (udpd_by_name (LUserdata 3) echo echo_ok (2 ^ 40) zero_alloc_upto (env DnsLater) (table "example.org") (fun _ => UDone) ∅
      (named DnsLater) (lit "example.org")) as [Hn _];
      [vm_compute; reflexivity|vm_compute; reflexivity|vm_compute; split; discriminate|vm_compute; reflexivity|vm_compute; discriminate|apply sys_fits|].
    destruct (Hn ltac:(vm_compute; reflexivity)) as [_ Hlater]. destruct (Hlater eq_refl) as (w1 & E & Hans). exists w1.
    destruct (setup_resolved sys (on_uconn (set_addr (over (from_of 53 peer) (u_addr (x_conn w1))) (Zlen (from_of 53 peer))) (put_pending false w1))) as [[ok w2]| |] eqn:Es;
      [|vm_compute in E; injection E as <-; vm_compute in Es; discriminate..].
    destruct (Hans sys (from_of 53 peer) ok w2 sys_fits ltac:(vm_compute; discriminate) Es) as (w & E2 & Hc & _). exists w.
    split; [exact E|]. split; [exact E2|]. rewrite Hc. replace ok with true; [vm_compute; reflexivity|].
    vm_compute in E. injection E as <-. vm_compute in Es. injection Es as <- _. reflexivity.
Defined.
