(* ===== verification/UdpdMake.v ===== *)
(** * src/udpd.c, src/udpd_dns.c: making destinations

    [udpd.make_dest] and [udpd.make_dests], with the resolver requests they start
    and the callbacks that answer them.  A request owns a reference to the
    coroutine that waits; the registry is all the state there is.  The resolver and
    the lookup of a custom resolver are not under src/. *)

From S2P Require Import Prelude Lua LuaState Double Registry Loop TcpdConfig UdpdAddr UdpdConfig Udpd.

(** What the functions give a script: values, a destination, or a table of
    destinations. *)
Inductive mvalue : Type := MVal (v : lua_value) | MDest (d : udpd_dest_t) | MDests (l : list udpd_dest_t).
(** Results, or the coroutine waits for the answer to a request. *)
Inductive dest_made : Type := Answered (vs : list mvalue) | Waits (q : udpd_dns_request_t).

(** The resolver's answer to [make_dests]: all the addresses. *)
Inductive dns_list : Type := ListFailed (errcode : Z) (text : list Z) | ListFound (addrs : list (list Z)).
(** [evdns_getaddrinfo] answers later, or calls back at once and returns [NULL],
    or returns [NULL] alone. *)
Inductive dest_start : Type := StartLater | StartNow | StartFailed.

Section Make.
Context `{LuaAPI} `{Allocator} `{Inet}.
Implicit Type reg : gmap positive regval.

Definition unref_thread (a : sref) reg : outcome (gmap positive regval) :=
  match a with
  | Ref r => match reg !! r with Some _ => Ret (delete r reg) | None => UB end
  | _ => Ret reg
  end.
(** The request's reference, if it still has one, and its memory. *)
Definition udpd_dns_request_cleanup (q : udpd_dns_request_t) reg : outcome (gmap positive regval) := unref_thread (q_ref q) reg.

(** [junk]: what the memory of the new userdata held. *)
Definition answer_dest (junk addr : list Z) (q : udpd_dns_request_t) : outcome udpd_dest_t :=
  fresh_dest junk addr (strdup (q_hostname q)) (Some (q_port q)).
Definition resolution_failed (text : list Z) (q : udpd_dns_request_t) : list mvalue :=
  [MVal LNil; MVal (LStr (lit "DNS resolution failed for '" ++ q_hostname q ++ lit "': " ++ text))].

(** The coroutine is resumed with the results, [co] says what becomes of the
    registry, and the request is given up. *)
Definition dest_answered (co : list mvalue -> gmap positive regval -> gmap positive regval) (q : udpd_dns_request_t)
    (vs : outcome (list mvalue)) reg : outcome (option (list mvalue) * gmap positive regval) :=
  if has_thread (q_ref q) reg then
    vs ← vs;
    let reg := if q_yielded q then co vs reg else reg in
    reg ← unref_thread (q_ref q) reg;
    reg ← udpd_dns_request_cleanup (mk_request (q_hostname q) (q_port q) RefNone (q_yielded q)) reg;
    mret (if q_yielded q then Some vs else None, reg)
  else
    reg ← udpd_dns_request_cleanup q reg; mret (None, reg).

Definition udpd_dest_dns_callback (junk : list Z) (answer : dns_answer) (co : list mvalue -> gmap positive regval -> gmap positive regval)
    (q : udpd_dns_request_t) reg : outcome (option (list mvalue) * gmap positive regval) :=
  dest_answered co q
    match answer with
    | DnsFailed _ text => Ret (resolution_failed text q)
    | DnsFound addr => d ← answer_dest junk addr q; mret [MDest d]
    end reg.

Fixpoint answer_dests (junk : nat -> list Z) (addrs : list (list Z)) (q : udpd_dns_request_t) : outcome (list udpd_dest_t) :=
  match addrs with
  | [] => Ret []
  | addr :: addrs => d ← answer_dest (junk O) addr q; l ← answer_dests (fun i => junk (S i)) addrs q; mret (d :: l)
  end.
Definition udpd_dests_dns_callback (junk : nat -> list Z) (answer : dns_list) (co : list mvalue -> gmap positive regval -> gmap positive regval)
    (q : udpd_dns_request_t) reg : outcome (option (list mvalue) * gmap positive regval) :=
  dest_answered co q
    match answer with
    | ListFailed _ text => Ret (resolution_failed text q)
    | ListFound addrs => l ← answer_dests junk addrs q; mret [MDests l]
    end reg.

(** The two functions that start a request differ in the name in their message
    and in the callback.  A callback at once resumes the coroutine that is running,
    and then the count of results that [_utlua_resume] pops was never set; and -1 is
    not a count of results that a function of Lua may return. *)
Definition resolve_dests (name : string) (start : dest_start) (yieldable : bool) (hostname : list Z) (port : Z) reg :
    outcome (dest_made * gmap positive regval) :=
  if negb yieldable then Raise (lit name ++ lit " with hostname requires a coroutine context")
  else
    match udpd_dns_request_create hostname port with
    | None => UB
    | Some q =>
        let r := fresh (dom reg) in
        let reg := <[r := RThread]> reg in
        let q := mk_request (q_hostname q) (q_port q) (Ref r) true in
        match start with
        | StartNow => UB
        | StartFailed => reg ← udpd_dns_request_cleanup q reg; UB
        | StartLater => mret (Waits q, reg)
        end
    end.
Definition udpd_dns_resolve_for_destination_with_evdns := resolve_dests "udpd.make_dest".
Definition udpd_dns_resolve_for_destinations_with_evdns := resolve_dests "udpd.make_dests".

(** The arguments: host, port, and whether the third, if given, is a resolver. *)
Definition make_args (args : list lua_value) (resolver : outcome unit) : outcome (list Z * Z) :=
  host ← luaL_checklstring (arg args 1);
  port ← luaL_checkinteger (arg args 2);
  _ ← (if lua_isnil (arg args 3) then mret tt else resolver);
  mret (cstr host, s32 port).
Definition invalid_address : list mvalue := [MVal LNil; MVal (LStr (lit "Invalid IP address"))].

Definition udpd_conn_make_dest (start : dest_start) (yieldable : bool) (args : list lua_value) (resolver : outcome unit) reg :
    outcome (dest_made * gmap positive regval) :=
  '(host, port) ← make_args args resolver;
  if udpd_is_ip_address host then
    match udpd_dest_create_from_string host port with
    | Some dest => mret (Answered [MDest (userdata_of dest)], reg)
    | None => mret (Answered invalid_address, reg)
    end
  else udpd_dns_resolve_for_destination_with_evdns start yieldable host port reg.
Definition udpd_conn_make_dests (start : dest_start) (yieldable : bool) (args : list lua_value) (resolver : outcome unit) reg :
    outcome (dest_made * gmap positive regval) :=
  '(host, port) ← make_args args resolver;
  if udpd_is_ip_address host then
    match udpd_dest_create_from_string host port with
    | Some dest => mret (Answered [MDests [userdata_of dest]], reg)
    | None => mret (Answered invalid_address, reg)
    end
  else udpd_dns_resolve_for_destinations_with_evdns start yieldable host port reg.
End Make.

(** ** Theorem *)

(** A destination for an address that was found. *)
Definition dest_for (host : list Z) (port : Z) (addr : list Z) (d : udpd_dest_t) : Prop :=
  ztake (d_addrlen d) (d_addr d) = addr /\ d_addrlen d = Zlen addr /\ d_host d = Some host /\ d_port d = port.
(** The coroutine goes on without giving up the reference [r]. *)
Definition spares (r : positive) (co : list mvalue -> gmap positive regval -> gmap positive regval) : Prop :=
  forall vs reg, co vs reg !! r = reg !! r.

Section MakeDests.
Context `{LuaAPI} `{Allocator} `{Inet} (M : Z) (HM : mem_upto M).
Context (host : list Z) (port : Z) (Hc : cstr host = host) (Hs : Zlen host + SIZEOF_DEST <= M).
Implicit Type reg : gmap positive regval.

Lemma request_made : 1 <= port <= 65535 -> udpd_dns_request_create host port = Some (mk_request host port RefZero false).
Proof.
  intros Hp. unfold SIZEOF_DEST in Hs. pose proof (Zlen_nonneg host). unfold udpd_dns_request_create.
  replace ((port <=? 0) || (65535 <? port)) with false by lia.
  rewrite (malloc_upto M _ HM) by (unfold SIZEOF_REQUEST; lia). cbn [negb]. by rewrite (strdup_upto M HM) by (done || lia).
Qed.
Lemma request_refused : ~ 1 <= port <= 65535 -> udpd_dns_request_create host port = None.
Proof. intros Hp. unfold udpd_dns_request_create. by replace ((port <=? 0) || (65535 <? port)) with true by lia. Qed.
Lemma not_address : address_of host = None -> udpd_is_ip_address host = false.
Proof. intros E. destruct (udpd_is_ip_address host) eqn:Hip; [|done]. apply is_ip_address_of in Hip as [a Ha]. congruence. Qed.
Lemma text_address a : address_of host = Some a -> udpd_is_ip_address host = true.
Proof. intros E. apply is_ip_address_of. by eexists. Qed.

Lemma make_args_plain resolver : s32 port = port -> make_args [LStr host; LInt port] resolver = Ret (host, port).
Proof. intros Hp. unfold make_args. cbn [arg nth Nat.sub lua_isnil]. rewrite luaL_checklstring_str, luaL_checkinteger_int. cbn. by rewrite Hc, Hp. Qed.

Lemma answer_dest_spec junk addr r y : Zlen addr <= SS_SIZE -> exists d,
  answer_dest junk addr (mk_request host port r y) = Ret d /\ dest_for host port addr d.
Proof.
  intros Hl. unfold SIZEOF_DEST in Hs. pose proof (Zlen_nonneg host). unfold answer_dest, fresh_dest. cbn [q_hostname q_port].
  replace (Zlen addr <=? SS_SIZE) with true by lia. eexists. split; [done|].
  unfold dest_for. cbn [d_addr d_addrlen d_host d_port default]. rewrite (strdup_upto M HM) by (done || lia). split; [|done].
  unfold over. by apply ztake_app_exact.
Qed.
Lemma answer_dests_spec r y addrs : forall junk, Forall (fun addr => Zlen addr <= SS_SIZE) addrs -> exists l,
  answer_dests junk addrs (mk_request host port r y) = Ret l /\ Forall2 (dest_for host port) addrs l.
Proof.
  induction addrs as [|addr addrs IH]; intros junk Hl; [by exists []|]. apply Forall_cons in Hl as [Ha Hl]. cbn [answer_dests].
  destruct (answer_dest_spec (junk O) addr r y Ha) as (d & -> & Hd). destruct (IH (fun i => junk (S i)) Hl) as (l & -> & Hf).
  exists (d :: l). split; [done|]. by constructor.
Qed.

Lemma answered co r vs reg : spares r co -> reg !! r = Some RThread ->
  dest_answered co (mk_request host port (Ref r) true) (Ret vs) reg = Ret (Some vs, delete r (co vs reg)).
Proof. intros Hco Hr. unfold dest_answered, has_thread. cbn [q_ref q_yielded]. rewrite Hr. cbn. by rewrite Hco, Hr. Qed.

(** Making destinations.  For the text of an address and a port in 1..65535,
    [make_dest] returns at once the destination for it, and [make_dests] a table
    with that destination alone; for another port both return [nil] and a message;
    nothing is left in the registry.  For a host name, outside a coroutine both
    raise an error; inside one, the coroutine waits, held by the registry under a
    new reference, and when the resolver answers it is resumed exactly once, with
    [nil] and the resolver's message, or with a destination for the address found,
    respectively a table of destinations for all of them, in the resolver's order,
    each with the host and the port asked for, whatever the new objects' memory
    held; after that the reference is given back, and nothing else of the registry
    has been touched.  For a host name with a port outside 1..65535 inside a
    coroutine they have no defined result. *)
Theorem udpd_make_dest_answers start yieldable resolver reg : s32 port = port ->
  (forall a, address_of host = Some a -> 1 <= port <= 65535 -> exists d,
     udpd_conn_make_dest start yieldable [LStr host; LInt port] resolver reg = Ret (Answered [MDest d], reg) /\
     udpd_conn_make_dests start yieldable [LStr host; LInt port] resolver reg = Ret (Answered [MDests [d]], reg) /\
     d_addr d = fst (sockaddr_of port a) /\ d_addrlen d = snd (sockaddr_of port a) /\ d_host d = Some host /\ d_port d = port) /\
  (is_Some (address_of host) -> ~ 1 <= port <= 65535 ->
     udpd_conn_make_dest start yieldable [LStr host; LInt port] resolver reg = Ret (Answered invalid_address, reg) /\
     udpd_conn_make_dests start yieldable [LStr host; LInt port] resolver reg = Ret (Answered invalid_address, reg)) /\
  (address_of host = None ->
     (exists m, udpd_conn_make_dest start false [LStr host; LInt port] resolver reg = Raise m) /\
     (exists m, udpd_conn_make_dests start false [LStr host; LInt port] resolver reg = Raise m)) /\
  (address_of host = None -> ~ 1 <= port <= 65535 ->
     udpd_conn_make_dest start true [LStr host; LInt port] resolver reg = UB /\
     udpd_conn_make_dests start true [LStr host; LInt port] resolver reg = UB) /\
  (address_of host = None -> 1 <= port <= 65535 -> exists r q, reg !! r = None /\
     udpd_conn_make_dest StartLater true [LStr host; LInt port] resolver reg = Ret (Waits q, <[r := RThread]> reg) /\
     udpd_conn_make_dests StartLater true [LStr host; LInt port] resolver reg = Ret (Waits q, <[r := RThread]> reg) /\
     (forall co reg1, spares r co -> reg1 !! r = Some RThread ->
        (forall junk junks code text, let vs := resolution_failed text q in
           udpd_dest_dns_callback junk (DnsFailed code text) co q reg1 = Ret (Some vs, delete r (co vs reg1)) /\
           udpd_dests_dns_callback junks (ListFailed code text) co q reg1 = Ret (Some vs, delete r (co vs reg1))) /\
        (forall junk addr, Zlen addr <= SS_SIZE -> exists d, dest_for host port addr d /\
           udpd_dest_dns_callback junk (DnsFound addr) co q reg1 = Ret (Some [MDest d], delete r (co [MDest d] reg1))) /\
        (forall junks addrs, Forall (fun addr => Zlen addr <= SS_SIZE) addrs -> exists l, Forall2 (dest_for host port) addrs l /\
           udpd_dests_dns_callback junks (ListFound addrs) co q reg1 = Ret (Some [MDests l], delete r (co [MDests l] reg1))))).
Proof.
  intros Hp. unfold udpd_conn_make_dest, udpd_conn_make_dests, udpd_dns_resolve_for_destination_with_evdns, udpd_dns_resolve_for_destinations_with_evdns.
  rewrite !make_args_plain by done. cbn [mbind outcome_bind]. pose proof (Zlen_nonneg host) as Hl. split; [|split; [|split; [|split]]].
  - intros a Ha Hr. rewrite (text_address a Ha), (create_from_string M HM host port Hr Hc Hs), Ha. eexists. split; [done|]. split; [done|].
    unfold userdata_of. cbn [d_host d_addr d_addrlen d_port]. unfold SIZEOF_DEST in Hs. by rewrite (strdup_upto M HM) by (done || lia).
  - intros [a Ha] Hr. by rewrite (text_address a Ha), create_out_of_range.
  - intros Ha. rewrite (not_address Ha). split; by eexists.
  - intros Ha Hr. rewrite (not_address Ha). unfold resolve_dests. by rewrite request_refused.
  - intros Ha Hr. rewrite (not_address Ha). unfold resolve_dests. rewrite (request_made Hr). cbn [negb q_hostname q_port].
    exists (fresh (dom reg)), (mk_request host port (Ref (fresh (dom reg))) true). set (r := fresh (dom reg)).
    split; [apply not_elem_of_dom, is_fresh|]. split; [done|]. split; [done|]. intros co reg1 Hco Hreg1. split; [|split].
    + intros junk junks code text. unfold udpd_dest_dns_callback, udpd_dests_dns_callback. by rewrite !answered.
    + intros junk addr Haddr. destruct (answer_dest_spec junk addr (Ref r) true Haddr) as (d & Ed & Hd). exists d. split; [done|].
      unfold udpd_dest_dns_callback. rewrite Ed. by apply answered.
    + intros junks addrs Haddrs. destruct (answer_dests_spec (Ref r) true addrs junks Haddrs) as (l & El & Hf). exists l. split; [done|].
      unfold udpd_dests_dns_callback. rewrite El. by apply answered.
Qed.
End MakeDests.

(** Two addresses of one name. *)
Module MakeSample.
#[export] Existing Instances zero_alloc plain_inet plain_lua.
Definition name : list Z := lit "example.org".
Definition first_addr : list Z := ztake 16 (sockaddr_in 53 [10; 0; 0; 1]).
Definition second_addr : list Z := ztake 28 (sockaddr_in6 53 (zeros 16)).
End MakeSample.

Import MakeSample.

Lemma udpd_make_dest_answers_witness : exists r q l,
  udpd_conn_make_dests StartLater true [LStr name; LInt 53] (Ret tt) ∅ = Ret (Waits q, {[r := RThread]}) /\
  udpd_dests_dns_callback (fun _ => [9; 9]) (ListFound [first_addr; second_addr]) (fun _ reg => reg) q {[r := RThread]} = Ret (Some [MDests l], ∅) /\
  map d_port l = [53; 53] /\ map d_host l = [Some name; Some name].
Proof.
  destruct (udpd_make_dest_answers (2 ^ 40) zero_alloc_upto name 53 ltac:(vm_compute; reflexivity) ltac:(vm_compute; discriminate)
    StartLater true (Ret tt) ∅ ltac:(reflexivity)) as (_ & _ & _ & _ & Hn).
  destruct Hn as (r & q & _ & _ & E & Hcb); [vm_compute; reflexivity|split; discriminate|]. exists r, q.
  destruct (Hcb (fun _ reg => reg) {[r := RThread]}) as (_ & _ & Hl); [intros vs reg; reflexivity|apply lookup_singleton_eq|].
  destruct (Hl (fun _ => [9; 9]) [first_addr; second_addr]) as (l & Hf & Ecb); [repeat constructor; vm_compute; discriminate|].
  exists l. split; [exact E|]. split; [rewrite Ecb; do 2 f_equal; apply delete_singleton_eq|].
  clear Ecb. destruct l as [|d1 [|d2 [|]]]; [inversion Hf|inversion Hf as [|? ? ? ? _ Hf1]; inversion Hf1| |inversion Hf as [|? ? ? ? _ Hf1]; inversion Hf1 as [|? ? ? ? _ Hf2]; inversion Hf2].
  apply Forall2_cons in Hf as [(_ & _ & H1 & P1) Hf]. apply Forall2_cons in Hf as [(_ & _ & H2 & P2) _]. cbn [map]. rewrite H1, H2, P1, P2. split; reflexivity.
Defined.
