(* ===== verification/EventMgr.v ===== *)
(** * src/event_mgr.c: the event base, the resolver and the worker threads

    The static variables of event_mgr.c as one record, with what libevent has
    allocated: event bases by number (a number is not used twice), and resolvers
    with the base they run on.  Using a base or resolver that is freed, or freeing
    the base a thread is looping on, has no meaning.  A call of [event_mgr_loop] is
    two steps, [MBegin] and [MEnd]; what the callbacks do while [event_base_loop]
    blocks are the steps between them.  A worker thread is a step late to its loop
    ([MEnter]): breaking a loop that is not entered has no effect, so that joining
    its thread does not return.  libcurl's part of the cleanup belongs to http.c and
    is not here. *)

From S2P Require Import Prelude Registry.

Definition EVENT_MGR_MAX_WORKERS : Z := 6.
Definition EVENT_MGR_DEFAULT_WORKERS : Z := 4.

(** A thread handle that is zero, and a thread before it enters its loop and in it. *)
Inductive wthread : Type := NoThread | Starting | Looping.
#[export] Instance wthread_dec : EqDecision wthread.
Proof. solve_decision. Defined.

Record event_worker : Type := mk_worker {
  wk_base : option positive;
  wk_dnsbase : option positive;
  wk_thread : wthread;
  wk_running : bool
}.
Definition no_worker : event_worker := mk_worker None None NoThread false.

(** What SIGINT and SIGPIPE do: the default, [signal_handler], or libevent's event. *)
Inductive disposition : Type := Default | Handler | Event.

Record libevent : Type := mk_lib { lv_live : gset positive; lv_dns : gmap positive positive; lv_id : positive }.

(** [m_handled]: [signal_handler] deals with SIGHUP, SIGTERM and SIGQUIT;
    [m_signal]: the base the two signal events are added to; [m_loop]: the base
    [event_base_loop] is running on. *)
Record mgr : Type := mk_mgr {
  m_base : option positive;
  m_dnsbase : option positive;
  m_handled : bool;
  m_int : disposition;
  m_signal : option positive;
  m_signal_count : Z;
  m_looping : bool;
  m_initialized : bool;
  m_workers : list event_worker;
  num_workers : Z;
  next_worker_idx : Z;
  m_loop : option positive;
  m_lib : libevent
}.

Section Setters.
Implicit Type s : mgr.
Definition set_lib l s : mgr := mk_mgr (m_base s) (m_dnsbase s) (m_handled s) (m_int s) (m_signal s) (m_signal_count s)
  (m_looping s) (m_initialized s) (m_workers s) (num_workers s) (next_worker_idx s) (m_loop s) l.
Definition set_base b s : mgr := mk_mgr b (m_dnsbase s) (m_handled s) (m_int s) (m_signal s) (m_signal_count s)
  (m_looping s) (m_initialized s) (m_workers s) (num_workers s) (next_worker_idx s) (m_loop s) (m_lib s).
Definition set_dnsbase d s : mgr := mk_mgr (m_base s) d (m_handled s) (m_int s) (m_signal s) (m_signal_count s)
  (m_looping s) (m_initialized s) (m_workers s) (num_workers s) (next_worker_idx s) (m_loop s) (m_lib s).
Definition set_signals h i g c s : mgr := mk_mgr (m_base s) (m_dnsbase s) h i g c
  (m_looping s) (m_initialized s) (m_workers s) (num_workers s) (next_worker_idx s) (m_loop s) (m_lib s).
Definition set_flags l i s : mgr := mk_mgr (m_base s) (m_dnsbase s) (m_handled s) (m_int s) (m_signal s) (m_signal_count s)
  l i (m_workers s) (num_workers s) (next_worker_idx s) (m_loop s) (m_lib s).
Definition set_pool ws n x s : mgr := mk_mgr (m_base s) (m_dnsbase s) (m_handled s) (m_int s) (m_signal s) (m_signal_count s)
  (m_looping s) (m_initialized s) ws n x (m_loop s) (m_lib s).
Definition set_loop b s : mgr := mk_mgr (m_base s) (m_dnsbase s) (m_handled s) (m_int s) (m_signal s) (m_signal_count s)
  (m_looping s) (m_initialized s) (m_workers s) (num_workers s) (next_worker_idx s) b (m_lib s).
End Setters.

Definition mgr_start : mgr := mk_mgr None None false Default None 0 false false (replicate 6 no_worker) 0 0 None (mk_lib ∅ ∅ 1).

(** ** libevent *)

Section Libevent.
Implicit Type s : mgr.

Definition event_base_new s : positive * mgr :=
  let l := m_lib s in (lv_id l, set_lib (mk_lib ({[lv_id l]} ∪ lv_live l) (lv_dns l) (Pos.succ (lv_id l))) s).
(** Any use of a base. *)
Definition touch {A} (b : positive) s (k : A) : outcome A := if decide (b ∈ lv_live (m_lib s)) then Ret k else UB.
Definition event_base_free (b : positive) s : outcome mgr :=
  let l := m_lib s in
  if decide (m_loop s = Some b) then UB else touch b s (set_lib (mk_lib (lv_live l ∖ {[b]}) (lv_dns l) (lv_id l)) s).
Definition evdns_base_new (ok : bool) (b : positive) s : outcome (option positive * mgr) :=
  let l := m_lib s in
  touch b s (if ok then (Some (lv_id l), set_lib (mk_lib (lv_live l) (<[lv_id l := b]> (lv_dns l)) (Pos.succ (lv_id l))) s) else (None, s)).
(** A resolver uses its base when it is freed. *)
Definition evdns_base_free (d : positive) s : outcome mgr :=
  let l := m_lib s in
  match lv_dns l !! d with
  | Some b => touch b s (set_lib (mk_lib (lv_live l) (delete d (lv_dns l)) (lv_id l)) s)
  | None => UB
  end.
Definition free_base_opt (b : option positive) s : outcome mgr := match b with Some b => event_base_free b s | None => Ret s end.
Definition free_dns_opt (d : option positive) s : outcome mgr := match d with Some d => evdns_base_free d s | None => Ret s end.
End Libevent.

(** ** Workers *)

(** Where starting a worker fails. *)
Inductive worker_answer : Type := NoBase | NoDns | ThreadFails | Started.

Section Workers.
Implicit Type s : mgr.

Definition put_worker (i : nat) (w : event_worker) s : mgr := set_pool (<[i := w]> (m_workers s)) (num_workers s) (next_worker_idx s) s.
Definition worker s (i : nat) : event_worker := default no_worker (m_workers s !! i).

(** One turn of the loop of [event_mgr_workers_init]; a field that is not reached
    keeps its value. *)
Definition start_worker (a : worker_answer) (i : nat) s : outcome (bool * mgr) :=
  let w := worker s i in
  match a with
  | NoBase => Ret (false, put_worker i (mk_worker None (wk_dnsbase w) (wk_thread w) (wk_running w)) s)
  | _ =>
      let '(b, s) := event_base_new s in
      '(d, s) ← evdns_base_new (match a with NoDns => false | _ => true end) b s;
      match a with
      | NoDns => Ret (false, put_worker i (mk_worker (Some b) None (wk_thread w) (wk_running w)) s)
      | ThreadFails => Ret (false, put_worker i (mk_worker (Some b) d (wk_thread w) true) s)
      | _ => Ret (true, put_worker i (mk_worker (Some b) d Starting true) s)
      end
  end.
Fixpoint start_workers (answers : nat -> worker_answer) (i n : nat) s : outcome (Z * mgr) :=
  match n with
  | O => Ret (0, s)
  | S n => '(ok, s) ← start_worker (answers i) i s; if ok : bool then start_workers answers (S i) n s else Ret (-1, s)
  end.
Definition worker_total (count : Z) : Z :=
  if (count <=? 0) || (EVENT_MGR_MAX_WORKERS <? count) then EVENT_MGR_DEFAULT_WORKERS else count.
Definition event_mgr_workers_init (answers : nat -> worker_answer) (count : Z) s : outcome (Z * mgr) :=
  let count := worker_total count in
  start_workers answers 0 (Z.to_nat count) (set_pool (m_workers s) count (next_worker_idx s) s).
(** The thread enters its loop. *)
Definition worker_thread_func (i : nat) s : outcome mgr :=
  let w := worker s i in
  match wk_base w with
  | Some b => touch b s (put_worker i (mk_worker (wk_base w) (wk_dnsbase w) Looping (wk_running w)) s)
  | None => UB
  end.

(** The workers in use. *)
Definition pool s : list event_worker := ztake (num_workers s) (m_workers s).
Definition set_pool_part (ws : list event_worker) s : mgr :=
  set_pool (ws ++ zdrop (num_workers s) (m_workers s)) (num_workers s) (next_worker_idx s) s.

Definition is_some {A} (o : option A) : bool := match o with Some _ => true | None => false end.
(** A loop is broken when its worker is running. *)
Definition broken (w : event_worker) : bool := wk_running w && is_some (wk_base w).
Fixpoint break_loops (ws : list event_worker) s : outcome mgr :=
  match ws with
  | [] => Ret s
  | w :: ws =>
      s ← (match wk_base w with Some b => if wk_running w then touch b s s else Ret s | None => Ret s end);
      break_loops ws s
  end.
(** A thread whose loop is broken ends, and clears [running] before it does; the
    others are waited for. *)
Fixpoint join (ws : list event_worker) : option (list event_worker) :=
  match ws with
  | [] => Some []
  | w :: ws =>
      w' ← (match wk_thread w with
            | NoThread => Some w
            | Starting => None
            | Looping => if broken w then Some (mk_worker (wk_base w) (wk_dnsbase w) NoThread false) else None
            end);
      ws' ← join ws; Some (w' :: ws')
  end.
(** [None]: the call does not return. *)
Definition event_mgr_workers_stop_threads s : outcome (option mgr) :=
  s ← break_loops (pool s) s;
  Ret (match join (pool s) with Some ws => Some (set_pool_part ws s) | None => None end).

Fixpoint free_workers (ws : list event_worker) s : outcome mgr :=
  match ws with
  | [] => Ret s
  | w :: ws =>
      s ← free_dns_opt (wk_dnsbase w) s;
      s ← (if decide (wk_thread w = NoThread) then free_base_opt (wk_base w) s else match wk_base w with Some _ => UB | None => Ret s end);
      free_workers ws s
  end.
Definition freed (w : event_worker) : event_worker := mk_worker None None (wk_thread w) (wk_running w).
Definition event_mgr_workers_free_bases s : outcome mgr :=
  s ← free_workers (pool s) s;
  let s := set_pool_part (map freed (pool s)) s in
  Ret (set_pool (m_workers s) 0 (next_worker_idx s) s).
Definition event_mgr_workers_shutdown s : outcome (option mgr) :=
  r ← event_mgr_workers_stop_threads s;
  match r with Some s => s ← event_mgr_workers_free_bases s; Ret (Some s) | None => Ret None end.

Definition event_mgr_worker_count s : Z := num_workers s.
(** The counter is unsigned and wraps around. *)
Definition event_mgr_next_worker s : Z * mgr :=
  if num_workers s <=? 0 then (-1, s)
  else (next_worker_idx s mod num_workers s, set_pool (m_workers s) (num_workers s) (u32 (next_worker_idx s + 1)) s).
End Workers.

(** ** The manager *)

Inductive signal : Type := SIGINT | SIGTERM | SIGHUP | SIGQUIT | SIGPIPE.
(** What a signal's handler does, the default ending the process. *)
Inductive handled : Type := Done | ProcessEnds.

Section Manager.
Implicit Type s : mgr.
(** Whether removing a signal event puts back the handler that adding it replaced,
    or the default. *)
Context (restores : bool).

Definition event_mgr_base_current s : option positive := m_base s.
Definition event_mgr_dnsbase s : option positive := m_dnsbase s.
Definition event_mgr_is_looping s : bool := m_looping s.

(** [event_mgr_base] and [event_mgr_init] call each other; the inner
    [event_mgr_init] finds [initialized] set and returns. *)
Definition get_base s : positive * mgr :=
  match m_base s with
  | Some b => (b, s)
  | None => let '(b, s) := event_base_new s in (b, set_base (Some b) s)
  end.
(** [event_add] of an event that is added already, on another base, has no meaning. *)
Definition add_signals s : outcome mgr :=
  match m_signal s, event_mgr_base_current s with
  | None, Some b => touch b s (set_signals true Event (Some b) (m_signal_count s) s)
  | _, _ => UB
  end.
Definition event_mgr_init (dns_ok : bool) s : outcome (Z * mgr) :=
  if m_initialized s then Ret (-1, s)
  else
    let s := set_flags (m_looping s) true s in
    let '(b, s) := get_base s in
    '(d, s) ← evdns_base_new dns_ok b s;
    s ← add_signals (set_dnsbase d s);
    Ret (0, s).
Definition event_mgr_base (dns_ok : bool) s : outcome (option positive * mgr) :=
  let '(_, s) := get_base s in
  '(_, s) ← event_mgr_init dns_ok s;
  Ret (m_base s, s).

Definition event_mgr_worker_base (dns_ok : bool) (id : Z) s : outcome (option positive * mgr) :=
  if (id <? 0) || (num_workers s <=? id) then event_mgr_base dns_ok s else Ret (wk_base (worker s (Z.to_nat id)), s).
Definition event_mgr_worker_dnsbase (id : Z) s : option positive :=
  if (id <? 0) || (num_workers s <=? id) then event_mgr_dnsbase s else wk_dnsbase (worker s (Z.to_nat id)).

Definition event_mgr_break s : outcome mgr := match m_base s with Some b => touch b s s | None => Ret s end.

Definition signal_handler (sig : signal) s : outcome (handled * mgr) :=
  match sig with
  | SIGPIPE => Ret (Done, s)
  | SIGINT =>
      let s := set_signals (m_handled s) (m_int s) (m_signal s) (m_signal_count s + 1) s in
      if 1 <? m_signal_count s then Ret (ProcessEnds, s) else s ← event_mgr_break s; Ret (Done, s)
  | _ => s ← event_mgr_break s; Ret (Done, s)
  end.
Definition signal_cb (sig : signal) s : outcome mgr := match sig with SIGPIPE => Ret s | _ => event_mgr_break s end.
(** A signal arrives; libevent calls [signal_cb] later, from the loop. *)
Definition deliver (sig : signal) s : outcome (handled * mgr) :=
  match sig with
  | SIGINT | SIGPIPE =>
      match m_int s with
      | Event => Ret (Done, s)
      | Handler => signal_handler sig s
      | Default => Ret (ProcessEnds, s)
      end
  | _ => if m_handled s then signal_handler sig s else Ret (ProcessEnds, s)
  end.

Definition cleanup_signals s : mgr := set_signals false Default (m_signal s) (m_signal_count s) s.
(** [event_del] of an event that is not added does nothing. *)
Definition cleanup_signal_events s : outcome mgr :=
  match m_base s, m_signal s with
  | Some _, Some b => touch b s (set_signals (m_handled s) (if restores then Handler else Default) None (m_signal_count s) s)
  | _, _ => Ret s
  end.
Definition cleanup_dnsbase s : outcome mgr := s ← free_dns_opt (m_dnsbase s) s; Ret (set_dnsbase None s).
Definition cleanup_eventbase s : outcome mgr := s ← free_base_opt (m_base s) s; Ret (set_base None s).
Definition reset_state s : mgr := set_flags false false (set_signals (m_handled s) (m_int s) (m_signal s) 0 s).
Definition full_cleanup s : outcome (option mgr) :=
  s ← cleanup_signal_events (cleanup_signals s);
  s ← cleanup_dnsbase s;
  r ← event_mgr_workers_shutdown s;
  match r with
  | Some s => s ← cleanup_eventbase s; Ret (Some (reset_state s))
  | None => Ret None
  end.

(** Both loops, up to the call that blocks and from there on.  [Some]: the call's
    answer, without looping. *)
Definition loop_begin (dns_ok : bool) s : outcome (option Z * mgr) :=
  if m_looping s then Ret (Some (-1), s)
  else
    '(_, s) ← event_mgr_init dns_ok s;
    let s := set_flags true (m_initialized s) s in
    match m_base s with
    | Some b => touch b s (None, set_loop (Some b) s)
    | None => UB
    end.
Definition loop_end s : outcome (option mgr) :=
  s ← cleanup_signal_events (cleanup_signals (set_loop None s));
  s ← cleanup_dnsbase s;
  r ← event_mgr_workers_stop_threads s;
  match r with
  | Some s => Ret (Some (set_flags false false s))
  | None => Ret None
  end.

Definition event_mgr_cleanup s : outcome (option mgr) := if m_initialized s then full_cleanup s else Ret (Some s).
Definition event_mgr_loop_cleanup s : outcome mgr := s ← event_mgr_workers_free_bases s; cleanup_eventbase s.
End Manager.

(** ** What the manager owns

    A slot is a base and the resolver on it: the manager's and the workers'. *)

Definition slot : Type := option positive * option positive.
Definition pair_of (p : slot) : option (positive * positive) :=
  match p with (Some b, Some d) => Some (d, b) | _ => None end.

(** What is allocated is what the slots hold, each once. *)
Record own (sl : list slot) (l : libevent) : Prop := {
  own_live : lv_live l = list_to_set (omap fst sl);
  own_bases : NoDup (omap fst sl);
  own_dns : lv_dns l = list_to_map (omap pair_of sl);
  own_resolvers : NoDup (omap pair_of sl).*1;
  own_based : forall d, (None, Some d) ∉ sl;
  own_fresh : forall x, x ∈ omap fst sl \/ x ∈ (omap pair_of sl).*1 -> (x < lv_id l)%positive
}.

Lemma own_perm sl sl' l : sl ≡ₚ sl' -> own sl l -> own sl' l.
Proof.
  intros Hp []. constructor.
  - rewrite own_live0. by rewrite Hp.
  - by rewrite <- Hp.
  - rewrite own_dns0. apply list_to_map_proper; [done|by rewrite Hp].
  - by rewrite <- Hp.
  - intros d. rewrite <- Hp. apply own_based0.
  - intros x. rewrite <- Hp. apply own_fresh0.
Qed.

Section Own.
Implicit Types (s : mgr) (sl : list slot).

Lemma own_touch {A} b d sl s (k : A) : own ((Some b, d) :: sl) (m_lib s) -> touch b s k = Ret k.
Proof.
  intros Ho. unfold touch. rewrite decide_True; [done|]. rewrite (own_live _ _ Ho). cbn. set_solver.
Qed.

Lemma own_base_new sl s : own ((None, None) :: sl) (m_lib s) ->
  exists b l, event_base_new s = (b, set_lib l s) /\ own ((Some b, None) :: sl) l.
Proof.
  intros [H1 H2 H3 H4 H5 H6]. eexists _, _. split; [done|]. cbn in *. constructor; cbn.
  - by rewrite H1.
  - apply NoDup_cons. split; [|done]. intros Hin. specialize (H6 _ (or_introl Hin)). lia.
  - done.
  - done.
  - intros d. rewrite elem_of_cons. intros [?|Hin]; [done|]. apply (H5 d). rewrite elem_of_cons. by right.
  - intros x. rewrite elem_of_cons. intros [[->|Hin]|Hin]; [lia|apply Pos.lt_lt_succ, H6; by left|apply Pos.lt_lt_succ, H6; by right].
Qed.

Lemma own_dns_new ok b sl s : own ((Some b, None) :: sl) (m_lib s) ->
  exists d l, evdns_base_new ok b s = Ret (d, set_lib l s) /\ own ((Some b, d) :: sl) l /\ (d = None -> ok = false).
Proof.
  intros Ho. unfold evdns_base_new. rewrite (own_touch b None sl) by done. destruct ok.
  2: { exists None, (m_lib s). split; [by destruct s|by split]. }
  destruct Ho as [H1 H2 H3 H4 H5 H6]. eexists _, _. split; [done|]. split; [|done]. cbn in *. constructor; cbn.
  - by rewrite H1.
  - done.
  - by rewrite H3.
  - apply NoDup_cons. split; [|done]. intros Hin. specialize (H6 _ (or_intror Hin)). lia.
  - intros d. rewrite elem_of_cons. intros [?|Hin]; [done|]. apply (H5 d). rewrite elem_of_cons. by right.
  - intros x. rewrite (elem_of_cons _.*1). intros [Hin|[->|Hin]]; [apply Pos.lt_lt_succ, H6; by left|lia|apply Pos.lt_lt_succ, H6; by right].
Qed.

Lemma own_dns_free b d sl s : own ((b, d) :: sl) (m_lib s) ->
  exists l, free_dns_opt d s = Ret (set_lib l s) /\ own ((b, None) :: sl) l.
Proof.
  intros Ho. destruct d as [d|]; [|exists (m_lib s); by destruct s]. destruct b as [b|].
  2: { exfalso. apply (own_based _ _ Ho d). by left. }
  cbn. unfold evdns_base_free. pose proof (own_dns _ _ Ho) as Hd. cbn in Hd. rewrite Hd, lookup_insert_eq.
  rewrite (own_touch b (Some d) sl) by done. eexists. split; [done|]. destruct Ho as [H1 H2 H3 H4 H5 H6]. cbn in *.
  apply NoDup_cons in H4 as [H4a H4b]. constructor; cbn.
  - done.
  - done.
  - rewrite delete_insert_id; [done|]. by apply not_elem_of_list_to_map_1.
  - done.
  - intros e. rewrite elem_of_cons. intros [?|Hin]; [done|]. apply (H5 e). rewrite elem_of_cons. by right.
  - intros x Hx. apply H6. rewrite (elem_of_cons _.*1). tauto.
Qed.

Lemma own_base_free b sl s : own ((b, None) :: sl) (m_lib s) -> (is_Some b -> m_loop s <> b) ->
  exists l, free_base_opt b s = Ret (set_lib l s) /\ own ((None, None) :: sl) l.
Proof.
  intros Ho Hb. destruct b as [b|]; [|exists (m_lib s); by destruct s]. cbn. unfold event_base_free.
  rewrite decide_False by (apply Hb; by eexists). rewrite (own_touch b None sl) by done. eexists. split; [done|].
  destruct Ho as [H1 H2 H3 H4 H5 H6]. cbn in *. apply NoDup_cons in H2 as [H2a H2b]. constructor; cbn; try done.
  - rewrite H1. apply set_eq. intros x. rewrite elem_of_difference, elem_of_union, !elem_of_list_to_set, elem_of_singleton.
    split; [tauto|]. intros Hx. split; [tauto|]. by intros ->.
  - intros e. rewrite elem_of_cons. intros [?|Hin]; [done|]. apply (H5 e). rewrite elem_of_cons. by right.
  - intros x Hx. apply H6. rewrite elem_of_cons. tauto.
Qed.

(** Nothing is held. *)
Lemma own_nothing sl l : own sl l -> Forall (eq (None, None)) sl -> lv_live l = ∅ /\ lv_dns l = ∅.
Proof.
  intros [H1 _ H3 _ _ _] Hn. assert (omap fst sl = [] /\ omap pair_of sl = []) as [E1 E2].
  { clear H1 H3. induction Hn as [|x sl' Hx Hn IH]; [done|]. subst x. exact IH. }
  by rewrite H1, H3, E1, E2.
Qed.
Lemma own_held sl l b d : own sl l -> (Some b, d) ∈ sl -> b ∈ lv_live l.
Proof.
  intros Ho Hin. rewrite (own_live _ _ Ho). apply elem_of_list_to_set, list_elem_of_omap. by exists (Some b, d).
Qed.
End Own.

(** ** The invariant of the manager *)

Definition slot_of (w : event_worker) : slot := (wk_base w, wk_dnsbase w).
Definition slots_of (main : slot) (ws : list event_worker) : list slot := main :: map slot_of ws.
Definition slots (s : mgr) : list slot := slots_of (m_base s, m_dnsbase s) (m_workers s).
Definition clean (w : event_worker) : Prop := slot_of w = (None, None) /\ wk_thread w = NoThread.
(** A thread's loop can be broken. *)
Definition stoppable (w : event_worker) : Prop := wk_thread w <> NoThread -> broken w = true.

Record pool_ok (ws : list event_worker) (n : Z) : Prop := {
  p_length : length ws = 6%nat;
  p_num : 0 <= n <= 6;
  p_rest : Forall clean (zdrop n ws);
  p_stop : Forall stoppable ws
}.
(** The signal events and the resolver are there while it is initialized. *)
Record main_ok (b d g l : option positive) (looping initialized : bool) : Prop := {
  k_signal : g = (if initialized then b else None);
  k_loop : l = (if looping then b else None);
  k_base : initialized = true -> is_Some b;
  k_dns : initialized = false -> d = None;
  k_flags : looping = true -> initialized = true
}.
Definition mgr_inv (s : mgr) : Prop :=
  own (slots s) (m_lib s) /\ pool_ok (m_workers s) (num_workers s) /\
  main_ok (m_base s) (m_dnsbase s) (m_signal s) (m_loop s) (m_looping s) (m_initialized s).

Lemma slots_worker main ws i w : ws !! i = Some w ->
  slots_of main ws ≡ₚ slot_of w :: slots_of main (delete i ws).
Proof.
  intros Hi. unfold slots_of. rewrite (delete_Permutation ws i w Hi) at 1. cbn. apply Permutation_swap.
Qed.
Lemma slots_put main ws i w : (i < length ws)%nat ->
  slots_of main (<[i := w]> ws) ≡ₚ slot_of w :: slots_of main (delete i ws).
Proof.
  intros Hi. unfold slots_of. rewrite insert_take_drop, delete_take_drop, <- Permutation_middle by done. apply Permutation_swap.
Qed.

Section Workers_ok.
Implicit Type s : mgr.

(** A worker's turn, when its slot is empty. *)
Lemma start_worker_spec a i s main : (i < length (m_workers s))%nat -> clean (worker s i) ->
  own (slots_of main (m_workers s)) (m_lib s) ->
  exists w l, start_worker a i s = Ret (match a with Started => true | _ => false end, set_lib l (put_worker i w s)) /\
    own (slots_of main (<[i := w]> (m_workers s))) l /\ stoppable w.
Proof.
  intros Hi [Hs Ht] Ho. destruct (lookup_lt_is_Some_2 _ _ Hi) as [w0 Hw]. assert (E0 : worker s i = w0) by (unfold worker; by rewrite Hw).
  rewrite E0 in Hs, Ht. assert (Ho' := own_perm _ _ _ (slots_worker _ _ _ _ Hw) Ho). rewrite Hs in Ho'. injection Hs as Hb Hd.
  assert (Hput : forall w l, own (slot_of w :: slots_of main (delete i (m_workers s))) l -> own (slots_of main (<[i := w]> (m_workers s))) l).
  { intros w l. apply own_perm. symmetry. by apply slots_put. }
  unfold start_worker. rewrite E0, Hd, Ht. destruct (own_base_new _ _ Ho') as (b & l1 & E1 & Ho1). rewrite E1. clear E1.
  destruct (own_dns_new true b _ (set_lib l1 s) Ho1) as (d & l2 & E2 & Ho2 & _).
  destruct a; cbv beta iota; rewrite ?E2; cbn [mbind outcome_bind].
  - eexists _, (m_lib s). split; [by destruct s|]. split; [by apply Hput|]. by intros H.
  - unfold evdns_base_new. rewrite (own_touch b None _ (set_lib l1 s)) by exact Ho1.
    eexists _, l1. split; [by destruct s|]. split; [by apply Hput|]. by intros H.
  - eexists _, l2. split; [by destruct s|]. split; [by apply Hput|]. by intros H.
  - eexists _, l2. split; [by destruct s|]. split; [by apply Hput|]. by intros H.
Qed.

Lemma start_workers_spec main answers n : forall i s, (i + n <= length (m_workers s))%nat ->
  own (slots_of main (m_workers s)) (m_lib s) -> Forall clean (drop i (m_workers s)) -> Forall stoppable (m_workers s) ->
  exists r ws l, start_workers answers i n s = Ret (r, set_lib l (set_pool ws (num_workers s) (next_worker_idx s) s)) /\
    own (slots_of main ws) l /\ length ws = length (m_workers s) /\ Forall clean (drop (i + n) ws) /\ Forall stoppable ws.
Proof.
  induction n as [|n IH]; intros i s Hi Ho Hc Hs; cbn [start_workers].
  { exists 0, (m_workers s), (m_lib s). split; [by destruct s|]. by rewrite Nat.add_0_r. }
  assert (Hlt : (i < length (m_workers s))%nat) by lia. destruct (lookup_lt_is_Some_2 _ _ Hlt) as [w0 Hw].
  rewrite (drop_S _ _ _ Hw) in Hc. apply Forall_cons in Hc as [Hw0 Hc].
  destruct (start_worker_spec (answers i) i s main) as (w & l & -> & Ho1 & Hw1); [done|by unfold worker; rewrite Hw|done|].
  cbn [mbind outcome_bind]. assert (Hs1 : Forall stoppable (<[i := w]> (m_workers s))) by by apply Forall_insert.
  assert (Hc1 : Forall clean (drop (S i) (<[i := w]> (m_workers s)))) by (rewrite drop_insert_lt by lia; done).
  destruct (answers i).
  4: { destruct (IH (S i) (set_lib l (put_worker i w s))) as (r & ws & l' & -> & Ho2 & Hl2 & Hc2 & Hs2); cbn;
         [rewrite length_insert; lia|done..|].
       eexists r, ws, l'. split; [done|]. cbn in Hl2. rewrite length_insert in Hl2. by rewrite <- plus_n_Sm. }
  all: eexists _, _, l; split; [done|]; split; [done|]; split; [apply length_insert|]; split; [|done].
  all: replace (i + S n)%nat with (S i + n)%nat by lia; rewrite <- drop_drop; by apply Forall_drop.
Qed.

Lemma workers_init_spec main answers count s : own (slots_of main (m_workers s)) (m_lib s) -> pool_ok (m_workers s) 0 ->
  exists r ws l, event_mgr_workers_init answers count s = Ret (r, set_lib l (set_pool ws (worker_total count) (next_worker_idx s) s)) /\
    own (slots_of main ws) l /\ pool_ok ws (worker_total count).
Proof.
  intros Ho []. assert (Hc : 0 < worker_total count <= 6).
  { unfold worker_total, EVENT_MGR_MAX_WORKERS, EVENT_MGR_DEFAULT_WORKERS. destruct (Z.leb_spec count 0), (Z.ltb_spec 6 count); cbn; lia. }
  destruct (start_workers_spec main answers (Z.to_nat (worker_total count)) 0 (set_pool (m_workers s) (worker_total count) (next_worker_idx s) s))
    as (r & ws & l & E & Ho' & Hl & Hc' & Hs); cbn; [lia|done..|].
  exists r, ws, l. split; [exact E|]. split; [done|]. constructor; [by rewrite Hl|lia|done|done].
Qed.

Lemma break_loops_ret ws s : (forall w b, w ∈ ws -> wk_base w = Some b -> b ∈ lv_live (m_lib s)) -> break_loops ws s = Ret s.
Proof.
  induction ws as [|w ws IH]; intros Hl; cbn [break_loops]; [done|].
  assert (IH' : break_loops ws s = Ret s) by (apply IH; intros; eapply Hl; [by right|done]).
  destruct (wk_base w) as [b|] eqn:E; [|exact IH']. destruct (wk_running w); [|exact IH'].
  unfold touch. rewrite decide_True by (eapply Hl; [by left|done]). exact IH'.
Qed.

Lemma join_some ws : forall ws', join ws = Some ws' -> Forall stoppable ws ->
  map slot_of ws' = map slot_of ws /\ Forall (fun w => wk_thread w = NoThread) ws'.
Proof.
  induction ws as [|w ws IH]; intros ws' E Hs; cbn [join] in E; [by injection E as <-|]. apply Forall_cons in Hs as [Hw Hs].
  assert (Hgo : exists w', wk_thread w' = NoThread /\ slot_of w' = slot_of w /\ (ws'' ← join ws; Some (w' :: ws'')) = Some ws').
  { unfold stoppable in Hw. destruct (wk_thread w) eqn:Et; cbn in E; [by exists w|done|].
    destruct (broken w) eqn:Eb; cbn in E; [|done]. by eexists (mk_worker _ _ _ _). }
  clear E. destruct Hgo as (w' & Ht & Hsl & E). destruct (join ws) as [l|]; [|done]. injection E as <-.
  destruct (IH l eq_refl Hs) as [Em Hn]. split; [cbn; by rewrite Em, Hsl|by apply Forall_cons].
Qed.
Lemma join_waits ws : Forall stoppable ws -> join ws = None -> Exists (fun w => wk_thread w = Starting) ws.
Proof.
  induction ws as [|w ws IH]; intros Hs E; cbn [join] in E; [done|]. apply Forall_cons in Hs as [Hw Hs].
  destruct (wk_thread w) eqn:Et; [|by apply Exists_cons_hd|].
  2: rewrite Hw in E by congruence.
  all: cbn in E; destruct (join ws); [done|]; by apply Exists_cons_tl, IH.
Qed.
Lemma join_length ws ws' : join ws = Some ws' -> length ws' = length ws.
Proof.
  revert ws'. induction ws as [|w ws IH]; intros ws' E; cbn [join] in E; [by injection E as <-|].
  destruct (wk_thread w); [|done|destruct (broken w); [|done]]; cbn in E;
    (destruct (join ws) as [l|]; [|done]; injection E as <-; cbn; by rewrite (IH l)).
Qed.

Lemma pool_ok_parts ws n : pool_ok ws n -> ws = ztake n ws ++ zdrop n ws /\ length (ztake n ws) = Z.to_nat n.
Proof. intros []. split; [symmetry; apply take_drop|]. unfold ztake. rewrite length_take. lia. Qed.
Lemma pool_ok_put ws n ws' : pool_ok ws n -> length ws' = Z.to_nat n -> Forall stoppable ws' -> pool_ok (ws' ++ zdrop n ws) n.
Proof.
  intros [] Hl Hs. constructor; [unfold zdrop; rewrite length_app, length_drop; lia|done| |].
  - unfold zdrop at 1. by rewrite drop_app_length'.
  - apply Forall_app. split; [done|]. by apply Forall_drop.
Qed.
Lemma clean_stopped w : clean w -> wk_thread w = NoThread.
Proof. by intros [_ ?]. Qed.
Lemma stopped_stoppable w : wk_thread w = NoThread -> stoppable w.
Proof. by intros Ht H. Qed.

Lemma pool_live s main w b : own (slots_of main (m_workers s)) (m_lib s) -> w ∈ pool s -> wk_base w = Some b -> b ∈ lv_live (m_lib s).
Proof.
  intros Ho Hw Hb. apply (own_held _ _ b (wk_dnsbase w) Ho). right. rewrite <- Hb. apply list_elem_of_fmap. exists w. split; [done|].
  unfold pool, ztake in Hw. rewrite <- (take_drop (Z.to_nat (num_workers s)) (m_workers s)). apply elem_of_app. by left.
Qed.

(** Every worker thread is gone, or one of them has not entered its loop. *)
Lemma stop_threads_spec s main : own (slots_of main (m_workers s)) (m_lib s) -> pool_ok (m_workers s) (num_workers s) ->
  (event_mgr_workers_stop_threads s = Ret None /\ Exists (fun w => wk_thread w = Starting) (m_workers s)) \/
  exists ws, event_mgr_workers_stop_threads s = Ret (Some (set_pool ws (num_workers s) (next_worker_idx s) s)) /\
    map slot_of ws = map slot_of (m_workers s) /\ pool_ok ws (num_workers s) /\ Forall (fun w => wk_thread w = NoThread) ws.
Proof.
  intros Ho Hp. unfold event_mgr_workers_stop_threads. destruct (pool_ok_parts _ _ Hp) as [E El].
  rewrite break_loops_ret; [cbn [mbind outcome_bind]|].
  2: { intros w b Hw. by apply (pool_live s main). }
  unfold pool in *. pose proof (p_stop _ _ Hp) as Hs. rewrite E in Hs. apply Forall_app in Hs as [Hs Hs'].
  destruct (join (ztake (num_workers s) (m_workers s))) as [ws|] eqn:Ej.
  - right. exists (ws ++ zdrop (num_workers s) (m_workers s)). destruct (join_some _ _ Ej Hs) as [Em Hn]. split; [done|].
    split; [|split].
    + rewrite E at 2. by rewrite !map_app, Em.
    + apply pool_ok_put; [done|by rewrite (join_length _ _ Ej)|]. by apply (Forall_impl _ _ _ Hn), stopped_stoppable.
    + apply Forall_app. split; [done|]. apply (Forall_impl _ _ _ (p_rest _ _ Hp)). apply clean_stopped.
  - left. split; [done|]. rewrite E. apply Exists_app. left. by apply join_waits.
Qed.

Lemma join_not_late ws ws' : join ws = Some ws' -> Forall (fun w => wk_thread w <> Starting) ws.
Proof.
  revert ws'. induction ws as [|w ws IH]; intros ws' E; cbn [join] in E; [by constructor|]. apply Forall_cons.
  split; [intros Et; by rewrite Et in E|]. destruct (match wk_thread w with NoThread => _ | Starting => _ | Looping => _ end) as [w'|]; [|done].
  cbn in E. destruct (join ws) as [l|]; [|done]. by apply (IH l).
Qed.
Lemma stop_not_late s main s' : own (slots_of main (m_workers s)) (m_lib s) -> pool_ok (m_workers s) (num_workers s) ->
  event_mgr_workers_stop_threads s = Ret (Some s') -> ~ Exists (fun w => wk_thread w = Starting) (m_workers s).
Proof.
  intros Ho Hp E. apply Forall_Exists_neg. destruct (pool_ok_parts _ _ Hp) as [El _]. rewrite El. apply Forall_app. split.
  - unfold event_mgr_workers_stop_threads in E. destruct (break_loops _ s) as [s1| |] eqn:Eb; [|done|done]. cbn in E.
    rewrite break_loops_ret in Eb.
    + injection Eb as <-. unfold pool in E. destruct (join (ztake (num_workers s) (m_workers s))) as [ws|] eqn:Ej; [|done].
      by apply (join_not_late _ _ Ej).
    + intros w b Hw. by apply (pool_live s main).
  - apply (Forall_impl _ _ _ (p_rest _ _ Hp)). intros w [_ ->]. done.
Qed.

Lemma free_workers_spec r ws : forall s, own (map slot_of ws ++ r) (m_lib s) -> Forall (fun w => wk_thread w = NoThread) ws ->
  (forall b, m_loop s = Some b -> b ∈ omap fst r) ->
  exists l, free_workers ws s = Ret (set_lib l s) /\ own (map (fun w => slot_of (freed w)) ws ++ r) l.
Proof.
  revert r. induction ws as [|w ws IH]; intros r s Ho Ht Hl; cbn [free_workers].
  { exists (m_lib s). by destruct s. }
  apply Forall_cons in Ht as [Hw Ht].
  destruct (own_dns_free _ _ _ _ Ho) as (l1 & -> & Ho1). cbn [mbind outcome_bind]. rewrite decide_True by done.
  destruct (own_base_free (wk_base w) _ (set_lib l1 s) Ho1) as (l2 & -> & Ho2).
  { intros [b Eb] E. rewrite Eb in E, Ho1. apply own_bases, NoDup_cons in Ho1 as [Hn _]. apply Hn.
    apply Hl, list_elem_of_omap in E as (x & Hx & E). apply list_elem_of_omap. exists x. split; [|done]. apply elem_of_app. by right. }
  cbn [mbind outcome_bind]. destruct (IH ((None, None) :: r) (set_lib l2 s)) as (l3 & E & Ho3); [|done|exact Hl|].
  - by apply (own_perm _ _ _ (Permutation_middle _ _ _)).
  - exists l3. split; [exact E|]. by apply (own_perm _ _ _ (symmetry (Permutation_middle _ _ _))).
Qed.

(** The bases of workers that have no thread. *)
Lemma free_bases_spec s main : own (slots_of main (m_workers s)) (m_lib s) -> pool_ok (m_workers s) (num_workers s) ->
  Forall (fun w => wk_thread w = NoThread) (m_workers s) -> (forall b, m_loop s = Some b -> main.1 = Some b) ->
  exists ws l, event_mgr_workers_free_bases s = Ret (set_lib l (set_pool ws 0 (next_worker_idx s) s)) /\
    own (slots_of main ws) l /\ pool_ok ws 0.
Proof.
  intros Ho Hp Ht Hl. destruct (pool_ok_parts _ _ Hp) as [E El]. unfold event_mgr_workers_free_bases, pool.
  assert (Ho' : own (map slot_of (ztake (num_workers s) (m_workers s)) ++ (main :: map slot_of (zdrop (num_workers s) (m_workers s)))) (m_lib s)).
  { eapply own_perm, Ho. unfold slots_of. rewrite E at 1. rewrite map_app. apply Permutation_middle. }
  assert (Htt : Forall (fun w => wk_thread w = NoThread) (ztake (num_workers s) (m_workers s))) by by apply Forall_take.
  destruct (free_workers_spec _ _ s Ho' Htt) as (l & -> & Hol).
  { intros b E1. cbn. rewrite (Hl b E1). by left. }
  cbn [mbind outcome_bind]. eexists _, l. split; [done|]. split.
  - eapply own_perm, Hol. cbn. unfold slots_of. rewrite map_app, map_map. symmetry. apply Permutation_middle.
  - cbn.
    assert (Hc : Forall clean (map freed (ztake (num_workers s) (m_workers s)) ++ zdrop (num_workers s) (m_workers s))).
    { apply Forall_app. split; [|apply (p_rest _ _ Hp)]. apply Forall_map, (Forall_impl _ _ _ Htt). intros w Hw. by split. }
    constructor; [|lia|done|].
    + rewrite length_app, length_map, El. pose proof (p_length _ _ Hp) as Hlen. rewrite E, length_app, El in Hlen. done.
    + apply (Forall_impl _ _ _ Hc). intros w [_ Hw]. by apply stopped_stoppable.
Qed.
End Workers_ok.

(** ** The operations of the manager *)

Section Manager_ok.
Implicit Type s : mgr.
Context (restores : bool).

Lemma get_base_spec s : own (slots s) (m_lib s) ->
  exists b l, get_base s = (b, set_lib l (set_base (Some b) s)) /\ own (slots_of (Some b, m_dnsbase s) (m_workers s)) l /\
    (is_Some (m_base s) -> m_base s = Some b).
Proof.
  intros Ho. unfold get_base. destruct (m_base s) as [b|] eqn:Eb.
  { exists b, (m_lib s). unfold slots in Ho. rewrite Eb in Ho. split; [|done]. destruct s; cbn in *; by subst. }
  assert (Hd : m_dnsbase s = None).
  { destruct (m_dnsbase s) as [d|] eqn:Ed; [|done]. exfalso. apply (own_based _ _ Ho d). unfold slots. rewrite Eb, Ed. by left. }
  unfold slots in Ho. rewrite Eb, Hd in Ho. destruct (own_base_new _ s Ho) as (b & l & -> & Ho1). exists b, l. rewrite Hd.
  split; [done|]. split; [done|]. by intros [].
Qed.

(** It is initialized afterwards, and the loop and the workers are as before. *)
Definition inits s s' : Prop :=
  m_initialized s' = true /\ m_looping s' = m_looping s /\ m_workers s' = m_workers s /\ num_workers s' = num_workers s /\
  (is_Some (m_base s) -> m_base s' = m_base s).

Lemma init_spec ok s : mgr_inv s -> exists r s', event_mgr_init ok s = Ret (r, s') /\ mgr_inv s' /\ inits s s'.
Proof.
  intros (Ho & Hp & Hk). unfold event_mgr_init. destruct (m_initialized s) eqn:Ei.
  { exists (-1), s. split; [done|]. split; [|by repeat split]. split; [done|]. split; [done|]. by rewrite Ei. }
  destruct (get_base_spec (set_flags (m_looping s) true s) Ho) as (b & l & -> & Ho1 & Hb). cbv beta iota. cbn [m_dnsbase set_flags] in Ho1.
  rewrite (k_dns _ _ _ _ _ _ Hk eq_refl) in Ho1. pose proof (k_signal _ _ _ _ _ _ Hk) as Hg. pose proof (k_loop _ _ _ _ _ _ Hk) as Hl. cbn in Hg.
  set (s1 := set_lib l (set_base (Some b) (set_flags (m_looping s) true s))).
  destruct (own_dns_new ok b _ s1 Ho1) as (d & l2 & -> & Ho2 & _). cbn [mbind outcome_bind]. unfold add_signals. cbn. rewrite Hg.
  rewrite (own_touch b d _ (set_dnsbase d (set_lib l2 s1))) by exact Ho2. cbn. eexists _, _. split; [done|].
  assert (Hlf : m_looping s = false) by (destruct (m_looping s) eqn:E; [by specialize (k_flags _ _ _ _ _ _ Hk eq_refl)|done]).
  split; [|by repeat split; intros Hs; symmetry; apply Hb]. split; [exact Ho2|]. split; [exact Hp|]. cbn. rewrite Hlf in *. constructor; done.
Qed.

Lemma base_spec ok s : mgr_inv s -> exists b s', event_mgr_base ok s = Ret (Some b, s') /\ mgr_inv s' /\ inits s s' /\ m_base s' = Some b.
Proof.
  intros (Ho & Hp & Hk). unfold event_mgr_base. destruct (get_base_spec s Ho) as (b & l & -> & Ho1 & Hb). cbv beta iota.
  assert (Hi : mgr_inv (set_lib l (set_base (Some b) s))).
  { split; [exact Ho1|]. split; [exact Hp|]. cbn. destruct Hk as [K1 K2 K3 K4 K5]. constructor; try done.
    - rewrite K1. destruct (m_initialized s); [by apply Hb, K3|done].
    - rewrite K2. destruct (m_looping s); [by apply Hb, K3, K5|done]. }
  destruct (init_spec ok _ Hi) as (r & s' & -> & Hi' & Hin). cbn [mbind outcome_bind].
  assert (Hb' : m_base s' = Some b) by (destruct Hin as (_ & _ & _ & _ & H); by rewrite H).
  rewrite Hb'. exists b, s'. split; [done|]. split; [done|]. split; [|done].
  destruct Hin as (I1 & I2 & I3 & I4 & I5). split; [done|]. split; [done|]. split; [done|]. split; [done|]. intros Hs. by rewrite Hb', (Hb Hs).
Qed.

Lemma break_spec s : own (slots s) (m_lib s) -> event_mgr_break s = Ret s.
Proof.
  intros Ho. unfold event_mgr_break. destruct (m_base s) as [b|] eqn:Eb; [|done].
  unfold slots in Ho. rewrite Eb in Ho. by apply (own_touch _ _ _ _ _ Ho).
Qed.

(** The signals and the resolver are put away. *)
Lemma tidy_spec s : own (slots s) (m_lib s) -> (is_Some (m_signal s) -> m_signal s = m_base s) ->
  exists i l, (s ← cleanup_signal_events restores (cleanup_signals s); cleanup_dnsbase s) =
    Ret (set_lib l (set_dnsbase None (set_signals false i None (m_signal_count s) s))) /\
    own (slots_of (m_base s, None) (m_workers s)) l.
Proof.
  intros Ho Hg. assert (Hd : forall i g, exists l, cleanup_dnsbase (set_signals false i g (m_signal_count s) s) =
      Ret (set_lib l (set_dnsbase None (set_signals false i g (m_signal_count s) s))) /\ own (slots_of (m_base s, None) (m_workers s)) l).
  { intros i g. unfold cleanup_dnsbase. destruct (own_dns_free _ _ _ (set_signals false i g (m_signal_count s) s) Ho) as (l & E & Hl).
    exists l. split; [|exact Hl]. change (m_dnsbase (set_signals _ _ _ _ _)) with (m_dnsbase s). by rewrite E. }
  unfold cleanup_signal_events, cleanup_signals. cbn. destruct (m_signal s) as [g|] eqn:Eg.
  - assert (Hb : m_base s = Some g) by (symmetry; apply Hg; by eexists). unfold slots in Ho. rewrite Hb in Ho |- *.
    rewrite (own_touch g (m_dnsbase s) _ (set_signals false Default (Some g) (m_signal_count s) s)) by exact Ho. cbn.
    eexists. rewrite <- Hb. exact (Hd _ None).
  - destruct (m_base s); eexists; apply (Hd Default None).
Qed.

Lemma begin_spec ok s : mgr_inv s -> exists r s', loop_begin ok s = Ret (r, s') /\ mgr_inv s' /\ m_workers s' = m_workers s /\
  (m_looping s = false -> r = None /\ m_looping s' = true).
Proof.
  intros Hi. unfold loop_begin. destruct (m_looping s) eqn:El; [by eexists _, s|].
  destruct (init_spec ok s Hi) as (r & s1 & -> & (Ho & Hp & Hk) & I1 & I2 & I3 & I4 & I5). cbn [mbind outcome_bind].
  destruct (k_base _ _ _ _ _ _ Hk I1) as [b Hb]. cbn. rewrite Hb. unfold slots in Ho. rewrite Hb in Ho.
  rewrite (own_touch b (m_dnsbase s1) _ (set_flags true (m_initialized s1) s1)) by exact Ho. eexists _, _. split; [done|].
  split; [|by rewrite <- I3]. split; [unfold slots; cbn; by rewrite Hb|]. split; [exact Hp|].
  cbn. rewrite Hb in *. rewrite I1 in *. destruct Hk. by constructor.
Qed.

(** It waits for ever when a thread has not entered its loop; the bases stay. *)
Lemma end_spec s : mgr_inv s -> is_Some (m_loop s) ->
  (loop_end restores s = Ret None /\ Exists (fun w => wk_thread w = Starting) (m_workers s)) \/
  exists s', loop_end restores s = Ret (Some s') /\ mgr_inv s' /\ m_looping s' = false /\ m_initialized s' = false /\
    Forall (fun w => wk_thread w = NoThread) (m_workers s').
Proof.
  intros (Ho & Hp & Hk) Hl. destruct (tidy_spec (set_loop None s) Ho) as (i & l & E & Hol).
  { intros _. cbn. rewrite (k_signal _ _ _ _ _ _ Hk). rewrite (k_loop _ _ _ _ _ _ Hk) in Hl. destruct (m_looping s) eqn:E; [|by destruct Hl].
    by rewrite (k_flags _ _ _ _ _ _ Hk). }
  unfold loop_end. destruct (cleanup_signal_events restores _) as [s1| |]; [|done|done]. cbn [mbind outcome_bind] in *. rewrite E. clear E s1.
  set (s2 := set_lib l _). cbn [mbind outcome_bind]. destruct (stop_threads_spec s2 _ Hol Hp) as [[-> Hw]|(ws & -> & Em & Hp' & Ht)]; [by left|right]. eexists. split; [done|].
  split; [|done]. split; [unfold slots, slots_of in *; cbn; by rewrite Em|]. split; [exact Hp'|]. constructor; done.
Qed.

Lemma full_cleanup_spec s : mgr_inv s -> m_looping s = false ->
  (full_cleanup restores s = Ret None /\ Exists (fun w => wk_thread w = Starting) (m_workers s)) \/
  exists s', full_cleanup restores s = Ret (Some s') /\ mgr_inv s' /\ Forall (eq (None, None)) (slots s').
Proof.
  intros (Ho & Hp & Hk) Hl. destruct (tidy_spec s Ho) as (i & l & E & Hol).
  { intros Hs. rewrite (k_signal _ _ _ _ _ _ Hk) in Hs |- *. by destruct (m_initialized s); [|destruct Hs]. }
  unfold full_cleanup. destruct (cleanup_signal_events restores _) as [s1| |]; [|done|done]. cbn [mbind outcome_bind] in *. rewrite E. clear E s1.
  unfold event_mgr_workers_shutdown. set (s2 := set_lib l _). cbn [mbind outcome_bind].
  destruct (stop_threads_spec s2 _ Hol Hp) as [[-> Hw]|(ws & -> & Em & Hp' & Ht)]; [by left|right].
  assert (Hnl : m_loop s = None) by (rewrite (k_loop _ _ _ _ _ _ Hk); by rewrite Hl).
  cbn [mbind outcome_bind]. set (s3 := set_pool ws _ _ s2).
  destruct (free_bases_spec s3 (m_base s, None)) as (ws' & l' & -> & Ho' & Hp''); [by unfold slots_of in *; cbn; rewrite Em|exact Hp'|exact Ht|cbn; by rewrite Hnl|].
  cbn [mbind outcome_bind]. unfold cleanup_eventbase.
  destruct (own_base_free (m_base s) _ (set_lib l' (set_pool ws' 0 (next_worker_idx s3) s3)) Ho') as (l2 & E & Ho2); [intros [b ->]; cbn; by rewrite Hnl|].
  change (m_base (set_lib l' _)) with (m_base s). rewrite E. cbn [mbind outcome_bind]. eexists. split; [done|].
  split; [|apply Forall_cons; split; [done|]; apply Forall_map, (Forall_impl _ _ _ (p_rest _ _ Hp'')); by intros w [-> _]].
  split; [exact Ho2|]. split; [exact Hp''|]. constructor; done.
Qed.

Lemma loop_cleanup_spec s : mgr_inv s -> m_looping s = false -> m_initialized s = false -> Forall (fun w => wk_thread w = NoThread) (m_workers s) ->
  exists s', event_mgr_loop_cleanup s = Ret s' /\ mgr_inv s' /\ Forall (eq (None, None)) (slots s').
Proof.
  intros (Ho & Hp & Hk) Hl Hi Ht. unfold event_mgr_loop_cleanup.
  assert (Hnl : m_loop s = None) by (rewrite (k_loop _ _ _ _ _ _ Hk); by rewrite Hl).
  destruct (free_bases_spec s _ Ho Hp Ht) as (ws' & l' & -> & Ho' & Hp'); [by rewrite Hnl|]. cbn [mbind outcome_bind]. unfold cleanup_eventbase.
  rewrite (k_dns _ _ _ _ _ _ Hk Hi) in Ho'. set (s1 := set_lib l' _).
  destruct (own_base_free (m_base s) _ s1 Ho') as (l2 & E & Ho2); [intros [b ->]; cbn; by rewrite Hnl|].
  change (m_base s1) with (m_base s). rewrite E. cbn [mbind outcome_bind]. eexists. split; [done|].
  assert (Hd := k_dns _ _ _ _ _ _ Hk Hi).
  split; [|apply Forall_cons; split; [cbn; by rewrite Hd|]; apply Forall_map, (Forall_impl _ _ _ (p_rest _ _ Hp')); by intros w [-> _]].
  split; [unfold slots; cbn; by rewrite Hd|]. split; [exact Hp'|]. cbn. rewrite Hl, Hi. constructor; try done.
  - by rewrite (k_signal _ _ _ _ _ _ Hk), Hi.
Qed.
End Manager_ok.

(** ** Steps

    What the embedder, the callbacks and the signals do, one after the other. *)

Inductive op : Type :=
  | MInit (dns_ok : bool)
  | MBase (dns_ok : bool)
  | MWorkers (answers : nat -> worker_answer) (count : Z)
  | MEnter (i : nat)
  | MWorkerBase (dns_ok : bool) (id : Z)
  | MNext
  | MBreak
  | MSignal (sig : signal)
  | MCallback (sig : signal)
  | MBegin (dns_ok : bool)
  | MEnd
  | MStop
  | MShutdown
  | MCleanup
  | MLoopCleanup.

(** The manager afterwards, a call that does not return, or the end of the process. *)
Inductive after : Type := Next (s : mgr) | Waits | Exits.

Section Steps.
Implicit Type s : mgr.
Context (restores : bool).

Definition step_of (r : option mgr) : after := match r with Some s => Next s | None => Waits end.
Definition exec (o : op) s : outcome after :=
  match o with
  | MInit ok => '(_, s) ← event_mgr_init ok s; Ret (Next s)
  | MBase ok => '(_, s) ← event_mgr_base ok s; Ret (Next s)
  | MWorkers answers count => '(_, s) ← event_mgr_workers_init answers count s; Ret (Next s)
  | MEnter i => s ← worker_thread_func i s; Ret (Next s)
  | MWorkerBase ok id => '(_, s) ← event_mgr_worker_base ok id s; Ret (Next s)
  | MNext => Ret (Next (event_mgr_next_worker s).2)
  | MBreak => s ← event_mgr_break s; Ret (Next s)
  | MSignal sig => '(h, s) ← deliver sig s; Ret (match h with Done => Next s | ProcessEnds => Exits end)
  | MCallback sig => s ← signal_cb sig s; Ret (Next s)
  | MBegin ok => '(_, s) ← loop_begin ok s; Ret (Next s)
  | MEnd => r ← loop_end restores s; Ret (step_of r)
  | MStop => r ← event_mgr_workers_stop_threads s; Ret (step_of r)
  | MShutdown => r ← event_mgr_workers_shutdown s; Ret (step_of r)
  | MCleanup => r ← event_mgr_cleanup restores s; Ret (step_of r)
  | MLoopCleanup => s ← event_mgr_loop_cleanup s; Ret (Next s)
  end.

(** What event_mgr.h asks of its callers: workers are started once, and the cleanups
    are for after the loop, [event_mgr_loop_cleanup] for when [event_mgr_loop] or
    [event_mgr_cleanup] has stopped everything. *)
Definition threadless s : Prop := Forall (fun w => wk_thread w = NoThread) (m_workers s).
Definition enabled (o : op) s : Prop :=
  match o with
  | MWorkers _ _ => num_workers s = 0
  | MEnter i => wk_thread (worker s i) = Starting
  | MCallback _ => is_Some (m_loop s) /\ is_Some (m_signal s)
  | MEnd => is_Some (m_loop s)
  | MCleanup => m_looping s = false
  | MLoopCleanup => m_looping s = false /\ m_initialized s = false /\ threadless s
  | _ => True
  end.

Inductive reach : mgr -> Prop :=
  | reach_start : reach mgr_start
  | reach_step o s s' : reach s -> enabled o s -> exec o s = Ret (Next s') -> reach s'.

(** A worker's thread has not entered its loop. *)
Definition late s : Prop := Exists (fun w => wk_thread w = Starting) (m_workers s).
(** The answers of a step in a good state. *)
Definition answers_well (o : op) s (a : after) : Prop :=
  match a with
  | Next s' => mgr_inv s'
  | Waits => late s /\ (o = MEnd \/ o = MStop \/ o = MShutdown \/ o = MCleanup)
  | Exits => exists sig, o = MSignal sig
  end.

Lemma mgr_start_inv : mgr_inv mgr_start.
Proof.
  assert (Hc : Forall clean (replicate 6 no_worker)) by (apply Forall_replicate; done).
  split; [|split]; [|constructor; [done|cbn; lia|by apply Forall_drop|apply Forall_replicate; by intros H]|by constructor].
  constructor; cbn; try done; try apply NoDup_nil_2.
  - intros d Hin. apply list_elem_of_In in Hin. cbn in Hin. destruct_or! Hin; done.
  - intros x [Hx|Hx]; by apply elem_of_nil in Hx.
Qed.

Lemma handler_spec sig s : mgr_inv s -> returns (signal_handler sig s) (fun '(_, s') => mgr_inv s').
Proof.
  intros Hi. pose proof Hi as (Ho & _). unfold signal_handler. destruct sig; try (rewrite (break_spec s Ho)); try exact Hi.
  destruct (1 <? _); [exact Hi|]. rewrite break_spec by exact Ho. exact Hi.
Qed.
Lemma signal_spec sig s : mgr_inv s -> returns (deliver sig s) (fun '(_, s') => mgr_inv s').
Proof.
  intros Hi. pose proof (handler_spec sig s Hi). unfold deliver. destruct sig; try (destruct (m_handled s)); try (destruct (m_int s)); done.
Qed.
Lemma enter_spec i s : mgr_inv s -> wk_thread (worker s i) = Starting -> returns (worker_thread_func i s) mgr_inv.
Proof.
  intros (Ho & Hp & Hk) Ht. unfold worker_thread_func. assert (Hw : m_workers s !! i = Some (worker s i)).
  { unfold worker in *. by destruct (m_workers s !! i). }
  pose proof (p_stop _ _ Hp) as Hs. pose proof (proj1 (Forall_lookup _ _) Hs i _ Hw) as Hst.
  assert (Hbr : broken (worker s i) = true) by (apply Hst; by rewrite Ht).
  destruct (wk_base (worker s i)) as [b|] eqn:Eb; [|unfold broken in Hbr; rewrite Eb in Hbr; by destruct (wk_running _)].
  assert (Hin : b ∈ lv_live (m_lib s)).
  { apply (own_held _ _ b (wk_dnsbase (worker s i)) Ho). right. rewrite <- Eb. apply list_elem_of_fmap. eexists. split; [done|].
    by apply list_elem_of_lookup_2 in Hw. }
  unfold touch. rewrite decide_True by done. cbn. set (w' := mk_worker _ _ _ _).
  assert (Hlt : (i < length (m_workers s))%nat) by (by eapply lookup_lt_Some).
  split; [|split; [|exact Hk]].
  - apply (own_perm (slots s)); [|exact Ho]. unfold slots. cbn. rewrite (slots_worker _ _ _ _ Hw), slots_put by done. unfold slot_of. by rewrite Eb.
  - cbn. destruct Hp as [P1 P2 P3 P4]. constructor; [by rewrite length_insert|done| |].
    + unfold zdrop in *. destruct (decide (i < Z.to_nat (num_workers s))%nat) as [?|Hge].
      * by rewrite drop_insert_lt.
      * exfalso. assert (Hc : clean (worker s i)); [|destruct Hc as [_ Hc]; congruence].
        apply (proj1 (Forall_forall _ _) P3). apply list_elem_of_lookup_2 with (i := (i - Z.to_nat (num_workers s))%nat).
        rewrite lookup_drop. rewrite <- Hw. f_equal. lia.
    + apply Forall_insert; [done|]. intros _. unfold broken, w' in *. cbn. by rewrite Eb in Hbr.
Qed.
Lemma next_worker_inv s : mgr_inv s -> mgr_inv (event_mgr_next_worker s).2.
Proof. intros Hi. unfold event_mgr_next_worker. by destruct (_ <=? 0). Qed.

Lemma stop_inv s ws : mgr_inv s -> map slot_of ws = map slot_of (m_workers s) -> pool_ok ws (num_workers s) ->
  mgr_inv (set_pool ws (num_workers s) (next_worker_idx s) s).
Proof. intros (Ho & Hp & Hk) Em Hp'. split; [|by split]. unfold slots, slots_of in *. cbn. by rewrite Em. Qed.

Lemma shutdown_spec s : mgr_inv s ->
  (event_mgr_workers_shutdown s = Ret None /\ late s) \/ exists s', event_mgr_workers_shutdown s = Ret (Some s') /\ mgr_inv s'.
Proof.
  intros Hi. pose proof Hi as (Ho & Hp & Hk). unfold event_mgr_workers_shutdown.
  destruct (stop_threads_spec s _ Ho Hp) as [[-> Hw]|(ws & -> & Em & Hp' & Ht)]; [by left|right]. cbn [mbind outcome_bind].
  destruct (stop_inv s ws Hi Em Hp') as (Ho1 & Hp1 & _). set (s1 := set_pool ws _ _ s) in *.
  destruct (free_bases_spec s1 _ Ho1 Hp1 Ht) as (ws' & l & -> & Ho2 & Hp2).
  { intros b. cbn. rewrite (k_loop _ _ _ _ _ _ Hk). by destruct (m_looping s). }
  cbn [mbind outcome_bind]. eexists. split; [done|]. split; [exact Ho2|]. split; [exact Hp2|exact Hk].
Qed.

Lemma exec_well o s : mgr_inv s -> enabled o s -> returns (exec o s) (answers_well o s).
Proof.
  intros Hi He. pose proof Hi as (Ho & Hp & Hk). destruct o as [ok|ok|answers count|i|ok id| | |sig|sig|ok| | | | |]; cbn [enabled exec] in *.
  - by destruct (init_spec ok s Hi) as (r & s' & -> & Hs & _).
  - by destruct (base_spec ok s Hi) as (b & s' & -> & Hs & _).
  - destruct (workers_init_spec (m_base s, m_dnsbase s) answers count s) as (r & ws & l & -> & Ho' & Hp'); [done|by rewrite <- He|].
    cbn. by split.
  - eapply returns_bind; [by apply enter_spec|]. by intros s' Hs.
  - unfold event_mgr_worker_base. destruct (_ || _); [|done]. by destruct (base_spec ok s Hi) as (b & s' & -> & Hs & _).
  - by apply next_worker_inv.
  - by rewrite break_spec.
  - eapply returns_bind; [by apply signal_spec|]. intros [[] s'] Hs; [done|by exists sig].
  - unfold signal_cb. destruct sig; rewrite ?break_spec by done; done.
  - by destruct (begin_spec ok s Hi) as (r & s' & -> & Hs & _).
  - destruct (end_spec restores s Hi He) as [[-> Hw]|(s' & -> & Hs & _)]; cbn; eauto.
  - destruct (stop_threads_spec s _ Ho Hp) as [[-> Hw]|(ws & -> & Em & Hp' & Ht)]; cbn; [by eauto|by apply stop_inv].
  - destruct (shutdown_spec s Hi) as [[-> Hw]|(s' & -> & Hs)]; cbn; eauto 6.
  - unfold event_mgr_cleanup. destruct (m_initialized s); [|done].
    destruct (full_cleanup_spec restores s Hi He) as [[-> Hw]|(s' & -> & Hs & _)]; cbn; eauto 6.
  - destruct He as (He1 & He2 & He3). by destruct (loop_cleanup_spec s Hi He1 He2 He3) as (s' & -> & Hs & _).
Qed.
Lemma reach_inv s : reach s -> mgr_inv s.
Proof.
  induction 1 as [|o s s' _ IH He E]; [apply mgr_start_inv|]. pose proof (exec_well o s IH He) as H. by rewrite E in H.
Qed.

(** Nothing is held, so nothing is allocated and no thread is left. *)
Definition nothing s : Prop := lv_live (m_lib s) = ∅ /\ lv_dns (m_lib s) = ∅ /\ m_base s = None /\ threadless s.
Lemma nothing_held s : mgr_inv s -> Forall (eq (None, None)) (slots s) -> nothing s.
Proof.
  intros (Ho & Hp & _) Hn. destruct (own_nothing _ _ Ho Hn) as [H1 H2]. apply Forall_cons in Hn as [Hm Hn]. injection Hm as Hb _.
  split; [done|]. split; [done|]. split; [done|]. rewrite Forall_map in Hn. apply Forall_forall. intros w Hw.
  pose proof (proj1 (Forall_forall _ _) Hn w Hw) as E. pose proof (proj1 (Forall_forall _ _) (p_stop _ _ Hp) w Hw) as Hs.
  injection E as E _. unfold stoppable, broken in Hs. rewrite <- E in Hs. cbn in Hs. rewrite andb_false_r in Hs.
  destruct (wk_thread w); [done| |]; by specialize (Hs ltac:(done)).
Qed.
End Steps.

(** Workers that all start. *)
Lemma start_all answers main n : (forall i, answers i = Started) -> forall i s, (i + n <= length (m_workers s))%nat ->
  own (slots_of main (m_workers s)) (m_lib s) -> Forall clean (drop i (m_workers s)) ->
  exists ws l, start_workers answers i n s = Ret (0, set_lib l (set_pool ws (num_workers s) (next_worker_idx s) s)) /\
    (forall j, (j < i)%nat -> ws !! j = m_workers s !! j) /\
    forall j, (i <= j < i + n)%nat -> exists b d, ws !! j = Some (mk_worker (Some b) (Some d) Starting true).
Proof.
  intros Ha. induction n as [|n IH]; intros i s Hi Ho Hc; cbn [start_workers].
  { exists (m_workers s), (m_lib s). split; [by destruct s|]. split; [done|]. intros j Hj. lia. }
  assert (Hlt : (i < length (m_workers s))%nat) by lia. destruct (lookup_lt_is_Some_2 _ _ Hlt) as [w0 Hw].
  rewrite (drop_S _ _ _ Hw) in Hc. apply Forall_cons in Hc as [[Hw0 _] Hc]. rewrite Ha. unfold start_worker.
  assert (Ho' := own_perm _ _ _ (slots_worker _ _ _ _ Hw) Ho). rewrite Hw0 in Ho'.
  destruct (own_base_new _ _ Ho') as (b & l1 & -> & Ho1). cbv beta iota.
  destruct (own_dns_new true b _ (set_lib l1 s) Ho1) as (d & l2 & -> & Ho2 & Hd). cbn [mbind outcome_bind].
  destruct d as [d|]; [|by specialize (Hd eq_refl)]. set (w := mk_worker _ _ _ _).
  destruct (IH (S i) (put_worker i w (set_lib l2 (set_lib l1 s)))) as (ws & l & E & Hl & Hg); cbn.
  - rewrite length_insert. lia.
  - eapply own_perm, Ho2. symmetry. by apply slots_put.
  - by rewrite drop_insert_lt by lia.
  - exists ws, l. split; [exact E|]. split.
    + intros j Hj. rewrite Hl by lia. cbn. by rewrite list_lookup_insert_ne by lia.
    + intros j Hj. destruct (decide (j = i)) as [->|]; [|apply Hg; lia]. exists b, d. rewrite Hl by lia. by apply list_lookup_insert_eq.
Qed.
Lemma own_resolver sl l b d : own sl l -> (Some b, Some d) ∈ sl -> lv_dns l !! d = Some b.
Proof.
  intros Ho Hin. rewrite (own_dns _ _ Ho). apply elem_of_list_to_map_1; [apply (own_resolvers _ _ Ho)|].
  apply list_elem_of_omap. by exists (Some b, Some d).
Qed.

(** ** What is proved of the manager *)

(** C26: Whatever the order of calls, callbacks and signals, as long as workers are started once and the cleanups come after the
    loop, every step of the event manager is a defined use of libevent, the bases and resolvers that are allocated are those its
    variables hold, each once; a call that does not return is a join of a worker that has not entered its loop, and only a
    signal ends the process. *)
Theorem mgr_safe restores o s : reach restores s -> enabled o s ->
  own (slots s) (m_lib s) /\
  exists a, exec restores o s = Ret a /\
    (a = Waits -> late s /\ (o = MEnd \/ o = MStop \/ o = MShutdown \/ o = MCleanup)) /\
    (a = Exits -> exists sig, o = MSignal sig).
Proof.
  intros Hr He. pose proof (reach_inv _ _ Hr) as Hi. split; [apply Hi|].
  destruct (returns_inv _ _ (exec_well restores o s Hi He)) as (a & -> & Ha). exists a. split; [done|].
  by split; intros ->.
Qed.

(** C27: Once every worker has entered its loop: ending the main loop and then [event_mgr_loop_cleanup], or
    [event_mgr_cleanup] of an initialized manager, return with every base and resolver freed and every thread joined. *)
Theorem mgr_released restores s : reach restores s -> ~ late s ->
  (is_Some (m_loop s) -> exists s1 s2, exec restores MEnd s = Ret (Next s1) /\ exec restores MLoopCleanup s1 = Ret (Next s2) /\ nothing s2) /\
  (m_initialized s = true -> m_looping s = false -> exists s1, exec restores MCleanup s = Ret (Next s1) /\ nothing s1).
Proof.
  intros Hr Hw. pose proof (reach_inv _ _ Hr) as Hi. split.
  - intros Hl. destruct (end_spec restores s Hi Hl) as [[_ ?]|(s1 & E & Hi1 & H1 & H2 & H3)]; [done|].
    destruct (loop_cleanup_spec s1 Hi1 H1 H2 H3) as (s2 & E2 & Hi2 & Hn). exists s1, s2. cbn. rewrite E, E2.
    split; [done|]. split; [done|]. by apply nothing_held.
  - intros H1 H2. destruct (full_cleanup_spec restores s Hi H2) as [[_ ?]|(s1 & E & Hi1 & Hn)]; [done|].
    exists s1. cbn. unfold event_mgr_cleanup. rewrite H1, E. split; [done|]. by apply nothing_held.
Qed.

(** Starting the workers when none are: with every call succeeding, the number asked for (4 when it is not from 1 to 6) have
    each a base, a resolver on it and a thread, and [event_mgr_next_worker] then hands their numbers out in turn. *)
Theorem mgr_workers restores answers count s : reach restores s -> num_workers s = 0 -> (forall i, answers i = Started) ->
  exists s', event_mgr_workers_init answers count s = Ret (0, s') /\ event_mgr_worker_count s' = worker_total count /\
    (forall i, 0 <= i < worker_total count -> exists b d, event_mgr_worker_base true i s' = Ret (Some b, s') /\
       event_mgr_worker_dnsbase i s' = Some d /\ lv_dns (m_lib s') !! d = Some b /\ b ∈ lv_live (m_lib s') /\
       wk_thread (worker s' (Z.to_nat i)) = Starting) /\
    (forall k, 0 <= k < 2 ^ 32 -> let s1 := set_pool (m_workers s') (num_workers s') k s' in
       event_mgr_next_worker s1 = (k mod worker_total count, set_pool (m_workers s') (num_workers s') ((k + 1) mod 2 ^ 32) s')).
Proof.
  intros Hr Hn Ha. destruct (reach_inv _ _ Hr) as (Ho & Hp & Hk). rewrite Hn in Hp.
  destruct (workers_init_spec _ answers count s Ho Hp) as (r & ws & l & E & Ho' & Hp').
  assert (Hc : 0 < worker_total count <= 6).
  { unfold worker_total, EVENT_MGR_MAX_WORKERS, EVENT_MGR_DEFAULT_WORKERS. destruct (Z.leb_spec count 0), (Z.ltb_spec 6 count); cbn; lia. }
  destruct (start_all answers (m_base s, m_dnsbase s) (Z.to_nat (worker_total count)) Ha 0 (set_pool (m_workers s) (worker_total count) (next_worker_idx s) s))
    as (ws2 & l2 & E2 & _ & Hg); [cbn; destruct Hp; lia|exact Ho|exact (p_rest _ _ Hp)|].
  unfold event_mgr_workers_init in *. rewrite E2 in E. injection E as <- El Ew. cbn in El, Ew. subst l2 ws2.
  eexists. split; [exact E2|]. cbn. split; [done|]. split.
  - intros i Hi. destruct (Hg (Z.to_nat i)) as (b & d & Hw); [lia|]. exists b, d.
    assert (Hin : (Some b, Some d) ∈ slots_of (m_base s, m_dnsbase s) ws).
    { right. apply list_elem_of_fmap. eexists. split; [|by eapply list_elem_of_lookup_2]. done. }
    unfold event_mgr_worker_base, event_mgr_worker_dnsbase, worker. cbn. rewrite Hw, (proj2 (Z.ltb_ge i 0)), (proj2 (Z.leb_gt _ i)) by lia. cbn.
    split; [done|]. split; [done|]. split; [by eapply own_resolver|]. split; [by eapply own_held|done].
  - intros k _. unfold event_mgr_next_worker. cbn. by rewrite (proj2 (Z.leb_gt _ 0)) by lia.
Qed.

(** *** Concrete uses *)

Fixpoint run (ops : list op) (s : mgr) : outcome after :=
  match ops with
  | [] => Ret (Next s)
  | o :: ops => a ← exec true o s; match a with Next s => run ops s | a => Ret a end
  end.
Definition observe {A} (f : mgr -> A) (r : outcome after) : outcome (option A) :=
  a ← r; Ret (match a with Next s => Some (f s) | _ => None end).
Definition all_start (i : nat) : worker_answer := Started.
(** How many bases are allocated, and how many the variables hold. *)
Definition base_count (s : mgr) : nat * nat := (size (lv_live (m_lib s)), length (omap fst (slots s))).

(** A loop with two workers, one of them late. *)
Definition two_workers : list op := [MWorkers all_start 2; MEnter 0; MBegin true].

Lemma reach_two restores : exists s, run two_workers mgr_start = Ret (Next s) /\ reach restores s.
Proof.
  eexists. split; [vm_compute; reflexivity|].
  eapply (reach_step _ (MBegin true)); [eapply (reach_step _ (MEnter 0)); [eapply (reach_step _ (MWorkers all_start 2)); [apply reach_start|reflexivity|vm_compute; reflexivity]|reflexivity|vm_compute; reflexivity]|exact I|vm_compute; reflexivity].
Qed.

(** What the manager does not guard against.  A worker that has not entered its loop makes the calls that join the threads
    wait for ever.  Starting workers twice loses the first ones' bases; a start that fails leaves the count of workers, so that
    connections are handed a worker with no base; workers are counted after the loop has ended, when no thread is left to
    run them.  [event_mgr_loop_cleanup] of an initialized manager leads to a use of the freed base, as does
    [event_mgr_cleanup] from a callback of the loop.  A second SIGINT does not force the exit while it is initialized. *)
Theorem mgr_contract :
  (forall restores s, reach restores s -> late s -> exec restores MStop s = Ret Waits) /\
  run (two_workers ++ [MEnd]) mgr_start = Ret Waits /\
  observe base_count (run [MWorkers all_start 2; MWorkers all_start 2; MEnter 0; MEnter 1; MShutdown] mgr_start) = Ret (Some (2, 0)%nat) /\
  observe (fun s => (event_mgr_worker_count s, (event_mgr_next_worker s).1, wk_base (worker s 0)))
    (run [MWorkers (fun _ => NoBase) 3] mgr_start) = Ret (Some (3, 0, None)) /\
  observe (fun s => (event_mgr_worker_count s, (event_mgr_next_worker s).1, is_some (wk_base (worker s 0)), wk_thread (worker s 0)))
    (run [MWorkers all_start 1; MEnter 0; MBegin true; MEnd] mgr_start) = Ret (Some (1, 0, true, NoThread)) /\
  run [MBase true; MLoopCleanup; MBase true; MCleanup] mgr_start = UB /\
  run [MBegin true; MCleanup; MBreak; MEnd] mgr_start = UB /\
  observe m_signal_count (run [MBase true; MSignal SIGINT; MSignal SIGINT; MSignal SIGINT] mgr_start) = Ret (Some 0).
Proof.
  split; [|by vm_compute].
  intros restores s Hr Hw. destruct (reach_inv _ _ Hr) as (Ho & Hp & _). cbn [exec].
  destruct (stop_threads_spec s _ Ho Hp) as [[-> _]|(ws & E & _)]; [done|]. by destruct (stop_not_late _ _ _ Ho Hp E).
Qed.

Lemma mgr_safe_witness : exists s, late s /\ reach true s /\ enabled MEnd s /\ own (slots s) (m_lib s) /\ exec true MEnd s = Ret Waits.
Proof.
  destruct (reach_two true) as (s & E & Hr). exists s. vm_compute in E. injection E as <-.
  split; [apply Exists_cons_tl, Exists_cons_hd; reflexivity|]. split; [exact Hr|]. split; [by eexists|].
  destruct (mgr_safe true MEnd _ Hr (ex_intro _ _ eq_refl)) as (Ho & a & Ea & _). split; [exact Ho|vm_compute; reflexivity].
Defined.

Lemma mgr_released_witness : exists s s1 s2, exec true MEnd s = Ret (Next s1) /\ exec true MLoopCleanup s1 = Ret (Next s2) /\ nothing s2.
Proof.
  destruct (reach_two true) as (s & E & Hr). vm_compute in E. injection E as <-.
  assert (Hr2 : exists s, reach true s /\ ~ late s /\ is_Some (m_loop s)).
  { eexists. split; [eapply (reach_step _ (MEnter 1)); [exact Hr|reflexivity|vm_compute; reflexivity]|].
    split; [|by eexists]. intros H. repeat (apply Exists_cons in H as [H|H]; [discriminate H|]). by apply Exists_nil in H. }
  destruct Hr2 as (s & Hs & Hw & Hl). destruct (mgr_released true s Hs Hw) as [Hend _]. exists s. exact (Hend Hl).
Defined.

Lemma mgr_workers_witness : exists s, event_mgr_workers_init all_start 9 mgr_start = Ret (0, s) /\ event_mgr_worker_count s = 4.
Proof.
  destruct (mgr_workers true all_start 9 mgr_start (reach_start true) eq_refl (fun _ => eq_refl)) as (s & E & Hc & _).
  exists s. split; [exact E|exact Hc].
Defined.

Lemma mgr_contract_witness : exists s, late s /\ exec true MStop s = Ret Waits.
Proof.
  destruct (reach_two true) as (s & E & Hr). exists s. assert (Hl : late s) by (vm_compute in E; injection E as <-; apply Exists_cons_tl, Exists_cons_hd; reflexivity).
  split; [exact Hl|]. destruct mgr_contract as [X _]. exact (X true s Hr Hl).
Defined.
