(* ===== verification/Holds.v ===== *)
(** * References in the Lua registry, and who holds them

    What a component keeps in the registry, as a map from references to values of any
    type, with [luaL_ref] and [luaL_unref]; and the statement that it has exactly what
    others have and what the component holds, once each. *)

From S2P Require Import Prelude.

Section Holds.
Context {V : Type}.
Implicit Types (v : V) (reg F : gmap positive V).

Definition reg_ref v reg : positive * gmap positive V := let r := fresh (dom reg) in (r, <[r := v]> reg).
Definition reg_unref (r : positive) reg : outcome (gmap positive V) :=
  match reg !! r with Some _ => Ret (delete r reg) | None => UB end.
Definition reg_unref_opt (r : option positive) reg : outcome (gmap positive V) :=
  match r with Some r => reg_unref r reg | None => Ret reg end.

(** ** Holding references *)

(** The registry has the entries [F] of others and those of [l], once each. *)
Record holds F (l : list positive) reg : Prop := {
  hl_nodup : NoDup l;
  hl_own : forall r, r ∈ l -> F !! r = None /\ is_Some (reg !! r);
  hl_rest : forall r, r ∉ l -> reg !! r = F !! r
}.
Lemma holds_nil F : holds F [] F.
Proof. constructor; [by apply NoDup_nil|by intros r ?%not_elem_of_nil|done]. Qed.
Lemma holds_done F reg : holds F [] reg -> reg = F.
Proof. intros [_ _ H]. apply map_eq. intros r. apply H, not_elem_of_nil. Qed.
Lemma holds_perm F l l' reg : l ≡ₚ l' -> holds F l reg -> holds F l' reg.
Proof.
  intros Hp [H1 H2 H3]. constructor.
  - by rewrite <- Hp.
  - intros r. rewrite <- Hp. apply H2.
  - intros r. rewrite <- Hp. apply H3.
Qed.
#[export] Instance holds_proper F : Proper ((≡ₚ) ==> (=) ==> iff) (holds F).
Proof. intros l l' Hp reg ? <-. split; by apply holds_perm. Qed.
Lemma holds_ref F l reg v r reg' : holds F l reg -> reg_ref v reg = (r, reg') -> holds F (r :: l) reg' /\ reg !! r = None /\ reg' = <[r := v]> reg.
Proof.
  intros [H1 H2 H3] E. injection E as <- <-. set (r := fresh _). assert (Hr : reg !! r = None) by (apply not_elem_of_dom, is_fresh).
  assert (Hn : r ∉ l) by (intros Hin; destruct (H2 r Hin) as [_ [? ?]]; congruence).
  split; [|done]. constructor.
  - by apply NoDup_cons.
  - intros x. rewrite elem_of_cons. intros [->|Hx].
    + split; [by rewrite <- H3|rewrite lookup_insert_eq; by eexists].
    + rewrite lookup_insert_ne by (intros E; by rewrite E in Hn). by apply H2.
  - intros x. rewrite not_elem_of_cons. intros [Hx Hl]. rewrite lookup_insert_ne by done. by apply H3.
Qed.
Lemma holds_unref F l reg r : holds F (r :: l) reg -> exists reg', reg_unref r reg = Ret reg' /\ holds F l reg' /\ reg' = delete r reg.
Proof.
  intros [H1 H2 H3]. destruct (H2 r) as [HF [v Hv]]; [by left|]. apply NoDup_cons in H1 as [Hn H1].
  unfold reg_unref. rewrite Hv. eexists. split; [done|]. split; [|done]. constructor; [done| |].
  - intros x Hx. destruct (H2 x) as [? ?]; [by right|]. rewrite lookup_delete_ne by (intros E; by rewrite E in Hn). done.
  - intros x Hx. destruct (decide (r = x)) as [<-|]; [by rewrite lookup_delete_eq|]. rewrite lookup_delete_ne by done. apply H3.
    apply not_elem_of_cons. split; [congruence|done].
Qed.
(** References that nobody gives back become others'. *)
Lemma holds_lose F l1 l2 reg : holds F (l1 ++ l2) reg -> exists F', F ⊆ F' /\ holds F' l1 reg /\ (l2 = [] -> F' = F).
Proof.
  revert F l1. induction l2 as [|r l2 IH]; intros F l1 Hh; [exists F; by rewrite app_nil_r in Hh|].
  destruct (hl_own _ _ _ Hh r) as [HF [v Hv]]; [apply elem_of_app; right; by left|].
  destruct (IH (<[r := v]> F) l1) as (F' & H1 & H2 & _).
  - apply (holds_perm _ _ (r :: l1 ++ l2)) in Hh; [|symmetry; apply Permutation_middle]. destruct Hh as [A1 A2 A3]. apply NoDup_cons in A1 as [An A1].
    constructor; [done| |].
    + intros x Hx. rewrite lookup_insert_ne by congruence. apply A2. by right.
    + intros x Hx. destruct (decide (r = x)) as [<-|]; [by rewrite lookup_insert_eq|]. rewrite lookup_insert_ne by done. apply A3.
      apply not_elem_of_cons. split; [congruence|done].
  - exists F'. split; [|by split]. transitivity (<[r := v]> F); [by apply insert_subseteq|done].
Qed.

Definition ref_list (r : option positive) : list positive := match r with Some r => [r] | None => [] end.
Lemma holds_unref_opt F r l reg : holds F (ref_list r ++ l) reg -> exists reg', reg_unref_opt r reg = Ret reg' /\ holds F l reg' /\
  reg' = match r with Some r => delete r reg | None => reg end.
Proof. destruct r as [r|]; cbn; [by apply holds_unref|]. intros Hh. by exists reg. Qed.

(** What is held while something else holds the rest. *)
Lemma holds_trans F l reg l' reg' : holds F l reg -> holds reg l' reg' ->
  holds F (l' ++ l) reg' /\ (forall r, r ∈ l -> reg' !! r = reg !! r).
Proof.
  intros [A1 A2 A3] [B1 B2 B3]. assert (Hd : forall r, r ∈ l -> r ∉ l').
  { intros r Hr Hx. destruct (A2 r Hr) as [_ [? ?]], (B2 r Hx) as [? _]. congruence. }
  split; [|intros r Hr; by apply B3, Hd]. constructor.
  - apply NoDup_app. split; [done|]. split; [|done]. intros r Hx Hr. by apply (Hd r).
  - intros r. rewrite elem_of_app. intros [Hr|Hr].
    + destruct (B2 r Hr) as [Hn ?]. split; [|done]. destruct (decide (r ∈ l)) as [Hl|Hl]; [by destruct (A2 r Hl)|by rewrite <- A3].
    + split; [apply A2, Hr|]. rewrite B3 by by apply Hd. apply A2, Hr.
  - intros r. rewrite not_elem_of_app. intros [H1 H2]. by rewrite B3, A3.
Qed.
End Holds.
