(* ===== verification/HttpHeader.v ===== *)
(** * src/http.c: the header lines of a response ([fillheader])

    libcurl gives [fillheader] one line at a time, with its end of line, and the
    function keeps what it finds in the table of headers and in the response.  The
    line is not terminated: the searches for a text go on into the bytes [after] it,
    up to the first zero. *)

From S2P Require Import Prelude Evhttp.

(** ** The table of headers *)

Inductive hvalue : Type := HStr (s : list Z) | HInt (n : Z).
#[export] Instance hvalue_dec : EqDecision hvalue.
Proof. solve_decision. Defined.
(** A value, or the table of the values of a name that came more than once. *)
Inductive hentry : Type := HOne (v : hvalue) | HMany (l : list hvalue).
Abbreviation headers := (gmap (list Z) hentry).

Definition add_header (key : list Z) (v : hvalue) (h : headers) : headers :=
  match h !! key with
  | None => <[key := HOne v]> h
  | Some (HOne o) => <[key := HMany [o; v]]> h
  | Some (HMany l) => <[key := HMany (l ++ [v])]> h
  end.
(** The response code is set, whatever was there. *)
Definition set_header (key : list Z) (v : hvalue) (h : headers) : headers := <[key := HOne v]> h.

(** ** One line *)

(** [isspace] of the C locale. *)
Definition isspace (c : Z) : bool := (c =? 32) || ((9 <=? c) && (c <=? 13)).

(** The two loops that move [front] and [end] together, and stop before the text
    between them is empty. *)
Fixpoint skip_spaces (s : list Z) : list Z :=
  match s with
  | c :: r => match r with [] => s | _ => if isspace c then skip_spaces r else s end
  | [] => s
  end.
Definition header_value (s : list Z) : list Z := rev (skip_spaces (rev (skip_spaces s))).

(** [strstr]: where the text begins, in a terminated string. *)
Fixpoint strstr (needle s : list Z) (i : Z) : option Z :=
  if starts_with needle s then Some i
  else match s with [] => None | c :: s => if c =? 0 then None else strstr needle s (i + 1) end.

Record hstate : Type := mk_hs { hs_headers : headers; hs_charset : option (list Z) }.

Section Line.
Context (after : list Z).

(** What follows the colon at [i]: the header, and the character set when it is the
    content type.  The length of the character set is computed as a [size_t]: text
    found behind the line makes it huge. *)
Definition charset_of (line : list Z) (front fin : Z) : outcome (option (list Z)) :=
  if starts_with (lit "Content-Type") (cstr (line ++ after)) then
    match strstr (lit "charset=") (zdrop front line ++ after) front with
    | None => Ret None
    | Some co =>
        let n := fin - co - 8 + 1 in
        if n <? 0 then UB else Ret (Some (ztake n (zdrop (co + 8) line)))
    end
  else Ret None.
Definition header_at (line : list Z) (i : Z) (st : hstate) : outcome hstate :=
  let rest := zdrop (i + 1) line in
  let front := i + 1 + (Zlen rest - Zlen (skip_spaces rest)) in
  let value := header_value rest in
  c ← charset_of line front (front + Zlen value - 1);
  Ret (mk_hs (add_header (ztake i line) (HStr value) (hs_headers st)) (match c with Some s => Some s | None => hs_charset st end)).

(** The loop over the characters: every colon before the first space. *)
Fixpoint header_loop (line rest : list Z) (i : Z) (st : hstate) : outcome hstate :=
  match rest with
  | [] => Ret st
  | c :: rest =>
      if c =? 32 then Ret st
      else if (c =? 58) && (i + 3 <? Zlen line) then st ← header_at line i st; header_loop line rest (i + 1) st
      else header_loop line rest (i + 1) st
  end.
Definition header_line (line : list Z) (st : hstate) : outcome hstate := header_loop line line 0 st.
End Line.

(** ** A line as a server writes it *)

(** [name ":" spaces value spaces CR LF]. *)
Record field_line : Type := mk_field { f_name : list Z; f_lead : list Z; f_value : list Z; f_trail : list Z }.
Definition line_of (f : field_line) : list Z := f_name f ++ [58] ++ f_lead f ++ f_value f ++ f_trail f ++ [13; 10].
Definition blank (s : list Z) : Prop := Forall (fun c => isspace c = true) s.
Definition plain_char (c : Z) : Prop := c <> 58 /\ c <> 32 /\ c <> 0.
(** The value is not empty, and a space comes before any other colon. *)
Record field_ok (f : field_line) : Prop := {
  fo_name : Forall plain_char (f_name f);
  fo_lead : blank (f_lead f);
  fo_trail : blank (f_trail f);
  fo_first : exists c r, f_value f = c :: r /\ isspace c = false;
  fo_last : exists c r, f_value f = r ++ [c] /\ isspace c = false;
  fo_space : 32 ∈ f_lead f \/ Forall (fun c => c <> 58) (f_value f)
}.

Lemma skip_spaces_blank a s : blank a -> s <> [] -> skip_spaces (a ++ s) = skip_spaces s.
Proof.
  intros Ha Hs. induction a as [|c a IH]; [done|]. apply Forall_cons in Ha as [Hc Ha]. cbn.
  destruct (a ++ s) eqn:E; [by destruct a, s|]. by rewrite Hc, IH.
Qed.
Lemma skip_spaces_stop c s : isspace c = false -> skip_spaces (c :: s) = c :: s.
Proof. intros Hc. cbn. destruct s; [done|]. by rewrite Hc. Qed.
Lemma skip_spaces_length s : Zlen (skip_spaces s) <= Zlen s.
Proof.
  induction s as [|c s IH]; [done|]. cbn. destruct s; [done|]. destruct (isspace c); unfold Zlen in *; cbn in *; lia.
Qed.

(** The spaces around a value go. *)
Lemma header_value_trim lead v trail : blank lead -> blank trail -> (exists c r, v = c :: r /\ isspace c = false) ->
  (exists c r, v = r ++ [c] /\ isspace c = false) -> header_value (lead ++ v ++ trail) = v /\ skip_spaces (lead ++ v ++ trail) = v ++ trail.
Proof.
  intros Hl Ht (c & r & -> & Hc) (d & q & E & Hd). unfold header_value. rewrite skip_spaces_blank by done. cbn [app]. rewrite skip_spaces_stop by done.
  split; [|done]. change (c :: r ++ trail) with ((c :: r) ++ trail). rewrite rev_app_distr, skip_spaces_blank.
  - rewrite E, rev_app_distr. cbn [rev app]. rewrite skip_spaces_stop by done. by rewrite <- rev_unit, rev_involutive.
  - by apply Forall_rev.
  - rewrite E, rev_app_distr. done.
Qed.

Lemma zdrop_app {A} (a b : list A) : zdrop (Zlen a) (a ++ b) = b.
Proof. unfold zdrop, Zlen. rewrite Nat2Z.id. by apply drop_app_length. Qed.
Lemma ztake_app {A} (a b : list A) : ztake (Zlen a) (a ++ b) = a.
Proof. unfold ztake, Zlen. rewrite Nat2Z.id. by apply take_app_length. Qed.

Section Lines.
Context (after : list Z).

Lemma header_loop_name line a rest i st : Forall plain_char a ->
  header_loop after line (a ++ rest) i st = header_loop after line rest (i + Zlen a) st.
Proof.
  intros Ha. revert i. induction a as [|c a IH]; intros i; [by rewrite Z.add_0_r|]. apply Forall_cons in Ha as [(H1 & H2 & _) Ha].
  cbn [app header_loop]. rewrite (proj2 (Z.eqb_neq c 32)), (proj2 (Z.eqb_neq c 58)) by done. cbn [andb]. rewrite IH by done.
  f_equal. unfold Zlen. cbn [length]. lia.
Qed.
(** No colon before the first space. *)
Lemma header_loop_quiet line a b i st : Forall (fun c => c <> 58) a -> (b = [] \/ exists r, b = 32 :: r) -> header_loop after line (a ++ b) i st = Ret st.
Proof.
  intros Ha Hb. revert i. induction a as [|c a IH]; intros i; [destruct Hb as [->|[r ->]]; done|]. apply Forall_cons in Ha as [Hc Ha].
  cbn [app header_loop]. destruct (c =? 32); [done|]. rewrite (proj2 (Z.eqb_neq c 58)) by done. by apply IH.
Qed.
Lemma blank_no_colon a : blank a -> Forall (fun c => c <> 58) a.
Proof. intros Ha. apply (Forall_impl _ _ _ Ha). by intros c Hc ->. Qed.

(** One header per line, with the value between the spaces. *)
Lemma header_line_field f st : field_ok f ->
  header_line after (line_of f) st =
  (c ← charset_of after (line_of f) (Zlen (f_name f) + 1 + Zlen (f_lead f)) (Zlen (f_name f) + Zlen (f_lead f) + Zlen (f_value f));
   Ret (mk_hs (add_header (f_name f) (HStr (f_value f)) (hs_headers st)) (match c with Some s => Some s | None => hs_charset st end))).
Proof.
  intros []. assert (Htr : blank (f_trail f ++ [13; 10])) by (apply Forall_app; split; [done|by repeat constructor]).
  destruct (header_value_trim _ _ _ fo_lead0 Htr fo_first0 fo_last0) as [Ev Es]. unfold header_line, line_of at 2. rewrite header_loop_name by done.
  assert (Hv : 0 < Zlen (f_value f)) by (destruct fo_first0 as (c & r & -> & _); unfold Zlen; cbn [length]; lia).
  assert (Hlen : Zlen (line_of f) = Zlen (f_name f) + 1 + Zlen (f_lead f) + Zlen (f_value f) + Zlen (f_trail f) + 2).
  { unfold line_of, Zlen. rewrite !length_app. cbn [length]. lia. }
  cbn [app header_loop]. pose proof (Zlen_nonneg (f_lead f)). pose proof (Zlen_nonneg (f_trail f)).
  change (58 =? 32) with false. change (58 =? 58) with true. cbn [andb]. rewrite (proj2 (Z.ltb_lt _ _)) by lia.
  assert (Hd : zdrop (Zlen (f_name f) + 1) (line_of f) = f_lead f ++ f_value f ++ f_trail f ++ [13; 10]).
  { unfold line_of. rewrite app_assoc. replace (Zlen (f_name f) + 1) with (Zlen (f_name f ++ [58])) by (unfold Zlen; rewrite length_app; cbn; lia). apply zdrop_app. }
  assert (Hq : forall i st, header_loop after (line_of f) (f_lead f ++ f_value f ++ f_trail f ++ [13; 10]) i st = Ret st).
  { intros i st'. destruct fo_space0 as [Hin|Hno].
    - apply list_elem_of_split in Hin as (l1 & l2 & E). rewrite E, <- app_assoc. cbn [app]. apply header_loop_quiet; [|right; by eexists].
      apply blank_no_colon. rewrite E in fo_lead0. by apply Forall_app in fo_lead0 as [? _].
    - rewrite <- (app_nil_r (f_lead f ++ _)). apply header_loop_quiet; [|by left].
      rewrite !Forall_app. split; [by apply blank_no_colon|]. split; [done|]. apply Forall_app. by apply blank_no_colon. }
  unfold header_at. rewrite Z.add_0_l, Hd, Ev, Es.
  replace (Zlen (f_name f) + 1 + (Zlen (f_lead f ++ f_value f ++ f_trail f ++ [13; 10]) - Zlen (f_value f ++ f_trail f ++ [13; 10])))
    with (Zlen (f_name f) + 1 + Zlen (f_lead f)) by (unfold Zlen; rewrite (length_app (f_lead f)); lia).
  replace (Zlen (f_name f) + 1 + Zlen (f_lead f) + Zlen (f_value f) - 1) with (Zlen (f_name f) + Zlen (f_lead f) + Zlen (f_value f)) by lia.
  unfold line_of at 2. rewrite ztake_app.
  destruct (charset_of _ _ _ _) as [c| |]; cbn [mbind outcome_bind]; [apply Hq|done|done].
Qed.
End Lines.

(** ** The character set *)

(** The character set a content type names: everything behind "charset=". *)
Definition charset_text (f : field_line) : option (list Z) :=
  if starts_with (lit "Content-Type") (line_of f) then
    fmap (M:=option) (fun i => zdrop (i + 8) (f_value f)) (strstr (lit "charset=") (f_value f) 0)
  else None.

Lemma starts_with_cstr p s : 0 ∉ p -> starts_with p (cstr s) = starts_with p s.
Proof.
  revert s. induction p as [|c p IH]; intros s Hp; [by destruct s, (cstr _)|]. apply not_elem_of_cons in Hp as [Hc Hp].
  destruct s as [|d s]; [done|]. cbn [cstr]. destruct (Z.eqb_spec d 0) as [->|]; cbn [starts_with]; [|by rewrite IH].
  by rewrite (proj2 (Z.eqb_neq c 0)).
Qed.
Lemma starts_with_blank p a b : Forall (fun c => isspace c = false) p -> blank b -> starts_with p (a ++ b) = starts_with p a.
Proof.
  revert a. induction p as [|c p IH]; intros a Hp Hb; [by destruct a, b|]. apply Forall_cons in Hp as [Hc Hp]. destruct a as [|d a]; cbn [app].
  - destruct b as [|d b]; [done|]. apply Forall_cons in Hb as [Hd _]. cbn. destruct (Z.eqb_spec c d) as [->|]; [congruence|done].
  - cbn. by rewrite IH.
Qed.
Lemma strstr_blank_none p b i : Forall (fun c => isspace c = false) p -> p <> [] -> blank b -> strstr p b i = None.
Proof.
  intros Hp Hne. revert i. induction b as [|d b IH]; intros i Hb; cbn [strstr].
  - by destruct p.
  - change (d :: b) with ([] ++ d :: b) at 1. rewrite starts_with_blank by done. destruct p; [done|]. cbn. destruct (d =? 0); [done|]. apply IH. by apply Forall_cons in Hb as [_ ?].
Qed.
Lemma strstr_blank p a b i : Forall (fun c => isspace c = false) p -> p <> [] -> blank b -> strstr p (a ++ b) i = strstr p a i.
Proof.
  intros Hp Hne Hb. revert i. induction a as [|c a IH]; intros i.
  - rewrite (strstr_blank_none p ([] ++ b)) by done. cbn. by destruct p.
  - cbn [app strstr]. change (c :: a ++ b) with ((c :: a) ++ b). rewrite starts_with_blank by done. by rewrite IH.
Qed.
Lemma strstr_shift p s i : strstr p s i = fmap (M:=option) (Z.add i) (strstr p s 0).
Proof.
  revert i. assert (Hg : forall i j, strstr p s (i + j) = fmap (M:=option) (Z.add i) (strstr p s j)).
  { induction s as [|c s IH]; intros i j; cbn [strstr]; destruct (starts_with _ _); try done.
    destruct (c =? 0); [done|]. rewrite <- IH. f_equal. lia. }
  intros i. rewrite <- Hg. f_equal. lia.
Qed.
Lemma starts_with_length p s : starts_with p s = true -> Zlen p <= Zlen s.
Proof.
  revert s. induction p as [|c p IH]; intros s Hs; [apply Zlen_nonneg|]. destruct s as [|d s]; [done|]. cbn in Hs.
  apply andb_prop in Hs as [_ Hs]. specialize (IH _ Hs). unfold Zlen in *. cbn [length]. lia.
Qed.
Lemma strstr_range p s i : strstr p s 0 = Some i -> 0 <= i /\ i + Zlen p <= Zlen s.
Proof.
  revert i. induction s as [|c s IH]; intros i; cbn [strstr].
  - destruct (starts_with p []) eqn:E; [|done]. intros [= <-]. apply starts_with_length in E. lia.
  - destruct (starts_with p (c :: s)) eqn:E; [intros [= <-]; apply starts_with_length in E; lia|]. destruct (c =? 0); [done|].
    rewrite strstr_shift. destruct (strstr p s 0) as [k|]; [|done]. intros [= <-]. destruct (IH k eq_refl). unfold Zlen in *. cbn [length]. lia.
Qed.

Lemma charset_field f : field_ok f ->
  charset_of [] (line_of f) (Zlen (f_name f) + 1 + Zlen (f_lead f)) (Zlen (f_name f) + Zlen (f_lead f) + Zlen (f_value f)) = Ret (charset_text f).
Proof.
  intros []. assert (Htr : blank (f_trail f ++ [13; 10])) by (apply Forall_app; split; [done|by repeat constructor]).
  unfold charset_of, charset_text. rewrite app_nil_r, starts_with_cstr by (apply (bool_decide_unpack _); by vm_compute).
  destruct (starts_with _ _); [|done].
  set (n := Zlen (f_name f) + 1 + Zlen (f_lead f)).
  assert (Hd : forall k, 0 <= k <= Zlen (f_value f) -> zdrop (n + k) (line_of f) = zdrop k (f_value f) ++ f_trail f ++ [13; 10]).
  { intros k Hk. assert (E : line_of f = (f_name f ++ [58] ++ f_lead f ++ ztake k (f_value f)) ++ zdrop k (f_value f) ++ f_trail f ++ [13; 10]).
    { unfold line_of, ztake, zdrop. rewrite <- (take_drop (Z.to_nat k) (f_value f)) at 1. by rewrite <- !app_assoc. }
    rewrite E. replace (n + k) with (Zlen (f_name f ++ [58] ++ f_lead f ++ ztake k (f_value f))); [apply zdrop_app|].
    assert (Zlen (ztake k (f_value f)) = k) by (by apply Zlen_ztake). unfold n. unfold Zlen in *. rewrite !length_app. cbn [length]. lia. }
  rewrite app_nil_r. rewrite <- (Z.add_0_r n) at 1. rewrite Hd by (pose proof (Zlen_nonneg (f_value f)); lia). change (zdrop 0 (f_value f)) with (f_value f).
  rewrite strstr_blank; [|by repeat constructor|done|done]. rewrite strstr_shift.
  destruct (strstr (lit "charset=") (f_value f) 0) as [i|] eqn:Ei; [|done]. cbn [fmap option_fmap option_map].
  apply strstr_range in Ei. change (Zlen (lit "charset=")) with 8 in Ei.
  replace (Zlen (f_name f) + Zlen (f_lead f) + Zlen (f_value f) - (n + i) - 8 + 1) with (Zlen (f_value f) - (i + 8)) by (unfold n; lia).
  rewrite (proj2 (Z.ltb_ge _ _)) by lia. do 2 f_equal. replace (n + i + 8) with (n + (i + 8)) by lia. rewrite Hd by lia.
  replace (Zlen (f_value f) - (i + 8)) with (Zlen (zdrop (i + 8) (f_value f))); [apply ztake_app|].
  unfold Zlen, zdrop. rewrite length_drop. unfold Zlen in Ei. lia.
Qed.

(** ** A whole response *)

Fixpoint header_lines (after : list Z) (lines : list (list Z)) (st : hstate) : outcome hstate :=
  match lines with
  | [] => Ret st
  | l :: lines => st ← header_line after l st; header_lines after lines st
  end.
Definition values_of (name : list Z) (fs : list field_line) : list hvalue :=
  omap (fun f => if decide (f_name f = name) then Some (HStr (f_value f)) else None) fs.
Definition entry_of (l : list hvalue) : option hentry :=
  match l with [] => None | [v] => Some (HOne v) | _ => Some (HMany l) end.
Definition charsets (fs : list field_line) : option (list Z) := last (omap charset_text fs).
(** Nothing is taken from a status line and from the line that ends the headers. *)
Definition status_ok (s : list Z) : Prop := exists a b, s = a ++ 32 :: b /\ Forall (fun c => c <> 58) a.
Definition CRLF : list Z := [13; 10].

Lemma entry_of_add (h : headers) l key v name : h !! name = entry_of l ->
  add_header key v h !! name = entry_of (l ++ if decide (key = name) then [v] else []).
Proof.
  intros Hh. unfold add_header. destruct (decide (key = name)) as [->|Hne].
  - rewrite Hh. destruct l as [|v1 [|v2 l]]; cbn; by rewrite lookup_insert_eq.
  - rewrite app_nil_r, <- Hh. destruct (h !! key) as [[]|]; by rewrite lookup_insert_ne.
Qed.
Lemma header_fields fs : forall done st, Forall field_ok fs ->
  (forall name, hs_headers st !! name = entry_of (values_of name done)) -> hs_charset st = charsets done ->
  exists st', header_lines [] (map line_of fs) st = Ret st' /\
    (forall name, hs_headers st' !! name = entry_of (values_of name (done ++ fs))) /\ hs_charset st' = charsets (done ++ fs).
Proof.
  induction fs as [|f fs IH]; intros dn st Hf Hh Hc; cbn [map header_lines]; [exists st; by rewrite app_nil_r|].
  apply Forall_cons in Hf as [Hf1 Hf]. rewrite header_line_field, charset_field by done. cbn [mbind outcome_bind].
  destruct (IH (dn ++ [f]) (mk_hs (add_header (f_name f) (HStr (f_value f)) (hs_headers st))
    (match charset_text f with Some s => Some s | None => hs_charset st end))) as (st' & E & H1 & H2); [done| |
    |exists st'; by rewrite <- app_assoc in H1, H2]; cbn [hs_headers hs_charset].
  - intros name. rewrite (entry_of_add _ (values_of name dn)) by done. unfold values_of. rewrite omap_app. cbn. by destruct (decide _).
  - unfold charsets in *. rewrite omap_app. cbn. destruct (charset_text f); [by rewrite last_snoc|by rewrite app_nil_r].
Qed.
Lemma header_line_status after s st : status_ok s -> header_line after s st = Ret st.
Proof. intros (a & b & -> & Ha). apply header_loop_quiet; [done|right; by eexists]. Qed.
Lemma header_lines_app after l1 l2 st : header_lines after (l1 ++ l2) st = (st ← header_lines after l1 st; header_lines after l2 st).
Proof.
  revert st. induction l1 as [|l l1 IH]; intros st; cbn [app header_lines]; [done|]. destruct (header_line after l st); cbn; [apply IH|done|done].
Qed.

(** From the status line to the empty line, the table of headers gets for every name the server sent its value without the
    spaces around it, or the table of its values in order when it was sent more than once, and nothing else; the character set
    is what follows "charset=" in the last content type that has it.  The lines are terminated, their values are not
    empty, and a space comes before a second colon. *)
Theorem http_headers status fs : status_ok status -> Forall field_ok fs ->
  exists st, header_lines [] ((status :: map line_of fs) ++ [CRLF]) (mk_hs ∅ None) = Ret st /\
    (forall name, hs_headers st !! name = entry_of (values_of name fs)) /\ hs_charset st = charsets fs.
Proof.
  intros Hs Hf. destruct (header_fields fs [] (mk_hs ∅ None) Hf) as (st & E & H1 & H2); [done|done|].
  exists st. split; [|by split]. rewrite header_lines_app. cbn [header_lines]. rewrite header_line_status by done. cbn [mbind outcome_bind].
  rewrite E. done.
Qed.

Definition sample_fields : list field_line :=
  [mk_field (lit "Set-Cookie") [32] (lit "a=1") []; mk_field (lit "Content-Type") [32] (lit "text/html; charset=utf-8") [32];
   mk_field (lit "Set-Cookie") [] (lit "b=2") []].
Lemma http_headers_witness : exists st, header_lines [] ((lit "HTTP/1.1 200 OK" ++ CRLF) :: map line_of sample_fields ++ [CRLF]) (mk_hs ∅ None) = Ret st /\
  hs_headers st !! lit "Set-Cookie" = Some (HMany [HStr (lit "a=1"); HStr (lit "b=2")]) /\ hs_charset st = Some (lit "utf-8").
Proof.
  destruct (http_headers (lit "HTTP/1.1 200 OK" ++ CRLF) sample_fields) as (st & E & H1 & H2).
  - exists (lit "HTTP/1.1"), (lit "200 OK" ++ CRLF). split; [reflexivity|repeat constructor; done].
  - repeat (apply Forall_cons; split); [| | |by apply Forall_nil].
    all: constructor; cbn; [repeat constructor; done|repeat constructor; done|repeat constructor; done|by eexists _, _| |].
    1: by exists 49, (lit "a=").
    2: by exists 56, (lit "text/html; charset=utf-").
    3: by exists 50, (lit "b=").
    1-2: left; by left.
    right; repeat constructor; done.
  - exists st. split; [exact E|]. split; [rewrite H1; reflexivity|rewrite H2; reflexivity].
Defined.

(** Where the parsing of headers differs: a value with colons and no space after the first one makes a header of every
    colon; an empty value is left out, and with a space before the end of the line it is a line feed; a content type in lower
    case, as HTTP/2 sends it, does not give the character set; the parameters that follow belong to it; and a line
    without a terminator lets the search run into what follows it in memory. *)
Theorem header_quirks :
  (exists st, header_line [] (lit "Location:http://x" ++ CRLF) (mk_hs ∅ None) = Ret st /\
     hs_headers st !! lit "Location" = Some (HOne (HStr (lit "http://x"))) /\ hs_headers st !! lit "Location:http" = Some (HOne (HStr (lit "//x")))) /\
  header_line [] (lit "X-Empty:" ++ CRLF) (mk_hs ∅ None) = Ret (mk_hs ∅ None) /\
  (exists st, header_line [] (lit "X-Empty: " ++ CRLF) (mk_hs ∅ None) = Ret st /\ hs_headers st !! lit "X-Empty" = Some (HOne (HStr [10]))) /\
  (exists st, header_line [] (lit "content-type: text/html; charset=utf-8" ++ CRLF) (mk_hs ∅ None) = Ret st /\ hs_charset st = None) /\
  (exists st, header_line [] (lit "Content-Type: text/html; charset=utf-8; x=y" ++ CRLF) (mk_hs ∅ None) = Ret st /\ hs_charset st = Some (lit "utf-8; x=y")) /\
  header_line (lit "charset=") (lit "Content-Type: text/html" ++ CRLF) (mk_hs ∅ None) = UB.
Proof. repeat split; try (eexists; split; [vm_compute; reflexivity|]); try split; vm_compute; reflexivity. Qed.
