(* ===== verification/HttpOptions.v ===== *)
(** * src/http.c: the request a script describes ([http_getpost])

    The table of a request is read option by option into settings of a libcurl
    handle, references in the Lua registry and lists of strings.  The part of
    [http_getpost] that reads it is a list of steps; a step may go to the label
    ERROR, or leave through [lua_error] without passing there.  A setting is kept
    with the C type of the argument that is given to [curl_easy_setopt], which is
    variadic. *)

From S2P Require Import Prelude Lua LuaState Double TcpdConfig Holds.

(** ** The registry *)

(** What http.c keeps in the registry. *)
Inductive rval : Type := RvFun (k : positive) | RvTable (a : positive) | RvThread (th : positive) | RvStr (s : list Z).
#[export] Instance rval_dec : EqDecision rval.
Proof. solve_decision. Defined.
Abbreviation registry_map := (gmap positive rval).

(** ** Settings *)

Inductive method : Type := HTTP_GET | HTTP_POST | HTTP_PUT | HTTP_HEAD | HTTP_DELETE | HTTP_UPDATE.
#[export] Instance method_dec : EqDecision method.
Proof. solve_decision. Defined.

(** An argument: an [int], a [long], a [size_t], a [double], a string, a function, the
    connection, a list of strings, the share handle. *)
Inductive optval : Type :=
  | VInt (n : Z)
  | VLong (n : Z)
  | VSize (n : Z)
  | VDouble (d : Z)
  | VStr (s : list Z)
  | VFun (name : string)
  | VConn
  | VList (l : list (list Z))
  | VShare.
Definition setting : Type := string * optval.

Definition CURL_TIMEOUT_DEFAULT : Z := 60.
Definition INT16_MAX : Z := 32767.

(** The variables of the program, and what [cookiejar], [cainfo] and [capath] left in
    the registry. *)
Record globals : Type := mk_globals {
  GLOBAL_VERBOSE : Z;
  dns_servers : option (list Z);
  proxyType : Z;
  proxyHost : option (list Z);
  proxyPort : Z;
  proxyUsername : option (list Z);
  proxyPassword : option (list Z);
  KEY_COOKIE_JAR : option (list Z);
  KEY_CAINFO : option (list Z);
  KEY_CAPATH : option (list Z)
}.

(** What is made of the table so far; [b_slists]: the lists of strings libcurl has
    allocated for it. *)
Record build : Type := mk_build {
  b_opts : list setting;
  b_reg : registry_map;
  b_verbose : Z;
  b_progress : option positive;
  b_read : option positive;
  b_write : option positive;
  b_header : option positive;
  b_body : option positive;
  b_complete : option positive;
  b_slists : nat
}.
Definition setopt (name : string) (v : optval) (b : build) : build :=
  mk_build (b_opts b ++ [(name, v)]) (b_reg b) (b_verbose b) (b_progress b) (b_read b) (b_write b) (b_header b) (b_body b) (b_complete b) (b_slists b).
Fixpoint setopts (l : list setting) (b : build) : build :=
  match l with [] => b | (n, v) :: l => setopts l (setopt n v b) end.
Definition set_verbose v (b : build) : build :=
  mk_build (b_opts b) (b_reg b) v (b_progress b) (b_read b) (b_write b) (b_header b) (b_body b) (b_complete b) (b_slists b).
Definition set_progress r reg (b : build) : build :=
  mk_build (b_opts b) reg (b_verbose b) r (b_read b) (b_write b) (b_header b) (b_body b) (b_complete b) (b_slists b).
Definition set_read r reg (b : build) : build :=
  mk_build (b_opts b) reg (b_verbose b) (b_progress b) r (b_write b) (b_header b) (b_body b) (b_complete b) (b_slists b).
Definition set_write r reg (b : build) : build :=
  mk_build (b_opts b) reg (b_verbose b) (b_progress b) (b_read b) r (b_header b) (b_body b) (b_complete b) (b_slists b).
Definition set_onheader r reg (b : build) : build :=
  mk_build (b_opts b) reg (b_verbose b) (b_progress b) (b_read b) (b_write b) r (b_body b) (b_complete b) (b_slists b).
Definition set_body r reg (b : build) : build :=
  mk_build (b_opts b) reg (b_verbose b) (b_progress b) (b_read b) (b_write b) (b_header b) r (b_complete b) (b_slists b).
Definition set_complete r reg (b : build) : build :=
  mk_build (b_opts b) reg (b_verbose b) (b_progress b) (b_read b) (b_write b) (b_header b) (b_body b) r (b_slists b).
Definition add_slists n (b : build) : build :=
  mk_build (b_opts b) (b_reg b) (b_verbose b) (b_progress b) (b_read b) (b_write b) (b_header b) (b_body b) (b_complete b) (b_slists b + n).

(** ** Steps *)

(** [goto ERROR] with a message, an error that leaves at once, or a loop without end. *)
Inductive stop : Type := Fail (msg : list Z) | Throw (msg : list Z) | Endless.
Definition step : Type := build -> outcome (option stop * build).
Definition go (b : build) : outcome (option stop * build) := Ret (None, b).
Fixpoint steps (l : list step) : step := fun b =>
  match l with
  | [] => go b
  | s :: l => '(r, b) ← s b; match r with None => steps l b | Some _ => Ret (r, b) end
  end.

(** The conversion of a [double] to an [int]. *)
Definition d_trunc (d : Z) : option Z :=
  if d_exp d =? 2047 then None
  else Some ((if d_neg d then -1 else 1) * (if 0 <=? d_pow d then d_mant d * 2 ^ d_pow d else d_mant d / 2 ^ (- d_pow d))).
Definition in_int32 (n : Z) : bool := (- 2 ^ 31 <=? n) && (n <? 2 ^ 31).

Section Options.
Context {T : Type} `{LuaTable T} `{LuaAPI} `{Allocator}.
Context (g : globals).
(** The tables a field can refer to. *)
Context (tables : positive -> option T).
Implicit Type t : T.
Implicit Type b : build.

Definition tostring (v : lua_value) : list Z := default [] (lua_tostring v).

Definition method_opts (m : method) : list setting :=
  match m with
  | HTTP_GET => [("POST", VInt 0)]
  | HTTP_POST => [("POST", VInt 1)]
  | HTTP_PUT => [("POST", VInt 1); ("CUSTOMREQUEST", VStr (lit "PUT"))]
  | HTTP_HEAD => [("CUSTOMREQUEST", VStr (lit "HEAD")); ("NOBODY", VInt 1)]
  | HTTP_DELETE => [("CUSTOMREQUEST", VStr (lit "DELETE"))]
  | HTTP_UPDATE => [("CUSTOMREQUEST", VStr (lit "UPDATE"))]
  end%string.
Definition first_opts : list setting :=
  [("WRITEFUNCTION", VFun "filldata"); ("WRITEDATA", VConn); ("HEADERFUNCTION", VFun "fillheader"); ("HEADERDATA", VConn);
   ("NOSIGNAL", VInt 1); ("ERRORBUFFER", VConn); ("PRIVATE", VConn)]%string.

Definition opt_verbose t : step := fun b =>
  match field_of t "verbose" with
  | LNil => go (set_verbose (GLOBAL_VERBOSE g) b)
  | v =>
      match luaL_checknumber v with
      | Ret d => match d_trunc d with Some n => if in_int32 n then go (set_verbose n b) else UB | None => UB end
      | Raise e => Ret (Some (Throw e), b)
      | UB => UB
      end
  end.
Definition opt_url t : step := fun b =>
  let v := field_of t "url" in
  if lua_isstring v then go (setopt "URL" (VStr (tostring v)) b)
  else Ret (Some (Fail (lit "invalid url type in table parameter")), b).
Definition opt_debug : step := fun b =>
  go (if b_verbose b =? 0 then b else setopts [("VERBOSE", VInt 1); ("DEBUGFUNCTION", VFun "debug_callback"); ("DEBUGDATA", VConn)]%string b).
Definition opt_dns t : step := fun b =>
  let v := field_of t "dns_servers" in
  go (if lua_isstring v then setopt "DNS_SERVERS" (VStr (tostring v)) b
      else if negb (lua_isnil v) then b
      else match dns_servers g with Some s => setopt "DNS_SERVERS" (VStr s) b | None => b end).
Definition opt_onprogress t : step := fun b =>
  match field_of t "onprogress" with
  | LFun k =>
      let '(r, reg) := reg_ref (RvFun k) (b_reg b) in
      go (setopts [("PROGRESSFUNCTION", VFun "onprogress"); ("PROGRESSDATA", VConn); ("NOPROGRESS", VInt 0)]%string (set_progress (Some r) reg b))
  | _ => go b
  end.
Definition opt_lowspeed : step := fun b => go (setopt "LOW_SPEED_LIMIT" (VInt 1) b).
(** A number, or the default when the field is nil; anything else is skipped. *)
Definition opt_number t (key name : string) (d : option optval) (conv : lua_value -> optval) : step := fun b =>
  let v := field_of t key in
  go (if lua_isnumber v then setopt name (conv v) b
      else match lua_isnil v, d with true, Some d => setopt name d b | _, _ => b end).
Definition to_long (v : lua_value) : optval := VLong (lua_tointeger v).
Definition to_double (v : lua_value) : optval := VDouble (default 0 (lua_tonumberx v)).
Definition opt_string t (key name : string) : step := fun b =>
  let v := field_of t key in go (if lua_isstring v then setopt name (VStr (tostring v)) b else b).
(** A string, or the registry's, or a constant. *)
Definition opt_path t (key name : string) (kept : option (list Z)) (d : list Z) : step := fun b =>
  let v := field_of t key in
  go (if lua_isstring v then setopt name (VStr (tostring v)) b
      else if negb (lua_isnil v) then b
      else setopt name (VStr (default d kept)) b).

(** *** The request headers *)

(** An integral number is written as an [int]. *)
Definition header_number (v : lua_value) : outcome lua_value :=
  if is_number v then
    let d := default 0 (lua_tonumberx v) in
    if d_isinf d then UB
    else match d_int d with Some n => if in_int32 n then Ret (LInt n) else UB | None => Ret v end
  else Ret v.
Definition header_text (key value : list Z) : list Z :=
  if decide (0 ∈ key) then cstr key else key ++ lit ": " ++ cstr value.
Fixpoint after_key (k : lua_value) (l : list (lua_value * lua_value)) : option (list (lua_value * lua_value)) :=
  match l with
  | [] => None
  | (k', _) :: l => if decide (k' = k) then Some l else after_key k l
  end.
(** [lua_tolstring] on the key turns a number into a string, with which [lua_next]
    goes on. *)
Fixpoint headers_loop (fuel : nat) (pairs rest : list (lua_value * lua_value)) (acc : list (list Z)) : outcome (option stop * list (list Z)) :=
  match rest, fuel with
  | [], _ => Ret (None, acc)
  | _, O => Ret (Some Endless, acc)
  | (k, v) :: rest, S fuel =>
      v ← header_number v;
      let key := lua_tolstring k in
      let more (acc : list (list Z)) :=
        if is_number k then
          match after_key (LStr (default [] key)) pairs with
          | Some rest => headers_loop fuel pairs rest acc
          | None => Ret (Some (Throw (lit "invalid key to 'next'")), acc)
          end
        else headers_loop fuel pairs rest acc in
      match lua_tolstring v with
      | Some ((_ :: _) as value) =>
          match key with
          | None => UB
          | Some key =>
              if malloc_ok (Zlen key + Zlen value + 3) then more (acc ++ [header_text key value])
              else Ret (Some (Fail (lit "Memory allocation failure")), acc)
          end
      | _ => more acc
      end
  end.
Definition opt_headers t (fuel : nat) : step := fun b =>
  match field_of t "headers" with
  | LTable a =>
      match tables a with
      | None => UB
      | Some h =>
          '(r, l) ← headers_loop fuel (t_pairs h) (t_pairs h) [];
          let b := match l with [] => b | _ => add_slists 1 b end in
          match r with
          | Some e => Ret (Some e, b)
          | None => go (match l with [] => b | _ => setopt "HTTPHEADER" (VList l) b end)
          end
      end
  | LNil => go b
  | _ => Ret (Some (Fail (lit "invalid headers type in table parameter")), b)
  end.

(** *** Proxies *)

Definition opt_str (name : string) (v : option (list Z)) : list setting := match v with Some s => [(name, VStr s)] | None => [] end.
Definition NOPROXY : list setting := [("HEADEROPT", VInt 1); ("NOPROXY", VStr (lit "127.0.0.1,localhost"))]%string.
Definition opt_global_proxy : step := fun b =>
  go (if proxyType g =? INT16_MAX then b
      else setopts ([("PROXYTYPE"%string, VInt (proxyType g))] ++ opt_str "PROXY" (proxyHost g) ++
             (if proxyPort g =? 0 then [] else [("PROXYPORT"%string, VLong (proxyPort g))]) ++
             opt_str "PROXYUSERNAME" (proxyUsername g) ++ opt_str "PROXYPASSWORD" (proxyPassword g) ++ NOPROXY) b).
Definition opt_proxytunnel t : step := fun b =>
  let v := field_of t "proxytunnel" in
  if lua_isnumber v then go (setopt "HTTPPROXYTUNNEL" (to_long v) b)
  else if lua_isnil v then go b else Ret (Some (Fail (lit "invalid proxytunnel type in table parameter")), b).
Definition opt_proxy t : step := fun b =>
  let v := field_of t "proxy" in
  if negb (lua_isstring v) && negb (lua_isnil v) then Ret (Some (Fail (lit "invalid proxy type in table parameter")), b)
  else
    let p := field_of t "proxyport" in
    if negb (lua_isnumber p) && negb (lua_isnil p) then Ret (Some (Fail (lit "invalid proxyport type in table parameter")), b)
    else
      let port := if lua_isnumber p then s32 (lua_tointeger p) else 0 in
      go (if lua_isstring v && (0 <? port)
          then setopts ([("PROXYTYPE", VInt 0); ("PROXY", VStr (tostring v)); ("PROXYPORT", VInt port)]%string ++ NOPROXY) b
          else b).

(** *** The body and the callbacks *)

Definition opt_body (m : method) t : step := fun b =>
  match field_of t "body" with
  | LNil => go (match m with
                | HTTP_POST | HTTP_PUT | HTTP_UPDATE => setopts [("POSTFIELDSIZE", VInt 0); ("POSTFIELDS", VStr [])]%string b
                | _ => b
                end)
  | v =>
      if lua_isstring v then
        let data := default [] (lua_tolstring v) in
        let '(r, reg) := reg_ref (RvStr data) (b_reg b) in
        go (setopts [("POSTFIELDSIZE", VSize (Zlen data)); ("POSTFIELDS", VStr data)]%string (set_body (Some r) reg b))
      else Ret (Some (Fail (lit "invalid body type in table parameter")), b)
  end.
Definition opt_onsend (m : method) t : step := fun b =>
  match field_of t "onsend" with
  | LFun k =>
      let '(r, reg) := reg_ref (RvFun k) (b_reg b) in
      go (setopts [("READFUNCTION", VFun "onread"); ("READDATA", VConn)]%string (set_read (Some r) reg b))
  | LNil => opt_body m t b
  | _ => Ret (Some (Fail (lit "invalid onsend type in table parameter")), b)
  end.
Definition opt_onreceive t : step := fun b =>
  match field_of t "onreceive" with
  | LFun k =>
      let '(r, reg) := reg_ref (RvFun k) (b_reg b) in
      go (setopts [("WRITEFUNCTION", VFun "onwrite"); ("WRITEDATA", VConn)]%string (set_write (Some r) reg b))
  | LNil => go (setopts [("WRITEFUNCTION", VFun "filldata"); ("WRITEDATA", VConn)]%string b)
  | _ => Ret (Some (Fail (lit "invalid onreceive type in table parameter")), b)
  end.
Definition opt_onheader t : step := fun b =>
  match field_of t "onheader" with
  | LFun k => let '(r, reg) := reg_ref (RvFun k) (b_reg b) in go (set_onheader (Some r) reg b)
  | LNil => go b
  | _ => Ret (Some (Fail (lit "invalid onheader type in table parameter")), b)
  end.
Definition opt_oncomplete t : step := fun b =>
  match field_of t "oncomplete" with
  | LFun k => let '(r, reg) := reg_ref (RvFun k) (b_reg b) in go (set_complete (Some r) reg b)
  | LNil => go b
  | _ => Ret (Some (Fail (lit "invalid oncomplete type in table parameter")), b)
  end.
(** Only a string, not a number. *)
Definition opt_resolve t : step := fun b =>
  match field_of t "resolve" with
  | LStr s => go (add_slists 1 (setopt "RESOLVE" (VList [cstr s]) b))
  | _ => go b
  end.
Definition opt_cookiejar t : step := fun b =>
  let v := field_of t "cookiejar" in
  let both s := setopts [("COOKIEJAR", VStr s); ("COOKIEFILE", VStr s)]%string b in
  if lua_isstring v then go (both (tostring v))
  else if negb (lua_isnil v) then Ret (Some (Fail (lit "invalid cookiejar type in table parameter")), b)
  else go (both (default (lit "/dev/null") (KEY_COOKIE_JAR g))).

(** *** The whole table, in order *)

Definition table_steps (m : method) (fuel : nat) t : list step :=
  [opt_verbose t; opt_url t; opt_debug; opt_dns t; opt_onprogress t; opt_lowspeed;
   opt_number t "timeout" "LOW_SPEED_TIME" (Some (VInt CURL_TIMEOUT_DEFAULT)) to_long;
   opt_number t "conntimeout" "TIMEOUT" None to_long;
   opt_number t "ssl_verifypeer" "SSL_VERIFYPEER" (Some (VInt 1)) to_double;
   opt_number t "ssl_verifyhost" "SSL_VERIFYHOST" (Some (VInt 2)) to_double;
   opt_string t "sslcert" "SSLCERT"; opt_string t "sslcertpasswd" "SSLCERTPASSWD"; opt_string t "sslcerttype" "SSLCERTTYPE";
   opt_string t "sslkey" "SSLKEY"; opt_string t "sslkeypasswd" "SSLKEYPASSWD"; opt_string t "sslkeytype" "SSLKEYTYPE";
   opt_path t "cainfo" "CAINFO" (KEY_CAINFO g) (lit "cert.pem");
   opt_path t "capath" "CAPATH" (KEY_CAPATH g) (lit ".");
   opt_headers t fuel; opt_global_proxy; opt_proxytunnel t; opt_proxy t;
   opt_onsend m t; opt_onreceive t; opt_onheader t; opt_oncomplete t; opt_resolve t;
   opt_number t "forbid_reuse" "FORBID_REUSE" None to_long; opt_cookiejar t].
(** The argument: a table, or a string that becomes the [url] of a table of its own. *)
Definition request_table (v : lua_value) : outcome (option T) :=
  if lua_isstring v then Ret (Some (t_set t_empty (LStr (lit "url")) v))
  else match v with LTable a => match tables a with Some t => Ret (Some t) | None => UB end | _ => Ret None end.
Definition read_request (m : method) (fuel : nat) (v : lua_value) : step := fun b =>
  t ← request_table v;
  match t with
  | Some t => steps (table_steps m fuel t) b
  | None => Ret (Some (Fail (lit "invalid parameter")), b)
  end.
Definition new_build (m : method) (reg : registry_map) : build :=
  setopts (first_opts ++ method_opts m) (mk_build [] reg 0 None None None None None None 0).
End Options.

(** ** What holds while a table is read *)

Definition fun_ref (reg : registry_map) (r : option positive) : Prop := forall p, r = Some p -> exists k, reg !! p = Some (RvFun k).
Definition brefs (b : build) : list positive :=
  ref_list (b_progress b) ++ ref_list (b_read b) ++ ref_list (b_write b) ++ ref_list (b_header b) ++ ref_list (b_body b) ++ ref_list (b_complete b).
(** The last value given to an option. *)
Fixpoint opt_of (name : string) (l : list setting) : option optval :=
  match l with
  | [] => None
  | (n, v) :: l => match opt_of name l with Some v => Some v | None => if decide (n = name) then Some v else None end
  end.

(** libcurl calls a callback exactly when there is a function for it. *)
Record wired (opts : list setting) (progress read write : option positive) : Prop := {
  wi_progress : opt_of "NOPROGRESS" opts = match progress with Some _ => Some (VInt 0) | None => None end;
  wi_read : opt_of "READFUNCTION" opts = match read with Some _ => Some (VFun "onread") | None => None end;
  wi_write : opt_of "WRITEFUNCTION" opts = Some (VFun (match write with Some _ => "onwrite" | None => "filldata" end)%string)
}.
Record build_ok (F : registry_map) (l : list positive) (b : build) : Prop := {
  bo_holds : holds F (brefs b ++ l) (b_reg b);
  bo_progress : fun_ref (b_reg b) (b_progress b);
  bo_read : fun_ref (b_reg b) (b_read b);
  bo_write : fun_ref (b_reg b) (b_write b);
  bo_header : fun_ref (b_reg b) (b_header b);
  bo_complete : fun_ref (b_reg b) (b_complete b);
  bo_wired : wired (b_opts b) (b_progress b) (b_read b) (b_write b)
}.

Lemma opt_of_snoc name l n v : opt_of name (l ++ [(n, v)]) = if decide (n = name) then Some v else opt_of name l.
Proof.
  induction l as [|[m w] l IH]; cbn [app opt_of]; [done|]. rewrite IH. by destruct (decide (n = name)).
Qed.
(** Options that are not about the callbacks. *)
Definition plain_opt (n : string) : Prop := n <> "NOPROGRESS"%string /\ n <> "READFUNCTION"%string /\ n <> "WRITEFUNCTION"%string.
Lemma wired_plain opts p r w n v : wired opts p r w -> plain_opt n -> wired (opts ++ [(n, v)]) p r w.
Proof. intros [] (H1 & H2 & H3). by constructor; rewrite opt_of_snoc, decide_False. Qed.
Lemma setopts_app l1 l2 b : setopts (l1 ++ l2) b = setopts l2 (setopts l1 b).
Proof. revert b. induction l1 as [|[n v] l1 IH]; intros b; [done|]. apply IH. Qed.
Lemma setopts_opts l b : b_opts (setopts l b) = b_opts b ++ l.
Proof. revert b. induction l as [|[n v] l IH]; intros b; cbn [setopts]; [by rewrite app_nil_r|]. rewrite IH. cbn. by rewrite <- app_assoc. Qed.

Section Reading.
Context (F : registry_map) (l : list positive).
Implicit Type b : build.

Lemma setopt_ok n v b : build_ok F l b -> plain_opt n -> build_ok F l (setopt n v b).
Proof. intros [] Hn. constructor; try done. by apply wired_plain. Qed.
Lemma setopts_ok os b : build_ok F l b -> Forall (fun o => plain_opt o.1) os -> build_ok F l (setopts os b).
Proof.
  revert b. induction os as [|[n v] os IH]; intros b Hb Ho; [done|]. apply Forall_cons in Ho as [Hn Ho]. apply IH; [|done]. by apply setopt_ok.
Qed.

(** The fields that are not set yet, in the order in which they are. *)
Definition none_from (i : nat) b : Prop :=
  (i <= 0 -> b_progress b = None)%nat /\ (i <= 1 -> b_read b = None)%nat /\ (i <= 1 -> b_body b = None)%nat /\ (i <= 2 -> b_write b = None)%nat /\
  (i <= 3 -> b_header b = None)%nat /\ (i <= 4 -> b_complete b = None)%nat.
Definition stage (i : nat) b : Prop := build_ok F l b /\ none_from i b.
(** A step that goes on leads from one stage to another; one that stops leaves what it
    has. *)
Definition leads (i j : nat) (s : step) : Prop :=
  forall b, stage i b -> returns (s b) (fun '(r, b') => match r with None => stage j b' | Some e => build_ok F l b' /\ e <> Endless end).
Lemma leads_steps i j k s ss : leads i j s -> leads j k (steps ss) -> leads i k (steps (s :: ss)).
Proof.
  intros H1 H2 b Hb. cbn [steps]. eapply returns_bind; [by apply H1|]. intros [[e|] b'] Hb'; [done|]. by apply H2.
Qed.
Lemma leads_nil i : leads i i (steps []).
Proof. by intros b Hb. Qed.

Lemma none_setopts i os b : none_from i b -> none_from i (setopts os b).
Proof. revert b. induction os as [|[n v] os IH]; intros b Hb; [done|]. by apply IH. Qed.
Lemma stage_setopts i os b : stage i b -> Forall (fun o => plain_opt o.1) os -> stage i (setopts os b).
Proof. intros [H1 H2] Ho. split; [by apply setopts_ok|by apply none_setopts]. Qed.
Lemma stage_setopt i n v b : stage i b -> plain_opt n -> stage i (setopt n v b).
Proof. intros [H1 H2] Ho. split; [by apply setopt_ok|done]. Qed.
End Reading.

Ltac plain_opts := repeat (apply Forall_cons; split); try apply Forall_nil; repeat split; cbn; discriminate.

Section Reading_steps.
Context {T : Type} `{LuaTable T} `{LuaAPI} `{Allocator}.
Context (g : globals) (tables : positive -> option T).
Context (F : registry_map) (l : list positive) (i : nat).
Implicit Type t : T.
#[local] Abbreviation leads := (leads F l).
#[local] Abbreviation stage := (stage F l).

(** A [verbose] that is a number is in the range of an [int]. *)
Definition verbose_ok t : Prop :=
  forall d, field_of t "verbose" <> LNil -> luaL_checknumber (field_of t "verbose") = Ret d -> exists n, d_trunc d = Some n /\ in_int32 n = true.
(** The headers are read to their end. *)
Definition headers_ok (fuel : nat) t : Prop :=
  forall a, field_of t "headers" = LTable a -> exists h, tables a = Some h /\
    returns (headers_loop fuel (t_pairs h) (t_pairs h) []) (fun '(r, _) => r <> Some Endless).

Lemma verbose_leads t : verbose_ok t -> leads i i (opt_verbose g t).
Proof.
  intros Hv b Hb. assert (Hn : forall n, stage i (set_verbose n b)) by (intros n; destruct Hb as [[] ?]; by split).
  unfold opt_verbose. destruct (decide (field_of t "verbose" = LNil)) as [E|Hne]; [rewrite E; apply Hn|]. assert (Hv2 := fun x => Hv x Hne). clear Hv.
  unfold verbose_ok in *. set (v := field_of t "verbose") in *. clearbody v.
  assert (Hc : match luaL_checknumber v with UB => False | _ => True end) by (unfold luaL_checknumber; by destruct (lua_tonumberx v)).
  destruct v; [by destruct Hne|..]; (destruct (luaL_checknumber _) as [x|e|]; [|split; [apply Hb|discriminate]|destruct Hc]);
    (destruct (Hv2 x eq_refl) as (y & -> & ->); apply Hn).
Qed.
Lemma url_leads t : leads i i (opt_url t).
Proof. intros b Hb. unfold opt_url. destruct (lua_isstring _); [by apply stage_setopt|split; [apply Hb|done]]. Qed.
Lemma debug_leads : leads i i opt_debug.
Proof. intros b Hb. unfold opt_debug. destruct (_ =? _); [done|]. apply stage_setopts; [done|plain_opts]. Qed.
Lemma dns_leads t : leads i i (opt_dns g t).
Proof.
  intros b Hb. unfold opt_dns. destruct (lua_isstring _); [by apply stage_setopt|]. destruct (negb _); [done|].
  destruct (dns_servers g); [by apply stage_setopt|done].
Qed.
Lemma lowspeed_leads : leads i i opt_lowspeed.
Proof. intros b Hb. by apply stage_setopt. Qed.
Lemma number_leads t key name d conv : plain_opt name -> leads i i (opt_number t key name d conv).
Proof.
  intros Hn b Hb. unfold opt_number. destruct (lua_isnumber _); [by apply stage_setopt|]. destruct (lua_isnil _), d; [by apply stage_setopt|done..].
Qed.
Lemma string_leads t key name : plain_opt name -> leads i i (opt_string t key name).
Proof. intros Hn b Hb. unfold opt_string. destruct (lua_isstring _); [by apply stage_setopt|done]. Qed.
Lemma path_leads t key name kept d : plain_opt name -> leads i i (opt_path t key name kept d).
Proof.
  intros Hn b Hb. unfold opt_path. destruct (lua_isstring _); [by apply stage_setopt|]. destruct (negb _); [done|by apply stage_setopt].
Qed.
Lemma stage_slists n b : stage i b -> stage i (add_slists n b).
Proof. by intros [[] ?]. Qed.
Lemma headers_leads fuel t : headers_ok fuel t -> leads i i (opt_headers tables t fuel).
Proof.
  intros Hh b Hb. unfold opt_headers. destruct (field_of t "headers") eqn:E; try (split; [apply Hb|done]); [done|].
  destruct (Hh a E) as (h & -> & Hl). eapply returns_bind; [exact Hl|]. intros [r acc] Hr.
  assert (Hs : stage i match acc with [] => b | _ => add_slists 1 b end) by (destruct acc; [done|by apply stage_slists]).
  destruct r as [e|]; [split; [apply Hs|congruence]|]. destruct acc; [done|]. by apply stage_setopt.
Qed.
Lemma global_proxy_leads : leads i i (opt_global_proxy g).
Proof.
  intros b Hb. unfold opt_global_proxy. destruct (_ =? _); [done|]. apply stage_setopts; [done|].
  assert (Hs : forall n v, plain_opt n -> Forall (fun o => plain_opt o.1) (opt_str n v)) by (intros n [v|] Hn; [by apply Forall_singleton|by apply Forall_nil]).
  apply Forall_app; split; [plain_opts|]. apply Forall_app; split; [by apply Hs|]. apply Forall_app; split; [destruct (proxyPort g =? 0); plain_opts|].
  apply Forall_app; split; [by apply Hs|]. apply Forall_app; split; [by apply Hs|]. plain_opts.
Qed.
Lemma proxytunnel_leads t : leads i i (opt_proxytunnel t).
Proof.
  intros b Hb. unfold opt_proxytunnel. destruct (lua_isnumber _); [by apply stage_setopt|]. destruct (lua_isnil _); [done|split; [apply Hb|done]].
Qed.
Lemma proxy_leads t : leads i i (opt_proxy t).
Proof.
  intros b Hb. unfold opt_proxy. destruct (_ && _); [split; [apply Hb|done]|]. destruct (_ && _); [split; [apply Hb|done]|].
  destruct (_ && _); [|done]. apply stage_setopts; [done|plain_opts].
Qed.
Lemma resolve_leads t : leads i i (opt_resolve t).
Proof. intros b Hb. unfold opt_resolve. destruct (field_of _ _); try done. apply stage_slists. by apply stage_setopt. Qed.
Lemma cookiejar_leads t : leads i i (opt_cookiejar g t).
Proof.
  intros b Hb. unfold opt_cookiejar. destruct (lua_isstring _); [apply stage_setopts; [done|plain_opts]|].
  destruct (negb _); [split; [apply Hb|done]|]. apply stage_setopts; [done|plain_opts].
Qed.
End Reading_steps.

Lemma fun_ref_insert reg r v p : reg !! r = None -> fun_ref reg p -> fun_ref (<[r := v]> reg) p.
Proof. intros Hr Hp q E. destruct (Hp q E) as [k Hk]. exists k. by rewrite lookup_insert_ne by congruence. Qed.
Lemma fun_ref_new (reg : registry_map) r k : fun_ref (<[r := RvFun k]> reg) (Some r).
Proof. intros q [= <-]. exists k. by rewrite lookup_insert_eq. Qed.
#[export] Hint Resolve fun_ref_insert fun_ref_new : fan.

Section Reading_refs.
Context {T : Type} `{LuaTable T} `{LuaAPI}.
Context (F : registry_map) (l : list positive).
Implicit Type t : T.
Implicit Type b : build.
#[local] Abbreviation leads := (leads F l).
#[local] Abbreviation stage := (stage F l).

(** One more field is done with. *)
Lemma none_later i b : none_from i b -> none_from (S i) b.
Proof. intros (N1 & N2 & N3 & N4 & N5 & N6). split_and!; intros Hi; first [apply N1; lia|apply N2; lia|apply N3; lia|apply N4; lia|apply N5; lia|apply N6; lia]. Qed.
Lemma stage_later i b : stage i b -> stage (S i) b.
Proof. intros [Hb Hn]. split; [done|by apply none_later]. Qed.
Ltac none_done := match goal with
  | Hn : none_from _ ?b |- none_from _ _ => destruct Hn as (N1 & N2 & N3 & N4 & N5 & N6); split_and!; cbn; intros Hi; first [exfalso; lia|apply N1; lia|apply N2; lia|apply N3; lia|apply N4; lia|apply N5; lia|apply N6; lia]
  end.
(** The new reference takes the place of an empty one. *)
Ltac new_ref v r E Hfr Hh :=
  match goal with Hold : holds _ _ (b_reg ?b) |- _ =>
    destruct (reg_ref v (b_reg b)) as [r ?] eqn:E; destruct (holds_ref _ _ _ _ _ _ Hold E) as (Hh & Hfr & ->)
  end.
Ltac rewire := match goal with W : wired _ _ _ _ |- wired _ _ _ _ => destruct W as [W1 W2 W3]; constructor; rewrite ?opt_of_snoc;
  repeat first [rewrite decide_True by reflexivity|rewrite decide_False by discriminate]; first [exact W1|exact W2|exact W3|reflexivity|match goal with Hp : _ = None |- _ => by rewrite Hp end] end.

Lemma onprogress_leads t : leads 0 1 (opt_onprogress t).
Proof.
  intros b Hb. pose proof Hb as [[] Hn]. assert (Hp : b_progress b = None) by (apply Hn; lia). unfold opt_onprogress.
  destruct (field_of t "onprogress") as [| | | | | |k|]; try (by apply stage_later).
  new_ref (RvFun k) r E Hfr Hh. split; [|none_done]. constructor; cbn; try by eauto with fan.
  - unfold brefs in *. cbn. by rewrite Hp in Hh.
  - rewire.
Qed.
Lemma onreceive_leads t : leads 2 3 (opt_onreceive t).
Proof.
  intros b Hb. pose proof Hb as [[] Hn]. assert (Hp : b_write b = None) by (apply Hn; lia). unfold opt_onreceive.
  destruct (field_of t "onreceive") as [| | | | | |k|]; try (split; [by constructor|discriminate]).
  - apply stage_later. split; [|done]. constructor; try done. cbn. rewire.
  - new_ref (RvFun k) r E Hfr Hh. split; [|none_done]. constructor; cbn; try by eauto with fan.
    + eapply holds_perm, Hh. unfold brefs. cbn. rewrite Hp. cbn. rewrite <- !app_assoc. cbn. solve_Permutation.
    + rewire.
Qed.
Lemma onsend_leads m t : leads 1 2 (opt_onsend m t).
Proof.
  intros b Hb. pose proof Hb as [[] Hn]. assert (Hp : b_read b = None) by (apply Hn; lia). assert (Hp2 : b_body b = None) by (apply Hn; lia).
  unfold opt_onsend. destruct (field_of t "onsend") as [| | | | | |k|]; try (split; [by constructor|discriminate]).
  - unfold opt_body. assert (Hstr : forall v, returns (if lua_isstring v then let data := default [] (lua_tolstring v) in
        let '(r, reg) := reg_ref (RvStr data) (b_reg b) in
        go (setopts [("POSTFIELDSIZE", VSize (Zlen data)); ("POSTFIELDS", VStr data)]%string (set_body (Some r) reg b))
        else Ret (Some (Fail (lit "invalid body type in table parameter")), b))
        (fun '(r, b') => match r with None => stage 2 b' | Some e => build_ok F l b' /\ e <> Endless end)).
    { intros v. destruct (lua_isstring v); [|split; [by constructor|discriminate]]. cbv zeta. set (d := default [] _).
      new_ref (RvStr d) r E Hfr Hh. apply stage_setopts; [|plain_opts]. split; [|none_done]. constructor; cbn; try by eauto with fan.
      eapply holds_perm, Hh. unfold brefs. cbn. rewrite Hp2. cbn. rewrite <- !app_assoc. solve_Permutation. }
    destruct (field_of t "body") as [| | | | | | |]; try apply Hstr.
    apply stage_later. destruct m; try done; apply stage_setopts; try done; plain_opts.
  - new_ref (RvFun k) r E Hfr Hh. split; [|none_done]. constructor; cbn; try by eauto with fan.
    + eapply holds_perm, Hh. unfold brefs. cbn. rewrite Hp. cbn. rewrite <- !app_assoc. cbn. solve_Permutation.
    + rewire.
Qed.
Lemma onheader_leads t : leads 3 4 (opt_onheader t).
Proof.
  intros b Hb. pose proof Hb as [[] Hn]. assert (Hp : b_header b = None) by (apply Hn; lia). unfold opt_onheader.
  destruct (field_of t "onheader") as [| | | | | |k|]; try (split; [by constructor|discriminate]); [by apply stage_later|].
  new_ref (RvFun k) r E Hfr Hh. split; [|none_done]. constructor; cbn; try by eauto with fan.
  eapply holds_perm, Hh. unfold brefs. cbn. rewrite Hp. cbn. rewrite <- !app_assoc. solve_Permutation.
Qed.
Lemma oncomplete_leads t : leads 4 5 (opt_oncomplete t).
Proof.
  intros b Hb. pose proof Hb as [[] Hn]. assert (Hp : b_complete b = None) by (apply Hn; lia). unfold opt_oncomplete.
  destruct (field_of t "oncomplete") as [| | | | | |k|]; try (split; [by constructor|discriminate]); [by apply stage_later|].
  new_ref (RvFun k) r E Hfr Hh. split; [|none_done]. constructor; cbn; try by eauto with fan.
  eapply holds_perm, Hh. unfold brefs. cbn. rewrite Hp. cbn. rewrite <- !app_assoc. solve_Permutation.
Qed.
End Reading_refs.

(** ** The whole table *)

Section Whole.
Context {T : Type} `{LuaTable T} `{LuaAPI} `{Allocator}.
Context (g : globals) (tables : positive -> option T).
Implicit Type t : T.

Lemma table_leads F l m fuel t : verbose_ok t -> headers_ok tables fuel t -> leads F l 0 5 (steps (table_steps g tables m fuel t)).
Proof.
  intros Hv Hh. unfold table_steps.
  eapply leads_steps; [by apply verbose_leads|]. eapply leads_steps; [apply url_leads|]. eapply leads_steps; [apply debug_leads|].
  eapply leads_steps; [apply dns_leads|]. eapply leads_steps; [apply onprogress_leads|]. eapply leads_steps; [apply lowspeed_leads|].
  do 4 (eapply leads_steps; [by apply number_leads|]). do 6 (eapply leads_steps; [by apply string_leads|]).
  do 2 (eapply leads_steps; [by apply path_leads|]). eapply leads_steps; [by apply headers_leads|].
  eapply leads_steps; [apply global_proxy_leads|]. eapply leads_steps; [apply proxytunnel_leads|]. eapply leads_steps; [apply proxy_leads|].
  eapply leads_steps; [apply onsend_leads|]. eapply leads_steps; [apply onreceive_leads|]. eapply leads_steps; [apply onheader_leads|].
  eapply leads_steps; [apply oncomplete_leads|]. eapply leads_steps; [apply resolve_leads|]. eapply leads_steps; [by apply number_leads|].
  eapply leads_steps; [apply cookiejar_leads|]. apply leads_nil.
Qed.

Definition request_ok (fuel : nat) (v : lua_value) : Prop :=
  match request_table tables v with
  | Ret (Some t) => verbose_ok t /\ headers_ok tables fuel t
  | Ret None => True
  | _ => False
  end.
Lemma new_build_ok F l m reg : holds F l reg -> stage F l 0 (new_build m reg).
Proof.
  intros Hh. unfold new_build. rewrite setopts_app. apply stage_setopts; [|destruct m; plain_opts].
  split; [|by repeat split]. by constructor.
Qed.
(** Reading a request ends; it keeps exactly the references its fields hold. *)
Lemma read_request_ok F l m fuel v reg : holds F l reg -> request_ok fuel v ->
  returns (read_request g tables m fuel v (new_build m reg)) (fun '(r, b) => build_ok F l b /\ r <> Some Endless).
Proof.
  intros Hh Hr. pose proof (new_build_ok F l m reg Hh) as Hb. unfold read_request, request_ok in *.
  destruct (request_table tables v) as [[t|]| |]; [|split; [apply Hb|done]|done|done]. cbn [mbind outcome_bind]. destruct Hr as [Hv Hhd].
  eapply returns_mono; [by apply table_leads|]. intros [[e|] b] Hs; [split; [apply Hs|intros [= ->]; by destruct Hs]|split; [apply Hs|done]].
Qed.

(** *** Headers whose keys are strings *)

Definition plain_header (kv : lua_value * lua_value) : Prop :=
  is_string kv.1 = true /\ exists v, header_number kv.2 = Ret v.
Lemma headers_loop_plain fuel pairs rest acc : Forall plain_header rest -> (length rest <= fuel)%nat ->
  returns (headers_loop fuel pairs rest acc) (fun '(r, _) => r <> Some Endless /\ forall m, r <> Some (Throw m)).
Proof.
  revert rest acc. induction fuel as [|fuel IH]; intros rest acc Hp Hf; destruct rest as [|[k v] rest]; cbn [headers_loop length] in *; try done; [lia|].
  apply Forall_cons in Hp as [(Hk & v' & Ev) Hp]. cbn [fst snd] in *. rewrite Ev. cbn [mbind outcome_bind].
  destruct k; try done. cbn [is_number]. rewrite lua_tolstring_str. destruct (lua_tolstring v') as [[|]|]; try (apply IH; [done|lia]).
  destruct (malloc_ok _); [apply IH; [done|lia]|done].
Qed.
Lemma plain_headers_ok fuel t : (forall a, field_of t "headers" = LTable a -> exists h, tables a = Some h /\ Forall plain_header (t_pairs h) /\ (length (t_pairs h) <= fuel)%nat) ->
  headers_ok tables fuel t.
Proof.
  intros Hh a Ha. destruct (Hh a Ha) as (h & Et & Hp & Hl). exists h. split; [done|].
  eapply returns_mono; [by apply headers_loop_plain|]. by intros [r acc] [? _].
Qed.

(** *** The first thing that is wrong *)

Definition unless (ok : bool) (msg : string) : option (list Z) := if ok then None else Some (lit msg).
Definition first_of (a b : option (list Z)) : option (list Z) := match a with Some _ => a | None => b end.
Definition kind_or_nil (kind : lua_value -> bool) (v : lua_value) : bool := kind v || lua_isnil v.
(** What a request is refused for, in this order. *)
Definition complaint t : option (list Z) :=
  let f := field_of t in
  foldr first_of None
    [unless (lua_isstring (f "url")) "invalid url type in table parameter";
     unless (kind_or_nil lua_istable (f "headers")) "invalid headers type in table parameter";
     unless (kind_or_nil lua_isnumber (f "proxytunnel")) "invalid proxytunnel type in table parameter";
     unless (kind_or_nil lua_isstring (f "proxy")) "invalid proxy type in table parameter";
     unless (kind_or_nil lua_isnumber (f "proxyport")) "invalid proxyport type in table parameter";
     unless (kind_or_nil lua_isfunction (f "onsend")) "invalid onsend type in table parameter";
     unless (lua_isfunction (f "onsend") || kind_or_nil lua_isstring (f "body")) "invalid body type in table parameter";
     unless (kind_or_nil lua_isfunction (f "onreceive")) "invalid onreceive type in table parameter";
     unless (kind_or_nil lua_isfunction (f "onheader")) "invalid onheader type in table parameter";
     unless (kind_or_nil lua_isfunction (f "oncomplete")) "invalid oncomplete type in table parameter";
     unless (kind_or_nil lua_isstring (f "cookiejar")) "invalid cookiejar type in table parameter"]%string.

(** A step goes on or fails, whatever was made before. *)
Definition verdict (s : step) (c : option (list Z)) : Prop := forall b, exists b', s b = Ret (fmap (M:=option) Fail c, b').
Lemma verdict_steps s ss c c' : verdict s c -> verdict (steps ss) c' -> verdict (steps (s :: ss)) (first_of c c').
Proof.
  intros Hv1 Hv2 b. destruct (Hv1 b) as [b1 E1]. cbn [steps]. rewrite E1. destruct c; cbn; [by exists b1|apply Hv2].
Qed.
Lemma verdict_pass s ss c : verdict s None -> verdict (steps ss) c -> verdict (steps (s :: ss)) c.
Proof. apply verdict_steps. Qed.
Lemma verdict_two s ss c1 c2 c3 : verdict s (first_of c1 c2) -> verdict (steps ss) c3 -> verdict (steps (s :: ss)) (first_of c1 (first_of c2 c3)).
Proof. intros Hv1 Hv2. replace (first_of c1 (first_of c2 c3)) with (first_of (first_of c1 c2) c3) by (by destruct c1). by apply verdict_steps. Qed.
Lemma go_verdict (b : build) : exists b', go b = Ret (fmap (M:=option) Fail None, b').
Proof. by exists b. Qed.
Lemma fail_verdict (b : build) msg : exists b' : build, Ret (Some (Fail msg), b) = Ret (fmap (M:=option) Fail (Some msg), b').
Proof. by exists b. Qed.

Lemma verbose_verdict t : verbose_ok t -> kind_or_nil lua_isnumber (field_of t "verbose") = true -> verdict (opt_verbose g t) None.
Proof.
  intros Hv Hn b. unfold opt_verbose, verbose_ok, kind_or_nil, lua_isnumber in *. set (v := field_of t "verbose") in *. clearbody v.
  destruct (decide (v = LNil)) as [->|Hne]; [apply go_verdict|].
  assert (Hd : exists d, luaL_checknumber v = Ret d).
  { unfold luaL_checknumber. destruct (lua_tonumberx v) as [x|] eqn:E; [by exists x|]. by destruct v. }
  destruct Hd as [x Hx]. destruct (Hv x Hne Hx) as (y & Hy & Hi).
  destruct v; [by destruct Hne|..]; rewrite Hx, Hy, Hi; apply go_verdict.
Qed.
Lemma headers_verdict fuel t : (forall a, field_of t "headers" = LTable a -> exists h l, tables a = Some h /\ headers_loop fuel (t_pairs h) (t_pairs h) [] = Ret (None, l)) ->
  verdict (opt_headers tables t fuel) (unless (kind_or_nil lua_istable (field_of t "headers")) "invalid headers type in table parameter").
Proof.
  intros Hh b. unfold opt_headers. destruct (field_of t "headers") as [| | | | |a| |] eqn:E; try apply fail_verdict; [apply go_verdict|].
  destruct (Hh a eq_refl) as (h & l & -> & ->). cbn [mbind outcome_bind]. apply go_verdict.
Qed.
Lemma url_verdict t : verdict (opt_url t) (unless (lua_isstring (field_of t "url")) "invalid url type in table parameter").
Proof. intros b. unfold opt_url. destruct (lua_isstring _); [apply go_verdict|apply fail_verdict]. Qed.
Lemma tunnel_verdict t : verdict (opt_proxytunnel t) (unless (kind_or_nil lua_isnumber (field_of t "proxytunnel")) "invalid proxytunnel type in table parameter").
Proof.
  intros b. unfold opt_proxytunnel, kind_or_nil. destruct (lua_isnumber _); [apply go_verdict|]. destruct (lua_isnil _); [apply go_verdict|apply fail_verdict].
Qed.
Lemma proxy_verdict t : verdict (opt_proxy t)
  (first_of (unless (kind_or_nil lua_isstring (field_of t "proxy")) "invalid proxy type in table parameter")
            (unless (kind_or_nil lua_isnumber (field_of t "proxyport")) "invalid proxyport type in table parameter")).
Proof.
  intros b. unfold opt_proxy, kind_or_nil. destruct (lua_isstring _), (lua_isnil _); cbn [negb andb orb unless first_of]; try apply fail_verdict.
  all: destruct (lua_isnumber _), (lua_isnil _); cbn [negb andb orb unless first_of]; try apply fail_verdict; apply go_verdict.
Qed.
Lemma onsend_verdict m t : verdict (opt_onsend m t)
  (first_of (unless (kind_or_nil lua_isfunction (field_of t "onsend")) "invalid onsend type in table parameter")
            (unless (lua_isfunction (field_of t "onsend") || kind_or_nil lua_isstring (field_of t "body")) "invalid body type in table parameter")).
Proof.
  intros b. unfold opt_onsend, kind_or_nil. destruct (field_of t "onsend") as [| | | | | |k|]; cbn [lua_isfunction lua_isnil orb unless first_of]; try apply fail_verdict.
  - unfold opt_body. assert (Hs : forall v, exists b', (if lua_isstring v then let data := default [] (lua_tolstring v) in
        let '(r, reg) := reg_ref (RvStr data) (b_reg b) in
        go (setopts [("POSTFIELDSIZE", VSize (Zlen data)); ("POSTFIELDS", VStr data)]%string (set_body (Some r) reg b))
        else Ret (Some (Fail (lit "invalid body type in table parameter")), b)) =
        Ret (fmap (M:=option) Fail (unless (lua_isstring v || false) "invalid body type in table parameter"), b')).
    { intros v. destruct (lua_isstring v); [apply go_verdict|apply fail_verdict]. }
    destruct (field_of t "body") as [| | | | | | |]; try apply Hs. rewrite orb_true_r. apply go_verdict.
  - destruct (reg_ref _ _). apply go_verdict.
Qed.
Lemma onreceive_verdict t : verdict (opt_onreceive t) (unless (kind_or_nil lua_isfunction (field_of t "onreceive")) "invalid onreceive type in table parameter").
Proof.
  intros b. unfold opt_onreceive. destruct (field_of t "onreceive") as [| | | | | |k|]; try apply fail_verdict; [apply go_verdict|].
  destruct (reg_ref _ _). apply go_verdict.
Qed.
Lemma onheader_verdict t : verdict (opt_onheader t) (unless (kind_or_nil lua_isfunction (field_of t "onheader")) "invalid onheader type in table parameter").
Proof.
  intros b. unfold opt_onheader. destruct (field_of t "onheader") as [| | | | | |k|]; try apply fail_verdict; [apply go_verdict|].
  destruct (reg_ref _ _). apply go_verdict.
Qed.
Lemma oncomplete_verdict t : verdict (opt_oncomplete t) (unless (kind_or_nil lua_isfunction (field_of t "oncomplete")) "invalid oncomplete type in table parameter").
Proof.
  intros b. unfold opt_oncomplete. destruct (field_of t "oncomplete") as [| | | | | |k|]; try apply fail_verdict; [apply go_verdict|].
  destruct (reg_ref _ _). apply go_verdict.
Qed.
Lemma cookiejar_verdict t : verdict (opt_cookiejar g t) (unless (kind_or_nil lua_isstring (field_of t "cookiejar")) "invalid cookiejar type in table parameter").
Proof.
  intros b. unfold opt_cookiejar, kind_or_nil. destruct (lua_isstring _); [apply go_verdict|]. destruct (lua_isnil _); [apply go_verdict|apply fail_verdict].
Qed.
Lemma passes : (verdict opt_debug None) /\ (forall t, verdict (opt_dns g t) None) /\ (forall t, verdict (opt_onprogress t) None) /\ verdict opt_lowspeed None /\
  (forall t key name d conv, verdict (opt_number t key name d conv) None) /\ (forall t key name, verdict (opt_string t key name) None) /\
  (forall t key name kept d, verdict (opt_path t key name kept d) None) /\ verdict (opt_global_proxy g) None /\ (forall t, verdict (opt_resolve t) None).
Proof.
  repeat split; intros; intros b; try apply go_verdict.
  - unfold opt_onprogress. destruct (field_of _ _); apply go_verdict.
  - unfold opt_resolve. destruct (field_of _ _); apply go_verdict.
Qed.

Lemma table_verdict m fuel t : verbose_ok t -> kind_or_nil lua_isnumber (field_of t "verbose") = true ->
  (forall a, field_of t "headers" = LTable a -> exists h l, tables a = Some h /\ headers_loop fuel (t_pairs h) (t_pairs h) [] = Ret (None, l)) ->
  verdict (steps (table_steps g tables m fuel t)) (complaint t).
Proof.
  intros Hv Hn Hh. destruct passes as (P1 & P2 & P3 & P4 & P5 & P6 & P7 & P8 & P9). unfold table_steps, complaint. cbn [foldr].
  apply verdict_pass; [by apply verbose_verdict|]. apply verdict_steps; [apply url_verdict|].
  do 16 (apply verdict_pass; [by auto|]). apply verdict_steps; [by apply headers_verdict|]. apply verdict_pass; [done|].
  apply verdict_steps; [apply tunnel_verdict|]. apply verdict_two; [apply proxy_verdict|]. apply verdict_two; [apply onsend_verdict|].
  apply verdict_steps; [apply onreceive_verdict|]. apply verdict_steps; [apply onheader_verdict|]. apply verdict_steps; [apply oncomplete_verdict|].
  apply verdict_pass; [by auto|]. apply verdict_pass; [by auto|]. apply verdict_steps; [apply cookiejar_verdict|]. by intros b; exists b.
Qed.
End Whole.

(** ** The types of the settings *)

(** What libcurl documents for the third argument of [curl_easy_setopt]. A
    [lua_Integer] and a [size_t] in range pass for a [long] of the same width; an
    [int] and a [double] do not, since the function is variadic. *)
Definition long_opts : list string :=
  ["POST"; "NOBODY"; "NOSIGNAL"; "VERBOSE"; "NOPROGRESS"; "LOW_SPEED_LIMIT"; "LOW_SPEED_TIME"; "TIMEOUT"; "SSL_VERIFYPEER"; "SSL_VERIFYHOST";
   "PROXYTYPE"; "PROXYPORT"; "HTTPPROXYTUNNEL"; "HEADEROPT"; "POSTFIELDSIZE"; "FORBID_REUSE"]%string.
Definition text_opts : list string :=
  ["URL"; "CUSTOMREQUEST"; "DNS_SERVERS"; "SSLCERT"; "SSLCERTPASSWD"; "SSLCERTTYPE"; "SSLKEY"; "SSLKEYPASSWD"; "SSLKEYTYPE"; "CAINFO"; "CAPATH";
   "PROXY"; "PROXYUSERNAME"; "PROXYPASSWORD"; "NOPROXY"; "POSTFIELDS"; "COOKIEJAR"; "COOKIEFILE"]%string.
Definition function_opts : list string :=
  ["WRITEFUNCTION"; "HEADERFUNCTION"; "READFUNCTION"; "PROGRESSFUNCTION"; "DEBUGFUNCTION"]%string.
Definition pointer_opts : list string :=
  ["WRITEDATA"; "HEADERDATA"; "READDATA"; "PROGRESSDATA"; "DEBUGDATA"; "ERRORBUFFER"; "PRIVATE"]%string.
Definition list_opts : list string := ["HTTPHEADER"; "RESOLVE"]%string.
Definition among (n : string) (l : list string) : bool := existsb (String.eqb n) l.
Definition fits (o : setting) : bool :=
  match o.2 with
  | VLong _ | VSize _ => among o.1 long_opts
  | VStr _ => among o.1 text_opts
  | VFun _ => among o.1 function_opts
  | VConn => among o.1 pointer_opts
  | VList _ => among o.1 list_opts
  | VShare => String.eqb o.1 "SHARE"
  | VInt _ | VDouble _ => false
  end.
(** The [int]s http.c gives to options that take a [long]: these constants and
    enumerators, and the type and the port of a proxy. *)
Definition int_constants : list (string * Z) :=
  [("POST", 0); ("POST", 1); ("NOBODY", 1); ("NOSIGNAL", 1); ("VERBOSE", 1); ("NOPROGRESS", 0); ("LOW_SPEED_LIMIT", 1);
   ("LOW_SPEED_TIME", CURL_TIMEOUT_DEFAULT); ("SSL_VERIFYPEER", 1); ("SSL_VERIFYHOST", 2); ("HEADEROPT", 1); ("POSTFIELDSIZE", 0)]%string.
Definition int_passed (o : setting) : bool :=
  match o.2 with
  | VInt n => among o.1 ["PROXYTYPE"; "PROXYPORT"]%string || existsb (fun c => String.eqb o.1 c.1 && (n =? c.2)) int_constants
  | _ => false
  end.

Definition TLS_VERIFY : list string := ["SSL_VERIFYPEER"; "SSL_VERIFYHOST"]%string.
(** A setting of the right type, or one of those [int]s, that is not about verification. *)
Definition other (o : setting) : Prop := fits o || int_passed o = true /\ among o.1 TLS_VERIFY = false.
Definition appended (P : setting -> Prop) (b b' : build) : Prop := exists os, b_opts b' = b_opts b ++ os /\ Forall P os.
Definition appends (s : step) : Prop := forall b r b', s b = Ret (r, b') -> appended other b b'.

Lemma appended_none P b b' : b_opts b' = b_opts b -> appended P b b'.
Proof. intros E. exists []. by rewrite app_nil_r. Qed.
Lemma appended_opts P b b0 os : b_opts b0 = b_opts b -> Forall P os -> appended P b (setopts os b0).
Proof. intros E Ho. exists os. by rewrite setopts_opts, E. Qed.
Lemma appended_opt P b b0 n v : b_opts b0 = b_opts b -> P (n, v) -> appended P b (setopt n v b0).
Proof. intros E Ho. apply (appended_opts P b b0 [(n, v)]); [done|by apply Forall_singleton]. Qed.
Lemma appended_trans P b1 b2 b3 : appended P b1 b2 -> appended P b2 b3 -> appended P b1 b3.
Proof. intros (o1 & E1 & H1) (o2 & E2 & H2). exists (o1 ++ o2). rewrite E2, E1, <- app_assoc. split; [done|by apply Forall_app]. Qed.
Lemma appends_steps s ss : appends s -> appends (steps ss) -> appends (steps (s :: ss)).
Proof.
  intros H1 H2 b r b' E. cbn [steps] in E. destruct (s b) as [[r1 b1]| |] eqn:E1; [|done|done]. cbn in E. apply H1 in E1.
  destruct r1; [by injection E as _ <-|]. eapply appended_trans; [done|by eapply H2].
Qed.
Lemma appends_nil : appends (steps []).
Proof. intros b r b' [= _ <-]. by apply appended_none. Qed.
Lemma steps_app l1 l2 b : steps (l1 ++ l2) b = ('(r, b) ← steps l1 b; match r with None => steps l2 b | Some _ => Ret (r, b) end).
Proof.
  revert b. induction l1 as [|s l1 IH]; intros b; [done|]. cbn [app steps]. destruct (s b) as [[[e|] b1]| |]; cbn; done.
Qed.
Ltac others := repeat (apply Forall_cons; split); try apply Forall_nil; split; reflexivity.
Ltac one_opt := apply appended_opt; [done|split; reflexivity].
Ltac some_opts := apply appended_opts; [done|others].
Ltac no_opt := by apply appended_none.

Lemma ret_inv {A} (x y : A) (b b' : build) : Ret (x, b) = Ret (y, b') -> b' = b.
Proof. by intros [= _ <-]. Qed.

Section Typed.
Context {T : Type} `{LuaTable T} `{LuaAPI} `{Allocator}.
Context (g : globals) (tables : positive -> option T).
Implicit Type t : T.

Lemma verbose_appends t : appends (opt_verbose g t).
Proof.
  intros b r b' E. unfold opt_verbose in E. assert (Hd : forall d, match d_trunc d with Some n => if in_int32 n then go (set_verbose n b) else UB | None => UB end = Ret (r, b') -> appended other b b').
  { intros d Ed. destruct (d_trunc d) as [n|]; [|done]. destruct (in_int32 n); [|done]. apply ret_inv in Ed as ->. no_opt. }
  destruct (field_of t "verbose"); [apply ret_inv in E as ->; no_opt|..]; (destruct (luaL_checknumber _) as [x| |]; [by apply (Hd x)|apply ret_inv in E as ->; no_opt|done]).
Qed.
Lemma url_appends t : appends (opt_url t).
Proof. intros b r b' E. unfold opt_url in E. destruct (lua_isstring _); apply ret_inv in E as ->; [one_opt|no_opt]. Qed.
Lemma debug_appends : appends opt_debug.
Proof. intros b r b' E. unfold opt_debug in E. apply ret_inv in E as ->. destruct (_ =? _); [no_opt|some_opts]. Qed.
Lemma dns_appends t : appends (opt_dns g t).
Proof.
  intros b r b' E. unfold opt_dns in E. apply ret_inv in E as ->. destruct (lua_isstring _); [one_opt|]. destruct (negb _); [no_opt|].
  destruct (dns_servers g); [one_opt|no_opt].
Qed.
Lemma onprogress_appends t : appends (opt_onprogress t).
Proof. intros b r b' E. unfold opt_onprogress in E. destruct (field_of t _); try (apply ret_inv in E as ->; no_opt). apply ret_inv in E as ->. some_opts. Qed.
Lemma lowspeed_appends : appends opt_lowspeed.
Proof. intros b r b' E. apply ret_inv in E as ->. one_opt. Qed.
Lemma number_appends t key name d : other (name, VLong 0) -> match d with Some v => other (name, v) | None => True end -> appends (opt_number t key name d to_long).
Proof.
  intros [Ho1 Ho2] Hd b r b' E. unfold opt_number in E. apply ret_inv in E as ->. destruct (lua_isnumber _); [by apply appended_opt|].
  destruct (lua_isnil _); [|no_opt]. destruct d; [by apply appended_opt|no_opt].
Qed.
Lemma string_appends t key name : other (name, VStr []) -> appends (opt_string t key name).
Proof. intros [Ho1 Ho2] b r b' E. unfold opt_string in E. apply ret_inv in E as ->. destruct (lua_isstring _); [by apply appended_opt|no_opt]. Qed.
Lemma path_appends t key name kept d : other (name, VStr []) -> appends (opt_path t key name kept d).
Proof.
  intros [Ho1 Ho2] b r b' E. unfold opt_path in E. apply ret_inv in E as ->. destruct (lua_isstring _); [by apply appended_opt|].
  destruct (negb _); [no_opt|by apply appended_opt].
Qed.
Lemma headers_appends fuel t : appends (opt_headers tables t fuel).
Proof.
  intros b r b' E. unfold opt_headers in E. destruct (field_of t _) as [| | | | |a| |]; try (apply ret_inv in E as ->; no_opt).
  destruct (tables a); [|done]. destruct (headers_loop _ _ _ _) as [[e l]| |]; [|done|done]. cbn in E.
  destruct e; apply ret_inv in E as ->; destruct l; try no_opt. one_opt.
Qed.
Lemma opt_str_other n v : other (n, VStr []) -> Forall other (opt_str n v).
Proof. intros [Ho1 Ho2]. destruct v; [by apply Forall_singleton|by apply Forall_nil]. Qed.
Lemma global_proxy_appends : appends (opt_global_proxy g).
Proof.
  intros b r b' E. unfold opt_global_proxy in E. apply ret_inv in E as ->. destruct (_ =? _); [no_opt|]. apply appended_opts; [done|].
  apply Forall_app; split; [others|]. apply Forall_app; split; [by apply opt_str_other|]. apply Forall_app; split; [destruct (proxyPort g =? 0); [by apply Forall_nil|others]|].
  apply Forall_app; split; [by apply opt_str_other|]. apply Forall_app; split; [by apply opt_str_other|]. others.
Qed.
Lemma tunnel_appends t : appends (opt_proxytunnel t).
Proof. intros b r b' E. unfold opt_proxytunnel in E. destruct (lua_isnumber _); [|destruct (lua_isnil _)]; apply ret_inv in E as ->; [one_opt|no_opt|no_opt]. Qed.
Lemma proxy_appends t : appends (opt_proxy t).
Proof.
  intros b r b' E. unfold opt_proxy in E. destruct (_ && _); [apply ret_inv in E as ->; no_opt|]. destruct (_ && _); [apply ret_inv in E as ->; no_opt|].
  apply ret_inv in E as ->. destruct (_ && _); [some_opts|no_opt].
Qed.
Lemma onsend_appends m t : appends (opt_onsend m t).
Proof.
  intros b r b' E. unfold opt_onsend in E. destruct (field_of t "onsend") as [| | | | | |k|]; try (apply ret_inv in E as ->; no_opt); [|apply ret_inv in E as ->; some_opts].
  unfold opt_body in E. assert (Hs : forall v, (if lua_isstring v then let data := default [] (lua_tolstring v) in
        let '(r, reg) := reg_ref (RvStr data) (b_reg b) in
        go (setopts [("POSTFIELDSIZE", VSize (Zlen data)); ("POSTFIELDS", VStr data)]%string (set_body (Some r) reg b))
        else Ret (Some (Fail (lit "invalid body type in table parameter")), b)) = Ret (r, b') -> appended other b b').
  { intros v Ev. destruct (lua_isstring v); apply ret_inv in Ev as ->; [some_opts|no_opt]. }
  destruct (field_of t "body"); try (match type of E with context [lua_isstring ?v] => exact (Hs v E) end). apply ret_inv in E as ->. destruct m; try no_opt; some_opts.
Qed.
Lemma onreceive_appends t : appends (opt_onreceive t).
Proof. intros b r b' E. unfold opt_onreceive in E. destruct (field_of t _); apply ret_inv in E as ->; try no_opt; some_opts. Qed.
Lemma onheader_appends t : appends (opt_onheader t).
Proof. intros b r b' E. unfold opt_onheader in E. destruct (field_of t _); apply ret_inv in E as ->; no_opt. Qed.
Lemma oncomplete_appends t : appends (opt_oncomplete t).
Proof. intros b r b' E. unfold opt_oncomplete in E. destruct (field_of t _); apply ret_inv in E as ->; no_opt. Qed.
Lemma resolve_appends t : appends (opt_resolve t).
Proof. intros b r b' E. unfold opt_resolve in E. destruct (field_of t _); apply ret_inv in E as ->; try no_opt. by exists [("RESOLVE"%string, VList [cstr s])]; split; [|others]. Qed.
Lemma cookiejar_appends t : appends (opt_cookiejar g t).
Proof. intros b r b' E. unfold opt_cookiejar in E. destruct (lua_isstring _); [|destruct (negb _)]; apply ret_inv in E as ->; try no_opt; some_opts. Qed.
End Typed.

(** ** What is proved of requests *)

Section Requests.
Context {T : Type} `{LuaTable T} `{LuaAPI} `{Allocator}.
Context (g : globals) (tables : positive -> option T).
Implicit Type t : T.

(** The steps before and after those of the two options that verify a certificate. *)
Definition steps_before t : list step :=
  [opt_verbose g t; opt_url t; opt_debug; opt_dns g t; opt_onprogress t; opt_lowspeed;
   opt_number t "timeout" "LOW_SPEED_TIME" (Some (VInt CURL_TIMEOUT_DEFAULT)) to_long; opt_number t "conntimeout" "TIMEOUT" None to_long].
Definition steps_after (m : method) (fuel : nat) t : list step :=
  [opt_string t "sslcert" "SSLCERT"; opt_string t "sslcertpasswd" "SSLCERTPASSWD"; opt_string t "sslcerttype" "SSLCERTTYPE";
   opt_string t "sslkey" "SSLKEY"; opt_string t "sslkeypasswd" "SSLKEYPASSWD"; opt_string t "sslkeytype" "SSLKEYTYPE";
   opt_path t "cainfo" "CAINFO" (KEY_CAINFO g) (lit "cert.pem"); opt_path t "capath" "CAPATH" (KEY_CAPATH g) (lit ".");
   opt_headers tables t fuel; opt_global_proxy g; opt_proxytunnel t; opt_proxy t;
   opt_onsend m t; opt_onreceive t; opt_onheader t; opt_oncomplete t; opt_resolve t;
   opt_number t "forbid_reuse" "FORBID_REUSE" None to_long; opt_cookiejar g t].
Lemma before_appends t : appends (steps (steps_before t)).
Proof.
  repeat (apply appends_steps); try apply appends_nil.
  - apply verbose_appends.
  - apply url_appends.
  - apply debug_appends.
  - apply dns_appends.
  - apply onprogress_appends.
  - apply lowspeed_appends.
  - apply number_appends; by split.
  - by apply number_appends.
Qed.
Lemma after_appends m fuel t : appends (steps (steps_after m fuel t)).
Proof.
  repeat (apply appends_steps); try apply appends_nil; try (by apply string_appends); try (by apply path_appends).
  - apply headers_appends.
  - apply global_proxy_appends.
  - apply tunnel_appends.
  - apply proxy_appends.
  - apply onsend_appends.
  - apply onreceive_appends.
  - apply onheader_appends.
  - apply oncomplete_appends.
  - apply resolve_appends.
  - by apply number_appends.
  - apply cookiejar_appends.
Qed.

Lemma opt_of_other name os : Forall other os -> among name TLS_VERIFY = true -> opt_of name os = None.
Proof.
  intros Ho Hn. induction Ho as [|[n v] os [_ Ho] _ IH]; [done|]. cbn [opt_of]. rewrite IH. rewrite decide_False; [done|].
  intros ->. cbn [fst] in Ho. congruence.
Qed.
Lemma opt_of_app name l1 l2 : opt_of name (l1 ++ l2) = match opt_of name l2 with Some v => Some v | None => opt_of name l1 end.
Proof. induction l1 as [|[n v] l1 IH]; cbn [app opt_of]; [by destruct (opt_of name l2)|]. rewrite IH. by destruct (opt_of name l2). Qed.

(** What verification is set to by a field. *)
Definition verify (v : lua_value) (d : Z) : option optval :=
  if lua_isnumber v then Some (to_double v) else if lua_isnil v then Some (VInt d) else None.
Definition verify_opts t : list setting :=
  match verify (field_of t "ssl_verifypeer") 1 with Some v => [("SSL_VERIFYPEER"%string, v)] | None => [] end ++
  match verify (field_of t "ssl_verifyhost") 2 with Some v => [("SSL_VERIFYHOST"%string, v)] | None => [] end.

Lemma read_request_opts m fuel t b0 b : (forall n, among n TLS_VERIFY = true -> opt_of n (b_opts b0) = None) ->
  steps (table_steps g tables m fuel t) b0 = Ret (None, b) ->
  exists o1 o2, b_opts b = b_opts b0 ++ o1 ++ verify_opts t ++ o2 /\ Forall other o1 /\ Forall other o2.
Proof.
  intros _ E.
  change (table_steps g tables m fuel t) with (steps_before t ++ ([opt_number t "ssl_verifypeer" "SSL_VERIFYPEER" (Some (VInt 1)) to_double;
    opt_number t "ssl_verifyhost" "SSL_VERIFYHOST" (Some (VInt 2)) to_double] ++ steps_after m fuel t)) in E.
  rewrite steps_app in E. destruct (steps (steps_before t) b0) as [[[e|] b1]| |] eqn:E1; try done. cbn [mbind outcome_bind] in E.
  apply before_appends in E1 as (o1 & E1 & Ho1). rewrite steps_app in E.
  assert (Ev : exists b2, steps [opt_number t "ssl_verifypeer" "SSL_VERIFYPEER" (Some (VInt 1)) to_double;
    opt_number t "ssl_verifyhost" "SSL_VERIFYHOST" (Some (VInt 2)) to_double] b1 = Ret (None, b2) /\ b_opts b2 = b_opts b1 ++ verify_opts t).
  { eexists. split; [reflexivity|]. unfold verify_opts, verify.
    destruct (lua_isnumber (field_of t "ssl_verifypeer")), (lua_isnil (field_of t "ssl_verifypeer")),
      (lua_isnumber (field_of t "ssl_verifyhost")), (lua_isnil (field_of t "ssl_verifyhost")); cbn; rewrite <- ?app_assoc, ?app_nil_r; done. }
  destruct Ev as (b2 & Ev & E2). rewrite Ev in E. cbn [mbind outcome_bind] in E. apply after_appends in E as (o2 & E3 & Ho2).
  exists o1, o2. rewrite E3, E2, E1, <- !app_assoc. done.
Qed.

(** C28: Every setting of a request that was read is given to libcurl with an argument of the type it documents, with two
    exceptions.  Constants, and the type and the port of a proxy, are plain [int]s where libcurl reads a [long]; that is exactly
    the list [int_passed], and every request has some of it ([NOSIGNAL]).  A number in [ssl_verifypeer] or [ssl_verifyhost] is
    passed as a double where libcurl reads a long.  A script that says nothing about verification asks for both, whatever else
    it asks for. *)
Theorem http_settings_typed m fuel v reg b t : request_table tables v = Ret (Some t) ->
  read_request g tables m fuel v (new_build m reg) = Ret (None, b) ->
  (forall n a, (n, a) ∈ b_opts b -> fits (n, a) = true \/ int_passed (n, a) = true \/
     (lua_isnumber (field_of t "ssl_verifypeer") = true /\ (n, a) = ("SSL_VERIFYPEER"%string, to_double (field_of t "ssl_verifypeer"))) \/
     (lua_isnumber (field_of t "ssl_verifyhost") = true /\ (n, a) = ("SSL_VERIFYHOST"%string, to_double (field_of t "ssl_verifyhost")))) /\
  ("NOSIGNAL"%string, VInt 1) ∈ b_opts b /\
  opt_of "SSL_VERIFYPEER" (b_opts b) = verify (field_of t "ssl_verifypeer") 1 /\
  opt_of "SSL_VERIFYHOST" (b_opts b) = verify (field_of t "ssl_verifyhost") 2.
Proof.
  intros Et E. unfold read_request in E. rewrite Et in E. cbn [mbind outcome_bind] in E.
  assert (Hb : b_opts (new_build m reg) = first_opts ++ method_opts m) by (unfold new_build; by rewrite setopts_opts).
  assert (Hf : Forall other (first_opts ++ method_opts m)) by (apply Forall_app; split; [others|destruct m; others]).
  apply read_request_opts in E as (o1 & o2 & Eo & Ho1 & Ho2); [|by intros n Hn; rewrite Hb; apply opt_of_other].
  rewrite Eo, Hb. split; [|split].
  - intros n a Hin. rewrite !elem_of_app in Hin.
    assert (Hother : forall l, Forall other l -> (n, a) ∈ l -> fits (n, a) = true \/ int_passed (n, a) = true).
    { intros l Hl Hx. apply orb_true_iff. by apply (proj1 (Forall_forall _ _) Hl). }
    assert (Hleft : forall P : Prop, fits (n, a) = true \/ int_passed (n, a) = true -> fits (n, a) = true \/ int_passed (n, a) = true \/ P) by tauto.
    destruct Hin as [Hin|[Hx|[Hx|Hx]]].
    + apply Hleft, (Hother _ Hf), elem_of_app, Hin.
    + by apply Hleft, (Hother o1).
    + unfold verify_opts, verify in Hx. apply elem_of_app in Hx as [Hx|Hx].
      * destruct (lua_isnumber _); [apply list_elem_of_singleton in Hx; by right; right; left|].
        destruct (lua_isnil _); [apply list_elem_of_singleton in Hx as [= -> ->]; by right; left|by apply elem_of_nil in Hx].
      * destruct (lua_isnumber (field_of t "ssl_verifyhost")); [apply list_elem_of_singleton in Hx; by right; right; right|].
        destruct (lua_isnil _); [apply list_elem_of_singleton in Hx as [= -> ->]; by right; left|by apply elem_of_nil in Hx].
    + by apply Hleft, (Hother o2).
  - rewrite !elem_of_app. left. left. unfold first_opts. do 4 right. by left.
  - rewrite !opt_of_app, !(opt_of_other _ o1), !(opt_of_other _ o2) by done.
    assert (Hf1 : forall n, among n TLS_VERIFY = true -> match opt_of n (method_opts m) with Some v => Some v | None => opt_of n first_opts end = None).
    { intros n Hn. rewrite <- opt_of_app. by apply opt_of_other. }
    unfold verify_opts. rewrite !opt_of_app. rewrite !Hf1 by done.
    destruct (verify (field_of t "ssl_verifypeer") 1), (verify (field_of t "ssl_verifyhost") 2); by split.
Qed.

(** A request whose headers and [verbose] can be read is refused exactly for the first thing in the order of
    [complaint] that is wrong with it, and otherwise read to the end. *)
Theorem http_request_errors m fuel v reg t : request_table tables v = Ret (Some t) -> verbose_ok t ->
  kind_or_nil lua_isnumber (field_of t "verbose") = true ->
  (forall a, field_of t "headers" = LTable a -> exists h l, tables a = Some h /\ headers_loop fuel (t_pairs h) (t_pairs h) [] = Ret (None, l)) ->
  exists b, read_request g tables m fuel v (new_build m reg) = Ret (fmap (M:=option) Fail (complaint t), b).
Proof.
  intros Et Hv Hn Hh. unfold read_request. rewrite Et. cbn [mbind outcome_bind]. by apply table_verdict.
Qed.
End Requests.

(** ** Concrete requests *)

#[export] Existing Instances assoc_table plain_lua zero_alloc.
Definition sample_globals : globals := mk_globals 0 None INT16_MAX None 0 None None None None None.
Definition key (s : string) : lua_value := LStr (lit s).
Definition sample_request : alist :=
  al_set (al_set (al_set [] (key "url") (key "https://h/")) (key "ssl_verifypeer") (LInt 0)) (key "headers") (LTable 2).
Definition refused_request : alist := al_set (al_set (al_set [] (key "url") (key "https://h/")) (key "onsend") (LBool true)) (key "cookiejar") (LBool true).
Definition sample_tables (a : positive) : option alist :=
  Some (match a with 1%positive => sample_request | 2%positive => al_set [] (key "Accept") (key "*/*") | _ => refused_request end).

Lemma http_settings_typed_witness : exists b,
  read_request sample_globals sample_tables HTTP_GET 10 (LTable 1) (new_build HTTP_GET ∅) = Ret (None, b) /\
  opt_of "SSL_VERIFYPEER" (b_opts b) = Some (VDouble 0) /\ opt_of "SSL_VERIFYHOST" (b_opts b) = Some (VInt 2).
Proof.
  destruct (read_request sample_globals sample_tables HTTP_GET 10 (LTable 1) (new_build HTTP_GET ∅)) as [[[e|] b]| |] eqn:E; [vm_compute in E; discriminate E| |vm_compute in E; discriminate E..].
  exists b. split; [reflexivity|]. assert (Et : request_table sample_tables (LTable 1) = Ret (Some sample_request)) by reflexivity.
  destruct (http_settings_typed _ _ _ _ _ _ _ _ Et E) as (_ & _ & Hp & Hh). split; [rewrite Hp|rewrite Hh]; vm_compute; reflexivity.
Defined.

Lemma http_request_errors_witness : exists b,
  read_request sample_globals sample_tables HTTP_POST 10 (LTable 3) (new_build HTTP_POST ∅) = Ret (Some (Fail (lit "invalid onsend type in table parameter")), b).
Proof.
  destruct (http_request_errors sample_globals sample_tables HTTP_POST 10 (LTable 3) ∅ refused_request) as [b E].
  - reflexivity.
  - intros d Hd. destruct (Hd eq_refl).
  - reflexivity.
  - intros a Ha. vm_compute in Ha. discriminate Ha.
  - exists b. exact E.
Defined.
