(* ===== verification/HttpClient.v ===== *)
(** * src/http.c: requests in flight

    [http_getpost] makes a connection (ConnInfo) and hands it to libcurl, which
    calls the functions [filldata] or [onwrite], [fillheader], [onprogress] and
    [onread] while the transfer goes on; [timer_check_multi_info_cb] completes what
    libcurl says is done, [resume_cb] resumes the coroutine that waits, and
    [cleanup_http_curl] ends everything that is left.  libcurl is not under src/:
    which callback it calls when, and what it answers, are arguments.  The contents
    of the tables [headers] and [response] are kept with the connection; scripts are
    the requests they make.  Memory that is freed, references that are not held and
    handles that are gone have no meaning. *)

From S2P Require Import Prelude Lua LuaState Double TcpdConfig ByteArray Evhttp Holds HttpHeader HttpOptions.

(** ** Connections *)

(** [c_start]: the function on the stack of a coroutine that was made for
    [oncomplete]. *)
Record ConnInfo : Type := mk_conn {
  c_opts : list setting;
  input : BYTEARRAY;
  c_L : positive;
  c_start : option positive;
  completed : bool;
  onprogressref : option positive;
  onheaderref : option positive;
  onwriteref : option positive;
  onreadref : option positive;
  coref : option positive;
  bodyref : option positive;
  headerref : positive;
  retref : positive;
  c_slists : nat;
  next : option positive;
  prev : option positive;
  c_seen : hstate
}.
Section Conn.
Implicit Type c : ConnInfo.
Definition set_links nx pv c : ConnInfo := mk_conn (c_opts c) (input c) (c_L c) (c_start c) (completed c) (onprogressref c) (onheaderref c) (onwriteref c) (onreadref c)
  (coref c) (bodyref c) (headerref c) (retref c) (c_slists c) nx pv (c_seen c).
Definition set_seen s c : ConnInfo := mk_conn (c_opts c) (input c) (c_L c) (c_start c) (completed c) (onprogressref c) (onheaderref c) (onwriteref c) (onreadref c)
  (coref c) (bodyref c) (headerref c) (retref c) (c_slists c) (next c) (prev c) s.
Definition set_input i c : ConnInfo := mk_conn (c_opts c) i (c_L c) (c_start c) (completed c) (onprogressref c) (onheaderref c) (onwriteref c) (onreadref c)
  (coref c) (bodyref c) (headerref c) (retref c) (c_slists c) (next c) (prev c) (c_seen c).
Definition set_completed c : ConnInfo := mk_conn (c_opts c) (input c) (c_L c) (c_start c) true (onprogressref c) (onheaderref c) (onwriteref c) (onreadref c)
  (coref c) (bodyref c) (headerref c) (retref c) (c_slists c) (next c) (prev c) (c_seen c).
End Conn.

(** The table a request is answered with. *)
Record response : Type := mk_response {
  r_headers : headers;
  r_charset : option (list Z);
  r_error : option (list Z);
  r_cookies : option (list (list Z));
  r_code : Z;
  r_times : list (string * Z);
  r_body : option (list Z)
}.
(** [ri_conn]: the connection it was made for. *)
Record ResumeInfo : Type := mk_resume { ri_conn : positive; ri_L : positive; ri_start : option positive; ri_coref : option positive; ri_response : response }.

(** [w_conns]: the ConnInfos that are allocated; [w_easy], [multi]: libcurl's handles
    (a connection's handle has its number) and what was added to the multi handle;
    [w_slists]: the lists of strings; [w_resume]: the timers that resume; [timers]:
    [timer_event] and [timer_check_multi_info] are there; [w_resumed]: what was
    resumed; [w_calls]: the functions called. *)
Record world : Type := mk_world {
  w_reg : registry_map;
  w_conns : gmap positive ConnInfo;
  inflight_head : option positive;
  w_easy : gset positive;
  multi : option (gset positive);
  w_slists : nat;
  w_resume : gmap positive ResumeInfo;
  timers : bool;
  w_thread : positive;
  w_resumed : list ResumeInfo;
  w_calls : list (positive * list lua_value)
}.
Section World.
Implicit Type w : world.
Definition set_reg r w : world := mk_world r (w_conns w) (inflight_head w) (w_easy w) (multi w) (w_slists w) (w_resume w) (timers w) (w_thread w) (w_resumed w) (w_calls w).
Definition set_conns cs h w : world := mk_world (w_reg w) cs h (w_easy w) (multi w) (w_slists w) (w_resume w) (timers w) (w_thread w) (w_resumed w) (w_calls w).
Definition set_curl e m n w : world := mk_world (w_reg w) (w_conns w) (inflight_head w) e m n (w_resume w) (timers w) (w_thread w) (w_resumed w) (w_calls w).
Definition set_resume r t w : world := mk_world (w_reg w) (w_conns w) (inflight_head w) (w_easy w) (multi w) (w_slists w) r t (w_thread w) (w_resumed w) (w_calls w).
Definition new_thread w : positive * world :=
  (w_thread w, mk_world (w_reg w) (w_conns w) (inflight_head w) (w_easy w) (multi w) (w_slists w) (w_resume w) (timers w) (Pos.succ (w_thread w)) (w_resumed w) (w_calls w)).
Definition log_resumed x w : world := mk_world (w_reg w) (w_conns w) (inflight_head w) (w_easy w) (multi w) (w_slists w) (w_resume w) (timers w) (w_thread w) (w_resumed w ++ [x]) (w_calls w).
Definition log_call x w : world := mk_world (w_reg w) (w_conns w) (inflight_head w) (w_easy w) (multi w) (w_slists w) (w_resume w) (timers w) (w_thread w) (w_resumed w) (w_calls w ++ [x]).

Definition ref v w : positive * world := let '(r, reg) := reg_ref v (w_reg w) in (r, set_reg reg w).
Definition unref r w : outcome world := reg ← reg_unref r (w_reg w); Ret (set_reg reg w).
(** [if (ref != LUA_NOREF) luaL_unref(...)] *)
Definition unref_opt (r : option positive) w : outcome world := match r with Some r => unref r w | None => Ret w end.
Fixpoint unref_all (l : list (option positive)) w : outcome world :=
  match l with [] => Ret w | r :: l => w ← unref_opt r w; unref_all l w end.

Definition conn_of (c : positive) w : outcome ConnInfo := match w_conns w !! c with Some k => Ret k | None => UB end.
Definition put_conn (c : positive) (k : ConnInfo) w : world := set_conns (<[c := k]> (w_conns w)) (inflight_head w) w.
Definition on_conn (c : positive) (f : ConnInfo -> ConnInfo) w : outcome world := k ← conn_of c w; Ret (put_conn c (f k) w).
Definition free_conn (c : positive) w : outcome world :=
  _ ← conn_of c w; Ret (set_conns (delete c (w_conns w)) (inflight_head w) w).

(** *** The list of requests in flight *)

Definition inflight_add (c : positive) w : outcome world :=
  w ← on_conn c (set_links (inflight_head w) None) w;
  w ← (match inflight_head w with Some h => on_conn h (fun k => set_links (next k) (Some c) k) w | None => Ret w end);
  Ret (set_conns (w_conns w) (Some c) w).
Definition inflight_remove (c : positive) w : outcome world :=
  k ← conn_of c w;
  w ← (match prev k with
       | Some p => on_conn p (fun q => set_links (next k) (prev q) q) w
       | None => Ret (set_conns (w_conns w) (next k) w)
       end);
  w ← (match next k with Some n => on_conn n (fun q => set_links (next q) (prev k) q) w | None => Ret w end);
  on_conn c (set_links None None) w.

(** *** libcurl's handles *)

Definition easy_cleanup (c : positive) w : outcome world :=
  if decide (c ∈ w_easy w) then Ret (set_curl (w_easy w ∖ {[c]}) (multi w) (w_slists w) w) else UB.
Definition multi_remove (c : positive) w : outcome world :=
  match multi w with
  | Some m => if decide (c ∈ m) then Ret (set_curl (w_easy w) (Some (m ∖ {[c]})) (w_slists w) w) else UB
  | None => UB
  end.
Definition slist_free (n : nat) w : outcome world :=
  if decide (n <= w_slists w)%nat then Ret (set_curl (w_easy w) (multi w) (w_slists w - n) w) else UB.
End World.

(** ** A request *)

(** The call: method, argument, coroutine; what libcurl and Lua answer. *)
Record request : Type := mk_request {
  q_method : method;
  q_arg : lua_value;
  q_L : positive;
  q_easy : bool;
  q_refused : option (list Z);
  q_yields : bool
}.
Inductive answer : Type := ARaise (msg : list Z) | ANothing | AYield | AEndless.

Section Client.
Context {T : Type} `{LuaTable T} `{LuaAPI} `{Allocator}.
Context (g : globals) (tables : positive -> option T) (fuel : nat).
Implicit Type w : world.

(** The label ERROR: the body and the lists of strings are not given back. *)
Definition request_error (c : positive) (b : build) (co : option positive) (headerref retref : positive) (msg : list Z) w : outcome (answer * world) :=
  w ← easy_cleanup c w;
  w ← unref_all [b_progress b; b_header b; b_read b; b_write b; co; b_complete b; Some headerref; Some retref] w;
  w ← free_conn c w;
  Ret (ARaise msg, w).
(** From the table that was read to the transfer. *)
Definition request_start (q : request) (c : positive) (k : ConnInfo) (b : build) w : outcome (answer * world) :=
  let '(L, w) := match b_complete b with Some _ => new_thread w | None => (q_L q, w) end in
  let start := match b_complete b with Some r => match w_reg w !! r with Some (RvFun k) => Some k | _ => None end | None => None end in
  let '(co, w) := ref (RvThread L) w in
  let m := default ∅ (multi w) in
  let w := put_conn c (mk_conn (b_opts b ++ [("SHARE"%string, VShare)]) (input k) L start false (b_progress b) (b_header b) (b_write b) (b_read b)
                         (Some co) (b_body b) (headerref k) (retref k) (b_slists b) None None (c_seen k)) (set_curl (w_easy w) (Some m) (w_slists w) w) in
  match q_refused q with
  | Some msg => request_error c b (Some co) (headerref k) (retref k) msg w
  | None =>
      let w := set_curl (w_easy w) (Some ({[c]} ∪ m)) (w_slists w) w in
      w ← inflight_add c w;
      match b_complete b with
      | Some r => w ← unref r w; Ret (ANothing, w)
      | None => Ret (AYield, w)
      end
  end.
Definition http_getpost (q : request) w : outcome (answer * world) :=
  let c := fresh (dom (w_conns w) ∪ w_easy w) in
  let '(_, ba) := bytearray_alloc (mk_ba 0 0 0 None 0 false false) 1024 in
  if negb (q_easy q) then Ret (ARaise (lit "curl_easy_init() failed"), w)
  else
    let w := set_curl ({[c]} ∪ w_easy w) (multi w) (w_slists w) w in
    let '(hr, w) := ref (RvTable (c~0)) w in
    let '(rr, w) := ref (RvTable (c~1)) w in
    let k := mk_conn [] ba (q_L q) None false None None None None None None hr rr 0 None None (mk_hs ∅ None) in
    let w := put_conn c k w in
    '(r, b) ← read_request g tables (q_method q) fuel (q_arg q) (new_build (q_method q) (w_reg w));
    let w := set_curl (w_easy w) (multi w) (w_slists w + b_slists b) (set_reg (b_reg b) w) in
    match r with
    | Some (Fail msg) => request_error c b None hr rr msg w
    | Some (Throw msg) => Ret (ARaise msg, w)
    | Some Endless => Ret (AEndless, w)
    | None => request_start q c k b w
    end.
(** [http_get] and the others: a yield that is not possible raises an error. *)
Definition http_call (q : request) w : outcome (answer * world) :=
  '(a, w) ← http_getpost q w;
  Ret (match a with AYield => if q_yields q then AYield else ARaise (lit "attempt to yield from outside a coroutine") | a => a end, w).

(** What a script does while it runs: requests, one after the other. *)
Fixpoint run_script (l : list request) w : outcome world :=
  match l with
  | [] => Ret w
  | q :: l => '(a, w) ← http_call q w; match a with AEndless => Ret w | _ => run_script l w end
  end.

(** ** The callbacks *)

(** [lua_rawgeti] and [lua_isfunction], then [lua_pcall]; [None]: no function. *)
Definition call_ref (r : option positive) (args : list lua_value) (script : list request) w : outcome (bool * world) :=
  match r with
  | None => Ret (false, w)
  | Some r =>
      match w_reg w !! r with
      | Some (RvFun k) => w ← run_script script (log_call (k, args) w); Ret (true, w)
      | _ => Ret (false, w)
      end
  end.

(** What the script's function gives: an error, or values. *)
Inductive presult : Type := PError | PValues (l : list lua_value).
Definition first_value (l : list lua_value) : lua_value := nth 0 l LNil.

Inductive callback : Type :=
  | CbHeader (line after : list Z) (code : Z) (script : list request)
  | CbData (data : list Z) (p : presult) (script : list request)
  | CbProgress (dltotal dlnow ultotal ulnow : Z) (p : presult) (script : list request)
  | CbRead (size : Z) (frame : list lua_value) (p : presult) (script : list request).

Definition CURL_READFUNC_ABORT : Z := 268435456.

Definition filldata (c : positive) (k : ConnInfo) (data : list Z) w : outcome (Z * world) :=
  if completed k then Ret (0, w)
  else '(_, ba) ← bytearray_writebuffer (input k) data; Ret (Zlen data, put_conn c (set_input ba k) w).

Definition fillheader (c : positive) (k : ConnInfo) (line after : list Z) (code : Z) (script : list request) w : outcome (Z * world) :=
  if completed k then Ret (Zlen line, w)
  else
    s ← header_line after line (c_seen k);
    let s := match onheaderref k with
             | Some _ => if Zlen line <=? 2 then mk_hs (set_header (lit "responseCode") (HInt code) (hs_headers s)) (hs_charset s) else s
             | None => s
             end in
    let w := put_conn c (set_seen s k) w in
    '(_, w) ← (if Zlen line <=? 2 then call_ref (onheaderref k) [LTable (c~0)] script w else Ret (false, w));
    Ret (Zlen line, w).

Definition onprogress (k : ConnInfo) (dltotal dlnow ultotal ulnow : Z) (p : presult) (script : list request) w : outcome (Z * world) :=
  if completed k then Ret (1, w)
  else
    '(called, w) ← call_ref (onprogressref k) [LInt dltotal; LInt dlnow; LInt ultotal; LInt ulnow] script w;
    Ret (match p with
         | PValues l => if called && is_number (first_value l) then s32 (lua_tointeger (first_value l)) else 0
         | PError => 0
         end, w).

(** The answer is an [int] in a [size_t]. *)
Definition onwrite (k : ConnInfo) (data : list Z) (p : presult) (script : list request) w : outcome (Z * world) :=
  if completed k then Ret (0, w)
  else
    '(called, w) ← call_ref (onwriteref k) [LStr data] script w;
    Ret (if (called : bool)
         then u64 (s32 (match p with
                        | PValues l => if is_number (first_value l) then lua_tointeger (first_value l) else Zlen data
                        | PError => Zlen data
                        end))
         else 0, w).

(** The results are looked for at the indices 1 and 2 of the main thread, where the
    values of its frame come first. *)
Definition read_answer (size : Z) (stack : list lua_value) : Z * list Z :=
  match nth 0 stack LNil with
  | LNil =>
      if (1 <? Zlen stack) && lua_isstring (nth 1 stack LNil) && strcasecmp_eq (default [] (lua_tostring (nth 1 stack LNil))) (lit "abort")
      then (CURL_READFUNC_ABORT, []) else (0, [])
  | v => if lua_isstring v then let s := default [] (lua_tolstring v) in (Z.min size (Zlen s), ztake size s) else (0, [])
  end.
Definition onread (k : ConnInfo) (size : Z) (frame : list lua_value) (p : presult) (script : list request) w : outcome (Z * list Z * world) :=
  if completed k then Ret (0, [], w)
  else
    '(called, w) ← call_ref (onreadref k) [LInt size] script w;
    Ret (if (called : bool)
         then match p with PValues l => read_answer size (frame ++ [nth 0 l LNil; nth 1 l LNil]) | PError => (0, []) end
         else (0, []), w).

(** libcurl calls what the settings say. *)
Definition run_callback (c : positive) (cb : callback) w : outcome (Z * world) :=
  k ← conn_of c w;
  match cb with
  | CbHeader line after code script => fillheader c k line after code script w
  | CbData data p script =>
      match opt_of "WRITEFUNCTION" (c_opts k) with
      | Some (VFun "onwrite") => onwrite k data p script w
      | _ => filldata c k data w
      end
  | CbProgress a b c d p script => onprogress k a b c d p script w
  | CbRead size frame p script => '(n, _, w) ← onread k size frame p script w; Ret (n, w)
  end.
Fixpoint run_callbacks (c : positive) (l : list callback) w : outcome world :=
  match l with [] => Ret w | cb :: l => '(_, w) ← run_callback c cb w; run_callbacks c l w end.

(** ** Completion *)

(** What libcurl knows of a transfer that ended: its error buffer, its cookies, its
    response code, its times (in the order of [TIMES]); whether there is memory to
    resume. *)
Record outcome_of : Type := mk_done {
  d_error : list Z;
  d_cookies : option (list (list Z));
  d_code : option Z;
  d_times : list (option Z);
  d_memory : bool
}.
Definition TIMES : list string :=
  ["dns_time"; "connect_time"; "appconnect_time"; "pretransfer_time"; "starttransfer_time"; "total_time"]%string.

Definition response_of (k : ConnInfo) (d : outcome_of) (body : list Z) : response :=
  mk_response (hs_headers (c_seen k)) (hs_charset (c_seen k))
    (match cstr (d_error d) with [] => None | e => Some e end) (fmap (M:=option) (map cstr) (d_cookies d)) (default (-1) (d_code d))
    (omap (fun '(n, t) => fmap (M:=option) (fun t => (n, t)) t) (zip TIMES (d_times d)))
    (match body with [] => None | _ => Some body end).

Definition http_getpost_complete (c : positive) (d : outcome_of) w : outcome world :=
  k ← conn_of c w;
  if completed k then Ret w
  else
    w ← on_conn c set_completed w;
    w ← inflight_remove c w;
    w ← unref_opt (bodyref k) w;
    w ← unref (retref k) w;
    let '(_, ba) := bytearray_read_ready (input k) in
    body ← mem_load (ba_buffer ba) 0 (ba_total ba);
    let resp := response_of k d body in
    w ← unref_all [onprogressref k; onheaderref k; onreadref k; onwriteref k; Some (headerref k)] w;
    if d_memory d then
      let ev := fresh (dom (w_resume w)) in
      Ret (set_resume (<[ev := mk_resume c (c_L k) (c_start k) (coref k) resp]> (w_resume w)) (timers w) w)
    else unref_opt (coref k) w.

(** Removing the handle may still call its callbacks. *)
Definition finish (c : positive) (d : outcome_of) (late : list callback) w : outcome world :=
  k ← conn_of c w;
  w ← http_getpost_complete c d w;
  w ← run_callbacks c late w;
  w ← multi_remove c w;
  w ← slist_free (c_slists k) w;
  w ← easy_cleanup c w;
  free_conn c w.
Fixpoint timer_check_multi_info_cb (msgs : list (positive * outcome_of * list callback)) w : outcome world :=
  match msgs with [] => Ret w | (c, d, late) :: msgs => w ← finish c d late w; timer_check_multi_info_cb msgs w end.

(** The script runs on from where it waited, or [oncomplete] starts. *)
Definition resume_cb (ev : positive) (script : list request) w : outcome world :=
  match w_resume w !! ev with
  | None => UB
  | Some info =>
      let w := set_resume (delete ev (w_resume w)) (timers w) w in
      w ← run_script script (log_resumed info w);
      unref_opt (ri_coref info) w
  end.

(** The function libcurl sets its timeout with; the timer must be there. *)
Definition multi_timer_cb w : outcome world := if timers w then Ret w else UB.

(** ** The end *)

Definition drain_one (c : positive) (late : list callback) w : outcome world :=
  k ← conn_of c w;
  w ← inflight_remove c w;
  w ← (if completed k then Ret w
       else
         w ← on_conn c set_completed w;
         unref_all [bodyref k; onprogressref k; onheaderref k; onreadref k; onwriteref k; Some (headerref k); Some (retref k); coref k] w);
  w ← slist_free (c_slists k) w;
  w ← run_callbacks c late w;
  w ← multi_remove c w;
  w ← easy_cleanup c w;
  free_conn c w.
Fixpoint drain (n : nat) (late : positive -> list callback) w : outcome world :=
  match inflight_head w with
  | None => Ret w
  | Some c => match n with O => Ret w | S n => w ← drain_one c (late c) w; drain n late w end
  end.
(** A turn for every connection is enough. *)
Definition cleanup_http_curl (late : positive -> list callback) w : outcome world :=
  w ← drain (size (w_conns w)) late w;
  Ret (set_resume (w_resume w) false (set_curl (w_easy w) None (w_slists w) w)).

(** Opening the module makes the timers that are not there. *)
Definition luaopen_fan_http_core w : world := set_resume (w_resume w) true w.

(** ** Steps *)

Inductive hop : Type :=
  | HOpen
  | HRequest (q : request)
  | HCallback (c : positive) (cb : callback)
  | HTimer
  | HCheck (msgs : list (positive * outcome_of * list callback))
  | HResume (ev : positive) (script : list request)
  | HCleanup (late : positive -> list callback).
Definition hexec (o : hop) w : outcome world :=
  match o with
  | HOpen => Ret (luaopen_fan_http_core w)
  | HRequest q => '(_, w) ← http_call q w; Ret w
  | HCallback c cb => '(_, w) ← run_callback c cb w; Ret w
  | HTimer => multi_timer_cb w
  | HCheck msgs => timer_check_multi_info_cb msgs w
  | HResume ev script => resume_cb ev script w
  | HCleanup late => cleanup_http_curl late w
  end.
End Client.
Definition http_start : world := mk_world ∅ ∅ None ∅ None 0 ∅ false 1 [] [].
