(* ===== verification/HttpLife.v ===== *)
(** * What every step of the HTTP client keeps

    The requests in flight are a doubly linked list of ConnInfos; with what they and
    the pending resumptions refer to, they are all that http.c has, apart from what
    requests that fail leave behind ([lost]). *)

From S2P Require Import Prelude Lua LuaState Double TcpdConfig ByteArray Evhttp Holds HttpHeader HttpOptions HttpClient.

(** ** The list in memory *)

Definition conns : Type := list (positive * ConnInfo).
Definition first (cs : conns) (nx : option positive) : option positive := match cs with [] => nx | (c, _) :: _ => Some c end.
Fixpoint final (cs : conns) (pv : option positive) : option positive := match cs with [] => pv | (c, _) :: cs => final cs (Some c) end.
(** A segment: what is before it and after it, and its nodes. *)
Fixpoint seg (m : gmap positive ConnInfo) (pv : option positive) (cs : conns) (nx : option positive) : Prop :=
  match cs with
  | [] => True
  | (c, k) :: cs => m !! c = Some (set_links (first cs nx) pv k) /\ seg m (Some c) cs nx
  end.

Lemma seg_app m pv a b nx : seg m pv (a ++ b) nx <-> seg m pv a (first b nx) /\ seg m (final a pv) b nx.
Proof.
  revert pv. induction a as [|[c k] a IH]; intros pv; cbn [app seg final first]; [tauto|]. rewrite IH.
  assert (E : first (a ++ b) nx = first a (first b nx)) by (by destruct a as [|[]]). rewrite E. tauto.
Qed.
Lemma seg_frame m pv cs nx c k : c ∉ cs.*1 -> seg m pv cs nx -> seg (<[c := k]> m) pv cs nx.
Proof.
  revert pv. induction cs as [|[d q] cs IH]; intros pv Hc Hs; [done|]. cbn in *. apply not_elem_of_cons in Hc as [Hne Hc].
  destruct Hs as [Hd Hs]. split; [by rewrite lookup_insert_ne|by apply IH].
Qed.
Lemma seg_delete m pv cs nx c : c ∉ cs.*1 -> seg m pv cs nx -> seg (delete c m) pv cs nx.
Proof.
  revert pv. induction cs as [|[d q] cs IH]; intros pv Hc Hs; [done|]. cbn in *. apply not_elem_of_cons in Hc as [Hne Hc].
  destruct Hs as [Hd Hs]. split; [by rewrite lookup_delete_ne|by apply IH].
Qed.
(** The node after a segment is another one now. *)
Lemma seg_next m pv a p k nx nx' : p ∉ a.*1 -> seg m pv (a ++ [(p, k)]) nx ->
  m !! p = Some (set_links nx (final a pv) k) /\ seg (<[p := set_links nx' (final a pv) k]> m) pv (a ++ [(p, k)]) nx'.
Proof.
  intros Hp Hs. apply seg_app in Hs as [H1 [H2 _]]. split; [done|]. apply seg_app. split; [by apply seg_frame|].
  split; [by rewrite lookup_insert_eq|done].
Qed.
(** The node before a segment is another one now. *)
Lemma seg_prev m pv pv' n k b nx : n ∉ b.*1 -> seg m pv ((n, k) :: b) nx ->
  m !! n = Some (set_links (first b nx) pv k) /\ seg (<[n := set_links (first b nx) pv' k]> m) pv' ((n, k) :: b) nx.
Proof.
  intros Hn [H1 H2]. split; [done|]. split; [by rewrite lookup_insert_eq|by apply seg_frame].
Qed.

Lemma set_links_links a b c d k : set_links a b (set_links c d k) = set_links a b k.
Proof. done. Qed.

Lemma dom_put (m : gmap positive ConnInfo) c k k' : m !! c = Some k -> dom (<[c := k']> m) = dom m.
Proof. intros Hc. apply dom_insert_lookup_L. by eexists. Qed.
Lemma on_conn_eq c f w k : w_conns w !! c = Some k -> on_conn c f w = Ret (set_conns (<[c := f k]> (w_conns w)) (inflight_head w) w).
Proof. intros Hc. unfold on_conn, conn_of. by rewrite Hc. Qed.

(** *** Adding at the front *)

Lemma inflight_add_spec c k cs w : seg (w_conns w) None cs None -> inflight_head w = first cs None -> c ∉ cs.*1 -> NoDup cs.*1 ->
  w_conns w !! c = Some k ->
  exists m, inflight_add c w = Ret (set_conns m (Some c) w) /\ seg m None ((c, k) :: cs) None /\ dom m = dom (w_conns w) /\
    (forall x, x ∉ c :: cs.*1 -> m !! x = w_conns w !! x).
Proof.
  intros Hs Hh Hc Hn Hk. unfold inflight_add. rewrite (on_conn_eq _ _ _ k Hk). cbn [mbind outcome_bind w_conns inflight_head set_conns].
  set (k1 := set_links _ _ k). assert (Hs1 := seg_frame _ _ _ _ c k1 Hc Hs). unfold k1 in *. rewrite Hh in *. clear k1.
  destruct cs as [|[h q] cs]; cbn [first] in *.
  - cbn [mbind outcome_bind]. eexists. split; [reflexivity|]. split; [|split].
    + cbn. by rewrite lookup_insert_eq.
    + by apply (dom_put _ _ k).
    + intros x. rewrite elem_of_cons. intros Hx. apply lookup_insert_ne. intros ->. tauto.
  - cbn [fmap list_fmap fst] in *. apply NoDup_cons in Hn as [Hnh Hn]. apply not_elem_of_cons in Hc as [Hch Hc].
    destruct (seg_prev _ None (Some c) _ _ _ _ Hnh Hs1) as [Hq Hs2]. erewrite on_conn_eq by exact Hq. cbn [mbind outcome_bind].
    eexists. split; [reflexivity|]. cbn [w_conns set_conns]. rewrite set_links_links. split; [|split].
    + split; [by rewrite lookup_insert_ne by done; rewrite lookup_insert_eq|exact Hs2].
    + etransitivity; [by eapply dom_put|by eapply dom_put].
    + intros x. rewrite !elem_of_cons. intros Hx. rewrite !lookup_insert_ne; [done|intros ->; tauto|intros ->; tauto].
Qed.

Lemma final_snoc a p k pv : final (a ++ [(p, k)]) pv = Some p.
Proof. revert pv. induction a as [|[c q] a IH]; intros pv; [done|]. apply IH. Qed.
Lemma final_cases (a : conns) pv : (a = [] /\ final a pv = pv) \/ exists a' p k, a = a' ++ [(p, k)] /\ final a pv = Some p.
Proof.
  destruct a as [|x a] using rev_ind; [by left|]. right. destruct x as [p k]. exists a, p, k. split; [done|apply final_snoc].
Qed.
Lemma first_app a b nx : first (a ++ b) nx = first a (first b nx).
Proof. by destruct a as [|[]]. Qed.
Lemma seg_here m pv a c k b nx : seg m pv (a ++ (c, k) :: b) nx -> m !! c = Some (set_links (first b nx) (final a pv) k).
Proof. intros Hs. by apply seg_app in Hs as [_ [Hc _]]. Qed.

(** *** Taking out *)

(** The pointer to [c] becomes one to what follows it. *)
Lemma unlink_next c k a b w : seg (w_conns w) None (a ++ (c, k) :: b) None -> inflight_head w = first (a ++ (c, k) :: b) None ->
  NoDup (a ++ (c, k) :: b).*1 ->
  exists m, match final a None with
    | Some p => on_conn p (fun q => set_links (first b None) (prev q) q) w
    | None => Ret (set_conns (w_conns w) (first b None) w)
    end = Ret (set_conns m (first (a ++ b) None) w) /\ seg m None a (first b None) /\ seg m (Some c) b None /\
    m !! c = Some (set_links (first b None) (final a None) k) /\ dom m = dom (w_conns w) /\ (forall x, x ∉ a.*1 -> m !! x = w_conns w !! x).
Proof.
  intros Hs Hh Hn. pose proof (seg_here _ _ _ _ _ _ _ Hs) as Hc. apply seg_app in Hs as [Ha [_ Hb]]. cbn [first] in Ha.
  rewrite fmap_app in Hn. cbn [fmap list_fmap fst] in Hn. apply NoDup_app in Hn as (Hna & Hab & Hn).
  destruct (final_cases a None) as [[-> ->]|(a' & p & q & -> & Ef)]; [by exists (w_conns w)|]. rewrite Ef in *.
  rewrite fmap_app in Hna, Hab. cbn [fmap list_fmap fst] in Hna, Hab. apply NoDup_app in Hna as (_ & Hpa & _).
  assert (Hp : p ∉ c :: b.*1) by (apply Hab, elem_of_app; right; by left). apply not_elem_of_cons in Hp as [Hpc Hpb].
  assert (Hpa' : p ∉ a'.*1) by (intros Hin; apply (Hpa p Hin); by left).
  destruct (seg_next _ _ _ _ _ _ (first b None) Hpa' Ha) as [Hp Ha2]. erewrite on_conn_eq by exact Hp. rewrite set_links_links.
  rewrite Hh. eexists. split; [f_equal; f_equal; rewrite !first_app; by destruct a' as [|[]]|]. split; [exact Ha2|]. split; [by apply seg_frame|].
  split; [by rewrite lookup_insert_ne|]. split; [by eapply dom_put|].
  intros x Hx. apply lookup_insert_ne. intros ->. apply Hx. rewrite fmap_app. apply elem_of_app. right. by left.
Qed.
(** The pointer back to [c] becomes one to what precedes it. *)
Lemma unlink_prev c k a b h w : seg (w_conns w) None a (first b None) -> seg (w_conns w) (Some c) b None -> inflight_head w = h ->
  w_conns w !! c = Some k -> NoDup (a ++ (c, k) :: b).*1 ->
  exists m, match first b None with
    | Some n => on_conn n (fun q => set_links (next q) (final a None) q) w
    | None => Ret w
    end = Ret (set_conns m h w) /\ seg m None a (first b None) /\ seg m (final a None) b None /\
    m !! c = Some k /\ dom m = dom (w_conns w) /\ (forall x, x ∉ b.*1 -> m !! x = w_conns w !! x).
Proof.
  intros Ha Hb Hh Hc Hn. destruct b as [|[n q] b]; cbn [first] in *.
  - exists (w_conns w). split; [rewrite <- Hh; by destruct w|done].
  - rewrite fmap_app in Hn. cbn [fmap list_fmap fst] in Hn. apply NoDup_app in Hn as (_ & Hab & Hn). apply NoDup_cons in Hn as [Hcb Hn].
    apply NoDup_cons in Hn as [Hnb Hn]. apply not_elem_of_cons in Hcb as [Hcn Hcb].
    assert (Hna : n ∉ a.*1) by (intros Hin; apply (Hab n Hin); right; by left).
    destruct (seg_prev _ _ (final a None) _ _ _ _ Hnb Hb) as [Hq Hb2]. erewrite on_conn_eq by exact Hq. rewrite set_links_links, Hh.
    eexists. split; [reflexivity|]. split; [by apply seg_frame|]. split; [exact Hb2|]. split; [by rewrite lookup_insert_ne|].
    split; [by eapply dom_put|]. intros x Hx. apply lookup_insert_ne. intros ->. apply Hx. by left.
Qed.
Lemma set_conns_twice m h m' h' w : set_conns m h (set_conns m' h' w) = set_conns m h w.
Proof. done. Qed.
Lemma inflight_remove_spec c k a b w : seg (w_conns w) None (a ++ (c, k) :: b) None -> inflight_head w = first (a ++ (c, k) :: b) None ->
  NoDup (a ++ (c, k) :: b).*1 ->
  exists m, inflight_remove c w = Ret (set_conns m (first (a ++ b) None) w) /\ seg m None (a ++ b) None /\
    m !! c = Some (set_links None None k) /\ dom m = dom (w_conns w) /\
    (forall x, x ∉ (a ++ (c, k) :: b).*1 -> m !! x = w_conns w !! x).
Proof.
  intros Hs Hh Hn. unfold inflight_remove, conn_of. rewrite (seg_here _ _ _ _ _ _ _ Hs). cbn [mbind outcome_bind prev next set_links].
  destruct (unlink_next c k a b w Hs Hh Hn) as (m1 & -> & Ha1 & Hb1 & Hc1 & Hd1 & Ho1). cbn [mbind outcome_bind].
  destruct (unlink_prev c (set_links (first b None) (final a None) k) a b (first (a ++ b) None) (set_conns m1 (first (a ++ b) None) w))
    as (m2 & -> & Ha2 & Hb2 & Hc2 & Hd2 & Ho2); [done..|by rewrite fmap_app in *|]. cbn [mbind outcome_bind]. rewrite set_conns_twice.
  erewrite on_conn_eq by exact Hc2. rewrite set_links_links, set_conns_twice. cbn [w_conns inflight_head set_conns] in *.
  rewrite fmap_app in *. cbn [fmap list_fmap fst] in *. apply NoDup_app in Hn as (Hna & Hab & Hn). apply NoDup_cons in Hn as [Hcb _].
  assert (Hca : c ∉ a.*1) by (intros Hin; apply (Hab c Hin); by left).
  eexists. split; [reflexivity|]. split; [apply seg_app; split; by apply seg_frame|]. split; [by rewrite lookup_insert_eq|].
  split; [rewrite (dom_put _ _ _ _ Hc2); congruence|]. intros x Hx. apply not_elem_of_app in Hx as [Hxa Hx]. apply not_elem_of_cons in Hx as [Hxc Hx].
  rewrite lookup_insert_ne by congruence. by rewrite Ho2, Ho1.
Qed.

(** ** What there is *)

Definition ids (cs : conns) : gset positive := list_to_set cs.*1.
Definition crefs (k : ConnInfo) : list positive :=
  ref_list (onprogressref k) ++ ref_list (onheaderref k) ++ ref_list (onreadref k) ++ ref_list (onwriteref k) ++ ref_list (coref k) ++
  ref_list (bodyref k) ++ [headerref k; retref k].
Definition conn_refs (cs : conns) : list positive := concat (map (fun c => crefs c.2) cs).
Definition resume_refs (m : gmap positive ResumeInfo) : list positive := concat (map (fun i => ref_list (ri_coref i.2)) (map_to_list m)).
Definition slists_of (cs : conns) : nat := sum_list_with (fun c => c_slists c.2) cs.

(** What no request in flight has: references of others, connections, handles, handles
    that were added, lists of strings. *)
Record lost : Type := mk_lost {
  l_reg : registry_map;
  l_conns : gset positive;
  l_easy : gset positive;
  l_multi : gset positive;
  l_slists : nat
}.

(** A connection in flight: libcurl calls what it has functions for, and its coroutine
    is kept. *)
Record conn_ok (reg : registry_map) (k : ConnInfo) : Prop := {
  co_live : completed k = false;
  co_wired : wired (c_opts k) (onprogressref k) (onreadref k) (onwriteref k);
  co_progress : fun_ref reg (onprogressref k);
  co_header : fun_ref reg (onheaderref k);
  co_read : fun_ref reg (onreadref k);
  co_write : fun_ref reg (onwriteref k);
  co_thread : exists r, coref k = Some r /\ reg !! r = Some (RvThread (c_L k));
  co_input : exists body, writer (input k) body
}.
Definition resume_ok (reg : registry_map) (i : ResumeInfo) : Prop := exists r, ri_coref i = Some r /\ reg !! r = Some (RvThread (ri_L i)).

(** [E]: references an operation that is going on has to give back. *)
Record hinv (s : lost) (E : list positive) (cs : conns) (w : world) : Prop := {
  hi_list : seg (w_conns w) None cs None;
  hi_head : inflight_head w = first cs None;
  hi_nodup : NoDup cs.*1;
  hi_dom : dom (w_conns w) = ids cs ∪ l_conns s;
  hi_easy : w_easy w = ids cs ∪ l_easy s;
  hi_multi : default ∅ (multi w) = ids cs ∪ l_multi s;
  hi_new : ids cs ## l_conns s /\ ids cs ## l_easy s /\ ids cs ## l_multi s;
  hi_sub : l_multi s ⊆ l_easy s;
  hi_slists : w_slists w = (slists_of cs + l_slists s)%nat;
  hi_refs : holds (l_reg s) (E ++ conn_refs cs ++ resume_refs (w_resume w)) (w_reg w);
  hi_conns : Forall (fun c => conn_ok (w_reg w) c.2) cs;
  hi_resume : forall ev i, w_resume w !! ev = Some i -> resume_ok (w_reg w) i
}.

(** *** References *)

Lemma fun_ref_agree (reg reg' : registry_map) r : fun_ref reg r -> (forall p, r = Some p -> reg' !! p = reg !! p) -> fun_ref reg' r.
Proof. intros Hf Ha p Hp. destruct (Hf p Hp) as [k Hk]. exists k. by rewrite Ha. Qed.
Lemma in_ref_list r p : r = Some p -> p ∈ ref_list r.
Proof. intros ->. by left. Qed.
Lemma conn_ok_agree reg reg' k : conn_ok reg k -> (forall r, r ∈ crefs k -> reg' !! r = reg !! r) -> conn_ok reg' k.
Proof.
  intros [] Ha. assert (Hin : forall (r : option positive) p, ref_list r ⊆ crefs k -> r = Some p -> reg' !! p = reg !! p).
  { intros r p Hs Hp. by apply Ha, Hs, in_ref_list. }
  unfold crefs in Hin. constructor; try done.
  1-4: eapply fun_ref_agree; [done|]; intros p; apply Hin; intros x Hx; rewrite !elem_of_app; tauto.
  destruct co_thread0 as (r & Er & Hr). exists r. split; [done|]. rewrite Ha; [done|]. unfold crefs. rewrite Er, !elem_of_app. cbn. rewrite list_elem_of_singleton. tauto.
Qed.
Lemma conn_refs_in c k cs r : (c, k) ∈ cs -> r ∈ crefs k -> r ∈ conn_refs cs.
Proof.
  intros Hc Hr. unfold conn_refs. induction cs as [|x cs IH]; [by apply elem_of_nil in Hc|]. cbn [map concat]. apply elem_of_app.
  apply elem_of_cons in Hc as [<-|Hc]; [by left|right; by apply IH].
Qed.
Lemma resume_refs_in m ev i r : m !! ev = Some i -> r ∈ ref_list (ri_coref i) -> r ∈ resume_refs m.
Proof.
  intros Hm Hr. apply elem_of_map_to_list in Hm. unfold resume_refs. revert Hm. generalize (map_to_list m). intros l Hl.
  induction l as [|x l IH]; [by apply elem_of_nil in Hl|]. cbn [map concat]. apply elem_of_app.
  apply elem_of_cons in Hl as [<-|Hl]; [by left|right; by apply IH].
Qed.
Lemma hinv_reg s E E' cs w reg : hinv s E cs w -> holds (l_reg s) (E' ++ conn_refs cs ++ resume_refs (w_resume w)) reg ->
  (forall r, r ∈ conn_refs cs ++ resume_refs (w_resume w) -> reg !! r = w_reg w !! r) -> hinv s E' cs (set_reg reg w).
Proof.
  intros [] Hh Ha. constructor; cbn; try done.
  - apply Forall_forall. intros [c k] Hc. eapply conn_ok_agree; [by apply (proj1 (Forall_forall _ _) hi_conns0 _ Hc)|].
    intros r Hr. apply Ha, elem_of_app. left. by eapply conn_refs_in.
  - intros ev i Hi. destruct (hi_resume0 ev i Hi) as (r & Er & Hr). exists r. split; [done|]. rewrite Ha; [done|].
    apply elem_of_app. right. eapply resume_refs_in; [done|by rewrite Er; left].
Qed.
Lemma hinv_perm s E E' cs w : E ≡ₚ E' -> hinv s E cs w -> hinv s E' cs w.
Proof. intros Hp []. constructor; try done. eapply holds_perm; [|done]. by rewrite Hp. Qed.
Lemma ref_ok s E cs v w r w' : hinv s E cs w -> ref v w = (r, w') ->
  w' = set_reg (<[r := v]> (w_reg w)) w /\ w_reg w !! r = None /\ hinv s (r :: E) cs w'.
Proof.
  intros Hi E1. unfold ref in E1. destruct (reg_ref v (w_reg w)) as [r1 reg] eqn:Er. injection E1 as <- <-.
  destruct (holds_ref _ _ _ _ _ _ (hi_refs _ _ _ _ Hi) Er) as (Hh & Hn & ->). split; [done|]. split; [done|].
  eapply hinv_reg; [done|exact Hh|]. intros x Hx. apply lookup_insert_ne. intros <-.
  destruct (hl_own _ _ _ (hi_refs _ _ _ _ Hi) r1) as [_ [? ?]]; [apply elem_of_app; by right|congruence].
Qed.
Lemma unref_ok s r E cs w : hinv s (r :: E) cs w -> exists reg, unref r w = Ret (set_reg reg w) /\ hinv s E cs (set_reg reg w) /\
  (forall x, x <> r -> reg !! x = w_reg w !! x).
Proof.
  intros Hi. destruct (holds_unref _ _ _ _ (hi_refs _ _ _ _ Hi)) as (reg & Er & Hh & ->). unfold unref. rewrite Er. cbn [mbind outcome_bind].
  eexists. split; [reflexivity|]. assert (Ha : forall x, x <> r -> delete r (w_reg w) !! x = w_reg w !! x) by (intros x Hx; by apply lookup_delete_ne).
  split; [|done]. eapply hinv_reg; [done|exact Hh|]. intros x Hx. apply Ha. intros ->.
  pose proof (hl_nodup _ _ _ (hi_refs _ _ _ _ Hi)) as Hn. cbn [app] in Hn. apply NoDup_cons in Hn as [Hn _]. apply Hn, elem_of_app. by right.
Qed.
Lemma unref_all_ok s l E cs w : hinv s (concat (map ref_list l) ++ E) cs w -> exists reg, unref_all l w = Ret (set_reg reg w) /\ hinv s E cs (set_reg reg w) /\
  (forall x, x ∉ concat (map ref_list l) -> reg !! x = w_reg w !! x).
Proof.
  revert w. induction l as [|[r|] l IH]; intros w Hi; cbn [unref_all map concat ref_list app] in *.
  - exists (w_reg w). by destruct w.
  - destruct (unref_ok _ _ _ _ _ Hi) as (reg & Er & Hi' & Ha). cbn [unref_opt]. rewrite Er. cbn [mbind outcome_bind].
    destruct (IH _ Hi') as (reg' & -> & Hi2 & Ha2). exists reg'. split; [done|]. split; [done|].
    intros x Hx. apply not_elem_of_cons in Hx as [Hx1 Hx2]. rewrite Ha2 by done. by apply Ha.
  - by apply IH.
Qed.

(** *** Connections *)

Lemma elem_of_ids c cs : c ∈ ids cs <-> c ∈ cs.*1.
Proof. apply elem_of_list_to_set. Qed.
Lemma ids_mid a c k b : ids (a ++ (c, k) :: b) = {[c]} ∪ ids (a ++ b).
Proof. unfold ids. rewrite !fmap_app. cbn [fmap list_fmap fst]. rewrite !list_to_set_app_L. cbn [list_to_set]. rewrite !assoc_L by apply _. by rewrite (comm_L (∪) (list_to_set a.*1)). Qed.
Lemma ids_split c cs : c ∈ ids cs -> exists a k b, cs = a ++ (c, k) :: b.
Proof.
  rewrite elem_of_ids. intros ([c' k] & -> & Hin)%list_elem_of_fmap. apply list_elem_of_split in Hin as (a & b & ->). by exists a, k, b.
Qed.
Lemma refs_mid a c k b : conn_refs (a ++ (c, k) :: b) ≡ₚ crefs k ++ conn_refs (a ++ b).
Proof. unfold conn_refs. rewrite !map_app, !concat_app. cbn [map concat]. rewrite !(assoc_L (++)). by rewrite (Permutation_app_comm (concat _) (crefs _)). Qed.
Lemma slists_mid a c k b : slists_of (a ++ (c, k) :: b) = (c_slists k + slists_of (a ++ b))%nat.
Proof. unfold slists_of. induction a as [|x a IH]; [done|]. cbn in *. rewrite IH. lia. Qed.
Lemma disj_cons (c : positive) (X Y : gset positive) : ({[c]} ∪ X) ## Y <-> (c ∉ Y) /\ (X ## Y).
Proof. rewrite disjoint_union_l, disjoint_singleton_l. done. Qed.
Lemma nodup_mid (a : conns) c k b : NoDup (a ++ (c, k) :: b).*1 <-> (c ∉ (a ++ b).*1) /\ NoDup (a ++ b).*1.
Proof.
  rewrite !fmap_app. cbn [fmap list_fmap fst]. rewrite <- Permutation_middle. by rewrite NoDup_cons.
Qed.

Lemma seg_update m pv a c k k' b nx : NoDup (a ++ (c, k) :: b).*1 -> seg m pv (a ++ (c, k) :: b) nx ->
  seg (<[c := set_links (first b nx) (final a pv) k']> m) pv (a ++ (c, k') :: b) nx.
Proof.
  intros Hn Hs. apply nodup_mid in Hn as [Hc _]. rewrite fmap_app in Hc. apply not_elem_of_app in Hc as [Hca Hcb].
  apply seg_app in Hs as [Ha [_ Hb]]. apply seg_app. split; [by apply seg_frame|]. split; [by rewrite lookup_insert_eq|by apply seg_frame].
Qed.

(** Taken out of the list, what the connection had is to be given back; [k1] is what it
    is in memory by then. *)
Lemma remove_ok F C Es Mu n E a c k k1 b w : hinv (mk_lost F C Es Mu n) E (a ++ (c, k) :: b) w ->
  exists w', inflight_remove c (put_conn c (set_links (first b None) (final a None) k1) w) = Ret w' /\ w_conns w' !! c = Some (set_links None None k1) /\
    hinv (mk_lost F ({[c]} ∪ C) ({[c]} ∪ Es) ({[c]} ∪ Mu) (c_slists k + n)) (crefs k ++ E) (a ++ b) w' /\
    exists m, w' = set_conns m (first (a ++ b) None) w.
Proof.
  intros []. pose proof (seg_here _ _ _ _ _ _ _ hi_list0) as Hk. set (w1 := put_conn _ _ w).
  destruct (inflight_remove_spec c k1 a b w1) as (m & -> & Hs & Hc & Hd & _).
  { by apply (seg_update _ _ _ _ k). }
  { cbn. rewrite hi_head0, !first_app. by destruct a as [|[]]. }
  { apply nodup_mid. by apply nodup_mid in hi_nodup0. }
  assert (Hd1 : dom m = dom (w_conns w)) by (rewrite Hd; by apply (dom_put _ _ _ _ Hk)).
  eexists. split; [reflexivity|]. split; [exact Hc|]. split; [|exists m; done].
  rewrite ids_mid in hi_dom0, hi_easy0, hi_multi0, hi_new0. cbn in *. destruct hi_new0 as (Hn1 & Hn2 & Hn3).
  rewrite disj_cons in Hn1, Hn2, Hn3. destruct Hn1, Hn2, Hn3. apply nodup_mid in hi_nodup0 as [Hc1 Hn]. rewrite <- elem_of_ids in Hc1.
  constructor; cbn; try done.
  - rewrite Hd1, hi_dom0. by rewrite assoc_L, (comm_L (∪) {[c]}) by apply _.
  - rewrite hi_easy0. by rewrite assoc_L, (comm_L (∪) {[c]}) by apply _.
  - rewrite hi_multi0. by rewrite assoc_L, (comm_L (∪) {[c]}) by apply _.
  - rewrite !disjoint_union_r, !disjoint_singleton_r. done.
  - by apply union_mono_l.
  - rewrite hi_slists0, slists_mid. lia.
  - eapply holds_perm; [|exact hi_refs0]. rewrite refs_mid. solve_Permutation.
  - apply Forall_app in hi_conns0 as [? [? ?]%Forall_cons]. by apply Forall_app.
Qed.
Lemma put_same m c w k : w_conns w !! c = Some k -> m = k -> put_conn c m w = w.
Proof. intros Hk ->. unfold put_conn. rewrite insert_id by done. by destruct w. Qed.
Lemma add_ok F C Es Mu n E c k cs w : hinv (mk_lost F ({[c]} ∪ C) ({[c]} ∪ Es) ({[c]} ∪ Mu) (c_slists k + n)) (crefs k ++ E) cs w ->
  c ∉ C -> c ∉ Es -> c ∉ Mu -> Mu ⊆ Es -> w_conns w !! c = Some k -> conn_ok (w_reg w) k ->
  exists w', inflight_add c w = Ret w' /\ hinv (mk_lost F C Es Mu n) E ((c, k) :: cs) w' /\ exists m, w' = set_conns m (Some c) w.
Proof.
  intros [] HC HE HM Hsub Hk Hok. cbn in *. destruct hi_new0 as (Hn1 & Hn2 & Hn3).
  rewrite disjoint_union_r, disjoint_singleton_r in Hn1, Hn2, Hn3. destruct Hn1 as [Hc Hn1], Hn2 as [_ Hn2], Hn3 as [_ Hn3].
  destruct (inflight_add_spec c k cs w) as (m & -> & Hs & Hd & _); [done..|by rewrite <- elem_of_ids|done|done|].
  eexists. split; [reflexivity|]. split; [|by eexists]. change (ids ((c, k) :: cs)) with ({[c]} ∪ ids cs) in *.
  constructor; cbn; try done.
  - apply NoDup_cons. by rewrite <- elem_of_ids.
  - rewrite Hd, hi_dom0. change (ids ((c, k) :: cs)) with ({[c]} ∪ ids cs). by rewrite assoc_L, (comm_L (∪) (ids cs)) by apply _.
  - rewrite hi_easy0. change (ids ((c, k) :: cs)) with ({[c]} ∪ ids cs). by rewrite assoc_L, (comm_L (∪) (ids cs)) by apply _.
  - rewrite hi_multi0. change (ids ((c, k) :: cs)) with ({[c]} ∪ ids cs). by rewrite assoc_L, (comm_L (∪) (ids cs)) by apply _.
  - change (ids ((c, k) :: cs)) with ({[c]} ∪ ids cs). by rewrite !disj_cons.
  - rewrite hi_slists0. unfold slists_of. cbn. lia.
  - eapply holds_perm; [|exact hi_refs0]. change (conn_refs ((c, k) :: cs)) with (crefs k ++ conn_refs cs). solve_Permutation.
  - by apply Forall_cons.
Qed.

(** *** In place *)

Lemma put_lost s E cs w c k : c ∈ l_conns s -> hinv s E cs w -> hinv s E cs (put_conn c k w).
Proof.
  intros Hc []. assert (Hin : is_Some (w_conns w !! c)) by (apply elem_of_dom; rewrite hi_dom0; by apply elem_of_union_r).
  constructor; cbn; try done; [|by rewrite dom_insert_lookup_L]. apply seg_frame; [|done]. rewrite <- elem_of_ids. intros Hx. by apply (proj1 hi_new0 c).
Qed.
Lemma put_here s E a c k k' b w : hinv s E (a ++ (c, k) :: b) w -> crefs k' = crefs k -> c_slists k' = c_slists k -> conn_ok (w_reg w) k' ->
  hinv s E (a ++ (c, k') :: b) (put_conn c (set_links (first b None) (final a None) k') w).
Proof.
  intros [] Hr Hsl Hok. assert (Hi : ids (a ++ (c, k') :: b) = ids (a ++ (c, k) :: b)) by by rewrite !ids_mid.
  pose proof (seg_here _ _ _ _ _ _ _ hi_list0) as Hk. constructor; cbn; rewrite ?Hi; try done.
  - by apply (seg_update _ _ _ _ k).
  - rewrite hi_head0, !first_app. by destruct a as [|[]].
  - apply nodup_mid. by apply nodup_mid in hi_nodup0.
  - by rewrite (dom_put _ _ _ _ Hk).
  - by rewrite hi_slists0, !slists_mid, Hsl.
  - eapply holds_perm; [|done]. by rewrite !refs_mid, Hr.
  - apply Forall_app in hi_conns0 as [? [_ ?]%Forall_cons]. apply Forall_app. split; [done|]. by apply Forall_cons.
Qed.

(** *** libcurl *)

Lemma hinv_curl F C Es Mu n Es' Mu' n' E cs w e m sl : hinv (mk_lost F C Es Mu n) E cs w ->
  e = ids cs ∪ Es' -> default ∅ m = ids cs ∪ Mu' -> ids cs ## Es' -> ids cs ## Mu' -> Mu' ⊆ Es' -> sl = (slists_of cs + n')%nat ->
  hinv (mk_lost F C Es' Mu' n') E cs (set_curl e m sl w).
Proof. intros [] He Hm HE HM Hs Hn. destruct hi_new0. by constructor. Qed.
Lemma not_in_ids s E c cs w : hinv s E cs w -> c ∈ l_conns s \/ c ∈ l_easy s \/ c ∈ l_multi s -> c ∉ ids cs.
Proof. intros [] Hc Hx. destruct hi_new0 as (H1 & H2 & H3). destruct Hc as [Hc|[Hc|Hc]]; [by apply (H1 c)|by apply (H2 c)|by apply (H3 c)]. Qed.
Lemma minus_one (c : positive) (I X : gset positive) : c ∉ I -> c ∉ X -> (I ∪ ({[c]} ∪ X)) ∖ {[c]} = I ∪ X.
Proof.
  intros HI HX. apply set_eq. intros x. rewrite elem_of_difference, !elem_of_union, elem_of_singleton.
  split; [tauto|]. intros Hx. split; [tauto|]. intros ->. tauto.
Qed.
Lemma easy_cleanup_ok F C Es Mu n E c cs w : hinv (mk_lost F C ({[c]} ∪ Es) Mu n) E cs w -> c ∉ Es -> c ∉ Mu ->
  exists e, easy_cleanup c w = Ret (set_curl e (multi w) (w_slists w) w) /\ hinv (mk_lost F C Es Mu n) E cs (set_curl e (multi w) (w_slists w) w).
Proof.
  intros Hi HE HM. assert (Hc : c ∉ ids cs) by (eapply not_in_ids; [done|]; right; left; cbn; apply elem_of_union_l, elem_of_singleton; done).
  pose proof Hi as []. cbn in *. destruct hi_new0 as (Hn1 & Hn2 & Hn3). apply disjoint_union_r in Hn2 as [_ Hn2].
  unfold easy_cleanup. rewrite decide_True by (rewrite hi_easy0; apply elem_of_union_r, elem_of_union_l, elem_of_singleton; done).
  eexists. split; [reflexivity|]. eapply hinv_curl; try done.
  - rewrite hi_easy0. by apply minus_one.
  - intros x Hx. apply hi_sub0 in Hx as Hy. apply elem_of_union in Hy as [Hy|Hy]; [|done]. apply elem_of_singleton in Hy as ->. done.
Qed.
Lemma multi_remove_ok F C Es Mu n E c cs w : hinv (mk_lost F C Es ({[c]} ∪ Mu) n) E cs w -> c ∉ Mu ->
  exists m, multi_remove c w = Ret (set_curl (w_easy w) (Some m) (w_slists w) w) /\ hinv (mk_lost F C Es Mu n) E cs (set_curl (w_easy w) (Some m) (w_slists w) w).
Proof.
  intros Hi HM. assert (Hc : c ∉ ids cs) by (eapply not_in_ids; [done|]; right; right; cbn; apply elem_of_union_l, elem_of_singleton; done).
  pose proof Hi as []. cbn in *. destruct hi_new0 as (Hn1 & Hn2 & Hn3). apply disjoint_union_r in Hn3 as [_ Hn3].
  assert (Hin : c ∈ default ∅ (multi w)) by (rewrite hi_multi0; apply elem_of_union_r, elem_of_union_l, elem_of_singleton; done).
  unfold multi_remove. destruct (multi w) as [m|]; cbn in *; [|by apply not_elem_of_empty in Hin]. rewrite decide_True by done.
  eexists. split; [reflexivity|]. eapply hinv_curl; try done.
  - cbn. rewrite hi_multi0. by apply minus_one.
  - etransitivity; [|exact hi_sub0]. by apply union_subseteq_r.
Qed.
Lemma slist_free_ok F C Es Mu n n1 E cs w : hinv (mk_lost F C Es Mu (n1 + n)) E cs w ->
  exists sl, slist_free n1 w = Ret (set_curl (w_easy w) (multi w) sl w) /\ hinv (mk_lost F C Es Mu n) E cs (set_curl (w_easy w) (multi w) sl w).
Proof.
  intros Hi. pose proof Hi as []. cbn in *. unfold slist_free. rewrite decide_True by lia. eexists. split; [reflexivity|].
  destruct hi_new0 as (? & ? & ?). eapply hinv_curl; try done. lia.
Qed.
Lemma free_conn_ok F C Es Mu n E c cs w : hinv (mk_lost F ({[c]} ∪ C) Es Mu n) E cs w -> c ∉ C ->
  exists m, free_conn c w = Ret (set_conns m (inflight_head w) w) /\ hinv (mk_lost F C Es Mu n) E cs (set_conns m (inflight_head w) w).
Proof.
  intros Hi HC. assert (Hc : c ∉ ids cs) by (eapply not_in_ids; [done|]; left; cbn; apply elem_of_union_l, elem_of_singleton; done).
  destruct Hi. cbn in *. destruct hi_new0 as (Hn1 & Hn2 & Hn3). apply disjoint_union_r in Hn1 as [_ Hn1].
  assert (Hin : c ∈ dom (w_conns w)) by (rewrite hi_dom0; apply elem_of_union_r, elem_of_union_l, elem_of_singleton; done).
  apply elem_of_dom in Hin as [k Hk]. unfold free_conn, conn_of. rewrite Hk. cbn [mbind outcome_bind]. eexists. split; [reflexivity|].
  constructor; cbn; try done.
  - apply seg_delete; [by rewrite <- elem_of_ids|done].
  - rewrite dom_delete_L, hi_dom0. by apply minus_one.
Qed.

(** *** Resumptions *)

Lemma resume_refs_insert m ev i : m !! ev = None -> resume_refs (<[ev := i]> m) ≡ₚ ref_list (ri_coref i) ++ resume_refs m.
Proof. intros Hm. unfold resume_refs. rewrite map_to_list_insert by done. done. Qed.
Lemma resume_add s E cs w ev i t : hinv s (ref_list (ri_coref i) ++ E) cs w -> w_resume w !! ev = None -> resume_ok (w_reg w) i ->
  hinv s E cs (set_resume (<[ev := i]> (w_resume w)) t w).
Proof.
  intros [] Hev Hok. constructor; cbn; try done.
  - eapply holds_perm; [|done]. rewrite resume_refs_insert by done. solve_Permutation.
  - intros ev' i'. destruct (decide (ev = ev')) as [->|]; [rewrite lookup_insert_eq; by intros [= <-]|rewrite lookup_insert_ne by done; apply hi_resume0].
Qed.
Lemma resume_take s E cs w ev i t : hinv s E cs w -> w_resume w !! ev = Some i ->
  hinv s (ref_list (ri_coref i) ++ E) cs (set_resume (delete ev (w_resume w)) t w).
Proof.
  intros [] Hev. constructor; cbn; try done.
  - eapply holds_perm; [|exact hi_refs0]. rewrite <- (insert_delete_id _ _ _ Hev) at 1. rewrite resume_refs_insert by (by rewrite lookup_delete_eq). solve_Permutation.
  - intros ev' i' Hi. apply lookup_delete_Some in Hi as [_ Hi]. by eapply hi_resume0.
Qed.
Lemma hinv_logs s E cs w x y t : hinv s E cs w -> hinv s E cs (log_resumed x w) /\ hinv s E cs (log_call y w) /\ hinv s E cs (set_resume (w_resume w) t w).
Proof. intros []. split; [|split]; by constructor. Qed.
