(* ===== verification/HttpProps.v ===== *)
(** * Properties of the HTTP client

    Every operation of HttpClient keeps the invariant of HttpLife; what a response is
    made of, and what goes wrong. *)

From S2P Require Import Prelude Lua LuaState Double TcpdConfig ByteArray Evhttp Holds HttpHeader HttpOptions HttpClient HttpLife.

(** ** Small steps of the invariant *)

(** References that are not given back. *)
Lemma hinv_lose F C Es Mu n E l cs w : hinv (mk_lost F C Es Mu n) (l ++ E) cs w ->
  exists F', hinv (mk_lost F' C Es Mu n) E cs w /\ (l = [] -> F' = F).
Proof.
  intros []. cbn in *. destruct (holds_lose F (E ++ conn_refs cs ++ resume_refs (w_resume w)) l (w_reg w)) as (F' & _ & Hh & Hl).
  { eapply holds_perm; [|exact hi_refs]. rewrite <- app_assoc. apply Permutation_app_comm. }
  exists F'. split; [by constructor|done].
Qed.
Lemma new_conn_ok F C Es Mu n E c k cs w : hinv (mk_lost F C Es Mu n) E cs w -> c ∉ ids cs ->
  hinv (mk_lost F ({[c]} ∪ C) Es Mu n) E cs (put_conn c k w).
Proof.
  intros [] Hc. cbn in *. destruct hi_new as (Hn1 & Hn2 & Hn3). constructor; cbn; try done.
  - apply seg_frame; [by rewrite <- elem_of_ids|done].
  - rewrite dom_insert_L, hi_dom. by rewrite !assoc_L, (comm_L (∪) {[c]}) by apply _.
  - by rewrite disjoint_union_r, disjoint_singleton_r.
Qed.
Lemma new_easy_ok F C Es Mu n E c cs w : hinv (mk_lost F C Es Mu n) E cs w -> c ∉ ids cs ->
  hinv (mk_lost F C ({[c]} ∪ Es) Mu n) E cs (set_curl ({[c]} ∪ w_easy w) (multi w) (w_slists w) w).
Proof.
  intros Hi Hc. pose proof Hi as []. cbn in *. destruct hi_new as (Hn1 & Hn2 & Hn3). eapply hinv_curl; try done.
  - rewrite hi_easy. by rewrite !assoc_L, (comm_L (∪) {[c]}) by apply _.
  - by rewrite disjoint_union_r, disjoint_singleton_r.
  - by apply union_subseteq_r'.
Qed.
Lemma new_multi_ok F C Es Mu n E c cs w : hinv (mk_lost F C ({[c]} ∪ Es) Mu n) E cs w -> c ∉ ids cs ->
  hinv (mk_lost F C ({[c]} ∪ Es) ({[c]} ∪ Mu) n) E cs (set_curl (w_easy w) (Some ({[c]} ∪ default ∅ (multi w))) (w_slists w) w).
Proof.
  intros Hi Hc. pose proof Hi as []. cbn in *. destruct hi_new as (Hn1 & Hn2 & Hn3). eapply hinv_curl; try done.
  - cbn. rewrite hi_multi. by rewrite !assoc_L, (comm_L (∪) {[c]}) by apply _.
  - by rewrite disjoint_union_r, disjoint_singleton_r.
  - apply union_subseteq. split; [by apply union_subseteq_l|done].
Qed.
Lemma new_slists_ok F C Es Mu n m E cs w : hinv (mk_lost F C Es Mu n) E cs w ->
  hinv (mk_lost F C Es Mu (m + n)) E cs (set_curl (w_easy w) (multi w) (w_slists w + m) w).
Proof. intros Hi. pose proof Hi as []. cbn in *. destruct hi_new as (Hn1 & Hn2 & Hn3). eapply hinv_curl; try done. lia. Qed.
(** The multi handle is there from now on. *)
Lemma multi_init_ok s E cs w : hinv s E cs w -> hinv s E cs (set_curl (w_easy w) (Some (default ∅ (multi w))) (w_slists w) w).
Proof. intros []. by constructor. Qed.

(** What requests do not touch. *)
Record quiet (w w' : world) : Prop := {
  qu_resume : w_resume w' = w_resume w;
  qu_timers : timers w' = timers w;
  qu_resumed : w_resumed w' = w_resumed w;
  qu_calls : w_calls w' = w_calls w;
  qu_multi : multi w <> None -> multi w' <> None
}.
#[export] Instance quiet_preorder : PreOrder quiet.
Proof.
  split; [by constructor|]. intros x y z [A1 A2 A3 A4 A5] [B1 B2 B3 B4 B5]. constructor; try congruence. tauto.
Qed.

Section Props.
Context {T : Type} `{LuaTable T} `{LuaAPI} `{Allocator}.
Context (g : globals) (tables : positive -> option T) (fuel : nat).
Context (M : Z) (HM : mem_upto M) (HM2 : 2 ^ 32 <= M < 2 ^ 62).
Implicit Type w : world.

(** ** Requests *)

Definition q_ok (q : request) : Prop := request_ok tables fuel (q_arg q).
(** Nothing is lost when the request is refused. *)
Definition tidy (q : request) : Prop := forall reg r b, read_request g tables (q_method q) fuel (q_arg q) (new_build (q_method q) reg) = Ret (r, b) ->
  (r = None /\ q_refused q = None) \/ ((forall e, r = Some e -> exists m, e = Fail m) /\ b_body b = None /\ b_slists b = 0%nat).

Lemma request_error_ok F C Es Mu n E c b co hr rr msg cs w :
  hinv (mk_lost F ({[c]} ∪ C) ({[c]} ∪ Es) Mu n) (concat (map ref_list [b_progress b; b_header b; b_read b; b_write b; co; b_complete b; Some hr; Some rr]) ++ E) cs w ->
  c ∉ C -> c ∉ Es -> c ∉ Mu ->
  exists w', request_error c b co hr rr msg w = Ret (ARaise msg, w') /\ hinv (mk_lost F C Es Mu n) E cs w' /\ quiet w w'.
Proof.
  intros Hi HC HE HMu. unfold request_error. destruct (easy_cleanup_ok _ _ _ _ _ _ _ _ _ Hi HE HMu) as (e & -> & Hi1). cbn [mbind outcome_bind].
  destruct (unref_all_ok _ _ _ _ _ Hi1) as (reg & -> & Hi2 & _). cbn [mbind outcome_bind].
  destruct (free_conn_ok _ _ _ _ _ _ _ _ _ Hi2 HC) as (m & -> & Hi3). cbn [mbind outcome_bind].
  eexists. split; [reflexivity|]. split; [exact Hi3|]. by constructor.
Qed.

(** A request that was started: nothing received yet; the coroutine of the call waits, or
    a new one for [oncomplete]. *)
Definition started (q : request) (a : answer) (k : ConnInfo) : Prop :=
  writer (input k) [] /\ c_seen k = mk_hs ∅ None /\
  match a with AYield => c_L k = q_L q /\ c_start k = None | ANothing => exists f, c_start k = Some f | _ => False end.
Lemma hinv_thread s E cs w : hinv s E cs w -> hinv s E cs (new_thread w).2.
Proof. intros []. by constructor. Qed.
Lemma start_conn_ok F C Es Mu n E c k b cs w L co w1 : 
  hinv (mk_lost F ({[c]} ∪ C) ({[c]} ∪ Es) Mu (b_slists b + n)) (brefs b ++ [headerref k; retref k] ++ E) cs w ->
  fun_ref (w_reg w) (b_progress b) -> fun_ref (w_reg w) (b_header b) -> fun_ref (w_reg w) (b_read b) -> fun_ref (w_reg w) (b_write b) ->
  wired (b_opts b) (b_progress b) (b_read b) (b_write b) -> writer (input k) [] -> ref (RvThread L) w = (co, w1) ->
  forall start, let k' := mk_conn (b_opts b ++ [("SHARE"%string, VShare)]) (input k) L start false (b_progress b) (b_header b) (b_write b) (b_read b)
     (Some co) (b_body b) (headerref k) (retref k) (b_slists b) None None (c_seen k) in
  conn_ok (w_reg w1) k' /\
  hinv (mk_lost F ({[c]} ∪ C) ({[c]} ∪ Es) Mu (b_slists b + n)) (crefs k' ++ ref_list (b_complete b) ++ E) cs
    (put_conn c k' (set_curl (w_easy w1) (Some (default ∅ (multi w1))) (w_slists w1) w1)) /\ quiet w w1.
Proof.
  intros Hi Hp Hh Hr Hw Hwi Hin Er start k'. destruct (ref_ok _ _ _ _ _ _ _ Hi Er) as (-> & Hn & Hi1). split; [|split; [|by constructor]].
  - constructor; cbn; try (by apply fun_ref_insert); [done|by apply wired_plain| |by eexists].
    exists co. split; [done|by rewrite lookup_insert_eq].
  - apply put_lost; [by apply elem_of_union_l, elem_of_singleton|]. apply multi_init_ok. eapply hinv_perm; [|exact Hi1].
    unfold crefs, brefs, k'. cbn [ref_list onprogressref onheaderref onreadref onwriteref coref bodyref headerref retref]. solve_Permutation.
Qed.

(** How a request ends: the accounts, and what is in flight because of it. *)
Definition issued (q : request) (a : answer) (cs ns : conns) (c : positive) : Prop :=
  match a with ARaise _ => ns = [] | _ => exists k, ns = [(c, k)] /\ started q a k end.

(** Libcurl takes the handle. *)
Lemma accept_ok F C Es Mu n E q c k b cs w : hinv (mk_lost F ({[c]} ∪ C) ({[c]} ∪ Es) Mu (c_slists k + n)) (crefs k ++ ref_list (b_complete b) ++ E) cs w ->
  c ∉ C -> c ∉ Es -> c ∉ Mu -> Mu ⊆ Es -> w_conns w !! c = Some k -> conn_ok (w_reg w) k ->
  writer (input k) [] -> c_seen k = mk_hs ∅ None ->
  match b_complete b with None => c_L k = q_L q /\ c_start k = None | Some _ => exists f, c_start k = Some f end ->
  exists a w', (w ← inflight_add c (set_curl (w_easy w) (Some ({[c]} ∪ default ∅ (multi w))) (w_slists w) w);
     match b_complete b with Some r => w ← unref r w; Ret (ANothing, w) | None => Ret (AYield, w) end) = Ret (a, w') /\
    hinv (mk_lost F C Es Mu n) E ([(c, k)] ++ cs) w' /\ quiet w w' /\ issued q a cs [(c, k)] c.
Proof.
  intros Hi HC HE HMu Hsub Hk Hok Hin Hseen Hco. assert (Hc : c ∉ ids cs) by (eapply not_in_ids; [exact Hi|]; left; cbn; apply elem_of_union_l, elem_of_singleton; done).
  pose proof (new_multi_ok _ _ _ _ _ _ _ _ _ Hi Hc) as Hi1. destruct (add_ok _ _ _ _ _ _ _ _ _ _ Hi1 HC HE HMu Hsub Hk Hok) as (w2 & -> & Hi2 & m & ->).
  cbn [mbind outcome_bind]. destruct (b_complete b) as [r|].
  - destruct (unref_ok _ _ _ _ _ Hi2) as (reg & -> & Hi3 & _). cbn [mbind outcome_bind].
    eexists _, _. split; [reflexivity|]. split; [exact Hi3|]. split; [by constructor|]. by exists k.
  - eexists _, _. split; [reflexivity|]. split; [exact Hi2|]. split; [by constructor|]. by exists k.
Qed.
Lemma request_start_ok F C Es Mu n E q c k b cs w :
  hinv (mk_lost F ({[c]} ∪ C) ({[c]} ∪ Es) Mu (b_slists b + n)) (brefs b ++ [headerref k; retref k] ++ E) cs w ->
  fun_ref (w_reg w) (b_progress b) -> fun_ref (w_reg w) (b_header b) -> fun_ref (w_reg w) (b_read b) -> fun_ref (w_reg w) (b_write b) ->
  fun_ref (w_reg w) (b_complete b) -> wired (b_opts b) (b_progress b) (b_read b) (b_write b) -> writer (input k) [] -> c_seen k = mk_hs ∅ None ->
  c ∉ C -> c ∉ Es -> c ∉ Mu -> Mu ⊆ Es ->
  exists a w' ns F' n', request_start q c k b w = Ret (a, w') /\ hinv (mk_lost F' C Es Mu n') E (ns ++ cs) w' /\ quiet w w' /\
    (q_refused q = None \/ (b_body b = None /\ b_slists b = 0%nat) -> F' = F /\ n' = n) /\ issued q a cs ns c.
Proof.
  intros Hi Hp Hh Hr Hw Hcm Hwi Hin Hseen HC HE HMu Hsub. unfold request_start.
  assert (Ht : exists L w1, match b_complete b with Some _ => new_thread w | None => (q_L q, w) end = (L, w1) /\ w_reg w1 = w_reg w /\ quiet w w1 /\
    (b_complete b = None -> L = q_L q) /\
    hinv (mk_lost F ({[c]} ∪ C) ({[c]} ∪ Es) Mu (b_slists b + n)) (brefs b ++ [headerref k; retref k] ++ E) cs w1).
  { destruct (b_complete b); [|by exists (q_L q), w]. eexists _, _. split; [reflexivity|]. split; [done|]. split; [by constructor|]. split; [done|]. by apply (hinv_thread _ _ _ w). }
  destruct Ht as (L & w1 & -> & Er & Hq1 & HL & Hi1). rewrite <- Er in Hp, Hh, Hr, Hw, Hcm. clear Er.
  set (start := match b_complete b with Some r => _ | None => None end).
  assert (Hst : match b_complete b with None => L = q_L q /\ start = None | Some _ => exists f, start = Some f end).
  { unfold start. destruct (b_complete b) as [r|]; [|by split; [apply HL|]]. destruct (Hcm r eq_refl) as [f ->]. by exists f. }
  clearbody start. destruct (ref (RvThread L) w1) as [co w2] eqn:Eref.
  pose proof (start_conn_ok _ _ _ _ _ _ _ _ _ _ _ _ _ _ Hi1 Hp Hh Hr Hw Hwi Hin Eref start) as Hs. cbv zeta in Hs |- *.
  set (k' := mk_conn _ _ _ _ _ _ _ _ _ _ _ _ _ _ _ _ _) in *. destruct Hs as (Hok & Hi2 & Hq2).
  match type of Hi2 with hinv _ _ _ ?x => set (w3 := x) in * end. assert (Hq3 : quiet w2 w3) by by constructor.
  destruct (q_refused q) as [msg|].
  - destruct (hinv_lose F ({[c]} ∪ C) ({[c]} ∪ Es) Mu (b_slists b + n)
      (concat (map ref_list [b_progress b; b_header b; b_read b; b_write b; Some co; b_complete b; Some (headerref k); Some (retref k)]) ++ E) (ref_list (b_body b)) cs w3) as (F' & Hi3 & HF').
    { eapply hinv_perm; [|exact Hi2]. unfold crefs, k'. cbn [ref_list onprogressref onheaderref onreadref onwriteref coref bodyref headerref retref map concat]. solve_Permutation. }
    destruct (request_error_ok _ _ _ _ _ _ _ _ _ _ _ msg _ _ Hi3 HC HE HMu) as (w4 & -> & Hi4 & Hq4).
    exists (ARaise msg), w4, [], F', (b_slists b + n)%nat. split; [done|]. split; [done|]. split; [|split; [|done]].
    + etransitivity; [exact Hq1|]. etransitivity; [exact Hq2|]. by etransitivity.
    + intros [Hx|[Hx ->]]; [done|]. rewrite Hx in HF'. split; [by apply HF'|done].
  - destruct (accept_ok F C Es Mu n E q c k' b cs w3) as (a & w4 & Ea & Hi3 & Hq4 & Ha); try done.
    { by apply lookup_insert_eq. }
    exists a, w4, [(c, k')], F, n. split; [exact Ea|]. split; [exact Hi3|]. split; [|by split].
    etransitivity; [exact Hq1|]. etransitivity; [exact Hq2|]. by etransitivity.
Qed.

Definition next_conn w : positive := fresh (dom (w_conns w) ∪ w_easy w).
Lemma next_conn_new s E cs w : hinv s E cs w -> l_multi s ⊆ l_easy s ->
  (next_conn w ∉ ids cs) /\ (next_conn w ∉ l_conns s) /\ (next_conn w ∉ l_easy s) /\ (next_conn w ∉ l_multi s).
Proof.
  intros [] Hsub. pose proof (is_fresh (dom (w_conns w) ∪ w_easy w)) as Hf. fold (next_conn w) in Hf.
  rewrite hi_dom, hi_easy, !not_elem_of_union in Hf. destruct Hf as [[? ?] [_ ?]]. repeat split; try done. intros Hx. by apply Hsub in Hx.
Qed.

(** What the invariant is after requests, and that nothing is lost when they are good. *)
Definition after_request (s : lost) (E : list positive) (cs : conns) (good : Prop) (ns : conns) w w' : Prop :=
  exists s', hinv s' E (ns ++ cs) w' /\ l_multi s' = l_multi s /\ (good -> s' = s) /\ quiet w w'.

(** Reading the table, with the connection and its two tables made. *)
Lemma read_table_ok F C Es Mu n E q cs w : hinv (mk_lost F C Es Mu n) E cs w -> q_ok q ->
  exists r b, read_request g tables (q_method q) fuel (q_arg q) (new_build (q_method q) (w_reg w)) = Ret (r, b) /\ r <> Some Endless /\
    let w1 := set_curl (w_easy w) (multi w) (w_slists w + b_slists b) (set_reg (b_reg b) w) in
    hinv (mk_lost F C Es Mu (b_slists b + n)) (brefs b ++ E) cs w1 /\ quiet w w1 /\
    fun_ref (w_reg w1) (b_progress b) /\ fun_ref (w_reg w1) (b_header b) /\ fun_ref (w_reg w1) (b_read b) /\ fun_ref (w_reg w1) (b_write b) /\
    fun_ref (w_reg w1) (b_complete b) /\ wired (b_opts b) (b_progress b) (b_read b) (b_write b).
Proof.
  intros Hi Hq. destruct (returns_inv _ _ (read_request_ok g tables (w_reg w) [] (q_method q) fuel (q_arg q) (w_reg w) (holds_nil _) Hq)) as ([r b] & Er & Hb & Hne).
  exists r, b. split; [exact Er|]. split; [exact Hne|]. cbv zeta. pose proof Hb as []. rewrite app_nil_r in bo_holds.
  destruct (holds_trans _ _ _ _ _ (hi_refs _ _ _ _ Hi) bo_holds) as [Hh Ha]. split; [|split; [by constructor|done]].
  apply (new_slists_ok F C Es Mu n (b_slists b) (brefs b ++ E) cs (set_reg (b_reg b) w)). eapply hinv_reg; [exact Hi| |].
  - by rewrite <- app_assoc.
  - intros x Hx. apply Ha, elem_of_app. by right.
Qed.
Lemma http_getpost_ok s E cs w q : hinv s E cs w -> q_ok q ->
  exists a w' ns, http_getpost g tables fuel q w = Ret (a, w') /\ after_request s E cs (tidy q) ns w w' /\ a <> AEndless /\ issued q a cs ns (next_conn w).
Proof.
  intros Hi Hq. destruct s as [F C Es Mu n]. destruct (next_conn_new _ _ _ _ Hi (hi_sub _ _ _ _ Hi)) as (Hc & HC & HE & HMu). cbn in HC, HE, HMu.
  unfold http_getpost. fold (next_conn w). set (c := next_conn w) in *. destruct (alloc_writer M (mk_ba 0 0 0 None 0 false false) 1024 HM) as (ba & -> & Hba); [lia|].
  destruct (q_easy q); cbn [negb]; [|eexists _, w, []; split; [reflexivity|]; split; [by exists (mk_lost F C Es Mu n)|done]].
  pose proof (new_easy_ok _ _ _ _ _ _ _ _ _ Hi Hc) as Hi1. set (w1 := set_curl _ _ _ _) in *.
  destruct (ref (RvTable (c~0)) w1) as [hr w2] eqn:E1. destruct (ref_ok _ _ _ _ _ _ _ Hi1 E1) as (Ew2 & _ & Hi2).
  destruct (ref (RvTable (c~1)) w2) as [rr w3] eqn:E2. destruct (ref_ok _ _ _ _ _ _ _ Hi2 E2) as (Ew3 & _ & Hi3).
  set (k := mk_conn _ _ _ _ _ _ _ _ _ _ _ _ _ _ _ _ _). pose proof (new_conn_ok _ _ _ _ _ _ c k _ _ Hi3 Hc) as Hi4. set (w4 := put_conn c k w3) in *.
  assert (Hq4 : quiet w w4) by (unfold w4; rewrite Ew3, Ew2; by constructor).
  assert (Hsub : Mu ⊆ Es) by apply (hi_sub _ _ _ _ Hi). clear Hi1 Hi2 Hi3 Ew2 Ew3. clearbody w4.
  destruct (read_table_ok _ _ _ _ _ _ q _ _ Hi4 Hq) as (r & b & Er & Hne & Hi5 & Hq5 & Hp & Hh & Hr & Hw & Hcm & Hwi). rewrite Er. cbn [mbind outcome_bind].
  set (w5 := set_curl (w_easy w4) _ _ _) in *. clearbody w5. assert (Hq6 : quiet w w5) by by etransitivity.
  destruct r as [[msg|msg|]|]; [| | done |].
  - destruct (hinv_lose F ({[c]} ∪ C) ({[c]} ∪ Es) Mu (b_slists b + n)
      (concat (map ref_list [b_progress b; b_header b; b_read b; b_write b; None; b_complete b; Some hr; Some rr]) ++ E) (ref_list (b_body b)) cs w5) as (F' & Hi6 & HF').
    { eapply hinv_perm; [|exact Hi5]. unfold brefs. cbn [map concat ref_list]. solve_Permutation. }
    destruct (request_error_ok _ _ _ _ _ _ _ _ _ _ _ msg _ _ Hi6 HC HE HMu) as (w6 & -> & Hi7 & Hq7).
    eexists _, w6, []. split; [reflexivity|]. split; [|done]. eexists. split; [exact Hi7|]. split; [done|]. split; [|by etransitivity].
    intros Ht. destruct (Ht _ _ _ Er) as [[? _]|(_ & Hb & ->)]; [done|]. rewrite Hb in HF'. by rewrite HF'.
  - destruct (hinv_lose F ({[c]} ∪ C) ({[c]} ∪ Es) Mu (b_slists b + n) E (brefs b ++ [rr; hr]) cs w5) as (F' & Hi6 & _).
    { by rewrite <- app_assoc. }
    eexists _, w5, []. split; [reflexivity|]. split; [|done]. eexists. split; [exact Hi6|]. split; [done|]. split; [|done].
    intros Ht. destruct (Ht _ _ _ Er) as [[? _]|(He & _)]; [done|]. by destruct (He _ eq_refl).
  - destruct (request_start_ok F C Es Mu n E q c k b cs w5) as (a & w6 & ns & F' & n' & -> & Hi6 & Hq7 & Hl & Ha); try done.
    { eapply hinv_perm; [|exact Hi5]. cbn [k headerref retref]. unfold k. cbn [headerref retref]. solve_Permutation. }
    eexists _, w6, ns. split; [reflexivity|]. split; [|split; [|done]].
    + eexists. split; [exact Hi6|]. split; [done|]. split; [|by etransitivity]. intros Ht. cbn.
      destruct Hl as [-> ->]; [|done]. destruct (Ht _ _ _ Er) as [[_ ?]|(_ & ? & ?)]; [by left|by right].
    + destruct a; try done. by destruct Ha as (? & _ & _ & _ & []).
Qed.

Lemma after_nothing s E cs P w : hinv s E cs w -> after_request s E cs P [] w w.
Proof. intros Hi. by exists s. Qed.
Lemma after_trans s s1 E cs (P Q : Prop) ns ns' w w' w'' : l_multi s1 = l_multi s -> (P -> s1 = s) -> quiet w w' ->
  after_request s1 E (ns ++ cs) Q ns' w' w'' -> after_request s E cs (P /\ Q) (ns' ++ ns) w w''.
Proof.
  intros Hm1 Hg1 Hq1 (s2 & Hi2 & Hm2 & Hg2 & Hq2). exists s2. rewrite <- app_assoc.
  split; [done|]. split; [congruence|]. split; [|by etransitivity]. intros [HP HQ]. rewrite Hg2, Hg1; done.
Qed.
Lemma after_weaken s E cs (P Q : Prop) ns w w' : (Q -> P) -> after_request s E cs P ns w w' -> after_request s E cs Q ns w w'.
Proof. intros HPQ (s' & ? & ? & Hg & ?). exists s'. split; [done|]. split; [done|]. split; [by eauto|done]. Qed.
Lemma http_call_ok s E cs w q : hinv s E cs w -> q_ok q ->
  exists a w' ns, http_call g tables fuel q w = Ret (a, w') /\ after_request s E cs (tidy q) ns w w' /\ a <> AEndless.
Proof.
  intros Hi Hq. destruct (http_getpost_ok _ _ _ _ _ Hi Hq) as (a & w' & ns & Ea & Ha & Hne & _). unfold http_call. rewrite Ea. cbn [mbind outcome_bind].
  eexists _, w', ns. split; [reflexivity|]. split; [done|]. destruct a; try done. by destruct (q_yields q).
Qed.
Lemma run_script_ok l s E cs w : hinv s E cs w -> Forall q_ok l ->
  exists w' ns, run_script g tables fuel l w = Ret w' /\ after_request s E cs (Forall tidy l) ns w w'.
Proof.
  revert s cs w. induction l as [|q l IH]; intros s cs w Hi Hl; cbn [run_script]; [by exists w, []; split; [|apply after_nothing]|].
  apply Forall_cons in Hl as [Hq Hl]. destruct (http_call_ok _ _ _ _ _ Hi Hq) as (a & w1 & ns1 & Ea & Ha & Hne). rewrite Ea. cbn [mbind outcome_bind].
  destruct Ha as (s1 & Hi1 & Hm1 & Hg1 & Hq1). destruct (IH s1 (ns1 ++ cs) w1 Hi1 Hl) as (w2 & ns2 & E2 & H2).
  exists w2, (ns2 ++ ns1). split; [by destruct a|]. eapply after_weaken; [|by eapply after_trans]. by rewrite Forall_cons.
Qed.

(** ** Callbacks *)

(** The function behind a reference was called. *)
Definition called (r : option positive) (args : list lua_value) w : world :=
  match r with Some r => match w_reg w !! r with Some (RvFun f) => log_call (f, args) w | _ => w end | None => w end.
Lemma call_ref_ok s E cs w r args script : hinv s E cs w -> Forall q_ok script -> fun_ref (w_reg w) r ->
  exists w' ns, call_ref g tables fuel r args script w = Ret (match r with Some _ => true | None => false end, w') /\ after_request s E cs (Forall tidy script) ns (called r args w) w'.
Proof.
  intros Hi Hs Hf. unfold call_ref, called. destruct r as [r|]; [|by exists w, []; split; [|apply after_nothing]].
  destruct (Hf r eq_refl) as [f Ef]. rewrite Ef.
  destruct (run_script_ok script s E cs (log_call (f, args) w)) as (w' & ns & -> & Ha); [by apply (hinv_logs s E cs w (mk_resume 1 1 None None (mk_response ∅ None None None 0 [] None)) (f, args) true Hi)|done|].
  by exists w', ns.
Qed.

(** What libcurl may call back with: headers that can be read, and data there is memory
    for. *)
Definition cb_script (cb : callback) : list request :=
  match cb with CbHeader _ _ _ l => l | CbData _ _ l => l | CbProgress _ _ _ _ _ l => l | CbRead _ _ _ l => l end.
Definition cb_ok (k : ConnInfo) (cb : callback) : Prop :=
  Forall q_ok (cb_script cb) /\
  match cb with
  | CbHeader line after _ _ => forall st, returns (header_line after line st) (fun _ => True)
  | CbData data _ _ => bytes_ok data /\ 2 * (ba_offset (input k) + Zlen data) + 128 <= M
  | _ => True
  end.

(** What a callback adds to a connection. *)
Definition cb_data (k : ConnInfo) (cb : callback) : list Z :=
  match cb with CbData data _ _ => match onwriteref k with None => data | Some _ => [] end | _ => [] end.
Definition cb_seen (k : ConnInfo) (cb : callback) (st : hstate) : outcome hstate :=
  match cb with
  | CbHeader line after code _ =>
      st ← header_line after line st;
      Ret (match onheaderref k with
           | Some _ => if Zlen line <=? 2 then mk_hs (set_header (lit "responseCode") (HInt code) (hs_headers st)) (hs_charset st) else st
           | None => st
           end)
  | _ => Ret st
  end.
(** What it calls. *)
Definition cb_called (c : positive) (k : ConnInfo) (cb : callback) w : world :=
  match cb with
  | CbHeader line _ _ _ => if Zlen line <=? 2 then called (onheaderref k) [LTable (c~0)] w else w
  | CbData data _ _ => called (onwriteref k) [LStr data] w
  | CbProgress a b c d _ _ => called (onprogressref k) [LInt a; LInt b; LInt c; LInt d] w
  | CbRead size _ _ _ => called (onreadref k) [LInt size] w
  end.
Record grown (data : list Z) (seen : hstate -> outcome hstate) (k k' : ConnInfo) : Prop := {
  gr_same : k' = set_seen (c_seen k') (set_input (input k') k);
  gr_body : forall body, writer (input k) body -> writer (input k') (body ++ data);
  gr_seen : seen (c_seen k) = Ret (c_seen k')
}.
Lemma grown_refl k : grown [] Ret k k.
Proof. constructor; [by destruct k|intros body; by rewrite app_nil_r|done]. Qed.
Lemma grown_ok data seen k k' reg : grown data seen k k' -> conn_ok reg k -> conn_ok reg k' /\ crefs k' = crefs k /\ c_slists k' = c_slists k.
Proof.
  intros [Hs Hb _] []. rewrite Hs. split; [|done]. constructor; try done. destruct co_input as (body & Hbd). exists (body ++ data). cbn. by apply Hb.
Qed.

Definition answered (s : lost) (E : list positive) (a b : conns) (c : positive) (k : ConnInfo) (cb : callback) w (r : outcome (Z * world)) : Prop :=
  exists v w' ns k' m, r = Ret (v, w') /\
    after_request s E (a ++ (c, k') :: b) (Forall tidy (cb_script cb)) ns (cb_called c k cb (set_conns m (inflight_head w) w)) w' /\
    grown (cb_data k cb) (cb_seen k cb) k k'.
(** A callback that only calls. *)
Lemma answered_call s E a b c k cb w r f : hinv s E (a ++ (c, k) :: b) w ->
  (exists w' ns, r = Ret (f w', w') /\ after_request s E (a ++ (c, k) :: b) (Forall tidy (cb_script cb)) ns (cb_called c k cb w) w') ->
  cb_data k cb = [] -> (forall st, cb_seen k cb st = Ret st) -> answered s E a b c k cb w r.
Proof.
  intros Hi (w' & ns & -> & Ha) Hd Hs. exists (f w'), w', ns, k, (w_conns w). split; [done|]. split; [by destruct w|].
  rewrite Hd. destruct (grown_refl k). by constructor.
Qed.
Lemma conn_here s E a b c k w : hinv s E (a ++ (c, k) :: b) w -> conn_of c w = Ret (set_links (first b None) (final a None) k) /\ conn_ok (w_reg w) k.
Proof.
  intros []. unfold conn_of. rewrite (seg_here _ _ _ _ _ _ _ hi_list). split; [done|]. by apply Forall_app in hi_conns as [_ [? _]%Forall_cons].
Qed.

Lemma filldata_ok s E a b c k w data p script : hinv s E (a ++ (c, k) :: b) w -> cb_ok k (CbData data p script) -> onwriteref k = None ->
  answered s E a b c k (CbData data p script) w (filldata c (set_links (first b None) (final a None) k) data w).
Proof.
  intros Hi (_ & Hby & Hroom) Hn. destruct (conn_here _ _ _ _ _ _ _ Hi) as [_ Hok]. destruct (co_input _ _ Hok) as (body & Hbd).
  destruct (writer_offset _ _ Hbd) as [Ho _]. unfold filldata. cbn [completed set_links input]. rewrite (co_live _ _ Hok).
  unfold bytearray_writebuffer. destruct (write_append M (input k) body data HM Hbd Hby) as (ba & Eb & Hba); [lia|lia|]. rewrite Eb. cbn [mbind outcome_bind].
  assert (Hgr : grown data Ret k (set_input ba k)).
  { constructor; [done| |done]. intros body' Hb'. replace body' with body; [done|]. destruct Hb' as (_ & _ & _ & <-), Hbd as (_ & _ & _ & <-). done. }
  destruct (grown_ok _ _ _ _ _ Hgr Hok) as (Hok' & Hcr & Hsl).
  eexists _, _, [], (set_input ba k), _. split; [reflexivity|]. split; [|unfold cb_data; by rewrite Hn].
  unfold cb_called, called. rewrite Hn. apply after_nothing. by eapply put_here.
Qed.
Lemma fillheader_ok s E a b c k w line after code script : hinv s E (a ++ (c, k) :: b) w -> cb_ok k (CbHeader line after code script) ->
  answered s E a b c k (CbHeader line after code script) w (fillheader g tables fuel c (set_links (first b None) (final a None) k) line after code script w).
Proof.
  intros Hi (Hs & Hl). destruct (conn_here _ _ _ _ _ _ _ Hi) as [_ Hok]. unfold fillheader. cbn [completed set_links c_seen onheaderref]. rewrite (co_live _ _ Hok).
  destruct (returns_inv _ _ (Hl (c_seen k))) as (st & Est & _). rewrite Est. cbn [mbind outcome_bind]. set (st' := match onheaderref k with Some _ => _ | None => _ end).
  assert (Hgr : grown [] (cb_seen k (CbHeader line after code script)) k (set_seen st' k)).
  { constructor; [done|intros body; by rewrite app_nil_r|]. cbn [cb_seen c_seen set_seen]. rewrite Est. done. }
  destruct (grown_ok _ _ _ _ _ Hgr Hok) as (Hok' & Hcr & Hsl). pose proof (put_here _ _ _ _ _ _ _ _ Hi Hcr Hsl Hok') as Hi1.
  change (set_seen st' (set_links (first b None) (final a None) k)) with (set_links (first b None) (final a None) (set_seen st' k)). unfold put_conn in *.
  set (m := <[c := _]> (w_conns w)) in *. unfold answered, cb_called. destruct (Zlen line <=? 2).
  - destruct (call_ref_ok _ _ _ _ (onheaderref k) [LTable (c~0)] script Hi1 Hs) as (w' & ns & -> & Ha); [apply (co_header _ _ Hok)|]. cbn [mbind outcome_bind].
    by exists (Zlen line), w', ns, (set_seen st' k), m.
  - cbn [mbind outcome_bind]. eexists _, _, [], (set_seen st' k), m. split; [reflexivity|]. split; [by apply after_nothing|done].
Qed.
Lemma run_callback_ok s E a b c k cb w : hinv s E (a ++ (c, k) :: b) w -> cb_ok k cb -> answered s E a b c k cb w (run_callback g tables fuel c cb w).
Proof.
  intros Hi Hcb. destruct (conn_here _ _ _ _ _ _ _ Hi) as [Ec Hok]. unfold run_callback. rewrite Ec. cbn [mbind outcome_bind]. pose proof Hok as [Hlive [_ _ Hwr] Hp Hh Hr Hw _ _].
  pose proof Hcb as [Hsc _]. destruct cb as [line after code script|data p script|x1 x2 x3 x4 p script|size frame p script]; cbn [cb_script] in Hsc.
  - by apply fillheader_ok.
  - cbn [c_opts set_links]. rewrite Hwr. destruct (onwriteref k) as [r|] eqn:Er; [|by apply filldata_ok].
    unfold onwrite. cbn [completed set_links onwriteref]. rewrite Hlive. destruct (call_ref_ok _ _ _ _ (Some r) [LStr data] script Hi Hsc) as (w' & ns & Ew & Ha); [exact Hw|].
    rewrite Er, Ew. cbn [mbind outcome_bind]. eapply (answered_call _ _ _ _ _ _ _ _ _ (fun _ => _)); [done|exists w', ns; split; [reflexivity|by cbn; rewrite Er]|cbn; by rewrite Er|done].
  - unfold onprogress. cbn [completed set_links onprogressref]. rewrite Hlive.
    destruct (call_ref_ok _ _ _ _ (onprogressref k) [LInt x1; LInt x2; LInt x3; LInt x4] script Hi Hsc) as (w' & ns & Ew & Ha); [done|].
    rewrite Ew. cbn [mbind outcome_bind]. eapply (answered_call _ _ _ _ _ _ _ _ _ (fun _ => _)); [done|exists w', ns; split; [reflexivity|done]|done|done].
  - unfold onread. cbn [completed set_links onreadref]. rewrite Hlive.
    destruct (call_ref_ok _ _ _ _ (onreadref k) [LInt size] script Hi Hsc) as (w' & ns & Ew & Ha); [done|].
    rewrite Ew. cbn [mbind outcome_bind]. destruct (match onreadref k with Some _ => true | None => false end), p; cbn [mbind outcome_bind];
    try (destruct (read_answer _ _)); cbn [mbind outcome_bind]; (eapply (answered_call _ _ _ _ _ _ _ _ _ (fun _ => _)); [done|exists w', ns; split; [reflexivity|done]|done|done]).
Qed.
(** A connection that is done ignores its callbacks. *)
Lemma run_callbacks_done l c k w : w_conns w !! c = Some k -> completed k = true -> run_callbacks g tables fuel c l w = Ret w.
Proof.
  intros Hk Hd. induction l as [|cb l IH]; [done|]. cbn [run_callbacks].
  assert (E : exists v, run_callback g tables fuel c cb w = Ret (v, w)).
  { unfold run_callback, conn_of, fillheader, filldata, onwrite, onprogress, onread. rewrite Hk. cbn [mbind outcome_bind]. rewrite Hd.
    destruct cb; cbn [mbind outcome_bind]; try (by eexists). repeat case_match; by eexists. }
  destruct E as [v ->]. exact IH.
Qed.

(** ** The end of a transfer *)

Lemma unref_two x y (f : world -> outcome world) w : (w ← unref_opt x w; w ← unref y w; f w) = (w ← unref_all [x; Some y] w; f w).
Proof. cbn [unref_all]. destruct (unref_opt x w) as [w1| |]; [|done|done]. cbn [mbind outcome_bind unref_opt]. by destruct (unref y w1). Qed.
(** [unref_all], and a reference among those that stay. *)
Lemma unref_all_keeps s l r E cs w v : hinv s (concat (map ref_list l) ++ E) cs w -> r ∈ E -> w_reg w !! r = Some v ->
  exists reg, unref_all l w = Ret (set_reg reg w) /\ hinv s E cs (set_reg reg w) /\ reg !! r = Some v.
Proof.
  intros Hi Hr Hv. destruct (unref_all_ok _ _ _ _ _ Hi) as (reg & Er & Hi' & Ha). exists reg. split; [done|]. split; [done|]. rewrite Ha; [done|].
  intros Hx. pose proof (hl_nodup _ _ _ (hi_refs _ _ _ _ Hi)) as Hn. rewrite <- app_assoc in Hn. apply NoDup_app in Hn as (_ & Hn & _).
  apply (Hn r Hx), elem_of_app. by left.
Qed.

(** What is resumed, and with which body. *)
Definition scheduled (c : positive) (k : ConnInfo) (d : outcome_of) w w' : Prop := exists body, writer (input k) body /\
  if d_memory d then exists ev, w_resume w !! ev = None /\
    w_resume w' = <[ev := mk_resume c (c_L k) (c_start k) (coref k) (response_of k d body)]> (w_resume w)
  else w_resume w' = w_resume w.
Record same_rest w w' : Prop := {
  sr_timers : timers w' = timers w;
  sr_resumed : w_resumed w' = w_resumed w;
  sr_calls : w_calls w' = w_calls w;
  sr_multi : multi w <> None -> multi w' <> None
}.

Lemma complete_ok F C Es Mu n E a c k b d w : hinv (mk_lost F C Es Mu n) E (a ++ (c, k) :: b) w ->
  exists w', http_getpost_complete c d w = Ret w' /\ w_conns w' !! c = Some (set_links None None (set_completed k)) /\
    hinv (mk_lost F ({[c]} ∪ C) ({[c]} ∪ Es) ({[c]} ∪ Mu) (c_slists k + n)) E (a ++ b) w' /\ scheduled c k d w w' /\ same_rest w w'.
Proof.
  intros Hi. destruct (conn_here _ _ _ _ _ _ _ Hi) as [Ec Hok]. destruct (co_thread _ _ Hok) as (r & Er & Hr). destruct (co_input _ _ Hok) as (body & Hbd).
  destruct (writer_read_ready _ _ Hbd) as (ba & Eba & _ & _ & Htot & Hload). unfold http_getpost_complete. rewrite Ec. cbn [mbind outcome_bind completed set_links].
  rewrite (co_live _ _ Hok). unfold on_conn. rewrite Ec. cbn [mbind outcome_bind].
  destruct (remove_ok _ _ _ _ _ _ _ _ _ (set_completed k) _ _ Hi) as (w1 & E1 & Hc1 & Hi1 & m & ->).
  change (set_completed (set_links (first b None) (final a None) k)) with (set_links (first b None) (final a None) (set_completed k)). rewrite E1.
  cbn [mbind outcome_bind bodyref retref input set_links onprogressref onheaderref onreadref onwriteref headerref coref c_L c_start]. rewrite unref_two.
  set (w1 := set_conns _ _ w) in *. assert (Hr1 : w_reg w1 !! r = Some (RvThread (c_L k))) by done.
  apply (hinv_perm _ _ (concat (map ref_list [bodyref k; Some (retref k)]) ++ concat (map ref_list [onprogressref k; onheaderref k; onreadref k; onwriteref k; Some (headerref k)]) ++
    ref_list (coref k) ++ E)) in Hi1; [|unfold crefs; cbn [map concat ref_list]; solve_Permutation].
  destruct (unref_all_keeps _ _ r _ _ _ (RvThread (c_L k)) Hi1) as (reg1 & -> & Hi2 & Hr2); [rewrite Er; apply elem_of_app; right; by left|done|]. cbn [mbind outcome_bind].
  rewrite Eba, Htot, Hload. cbn [mbind outcome_bind].
  destruct (unref_all_keeps _ _ r _ _ _ (RvThread (c_L k)) Hi2) as (reg2 & -> & Hi3 & Hr3); [rewrite Er; by left|done|]. cbn [mbind outcome_bind].
  change (response_of (set_links (first b None) (final a None) k) d body) with (response_of k d body). set (resp := response_of k d body).
  destruct (d_memory d) eqn:Ed.
  - eexists. split; [reflexivity|]. split; [done|]. split; [|split; [|by constructor]].
    + apply resume_add; [exact Hi3|apply not_elem_of_dom, is_fresh|by exists r].
    + exists body. split; [done|]. rewrite Ed. eexists. split; [|reflexivity]. cbn. apply not_elem_of_dom, is_fresh.
  - destruct (unref_all_ok _ [coref k] E _ _ ltac:(cbn [map concat]; rewrite app_nil_r; exact Hi3)) as (reg3 & E3 & Hi4 & _). cbn [unref_all] in E3.
    destruct (unref_opt (coref k) _) as [w4| |] eqn:E4; [|done|done]. cbn [mbind outcome_bind] in E3. injection E3 as ->.
    eexists. split; [reflexivity|]. split; [done|]. split; [exact Hi4|]. split; [|by constructor]. exists body. by rewrite Ed.
Qed.

Lemma not_lost s E a c k b w : hinv s E (a ++ (c, k) :: b) w -> (c ∉ l_conns s) /\ (c ∉ l_easy s) /\ (c ∉ l_multi s).
Proof.
  intros []. rewrite ids_mid in hi_new. destruct hi_new as (H2 & H3 & H4). rewrite disj_cons in H2, H3, H4. tauto.
Qed.
Lemma finish_ok s E a c k b d late w : hinv s E (a ++ (c, k) :: b) w ->
  exists w', finish g tables fuel c d late w = Ret w' /\ hinv s E (a ++ b) w' /\ scheduled c k d w w' /\ same_rest w w'.
Proof.
  intros Hi. destruct (not_lost _ _ _ _ _ _ _ Hi) as (HC & HE & HMu). destruct s as [F C Es Mu n]. cbn in HC, HE, HMu.
  destruct (conn_here _ _ _ _ _ _ _ Hi) as [Ec Hok]. unfold finish. rewrite Ec. cbn [mbind outcome_bind].
  destruct (complete_ok _ _ _ _ _ _ _ _ _ _ d _ Hi) as (w1 & -> & Hc1 & Hi1 & Hs & [R1 R2 R3 R4]). cbn [mbind outcome_bind].
  rewrite (run_callbacks_done late c _ w1 Hc1 eq_refl). cbn [mbind outcome_bind c_slists set_links].
  destruct (multi_remove_ok _ _ _ _ _ _ _ _ _ Hi1 HMu) as (m & -> & Hi2). cbn [mbind outcome_bind].
  destruct (slist_free_ok _ _ _ _ _ _ _ _ _ Hi2) as (sl & -> & Hi3). cbn [mbind outcome_bind].
  destruct (easy_cleanup_ok _ _ _ _ _ _ _ _ _ Hi3 HE HMu) as (e & -> & Hi4). cbn [mbind outcome_bind].
  destruct (free_conn_ok _ _ _ _ _ _ _ _ _ Hi4 HC) as (mm & -> & Hi5).
  eexists. split; [reflexivity|]. split; [exact Hi5|]. split; [exact Hs|]. by constructor.
Qed.
Lemma drain_one_ok s E a c k b late w : hinv s E (a ++ (c, k) :: b) w ->
  exists w', drain_one g tables fuel c late w = Ret w' /\ hinv s E (a ++ b) w' /\ w_resume w' = w_resume w /\ same_rest w w'.
Proof.
  intros Hi. destruct (not_lost _ _ _ _ _ _ _ Hi) as (HC & HE & HMu). destruct s as [F C Es Mu n]. cbn in HC, HE, HMu.
  destruct (conn_here _ _ _ _ _ _ _ Hi) as [Ec Hok]. unfold drain_one. rewrite Ec. cbn [mbind outcome_bind].
  destruct (remove_ok _ _ _ _ _ _ _ _ _ k _ _ Hi) as (w1 & E1 & Hc1 & Hi1 & m & ->). unfold conn_of in Ec. destruct (w_conns w !! c) as [k0|] eqn:Ek; [|done].
  injection Ec as ->. erewrite put_same in E1 by done. rewrite E1. cbn [mbind outcome_bind completed set_links]. rewrite (co_live _ _ Hok).
  erewrite on_conn_eq by exact Hc1. cbn [mbind outcome_bind bodyref retref onprogressref onheaderref onreadref onwriteref headerref coref set_links c_slists].
  set (w2 := set_conns (<[c := _]> _) _ _) in *. assert (Hi2 : hinv (mk_lost F ({[c]} ∪ C) ({[c]} ∪ Es) ({[c]} ∪ Mu) (c_slists k + n))
    (concat (map ref_list [bodyref k; onprogressref k; onheaderref k; onreadref k; onwriteref k; Some (headerref k); Some (retref k); coref k]) ++ E) (a ++ b) w2).
  { apply (put_lost _ _ _ _ c); [by apply elem_of_union_l, elem_of_singleton|]. eapply hinv_perm; [|exact Hi1]. unfold crefs. cbn [map concat ref_list]. solve_Permutation. }
  assert (Hc2 : w_conns w2 !! c = Some (set_completed (set_links None None k))) by apply lookup_insert_eq. assert (Hq : same_rest w w2) by by constructor.
  assert (Hres : w_resume w2 = w_resume w) by done. destruct Hq as [R1 R2 R3 R4]. clearbody w2. clear Hi1 E1 Hc1.
  destruct (unref_all_ok _ _ _ _ _ Hi2) as (reg & -> & Hi3 & _). cbn [mbind outcome_bind].
  destruct (slist_free_ok _ _ _ _ _ _ _ _ _ Hi3) as (sl & -> & Hi4). cbn [mbind outcome_bind].
  rewrite (run_callbacks_done late c (set_completed (set_links None None k))) by (exact Hc2 || done). cbn [mbind outcome_bind].
  destruct (multi_remove_ok _ _ _ _ _ _ _ _ _ Hi4 HMu) as (m1 & -> & Hi5). cbn [mbind outcome_bind].
  destruct (easy_cleanup_ok _ _ _ _ _ _ _ _ _ Hi5 HE HMu) as (e & -> & Hi6). cbn [mbind outcome_bind].
  destruct (free_conn_ok _ _ _ _ _ _ _ _ _ Hi6 HC) as (mm & -> & Hi7).
  eexists. split; [reflexivity|]. split; [exact Hi7|]. split; [exact Hres|]. by constructor.
Qed.
Lemma drain_ok cs n late s E w : hinv s E cs w -> (length cs <= n)%nat ->
  exists w', drain g tables fuel n late w = Ret w' /\ hinv s E [] w' /\ w_resume w' = w_resume w /\ same_rest w w'.
Proof.
  revert n w. induction cs as [|[c k] cs IH]; intros n w Hi Hn.
  - exists w. destruct n; cbn [drain]; rewrite (hi_head _ _ _ _ Hi); by split.
  - destruct n as [|n]; cbn [length] in Hn; [lia|]. cbn [drain]. rewrite (hi_head _ _ _ _ Hi). cbn [first].
    destruct (drain_one_ok _ _ [] c k cs (late c) w Hi) as (w1 & -> & Hi1 & Hr1 & [R1 R2 R3 R4]). cbn [mbind outcome_bind].
    destruct (IH n w1 Hi1) as (w2 & -> & Hi2 & Hr2 & [S1 S2 S3 S4]); [lia|]. exists w2. split; [done|]. split; [done|]. split; [congruence|]. constructor; try congruence. tauto.
Qed.
Lemma cleanup_ok s E cs late w : hinv s E cs w -> l_multi s = ∅ ->
  exists w', cleanup_http_curl g tables fuel late w = Ret w' /\ hinv s E [] w' /\ w_resume w' = w_resume w /\ multi w' = None /\ timers w' = false /\
    w_resumed w' = w_resumed w /\ w_calls w' = w_calls w.
Proof.
  intros Hi Hm. unfold cleanup_http_curl. destruct (drain_ok cs (size (w_conns w)) late s E w Hi) as (w1 & -> & Hi1 & Hr & []).
  { rewrite <- (length_fmap fst cs). rewrite <- (size_dom (w_conns w)), (hi_dom _ _ _ _ Hi).
    pose proof (hi_nodup _ _ _ _ Hi) as Hn. rewrite <- (size_list_to_set (C:=gset positive) _ Hn). apply subseteq_size, union_subseteq_l. }
  cbn [mbind outcome_bind]. eexists. split; [reflexivity|]. split; [|done]. destruct Hi1. constructor; cbn; try done. cbn in *. by rewrite Hm.
Qed.
Lemma resume_cb_ok s E cs ev i script w : hinv s E cs w -> w_resume w !! ev = Some i -> Forall q_ok script ->
  exists w' ns s', resume_cb g tables fuel ev script w = Ret w' /\ hinv s' E (ns ++ cs) w' /\ l_multi s' = l_multi s /\ (Forall tidy script -> s' = s) /\
    w_resume w' = delete ev (w_resume w) /\ timers w' = timers w /\ w_resumed w' = w_resumed w ++ [i] /\ w_calls w' = w_calls w /\ (multi w <> None -> multi w' <> None).
Proof.
  intros Hi Hev Hs. unfold resume_cb. rewrite Hev. pose proof (resume_take _ _ _ _ _ _ (timers w) Hi Hev) as Hi1. set (w1 := set_resume _ _ w) in *.
  pose proof (proj1 (hinv_logs _ _ _ _ i (1%positive, []) true Hi1)) as Hi2. destruct (run_script_ok script _ _ _ _ Hi2 Hs) as (w2 & ns & -> & s2 & Hi3 & Hm & Hg & [Q1 Q2 Q3 Q4 Q5]).
  cbn [mbind outcome_bind]. destruct (unref_all_ok _ [ri_coref i] E _ _ ltac:(cbn [map concat]; rewrite app_nil_r; exact Hi3)) as (reg3 & E3 & Hi4 & _). cbn [unref_all] in E3.
  destruct (unref_opt (ri_coref i) w2) as [w4| |] eqn:E4; [|done|done]. cbn [mbind outcome_bind] in E3. injection E3 as ->.
  exists (set_reg reg3 w2), ns, s2. by repeat (split; [done|]).
Qed.

(** Messages of transfers that are done. *)
Definition msg_ids (msgs : list (positive * outcome_of * list callback)) : list positive := map (fun x => x.1.1) msgs.
Lemma check_ok msgs s E cs w : hinv s E cs w -> NoDup (msg_ids msgs) -> (forall c, c ∈ msg_ids msgs -> c ∈ ids cs) ->
  exists w' cs', timer_check_multi_info_cb g tables fuel msgs w = Ret w' /\ hinv s E cs' w' /\ same_rest w w' /\
    (forall c k, (c, k) ∈ cs -> c ∉ msg_ids msgs -> (c, k) ∈ cs') /\
    (forall ev i, w_resume w !! ev = Some i -> w_resume w' !! ev = Some i) /\
    (forall c k d late, (c, k) ∈ cs -> (c, d, late) ∈ msgs -> d_memory d = true -> exists ev body, writer (input k) body /\
       w_resume w !! ev = None /\ w_resume w' !! ev = Some (mk_resume c (c_L k) (c_start k) (coref k) (response_of k d body))).
Proof.
  revert cs w. induction msgs as [|[[c d] late] msgs IH]; intros cs w Hi Hn Hin.
  - exists w, cs. split; [done|]. split; [done|]. split; [by constructor|]. split; [done|]. split; [done|]. by intros ? ? ? ? _ ?%elem_of_nil.
  - cbn [msg_ids map fst] in *. apply NoDup_cons in Hn as [Hc Hn]. destruct (ids_split c cs) as (a & k & b & ->); [apply Hin; by left|].
    destruct (finish_ok s E a c k b d late w Hi) as (w1 & E1 & Hi1 & (body & Hbd & Hres) & [R1 R2 R3 R4]). cbn [timer_check_multi_info_cb]. rewrite E1. cbn [mbind outcome_bind].
    assert (Hnc : c ∉ ids (a ++ b)) by (rewrite elem_of_ids; apply (nodup_mid a c k b), (hi_nodup _ _ _ _ Hi)).
    destruct (IH (a ++ b) w1 Hi1 Hn) as (w2 & cs' & -> & Hi2 & [S1 S2 S3 S4] & Hk & Hr & Hd).
    { intros x Hx. specialize (Hin x ltac:(by right)). rewrite ids_mid in Hin. apply elem_of_union in Hin as [->%elem_of_singleton|]; done. }
    assert (Hkeep : forall ev i, w_resume w !! ev = Some i -> w_resume w1 !! ev = Some i).
    { intros ev i Hev. destruct (d_memory d); [|by rewrite Hres]. destruct Hres as (ev' & Hn' & ->). rewrite lookup_insert_ne by congruence. done. }
    assert (Hmid : forall x y, (x, y) ∈ a ++ (c, k) :: b -> (x = c /\ y = k) \/ (x <> c /\ (x, y) ∈ a ++ b)).
    { intros x y Hx. destruct (decide (x = c)) as [->|].
      - left. split; [done|]. apply elem_of_app in Hx as [Hx|[[= <-]|Hx]%elem_of_cons]; [|done|]; exfalso; apply Hnc, elem_of_ids, list_elem_of_fmap; exists (c, y); (split; [done|]); apply elem_of_app; tauto.
      - right. split; [done|]. apply elem_of_app. apply elem_of_app in Hx as [Hx|[[= <- <-]|Hx]%elem_of_cons]; tauto. }
    exists w2, cs'. split; [done|]. split; [done|]. split; [constructor; try congruence; tauto|]. split; [|split].
    + intros x y Hx [Hxc Hxm]%not_elem_of_cons. apply Hk; [|done]. by destruct (Hmid x y Hx) as [[-> _]|[_ ?]].
    + intros ev i Hev. by apply Hr, Hkeep.
    + intros x y dd ll Hx Hmsg Hmem. apply elem_of_cons in Hmsg as [[= -> -> ->]|Hmsg].
      * destruct (Hmid c y Hx) as [[_ ->]|[? _]]; [|done]. rewrite Hmem in Hres. destruct Hres as (ev & Hev & Eres). exists ev, body. split; [done|]. split; [done|].
        apply Hr. rewrite Eres. by rewrite lookup_insert_eq.
      * destruct (Hmid x y Hx) as [[-> _]|[_ Hx']].
        { exfalso. apply Hc, list_elem_of_fmap. by exists (c, dd, ll). }
        destruct (Hd x y dd ll Hx' Hmsg Hmem) as (ev & bd & ? & Hev & ?). exists ev, bd. split; [done|]. split; [|done].
        destruct (w_resume w !! ev) as [i|] eqn:Ei; [|done]. apply Hkeep in Ei. congruence.
Qed.

(** ** Every step *)

Definition op_scripts (o : hop) : list request :=
  match o with HRequest q => [q] | HCallback _ cb => cb_script cb | HResume _ l => l | _ => [] end.
(** libcurl calls back for handles it has, and its timer once it is there; a transfer is
    done once; requests are made while the module's timers are there. *)
Definition hop_ok (o : hop) w : Prop :=
  match o with
  | HOpen | HCleanup _ => True
  | HRequest q => q_ok q /\ timers w = true
  | HCallback c cb => c ∈ default ∅ (multi w) /\ forall k, w_conns w !! c = Some k -> cb_ok k cb
  | HTimer => multi w <> None
  | HCheck msgs => NoDup (msg_ids msgs) /\ forall c, c ∈ msg_ids msgs -> c ∈ default ∅ (multi w)
  | HResume ev l => is_Some (w_resume w !! ev) /\ Forall q_ok l /\ timers w = true
  end.
Definition ends (o : hop) (c : positive) : Prop :=
  match o with HCheck msgs => c ∈ msg_ids msgs | HCleanup _ => True | _ => False end.
Definition op_data (o : hop) (c : positive) (k : ConnInfo) : list Z :=
  match o with HCallback c' cb => if decide (c' = c) then cb_data k cb else [] | _ => [] end.
Definition op_seen (o : hop) (c : positive) (k : ConnInfo) : hstate -> outcome hstate :=
  match o with HCallback c' cb => if decide (c' = c) then cb_seen k cb else Ret | _ => Ret end.

Definition rest_ok (s : lost) w : Prop := l_multi s = ∅ /\ (multi w <> None -> timers w = true).
Record step_ok (o : hop) (s : lost) (cs : conns) w (s' : lost) (cs' : conns) w' : Prop := {
  so_inv : hinv s' [] cs' w';
  so_rest : rest_ok s' w';
  so_tidy : Forall tidy (op_scripts o) -> s' = s;
  so_conns : forall c k, (c, k) ∈ cs -> ~ ends o c -> exists k', (c, k') ∈ cs' /\ grown (op_data o c k) (op_seen o c k) k k';
  so_resume : forall ev i, w_resume w !! ev = Some i -> (forall l, o <> HResume ev l) -> w_resume w' !! ev = Some i
}.

(** Requests are added in front. *)
Lemma after_step o s cs cs' ns w w0 w' : rest_ok s w -> after_request s [] cs' (Forall tidy (op_scripts o)) ns w0 w' ->
  w_resume w0 = w_resume w -> timers w0 = timers w -> multi w0 = multi w -> (multi w' <> None -> timers w = true) ->
  (forall c k, (c, k) ∈ cs -> ~ ends o c -> exists k', (c, k') ∈ cs' /\ grown (op_data o c k) (op_seen o c k) k k') ->
  exists s', step_ok o s cs w s' (ns ++ cs') w'.
Proof.
  intros [Hm Ht] (s' & Hi & Hm' & Hg & [Q1 Q2 Q3 Q4 Q5]) E1 E2 E3 Hmt Hk. exists s'. constructor; try done.
  - split; [congruence|]. intros Hx. rewrite Q2, E2. by apply Hmt.
  - intros c k Hc He. destruct (Hk c k Hc He) as (k' & Hk' & Hgr). exists k'. split; [apply elem_of_app; by right|done].
  - intros ev i Hev _. by rewrite Q1, E1.
Qed.
Lemma kept_all (o : hop) (cs : conns) : (forall c k, op_data o c k = []) -> (forall c k, op_seen o c k = Ret) ->
  forall c k, (c, k) ∈ cs -> ~ ends o c -> exists k', (c, k') ∈ cs /\ grown (op_data o c k) (op_seen o c k) k k'.
Proof. intros Hd Hs c k Hc _. exists k. rewrite Hd, Hs. split; [done|apply grown_refl]. Qed.
Lemma callback_step c cb s cs w : hinv s [] cs w -> rest_ok s w -> hop_ok (HCallback c cb) w ->
  exists w' s' cs', hexec g tables fuel (HCallback c cb) w = Ret w' /\ step_ok (HCallback c cb) s cs w s' cs' w'.
Proof.
  intros Hi Hr [Hc Hcb]. pose proof Hr as [Hm Ht]. rewrite (hi_multi _ _ _ _ Hi), Hm, (right_id_L ∅ (∪)) in Hc. destruct (ids_split _ _ Hc) as (a & k & b & ->).
  destruct (conn_here _ _ _ _ _ _ _ Hi) as [Ec _]. assert (Hok : cb_ok k cb).
  { unfold conn_of in Ec. destruct (w_conns w !! c) as [k0|]; [|done]. injection Ec as ->. by specialize (Hcb _ eq_refl). }
  destruct (run_callback_ok _ _ _ _ _ _ _ _ Hi Hok) as (v & w' & ns & k' & m & E1 & Ha & Hg). cbn [hexec]. rewrite E1. cbn [mbind outcome_bind].
  assert (Hc0 : forall w0, w_resume (cb_called c k cb w0) = w_resume w0 /\ timers (cb_called c k cb w0) = timers w0 /\ multi (cb_called c k cb w0) = multi w0).
  { intros w0. unfold cb_called, called. repeat case_match; done. }
  destruct (Hc0 (set_conns m (inflight_head w) w)) as (C1 & C2 & C3). assert (Hmn : multi w <> None).
  { intros En. rewrite (ids_mid a c k b) in Hc. pose proof (hi_multi _ _ _ _ Hi) as Hx. rewrite En, ids_mid in Hx. cbn in Hx.
    assert (c ∈ (∅ : gset positive)) as []%not_elem_of_empty. rewrite Hx. by do 2 apply elem_of_union_l; apply elem_of_singleton. }
  destruct (after_step (HCallback c cb) s (a ++ (c, k) :: b) _ ns w _ w' Hr Ha C1 C2 C3) as (s' & Hs).
  - intros _. by apply Ht.
  - intros x y Hx _. cbn [op_data op_seen]. destruct (decide (c = x)) as [<-|Hne].
    + assert (y = k) as ->.
      { pose proof (hi_nodup _ _ _ _ Hi) as Hn. apply nodup_mid in Hn as [Hn _]. apply elem_of_app in Hx as [Hx|[[= <-]|Hx]%elem_of_cons]; [|done|];
        exfalso; apply Hn, list_elem_of_fmap; exists (c, y); (split; [done|]); apply elem_of_app; tauto. }
      exists k'. split; [apply elem_of_app; right; by left|done].
    + exists y. split; [|apply grown_refl]. apply elem_of_app. apply elem_of_app in Hx as [Hx|[[= <- <-]|Hx]%elem_of_cons]; [by left|done|right; by right].
  - by exists w', s', (ns ++ a ++ (c, k') :: b).
Qed.
Lemma hexec_ok o s cs w : hinv s [] cs w -> rest_ok s w -> hop_ok o w ->
  exists w' s' cs', hexec g tables fuel o w = Ret w' /\ step_ok o s cs w s' cs' w'.
Proof.
  intros Hi Hr Ho. pose proof Hr as [Hm Ht]. destruct o as [|q|c cb| |msgs|ev l|late]; cbn [hexec hop_ok] in *.
  - eexists _, s, cs. split; [reflexivity|]. pose proof (hinv_logs s [] cs w (mk_resume 1 1 None None (mk_response ∅ None None None 0 [] None)) (1%positive, []) true Hi) as (_ & _ & Hi').
    constructor; try done. by apply kept_all.
  - destruct Ho as [Hq Htm]. destruct (http_call_ok _ _ _ _ _ Hi Hq) as (a & w' & ns & E1 & Ha & _). rewrite E1. cbn [mbind outcome_bind].
    assert (Ha' : after_request s [] cs (Forall tidy [q]) ns w w') by (eapply after_weaken; [|exact Ha]; by rewrite Forall_singleton).
    destruct (after_step (HRequest q) s cs cs ns w w w' Hr Ha') as (s' & Hs); try done; [by apply kept_all|by exists w', s', (ns ++ cs)].
  - by apply callback_step.
  - exists w, s, cs. unfold multi_timer_cb. rewrite Ht by done. split; [done|]. constructor; try done. by apply kept_all.
  - destruct Ho as [Hn Hin]. destruct (check_ok msgs s [] cs w Hi Hn) as (w' & cs' & E1 & Hi' & [R1 R2 R3 R4] & Hk & Hres & _).
    { intros c Hc. specialize (Hin c Hc). by rewrite (hi_multi _ _ _ _ Hi), Hm, (right_id_L ∅ (∪)) in Hin. }
    exists w', s, cs'. split; [done|]. constructor; try done.
    + split; [done|]. rewrite R1. intros Hx. destruct (multi w) eqn:Em; [by apply Ht|]. destruct msgs as [|[[c d] ll] msgs]; [|by specialize (Hin c ltac:(by left)); apply not_elem_of_empty in Hin].
      cbn in E1. injection E1 as <-. by rewrite Em in Hx.
    + intros c k Hc He. exists k. split; [by apply Hk|apply grown_refl].
    + intros ev i Hev _. by apply Hres.
  - destruct Ho as ((i & Hev) & Hl & Htm). destruct (resume_cb_ok _ _ _ _ _ _ _ Hi Hev Hl) as (w' & ns & s' & E1 & Hi' & Hm' & Hg & Hres & Htt & Hre & Hca & Hmu).
    exists w', s', (ns ++ cs). split; [done|]. constructor; try done.
    + split; [congruence|]. intros _. by rewrite Htt.
    + intros c k Hc He. exists k. split; [apply elem_of_app; by right|apply grown_refl].
    + intros ev' i' Hev' Hne. rewrite Hres, lookup_delete_ne; [done|]. intros ->. by apply (Hne l).
  - destruct (cleanup_ok _ _ _ late _ Hi Hm) as (w' & E1 & Hi' & Hres & Hmu & Htt & _). exists w', s, []. split; [done|]. constructor; try done.
    intros ev i Hev _. by rewrite Hres.
Qed.

(** ** Sequences of steps *)

Fixpoint hrun (ops : list hop) w : outcome world :=
  match ops with [] => Ret w | o :: ops => w ← hexec g tables fuel o w; hrun ops w end.
Fixpoint admitted (ops : list hop) w : Prop :=
  match ops with [] => True | o :: ops => hop_ok o w /\ forall w', hexec g tables fuel o w = Ret w' -> admitted ops w' end.
Definition client_ok w : Prop := exists s cs, hinv s [] cs w /\ rest_ok s w.

Lemma hrun_app ops1 ops2 w : hrun (ops1 ++ ops2) w = (w ← hrun ops1 w; hrun ops2 w).
Proof. revert w. induction ops1 as [|o ops1 IH]; intros w; cbn [app hrun]; [done|]. destruct (hexec _ _ _ o w); cbn [mbind outcome_bind]; [apply IH|done|done]. Qed.
Lemma admitted_app ops1 ops2 w w' : admitted (ops1 ++ ops2) w -> hrun ops1 w = Ret w' -> admitted ops2 w'.
Proof.
  revert w. induction ops1 as [|o ops1 IH]; intros w; cbn [app admitted hrun]; [by intros ? [= <-]|]. intros [_ Ha].
  destruct (hexec _ _ _ o w) as [w1| |]; [|done|done]. by apply IH, Ha.
Qed.
Lemma admitted_front ops1 ops2 w : admitted (ops1 ++ ops2) w -> admitted ops1 w.
Proof. revert w. induction ops1 as [|o ops1 IH]; intros w; cbn [app admitted]; [done|]. intros [Ho Ha]. split; [done|]. intros w' E1. by apply IH, Ha. Qed.
Lemma client_start_ok : hinv (mk_lost ∅ ∅ ∅ ∅ 0) [] [] http_start /\ rest_ok (mk_lost ∅ ∅ ∅ ∅ 0) http_start.
Proof. split; [|done]. constructor; try done; [by apply NoDup_nil|apply holds_nil]. Qed.

Lemma hrun_ok ops s cs w : hinv s [] cs w -> rest_ok s w -> admitted ops w ->
  exists w' s' cs', hrun ops w = Ret w' /\ hinv s' [] cs' w' /\ rest_ok s' w' /\ (Forall (fun o => Forall tidy (op_scripts o)) ops -> s' = s).
Proof.
  revert s cs w. induction ops as [|o ops IH]; intros s cs w Hi Hr Ha; [by exists w, s, cs|]. destruct Ha as [Ho Ha].
  destruct (hexec_ok o s cs w Hi Hr Ho) as (w1 & s1 & cs1 & E1 & []). cbn [hrun]. rewrite E1. cbn [mbind outcome_bind].
  destruct (IH s1 cs1 w1 so_inv0 so_rest0 (Ha w1 E1)) as (w2 & s2 & cs2 & E2 & Hi2 & Hr2 & Ht2). exists w2, s2, cs2. do 3 (split; [done|]).
  intros [Hto Ht]%Forall_cons. by rewrite Ht2, so_tidy0.
Qed.

(** C29: In any order of requests, callbacks, completions, resumptions, timers and cleanups that libcurl and the event loop can
    make, every step returns and is a defined use of memory, of the registry and of libcurl's handles: no connection, reference,
    list of strings or handle is used after it was given back, or given back twice, and every connection in flight is on the
    list and has its functions and its coroutine in the registry, with everything else accounted for.  That is as long as
    ([admitted]): the table of a request can be read ([q_ok]): a number in [verbose] is in the range of [int], and the loop over
    [headers] comes to its end (a key without a string form is copied from NULL; a key that is a number is converted in place,
    which can make the loop start over); requests are made while the timers of the module are there, so after [cleanup] only once the module has been
    opened again; a header line that libcurl hands over can be read ([header_line] returns; one without its line end is read past its end)
    and the body fits in memory ([cb_ok]); libcurl calls back only for handles it has, its timer only while there is a multi handle,
    and says once that a transfer is done ([hop_ok]).  [http_client_errors] has the runs that these exclude. *)
Theorem http_client_safe ops : admitted ops http_start -> returns (hrun ops http_start) client_ok.
Proof.
  intros Ha. destruct client_start_ok as [Hi Hr]. destruct (hrun_ok ops _ _ _ Hi Hr Ha) as (w' & s' & cs' & -> & Hi' & Hr' & _). by exists s', cs'.
Qed.

(** Only coroutines that are about to be resumed are left. *)
Definition nothing_left w : Prop :=
  w_conns w = ∅ /\ w_easy w = ∅ /\ default ∅ (multi w) = ∅ /\ w_slists w = 0%nat /\
  (forall r, is_Some (w_reg w !! r) -> exists ev i, w_resume w !! ev = Some i /\ ri_coref i = Some r).
Lemma idle_nothing_left w : hinv (mk_lost ∅ ∅ ∅ ∅ 0) [] [] w -> nothing_left w.
Proof.
  intros []. cbn in *. rewrite (left_id_L ∅ (∪)) in hi_dom, hi_easy, hi_multi. split; [by apply dom_empty_iff_L|]. split; [done|]. split; [done|]. split; [done|].
  intros r Hr. destruct (decide (r ∈ resume_refs (w_resume w))) as [Hin|Hin].
  - unfold resume_refs in Hin. apply list_elem_of_In, in_concat in Hin as (l & Hl & Hrl). apply in_map_iff in Hl as ([ev i] & <- & Hm).
    apply list_elem_of_In, elem_of_map_to_list in Hm. exists ev, i. split; [done|]. cbn in Hrl. destruct (ri_coref i); [|done]. destruct Hrl as [->|[]]. done.
  - rewrite (hl_rest _ _ _ hi_refs r Hin), lookup_empty in Hr. by destruct Hr.
Qed.

(** C30: When no request was refused after it had kept a body or a list of strings, and none left through an error of Lua, the client
    has nothing once no request is in flight, or after the cleanup, but the coroutines that wait to be resumed. *)
Theorem http_client_released ops late : admitted ops http_start -> Forall (fun o => Forall tidy (op_scripts o)) ops ->
  returns (hrun ops http_start) (fun w => inflight_head w = None -> nothing_left w) /\
  returns (hrun (ops ++ [HCleanup late]) http_start) (fun w => nothing_left w /\ multi w = None).
Proof.
  intros Ha Ht. destruct client_start_ok as [Hi Hr]. destruct (hrun_ok ops _ _ _ Hi Hr Ha) as (w' & s' & cs' & E1 & Hi' & Hr' & Hs). rewrite hrun_app, E1.
  rewrite (Hs Ht) in *. cbn [mbind outcome_bind hrun hexec]. split.
  - intros Hh. rewrite (hi_head _ _ _ _ Hi') in Hh. destruct cs' as [|[c k] cs']; [|done]. by apply idle_nothing_left.
  - destruct (cleanup_ok _ _ _ late _ Hi' (proj1 Hr')) as (w2 & -> & Hi2 & _ & Hm & _). cbn [mbind outcome_bind]. split; [by apply idle_nothing_left|done].
Qed.

(** ** What a response is made of *)

Definition all_data (ops : list hop) (c : positive) (k : ConnInfo) : list Z := concat (map (fun o => op_data o c k) ops).
Fixpoint all_seen (ops : list hop) (c : positive) (k : ConnInfo) (st : hstate) : outcome hstate :=
  match ops with [] => Ret st | o :: ops => st ← op_seen o c k st; all_seen ops c k st end.
Lemma grown_ops data seen k k' o c : grown data seen k k' -> op_data o c k' = op_data o c k /\ op_seen o c k' = op_seen o c k.
Proof. intros [-> _ _]. by destruct o. Qed.
Lemma grown_all data seen k k' ops c : grown data seen k k' -> all_data ops c k' = all_data ops c k /\ forall st, all_seen ops c k' st = all_seen ops c k st.
Proof.
  intros Hg. induction ops as [|o ops [IH1 IH2]]; [done|]. destruct (grown_ops _ _ _ _ o c Hg) as [E1 E2]. unfold all_data in *. cbn [map concat all_seen].
  rewrite E1, IH1. split; [done|]. intros st. rewrite E2. destruct (op_seen o c k st); cbn [mbind outcome_bind]; [apply IH2|done|done].
Qed.
Lemma grown_trans d1 d2 (s1 s2 : hstate -> outcome hstate) k1 k2 k3 : grown d1 s1 k1 k2 -> grown d2 s2 k2 k3 -> grown (d1 ++ d2) (fun st => st ← s1 st; s2 st) k1 k3.
Proof.
  intros [A1 A2 A3] [B1 B2 B3]. constructor.
  - rewrite B1, A1. done.
  - intros body Hb. rewrite app_assoc. by apply B2, A2.
  - rewrite A3. cbn [mbind outcome_bind]. done.
Qed.
(** A connection while its transfer goes on. *)
Lemma hrun_kept ops s cs w c k : hinv s [] cs w -> rest_ok s w -> admitted ops w -> (c, k) ∈ cs -> Forall (fun o => ~ ends o c) ops ->
  exists w' s' cs' k', hrun ops w = Ret w' /\ hinv s' [] cs' w' /\ rest_ok s' w' /\ (c, k') ∈ cs' /\ grown (all_data ops c k) (all_seen ops c k) k k'.
Proof.
  revert s cs w k. induction ops as [|o ops IH]; intros s cs w k Hi Hr Ha Hc He.
  - exists w, s, cs, k. do 4 (split; [done|]). apply grown_refl.
  - destruct Ha as [Ho Ha]. apply Forall_cons in He as [Heo He]. destruct (hexec_ok o s cs w Hi Hr Ho) as (w1 & s1 & cs1 & E1 & []). cbn [hrun]. rewrite E1. cbn [mbind outcome_bind].
    destruct (so_conns0 c k Hc Heo) as (k1 & Hc1 & Hg1). destruct (IH s1 cs1 w1 k1 so_inv0 so_rest0 (Ha w1 E1) Hc1 He) as (w2 & s2 & cs2 & k2 & E2 & Hi2 & Hr2 & Hc2 & Hg2).
    exists w2, s2, cs2, k2. do 4 (split; [done|]). destruct (grown_all _ _ _ _ ops c Hg1) as [D1 D2].
    destruct (grown_trans _ _ _ _ _ _ _ Hg1 Hg2) as [G1 G2 G3]. constructor; [done|change (all_data (o :: ops) c k) with (op_data o c k ++ all_data ops c k); by rewrite <- D1|]. cbn [all_seen]. rewrite <- G3.
    destruct (op_seen o c k (c_seen k)); cbn [mbind outcome_bind]; [by rewrite D2|done|done].
Qed.
Lemma hrun_resume ops s cs w ev i : hinv s [] cs w -> rest_ok s w -> admitted ops w -> w_resume w !! ev = Some i -> Forall (fun o => forall l, o <> HResume ev l) ops ->
  exists w' s' cs', hrun ops w = Ret w' /\ hinv s' [] cs' w' /\ rest_ok s' w' /\ w_resume w' !! ev = Some i.
Proof.
  revert s cs w. induction ops as [|o ops IH]; intros s cs w Hi Hr Ha Hev He; [by exists w, s, cs|]. destruct Ha as [Ho Ha]. apply Forall_cons in He as [Heo He].
  destruct (hexec_ok o s cs w Hi Hr Ho) as (w1 & s1 & cs1 & E1 & []). cbn [hrun]. rewrite E1. cbn [mbind outcome_bind]. by eapply IH; [..|apply Ha|apply so_resume0|].
Qed.

(** The response of a transfer, and whom it is for. *)
Record answers (q : request) (a : answer) (c : positive) (data : list Z) (seen : outcome hstate) (d : outcome_of) (i : ResumeInfo) : Prop := {
  an_conn : ri_conn i = c;
  an_thread : match a with AYield => ri_L i = q_L q /\ ri_start i = None | _ => exists f, ri_start i = Some f end;
  an_headers : exists st, seen = Ret st /\ r_headers (ri_response i) = hs_headers st /\ r_charset (ri_response i) = hs_charset st;
  an_body : r_body (ri_response i) = match data with [] => None | l => Some l end;
  an_error : r_error (ri_response i) = match cstr (d_error d) with [] => None | e => Some e end;
  an_code : r_code (ri_response i) = default (-1) (d_code d)
}.

(** C31: A request that was taken is answered once: when libcurl says its transfer is done, after any steps in which it was not,
    its coroutine (or a new one, with [oncomplete]) is to be resumed with the headers of the lines libcurl gave, the bytes it gave
    in their order, the error and the code; that stays so until it is resumed, with that response, and is then gone. *)
Theorem http_client_data q a w w1 ops d late ops2 script : client_ok w -> q_ok q -> timers w = true ->
  http_getpost g tables fuel q w = Ret (a, w1) -> a = AYield \/ a = ANothing ->
  let c := next_conn w in admitted (ops ++ [HCheck [(c, d, late)]]) w1 -> Forall (fun o => ~ ends o c) ops -> d_memory d = true ->
  exists k w2 ev i, w_conns w1 !! c = Some k /\ hrun (ops ++ [HCheck [(c, d, late)]]) w1 = Ret w2 /\ w_resume w2 !! ev = Some i /\
    answers q a c (all_data ops c k) (all_seen ops c k (mk_hs ∅ None)) d i /\
    (admitted (ops2 ++ [HResume ev script]) w2 -> Forall (fun o => forall l, o <> HResume ev l) ops2 ->
     returns (hrun (ops2 ++ [HResume ev script]) w2) (fun w3 => last (w_resumed w3) = Some i /\ w_resume w3 !! ev = None)).
Proof.
  intros (s & cs & Hi & Hr) Hq Ht Eq Haa c Ha He Hd. destruct (http_getpost_ok _ _ _ _ _ Hi Hq) as (a' & w1' & ns & E1 & (s1 & Hi1 & Hm1 & _ & [Q1 Q2 Q3 Q4 Q5]) & _ & Hs).
  rewrite Eq in E1. injection E1 as <- <-. assert (Hk : exists k, ns = [(c, k)] /\ started q a k) by (destruct Haa as [-> | ->]; exact Hs). clear Hs.
  destruct Hk as (k & -> & Hin & Hseen & Hst). cbn [app] in Hi1. assert (Hr1 : rest_ok s1 w1).
  { destruct Hr. split; [congruence|]. intros _. by rewrite Q2. }
  destruct (hrun_kept ops s1 ((c, k) :: cs) w1 c k Hi1 Hr1) as (w2 & s2 & cs2 & k2 & E2 & Hi2 & Hr2 & Hc2 & [Hg1 Hg2 Hg3]); [by eapply admitted_front|by left|done|].
  destruct (hrun ops w1) as [w2'| |] eqn:E2'; [injection E2 as ->|done|done]. pose proof (admitted_app _ _ _ _ Ha E2') as [[_ Hin2] _].
  destruct (check_ok [(c, d, late)] s2 [] cs2 w2 Hi2) as (w3 & cs3 & E3 & Hi3 & [R1 R2 R3 R4] & _ & _ & Hdone); [by apply NoDup_singleton| |].
  { intros x ->%list_elem_of_singleton. apply elem_of_ids, list_elem_of_fmap. by exists (c, k2). }
  destruct (Hdone c k2 d late Hc2) as (ev & body & Hbody & _ & Hev); [by left|done|]. clear Hdone.
  specialize (Hg2 [] Hin). cbn [app] in Hg2. assert (body = all_data ops c k) as -> by (destruct Hbody as (_ & _ & _ & <-), Hg2 as (_ & _ & _ & <-); done).
  set (kk := set_links (first cs None) None k). exists kk, w3, ev. eexists. split; [apply (hi_list _ _ _ _ Hi1)|]. split.
  { rewrite hrun_app, E2'. cbn [mbind outcome_bind hrun hexec]. rewrite E3. done. }
  split; [exact Hev|]. split.
  - assert (Ed : all_data ops c kk = all_data ops c k /\ forall st, all_seen ops c kk st = all_seen ops c k st).
    { unfold all_data. clear. induction ops as [|o ops [IH1 IH2]]; [done|]. cbn [map concat all_seen]. rewrite IH1. split; [by destruct o as [| |? []| | | |]|].
      intros st. assert (Ho : op_seen o c kk st = op_seen o c k st) by by destruct o as [| |? []| | | |]. rewrite Ho. by destruct (op_seen o c k st); cbn [mbind outcome_bind]. }
    destruct Ed as [-> ->]. rewrite Hseen in Hg3. constructor; cbn; try done.
    + rewrite Hg1. by destruct Haa as [-> | ->].
    + by exists (c_seen k2).
  - intros Ha2 He2. assert (Hr3 : rest_ok s2 w3) by (destruct Hr2 as [? Hx]; split; [done|]; intros _; rewrite R1; apply Hx; intros En; rewrite En in Hin2; by specialize (Hin2 c ltac:(by left)); apply not_elem_of_empty in Hin2).
    destruct (hrun_resume ops2 s2 cs3 w3 ev _ Hi3 Hr3 (admitted_front _ _ _ Ha2) Hev He2) as (w4 & s4 & cs4 & E4 & Hi4 & Hr4 & Hev4).
    pose proof (admitted_app _ _ _ _ Ha2 E4) as [(_ & Hl & _) _]. rewrite hrun_app, E4. cbn [mbind outcome_bind hrun hexec].
    destruct (resume_cb_ok _ _ _ _ _ _ _ Hi4 Hev4 Hl) as (w5 & ? & ? & -> & _ & _ & _ & Hx & _ & Hy & _). cbn [mbind outcome_bind returns]. rewrite Hx, Hy, lookup_delete_eq, last_snoc. done.
Qed.
End Props.

(** ** Concrete clients *)

Section Witness.
Context {T : Type} `{LuaTable T} `{LuaAPI} `{Allocator}.
Context (g : globals) (tables : positive -> option T) (fuel : nat) (M : Z).
Definition nxt (o : hop) (w : world) : world := match hexec g tables fuel o w with Ret w' => w' | _ => w end.
Lemma admitted_cons o ops w : hop_ok tables fuel M o w -> admitted g tables fuel M ops (nxt o w) -> admitted g tables fuel M (o :: ops) w.
Proof. intros Ho Ha. split; [done|]. intros w' E. unfold nxt in Ha. by rewrite E in Ha. Qed.
End Witness.

Definition client_tables (a : positive) : option alist :=
  Some (match a with
        | 1%positive => al_set (al_set (al_set [] (key "url") (key "http://h/")) (key "onreceive") (LFun 7)) (key "headers") (LTable 2)
        | 2%positive => al_set [] (key "Accept") (key "*/*")
        | 3%positive => al_set (al_set [] (key "url") (key "http://h/")) (key "verbose") (LBool true)
        | 4%positive => al_set (al_set (al_set (al_set [] (key "url") (key "http://h/")) (key "headers") (LTable 2)) (key "body") (key "data")) (key "oncomplete") (LBool true)
        | 5%positive => al_set (al_set [] (key "url") (key "http://h/")) (key "headers") (LTable 6)
        | _ => al_set [] (LBool true) (key "x")
        end).
Definition simple_get : request := mk_request HTTP_GET (key "http://h/") 9 true None true.
Definition table_get (a : positive) : request := mk_request HTTP_GET (LTable a) 9 true None true.
Definition done_ok : outcome_of := mk_done [] (Some []) (Some 200) [None; None; None; None; None; Some 1] true.
Definition run (ops : list hop) : outcome world := hrun sample_globals client_tables 10 ops http_start.

(** What goes wrong: an error of Lua while the table is read (a boolean [verbose]) leaves the connection, its
    handle and its references behind; a header with a boolean as its key is copied from NULL; a refused request leaves its body and its header list; a request from
    where it cannot wait raises, and its transfer goes on all the same; without memory at the end nobody is resumed; the cleanup
    forgets the coroutines that wait to be resumed; a request after the cleanup, when the module is not opened again, makes
    libcurl set a timer that is not there. *)
Theorem http_client_errors :
  returns (run [HOpen; HRequest (table_get 3)]) (fun w => inflight_head w = None /\ size (w_conns w) = 1%nat /\ size (w_easy w) = 1%nat /\ size (w_reg w) = 2%nat) /\
  run [HOpen; HRequest (table_get 5)] = UB /\
  returns (run [HOpen; HRequest (table_get 4)]) (fun w => w_conns w = ∅ /\ w_easy w = ∅ /\ w_slists w = 1%nat /\ size (w_reg w) = 1%nat) /\
  returns (http_call sample_globals client_tables 10 (mk_request HTTP_GET (key "http://h/") 1 true None false) (luaopen_fan_http_core http_start))
    (fun '(a, w) => a = ARaise (lit "attempt to yield from outside a coroutine") /\ inflight_head w = Some 1%positive) /\
  returns (run [HOpen; HRequest simple_get; HCheck [(1%positive, mk_done [] None None [] false, [])]])
    (fun w => inflight_head w = None /\ w_resume w = ∅ /\ w_resumed w = []) /\
  returns (run [HOpen; HRequest simple_get; HCheck [(1%positive, done_ok, [])]; HCleanup (fun _ => [])])
    (fun w => size (w_resume w) = 1%nat /\ size (w_reg w) = 1%nat /\ w_resumed w = []) /\
  run [HOpen; HCleanup (fun _ => []); HRequest simple_get; HTimer] = UB.
Proof. refine (conj _ (conj _ (conj _ (conj _ (conj _ (conj _ _)))))); vm_compute; repeat split. Qed.

Definition status_line : list Z := lit "HTTP/1.1 200 OK" ++ CRLF.
Definition get_header : hop := HCallback 1 (CbHeader status_line [] 200 []).
Definition get_data : hop := HCallback 1 (CbData (lit "hi") PError []).
Definition get_done : hop := HCheck [(1%positive, done_ok, [])].
Definition one_get : list hop := [HOpen; HRequest simple_get; get_header; get_data; HTimer; get_done; HResume 1 []].
Abbreviation next_world := (nxt sample_globals client_tables 10).

Lemma simple_get_ok : q_ok client_tables 10 simple_get.
Proof. split; [|by intros a Ha]. intros Hn. by destruct Hn. Qed.
Lemma simple_get_tidy : tidy sample_globals client_tables 10 simple_get.
Proof. intros reg r b E. left. vm_compute in E. by injection E as <- _. Qed.
Lemma status_line_read st : returns (header_line [] status_line st) (fun _ => True).
Proof.
  rewrite header_line_status; [done|]. exists (lit "HTTP/1.1"), (lit "200 OK" ++ CRLF). split; [done|]. repeat constructor; done.
Qed.

(** What can be decided about a world. *)
Definition has (c : positive) (w : world) : bool := bool_decide (c ∈ default ∅ (multi w)).
Definition offset_at (c : positive) (w : world) : option Z := fmap (M:=option) (fun k => ba_offset (input k)) (w_conns w !! c).
Lemma has_in c w : has c w = true -> c ∈ default ∅ (multi w).
Proof. apply bool_decide_eq_true. Qed.
Lemma header_admitted w : has 1 w = true -> hop_ok client_tables 10 (2 ^ 40) get_header w.
Proof. intros Hh. split; [by apply has_in|]. intros k _. split; [done|apply status_line_read]. Qed.
Lemma data_admitted w : has 1 w = true -> offset_at 1 w = Some 0 -> hop_ok client_tables 10 (2 ^ 40) get_data w.
Proof.
  intros Hh Ho. split; [by apply has_in|]. intros k Hk. unfold offset_at in Ho. rewrite Hk in Ho. injection Ho as Ho. split; [done|].
  split; [|by rewrite Ho]. repeat constructor; by cbn.
Qed.
Lemma done_admitted w : has 1 w = true -> hop_ok client_tables 10 (2 ^ 40) get_done w.
Proof. intros Hh. split; [by apply NoDup_singleton|]. intros c ->%list_elem_of_singleton. by apply has_in. Qed.
Lemma one_get_admitted : admitted sample_globals client_tables 10 (2 ^ 40) one_get http_start.
Proof.
  apply admitted_cons; [done|]. apply admitted_cons; [split; [apply simple_get_ok|reflexivity]|].
  apply admitted_cons; [apply header_admitted; vm_compute; reflexivity|]. apply admitted_cons; [apply data_admitted; vm_compute; reflexivity|].
  apply admitted_cons; [vm_compute; discriminate|]. apply admitted_cons; [apply done_admitted; vm_compute; reflexivity|].
  apply admitted_cons; [|exact I]. split; [vm_compute; by eexists|]. split; [done|vm_compute; reflexivity].
Qed.

Lemma some_memory : 2 ^ 32 <= 2 ^ 40 < 2 ^ 62.
Proof. lia. Qed.
Lemma one_get_tidy : Forall (fun o => Forall (tidy sample_globals client_tables 10) (op_scripts o)) one_get.
Proof. unfold one_get. repeat (apply Forall_cons; split); cbn [op_scripts cb_script get_header get_data get_done]; repeat (apply Forall_nil || (apply Forall_cons; split)); apply simple_get_tidy || done. Qed.
Lemma http_client_safe_witness : returns (run one_get) (client_ok).
Proof. unfold run. pose proof (http_client_safe _ _ _ _ zero_alloc_upto some_memory _ one_get_admitted) as X. exact X. Defined.
Lemma http_client_released_witness : returns (run one_get) (fun w => inflight_head w = None -> nothing_left w) /\
  returns (run (one_get ++ [HCleanup (fun _ => [])])) (fun w => nothing_left w /\ multi w = None).
Proof. unfold run. pose proof (http_client_released _ _ _ _ zero_alloc_upto some_memory _ (fun _ => []) one_get_admitted one_get_tidy) as X. exact X. Defined.

(** A world with the module open, a request, and what libcurl does with it. *)
Definition opened : world := luaopen_fan_http_core http_start.
Definition get_world : world := next_world (HRequest simple_get) opened.
Definition get_ops : list hop := [get_header; get_data].
Lemma opened_ok : client_ok opened.
Proof.
  destruct client_start_ok as [Hi Hr]. assert (Ha : admitted sample_globals client_tables 10 (2 ^ 40) [HOpen] http_start) by (apply admitted_cons; [done|exact I]).
  destruct (hrun_ok _ _ _ _ zero_alloc_upto some_memory _ _ _ _ Hi Hr Ha) as (w & s & cs & E & Hi' & Hr' & _). cbn in E. injection E as <-. by exists s, cs.
Qed.
Lemma get_admitted : admitted sample_globals client_tables 10 (2 ^ 40) (get_ops ++ [get_done]) get_world.
Proof.
  apply admitted_cons; [apply header_admitted; vm_compute; reflexivity|]. apply admitted_cons; [apply data_admitted; vm_compute; reflexivity|].
  apply admitted_cons; [apply done_admitted; vm_compute; reflexivity|exact I].
Qed.
Lemma http_client_data_witness : exists w2 ev i, hrun sample_globals client_tables 10 (get_ops ++ [get_done]) get_world = Ret w2 /\ w_resume w2 !! ev = Some i /\
  ri_L i = 9%positive /\ r_body (ri_response i) = Some (lit "hi") /\ r_code (ri_response i) = 200.
Proof.
  assert (Ec : next_conn opened = 1%positive) by (vm_compute; reflexivity).
  assert (Eq : http_getpost sample_globals client_tables 10 simple_get opened = Ret (AYield, get_world)) by (vm_compute; reflexivity).
  assert (He : Forall (fun o => ~ ends o 1) get_ops) by (unfold get_ops; constructor; [intros []|constructor; [intros []|constructor]]).
  assert (Et : timers opened = true) by reflexivity. assert (Ed : d_memory done_ok = true) by reflexivity.
  pose proof (http_client_data sample_globals client_tables 10 (2 ^ 40) zero_alloc_upto some_memory simple_get AYield opened get_world get_ops done_ok [] [] []
    opened_ok simple_get_ok Et Eq (or_introl eq_refl)) as X. cbv zeta in X. rewrite Ec in X.
  destruct (X get_admitted He Ed) as (k & w2 & ev & i & Hk & E2 & Hev & [_ [Ht _] _ Hb _ Hcode] & _).
  exists w2, ev, i. split; [exact E2|]. split; [exact Hev|]. split; [exact Ht|]. split; [|exact Hcode]. rewrite Hb.
  vm_compute in Hk. injection Hk as <-. vm_compute. reflexivity.
Defined.
