(* ===== verification/MariadbData.v ===== *)
(** * src/mariadb: values between the database and Lua

    What a cursor makes of the text of a column ([pushvalue], luamariadb_cursor.c),
    what a prepared statement sends for the parameters it was given ([_st_bind],
    luamariadb_stmt.c), and what it makes of the columns of a row
    (luamariadb_stmt_execute.c binds the buffers, luamariadb_stmt_fetch.c reads them).
    The client library is not under src/: what it reads and writes is stated as what
    lies in memory at the addresses the code gives it ([sent], [stores]). *)

From S2P Require Import Prelude Lua Double.

(** ** Columns *)

Inductive enum_field_types : Type :=
  | MYSQL_TYPE_DECIMAL | MYSQL_TYPE_TINY | MYSQL_TYPE_SHORT | MYSQL_TYPE_LONG | MYSQL_TYPE_FLOAT | MYSQL_TYPE_DOUBLE
  | MYSQL_TYPE_NULL | MYSQL_TYPE_TIMESTAMP | MYSQL_TYPE_LONGLONG | MYSQL_TYPE_INT24 | MYSQL_TYPE_DATE | MYSQL_TYPE_TIME
  | MYSQL_TYPE_DATETIME | MYSQL_TYPE_YEAR | MYSQL_TYPE_NEWDATE | MYSQL_TYPE_VARCHAR | MYSQL_TYPE_BIT | MYSQL_TYPE_JSON
  | MYSQL_TYPE_NEWDECIMAL | MYSQL_TYPE_ENUM | MYSQL_TYPE_SET | MYSQL_TYPE_TINY_BLOB | MYSQL_TYPE_MEDIUM_BLOB
  | MYSQL_TYPE_LONG_BLOB | MYSQL_TYPE_BLOB | MYSQL_TYPE_VAR_STRING | MYSQL_TYPE_STRING | MYSQL_TYPE_GEOMETRY.
#[export] Instance enum_field_types_dec : EqDecision enum_field_types.
Proof. solve_decision. Defined.
Record MYSQL_FIELD : Type := mk_field { f_name : list Z; f_type : enum_field_types; f_length : Z }.

(** [strtoll(s, NULL, 10)]: spaces, a sign, digits; out of range gives the bound. *)
Fixpoint drop_spaces (s : list Z) : list Z :=
  match s with c :: r => if (c =? 32) || ((9 <=? c) && (c <=? 13)) then drop_spaces r else s | [] => [] end.
Definition clamp64 (n : Z) : Z := Z.max (- 2 ^ 63) (Z.min (2 ^ 63 - 1) n).
Definition strtoll (s : list Z) : Z :=
  match drop_spaces s with
  | 45 :: r => clamp64 (- (take_digits 10 0 0 r).1.1)
  | 43 :: r => clamp64 (take_digits 10 0 0 r).1.1
  | r => clamp64 (take_digits 10 0 0 r).1.1
  end.

(** A cell of a row: no text for NULL. *)
Definition pushvalue (row : option (list Z)) (field_type : enum_field_types) : lua_value :=
  match row with
  | None => LNil
  | Some row =>
      match field_type with
      | MYSQL_TYPE_TINY | MYSQL_TYPE_SHORT | MYSQL_TYPE_LONG | MYSQL_TYPE_LONGLONG | MYSQL_TYPE_INT24 | MYSQL_TYPE_YEAR => LInt (strtoll (cstr row))
      | MYSQL_TYPE_FLOAT | MYSQL_TYPE_DOUBLE | MYSQL_TYPE_DECIMAL | MYSQL_TYPE_NEWDECIMAL => LFlt (strtod (cstr row)).1
      | _ => LStr row
      end
  end.
Definition getcolumntype (t : enum_field_types) : list Z :=
  lit (match t with
       | MYSQL_TYPE_VAR_STRING | MYSQL_TYPE_STRING => "string"
       | MYSQL_TYPE_DECIMAL | MYSQL_TYPE_SHORT | MYSQL_TYPE_LONG | MYSQL_TYPE_FLOAT | MYSQL_TYPE_DOUBLE | MYSQL_TYPE_LONGLONG | MYSQL_TYPE_INT24
       | MYSQL_TYPE_YEAR | MYSQL_TYPE_TINY => "number"
       | MYSQL_TYPE_TINY_BLOB | MYSQL_TYPE_MEDIUM_BLOB | MYSQL_TYPE_LONG_BLOB | MYSQL_TYPE_BLOB => "binary"
       | MYSQL_TYPE_DATE | MYSQL_TYPE_NEWDATE => "date"
       | MYSQL_TYPE_DATETIME => "datetime"
       | MYSQL_TYPE_TIME => "time"
       | MYSQL_TYPE_TIMESTAMP => "timestamp"
       | MYSQL_TYPE_ENUM | MYSQL_TYPE_SET => "set"
       | MYSQL_TYPE_NULL => "null"
       | _ => "undefined"
       end)%string.
(** The two tables of [create_colinfo]; [%.20s] cuts. *)
Definition column_type (f : MYSQL_FIELD) : list Z :=
  snprintf 50 (ztake 20 (getcolumntype (f_type f)) ++ lit "(" ++ dec_of_Z (s64 (f_length f)) ++ lit ")").
Definition colinfo (fields : list MYSQL_FIELD) : list (list Z) * list (list Z) :=
  (map (fun f => cstr (f_name f)) fields, map column_type fields).

(** A table with names as keys: nil removes. *)
Abbreviation row_table := (gmap (list Z) lua_value).
Definition set_field (name : list Z) (v : lua_value) (t : row_table) : row_table :=
  match v with LNil => delete name t | _ => <[name := v]> t end.
(** The loop of [fetch_row_result]: the names are those of the table [colnames]. *)
Fixpoint row_loop (names : list (list Z)) (fields : list MYSQL_FIELD) (cells : list (option (list Z))) (t : row_table) : row_table :=
  match names, fields, cells with
  | n :: names, f :: fields, c :: cells => row_loop names fields cells (set_field n (pushvalue c (f_type f)) t)
  | _, _, _ => t
  end.
Definition row_of (fields : list MYSQL_FIELD) (cells : list (option (list Z))) : row_table :=
  row_loop (colinfo fields).1 fields cells ∅.

(** ** The parameters of a statement *)

(** Where a buffer points: into the string at a slot of the statement's table, or to an
    entry of [nums]. *)
Inductive bufptr : Type := PNone | PStr (i : nat) (s : list Z) | PNum (i : nat).
Record MYSQL_BIND : Type := mk_bind {
  buffer_type : enum_field_types;
  buffer : bufptr;
  buffer_length : Z;
  is_unsigned : bool;
  b_length : option nat
}.
Definition zero_bind : MYSQL_BIND := mk_bind MYSQL_TYPE_DECIMAL PNone 0 false None.
Definition MYSQL_SET_VARSTRING (p : bufptr) (n : Z) (b : MYSQL_BIND) : MYSQL_BIND :=
  mk_bind MYSQL_TYPE_VAR_STRING p n (is_unsigned b) (b_length b).
Definition MYSQL_SET_DOUBLE (p : bufptr) (b : MYSQL_BIND) : MYSQL_BIND := mk_bind MYSQL_TYPE_DOUBLE p 8 false (b_length b).
Definition MYSQL_SET_TINYINT (p : bufptr) (b : MYSQL_BIND) : MYSQL_BIND := mk_bind MYSQL_TYPE_TINY p 1 false (b_length b).

(** [sb_nums]: doubles, as bit patterns; [sb_str]: the strings kept at i + 1000;
    [sb_bound]: what [mysql_stmt_bind_param] has copied. *)
Record binding : Type := mk_binding {
  sb_bind : list MYSQL_BIND;
  sb_nums : list Z;
  sb_str : gmap nat (list Z);
  sb_has : bool;
  sb_bound : option (list MYSQL_BIND)
}.
(** After [stmt_prepare_result]. *)
Definition new_binding (n : nat) : binding := mk_binding (replicate n zero_bind) (replicate n 0) ∅ false None.

(** The arguments: a value, or [LONG_DATA]. *)
Inductive sparam : Type := SVal (v : lua_value) | SLongData.

Section Bind.
Context `{LuaAPI}.

Definition bind_one (i : nat) (p : sparam) (s : binding) : binding :=
  let '(mk_binding bs nums str has bound) := s in
  let b := nth i bs zero_bind in
  match p with
  | SVal (LStr t) => mk_binding (<[i := MYSQL_SET_VARSTRING (PStr i t) (Zlen t) b]> bs) nums (<[i := t]> str) has bound
  | SVal (LBool x) => mk_binding (<[i := MYSQL_SET_TINYINT (PNum i) b]> bs) (<[i := d_of_Z (c_bool x)]> nums) str has bound
  | SVal LNil => mk_binding (<[i := mk_bind MYSQL_TYPE_NULL (buffer b) (buffer_length b) (is_unsigned b) (b_length b)]> bs) nums str has bound
  | SVal v =>
      if is_number v then mk_binding (<[i := MYSQL_SET_DOUBLE (PNum i) b]> bs) (<[i := default 0 (lua_tonumberx v)]> nums) str has bound
      else s
  | SLongData => mk_binding (<[i := mk_bind MYSQL_TYPE_STRING PNone 0 false (Some i)]> bs) nums str has bound
  end.
Fixpoint bind_loop (i : nat) (args : list sparam) (s : binding) : binding :=
  match args with [] => s | p :: args => bind_loop (S i) args (bind_one i p s) end.
Definition st_bind_args (cache_bind : bool) (args : list sparam) (s : binding) : outcome binding :=
  if negb (Nat.eqb (length args) (length (sb_bind s))) then
    Raise (lit "parameters number does not match, excepted " ++ dec_of_Z (Zlen (sb_bind s)) ++ lit ", got " ++ dec_of_Z (Zlen args))
  else
    let s := bind_loop 0 args s in
    Ret (if negb cache_bind || negb (sb_has s) then mk_binding (sb_bind s) (sb_nums s) (sb_str s) true (Some (sb_bind s)) else s).
End Bind.

(** What lies at the address of a bound parameter when the statement is executed.  A
    string that is no longer in its slot may be gone. *)
Inductive dbparam : Type := DNull | DText (s : list Z) | DDouble (d : Z) | DTiny (n : Z) | DLongData.
Definition s8 (z : Z) : Z := (z + 2 ^ 7) mod 2 ^ 8 - 2 ^ 7.
Definition sent (s : binding) (b : MYSQL_BIND) : outcome dbparam :=
  match buffer_type b, buffer b with
  | MYSQL_TYPE_NULL, _ => Ret DNull
  | MYSQL_TYPE_VAR_STRING, PStr i t =>
      if decide (sb_str s !! i = Some t) then
        t ← mem_load (Some t) 0 (match b_length b with Some j => nth j (sb_nums s) 0 | None => buffer_length b end); Ret (DText t)
      else UB
  | MYSQL_TYPE_DOUBLE, PNum i => Ret (DDouble (nth i (sb_nums s) 0))
  | MYSQL_TYPE_TINY, PNum i => Ret (DTiny (s8 (nth 0 (le_bytes 8 (nth i (sb_nums s) 0)) 0)))
  | MYSQL_TYPE_STRING, PNone => Ret DLongData
  | _, _ => UB
  end.

(** ** The columns of a statement *)

Definition sizeof_MYSQL_TIME : Z := 40.
(** The buffer [stmt_execute_result] binds for a column: its type and its size; [None]:
    none. *)
Definition result_bind (f : MYSQL_FIELD) : option (enum_field_types * Z) :=
  match f_type f with
  | MYSQL_TYPE_TINY_BLOB | MYSQL_TYPE_MEDIUM_BLOB | MYSQL_TYPE_LONG_BLOB | MYSQL_TYPE_BLOB
  | MYSQL_TYPE_VAR_STRING | MYSQL_TYPE_STRING => Some (MYSQL_TYPE_VAR_STRING, f_length f)
  | MYSQL_TYPE_SHORT | MYSQL_TYPE_LONG | MYSQL_TYPE_LONGLONG | MYSQL_TYPE_INT24 | MYSQL_TYPE_YEAR | MYSQL_TYPE_TINY => Some (MYSQL_TYPE_LONGLONG, 8)
  | MYSQL_TYPE_FLOAT | MYSQL_TYPE_DOUBLE => Some (MYSQL_TYPE_DOUBLE, 8)
  | MYSQL_TYPE_DATE | MYSQL_TYPE_TIME | MYSQL_TYPE_DATETIME | MYSQL_TYPE_TIMESTAMP => Some (MYSQL_TYPE_TIMESTAMP, sizeof_MYSQL_TIME)
  | _ => None
  end.

Record MYSQL_TIME : Type := mk_time { year : Z; month : Z; day : Z; hour : Z; minute : Z; second : Z; second_part : Z; time_type : Z }.
(** What a buffer has after a fetch: bytes, or a time. *)
Inductive content : Type := CBytes (block : list Z) | CTime (t : MYSQL_TIME).
Record column : Type := mk_column { c_null : bool; c_buffer : content; c_len : Z }.

Inductive dbvalue : Type := DVal (v : lua_value) | DDate (fields : list (string * Z)).
Definition push_time (t : MYSQL_TIME) : dbvalue :=
  if 0 <? time_type t then
    DDate [("year", year t); ("month", month t); ("day", day t); ("hour", hour t); ("minute", minute t); ("second", second t); ("second_part", second_part t)]%string
  else DVal LNil.
(** One column in the loop of [stmt_fetch_result]. *)
Definition fetch_column (f : MYSQL_FIELD) (c : column) : outcome dbvalue :=
  if c_null c then Ret (DVal LNil)
  else
    match f_type f with
    | MYSQL_TYPE_TINY_BLOB | MYSQL_TYPE_MEDIUM_BLOB | MYSQL_TYPE_LONG_BLOB | MYSQL_TYPE_BLOB
    | MYSQL_TYPE_VAR_STRING | MYSQL_TYPE_STRING =>
        match c_buffer c with CBytes b => s ← mem_load (Some b) 0 (c_len c); Ret (DVal (LStr s)) | CTime _ => UB end
    | MYSQL_TYPE_SHORT | MYSQL_TYPE_LONG | MYSQL_TYPE_LONGLONG | MYSQL_TYPE_INT24 | MYSQL_TYPE_YEAR | MYSQL_TYPE_TINY =>
        match c_buffer c with CBytes b => s ← mem_load (Some b) 0 8; Ret (DVal (LInt (s64 (le_val s)))) | CTime _ => UB end
    | MYSQL_TYPE_FLOAT | MYSQL_TYPE_DOUBLE =>
        match c_buffer c with CBytes b => s ← mem_load (Some b) 0 8; Ret (DVal (LFlt (le_val s))) | CTime _ => UB end
    | MYSQL_TYPE_DATE | MYSQL_TYPE_TIME | MYSQL_TYPE_DATETIME | MYSQL_TYPE_TIMESTAMP =>
        match c_buffer c with CTime t => Ret (push_time t) | CBytes _ => UB end
    | _ => Ret (DVal LNil)
    end.
Abbreviation stmt_row := (gmap (list Z) dbvalue).
Definition set_column (name : list Z) (v : dbvalue) (t : stmt_row) : stmt_row :=
  match v with DVal LNil => delete name t | _ => <[name := v]> t end.
Fixpoint fetch_loop (fields : list MYSQL_FIELD) (cols : list column) (t : stmt_row) : outcome stmt_row :=
  match fields, cols with
  | f :: fields, c :: cols => v ← fetch_column f c; fetch_loop fields cols (set_column (cstr (f_name f)) v t)
  | _, _ => Ret t
  end.

(** What the library stores through a bound buffer: a value of the column's class; text is
    cut to the buffer, and its length is not. *)
Inductive cell : Type := ENull | EText (s : list Z) | EInt (n : Z) | EDouble (d : Z) | ETime (t : MYSQL_TIME).
Definition stores (f : MYSQL_FIELD) (e : cell) (c : column) : Prop :=
  match e, result_bind f with
  | ENull, _ => c_null c = true
  | EText s, Some (MYSQL_TYPE_VAR_STRING, size) =>
      c_null c = false /\ c_len c = Zlen s /\ exists rest, c_buffer c = CBytes (ztake size s ++ rest) /\ Zlen (ztake size s ++ rest) = size
  | EInt n, Some (MYSQL_TYPE_LONGLONG, _) => c_null c = false /\ c_buffer c = CBytes (le_bytes 8 n)
  | EDouble d, Some (MYSQL_TYPE_DOUBLE, _) => c_null c = false /\ c_buffer c = CBytes (le_bytes 8 d)
  | ETime t, Some (MYSQL_TYPE_TIMESTAMP, _) => c_null c = false /\ c_buffer c = CTime t
  | _, None => c_null c = false
  | _, _ => False
  end.

(** ** The rows of a cursor *)

Definition integer_type (t : enum_field_types) : bool :=
  match t with
  | MYSQL_TYPE_TINY | MYSQL_TYPE_SHORT | MYSQL_TYPE_LONG | MYSQL_TYPE_LONGLONG | MYSQL_TYPE_INT24 | MYSQL_TYPE_YEAR => true
  | _ => false
  end.

Lemma drop_spaces_digits s : Forall (fun c => is_digit c = true) s -> drop_spaces s = s.
Proof.
  destruct s as [|c s]; [done|]. intros [Hc _]%Forall_cons. unfold is_digit in Hc. cbn [drop_spaces].
  destruct (Z.eqb_spec c 32), (Z.leb_spec 9 c), (Z.leb_spec c 13); done || lia.
Qed.
Lemma digits_no_nul s : Forall (fun c => is_digit c = true) s -> cstr s = s.
Proof. intros Hs. apply cstr_id. eapply Forall_impl; [exact Hs|]. intros c Hc ->. done. Qed.
(** [strtoll] reads back what decimal printing writes. *)
Lemma strtoll_dec n : strtoll (cstr (dec_of_Z n)) = clamp64 n.
Proof.
  unfold dec_of_Z. destruct (Z.ltb_spec n 0) as [Hn|Hn].
  - destruct (dec_of_nonneg_spec (- n)) as (Hd & Hv & _); [lia|]. cbn [cstr]. change (45 =? 0) with false. cbv iota.
    rewrite digits_no_nul by done. unfold strtoll. cbn [drop_spaces]. change ((45 =? 32) || ((9 <=? 45) && (45 <=? 13))) with false. cbv iota.
    rewrite take_digits_all by done. cbn [fst]. rewrite Hv. f_equal. lia.
  - destruct (dec_of_nonneg_spec n) as (Hd & Hv & _); [lia|]. rewrite digits_no_nul by done. unfold strtoll. rewrite drop_spaces_digits by done.
    pose proof (take_digits_all _ 0 0 Hd) as Et. rewrite Hv in Et. destruct (dec_of_nonneg n) as [|c r]; [by rewrite Et|].
    apply Forall_cons in Hd as [Hc _]. unfold is_digit in Hc. assert (Hs : c <> 45 /\ c <> 43) by lia. destruct Hs as [H1 H2].
    repeat (case_match; simplify_eq; try done); by rewrite Et.
Qed.

Lemma s64_range z : - 2 ^ 63 <= s64 z < 2 ^ 63.
Proof. unfold s64. pose proof (Z.mod_pos_bound (z + 2 ^ 63) (2 ^ 64)). lia. Qed.
Lemma Zlen_dec_s64 z : Zlen (dec_of_Z (s64 z)) <= 20.
Proof.
  pose proof (s64_range z). unfold dec_of_Z. destruct (Z.ltb_spec (s64 z) 0); zlen.
  - pose proof (dec_len (- s64 z) 19 ltac:(lia) ltac:(lia)). lia.
  - pose proof (dec_len (s64 z) 19 ltac:(lia) ltac:(lia)). lia.
Qed.
(** The text of a column's type fits its buffer. *)
Lemma column_type_whole f : column_type f = getcolumntype (f_type f) ++ lit "(" ++ dec_of_Z (s64 (f_length f)) ++ lit ")".
Proof.
  unfold column_type, snprintf. pose proof (Zlen_dec_s64 (f_length f)).
  assert (Ht : Zlen (getcolumntype (f_type f)) <= 9) by (by destruct (f_type f)).
  rewrite (ztake_all 20) by lia. apply ztake_all. zlen. cbn [lit]. zlen. lia.
Qed.

Definition row_value (v : lua_value) : option lua_value := match v with LNil => None | v => Some v end.
Lemma set_field_eq n v t : set_field n v t !! n = row_value v.
Proof. destruct v; cbn; by rewrite ?lookup_delete_eq, ?lookup_insert_eq. Qed.
Lemma set_field_ne n k v t : n <> k -> set_field n v t !! k = t !! k.
Proof. intros Hn. destruct v; cbn; by rewrite ?lookup_delete_ne, ?lookup_insert_ne. Qed.
(** What a row has under a name is the last column of that name. *)
Lemma row_loop_other names : forall fields cells t k, k ∉ names -> row_loop names fields cells t !! k = t !! k.
Proof.
  induction names as [|n names IH]; intros fields cells t k Hk; [done|]. apply not_elem_of_cons in Hk as [Hn Hk].
  destruct fields as [|f fields], cells as [|c cells]; try done. cbn [row_loop]. rewrite IH by done. by apply set_field_ne.
Qed.
Lemma row_loop_last names : forall fields cells t i n f c, names !! i = Some n -> fields !! i = Some f -> cells !! i = Some c ->
  n ∉ drop (S i) names -> row_loop names fields cells t !! n = row_value (pushvalue c (f_type f)).
Proof.
  induction names as [|x names IH]; intros fields cells t i n f c Hn Hf Hc Hl; [done|].
  destruct fields as [|g fields], cells as [|d cells]; try done. cbn [row_loop]. destruct i as [|i]; [|by eapply IH].
  injection Hn as ->. injection Hf as ->. injection Hc as ->. rewrite row_loop_other by done. apply set_field_eq.
Qed.

(** C32: A row of a cursor has, under a name, the last column of that name: nothing for NULL; the integer its text prints, as long as 64 bits
    hold it, and the nearest bound beyond that (so it is for BIGINT UNSIGNED); and the bytes of a column that is no number, NULs included.  The text
    that describes a column's type is never cut. *)
Theorem cursor_rows fields cells i f c : fields !! i = Some f -> cells !! i = Some c -> cstr (f_name f) ∉ drop (S i) (colinfo fields).1 ->
  let v := row_of fields cells !! cstr (f_name f) in
  (c = None -> v = None) /\
  (forall n, c = Some (dec_of_Z n) -> integer_type (f_type f) = true ->
     v = Some (LInt (clamp64 n)) /\ - 2 ^ 63 <= clamp64 n < 2 ^ 63 /\ (- 2 ^ 63 <= n < 2 ^ 63 -> clamp64 n = n)) /\
  (forall s, c = Some s -> getcolumntype (f_type f) <> lit "number" -> f_type f <> MYSQL_TYPE_NEWDECIMAL -> v = Some (LStr s)) /\
  (colinfo fields).1 !! i = Some (cstr (f_name f)) /\
  (colinfo fields).2 !! i = Some (getcolumntype (f_type f) ++ lit "(" ++ dec_of_Z (s64 (f_length f)) ++ lit ")").
Proof.
  intros Hf Hc Hl v. assert (Hn : (colinfo fields).1 !! i = Some (cstr (f_name f))) by (cbn; by rewrite list_lookup_fmap, Hf).
  assert (Hv : v = row_value (pushvalue c (f_type f))) by (by apply (row_loop_last _ _ _ _ i)). rewrite Hv. clear v Hv.
  split; [by intros ->|]. split; [|split; [|split; [done|]]].
  - intros n -> Ht. assert (E : pushvalue (Some (dec_of_Z n)) (f_type f) = LInt (strtoll (cstr (dec_of_Z n)))) by (by destruct (f_type f)).
    rewrite E, strtoll_dec. split; [done|]. unfold clamp64. lia.
  - intros s -> Ht Hd. by destruct (f_type f).
  - cbn. rewrite list_lookup_fmap, Hf. cbn. by rewrite column_type_whole.
Qed.
Definition sample_fields : list MYSQL_FIELD :=
  [mk_field (lit "id") MYSQL_TYPE_LONGLONG 20; mk_field (lit "text") MYSQL_TYPE_VAR_STRING 255; mk_field (lit "id") MYSQL_TYPE_LONG 11].
Definition sample_cells : list (option (list Z)) := [Some (dec_of_Z (2 ^ 64 - 1)); Some [104; 0; 105]; None].
Lemma cursor_rows_witness : row_of sample_fields sample_cells !! lit "id" = None /\ row_of (take 2 sample_fields) (take 2 sample_cells) !! lit "id" = Some (LInt (2 ^ 63 - 1)).
Proof.
  split.
  - assert (Hl : cstr (lit "id") ∉ drop 3 (colinfo sample_fields).1) by (vm_compute; by intros ?%not_elem_of_nil).
    pose proof (cursor_rows sample_fields sample_cells 2 _ _ eq_refl eq_refl Hl) as X. exact (proj1 X eq_refl).
  - assert (Hl : cstr (lit "id") ∉ drop 1 (colinfo (take 2 sample_fields)).1) by (apply (bool_decide_unpack _); vm_compute; exact I).
    pose proof (cursor_rows (take 2 sample_fields) (take 2 sample_cells) 0 _ _ eq_refl eq_refl Hl) as X.
    destruct X as (_ & X & _). destruct (X _ eq_refl eq_refl) as [X1 _]. exact X1.
Defined.

(** ** What a statement sends *)

Section Params.
Context `{LuaAPI}.
Implicit Type s : binding.

(** A boolean is bound as one byte of the double it was stored as, the lowest. *)
Definition param_of (p : sparam) : option dbparam :=
  match p with
  | SVal (LStr t) => Some (DText t)
  | SVal (LBool _) => Some (DTiny 0)
  | SVal LNil => Some DNull
  | SVal v => if is_number v then Some (DDouble (default 0 (lua_tonumberx v))) else None
  | SLongData => Some DLongData
  end.
(** What of a binding belongs to the parameter [i]. *)
Definition entry s (i : nat) : option MYSQL_BIND * option Z * option (list Z) := (sb_bind s !! i, sb_nums s !! i, sb_str s !! i).

Lemma bind_one_ne s i p j : i <> j -> entry (bind_one i p s) j = entry s j.
Proof.
  intros Hn. destruct s as [bs nums str has bound]. unfold entry.
  destruct p as [[]|]; cbn; rewrite ?list_lookup_insert_ne, ?lookup_insert_ne by done; done.
Qed.
Lemma bind_loop_before args : forall i s j, (j < i)%nat -> entry (bind_loop i args s) j = entry s j.
Proof.
  induction args as [|p args IH]; intros i s j Hj; [done|]. cbn [bind_loop]. rewrite IH by lia. apply bind_one_ne. lia.
Qed.
Lemma bind_loop_at args : forall i s j p, args !! j = Some p ->
  exists s0, entry s0 (i + j) = entry s (i + j) /\ entry (bind_loop i args s) (i + j) = entry (bind_one (i + j) p s0) (i + j).
Proof.
  induction args as [|q args IH]; intros i s j p Hj; [done|]. cbn [bind_loop]. destruct j as [|j].
  - injection Hj as ->. rewrite Nat.add_0_r. exists s. split; [done|]. apply bind_loop_before. lia.
  - destruct (IH (S i) (bind_one i q s) j p Hj) as (s0 & E1 & E2). exists s0. rewrite <- Nat.add_succ_comm. split; [|done].
    rewrite E1. apply bind_one_ne. lia.
Qed.
Lemma bind_loop_same args : forall i s, sb_has (bind_loop i args s) = sb_has s /\ sb_bound (bind_loop i args s) = sb_bound s.
Proof.
  induction args as [|p args IH]; intros i s; [done|]. cbn [bind_loop]. destruct (IH (S i) (bind_one i p s)) as [-> ->].
  destruct s as [bs nums str has bound]. destruct p as [[]|]; done.
Qed.

(** What is sent for a parameter, when the buffer is the one of its own entry. *)
Lemma sent_text s i b t : sb_str s !! i = Some t -> buffer_type b = MYSQL_TYPE_VAR_STRING -> buffer b = PStr i t -> buffer_length b = Zlen t ->
  b_length b = None -> sent s b = Ret (DText t).
Proof.
  intros Hs Ht Hb Hn Hl. unfold sent. rewrite Ht, Hb, Hs, decide_True, Hl, Hn by done. unfold mem_load.
  pose proof (Zlen_nonneg t). destruct (Z.eqb_spec (Zlen t) 0) as [E|E]; cbn [mbind outcome_bind]; [by rewrite (proj1 (Zlen_zero t) E)|].
  replace ((0 <=? 0) && (0 <=? Zlen t) && (0 + Zlen t <=? Zlen t)) with true by lia. cbn [mbind outcome_bind]. by rewrite zdrop_0, ztake_all by lia.
Qed.
Lemma bound_sent s' s0 i p b0 x d : entry s0 i = (Some b0, Some x, sb_str s0 !! i) -> (is_string (match p with SVal v => v | SLongData => LNil end) = true -> b_length b0 = None) ->
  entry s' i = entry (bind_one i p s0) i -> param_of p = Some d -> exists b, sb_bind s' !! i = Some b /\ sent s' b = Ret d.
Proof.
  intros E0 Hl E Hd. destruct s0 as [bs nums str has bound]. unfold entry in E0. injection E0 as Hb Hx. cbn [sb_bind sb_nums] in *.
  assert (Hi : (i < length bs)%nat) by (by eapply lookup_lt_Some). assert (Hj : (i < length nums)%nat) by (by eapply lookup_lt_Some).
  assert (Hnth : nth i bs zero_bind = b0) by (by apply nth_lookup_Some). destruct p as [v|].
  - destruct v; try done; cbn [param_of is_number] in Hd; injection Hd as <-; cbn [bind_one is_number] in E; rewrite ?Hnth in E.
    all: unfold entry in E; cbn [sb_bind sb_nums sb_str] in E; rewrite ?list_lookup_insert_eq, ?lookup_insert_eq in E by done.
    all: pose proof E as [= Eb En Es]; eexists; split; [exact Eb|].
    + done.
    + unfold sent. cbn [MYSQL_SET_TINYINT buffer buffer_type]. rewrite (nth_lookup_Some _ _ _ _ En). by destruct b.
    + unfold sent. cbn [MYSQL_SET_DOUBLE buffer buffer_type]. by rewrite (nth_lookup_Some _ _ _ _ En).
    + unfold sent. cbn [MYSQL_SET_DOUBLE buffer buffer_type]. by rewrite (nth_lookup_Some _ _ _ _ En).
    + by apply (sent_text _ i); [..|apply Hl].
  - injection Hd as <-. unfold entry in E. cbn [bind_one sb_bind sb_nums sb_str] in E. rewrite list_lookup_insert_eq in E by done.
    injection E as Eb _ _. eexists. split; [exact Eb|done].
Qed.

(** A string where [LONG_DATA] was: the length pointer stays, and points to the entry of [nums]. *)
Lemma bound_stale s' s0 i t b0 x : entry s0 i = (Some b0, Some x, sb_str s0 !! i) -> b_length b0 = Some i -> entry s' i = entry (bind_one i (SVal (LStr t)) s0) i -> 0 <= x ->
  exists b, sb_bind s' !! i = Some b /\ sent s' b = if x <=? Zlen t then Ret (DText (ztake x t)) else UB.
Proof.
  intros E0 Hl E Hx0. destruct s0 as [bs nums str has bound]. unfold entry in E0. injection E0 as Hb Hx. cbn [sb_bind sb_nums] in *.
  assert (Hi : (i < length bs)%nat) by (by eapply lookup_lt_Some). assert (Hnth : nth i bs zero_bind = b0) by (by apply nth_lookup_Some).
  cbn [bind_one] in E. rewrite Hnth in E. unfold entry in E; cbn [sb_bind sb_nums sb_str] in E; rewrite ?list_lookup_insert_eq, ?lookup_insert_eq in E by done.
  injection E as Eb En Es. eexists. split; [exact Eb|]. unfold sent. cbn [MYSQL_SET_VARSTRING buffer buffer_type b_length]. rewrite Hl, decide_True by done.
  rewrite Hx in En. rewrite (nth_lookup_Some _ _ _ _ En). unfold mem_load. pose proof (Zlen_nonneg t). destruct (Z.eqb_spec x 0) as [->|Hne].
  - replace (0 <=? Zlen t) with true by lia. done.
  - destruct (Z.leb_spec x (Zlen t)).
    + replace ((0 <=? 0) && (0 <=? x) && (0 + x <=? Zlen t)) with true by lia. cbn [mbind outcome_bind]. by rewrite zdrop_0.
    + by replace ((0 <=? 0) && (0 <=? x) && (0 + x <=? Zlen t)) with false by lia.
Qed.
(** A length pointer is to the parameter's own entry. *)
Definition lengths_own s : Prop := forall i b, sb_bind s !! i = Some b -> b_length b = None \/ b_length b = Some i.
Lemma new_lengths n : lengths_own (new_binding n).
Proof. intros i b Hb. cbn in Hb. apply lookup_replicate in Hb as [-> _]. by left. Qed.
Lemma bind_one_lengths i p s : lengths_own s -> lengths_own (bind_one i p s).
Proof.
  intros Hl. destruct s as [bs nums str has bound]. unfold lengths_own in *. cbn [sb_bind] in Hl.
  assert (Hn : forall b', (i < length bs)%nat -> b_length b' = b_length (nth i bs zero_bind) -> forall j b, <[i := b']> bs !! j = Some b -> b_length b = None \/ b_length b = Some j).
  { intros b' Hi Eb j b Hj. destruct (decide (i = j)) as [<-|Hn]; [|rewrite list_lookup_insert_ne in Hj by done; by apply Hl].
    rewrite list_lookup_insert_eq in Hj by done. injection Hj as <-. rewrite Eb. destruct (lookup_lt_is_Some_2 bs i Hi) as [c Hc]. rewrite (nth_lookup_Some _ _ _ _ Hc). by apply Hl. }
  destruct (decide (i < length bs)%nat) as [Hi|Hi]; cycle 1.
  { intros j b Hj. apply Hl. destruct p as [[]|]; cbn in Hj; rewrite ?list_insert_ge in Hj by lia; done. }
  destruct p as [v|].
  - destruct v; cbn [bind_one sb_bind is_number]; try exact Hl; apply Hn; done.
  - intros j b Hj. cbn in Hj. destruct (decide (i = j)) as [<-|Hne]; [|rewrite list_lookup_insert_ne in Hj by done; by apply Hl].
    rewrite list_lookup_insert_eq in Hj by done. injection Hj as <-. by right.
Qed.
Lemma bind_loop_lengths args : forall i s, lengths_own s -> lengths_own (bind_loop i args s).
Proof. induction args as [|p args IH]; intros i s Hl; [done|]. by apply IH, bind_one_lengths. Qed.

Definition wrong_number s (args : list sparam) : list Z :=
  lit "parameters number does not match, excepted " ++ dec_of_Z (Zlen (sb_bind s)) ++ lit ", got " ++ dec_of_Z (Zlen args).
Lemma entry_some s i b : length (sb_nums s) = length (sb_bind s) -> sb_bind s !! i = Some b -> exists x, entry s i = (Some b, Some x, sb_str s !! i).
Proof.
  intros Hl Hb. destruct (lookup_lt_is_Some_2 (sb_nums s) i) as [x Hx]; [rewrite Hl; by eapply lookup_lt_Some|]. exists x. unfold entry. by rewrite Hb, Hx.
Qed.

(** C33: Binding raises when the number of parameters is wrong.  Otherwise [bind_param], and the first [bind], send what each parameter is: strings with
    their bytes, numbers as doubles, nil as NULL, marked parameters piecewise; but a boolean as 0, whichever it is, and a string where [LONG_DATA] was bound
    before with the length that lies in [nums] there: nothing of it when that is 0, as it is unless a number or a boolean was bound there, and past its end when it
    is larger.  A later [bind] sends what lies where the first one found its parameters: the numbers that took the place of numbers, and for a string
    that was replaced memory that may be gone. *)
Theorem statement_bind cache s args : length (sb_nums s) = length (sb_bind s) ->
  (length args <> length (sb_bind s) -> st_bind_args cache args s = Raise (wrong_number s args)) /\
  (length args = length (sb_bind s) -> exists s', st_bind_args cache args s = Ret s' /\ sb_has s' = true /\
    (cache = false \/ sb_has s = false -> exists bs, sb_bound s' = Some bs /\
       (forall i p b d, args !! i = Some p -> sb_bind s !! i = Some b -> param_of p = Some d -> (forall t, p = SVal (LStr t) -> b_length b = None) ->
         exists b', bs !! i = Some b' /\ sent s' b' = Ret d) /\
       (forall i t b x, args !! i = Some (SVal (LStr t)) -> sb_bind s !! i = Some b -> b_length b = Some i -> sb_nums s !! i = Some x -> 0 <= x ->
         exists b', bs !! i = Some b' /\ sent s' b' = if x <=? Zlen t then Ret (DText (ztake x t)) else UB)) /\
    (lengths_own s -> lengths_own s') /\
    (cache = true -> sb_has s = true -> sb_bound s' = sb_bound s /\
       forall i b, (i < length args)%nat ->
         (forall t t', buffer_type b = MYSQL_TYPE_VAR_STRING -> buffer b = PStr i t -> args !! i = Some (SVal (LStr t')) -> t' <> t -> sent s' b = UB) /\
         (forall v, buffer_type b = MYSQL_TYPE_DOUBLE -> buffer b = PNum i -> args !! i = Some (SVal v) -> is_number v = true ->
            sent s' b = Ret (DDouble (default 0 (lua_tonumberx v)))))).
Proof.
  intros Hlen. unfold st_bind_args. split; intros Ha.
  - by destruct (Nat.eqb_spec (length args) (length (sb_bind s))).
  - rewrite Ha, Nat.eqb_refl. cbn [negb]. destruct (bind_loop_same args 0 s) as [Hh Hb]. set (s1 := bind_loop 0 args s) in *.
    assert (Hat : forall i p b, args !! i = Some p -> sb_bind s !! i = Some b -> exists s0 x, sb_nums s !! i = Some x /\ entry s0 i = (Some b, Some x, sb_str s0 !! i) /\ entry s1 i = entry (bind_one i p s0) i).
    { intros i p b Hp Hbi. destruct (bind_loop_at args 0 s i p Hp) as (s0 & E1 & E2). cbn [Nat.add] in *. fold s1 in E2.
      destruct (entry_some s i b Hlen Hbi) as [x Ex]. exists s0, x. pose proof Ex as Ex'. unfold entry in Ex'. split; [congruence|]. split; [|done].
      rewrite E1, Ex. f_equal. unfold entry in E1. congruence. }
    eexists. split; [reflexivity|]. split; [|split; [|split]].
    + destruct cache, (sb_has s1) eqn:Es; done || exact Es.
    + intros Hc. assert (Hcond : negb cache || negb (sb_has s1) = true) by (rewrite Hh; by destruct Hc as [-> | ->]; [|destruct cache]). rewrite Hcond.
      eexists. split; [reflexivity|]. set (s2 := mk_binding (sb_bind s1) (sb_nums s1) (sb_str s1) true (Some (sb_bind s1))). split.
      * intros i p b d Hp Hbi Hd Hl. destruct (Hat i p b Hp Hbi) as (s0 & x & _ & E0 & E). refine (bound_sent s2 s0 i p b x d E0 _ E Hd).
        destruct p as [[]|]; try done. intros _. by eapply Hl.
      * intros i t b x Hp Hbi Hl Hx H0. destruct (Hat i _ b Hp Hbi) as (s0 & x' & Ex & E0 & E). assert (x' = x) as -> by congruence.
        exact (bound_stale s2 s0 i t b x E0 Hl E H0).
    + intros Hl. assert (Hl1 : lengths_own s1) by (by apply bind_loop_lengths). destruct (negb cache || negb (sb_has s1)); exact Hl1.
    + intros -> Hs. rewrite Hh, Hs. cbn [negb orb]. split; [done|]. intros i b Hi.
      destruct (lookup_lt_is_Some_2 (sb_bind s) i) as [b0 Hb0]; [lia|].
      split.
      * intros t t' Ht Hbuf Hp Hne. destruct (Hat i _ b0 Hp Hb0) as (s0 & x & _ & E0 & E). destruct s0 as [bs nums str has bound].
        injection E as _ _ E. cbn in E. rewrite lookup_insert_eq in E. unfold sent. rewrite Ht, Hbuf, E, decide_False; congruence.
      * intros v Ht Hbuf Hp Hv. destruct (Hat i _ b0 Hp Hb0) as (s0 & x & _ & E0 & E). destruct s0 as [bs nums str has bound].
        injection E0 as _ Hx. cbn in Hx. apply lookup_lt_Some in Hx. unfold sent. rewrite Ht, Hbuf. destruct v; try done; injection E as _ E _; cbn in E; rewrite list_lookup_insert_eq in E by done; by rewrite (nth_lookup_Some _ _ _ _ E).
Qed.
End Params.

(** ** The columns of a statement's row *)

(** What the script gets for a cell. *)
Definition value_of (f : MYSQL_FIELD) (e : cell) : dbvalue :=
  match result_bind f, e with
  | None, _ | _, ENull => DVal LNil
  | _, EText s => DVal (LStr s)
  | _, EInt n => DVal (LInt (s64 n))
  | _, EDouble d => DVal (LFlt d)
  | _, ETime t => push_time t
  end.
(** The buffer of a column is as long as the column's length says. *)
Definition fits (f : MYSQL_FIELD) (e : cell) : Prop :=
  match result_bind f, e with
  | Some _, EText s => Zlen s <= f_length f
  | Some _, EDouble d => 0 <= d < 2 ^ 64
  | _, _ => True
  end.
Definition present (v : dbvalue) : option dbvalue := match v with DVal LNil => None | v => Some v end.

Lemma load_le8 z : mem_load (Some (le_bytes 8 z)) 0 8 = Ret (le_bytes 8 z).
Proof. by rewrite mem_load_in by (rewrite ?Zlen_le_bytes; lia). Qed.
Lemma fetch_column_fits f e c : stores f e c -> fits f e -> fetch_column f c = Ret (value_of f e).
Proof.
  unfold stores, fits, value_of, fetch_column. destruct e as [|s|n|d|t].
  - intros ->. by destruct (result_bind f) as [[]|].
  - unfold result_bind. destruct (f_type f); try done; try (intros ->; done); intros (-> & -> & rest & -> & Hr) Hs.
    all: rewrite (ztake_all (f_length f)) in * by done; rewrite Zlen_app in Hr; pose proof (Zlen_nonneg rest); pose proof (Zlen_nonneg s).
    all: rewrite mem_load_in by (zlen; lia); cbn [mbind outcome_bind]; by rewrite zdrop_0, ztake_app_exact.
  - unfold result_bind. destruct (f_type f); try done; try (intros ->; done); intros [-> ->] _.
    all: rewrite load_le8; cbn [mbind outcome_bind]; rewrite le_val_bytes; do 3 f_equal; unfold s64; rewrite Zplus_mod_idemp_l; reflexivity.
  - unfold result_bind. destruct (f_type f); try done; try (intros ->; done); intros [-> ->] Hd.
    all: rewrite load_le8; cbn [mbind outcome_bind]; rewrite le_val_bytes; by rewrite Z.mod_small.
  - unfold result_bind. destruct (f_type f); try done; try (intros ->; done); intros [-> ->] _; done.
Qed.
Lemma set_column_eq n v t : set_column n v t !! n = present v.
Proof. destruct v as [[]|]; cbn; by rewrite ?lookup_delete_eq, ?lookup_insert_eq. Qed.
Lemma set_column_ne n k v t : n <> k -> set_column n v t !! k = t !! k.
Proof. intros Hn. destruct v as [[]|]; cbn; by rewrite ?lookup_delete_ne, ?lookup_insert_ne. Qed.
Definition names_of (fields : list MYSQL_FIELD) : list (list Z) := map (fun f => cstr (f_name f)) fields.
Lemma fetch_loop_spec fields cells cols : Forall3 stores fields cells cols -> Forall2 fits fields cells -> forall t, exists row,
  fetch_loop fields cols t = Ret row /\ (forall k, k ∉ names_of fields -> row !! k = t !! k) /\
  forall i f e, fields !! i = Some f -> cells !! i = Some e -> cstr (f_name f) ∉ drop (S i) (names_of fields) -> row !! cstr (f_name f) = present (value_of f e).
Proof.
  induction 1 as [|f e c fields cells cols Hs Hl IH]; intros Hf t; [by exists t|]. apply Forall2_cons in Hf as [Hfe Hf].
  cbn [fetch_loop]. rewrite (fetch_column_fits f e c) by done. cbn [mbind outcome_bind].
  destruct (IH Hf (set_column (cstr (f_name f)) (value_of f e) t)) as (row & -> & Ho & Hi). exists row. split; [done|]. split.
  - intros k Hk. apply not_elem_of_cons in Hk as [Hn Hk]. rewrite Ho by done. by apply set_column_ne.
  - intros [|i] g d Hg Hd Hl'; [|by apply (Hi i)]. injection Hg as <-. injection Hd as <-. rewrite Ho by done. apply set_column_eq.
Qed.
(** C34: What the library stores through the buffers of a statement, when the fetch succeeds, comes back: text and doubles as they are, integers modulo 2^64 into the
    signed range (so a BIGINT UNSIGNED may be negative), times field by field or nil without one, nothing for NULL and for the columns (DECIMAL among them) that
    get no buffer; under a name the last column of that name.  A fetch succeeds when every text fits the length its column was said to have: of one that does
    not, [mysql_stmt_fetch] reports that it is truncated, which its callers take for an error before they look at the columns. *)
Theorem statement_row fields cells cols : Forall3 stores fields cells cols -> Forall2 fits fields cells ->
  exists row, fetch_loop fields cols ∅ = Ret row /\ dom row ⊆ list_to_set (names_of fields) /\
    forall i f e, fields !! i = Some f -> cells !! i = Some e -> cstr (f_name f) ∉ drop (S i) (names_of fields) -> row !! cstr (f_name f) = present (value_of f e).
Proof.
  intros Hs Hfit. destruct (fetch_loop_spec fields cells cols Hs Hfit ∅) as (row & E & Ho & Hi). exists row. split; [done|]. split; [|done].
  intros k Hk. apply elem_of_dom in Hk as [v Hk]. apply elem_of_list_to_set. destruct (decide (k ∈ names_of fields)) as [|Hn]; [done|].
  rewrite Ho in Hk by done. by rewrite lookup_empty in Hk.
Qed.

(** ** Concrete values *)

#[local] Existing Instance plain_lua.
Definition bound_params : binding := match st_bind_args true [SVal (LStr (lit "a")); SVal (LBool true)] (new_binding 2) with Ret s => s | _ => new_binding 2 end.
Definition long_params : binding := match st_bind_args false [SLongData] (new_binding 1) with Ret s => s | _ => new_binding 1 end.
Lemma statement_bind_witness :
  st_bind_args false [] (new_binding 2) = Raise (lit "parameters number does not match, excepted 2, got 0") /\
  (exists s b, st_bind_args false [SVal (LBool true); SVal (LStr (lit "a"))] (new_binding 2) = Ret s /\ sent s b = Ret (DTiny 0)) /\
  (exists s b, st_bind_args false [SVal (LStr (lit "abc"))] long_params = Ret s /\ sent s b = Ret (DText [])) /\
  exists s b, sb_bound bound_params = Some [b; MYSQL_SET_TINYINT (PNum 1) zero_bind] /\ st_bind_args true [SVal (LStr (lit "b")); SVal LNil] bound_params = Ret s /\ sent s b = UB.
Proof.
  split; [|split; [|split]].
  - pose proof (statement_bind false (new_binding 2) [] eq_refl) as [X _]. apply X. discriminate.
  - pose proof (statement_bind false (new_binding 2) [SVal (LBool true); SVal (LStr (lit "a"))] eq_refl) as [_ X].
    destruct (X eq_refl) as (s & E & _ & Hf & _). destruct (Hf (or_introl eq_refl)) as (bs & _ & Hs & _).
    destruct (Hs 0%nat _ _ _ eq_refl eq_refl eq_refl) as (b & _ & Hb); [discriminate|]. exists s, b. split; [exact E|exact Hb].
  - pose proof (statement_bind false long_params [SVal (LStr (lit "abc"))] eq_refl) as [_ X].
    destruct (X eq_refl) as (s & E & _ & Hf & _). destruct (Hf (or_introl eq_refl)) as (bs & _ & _ & Hs).
    destruct (Hs 0%nat _ _ 0 eq_refl eq_refl eq_refl eq_refl) as (b & _ & Hb); [lia|]. exists s, b. split; [exact E|exact Hb].
  - pose proof (statement_bind true bound_params [SVal (LStr (lit "b")); SVal LNil] eq_refl) as [_ X].
    destruct (X eq_refl) as (s & E & _ & _ & _ & Hc). destruct (Hc eq_refl eq_refl) as [_ Hs].
    exists s, (MYSQL_SET_VARSTRING (PStr 0 (lit "a")) 1 zero_bind). split; [reflexivity|]. split; [exact E|].
    destruct (Hs 0%nat (MYSQL_SET_VARSTRING (PStr 0 (lit "a")) 1 zero_bind)) as [Hu _]; [cbn; lia|]. by eapply Hu.
Defined.

Definition unsigned_field : MYSQL_FIELD := mk_field (lit "n") MYSQL_TYPE_LONGLONG 20.
Definition text_field (n : Z) : MYSQL_FIELD := mk_field (lit "t") MYSQL_TYPE_VAR_STRING n.
Lemma statement_row_witness :
  exists row, fetch_loop [unsigned_field; text_field 3] [mk_column false (CBytes (le_bytes 8 (2 ^ 64 - 1))) 8; mk_column false (CBytes [97; 98; 0]) 2] ∅ = Ret row /\
    row !! lit "n" = Some (DVal (LInt (-1))) /\ row !! lit "t" = Some (DVal (LStr (lit "ab"))).
Proof.
  assert (Hs : Forall3 stores [unsigned_field; text_field 3] [EInt (2 ^ 64 - 1); EText (lit "ab")]
      [mk_column false (CBytes (le_bytes 8 (2 ^ 64 - 1))) 8; mk_column false (CBytes [97; 98; 0]) 2]).
  { repeat constructor. exists [0]. by split. }
  assert (Hf : Forall2 fits [unsigned_field; text_field 3] [EInt (2 ^ 64 - 1); EText (lit "ab")]) by (repeat constructor; by vm_compute).
  destruct (statement_row _ _ _ Hs Hf) as (row & E & _ & Hi). exists row. split; [exact E|]. split.
  - assert (Hl : cstr (lit "n") ∉ drop 1 (names_of [unsigned_field; text_field 3])) by (apply (bool_decide_unpack _); vm_compute; exact I).
    exact (Hi 0%nat _ _ eq_refl eq_refl Hl).
  - assert (Hl : cstr (lit "t") ∉ drop 2 (names_of [unsigned_field; text_field 3])) by (apply (bool_decide_unpack _); vm_compute; exact I).
    exact (Hi 1%nat _ _ eq_refl eq_refl Hl).
Defined.
