(* ===== verification/Mariadb.v ===== *)
(** * src/mariadb: connections, cursors and statements that wait

    Every operation of luamariadb.c and src/mariadb/ that may have to wait is two
    functions: one a script calls, which returns or yields, and one libevent calls
    when what the client library waits for has come, which goes on, waits again, or
    resumes the coroutine.  The client library is not under src/: what a call of it
    answers is an argument ([answer]), what it is asked is recorded ([w_sent]).
    Userdata are the values of [w_heap], under their addresses; scripts are the
    calls they make.  Memory that is freed, references that are not held, a [MYSQL] that
    has been closed and a coroutine that has been collected have no meaning: what uses
    them is [UB]. *)

From S2P Require Import Prelude Lua Double Holds MariadbData.

(** ** Objects *)

Inductive regval : Type := RvThread (L : positive) | RvObject (p : positive) | RvTable.
Abbreviation registry_map := (gmap positive regval).

(** [coref], [coref_count]. *)
Record anchor : Type := mk_anchor { coref : option positive; coref_count : Z }.
Definition no_anchor : anchor := mk_anchor None 0.

(** [my_conn], a [MYSQL]: it can be used until [mysql_close_start]; from then until the
    closing is done only [mysql_close_cont] takes it, and after that nothing. *)
Inductive mysql_state : Type := MyOpen | MyClosing | MyClosed.
Record DB_CTX : Type := mk_db { db_closed : bool; my_conn : mysql_state; db_co : anchor }.
(** [cur_fields]: the columns of the result; [my_res]: it has not been freed. *)
Record CURSOR_CTX : Type := mk_cur {
  cur_closed : bool;
  cur_fields : list MYSQL_FIELD;
  colnames : option positive;
  coltypes : option positive;
  my_res : bool;
  cur_ctx : option positive;
  cur_co : anchor
}.
(** The arrays [rbind], [bufferlens] and the others have [col_count] entries; the buffers
    that were made, and their sizes. *)
Record columns : Type := mk_columns { col_count : nat; col_buffers : list (option Z) }.
(** [table]: the reference to the table that keeps the memory of the statement:
    [params] (fields [bind] and [nums]) and [rcols]; [my_stmt]: it has not been closed. *)
Record STMT_CTX : Type := mk_stmt {
  st_closed : bool;
  st_table : option positive;
  st_params : binding;
  st_rcols : option columns;
  my_stmt : bool;
  st_ctx : positive;
  st_co : anchor
}.
Inductive userdata : Type := UConn (d : DB_CTX) | UCursor (u : CURSOR_CTX) | UStmt (s : STMT_CTX).

Definition co_of (u : userdata) : anchor :=
  match u with UConn d => db_co d | UCursor u => cur_co u | UStmt s => st_co s end.
Definition set_co (a : anchor) (u : userdata) : userdata :=
  match u with
  | UConn d => UConn (mk_db (db_closed d) (my_conn d) a)
  | UCursor u => UCursor (mk_cur (cur_closed u) (cur_fields u) (colnames u) (coltypes u) (my_res u) (cur_ctx u) a)
  | UStmt s => UStmt (mk_stmt (st_closed s) (st_table s) (st_params s) (st_rcols s) (my_stmt s) (st_ctx s) a)
  end.
Definition set_infos n t (u : CURSOR_CTX) : CURSOR_CTX := mk_cur (cur_closed u) (cur_fields u) n t (my_res u) (cur_ctx u) (cur_co u).
Definition set_freed (u : CURSOR_CTX) : CURSOR_CTX := mk_cur (cur_closed u) (cur_fields u) (colnames u) (coltypes u) false (cur_ctx u) (cur_co u).
Definition set_params b (s : STMT_CTX) : STMT_CTX := mk_stmt (st_closed s) (st_table s) b (st_rcols s) (my_stmt s) (st_ctx s) (st_co s).
Definition set_rcols c (s : STMT_CTX) : STMT_CTX := mk_stmt (st_closed s) (st_table s) (st_params s) (Some c) (my_stmt s) (st_ctx s) (st_co s).
(** What is left in [table] is not looked at again. *)
Definition set_gone (s : STMT_CTX) : STMT_CTX := mk_stmt (st_closed s) None (st_params s) (st_rcols s) false (st_ctx s) (st_co s).

(** ** Waiting *)

(** What a callback is given: [&ctx->my_conn], an object, or the result of a cursor. *)
Inductive cbdata : Type := DMysql (p : positive) | DObject (p : positive) | DResult (p : positive).
Inductive callback : Type :=
  | CbConnect | CbClose | CbPing | CbQuery | CbCommit | CbRollback | CbAutocommit | CbCharset
  | CbPrepare | CbExecute | CbStore | CbLong | CbFetch | CbStmtClose | CbRow | CbFree.

Definition MYSQL_WAIT_READ : Z := 1.
Definition MYSQL_WAIT_WRITE : Z := 2.
Definition MYSQL_WAIT_TIMEOUT : Z := 8.
Definition EV_READ : Z := 2.
Definition EV_WRITE : Z := 4.
(** The event that is made: on the socket or on none, and whether it has a timeout. *)
Record event : Type := mk_event { ev_socket : bool; ev_what : Z; ev_timeout : bool }.
Definition waits_for (status bit : Z) : bool := c_true (Z.land status bit).
Definition event_for (status : Z) : event :=
  let wait_event := Z.lor (if waits_for status MYSQL_WAIT_READ then EV_READ else 0) (if waits_for status MYSQL_WAIT_WRITE then EV_WRITE else 0) in
  mk_event (c_true wait_event) wait_event (waits_for status MYSQL_WAIT_TIMEOUT).
(** libevent calls back for an event that waits for something. *)
Definition can_fire (e : event) : bool := c_true (ev_what e) || ev_timeout e.

Record DB_STATUS : Type := mk_bag {
  bg_L : positive;
  bg_data : cbdata;
  bg_status : Z;
  bg_event : event;
  bg_ctx : positive;
  bg_extra : option positive;
  bg_callback : callback
}.
(** A wait that was not taken: the coroutine, what it waits on, the reference that went
    with it. *)
Record refusal : Type := mk_refusal { rf_L : positive; rf_data : cbdata; rf_extra : option positive }.

(** ** The client library *)

(** A result set: its columns when there is a result, or the number of columns, the rows
    that were affected, the error. *)
Record result_set : Type := mk_set { rs_res : option (list MYSQL_FIELD); rs_cols : Z; rs_affected : Z; rs_errno : Z; rs_error : list Z }.
(** What a call answers.  [a_errno0]: the error before it; [a_status]: what it waits for,
    0 when it is done; [a_ret]: what it gives then, 0 when all is well; [a_errno], [a_error]:
    the error after it; [a_mem]: there is memory to wait.  For single operations: the result
    sets; the parameters of a prepared statement; the columns of an executed one, the rows it
    affected, whether the buffers were refused; a row; what freeing the result waits for; the
    columns in memory. *)
Record answer : Type := mk_answer {
  a_errno0 : Z;
  a_status : Z;
  a_ret : Z;
  a_errno : Z;
  a_error : list Z;
  a_mem : bool;
  a_set : result_set;
  a_more : list (Z * result_set);
  a_params : nat;
  a_meta : option (list MYSQL_FIELD);
  a_affected : Z;
  a_refuses : bool;
  a_row : option (list (option (list Z)));
  a_free : Z;
  a_cols : list column
}.
Inductive mysql_call : Type :=
  | McConnect (p : positive) (host user password : option (list Z)) (database : list Z) (port : Z)
  | McQuery (p : positive) (statement : list Z) | McPing (p : positive) | McCommit (p : positive) | McRollback (p : positive)
  | McAutocommit (p : positive) (mode : bool) | McCharset (p : positive) (charset : list Z) | McClose (p : positive)
  | McPrepare (p : positive) (statement : list Z) | McExecute (p : positive) (params : option (list dbparam))
  | McStore (p : positive) | McLong (p : positive) (num : Z) (data : list Z) | McFetch (p : positive) | McStmtClose (p : positive)
  | McRow (p : positive) | McFree (p : positive).

(** ** What scripts get *)

Inductive result : Type :=
  | RVal (v : lua_value)
  | RObject (p : positive)
  | RRow (t : row_table)
  | RFields (t : stmt_row)
  | RTexts (l : list (list Z))
  | RFetch.
Inductive reaction : Type := AReturn (l : list result) | AYield | AError (msg : list Z).

(** [w_dead]: the coroutines that have been collected. *)
Record world : Type := mk_world {
  w_reg : registry_map;
  w_heap : gmap positive userdata;
  w_bags : gmap positive DB_STATUS;
  w_refused : list refusal;
  w_resumed : list (positive * list result);
  w_sent : list mysql_call;
  w_dead : gset positive
}.
Definition mariadb_start : world := mk_world ∅ ∅ ∅ [] [] [] ∅.

Section World.
Implicit Type w : world.
Definition set_reg r w : world := mk_world r (w_heap w) (w_bags w) (w_refused w) (w_resumed w) (w_sent w) (w_dead w).
Definition set_heap h w : world := mk_world (w_reg w) h (w_bags w) (w_refused w) (w_resumed w) (w_sent w) (w_dead w).
Definition set_bags b w : world := mk_world (w_reg w) (w_heap w) b (w_refused w) (w_resumed w) (w_sent w) (w_dead w).
Definition refuse x w : world := mk_world (w_reg w) (w_heap w) (w_bags w) (w_refused w ++ [x]) (w_resumed w) (w_sent w) (w_dead w).
Definition log_resumed x w : world := mk_world (w_reg w) (w_heap w) (w_bags w) (w_refused w) (w_resumed w ++ [x]) (w_sent w) (w_dead w).
Definition send x w : world := mk_world (w_reg w) (w_heap w) (w_bags w) (w_refused w) (w_resumed w) (w_sent w ++ [x]) (w_dead w).
Definition set_dead e w : world := mk_world (w_reg w) (w_heap w) (w_bags w) (w_refused w) (w_resumed w) (w_sent w) e.

Definition ref v w : positive * world := let '(r, reg) := reg_ref v (w_reg w) in (r, set_reg reg w).
Definition unref (r : option positive) w : outcome world := reg ← reg_unref_opt r (w_reg w); Ret (set_reg reg w).
Definition object_at (p : positive) w : outcome userdata := match w_heap w !! p with Some u => Ret u | None => UB end.
Definition put (p : positive) (u : userdata) w : world := set_heap (<[p := u]> (w_heap w)) w.
Definition new_object (u : userdata) w : positive * world := let p := fresh (dom (w_heap w)) in (p, put p u w).
Definition conn_at (p : positive) w : outcome DB_CTX := match w_heap w !! p with Some (UConn d) => Ret d | _ => UB end.
Definition cursor_at (p : positive) w : outcome CURSOR_CTX := match w_heap w !! p with Some (UCursor u) => Ret u | _ => UB end.
Definition stmt_at (p : positive) w : outcome STMT_CTX := match w_heap w !! p with Some (UStmt s) => Ret s | _ => UB end.

(** A [MYSQL] that can be used, and a coroutine. *)
Definition use_conn (p : positive) w : outcome unit :=
  d ← conn_at p w; match my_conn d with MyOpen => Ret tt | _ => UB end.
Definition use_thread (L : positive) w : outcome unit := if decide (L ∈ w_dead w) then UB else Ret tt.
(** The collector frees a coroutine the registry does not have. *)
Definition anchored_in (L : positive) (reg : registry_map) : bool :=
  existsb (fun x => match x.2 with RvThread M => Pos.eqb M L | _ => false end) (map_to_list reg).
Definition reap (L : positive) w : world := if anchored_in L (w_reg w) then w else set_dead ({[L]} ∪ w_dead w) w.

Definition REF_CO (L p : positive) w : outcome world :=
  u ← object_at p w;
  match coref (co_of u) with
  | None => let '(r, w) := ref (RvThread L) w in Ret (put p (set_co (mk_anchor (Some r) 1) u) w)
  | Some r => Ret (put p (set_co (mk_anchor (Some r) (coref_count (co_of u) + 1)) u) w)
  end.
Definition UNREF_CO (p : positive) w : outcome world :=
  u ← object_at p w;
  match coref (co_of u) with
  | None => Ret w
  | Some r =>
      let n := coref_count (co_of u) - 1 in
      if n =? 0 then w ← unref (Some r) w; Ret (put p (set_co (mk_anchor None n) u) w)
      else Ret (put p (set_co (mk_anchor (Some r) n) u) w)
  end.

Definition wait_for_status (L : positive) (ctx : option positive) (data : cbdata) (status : Z) (cb : callback) (extra : option positive) (mem : bool) w : outcome world :=
  match ctx with
  | None => Ret (refuse (mk_refusal L data extra) w)
  | Some c =>
      d ← conn_at c w;
      if db_closed d || negb mem then Ret (refuse (mk_refusal L data extra) w)
      else Ret (set_bags (<[fresh (dom (w_bags w)) := mk_bag L data status (event_for status) c extra cb]> (w_bags w)) w)
  end.
Definition bag_at (b : positive) w : outcome DB_STATUS := match w_bags w !! b with Some bag => Ret bag | None => UB end.
(** [event_free(bag->event); free(bag)] *)
Definition free_bag (b : positive) w : outcome world := _ ← bag_at b w; Ret (set_bags (delete b (w_bags w)) w).
End World.

(** *** Errors *)

Definition luamariadb_push_errno (errno : Z) (error : list Z) : list result :=
  if c_true errno then [RVal LNil; RVal (LStr (cstr error))] else [].
Definition luamariadb_push_stmt_error (errno : Z) (error : list Z) : list result :=
  [RVal LNil; RVal (LStr (lit "stmt_error: " ++ dec_of_Z (s32 errno) ++ lit ": " ++ cstr error))].
Definition push_errno (a : answer) : list result := luamariadb_push_errno (a_errno a) (a_error a).
Definition push_stmt_error (a : answer) : list result := luamariadb_push_stmt_error (a_errno a) (a_error a).

(** ** The functions *)

Section Mariadb.
Context `{LuaAPI}.
Implicit Type w : world.

(** The first argument: [luaL_checkudata], and whether it is closed. *)
Definition getconnection (p : positive) w : outcome (option DB_CTX * list Z) :=
  u ← object_at p w;
  Ret (match u with
       | UConn d => if db_closed d then (None, lit "connection is closed") else (Some d, [])
       | _ => (None, lit "MARIADB_CONNECTION_METATABLE expected")
       end).
Definition getcursor (p : positive) w : outcome (option CURSOR_CTX * list Z) :=
  u ← object_at p w;
  Ret (match u with
       | UCursor c => if cur_closed c then (None, lit "cursor is closed") else (Some c, [])
       | _ => (None, lit "MARIADB_CURSOR_METATABLE expected")
       end).
Definition getstatement (p : positive) w : outcome (option STMT_CTX * list Z) :=
  u ← object_at p w;
  Ret (match u with
       | UStmt s => if st_closed s then (None, lit "statement is closed") else (Some s, [])
       | _ => (None, lit "MARIADB_STATEMENT_METATABLE expected")
       end).
(** A call with an object and arguments: an error, or what follows. *)
Definition with_object {A B : Type} (o : outcome (option A * list Z)) (arg : outcome B) (w : world) (f : A -> B -> outcome (reaction * world)) : outcome (reaction * world) :=
  '(x, msg) ← o;
  match x with
  | None => Ret (AError msg, w)
  | Some x => match arg with Ret y => f x y | Raise e => Ret (AError e, w) | UB => UB end
  end.
(** The operations of a [MYSQL_STMT] or a [MYSQL_RES] that is gone have no meaning. *)
Definition use_stmt (s : STMT_CTX) : outcome unit := if my_stmt s then Ret tt else UB.
Definition use_result (u : CURSOR_CTX) : outcome unit := if my_res u then Ret tt else UB.

(** *** Results *)

Definition create_cursor (c : positive) (fields : list MYSQL_FIELD) w : positive * world :=
  new_object (UCursor (mk_cur false fields None None true (Some c) no_anchor)) w.
(** A result set after the first: what it pushes, and whether the loop ends. *)
Definition next_set (c : positive) (r : result_set) w : list result * bool * world :=
  match rs_res r with
  | Some fields => let '(p, w) := create_cursor c fields w in ([RObject p], false, w)
  | None =>
      if rs_cols r =? 0 then ([RVal (LFlt (d_of_Z (u64 (rs_affected r))))], false, w)
      else ([RVal LNil; RVal (LStr (cstr (rs_error r)))], true, w)
  end.
Fixpoint more_sets (c : positive) (l : list (Z * result_set)) w : list result * world :=
  match l with
  | [] => ([], w)
  | (next_result, r) :: l =>
      if next_result =? 0 then
        let '(rs, stop, w) := next_set c r w in
        if (stop : bool) then (rs, w) else let '(rs', w) := more_sets c l w in (rs ++ rs', w)
      else ([], w)
  end.
Definition real_query_result (a : answer) (c : positive) w : outcome (list result * world) :=
  let r := a_set a in
  match rs_res r with
  | None =>
      if rs_cols r =? 0 then
        let '(rs, w) := more_sets c (a_more a) w in Ret (RVal (LFlt (d_of_Z (u64 (rs_affected r)))) :: rs, w)
      else Ret (luamariadb_push_errno (rs_errno r) (rs_error r), w)
  | Some fields =>
      let '(p, w) := create_cursor c fields w in
      let '(rs, w) := more_sets c (a_more a) w in Ret (RObject p :: rs, w)
  end.
Definition done_result (a : answer) (p : positive) w : outcome (list result * world) := Ret ([RVal (LBool true)], w).

(** The table of a statement, in the registry. *)
Definition memory_of (s : STMT_CTX) w : outcome unit :=
  match st_table s with Some r => match w_reg w !! r with Some RvTable => Ret tt | _ => UB end | None => UB end.
Definition stmt_prepare_result (a : answer) (p : positive) w : outcome world :=
  s ← stmt_at p w;
  _ ← memory_of s w;
  Ret (put p (UStmt (set_params (new_binding (a_params a)) s)) w).

(** [get_or_create_ud] for the buffer of a column: its size. *)
Definition get_or_create_ud (i : nat) (size : Z) (cs : columns) : Z * columns :=
  match col_buffers cs !! i with
  | Some (Some n) => (n, cs)
  | _ => (size, mk_columns (col_count cs) (<[i := Some size]> (col_buffers cs)))
  end.
Definition get_or_create_arrays (n : nat) (cs : option columns) : columns :=
  match cs with Some cs => cs | None => mk_columns n (replicate n None) end.
(** The columns from the [i]th on; a buffer that is smaller than what it is bound as would
    be written past its end. *)
Fixpoint bind_columns (i : nat) (fields : list MYSQL_FIELD) (cs : columns) : outcome columns :=
  match fields with
  | [] => Ret cs
  | f :: fields =>
      if negb (i <? col_count cs)%nat then UB
      else
        match result_bind f with
        | None => bind_columns (S i) fields cs
        | Some (_, size) => let '(n, cs) := get_or_create_ud i size cs in if size <=? n then bind_columns (S i) fields cs else UB
        end
  end.
Definition stmt_execute_result (a : answer) (p : positive) w : outcome (list result * world) :=
  s ← stmt_at p w;
  match a_meta a with
  | None => Ret ([RVal (LInt (s64 (a_affected a)))], w)
  | Some fields =>
      _ ← memory_of s w;
      cs ← bind_columns 0 fields (get_or_create_arrays (length fields) (st_rcols s));
      let w := put p (UStmt (set_rcols cs s)) w in
      Ret (if a_refuses a then push_stmt_error a else [RVal (LBool true)], w)
  end.
(** The buffers of the columns that are not NULL. *)
Fixpoint column_buffers (i : nat) (fields : list MYSQL_FIELD) (cols : list column) (cs : columns) : outcome columns :=
  match fields, cols with
  | f :: fields, c :: cols =>
      if negb (i <? col_count cs)%nat then UB
      else
        match c_null c, result_bind f with
        | false, Some (_, size) => column_buffers (S i) fields cols (get_or_create_ud i size cs).2
        | _, _ => column_buffers (S i) fields cols cs
        end
  | _, _ => Ret cs
  end.
(** Without columns there is nothing to describe the row by. *)
Definition stmt_fetch_result (a : answer) (p : positive) w : outcome (list result * world) :=
  s ← stmt_at p w;
  match a_meta a with
  | None => UB
  | Some fields =>
      _ ← memory_of s w;
      cs ← column_buffers 0 fields (a_cols a) (get_or_create_arrays (length fields) (st_rcols s));
      row ← fetch_loop fields (a_cols a) ∅;
      Ret ([RFields row], put p (UStmt (set_rcols cs s)) w)
  end.

(** *** Cursors *)

Definition create_colinfo (p : positive) (u : CURSOR_CTX) w : CURSOR_CTX * world :=
  let '(t, w) := ref RvTable w in
  let '(n, w) := ref RvTable w in
  let u := set_infos (Some n) (Some t) u in (u, put p (UCursor u) w).
(** What freeing the result of a cursor waits for; [None]: the coroutine goes on waiting. *)
Definition free_result_start (L : positive) (p : positive) (status : Z) (mem : bool) w : outcome (bool * world) :=
  u ← cursor_at p w;
  _ ← use_result u;
  w ← unref (colnames u) w;
  w ← unref (coltypes u) w;
  let ctx := cur_ctx u in
  let gone := mk_cur true (cur_fields u) None None (my_res u) None (cur_co u) in
  let w := send (McFree p) (put p (UCursor gone) w) in
  if c_true status then w ← wait_for_status L ctx (DObject p) status CbFree None mem w; Ret (true, w)
  else Ret (false, put p (UCursor (set_freed gone)) w).
Definition fetch_row_result (L : positive) (a : answer) (p : positive) w : outcome (option (list result) * world) :=
  match a_row a with
  | None =>
      '(waits, w) ← free_result_start L p (a_free a) (a_mem a) w;
      Ret (if (waits : bool) then None else Some [RVal LNil], w)
  | Some cells =>
      u ← cursor_at p w;
      let '(u, w) := match colnames u with None => create_colinfo p u w | Some _ => (u, w) end in
      Ret (Some [RRow (row_of (cur_fields u) cells)], w)
  end.
Definition fetch_row_start (L p : positive) (a : answer) w : outcome (reaction * world) :=
  with_object (getcursor p w) (Ret tt) w (fun u _ =>
    _ ← use_result u;
    let w := send (McRow p) w in
    if c_true (a_status a) then
      w ← REF_CO L p w;
      w ← wait_for_status L (cur_ctx u) (DObject p) (a_status a) CbRow None (a_mem a) w; Ret (AYield, w)
    else
      '(rs, w) ← fetch_row_result L a p w;
      match rs with
      | None => w ← REF_CO L p w; Ret (AYield, w)
      | Some rs => Ret (AReturn rs, w)
      end).
Definition cur_end (L p : positive) (a : answer) w : outcome (reaction * world) :=
  '(waits, w) ← free_result_start L p (a_free a) (a_mem a) w;
  if (waits : bool) then w ← REF_CO L p w; Ret (AYield, w) else Ret (AReturn [RVal (LBool true)], w).
Definition cur_gc (L p : positive) (a : answer) w : outcome (reaction * world) :=
  u ← cursor_at p w; if cur_closed u then Ret (AReturn [], w) else cur_end L p a w.
Definition cur_close (L p : positive) (a : answer) w : outcome (reaction * world) :=
  u ← object_at p w;
  match u with
  | UCursor u => if cur_closed u then Ret (AReturn [RVal (LBool false)], w) else cur_end L p a w
  | _ => Ret (AError (lit "MARIADB_CURSOR_METATABLE expected"), w)
  end.
Definition pushtable (names : bool) (p : positive) w : outcome (reaction * world) :=
  with_object (getcursor p w) (Ret tt) w (fun u _ =>
    let '(u, w) := match (if names then colnames u else coltypes u) with None => create_colinfo p u w | Some _ => (u, w) end in
    Ret (AReturn [RTexts (if names then (colinfo (cur_fields u)).1 else (colinfo (cur_fields u)).2)], w)).
Definition cur_getcolnames := pushtable true.
Definition cur_getcoltypes := pushtable false.
Definition cur_numrows (p : positive) (rows : Z) w : outcome (reaction * world) :=
  with_object (getcursor p w) (Ret tt) w (fun u _ => _ ← use_result u; Ret (AReturn [RVal (LFlt (d_of_Z (u64 rows)))], w)).

(** *** Connections: what a script calls *)

(** The operations of a connection: what the library is asked, and the results when it is done. *)
Definition conn_start (L p : positive) (what : mysql_call) (cb : callback) (fin : answer -> positive -> world -> outcome (list result * world)) (a : answer) w
  : outcome (reaction * world) :=
  _ ← use_conn p w;
  let w := send what w in
  if c_true (a_status a) then
    w ← REF_CO L p w;
    w ← wait_for_status L (Some p) (DMysql p) (a_status a) cb None (a_mem a) w; Ret (AYield, w)
  else if a_ret a =? 0 then '(rs, w) ← fin a p w; Ret (AReturn rs, w)
  else Ret (AReturn (push_errno a), w).
Definition real_query_start (L p : positive) (v : lua_value) (a : answer) w : outcome (reaction * world) :=
  with_object (getconnection p w) (luaL_checklstring v) w (fun _ s => conn_start L p (McQuery p s) CbQuery real_query_result a w).
Definition conn_ping_start (L p : positive) (a : answer) w : outcome (reaction * world) :=
  with_object (getconnection p w) (Ret tt) w (fun _ _ => conn_start L p (McPing p) CbPing done_result a w).
Definition conn_commit_start (L p : positive) (a : answer) w : outcome (reaction * world) :=
  with_object (getconnection p w) (Ret tt) w (fun _ _ => conn_start L p (McCommit p) CbCommit done_result a w).
Definition conn_rollback_start (L p : positive) (a : answer) w : outcome (reaction * world) :=
  with_object (getconnection p w) (Ret tt) w (fun _ _ => conn_start L p (McRollback p) CbRollback done_result a w).
Definition conn_autocommit_start (L p : positive) (v : lua_value) (a : answer) w : outcome (reaction * world) :=
  with_object (getconnection p w) (Ret tt) w (fun _ _ => conn_start L p (McAutocommit p (lua_toboolean v)) CbAutocommit done_result a w).
Definition set_character_set_start (L p : positive) (v : lua_value) (a : answer) w : outcome (reaction * world) :=
  with_object (getconnection p w) (luaL_checklstring v) w (fun _ s => conn_start L p (McCharset p (cstr s)) CbCharset done_result a w).

Definition conn_close_now (L p : positive) (d : DB_CTX) (a : answer) w : outcome (reaction * world) :=
  _ ← use_conn p w;
  let w := send (McClose p) (put p (UConn (mk_db true (if c_true (a_status a) then MyClosing else MyClosed) (db_co d))) w) in
  if c_true (a_status a) then
    w ← REF_CO L p w;
    w ← wait_for_status L (Some p) (DMysql p) (a_status a) CbClose None (a_mem a) w; Ret (AYield, w)
  else Ret (AReturn [RVal (LBool true)], w).
Definition conn_close_start (L p : positive) (a : answer) w : outcome (reaction * world) :=
  u ← object_at p w;
  match u with
  | UConn d => if db_closed d then Ret (AReturn [RVal (LBool false)], w) else conn_close_now L p d a w
  | _ => Ret (AError (lit "MARIADB_CONNECTION_METATABLE expected"), w)
  end.
Definition conn_gc (L p : positive) (a : answer) w : outcome (reaction * world) :=
  d ← conn_at p w; if db_closed d then Ret (AReturn [], w) else conn_close_now L p d a w.
Definition conn_getlastautoid (p : positive) (id : Z) w : outcome (reaction * world) :=
  with_object (getconnection p w) (Ret tt) w (fun _ _ => _ ← use_conn p w; Ret (AReturn [RVal (LInt (s64 id))], w)).
(** The text is written into a block of twice its size and one. *)
Definition escape_string (p : positive) (v : lua_value) (escaped : list Z) w : outcome (reaction * world) :=
  with_object (getconnection p w) (luaL_checklstring v) w (fun _ s =>
    _ ← use_conn p w;
    if Zlen escaped + 1 <=? 2 * Zlen s + 1 then Ret (AReturn [RVal (LStr escaped)], w) else UB).

Definition opt_cstr (v : lua_value) : outcome (option (list Z)) := s ← luaL_optlstring v; Ret (fmap (M:=option) cstr s).
(** [a_ret] is 0 when the connection is what is given back. *)
Definition real_connect_start (L : positive) (args : list lua_value) (a : answer) w : outcome (reaction * world) :=
  match sourcename ← luaL_checklstring (arg args 1); username ← opt_cstr (arg args 2); password ← opt_cstr (arg args 3);
        host ← opt_cstr (arg args 4); port ← luaL_optinteger (arg args 5) 0; Ret (sourcename, username, password, host, port) with
  | UB => UB
  | Raise e => Ret (AError e, w)
  | Ret (sourcename, username, password, host, port) =>
      let '(p, w) := new_object (UConn (mk_db false MyOpen no_anchor)) w in
      let w := send (McConnect p host username password (cstr sourcename) (s32 port)) w in
      if c_true (a_status a) then
        let '(r, w) := ref (RvObject p) w in
        w ← REF_CO L p w;
        w ← wait_for_status L (Some p) (DMysql p) (a_status a) CbConnect (Some r) (a_mem a) w; Ret (AYield, w)
      else if a_ret a =? 0 then Ret (AReturn [RObject p], w)
      else Ret (AReturn (push_errno a), w)
  end.

(** *** Statements: what a script calls *)

Definition prepare_now (L p : positive) (statement : list Z) (a : answer) w : outcome (reaction * world) :=
  _ ← use_conn p w;
  let '(t, w) := ref RvTable w in
  let '(q, w) := new_object (UStmt (mk_stmt false (Some t) (new_binding 0) None true p no_anchor)) w in
  let w := send (McPrepare q statement) w in
  if c_true (a_status a) then
    let '(r, w) := ref (RvObject q) w in
    w ← REF_CO L q w;
    w ← wait_for_status L (Some p) (DObject q) (a_status a) CbPrepare (Some r) (a_mem a) w; Ret (AYield, w)
  else if a_ret a =? 0 then w ← stmt_prepare_result a q w; Ret (AReturn [RObject q], w)
  else Ret (AReturn (push_errno a), w).
Definition stmt_prepare_start (L p : positive) (v : lua_value) (a : answer) w : outcome (reaction * world) :=
  with_object (getconnection p w) (luaL_checklstring v) w (fun _ statement => prepare_now L p statement a w).

(** The operations of a statement. *)
Definition stmt_start (L p : positive) (s : STMT_CTX) (what : mysql_call) (cb : callback) (fin : answer -> positive -> world -> outcome (list result * world)) (a : answer) w
  : outcome (reaction * world) :=
  _ ← use_stmt s;
  _ ← use_conn (st_ctx s) w;
  let w := send what w in
  if c_true (a_status a) then
    w ← REF_CO L p w;
    w ← wait_for_status L (Some (st_ctx s)) (DObject p) (a_status a) cb None (a_mem a) w; Ret (AYield, w)
  else if a_ret a =? 0 then '(rs, w) ← fin a p w; Ret (AReturn rs, w)
  else Ret (AReturn (push_stmt_error a), w).
(** What the library reads where the parameters were bound. *)
Fixpoint sent_all (b : binding) (l : list MYSQL_BIND) : outcome (list dbparam) :=
  match l with [] => Ret [] | x :: l => d ← sent b x; ds ← sent_all b l; Ret (d :: ds) end.
Definition sent_params (b : binding) : outcome (option (list dbparam)) :=
  match sb_bound b with Some l => ds ← sent_all b l; Ret (Some ds) | None => Ret None end.
Definition stmt_execute_start (L p : positive) (a : answer) w : outcome (reaction * world) :=
  with_object (getstatement p w) (Ret tt) w (fun s _ => ds ← sent_params (st_params s); stmt_start L p s (McExecute p ds) CbExecute stmt_execute_result a w).
Definition stmt_store_result_start (L p : positive) (a : answer) w : outcome (reaction * world) :=
  with_object (getstatement p w) (Ret tt) w (fun s _ => stmt_start L p s (McStore p) CbStore done_result a w).
Definition st_send_long_data (L p : positive) (num data : lua_value) (a : answer) w : outcome (reaction * world) :=
  with_object (getstatement p w) (n ← luaL_checkinteger num; d ← luaL_checklstring data; Ret (n, d)) w (fun s '(n, d) =>
    stmt_start L p s (McLong p (s32 n) d) CbLong done_result a w).
Definition MYSQL_NO_DATA : Z := 100.
Definition stmt_fetch_start (L p : positive) (a : answer) w : outcome (reaction * world) :=
  with_object (getstatement p w) (Ret tt) w (fun s _ =>
    if negb (c_true (a_status a)) && (a_ret a =? MYSQL_NO_DATA) then _ ← use_stmt s; _ ← use_conn (st_ctx s) w; Ret (AReturn [], send (McFetch p) w)
    else stmt_start L p s (McFetch p) CbFetch stmt_fetch_result a w).
Definition st_pairs (p : positive) w : outcome (reaction * world) :=
  with_object (getstatement p w) (Ret tt) w (fun _ _ => Ret (AReturn [RFetch; RObject p], w)).
Definition _st_bind (cache_bind : bool) (p : positive) (params : list sparam) w : outcome (reaction * world) :=
  with_object (getstatement p w) (Ret tt) w (fun s _ =>
    _ ← use_stmt s;
    match st_bind_args cache_bind params (st_params s) with
    | Ret b => _ ← memory_of s w; Ret (AReturn [RObject p], put p (UStmt (set_params b s)) w)
    | Raise e => Ret (AError e, w)
    | UB => UB
    end).
Definition st_bind_param := _st_bind false.
Definition st_bind := _st_bind true.

(** The table is not given back when closing fails at once: the reference is lost. *)
Definition stmt_close_start (L p : positive) (s : STMT_CTX) (a : answer) w : outcome (reaction * world) :=
  _ ← use_stmt s;
  let closed := mk_stmt true (st_table s) (st_params s) (st_rcols s) true (st_ctx s) (st_co s) in
  let w := send (McStmtClose p) (put p (UStmt closed) w) in
  if c_true (a_status a) then
    w ← REF_CO L p w;
    w ← wait_for_status L (Some (st_ctx s)) (DObject p) (a_status a) CbStmtClose None (a_mem a) w; Ret (AYield, w)
  else if a_ret a =? 0 then
    w ← unref (st_table s) w; Ret (AReturn [RVal (LBool true)], put p (UStmt (set_gone closed)) w)
  else _ ← use_conn (st_ctx s) w; Ret (AReturn (push_errno a), put p (UStmt (set_gone closed)) w).
Definition st_close (L p : positive) (a : answer) w : outcome (reaction * world) :=
  u ← object_at p w;
  match u with
  | UStmt s => if st_closed s then Ret (AReturn [RVal (LBool false)], w) else stmt_close_start L p s a w
  | _ => Ret (AError (lit "MARIADB_STATEMENT_METATABLE expected"), w)
  end.
Definition st_gc (L p : positive) (a : answer) w : outcome (reaction * world) :=
  s ← stmt_at p w; if st_closed s then Ret (AReturn [], w) else stmt_close_start L p s a w.

(** The collector: [__gc], then the memory goes. *)
Definition collect (L p : positive) (a : answer) w : outcome world :=
  u ← object_at p w;
  '(_, w) ← match u with UConn _ => conn_gc L p a w | UCursor _ => cur_gc L p a w | UStmt _ => st_gc L p a w end;
  Ret (set_heap (delete p (w_heap w)) w).

(** ** Scripts *)

Inductive call : Type :=
  | KConnect (args : list lua_value) | KQuery (p : positive) (v : lua_value) | KPing (p : positive) | KCommit (p : positive) | KRollback (p : positive)
  | KAutocommit (p : positive) (v : lua_value) | KCharset (p : positive) (v : lua_value) | KClose (p : positive)
  | KLastId (p : positive) (id : Z) | KEscape (p : positive) (v : lua_value) (escaped : list Z)
  | KPrepare (p : positive) (v : lua_value) | KBind (cache : bool) (p : positive) (params : list sparam) | KExecute (p : positive) | KStore (p : positive)
  | KLong (p : positive) (num data : lua_value) | KFetch (p : positive) | KPairs (p : positive) | KStmtClose (p : positive)
  | KRow (p : positive) | KNames (p : positive) | KTypes (p : positive) | KNumrows (p : positive) (n : Z) | KCursorClose (p : positive)
  | KCollect (p : positive) | KReap (L : positive).
(** Who calls what, and what the library answers. *)
Record request : Type := mk_req { rq_L : positive; rq_call : call; rq_answer : answer }.
Definition exec_call (q : request) w : outcome (reaction * world) :=
  let L := rq_L q in
  let a := rq_answer q in
  match rq_call q with
  | KConnect args => real_connect_start L args a w
  | KQuery p v => real_query_start L p v a w
  | KPing p => conn_ping_start L p a w
  | KCommit p => conn_commit_start L p a w
  | KRollback p => conn_rollback_start L p a w
  | KAutocommit p v => conn_autocommit_start L p v a w
  | KCharset p v => set_character_set_start L p v a w
  | KClose p => conn_close_start L p a w
  | KLastId p id => conn_getlastautoid p id w
  | KEscape p v escaped => escape_string p v escaped w
  | KPrepare p v => stmt_prepare_start L p v a w
  | KBind cache p params => _st_bind cache p params w
  | KExecute p => stmt_execute_start L p a w
  | KStore p => stmt_store_result_start L p a w
  | KLong p num data => st_send_long_data L p num data a w
  | KFetch p => stmt_fetch_start L p a w
  | KPairs p => st_pairs p w
  | KStmtClose p => st_close L p a w
  | KRow p => fetch_row_start L p a w
  | KNames p => cur_getcolnames p w
  | KTypes p => cur_getcoltypes p w
  | KNumrows p n => cur_numrows p n w
  | KCursorClose p => cur_close L p a w
  | KCollect p => w ← collect L p a w; Ret (AReturn [], w)
  | KReap M => Ret (AReturn [], reap M w)
  end.
Fixpoint run_script (l : list request) w : outcome world :=
  match l with [] => Ret w | q :: l => '(_, w) ← exec_call q w; run_script l w end.

(** ** What libevent calls *)

(** [UNREF_CO], then [FAN_RESUME], which is the last thing a callback does before it gives
    back what belongs to the wait; [true]: the coroutine is resumed, with these results. *)
Definition resume_with (L p : positive) (rs : list result) w : outcome (bool * world) :=
  _ ← use_thread L w; w ← UNREF_CO p w; Ret (true, log_resumed (L, rs) w).

Section Callbacks.
Context (bag : DB_STATUS) (a : answer).

(** Waiting again: the next event gets the reference, if any. *)
Definition wait_again (ctx : option positive) (data : cbdata) w : outcome (bool * world) :=
  w ← wait_for_status (bg_L bag) ctx data (a_status a) (bg_callback bag) (bg_extra bag) (a_mem a) w; Ret (false, w).

(** [lua_rawgeti(L, LUA_REGISTRYINDEX, bag->extra)]: the object that was made. *)
Definition extra_object w : outcome result :=
  match bg_extra bag with
  | Some r => match w_reg w !! r with Some (RvObject p) => Ret (RObject p) | _ => UB end
  | None => UB
  end.

(** The callbacks of the operations of a connection.  Some look for an error first. *)
Definition conn_event (checks : bool) (fin : answer -> positive -> world -> outcome (list result * world)) w : outcome (bool * world) :=
  match bg_data bag with
  | DMysql c =>
      _ ← use_conn c w;
      if checks && c_true (a_errno0 a) then resume_with (bg_L bag) c (luamariadb_push_errno (a_errno0 a) (a_error a)) w
      else if c_true (a_status a) then wait_again (Some (bg_ctx bag)) (bg_data bag) w
      else if a_ret a =? 0 then '(rs, w) ← fin a c w; resume_with (bg_L bag) c rs w
      else resume_with (bg_L bag) c (push_errno a) w
  | _ => UB
  end.
Definition conn_ping_event := conn_event true done_result.
Definition conn_commit_event := conn_event true done_result.
Definition conn_rollback_event := conn_event true done_result.
Definition conn_autocommit_event := conn_event true done_result.
Definition real_query_cont := conn_event true real_query_result.
Definition set_character_set_cont := conn_event false done_result.

Definition real_connect_cont w : outcome (bool * world) :=
  match bg_data bag with
  | DMysql c =>
      _ ← use_conn c w;
      if c_true (a_status a) then wait_again (Some (bg_ctx bag)) (bg_data bag) w
      else if a_ret a =? 0 then o ← extra_object w; resume_with (bg_L bag) c [o] w
      else resume_with (bg_L bag) c (push_errno a) w
  | _ => UB
  end.
Definition conn_close_cont w : outcome (bool * world) :=
  match bg_data bag with
  | DMysql c =>
      d ← conn_at c w;
      match my_conn d with
      | MyClosing =>
          if c_true (a_status a) then wait_again (Some (bg_ctx bag)) (bg_data bag) w
          else resume_with (bg_L bag) c [RVal (LBool true)] (put c (UConn (mk_db (db_closed d) MyClosed (db_co d))) w)
      | _ => UB
      end
  | _ => UB
  end.

(** The callbacks of the operations of a statement. *)
Definition stmt_event (fin : answer -> positive -> world -> outcome (list result * world)) w : outcome (bool * world) :=
  match bg_data bag with
  | DObject p =>
      s ← stmt_at p w;
      _ ← use_stmt s;
      if c_true (a_errno0 a) then resume_with (bg_L bag) p (luamariadb_push_stmt_error (a_errno0 a) (a_error a)) w
      else
        _ ← use_conn (st_ctx s) w;
        if c_true (a_status a) then wait_again (Some (st_ctx s)) (bg_data bag) w
        else if a_ret a =? 0 then '(rs, w) ← fin a p w; resume_with (bg_L bag) p rs w
        else resume_with (bg_L bag) p (push_stmt_error a) w
  | _ => UB
  end.
Definition stmt_execute_cont := stmt_event stmt_execute_result.
Definition stmt_store_result_cont := stmt_event done_result.
Definition stmt_send_long_data_event := stmt_event done_result.
Definition stmt_fetch_cont := stmt_event stmt_fetch_result.

Definition stmt_prepare_cont w : outcome (bool * world) :=
  match bg_data bag with
  | DObject p =>
      s ← stmt_at p w;
      _ ← use_stmt s;
      if c_true (a_errno0 a) then resume_with (bg_L bag) p (luamariadb_push_stmt_error (a_errno0 a) (a_error a)) w
      else
        _ ← use_conn (st_ctx s) w;
        if c_true (a_status a) then wait_again (Some (bg_ctx bag)) (bg_data bag) w
        else if a_ret a =? 0 then
          w ← stmt_prepare_result a p w;
          o ← extra_object w;
          resume_with (bg_L bag) p [o] w
        else resume_with (bg_L bag) p (push_errno a) w
  | _ => UB
  end.
Definition stmt_close_cont w : outcome (bool * world) :=
  match bg_data bag with
  | DObject p =>
      s ← stmt_at p w;
      _ ← use_stmt s;
      _ ← use_conn (st_ctx s) w;
      if c_true (a_status a) then wait_again (Some (st_ctx s)) (bg_data bag) w
      else
        w ← unref (st_table s) w;
        let w := put p (UStmt (set_gone s)) w in
        if a_ret a =? 0 then resume_with (bg_L bag) p [RVal (LBool true)] w
        else _ ← use_conn (bg_ctx bag) w; resume_with (bg_L bag) p (push_errno a) w
  | _ => UB
  end.

Definition fetch_row_cont w : outcome (bool * world) :=
  match bg_data bag with
  | DObject p =>
      u ← cursor_at p w;
      _ ← use_result u;
      _ ← use_conn (bg_ctx bag) w;
      if c_true (a_status a) then wait_again (cur_ctx u) (bg_data bag) w
      else
        _ ← use_thread (bg_L bag) w;
        '(rs, w) ← fetch_row_result (bg_L bag) a p w;
        match rs with Some rs => resume_with (bg_L bag) p rs w | None => Ret (false, w) end
  | _ => UB
  end.
(** The next wait is given the result, not the cursor. *)
Definition free_result_cont w : outcome (bool * world) :=
  match bg_data bag with
  | DObject p =>
      u ← cursor_at p w;
      _ ← use_result u;
      _ ← use_conn (bg_ctx bag) w;
      if c_true (a_status a) then wait_again (Some (bg_ctx bag)) (DResult p) w
      else resume_with (bg_L bag) p [RVal (LBool true)] (put p (UCursor (set_freed u)) w)
  | _ => UB
  end.

Definition call_back : world -> outcome (bool * world) :=
  match bg_callback bag with
  | CbConnect => real_connect_cont
  | CbClose => conn_close_cont
  | CbPing => conn_ping_event
  | CbQuery => real_query_cont
  | CbCommit => conn_commit_event
  | CbRollback => conn_rollback_event
  | CbAutocommit => conn_autocommit_event
  | CbCharset => set_character_set_cont
  | CbPrepare => stmt_prepare_cont
  | CbExecute => stmt_execute_cont
  | CbStore => stmt_store_result_cont
  | CbLong => stmt_send_long_data_event
  | CbFetch => stmt_fetch_cont
  | CbStmtClose => stmt_close_cont
  | CbRow => fetch_row_cont
  | CbFree => free_result_cont
  end.
End Callbacks.
(** [luaL_unref(L, LUA_REGISTRYINDEX, bag->extra)], in the two callbacks that have it. *)
Definition give_back (bag : DB_STATUS) w : outcome world :=
  match bg_extra bag with Some r => _ ← use_thread (bg_L bag) w; unref (Some r) w | None => Ret w end.
(** The event comes.  After the script has run, the reference that went with the wait (of
    a connection or a statement that is made) is given back; a wait that goes on keeps it
    ([skip_unref]).  Then the event and the memory are given back. *)
Definition fire (b : positive) (a : answer) (script : list request) w : outcome world :=
  bag ← bag_at b w;
  '(resumed, w) ← call_back bag a w;
  w ← (if (resumed : bool) then w ← run_script script w; give_back bag w else Ret w);
  free_bag b w.

(** ** Steps *)

Inductive hop : Type := HCall (q : request) | HFire (b : positive) (a : answer) (script : list request).
Definition hexec (o : hop) w : outcome world :=
  match o with HCall q => '(_, w) ← exec_call q w; Ret w | HFire b a script => fire b a script w end.
Fixpoint hrun (l : list hop) w : outcome world :=
  match l with [] => Ret w | o :: l => w ← hexec o w; hrun l w end.
End Mariadb.
