(* ===== verification/MariadbLife.v ===== *)
(** * What every step of the database bindings keeps

    The references in the registry are those of the objects, of the waits and of what
    was lost; the count of an object is the number of waits on it, those that were not
    taken included, and its coroutine is kept as long; events are for objects that are
    there, for what the library has not been told to free, on connections that are
    open, and for coroutines the registry keeps. *)

From S2P Require Import Prelude Lua Double Holds MariadbData Mariadb.

(** ** What there is *)

(** The references of an object, but for the coroutine. *)
Definition own_refs (u : userdata) : list positive :=
  match u with
  | UConn _ => []
  | UCursor c => ref_list (colnames c) ++ ref_list (coltypes c)
  | UStmt s => ref_list (st_table s)
  end.
Definition refs_of (u : userdata) : list positive := ref_list (coref (co_of u)) ++ own_refs u.
Definition heap_refs (h : gmap positive userdata) : list positive := concat (map (fun x => refs_of x.2) (map_to_list h)).
Definition bag_refs (m : gmap positive DB_STATUS) : list positive := concat (map (fun x => ref_list (bg_extra x.2)) (map_to_list m)).
Definition refused_refs (l : list refusal) : list positive := concat (map (fun x => ref_list (rf_extra x)) l).

Definition obj_of (d : cbdata) : positive := match d with DMysql p | DObject p | DResult p => p end.
(** The waits but the one whose callback runs, and the objects waited on. *)
Definition live (cur : option positive) (w : world) : gmap positive DB_STATUS :=
  match cur with Some b => delete b (w_bags w) | None => w_bags w end.
Definition waiting (m : gmap positive DB_STATUS) (l : list refusal) : list positive :=
  map (fun x => obj_of (bg_data x.2)) (map_to_list m) ++ map (fun x => obj_of (rf_data x)) l.
Definition count (p : positive) (l : list positive) : nat := length (filter (fun q => q = p) l).

Lemma count_app p l k : count p (l ++ k) = (count p l + count p k)%nat.
Proof. unfold count. by rewrite filter_app, length_app. Qed.
Lemma count_cons p q l : count p (q :: l) = ((if decide (q = p) then 1 else 0) + count p l)%nat.
Proof. unfold count. rewrite filter_cons. by case_decide. Qed.
Lemma count_perm p l k : l ≡ₚ k -> count p l = count p k.
Proof. unfold count. intros E. by rewrite E. Qed.
Lemma count_in p l : p ∈ l -> (0 < count p l)%nat.
Proof. induction l as [|q l IH]; [by intros ?%not_elem_of_nil|]. rewrite elem_of_cons, count_cons. intros [->|Hp]; case_decide; try done; specialize (IH Hp) || idtac; lia. Qed.
Lemma count_notin p l : p ∉ l -> count p l = 0%nat.
Proof. induction l as [|q l IH]; [done|]. rewrite not_elem_of_cons, count_cons. intros [Hn Hp]. rewrite decide_False by congruence. by rewrite IH. Qed.

(** ** Objects *)

Definition is_conn (h : gmap positive userdata) (p : positive) : Prop := exists d, h !! p = Some (UConn d).
Definition conn_open (h : gmap positive userdata) (p : positive) : Prop := exists d, h !! p = Some (UConn d) /\ db_closed d = false /\ my_conn d = MyOpen.
Definition stmt_alive (h : gmap positive userdata) (c p : positive) : Prop := exists s, h !! p = Some (UStmt s) /\ my_stmt s = true /\ st_ctx s = c.
(** Being closed: the library has been told, and is not done. *)
Definition stmt_closing (h : gmap positive userdata) (c p : positive) : Prop := exists s, h !! p = Some (UStmt s) /\ my_stmt s = true /\ st_closed s = true /\ st_ctx s = c.
Definition cursor_closing (h : gmap positive userdata) (p : positive) : Prop := exists u, h !! p = Some (UCursor u) /\ my_res u = true /\ cur_closed u = true.

Definition cursor_open (h : gmap positive userdata) (c p : positive) : Prop := exists u, h !! p = Some (UCursor u) /\ cur_closed u = false /\ cur_ctx u = Some c.

Definition anchor_ok (reg : registry_map) (n : nat) (a : anchor) : Prop :=
  match coref a with
  | None => n = 0%nat
  | Some r => (0 < n)%nat /\ coref_count a = Z.of_nat n /\ exists L, reg !! r = Some (RvThread L)
  end.
Definition user_ok (h : gmap positive userdata) (reg : registry_map) (u : userdata) : Prop :=
  match u with
  | UConn d => db_closed d = false -> my_conn d = MyOpen
  | UCursor c =>
      (cur_closed c = false -> my_res c = true /\ is_Some (cur_ctx c)) /\ (cur_closed c = true -> own_refs (UCursor c) = []) /\
      (forall q, cur_ctx c = Some q -> is_conn h q) /\ (colnames c = None <-> coltypes c = None)
  | UStmt s =>
      (st_closed s = false -> my_stmt s = true) /\ (my_stmt s = true -> is_conn h (st_ctx s) /\ exists r, st_table s = Some r /\ reg !! r = Some RvTable) /\
      (my_stmt s = false -> st_table s = None) /\ forall cs, st_rcols s = Some cs -> length (col_buffers cs) = col_count cs
  end.
(** A closing of a connection never waits: what it would wait for is refused. *)
Definition bag_ok (h : gmap positive userdata) (reg : registry_map) (bag : DB_STATUS) : Prop :=
  conn_open h (bg_ctx bag) /\
  match bg_callback bag, bg_data bag with
  | CbConnect, DMysql c => c = bg_ctx bag /\ exists r, bg_extra bag = Some r /\ reg !! r = Some (RvObject c)
  | CbPrepare, DObject p => stmt_alive h (bg_ctx bag) p /\ exists r, bg_extra bag = Some r /\ reg !! r = Some (RvObject p)
  | (CbPing | CbQuery | CbCommit | CbRollback | CbAutocommit | CbCharset), DMysql c => c = bg_ctx bag /\ bg_extra bag = None
  | (CbExecute | CbStore | CbLong | CbFetch), DObject p => stmt_alive h (bg_ctx bag) p /\ bg_extra bag = None
  | CbStmtClose, DObject p => stmt_closing h (bg_ctx bag) p /\ bg_extra bag = None
  | CbRow, DObject p => cursor_open h (bg_ctx bag) p /\ bg_extra bag = None
  | CbFree, DObject p => cursor_closing h p /\ bg_extra bag = None
  | _, _ => False
  end.
(** The object that is waited on keeps the coroutine that waits. *)
Definition anchored (h : gmap positive userdata) (reg : registry_map) (L p : positive) : Prop :=
  exists u r, h !! p = Some u /\ coref (co_of u) = Some r /\ reg !! r = Some (RvThread L).
(** Nothing waits on a connection, its cursors and statements included. *)
Definition quiet (p : positive) (m : gmap positive DB_STATUS) : Prop := forall b bag, m !! b = Some bag -> bg_ctx bag <> p.
(** No operation of a cursor or a statement is under way. *)
Definition idle (p : positive) (m : gmap positive DB_STATUS) : Prop := forall b bag, m !! b = Some bag -> bg_data bag <> DObject p.

(** [K]: references that an operation has to give back, or that are lost; [E]: objects
    whose wait has been counted and is not one of the waits. *)
Record minv (F : registry_map) (K E : list positive) (cur : option positive) (w : world) : Prop := {
  mi_refs : holds F (K ++ heap_refs (w_heap w) ++ bag_refs (live cur w) ++ refused_refs (w_refused w)) (w_reg w);
  mi_users : forall p u, w_heap w !! p = Some u -> user_ok (w_heap w) (w_reg w) u;
  mi_anchors : forall p u, w_heap w !! p = Some u -> anchor_ok (w_reg w) (count p (E ++ waiting (live cur w) (w_refused w))) (co_of u);
  mi_waits : forall p, p ∈ E ++ waiting (live cur w) (w_refused w) -> is_Some (w_heap w !! p);
  mi_bags : forall b bag, live cur w !! b = Some bag -> bag_ok (w_heap w) (w_reg w) bag;
  mi_one : NoDup (E ++ waiting (live cur w) (w_refused w));
  mi_cur : forall b, cur = Some b -> exists bag, w_bags w !! b = Some bag /\ bg_L bag ∉ w_dead w;
  mi_threads : forall b bag, live cur w !! b = Some bag -> anchored (w_heap w) (w_reg w) (bg_L bag) (obj_of (bg_data bag)) /\ bg_L bag ∉ w_dead w;
  mi_lost : forall x, x ∈ w_refused w -> anchored (w_heap w) (w_reg w) (rf_L x) (obj_of (rf_data x))
}.

(** ** References *)

Lemma heap_refs_put h p u u' : h !! p = Some u ->
  heap_refs h ≡ₚ refs_of u ++ heap_refs (delete p h) /\ heap_refs (<[p := u']> h) ≡ₚ refs_of u' ++ heap_refs (delete p h).
Proof.
  intros Hp. unfold heap_refs. split.
  - rewrite <- (insert_delete_id h p u) at 1 by done. rewrite map_to_list_insert by apply lookup_delete_eq. done.
  - rewrite <- insert_delete_eq. rewrite map_to_list_insert by apply lookup_delete_eq. done.
Qed.
Lemma heap_refs_new h p u : h !! p = None -> heap_refs (<[p := u]> h) ≡ₚ refs_of u ++ heap_refs h.
Proof. intros Hp. unfold heap_refs. by rewrite map_to_list_insert. Qed.
Lemma bag_refs_new m b bag : m !! b = None -> bag_refs (<[b := bag]> m) ≡ₚ ref_list (bg_extra bag) ++ bag_refs m.
Proof. intros Hp. unfold bag_refs. by rewrite map_to_list_insert. Qed.
Lemma bag_refs_del m b bag : m !! b = Some bag -> bag_refs m ≡ₚ ref_list (bg_extra bag) ++ bag_refs (delete b m).
Proof. intros Hb. rewrite <- (insert_delete_id m b bag) at 1 by done. apply bag_refs_new, lookup_delete_eq. Qed.
Lemma waiting_new m l b bag : m !! b = None -> waiting (<[b := bag]> m) l ≡ₚ obj_of (bg_data bag) :: waiting m l.
Proof. intros Hb. unfold waiting. by rewrite map_to_list_insert. Qed.
Lemma waiting_del m l b bag : m !! b = Some bag -> waiting m l ≡ₚ obj_of (bg_data bag) :: waiting (delete b m) l.
Proof. intros Hb. rewrite <- (insert_delete_id m b bag) at 1 by done. apply waiting_new, lookup_delete_eq. Qed.
Lemma bag_waits m b bag l : m !! b = Some bag -> obj_of (bg_data bag) ∈ waiting m l.
Proof. intros Hb. rewrite (waiting_del m l b bag Hb). by left. Qed.
Lemma refused_waits m x l : x ∈ l -> obj_of (rf_data x) ∈ waiting m l.
Proof. intros Hx. apply elem_of_app. right. apply list_elem_of_In. apply (in_map (fun x => obj_of (rf_data x))). by apply list_elem_of_In. Qed.
Lemma heap_refs_in h p u r : h !! p = Some u -> r ∈ refs_of u -> r ∈ heap_refs h.
Proof. intros Hp Hr. rewrite (proj1 (heap_refs_put h p u u Hp)). apply elem_of_app. by left. Qed.
Lemma bag_refs_in m b bag r : m !! b = Some bag -> r ∈ ref_list (bg_extra bag) -> r ∈ bag_refs m.
Proof. intros Hb Hr. rewrite (bag_refs_del m b bag Hb). apply elem_of_app. by left. Qed.

(** ** Changing one object *)

Definition same_kind (u u' : userdata) : Prop :=
  match u, u' with UConn _, UConn _ | UCursor _, UCursor _ | UStmt _, UStmt _ => True | _, _ => False end.
(** What the waits for an object rely on. *)
Definition keeps (u u' : userdata) : Prop :=
  match u, u' with
  | UConn d, UConn d' => db_closed d = false -> my_conn d = MyOpen -> db_closed d' = false /\ my_conn d' = MyOpen
  | UCursor c, UCursor c' => (my_res c = true -> my_res c' = true) /\ cur_closed c' = cur_closed c /\ cur_ctx c' = cur_ctx c
  | UStmt s, UStmt s' => (my_stmt s = true -> my_stmt s' = true) /\ (st_closed s = true -> st_closed s' = true) /\ st_ctx s' = st_ctx s
  | _, _ => True
  end.
Definition still (h h' : gmap positive userdata) (p : positive) : Prop :=
  forall u, h !! p = Some u -> exists u', h' !! p = Some u' /\ same_kind u u' /\ keeps u u'.
Lemma still_refl h p : still h h p.
Proof. intros v Hv. exists v. split; [done|]. destruct v; cbn; tauto. Qed.
Lemma still_kept h h' p : still h h' p ->
  (forall c, stmt_alive h c p -> stmt_alive h' c p) /\ (forall c, stmt_closing h c p -> stmt_closing h' c p) /\ (forall c, cursor_open h c p -> cursor_open h' c p) /\
  (cursor_closing h p -> cursor_closing h' p) /\ (conn_open h p -> conn_open h' p).
Proof.
  intros Hs. split; [intros q0|split; [intros q0|split; [intros q0|split]]]; intros (x & Hx & Hy); destruct (Hs _ Hx) as (u' & Hu' & Hk & Hp); destruct u' as [d|c|s]; try done; cbn in Hp.
  - exists s. destruct Hp as (H1 & H2 & H3), Hy as [H4 H5]. split; [done|]. split; [auto|congruence].
  - exists s. destruct Hp as (H1 & H2 & H3), Hy as (H4 & H5 & H6). split; [done|]. split; [auto|]. split; [auto|congruence].
  - exists c. destruct Hp as (H1 & H2 & H3), Hy. split; [done|]. split; congruence.
  - exists c. destruct Hp as (H1 & H2 & H3), Hy. split; [done|]. split; [auto|congruence].
  - exists d. destruct Hy. split; [done|]. by apply Hp.
Qed.

Section Put.
Context (h : gmap positive userdata) (p : positive) (u u' : userdata) (Hp : h !! p = Some u) (Hk : same_kind u u').
Lemma put_conn_kept q : is_conn h q -> is_conn (<[p := u']> h) q.
Proof.
  intros [d Hd]. destruct (decide (p = q)) as [<-|Hn]; [|exists d; by rewrite lookup_insert_ne].
  rewrite Hp in Hd. injection Hd as ->. destruct u'; try done. eexists. apply lookup_insert_eq.
Qed.
Lemma put_still q : (q = p -> keeps u u') -> still h (<[p := u']> h) q.
Proof.
  intros Hx v Hv. destruct (decide (p = q)) as [<-|Hn].
  - rewrite Hp in Hv. injection Hv as <-. exists u'. rewrite lookup_insert_eq. auto.
  - exists v. rewrite lookup_insert_ne by done. split; [done|]. by destruct v.
Qed.
End Put.

Lemma anchor_ok_agree reg reg' n a : anchor_ok reg n a -> (forall r, coref a = Some r -> reg' !! r = reg !! r) -> anchor_ok reg' n a.
Proof. unfold anchor_ok. intros Ha Hr. destruct (coref a) as [r|]; [|done]. by rewrite Hr. Qed.
Lemma user_ok_agree h h' reg reg' u : user_ok h reg u -> (forall r, r ∈ refs_of u -> reg' !! r = reg !! r) -> (forall q, is_conn h q -> is_conn h' q) -> user_ok h' reg' u.
Proof.
  unfold user_ok. destruct u as [|c|s]; [done| |].
  - intros (H1 & H2 & H3 & H4) _ Hc. split; [done|]. split; [done|]. split; [|done]. intros q Hq. by apply Hc, H3.
  - intros (H1 & H2 & H3 & H4) Hr Hc. split; [done|]. split; [|done]. intros Hm. destruct (H2 Hm) as (Hx & r & Et & Er). split; [by apply Hc|].
    exists r. split; [done|]. rewrite Hr; [done|]. unfold refs_of, own_refs. rewrite Et. apply elem_of_app. right. by left.
Qed.
Lemma bag_ok_agree h h' reg reg' bag : bag_ok h reg bag -> (forall r, r ∈ ref_list (bg_extra bag) -> reg' !! r = reg !! r) -> still h h' (bg_ctx bag) ->
  (forall p, bg_data bag = DObject p -> still h h' p) -> bag_ok h' reg' bag.
Proof.
  intros [H1 H2] Hr Hc Ha. split; [by apply (still_kept _ _ _ Hc)|]. destruct (bg_callback bag), (bg_data bag) as [c|p|p]; try done.
  all: try (destruct H2 as [H2 (r & Er & Hx)]; try (destruct (still_kept _ _ _ (Ha _ eq_refl)) as (? & ? & ? & ? & ?)); split; [by auto|]; exists r; split; [done|]; rewrite Hr; [done|]; rewrite Er; by left).
  all: destruct H2 as [H2 Hx]; destruct (still_kept _ _ _ (Ha p eq_refl)) as (? & ? & ? & ? & ?); by auto.
Qed.
(** Nothing relies on an object. *)
Definition free_of (u : userdata) (p : positive) (m : gmap positive DB_STATUS) : Prop := idle p m /\ match u with UConn _ => quiet p m | _ => True end.
(** The waits on an object keep their coroutine. *)
Definition same_anchor (p : positive) (u u' : userdata) (reg reg' : registry_map) (l : list positive) : Prop :=
  p ∉ l \/ (coref (co_of u') = coref (co_of u) /\ forall r, coref (co_of u) = Some r -> reg' !! r = reg !! r).

Lemma minv_put F K E cur w p u u' K' E' reg' : minv F K E cur w -> w_heap w !! p = Some u -> same_kind u u' ->
  let rest := heap_refs (delete p (w_heap w)) ++ bag_refs (live cur w) ++ refused_refs (w_refused w) in
  holds F (K' ++ refs_of u' ++ rest) reg' -> (forall r, r ∈ rest -> reg' !! r = w_reg w !! r) ->
  user_ok (<[p := u']> (w_heap w)) reg' u' -> anchor_ok reg' (count p (E' ++ waiting (live cur w) (w_refused w))) (co_of u') ->
  (forall q, q <> p -> count q E' = count q E) -> free_of u p (live cur w) \/ keeps u u' -> same_anchor p u u' (w_reg w) reg' (waiting (live cur w) (w_refused w)) ->
  NoDup (E' ++ waiting (live cur w) (w_refused w)) -> minv F K' E' cur (put p u' (set_reg reg' w)).
Proof.
  intros [A1 A2 A3 A4 A5 A6 A7 A8 A9] Hp Hk rest Hh Ha Hu Hn HE Hal Han HN. destruct (heap_refs_put _ _ _ u' Hp) as [_ Hperm].
  assert (Hkept := put_conn_kept _ _ _ _ Hp Hk). assert (Hrest : forall q v, q <> p -> w_heap w !! q = Some v -> forall r, r ∈ refs_of v -> reg' !! r = w_reg w !! r).
  { intros q v Hq Hv r Hr. apply Ha. apply elem_of_app. left. apply (heap_refs_in _ q v); [by rewrite lookup_delete_ne|done]. }
  assert (Hanch : forall L q, q ∈ waiting (live cur w) (w_refused w) -> anchored (w_heap w) (w_reg w) L q -> anchored (<[p := u']> (w_heap w)) reg' L q).
  { intros L q Hq (v & r & Hv & Er & Hr). destruct (decide (p = q)) as [<-|Hne].
    - rewrite Hp in Hv. injection Hv as <-. destruct Han as [Han|[E1 E2]]; [done|]. exists u', r. rewrite lookup_insert_eq. split; [done|]. split; [congruence|]. by rewrite E2.
    - exists v, r. rewrite lookup_insert_ne by done. split; [done|]. split; [done|]. rewrite (Hrest q v) by first [congruence|done|apply elem_of_app; left; rewrite Er; by left]. done. }
  constructor; cbn [w_heap w_reg w_bags w_refused put set_heap set_reg live]; [| | | | |exact HN|exact A7| |].
  - eapply holds_perm; [|exact Hh]. apply Permutation_app_head. unfold rest. rewrite Hperm. by rewrite app_assoc.
  - intros q v Hv. destruct (decide (p = q)) as [<-|Hq]; [rewrite lookup_insert_eq in Hv; by injection Hv as <-|]. rewrite lookup_insert_ne in Hv by done.
    eapply user_ok_agree; [by apply (A2 q v)|by apply (Hrest q)|exact Hkept].
  - intros q v Hv. destruct (decide (p = q)) as [<-|Hq]; [rewrite lookup_insert_eq in Hv; by injection Hv as <-|]. rewrite lookup_insert_ne in Hv by done.
    change (live cur (put p u' (set_reg reg' w))) with (live cur w). rewrite count_app, HE, <- count_app by done.
    eapply anchor_ok_agree; [by apply A3|]. intros r Hr. apply (Hrest q v); [done..|]. apply elem_of_app. left. rewrite Hr. by left.
  - intros q Hq. change (live cur (put p u' (set_reg reg' w))) with (live cur w) in Hq. destruct (decide (p = q)) as [<-|Hn'].
    + rewrite lookup_insert_eq. by eexists.
    + rewrite lookup_insert_ne by done. apply A4. apply elem_of_app in Hq as [Hq|Hq]; apply elem_of_app; [left|by right].
      apply count_in in Hq. rewrite HE in Hq by done. destruct (decide (q ∈ E)) as [|Hno]; [done|]. rewrite count_notin in Hq by done. lia.
  - intros b bag Hb. change (live cur (put p u' (set_reg reg' w))) with (live cur w) in Hb. pose proof (A5 b bag Hb) as Hok. eapply bag_ok_agree; [exact Hok| | |].
    + intros r Hr. apply Ha. apply elem_of_app. right. apply elem_of_app. left. by eapply bag_refs_in.
    + apply (put_still _ p u); [done..|]. intros Ec. destruct Hal as [[_ Hal]|Hal]; [|done]. destruct Hok as [(d & Hd & _) _]. rewrite Ec, Hp in Hd. injection Hd as ->.
      by destruct (Hal b bag Hb).
    + intros q Hq. apply (put_still _ p u); [done..|]. intros ->. destruct Hal as [[Hal _]|Hal]; [|done]. by destruct (Hal b bag Hb).
  - intros b bag Hb. change (live cur (put p u' (set_reg reg' w))) with (live cur w) in Hb. destruct (A8 b bag Hb) as [Hb' Hd]. split; [|done]. apply Hanch; [|done].
    apply (bag_waits _ b), Hb.
  - intros x Hx. apply Hanch; [|by apply A9]. by apply refused_waits.
Qed.

(** *** Nothing changes but the object's own data *)
Lemma set_reg_id w : set_reg (w_reg w) w = w.
Proof. by destruct w. Qed.
Lemma minv_set F K E cur w p u u' : minv F K E cur w -> w_heap w !! p = Some u -> same_kind u u' -> refs_of u' ≡ₚ refs_of u -> co_of u' = co_of u ->
  user_ok (<[p := u']> (w_heap w)) (w_reg w) u' -> free_of u p (live cur w) \/ keeps u u' -> minv F K E cur (put p u' w).
Proof.
  intros Hm Hp Hk Hr Hc Hu Hal. rewrite <- (set_reg_id w) at 1. eapply minv_put; [done..| |done|done| |done|done| |by apply (mi_one _ _ _ _ _ Hm)].
  - rewrite Hr. eapply holds_perm; [|apply (mi_refs _ _ _ _ _ Hm)]. apply Permutation_app_head. rewrite (proj1 (heap_refs_put _ _ _ u Hp)). by rewrite <- app_assoc.
  - rewrite Hc. by apply (mi_anchors _ _ _ _ _ Hm).
  - right. by rewrite Hc.
Qed.

(** ** Counting waits *)

Lemma set_co_facts a u : same_kind u (set_co a u) /\ keeps u (set_co a u) /\ own_refs (set_co a u) = own_refs u /\ co_of (set_co a u) = a.
Proof. destruct u; cbn; tauto. Qed.
Lemma user_ok_co h reg a u : user_ok h reg u -> user_ok h reg (set_co a u).
Proof. by destruct u. Qed.
Lemma conn_put h p u u' q : h !! p = Some u -> same_kind u u' -> is_conn h q -> is_conn (<[p := u']> h) q.
Proof. intros Hp Hk. by eapply put_conn_kept. Qed.

(** The parts of the registry, around one object. *)
Lemma minv_refs F K E cur w p u : minv F K E cur w -> w_heap w !! p = Some u ->
  holds F (ref_list (coref (co_of u)) ++ own_refs u ++ K ++ heap_refs (delete p (w_heap w)) ++ bag_refs (live cur w) ++ refused_refs (w_refused w)) (w_reg w).
Proof.
  intros Hm Hp. eapply holds_perm; [|apply (mi_refs _ _ _ _ _ Hm)]. rewrite (proj1 (heap_refs_put _ _ _ u Hp)). unfold refs_of. solve_Permutation.
Qed.

Lemma uncounted p l : count p l = 0%nat -> p ∉ l.
Proof. intros Hc Hin. apply count_in in Hin. lia. Qed.
Lemma rests_unwatched F K E cur w p u : minv F K E cur w -> w_heap w !! p = Some u -> coref (co_of u) = None -> p ∉ E ++ waiting (live cur w) (w_refused w).
Proof. intros Hm Hp Hc. pose proof (mi_anchors _ _ _ _ _ Hm p u Hp) as Ha. unfold anchor_ok in Ha. rewrite Hc in Ha. by apply uncounted. Qed.
Lemma unwatched_idle p m l : (p ∉ waiting m l) -> idle p m.
Proof. intros Hu b bag Hb Hd. apply Hu. replace p with (obj_of (bg_data bag)) by (by rewrite Hd). by eapply bag_waits. Qed.
(** The first wait on an object. *)
Lemma REF_CO_ok F K E cur w L p u : minv F K E cur w -> w_heap w !! p = Some u -> coref (co_of u) = None ->
  exists a reg, REF_CO L p w = Ret (put p (set_co a u) (set_reg reg w)) /\ minv F K (p :: E) cur (put p (set_co a u) (set_reg reg w)).
Proof.
  intros Hm Hp Er. pose proof (rests_unwatched _ _ _ _ _ _ _ Hm Hp Er) as Hno.
  unfold REF_CO, object_at. rewrite Hp. cbn [mbind outcome_bind]. pose proof (mi_anchors _ _ _ _ _ Hm p u Hp) as Ha. pose proof (mi_users _ _ _ _ _ Hm p u Hp) as Hu.
  pose proof (minv_refs _ _ _ _ _ _ _ Hm Hp) as Hh. set (rest := heap_refs _ ++ _) in Hh. unfold anchor_ok in Ha. rewrite Er in *.
  unfold ref. destruct (reg_ref (RvThread L) (w_reg w)) as [r reg] eqn:E1. destruct (holds_ref _ _ _ _ _ _ Hh E1) as (Hh' & Hr & ->). clear E1.
  set (a := mk_anchor (Some r) 1). destruct (set_co_facts a u) as (Hk & Hal & Hown & Hco). exists a, (<[r := RvThread L]> (w_reg w)). split; [done|].
  assert (Hag : forall x, x ∈ own_refs u ++ K ++ rest -> <[r := RvThread L]> (w_reg w) !! x = w_reg w !! x).
  { intros x Hx. apply lookup_insert_ne. intros <-. destruct (hl_own _ _ _ Hh r) as [_ [? ?]]; [by apply elem_of_app; right|congruence]. }
  eapply minv_put; [exact Hm|exact Hp|exact Hk| | | | | |by right| |].
  - unfold refs_of. rewrite Hown, Hco. eapply holds_perm; [|exact Hh']. cbn. fold rest. solve_Permutation.
  - intros x Hx. apply Hag. rewrite !elem_of_app. auto.
  - apply user_ok_co. eapply user_ok_agree; [exact Hu| |].
    + intros x Hx. apply Hag. unfold refs_of in Hx. rewrite Er in Hx. cbn in Hx. rewrite !elem_of_app. auto.
    + intros q. by apply (conn_put _ p u).
  - rewrite Hco. rewrite <- app_comm_cons, count_cons, decide_True, Ha by done. split; [cbn; lia|]. split; [done|]. exists L. apply lookup_insert_eq.
  - intros q Hq. rewrite count_cons, decide_False by congruence. done.
  - left. intros Hin. apply Hno, elem_of_app. by right.
  - cbn. apply NoDup_cons. split; [done|]. by apply (mi_one _ _ _ _ _ Hm).
Qed.

Lemma UNREF_CO_ok F K E cur w p : minv F K (p :: E) cur w ->
  exists u a reg, w_heap w !! p = Some u /\ UNREF_CO p w = Ret (put p (set_co a u) (set_reg reg w)) /\ minv F K E cur (put p (set_co a u) (set_reg reg w)).
Proof.
  intros Hm. pose proof (mi_one _ _ _ _ _ Hm) as HN. cbn in HN. apply NoDup_cons in HN as [Hno HN]. destruct (mi_waits _ _ _ _ _ Hm p) as [u Hp]; [by left|]. exists u.
  unfold UNREF_CO, object_at. rewrite Hp. cbn [mbind outcome_bind].
  pose proof (mi_anchors _ _ _ _ _ Hm p u Hp) as Ha. pose proof (mi_users _ _ _ _ _ Hm p u Hp) as Hu. pose proof (minv_refs _ _ _ _ _ _ _ Hm Hp) as Hh.
  set (rest := heap_refs _ ++ _) in Hh. unfold anchor_ok in Ha. rewrite <- app_comm_cons, count_cons, decide_True, (count_notin p) in Ha by done.
  destruct (coref (co_of u)) as [r|] eqn:Er; [|done]. destruct Ha as (_ & Hcnt & HL). rewrite Hcnt. change (Z.of_nat (1 + 0) - 1 =? 0) with true. cbv iota.
  destruct (holds_unref _ _ _ _ Hh) as (reg & Eu & Hh' & ->). unfold unref, reg_unref_opt. rewrite Eu. cbn [mbind outcome_bind]. clear Eu.
  set (a := mk_anchor None _). destruct (set_co_facts a u) as (Hk & Hal & Hown & Hco). exists a, (delete r (w_reg w)). split; [done|]. split; [done|].
  assert (Hag : forall x, x ∈ own_refs u ++ K ++ rest -> delete r (w_reg w) !! x = w_reg w !! x).
  { intros x Hx. apply lookup_delete_ne. intros <-. pose proof (hl_nodup _ _ _ Hh) as Hn. cbn in Hn. by apply NoDup_cons in Hn as [Hn _]. }
  eapply minv_put; [exact Hm|exact Hp|exact Hk| | | | | |by right| |exact HN].
  - unfold refs_of. rewrite Hown, Hco. eapply holds_perm; [|exact Hh']. cbn. fold rest. solve_Permutation.
  - intros x Hx. apply Hag. rewrite !elem_of_app. auto.
  - apply user_ok_co. destruct u as [|c|s]; [done| |]; cbn in Hu |- *.
    + destruct Hu as (U1 & U2 & U3 & U4). split; [done|]. split; [done|]. split; [|done]. intros q Hq. eapply conn_put; [exact Hp|done|by apply U3].
    + destruct Hu as (U1 & U2 & U3 & U4). split; [done|]. split; [|done]. intros Hx. destruct (U2 Hx) as (Hc & t & Et & Eq). split; [by eapply conn_put|]. exists t. split; [done|].
      rewrite Hag; [done|]. cbn. rewrite Et. by left.
  - rewrite Hco. cbn. by apply count_notin.
  - intros q Hq. rewrite count_cons, decide_False by congruence. done.
  - left. intros Hin. apply Hno, elem_of_app. by right.
Qed.

(** ** Waiting *)

Definition with_bag (cur : option positive) (w : world) (bag : DB_STATUS) : world := set_bags (<[fresh (dom (w_bags w)) := bag]> (w_bags w)) w.
Lemma live_with cur w bag : (forall b, cur = Some b -> exists bag, w_bags w !! b = Some bag /\ bg_L bag ∉ w_dead w) ->
  live cur w !! fresh (dom (w_bags w)) = None /\ live cur (with_bag cur w bag) = <[fresh (dom (w_bags w)) := bag]> (live cur w).
Proof.
  intros Hc. assert (Hf : w_bags w !! fresh (dom (w_bags w)) = None) by (apply not_elem_of_dom, is_fresh). destruct cur as [b|]; cbn; [|done].
  destruct (Hc b eq_refl) as (x & Hx & _). assert (b <> fresh (dom (w_bags w))) by congruence. split; [by rewrite lookup_delete_ne|by rewrite delete_insert_ne].
Qed.

(** A wait that is not taken, and one that is. *)
Lemma minv_refuse F K E cur w L data extra : minv F (ref_list extra ++ K) (obj_of data :: E) cur w -> anchored (w_heap w) (w_reg w) L (obj_of data) ->
  minv F K E cur (refuse (mk_refusal L data extra) w).
Proof.
  intros [A1 A2 A3 A4 A5 A6 A7 A8 A9] Han. assert (Hp : (obj_of data :: E) ++ waiting (live cur w) (w_refused w) ≡ₚ E ++ waiting (live cur w) (w_refused w ++ [mk_refusal L data extra])).
  { unfold waiting. rewrite map_app. cbn. rewrite app_assoc. solve_Permutation. }
  constructor; cbn [w_heap w_reg w_bags w_refused refuse]; try done; change (live cur (refuse (mk_refusal L data extra) w)) with (live cur w).
  - unfold refused_refs. rewrite map_app, concat_app. cbn. rewrite app_nil_r. eapply holds_perm; [|exact A1]. unfold refused_refs. solve_Permutation.
  - intros p u Hu. rewrite <- (count_perm p _ _ Hp). by apply A3.
  - intros p. rewrite <- Hp. apply A4.
  - by rewrite <- Hp.
  - intros x [Hx| ->%list_elem_of_singleton]%elem_of_app; [by apply A9|done].
Qed.
(** What a wait needs. *)
Definition bag_fits (w : world) (bag : DB_STATUS) : Prop :=
  bag_ok (w_heap w) (w_reg w) bag /\ anchored (w_heap w) (w_reg w) (bg_L bag) (obj_of (bg_data bag)) /\ bg_L bag ∉ w_dead w.
Lemma minv_bag F K E cur w bag : minv F (ref_list (bg_extra bag) ++ K) (obj_of (bg_data bag) :: E) cur w -> bag_fits w bag -> minv F K E cur (with_bag cur w bag).
Proof.
  intros [A1 A2 A3 A4 A5 A6 A7 A8 A9] (Hb & Han & Hal). destruct (live_with cur w bag A7) as [Hf El]. set (b := fresh _) in *.
  assert (Hp : (obj_of (bg_data bag) :: E) ++ waiting (live cur w) (w_refused w) ≡ₚ E ++ waiting (live cur (with_bag cur w bag)) (w_refused w)).
  { rewrite El, waiting_new by done. solve_Permutation. }
  constructor; cbn [w_heap w_reg w_bags w_refused with_bag set_bags]; [|exact A2| | | | | | |exact A9].
  - rewrite El, bag_refs_new by done. eapply holds_perm; [|exact A1]. solve_Permutation.
  - intros p u Hu. rewrite <- (count_perm p _ _ Hp). by apply A3.
  - intros p. rewrite <- Hp. apply A4.
  - intros x y. rewrite El. intros [[<- <-]|[Hn Hx]]%lookup_insert_Some; [done|by apply (A5 x)].
  - by rewrite <- Hp.
  - intros x Hx. destruct (A7 x Hx) as (y & Hy & Hd). exists y. split; [|done]. rewrite lookup_insert_ne; [done|]. intros Ex. rewrite <- Ex in Hy. unfold b in Hy.
    pose proof (is_fresh (dom (w_bags w))) as Hfr. apply not_elem_of_dom in Hfr. congruence.
  - intros x y. rewrite El. intros [[<- <-]|[Hn Hx]]%lookup_insert_Some; [done|by apply (A8 x)].
Qed.

(** What waiting did. *)
Inductive waited (w : world) (L : positive) (ctx : option positive) (data : cbdata) (status : Z) (cb : callback) (extra : option positive) (mem : bool) : world -> Prop :=
  | waited_not : (forall c d, ctx = Some c -> w_heap w !! c = Some (UConn d) -> db_closed d || negb mem = true) ->
      waited w L ctx data status cb extra mem (refuse (mk_refusal L data extra) w)
  | waited_bag c d : ctx = Some c -> w_heap w !! c = Some (UConn d) -> db_closed d = false -> mem = true ->
      waited w L ctx data status cb extra mem (set_bags (<[fresh (dom (w_bags w)) := mk_bag L data status (event_for status) c extra cb]> (w_bags w)) w).
Lemma wait_ok F K E cur w L ctx data status cb extra mem : minv F (ref_list extra ++ K) (obj_of data :: E) cur w ->
  anchored (w_heap w) (w_reg w) L (obj_of data) -> L ∉ w_dead w ->
  (forall c, ctx = Some c -> is_conn (w_heap w) c /\ (conn_open (w_heap w) c -> bag_ok (w_heap w) (w_reg w) (mk_bag L data status (event_for status) c extra cb))) ->
  exists w', wait_for_status L ctx data status cb extra mem w = Ret w' /\ minv F K E cur w' /\ waited w L ctx data status cb extra mem w'.
Proof.
  intros Hm Han Hal Hb. unfold wait_for_status. destruct ctx as [c|].
  - destruct (Hb c eq_refl) as [[d Hd] Hb']. unfold conn_at. rewrite Hd. cbn [mbind outcome_bind]. destruct (db_closed d || negb mem) eqn:Ec.
    + eexists. split; [done|]. split; [by apply minv_refuse|]. apply waited_not. intros ? ? [= <-] Hd'. by rewrite Hd in Hd'; injection Hd' as <-.
    + apply orb_false_iff in Ec as [Ec Em%negb_false_iff]. assert (Ho : conn_open (w_heap w) c) by (exists d; split; [done|]; split; [done|]; by apply (mi_users _ _ _ _ _ Hm c _ Hd)).
      eexists. split; [done|]. split; [by apply (minv_bag F K E cur w (mk_bag L data status (event_for status) c extra cb)); [|split; [apply Hb'|]]|]. by eapply waited_bag.
  - eexists. split; [done|]. split; [by apply minv_refuse|]. apply waited_not. done.
Qed.
Lemma waited_frame w L ctx data status cb extra mem w' : waited w L ctx data status cb extra mem w' -> w_heap w' = w_heap w /\ w_reg w' = w_reg w /\ w_resumed w' = w_resumed w /\
  (forall b bag, w_bags w !! b = Some bag -> w_bags w' !! b = Some bag).
Proof.
  intros []; [done|]. cbn. do 3 (split; [done|]). intros b bag Hb. rewrite lookup_insert_ne; [done|]. intros <-.
  pose proof (is_fresh (dom (w_bags w))) as Hf. apply not_elem_of_dom in Hf. congruence.
Qed.

(** [REF_CO] after the wait: it looks at nothing a wait changes. *)
Definition co_up (L : positive) (a : anchor) (reg : registry_map) : anchor * registry_map :=
  match coref a with
  | None => let '(r, reg) := reg_ref (RvThread L) reg in (mk_anchor (Some r) 1, reg)
  | Some r => (mk_anchor (Some r) (coref_count a + 1), reg)
  end.
Lemma REF_CO_eq L p w u : w_heap w !! p = Some u ->
  REF_CO L p w = Ret (put p (set_co (co_up L (co_of u) (w_reg w)).1 u) (set_reg (co_up L (co_of u) (w_reg w)).2 w)).
Proof.
  intros Hp. unfold REF_CO, object_at, co_up. rewrite Hp. cbn [mbind outcome_bind]. destruct (coref (co_of u)); [cbn [fst snd]; by rewrite set_reg_id|done].
Qed.
Lemma co_up_kept L a reg r v : reg !! r = Some v -> (co_up L a reg).2 !! r = Some v.
Proof.
  intros Hr. unfold co_up. destruct (coref a); [done|]. cbn. rewrite lookup_insert_ne; [done|]. intros <-.
  pose proof (is_fresh (dom reg)) as Hf. apply not_elem_of_dom in Hf. congruence.
Qed.
Lemma bag_ok_co h reg reg' bag p u a : bag_ok h reg bag -> h !! p = Some u -> (forall r, r ∈ ref_list (bg_extra bag) -> reg' !! r = reg !! r) -> bag_ok (<[p := set_co a u]> h) reg' bag.
Proof.
  intros Hb Hp He. destruct (set_co_facts a u) as (Hk & Hal & _). eapply bag_ok_agree; [exact Hb|exact He| |].
  - by apply (put_still _ p u).
  - intros q _. by apply (put_still _ p u).
Qed.
(** The coroutine of a wait that is the first is the one the object keeps. *)
Lemma co_up_anchored h L p u reg : coref (co_of u) = None -> anchored (<[p := set_co (co_up L (co_of u) reg).1 u]> h) (co_up L (co_of u) reg).2 L p.
Proof.
  intros Hc. unfold co_up. rewrite Hc. cbn [reg_ref fst snd]. eexists _, _. rewrite lookup_insert_eq. split; [done|].
  split; [by rewrite (proj2 (proj2 (proj2 (set_co_facts _ u))))|]. apply lookup_insert_eq.
Qed.
Lemma wait_then_REF F K E cur w L ctx data status cb mem u : minv F K E cur w -> w_heap w !! obj_of data = Some u -> coref (co_of u) = None -> L ∉ w_dead w ->
  (forall c, ctx = Some c -> is_conn (w_heap w) c /\ (conn_open (w_heap w) c -> bag_ok (w_heap w) (w_reg w) (mk_bag L data status (event_for status) c None cb))) ->
  exists w1 w', wait_for_status L ctx data status cb None mem w = Ret w1 /\ waited w L ctx data status cb None mem w1 /\
    REF_CO L (obj_of data) w1 = Ret w' /\ minv F K E cur w' /\ w_bags w' = w_bags w1 /\ w_refused w' = w_refused w1.
Proof.
  intros Hm Hp Hco Hal Hb. destruct (REF_CO_ok F K E cur w L _ u Hm Hp Hco) as (a' & reg' & E1 & Hm2). rewrite (REF_CO_eq _ _ _ _ Hp) in E1.
  match type of E1 with Ret ?x = Ret ?y => assert (E2 : x = y) by congruence end. rewrite <- E2 in Hm2. clear a' reg' E1 E2.
  set (a := (co_up _ _ _).1) in Hm2. set (reg := (co_up _ _ _).2) in Hm2.
  assert (HR : forall w1, w_heap w1 = w_heap w -> w_reg w1 = w_reg w -> REF_CO L (obj_of data) w1 = Ret (put (obj_of data) (set_co a u) (set_reg reg w1))).
  { intros w1 Eh Er. rewrite (REF_CO_eq _ _ _ u) by (by rewrite Eh). by rewrite Er. }
  assert (Hno : exists w', REF_CO L (obj_of data) (refuse (mk_refusal L data None) w) = Ret w' /\ minv F K E cur w' /\
      w_bags w' = w_bags w /\ w_refused w' = w_refused w ++ [mk_refusal L data None]).
  { rewrite HR by done. eexists. split; [done|]. split; [|done]. refine (minv_refuse F K E cur _ L data None Hm2 _). by apply co_up_anchored. }
  destruct Hno as (w' & E1 & Hm' & Eb & Er). unfold wait_for_status. destruct ctx as [c|].
  - destruct (Hb c eq_refl) as [[d Hd] Hb']. unfold conn_at. rewrite Hd. cbn [mbind outcome_bind]. destruct (db_closed d || negb mem) eqn:Ec.
    + eexists _, w'. split; [done|]. split; [|by rewrite Eb, Er]. apply waited_not. intros ? ? [= <-] Hd'. by rewrite Hd in Hd'; injection Hd' as <-.
    + eexists. eexists. split; [done|]. apply orb_false_iff in Ec as [Ec Em%negb_false_iff]. split; [by eapply waited_bag|]. rewrite HR by done. split; [done|]. split; [|done].
      refine (minv_bag F K E cur (put (obj_of data) (set_co a u) (set_reg reg w)) (mk_bag L data status (event_for status) c None cb) _ _); [exact Hm2|].
      split; [refine (bag_ok_co (w_heap w) (w_reg w) reg _ _ u a _ Hp _); [apply Hb'; exists d; split; [done|]; split; [done|]; by apply (mi_users _ _ _ _ _ Hm c _ Hd)|by intros r ?%not_elem_of_nil]|]. split; [by apply co_up_anchored|done].
  - eexists _, w'. split; [done|]. split; [|by rewrite Eb, Er]. by apply waited_not.
Qed.

(** ** What does not matter, and new objects *)

Lemma minv_send F K E cur w x : minv F K E cur w -> minv F K E cur (send x w).
Proof. intros []. by constructor. Qed.
Lemma minv_log F K E cur w x : minv F K E cur w -> minv F K E cur (log_resumed x w).
Proof. intros []. by constructor. Qed.
Lemma minv_holds F K K' E cur w : K ≡ₚ K' -> minv F K E cur w -> minv F K' E cur w.
Proof. intros Hp []. constructor; try done. by rewrite <- Hp. Qed.
(** References of an operation come and go. *)
Lemma minv_reg F K K' E cur w reg : minv F K E cur w ->
  let rest := heap_refs (w_heap w) ++ bag_refs (live cur w) ++ refused_refs (w_refused w) in
  holds F (K' ++ rest) reg -> (forall x, x ∈ rest -> reg !! x = w_reg w !! x) -> minv F K' E cur (set_reg reg w).
Proof.
  intros [A1 A2 A3 A4 A5 A6 A7 A8 A9] rest Hh Hag.
  assert (Hanch : forall L q, anchored (w_heap w) (w_reg w) L q -> anchored (w_heap w) reg L q).
  { intros L q (v & r & Hv & Er & Hr). exists v, r. split; [done|]. split; [done|]. rewrite Hag; [done|]. apply elem_of_app. left. apply (heap_refs_in _ q v); [done|].
    apply elem_of_app. left. rewrite Er. by left. }
  constructor; cbn [w_heap w_reg w_bags w_refused set_reg]; try done.
  - intros p u Hp. eapply user_ok_agree; [by apply (A2 p)| |done]. intros x Hx. apply Hag, elem_of_app. left. by eapply heap_refs_in.
  - intros p u Hp. eapply anchor_ok_agree; [by apply A3|]. intros x Hx. apply Hag, elem_of_app. left. apply (heap_refs_in _ p u); [done|].
    apply elem_of_app. left. rewrite Hx. by left.
  - intros b bag Hb. eapply bag_ok_agree; [by apply (A5 b)| |apply still_refl|intros q _; apply still_refl]. intros x Hx. apply Hag. unfold rest. rewrite !elem_of_app. right. left. by eapply bag_refs_in.
  - intros b bag Hb. destruct (A8 b bag Hb) as [Hb' Hd]. split; [|done]. by apply Hanch.
  - intros x Hx. by apply Hanch, A9.
Qed.
Lemma minv_ref F K E cur w v r reg : minv F K E cur w -> reg_ref v (w_reg w) = (r, reg) -> minv F (r :: K) E cur (set_reg reg w) /\ reg !! r = Some v.
Proof.
  intros Hm E1. pose proof (mi_refs _ _ _ _ _ Hm) as A1. destruct (holds_ref _ _ _ _ _ _ A1 E1) as (Hh & Hr & ->). split; [|apply lookup_insert_eq].
  eapply minv_reg; [done..|]. intros x Hx. apply lookup_insert_ne. intros <-. destruct (hl_own _ _ _ A1 r) as [_ [? ?]]; [by apply elem_of_app; right|congruence].
Qed.
Lemma minv_unref F K E cur w r : minv F (r :: K) E cur w -> exists reg, reg_unref r (w_reg w) = Ret reg /\ reg = delete r (w_reg w) /\ minv F K E cur (set_reg reg w).
Proof.
  intros Hm. pose proof (mi_refs _ _ _ _ _ Hm) as A1. destruct (holds_unref _ _ _ _ A1) as (reg & Eu & Hh & ->). eexists. split; [done|]. split; [done|].
  pose proof (hl_nodup _ _ _ A1) as Hn. rewrite <- app_comm_cons in Hn. apply NoDup_cons in Hn as [Hn _].
  eapply minv_reg; [done..|]. intros x Hx. apply lookup_delete_ne. intros ->. by apply Hn, elem_of_app; right.
Qed.
Lemma minv_new F K E cur w u p w' : minv F (own_refs u ++ K) E cur w -> coref (co_of u) = None -> user_ok (w_heap w) (w_reg w) u -> new_object u w = (p, w') ->
  minv F K E cur w' /\ w_heap w !! p = None /\ w' = put p u w.
Proof.
  intros [A1 A2 A3 A4 A5 A6 A7 A8 A9] Hc Hu [= Ep Ew]. assert (Hp : w_heap w !! p = None) by (rewrite <- Ep; apply not_elem_of_dom, is_fresh). rewrite Ep in Ew. subst w'. clear Ep.
  split; [|done]. assert (Hk : forall q v, w_heap w !! q = Some v -> <[p := u]> (w_heap w) !! q = Some v) by (intros q v Hv; rewrite lookup_insert_ne; [done|congruence]).
  assert (Hconn : forall q, is_conn (w_heap w) q -> is_conn (<[p := u]> (w_heap w)) q) by (intros q [d Hd]; exists d; by apply Hk).
  constructor; cbn [w_heap w_reg w_bags w_refused put set_heap]; [| | | | |exact A6|exact A7| |].
  - change (live cur (put p u w)) with (live cur w). rewrite heap_refs_new by done. eapply holds_perm; [|exact A1]. unfold refs_of. rewrite Hc. cbn. solve_Permutation.
  - intros q v [[<- <-]|[Hn Hv]]%lookup_insert_Some; eapply user_ok_agree; try done. by apply (A2 q).
  - intros q v. change (live cur (put p u w)) with (live cur w). intros [[<- <-]|[Hn Hv]]%lookup_insert_Some; [|by apply A3].
    unfold anchor_ok. rewrite Hc. apply count_notin. intros Hin. destruct (A4 p Hin). congruence.
  - intros q Hq. destruct (A4 q Hq) as [v Hv]. exists v. by apply Hk.
  - intros b bag Hb. eapply bag_ok_agree; [by apply (A5 b)|done| |intros q _]; intros v Hv; exists v; (split; [by apply Hk|]); destruct v; cbn; tauto.
  - intros b bag Hb. destruct (A8 b bag Hb) as [(v & r & Hv & Er & Hr) Hd]. split; [|done]. exists v, r. split; [by apply Hk|done].
  - intros x Hx. destruct (A9 x Hx) as (v & r & Hv & Er & Hr). exists v, r. split; [by apply Hk|done].
Qed.
