(* ===== verification/MariadbSteps.v ===== *)
(** * The steps of the database bindings

    Each operation a script calls and each callback keeps the invariant, when what is
    asked of the script and of the client library holds ([call_ok], [event_ok]): one
    operation at a time for a cursor and for a statement, a result whose freeing has
    to wait is free at the first event, what is fetched was stored through the buffers. *)

From S2P Require Import Prelude Lua Double Holds MariadbData Mariadb MariadbLife.

(** ** Objects that go *)

Definition uses (u : userdata) (p : positive) : Prop :=
  match u with UConn _ => False | UCursor c => cur_ctx c = Some p | UStmt s => my_stmt s = true /\ st_ctx s = p end.
Lemma minv_delete F K E cur w p u : minv F K E cur w -> w_heap w !! p = Some u -> p ∉ E ++ waiting (live cur w) (w_refused w) ->
  (forall b bag, live cur w !! b = Some bag -> bg_ctx bag <> p) -> (forall q v, w_heap w !! q = Some v -> ~ uses v p) ->
  minv F (own_refs u ++ K) E cur (set_heap (delete p (w_heap w)) w).
Proof.
  intros Hm Hp Hw Hb Hu. pose proof (minv_refs _ _ _ _ _ _ _ Hm Hp) as Hh. destruct Hm as [A1 A2 A3 A4 A5 A6 A7 A8 A9].
  assert (Hc : coref (co_of u) = None). { pose proof (A3 p u Hp) as Ha. unfold anchor_ok in Ha. rewrite count_notin in Ha by done. destruct (coref (co_of u)); [lia|done]. }
  rewrite Hc in Hh. assert (Hconn : forall q, q <> p -> is_conn (w_heap w) q -> is_conn (delete p (w_heap w)) q) by (intros q Hq [d Hd]; exists d; by rewrite lookup_delete_ne).
  assert (Hd : forall b bag, live cur w !! b = Some bag -> obj_of (bg_data bag) <> p).
  { intros b bag Hl Ed. apply Hw, elem_of_app. right. rewrite (waiting_del _ _ b bag Hl), Ed. by left. }
  assert (Hanch : forall L q, q <> p -> anchored (w_heap w) (w_reg w) L q -> anchored (delete p (w_heap w)) (w_reg w) L q).
  { intros L q Hq (v & r & Hv & Hr). exists v, r. by rewrite lookup_delete_ne. }
  constructor; cbn [w_heap w_reg w_bags w_refused set_heap]; [| | | | |exact A6|exact A7| |].
  - eapply holds_perm; [|exact Hh]. change (live cur (set_heap (delete p (w_heap w)) w)) with (live cur w). cbn. solve_Permutation.
  - intros q v [Hn Hv]%lookup_delete_Some. pose proof (A2 q v Hv) as Hok. pose proof (Hu q v Hv) as Hno. destruct v as [|c|s]; [done| |].
    + destruct Hok as (U1 & U2 & U3 & U4). split; [done|]. split; [done|]. split; [|done]. intros x Hx. apply Hconn; [|by apply U3]. intros ->. by apply Hno.
    + destruct Hok as (U1 & U2 & U3 & U4). split; [done|]. split; [|done]. intros Hx. destruct (U2 Hx) as [Hc' Ht]. split; [|done]. apply Hconn; [|done]. intros E1. by apply Hno.
  - intros q v [Hn Hv]%lookup_delete_Some. by apply A3.
  - intros q Hq. change (live cur (set_heap (delete p (w_heap w)) w)) with (live cur w) in Hq. rewrite lookup_delete_ne; [by apply A4|]. intros ->. by apply Hw.
  - intros b bag Hl. change (live cur (set_heap (delete p (w_heap w)) w)) with (live cur w) in Hl. pose proof (A5 b bag Hl) as [B1 B2].
    specialize (Hd b bag Hl). assert (Hx0 := Hb b bag Hl).
    split; [destruct B1 as (d & Hx & ?); exists d; by rewrite lookup_delete_ne|]. destruct (bg_callback bag), (bg_data bag) as [c|q|q]; try done; destruct B2 as [B2 B3]; split; try done.
    all: destruct B2 as (x & Hx & ?); exists x; split; [|done]; cbn in Hd; by rewrite lookup_delete_ne.
  - intros b bag Hl. change (live cur (set_heap (delete p (w_heap w)) w)) with (live cur w) in Hl. destruct (A8 b bag Hl) as [Ha Hal]. split; [|done]. by apply Hanch, Ha; eapply Hd.
  - intros x Hx. apply Hanch; [|by apply A9]. intros E1. apply Hw, elem_of_app. right. rewrite <- E1. by apply refused_waits.
Qed.

(** What is the same after an operation that neither waits nor resumes. *)
Record same_waits (w w' : world) : Prop := {
  sw_bags : w_bags w' = w_bags w;
  sw_refused : w_refused w' = w_refused w;
  sw_resumed : w_resumed w' = w_resumed w
}.
Lemma same_waits_refl w : same_waits w w.
Proof. done. Qed.
Lemma same_waits_trans w1 w2 w3 : same_waits w1 w2 -> same_waits w2 w3 -> same_waits w1 w3.
Proof. intros [] []. constructor; congruence. Qed.
Lemma same_live cur w w' : same_waits w w' -> live cur w' = live cur w.
Proof. intros [H _ _]. unfold live. by rewrite H. Qed.

(** ** What operations give when they are done *)

Lemma create_cursor_ok F K E cur w c fields p w' : minv F K E cur w -> is_conn (w_heap w) c -> create_cursor c fields w = (p, w') ->
  minv F K E cur w' /\ same_waits w w' /\ forall q u, w_heap w !! q = Some u -> w_heap w' !! q = Some u.
Proof.
  intros Hm Hc E1.
  destruct (minv_new F K E cur w (UCursor (mk_cur false fields None None true (Some c) no_anchor)) p w') as (Hm' & Hp & ->); [exact Hm|done| |exact E1|].
  - cbn. split; [done|]. split; [done|]. split; [by intros q [= <-]|done].
  - split; [done|]. split; [done|]. intros q u Hu. cbn. rewrite lookup_insert_ne; [done|congruence].
Qed.
Lemma more_sets_ok F K E cur c l : forall w, minv F K E cur w -> is_conn (w_heap w) c ->
  minv F K E cur (more_sets c l w).2 /\ same_waits w (more_sets c l w).2.
Proof.
  induction l as [|[n r] l IH]; intros w Hm Hc; [done|]. cbn [more_sets]. destruct (n =? 0); [|done].
  assert (Hn : exists rs stop w1, next_set c r w = (rs, stop, w1) /\ minv F K E cur w1 /\ same_waits w w1 /\ is_conn (w_heap w1) c).
  { unfold next_set. destruct (rs_res r) as [fields|].
    - destruct (create_cursor c fields w) as [p w1] eqn:E1. destruct (create_cursor_ok _ _ _ _ _ _ _ _ _ Hm Hc E1) as (Hm1 & Hs & Hk).
      exists [RObject p], false, w1. do 3 (split; [done|]). destruct Hc as [d Hd]. exists d. by apply Hk.
    - destruct (rs_cols r =? 0); by eexists _, _, w. }
  destruct Hn as (rs & stop & w1 & -> & Hm1 & Hs & Hc1). destruct stop; [done|]. destruct (IH w1 Hm1 Hc1) as [Hm2 Hs2].
  destruct (more_sets c l w1) as [rs' w2]. cbn in *. split; [done|]. by eapply same_waits_trans.
Qed.
Lemma real_query_result_ok F K E cur w a c : minv F K E cur w -> is_conn (w_heap w) c ->
  returns (real_query_result a c w) (fun '(_, w') => minv F K E cur w' /\ same_waits w w').
Proof.
  intros Hm Hc. unfold real_query_result. destruct (rs_res (a_set a)) as [fields|].
  - destruct (create_cursor c fields w) as [p w1] eqn:E1. destruct (create_cursor_ok _ _ _ _ _ _ _ _ _ Hm Hc E1) as (Hm1 & Hs & Hk).
    assert (Hc1 : is_conn (w_heap w1) c) by (destruct Hc as [d Hd]; exists d; by apply Hk). destruct (more_sets_ok F K E cur c (a_more a) w1 Hm1 Hc1) as [Hm2 Hs2].
    destruct (more_sets c (a_more a) w1) as [rs w2]. cbn in *. split; [done|]. by eapply same_waits_trans.
  - destruct (rs_cols (a_set a) =? 0); [|by cbn]. pose proof (more_sets_ok F K E cur c (a_more a) w Hm Hc) as [Hm2 Hs2].
    destruct (more_sets c (a_more a) w) as [rs w2]. by cbn in *.
Qed.

(** *** The buffers of a statement *)

Definition buffers_ok (cs : columns) : Prop := length (col_buffers cs) = col_count cs.
(** The arrays are long enough, and the buffers that were made are large enough. *)
Definition columns_fit (fields : list MYSQL_FIELD) (rc : option columns) : Prop :=
  forall cs, rc = Some cs -> (length fields <= col_count cs)%nat /\
    forall i f n t size, fields !! i = Some f -> col_buffers cs !! i = Some (Some n) -> result_bind f = Some (t, size) -> size <= n.
Lemma get_or_create_ok i size cs : buffers_ok cs -> (i < col_count cs)%nat -> let '(n, cs') := get_or_create_ud i size cs in
  buffers_ok cs' /\ col_count cs' = col_count cs /\ (forall j, j <> i -> col_buffers cs' !! j = col_buffers cs !! j) /\
  ((forall n', col_buffers cs !! i = Some (Some n') -> size <= n') -> size <= n).
Proof.
  intros Hb Hi. unfold get_or_create_ud. destruct (col_buffers cs !! i) as [[n|]|] eqn:E1.
  - split; [done|]. split; [done|]. split; [done|]. intros H. by apply H.
  - split; [unfold buffers_ok in *; cbn; by rewrite length_insert|]. split; [done|]. split; [|lia]. intros j Hj. cbn. by rewrite list_lookup_insert_ne.
  - apply lookup_ge_None in E1. unfold buffers_ok in Hb. lia.
Qed.
Lemma bind_columns_ok fields : forall i cs, buffers_ok cs -> (i + length fields <= col_count cs)%nat ->
  (forall j f n t size, fields !! j = Some f -> col_buffers cs !! (i + j)%nat = Some (Some n) -> result_bind f = Some (t, size) -> size <= n) ->
  returns (bind_columns i fields cs) buffers_ok.
Proof.
  induction fields as [|f fields IH]; intros i cs Hb Hl Hn; [done|]. cbn [bind_columns]. cbn in Hl.
  destruct (Nat.ltb_spec i (col_count cs)); [|lia]. cbn [negb].
  assert (Hnext : forall cs', buffers_ok cs' -> col_count cs' = col_count cs -> (forall j, j <> i -> col_buffers cs' !! j = col_buffers cs !! j) ->
    returns (bind_columns (S i) fields cs') buffers_ok).
  { intros cs' Hb' Hc' Ho. apply IH; [done|lia|]. intros j g n t size Hg Hx Hr. rewrite Ho in Hx by lia. rewrite Nat.add_succ_comm in Hx. by apply (Hn (S j) g n t size). }
  destruct (result_bind f) as [[t size]|] eqn:Er; [|by apply Hnext].
  pose proof (get_or_create_ok i size cs Hb H) as Hg. destruct (get_or_create_ud i size cs) as [n cs']. destruct Hg as (Hb' & Hc' & Ho & Hs).
  destruct (Z.leb_spec size n) as [|Hgt]; [by apply Hnext|]. exfalso. assert (size <= n); [|lia]. apply Hs. intros n' Hx.
  apply (Hn 0%nat f n' t size); [done|by rewrite Nat.add_0_r|done].
Qed.
Lemma column_buffers_ok fields : forall i cols cs, buffers_ok cs -> (i + length fields <= col_count cs)%nat ->
  returns (column_buffers i fields cols cs) buffers_ok.
Proof.
  induction fields as [|f fields IH]; intros i cols cs Hb Hl; [by destruct cols|]. cbn in Hl. destruct cols as [|c cols]; [done|]. cbn [column_buffers].
  destruct (Nat.ltb_spec i (col_count cs)); [|lia]. cbn [negb].
  destruct (c_null c); [apply IH; [done|lia]|]. destruct (result_bind f) as [[t size]|]; [|apply IH; [done|lia]].
  pose proof (get_or_create_ok i size cs Hb H) as Hg. destruct (get_or_create_ud i size cs) as [n cs']. destruct Hg as (Hb' & Hc' & _). cbn [snd]. apply IH; [done|lia].
Qed.
Lemma arrays_ok n rc : (forall cs, rc = Some cs -> buffers_ok cs) -> buffers_ok (get_or_create_arrays n rc).
Proof. intros H. destruct rc as [cs|]; cbn; [by apply H|]. unfold buffers_ok. cbn. apply length_replicate. Qed.

Lemma minv_stmt F K E cur w p s s' : minv F K E cur w -> w_heap w !! p = Some (UStmt s) ->
  st_table s' = st_table s -> st_co s' = st_co s -> my_stmt s' = my_stmt s -> st_ctx s' = st_ctx s -> (st_closed s' = false -> st_closed s = false) ->
  (forall cs, st_rcols s' = Some cs -> buffers_ok cs) -> minv F K E cur (put p (UStmt s') w).
Proof.
  intros Hm Hp Et Eo Em Ec Hc Hr. pose proof (mi_users _ _ _ _ _ Hm p _ Hp) as (U1 & U2 & U3 & U4). apply (minv_set F K E cur w p (UStmt s)); [done|done|done| |done| |].
  - unfold refs_of. cbn. by rewrite Et, Eo.
  - cbn. rewrite Em, Et, Ec. split; [by intros ?; apply U1, Hc|]. split; [|done]. intros Hx. destruct (U2 Hx) as [Hconn Ht]. split; [|done].
    by apply (conn_put _ p (UStmt s)).
  - right. cbn. rewrite Em. split; [done|]. split; [|done]. intros Hx. destruct (st_closed s') eqn:Es; [done|]. by rewrite Hc in Hx.
Qed.
Lemma memory_ok F K E cur w p s : minv F K E cur w -> w_heap w !! p = Some (UStmt s) -> my_stmt s = true -> memory_of s w = Ret tt.
Proof.
  intros Hm Hp Ha. destruct (mi_users _ _ _ _ _ Hm p _ Hp) as (_ & U2 & _). destruct (U2 Ha) as (_ & r & Et & Er). unfold memory_of. by rewrite Et, Er.
Qed.
Lemma rcols_ok F K E cur w p s : minv F K E cur w -> w_heap w !! p = Some (UStmt s) -> forall cs, st_rcols s = Some cs -> buffers_ok cs.
Proof. intros Hm Hp. by destruct (mi_users _ _ _ _ _ Hm p _ Hp) as (_ & _ & _ & U4). Qed.

(** What an operation that is done needs of the answer. *)
Definition executed (a : answer) (p : positive) (w : world) : Prop :=
  forall s fields, w_heap w !! p = Some (UStmt s) -> a_meta a = Some fields -> columns_fit fields (st_rcols s).
Definition fetched (a : answer) (p : positive) (w : world) : Prop :=
  exists fields cells, a_meta a = Some fields /\ Forall3 stores fields cells (a_cols a) /\ Forall2 fits fields cells /\
    forall s cs, w_heap w !! p = Some (UStmt s) -> st_rcols s = Some cs -> (length fields <= col_count cs)%nat.

Lemma stmt_prepare_result_ok F K E cur w a c p : minv F K E cur w -> stmt_alive (w_heap w) c p ->
  returns (stmt_prepare_result a p w) (fun w' => minv F K E cur w' /\ same_waits w w' /\ w_reg w' = w_reg w /\ is_Some (w_heap w' !! p)).
Proof.
  intros Hm (s & Hp & Ha & _). unfold stmt_prepare_result, stmt_at. rewrite Hp. cbn [mbind outcome_bind]. rewrite (memory_ok F K E cur w p) by done. cbn [mbind outcome_bind returns].
  split; [|split; [done|split; [done|cbn [w_heap put set_heap]; rewrite lookup_insert_eq; by eexists]]]. apply (minv_stmt F K E cur w p s); try done. exact (rcols_ok F K E cur w p s Hm Hp).
Qed.
Lemma done_result_ok F K E cur w a p : minv F K E cur w -> returns (done_result a p w) (fun '(_, w') => minv F K E cur w' /\ same_waits w w').
Proof. intros Hm. by cbn. Qed.
Lemma stmt_execute_result_ok F K E cur w a c p : minv F K E cur w -> stmt_alive (w_heap w) c p -> executed a p w ->
  returns (stmt_execute_result a p w) (fun '(_, w') => minv F K E cur w' /\ same_waits w w').
Proof.
  intros Hm (s & Hp & Ha & _) Hx. unfold stmt_execute_result, stmt_at. rewrite Hp. cbn [mbind outcome_bind]. destruct (a_meta a) as [fields|] eqn:Em; [|by cbn].
  rewrite (memory_ok F K E cur w p) by done. cbn [mbind outcome_bind]. pose proof (rcols_ok F K E cur w p s Hm Hp) as Hr. specialize (Hx s fields Hp Em).
  assert (Hb : returns (bind_columns 0 fields (get_or_create_arrays (length fields) (st_rcols s))) buffers_ok).
  { apply bind_columns_ok; [by apply arrays_ok| |]; destruct (st_rcols s) as [cs|]; cbn [get_or_create_arrays col_count col_buffers].
    - by destruct (Hx cs eq_refl).
    - lia.
    - intros j f n t size Hf Hn Ht. destruct (Hx cs eq_refl) as [_ Hx']. by apply (Hx' j f n t size).
    - intros j f n t size Hf Hn. apply lookup_replicate in Hn as [? _]. done. }
  apply returns_inv in Hb as (cs & -> & Hcs). cbn [mbind outcome_bind returns]. split; [|done].
  apply (minv_stmt F K E cur w p s); try done. by intros ? [= <-].
Qed.
Lemma stmt_fetch_result_ok F K E cur w a c p : minv F K E cur w -> stmt_alive (w_heap w) c p -> fetched a p w ->
  returns (stmt_fetch_result a p w) (fun '(_, w') => minv F K E cur w' /\ same_waits w w').
Proof.
  intros Hm (s & Hp & Ha & _) (fields & cells & Em & Hs & Hf & Hl). unfold stmt_fetch_result, stmt_at. rewrite Hp, Em. cbn [mbind outcome_bind].
  rewrite (memory_ok F K E cur w p) by done. cbn [mbind outcome_bind]. pose proof (rcols_ok F K E cur w p s Hm Hp) as Hr.
  assert (Hb : returns (column_buffers 0 fields (a_cols a) (get_or_create_arrays (length fields) (st_rcols s))) buffers_ok).
  { apply column_buffers_ok; [by apply arrays_ok|]. destruct (st_rcols s) as [cs|] eqn:Er; cbn [get_or_create_arrays col_count]; [by apply (Hl s cs)|lia]. }
  apply returns_inv in Hb as (cs & -> & Hcs). cbn [mbind outcome_bind]. destruct (fetch_loop_spec fields cells (a_cols a) Hs Hf ∅) as (row & -> & _).
  cbn [mbind outcome_bind returns]. split; [|done]. apply (minv_stmt F K E cur w p s); try done. by intros ? [= <-].
Qed.

(** *** Cursors *)

Definition gone (u : CURSOR_CTX) : CURSOR_CTX := mk_cur true (cur_fields u) None None (my_res u) None (cur_co u).
Lemma detach_ok F K E cur w p u : minv F K E cur w -> w_heap w !! p = Some (UCursor u) -> idle p (live cur w) ->
  exists reg1 reg, unref (colnames u) w = Ret (set_reg reg1 w) /\ unref (coltypes u) (set_reg reg1 w) = Ret (set_reg reg w) /\
    minv F K E cur (put p (UCursor (gone u)) (set_reg reg w)) /\ forall r, coref (cur_co u) = Some r -> reg !! r = w_reg w !! r.
Proof.
  intros Hm Hp Hi. pose proof (minv_refs _ _ _ _ _ _ _ Hm Hp) as Hh. cbn [own_refs co_of] in Hh. set (rest := K ++ _) in Hh.
  apply (holds_perm _ _ (ref_list (colnames u) ++ ref_list (coltypes u) ++ ref_list (coref (cur_co u)) ++ rest)) in Hh; [|solve_Permutation].
  pose proof (hl_nodup _ _ _ Hh) as Hn. destruct (holds_unref_opt _ _ _ _ Hh) as (reg1 & E1 & Hh1 & Er1). destruct (holds_unref_opt _ _ _ _ Hh1) as (reg & E2 & Hh2 & Er2).
  exists reg1, reg. unfold unref. cbn [w_reg set_reg]. rewrite E1, E2. cbn [mbind outcome_bind]. do 2 (split; [done|]).
  assert (Hag : forall x, x ∈ ref_list (coref (cur_co u)) ++ rest -> reg !! x = w_reg w !! x).
  { intros x Hx. apply NoDup_app in Hn as (_ & Hd1 & Hn). apply NoDup_app in Hn as (_ & Hd2 & _).
    assert (Hx1 : x ∉ ref_list (colnames u)) by (intros Hin; apply (Hd1 x Hin); by apply elem_of_app; right).
    assert (Hx2 : x ∉ ref_list (coltypes u)) by (intros Hin; by apply (Hd2 x Hin)).
    rewrite Er2, Er1. destruct (colnames u) as [n|], (coltypes u) as [t|]; cbn in Hx1, Hx2; rewrite ?list_elem_of_singleton in *; rewrite ?lookup_delete_ne by congruence; done. }
  pose proof (mi_users _ _ _ _ _ Hm p _ Hp) as (U1 & U2 & U3 & U4). split; [|intros x Hx; apply Hag, elem_of_app; left; rewrite Hx; by left].
  eapply minv_put; [exact Hm|exact Hp|done| | | | |done|by left| |by apply (mi_one _ _ _ _ _ Hm)].
  - unfold refs_of. cbn. rewrite app_nil_r. eapply holds_perm; [|exact Hh2]. unfold rest. solve_Permutation.
  - intros x Hx. apply Hag. unfold rest. rewrite !elem_of_app in *. tauto.
  - by cbn.
  - cbn. eapply anchor_ok_agree; [apply (mi_anchors _ _ _ _ _ Hm p _ Hp)|]. intros x Hx. apply Hag, elem_of_app. left. cbn in Hx. rewrite Hx. by left.
  - right. split; [done|]. intros x Hx. apply Hag, elem_of_app. left. cbn in Hx. rewrite Hx. by left.
Qed.
Lemma minv_freed F K E cur w p u : minv F K E cur w -> w_heap w !! p = Some (UCursor u) -> cur_closed u = true -> idle p (live cur w) ->
  minv F K E cur (put p (UCursor (set_freed u)) w).
Proof.
  intros Hm Hp Hc Hi. pose proof (mi_users _ _ _ _ _ Hm p _ Hp) as (U1 & U2 & U3 & U4). apply (minv_set F K E cur w p (UCursor u)); try done; [|by left].
  cbn. rewrite Hc. split; [done|]. split; [intros _; by apply U2|]. split; [|done]. intros q Hq. apply (conn_put _ p (UCursor u)); [done..|]. by apply U3.
Qed.
(** The result is free at once, or the cursor is closed and what follows is the wait. *)
Lemma free_result_start_ok F K E cur w L p u status mem : minv F K E cur w -> w_heap w !! p = Some (UCursor u) -> my_res u = true -> idle p (live cur w) ->
  if c_true status then
    exists w1, free_result_start L p status mem w = (w' ← wait_for_status L (cur_ctx u) (DObject p) status CbFree None mem w1; Ret (true, w')) /\
      minv F K E cur w1 /\ same_waits w w1 /\ w_heap w1 = <[p := UCursor (gone u)]> (w_heap w) /\ w_dead w1 = w_dead w /\
      (forall r, coref (cur_co u) = Some r -> w_reg w1 !! r = w_reg w !! r)
  else returns (free_result_start L p status mem w) (fun '(b, w') => b = false /\ minv F K E cur w' /\ same_waits w w' /\ w_heap w' = <[p := UCursor (set_freed (gone u))]> (w_heap w)).
Proof.
  intros Hm Hp Ha Hi. destruct (detach_ok F K E cur w p u Hm Hp Hi) as (reg1 & reg & E1 & E2 & Hm1 & Hco). unfold free_result_start, cursor_at. rewrite Hp. cbn [mbind outcome_bind].
  assert (Eu : use_result u = Ret tt) by (unfold use_result; by rewrite Ha). rewrite Eu. cbn [mbind outcome_bind].
  rewrite E1. cbn [mbind outcome_bind]. rewrite E2. cbn [mbind outcome_bind]. fold (gone u).
  apply (minv_send _ _ _ _ _ (McFree p)) in Hm1. set (w1 := send _ _) in *. destruct (c_true status).
  - exists w1. split; [done|]. split; [exact Hm1|]. split; done.
  - cbn [returns]. split; [done|]. split; [|split; [done|cbn; apply insert_insert_eq]]. apply (minv_freed F K E cur w1 p (gone u)); [exact Hm1|cbn; apply lookup_insert_eq|done|exact Hi].
Qed.
Lemma create_colinfo_ok F K E cur w p u : minv F K E cur w -> w_heap w !! p = Some (UCursor u) -> cur_closed u = false -> colnames u = None -> coltypes u = None ->
  exists u' w', create_colinfo p u w = (u', w') /\ minv F K E cur w' /\ same_waits w w' /\ cur_fields u' = cur_fields u.
Proof.
  intros Hm Hp Hc En Et. unfold create_colinfo, ref. destruct (reg_ref RvTable (w_reg w)) as [t reg1] eqn:E1. cbn [w_reg set_reg].
  destruct (reg_ref RvTable reg1) as [n reg] eqn:E2. eexists _, _. split; [reflexivity|].
  pose proof (minv_refs _ _ _ _ _ _ _ Hm Hp) as Hh. destruct (holds_ref _ _ _ _ _ _ Hh E1) as (Hh1 & Hr1 & Er1). destruct (holds_ref _ _ _ _ _ _ Hh1 E2) as (Hh2 & Hr2 & Er2).
  cbn [own_refs co_of] in *. rewrite En, Et in *. cbn [ref_list app] in *. set (rest := K ++ _) in *.
  assert (Hag : forall x, x ∈ ref_list (coref (cur_co u)) ++ rest -> reg !! x = w_reg w !! x).
  { intros x Hx. destruct (hl_own _ _ _ Hh x Hx) as [_ [v Hv]]. rewrite Er2, lookup_insert_ne by (intros <-; rewrite Er1, lookup_insert_ne in Hr2 by congruence; congruence).
    by rewrite Er1, lookup_insert_ne by congruence. }
  split; [|split; [done|done]]. change (put p ?v (set_reg reg (set_reg reg1 w))) with (put p v (set_reg reg w)).
  pose proof (mi_users _ _ _ _ _ Hm p _ Hp) as (U1 & U2 & U3 & U4). eapply minv_put; [exact Hm|exact Hp|done| | | | |done|by right| |by apply (mi_one _ _ _ _ _ Hm)].
  - unfold refs_of. cbn. eapply holds_perm; [|exact Hh2]. unfold rest. solve_Permutation.
  - intros x Hx. apply Hag. unfold rest. rewrite !elem_of_app in *. tauto.
  - cbn. rewrite Hc. split; [by intros _; apply U1|]. split; [done|]. split; [|done]. intros q Hq. apply (conn_put _ p (UCursor u)); [done..|]. by apply U3.
  - cbn. eapply anchor_ok_agree; [apply (mi_anchors _ _ _ _ _ Hm p _ Hp)|]. intros x Hx. apply Hag, elem_of_app. left. cbn in Hx. rewrite Hx. by left.
  - right. split; [done|]. intros x Hx. apply Hag, elem_of_app. left. cbn in Hx. rewrite Hx. by left.
Qed.
Lemma colinfo_ok F K E cur w p u names : minv F K E cur w -> w_heap w !! p = Some (UCursor u) -> cur_closed u = false -> names = colnames u \/ names = coltypes u ->
  exists u' w', match names with None => create_colinfo p u w | Some _ => (u, w) end = (u', w') /\ minv F K E cur w' /\ same_waits w w' /\ cur_fields u' = cur_fields u.
Proof.
  intros Hm Hp Hc Hn. destruct names as [n|] eqn:En; [by exists u, w|]. pose proof (mi_users _ _ _ _ _ Hm p _ Hp) as (_ & _ & _ & U4).
  apply create_colinfo_ok; try done; destruct Hn; tauto || (symmetry in H; tauto).
Qed.

(** ** Waiting from a script *)

Definition some_closed (w : world) : Prop := exists c d, w_heap w !! c = Some (UConn d) /\ db_closed d = true.
(** What a call did with the coroutine that made it. *)
Inductive reacted (L : positive) (mem : bool) (w : world) : reaction -> world -> Prop :=
  | reacted_now r w' : r <> AYield -> same_waits w w' -> reacted L mem w r w'
  | reacted_refused x w' : w_bags w' = w_bags w -> w_refused w' = w_refused w ++ [x] -> w_resumed w' = w_resumed w -> rf_L x = L ->
      mem = false \/ some_closed w' -> reacted L mem w AYield w'
  | reacted_waits b bag w' : w_bags w !! b = None -> w_bags w' = <[b := bag]> (w_bags w) -> w_refused w' = w_refused w -> w_resumed w' = w_resumed w ->
      bg_L bag = L -> reacted L mem w AYield w'.

Lemma some_closed_put w p u u' reg : w_heap w !! p = Some u -> (forall d, u = UConn d -> db_closed d = true -> exists d', u' = UConn d' /\ db_closed d' = true) ->
  some_closed w -> some_closed (put p u' (set_reg reg w)).
Proof.
  intros Hp Hu (c & d & Hc & Hd). destruct (decide (p = c)) as [<-|Hn].
  - rewrite Hp in Hc. injection Hc as ->. destruct (Hu d eq_refl Hd) as (d' & -> & Hd'). exists p, d'. cbn. by rewrite lookup_insert_eq.
  - exists c, d. cbn. by rewrite lookup_insert_ne.
Qed.
Lemma waited_reacted L c data status cb extra mem w w' : waited w L (Some c) data status cb extra mem w' -> is_conn (w_heap w) c -> reacted L mem w AYield w'.
Proof.
  intros Hw [d Hd]. destruct Hw as [Hno|? d' [= <-] Hd' Hc Hm].
  - specialize (Hno c d eq_refl Hd). apply (reacted_refused L mem w _ (refuse (mk_refusal L data extra) w) eq_refl eq_refl eq_refl eq_refl).
    apply orb_true_iff in Hno as [Hno|Hno]; [right; by exists c, d|left; by destruct mem].
  - eapply reacted_waits; [|reflexivity|done..]. apply not_elem_of_dom, is_fresh.
Qed.
(** From a world that differs in what is not looked at. *)
Lemma reacted_from L mem w1 w r w' : same_waits w1 w -> reacted L mem w r w' -> reacted L mem w1 r w'.
Proof.
  intros [E1 E2 E3] [r0 w0 Hr Hs|x w0 H1 H2 H3 H4 H5|b bag w0 H1 H2 H3 H4 H5].
  - apply reacted_now; [done|]. by eapply same_waits_trans; [|exact Hs].
  - apply (reacted_refused L mem w1 x w0); congruence || done.
  - apply (reacted_waits L mem w1 b bag w0); congruence || done.
Qed.

Lemma at_rest_idle F K E cur w p u : minv F K E cur w -> w_heap w !! p = Some u -> coref (co_of u) = None -> idle p (live cur w).
Proof. intros Hm Hp Hc. apply (unwatched_idle _ _ (w_refused w)). intros Hin. apply (rests_unwatched _ _ _ _ _ _ _ Hm Hp Hc), elem_of_app. by right. Qed.
Lemma wait_start_ok F K cur w L p u c data status cb extra mem : minv F (ref_list extra ++ K) [] cur w -> w_heap w !! p = Some u -> coref (co_of u) = None -> L ∉ w_dead w ->
  obj_of data = p -> is_conn (w_heap w) c -> (conn_open (w_heap w) c -> bag_ok (w_heap w) (w_reg w) (mk_bag L data status (event_for status) c extra cb)) ->
  returns (w' ← REF_CO L p w; w'' ← wait_for_status L (Some c) data status cb extra mem w'; Ret (AYield, w''))
    (fun '(r, w') => minv F K [] cur w' /\ reacted L mem w r w' /\ dom (w_heap w') = dom (w_heap w)).
Proof.
  intros Hm Hp Hco Hal Ho Hc Hb.
  destruct (REF_CO_ok _ _ _ _ _ L p u Hm Hp Hco) as (a' & reg' & E1 & Hm1). pose proof E1 as E2. rewrite (REF_CO_eq _ _ _ _ Hp) in E2.
  match type of E2 with Ret ?x = Ret ?y => assert (E3 : x = y) by congruence end. rewrite <- E3 in *. rewrite E1. cbn [mbind outcome_bind]. clear E1 E2 E3.
  set (a := (co_up _ _ _).1) in *. set (reg := (co_up _ _ _).2) in *. set (w1 := put p (set_co a u) (set_reg reg w)) in *.
  assert (Hc1 : is_conn (w_heap w1) c) by (apply (conn_put _ p u); [exact Hp|apply set_co_facts|exact Hc]).
  destruct (wait_ok F K [] cur w1 L (Some c) data status cb extra mem) as (w2 & E2 & Hm2 & Hw); [by rewrite Ho|rewrite Ho; by apply co_up_anchored|done| |].
  - intros ? [= <-]. split; [done|]. intros (d & Hd & Hd'). assert (Hop : conn_open (w_heap w) c).
    { unfold w1 in Hd. cbn in Hd. apply lookup_insert_Some in Hd as [[Ep Hd]|[_ Hd]]; [|by exists d]. destruct u as [d0| |]; cbn in Hd; try done. injection Hd as <-. exists d0.
      split; [by rewrite <- Ep|exact Hd']. }
    refine (bag_ok_co (w_heap w) (w_reg w) reg _ _ u a (Hb Hop) Hp _). intros r Hr. cbn in Hr.
    destruct (hl_own _ _ _ (mi_refs _ _ _ _ _ Hm) r) as [_ [v Hv]]; [rewrite !elem_of_app; tauto|]. rewrite Hv. by apply co_up_kept.
  - rewrite E2. cbn [mbind outcome_bind returns]. split; [exact Hm2|]. destruct (waited_frame _ _ _ _ _ _ _ _ _ Hw) as (Eh & _). split.
    + apply (reacted_from L mem w w1); [done|]. eapply waited_reacted; [exact Hw|done].
    + rewrite Eh. unfold w1. cbn. by apply dom_insert_lookup_L; eexists.
Qed.

(** ** What a script calls *)

Section Calls.
Context `{LuaAPI} (F : registry_map) (K : list positive) (cur : option positive).
Implicit Type w : world.

(** An operation that loses nothing. *)
Definition kept (L : positive) (mem : bool) (w : world) (x : reaction * world) : Prop := minv F K [] cur x.2 /\ reacted L mem w x.1 x.2.

Lemma kept_now L mem w w' r : minv F K [] cur w' -> same_waits w w' -> r <> AYield -> kept L mem w (r, w').
Proof. intros Hm Hs Hr. split; [done|by apply reacted_now]. Qed.
Lemma with_connection {B} p (arg : outcome B) w f (Q : reaction * world -> Prop) : is_Some (w_heap w !! p) -> arg <> UB -> (forall msg, Q (AError msg, w)) ->
  (forall d y, w_heap w !! p = Some (UConn d) -> db_closed d = false -> arg = Ret y -> returns (f d y) Q) -> returns (with_object (getconnection p w) arg w f) Q.
Proof.
  intros [u Hu] Ha HQ Hf. unfold with_object, getconnection, object_at. rewrite Hu. cbn [mbind outcome_bind]. destruct u as [d| |]; try apply HQ.
  destruct (db_closed d) eqn:Ec; [apply HQ|]. destruct arg as [y|e|]; [by apply Hf|apply HQ|done].
Qed.
Lemma with_cursor {B} p (arg : outcome B) w f (Q : reaction * world -> Prop) : is_Some (w_heap w !! p) -> arg <> UB -> (forall msg, Q (AError msg, w)) ->
  (forall u y, w_heap w !! p = Some (UCursor u) -> cur_closed u = false -> arg = Ret y -> returns (f u y) Q) -> returns (with_object (getcursor p w) arg w f) Q.
Proof.
  intros [u Hu] Ha HQ Hf. unfold with_object, getcursor, object_at. rewrite Hu. cbn [mbind outcome_bind]. destruct u as [|c|]; try apply HQ.
  destruct (cur_closed c) eqn:Ec; [apply HQ|]. destruct arg as [y|e|]; [by apply Hf|apply HQ|done].
Qed.
Lemma with_statement {B} p (arg : outcome B) w f (Q : reaction * world -> Prop) : is_Some (w_heap w !! p) -> arg <> UB -> (forall msg, Q (AError msg, w)) ->
  (forall s y, w_heap w !! p = Some (UStmt s) -> st_closed s = false -> arg = Ret y -> returns (f s y) Q) -> returns (with_object (getstatement p w) arg w f) Q.
Proof.
  intros [u Hu] Ha HQ Hf. unfold with_object, getstatement, object_at. rewrite Hu. cbn [mbind outcome_bind]. destruct u as [| |s]; try apply HQ.
  destruct (st_closed s) eqn:Ec; [apply HQ|]. destruct arg as [y|e|]; [by apply Hf|apply HQ|done].
Qed.
Lemma checklstring_ub v : luaL_checklstring v <> UB.
Proof. unfold luaL_checklstring. by destruct (lua_tolstring v). Qed.
Lemma checkinteger_ub v : luaL_checkinteger v <> UB.
Proof. unfold luaL_checkinteger. by destruct (lua_tointegerx v). Qed.

(** *** Connections *)

Definition conn_callback (cb : callback) : bool :=
  match cb with CbPing | CbQuery | CbCommit | CbRollback | CbAutocommit | CbCharset => true | _ => false end.
Definition stmt_callback (cb : callback) : bool := match cb with CbExecute | CbStore | CbLong | CbFetch => true | _ => false end.
(** The results keep the invariant, for whatever has been counted. *)
Definition fin_ok (fin : answer -> positive -> world -> outcome (list result * world)) (a : answer) (p : positive) (pre : world -> Prop) : Prop :=
  forall K E cur w, minv F K E cur w -> pre w -> returns (fin a p w) (fun '(_, w') => minv F K E cur w' /\ same_waits w w').
Lemma use_conn_ok w c : conn_open (w_heap w) c -> use_conn c w = Ret tt.
Proof. intros (d & Hd & _ & Ho). unfold use_conn, conn_at. rewrite Hd. cbn [mbind outcome_bind]. by rewrite Ho. Qed.
Lemma conn_start_ok L p d what cb fin a w : minv F K [] cur w -> w_heap w !! p = Some (UConn d) -> db_closed d = false -> coref (db_co d) = None -> L ∉ w_dead w -> conn_callback cb = true -> fin_ok fin a p (fun w => is_conn (w_heap w) p) ->
  returns (conn_start L p what cb fin a w) (kept L (a_mem a) w).
Proof.
  intros Hm Hd Hcl Hco Hal Hcb Hf. assert (Hc : is_conn (w_heap w) p) by (by exists d).
  assert (Ho : conn_open (w_heap w) p) by (exists d; split; [done|]; split; [done|]; by apply (mi_users _ _ _ _ _ Hm p _ Hd)).
  unfold conn_start. rewrite use_conn_ok by done. cbn [mbind outcome_bind]. apply (minv_send _ _ _ _ _ what) in Hm. set (w1 := send what w) in *. destruct (c_true (a_status a)).
  - eapply returns_mono; [apply (wait_start_ok F K cur w1 L p (UConn d) p (DMysql p) (a_status a) cb None (a_mem a)); try done|].
    + intros _. split; [done|]. by destruct cb.
    + intros [r w'] (Hm' & Hr & _). split; [exact Hm'|]. eapply reacted_from; [|exact Hr]. done.
  - destruct (a_ret a =? 0); [|by apply kept_now]. eapply returns_bind; [by apply (Hf K [] cur w1)|]. intros [rs w'] [Hm' Hs]. apply kept_now; [done|by apply (same_waits_trans _ w1)|done].
Qed.
Lemma done_fin a p pre : fin_ok done_result a p pre.
Proof. intros K' E' cur' w Hm _. by apply done_result_ok. Qed.
Lemma query_fin a p : fin_ok real_query_result a p (fun w => is_conn (w_heap w) p).
Proof. intros K' E' cur' w Hm Hc. by apply real_query_result_ok. Qed.

Lemma conn_close_ok L p d a w : minv F K [] cur w -> w_heap w !! p = Some (UConn d) -> db_closed d = false -> coref (db_co d) = None -> L ∉ w_dead w -> quiet p (live cur w) ->
  returns (conn_close_now L p d a w) (kept L (a_mem a) w).
Proof.
  intros Hm Hp Hcl Hco Hal Hq. unfold conn_close_now. rewrite use_conn_ok by (exists d; split; [done|]; split; [done|]; by apply (mi_users _ _ _ _ _ Hm p _ Hp)).
  cbn [mbind outcome_bind]. set (d' := mk_db true _ (db_co d)). assert (Hi := at_rest_idle _ _ _ _ _ _ _ Hm Hp Hco).
  assert (Hm1 : minv F K [] cur (put p (UConn d') w)) by (by apply (minv_set F K [] cur w p (UConn d)); try done; left).
  apply (minv_send _ _ _ _ _ (McClose p)) in Hm1. set (w1 := send _ _) in *. assert (Hp1 : w_heap w1 !! p = Some (UConn d')) by (cbn; apply lookup_insert_eq).
  destruct (c_true (a_status a)); [|by apply kept_now].
  eapply returns_mono; [apply (wait_start_ok F K cur w1 L p (UConn d') p (DMysql p) (a_status a) CbClose None (a_mem a)); [exact Hm1|exact Hp1|done|done|done|by exists d'|]|].
  - intros (d2 & Hd2 & Hc2 & _). rewrite Hp1 in Hd2. by injection Hd2 as <-.
  - intros [r w'] (Hm' & Hr & _). split; [exact Hm'|]. eapply reacted_from; [|exact Hr]. done.
Qed.
Lemma real_connect_ok L args a w : minv F K [] cur w -> L ∉ w_dead w -> returns (real_connect_start L args a w) (kept L (a_mem a) w).
Proof.
  intros Hm Hal. unfold real_connect_start. match goal with |- returns (match ?e with _ => _ end) _ => assert (He : e <> UB) end.
  { unfold opt_cstr, luaL_optlstring, luaL_optinteger, luaL_checklstring, luaL_checkinteger. repeat (case_match; cbn [mbind outcome_bind mret outcome_ret]; simplify_eq; try done). }
  match goal with |- returns (match ?e with _ => _ end) _ => destruct e as [[[[[db user] pw] host] port]|msg|]; [|by apply kept_now|done] end. clear He.
  destruct (new_object (UConn (mk_db false MyOpen no_anchor)) w) as [p w1] eqn:E1. destruct (minv_new F K [] cur w (UConn (mk_db false MyOpen no_anchor)) p w1) as (Hm1 & Hp & Ew); [exact Hm|done|done|exact E1|].
  assert (Hs1 : same_waits w w1) by (by rewrite Ew). assert (Hal1 : L ∉ w_dead w1) by (by rewrite Ew). assert (Hp1 : w_heap w1 !! p = Some (UConn (mk_db false MyOpen no_anchor))) by (rewrite Ew; cbn; apply lookup_insert_eq). clear Ew.
  set (call := McConnect _ _ _ _ _ _). apply (minv_send _ _ _ _ _ call) in Hm1. destruct (c_true (a_status a)).
  - unfold ref. destruct (reg_ref (RvObject p) (w_reg (send call w1))) as [r reg] eqn:E2. destruct (minv_ref _ _ _ _ _ _ _ _ Hm1 E2) as [Hm2 Hr].
    set (w2 := set_reg reg (send call w1)) in *.
    eapply returns_mono; [apply (wait_start_ok F K cur w2 L p (UConn (mk_db false MyOpen no_anchor)) p (DMysql p) (a_status a) CbConnect (Some r) (a_mem a)); [exact Hm2|exact Hp1|done|exact Hal1|done|by eexists|]|].
    + intros Ho. split; [done|]. split; [done|]. by exists r.
    + intros [x w'] (Hm' & Hx & _). split; [done|]. eapply reacted_from; [|exact Hx]. eapply same_waits_trans; [exact Hs1|done].
  - destruct (a_ret a =? 0); apply kept_now; try done; (eapply same_waits_trans; [exact Hs1|done]).
Qed.

(** *** Statements *)

Lemma stmt_prepare_ok L p v a w : minv F K [] cur w -> is_Some (w_heap w !! p) -> L ∉ w_dead w -> returns (stmt_prepare_start L p v a w) (kept L (a_mem a) w).
Proof.
  intros Hm Hp Hal. apply with_connection; [done|apply checklstring_ub|intros msg; by apply kept_now|]. intros d statement Hd Hcl _.
  unfold prepare_now, ref. rewrite use_conn_ok by (exists d; split; [done|]; split; [done|]; by apply (mi_users _ _ _ _ _ Hm p _ Hd)). cbn [mbind outcome_bind]. destruct (reg_ref RvTable (w_reg w)) as [t reg] eqn:E1. destruct (minv_ref _ _ _ _ _ _ _ _ Hm E1) as [Hm1 Ht]. set (w1 := set_reg reg w) in *.
  set (s := mk_stmt false (Some t) (new_binding 0) None true p no_anchor). destruct (new_object (UStmt s) w1) as [q w2] eqn:E2.
  destruct (minv_new F K [] cur w1 (UStmt s) q w2) as (Hm2 & Hq & Ew); [exact Hm1|done| |exact E2|].
  { cbn. split; [done|]. split; [|done]. intros _. split; [by exists d|by exists t]. }
  pose proof Hq as Hq1. change (w_heap w !! q = None) in Hq. assert (Hq2 : w_heap w2 !! q = Some (UStmt s)) by (rewrite Ew; cbn; apply lookup_insert_eq).
  assert (Hd2 : is_conn (w_heap w2) p) by (exists d; rewrite Ew; cbn; rewrite lookup_insert_ne; [exact Hd|intros ->; by rewrite Hd in Hq]).
  assert (Hs2 : same_waits w w2) by (by rewrite Ew). assert (Hal2 : L ∉ w_dead w2) by (by rewrite Ew). clear Ew E2. apply (minv_send _ _ _ _ _ (McPrepare q statement)) in Hm2. set (w3 := send (McPrepare q statement) w2) in *.
  assert (Hs3 : same_waits w w3) by (eapply same_waits_trans; [exact Hs2|done]). destruct (c_true (a_status a)).
  - destruct (reg_ref (RvObject q) (w_reg w3)) as [r reg'] eqn:E3. destruct (minv_ref _ _ _ _ _ _ _ _ Hm2 E3) as [Hm4 Hr]. set (w4 := set_reg reg' w3) in *.
    eapply returns_mono; [apply (wait_start_ok F K cur w4 L q (UStmt s) p (DObject q) (a_status a) CbPrepare (Some r) (a_mem a)); [exact Hm4|exact Hq2|done|exact Hal2|done|exact Hd2|]|].
    + intros Ho. split; [exact Ho|]. split; [by exists s|by exists r].
    + intros [x w'] (Hm' & Hx & _). split; [exact Hm'|]. eapply reacted_from; [|exact Hx]. eapply same_waits_trans; [exact Hs3|done].
  - destruct (a_ret a =? 0); [|by apply kept_now]. eapply returns_bind; [apply (stmt_prepare_result_ok F K [] cur w3 a p q); [exact Hm2|by exists s]|].
    intros w' (Hm' & Hs' & _). apply kept_now; [done|by eapply same_waits_trans|done].
Qed.
(** A statement on which nothing waits. *)
Lemma stmt_start_ok L p s what cb fin a w : minv F K [] cur w -> w_heap w !! p = Some (UStmt s) -> my_stmt s = true -> coref (st_co s) = None -> L ∉ w_dead w -> conn_open (w_heap w) (st_ctx s) -> stmt_callback cb = true ->
  (c_true (a_status a) = false -> a_ret a = 0 -> forall w', w_heap w' = w_heap w -> minv F K [] cur w' -> returns (fin a p w') (fun '(_, w'') => minv F K [] cur w'' /\ same_waits w' w'')) ->
  returns (stmt_start L p s what cb fin a w) (kept L (a_mem a) w).
Proof.
  intros Hm Hp Ha Hco Hal Ho Hcb Hf. unfold stmt_start, use_stmt. rewrite Ha, use_conn_ok by done. cbn [mbind outcome_bind]. apply (minv_send _ _ _ _ _ what) in Hm. set (w1 := send what w) in *.
  destruct (mi_users _ _ _ _ _ Hm p _ Hp) as (_ & U2 & _). destruct (U2 Ha) as [Hconn _]. destruct (c_true (a_status a)).
  - eapply returns_mono; [apply (wait_start_ok F K cur w1 L p (UStmt s) (st_ctx s) (DObject p) (a_status a) cb None (a_mem a)); [exact Hm|exact Hp|done|exact Hal|done|exact Hconn|]|].
    + intros _. split; [exact Ho|]. assert (Hst : stmt_alive (w_heap w1) (st_ctx s) p) by (by exists s). by destruct cb.
    + intros [r w'] (Hm' & Hr & _). split; [exact Hm'|]. eapply reacted_from; [|exact Hr]. done.
  - destruct (Z.eqb_spec (a_ret a) 0) as [Hz|]; [|by apply kept_now]. eapply returns_bind; [by apply Hf|]. intros [rs w'] [Hm' Hs].
    apply kept_now; [done|by apply (same_waits_trans _ w1)|done].
Qed.
End Calls.

(** *** Closing *)

(** Closing a statement that waits, or is done; a failure at once loses its table. *)
Definition lossless (a : answer) : Prop := a_status a = 0 -> a_ret a = 0.
Definition kept_but (F : registry_map) (K : list positive) (cur : option positive) (L : positive) (a : answer) (w : world) (x : reaction * world) : Prop :=
  exists K', minv F (K' ++ K) [] cur x.2 /\ reacted L (a_mem a) w x.1 x.2 /\ (lossless a -> K' = []).
Lemma kept_kept_but F K cur L a w x : kept F K cur L (a_mem a) w x -> kept_but F K cur L a w x.
Proof. intros [Hm Hr]. by exists []. Qed.

(** The table of a statement that is closed. *)
Lemma minv_gone F K E cur w p s : minv F K E cur w -> w_heap w !! p = Some (UStmt s) -> my_stmt s = true -> st_closed s = true -> idle p (live cur w) ->
  minv F (ref_list (st_table s) ++ K) E cur (put p (UStmt (set_gone s)) w) /\
  exists reg, unref (st_table s) w = Ret (set_reg reg w) /\ minv F K E cur (put p (UStmt (set_gone s)) (set_reg reg w)).
Proof.
  intros Hm Hp Ha Hc Hi. pose proof (minv_refs _ _ _ _ _ _ _ Hm Hp) as Hh. cbn [own_refs co_of] in Hh. set (rest := heap_refs _ ++ _) in Hh.
  pose proof (mi_users _ _ _ _ _ Hm p _ Hp) as (U1 & U2 & U3 & U4).
  assert (Hu : forall h reg, user_ok h reg (UStmt (set_gone s))) by (intros h reg; cbn; rewrite Hc; by repeat split).
  assert (Hgo : forall K' reg, holds F (K' ++ ref_list (coref (st_co s)) ++ rest) reg -> (forall x, x ∈ ref_list (coref (st_co s)) ++ rest -> reg !! x = w_reg w !! x) ->
    minv F K' E cur (put p (UStmt (set_gone s)) (set_reg reg w))).
  { intros K' reg Hh' Hag. eapply minv_put; [exact Hm|exact Hp|done| | |by apply Hu| |done|by left| |by apply (mi_one _ _ _ _ _ Hm)].
    - unfold refs_of. cbn. rewrite app_nil_r. exact Hh'.
    - intros x Hx. apply Hag, elem_of_app. by right.
    - cbn. eapply anchor_ok_agree; [apply (mi_anchors _ _ _ _ _ Hm p _ Hp)|]. intros x Hx. apply Hag, elem_of_app. left. cbn in Hx. rewrite Hx. by left.
    - right. split; [done|]. intros x Hx. apply Hag, elem_of_app. left. cbn in Hx. rewrite Hx. by left. }
  split.
  - rewrite <- (set_reg_id w) at 1. apply Hgo; [|done]. eapply holds_perm; [|exact Hh]. solve_Permutation.
  - apply (holds_perm _ _ (ref_list (st_table s) ++ ref_list (coref (st_co s)) ++ K ++ rest)) in Hh; [|solve_Permutation].
    pose proof (hl_nodup _ _ _ Hh) as Hn. destruct (holds_unref_opt _ _ _ _ Hh) as (reg & E1 & Hh1 & Er). exists reg. unfold unref. rewrite E1. split; [done|]. apply Hgo.
    + eapply holds_perm; [|exact Hh1]. solve_Permutation.
    + intros x Hx. rewrite Er. destruct (st_table s) as [t|]; [|done]. apply lookup_delete_ne. intros ->. cbn in Hn. apply NoDup_cons in Hn as [Hn _].
      apply Hn. rewrite !elem_of_app in *. tauto.
Qed.

Section More.
Context `{LuaAPI} (F : registry_map) (K : list positive) (cur : option positive).
Implicit Type w : world.

Lemma c_false z : c_true z = false -> z = 0.
Proof. unfold c_true. by intros H0%negb_false_iff%Z.eqb_eq. Qed.
Lemma stmt_close_ok L p s a w : minv F K [] cur w -> w_heap w !! p = Some (UStmt s) -> my_stmt s = true -> coref (st_co s) = None -> L ∉ w_dead w ->
  conn_open (w_heap w) (st_ctx s) \/ lossless a ->
  returns (stmt_close_start L p s a w) (fun x => kept_but F K cur L a w x /\
    (a_status a = 0 -> exists s', w_heap x.2 = <[p := UStmt s']> (w_heap w) /\ my_stmt s' = false /\ st_table s' = None /\ same_waits w x.2)).
Proof.
  intros Hm Hp Ha Hco Hal Ho. assert (Hi := at_rest_idle _ _ _ _ _ _ _ Hm Hp Hco). destruct (mi_users _ _ _ _ _ Hm p _ Hp) as (_ & U2 & _). destruct (U2 Ha) as [Hconn Ht]. unfold stmt_close_start.
  assert (Eu : use_stmt s = Ret tt) by (unfold use_stmt; by rewrite Ha). rewrite Eu. cbn [mbind outcome_bind].
  set (closed := mk_stmt true _ _ _ _ _ _). assert (Hm1 : minv F K [] cur (put p (UStmt closed) w)).
  { apply (minv_stmt F K [] cur w p s); try done. exact (rcols_ok F K [] cur w p s Hm Hp). }
  apply (minv_send _ _ _ _ _ (McStmtClose p)) in Hm1. set (w1 := send _ _) in *.
  assert (Hp1 : w_heap w1 !! p = Some (UStmt closed)) by (cbn; apply lookup_insert_eq).
  assert (Hc1 : is_conn (w_heap w1) (st_ctx s)) by (by apply (conn_put _ p (UStmt s))). destruct (c_true (a_status a)) eqn:Est.
  - eapply returns_mono; [apply (wait_start_ok F K cur w1 L p (UStmt closed) (st_ctx s) (DObject p) (a_status a) CbStmtClose None (a_mem a)); [exact Hm1|exact Hp1|done|exact Hal|done|exact Hc1|]|].
    + intros Hop. split; [exact Hop|]. split; [by exists closed|done].
    + intros [r w'] (Hm' & Hr & _). split; [|by intros E0; rewrite E0 in Est]. apply kept_kept_but. split; [exact Hm'|]. eapply reacted_from; [|exact Hr]. done.
  - assert (Hh : forall v, <[p := v]> (w_heap w1) = <[p := v]> (w_heap w)) by (intros v; cbn; apply insert_insert_eq).
    destruct (minv_gone F K [] cur w1 p closed) as [Hlose (reg & E1 & Hgone)]; [done..|]. destruct (Z.eqb_spec (a_ret a) 0) as [Hz|Hz].
    + change (st_table s) with (st_table closed). rewrite E1. cbn [mbind outcome_bind returns]. split; [apply kept_kept_but, kept_now; [exact Hgone|done|done]|].
      intros _. exists (set_gone closed). split; [apply Hh|done].
    + destruct Ho as [Ho|Ho]; [|exfalso; by apply Hz, Ho, c_false]. assert (Ho1 : conn_open (w_heap w1) (st_ctx s)).
      { destruct Ho as (d & Hd & ?). exists d. split; [|done]. cbn. rewrite lookup_insert_ne; [done|congruence]. }
      rewrite use_conn_ok by done. cbn [mbind outcome_bind returns]. split; [|intros _; exists (set_gone closed); split; [apply Hh|done]].
      exists (ref_list (st_table closed)). split; [exact Hlose|]. split; [by apply reacted_now|]. intros Hl. exfalso. by apply Hz, Hl, c_false.
Qed.

(** *** Cursors *)

Lemma row_of_ok L a p u w E : minv F K E cur w -> w_heap w !! p = Some (UCursor u) -> cur_closed u = false -> is_Some (a_row a) ->
  returns (fetch_row_result L a p w) (fun '(rs, w') => is_Some rs /\ minv F K E cur w' /\ same_waits w w').
Proof.
  intros Hm Hp Hc [cells Er]. unfold fetch_row_result, cursor_at. rewrite Er, Hp. cbn [mbind outcome_bind].
  destruct (colinfo_ok F K E cur w p u (colnames u)) as (u' & w' & -> & Hm' & Hs & _); [done..|by left|]. cbn [mbind outcome_bind returns]. split; [by eexists|done].
Qed.
Lemma free_then_ok L p u a rs w : minv F K [] cur w -> w_heap w !! p = Some (UCursor u) -> cur_closed u = false -> coref (cur_co u) = None -> L ∉ w_dead w ->
  returns ('(waits, w') ← free_result_start L p (a_free a) (a_mem a) w;
           if (waits : bool) then w'' ← REF_CO L p w'; Ret (AYield, w'') else Ret (AReturn rs, w')) (kept F K cur L (a_mem a) w).
Proof.
  intros Hm Hp Hc Hco Hal. assert (Hi := at_rest_idle _ _ _ _ _ _ _ Hm Hp Hco).
  destruct (mi_users _ _ _ _ _ Hm p _ Hp) as (U1 & _ & U3 & _). destruct (U1 Hc) as [Ha [c Ec]]. pose proof (U3 c Ec) as Hconn.
  pose proof (free_result_start_ok F K [] cur w L p u (a_free a) (a_mem a) Hm Hp Ha Hi) as Hf. destruct (c_true (a_free a)).
  - destruct Hf as (w1 & -> & Hm1 & Hs & Eh & Hd1 & _). rewrite Ec. assert (Hp1 : w_heap w1 !! p = Some (UCursor (gone u))) by (by rewrite Eh, lookup_insert_eq).
    assert (Hc1 : is_conn (w_heap w1) c) by (rewrite Eh; by apply (conn_put _ p (UCursor u))).
    destruct (wait_then_REF F K [] cur w1 L (Some c) (DObject p) (a_free a) CbFree (a_mem a) (UCursor (gone u))) as (w2 & w3 & E2 & Hw & E3 & Hm3 & Eb & Er); [done|done|done|by rewrite Hd1| |].
    + intros ? [= <-]. split; [exact Hc1|]. intros Ho. split; [exact Ho|]. split; [|done]. exists (gone u). split; [exact Hp1|by split].
    + rewrite E2. cbn [mbind outcome_bind]. cbn [obj_of] in E3. rewrite E3. cbn [mbind outcome_bind returns]. split; [exact Hm3|]. cbn [fst snd].
      pose proof (waited_reacted _ _ _ _ _ _ _ _ _ Hw Hc1) as Hr. apply (reacted_from L _ w w1 _ _ Hs).
      assert (E4 : w_resumed w3 = w_resumed w2 /\ (some_closed w2 -> some_closed w3)).
      { destruct (waited_frame _ _ _ _ _ _ _ _ _ Hw) as (Eh2 & _). rewrite (REF_CO_eq _ _ _ (UCursor (gone u))) in E3 by (by rewrite Eh2).
        match type of E3 with Ret ?x = Ret ?y => assert (E4 : y = x) by congruence end. rewrite E4. split; [done|].
        intros Hcl. eapply some_closed_put; [by rewrite Eh2|done|exact Hcl]. }
      destruct E4 as [E4 Hcl]. inversion Hr as [? ? Hn|x ? H1 H2 H3 H4 H5|b bag ? H1 H2 H3 H4 H5]; subst; [done| |].
      * apply (reacted_refused _ (a_mem a) w1 x w3); [congruence..|done|]. destruct H5 as [|H5]; [by left|right; by apply Hcl].
      * apply (reacted_waits _ (a_mem a) w1 b bag w3); congruence || done.
  - eapply returns_bind; [exact Hf|]. intros [waits w1] (-> & Hm1 & Hs & _). by apply kept_now.
Qed.
(** Nothing waits on an object, nor was a wait on it refused. *)
Definition at_rest (p : positive) w : Prop := exists u, w_heap w !! p = Some u /\ coref (co_of u) = None.
Lemma fetch_row_ok L p a w : minv F K [] cur w -> at_rest p w -> L ∉ w_dead w -> returns (fetch_row_start L p a w) (kept F K cur L (a_mem a) w).
Proof.
  intros Hm (u0 & Hu0 & Hco) Hal. apply with_cursor; [by eexists|done|intros msg; by apply kept_now|]. intros u _ Hu Hc _. rewrite Hu0 in Hu. injection Hu as ->. rename Hu0 into Hu. cbn in Hco. destruct (mi_users _ _ _ _ _ Hm p _ Hu) as (U1 & _ & U3 & _).
  destruct (U1 Hc) as [Ha [c Ec]]. pose proof (U3 c Ec) as Hconn. assert (Eu : use_result u = Ret tt) by (unfold use_result; by rewrite Ha). rewrite Eu. cbn [mbind outcome_bind].
  apply (minv_send _ _ _ _ _ (McRow p)) in Hm. set (w1 := send (McRow p) w) in *. destruct (c_true (a_status a)).
  - rewrite Ec. eapply returns_mono; [apply (wait_start_ok F K cur w1 L p (UCursor u) c (DObject p) (a_status a) CbRow None (a_mem a)); [exact Hm|exact Hu|done|exact Hal|done|exact Hconn|]|].
    + intros Ho. split; [exact Ho|]. split; [exists u; by rewrite Ec|done].
    + intros [r w'] (Hm' & Hr & _). split; [exact Hm'|]. eapply reacted_from; [|exact Hr]. done.
  - destruct (a_row a) as [cells|] eqn:Er.
    + eapply returns_bind; [by apply (row_of_ok L a p u w1 [])|]. intros [rs w'] ([x ->] & Hm' & Hs). apply kept_now; [done|by apply (same_waits_trans _ w1)|done].
    + pose proof (free_then_ok L p u a [RVal LNil] w1 Hm Hu Hc Hco Hal) as Hf. unfold fetch_row_result. rewrite Er.
      destruct (free_result_start L p (a_free a) (a_mem a) w1) as [[[] w2]| |]; cbn [mbind outcome_bind] in *; [| |done|done].
      * eapply returns_mono; [exact Hf|]. intros [r w'] [Hm' Hr]. split; [exact Hm'|]. eapply reacted_from; [|exact Hr]. done.
      * destruct Hf as [Hm' Hr]. split; [exact Hm'|]. eapply reacted_from; [|exact Hr]. done.
Qed.
Lemma pushtable_ok names p w L mem : minv F K [] cur w -> is_Some (w_heap w !! p) -> returns (pushtable names p w) (kept F K cur L mem w).
Proof.
  intros Hm Hp. apply with_cursor; [done|done|intros msg; by apply kept_now|]. intros u _ Hu Hc _.
  destruct (colinfo_ok F K [] cur w p u (if names then colnames u else coltypes u)) as (u' & w' & -> & Hm' & Hs & _); [done..|destruct names; tauto|]. cbn [returns]. by apply kept_now.
Qed.
Lemma st_bind_ok cache p params w L mem : minv F K [] cur w -> is_Some (w_heap w !! p) -> returns (_st_bind cache p params w) (kept F K cur L mem w).
Proof.
  intros Hm Hp. apply with_statement; [done|done|intros msg; by apply kept_now|]. intros s _ Hs Hc _. destruct (mi_users _ _ _ _ _ Hm p _ Hs) as (U1 & _).
  unfold use_stmt. rewrite U1 by done. cbn [mbind outcome_bind]. destruct (st_bind_args cache params (st_params s)) as [b|msg|] eqn:Eb.
  - rewrite (memory_ok F K [] cur w p) by auto. cbn [mbind outcome_bind returns]. apply kept_now; [|done|done]. apply (minv_stmt F K [] cur w p s); try done.
    exact (rcols_ok F K [] cur w p s Hm Hs).
  - by apply kept_now.
  - unfold st_bind_args in Eb. by destruct (negb _).
Qed.

(** *** Collecting *)

(** Nothing waits on the object, nothing uses it, and its end needs no wait. *)
Definition collectable (p : positive) (a : answer) w : Prop :=
  exists u, w_heap w !! p = Some u /\ (p ∉ waiting (live cur w) (w_refused w)) /\ (forall b bag, live cur w !! b = Some bag -> bg_ctx bag <> p) /\
    (forall q v, w_heap w !! q = Some v -> ~ uses v p) /\
    match u with UConn d => db_closed d = false -> a_status a = 0 | UCursor c => cur_closed c = false -> a_free a = 0 | UStmt s => if st_closed s then my_stmt s = false else a_status a = 0 /\ (conn_open (w_heap w) (st_ctx s) \/ a_ret a = 0) end.
Lemma uncounted_rests p u w : minv F K [] cur w -> w_heap w !! p = Some u -> (p ∉ waiting (live cur w) (w_refused w)) -> coref (co_of u) = None.
Proof.
  intros Hm Hp Hn. pose proof (mi_anchors _ _ _ _ _ Hm p u Hp) as Ha. unfold anchor_ok in Ha. destruct (coref (co_of u)); [|done]. cbn [app] in Ha. rewrite count_notin in Ha by done. lia.
Qed.
(** After [__gc] the object has no references left, and the memory can go. *)
Lemma collect_end K' p u u' w w' : minv F K' [] cur w' -> w_heap w' = <[p := u']> (w_heap w) -> same_waits w w' -> w_heap w !! p = Some u ->
  (forall q, uses u' q -> uses u q) -> own_refs u' = [] -> (p ∉ waiting (live cur w) (w_refused w)) -> (forall b bag, live cur w !! b = Some bag -> bg_ctx bag <> p) ->
  (forall q v, w_heap w !! q = Some v -> ~ uses v p) -> minv F K' [] cur (set_heap (delete p (w_heap w')) w').
Proof.
  intros Hm Eh Hs Hp Hu Ho Hw Hb Hn. pose proof (same_live cur w w' Hs) as El. destruct Hs as [E1 E2 E3].
  assert (Hp' : w_heap w' !! p = Some u') by (by rewrite Eh, lookup_insert_eq). pose proof (minv_delete F K' [] cur w' p u' Hm Hp') as Hd. rewrite Ho in Hd. apply Hd.
  - by rewrite El, E2.
  - by rewrite El.
  - intros q v Hv. rewrite Eh in Hv. apply lookup_insert_Some in Hv as [[<- <-]|[Hne Hv]]; [|by apply (Hn q)]. intros Hx. apply (Hn p u Hp). by apply Hu.
Qed.
Lemma collect_ok L p a w : minv F K [] cur w -> L ∉ w_dead w -> collectable p a w ->
  returns (collect L p a w) (fun w' => exists K', minv F (K' ++ K) [] cur w' /\ same_waits w w' /\ (lossless a -> K' = [])).
Proof.
  intros Hm Hal (u & Hp & Hw & Hb & Hn & Ha). pose proof (uncounted_rests p u w Hm Hp Hw) as Hco.
  pose proof (at_rest_idle _ _ _ _ _ _ _ Hm Hp Hco) as Hi. unfold collect, object_at. rewrite Hp. cbn [mbind outcome_bind].
  assert (Hdone : own_refs u = [] -> exists K', minv F (K' ++ K) [] cur (set_heap (delete p (w_heap w)) w) /\ same_waits w (set_heap (delete p (w_heap w)) w) /\ (lossless a -> K' = [])).
  { intros Ho. exists []. split; [|done]. apply (collect_end K p u u w w); try done. by rewrite insert_id. }
  pose proof (mi_users _ _ _ _ _ Hm p _ Hp) as Hu. destruct u as [d|c|s].
  - unfold conn_gc, conn_at. rewrite Hp. cbn [mbind outcome_bind]. destruct (db_closed d) eqn:Ec; [by apply Hdone|]. specialize (Ha eq_refl).
    unfold conn_close_now. rewrite Ha. change (c_true 0) with false. cbv iota. rewrite use_conn_ok by (exists d; split; [done|]; split; [done|]; by apply Hu). cbn [mbind outcome_bind returns].
    set (w1 := send _ _). exists []. split; [|done]. apply (collect_end K p (UConn d) (UConn (mk_db true MyClosed (db_co d))) w w1); try done. apply minv_send.
    apply (minv_set F K [] cur w p (UConn d)); try done. left. by split.
  - unfold cur_gc, cursor_at. rewrite Hp. cbn [mbind outcome_bind]. destruct Hu as (U1 & U2 & _). destruct (cur_closed c) eqn:Ec; [apply Hdone; by apply U2|]. specialize (Ha eq_refl).
    unfold cur_end. pose proof (free_result_start_ok F K [] cur w L p c (a_free a) (a_mem a) Hm Hp (proj1 (U1 eq_refl)) Hi) as Hf. rewrite Ha in *. change (c_true 0) with false in Hf. cbv iota in Hf.
    apply returns_inv in Hf as ([waits w1] & -> & -> & Hm1 & Hs & Eh). cbn [mbind outcome_bind returns]. exists []. split.
    + apply (collect_end K p (UCursor c) (UCursor (set_freed (gone c))) w w1); done.
    + split; [|done]. by eapply same_waits_trans.
  - unfold st_gc, stmt_at. rewrite Hp. cbn [mbind outcome_bind]. destruct Hu as (U1 & _ & U3 & _). destruct (st_closed s) eqn:Ec; [apply Hdone; cbn; by rewrite U3|].
    destruct Ha as [Ha Ho]. assert (Ho' : conn_open (w_heap w) (st_ctx s) \/ lossless a) by (destruct Ho as [|Ho]; [by left|right; by intros _]).
    pose proof (stmt_close_ok L p s a w Hm Hp (U1 eq_refl) Hco Hal Ho') as Hf. apply returns_inv in Hf as ([r w1] & -> & (K' & Hm1 & _ & Hl) & Hx). destruct (Hx Ha) as (s' & Eh & Hg & Ht & Hs).
    cbn [mbind outcome_bind returns]. exists K'. split.
    + apply (collect_end (K' ++ K) p (UStmt s) (UStmt s') w w1); try done; [|cbn; by rewrite Ht]. intros q [Hq _]. congruence.
    + split; [|done]. eapply same_waits_trans; [exact Hs|done].
Qed.

(** *** Any call *)

(** Nothing waits on a connection, its statements and cursors included. *)
Definition conn_ready (p : positive) w : Prop := at_rest p w /\ quiet p (live cur w).
Definition stmt_ready (p : positive) w : Prop :=
  at_rest p w /\ forall s, w_heap w !! p = Some (UStmt s) -> st_closed s = false -> conn_open (w_heap w) (st_ctx s) /\ quiet (st_ctx s) (live cur w).
(** What is asked of a call: the coroutine that calls has not been collected, and the object is there; one operation at a time for a connection with its
    statements, and for a cursor; the connection of a statement is open; parameters that were bound are still there; the answers are what the library says
    they are.  The coroutine a callback resumed is not collected while it runs. *)
Definition call_ok (q : request) w : Prop :=
  let a := rq_answer q in
  (rq_L q ∉ w_dead w) /\
  match rq_call q with
  | KConnect _ => True
  | KQuery p _ | KPing p | KCommit p | KRollback p | KAutocommit p _ | KCharset p _ | KClose p => conn_ready p w
  | KPrepare p _ => is_Some (w_heap w !! p) /\ quiet p (live cur w)
  | KLastId p _ | KPairs p | KNames p | KTypes p | KNumrows p _ => is_Some (w_heap w !! p)
  | KEscape p v escaped => is_Some (w_heap w !! p) /\ forall s, luaL_checklstring v = Ret s -> Zlen escaped <= 2 * Zlen s
  | KBind _ p _ | KRow p | KCursorClose p => at_rest p w
  | KStore p | KLong p _ _ => stmt_ready p w
  | KStmtClose p => at_rest p w /\ forall s, w_heap w !! p = Some (UStmt s) -> st_closed s = false -> (conn_open (w_heap w) (st_ctx s) \/ lossless a) /\ quiet (st_ctx s) (live cur w)
  | KExecute p => stmt_ready p w /\
      (forall s, w_heap w !! p = Some (UStmt s) -> returns (sent_params (st_params s)) (fun _ => True)) /\ (a_status a = 0 -> a_ret a = 0 -> executed a p w)
  | KFetch p => stmt_ready p w /\ (a_status a = 0 -> a_ret a = 0 -> fetched a p w)
  | KCollect p => collectable p a w
  | KReap M => forall b bag, cur = Some b -> w_bags w !! b = Some bag -> bg_L bag <> M
  end.

Lemma at_rest_some p w : at_rest p w -> is_Some (w_heap w !! p).
Proof. intros (u & Hu & _). by exists u. Qed.
Lemma at_rest_co p w u : at_rest p w -> w_heap w !! p = Some u -> coref (co_of u) = None.
Proof. intros (v & Hv & Hc) Hu. rewrite Hv in Hu. by injection Hu as ->. Qed.
Lemma conn_call_ok {B} L p (arg : outcome B) what cb fin a w : minv F K [] cur w -> conn_ready p w -> L ∉ w_dead w -> arg <> UB -> conn_callback cb = true ->
  fin_ok F fin a p (fun w => is_conn (w_heap w) p) ->
  returns (with_object (getconnection p w) arg w (fun _ s => conn_start L p (what s) cb fin a w)) (kept F K cur L (a_mem a) w).
Proof.
  intros Hm [Hr _] Hal Ha Hcb Hf. apply with_connection; [by apply at_rest_some|done|intros msg; by apply kept_now|]. intros d s Hd Hcl _. apply (conn_start_ok F K cur L p d); try done.
  exact (at_rest_co p w _ Hr Hd).
Qed.
Lemma stmt_call_ok {B} L p (arg : outcome B) what cb fin a w : minv F K [] cur w -> stmt_ready p w -> L ∉ w_dead w -> arg <> UB -> stmt_callback cb = true ->
  (forall c, c_true (a_status a) = false -> a_ret a = 0 -> forall w', stmt_alive (w_heap w) c p -> w_heap w' = w_heap w -> minv F K [] cur w' ->
     returns (fin a p w') (fun '(_, w'') => minv F K [] cur w'' /\ same_waits w' w'')) ->
  returns (with_object (getstatement p w) arg w (fun s x => stmt_start L p s (what x) cb fin a w)) (kept F K cur L (a_mem a) w).
Proof.
  intros Hm [Hr Hs'] Hal Ha Hcb Hf. apply with_statement; [by apply at_rest_some|done|intros msg; by apply kept_now|]. intros s x Hs Hc _. destruct (mi_users _ _ _ _ _ Hm p _ Hs) as (U1 & _).
  destruct (Hs' s Hs Hc) as [Ho _].
  apply stmt_start_ok; try done; [by apply U1|exact (at_rest_co p w _ Hr Hs)|]. intros H1 H2 w' Eh Hm'. apply (Hf (st_ctx s)); try done. exists s. split; [done|]. split; [by apply U1|done].
Qed.
Lemma execute_ok L p a w : minv F K [] cur w -> stmt_ready p w -> L ∉ w_dead w ->
  (forall s, w_heap w !! p = Some (UStmt s) -> returns (sent_params (st_params s)) (fun _ => True)) -> (a_status a = 0 -> a_ret a = 0 -> executed a p w) ->
  returns (stmt_execute_start L p a w) (kept F K cur L (a_mem a) w).
Proof.
  intros Hm [Hr Hs'] Hal Hs Hx. apply with_statement; [by apply at_rest_some|done|intros msg; by apply kept_now|]. intros s _ Hq Hc _. destruct (mi_users _ _ _ _ _ Hm p _ Hq) as (U1 & _).
  destruct (Hs' s Hq Hc) as [Ho _].
  destruct (returns_inv _ _ (Hs s Hq)) as (ds & -> & _). cbn [mbind outcome_bind]. apply stmt_start_ok; try done; [by apply U1|exact (at_rest_co p w _ Hr Hq)|]. intros H1%c_false H2 w' Eh Hm'.
  apply (stmt_execute_result_ok _ _ _ _ _ _ (st_ctx s)); [done|exists s; rewrite Eh; split; [done|]; split; [by apply U1|done]|]. unfold executed. rewrite Eh. by apply Hx.
Qed.
Lemma fetch_ok L p a w : minv F K [] cur w -> stmt_ready p w -> L ∉ w_dead w -> (a_status a = 0 -> a_ret a = 0 -> fetched a p w) ->
  returns (stmt_fetch_start L p a w) (kept F K cur L (a_mem a) w).
Proof.
  intros Hm [Hr Hs'] Hal Hx. apply with_statement; [by apply at_rest_some|done|intros msg; by apply kept_now|]. intros s _ Hq Hc _. destruct (mi_users _ _ _ _ _ Hm p _ Hq) as (U1 & _).
  destruct (Hs' s Hq Hc) as [Ho _].
  destruct (negb (c_true (a_status a)) && (a_ret a =? MYSQL_NO_DATA)).
  - unfold use_stmt. rewrite U1, use_conn_ok by done. cbn [mbind outcome_bind returns]. apply kept_now; [by apply minv_send|done|done].
  - apply stmt_start_ok; try done; [by apply U1|exact (at_rest_co p w _ Hr Hq)|]. intros H1%c_false H2 w' Eh Hm'.
    apply (stmt_fetch_result_ok _ _ _ _ _ _ (st_ctx s)); [done|exists s; rewrite Eh; split; [done|]; split; [by apply U1|done]|]. unfold fetched. rewrite Eh. by apply Hx.
Qed.
Lemma open_conn_ok p d w : minv F K [] cur w -> w_heap w !! p = Some (UConn d) -> db_closed d = false -> use_conn p w = Ret tt.
Proof. intros Hm Hd Hc. apply use_conn_ok. exists d. split; [done|]. split; [done|]. by apply (mi_users _ _ _ _ _ Hm p _ Hd). Qed.
Lemma autoid_ok p id w L mem : minv F K [] cur w -> is_Some (w_heap w !! p) -> returns (conn_getlastautoid p id w) (kept F K cur L mem w).
Proof. intros Hm Hp. apply with_connection; [done|done|intros msg; by apply kept_now|]. intros d _ Hd Hc _. rewrite (open_conn_ok p d) by done. by apply kept_now. Qed.
Lemma db_escape_ok p v escaped w L mem : minv F K [] cur w -> is_Some (w_heap w !! p) -> (forall s, luaL_checklstring v = Ret s -> Zlen escaped <= 2 * Zlen s) ->
  returns (escape_string p v escaped w) (kept F K cur L mem w).
Proof.
  intros Hm Hp He. apply with_connection; [done|apply checklstring_ub|intros msg; by apply kept_now|]. intros d s Hd Hc Es. specialize (He s Es). rewrite (open_conn_ok p d) by done. cbn [mbind outcome_bind].
  destruct (Z.leb_spec (Zlen escaped + 1) (2 * Zlen s + 1)); [by apply kept_now|lia].
Qed.
(** A coroutine that waits is not collected. *)
Lemma anchored_in_true L reg r : reg !! r = Some (RvThread L) -> anchored_in L reg = true.
Proof.
  intros Hr. apply existsb_exists. exists (r, RvThread L). split; [by apply list_elem_of_In, elem_of_map_to_list|]. cbn. apply Pos.eqb_refl.
Qed.
Lemma reap_ok M w : minv F K [] cur w -> (forall b bag, cur = Some b -> w_bags w !! b = Some bag -> bg_L bag <> M) -> minv F K [] cur (reap M w).
Proof.
  intros Hm Hc. unfold reap. destruct (anchored_in M (w_reg w)) eqn:E; [done|]. destruct Hm as [A1 A2 A3 A4 A5 A6 A7 A8 A9]. constructor; try done.
  - intros b Hb. destruct (A7 b Hb) as (bag & Hbag & Hd). exists bag. split; [done|]. cbn. pose proof (Hc b bag Hb Hbag). by rewrite not_elem_of_union, not_elem_of_singleton.
  - intros b bag Hb. change (live cur (set_dead ({[M]} ∪ w_dead w) w)) with (live cur w) in Hb. destruct (A8 b bag Hb) as [(u & r & Hu & Er & Hr) Hd]. split; [by exists u, r|]. cbn.
    assert (bg_L bag <> M) by (intros <-; by rewrite (anchored_in_true _ _ r Hr) in E). by rewrite not_elem_of_union, not_elem_of_singleton.
Qed.
Lemma numrows_ok p n w L mem : minv F K [] cur w -> is_Some (w_heap w !! p) -> returns (cur_numrows p n w) (kept F K cur L mem w).
Proof.
  intros Hm Hp. apply with_cursor; [done|done|intros msg; by apply kept_now|]. intros u _ Hu Hc _. destruct (mi_users _ _ _ _ _ Hm p _ Hu) as (U1 & _).
  unfold use_result. rewrite (proj1 (U1 Hc)). cbn [mbind outcome_bind returns]. by apply kept_now.
Qed.
Lemma long_arg num data : (n ← luaL_checkinteger num; d ← luaL_checklstring data; Ret (n, d)) <> UB.
Proof. unfold luaL_checkinteger, luaL_checklstring. destruct (lua_tointegerx num); [|done]. cbn. by destruct (lua_tolstring data). Qed.
Lemma long_ok L p num data a w : minv F K [] cur w -> stmt_ready p w -> L ∉ w_dead w -> returns (st_send_long_data L p num data a w) (kept F K cur L (a_mem a) w).
Proof.
  intros Hm [Hr Hs'] Hal. apply with_statement; [by apply at_rest_some|apply long_arg|intros msg; by apply kept_now|]. intros s [n d] Hs Hc _. destruct (mi_users _ _ _ _ _ Hm p _ Hs) as (U1 & _).
  destruct (Hs' s Hs Hc) as [Ho _]. apply stmt_start_ok; try done; [by apply U1|]. exact (at_rest_co p w _ Hr Hs).
Qed.

Lemma exec_call_ok q w : minv F K [] cur w -> call_ok q w -> returns (exec_call q w) (kept_but F K cur (rq_L q) (rq_answer q) w).
Proof.
  intros Hm [Hal Hq]. unfold exec_call in *. destruct q as [L c a]. cbn [rq_L rq_call rq_answer] in *.
  assert (Hk : forall r, returns r (kept F K cur L (a_mem a) w) -> returns r (kept_but F K cur L a w)) by (intros r Hr; eapply returns_mono; [exact Hr|apply kept_kept_but]).
  destruct c as [args|p v|p|p|p|p v|p v|p|p id|p v e|p v|cache p ps|p|p|p n d|p|p|p|p|p|p|p n|p|p|M].
  - by apply Hk, real_connect_ok.
  - apply Hk, conn_call_ok; try done; [apply checklstring_ub|apply query_fin].
  - by apply Hk, conn_call_ok.
  - by apply Hk, conn_call_ok.
  - by apply Hk, conn_call_ok.
  - by apply Hk, conn_call_ok.
  - apply Hk. unfold set_character_set_start. apply (conn_call_ok L p (luaL_checklstring v) (fun s => McCharset p (cstr s))); try done; apply checklstring_ub.
  - destruct Hq as [(u & Hu & Hco) Hq]. unfold conn_close_start, object_at. rewrite Hu. cbn [mbind outcome_bind]. destruct u as [d| |]; try (by apply Hk, kept_now).
    destruct (db_closed d) eqn:Ec; [by apply Hk, kept_now|]. by apply Hk, conn_close_ok.
  - by apply Hk, autoid_ok.
  - destruct Hq. by apply Hk, db_escape_ok.
  - destruct Hq. by apply Hk, stmt_prepare_ok.
  - by apply Hk, st_bind_ok, at_rest_some.
  - destruct Hq as (? & ? & ?). by apply Hk, execute_ok.
  - by apply Hk, stmt_call_ok.
  - by apply Hk, long_ok.
  - destruct Hq as (? & ?). by apply Hk, fetch_ok.
  - apply Hk, with_statement; [done|done|intros msg; by apply kept_now|]. intros s _ _ _ _. by apply kept_now.
  - destruct Hq as [(u & Hu & Hco) Hs]. unfold st_close, object_at. rewrite Hu. cbn [mbind outcome_bind]. destruct u as [| |s]; try (by apply Hk, kept_now).
    destruct (st_closed s) eqn:Ec; [by apply Hk, kept_now|]. destruct (mi_users _ _ _ _ _ Hm p _ Hu) as (U1 & _). destruct (Hs s Hu Ec) as [Ho _].
    eapply returns_mono; [apply stmt_close_ok; try done; by apply U1|]. by intros x [Hx _].
  - by apply Hk, fetch_row_ok.
  - by apply Hk, pushtable_ok.
  - by apply Hk, pushtable_ok.
  - by apply Hk, numrows_ok.
  - destruct Hq as (u & Hu & Hco). unfold cur_close, object_at. rewrite Hu. cbn [mbind outcome_bind]. destruct u as [|u|]; try (by apply Hk, kept_now).
    destruct (cur_closed u) eqn:Ec; [by apply Hk, kept_now|]. by eapply Hk, free_then_ok.
  - eapply returns_bind; [by apply collect_ok|]. intros w' (K' & Hm' & Hs & Hl). exists K'. split; [done|]. split; [by apply reacted_now|done].
  - apply Hk, kept_now; [by apply reap_ok|unfold reap; by destruct (anchored_in M (w_reg w))|done].
Qed.
End More.

(** ** What libevent calls *)

Lemma minv_take F K w b bag : minv F K [] None w -> w_bags w !! b = Some bag ->
  minv F (ref_list (bg_extra bag) ++ K) [obj_of (bg_data bag)] (Some b) w /\ bag_fits w bag /\ w_bags w !! b = Some bag.
Proof.
  intros [A1 A2 A3 A4 A5 A6 A7 A8 A9] Hb. cbn [live] in *. assert (Hp : waiting (w_bags w) (w_refused w) ≡ₚ [obj_of (bg_data bag)] ++ waiting (delete b (w_bags w)) (w_refused w)) by (by apply waiting_del).
  split; [|split; [by split; [apply (A5 b)|apply (A8 b)]|done]]. constructor; cbn [live]; [|exact A2| | | | | | |exact A9].
  - eapply holds_perm; [|exact A1]. rewrite (bag_refs_del _ b bag Hb). solve_Permutation.
  - intros p u Hu. rewrite <- (count_perm p _ _ Hp). by apply A3.
  - intros p. rewrite <- Hp. apply A4.
  - intros x y [Hne Hx]%lookup_delete_Some. by apply (A5 x).
  - by rewrite <- Hp.
  - intros x [= <-]. exists bag. split; [done|]. by apply (A8 b).
  - intros x y [Hne Hx]%lookup_delete_Some. by apply (A8 x).
Qed.
(** The end of a callback. *)
Lemma minv_free F K w b : minv F K [] (Some b) w -> exists w', free_bag b w = Ret w' /\ minv F K [] None w' /\ w_bags w' = delete b (w_bags w) /\
  w_refused w' = w_refused w /\ w_resumed w' = w_resumed w.
Proof.
  intros [A1 A2 A3 A4 A5 A6 A7 A8 A9]. destruct (A7 b eq_refl) as (bag & Hb & _). unfold free_bag, bag_at. rewrite Hb. cbn [mbind outcome_bind]. eexists. split; [done|].
  split; [|done]. by constructor.
Qed.

Section Events.
Context `{LuaAPI} (F : registry_map) (K : list positive) (b : positive) (bag : DB_STATUS) (a : answer).
Implicit Type w : world.

(** The coroutine waits on, or its wait was not taken. *)
Definition carried_on (w w' : world) : Prop :=
  (exists b' bag', w_bags w !! b' = None /\ w_bags w' = <[b' := bag']> (w_bags w) /\ bg_L bag' = bg_L bag /\ w_refused w' = w_refused w) \/
  (w_bags w' = w_bags w /\ exists x, w_refused w' = w_refused w ++ [x] /\ rf_L x = bg_L bag).
Lemma waited_on w w' ctx data status cb extra mem : waited w (bg_L bag) ctx data status cb extra mem w' -> carried_on w w'.
Proof.
  intros [Hno|c d Hc Hd Hcl Hmem]; [right; split; [done|by eexists]|left]. eexists _, _. split; [|split; [reflexivity|done]]. apply not_elem_of_dom, is_fresh.
Qed.
Definition called w (x : bool * world) : Prop :=
  (forall b' bag', w_bags w !! b' = Some bag' -> w_bags x.2 !! b' = Some bag') /\
  if x.1 then minv F (ref_list (bg_extra bag) ++ K) [] (Some b) x.2 /\ w_bags x.2 = w_bags w /\ w_refused x.2 = w_refused w /\ exists rs, w_resumed x.2 = w_resumed w ++ [(bg_L bag, rs)]
  else minv F K [] (Some b) x.2 /\ w_resumed x.2 = w_resumed w /\ carried_on w x.2.

Lemma current_alive K' E w : minv F K' E (Some b) w -> w_bags w !! b = Some bag -> use_thread (bg_L bag) w = Ret tt.
Proof. intros Hm Hb. destruct (mi_cur _ _ _ _ _ Hm b eq_refl) as (bag' & Hb' & Hd). rewrite Hb in Hb'. injection Hb' as <-. unfold use_thread. by rewrite decide_False. Qed.
Lemma resume_with_ok w0 w p rs : minv F (ref_list (bg_extra bag) ++ K) [p] (Some b) w -> w_bags w0 !! b = Some bag ->
  same_waits w0 w -> returns (resume_with (bg_L bag) p rs w) (called w0).
Proof.
  intros Hm Hb [Eb Ef Er]. destruct (UNREF_CO_ok _ _ _ _ _ _ Hm) as (u & an & reg & _ & E1 & Hm'). unfold resume_with.
  rewrite (current_alive _ _ w Hm) by (by rewrite Eb). cbn [mbind outcome_bind]. rewrite E1. cbn [mbind outcome_bind returns].
  split; [cbn; by rewrite Eb|]. split; [by apply minv_log|]. split; [done|]. split; [done|]. exists rs. cbn. by rewrite Er.
Qed.
Lemma wait_again_ok w c : minv F (ref_list (bg_extra bag) ++ K) [obj_of (bg_data bag)] (Some b) w -> bag_fits w bag -> c = bg_ctx bag ->
  returns (wait_again bag a (Some c) (bg_data bag) w) (called w).
Proof.
  intros Hm ([(d & Hd & ?) Hb] & Han & Hal) ->. unfold wait_again.
  destruct (wait_ok F K [] (Some b) w (bg_L bag) (Some (bg_ctx bag)) (bg_data bag) (a_status a) (bg_callback bag) (bg_extra bag) (a_mem a)) as (w' & -> & Hm' & Hw); [done..| |].
  - intros ? [= <-]. split; [by exists d|]. intros Ho. by split.
  - cbn [mbind outcome_bind returns]. destruct (waited_frame _ _ _ _ _ _ _ _ _ Hw) as (_ & _ & E3 & E4). split; [done|]. split; [done|]. split; [done|]. by eapply waited_on.
Qed.

(** What is asked of the answer to a callback. *)
Definition event_ok w : Prop :=
  match bg_callback bag, bg_data bag with
  | CbExecute, DObject p => a_errno0 a = 0 -> a_status a = 0 -> a_ret a = 0 -> executed a p w
  | CbFetch, DObject p => a_errno0 a = 0 -> a_status a = 0 -> a_ret a = 0 -> fetched a p w
  | CbFree, _ => a_status a = 0
  | _, _ => True
  end.
Definition taken w : Prop := minv F (ref_list (bg_extra bag) ++ K) [obj_of (bg_data bag)] (Some b) w /\ bag_fits w bag /\ w_bags w !! b = Some bag.
Lemma taken_open w : taken w -> conn_open (w_heap w) (bg_ctx bag).
Proof. by intros (_ & [[Ho _] _] & _). Qed.
Lemma taken_idle w : taken w -> idle (obj_of (bg_data bag)) (live (Some b) w).
Proof. intros (Hm & _ & _). pose proof (mi_one _ _ _ _ _ Hm) as HN. cbn in HN. apply NoDup_cons in HN as [HN _]. by eapply unwatched_idle. Qed.
Lemma open_is_conn h c : conn_open h c -> is_conn h c.
Proof. intros (d & Hd & _). by exists d. Qed.
(** What a callback that is done resumes with. *)
Lemma done_ok w w1 rs : taken w -> minv F (ref_list (bg_extra bag) ++ K) [obj_of (bg_data bag)] (Some b) w1 -> same_waits w w1 ->
  returns (resume_with (bg_L bag) (obj_of (bg_data bag)) rs w1) (called w).
Proof. intros (_ & _ & Hb) Hm Hs. by apply resume_with_ok. Qed.

Lemma conn_event_ok checks fin c w : taken w -> bg_data bag = DMysql c -> c = bg_ctx bag -> fin_ok F fin a c (fun w => is_conn (w_heap w) c) ->
  returns (conn_event bag a checks fin w) (called w).
Proof.
  intros Ht Ed Ec Hf. pose proof (taken_open w Ht) as Ho. rewrite <- Ec in Ho. pose proof Ht as (Hm & Hb & _). unfold conn_event. rewrite Ed, use_conn_ok by done. cbn [mbind outcome_bind].
  pose proof (done_ok w) as Hd. rewrite Ed in Hm, Hd. cbn [obj_of] in *. destruct (checks && c_true (a_errno0 a)); [by apply Hd|]. destruct (c_true (a_status a)).
  - rewrite <- Ed. apply wait_again_ok; rewrite ?Ed; done.
  - destruct (a_ret a =? 0); [|by apply Hd]. eapply returns_bind; [apply (Hf _ _ _ w Hm); by apply open_is_conn|]. intros [rs w1] [Hm1 Hs]. by apply Hd.
Qed.
Lemma extra_ok w r p : bg_extra bag = Some r -> w_reg w !! r = Some (RvObject p) -> extra_object bag w = Ret (RObject p).
Proof. intros Er Hr. unfold extra_object. by rewrite Er, Hr. Qed.
Lemma connect_cont_ok c w : taken w -> bg_data bag = DMysql c -> c = bg_ctx bag -> (exists r, bg_extra bag = Some r /\ w_reg w !! r = Some (RvObject c)) ->
  returns (real_connect_cont bag a w) (called w).
Proof.
  intros Ht Ed Ec (r & Er & Hr). pose proof (taken_open w Ht) as Ho. rewrite <- Ec in Ho. pose proof Ht as (Hm & Hb & _). unfold real_connect_cont. rewrite Ed, use_conn_ok by done. cbn [mbind outcome_bind].
  pose proof (done_ok w) as Hd. rewrite Ed in Hm, Hd. cbn [obj_of] in *. destruct (c_true (a_status a)).
  - rewrite <- Ed. apply wait_again_ok; rewrite ?Ed; done.
  - destruct (a_ret a =? 0); [|by apply Hd]. rewrite (extra_ok w r c Er Hr). cbn [mbind outcome_bind]. by apply Hd.
Qed.

(** A statement that waits is there, and its connection is the one that waits. *)
Lemma stmt_taken p w : taken w -> bg_data bag = DObject p -> stmt_alive (w_heap w) (bg_ctx bag) p ->
  exists s, w_heap w !! p = Some (UStmt s) /\ stmt_at p w = Ret s /\ use_stmt s = Ret tt /\ my_stmt s = true /\ st_ctx s = bg_ctx bag /\ use_conn (st_ctx s) w = Ret tt /\
    minv F (ref_list (bg_extra bag) ++ K) [p] (Some b) w /\
    (forall w1 rs, minv F (ref_list (bg_extra bag) ++ K) [p] (Some b) w1 -> same_waits w w1 -> returns (resume_with (bg_L bag) p rs w1) (called w)) /\
    returns (wait_again bag a (Some (bg_ctx bag)) (bg_data bag) w) (called w).
Proof.
  intros Ht Ed (s & Hs & Ha & Ec). exists s. pose proof (done_ok w) as Hd. pose proof (taken_open w Ht) as Ho. pose proof Ht as (Hm & Hb & _). unfold stmt_at, use_stmt.
  rewrite Hs, Ha, Ec, use_conn_ok by done. assert (Hw : returns (wait_again bag a (Some (bg_ctx bag)) (bg_data bag) w) (called w)) by (by apply wait_again_ok).
  rewrite Ed in Hm, Hd. cbn [obj_of] in *. do 7 (split; [done|]). split; [|done]. intros w1 rs. by apply Hd.
Qed.
Lemma stmt_event_ok fin p w : taken w -> bg_data bag = DObject p -> stmt_alive (w_heap w) (bg_ctx bag) p ->
  (c_true (a_errno0 a) = false -> c_true (a_status a) = false -> a_ret a = 0 -> forall K E cur, minv F K E cur w ->
     returns (fin a p w) (fun '(_, w') => minv F K E cur w' /\ same_waits w w')) ->
  returns (stmt_event bag a fin w) (called w).
Proof.
  intros Ht Ed Hal Hf. destruct (stmt_taken p w Ht Ed Hal) as (s & Hs & Es & Eu & Ha & Ec & Ecn & Hm & Hd & Hw). unfold stmt_event. rewrite Ed, Es. cbn [mbind outcome_bind].
  rewrite Eu. cbn [mbind outcome_bind]. destruct (c_true (a_errno0 a)); [by apply Hd|]. rewrite Ecn. cbn [mbind outcome_bind]. destruct (c_true (a_status a)).
  - by rewrite Ec, <- Ed.
  - destruct (Z.eqb_spec (a_ret a) 0) as [Hz|]; [|by apply Hd]. eapply returns_bind; [by apply (Hf eq_refl eq_refl Hz _ _ _ Hm)|].
    intros [rs w1] [Hm1 Hs1]. by apply Hd.
Qed.
Lemma prepare_cont_ok p w : taken w -> bg_data bag = DObject p -> stmt_alive (w_heap w) (bg_ctx bag) p -> (exists r, bg_extra bag = Some r /\ w_reg w !! r = Some (RvObject p)) ->
  returns (stmt_prepare_cont bag a w) (called w).
Proof.
  intros Ht Ed Hal (r & Er & Hr). destruct (stmt_taken p w Ht Ed Hal) as (s & Hs & Es & Eu & Ha & Ec & Ecn & Hm & Hd & Hw). unfold stmt_prepare_cont. rewrite Ed, Es. cbn [mbind outcome_bind].
  rewrite Eu. cbn [mbind outcome_bind]. destruct (c_true (a_errno0 a)); [by apply Hd|]. rewrite Ecn. cbn [mbind outcome_bind]. destruct (c_true (a_status a)).
  - by rewrite <- Ed.
  - destruct (a_ret a =? 0); [|by apply Hd].
    eapply returns_bind; [by apply (stmt_prepare_result_ok F _ _ _ w a (bg_ctx bag) p Hm)|]. intros w1 (Hm1 & Hs1 & Ereg & _). rewrite (extra_ok w1 r p Er) by congruence. cbn [mbind outcome_bind].
    by apply Hd.
Qed.
Lemma stmt_close_cont_ok p w : taken w -> bg_data bag = DObject p -> stmt_closing (w_heap w) (bg_ctx bag) p -> returns (stmt_close_cont bag a w) (called w).
Proof.
  intros Ht Ed (s' & Hs' & Ha' & Hcl & Ec'). destruct (stmt_taken p w Ht Ed) as (s & Hs & Es & Eu & Ha & Ec & Ecn & Hm & Hd & Hw); [by exists s'|].
  rewrite Hs' in Hs. injection Hs as ->. rename Hs' into Hs. unfold stmt_close_cont. rewrite Ed, Es. cbn [mbind outcome_bind].
  rewrite Eu. cbn [mbind outcome_bind]. rewrite Ecn. cbn [mbind outcome_bind]. destruct (c_true (a_status a)).
  - by rewrite Ec, <- Ed.
  - pose proof (taken_idle w Ht) as Hi. rewrite Ed in Hi. destruct (minv_gone F _ _ _ w p s Hm Hs Ha Hcl Hi) as [_ (reg & E1 & Hm1)]. rewrite E1. cbn [mbind outcome_bind].
    destruct (a_ret a =? 0); [by apply Hd|]. rewrite use_conn_ok; [cbn [mbind outcome_bind]; by apply Hd|]. destruct (taken_open w Ht) as (d & Hdc & ?). exists d. split; [|done]. cbn.
    rewrite lookup_insert_ne; [done|congruence].
Qed.

Lemma row_cont_ok p w : taken w -> bg_data bag = DObject p -> bg_callback bag = CbRow -> cursor_open (w_heap w) (bg_ctx bag) p -> bg_extra bag = None ->
  returns (fetch_row_cont bag a w) (called w).
Proof.
  intros Ht Ed Ecb (u & Hu & Hc & Ec) Ex. pose proof (done_ok w) as Hd. pose proof (taken_open w Ht) as Ho. pose proof Ht as (Hm & Hb & Hbag). pose proof (taken_idle w Ht) as Hi.
  assert (Hw : returns (wait_again bag a (Some (bg_ctx bag)) (bg_data bag) w) (called w)) by (by apply wait_again_ok).
  rewrite Ed, Ex in Hm, Hd. rewrite Ed in Hi. cbn [obj_of ref_list app] in Hm, Hi, Hd.
  destruct (mi_users _ _ _ _ _ Hm p _ Hu) as (U1 & _ & U3 & _). destruct (U1 Hc) as [Ha _].
  unfold fetch_row_cont, cursor_at. rewrite Ed, Hu. cbn [mbind outcome_bind]. assert (Eu : use_result u = Ret tt) by (unfold use_result; by rewrite Ha). rewrite Eu, use_conn_ok by done. cbn [mbind outcome_bind].
  destruct (c_true (a_status a)) eqn:Est; [by rewrite Ec, <- Ed|].
  rewrite (current_alive _ _ w Hm Hbag). cbn [mbind outcome_bind]. destruct (a_row a) as [cells|] eqn:Er.
  - eapply returns_bind; [by apply (row_of_ok F K (Some b) (bg_L bag) a p u w [p])|]. intros [rs w1] ([x ->] & Hm1 & Hs). by apply Hd.
  - unfold fetch_row_result. rewrite Er. pose proof (free_result_start_ok F K [p] (Some b) w (bg_L bag) p u (a_free a) (a_mem a) Hm Hu Ha Hi) as Hf. destruct (c_true (a_free a)).
    2:{ apply returns_inv in Hf as ([waits w1] & -> & -> & Hm1 & Hs & _). cbn [mbind outcome_bind]. by apply Hd. }
    destruct Hf as (w1 & -> & Hm1 & Hs & Eh & Edd & Eco). rewrite Ec. assert (Hp1 : w_heap w1 !! p = Some (UCursor (gone u))) by (by rewrite Eh, lookup_insert_eq).
    assert (Ho1 : conn_open (w_heap w1) (bg_ctx bag)) by (destruct Ho as (d & Hdc & ?); exists d; split; [rewrite Eh, lookup_insert_ne; [done|congruence]|done]).
    destruct (wait_ok F K [] (Some b) w1 (bg_L bag) (Some (bg_ctx bag)) (DObject p) (a_free a) CbFree None (a_mem a)) as (w2 & -> & Hm2 & Hwt); [exact Hm1| |by rewrite Edd; apply Hb| |].
    + destruct Hb as (_ & (v & r & Hv & Evr & Hr) & Hal). rewrite Ed in Hv. cbn [obj_of] in *. rewrite Hu in Hv. injection Hv as <-.
      exists (UCursor (gone u)), r. split; [done|]. split; [done|]. by rewrite Eco.
    + intros ? [= <-]. split; [by apply open_is_conn|]. intros _. split; [exact Ho1|]; split; [by exists (gone u)|done].
    + cbn [mbind outcome_bind returns]. destruct (waited_frame _ _ _ _ _ _ _ _ _ Hwt) as (_ & _ & E3 & E4). pose proof (waited_on _ _ _ _ _ _ _ _ Hwt) as Hon. destruct Hs as [S1 S2 S3].
      split; [cbn; intros b' bag' Hb'; apply E4; congruence|]. split; [done|]. split; [cbn; congruence|]. unfold carried_on in *. by rewrite S1, S2 in Hon.
Qed.
Lemma free_cont_ok p w : taken w -> bg_data bag = DObject p -> cursor_closing (w_heap w) p -> a_status a = 0 -> returns (free_result_cont bag a w) (called w).
Proof.
  intros Ht Ed (u & Hu & Ha & Hc) E0. pose proof (done_ok w) as Hd. pose proof (taken_open w Ht) as Ho. pose proof Ht as (Hm & Hb & Hbag). pose proof (taken_idle w Ht) as Hi. rewrite Ed in Hm, Hi, Hd. cbn [obj_of] in Hm, Hi, Hd.
  unfold free_result_cont, cursor_at. rewrite Ed, Hu. cbn [mbind outcome_bind].
  assert (Eu : use_result u = Ret tt) by (unfold use_result; by rewrite Ha). rewrite Eu, use_conn_ok by done. rewrite E0. cbn [mbind outcome_bind]. change (c_true 0) with false. cbv iota.
  apply Hd; [done| |done]. apply minv_freed; done.
Qed.

Lemma call_back_ok w : taken w -> event_ok w -> returns (call_back bag a w) (called w).
Proof.
  intros Ht He. pose proof Ht as (_ & [[Hc Hb] _] & _). unfold call_back, event_ok in *.
  destruct (bg_callback bag) eqn:Ecb, (bg_data bag) as [c|p|p] eqn:Ed; try done.
  - destruct Hb as [Ec Hx]. by eapply connect_cont_ok.
  - destruct Hb as [Ec Hx]. eapply conn_event_ok; [done..|]. apply done_fin.
  - destruct Hb as [Ec Hx]. eapply conn_event_ok; [done..|]. apply query_fin.
  - destruct Hb as [Ec Hx]. eapply conn_event_ok; [done..|]. apply done_fin.
  - destruct Hb as [Ec Hx]. eapply conn_event_ok; [done..|]. apply done_fin.
  - destruct Hb as [Ec Hx]. eapply conn_event_ok; [done..|]. apply done_fin.
  - destruct Hb as [Ec Hx]. eapply conn_event_ok; [done..|]. apply done_fin.
  - destruct Hb as [Hal Hx]. by eapply prepare_cont_ok.
  - destruct Hb as [Hal Hx]. eapply stmt_event_ok; [done..|]. intros E0%c_false E1%c_false E2 K' E' cur' Hm. apply (stmt_execute_result_ok _ _ _ _ _ _ (bg_ctx bag)); auto.
  - destruct Hb as [Hal Hx]. eapply stmt_event_ok; [done..|]. intros _ _ _ K' E' cur' Hm. by apply done_result_ok.
  - destruct Hb as [Hal Hx]. eapply stmt_event_ok; [done..|]. intros _ _ _ K' E' cur' Hm. by apply done_result_ok.
  - destruct Hb as [Hal Hx]. eapply stmt_event_ok; [done..|]. intros E0%c_false E1%c_false E2 K' E' cur' Hm. apply (stmt_fetch_result_ok _ _ _ _ _ _ (bg_ctx bag)); auto.
  - destruct Hb as [Hal Hx]. by eapply stmt_close_cont_ok.
  - destruct Hb as [Hal Hx]. by eapply row_cont_ok.
  - destruct Hb as [Hal Hx]. by eapply free_cont_ok.
Qed.
End Events.
