(* ===== verification/MariadbProps.v ===== *)
(** * The database bindings end to end

    Sequences of calls and events ([hrun]), what is asked of them ([admitted]), and
    the theorems about connections, cursors and statements. *)

From S2P Require Import Prelude Lua Double Holds MariadbData Mariadb MariadbLife MariadbSteps.

Section Props.
Context `{LuaAPI}.
Implicit Type w : world.

(** ** Scripts and events *)

Fixpoint script_ok (cur : option positive) (l : list request) w : Prop :=
  match l with [] => True | q :: l => call_ok cur q w /\ forall r w', exec_call q w = Ret (r, w') -> script_ok cur l w' end.
Definition hop_ok (o : hop) w : Prop :=
  match o with
  | HCall q => call_ok None q w
  | HFire b a script =>
      exists bag, w_bags w !! b = Some bag /\ can_fire (bg_event bag) = true /\ event_ok bag a w /\
        forall w1, call_back bag a w = Ret (true, w1) -> script_ok (Some b) script w1
  end.
Fixpoint admitted (l : list hop) w : Prop :=
  match l with [] => True | o :: l => hop_ok o w /\ forall w', hexec o w = Ret w' -> admitted l w' end.
Definition op_answers (o : hop) : list answer :=
  match o with HCall q => [rq_answer q] | HFire b a script => map rq_answer script end.
(** No statement is closed at once with an error. *)
Definition op_lossless (o : hop) : Prop := Forall lossless (op_answers o).

(** Waits are there until their event comes, new ones are of the coroutines [who], and a wait that was refused stays so. *)
Record later (who : positive -> Prop) w w' : Prop := {
  lt_kept : forall b bag, w_bags w !! b = Some bag -> w_bags w' !! b = Some bag;
  lt_new : forall b bag, w_bags w' !! b = Some bag -> w_bags w !! b = Some bag \/ who (bg_L bag);
  lt_refused : forall x, x ∈ w_refused w -> x ∈ w_refused w'
}.
Lemma later_same who w w' : w_bags w' = w_bags w -> w_refused w' = w_refused w -> later who w w'.
Proof. intros E1 E2. constructor; rewrite ?E1, ?E2; auto. Qed.
Lemma later_trans (who : positive -> Prop) w1 w2 w3 : later who w1 w2 -> later who w2 w3 -> later who w1 w3.
Proof. intros [A1 A2 A3] [B1 B2 B3]. constructor; auto. intros b bag Hb. destruct (B2 b bag Hb); auto. Qed.
Lemma later_mono (who who' : positive -> Prop) w w' : (forall L, who L -> who' L) -> later who w w' -> later who' w w'.
Proof. intros Hw [A1 A2 A3]. constructor; auto. intros b bag Hb. destruct (A2 b bag Hb); auto. Qed.
Lemma reacted_later L mem w r w' : reacted L mem w r w' -> later (eq L) w w' /\ w_resumed w' = w_resumed w.
Proof.
  intros [r0 w0 Hr [E1 E2 E3]|x w0 H1 H2 H3 H4 H5|b bag w0 H1 H2 H3 H4 H5]; (split; [|done]).
  - by apply later_same.
  - constructor; rewrite ?H1, ?H2; auto. intros y Hy. apply elem_of_app. by left.
  - constructor; [| |by rewrite H3].
    + intros b' bag' Hb'. rewrite H2, lookup_insert_ne; [done|congruence].
    + intros b' bag'. rewrite H2. intros [[<- <-]|[_ Hb]]%lookup_insert_Some; [by right|by left].
Qed.
Definition callers (l : list request) (L : positive) : Prop := L ∈ map rq_L l.
Lemma db_run_script_ok F K cur l : forall w, minv F K [] cur w -> script_ok cur l w -> returns (run_script l w) (fun w' =>
  (exists K', minv F (K' ++ K) [] cur w' /\ (Forall lossless (map rq_answer l) -> K' = [])) /\
  later (callers l) w w' /\ w_resumed w' = w_resumed w).
Proof.
  revert K. induction l as [|q l IH]; intros K w Hm Hs; [split; [by exists []|by split; [apply later_same|]]|]. destruct Hs as [Hq Hs]. cbn [run_script].
  pose proof (exec_call_ok F K cur q w Hm Hq) as Hx. apply returns_inv in Hx as ([r w1] & E1 & K1 & Hm1 & Hr & Hl1). rewrite E1. cbn [mbind outcome_bind]. cbn [fst snd] in *.
  destruct (reacted_later _ _ _ _ _ Hr) as [Hb1 Er1]. eapply returns_mono; [apply (IH (K1 ++ K) w1 Hm1); by eapply Hs|].
  intros w2 ((K2 & Hm2 & Hl2) & Hb2 & Er2). split; [|split; [|congruence]].
  2:{ eapply later_trans; [eapply later_mono; [|exact Hb1]|eapply later_mono; [|exact Hb2]]; intros M; unfold callers; cbn [map]; rewrite elem_of_cons; [by left|by right]. }
  exists (K2 ++ K1). split; [by rewrite <- app_assoc|]. cbn [map]. intros [H1 H2]%Forall_cons. by rewrite Hl1, Hl2.
Qed.

(** A coroutine that was not resumed has another event, or its wait was not taken. *)
Definition waits_on (L : positive) w w' : Prop :=
  (exists b' bag', w_bags w !! b' = None /\ w_bags w' !! b' = Some bag' /\ bg_L bag' = L) \/ exists x, w_refused w' = w_refused w ++ [x] /\ rf_L x = L.
(** What firing an event did.  [who]: the coroutines that called something. *)
Record fired (who : positive -> Prop) (b : positive) (bag : DB_STATUS) (w w' : world) : Prop := {
  fi_gone : w_bags w' !! b = None;
  fi_rest : forall b' bag', b' <> b -> w_bags w !! b' = Some bag' -> w_bags w' !! b' = Some bag';
  fi_new : forall b' bag', w_bags w' !! b' = Some bag' -> w_bags w !! b' = Some bag' \/ bg_L bag' = bg_L bag \/ who (bg_L bag');
  fi_refused : forall x, x ∈ w_refused w -> x ∈ w_refused w';
  fi_resumed : (exists rs, w_resumed w' = w_resumed w ++ [(bg_L bag, rs)]) \/ (w_resumed w' = w_resumed w /\ waits_on (bg_L bag) w w')
}.
Lemma free_fired F K K' b bag w w2 who (Q : Prop) : minv F (K' ++ K) [] (Some b) w2 -> (Q -> K' = []) -> later (fun L => L = bg_L bag \/ who L) w w2 ->
  ((exists rs, w_resumed w2 = w_resumed w ++ [(bg_L bag, rs)]) \/ (w_resumed w2 = w_resumed w /\ waits_on (bg_L bag) w w2)) -> w_bags w !! b = Some bag ->
  returns (free_bag b w2) (fun w' => (exists K', minv F (K' ++ K) [] None w' /\ (Q -> K' = [])) /\ fired who b bag w w').
Proof.
  intros Hm2 Hl [Hk Hn Hf] Hr Hb. destruct (minv_free F (K' ++ K) w2 b Hm2) as (w3 & -> & Hm3 & Eb & Ef & Er). cbn [returns]. split; [by exists K'|]. constructor.
  - by rewrite Eb, lookup_delete_eq.
  - intros b' bag' Hne Hx. rewrite Eb, lookup_delete_ne by done. by apply Hk.
  - intros b' bag'. rewrite Eb. intros [_ Hx]%lookup_delete_Some. destruct (Hn b' bag' Hx) as [|[|]]; auto.
  - rewrite Ef. exact Hf.
  - rewrite Er. destruct Hr as [Hr|[Hr Hon]]; [by left|right]. split; [done|]. destruct Hon as [(b' & bag' & H1 & H2 & H3)|Hon]; [left|right; by rewrite Ef].
    exists b', bag'. split; [done|]. split; [|done]. rewrite Eb, lookup_delete_ne by congruence. done.
Qed.
Lemma fire_ok F K b a script w : minv F K [] None w -> hop_ok (HFire b a script) w -> exists bag, w_bags w !! b = Some bag /\ returns (fire b a script w) (fun w' =>
  (exists K', minv F (K' ++ K) [] None w' /\ (op_lossless (HFire b a script) -> K' = [])) /\ fired (callers script) b bag w w').
Proof.
  intros Hm (bag & Hb & _ & He & Hs). exists bag. split; [done|]. unfold fire, bag_at. rewrite Hb. cbn [mbind outcome_bind].
  pose proof (call_back_ok F K b bag a w (minv_take F K w b bag Hm Hb) He) as Hc. apply returns_inv in Hc as ([resumed w1] & E1 & Hb1 & Hr1). rewrite E1. cbn [mbind outcome_bind]. cbn [fst snd] in *.
  destruct resumed.
  - destruct Hr1 as (Hm1 & Ebb & Eff & rs & Er1). pose proof (db_run_script_ok F _ (Some b) script w1 Hm1 (Hs w1 E1)) as Hx. apply returns_inv in Hx as (w2 & -> & (K2 & Hm2 & Hl2) & Hb2 & Er2).
    cbn [mbind outcome_bind]. apply (minv_holds _ _ (ref_list (bg_extra bag) ++ K2 ++ K)) in Hm2; [|solve_Permutation].
    assert (Hal : use_thread (bg_L bag) w2 = Ret tt) by (apply (current_alive F b bag _ _ w2 Hm2), (lt_kept _ _ _ Hb2), Hb1, Hb).
    assert (Hlt : later (fun L => L = bg_L bag \/ callers script L) w w2) by (eapply later_trans; [by apply (later_same _ w w1)|eapply later_mono; [|exact Hb2]; by right]).
    unfold give_back. destruct (bg_extra bag) as [r|]; cbn [ref_list app] in *.
    + rewrite Hal. cbn [mbind outcome_bind]. unfold unref. cbn [reg_unref_opt]. destruct (minv_unref _ _ _ _ _ _ Hm2) as (reg & -> & _ & Hm3). cbn [mbind outcome_bind].
      eapply free_fired; [exact Hm3|exact Hl2| |left; exists rs; cbn; congruence|done]. destruct Hlt as [Hk Hn Hf]. constructor; [exact Hk|exact Hn|exact Hf].
    + cbn [mbind outcome_bind]. eapply free_fired; [exact Hm2|exact Hl2|exact Hlt|left; exists rs; congruence|done].
  - destruct Hr1 as (Hm1 & Er1 & Hon). cbn [mbind outcome_bind]. apply (free_fired F K [] b bag w w1); [exact Hm1|done| |right|done].
    + destruct Hon as [(b' & bag' & H1 & H2 & H3 & H4)|[H1 (x & H2 & H3)]].
      * constructor; [exact Hb1| |by rewrite H4]. intros y by' Hy. rewrite H2 in Hy. apply lookup_insert_Some in Hy as [[<- <-]|[_ Hy]]; auto.
      * constructor; rewrite ?H1, ?H2; auto. intros y Hy. apply elem_of_app. by left.
    + split; [done|]. destruct Hon as [(b' & bag' & H1 & H2 & H3 & H4)|[_ Hon]]; [left|by right]. exists b', bag'. by rewrite H2, lookup_insert_eq.
Qed.

Lemma db_hexec_ok F K o w : minv F K [] None w -> hop_ok o w -> returns (hexec o w) (fun w' => exists K', minv F (K' ++ K) [] None w' /\ (op_lossless o -> K' = [])).
Proof.
  intros Hm Ho. destruct o as [q|b a script].
  - cbn. pose proof (exec_call_ok F K None q w Hm Ho) as Hx. apply returns_inv in Hx as ([r w1] & -> & K1 & Hm1 & _ & Hl1). cbn. exists K1. split; [done|].
    intros [Hl _]%Forall_cons. by apply Hl1.
  - destruct (fire_ok F K b a script w Hm Ho) as (bag & _ & Hf). eapply returns_mono; [exact Hf|]. by intros w' [Hx _].
Qed.
Lemma db_hrun_ok F K l : forall w, minv F K [] None w -> admitted l w -> returns (hrun l w) (fun w' => exists K', minv F (K' ++ K) [] None w' /\ (Forall op_lossless l -> K' = [])).
Proof.
  revert K. induction l as [|o l IH]; intros K w Hm Ha; [by exists []|]. destruct Ha as [Ho Ha]. cbn [hrun].
  pose proof (db_hexec_ok F K o w Hm Ho) as Hx. apply returns_inv in Hx as (w1 & E1 & K1 & Hm1 & Hl1). rewrite E1. cbn [mbind outcome_bind].
  eapply returns_mono; [by apply (IH _ w1 Hm1), Ha|]. intros w2 (K2 & Hm2 & Hl2). exists (K2 ++ K1). split; [by rewrite <- app_assoc|].
  intros [H1 H2]%Forall_cons. by rewrite Hl1, Hl2.
Qed.
Lemma db_start_ok : minv ∅ [] [] None mariadb_start.
Proof.
  constructor; cbn; try done.
  - apply holds_nil.
  - by intros p ?%not_elem_of_nil.
  - apply NoDup_nil_2.
  - by intros x ?%not_elem_of_nil.
Qed.

(** ** What holds *)

Definition mariadb_ok w : Prop := exists K, minv ∅ K [] None w.

(** C35: In any order of calls of scripts, of events and of collections that [admitted] allows, nothing is used after it is freed or closed, neither object nor connection
    nor coroutine, and no reference is given back twice.  [admitted] asks: one operation at a time on a connection with its statements, and on a cursor, and none on what
    a refused wait was for; a connection is not closed or collected while something waits on it or a statement or cursor of it is there to be used; a statement is used while its
    connection is open; strings that were bound are still there; what is collected needs no wait to end, no freeing waits twice; rows are as they were described.
    What happens otherwise: [mariadb_misuse].  The count of an object is at all times the number of waits on it, those that were refused included; every event is
    for an object that is there on a connection that is open, and for a coroutine that the object keeps in the registry and that has not been collected. *)
Theorem mariadb_safe ops : admitted ops mariadb_start -> returns (hrun ops mariadb_start) (fun w =>
  (forall p u, w_heap w !! p = Some u -> anchor_ok (w_reg w) (count p (waiting (w_bags w) (w_refused w))) (co_of u)) /\
  (forall b bag, w_bags w !! b = Some bag -> bag_fits w bag) /\
  forall o, hop_ok o w -> returns (hexec o w) mariadb_ok).
Proof.
  intros Ha. eapply returns_mono; [by apply (db_hrun_ok ∅ [] ops _ db_start_ok)|]. intros w (K & Hm & _). rewrite app_nil_r in Hm. split; [apply (mi_anchors _ _ _ _ _ Hm)|].
  split; [intros b bag Hb; by split; [apply (mi_bags _ _ _ _ _ Hm b)|apply (mi_threads _ _ _ _ _ Hm b)]|]. intros o Ho. eapply returns_mono; [by apply (db_hexec_ok ∅ K o w Hm)|]. intros w' (K' & Hm' & _). by exists (K' ++ K).
Qed.

(** An object that has ended keeps nothing. *)
Definition ended (u : userdata) : bool := match u with UConn _ => true | UCursor c => cur_closed c | UStmt s => negb (my_stmt s) end.
Lemma heap_refs_elem h r : r ∈ heap_refs h -> exists p u, h !! p = Some u /\ r ∈ refs_of u.
Proof.
  unfold heap_refs. intros Hr. apply list_elem_of_In, in_concat in Hr as (l & Hl & Hr). apply in_map_iff in Hl as ([p u] & <- & Hx).
  apply list_elem_of_In, elem_of_map_to_list in Hx. apply list_elem_of_In in Hr. by exists p, u.
Qed.

(** C36: Under the conditions of [admitted] (see [mariadb_safe]), and when no closing of a statement fails at once ([op_lossless]; such a failure leaves its table in the
    registry for ever): once nothing waits and no wait was refused, the registry has the tables of the cursors and statements that are open, and nothing else; when all
    of those are closed it is empty. *)
Theorem mariadb_released ops : admitted ops mariadb_start -> Forall op_lossless ops -> returns (hrun ops mariadb_start) (fun w =>
  w_bags w = ∅ -> w_refused w = [] ->
  (forall r, is_Some (w_reg w !! r) <-> exists p u, w_heap w !! p = Some u /\ r ∈ own_refs u /\ ended u = false) /\
  ((forall p u, w_heap w !! p = Some u -> ended u = true) -> w_reg w = ∅)).
Proof.
  intros Ha Hl. eapply returns_mono; [by apply (db_hrun_ok ∅ [] ops _ db_start_ok)|]. intros w (K & Hm & HK) Eb Er. rewrite (HK Hl) in Hm. cbn [app] in Hm.
  pose proof (mi_refs _ _ _ _ _ Hm) as Hh. cbn [live] in Hh. rewrite Eb, Er in Hh. unfold bag_refs, refused_refs in Hh. rewrite map_to_list_empty in Hh. cbn in Hh. rewrite app_nil_r in Hh.
  assert (Hiff : forall r, is_Some (w_reg w !! r) <-> exists p u, w_heap w !! p = Some u /\ r ∈ own_refs u /\ ended u = false).
  { intros r. split.
    - intros Hr. destruct (decide (r ∈ heap_refs (w_heap w))) as [Hin|Hn]; [|rewrite (hl_rest _ _ _ Hh r Hn), lookup_empty in Hr; by destruct Hr].
      destruct (heap_refs_elem _ _ Hin) as (p & u & Hp & Hru). exists p, u. split; [done|]. pose proof (mi_anchors _ _ _ _ _ Hm p u Hp) as Hanch.
      cbn [live] in Hanch. rewrite Eb, Er in Hanch. unfold waiting in Hanch. rewrite map_to_list_empty in Hanch. unfold anchor_ok in Hanch. unfold refs_of in Hru.
      destruct (coref (co_of u)) as [x|]; [destruct Hanch as [Hanch _]; cbn in Hanch; lia|]. cbn in Hru. split; [done|].
      pose proof (mi_users _ _ _ _ _ Hm p u Hp) as Hu. destruct u as [d|c|s]; [by apply elem_of_nil in Hru| |]; cbn in Hu |- *.
      + destruct Hu as (_ & U2 & _). destruct (cur_closed c); [|done]. specialize (U2 eq_refl). unfold own_refs in Hru. rewrite U2 in Hru. by apply elem_of_nil in Hru.
      + destruct Hu as (_ & _ & U3 & _). destruct (my_stmt s); [done|]. unfold own_refs in Hru. rewrite U3 in Hru by done. by apply elem_of_nil in Hru.
    - intros (p & u & Hp & Hru & _). apply (hl_own _ _ _ Hh). apply (heap_refs_in _ p u); [done|]. apply elem_of_app. by right. }
  split; [done|]. intros He. apply map_eq. intros r. rewrite lookup_empty. destruct (w_reg w !! r) eqn:Ex; [|done].
  destruct (proj1 (Hiff r)) as (p & u & Hp & _ & Hend); [by eexists|]. pose proof (He p u Hp). congruence.
Qed.

(** *** Answers *)



(** *** A wait that is lost *)

(** No call of a coroutine. *)
Definition not_by (L : positive) (o : hop) : Prop := match o with HCall q => rq_L q <> L | HFire _ _ script => Forall (fun q => rq_L q <> L) script end.
Definition stranded (L p : positive) w : Prop := (exists x, x ∈ w_refused w /\ rf_L x = L /\ obj_of (rf_data x) = p) /\ forall b bag, w_bags w !! b = Some bag -> bg_L bag <> L.
Definition resumptions (L : positive) w : list (positive * list result) := filter (fun x => x.1 = L) (w_resumed w).
Lemma hexec_stranded o w L p : mariadb_ok w -> hop_ok o w -> not_by L o -> stranded L p w ->
  returns (hexec o w) (fun w' => mariadb_ok w' /\ stranded L p w' /\ resumptions L w' = resumptions L w).
Proof.
  intros [K Hm] Ho Hn [(x & Hx & Ex) Hb]. destruct o as [q|b a script]; cbn [hexec not_by] in *.
  - pose proof (exec_call_ok ∅ K None q w Hm Ho) as Hr. apply returns_inv in Hr as ([r w1] & -> & K1 & Hm1 & Hr & _). cbn [fst snd mbind outcome_bind returns] in *.
    destruct (reacted_later _ _ _ _ _ Hr) as [[_ Hnew Href] E]. split; [by exists (K1 ++ K)|]. split; [|unfold resumptions; by rewrite E].
    split; [exists x; auto|]. intros b bag Hbag. destruct (Hnew b bag Hbag) as [Hold|<-]; [by apply (Hb b)|done].
  - destruct (fire_ok ∅ K b a script w Hm Ho) as (bag & Hbag & Hf). eapply returns_mono; [exact Hf|]. intros w' [(K1 & Hm1 & _) [F1 F2 F3 F4 F5]]. split; [by exists (K1 ++ K)|].
    assert (Hne : bg_L bag <> L) by (by apply (Hb b)). split.
    + split; [exists x; auto|]. intros b' bag' Hb'. destruct (F3 b' bag' Hb') as [Hold|[->|Hw]]; [by apply (Hb b')|done|]. unfold callers in Hw.
      apply list_elem_of_In, in_map_iff in Hw as (q & <- & Hq). rewrite Forall_forall in Hn. by apply Hn, list_elem_of_In.
    + unfold resumptions. destruct F5 as [[rs ->]|[-> _]]; [|done]. rewrite filter_app, filter_cons_False by done. by rewrite filter_nil, app_nil_r.
Qed.
Lemma hrun_stranded l : forall w L p, mariadb_ok w -> admitted l w -> Forall (not_by L) l -> stranded L p w ->
  returns (hrun l w) (fun w' => mariadb_ok w' /\ stranded L p w' /\ resumptions L w' = resumptions L w).
Proof.
  induction l as [|o l IH]; intros w L p Hk Ha Hn Hs; [done|]. destruct Ha as [Ho Ha]. apply Forall_cons in Hn as [Hno Hn]. cbn [hrun].
  pose proof (hexec_stranded o w L p Hk Ho Hno Hs) as Hx. apply returns_inv in Hx as (w1 & E1 & Hk1 & Hs1 & Er1). rewrite E1. cbn [mbind outcome_bind].
  eapply returns_mono; [by apply (IH w1 L p Hk1); [apply Ha| |]|]. intros w2 (H1 & H2 & H3). by rewrite <- Er1.
Qed.

(** C39: A [close] of a connection that has to wait is lost, whatever the library does next: the connection is marked closed before it waits, and no wait is taken on a
    closed connection.  The coroutine yields without an event, nothing that is admitted later resumes it, and the registry keeps it for ever. *)
Theorem mariadb_close_lost L p a w d : mariadb_ok w -> call_ok None (mk_req L (KClose p) a) w -> w_heap w !! p = Some (UConn d) -> db_closed d = false -> a_status a <> 0 ->
  (forall b bag, w_bags w !! b = Some bag -> bg_L bag <> L) ->
  returns (exec_call (mk_req L (KClose p) a) w) (fun '(r, w1) => r = AYield /\ w_bags w1 = w_bags w /\ w_resumed w1 = w_resumed w /\
    forall ops, admitted ops w1 -> Forall (not_by L) ops -> returns (hrun ops w1) (fun w2 =>
      resumptions L w2 = resumptions L w /\ (exists r, w_reg w2 !! r = Some (RvThread L)) /\ L ∉ map bg_L (map snd (map_to_list (w_bags w2))))).
Proof.
  intros [K Hm] Hq Hp Hcl Hst Hb. pose proof (exec_call_ok ∅ K None _ w Hm Hq) as Hx. destruct Hq as [Hal [Hr Hqu]]. cbn [rq_L rq_call] in *.
  apply returns_inv in Hx as ([r w1] & E1 & K1 & Hm1 & _). rewrite E1. cbn [returns]. cbn [snd] in Hm1. unfold exec_call, conn_close_start, object_at in E1. cbn [rq_L rq_call rq_answer] in E1.
  rewrite Hp in E1. cbn [mbind outcome_bind] in E1. rewrite Hcl in E1. unfold conn_close_now in E1. rewrite (open_conn_ok ∅ K None p d) in E1 by done. cbn [mbind outcome_bind] in E1.
  assert (Hst' : c_true (a_status a) = true) by (unfold c_true; by destruct (Z.eqb_spec (a_status a) 0)). rewrite Hst' in E1. set (w0 := send _ _) in E1.
  set (d' := mk_db true MyClosing (db_co d)) in w0. assert (Hp0 : w_heap w0 !! p = Some (UConn d')) by (apply lookup_insert_eq). rewrite (REF_CO_eq _ _ _ _ Hp0) in E1. cbn [mbind outcome_bind] in E1.
  unfold wait_for_status, conn_at in E1. cbn [w_heap put set_heap set_reg] in E1. rewrite lookup_insert_eq in E1. cbn in E1.
  match type of E1 with Ret ?x = Ret ?y => assert (Ew : y = x) by congruence end. injection Ew as -> Ew. split; [done|]. split; [by rewrite Ew|]. split; [by rewrite Ew|].
  intros ops Ha Hn. assert (Hs : stranded L p w1).
  { split; [|by rewrite Ew]. exists (mk_refusal L (DMysql p) None). split; [|done]. rewrite Ew. cbn. apply elem_of_app. right. by left. }
  assert (Er : resumptions L w1 = resumptions L w) by (unfold resumptions; by rewrite Ew). clear E1 Ew.
  eapply returns_mono; [by apply (hrun_stranded ops w1 L p); [exists (K1 ++ K)| | |]|]. intros w2 ([K2 Hm2] & [(x & Hx & EL & Eo) Hb2] & E2). split; [congruence|]. split.
  - destruct (mi_lost _ _ _ _ _ Hm2 x Hx) as (u & r & _ & _ & Hreg). exists r. by rewrite <- EL.
  - intros Hin. apply list_elem_of_In, in_map_iff in Hin as (bag & EL' & Hin). apply in_map_iff in Hin as ([b bag'] & <- & Hin). apply list_elem_of_In, elem_of_map_to_list in Hin.
    by apply (Hb2 b bag').
Qed.
End Props.

(** ** Concrete runs *)

#[local] Existing Instance plain_lua.
Definition no_set : result_set := mk_set None 0 0 0 [].
Definition id_field : MYSQL_FIELD := mk_field (lit "id") MYSQL_TYPE_LONG 11.
(** What a call waits for, what it gives, what freeing waits for. *)
Definition reply (status ret free : Z) : answer :=
  mk_answer 0 status ret 0 [] true (mk_set (Some [id_field]) 1 0 0 []) [] 0 (Some [id_field]) 0 false None free [mk_column false (CBytes (le_bytes 8 7)) 8].
Definition at_once : answer := reply 0 0 0.
Definition waits : answer := reply MYSQL_WAIT_READ 0 0.
Definition ask (c : call) (a : answer) : hop := HCall (mk_req 9 c a).
Definition start_run (l : list hop) : outcome world := hrun l mariadb_start.
Definition connected : list hop := [ask (KConnect [LStr (lit "db")]) at_once].
Definition with_cursor_open : list hop := connected ++ [ask (KQuery 1 (LStr (lit "select"))) at_once].
Definition with_statement_open : list hop := connected ++ [ask (KPrepare 1 (LStr (lit "select"))) at_once].

(** What goes wrong otherwise.  On a connection that is closed while a query waits, or a commit is under way, the event finds a [MYSQL] that is gone; a second
    coroutine that waits on the same connection is not kept, and may have been collected when it is resumed; a result whose freeing waits twice is taken for a cursor; a
    connection that is collected before its statement, a statement that is collected and has to wait, and one that is closed under a waiting operation are used
    after they are gone; a statement is used after its connection is closed. *)
Example mariadb_misuse :
  start_run (connected ++ [ask (KQuery 1 (LStr (lit "select"))) waits; HCall (mk_req 8 (KClose 1) at_once); HFire 1 at_once []]) = UB /\
  start_run (connected ++ [ask (KPing 1) waits; HCall (mk_req 8 (KPing 1) waits); HCall (mk_req 7 (KReap 8) at_once); HFire 2 at_once []]) = UB /\
  start_run (with_cursor_open ++ [ask (KCursorClose 2) (reply 0 0 1); HFire 1 waits []; HFire 2 at_once []]) = UB /\
  start_run (with_statement_open ++ [ask (KCollect 1) at_once; ask (KExecute 2) waits]) = UB /\
  start_run (with_statement_open ++ [ask (KCollect 2) waits; HFire 1 at_once []]) = UB /\
  start_run (with_statement_open ++ [ask (KExecute 2) waits; HCall (mk_req 8 (KStmtClose 2) at_once); HFire 1 at_once []]) = UB /\
  start_run (with_statement_open ++ [ask (KClose 1) at_once; ask (KExecute 2) at_once]) = UB.
Proof. refine (conj _ (conj _ (conj _ (conj _ (conj _ (conj _ _)))))); vm_compute; reflexivity. Qed.
(** A script that fetches past the last row gets true where it would get nil when freeing the result waits; fetching past the last row of a statement gives an error when it
    waits, and nothing when it does not; without memory a wait is not taken; an event that waits for neither reading nor writing nor time never comes. *)
Example mariadb_errors :
  returns (start_run (with_cursor_open ++ [ask (KRow 2) waits; HFire 1 (reply 0 0 1) []; HFire 2 at_once []])) (fun w => w_resumed w = [(9%positive, [RVal (LBool true)])]) /\
  returns (start_run (with_statement_open ++ [ask (KFetch 2) waits; HFire 1 (reply 0 MYSQL_NO_DATA 0) []]))
    (fun w => w_resumed w = [(9%positive, [RVal LNil; RVal (LStr (lit "stmt_error: 0: "))])]) /\
  returns (start_run with_statement_open) (fun w => exec_call (mk_req 9 (KFetch 2) (reply 0 MYSQL_NO_DATA 0)) w = Ret (AReturn [], send (McFetch 2) w)) /\
  returns (start_run (connected ++ [ask (KPing 1) (mk_answer 0 MYSQL_WAIT_READ 0 0 [] false no_set [] 0 None 0 false None 0 [])]))
    (fun w => w_bags w = ∅ /\ map rf_L (w_refused w) = [9%positive]) /\
  can_fire (event_for 4) = false.
Proof. refine (conj _ (conj _ (conj _ (conj _ _)))); vm_compute; repeat split. Qed.

Definition nxt (o : hop) (w : world) : world := match hexec o w with Ret w' => w' | _ => w end.
Lemma db_admitted_cons o ops w : hop_ok o w -> admitted ops (nxt o w) -> admitted ops (nxt o w) /\ admitted (o :: ops) w.
Proof. intros Ho Ha. split; [done|]. split; [done|]. intros w' E. unfold nxt in Ha. by rewrite E in Ha. Qed.
Definition quietb (p : positive) (m : gmap positive DB_STATUS) : bool := bool_decide (map_Forall (fun _ bag => bg_ctx bag <> p) m).
Lemma quietb_quiet p m : quietb p m = true -> quiet p m.
Proof. intros Hi%bool_decide_eq_true b bag Hb. exact (Hi b bag Hb). Qed.
Lemma present_in (w : world) p : match w_heap w !! p with Some _ => true | None => false end = true -> is_Some (w_heap w !! p).
Proof. destruct (w_heap w !! p); [by eexists|done]. Qed.
Definition restb (p : positive) (w : world) : bool := match w_heap w !! p with Some u => match coref (co_of u) with None => true | Some _ => false end | None => false end.
Lemma restb_rest p w : restb p w = true -> at_rest p w.
Proof. unfold restb, at_rest. destruct (w_heap w !! p) as [u|]; [|done]. destruct (coref (co_of u)) eqn:E; [done|]. by exists u. Qed.
Definition openb (w : world) (c : positive) : bool := match w_heap w !! c with Some (UConn d) => negb (db_closed d) && match my_conn d with MyOpen => true | _ => false end | _ => false end.
Lemma openb_open w c : openb w c = true -> conn_open (w_heap w) c.
Proof.
  unfold openb, conn_open. destruct (w_heap w !! c) as [[d| |]|]; try done. intros [H1%negb_true_iff H2]%andb_true_iff. exists d. split; [done|]. split; [done|]. by destruct (my_conn d).
Qed.
Lemma ready_conn cur p w : restb p w && quietb p (live cur w) = true -> conn_ready cur p w.
Proof. intros [H1 H2]%andb_true_iff. split; [by apply restb_rest|by apply quietb_quiet]. Qed.
Definition stmt_readyb (cur : option positive) (p : positive) (w : world) : bool :=
  restb p w && match w_heap w !! p with Some (UStmt s) => openb w (st_ctx s) && quietb (st_ctx s) (live cur w) | _ => false end.
Lemma ready_stmt cur p w : stmt_readyb cur p w = true -> stmt_ready cur p w.
Proof.
  intros [H1 H2]%andb_true_iff. split; [by apply restb_rest|]. intros s Hs _. rewrite Hs in H2. apply andb_true_iff in H2 as [H2 H3]. split; [by apply openb_open|by apply quietb_quiet].
Qed.
Lemma alive_in L w : bool_decide (L ∈ w_dead w) = false -> L ∉ w_dead w.
Proof. by intros Hd%bool_decide_eq_false. Qed.

Lemma executed_first a p w : (forall s, w_heap w !! p = Some (UStmt s) -> st_rcols s = None) -> executed a p w.
Proof. intros Hr s fields Hs _ cs Hc. by rewrite (Hr s Hs) in Hc. Qed.
Definition rcols_at (w : world) (p : positive) : option (option columns) := match w_heap w !! p with Some (UStmt s) => Some (st_rcols s) | _ => None end.
Lemma rcols_none w p s : rcols_at w p = Some None -> w_heap w !! p = Some (UStmt s) -> st_rcols s = None.
Proof. unfold rcols_at. intros Hr Hs. rewrite Hs in Hr. by injection Hr. Qed.
Definition bound_at (w : world) (p : positive) : option (option (list MYSQL_BIND)) := match w_heap w !! p with Some (UStmt s) => Some (sb_bound (st_params s)) | _ => None end.
Lemma params_none w p s : bound_at w p = Some None -> w_heap w !! p = Some (UStmt s) -> returns (sent_params (st_params s)) (fun _ => True).
Proof. unfold bound_at, sent_params. intros Hr Hs. rewrite Hs in Hr. injection Hr as ->. done. Qed.
Lemma fetched_id a p w : a_meta a = Some [id_field] -> a_cols a = [mk_column false (CBytes (le_bytes 8 7)) 8] -> 
  (exists cs, rcols_at w p = Some (Some cs) /\ col_count cs = 1%nat) -> fetched a p w.
Proof.
  intros Em Ec (cs & Hr & Hn). exists [id_field], [EInt 7]. split; [done|]. rewrite Ec. split; [repeat constructor|]. split; [repeat constructor|].
  intros s cs' Hs Hc. unfold rcols_at in Hr. rewrite Hs, Hc in Hr. injection Hr as ->. cbn. lia.
Qed.

Definition select : lua_value := LStr (lit "select").
Definition fetch_request : request := mk_req 9 (KFetch 2) at_once.
Definition collector (L : positive) : hop := HCall (mk_req 7 (KReap L) at_once).
Definition one_run : list hop :=
  [ask (KConnect [LStr (lit "db")]) waits; collector 8; HFire 1 at_once []; ask (KPrepare 1 select) at_once; ask (KExecute 2) waits; collector 9;
   HFire 1 at_once [fetch_request]; ask (KStmtClose 2) at_once; ask (KClose 1) at_once].
Ltac step := refine (proj2 (db_admitted_cons _ _ _ _ _)).
Ltac alive := split; [apply alive_in; vm_compute; reflexivity|].
Ltac at_hand := apply present_in; vm_compute; reflexivity.
Lemma one_run_admitted : admitted one_run mariadb_start.
Proof.
  unfold one_run. step; [by alive|]. step; [alive; by intros|]. step.
  { vm_compute nxt. eexists. split; [vm_compute; reflexivity|]. split; [reflexivity|]. split; [exact I|]. intros; exact I. }
  step; [alive; split; [at_hand|apply quietb_quiet; vm_compute; reflexivity]|]. step.
  { alive. split; [apply ready_stmt; vm_compute; reflexivity|]. split; [intros s; apply params_none; vm_compute; reflexivity|]. intros E; vm_compute in E; discriminate. }
  step; [alive; by intros|]. step.
  { eexists. split; [vm_compute; reflexivity|]. split; [reflexivity|]. split.
    - intros _ _ _. apply executed_first. intros s. apply rcols_none. vm_compute. reflexivity.
    - intros w1 E. vm_compute in E. injection E as <-. split; [|intros; exact I]. alive. split; [apply ready_stmt; vm_compute; reflexivity|].
      intros _ _. apply fetched_id; [reflexivity|reflexivity|]. eexists. split; [vm_compute; reflexivity|reflexivity]. }
  step.
  { alive. split; [apply restb_rest; vm_compute; reflexivity|]. intros s Hs _. vm_compute in Hs. injection Hs as <-.
    split; [left; apply openb_open; vm_compute; reflexivity|apply quietb_quiet; vm_compute; reflexivity]. }
  step; [alive; apply ready_conn; vm_compute; reflexivity|exact I].
Qed.
Lemma one_run_lossless : Forall op_lossless one_run.
Proof. repeat (apply Forall_cons; split); try apply Forall_nil; unfold op_lossless; cbn; repeat (apply Forall_cons; split); try apply Forall_nil; by intros. Qed.

Lemma mariadb_safe_witness : returns (start_run one_run) (fun w => forall o, hop_ok o w -> returns (hexec o w) mariadb_ok).
Proof. eapply returns_mono; [exact (mariadb_safe one_run one_run_admitted)|]. intros w X. exact (proj2 (proj2 X)). Defined.
Lemma mariadb_released_witness : returns (start_run one_run) (fun w => w_bags w = ∅ -> w_refused w = [] -> (forall p u, w_heap w !! p = Some u -> ended u = true) -> w_reg w = ∅).
Proof. eapply returns_mono; [exact (mariadb_released one_run one_run_admitted one_run_lossless)|]. intros w X Hb Hr. exact (proj2 (X Hb Hr)). Defined.

Definition world_of (l : list hop) : world := match start_run l with Ret w => w | _ => mariadb_start end.
Lemma connected_ok : mariadb_ok (world_of connected).
Proof.
  assert (Ha : admitted connected mariadb_start) by (unfold connected; step; [by alive|exact I]).
  destruct (returns_inv _ _ (db_hrun_ok ∅ [] connected _ db_start_ok Ha)) as (w & E & K & Hm & _). exists K. unfold world_of, start_run. rewrite E. by rewrite app_nil_r in Hm.
Qed.
Definition closing : answer := reply MYSQL_WAIT_WRITE 0 0.
Lemma mariadb_close_lost_witness : returns (exec_call (mk_req 9 (KClose 1) closing) (world_of connected)) (fun '(r, w1) => r = AYield /\
  returns (hrun [HCall (mk_req 8 (KConnect [LStr (lit "db")]) waits)] w1) (fun w2 => resumptions 9 w2 = [])).
Proof.
  assert (Hq : call_ok None (mk_req 9 (KClose 1) closing) (world_of connected)) by (alive; apply ready_conn; vm_compute; reflexivity).
  assert (Hd : exists d, w_heap (world_of connected) !! 1%positive = Some (UConn d) /\ db_closed d = false) by (vm_compute; by eexists). destruct Hd as (d & Hd & Hc).
  pose proof (mariadb_close_lost 9 1 closing (world_of connected) d connected_ok Hq Hd Hc ltac:(discriminate) ltac:(intros b bag Hb; vm_compute in Hb; destruct b; discriminate)) as X.
  destruct (exec_call _ _) as [[r w1]| |] eqn:E; [|destruct X|destruct X]. destruct X as (Hr & _ & _ & X). split; [exact Hr|]. cbn [returns].
  assert (Ha : admitted [HCall (mk_req 8 (KConnect [LStr (lit "db")]) waits)] w1).
  { step; [|exact I]. split; [|exact I]. apply alive_in. vm_compute in E. injection E as _ <-. vm_compute. reflexivity. }
  pose proof (X _ Ha ltac:(by repeat constructor)) as Y. eapply returns_mono; [exact Y|]. intros w2 (H2 & _). rewrite H2. vm_compute. reflexivity.
Defined.
