(* ===== verification/MariadbSame.v ===== *)
(** * The database bindings: waiting makes no difference

    An operation that had to wait, once or many times, resumes its coroutine with what it
    would have returned at once.  The exceptions: a connection whose closing waits
    ([mariadb_close_lost]), the last row of a statement, and the last row of a cursor when
    freeing the result waits ([mariadb_errors]). *)

From S2P Require Import Prelude Lua Double Holds MariadbData Mariadb MariadbLife MariadbSteps MariadbProps.

Section Same.
Context `{LuaAPI}.
Implicit Type w : world.

(** The results of an operation are those of the answer, and name new objects. *)
Definition determined (fin : answer -> positive -> world -> outcome (list result * world)) (a : answer) : Prop :=
  forall p w v rs rs' w' v', dom (w_heap w) = dom (w_heap v) -> fin a p w = Ret (rs, w') -> fin a p v = Ret (rs', v') -> rs = rs' /\ w_resumed v' = w_resumed v.
Lemma done_determined a : determined done_result a.
Proof. intros p w v rs rs' w' v' _ [= <- <-] [= <- <-]. done. Qed.
Lemma create_cursor_same c fields w v : dom (w_heap w) = dom (w_heap v) ->
  (create_cursor c fields w).1 = (create_cursor c fields v).1 /\ dom (w_heap (create_cursor c fields w).2) = dom (w_heap (create_cursor c fields v).2) /\
  w_resumed (create_cursor c fields v).2 = w_resumed v.
Proof. intros E. unfold create_cursor, new_object. cbn. rewrite E, !dom_insert_L, E. done. Qed.
Lemma next_set_same c r w v : dom (w_heap w) = dom (w_heap v) ->
  (next_set c r w).1 = (next_set c r v).1 /\ dom (w_heap (next_set c r w).2) = dom (w_heap (next_set c r v).2) /\ w_resumed (next_set c r v).2 = w_resumed v.
Proof.
  intros E. unfold next_set. destruct (rs_res r) as [fields|].
  - destruct (create_cursor_same c fields w v E) as (E1 & E2 & E3). destruct (create_cursor c fields w), (create_cursor c fields v). cbn in *. by rewrite E1.
  - by destruct (rs_cols r =? 0).
Qed.
Lemma more_sets_same c l : forall w v, dom (w_heap w) = dom (w_heap v) -> (more_sets c l w).1 = (more_sets c l v).1 /\ w_resumed (more_sets c l v).2 = w_resumed v.
Proof.
  induction l as [|[n r] l IH]; intros w v E; [done|]. cbn [more_sets]. destruct (n =? 0); [|done].
  destruct (next_set_same c r w v E) as (E1 & E2 & E3). destruct (next_set c r w) as [[rs stop] w1], (next_set c r v) as [[rs' stop'] v1]. cbn [fst snd] in *. injection E1 as -> ->.
  destruct stop'; [done|]. destruct (IH w1 v1 E2) as [E4 E5]. destruct (more_sets c l w1), (more_sets c l v1). cbn in *. by rewrite E4, E5.
Qed.
Lemma query_determined a : determined real_query_result a.
Proof.
  intros p w v rs rs' w' v' E. unfold real_query_result. destruct (rs_res (a_set a)) as [fields|].
  - destruct (create_cursor_same p fields w v E) as (E1 & E2 & E3). destruct (create_cursor p fields w) as [q w1], (create_cursor p fields v) as [q' v1]. cbn [fst snd] in *. subst q'.
    destruct (more_sets_same p (a_more a) w1 v1 E2) as [E4 E5]. destruct (more_sets p (a_more a) w1), (more_sets p (a_more a) v1). cbn [fst snd] in *.
    intros [= <- <-] [= <- <-]. split; congruence.
  - destruct (rs_cols (a_set a) =? 0); [|by intros [= <- <-] [= <- <-]]. destruct (more_sets_same p (a_more a) w v E) as [E4 E5].
    destruct (more_sets p (a_more a) w), (more_sets p (a_more a) v). cbn [fst snd] in *. intros [= <- <-] [= <- <-]. split; congruence.
Qed.
Lemma execute_determined a : determined stmt_execute_result a.
Proof.
  intros p w v rs rs' w' v' _ H1 H2. apply bind_ret in H1 as (s & _ & H1), H2 as (s' & _ & H2). destruct (a_meta a) as [fields|].
  - apply bind_ret in H1 as ([] & _ & H1), H2 as ([] & _ & H2). apply bind_ret in H1 as (cs & _ & H1), H2 as (cs' & _ & H2). injection H1 as <- <-. injection H2 as <- <-. done.
  - injection H1 as <- <-. by injection H2 as <- <-.
Qed.
Lemma fetch_determined a : determined stmt_fetch_result a.
Proof.
  intros p w v rs rs' w' v' _ H1 H2. apply bind_ret in H1 as (s & _ & H1), H2 as (s' & _ & H2). destruct (a_meta a) as [fields|]; [|done].
  apply bind_ret in H1 as ([] & _ & H1), H2 as ([] & _ & H2). apply bind_ret in H1 as (cs & _ & H1), H2 as (cs' & _ & H2).
  apply bind_ret in H1 as (row & Er & H1), H2 as (row' & Er' & H2). injection H1 as <- <-. injection H2 as <- <-. split; [congruence|done].
Qed.

(** The event a call made. *)
Lemma insert_fresh_inj (m : gmap positive DB_STATUS) b b' bag bag' : m !! b = None -> m !! b' = None -> <[b := bag]> m = <[b' := bag']> m -> b = b' /\ bag = bag'.
Proof.
  intros Hb Hb' E. assert (Hx : <[b' := bag']> m !! b = Some bag) by (rewrite <- E; apply lookup_insert_eq). destruct (decide (b' = b)) as [->|Hn].
  - rewrite lookup_insert_eq in Hx. split; congruence.
  - rewrite lookup_insert_ne in Hx by done. congruence.
Qed.
(** What a wait leaves as it was. *)
Record undisturbed w w' : Prop := {
  un_dom : dom (w_heap w') = dom (w_heap w);
  un_resumed : w_resumed w' = w_resumed w;
  un_reg : forall r v, w_reg w !! r = Some v -> w_reg w' !! r = Some v;
  un_cursor : forall p u, w_heap w !! p = Some (UCursor u) -> exists u', w_heap w' !! p = Some (UCursor u') /\ cur_fields u' = cur_fields u
}.
Lemma REF_CO_frame L p w w' : REF_CO L p w = Ret w' -> w_bags w' = w_bags w /\ undisturbed w w'.
Proof.
  intros E. destruct (w_heap w !! p) as [u|] eqn:Hp; [|unfold REF_CO, object_at in E; by rewrite Hp in E]. rewrite (REF_CO_eq _ _ _ u Hp) in E.
  match type of E with Ret ?x = Ret ?y => assert (E2 : y = x) by congruence end. rewrite E2. split; [done|]. constructor; [|done| |].
  - cbn. by rewrite dom_insert_lookup_L by (by eexists).
  - intros r v Hr. by apply co_up_kept.
  - intros q c Hq. cbn. destruct (decide (p = q)) as [->|Hn]; [|exists c; by rewrite lookup_insert_ne]. rewrite Hp in Hq. injection Hq as ->. rewrite lookup_insert_eq. by eexists.
Qed.
Lemma UNREF_CO_resumed p w w' : UNREF_CO p w = Ret w' -> w_resumed w' = w_resumed w.
Proof.
  unfold UNREF_CO, unref. intros (u & _ & E)%bind_ret. destruct (coref (co_of u)); [|congruence]. destruct (_ =? 0).
  - apply bind_ret in E as (w2 & (reg & _ & E2)%bind_ret & E). injection E2 as <-. by injection E as <-.
  - by injection E as <-.
Qed.
Lemma resume_with_log L p rs w x w' : resume_with L p rs w = Ret (x, w') -> x = true /\ w_resumed w' = w_resumed w ++ [(L, rs)].
Proof. intros (? & _ & (w1 & E & E')%bind_ret)%bind_ret. injection E' as <- <-. split; [done|]. cbn. by rewrite (UNREF_CO_resumed _ _ _ E). Qed.
Lemma wait_frame L c data status cb extra mem w w' : wait_for_status L (Some c) data status cb extra mem w = Ret w' -> w_heap w' = w_heap w /\ w_resumed w' = w_resumed w /\ w_reg w' = w_reg w /\
  (w_bags w' = w_bags w \/ w_bags w' = <[fresh (dom (w_bags w)) := mk_bag L data status (event_for status) c extra cb]> (w_bags w)).
Proof. cbn. intros (d & _ & E)%bind_ret. destruct (db_closed d || negb mem); injection E as <-; auto. Qed.
(** A call that waits: the counted reference, then the wait. *)
Definition wait_start (L p c : positive) (data : cbdata) (status : Z) (cb : callback) (extra : option positive) (mem : bool) (w : world) : outcome (reaction * world) :=
  w' ← REF_CO L p w; w'' ← wait_for_status L (Some c) data status cb extra mem w'; Ret (AYield, w'').
Lemma wait_start_bag L p c data status cb extra mem w0 w r w' b bag : wait_start L p c data status cb extra mem w = Ret (r, w') -> w_bags w = w_bags w0 -> w_bags w0 !! b = None ->
  w_bags w' = <[b := bag]> (w_bags w0) -> bag = mk_bag L data status (event_for status) c extra cb /\ undisturbed w w'.
Proof.
  intros E Ew Hb Eb. apply bind_ret in E as (w1 & E1 & E). apply bind_ret in E as (w2 & E2 & E). injection E as <- <-. destruct (REF_CO_frame _ _ _ _ E1) as (F1 & [F2 F3 F3' F3'']).
  destruct (wait_frame _ _ _ _ _ _ _ _ _ E2) as (F4 & F5 & F5' & F6). split; [|constructor; [congruence|congruence|intros r v; rewrite F5'; apply F3'|intros q u; rewrite F4; apply F3'']].
  rewrite F1, Ew in F6. destruct F6 as [F6|F6]; rewrite F6 in Eb.
  - assert (Hx : w_bags w0 !! b = Some bag) by (rewrite Eb; apply lookup_insert_eq). congruence.
  - assert (Hf : w_bags w0 !! fresh (dom (w_bags w0)) = None) by (apply not_elem_of_dom, is_fresh). exact (proj2 (insert_fresh_inj _ _ _ _ _ Hb Hf (eq_sym Eb))).
Qed.

(** ** One operation, both ways *)

(** The same wait, later: what it waits for, its event and the connection it is counted on may differ. *)
Definition rewait (st : Z) (ev : event) (c : positive) (bag : DB_STATUS) : DB_STATUS := mk_bag (bg_L bag) (bg_data bag) st ev c (bg_extra bag) (bg_callback bag).
(** A world that differs in the waits alone. *)
Record only_waits w w' : Prop := { ow_heap : w_heap w' = w_heap w; ow_reg : w_reg w' = w_reg w; ow_resumed : w_resumed w' = w_resumed w }.
(** The event of the second call of [w], now or after others have come, resumes [L] with [rs]. *)
Definition resumes_alike (a : answer) (L : positive) (rs : list result) w (w1 : world) : Prop :=
  forall b bag, w_bags w !! b = None -> w_bags w1 = <[b := bag]> (w_bags w) -> forall wn st ev c, only_waits w1 wn -> forall x w2,
    call_back (rewait st ev c bag) a wn = Ret (x, w2) -> x = true /\ w_resumed w2 = w_resumed w ++ [(L, rs)].
Lemma undisturbed_later w w1 wn : undisturbed w w1 -> only_waits w1 wn -> undisturbed w wn.
Proof. intros [U1 U2 U3 U4] [E1 E2 E3]. constructor; rewrite ?E1, ?E2, ?E3; auto. Qed.
(** Nothing went wrong before, and there is nothing to wait for. *)
Definition at_last (a : answer) : Prop := a_errno0 a = 0 /\ a_status a = 0 /\ a_free a = 0.

Lemma with_object_both {A B} (o : outcome (option A * list Z)) (arg : outcome B) w f g rs v w1 :
  with_object o arg w f = Ret (AReturn rs, v) -> with_object o arg w g = Ret (AYield, w1) -> exists x y, f x y = Ret (AReturn rs, v) /\ g x y = Ret (AYield, w1).
Proof.
  unfold with_object. intros ([x m] & -> & E)%bind_ret. destruct x as [x|]; [|done]. destruct arg as [y| |]; try done. cbn [mbind outcome_bind]. by exists x, y.
Qed.

Lemma conn_alike L p what cb checks fin a a' w rs v w1 : determined fin a -> at_last a -> (forall bag, bg_callback bag = cb -> call_back bag a = conn_event bag a checks fin) ->
  conn_start L p what cb fin a w = Ret (AReturn rs, v) -> conn_start L p what cb fin a' w = Ret (AYield, w1) -> resumes_alike a L rs w w1.
Proof.
  intros Hd (E0 & Es & _) Hcb H1 H2 b bag Hb Eb wn st ev c0 How x w2 H3. unfold conn_start in H1, H2. apply bind_ret in H1 as ([] & _ & H1), H2 as ([] & _ & H2). rewrite Es in H1. cbn [c_true] in H1. change (negb (0 =? 0)) with false in H1. cbv iota zeta in H1, H2.
  destruct (c_true (a_status a')) eqn:Es'.
  2:{ destruct (a_ret a' =? 0); [|done]. apply bind_ret in H2 as ([rs' w'] & _ & H2). done. }
  destruct (wait_start_bag _ _ _ _ _ _ _ _ w _ _ _ b bag H2 eq_refl Hb Eb) as (-> & Hun); destruct (undisturbed_later _ _ _ Hun How) as [U1 U2 U3 U4]. rewrite Hcb in H3 by done. unfold conn_event in H3. cbn [rewait bg_data bg_L bg_ctx] in H3.
  apply bind_ret in H3 as (d & _ & H3). rewrite E0, Es in H3. change (c_true 0) with false in H3. rewrite andb_false_r in H3. cbv iota in H3.
  destruct (a_ret a =? 0).
  - apply bind_ret in H1 as ([rs1 v1] & F1 & H1). injection H1 as -> ->. apply bind_ret in H3 as ([rs2 w3] & F2 & H3). apply resume_with_log in H3 as [Hx Hr]. split; [done|].
    destruct (Hd p _ _ _ _ _ _ (eq_sym U1) F1 F2) as [-> Er]. rewrite Hr, Er, U2. done.
  - injection H1 as <- <-. apply resume_with_log in H3 as [Hx Hr]. split; [done|]. by rewrite Hr, U2.
Qed.
Lemma stmt_alike L p s what cb fin a a' w rs v w1 : determined fin a -> at_last a -> (forall bag, bg_callback bag = cb -> call_back bag a = stmt_event bag a fin) ->
  stmt_start L p s what cb fin a w = Ret (AReturn rs, v) -> stmt_start L p s what cb fin a' w = Ret (AYield, w1) -> resumes_alike a L rs w w1.
Proof.
  intros Hd (E0 & Es & _) Hcb H1 H2 b bag Hb Eb wn st ev c0 How x w2 H3. unfold stmt_start in H1, H2. do 2 apply bind_ret in H1 as ([] & _ & H1), H2 as ([] & _ & H2). rewrite Es in H1.
  change (c_true 0) with false in H1. cbv iota zeta in H1, H2.
  destruct (c_true (a_status a')) eqn:Es'.
  2:{ destruct (a_ret a' =? 0); [|done]. apply bind_ret in H2 as ([rs' w'] & _ & H2). done. }
  destruct (wait_start_bag _ _ _ _ _ _ _ _ w _ _ _ b bag H2 eq_refl Hb Eb) as (-> & Hun); destruct (undisturbed_later _ _ _ Hun How) as [U1 U2 U3 U4]. rewrite Hcb in H3 by done. unfold stmt_event in H3. cbn [rewait bg_data bg_L bg_ctx] in H3.
  apply bind_ret in H3 as (d & _ & H3). apply bind_ret in H3 as ([] & _ & H3). rewrite E0 in H3. change (c_true 0) with false in H3. cbv iota in H3.
  apply bind_ret in H3 as ([] & _ & H3). rewrite Es in H3. change (c_true 0) with false in H3. cbv iota in H3.
  destruct (a_ret a =? 0).
  - apply bind_ret in H1 as ([rs1 v1] & F1 & H1). injection H1 as -> ->. apply bind_ret in H3 as ([rs2 w3] & F2 & H3). apply resume_with_log in H3 as [Hx Hr]. split; [done|].
    destruct (Hd p _ _ _ _ _ _ (eq_sym U1) F1 F2) as [-> Er]. rewrite Hr, Er, U2. done.
  - injection H1 as <- <-. apply resume_with_log in H3 as [Hx Hr]. split; [done|]. by rewrite Hr, U2.
Qed.
Lemma stmt_close_alike L p s a a' w rs v w1 : at_last a -> stmt_close_start L p s a w = Ret (AReturn rs, v) -> stmt_close_start L p s a' w = Ret (AYield, w1) -> resumes_alike a L rs w w1.
Proof.
  intros (E0 & Es & _) H1 H2 b bag Hb Eb wn st ev c0 How x w2 H3. unfold stmt_close_start in H1, H2. apply bind_ret in H1 as ([] & _ & H1), H2 as ([] & _ & H2). rewrite Es in H1.
  change (c_true 0) with false in H1. cbv iota zeta in H1, H2.
  destruct (c_true (a_status a')) eqn:Es'.
  2:{ destruct (a_ret a' =? 0); apply bind_ret in H2 as (? & _ & H2); done. }
  destruct (wait_start_bag _ _ _ _ _ _ _ _ w _ _ _ b bag H2 eq_refl Hb Eb) as (-> & Hun); destruct (undisturbed_later _ _ _ Hun How) as [_ U2 _ _]. unfold call_back, stmt_close_cont in H3. cbn [rewait bg_data bg_L bg_ctx bg_callback] in H3.
  apply bind_ret in H3 as (d & _ & H3). do 2 apply bind_ret in H3 as ([] & _ & H3). rewrite Es in H3. change (c_true 0) with false in H3. cbv iota zeta in H3.
  apply bind_ret in H3 as (w3 & (reg & _ & E3)%bind_ret & H3). injection E3 as <-. destruct (a_ret a =? 0).
  - apply bind_ret in H1 as (v1 & _ & H1). injection H1 as <- _. apply resume_with_log in H3 as [Hx Hr]. split; [done|]. cbn in Hr. by rewrite Hr, U2.
  - apply bind_ret in H1 as (? & _ & H1). injection H1 as <- _. apply bind_ret in H3 as (? & _ & H3). apply resume_with_log in H3 as [Hx Hr]. split; [done|]. cbn in Hr. by rewrite Hr, U2.
Qed.

(** *** What makes an object *)

(** The object that was made is kept for the event. *)
Lemma connect_alike L args a a' w rs v w1 : at_last a -> real_connect_start L args a w = Ret (AReturn rs, v) -> real_connect_start L args a' w = Ret (AYield, w1) -> resumes_alike a L rs w w1.
Proof.
  intros (E0 & Es & _) H1 H2 b bag Hb Eb wn st ev c0 How x w2 H3. unfold real_connect_start in H1, H2. destruct (sourcename ← _; _) as [[[[[n u] pw] h] pt]| |]; try done.
  destruct (new_object _ w) as [p w0] eqn:Ew. injection Ew as Ep Ew. rewrite Es in H1. change (c_true 0) with false in H1. cbv iota zeta in H1, H2.
  destruct (c_true (a_status a')) eqn:Es'; [|by destruct (a_ret a' =? 0)]. cbn [ref reg_ref] in H2.
  destruct (wait_start_bag _ _ _ _ _ _ _ _ w _ _ _ b bag H2) as (-> & Hun); [by rewrite <- Ew|done|done|]; destruct (undisturbed_later _ _ _ Hun How) as [_ U2 U3 _]. unfold call_back, real_connect_cont in H3. cbn [rewait bg_data bg_L bg_ctx bg_callback] in H3.
  apply bind_ret in H3 as (? & _ & H3). rewrite Es in H3. change (c_true 0) with false in H3. cbv iota zeta in H3.
  assert (E1 : w_resumed wn = w_resumed w) by (rewrite U2, <- Ew; done). destruct (a_ret a =? 0).
  - injection H1 as <- _. unfold extra_object in H3. cbn [rewait bg_extra] in H3. rewrite (U3 _ (RvObject p)) in H3 by (cbn; apply lookup_insert_eq). cbn [mbind outcome_bind] in H3.
    apply resume_with_log in H3 as [Hx Hr]. split; [done|]. by rewrite Hr, E1.
  - injection H1 as <- _. apply resume_with_log in H3 as [Hx Hr]. split; [done|]. by rewrite Hr, E1.
Qed.
Lemma prepare_result_resumed a p w w' : stmt_prepare_result a p w = Ret w' -> w_resumed w' = w_resumed w /\ w_reg w' = w_reg w.
Proof. intros (s & _ & (? & _ & E)%bind_ret)%bind_ret. by injection E as <-. Qed.
Lemma prepare_alike L p statement a a' w rs v w1 : at_last a -> prepare_now L p statement a w = Ret (AReturn rs, v) -> prepare_now L p statement a' w = Ret (AYield, w1) -> resumes_alike a L rs w w1.
Proof.
  intros (E0 & Es & _) H1 H2 b bag Hb Eb wn st ev c0 How x w2 H3. unfold prepare_now in H1, H2. apply bind_ret in H1 as ([] & _ & H1), H2 as ([] & _ & H2). cbn [ref reg_ref] in H1, H2.
  destruct (new_object _ _) as [q w0] eqn:Ew. injection Ew as Ep Ew. rewrite Es in H1. change (c_true 0) with false in H1. cbv iota zeta in H1, H2.
  destruct (c_true (a_status a')) eqn:Es'.
  2:{ destruct (a_ret a' =? 0); [|done]. apply bind_ret in H2 as (? & _ & H2). done. }
  destruct (wait_start_bag _ _ _ _ _ _ _ _ w _ _ _ b bag H2) as (-> & Hun); [by rewrite <- Ew|done|done|]; destruct (undisturbed_later _ _ _ Hun How) as [_ U2 U3 _]. unfold call_back, stmt_prepare_cont in H3. cbn [rewait bg_data bg_L bg_ctx bg_callback] in H3.
  apply bind_ret in H3 as (s & _ & H3). apply bind_ret in H3 as ([] & _ & H3). rewrite E0 in H3. change (c_true 0) with false in H3. cbv iota zeta in H3.
  apply bind_ret in H3 as ([] & _ & H3). rewrite Es in H3. change (c_true 0) with false in H3. cbv iota zeta in H3.
  assert (E1 : w_resumed wn = w_resumed w) by (rewrite U2, <- Ew; done). destruct (a_ret a =? 0).
  - apply bind_ret in H1 as (v1 & _ & H1). injection H1 as <- _. apply bind_ret in H3 as (w3 & [F1 F2]%prepare_result_resumed & H3).
    unfold extra_object in H3. cbn [rewait bg_extra] in H3. rewrite F2, (U3 _ (RvObject q)) in H3 by (cbn; apply lookup_insert_eq). cbn [mbind outcome_bind] in H3.
    apply resume_with_log in H3 as [Hx Hr]. split; [done|]. by rewrite Hr, F1, E1.
  - injection H1 as <- _. apply resume_with_log in H3 as [Hx Hr]. split; [done|]. by rewrite Hr, E1.
Qed.

(** *** Cursors *)

Lemma free_result_done L p mem w waits w' : free_result_start L p 0 mem w = Ret (waits, w') -> waits = false /\ w_resumed w' = w_resumed w.
Proof.
  unfold free_result_start, unref. intros (u & _ & E)%bind_ret. apply bind_ret in E as ([] & _ & E). apply bind_ret in E as (w1 & (? & _ & E1)%bind_ret & E).
  apply bind_ret in E as (w2 & (? & _ & E2)%bind_ret & E). injection E1 as <-. injection E2 as <-. change (c_true 0) with false in E. cbv iota zeta in E. by injection E as <- <-.
Qed.
Lemma row_result_same L L' a p w v u u' rs rs' w' v' : a_free a = 0 -> w_heap w !! p = Some (UCursor u) -> w_heap v !! p = Some (UCursor u') -> cur_fields u' = cur_fields u ->
  fetch_row_result L a p w = Ret (rs, w') -> fetch_row_result L' a p v = Ret (rs', v') -> is_Some rs' /\ rs = rs' /\ w_resumed v' = w_resumed v.
Proof.
  intros Ef Hu Hu' Esh H1 H2. unfold fetch_row_result in *. destruct (a_row a) as [cells|].
  - unfold cursor_at in *. rewrite Hu in H1. rewrite Hu' in H2. cbn [mbind outcome_bind] in H1, H2.
    destruct (colnames u), (colnames u'); cbn in H1, H2; injection H1 as <- <-; injection H2 as <- <-; (split; [by eexists|]); rewrite ?Esh; done.
  - rewrite Ef in *. apply bind_ret in H1 as ([x1 ?] & [E1 _]%free_result_done & H1), H2 as ([x2 ?] & [E2 E3]%free_result_done & H2). subst. injection H1 as <- <-. injection H2 as <- <-.
    split; [by eexists|]. done.
Qed.
Lemma row_alike L p a a' w rs v w1 : at_last a -> c_true (a_status a') = true -> fetch_row_start L p a w = Ret (AReturn rs, v) -> fetch_row_start L p a' w = Ret (AYield, w1) -> resumes_alike a L rs w w1.
Proof.
  intros (E0 & Es & Ef) Es' H1 H2 b bag Hb Eb wn st ev c0 How x w2 H3. unfold fetch_row_start, with_object, getcursor, object_at in H1, H2.
  destruct (w_heap w !! p) as [[|u|]|] eqn:Hp; try done. cbn [mbind outcome_bind] in H1, H2. destruct (cur_closed u); [done|]. apply bind_ret in H1 as ([] & _ & H1), H2 as ([] & _ & H2). rewrite Es in H1. rewrite Es' in H2. change (c_true 0) with false in H1. cbv iota zeta in H1, H2.
  destruct (cur_ctx u) as [c|].
  2:{ apply bind_ret in H2 as (w3 & [F1 _]%REF_CO_frame & H2). injection H2 as <-. cbn in Eb. rewrite F1 in Eb. cbn in Eb. rewrite Eb, lookup_insert_eq in Hb. done. }
  destruct (wait_start_bag _ _ _ _ _ _ _ _ w _ _ _ b bag H2 eq_refl Hb Eb) as (-> & Hun); destruct (undisturbed_later _ _ _ Hun How) as [_ U2 _ U4]. unfold call_back, fetch_row_cont in H3. cbn [rewait bg_data bg_L bg_ctx bg_callback] in H3.
  destruct (U4 p u Hp) as (u' & Hp' & Esh). unfold cursor_at in H3 at 1. rewrite Hp' in H3. cbn [mbind outcome_bind] in H3. do 2 apply bind_ret in H3 as ([] & _ & H3). rewrite Es in H3.
  change (c_true 0) with false in H3. cbv iota zeta in H3. apply bind_ret in H3 as ([] & _ & H3). apply bind_ret in H1 as ([r1 w3] & F1 & H1), H3 as ([r2 w4] & F2 & H3).
  destruct (row_result_same _ _ a p (send (McRow p) w) _ u u' _ _ _ _ Ef Hp Hp' Esh F1 F2) as ([r Hr] & -> & Er). subst r2. injection H1 as -> ->. apply resume_with_log in H3 as [Hx Hl].
  split; [done|]. by rewrite Hl, Er, U2.
Qed.
Lemma free_result_wait L p status mem w waits w' b bag : free_result_start L p status mem w = Ret (waits, w') -> waits = true -> w_bags w !! b = None ->
  w_resumed w' = w_resumed w /\ (w_bags w' = <[b := bag]> (w_bags w) -> exists c, bag = mk_bag L (DObject p) status (event_for status) c None CbFree).
Proof.
  unfold free_result_start, unref. intros (u & _ & E)%bind_ret Hw Hb. apply bind_ret in E as ([] & _ & E). apply bind_ret in E as (w1 & (? & _ & E1)%bind_ret & E).
  apply bind_ret in E as (w2 & (? & _ & E2)%bind_ret & E). injection E1 as <-. injection E2 as <-. destruct (c_true status); [|injection E as <- _; done].
  apply bind_ret in E as (w1 & E & E1). injection E1 as _ E1. subst w1. destruct (cur_ctx u) as [c|].
  - apply wait_frame in E as (_ & F2 & _ & F4). split; [by rewrite F2|]. intros Eb. exists c. destruct F4 as [F4|F4]; rewrite F4 in Eb; cbn [w_bags set_reg set_heap send put] in Eb.
    + rewrite Eb, lookup_insert_eq in Hb. done.
    + assert (Hf : w_bags w !! fresh (dom (w_bags w)) = None) by (apply not_elem_of_dom, is_fresh). exact (proj2 (insert_fresh_inj _ _ _ _ _ Hb Hf (eq_sym Eb))).
  - injection E as <-. split; [done|]. cbn. intros Eb. rewrite Eb, lookup_insert_eq in Hb. done.
Qed.
Lemma cursor_close_alike L p a a' w rs v w1 : at_last a -> cur_end L p a w = Ret (AReturn rs, v) -> cur_end L p a' w = Ret (AYield, w1) -> resumes_alike a L rs w w1.
Proof.
  intros (E0 & Es & Ef) H1 H2 b bag Hb Eb wn st ev c0 How x w2 H3. unfold cur_end in H1, H2. rewrite Ef in H1. apply bind_ret in H1 as ([x1 v1] & [-> _]%free_result_done & H1). injection H1 as <- _.
  apply bind_ret in H2 as ([x2 w3] & F & H2). destruct x2; [|done]. apply bind_ret in H2 as (w4 & [F1 [_ F2 _ _]]%REF_CO_frame & H2). injection H2 as ->.
  destruct (free_result_wait _ _ _ _ _ _ _ b bag F eq_refl Hb) as [F3 F4]. destruct F4 as [c ->]; [by rewrite <- F1|]. unfold call_back, free_result_cont in H3. cbn [rewait bg_data bg_L bg_ctx bg_callback] in H3.
  apply bind_ret in H3 as (u & _ & H3). do 2 apply bind_ret in H3 as ([] & _ & H3). rewrite Es in H3. change (c_true 0) with false in H3. cbv iota zeta in H3.
  apply resume_with_log in H3 as [Hx Hr]. split; [done|]. cbn in Hr. by rewrite Hr, (ow_resumed _ _ How), F2, F3.
Qed.

(** ** The theorem *)

(** [a'] is what the library answers when the operation starts and has to wait, [a] what it answers when it is done.  The end of the rows is left out
    where it makes a difference, and so is the closing of a connection, which is never resumed. *)
Definition same_end (c : call) (a a' : answer) : Prop :=
  match c with
  | KClose _ => False
  | KFetch _ => a_ret a <> MYSQL_NO_DATA
  | KRow _ => a_status a' <> 0
  | _ => True
  end.
Ltac both H1 H2 := destruct (with_object_both _ _ _ _ _ _ _ _ H1 H2) as (s & y & G1 & G2).
Ltac its_callback := intros bag Hc; unfold call_back; rewrite Hc; reflexivity.
Ltac conn_op checks lem := match goal with Ha : at_last _, H1 : _ = Ret (AReturn _, _), H2 : _ = Ret (AYield, _) |- _ => let s := fresh "s" in let y := fresh "y" in let G1 := fresh "G" in let G2 := fresh "G" in
    destruct (with_object_both _ _ _ _ _ _ _ _ H1 H2) as (s & y & G1 & G2); refine (conn_alike _ _ _ _ checks _ _ _ _ _ _ _ lem Ha _ G1 G2); its_callback end.
Ltac stmt_op lem := match goal with Ha : at_last _, H1 : _ = Ret (AReturn _, _), H2 : _ = Ret (AYield, _) |- _ => let s := fresh "s" in let y := fresh "y" in let G1 := fresh "G" in let G2 := fresh "G" in
    destruct (with_object_both _ _ _ _ _ _ _ _ H1 H2) as (s & y & G1 & G2); refine (stmt_alike _ _ _ _ _ _ _ _ _ _ _ _ lem Ha _ G1 G2); its_callback end.
Lemma fetch_alike L p a a' w rs v w1 : at_last a -> a_ret a <> MYSQL_NO_DATA -> stmt_fetch_start L p a w = Ret (AReturn rs, v) -> stmt_fetch_start L p a' w = Ret (AYield, w1) -> resumes_alike a L rs w w1.
Proof.
  intros Ha Hr H1 H2. unfold stmt_fetch_start in H1, H2. both H1 H2. assert (Hn : negb (c_true (a_status a)) && (a_ret a =? MYSQL_NO_DATA) = false) by (destruct (Z.eqb_spec (a_ret a) MYSQL_NO_DATA); [done|by rewrite andb_false_r]).
  rewrite Hn in G1. destruct (negb (c_true (a_status a')) && (a_ret a' =? MYSQL_NO_DATA)); [do 2 apply bind_ret in G2 as (? & _ & G2); done|].
  refine (stmt_alike _ _ _ _ _ _ _ _ _ _ _ _ (fetch_determined a) Ha _ G1 G2). its_callback.
Qed.
Lemma execute_alike L p a a' w rs v w1 : at_last a -> stmt_execute_start L p a w = Ret (AReturn rs, v) -> stmt_execute_start L p a' w = Ret (AYield, w1) -> resumes_alike a L rs w w1.
Proof.
  intros Ha H1 H2. unfold stmt_execute_start in H1, H2. both H1 H2. apply bind_ret in G1 as (ds & Ed & G1). rewrite Ed in G2. cbn [mbind outcome_bind] in G2.
  refine (stmt_alike _ _ _ _ _ _ _ _ _ _ _ _ (execute_determined a) Ha _ G1 G2). its_callback.
Qed.
Lemma exec_alike L c a a' w rs v w1 : at_last a -> same_end c a a' -> exec_call (mk_req L c a) w = Ret (AReturn rs, v) -> exec_call (mk_req L c a') w = Ret (AYield, w1) ->
  resumes_alike a L rs w w1.
Proof.
  intros Ha He H1 H2. unfold exec_call in H1, H2. cbn [rq_L rq_call rq_answer] in H1, H2.
  destruct c; unfold real_query_start, conn_ping_start, conn_commit_start, conn_rollback_start, conn_autocommit_start, set_character_set_start, stmt_prepare_start, _st_bind, stmt_store_result_start,
    st_send_long_data, cur_getcolnames, cur_getcoltypes, pushtable, cur_numrows, st_pairs, escape_string, conn_getlastautoid in H1, H2.
  - by eapply connect_alike.
  - conn_op true (query_determined a).
  - conn_op true (done_determined a).
  - conn_op true (done_determined a).
  - conn_op true (done_determined a).
  - conn_op true (done_determined a).
  - conn_op false (done_determined a).
  - done.
  - both H1 H2. by apply bind_ret in G2 as (? & _ & G2).
  - both H1 H2. apply bind_ret in G2 as (? & _ & G2). by destruct (_ <=? _).
  - both H1 H2. by eapply prepare_alike.
  - both H1 H2. apply bind_ret in G2 as ([] & _ & G2). destruct (st_bind_args _ _ _); try done. by apply bind_ret in G2 as (? & _ & G2).
  - by eapply execute_alike.
  - stmt_op (done_determined a).
  - both H1 H2. destruct y as [n d]. refine (stmt_alike _ _ _ _ _ _ _ _ _ _ _ _ (done_determined a) Ha _ G1 G2). its_callback.
  - by eapply fetch_alike.
  - both H1 H2. done.
  - unfold st_close in *. apply bind_ret in H1 as (u & Eu & H1). rewrite Eu in H2. cbn [mbind outcome_bind] in H2. destruct u as [| |s]; try done. destruct (st_closed s); [done|]. by eapply stmt_close_alike.
  - eapply row_alike; [exact Ha| |exact H1|exact H2]. unfold c_true. by destruct (Z.eqb_spec (a_status a') 0).
  - both H1 H2. by destruct (colnames s).
  - both H1 H2. by destruct (coltypes s).
  - both H1 H2. by apply bind_ret in G2 as (? & _ & G2).
  - unfold cur_close in *. apply bind_ret in H1 as (u & Eu & H1). rewrite Eu in H2. cbn [mbind outcome_bind] in H2. destruct u as [|u|]; try done. destruct (cur_closed u); [done|]. by eapply cursor_close_alike.
  - by apply bind_ret in H2 as (? & _ & H2).
  - done.
Qed.

(** ** Waiting more than once *)

(** A callback that still has to wait changes the waits alone. *)
Lemma wait_again_only bag a ctx w x w' : wait_again bag a ctx (bg_data bag) w = Ret (x, w') -> x = false /\ only_waits w w' /\
  (w_bags w' = w_bags w \/ exists st ev c, w_bags w' = <[fresh (dom (w_bags w)) := rewait st ev c bag]> (w_bags w)).
Proof.
  unfold wait_again. intros (w1 & E & E')%bind_ret. injection E' as <- <-. split; [done|]. destruct ctx as [c|]; [|injection E as <-; split; [done|by left]].
  destruct (wait_frame _ _ _ _ _ _ _ _ _ E) as (F1 & F2 & F3 & F4). split; [done|]. destruct F4 as [F4|F4]; [by left|right]. by eexists _, _, _.
Qed.
Ltac to_wait H1 := first [by eapply wait_again_only|case_match; [done|to_wait H1|done]|apply bind_ret in H1 as (? & _ & H1); to_wait H1].
Lemma still_waits bag a w x w' : call_back bag a w = Ret (x, w') -> a_errno0 a = 0 -> a_status a <> 0 -> bg_callback bag <> CbFree -> x = false /\ only_waits w w' /\
  (w_bags w' = w_bags w \/ exists st ev c, w_bags w' = <[fresh (dom (w_bags w)) := rewait st ev c bag]> (w_bags w)).
Proof.
  intros H1 E0 Es Hf. assert (Es' : c_true (a_status a) = true) by (unfold c_true; by destruct (Z.eqb_spec (a_status a) 0)).
  unfold call_back in H1. destruct (bg_callback bag) eqn:Ecb; try done;
    unfold real_connect_cont, conn_close_cont, conn_ping_event, real_query_cont, conn_commit_event, conn_rollback_event, conn_autocommit_event, set_character_set_cont, conn_event,
      stmt_prepare_cont, stmt_execute_cont, stmt_store_result_cont, stmt_send_long_data_event, stmt_fetch_cont, stmt_event, stmt_close_cont, fetch_row_cont in H1;
    destruct (bg_data bag) as [c|p|p] eqn:Ed; try done; rewrite ?E0, ?Es' in H1; change (c_true 0) with false in H1; rewrite ?andb_false_r in H1; cbv iota in H1;
    rewrite <- Ed in H1; to_wait H1.
Qed.
Lemma fire_waits b a w w' bag : fire b a [] w = Ret w' -> w_bags w !! b = Some bag -> a_errno0 a = 0 -> a_status a <> 0 -> bg_callback bag <> CbFree ->
  only_waits w w' /\ forall b' bag', w_bags w !! b' = None -> w_bags w' !! b' = Some bag' -> exists st ev c, bag' = rewait st ev c bag.
Proof.
  intros E Hb E0 Es Hf. unfold fire in E. apply bind_ret in E as (bag0 & Eg & E). unfold bag_at in Eg. rewrite Hb in Eg. injection Eg as <-.
  apply bind_ret in E as ([x w1] & E1 & E). destruct (still_waits _ _ _ _ _ E1 E0 Es Hf) as (-> & [H1 H2 H3] & Hbags). cbn [mbind outcome_bind] in E.
  apply bind_ret in E as (? & _ & E). injection E as <-. split; [done|]. intros b' bag' Hno Hx. cbn in Hx. apply lookup_delete_Some in Hx as [_ Hx].
  destruct Hbags as [Hbags|(st & ev & c & Hbags)]; rewrite Hbags in Hx; [congruence|]. apply lookup_insert_Some in Hx as [[_ <-]|[_ Hx]]; [by eexists _, _, _|congruence].
Qed.
(** Events that come for an operation that still has to wait, one after the other. *)
Inductive goes_on : positive -> world -> positive -> world -> Prop :=
  | on_here b w : goes_on b w b w
  | on_more b w a w' b' bn wn : a_errno0 a = 0 -> a_status a <> 0 -> hop_ok (HFire b a []) w -> fire b a [] w = Ret w' -> w_bags w !! b' = None -> is_Some (w_bags w' !! b') ->
      goes_on b' w' bn wn -> goes_on b w bn wn.
Lemma not_freeing b a w bag : hop_ok (HFire b a []) w -> w_bags w !! b = Some bag -> a_status a <> 0 -> bg_callback bag <> CbFree.
Proof. intros (bag' & Hb' & _ & He & _) Hb Hs Hc. rewrite Hb in Hb'. injection Hb' as <-. unfold event_ok in He. by rewrite Hc in He. Qed.
Lemma rewait_again st ev c st' ev' c' bag : rewait st ev c (rewait st' ev' c' bag) = rewait st ev c bag.
Proof. done. Qed.
Lemma goes_on_same b w bn wn : goes_on b w bn wn -> forall bag, mariadb_ok w -> w_bags w !! b = Some bag ->
  mariadb_ok wn /\ only_waits w wn /\ exists st ev c, w_bags wn !! bn = Some (rewait st ev c bag).
Proof.
  induction 1 as [b w|b w a w' b' bn wn E0 Es Ho E Hno [bag' Hb'] _ IH]; intros bag [K Hm] Hb.
  - split; [by exists K|]. split; [done|]. exists (bg_status bag), (bg_event bag), (bg_ctx bag). rewrite Hb. by destruct bag.
  - destruct (fire_waits b a w w' bag E Hb E0 Es (not_freeing b a w bag Ho Hb Es)) as [[A1 A2 A3] Hnew]. destruct (Hnew b' bag' Hno Hb') as (st & ev & c & ->).
    assert (Hk : mariadb_ok w').
    { destruct (fire_ok ∅ K b a [] w Hm Ho) as (? & _ & Hf). rewrite E in Hf. destruct Hf as [(K' & Hm' & _) _]. by exists (K' ++ K). }
    destruct (IH _ Hk Hb') as (Hkn & [B1 B2 B3] & st' & ev' & c' & Hbn). split; [done|]. split; [constructor; congruence|]. exists st', ev', c'. by rewrite Hbn, rewait_again.
Qed.

(** C38: An operation that had to wait, once or any number of times, resumes its coroutine with exactly what it would have returned at once: the same values, the same new objects,
    the same error, when nothing else happens in between.  So it is for every operation of connections, cursors and statements, but for closing a connection
    ([mariadb_close_lost]) and where the rows end: a fetch from a statement, and a fetch from a cursor that waits only to free the result ([mariadb_errors]).  Closing a cursor
    waits once ([admitted] has no second wait there: [mariadb_misuse]). *)
Theorem mariadb_same_results L c a a' w rs v w1 b bag bn wn : mariadb_ok w -> at_last a -> same_end c a a' -> call_ok None (mk_req L c a') w ->
  exec_call (mk_req L c a) w = Ret (AReturn rs, v) -> exec_call (mk_req L c a') w = Ret (AYield, w1) -> w_bags w !! b = None -> w_bags w1 = <[b := bag]> (w_bags w) ->
  goes_on b w1 bn wn -> hop_ok (HFire bn a []) wn -> returns (fire bn a [] wn) (fun w2 => w_resumed wn = w_resumed w /\ w_resumed w2 = w_resumed w ++ [(L, rs)]).
Proof.
  intros [K Hm] Ha He Hq H1 H2 Hb Eb Hg Ho. pose proof (exec_call_ok ∅ K None _ w Hm Hq) as Hx. rewrite H2 in Hx. destruct Hx as (K1 & Hm1 & Hr1 & _). cbn [fst snd] in *.
  destruct (reacted_later _ _ _ _ _ Hr1) as [_ Er1].
  destruct (goes_on_same b w1 bn wn Hg bag) as ([Kn Hmn] & How & st & ev & cc & Hbn); [by exists (K1 ++ K)|by rewrite Eb, lookup_insert_eq|].
  destruct (fire_ok ∅ Kn bn a [] wn Hmn Ho) as (bag' & _ & Hf).
  pose proof (exec_alike L c a a' w rs v w1 Ha He H1 H2 b bag Hb Eb wn st ev cc How) as Hal. destruct (fire bn a [] wn) as [w2| |] eqn:Ef; [|done|done]. cbn [returns]. clear Hf.
  split; [by rewrite (ow_resumed _ _ How)|]. unfold fire in Ef. apply bind_ret in Ef as (bag0 & Eg & Ef). unfold bag_at in Eg. rewrite Hbn in Eg. injection Eg as <-.
  apply bind_ret in Ef as ([x w3] & E3 & Ef). destruct (Hal _ _ E3) as [-> Hr]. apply bind_ret in Ef as (w4 & (w5 & E5 & E4)%bind_ret & (? & _ & E6)%bind_ret).
  injection E5 as <-. injection E6 as <-. assert (E7 : w_resumed w4 = w_resumed w3).
  { unfold give_back in E4. destruct (bg_extra _); [|by injection E4 as <-]. apply bind_ret in E4 as (? & _ & (reg & _ & E4)%bind_ret). by injection E4 as <-. }
  cbn. by rewrite E7.
Qed.

End Same.

(** ** A concrete query *)

#[local] Existing Instance plain_lua.
Definition select_call : call := KQuery 1 select.
Definition selecting : world := nxt (HCall (mk_req 9 select_call waits)) (world_of connected).
Definition select_bag : DB_STATUS := mk_bag 9 (DMysql 1) MYSQL_WAIT_READ (event_for MYSQL_WAIT_READ) 1 None CbQuery.
Definition selected : outcome (reaction * world) := exec_call (mk_req 9 select_call at_once) (world_of connected).
(** Two waits. *)
Definition selecting_on : world := nxt (HFire 1 waits []) selecting.
Definition on_bag (b : positive) (w : world) : Prop := exists bag, w_bags w !! b = Some bag /\ can_fire (bg_event bag) = true /\ bg_callback bag = CbQuery.
Lemma query_hop b o w : on_bag b w -> hop_ok (HFire b o []) w.
Proof. intros (bag & Hb & Hc & Hq). exists bag. split; [done|]. split; [done|]. split; [unfold event_ok; by rewrite Hq|]. intros; exact I. Qed.
Lemma mariadb_same_results_witness : (exists v, selected = Ret (AReturn [RObject 2], v)) /\
  returns (fire 2 at_once [] selecting_on) (fun w => w_resumed selecting_on = [] /\ w_resumed w = [(9%positive, [RObject 2])]).
Proof.
  destruct selected as [[r v]| |] eqn:E; [|vm_compute in E; discriminate|vm_compute in E; discriminate].
  assert (Er : r = AReturn [RObject 2]) by (vm_compute in E; injection E as <- _; reflexivity). subst r. split; [by exists v|].
  assert (Hg : goes_on 1 selecting 2 selecting_on).
  { apply (on_more 1 selecting waits selecting_on 2); [reflexivity|discriminate| | | | |apply on_here].
    - apply query_hop. eexists. split; [vm_compute; reflexivity|split; reflexivity].
    - vm_compute. reflexivity.
    - vm_compute. reflexivity.
    - vm_compute. by eexists. }
  refine (mariadb_same_results 9 select_call at_once waits (world_of connected) [RObject 2] v selecting 1 select_bag 2 selecting_on connected_ok _ I _ E _ _ _ Hg _).
  - by vm_compute.
  - alive. apply ready_conn. vm_compute. reflexivity.
  - vm_compute. reflexivity.
  - vm_compute. reflexivity.
  - vm_compute. reflexivity.
  - apply query_hop. eexists. split; [vm_compute; reflexivity|split; reflexivity].
Defined.
