(* ===== verification/Tracker.v ===== *)
(** * src/thread_tracker.c: counting registry references in debug builds

    Two tables of a fixed number of records, one for threads and one for functions,
    and two counters.  When a table is full the next record is taken from one that is
    in use.  The file has every function twice, once for each table: here they are one
    definition ([records]) and its two uses.  What is printed is returned. *)

From S2P Require Import Prelude.

(** ** The tables *)

Inductive ref_type_t : Type := REF_TYPE_THREAD | REF_TYPE_FUNCTION | REF_TYPE_OTHER.
Record ref_record_t : Type := mk_rr { rr_ref : Z; rr_type : ref_type_t; rr_location : list Z; rr_created : Z; rr_active : bool }.
Definition empty_record : ref_record_t := mk_rr 0 REF_TYPE_THREAD [] 0 false.
Definition MAX_THREAD_RECORDS : nat := 1000.
Definition MAX_FUNCTION_RECORDS : nat := 2000.

(** [thread_records], [next_thread_index], [thread_overflow_count] and [g_thread_ref_count],
    or those of the functions. *)
Record records : Type := mk_records { slots : list ref_record_t; next_index : nat; overflow_count : Z; ref_count : Z }.
Record tracker : Type := mk_tracker { tracker_initialized : bool; threads : records; functions : records }.
Definition no_records (max : nat) : records := mk_records (replicate max empty_record) 0 0 0.
(** Static data are zero. *)
Definition tracker_start : tracker := mk_tracker false (no_records MAX_THREAD_RECORDS) (no_records MAX_FUNCTION_RECORDS).

(** The overflow counts are not reset. *)
Definition clear_records (max : nat) (s : records) : records := mk_records (replicate max empty_record) 0 (overflow_count s) 0.
Definition thread_tracker_init (t : tracker) : tracker :=
  if tracker_initialized t then t
  else mk_tracker true (clear_records MAX_THREAD_RECORDS (threads t)) (clear_records MAX_FUNCTION_RECORDS (functions t)).

Definition find_record (ref : Z) (s : records) : option nat := fst <$> list_find (fun r => rr_active r = true /\ rr_ref r = ref) (slots s).
Definition get_next_record (s : records) : nat * records :=
  match list_find (fun r => rr_active r = false) (slots s) with
  | Some (i, _) => (i, s)
  | None => (next_index s, mk_records (slots s) (S (next_index s) mod length (slots s)) (u32 (overflow_count s + 1)) (ref_count s))
  end.
(** [strncpy] of at most 255 bytes, and the terminator. *)
Definition kept_location (location : option (list Z)) : list Z := ztake 255 (cstr (default (lit "unknown") location)).

(** [g_thread_ref_count++]: an [int]. *)
Definition log_create (ty : ref_type_t) (location : option (list Z)) (ref now : Z) (s : records) : outcome records :=
  if 2 ^ 31 - 1 <=? ref_count s then UB
  else
    let s := mk_records (slots s) (next_index s) (overflow_count s) (ref_count s + 1) in
    let '(i, s) := match find_record ref s with Some i => (i, s) | None => get_next_record s end in
    Ret (mk_records (<[i := mk_rr ref ty (kept_location location) now true]> (slots s)) (next_index s) (overflow_count s) (ref_count s)).
Definition deactivate (r : ref_record_t) : ref_record_t := mk_rr (rr_ref r) (rr_type r) (rr_location r) (rr_created r) false.
Definition log_destroy (ref : Z) (s : records) : option records :=
  match find_record ref s with
  | Some i => Some (mk_records (alter deactivate i (slots s)) (next_index s) (overflow_count s) (ref_count s - 1))
  | None => None
  end.

Definition set_threads (s : records) (t : tracker) : tracker := mk_tracker (tracker_initialized t) s (functions t).
Definition set_functions (s : records) (t : tracker) : tracker := mk_tracker (tracker_initialized t) (threads t) s.
Definition thread_tracker_log_create (location : option (list Z)) (ref now : Z) (t : tracker) : outcome tracker :=
  let t := thread_tracker_init t in s ← log_create REF_TYPE_THREAD location ref now (threads t); Ret (set_threads s t).
Definition function_tracker_log_create (location : option (list Z)) (ref now : Z) (t : tracker) : outcome tracker :=
  let t := thread_tracker_init t in s ← log_create REF_TYPE_FUNCTION location ref now (functions t); Ret (set_functions s t).
Definition thread_tracker_log_destroy (ref : Z) (t : tracker) : tracker :=
  if negb (tracker_initialized t) then t else match log_destroy ref (threads t) with Some s => set_threads s t | None => t end.
Definition function_tracker_log_destroy (ref : Z) (t : tracker) : tracker :=
  if negb (tracker_initialized t) then t else match log_destroy ref (functions t) with Some s => set_functions s t | None => t end.
(** Threads first, then functions. *)
Definition ref_tracker_log_destroy (ref : Z) (t : tracker) : tracker :=
  if negb (tracker_initialized t) then t
  else
    match log_destroy ref (threads t) with
    | Some s => set_threads s t
    | None => match log_destroy ref (functions t) with Some s => set_functions s t | None => t end
    end.

Definition thread_tracker_get_count (t : tracker) : Z := ref_count (threads t).
Definition function_tracker_get_count (t : tracker) : Z := ref_count (functions t).
Definition lua_ref_tracker_get_total_count (t : tracker) : Z := thread_tracker_get_count t + function_tracker_get_count t.

(** ** Reports *)

(** A line: the reference, its age, where it was made. *)
Definition line_of (now : Z) (r : ref_record_t) : option (Z * Z * list Z) :=
  if rr_active r then Some (rr_ref r, now - rr_created r, rr_location r) else None.
Definition active_lines (now : Z) (s : records) : list (Z * Z * list Z) := omap (line_of now) (slots s).
(** The lines of one table, and the warning that the count does not match. *)
Record listing : Type := mk_listing { ls_lines : list (Z * Z * list Z); ls_mismatch : bool }.
Definition print_records (now : Z) (s : records) : option listing :=
  if 0 <? ref_count s then Some (mk_listing (active_lines now s) (negb (Zlen (active_lines now s) =? ref_count s))) else None.
Record summary : Type := mk_summary { sm_threads : Z; sm_functions : Z; sm_thread_list : option listing; sm_function_list : option listing }.
Definition thread_tracker_print_active (now : Z) (t : tracker) : option summary :=
  if negb (tracker_initialized t) then None
  else Some (mk_summary (ref_count (threads t)) (ref_count (functions t)) (print_records now (threads t)) (print_records now (functions t))).

(** Each line says whether the reference is older than 30 seconds. *)
Definition long_lived (l : Z * Z * list Z) : bool := 30 <? l.1.2.
Definition check_records (now : Z) (s : records) : list (Z * Z * list Z * bool) :=
  if 0 <? ref_count s then map (fun l => (l, long_lived l)) (active_lines now s) else [].
Record check_report : Type := mk_check { ck_threads : list (Z * Z * list Z * bool); ck_functions : list (Z * Z * list Z * bool); ck_long_lived : Z }.
(** [None]: nothing is printed, or that there is nothing. *)
Definition thread_tracker_periodic_check (now : Z) (t : tracker) : option check_report :=
  if negb (tracker_initialized t) then None
  else
    if 0 <? thread_tracker_get_count t + function_tracker_get_count t then
      let ts := check_records now (threads t) in
      let fs := check_records now (functions t) in
      Some (mk_check ts fs (Zlen (List.filter snd ts) + Zlen (List.filter snd fs)))
    else None.

(** ** Operations *)

Inductive tracked : Type := Threads | Functions.
Inductive track_op : Type :=
  | TCreate (k : tracked) (location : option (list Z)) (ref now : Z)
  | TDestroy (k : tracked) (ref : Z)
  | TClear (ref : Z).
Definition track_exec (o : track_op) (t : tracker) : outcome tracker :=
  match o with
  | TCreate Threads l r now => thread_tracker_log_create l r now t
  | TCreate Functions l r now => function_tracker_log_create l r now t
  | TDestroy Threads r => Ret (thread_tracker_log_destroy r t)
  | TDestroy Functions r => Ret (function_tracker_log_destroy r t)
  | TClear r => Ret (ref_tracker_log_destroy r t)
  end.
Fixpoint track_run (l : list track_op) (t : tracker) : outcome tracker :=
  match l with [] => Ret t | o :: l => t ← track_exec o t; track_run l t end.

(** ** What a table has *)

(** The references in use, with where and when they were made. *)
Definition entry_of (r : ref_record_t) : list (Z * (list Z * Z)) := if rr_active r then [(rr_ref r, (rr_location r, rr_created r))] else [].
Definition entries (s : records) : list (Z * (list Z * Z)) := concat (map entry_of (slots s)).

Lemma entries_at l i r : l !! i = Some r -> concat (map entry_of l) ≡ₚ entry_of r ++ concat (map entry_of (take i l ++ drop (S i) l)).
Proof.
  intros Hi. rewrite <- (take_drop_middle l i r Hi) at 1. rewrite !map_app, !concat_app. cbn [map concat]. solve_Permutation.
Qed.
Lemma entries_insert l i r r' : l !! i = Some r -> concat (map entry_of (<[i := r']> l)) ≡ₚ entry_of r' ++ concat (map entry_of (take i l ++ drop (S i) l)).
Proof.
  intros Hi. assert (Hl : (i < length l)%nat) by (by eapply lookup_lt_Some). rewrite (entries_at _ i r') by (by apply list_lookup_insert_eq).
  by rewrite take_insert_ge, drop_insert_lt by lia.
Qed.
Lemma alter_insert {A} (f : A -> A) (l : list A) i x : l !! i = Some x -> alter f i l = <[i := f x]> l.
Proof. intros Hi. apply list_eq. intros j. destruct (decide (i = j)) as [<-|Hn].
  - rewrite list_lookup_alter_eq, Hi, list_lookup_insert_eq; [done|by eapply lookup_lt_Some].
  - by rewrite list_lookup_alter_ne, list_lookup_insert_ne.
Qed.
Lemma entries_elem s ref v : (ref, v) ∈ entries s -> exists i r, slots s !! i = Some r /\ rr_active r = true /\ rr_ref r = ref.
Proof.
  unfold entries. intros Hx. apply list_elem_of_In, in_concat in Hx as (l & Hl & Hx). apply in_map_iff in Hl as (r & <- & Hr).
  apply list_elem_of_In, list_elem_of_lookup in Hr as [i Hi]. unfold entry_of in Hx. destruct (rr_active r) eqn:Ha; [|done]. destruct Hx as [E|[]]. injection E as <- _. by exists i, r.
Qed.
Lemma find_record_none ref s : find_record ref s = None -> ref ∉ (entries s).*1.
Proof.
  unfold find_record. intros Hf Hx. apply list_elem_of_fmap in Hx as ([r' v] & -> & Hx). apply entries_elem in Hx as (i & r & Hi & Ha & Hr).
  destruct (list_find _ (slots s)) as [[j x]|] eqn:E; [done|]. apply list_find_None in E. rewrite Forall_lookup in E. by apply (E i r Hi).
Qed.
Lemma find_record_some ref s i : find_record ref s = Some i -> exists r, slots s !! i = Some r /\ entry_of r = [(ref, (rr_location r, rr_created r))].
Proof.
  unfold find_record. intros ([j r] & E & Hx)%fmap_Some. cbn in Hx. subst j. apply list_find_Some in E as (Hi & [Ha Hr] & _). exists r. split; [done|]. unfold entry_of. by rewrite Ha, Hr.
Qed.
Lemma entry_cases r : (rr_active r = true /\ exists x, entry_of r = [x]) \/ (rr_active r = false /\ entry_of r = []).
Proof. unfold entry_of. destruct (rr_active r); [left; split; [done|by eexists]|by right]. Qed.
Lemma entries_le l : (length (concat (map entry_of l)) <= length l)%nat.
Proof. induction l as [|r l IH]; [done|]. cbn. rewrite length_app. destruct (entry_cases r) as [[_ [x ->]]|[_ ->]]; cbn; lia. Qed.
(** There is no free record exactly when every record is in use. *)
Lemma full_iff s : list_find (fun r => rr_active r = false) (slots s) = None <-> length (entries s) = length (slots s).
Proof.
  unfold entries. rewrite list_find_None. induction (slots s) as [|r l IH]; [done|]. rewrite Forall_cons, IH. cbn. rewrite length_app.
  pose proof (entries_le l). destruct (entry_cases r) as [[Ha [x ->]]|[Ha ->]]; rewrite Ha; cbn.
  - split; [by intros [_ ->]|]. intros E. split; [done|lia].
  - split; [by intros [[] _]|lia].
Qed.

(** ** The operations on a table *)

Record table_ok (n : nat) (s : records) : Prop := { tb_size : length (slots s) = n; tb_next : (next_index s < n)%nat; tb_count : Z.of_nat (length (entries s)) <= ref_count s }.
Definition new_entry (location : option (list Z)) (ref now : Z) : Z * (list Z * Z) := (ref, (kept_location location, now)).
(** What making a reference known does: it takes the place of a record of that reference,
    a free record, or, when there is none, of another reference. *)
Inductive created (n : nat) (e : Z * (list Z * Z)) (s s' : records) : Prop :=
  | created_again x rest : entries s ≡ₚ (e.1, x) :: rest -> entries s' ≡ₚ e :: rest -> overflow_count s' = overflow_count s -> created n e s s'
  | created_free : e.1 ∉ (entries s).*1 -> (length (entries s) < n)%nat -> entries s' ≡ₚ e :: entries s -> overflow_count s' = overflow_count s -> created n e s s'
  | created_over x rest : e.1 ∉ (entries s).*1 -> length (entries s) = n -> entries s ≡ₚ x :: rest -> entries s' ≡ₚ e :: rest ->
      overflow_count s' = u32 (overflow_count s + 1) -> created n e s s'.

Lemma write_entry s i r e c o k ty l ref now : slots s !! i = Some r -> e = (ref, (l, now)) ->
  exists rest, entries s ≡ₚ entry_of r ++ rest /\ entries (mk_records (<[i := mk_rr ref ty l now true]> (slots s)) k o c) ≡ₚ e :: rest.
Proof.
  intros Hi ->. exists (concat (map entry_of (take i (slots s) ++ drop (S i) (slots s)))). split; [by apply entries_at|]. unfold entries. cbn [slots]. by rewrite (entries_insert _ _ r).
Qed.
Lemma log_create_ok n s ty location ref now : table_ok n s -> ref_count s < 2 ^ 31 - 1 -> returns (log_create ty location ref now s) (fun s' =>
  table_ok n s' /\ ref_count s' = ref_count s + 1 /\ created n (new_entry location ref now) s s').
Proof.
  intros [Hn Hx Hc] Hr. unfold log_create. destruct (Z.leb_spec (2 ^ 31 - 1) (ref_count s)); [lia|]. set (s1 := mk_records _ _ _ _). change (find_record ref s1) with (find_record ref s).
  destruct (find_record ref s) as [i|] eqn:Ef.
  - cbn [returns]. destruct (find_record_some _ _ _ Ef) as (r & Hi & Er).
    destruct (write_entry s i r (new_entry location ref now) (ref_count s + 1) (overflow_count s) (next_index s) ty (kept_location location) ref now Hi eq_refl) as (rest & E1 & E2). rewrite Er in E1.
    split; [|split; [done|by eapply created_again]]. constructor; cbn; [by rewrite length_insert|done|]. rewrite E2. apply Permutation_length in E1. cbn in *. lia.
  - pose proof (find_record_none _ _ Ef) as Hnew. unfold get_next_record. change (slots s1) with (slots s). destruct (list_find _ (slots s)) as [[i r]|] eqn:El.
    + cbn [returns]. assert (Hfree : (length (entries s) < n)%nat).
      { pose proof (entries_le (slots s)) as Hle. fold (entries s) in Hle. destruct (decide (length (entries s) = n)) as [E|]; [|lia]. rewrite <- Hn in E. apply full_iff in E. congruence. }
      apply list_find_Some in El as (Hi & Ha & _). assert (Er : entry_of r = []) by (unfold entry_of; by rewrite Ha).
      destruct (write_entry s i r (new_entry location ref now) (ref_count s + 1) (overflow_count s) (next_index s) ty (kept_location location) ref now Hi eq_refl) as (rest & E1 & E2). rewrite Er in E1. cbn [app] in E1.
      rewrite <- E1 in E2. split; [|split; [done|by apply created_free]]. constructor; cbn; [by rewrite length_insert|done|]. rewrite E2. cbn. lia.
    + cbn [returns]. apply full_iff in El. rewrite Hn in El. assert (Hi : (next_index s < length (slots s))%nat) by lia. apply lookup_lt_is_Some_2 in Hi as [r Hi].
      destruct (write_entry s (next_index s) r (new_entry location ref now) (ref_count s + 1) (u32 (overflow_count s + 1)) (S (next_index s) mod length (slots s)) ty (kept_location location) ref now Hi eq_refl) as (rest & E1 & E2).
      assert (Ha : exists x, entry_of r = [x]).
      { destruct (entry_cases r) as [[_ Ha]|[Ha _]]; [done|]. exfalso. rewrite <- Hn in El. apply full_iff, list_find_None in El. rewrite Forall_lookup in El. by apply (El _ _ Hi). }
      destruct Ha as [x Ha]. rewrite Ha in E1. split; [|split; [done|exact (created_over n (new_entry location ref now) s _ x rest Hnew El E1 E2 eq_refl)]]. constructor; cbn; [by rewrite length_insert| |].
      * rewrite Hn. apply Nat.mod_upper_bound. lia.
      * rewrite E2. apply Permutation_length in E1. cbn in *. lia.
Qed.
Lemma log_destroy_ok n s ref : table_ok n s ->
  match log_destroy ref s with
  | None => ref ∉ (entries s).*1
  | Some s' => table_ok n s' /\ ref_count s' = ref_count s - 1 /\ overflow_count s' = overflow_count s /\ exists x, entries s ≡ₚ (ref, x) :: entries s'
  end.
Proof.
  intros [Hn Hx Hc]. unfold log_destroy. destruct (find_record ref s) as [i|] eqn:Ef; [|by apply find_record_none]. destruct (find_record_some _ _ _ Ef) as (r & Hi & Er).
  rewrite (alter_insert _ _ _ r Hi). assert (E : entries s ≡ₚ (ref, (rr_location r, rr_created r)) :: entries (mk_records (<[i := deactivate r]> (slots s)) (next_index s) (overflow_count s) (ref_count s - 1))).
  { unfold entries. cbn [slots]. rewrite (entries_at _ i r Hi), (entries_insert _ i r (deactivate r) Hi), Er. done. }
  split; [|split; [done|split; [done|by eexists]]]. constructor; cbn; [by rewrite length_insert|done|]. apply Permutation_length in E. cbn in E. lia.
Qed.

(** ** Whole trackers *)

Record tracker_ok (t : tracker) : Prop := { tk_threads : table_ok MAX_THREAD_RECORDS (threads t); tk_functions : table_ok MAX_FUNCTION_RECORDS (functions t) }.
Lemma entries_empty n : entries (no_records n) = [].
Proof. unfold entries, no_records. cbn [slots]. induction n as [|n IH]; [done|exact IH]. Qed.
Lemma no_records_ok n : (0 < n)%nat -> table_ok n (no_records n).
Proof. intros Hn. constructor; [by cbn; rewrite length_replicate|done|by rewrite entries_empty]. Qed.
Lemma tracker_start_ok : tracker_ok tracker_start.
Proof. constructor; apply no_records_ok; cbv; lia. Qed.
Definition table_of (k : tracked) (t : tracker) : records := match k with Threads => threads t | Functions => functions t end.
Definition capacity (k : tracked) : nat := match k with Threads => MAX_THREAD_RECORDS | Functions => MAX_FUNCTION_RECORDS end.
Lemma tracker_table k t : tracker_ok t -> table_ok (capacity k) (table_of k t).
Proof. intros [H1 H2]. by destruct k. Qed.
(** Before the first creation the tables are empty. *)
Definition untouched (t : tracker) : Prop := tracker_initialized t = false -> threads t = no_records MAX_THREAD_RECORDS /\ functions t = no_records MAX_FUNCTION_RECORDS.
Lemma init_id t : untouched t -> threads (thread_tracker_init t) = threads t /\ functions (thread_tracker_init t) = functions t /\ tracker_initialized (thread_tracker_init t) = true.
Proof. unfold thread_tracker_init. destruct (tracker_initialized t) eqn:Ei; [done|]. intros [E1 E2]; [done|]. rewrite E1, E2. done. Qed.

(** One operation, table by table. *)
Definition other (k : tracked) : tracked := match k with Threads => Functions | Functions => Threads end.
Inductive table_step (o : track_op) (k : tracked) (t t' : tracker) : Prop :=
  | step_same : table_of k t' = table_of k t -> (forall l r now, o <> TCreate k l r now) ->
      (forall r, o = TDestroy k r -> r ∉ (entries (table_of k t)).*1) ->
      (forall r, o = TClear r -> r ∉ (entries (table_of k t)).*1 \/ k = Functions /\ r ∈ (entries (threads t)).*1) -> table_step o k t t'
  | step_create l r now : o = TCreate k l r now -> ref_count (table_of k t') = ref_count (table_of k t) + 1 ->
      created (capacity k) (new_entry l r now) (table_of k t) (table_of k t') -> table_step o k t t'
  | step_destroy r x : o = TDestroy k r \/ o = TClear r /\ (k = Functions -> r ∉ (entries (threads t)).*1) -> ref_count (table_of k t') = ref_count (table_of k t) - 1 ->
      overflow_count (table_of k t') = overflow_count (table_of k t) -> entries (table_of k t) ≡ₚ (r, x) :: entries (table_of k t') -> table_step o k t t'.

Definition create_room (o : track_op) (t : tracker) : Prop := match o with TCreate k _ _ _ => ref_count (table_of k t) < 2 ^ 31 - 1 | _ => True end.
Lemma destroy_untouched r k t : untouched t -> tracker_initialized t = false -> r ∉ (entries (table_of k t)).*1.
Proof. intros Hu Hi. destruct (Hu Hi) as [E1 E2]. destruct k; cbn; rewrite ?E1, ?E2, entries_empty; apply not_elem_of_nil. Qed.
Definition stepped (o : track_op) (t t' : tracker) : Prop := tracker_ok t' /\ untouched t' /\ forall k, table_step o k t t'.
Lemma create_ok k l r now t : tracker_ok t -> untouched t -> ref_count (table_of k t) < 2 ^ 31 - 1 -> returns (track_exec (TCreate k l r now) t) (stepped (TCreate k l r now) t).
Proof.
  intros Ht Hu Hr. destruct (init_id t Hu) as (E1 & E2 & E3). destruct Ht as [H1 H2]. destruct k; cbn [track_exec]; cbn in Hr.
  - unfold thread_tracker_log_create. rewrite E1. pose proof (log_create_ok _ _ REF_TYPE_THREAD l r now H1 Hr) as Hx. apply returns_inv in Hx as (s & -> & Hs & Ec & Hc). cbn [mbind outcome_bind returns].
    split; [constructor; [exact Hs|cbn; by rewrite E2]|]. split; [intros Hi; cbn in Hi; congruence|]. intros [|]; [by eapply step_create|]. apply step_same; [exact E2|congruence|congruence|congruence].
  - unfold function_tracker_log_create. rewrite E2. pose proof (log_create_ok _ _ REF_TYPE_FUNCTION l r now H2 Hr) as Hx. apply returns_inv in Hx as (s & -> & Hs & Ec & Hc). cbn [mbind outcome_bind returns].
    split; [constructor; [cbn; by rewrite E1|exact Hs]|]. split; [intros Hi; cbn in Hi; congruence|]. intros [|]; [|by eapply step_create]. apply step_same; [exact E1|congruence|congruence|congruence].
Qed.
(** Only one table changes, and nothing before the first creation. *)
Lemma nothing_destroyed o t : tracker_ok t -> untouched t -> (forall k l r now, o <> TCreate k l r now) -> tracker_initialized t = false -> stepped o t t.
Proof.
  intros Ht Hu Hn Hi. split; [done|]. split; [done|]. intros k. apply step_same; [done|by intros l r now|by intros r _; apply destroy_untouched|intros r _; left; by apply destroy_untouched].
Qed.
Lemma set_table_ok k s t : tracker_ok t -> table_ok (capacity k) s -> tracker_ok (match k with Threads => set_threads s t | Functions => set_functions s t end).
Proof. intros [H1 H2] Hs. destruct k; by constructor. Qed.
Lemma destroy_ok k r t : tracker_ok t -> untouched t -> returns (track_exec (TDestroy k r) t) (stepped (TDestroy k r) t).
Proof.
  intros Ht Hu. pose proof (log_destroy_ok _ _ r (tracker_table k t Ht)) as Hx.
  destruct k; cbn [track_exec returns table_of] in *; unfold thread_tracker_log_destroy, function_tracker_log_destroy; (destruct (tracker_initialized t) eqn:Hi; cbn [negb]; [|by apply nothing_destroyed]).
  - destruct (log_destroy r (threads t)) as [s|].
    + destruct Hx as (Hs & Ec & Eo & x & Ex). split; [by apply (set_table_ok Threads)|]. split; [intros E; cbn in E; congruence|].
      intros [|]; [apply (step_destroy _ _ _ _ r x); [by left|exact Ec|exact Eo|exact Ex]|]. apply step_same; [done|done|congruence|congruence].
    + split; [done|]. split; [done|]. intros [|]; (apply step_same; [done|done| |congruence]); [by intros ? [= <-]|congruence].
  - destruct (log_destroy r (functions t)) as [s|].
    + destruct Hx as (Hs & Ec & Eo & x & Ex). split; [by apply (set_table_ok Functions)|]. split; [intros E; cbn in E; congruence|].
      intros [|]; [|apply (step_destroy _ _ _ _ r x); [by left|exact Ec|exact Eo|exact Ex]]. apply step_same; [done|done|congruence|congruence].
    + split; [done|]. split; [done|]. intros [|]; (apply step_same; [done|done| |congruence]); [congruence|by intros ? [= <-]].
Qed.
Lemma clear_ok r t : tracker_ok t -> untouched t -> returns (track_exec (TClear r) t) (stepped (TClear r) t).
Proof.
  intros Ht Hu. pose proof (log_destroy_ok _ _ r (tk_threads _ Ht)) as H1. pose proof (log_destroy_ok _ _ r (tk_functions _ Ht)) as H2.
  cbn [track_exec returns]. unfold ref_tracker_log_destroy. destruct (tracker_initialized t) eqn:Hi; cbn [negb]; [|by apply nothing_destroyed].
  destruct (log_destroy r (threads t)) as [s|].
  - destruct H1 as (Hs & Ec & Eo & x & Ex). split; [by apply (set_table_ok Threads)|]. split; [intros E; cbn in E; congruence|].
    assert (Hin : r ∈ (entries (threads t)).*1) by (rewrite Ex; by left).
    intros [|]; [apply (step_destroy _ _ _ _ r x); [by right|exact Ec|exact Eo|exact Ex]|]. apply step_same; [done|done|congruence|]. intros ? [= <-]. by right.
  - destruct (log_destroy r (functions t)) as [s|].
    + destruct H2 as (Hs & Ec & Eo & x & Ex). split; [by apply (set_table_ok Functions)|]. split; [intros E; cbn in E; congruence|].
      intros [|]; [apply step_same; [done|done|congruence|intros ? [= <-]; by left]|]. apply (step_destroy _ _ _ _ r x); [by right|exact Ec|exact Eo|exact Ex].
    + split; [done|]. split; [done|]. intros [|]; (apply step_same; [done|done|congruence|intros ? [= <-]; by left]).
Qed.
Lemma track_exec_ok o t : tracker_ok t -> untouched t -> create_room o t -> returns (track_exec o t) (stepped o t).
Proof. destruct o as [k l r now|k r|r]; intros Ht Hu Hr; [by apply create_ok|by apply destroy_ok|by apply clear_ok]. Qed.

(** ** What the counts mean *)

Lemma track_room o t t' : untouched t -> track_exec o t = Ret t' -> create_room o t.
Proof.
  intros Hu. destruct (init_id t Hu) as (E1 & E2 & _). destruct o as [[|] l r now|k r|r]; [| |done|done]; cbn; unfold thread_tracker_log_create, function_tracker_log_create, log_create; rewrite ?E1, ?E2;
    destruct (Z.leb_spec (2 ^ 31 - 1) (ref_count (threads t))), (Z.leb_spec (2 ^ 31 - 1) (ref_count (functions t))); done.
Qed.
Lemma track_run_ok l : forall t, tracker_ok t -> untouched t -> forall t', track_run l t = Ret t' -> tracker_ok t' /\ untouched t'.
Proof.
  induction l as [|o l IH]; intros t Ht Hu t' E; [by injection E as <-|]. apply bind_ret in E as (t1 & E1 & E). pose proof (track_exec_ok o t Ht Hu (track_room o t t1 Hu E1)) as Hx.
  rewrite E1 in Hx. destruct Hx as (Ht1 & Hu1 & _). by apply (IH t1).
Qed.
Lemma start_untouched : untouched tracker_start.
Proof. by intros _. Qed.
(** What the count has too much. *)
Definition drift (k : tracked) (t : tracker) : Z := ref_count (table_of k t) - Zlen (entries (table_of k t)).
(** A creation that is not a reference more. *)
Definition not_more (k : tracked) (o : track_op) (t : tracker) : Prop :=
  match o with
  | TCreate k' _ r _ => k' = k /\ (r ∈ (entries (table_of k t)).*1 \/ length (entries (table_of k t)) = capacity k)
  | _ => False
  end.
#[export] Instance tracked_dec : EqDecision tracked.
Proof. solve_decision. Defined.
#[export] Instance not_more_dec k o t : Decision (not_more k o t).
Proof. unfold not_more. destruct o; apply _. Defined.

(** The count of a table is at no time less than what the table has.  It gets ahead by one with every creation that takes the place of a reference in use,
    because it is the same one or because the table is full, and never comes back; no other operation changes the difference, and destroying a reference that is not
    in the table, one that was overwritten for instance, changes nothing. *)
Theorem tracker_drifts ops t : track_run ops tracker_start = Ret t -> forall k, 0 <= drift k t /\
  forall o t', track_exec o t = Ret t' -> drift k t' = drift k t + (if decide (not_more k o t) then 1 else 0) /\
    (forall r, o = TDestroy k r \/ o = TClear r -> r ∉ (entries (table_of k t)).*1 -> table_of k t' = table_of k t).
Proof.
  intros E k. destruct (track_run_ok ops _ tracker_start_ok start_untouched t E) as [Ht Hu]. pose proof (tracker_table k t Ht) as [H1 H2 H3]. unfold drift. split; [unfold Zlen; lia|].
  intros o t' Ex. pose proof (track_exec_ok o t Ht Hu (track_room o t t' Hu Ex)) as Hx. rewrite Ex in Hx. destruct Hx as (_ & _ & Hs). destruct (Hs k) as [Es Hno Hd Hc|l r now -> Er Hc|r x Ho Er _ Hp].
  - split; [|by intros r _ _]. rewrite Es. destruct (decide (not_more k o t)) as [Hn|Hn]; [|lia]. destruct o as [k' l r now| |]; [|done|done]. destruct Hn as [-> _]. by destruct (Hno l r now).
  - split; [|by intros ? [?|?]]. rewrite Er. unfold Zlen. destruct (decide _) as [Hn|Hn]; cbn [not_more new_entry fst] in Hn, Hc.
    + destruct Hc as [x rest E1 E2 _|Hf Hl E2 _|x rest Hf Hl E1 E2 _]; [rewrite E1, E2; cbn; lia| |rewrite E1, E2; cbn; lia].
      destruct Hn as [_ [Hn|Hn]]; [done|lia].
    + destruct Hc as [x rest E1 E2 _|Hf Hl E2 _|x rest Hf Hl E1 E2 _]; [|rewrite E2; cbn; lia|by destruct Hn; split; [|right]].
      destruct Hn. split; [done|]. left. rewrite E1. by left.
  - split.
    + unfold Zlen. rewrite Er, (Permutation_length Hp). cbn [length]. rewrite decide_False; [lia|]. by (destruct Ho as [-> | [-> _]]; intros []).
    + intros r' Ho' Hn. destruct Hn. rewrite Hp. assert (r' = r) as -> by (destruct Ho as [-> | [-> _]], Ho' as [|]; congruence). by left.
Qed.

(** ** The references that are alive *)

(** What the tracker is meant to know: the live references, where and when they were made. *)
Abbreviation known := (gmap Z (list Z * Z)).
Record live : Type := mk_live { lv_threads : known; lv_functions : known }.
Definition none_alive : live := mk_live ∅ ∅.
Definition live_of (k : tracked) (v : live) : known := match k with Threads => lv_threads v | Functions => lv_functions v end.
Definition set_live (k : tracked) (m : known) (v : live) : live := match k with Threads => mk_live m (lv_functions v) | Functions => mk_live (lv_threads v) m end.
Definition track_spec (o : track_op) (v : live) : live :=
  match o with
  | TCreate k l r now => set_live k (<[r := (kept_location l, now)]> (live_of k v)) v
  | TDestroy k r => set_live k (delete r (live_of k v)) v
  | TClear r => match lv_threads v !! r with Some _ => set_live Threads (delete r (lv_threads v)) v | None => set_live Functions (delete r (lv_functions v)) v end
  end.
Definition track_specs (l : list track_op) (v : live) : live := foldl (fun v o => track_spec o v) v l.
(** References are made once while they are alive, and there is room for them. *)
Fixpoint tracked_ok (l : list track_op) (v : live) : Prop :=
  match l with
  | [] => True
  | o :: l => match o with TCreate k _ r _ => live_of k v !! r = None /\ (size (live_of k v) < capacity k)%nat | _ => True end /\ tracked_ok l (track_spec o v)
  end.

Record represents (t : tracker) (v : live) : Prop := {
  rp_entries : forall k, entries (table_of k t) ≡ₚ map_to_list (live_of k v);
  rp_count : forall k, ref_count (table_of k t) = Z.of_nat (size (live_of k v));
  rp_overflow : forall k, overflow_count (table_of k t) = 0
}.
Lemma represents_elem t v k r : represents t v -> r ∈ (entries (table_of k t)).*1 <-> is_Some (live_of k v !! r).
Proof.
  intros [Hp _ _]. rewrite (Hp k), list_elem_of_fmap. split.
  - intros ([r' x] & -> & Hx). apply elem_of_map_to_list in Hx. by exists x.
  - intros [x Hx]. exists (r, x). split; [done|]. by apply elem_of_map_to_list.
Qed.
Lemma represents_size t v k : represents t v -> length (entries (table_of k t)) = size (live_of k v).
Proof. intros [Hp _ _]. by rewrite (Hp k), length_map_to_list. Qed.
(** What becomes of one table. *)
Definition spec_table (o : track_op) (k : tracked) (v : live) : known := live_of k (track_spec o v).
Lemma spec_other k k' m v : live_of k (set_live k' m v) = if decide (k = k') then m else live_of k v.
Proof. by destruct k, k'. Qed.

Lemma refine_same o k t t' v : represents t v -> table_of k t' = table_of k t -> spec_table o k v = live_of k v ->
  entries (table_of k t') ≡ₚ map_to_list (spec_table o k v) /\ ref_count (table_of k t') = Z.of_nat (size (spec_table o k v)) /\ overflow_count (table_of k t') = 0.
Proof. intros [H1 H2 H3] -> ->. auto. Qed.
Lemma refine_table o k t t' v : represents t v -> table_step o k t t' ->
  match o with TCreate k' _ r _ => live_of k' v !! r = None /\ (size (live_of k' v) < capacity k')%nat | _ => True end ->
  entries (table_of k t') ≡ₚ map_to_list (spec_table o k v) /\ ref_count (table_of k t') = Z.of_nat (size (spec_table o k v)) /\ overflow_count (table_of k t') = 0.
Proof.
  intros Hv Hs Ho. destruct Hs as [Es Hno Hd Hc|l r now -> Er Hc|r x Hr Er Eo Hp].
  - apply (refine_same o k t); [done|done|]. unfold spec_table. destruct o as [k' l r now|k' r|r]; cbn [track_spec].
    + rewrite spec_other, decide_False; [done|]. intros ->. by eapply Hno.
    + rewrite spec_other. destruct (decide (k = k')) as [<-|]; [|done]. apply delete_id. pose proof (Hd r eq_refl) as Hn. rewrite (represents_elem _ _ _ _ Hv) in Hn. by apply eq_None_not_Some.
    + destruct (lv_threads v !! r) as [y|] eqn:Ey; rewrite spec_other; (destruct (decide _) as [->|]; [|done]).
      * destruct (Hc r eq_refl) as [Hn|[? _]]; [|done]. destruct Hn. apply (represents_elem _ _ Threads r Hv). by exists y.
      * apply delete_id. destruct (Hc r eq_refl) as [Hn|[_ Hin]].
        -- rewrite (represents_elem _ _ _ _ Hv) in Hn. by apply eq_None_not_Some.
        -- apply (represents_elem _ _ Threads r Hv) in Hin as [z Hz]. cbn in Hz. congruence.
  - destruct Ho as [Hf Hl]. unfold spec_table. cbn [track_spec]. rewrite spec_other, decide_True by done. rewrite Er. destruct Hv as [H1 H2 H3].
    assert (Hn : r ∉ (entries (table_of k t)).*1) by (rewrite (represents_elem t v k r); [by rewrite Hf; intros []|done]).
    destruct Hc as [x rest E1 _ _|_ _ E2 Eo|x rest _ Hfull _ _ _]; cbn [new_entry fst] in *.
    + destruct Hn. rewrite E1. by left.
    + rewrite E2, Eo, H1, map_to_list_insert, map_size_insert_None, H2, H3 by done. split; [done|]. split; [lia|done].
    + rewrite (represents_size t v k) in Hfull by done. lia.
  - assert (Hx : live_of k v !! r = Some x).
    { apply elem_of_map_to_list. rewrite <- (rp_entries _ _ Hv k), Hp. by left. }
    assert (Es : spec_table o k v = delete r (live_of k v)).
    { unfold spec_table. destruct Hr as [-> | [-> Hf]]; cbn [track_spec]; [by rewrite spec_other, decide_True|]. destruct k.
      - cbn in Hx. by rewrite Hx.
      - specialize (Hf eq_refl). destruct (lv_threads v !! r) as [y|] eqn:Ey; [|done]. destruct Hf. apply (represents_elem _ _ Threads r Hv). by exists y. }
    rewrite Es, Er, Eo, (rp_count _ _ Hv k), (rp_overflow _ _ Hv k). split; [|split; [|done]].
    + apply (Permutation_cons_inv (a := (r, x))). rewrite <- Hp, (rp_entries _ _ Hv k). symmetry. by apply map_to_list_delete.
    + rewrite map_size_delete_Some by (by exists x). assert (size (live_of k v) <> 0)%nat; [|lia]. intros Hz. apply map_size_empty_inv in Hz. by rewrite Hz in Hx.
Qed.

Definition age_line (now : Z) (e : Z * (list Z * Z)) : Z * Z * list Z := (e.1, now - e.2.2, e.2.1).
Lemma active_lines_entries now s : active_lines now s = map (age_line now) (entries s).
Proof.
  unfold active_lines, entries. induction (slots s) as [|r l IH]; [done|]. cbn. rewrite map_app, <- IH. unfold line_of, entry_of. by destruct (rr_active r).
Qed.
(** The references of a table that are older than 30 seconds. *)
Definition old_refs (now : Z) (m : known) : list (Z * (list Z * Z)) := List.filter (fun e => 30 <? now - e.2.2) (map_to_list m).
Lemma table_lines t v k now : represents t v -> active_lines now (table_of k t) ≡ₚ map (age_line now) (map_to_list (live_of k v)).
Proof. intros Hv. rewrite active_lines_entries. by rewrite (rp_entries _ _ Hv k). Qed.
Lemma print_ok t v k now ls : represents t v -> print_records now (table_of k t) = Some ls ->
  ls_mismatch ls = false /\ ls_lines ls ≡ₚ map (age_line now) (map_to_list (live_of k v)).
Proof.
  intros Hv. unfold print_records. destruct (0 <? _); [|done]. intros [= <-]. cbn. split; [|by apply table_lines]. unfold Zlen.
  rewrite (Permutation_length (table_lines t v k now Hv)), length_map, length_map_to_list, (rp_count _ _ Hv k). by rewrite Z.eqb_refl.
Qed.
Lemma filter_length {A} (p : A -> bool) (l k : list A) : l ≡ₚ k -> length (List.filter p l) = length (List.filter p k).
Proof. induction 1 as [|x l k _ IH|x y l|l k m _ IH1 _ IH2]; cbn; [done|destruct (p x); cbn; lia|destruct (p x), (p y); done|lia]. Qed.
Lemma check_records_ok t v k now : represents t v -> Zlen (List.filter snd (check_records now (table_of k t))) = Zlen (old_refs now (live_of k v)).
Proof.
  intros Hv. assert (Hall : forall l, length (List.filter snd (map (fun x => (x, long_lived x)) (map (age_line now) l))) = length (List.filter (fun e => 30 <? now - e.2.2) l)).
  { intros l. induction l as [|e l IH]; [done|]. cbn. unfold long_lived at 1. cbn. destruct (30 <? now - e.2.2); cbn; lia. }
  unfold check_records, old_refs, Zlen. rewrite (rp_count _ _ Hv k). destruct (Z.ltb_spec 0 (Z.of_nat (size (live_of k v)))).
  - rewrite active_lines_entries, Hall. f_equal. apply filter_length, (rp_entries _ _ Hv k).
  - assert (Hz : size (live_of k v) = 0%nat) by lia. apply map_size_empty_inv in Hz. rewrite Hz. done.
Qed.
Lemma represents_start : represents tracker_start none_alive.
Proof. constructor; intros [|]; cbn; try done; by rewrite entries_empty, map_to_list_empty. Qed.
Lemma track_refines_run l : forall t v, tracker_ok t -> untouched t -> represents t v -> tracked_ok l v ->
  returns (track_run l t) (fun t' => tracker_ok t' /\ untouched t' /\ represents t' (track_specs l v)).
Proof.
  induction l as [|o l IH]; intros t v Ht Hu Hv Ha; [done|]. destruct Ha as [Ho Ha]. cbn [track_run track_specs foldl].
  assert (Hroom : create_room o t).
  { destruct o as [k l' r now| |]; [|done|done]. cbn. rewrite (rp_count _ _ Hv k). destruct Ho as [_ Ho]. assert (Z.of_nat (capacity k) <= 2000) by (by destruct k). lia. }
  pose proof (track_exec_ok o t Ht Hu Hroom) as Hx. apply returns_inv in Hx as (t1 & -> & Ht1 & Hu1 & Hs). cbn [mbind outcome_bind]. apply IH; [done|done| |done].
  constructor; intros k; destruct (refine_table o k t t1 v Hv (Hs k) Ho) as (H1 & H2 & H3); done.
Qed.

(** As long as no more references are alive than there is room for, the tracker knows exactly the references that are alive, where and when they were made;
    the counts are their numbers, the listing names each once and never reports a mismatch, the check finds those that are older than 30 seconds, and
    says that there is nothing exactly when nothing is alive. *)
Theorem tracker_refines ops now : tracked_ok ops none_alive -> returns (track_run ops tracker_start) (fun t => let v := track_specs ops none_alive in
  represents t v /\
  (forall sm, thread_tracker_print_active now t = Some sm -> sm_threads sm = Z.of_nat (size (lv_threads v)) /\ sm_functions sm = Z.of_nat (size (lv_functions v)) /\
     (forall ls, sm_thread_list sm = Some ls -> ls_mismatch ls = false /\ ls_lines ls ≡ₚ map (age_line now) (map_to_list (lv_threads v))) /\
     (forall ls, sm_function_list sm = Some ls -> ls_mismatch ls = false /\ ls_lines ls ≡ₚ map (age_line now) (map_to_list (lv_functions v)))) /\
  (forall ck, thread_tracker_periodic_check now t = Some ck -> ck_long_lived ck = Zlen (old_refs now (lv_threads v)) + Zlen (old_refs now (lv_functions v))) /\
  (thread_tracker_periodic_check now t = None <-> v = none_alive)).
Proof.
  intros Ha. eapply returns_mono; [apply (track_refines_run ops _ none_alive tracker_start_ok start_untouched represents_start Ha)|]. intros t (Ht & Hu & Hv). set (v := track_specs _ _) in *.
  cbn zeta. split; [done|]. split; [|split].
  - intros sm. unfold thread_tracker_print_active. destruct (tracker_initialized t); [|done]. intros [= <-]. cbn. split; [apply (rp_count _ _ Hv Threads)|]. split; [apply (rp_count _ _ Hv Functions)|].
    split; intros ls Hl; [by apply (print_ok t v Threads)|by apply (print_ok t v Functions)].
  - intros ck. unfold thread_tracker_periodic_check. destruct (tracker_initialized t); [|done]. cbn [negb]. destruct (0 <? _); [|done]. intros [= <-]. cbn [ck_long_lived].
    f_equal; [apply (check_records_ok t v Threads now Hv)|apply (check_records_ok t v Functions now Hv)].
  - unfold thread_tracker_periodic_check, thread_tracker_get_count, function_tracker_get_count. pose proof (rp_count _ _ Hv Threads) as E1. pose proof (rp_count _ _ Hv Functions) as E2. cbn in E1, E2.
    assert (Hz : size (lv_threads v) = 0%nat /\ size (lv_functions v) = 0%nat <-> v = none_alive).
    { split; [|by intros ->]. intros [Hz1%map_size_empty_inv Hz2%map_size_empty_inv]. destruct v as [a b]. cbn in *. by rewrite Hz1, Hz2. }
    rewrite <- Hz. destruct (tracker_initialized t) eqn:Ei; cbn [negb].
    + rewrite E1, E2. destruct (Z.ltb_spec 0 (Z.of_nat (size (lv_threads v)) + Z.of_nat (size (lv_functions v)))); split; intros; try done; lia.
    + destruct (Hu Ei) as [F1 F2]. rewrite F1 in E1. rewrite F2 in E2. cbn in E1, E2. split; [lia|done].
Qed.

(** ** Concrete runs *)

Definition three_ops : list track_op := [TCreate Threads (Some (lit "tcpd.c:10")) 5 100; TCreate Functions None 6 120; TClear 5].
Lemma three_ops_ok : tracked_ok three_ops none_alive.
Proof. unfold three_ops. repeat (split; [vm_compute; try (split; [reflexivity|lia]); exact I|]). exact I. Qed.
Definition after (l : list track_op) : tracker := match track_run l tracker_start with Ret t => t | _ => tracker_start end.
Lemma tracker_refines_witness : represents (after three_ops) (mk_live ∅ {[6 := (lit "unknown", 120)]}) /\
  exists ck, thread_tracker_periodic_check 200 (after three_ops) = Some ck /\ ck_long_lived ck = 1.
Proof.
  pose proof (tracker_refines three_ops 200 three_ops_ok) as X. unfold after. destruct (track_run three_ops tracker_start) as [t| |] eqn:E; [|destruct X|destruct X].
  destruct X as (Hr & _ & Hc & Hn). split; [vm_compute in Hr; vm_compute; exact Hr|].
  destruct (thread_tracker_periodic_check 200 t) as [ck|] eqn:Ec.
  - exists ck. split; [reflexivity|]. rewrite (Hc ck eq_refl). vm_compute. reflexivity.
  - exfalso. assert (Hx : track_specs three_ops none_alive = none_alive) by (apply Hn; reflexivity). vm_compute in Hx. discriminate.
Defined.
Lemma tracker_drifts_witness : drift Threads (after [TCreate Threads None 5 100]) = 0 /\ drift Threads (after [TCreate Threads None 5 100; TCreate Threads None 5 101]) = 1.
Proof.
  assert (E : track_run [TCreate Threads None 5 100] tracker_start = Ret (after [TCreate Threads None 5 100])) by (vm_compute; reflexivity).
  destruct (tracker_drifts _ _ E Threads) as [_ X].
  assert (Ex : track_exec (TCreate Threads None 5 101) (after [TCreate Threads None 5 100]) = Ret (after [TCreate Threads None 5 100; TCreate Threads None 5 101])) by (vm_compute; reflexivity).
  destruct (X _ _ Ex) as [Hd _]. split; [vm_compute; reflexivity|]. rewrite Hd. vm_compute. reflexivity.
Defined.

(** One reference too many, and the count is not zero when all are gone. *)
Definition many (n : nat) : list Z := map Z.of_nat (seq 0 n).
Lemma tracker_overflow : let t := after (map (fun r => TCreate Threads None r 0) (many 1001) ++ map TClear (many 1001)) in
  entries (threads t) = [] /\ thread_tracker_get_count t = 1 /\ overflow_count (threads t) = 1 /\
  thread_tracker_print_active 0 t = Some (mk_summary 1 0 (Some (mk_listing [] true)) None).
Proof. vm_compute. repeat split. Qed.
