(* ===== verification/HttpSockets.v ===== *)
(** * src/http.c: the sockets and timers of libcurl

    libcurl says which sockets to watch ([sock_cb]) and when it wants to be called
    ([multi_timer_cb]); libevent calls [event_cb] and [timer_cb], which call libcurl
    again.  libcurl is not under src/: the callbacks it makes while it is called are
    an argument ([lcall]), what it is called with is recorded.  What it promises is
    that the pointer it gives for a socket is the one it was given last
    ([curl_multi_assign]), none for a new socket, and that it forgets a socket when
    it asks to stop watching it.  A SockInfo or an event that is freed has no
    meaning.  [curl_multi_init] is taken to succeed.  The requests themselves are in
    HttpClient. *)

From S2P Require Import Prelude.

Definition CURL_POLL_NONE : Z := 0.
Definition CURL_POLL_IN : Z := 1.
Definition CURL_POLL_OUT : Z := 2.
Definition CURL_POLL_INOUT : Z := 3.
Definition CURL_POLL_REMOVE : Z := 4.
Definition CURL_CSELECT_IN : Z := 1.
Definition CURL_CSELECT_OUT : Z := 2.
Definition CURL_SOCKET_TIMEOUT : Z := -1.
Definition EV_READ : Z := 2.
Definition EV_WRITE : Z := 4.
Definition EV_PERSIST : Z := 16.

(** ** State *)

(** [ev]: the event, when [evset]. *)
Record SockInfo : Type := mk_sock { sockfd : Z; s_action : Z; s_ev : option positive }.
Record sevent : Type := mk_sevent { se_fd : Z; se_kind : Z }.
(** A timer that exists, and what it waits for: seconds and microseconds. *)
Record timer : Type := mk_timer { pending : option (Z * Z) }.
(** [p_assigned]: libcurl's pointer for each socket it watches; [p_actions]: the calls of
    [curl_multi_socket_action]. *)
Record poller : Type := mk_poller {
  p_socks : gmap positive SockInfo;
  p_events : gmap positive sevent;
  p_assigned : gmap Z positive;
  timer_event : option timer;
  timer_check_multi_info : option timer;
  p_multi : bool;
  still_running : Z;
  p_actions : list (Z * Z)
}.
Definition poller_start : poller := mk_poller ∅ ∅ ∅ None None false 0 [].

Section Poller.
Implicit Type p : poller.
Definition set_socks x p : poller := mk_poller x (p_events p) (p_assigned p) (timer_event p) (timer_check_multi_info p) (p_multi p) (still_running p) (p_actions p).
Definition set_events x p : poller := mk_poller (p_socks p) x (p_assigned p) (timer_event p) (timer_check_multi_info p) (p_multi p) (still_running p) (p_actions p).
Definition set_assigned x p : poller := mk_poller (p_socks p) (p_events p) x (timer_event p) (timer_check_multi_info p) (p_multi p) (still_running p) (p_actions p).
Definition set_timer x p : poller := mk_poller (p_socks p) (p_events p) (p_assigned p) x (timer_check_multi_info p) (p_multi p) (still_running p) (p_actions p).
Definition set_check x p : poller := mk_poller (p_socks p) (p_events p) (p_assigned p) (timer_event p) x (p_multi p) (still_running p) (p_actions p).
Definition set_running m n p : poller := mk_poller (p_socks p) (p_events p) (p_assigned p) (timer_event p) (timer_check_multi_info p) m n (p_actions p).
Definition log_action x p : poller := mk_poller (p_socks p) (p_events p) (p_assigned p) (timer_event p) (timer_check_multi_info p) (p_multi p) (still_running p) (p_actions p ++ [x]).

(** [event_add] on a timer that was not made has no meaning. *)
Definition timer_add (t : option timer) (tv : Z * Z) : outcome (option timer) := match t with Some _ => Ret (Some (mk_timer (Some tv))) | None => UB end.
Definition multi_timer_cb (timeout_ms : Z) p : outcome poller :=
  t ← timer_add (timer_event p) (Z.quot timeout_ms 1000, Z.rem timeout_ms 1000 * 1000); Ret (set_timer t p).

Definition sock_at (f : positive) p : outcome SockInfo := match p_socks p !! f with Some x => Ret x | None => UB end.
Definition free_event (e : positive) p : outcome poller := match p_events p !! e with Some _ => Ret (set_events (delete e (p_events p)) p) | None => UB end.
Definition free_event_opt (e : option positive) p : outcome poller := match e with Some e => free_event e p | None => Ret p end.
Definition remsock (f : option positive) p : outcome poller :=
  match f with
  | None => Ret p
  | Some f => x ← sock_at f p; p ← free_event_opt (s_ev x) p; Ret (set_socks (delete f (p_socks p)) p)
  end.
Definition kind_of (act : Z) : Z :=
  Z.lor (Z.lor (if c_true (Z.land act CURL_POLL_IN) then EV_READ else 0) (if c_true (Z.land act CURL_POLL_OUT) then EV_WRITE else 0)) EV_PERSIST.
(** [ok]: there is memory for the event; without, [event_add] is given none. *)
Definition setsock (f : positive) (s act : Z) (ok : bool) p : outcome poller :=
  x ← sock_at f p;
  p ← free_event_opt (s_ev x) p;
  if negb ok then UB
  else
    let e := fresh (dom (p_events p)) in
    Ret (set_socks (<[f := mk_sock s act (Some e)]> (p_socks p)) (set_events (<[e := mk_sevent s (kind_of act)]> (p_events p)) p)).
Definition addsock (s act : Z) (mem ok : bool) p : outcome poller :=
  if negb mem then UB
  else
    let f := fresh (dom (p_socks p)) in
    p ← setsock f s act ok (set_socks (<[f := mk_sock 0 0 None]> (p_socks p)) p);
    Ret (set_assigned (<[s := f]> (p_assigned p)) p).
Definition sock_cb (s what : Z) (mem ok : bool) (sockp : option positive) p : outcome poller :=
  if what =? CURL_POLL_REMOVE then remsock sockp p
  else match sockp with None => addsock s what mem ok p | Some f => setsock f s what ok p end.

(** ** libcurl calls back *)

Inductive lcall : Type := LSocket (s what : Z) (mem ok : bool) | LTimer (timeout_ms : Z).
Definition libcurl_calls (c : lcall) p : outcome poller :=
  match c with
  | LSocket s what mem ok =>
      p ← sock_cb s what mem ok (p_assigned p !! s) p;
      Ret (if what =? CURL_POLL_REMOVE then set_assigned (delete s (p_assigned p)) p else p)
  | LTimer ms => multi_timer_cb ms p
  end.
Fixpoint libcurl_run (l : list lcall) p : outcome poller := match l with [] => Ret p | c :: l => p ← libcurl_calls c p; libcurl_run l p end.
(** [curl_multi_socket_action]: a handle that is gone has no meaning. *)
Definition socket_action (s action running : Z) (l : list lcall) p : outcome poller :=
  if negb (p_multi p) then UB else p ← libcurl_run l (log_action (s, action) p); Ret (set_running (p_multi p) running p).

(** ** libevent calls *)

Definition action_of (kind : Z) : Z :=
  Z.lor (if c_true (Z.land kind EV_READ) then CURL_CSELECT_IN else 0) (if c_true (Z.land kind EV_WRITE) then CURL_CSELECT_OUT else 0).
(** [evtimer_pending], [evtimer_del] *)
Definition timer_del (t : option timer) : outcome (option timer) := match t with Some _ => Ret (Some (mk_timer None)) | None => UB end.
Definition event_cb (fd kind running : Z) (l : list lcall) p : outcome poller :=
  p ← socket_action fd (action_of kind) running l p;
  t ← timer_add (timer_check_multi_info p) (0, 100);
  let p := set_check t p in
  if still_running p <=? 0 then t ← timer_del (timer_event p); Ret (set_timer t p) else Ret p.
Definition timer_cb (running : Z) (l : list lcall) p : outcome poller :=
  p ← socket_action CURL_SOCKET_TIMEOUT 0 running l p;
  t ← timer_add (timer_check_multi_info p) (0, 1000);
  Ret (set_check t p).

(** [http_getpost], as far as it concerns sockets: the handle is made when there is none, and
    adding a request may call back. *)
Definition add_request (l : list lcall) p : outcome poller := libcurl_run l (set_running true (still_running p) p).
(** [timer_check_multi_info_cb]: removing the handles of requests that are done may too. *)
Definition check_messages (l : list lcall) p : outcome poller := if p_multi p then libcurl_run l p else UB.
(** [cleanup_http_curl], after the requests: [l1] while their handles are removed, [l2] while
    [curl_multi_cleanup] lets go of the rest. *)
Definition cleanup_sockets (l1 l2 : list lcall) p : outcome poller :=
  p ← libcurl_run l1 p;
  p ← (if p_multi p then p ← libcurl_run l2 p; Ret (set_running false (still_running p) p) else Ret p);
  Ret (set_running (p_multi p) 0 (set_check None (set_timer None p))).
(** [luaopen_fan_http_core] *)
Definition make_timers p : poller :=
  set_check (Some (default (mk_timer None) (timer_check_multi_info p))) (set_timer (Some (default (mk_timer None) (timer_event p))) p).
End Poller.

(** ** Steps *)

Inductive pop : Type :=
  | PAdd (l : list lcall) | PEvent (fd kind running : Z) (l : list lcall) | PTimer (running : Z) (l : list lcall) | PMessages (l : list lcall)
  | PCleanup (l1 l2 : list lcall) | POpen.
(** libevent takes a timer that is due from those that are pending, then calls. *)
Definition due (t : option timer) : option timer := match t with Some _ => Some (mk_timer None) | None => None end.
Definition is_pending (t : option timer) : Prop := exists tv, t = Some (mk_timer (Some tv)).
Definition pexec (o : pop) (p : poller) : outcome poller :=
  match o with
  | PAdd l => add_request l p
  | PEvent fd kind running l => event_cb fd kind running l p
  | PTimer running l => timer_cb running l (set_timer (due (timer_event p)) p)
  | PMessages l => check_messages l (set_check (due (timer_check_multi_info p)) p)
  | PCleanup l1 l2 => cleanup_sockets l1 l2 p
  | POpen => Ret (make_timers p)
  end.
Fixpoint prun (l : list pop) (p : poller) : outcome poller := match l with [] => Ret p | o :: l => p ← pexec o p; prun l p end.

(** ** What libcurl has asked for *)

(** Per socket, what it wants to know. *)
Abbreviation interests := (gmap Z Z).
Definition call_spec (i : interests) (c : lcall) : interests :=
  match c with LSocket s what _ _ => if what =? CURL_POLL_REMOVE then delete s i else <[s := what]> i | LTimer _ => i end.
Definition calls_spec (l : list lcall) (i : interests) : interests := foldl call_spec i l.
Definition calls_of (o : pop) : list lcall :=
  match o with PAdd l | PEvent _ _ _ l | PTimer _ l | PMessages l => l | PCleanup l1 l2 => l1 ++ l2 | POpen => [] end.
Definition specs (l : list pop) (i : interests) : interests := foldl (fun i o => calls_spec (calls_of o) i) i l.

(** There is memory. *)
Definition call_fits (c : lcall) : Prop := match c with LSocket _ what mem ok => what <> CURL_POLL_REMOVE -> mem = true /\ ok = true | LTimer _ => True end.
Definition all_timers (p : poller) : Prop := is_Some (timer_event p) /\ is_Some (timer_check_multi_info p).
(** What libevent and libcurl promise: an event comes for what it was made for, and ending
    the handle lets go of every socket; and the module is open. *)
Definition pop_ok (o : pop) (i : interests) (p : poller) : Prop :=
  Forall call_fits (calls_of o) /\
  match o with
  | PAdd _ => all_timers p
  | PEvent fd kind _ _ => all_timers p /\ p_multi p = true /\ exists e ev, p_events p !! e = Some ev /\ se_fd ev = fd /\ Z.land kind (se_kind ev) = kind
  | PTimer _ _ => is_pending (timer_event p) /\ all_timers p /\ p_multi p = true
  | PMessages _ => is_pending (timer_check_multi_info p) /\ all_timers p /\ p_multi p = true
  | PCleanup l1 l2 => all_timers p /\ (if p_multi p then calls_spec (l1 ++ l2) i = ∅ else l1 = [] /\ l2 = [])
  | POpen => True
  end.
Fixpoint sock_admitted (l : list pop) (i : interests) (p : poller) : Prop :=
  match l with [] => True | o :: l => pop_ok o i p /\ forall p', pexec o p = Ret p' -> sock_admitted l (calls_spec (calls_of o) i) p' end.

(** ** The invariant *)

(** Each socket libcurl watches has its SockInfo, with a live event for what was asked, and
    there are no others. *)
Definition watched (p : poller) (s act : Z) (f e : positive) : Prop :=
  p_assigned p !! s = Some f /\ p_socks p !! f = Some (mk_sock s act (Some e)) /\ p_events p !! e = Some (mk_sevent s (kind_of act)).
Record sinv (i : interests) (p : poller) : Prop := {
  si_watched : forall s act, i !! s = Some act -> exists f e, watched p s act f e;
  si_assigned : forall s f, p_assigned p !! s = Some f -> is_Some (i !! s);
  si_socks : forall f x, p_socks p !! f = Some x -> p_assigned p !! sockfd x = Some f;
  si_events : forall e ev, p_events p !! e = Some ev -> exists f x, p_socks p !! f = Some x /\ s_ev x = Some e
}.
(** A socket that is asked about and its SockInfo and event. *)
Lemma sinv_of i p s f : sinv i p -> p_assigned p !! s = Some f -> exists act e, i !! s = Some act /\ watched p s act f e.
Proof.
  intros Hi Ha. destruct (si_assigned _ _ Hi s f Ha) as [act Hact]. destruct (si_watched _ _ Hi s act Hact) as (f' & e & Hw). pose proof Hw as (Ha' & _).
  rewrite Ha in Ha'. injection Ha' as <-. by exists act, e.
Qed.
Lemma sinv_none i p s : sinv i p -> p_assigned p !! s = None -> i !! s = None.
Proof. intros Hi Ha. destruct (i !! s) as [act|] eqn:E; [|done]. destruct (si_watched _ _ Hi s act E) as (f & e & Hf & _). congruence. Qed.
(** Different sockets have different events. *)
Lemma watched_event p s s' act act' f f' e : watched p s act f e -> watched p s' act' f' e -> s = s'.
Proof. intros (_ & _ & H1) (_ & _ & H2). congruence. Qed.
Lemma watched_sock p s s' act act' f e e' : watched p s act f e -> watched p s' act' f e' -> s = s'.
Proof. intros (_ & H1 & _) (_ & H2 & _). congruence. Qed.

(** What does not touch sockets keeps the invariant. *)
Definition same_socks (p p' : poller) : Prop := p_socks p' = p_socks p /\ p_events p' = p_events p /\ p_assigned p' = p_assigned p.
Lemma sinv_same i p p' : sinv i p -> same_socks p p' -> sinv i p'.
Proof. intros [H1 H2 H3 H4] (E1 & E2 & E3). constructor; unfold watched; rewrite ?E1, ?E2, ?E3; done. Qed.
Lemma sinv_start : sinv ∅ poller_start.
Proof. constructor; cbn; intros *; rewrite lookup_empty; done. Qed.

(** *** One socket less, and one more *)

Definition put_maps (socks : gmap positive SockInfo) (events : gmap positive sevent) (assigned : gmap Z positive) (p : poller) : poller :=
  set_assigned assigned (set_events events (set_socks socks p)).
Lemma sinv_less i p s act f e : sinv i p -> watched p s act f e ->
  sinv (delete s i) (put_maps (delete f (p_socks p)) (delete e (p_events p)) (delete s (p_assigned p)) p).
Proof.
  intros Hi Hw. pose proof Hw as (Ha & Hf & He). constructor; cbn.
  - intros s' act' [Hn H']%lookup_delete_Some. destruct (si_watched _ _ Hi s' act' H') as (f' & e' & Hw'). exists f', e'.
    pose proof Hw' as (Ha' & Hf' & He'). unfold watched. cbn.
    assert (f <> f') by (intros ->; by apply Hn, (watched_sock p _ _ _ _ _ _ _ Hw Hw')). assert (e <> e') by (intros ->; by apply Hn, (watched_event p _ _ _ _ _ _ _ Hw Hw')).
    by rewrite !lookup_delete_ne.
  - intros s' f' [Hn Ha']%lookup_delete_Some. rewrite lookup_delete_ne by done. by eapply si_assigned.
  - intros f' x [Hn Hx]%lookup_delete_Some. pose proof (si_socks _ _ Hi f' x Hx) as Hs. rewrite lookup_delete_ne; [done|]. intros E. rewrite <- E in Hs. congruence.
  - intros e' ev [Hn Hev]%lookup_delete_Some. destruct (si_events _ _ Hi e' ev Hev) as (f' & x & Hx & Ex). exists f', x. split; [|done].
    rewrite lookup_delete_ne; [done|]. intros <-. rewrite Hf in Hx. injection Hx as <-. by injection Ex.
Qed.
Lemma sinv_more i p s act f e : sinv i p -> p_assigned p !! s = None -> p_socks p !! f = None -> p_events p !! e = None ->
  sinv (<[s := act]> i) (put_maps (<[f := mk_sock s act (Some e)]> (p_socks p)) (<[e := mk_sevent s (kind_of act)]> (p_events p)) (<[s := f]> (p_assigned p)) p).
Proof.
  intros Hi Ha Hf He. constructor; cbn.
  - intros s' act' H'. destruct (decide (s = s')) as [<-|Hn].
    + rewrite lookup_insert_eq in H'. injection H' as <-. exists f, e. split; [|split]; cbn; apply lookup_insert_eq.
    + rewrite lookup_insert_ne in H' by done. destruct (si_watched _ _ Hi s' act' H') as (f' & e' & Ha' & Hf' & He'). exists f', e'. unfold watched. cbn.
      rewrite !lookup_insert_ne; [done|congruence|congruence|done].
  - intros s' f' Ha'. destruct (decide (s = s')) as [<-|Hn]; [rewrite lookup_insert_eq; by eexists|]. rewrite lookup_insert_ne in Ha' by done. rewrite lookup_insert_ne by done. exact (si_assigned _ _ Hi s' f' Ha').
  - intros f' x Hx. destruct (decide (f = f')) as [<-|Hn].
    + rewrite lookup_insert_eq in Hx. injection Hx as <-. apply lookup_insert_eq.
    + rewrite lookup_insert_ne in Hx by done. pose proof (si_socks _ _ Hi f' x Hx) as Hs. rewrite lookup_insert_ne; [done|]. intros E. rewrite <- E in Hs. congruence.
  - intros e' ev Hev. destruct (decide (e = e')) as [<-|Hn].
    + exists f. eexists. by rewrite lookup_insert_eq.
    + rewrite lookup_insert_ne in Hev by done. destruct (si_events _ _ Hi e' ev Hev) as (f' & x & Hx & Ex). exists f', x. rewrite lookup_insert_ne; [done|congruence].
Qed.

(** What a callback of libcurl leaves alone. *)
Definition same_rest (p p' : poller) : Prop :=
  timer_check_multi_info p' = timer_check_multi_info p /\ p_multi p' = p_multi p /\ p_actions p' = p_actions p /\ (is_Some (timer_event p) -> is_Some (timer_event p')).
#[export] Instance same_rest_preorder : PreOrder same_rest.
Proof. split; [by intros p; repeat split|]. intros p q r (A1 & A2 & A3 & A4) (B1 & B2 & B3 & B4). repeat split; [congruence|congruence|congruence|auto]. Qed.

Lemma setsock_ok i p s act what f e : sinv i p -> watched p s act f e -> returns (setsock f s what true p) (fun p' => sinv (<[s := what]> i) p' /\ same_rest p p' /\ timer_event p' = timer_event p).
Proof.
  intros Hi Hw. pose proof (sinv_less i p s act f e Hi Hw) as H0. pose proof Hw as (Ha & Hf & He). unfold setsock, sock_at. rewrite Hf. cbn [mbind outcome_bind s_ev free_event_opt].
  unfold free_event. rewrite He. cbn [mbind outcome_bind negb]. set (e' := fresh _). cbn [returns]. split; [|done].
  assert (He' : delete e (p_events p) !! e' = None) by (apply not_elem_of_dom, is_fresh).
  pose proof (sinv_more (delete s i) _ s what f e' H0) as H1. cbn [p_assigned p_socks p_events put_maps set_assigned set_events set_socks] in H1.
  rewrite insert_delete_eq in H1. eapply sinv_same; [apply H1; [by apply lookup_delete_eq|by apply lookup_delete_eq|exact He']|]. cbn.
  split; [by rewrite insert_delete_eq|]. split; [done|]. cbn. by rewrite insert_delete_eq, insert_id.
Qed.
Lemma addsock_ok i p s what : sinv i p -> p_assigned p !! s = None -> returns (addsock s what true true p) (fun p' => sinv (<[s := what]> i) p' /\ same_rest p p' /\ timer_event p' = timer_event p).
Proof.
  intros Hi Ha. unfold addsock. cbn [negb]. set (f := fresh _). assert (Hf : p_socks p !! f = None) by (apply not_elem_of_dom, is_fresh).
  unfold setsock, sock_at. cbn [p_socks set_socks]. rewrite lookup_insert_eq. cbn [mbind outcome_bind s_ev free_event_opt negb]. set (e := fresh _). cbn [returns]. split; [|done].
  assert (He : p_events p !! e = None) by (apply not_elem_of_dom, is_fresh). eapply sinv_same; [exact (sinv_more i p s what f e Hi Ha Hf He)|]. cbn. by rewrite insert_insert_eq.
Qed.
Lemma remsock_ok i p s act f e : sinv i p -> watched p s act f e ->
  returns (remsock (Some f) p) (fun p' => sinv (delete s i) (set_assigned (delete s (p_assigned p')) p') /\ same_rest p p' /\ timer_event p' = timer_event p).
Proof.
  intros Hi Hw. pose proof (sinv_less i p s act f e Hi Hw) as H0. pose proof Hw as (Ha & Hf & He). unfold remsock, sock_at. rewrite Hf. cbn [mbind outcome_bind s_ev free_event_opt].
  unfold free_event. rewrite He. cbn [mbind outcome_bind returns]. split; [|done]. eapply sinv_same; [exact H0|]. done.
Qed.

(** ** Every step *)

Lemma libcurl_calls_ok i p c : sinv i p -> call_fits c -> is_Some (timer_event p) -> returns (libcurl_calls c p) (fun p' => sinv (call_spec i c) p' /\ same_rest p p').
Proof.
  intros Hi Hc [t Ht]. destruct c as [s what mem ok|ms]; cbn [libcurl_calls call_spec].
  - unfold sock_cb. cbn in Hc. destruct (Z.eqb_spec what CURL_POLL_REMOVE) as [_|Hn].
    + destruct (p_assigned p !! s) as [f|] eqn:Ha.
      * destruct (sinv_of i p s f Hi Ha) as (act & e & _ & Hw). pose proof (remsock_ok i p s act f e Hi Hw) as Hx. apply returns_inv in Hx as (p' & -> & H1 & H2 & _). cbn [mbind outcome_bind returns].
        split; [exact H1|exact H2].
      * cbn [remsock mbind outcome_bind returns]. rewrite delete_id by (by eapply sinv_none). split; [|done]. eapply sinv_same; [exact Hi|]. unfold same_socks. cbn. by rewrite delete_id.
    + destruct (Hc Hn) as [-> ->]. destruct (p_assigned p !! s) as [f|] eqn:Ha.
      * destruct (sinv_of i p s f Hi Ha) as (act & e & _ & Hw). pose proof (setsock_ok i p s act what f e Hi Hw) as Hx. apply returns_inv in Hx as (p' & -> & H1 & H2 & _). by split.
      * pose proof (addsock_ok i p s what Hi Ha) as Hx. apply returns_inv in Hx as (p' & -> & H1 & H2 & _). by split.
  - unfold multi_timer_cb. rewrite Ht. cbn. split; [by eapply sinv_same|]. repeat split. intros _. by eexists.
Qed.
Lemma libcurl_run_ok l : forall i p, sinv i p -> Forall call_fits l -> l = [] \/ is_Some (timer_event p) -> returns (libcurl_run l p) (fun p' => sinv (calls_spec l i) p' /\ same_rest p p').
Proof.
  induction l as [|c l IH]; intros i p Hi Hf Ht; [done|]. apply Forall_cons in Hf as [Hc Hf]. destruct Ht as [|Ht]; [done|]. cbn [libcurl_run calls_spec foldl].
  pose proof (libcurl_calls_ok i p c Hi Hc Ht) as Hx. apply returns_inv in Hx as (p1 & -> & Hi1 & Hr1). cbn [mbind outcome_bind].
  eapply returns_mono; [apply (IH _ p1 Hi1 Hf); right; by apply Hr1|]. intros p2 [Hi2 Hr2]. split; [exact Hi2|by transitivity p1].
Qed.
(** The timer libcurl asked for last. *)
Definition asked (l : list lcall) (t : option timer) : option timer :=
  foldl (fun t c => match c with LTimer ms => Some (mk_timer (Some (Z.quot ms 1000, Z.rem ms 1000 * 1000))) | LSocket _ _ _ _ => t end) t l.
Lemma sock_timer s what mem ok sp p p' : sock_cb s what mem ok sp p = Ret p' -> timer_event p' = timer_event p.
Proof.
  assert (Hfe : forall e q q', free_event_opt e q = Ret q' -> timer_event q' = timer_event q).
  { intros [e|] q q'; cbn; [|by intros [= <-]]. unfold free_event. destruct (p_events q !! e); [|done]. by intros [= <-]. }
  assert (Hset : forall f q q', setsock f s what ok q = Ret q' -> timer_event q' = timer_event q).
  { intros f q q' (x & _ & (q1 & E1 & E)%bind_ret)%bind_ret. destruct ok; cbn in E; [|done]. injection E as <-. cbn. by eapply Hfe. }
  unfold sock_cb. destruct (what =? CURL_POLL_REMOVE).
  - destruct sp as [f|]; cbn [remsock]; [|by intros [= <-]]. intros (x & _ & (q1 & E1 & E)%bind_ret)%bind_ret. injection E as <-. cbn. by eapply Hfe.
  - destruct sp as [f|]; [apply Hset|]. unfold addsock. destruct mem; cbn [negb]; [|done]. intros (q1 & E1 & E)%bind_ret. injection E as <-. cbn. by rewrite (Hset _ _ _ E1).
Qed.
Lemma libcurl_run_timer l : forall p p', libcurl_run l p = Ret p' -> timer_event p' = asked l (timer_event p).
Proof.
  induction l as [|c l IH]; intros p p' E; [by injection E as <-|]. apply bind_ret in E as (p1 & E1 & E). rewrite (IH _ _ E).
  assert (E3 : timer_event p1 = asked [c] (timer_event p)); [|by rewrite E3]. destruct c as [s what mem ok|ms].
  - apply bind_ret in E1 as (p2 & E2 & E1). injection E1 as <-. destruct (what =? CURL_POLL_REMOVE); exact (sock_timer _ _ _ _ _ _ _ E2).
  - apply bind_ret in E1 as (t & E2 & E1). injection E1 as <-. unfold timer_add in E2. destruct (timer_event p); [|done]. by injection E2 as <-.
Qed.
(** A call of libcurl: the sockets follow, and the check of its messages can be set. *)
Lemma socket_action_ok i p s a running l : sinv i p -> Forall call_fits l -> all_timers p -> p_multi p = true -> returns (socket_action s a running l p) (fun p' =>
  sinv (calls_spec l i) p' /\ all_timers p' /\ p_multi p' = true /\ still_running p' = running /\ p_actions p' = p_actions p ++ [(s, a)] /\ timer_event p' = asked l (timer_event p)).
Proof.
  intros Hi Hf [Ht1 Ht2] Hm. unfold socket_action. rewrite Hm. cbn [negb]. pose proof (libcurl_run_ok l i (log_action (s, a) p)) as Hx. assert (Hi0 : sinv i (log_action (s, a) p)) by (by eapply sinv_same). specialize (Hx Hi0 Hf (or_intror Ht1)).
  apply returns_inv in Hx as (p1 & E1 & Hi1 & R1 & R2 & R3 & R4). pose proof (libcurl_run_timer _ _ _ E1) as Et. rewrite E1. cbn [mbind outcome_bind returns].
  split; [by eapply sinv_same|]. split; [split; [by apply R4|by cbn; rewrite R1]|]. split; [cbn; rewrite R2; exact Hm|]. split; [done|]. split; [exact R3|exact Et].
Qed.

(** libevent reports only what it was asked, so libcurl is told only what it asked. *)
Lemma land_bit n x : 0 <= n -> Z.land (2 ^ n) x = if Z.testbit x n then 2 ^ n else 0.
Proof.
  intros Hn. apply Z.bits_inj'. intros m Hm. rewrite Z.land_spec, Z.pow2_bits_eqb by done. destruct (Z.eqb_spec n m) as [<-|Hne].
  - destruct (Z.testbit x n); [by rewrite Z.pow2_bits_eqb, Z.eqb_refl|by rewrite Z.bits_0].
  - cbn [andb]. destruct (Z.testbit x n); [|by rewrite Z.bits_0]. rewrite Z.pow2_bits_eqb by done. symmetry. by apply Z.eqb_neq.
Qed.
Lemma true_bit n x : 0 <= n -> c_true (Z.land x (2 ^ n)) = Z.testbit x n.
Proof. intros Hn. rewrite Z.land_comm, land_bit by done. unfold c_true. destruct (Z.testbit x n); [|done]. destruct (Z.eqb_spec (2 ^ n) 0); [|done]. lia. Qed.
Lemma reported_asked kind act : Z.land kind (kind_of act) = kind -> Z.land (action_of kind) act = action_of kind.
Proof.
  intros Hk. assert (H1 : Z.testbit kind 1 = true -> Z.testbit act 0 = true /\ Z.testbit (kind_of act) 1 = true).
  { intros Hb. rewrite <- Hk, Z.land_spec in Hb. apply andb_true_iff in Hb as [_ Hb]. split; [|done]. revert Hb. unfold kind_of. change CURL_POLL_IN with (2 ^ 0). change CURL_POLL_OUT with (2 ^ 1).
    rewrite !true_bit by lia. by destruct (Z.testbit act 0), (Z.testbit act 1). }
  assert (H2 : Z.testbit kind 2 = true -> Z.testbit act 1 = true).
  { intros Hb. rewrite <- Hk, Z.land_spec in Hb. apply andb_true_iff in Hb as [_ Hb]. revert Hb. unfold kind_of. change CURL_POLL_IN with (2 ^ 0). change CURL_POLL_OUT with (2 ^ 1).
    rewrite !true_bit by lia. by destruct (Z.testbit act 0), (Z.testbit act 1). }
  unfold action_of. change EV_READ with (2 ^ 1). change EV_WRITE with (2 ^ 2). rewrite !true_bit by lia. change CURL_CSELECT_IN with (2 ^ 0). change CURL_CSELECT_OUT with (2 ^ 1).
  rewrite Z.land_lor_distr_l. f_equal.
  - destruct (Z.testbit kind 1); [|done]. rewrite land_bit by lia. by destruct (H1 eq_refl) as [-> _].
  - destruct (Z.testbit kind 2); [|done]. rewrite land_bit by lia. by rewrite (H2 eq_refl).
Qed.

Lemma event_cb_ok i p fd kind running l : sinv i p -> pop_ok (PEvent fd kind running l) i p -> returns (event_cb fd kind running l p) (fun p' =>
  sinv (calls_spec l i) p' /\ p_actions p' = p_actions p ++ [(fd, action_of kind)] /\ timer_check_multi_info p' = Some (mk_timer (Some (0, 100))) /\
  (0 < running -> timer_event p' = asked l (timer_event p))).
Proof.
  intros Hi (Hf & Ht & Hm & _). unfold event_cb. pose proof (socket_action_ok i p fd (action_of kind) running l Hi Hf Ht Hm) as Hx.
  apply returns_inv in Hx as (p1 & -> & Hi1 & [[t1 Ht1] [t2 Ht2]] & _ & Er & Ea & Et). cbn [mbind outcome_bind]. rewrite Ht2. cbn [timer_add mbind outcome_bind]. cbn [still_running set_check]. rewrite Er.
  destruct (Z.leb_spec running 0).
  - cbn [timer_event set_check]. rewrite Ht1. cbn [timer_del mbind outcome_bind returns]. split; [by eapply sinv_same|]. split; [exact Ea|]. split; [done|lia].
  - cbn [returns]. split; [by eapply sinv_same|]. split; [exact Ea|]. split; [done|]. intros _. exact Et.
Qed.
Lemma pexec_ok o i p : sinv i p -> pop_ok o i p -> returns (pexec o p) (fun p' => sinv (calls_spec (calls_of o) i) p').
Proof.
  intros Hi Ho. pose proof Ho as [Hf Hp]. destruct o as [l|fd kind running l|running l|l|l1 l2|]; cbn [pexec calls_of] in *.
  - destruct Hp as [Ht _]. assert (Hi0 : sinv i (set_running true (still_running p) p)) by (by eapply sinv_same).
    eapply returns_mono; [apply (libcurl_run_ok l i _ Hi0 Hf); by right|]. by intros p' [H _].
  - eapply returns_mono; [by apply (event_cb_ok i)|]. by intros p' [H _].
  - destruct Hp as ([tv Hd] & [_ Ht] & Hm). unfold timer_cb. set (p0 := set_timer _ p). assert (Hi0 : sinv i p0) by (by eapply sinv_same).
    assert (Ht0 : all_timers p0) by (split; [cbn; rewrite Hd; by eexists|exact Ht]).
    pose proof (socket_action_ok i p0 CURL_SOCKET_TIMEOUT 0 running l Hi0 Hf Ht0 Hm) as Hx.
    apply returns_inv in Hx as (p1 & -> & Hi1 & [_ [t2 Ht2]] & _). cbn [mbind outcome_bind]. rewrite Ht2. cbn. by eapply sinv_same.
  - destruct Hp as (_ & [Ht _] & Hm). unfold check_messages. cbn [p_multi set_check]. rewrite Hm. assert (Hi0 : sinv i (set_check (due (timer_check_multi_info p)) p)) by (by eapply sinv_same).
    eapply returns_mono; [apply (libcurl_run_ok l i _ Hi0 Hf); by right|]. by intros p' [H _].
  - destruct Hp as [[Ht _] Hm]. apply Forall_app in Hf as [Hf1 Hf2]. unfold cleanup_sockets. pose proof (libcurl_run_ok l1 i p Hi Hf1 (or_intror Ht)) as Hx.
    apply returns_inv in Hx as (p1 & -> & Hi1 & _ & R2 & _ & R4). cbn [mbind outcome_bind]. rewrite R2. destruct (p_multi p).
    + pose proof (libcurl_run_ok l2 _ p1 Hi1 Hf2 (or_intror (R4 Ht))) as Hx. apply returns_inv in Hx as (p2 & -> & Hi2 & _). cbn [mbind outcome_bind returns].
      assert (E : calls_spec (l1 ++ l2) i = calls_spec l2 (calls_spec l1 i)) by apply foldl_app. rewrite E. by eapply sinv_same.
    + destruct Hm as [-> ->]. cbn. by eapply sinv_same.
  - cbn. by eapply sinv_same.
Qed.
Lemma prun_ok l : forall i p, sinv i p -> sock_admitted l i p -> returns (prun l p) (fun p' => sinv (specs l i) p').
Proof.
  induction l as [|o l IH]; intros i p Hi Ha; [done|]. destruct Ha as [Ho Ha]. cbn [prun specs foldl]. pose proof (pexec_ok o i p Hi Ho) as Hx.
  apply returns_inv in Hx as (p1 & E1 & Hi1). rewrite E1. cbn [mbind outcome_bind]. apply (IH _ p1 Hi1). by apply Ha.
Qed.

(** C40: At all times each socket libcurl watches has one SockInfo and one live event, for exactly what libcurl asked last, and there are no others: none is left when
    libcurl lets go of the sockets.  An event tells libcurl only what it asked, sets the check of the messages, and keeps the timer libcurl asked for while anything
    is running. *)
Theorem http_sockets_watched ops : sock_admitted ops ∅ poller_start -> returns (prun ops poller_start) (fun p => let i := specs ops ∅ in
  (forall s act, i !! s = Some act <-> exists f e, watched p s act f e) /\
  (forall f x, p_socks p !! f = Some x -> exists act e, watched p (sockfd x) act f e) /\
  (forall e ev, p_events p !! e = Some ev -> exists act f, watched p (se_fd ev) act f e) /\
  (i = ∅ -> p_socks p = ∅ /\ p_events p = ∅) /\
  forall fd kind running l, pop_ok (PEvent fd kind running l) i p -> returns (event_cb fd kind running l p) (fun p' =>
    p_actions p' = p_actions p ++ [(fd, action_of kind)] /\ (exists act, i !! fd = Some act /\ Z.land (action_of kind) act = action_of kind) /\
    timer_check_multi_info p' = Some (mk_timer (Some (0, 100))) /\ (0 < running -> timer_event p' = asked l (timer_event p)))).
Proof.
  intros Ha. eapply returns_mono; [apply (prun_ok ops ∅ _ sinv_start Ha)|]. intros p Hi. set (i := specs ops ∅) in *. cbn zeta.
  assert (Hsock : forall f x, p_socks p !! f = Some x -> exists act e, i !! sockfd x = Some act /\ watched p (sockfd x) act f e).
  { intros f x Hx. by apply (sinv_of i p), (si_socks _ _ Hi). }
  assert (Hev : forall e ev, p_events p !! e = Some ev -> exists act f, i !! se_fd ev = Some act /\ watched p (se_fd ev) act f e).
  { intros e ev Hev. destruct (si_events _ _ Hi e ev Hev) as (f & x & Hx & Ex). destruct (Hsock f x Hx) as (act & e' & Hact & Hw). pose proof Hw as (_ & Hx' & He').
    rewrite Hx in Hx'. injection Hx' as Ex'. rewrite Ex' in Ex. cbn in Ex. injection Ex as ->. rewrite Hev in He'. injection He' as ->. exists act, f. by rewrite Ex' in *. }
  split; [|split; [|split; [|split]]].
  - intros s act. split; [by apply (si_watched _ _ Hi)|]. intros (f & e & Hw). pose proof Hw as (Hs & Hx & _). destruct (sinv_of i p s f Hi Hs) as (act' & e' & Hact & (_ & Hx' & _)). congruence.
  - intros f x Hx. destruct (Hsock f x Hx) as (act & e & _ & Hw). by exists act, e.
  - intros e ev He. destruct (Hev e ev He) as (act & f & _ & Hw). by exists act, f.
  - intros E. split; apply map_eq; intros y; rewrite lookup_empty.
    + destruct (p_socks p !! y) as [x|] eqn:Ex; [|done]. destruct (Hsock y x Ex) as (act & _ & Hact & _). by rewrite E, lookup_empty in Hact.
    + destruct (p_events p !! y) as [x|] eqn:Ex; [|done]. destruct (Hev y x Ex) as (act & _ & Hact & _). by rewrite E, lookup_empty in Hact.
  - intros fd kind running l Ho. eapply returns_mono; [by apply (event_cb_ok i)|]. intros p' (_ & H1 & H2 & H3). split; [done|]. split; [|done].
    destruct Ho as (_ & _ & _ & e & ev & He & <- & Hk). destruct (Hev e ev He) as (act & f & Hact & (_ & _ & He')). exists act. split; [done|]. apply reported_asked.
    rewrite He in He'. injection He' as E'. rewrite E' in Hk. exact Hk.
Qed.

(** ** Concrete runs *)

(** A timeout of -1, by which libcurl says that it wants no timer, sets one that is due; after the cleanup the timers are gone, and the next request makes libcurl
    set them; without memory for a socket a null pointer is written to. *)
Theorem http_sockets_errors :
  returns (prun [POpen; PAdd [LTimer (-1)]] poller_start) (fun p => timer_event p = Some (mk_timer (Some (0, -1000)))) /\
  prun [POpen; PAdd [LTimer 0]; PCleanup [] []; PAdd [LTimer 0]] poller_start = UB /\
  prun [POpen; PAdd [LSocket 7 CURL_POLL_IN false true]] poller_start = UB /\
  prun [POpen; PAdd [LSocket 7 CURL_POLL_IN true false]] poller_start = UB.
Proof. vm_compute. repeat split. Qed.

Definition poll_ops : list pop := [POpen; PAdd [LTimer 0; LSocket 7 CURL_POLL_OUT true true; LSocket 8 CURL_POLL_IN true true]; PTimer 2 []; PMessages [LSocket 8 CURL_POLL_REMOVE true true]].
Definition polled : poller := match prun poll_ops poller_start with Ret p => p | _ => poller_start end.
Definition pnext (o : pop) (p : poller) : poller := match pexec o p with Ret p' => p' | _ => p end.
Lemma sock_admitted_cons o l i p : pop_ok o i p -> sock_admitted l (calls_spec (calls_of o) i) (pnext o p) -> sock_admitted (o :: l) i p.
Proof. intros Ho Hl. split; [done|]. intros p' E. unfold pnext in Hl. by rewrite E in Hl. Qed.
Lemma poll_ops_ok : sock_admitted poll_ops ∅ poller_start.
Proof.
  unfold poll_ops. apply sock_admitted_cons; [by split|]. apply sock_admitted_cons.
  { split; [repeat constructor|]. split; by eexists. }
  apply sock_admitted_cons; [split; [repeat constructor|]; split; [by eexists|]; split; [split; by eexists|reflexivity]|].
  apply sock_admitted_cons; [|exact I]. split; [repeat constructor; intros []; reflexivity|]. split; [vm_compute; by eexists|]. split; [split; by eexists|reflexivity].
Qed.
Lemma http_sockets_watched_witness : (exists f e, watched polled 7 CURL_POLL_OUT f e) /\ p_assigned polled !! 8 = None /\
  returns (event_cb 7 EV_WRITE 1 [LTimer 5; LSocket 7 CURL_POLL_IN true true] polled) (fun p =>
    p_actions p = [(CURL_SOCKET_TIMEOUT, 0); (7, CURL_CSELECT_OUT)] /\ timer_event p = Some (mk_timer (Some (0, 5000)))).
Proof.
  pose proof (http_sockets_watched poll_ops poll_ops_ok) as X. destruct (prun poll_ops poller_start) as [p| |] eqn:E; [|destruct X|destruct X].
  assert (Ep : p = polled) by (unfold polled; rewrite E; reflexivity). subst p. destruct X as (X1 & _ & _ & _ & X5). split; [|split].
  - apply X1. vm_compute. reflexivity.
  - vm_compute. reflexivity.
  - eapply returns_mono; [apply X5|].
    + split; [repeat constructor|]. split; [split; vm_compute; by eexists|]. split; [vm_compute; reflexivity|].
      exists 1%positive. eexists. split; [vm_compute; reflexivity|]. split; vm_compute; reflexivity.
    + intros p' (H1 & _ & _ & H4). rewrite H1, H4 by lia. vm_compute. repeat split.
Defined.
